(* ===== verification/_CoqProject ===== *)
-Q . S2P
Prelude.v
PyStr.v
Table.v
Utf8.v
Sha256.v
Platform.v
Schema.v
Access.v
AgentIdentity.v
Members.v
MembersInv.v
Delegation.v
DelegationProps.v
Lifecycle.v
LifecycleProps.v
PyValue.v
Json.v
Cursor.v
RuntimeClient.v
Worker.v
WorkerProps.v
Stream.v
StreamProps.v
Contract.v
ContractProps.v
Snapshot.v
SnapshotProps.v
WorkspaceCommit.v
WorkspaceCommitProps.v
Quota.v
Assets.v
Library.v
Sources.v
ResourceGc.v
Plugins.v
Hosted.v
Sessions.v
Inputs.v
Messages.v
HostedInv.v
HostedProps.v
InputsProps.v
RuntimeReplies.v
Transcript.v
TranscriptProps.v
Artifacts.v
LibraryProps.v
SourcesProps.v
Retention.v
ArtifactsProps.v
Definitions.v
DefinitionsProps.v
PasswordReset.v
PasswordResetProps.v
MaterialManifest.v
MaterialManifestProps.v
Materials.v
MaterialsProps.v
MaterialSystem.v
MaterialRecovery.v
MaterialDelivery.v
MaterialDeliveryProps.v
MaterialTools.v
MaterialToolsProps.v
SnapshotGc.v
SnapshotGcProps.v
Trash.v
TrashProps.v
