(* ===== verification/Prelude.v ===== *)
(** * Verification of the Centaeris Workspace hosted control plane

    ** The program

    Centaeris Workspace is a multi-tenant service in which members of a workspace run agents.  A Django API
    (packages/api) keeps users, workspaces, sessions and runs in PostgreSQL; a worker (packages/worker) claims
    lifecycle jobs from a Rust job service, drives runs on a Rust runtime, and reports every change of a run's
    state back to the API; the runtime commits Session events, which the API projects onto runs and streams to
    clients; a run works on a signed authorization and on a snapshot of its session's workspace, which it commits
    back.  The models translate the Python code.  The Rust services, PostgreSQL, Redis, object storage and model
    providers are what the code talks to: their answers are arguments, and the theorems hold for all of them
    unless a hypothesis says otherwise.

    ** Files, source and theorems

    Foundations.
    - Prelude: results of fallible code ([res]), shared lemmas, tactics and hints.
    - PyStr, Utf8, Sha256, PyValue, Json: the Python values, text encoding, digests and JSON the code uses, all
      executable.  Json proves that [json.loads] reads back what [json.dumps] writes and that base64 decodes what
      it encodes.  Floats are kept as their text.
    - Table: a Django table as a finite map, with the queries and constraints the code relies on.
    - Platform: the Unicode database, Django's account helpers and password hashing as a class with their
      documented laws; [ascii_platform] is an instance on which the witnesses are evaluated.

    Identity and access.
    - Schema: the rows of models.py for users, workspaces, memberships, groups, invitations, agents, sources and
      delegations.
    - Access: workspace_access.py.  A member's access to a source is the strongest grant of the member's groups,
      and the batch computation agrees with the single one.
    - AgentIdentity: agent_identity.py, agent_defaults.py.
    - Members, MembersInv: every endpoint of http/workspace_members.py as a transaction on the tables.  Every
      request keeps the table invariant (one owner per active workspace among it); ownership moves only by a
      transfer, which succeeds under its preconditions; strangers change nothing; an invitation admits the invited
      user, once; a removed member has no access left.
    - Delegation, DelegationProps: app_delegations.py, http/app_delegations.py, hosted_operations.py.  Exactly
      which delegations are accepted, that revocation is final and leaving a workspace ends a delegation for good,
      that an issued token authenticates, that a request stays within its delegation, and that an accepted
      operation is replayed with its receipt.

    Runs.
    - Lifecycle, LifecycleProps: session_event.py and the lifecycle endpoints of http/internal.py.  A run is
      shown completed or cancelled only when its log says so, and stays so; a dead-lettered run is repaired when
      its log has a terminal event; the paged scan visits every row once.
    - RuntimeClient, Worker, WorkerProps: worker.py and the job naming of runtime_client.py.  A job is completed
      only after the run's terminal state was recorded and its execution torn down; deliveries are acknowledged
      only when complete; the worker accepts what the API answers to a transition.
    - Cursor, Stream, StreamProps: agent_run_stream.py.  Events are delivered exactly once and in order under
      concurrent commits; a reconnecting client resumes where it was; a finished run is streamed to its end; live
      text is never older than the committed log shown; nothing is shown without current authority.

    Authorization and workspace contents.
    - Contract, ContractProps: runtime_contract.py with the plugin activation checks of plugin_catalog.py.
      Validated paths stay inside their directory, the digest determines the payload (up to a collision of
      SHA-256), signatures verify exactly when they were made, and a valid payload respects the sandbox's limits.
    - Snapshot, SnapshotProps: the upload reader and manifest of http/internal.py.  The streaming reader accepts
      exactly the valid snapshots, however the upload is cut.  One theorem records that the check for a file below
      a file is incomplete.
    - WorkspaceCommit, WorkspaceCommitProps: resolve and commit of a session workspace, in phases that interleave
      with other requests.  At most one commit succeeds per baseline.
    - Quota: model_adapter/quota.py as interleaved steps, in which an attempt may lose its lock connection and go on
      calling the provider.  The attempts that keep their connection never exceed the configured concurrency.

    Stored objects.
    - Assets: assets.py and trash_retention.py: file names, the object store, the objects that own stored bytes and
      the derived resources through which deleted bytes are reclaimed.
    - Library, LibraryProps: the file, note and folder endpoints of http/library.py, with storage that may fail to save
      and refuse to delete.  Folders stay a forest of their owner, live objects of a folder share a name only when one
      is the saved copy of an artifact, which takes names that are in use, and the loops over names and parents end.
    - Sources, SourcesProps: http/sources.py.  Exactly the sources a member may see are listed; only a member with
      control over a source changes it or its grants, except that the upload of a member who may write makes it ready;
      a restore undoes a deletion.
    - ResourceGc, Retention: deleted_resource_gc.py, one definition per transaction and storage operation, and the
      interleaving of requests, copies of artifacts, the expiry of trash, both collectors (of deleted resources and of
      files without an owner) and time.  The bytes of an object that is live or fully protected by the trash are
      present and unchanged, except for notes a rewrite of which failed to commit.  Theorems record what goes wrong: an
      upload can end in a folder that was deleted in the meantime, restorable bytes can be reclaimed after the
      retention period, and a rewrite that fails to commit has already deleted the bytes of the note.

    - SnapshotGc, SnapshotGcProps: workspace_snapshot_gc.py over a model of the local file system, with arbitrary
      interference before each step.  Only files of sessions that were deleted for good are deleted; an undisturbed pass
      deletes exactly what a dry run plans, and that is everything collectable.
    - Trash, TrashProps: http/trash.py and http/trash_pagination.py.  A client that follows the cursors is shown every
      selected item of four tables once and in order, although a page only looks at the first rows of each.

    Agents, sessions and submissions.
    - Plugins: plugin_catalog.py and the plugin endpoints of http/workspaces.py.
    - Hosted: the tables of agents, sessions, projects, runs, receipts, asset links and captured outputs.  The stores
      of the identity, lifecycle and object files are views of this state or parts of it.
    - Sessions: http/agents.py and the session endpoints of http/workspaces.py.
    - Inputs, InputsProps: attachments, declared and resolved inputs (assets.py, deferred_input.py).  A resolved input
      is one the run's user may still read and that has not changed since it was declared; the batch with its cache
      of verified authorizations answers what single calls answer; names in the sandbox are distinct and safe.
    - Messages: create_session_message in its three phases, with admission (execution_admission.py), the row of the
      run and the authorization that is signed for the runtime.
    - HostedInv, HostedProps: the invariant of these tables over every interleaving of these transactions.  A session
      has at most one active run, the queue stays within its limits, an operation id takes effect once (a
      repetition is answered with the first receipt, 409 or 410), a submission that is not accepted keeps no upload that
      the storage lets go of, and an accepted run carries a verifying authorization.
    - RuntimeReplies: the requests of runtime_client.py and which answers of the runtime they accept.
    - Transcript, TranscriptProps: the transcript endpoints of http/workspaces.py and transcript_output.py.  A client
      that follows the ranges of an output reads all of it, one that follows patches reaches its water line, the active
      run is found without conflict, and the reported context usage adds up.  One lemma records that an inline content
      can be read from inside its last code point.
    - Definitions, DefinitionsProps: http/agent_definitions.py with the rows of shared agent definitions.  The versions
      of a definition form a history that is never rewritten; a published draft can be run; what members are offered is
      what was set; a member who uses a definition gets one agent.
    - Artifacts, ArtifactsProps: artifact_publish.py and its endpoints, in phases that interleave.  Storing the bytes is
      one step per file operation ([storing_step]: open, write a chunk, close, and the handler that verifies a file that
      is already there, or deletes it), so that others see files half written and a check is not atomic with the deletion
      after it.  Publication refines an abstract register in which a publication is opened once and published at most
      once; as long as no two requests store the bytes of one artifact at the same time, published artifacts have their
      bytes and an accepted publication is what the request says.  Without that condition a retry can delete what another
      request has published: [concurrent_retry_deletes_published_bytes].

    Accounts.
    - PasswordReset, PasswordResetProps: password_reset.py and the account endpoints of http/auth.py.  Requests stay within
      their limits unless they overlap, the link of a requested mail resets the password of the account it was requested
      for, and no mail requested before a reset is sent after it.

    Processed documents.
    - MaterialManifest, MaterialManifestProps: the pure part of material_commit.py, material_identity.py and
      material_contract.py: identities, the validation of manifests and workbooks, and segments.  The segments of an
      accepted manifest are its text.
    - Materials: material_leases.py, material_task_source.py, material_storage.py, material_staging.py, the rest of
      material_commit.py, platform_material_commit.py and what material_processor.py does to the tables, in a monad of
      state and exceptions in which a transaction that raises undoes the tables and not the object store.
    - MaterialsProps: what each operation may do to rows and objects, on every path.
    - MaterialSystem: workers, failures, crashes, clean-ups, previews (the task http/office_preview.py creates), the
      collector of deleted resources (check, deletion of the object and deletion of the rows as separate steps) and other
      requests as a step relation, and its invariant.  Leases are fenced by their epoch, representations have their
      bytes until the collector has claimed them, and no object is forgotten.
    - MaterialRecovery: whatever crashes left behind, a worker with a live lease publishes; a history evaluated.
    - MaterialDelivery, MaterialDeliveryProps: material_evidence.py and the pages of material_delivery.py.  A client that
      follows the cursors of a saved result is shown all of it, once and in order, in pages that fit; and every item is what
      the stored text has at the bytes it names.  One example records that reads and pages count lines differently.
    - MaterialTools, MaterialToolsProps: material_access.py, material_reads.py, material_operations.py,
      material_receipts.py, the saved results of material_delivery.py, platform_mcp.py and platform_mcp_auth.py, in a monad
      of state and exceptions.  Only documents the run may read now are shown; a citation is exact and was made by a result
      that was committed; a credential is accepted exactly while it and the authorization are current.  The history at
      the end goes from a credential to a citation.

    ** Conventions

    A handler takes the state and the request and returns its answer with the state after the transaction; an
    exception is an [Err] and leaves the transaction uncommitted.  Requests that run in one database transaction
    with row locks are atomic.  Code that releases the database between two transactions (stream, commit, quota,
    worker) is split at those points, and what others do in between is arbitrary or any sequence of steps.  Fresh
    identifiers, random tokens and clock readings are arguments.  Integers are unbounded, as in Python; where the
    code or a column bounds them the bound is in the definition.

    ** Fuel

    - [json.loads] on a text of [n] code points gets fuel [2 n + 1], more than any parse needs; the round-trip
      lemmas show it is enough for what [json.dumps] writes.
    - [_drain_postgres] uses one unit per page of 100 events: [finished_run_stream_is_complete] holds for every fuel
      that covers the log.  The tail loop runs a given number of iterations, because a stream of a live run has no
      end; its safety theorems hold for every number.
    - [_consume] gets the length of its chunk, as every iteration consumes a byte, and [read_loop] the announced size;
      [snapshot_reader_correct] shows that this is enough for every valid snapshot.
    - [scan_all] gets one unit per page and is shown to return every row.
    - The search for a free numbered name gets one unit more than the library has objects, the walk to the root of a
      folder one per object; [library_loops_terminate] shows that both are enough.
    - [store_artifact_bytes] gets [storing_fuel], one unit per announced byte and a few for opening, closing and the
      handler, which [store_artifact_bytes_ends] shows to be enough.
    - [kchunks] and [read_exact] get one unit per byte that is announced and one for the end, as every iteration
      reads a byte; [page_segments] gets the length of the text.
    - The clients [read_content] and [follow_patches] get one unit per code point and per position, which their theorems
      show to be enough.
    - [search_count] gets the length of the interval it bisects ([search_count_spec]), [join_pages] the number of results
      ([join_pages_enough]), and the client [read_pages] one unit per character and per result, which
      [cursors_deliver_everything] shows to be enough.  [count_in] gets the length of the text.
    - [follow_trash] gets one unit more than there are items, which [trash_is_listed_completely] shows to be enough.

    ** Hypotheses

    The stream theorems assume the Session log is append-only with unique sequences, which models.py and the
    runtime's commit protocol ensure.  [stored_bytes_are_kept] assumes that storage hands out unused names, that new
    identifiers are unused, that a collector acts within its lease, that the collector of files without an owner looks
    only at files older than every upload in flight, and that artifacts are copied from intact bytes.  What the resolution of inputs takes as
    proof that an authorization was verified before is assumed to be only that.  The theorems on artifacts and on
    materials assume that storage keeps a free name or hands out an unused one, and that the requests that are not steps of their
    relations leave the objects and rows of these components alone; a worker that repeats a commit after its task was completed is assumed to announce
    what it has published.  A saved result is assumed to be small enough for the digits of a cursor, with metadata that
    leave room for one character of a page.  [citations_are_exact_and_committed] assumes of the processing that the text of
    a representation never changes and that segments are where they say, which the theorems on materials show.  Django's
    signing reads back what it signed; the validation of tool arguments is a parameter.  The tokens and
    digests of password resets are parameters with Django's documented laws.  The collector of snapshots assumes that other
    requests do not take a run away from its session; the pages of the trash, that an instant is printed in plain text that
    is read back and that identities are plain text.
    Laws of [Platform] are documented behaviour of the Unicode tables and of Django.  The digest theorem excludes payloads with floats.  Every theorem with hypotheses comes with a witness
    that evaluates it on concrete data.

    ** Not modelled, and plan

    Not modelled: HTTP routing and response schemas, settings and migrations, object storage transfer, third-party
    converters and provider SDKs, logging, the Rust services and the web client.  The containers the material worker
    drives and the transport of the tools are not modelled either.  Errors of os.scandir in the snapshot collector
    ([_children]) are not modelled, and the reconciliation of a run ([reconcile_agent_run_lifecycle]) is one step,
    although it treats the runs of its page one after another, each in transactions of its own.  To be added, in
    this order: model management and the format translation of the model adapters. *)

From stdpp Require Import base tactics list gmap numbers sorting.
From Stdlib Require Import Strings.Byte.

#[global] Open Scope Z_scope.

(** ** Fallible computations

    Python code that may raise is a [res E A]: [Ok a] is a normal return,
    [Err e] an exception of the component's exception type [E]. *)

Inductive res (E A : Type) : Type :=
| Ok (a : A)
| Err (e : E).
Arguments Ok {E A} a.
Arguments Err {E A} e.

#[global] Instance res_ret E : MRet (res E) := fun A a => Ok a.
#[global] Instance res_bind E : MBind (res E) := fun A B f m =>
  match m with Ok a => f a | Err e => Err e end.
#[global] Instance res_fmap E : FMap (res E) := fun A B f m =>
  match m with Ok a => Ok (f a) | Err e => Err e end.

(** [if not b: raise e] *)
Definition require {E} (b : bool) (e : E) : res E unit :=
  if b then Ok tt else Err e.

Definition from_option_res {E A} (e : E) (o : option A) : res E A :=
  match o with Some a => Ok a | None => Err e end.

(** [try: m except E as e: h e] *)
Definition catch {E F A} (m : res E A) (h : E -> res F A) : res F A :=
  match m with Ok a => Ok a | Err e => h e end.

Definition ok_or {E A} (x : A) (m : res E A) : A := match m with Ok y => y | Err _ => x end.
Definition is_ok {E A} (m : res E A) : bool :=
  match m with Ok _ => true | Err _ => false end.

(** A Python [for] loop with a state and a possible exception. *)
Fixpoint for_each {E A S} (f : S -> A -> res E S) (l : list A) (s : S) : res E S :=
  match l with
  | [] => Ok s
  | x :: l' => s' ← f s x; for_each f l' s'
  end.

Section res_lemmas.
Context {E : Type}.

Lemma bind_Ok {A B} (m : res E A) (f : A -> res E B) b :
  m ≫= f = Ok b <-> exists a, m = Ok a /\ f a = Ok b.
Proof. destruct m; cbn; naive_solver. Qed.

Lemma bind_Err {A B} (m : res E A) (f : A -> res E B) e :
  m ≫= f = Err e <-> m = Err e \/ exists a, m = Ok a /\ f a = Err e.
Proof. destruct m; cbn; naive_solver. Qed.

Lemma fmap_Ok {A B} (f : A -> B) (m : res E A) b :
  f <$> m = Ok b <-> exists a, m = Ok a /\ b = f a.
Proof. destruct m; cbn; naive_solver. Qed.

Lemma require_Ok b (e : E) u : require b e = Ok u <-> b = true.
Proof. destruct b, u; cbn; naive_solver. Qed.

Lemma require_Err b (e e' : E) : require b e = Err e' <-> b = false /\ e = e'.
Proof. destruct b; cbn; naive_solver. Qed.

Lemma from_option_res_Ok {A} (e : E) (o : option A) a :
  from_option_res e o = Ok a <-> o = Some a.
Proof. destruct o; cbn; naive_solver. Qed.

Lemma for_each_app {A S} (f : S -> A -> res E S) l1 l2 s :
  for_each f (l1 ++ l2) s = (s' ← for_each f l1 s; for_each f l2 s').
Proof.
  revert s; induction l1 as [|x l1 IH]; intros s; [done|].
  cbn. destruct (f s x) as [s'|e]; cbn; [apply IH|done].
Qed.

(** A loop invariant holds at the end of a loop that does not raise. *)
Lemma for_each_inv {A S} (I : S -> Prop) (f : S -> A -> res E S) l s s' :
  (forall s x s', x ∈ l -> I s -> f s x = Ok s' -> I s') ->
  I s -> for_each f l s = Ok s' -> I s'.
Proof.
  revert s; induction l as [|x l IH]; intros s Hf Hs; cbn; [naive_solver|].
  intros (s1 & Hx & Hl)%bind_Ok. eapply (IH s1); eauto.
  - intros; eapply Hf; eauto. by right.
  - eapply Hf; eauto. by left.
Qed.
End res_lemmas.

(** ** Proof automation *)

(** Split a successful run of monadic code into the facts of its steps. *)
Ltac res_step :=
  match goal with
  | H : _ ≫= _ = Ok _ |- _ => apply bind_Ok in H as (? & ? & ?)
  | H : _ <$> _ = Ok _ |- _ => apply fmap_Ok in H as (? & ? & ?)
  | H : require _ _ = Ok _ |- _ => apply require_Ok in H
  | H : from_option_res _ _ = Ok _ |- _ => apply from_option_res_Ok in H
  | H : mret _ = Ok _ |- _ => injection H as <-
  | H : Ok _ = Ok _ |- _ => injection H as H
  | H : Err _ = Ok _ |- _ => discriminate H
  | H : Ok _ = Err _ |- _ => discriminate H
  end.
Ltac res_inv := repeat (res_step; simplify_eq/=).

(** Turn boolean guards of the code into the propositions they decide. *)
Ltac bool_step :=
  match goal with
  | H : andb _ _ = true |- _ => apply andb_prop in H as [? ?]
  | H : orb _ _ = false |- _ => apply orb_false_elim in H as [? ?]
  | H : negb _ = true |- _ => apply negb_true_iff in H
  | H : negb _ = false |- _ => apply negb_false_iff in H
  | H : bool_decide _ = true |- _ => apply bool_decide_eq_true in H
  | H : bool_decide _ = false |- _ => apply bool_decide_eq_false in H
  | H : (_ <=? _) = true |- _ => apply Z.leb_le in H
  | H : (_ <=? _) = false |- _ => apply Z.leb_gt in H
  | H : (_ <? _) = true |- _ => apply Z.ltb_lt in H
  | H : (_ <? _) = false |- _ => apply Z.ltb_ge in H
  | H : (_ =? _) = true |- _ => apply Z.eqb_eq in H
  | H : (_ =? _) = false |- _ => apply Z.eqb_neq in H
  end.
Ltac bool_inv := repeat bool_step.

(** Case split on the next test of the code in a hypothesis or the goal. *)
Ltac split_match :=
  match goal with
  | |- context [match ?x with _ => _ end] => destruct x eqn:?
  end.
Ltac split_match_in H :=
  match type of H with
  | context [match ?x with _ => _ end] => destruct x eqn:?
  end.
Ltac split_all H := repeat (split_match_in H; simplify_eq/=).

(** Follow the code's control flow in [H : code = Ok result]: one goal per path, with the
    outcome of every test and call as a hypothesis. *)
Ltac walk H :=
  repeat first
    [ discriminate H
    | match type of H with
      | _ ≫= _ = Ok _ =>
          let x := fresh "x" in let Hx := fresh "Hx" in
          apply bind_Ok in H as (x & Hx & H); cbv beta zeta in H
      | (let _ := _ in _) = _ => cbv zeta in H
      | (match ?x with _ => _ end) = _ => destruct x eqn:?
      end ];
  simplify_eq.

(** Decide a closed proposition by evaluation. *)
Ltac by_decide := refine (proj1 (bool_decide_eq_true _) _); vm_compute; reflexivity.

Create HintDb ws.

(** ** Lists *)

Section list_lemmas.
Context {A : Type}.
Implicit Types l : list A.

Lemma forallb_Forall (p : A -> bool) l :
  forallb p l = true <-> Forall (fun x => p x = true) l.
Proof.
  induction l as [|x l IH]; cbn; [by split|].
  rewrite andb_true_iff, IH, Forall_cons. done.
Qed.

Lemma existsb_false_Forall (p : A -> bool) l :
  existsb p l = false <-> Forall (fun x => p x = false) l.
Proof.
  induction l as [|x l IH]; cbn; [by split|].
  rewrite orb_false_iff, IH, Forall_cons. done.
Qed.

Lemma list_find_bool_Some (p : A -> bool) l x :
  List.find p l = Some x -> x ∈ l /\ p x = true.
Proof. intros [? ?]%find_some. by rewrite list_elem_of_In. Qed.

Lemma take_drop_app n l : take n l ++ drop n l = l.
Proof. apply take_drop. Qed.
End list_lemmas.

(** [sum(f(x) for x in l)] *)
Definition sum_by {A} (f : A -> Z) (l : list A) : Z := foldr (fun x acc => f x + acc) 0 l.

Lemma sum_by_app {A} (f : A -> Z) l1 l2 : sum_by f (l1 ++ l2) = sum_by f l1 + sum_by f l2.
Proof. induction l1; cbn; [done|]. fold (sum_by f (l1 ++ l2)) (sum_by f l1). lia. Qed.

Lemma sum_by_nonneg {A} (f : A -> Z) l : Forall (fun x => 0 <= f x) l -> 0 <= sum_by f l.
Proof. induction 1; cbn; [done|]. fold (sum_by f l). lia. Qed.

(** Length as a Python integer. *)
Definition zlen {A} (l : list A) : Z := Z.of_nat (length l).

Lemma zlen_nonneg {A} (l : list A) : 0 <= zlen l.
Proof. unfold zlen; lia. Qed.
Lemma zlen_app {A} (l1 l2 : list A) : zlen (l1 ++ l2) = zlen l1 + zlen l2.
Proof. unfold zlen; rewrite length_app; lia. Qed.
Lemma zlen_cons {A} (x : A) l : zlen (x :: l) = 1 + zlen l.
Proof. unfold zlen; cbn; lia. Qed.
Lemma zlen_nil {A} : zlen (@nil A) = 0.
Proof. done. Qed.
Lemma zlen_0 {A} (l : list A) : zlen l = 0 <-> l = [].
Proof. destruct l; unfold zlen; cbn; split; naive_solver lia. Qed.

#[export] Hint Resolve zlen_nonneg : ws.
Create Rewrite HintDb zlen.
#[export] Hint Rewrite @zlen_app @zlen_cons @zlen_nil : zlen.
