(* ===== verification/PyStr.v ===== *)
(** * Python strings

    A Python [str] is a sequence of code points.  This file models the string
    operations the sources use ([startswith], [removeprefix], [strip], [split],
    [count], comparison, ...), with ASCII literals written as usual. *)

From stdpp Require Import base tactics list gmap numbers countable sorting.
From Stdlib Require Import Strings.Byte.
From S2P Require Import Prelude.

Inductive pystr : Type := PyStr (cps : list Z).

Definition code_points (s : pystr) : list Z := let 'PyStr l := s in l.

Definition pystr_parse (l : list Byte.byte) : option pystr :=
  let cps := map (fun b => Z.of_N (Byte.to_N b)) l in
  if forallb (fun c => c <? 128) cps then Some (PyStr cps) else None.
Definition pystr_print (s : pystr) : option (list Byte.byte) :=
  mapM (fun c => if (0 <=? c) && (c <? 128) then Byte.of_N (Z.to_N c) else None)
    (code_points s).

Declare Scope py_scope.
Delimit Scope py_scope with py.
Bind Scope py_scope with pystr.
String Notation pystr pystr_parse pystr_print : py_scope.
#[global] Open Scope py_scope.
#[global] Open Scope Z_scope.

#[global] Instance pystr_eq_dec : EqDecision pystr.
Proof. solve_decision. Defined.

#[global] Program Instance pystr_countable : Countable pystr :=
  inj_countable' code_points PyStr _.
Next Obligation. by intros []. Qed.

#[global] Instance pystr_inhabited : Inhabited pystr := populate (PyStr []).

Definition str_app (s t : pystr) : pystr := PyStr (code_points s ++ code_points t).
Infix "+:+" := str_app (at level 60, right associativity) : py_scope.

(** [len(s)] *)
Definition str_len (s : pystr) : Z := zlen (code_points s).

(** [not s] is [is_empty s] *)
Definition is_empty (s : pystr) : bool :=
  match code_points s with [] => true | _ => false end.

Definition chars_all (p : Z -> bool) (s : pystr) : bool := forallb p (code_points s).
Definition chars_any (p : Z -> bool) (s : pystr) : bool := existsb p (code_points s).

(** [s.startswith(p)] on raw sequences, and [s.removeprefix(p)]. *)
Fixpoint prefixb (p s : list Z) : bool :=
  match p, s with
  | [], _ => true
  | c :: p', d :: s' => (c =? d) && prefixb p' s'
  | _ :: _, [] => false
  end.
Definition startswith (s p : pystr) : bool := prefixb (code_points p) (code_points s).
Definition str_drop (n : nat) (s : pystr) : pystr := PyStr (drop n (code_points s)).
Definition removeprefix (s p : pystr) : pystr :=
  if startswith s p then str_drop (length (code_points p)) s else s.

(** [str.isspace]: the code points Python's [strip] removes. *)
Definition is_space (c : Z) : bool :=
  ((9 <=? c) && (c <=? 13)) || ((28 <=? c) && (c <=? 32)) || (c =? 133) || (c =? 160) ||
  (c =? 5760) || ((8192 <=? c) && (c <=? 8202)) || (c =? 8232) || (c =? 8233) ||
  (c =? 8239) || (c =? 8287) || (c =? 12288).

Fixpoint drop_while (p : Z -> bool) (l : list Z) : list Z :=
  match l with
  | [] => []
  | c :: l' => if p c then drop_while p l' else l
  end.
(** [s.strip()] *)
Definition strip (s : pystr) : pystr :=
  PyStr (rev (drop_while is_space (rev (drop_while is_space (code_points s))))).

(** [sub in s] *)
Fixpoint infixb (sub s : list Z) : bool :=
  prefixb sub s || match s with [] => false | _ :: s' => infixb sub s' end.
Definition str_contains (s sub : pystr) : bool := infixb (code_points sub) (code_points s).

(** [s.split(sep)] for a one-character separator. *)
Fixpoint split_on (sep : Z) (l : list Z) : list (list Z) :=
  match l with
  | [] => [[]]
  | c :: l' =>
      if c =? sep then [] :: split_on sep l'
      else match split_on sep l' with
           | w :: ws => (c :: w) :: ws
           | [] => [[c]]
           end
  end.
Definition str_split (sep : Z) (s : pystr) : list pystr := map PyStr (split_on sep (code_points s)).

(** [sep.join(l)] *)
Fixpoint str_join (sep : pystr) (l : list pystr) : pystr :=
  match l with
  | [] => ""
  | [s] => s
  | s :: l' => s +:+ sep +:+ str_join sep l'
  end.

(** [s < t] and [s <= t]: lexicographic order of code points. *)
Fixpoint lex_ltb (s t : list Z) : bool :=
  match s, t with
  | _, [] => false
  | [], _ :: _ => true
  | c :: s', d :: t' => (c <? d) || ((c =? d) && lex_ltb s' t')
  end.
Definition str_ltb (s t : pystr) : bool := lex_ltb (code_points s) (code_points t).
Definition str_leb (s t : pystr) : bool := negb (str_ltb t s).
Definition str_le (s t : pystr) : Prop := str_leb s t = true.

Definition is_ascii (c : Z) : bool := (0 <=? c) && (c <? 128).
(** [c.isascii() and c.isalnum()] *)
Definition is_ascii_alnum (c : Z) : bool :=
  ((48 <=? c) && (c <=? 57)) || ((65 <=? c) && (c <=? 90)) || ((97 <=? c) && (c <=? 122)).
(** [c in "0123456789abcdef"] *)
Definition is_lower_hex (c : Z) : bool :=
  ((48 <=? c) && (c <=? 57)) || ((97 <=? c) && (c <=? 102)).

(** ** Lemmas *)

Lemma code_points_inj s t : code_points s = code_points t -> s = t.
Proof. destruct s, t; cbn; congruence. Qed.

Lemma code_points_app s t : code_points (s +:+ t) = code_points s ++ code_points t.
Proof. done. Qed.

Lemma str_app_assoc s t u : s +:+ t +:+ u = (s +:+ t) +:+ u.
Proof. apply code_points_inj. cbn. apply app_assoc. Qed.

Lemma str_len_app s t : str_len (s +:+ t) = str_len s + str_len t.
Proof. unfold str_len; cbn. apply zlen_app. Qed.

Lemma str_app_inj_l s t u : s +:+ t = s +:+ u -> t = u.
Proof. intros H. apply code_points_inj. injection H. apply app_inv_head. Qed.

Lemma is_empty_true s : is_empty s = true <-> s = "".
Proof. destruct s as [[|]]; cbn; naive_solver. Qed.
Lemma is_empty_false s : is_empty s = false <-> s <> "".
Proof. destruct s as [[|]]; cbn; naive_solver. Qed.

Lemma prefixb_spec p s : prefixb p s = true <-> exists t, s = p ++ t.
Proof.
  revert s; induction p as [|c p IH]; intros [|d s]; cbn; try naive_solver.
  rewrite andb_true_iff, Z.eqb_eq, IH. naive_solver.
Qed.

Lemma prefixb_app p t : prefixb p (p ++ t) = true.
Proof. apply prefixb_spec. eauto. Qed.

Lemma startswith_spec s p : startswith s p = true <-> exists t, s = p +:+ t.
Proof.
  unfold startswith. rewrite prefixb_spec. split.
  - intros [t Ht]. exists (PyStr t). by apply code_points_inj.
  - intros [t ->]. by exists (code_points t).
Qed.

Lemma startswith_app p t : startswith (p +:+ t) p = true.
Proof. apply startswith_spec. eauto. Qed.

Lemma str_drop_app p t : str_drop (length (code_points p)) (p +:+ t) = t.
Proof. apply code_points_inj. cbn. apply drop_app_length. Qed.

Lemma removeprefix_app p t : removeprefix (p +:+ t) p = t.
Proof. unfold removeprefix. by rewrite startswith_app, str_drop_app. Qed.

Lemma lex_ltb_irrefl s : lex_ltb s s = false.
Proof. induction s as [|c s IH]; cbn; [done|]. by rewrite Z.ltb_irrefl, IH, andb_false_r. Qed.

Lemma lex_ltb_trans s t u : lex_ltb s t = true -> lex_ltb t u = true -> lex_ltb s u = true.
Proof.
  revert t u; induction s as [|c s IH]; intros [|d t] [|e u]; cbn; try done.
  rewrite !orb_true_iff, !andb_true_iff, !Z.ltb_lt, !Z.eqb_eq.
  intros [?|[-> ?]] [?|[-> ?]]; [left; lia..|right; split; [done|eauto]].
Qed.

Lemma lex_ltb_total s t : lex_ltb s t = false -> lex_ltb t s = false -> s = t.
Proof.
  revert t; induction s as [|c s IH]; intros [|d t]; cbn; try done.
  rewrite !orb_false_iff, !Z.ltb_ge. intros [? Ha] [? Hb].
  assert (c = d) as -> by lia. rewrite Z.eqb_refl in Ha, Hb. f_equal. by apply IH.
Qed.

#[global] Instance str_le_dec : RelDecision str_le.
Proof. intros s t. unfold str_le. apply _. Defined.

#[global] Instance str_le_preorder : PreOrder str_le.
Proof.
  split.
  - intros s. unfold str_le, str_leb, str_ltb. by rewrite lex_ltb_irrefl.
  - intros s t u. unfold str_le, str_leb, str_ltb. rewrite !negb_true_iff.
    intros H1 H2. destruct (lex_ltb (code_points u) (code_points s)) eqn:H; [|done].
    destruct (lex_ltb (code_points s) (code_points t)) eqn:H'.
    + by rewrite (lex_ltb_trans _ _ _ H H') in H2.
    + assert (s = t) as -> by (apply code_points_inj; by apply lex_ltb_total).
      by rewrite H in H2.
Qed.

#[global] Instance str_le_antisymm : AntiSymm (=) str_le.
Proof.
  intros s t. unfold str_le, str_leb, str_ltb. rewrite !negb_true_iff.
  intros. apply code_points_inj. by apply lex_ltb_total.
Qed.

#[global] Instance str_le_total : Total str_le.
Proof.
  intros s t. unfold str_le, str_leb, str_ltb. rewrite !negb_true_iff.
  destruct (lex_ltb (code_points t) (code_points s)) eqn:H; [|by left]. right.
  destruct (lex_ltb (code_points s) (code_points t)) eqn:H'; [|done].
  by rewrite <- (lex_ltb_irrefl (code_points s)), (lex_ltb_trans _ _ _ H' H).
Qed.
