(* ===== verification/Table.v ===== *)
(** * Database tables

    The Django models are tables: finite maps from primary keys to rows.  A
    queryset is a filtered table; [first()] on an unordered queryset orders by
    primary key, [exists()], [update(...)], [delete()] and row creation are the
    operations the sources use.  The lemmas here are the interface the component
    files reason with. *)

From stdpp Require Import base tactics list gmap numbers sorting fin_maps fin_map_dom.
From S2P Require Import Prelude PyStr.

(** Primary keys are totally ordered. *)
Class KeyOrder (K : Type) := {
  key_le : relation K;
  #[global] key_le_dec :: RelDecision key_le;
  #[global] key_le_preorder :: PreOrder key_le;
  #[global] key_le_antisymm :: AntiSymm (=) key_le;
  #[global] key_le_total :: Total key_le;
}.
#[global] Instance pystr_key_order : KeyOrder pystr := {| key_le := str_le |}.
#[global] Instance Z_key_order : KeyOrder Z := {| key_le := Z.le |}.

Section queryset.
Context {K R : Type} `{Countable K} `{KeyOrder K}.
Implicit Types (t : gmap K R) (p : R -> bool) (k : K) (r : R).

Definition row_le (x y : K * R) : Prop := key_le x.1 y.1.
#[global] Instance row_le_dec : RelDecision row_le.
Proof. intros x y. unfold row_le. apply _. Defined.
#[global] Instance row_le_total : Total row_le.
Proof. intros x y. apply key_le_total. Qed.
#[global] Instance row_le_trans : Transitive row_le.
Proof. intros x y z. apply key_le_preorder. Qed.

(** [list(Model.objects.filter(p))], in primary-key order *)
Definition qs_list (p : R -> bool) (t : gmap K R) : list (K * R) :=
  merge_sort row_le (filter (fun kr => p kr.2 = true) (map_to_list t)).
(** [.filter(p).first()] *)
Definition qs_first (p : R -> bool) (t : gmap K R) : option (K * R) := head (qs_list p t).
(** [.filter(p).exists()] *)
Definition qs_exists (p : R -> bool) (t : gmap K R) : bool :=
  match qs_list p t with [] => false | _ => true end.
(** [.filter(p).update(...)] *)
Definition qs_update (p : R -> bool) (f : R -> R) (t : gmap K R) : gmap K R :=
  (fun r => if p r then f r else r) <$> t.
(** [.filter(p).delete()] *)
Definition qs_delete (p : R -> bool) (t : gmap K R) : gmap K R :=
  filter (fun kr => p kr.2 = false) t.

Lemma elem_of_qs_list p t k r : (k, r) ∈ qs_list p t <-> t !! k = Some r /\ p r = true.
Proof.
  unfold qs_list. rewrite merge_sort_Permutation, list_elem_of_filter, elem_of_map_to_list.
  naive_solver.
Qed.

Lemma qs_keys_NoDup p t : NoDup (qs_list p t).*1.
Proof.
  unfold qs_list. rewrite merge_sort_Permutation. eapply sublist_NoDup; [apply (NoDup_fst_map_to_list t)|].
  apply fmap_sublist, sublist_filter.
Qed.

(** Counting rows through their keys. *)
Lemma qs_count_keys p t (l : list K) :
  (forall k r, t !! k = Some r -> p r = true -> k ∈ l) -> zlen (qs_list p t) <= zlen l.
Proof.
  intros Hl. unfold zlen. apply inj_le. rewrite <- (length_fmap fst). apply submseteq_length, NoDup_submseteq; [apply qs_keys_NoDup|].
  intros k Hk. apply list_elem_of_fmap in Hk as ([k' r] & -> & [Hk Hp]%elem_of_qs_list). eauto.
Qed.
Lemma qs_count_mono p q t t' :
  (forall k r', t' !! k = Some r' -> p r' = true -> exists r, t !! k = Some r /\ q r = true) -> zlen (qs_list p t') <= zlen (qs_list q t).
Proof.
  intros Hm. transitivity (zlen (qs_list q t).*1); [|unfold zlen; by rewrite length_fmap].
  apply qs_count_keys. intros k r' Hk Hp. destruct (Hm _ _ Hk Hp) as (r & Hr & Hq).
  apply list_elem_of_fmap. exists (k, r). split; [done|]. by apply elem_of_qs_list.
Qed.
Lemma qs_count_insert p t k r : zlen (qs_list p (<[k := r]> t)) <= 1 + zlen (qs_list p t).
Proof.
  transitivity (zlen (k :: (qs_list p t).*1)); [|unfold zlen; cbn; rewrite length_fmap; lia].
  apply qs_count_keys. intros k' r' [[<- <-]|[Hne Hk]]%lookup_insert_Some Hp; [by left|]. right.
  apply list_elem_of_fmap. exists (k', r'). split; [done|]. by apply elem_of_qs_list.
Qed.

Lemma qs_first_Some p t k r : qs_first p t = Some (k, r) -> t !! k = Some r /\ p r = true.
Proof.
  unfold qs_first. intros Hh. apply elem_of_qs_list.
  destruct (qs_list p t); cbn in *; [done|]. simplify_eq. by left.
Qed.

Lemma qs_first_None p t : qs_first p t = None <-> forall k r, t !! k = Some r -> p r = false.
Proof.
  unfold qs_first. split.
  - destruct (qs_list p t) eqn:E; [intros _|done]. intros k r Hk.
    destruct (p r) eqn:Hp; [|done]. exfalso.
    assert ((k, r) ∈ qs_list p t) as Hin by by apply elem_of_qs_list.
    rewrite E in Hin. by apply not_elem_of_nil in Hin.
  - intros Hall. destruct (qs_list p t) as [|[k r] l] eqn:E; [done|].
    assert ((k, r) ∈ qs_list p t) as [Hk Hp]%elem_of_qs_list by (rewrite E; by left).
    by rewrite (Hall _ _ Hk) in Hp.
Qed.

(** The row [first()] returns when at most one row matches. *)
Lemma qs_first_unique p t k r :
  t !! k = Some r -> p r = true ->
  (forall k' r', t !! k' = Some r' -> p r' = true -> k' = k) ->
  qs_first p t = Some (k, r).
Proof.
  intros Hk Hp Hu. destruct (qs_first p t) as [[k' r']|] eqn:E.
  - apply qs_first_Some in E as [Hk' Hp']. pose proof (Hu _ _ Hk' Hp') as ->. congruence.
  - rewrite qs_first_None in E. by rewrite (E _ _ Hk) in Hp.
Qed.

Lemma qs_exists_true p t : qs_exists p t = true <-> exists k r, t !! k = Some r /\ p r = true.
Proof.
  unfold qs_exists. destruct (qs_list p t) as [|[k r] l] eqn:E.
  - split; [done|]. intros (k & r & Hkr).
    apply elem_of_qs_list in Hkr. rewrite E in Hkr. by apply not_elem_of_nil in Hkr.
  - split; [intros _|done]. exists k, r. apply elem_of_qs_list. rewrite E. by left.
Qed.

Lemma qs_exists_false p t : qs_exists p t = false <-> forall k r, t !! k = Some r -> p r = false.
Proof.
  rewrite <- not_true_iff_false, qs_exists_true. split.
  - intros Hn k r Hk. destruct (p r) eqn:E; [|done]. exfalso; eauto.
  - intros Ha (k & r & Hk & Hp). by rewrite (Ha _ _ Hk) in Hp.
Qed.

Lemma lookup_qs_update p f t k :
  qs_update p f t !! k = (fun r => if p r then f r else r) <$> t !! k.
Proof. apply lookup_fmap. Qed.

Lemma lookup_qs_delete_Some p t k r :
  qs_delete p t !! k = Some r <-> t !! k = Some r /\ p r = false.
Proof. unfold qs_delete. by rewrite map_lookup_filter_Some. Qed.
End queryset.

(** [.order_by("created_at", "id")] of selected rows. *)
Section order_by.
Context {K R A : Type} `{KeyOrder K} (le : relation A) `{!RelDecision le} (key : R -> A).

Definition order_le (x y : K * R) : Prop :=
  (le (key x.2) (key y.2) /\ ~ le (key y.2) (key x.2)) \/
  (le (key x.2) (key y.2) /\ key_le x.1 y.1).
#[global] Instance order_le_dec : RelDecision order_le.
Proof. intros x y. unfold order_le. apply _. Defined.

Definition order_by (l : list (K * R)) : list (K * R) := merge_sort order_le l.

Lemma elem_of_order_by l kr : kr ∈ order_by l <-> kr ∈ l.
Proof. unfold order_by. by rewrite merge_sort_Permutation. Qed.
End order_by.

(** Row creation: the database refuses a second row under one primary key. *)
Definition qs_insert {K R : Type} `{Countable K} (k : K) (r : R) (t : gmap K R) : option (gmap K R) :=
  match t !! k with Some _ => None | None => Some (<[k := r]> t) end.

Lemma qs_insert_Some {K R} `{Countable K} (k : K) (r : R) (t t' : gmap K R) :
  qs_insert k r t = Some t' <-> t !! k = None /\ t' = <[k := r]> t.
Proof. unfold qs_insert. destruct (t !! k); naive_solver. Qed.

(** Tables in which no two rows conflict. *)
Definition conflict_free {K R : Type} `{Countable K} (C : relation R) (t : gmap K R) : Prop :=
  forall k1 r1 k2 r2, t !! k1 = Some r1 -> t !! k2 = Some r2 -> C r1 r2 -> k1 = k2.

Section conflict_free.
Context {K R : Type} `{Countable K} (C : relation R) `{!Symmetric C}.
Implicit Types (t : gmap K R).

Lemma conflict_free_insert t k r :
  conflict_free C t -> (forall k' r', t !! k' = Some r' -> k' <> k -> ~ C r' r) ->
  conflict_free C (<[k := r]> t).
Proof.
  intros Hu Hn k1 r1 k2 r2 [[<- <-]|[Hne1 H1]]%lookup_insert_Some [[<- <-]|[Hne2 H2]]%lookup_insert_Some HC.
  - done.
  - exfalso. symmetry in HC. by eapply Hn.
  - exfalso. by eapply Hn.
  - by eapply Hu.
Qed.

Lemma conflict_free_delete t k : conflict_free C t -> conflict_free C (delete k t).
Proof.
  intros Hu k1 r1 k2 r2 [_ H1]%lookup_delete_Some [_ H2]%lookup_delete_Some. by eapply Hu.
Qed.

(** An update that creates no conflict keeps the table conflict free. *)
Lemma conflict_free_update t (p : R -> bool) f :
  conflict_free C t ->
  (forall r1 r2, C (if p r1 then f r1 else r1) (if p r2 then f r2 else r2) -> C r1 r2) ->
  conflict_free C (qs_update p f t).
Proof.
  intros Hu Hf k1 r1 k2 r2 H1 H2 HC. unfold qs_update in *. rewrite lookup_fmap in H1, H2.
  apply fmap_Some in H1 as (s1 & H1 & ->). apply fmap_Some in H2 as (s2 & H2 & ->).
  eapply Hu; eauto.
Qed.
End conflict_free.

#[export] Hint Resolve qs_first_unique : ws.
