(* ===== verification/Utf8.v ===== *)
(** * UTF-8

    [str.encode("utf-8")] and [bytes.decode("utf-8")] (strict).  Byte strings are
    lists of integers in [0, 256).  Encoding a lone surrogate raises
    [UnicodeEncodeError] ([None]); decoding malformed input raises
    [UnicodeDecodeError] ([None]). *)

From stdpp Require Import base tactics list numbers.
From S2P Require Import Prelude PyStr.

(** Arithmetic on the bit fields of an encoding is division and remainder. *)
#[local] Ltac Zify.zify_post_hook ::= Z.to_euclidean_division_equations.

Abbreviation bytes := (list Z).

(** Unicode scalar values: code points that are not surrogates. *)
Definition is_scalar (c : Z) : bool :=
  ((0 <=? c) && (c <? 55296)) || ((57344 <=? c) && (c <? 1114112)).

Definition encode_cp (c : Z) : list Z :=
  if c <? 128 then [c]
  else if c <? 2048 then [192 + c / 64; 128 + c mod 64]
  else if c <? 65536 then [224 + c / 4096; 128 + c / 64 mod 64; 128 + c mod 64]
  else [240 + c / 262144; 128 + c / 4096 mod 64; 128 + c / 64 mod 64; 128 + c mod 64].

Definition encode_cps (l : list Z) : bytes := concat (map encode_cp l).

(** [s.encode("utf-8")] *)
Definition utf8_encode (s : pystr) : option bytes :=
  if forallb is_scalar (code_points s) then Some (encode_cps (code_points s)) else None.

Definition is_cont (b : Z) : bool := (128 <=? b) && (b <? 192).

(** One code point from the front of a byte string. *)
Definition decode_cp (l : bytes) : option (Z * bytes) :=
  match l with
  | [] => None
  | b0 :: r0 =>
      if (0 <=? b0) && (b0 <? 128) then Some (b0, r0)
      else if (194 <=? b0) && (b0 <? 224) then
        match r0 with
        | b1 :: r1 =>
            if is_cont b1 then Some ((b0 - 192) * 64 + (b1 - 128), r1) else None
        | [] => None
        end
      else if (224 <=? b0) && (b0 <? 240) then
        match r0 with
        | b1 :: b2 :: r2 =>
            let c := (b0 - 224) * 4096 + (b1 - 128) * 64 + (b2 - 128) in
            if is_cont b1 && is_cont b2 && (2048 <=? c) && is_scalar c then Some (c, r2) else None
        | _ => None
        end
      else if (240 <=? b0) && (b0 <? 245) then
        match r0 with
        | b1 :: b2 :: b3 :: r3 =>
            let c := (b0 - 240) * 262144 + (b1 - 128) * 4096 + (b2 - 128) * 64 + (b3 - 128) in
            if is_cont b1 && is_cont b2 && is_cont b3 && (65536 <=? c) && (c <? 1114112)
            then Some (c, r3) else None
        | _ => None
        end
      else None
  end.

(** Every code point consumes at least one byte: the length is enough fuel. *)
Fixpoint decode_cps (fuel : nat) (l : bytes) : option (list Z) :=
  match l with
  | [] => Some []
  | _ =>
      match fuel with
      | O => None
      | S fuel =>
          match decode_cp l with
          | Some (c, l') => cons c <$> decode_cps fuel l'
          | None => None
          end
      end
  end.

(** [b.decode("utf-8")] *)
Definition utf8_decode (b : bytes) : option pystr := PyStr <$> decode_cps (length b) b.

Lemma encode_cp_length c : (1 <= length (encode_cp c) <= 4)%nat.
Proof. unfold encode_cp. repeat case_match; cbn; lia. Qed.

Lemma encode_cp_bytes c : is_scalar c = true -> Forall (fun b => 0 <= b < 256) (encode_cp c).
Proof.
  unfold is_scalar, encode_cp. intros Hc.
  assert (0 <= c < 1114112) by (apply orb_prop in Hc as [?|?]; bool_inv; lia).
  repeat case_match; bool_inv; repeat (apply List.Forall_cons; [lia|]); apply List.Forall_nil.
Qed.

Lemma decode_encode_cp c l : is_scalar c = true -> decode_cp (encode_cp c ++ l) = Some (c, l).
Proof.
  unfold is_scalar, encode_cp. intros Hc.
  assert (0 <= c < 1114112) by (apply orb_prop in Hc as [?|?]; bool_inv; lia).
  unfold decode_cp.
  repeat match goal with |- context [if c <? ?n then _ else _] => destruct (Z.ltb_spec c n) end;
    cbn [app];
    repeat match goal with
    | |- context [if ?b then _ else _] =>
        let E := fresh in
        destruct b eqn:E;
        [ try (exfalso; unfold is_cont in E; bool_inv; lia)
        | try (exfalso; unfold is_cont, is_scalar in *; lia) ]
    end;
    do 2 f_equal; lia.
Qed.

Lemma decode_cps_app fuel l1 l2 s2 :
  forallb is_scalar l1 = true -> decode_cps fuel l2 = Some s2 ->
  decode_cps (length l1 + fuel) (encode_cps l1 ++ l2) = Some (l1 ++ s2).
Proof.
  revert l2 s2; induction l1 as [|c l1 IH]; intros l2 s2 Hl H2; [done|].
  cbn in Hl. bool_inv. cbn [length app].
  change (encode_cps (c :: l1)) with (encode_cp c ++ encode_cps l1). rewrite <- app_assoc.
  destruct (encode_cp c ++ encode_cps l1 ++ l2) eqn:E.
  { apply app_eq_nil in E as [E _]. pose proof (encode_cp_length c) as Hn.
    rewrite E in Hn. cbn in Hn. lia. }
  rewrite <- E. cbn [decode_cps Nat.add]. rewrite E, <- E.
  rewrite decode_encode_cp by done. by rewrite (IH l2 s2).
Qed.

Lemma decode_cps_fuel f f' l s :
  decode_cps f l = Some s -> (f <= f')%nat -> decode_cps f' l = Some s.
Proof.
  revert f' l s; induction f as [|f IH]; intros f' l s; cbn [decode_cps].
  - destruct l; [|done]. intros [= <-] _. by destruct f'.
  - destruct l as [|b l]; [intros [= <-] _; by destruct f'|].
    destruct (decode_cp (b :: l)) as [[c l']|] eqn:E; [|done].
    intros (s' & Hs & ->)%fmap_Some ?. destruct f' as [|f']; [lia|].
    cbn [decode_cps]. rewrite E. by rewrite (IH f' _ _ Hs) by lia.
Qed.

Lemma encode_cps_length l : (length l <= length (encode_cps l))%nat.
Proof.
  induction l as [|c l IH]; [done|].
  change (encode_cps (c :: l)) with (encode_cp c ++ encode_cps l). rewrite length_app.
  pose proof (encode_cp_length c). cbn [length]. lia.
Qed.

(** Strings survive an encode/decode round trip. *)
Lemma utf8_decode_encode s b : utf8_encode s = Some b -> utf8_decode b = Some s.
Proof.
  unfold utf8_encode, utf8_decode. case_match eqn:Hs; intros [= <-].
  pose proof (decode_cps_app 0 (code_points s) [] [] Hs eq_refl) as Hd.
  rewrite !app_nil_r, Nat.add_0_r in Hd.
  rewrite (decode_cps_fuel _ _ _ _ Hd) by apply encode_cps_length. by destruct s.
Qed.

Lemma decode_cp_Some l c l' :
  decode_cp l = Some (c, l') -> l = encode_cp c ++ l' /\ is_scalar c = true.
Proof.
  unfold decode_cp, encode_cp, is_cont, is_scalar. intros H.
  repeat (case_match; simplify_eq); bool_inv;
    (split; [|lia]);
    repeat match goal with |- context [if ?c <? ?n then _ else _] => destruct (Z.ltb_spec c n) end;
    try lia; cbn [app]; repeat f_equal; lia.
Qed.

Lemma decode_cps_Some f l s :
  decode_cps f l = Some s -> l = encode_cps s /\ forallb is_scalar s = true.
Proof.
  revert l s; induction f as [|f IH]; intros l s; cbn [decode_cps].
  - destruct l; [|done]. by intros [= <-].
  - destruct l as [|b l]; [by intros [= <-]|].
    destruct (decode_cp (b :: l)) as [[c l']|] eqn:E; [|done].
    intros (s' & Hs & ->)%fmap_Some. apply decode_cp_Some in E as [-> Hc].
    apply IH in Hs as [-> Hs]. split; [done|]. cbn. by rewrite Hc, Hs.
Qed.

(** A decoded byte string is the encoding of its text. *)
Lemma utf8_encode_decode b s : utf8_decode b = Some s -> utf8_encode s = Some b.
Proof.
  unfold utf8_encode, utf8_decode.
  intros (l & Hl & ->)%fmap_Some. apply decode_cps_Some in Hl as [-> Hl]. cbn. by rewrite Hl.
Qed.

Lemma utf8_encode_app s t bs bt :
  utf8_encode s = Some bs -> utf8_encode t = Some bt -> utf8_encode (s +:+ t) = Some (bs ++ bt).
Proof.
  unfold utf8_encode. cbn. rewrite forallb_app. repeat case_match; try done; cbn; intros.
  simplify_eq. unfold encode_cps. by rewrite map_app, concat_app.
Qed.

Lemma utf8_encode_inj s t b : utf8_encode s = Some b -> utf8_encode t = Some b -> s = t.
Proof. intros Hs%utf8_decode_encode Ht%utf8_decode_encode. congruence. Qed.
