(* ===== verification/Sha256.v ===== *)
(** * SHA-256 and HMAC

    [hashlib.sha256(data).hexdigest()] and [hmac.new(key, data, sha256)], executable,
    so that digests in the component models are computed and not assumed. *)

From stdpp Require Import base tactics list numbers.
From S2P Require Import Prelude PyStr Utf8.

Definition mask32 : Z := 4294967295.
Definition add32 (x y : Z) : Z := Z.land (x + y) mask32.
Definition rotr (x n : Z) : Z :=
  Z.lor (Z.shiftr x n) (Z.land (Z.shiftl x (32 - n)) mask32).
Definition not32 (x : Z) : Z := Z.lxor x mask32.

(** The constants of the algorithm: the first 32 fractional bits of the cube roots of the
    first 64 primes and of the square roots of the first 8. *)
Definition is_prime (n : Z) : bool :=
  (2 <=? n) && forallb (fun d => negb (n mod d =? 0)) (seqZ 2 (Z.sqrt n - 1)).
Definition primes : list Z := Eval vm_compute in filter (fun n => is_prime n = true) (seqZ 2 310).
Fixpoint cube_root (bits : nat) (acc n : Z) : Z :=
  match bits with
  | O => acc
  | S bits => let t := acc + Z.shiftl 1 (Z.of_nat bits) in
      cube_root bits (if t * t * t <=? n then t else acc) n
  end.
Definition sha_k : list Z := Eval vm_compute in
  map (fun p => Z.land (cube_root 36 0 (Z.shiftl p 96)) mask32) primes.
Definition sha_h : list Z := Eval vm_compute in
  map (fun p => Z.land (Z.sqrt (Z.shiftl p 64)) mask32) (take 8 primes).

Record hstate := HState { ha : Z; hb : Z; hc : Z; hd : Z; he : Z; hf : Z; hg : Z; hh : Z }.

Definition sha_init : hstate :=
  match sha_h with
  | [a; b; c; d; e; f; g; h] => HState a b c d e f g h
  | _ => HState 0 0 0 0 0 0 0 0
  end.

(** Message schedule, kept in reverse order. *)
Fixpoint schedule (n : nat) (w : list Z) : list Z :=
  match n with
  | O => w
  | S n =>
      let w2 := nth 1 w 0 in
      let w7 := nth 6 w 0 in
      let w15 := nth 14 w 0 in
      let w16 := nth 15 w 0 in
      let s0 := Z.lxor (Z.lxor (rotr w15 7) (rotr w15 18)) (Z.shiftr w15 3) in
      let s1 := Z.lxor (Z.lxor (rotr w2 17) (rotr w2 19)) (Z.shiftr w2 10) in
      schedule n (add32 (add32 w16 s0) (add32 w7 s1) :: w)
  end.

Definition sha_round (s : hstate) (kw : Z * Z) : hstate :=
  let '(HState a b c d e f g h) := s in
  let s1 := Z.lxor (Z.lxor (rotr e 6) (rotr e 11)) (rotr e 25) in
  let ch := Z.lxor (Z.land e f) (Z.land (not32 e) g) in
  let t1 := add32 (add32 (add32 h s1) (add32 ch kw.1)) kw.2 in
  let s0 := Z.lxor (Z.lxor (rotr a 2) (rotr a 13)) (rotr a 22) in
  let maj := Z.lxor (Z.lxor (Z.land a b) (Z.land a c)) (Z.land b c) in
  let t2 := add32 s0 maj in
  HState (add32 t1 t2) a b c (add32 d t1) e f g.

Fixpoint words (l : bytes) : list Z :=
  match l with
  | b0 :: b1 :: b2 :: b3 :: l' =>
      (b0 * 16777216 + b1 * 65536 + b2 * 256 + b3) :: words l'
  | _ => []
  end.

Definition sha_block (s : hstate) (block : bytes) : hstate :=
  let w := rev (schedule 48 (rev (words block))) in
  let r := fold_left sha_round (combine sha_k w) s in
  HState (add32 (ha s) (ha r)) (add32 (hb s) (hb r)) (add32 (hc s) (hc r)) (add32 (hd s) (hd r))
         (add32 (he s) (he r)) (add32 (hf s) (hf r)) (add32 (hg s) (hg r)) (add32 (hh s) (hh r)).

Fixpoint sha_blocks (n : nat) (s : hstate) (l : bytes) : hstate :=
  match n with
  | O => s
  | S n => sha_blocks n (sha_block s (take 64 l)) (drop 64 l)
  end.

Fixpoint be_bytes (n : nat) (z : Z) : bytes :=
  match n with
  | O => []
  | S n => be_bytes n (z / 256) ++ [z mod 256]
  end.

Definition sha_pad (l : bytes) : bytes :=
  let zeros := Z.to_nat ((55 - zlen l) mod 64) in
  l ++ [128] ++ replicate zeros 0 ++ be_bytes 8 (8 * zlen l).

Definition state_words (s : hstate) : list Z :=
  let '(HState a b c d e f g h) := s in [a; b; c; d; e; f; g; h].

(** [hashlib.sha256(data).digest()] *)
Definition sha256 (data : bytes) : bytes :=
  let p := sha_pad data in
  concat (map (be_bytes 4) (state_words (sha_blocks (Nat.div (length p) 64) sha_init p))).

Definition hex_digit (n : Z) : Z := if n <? 10 then 48 + n else 87 + n.
Definition hex_byte (b : Z) : list Z := [hex_digit (b / 16); hex_digit (b mod 16)].
(** [data.hex()] *)
Definition to_hex (l : bytes) : pystr := PyStr (concat (map hex_byte l)).

(** [hashlib.sha256(data).hexdigest()] *)
Definition sha256_hex (data : bytes) : pystr := to_hex (sha256 data).

(** [f"sha256:{hashlib.sha256(data).hexdigest()}"] *)
Definition sha256_tag (data : bytes) : pystr := "sha256:" +:+ sha256_hex data.

Definition xor_pad (b : Z) (key : bytes) : bytes :=
  map (fun k => Z.lxor k b) (key ++ replicate (64 - length key) 0).
(** [hmac.new(key, data, hashlib.sha256).hexdigest()] *)
Definition hmac_sha256_hex (key data : bytes) : pystr :=
  let k := if 64 <? zlen key then sha256 key else key in
  sha256_hex (xor_pad 92 k ++ sha256 (xor_pad 54 k ++ data)).

Example sha256_abc :
  sha256_hex [97; 98; 99] =
  "ba7816bf8f01cfea414140de5dae2223b00361a396177a9cb410ff61f20015ad".
Proof. vm_compute. reflexivity. Qed.

Example sha256_empty :
  sha256_hex [] = "e3b0c44298fc1c149afbf4c8996fb92427ae41e4649b934ca495991b7852b855".
Proof. vm_compute. reflexivity. Qed.

(** ** The shape of a digest *)

Lemma be_bytes_length n z : length (be_bytes n z) = n.
Proof. revert z; induction n as [|n IH]; intros z; [done|]. cbn. rewrite length_app, IH. cbn. lia. Qed.

Lemma be_bytes_range n z : Forall (fun b => 0 <= b < 256) (be_bytes n z).
Proof.
  revert z; induction n as [|n IH]; intros z; [constructor|]. cbn.
  apply Forall_app_2; [apply IH|]. repeat constructor; apply Z.mod_pos_bound; lia.
Qed.

Lemma concat_be_bytes ws :
  length (concat (map (be_bytes 4) ws)) = (4 * length ws)%nat /\
  Forall (fun b => 0 <= b < 256) (concat (map (be_bytes 4) ws)).
Proof.
  induction ws as [|w ws [IH1 IH2]]; [by split; constructor|].
  cbn [map concat]. split.
  - rewrite length_app, be_bytes_length, IH1. cbn [length]. lia.
  - apply Forall_app_2; [apply be_bytes_range|done].
Qed.

Lemma sha256_length data : length (sha256 data) = 32%nat.
Proof. unfold sha256. rewrite (proj1 (concat_be_bytes _)). by destruct (sha_blocks _ _ _). Qed.

Lemma sha256_range data : Forall (fun b => 0 <= b < 256) (sha256 data).
Proof. apply concat_be_bytes. Qed.

Lemma hex_digit_hex n : 0 <= n < 16 -> is_lower_hex (hex_digit n) = true.
Proof. unfold hex_digit, is_lower_hex. intros. destruct (Z.ltb_spec n 10); lia. Qed.

Lemma to_hex_wf l : Forall (fun b => 0 <= b < 256) l ->
  str_len (to_hex l) = 2 * zlen l /\ chars_all is_lower_hex (to_hex l) = true.
Proof.
  unfold str_len, chars_all, to_hex. induction 1 as [|b l Hb _ [IH1 IH2]]; [done|].
  cbn [code_points map concat] in *. split.
  - rewrite zlen_app, IH1, zlen_cons. cbn. unfold zlen; cbn; lia.
  - rewrite forallb_app, IH2. cbn. rewrite !hex_digit_hex; [done| |].
    + apply Z.mod_pos_bound; lia.
    + split; [apply Z.div_pos; lia|apply Z.div_lt_upper_bound; lia].
Qed.

(** A hex digest is 64 lowercase hexadecimal characters. *)
Lemma sha256_hex_wf data :
  str_len (sha256_hex data) = 64 /\ chars_all is_lower_hex (sha256_hex data) = true.
Proof.
  destruct (to_hex_wf _ (sha256_range data)) as [H1 H2]. split; [|done].
  unfold sha256_hex. rewrite H1. unfold zlen. by rewrite sha256_length.
Qed.
