(* ===== verification/Platform.v ===== *)
(** * What the code takes from Unicode tables and from Django

    The Unicode database ([unicodedata], [str.lower], [str.casefold]) and Django's
    account helpers, like PostgreSQL's [UPPER] and the faults of the file storage, are not in the repository: they are the operations of this class,
    with the documented laws the proofs use.  [ascii_platform] is a concrete instance,
    exact on ASCII text, on which the witnesses are evaluated. *)

From stdpp Require Import base tactics list numbers.
From S2P Require Import Prelude PyStr.

Class Platform := {
  (** The file storage behind [default_storage]: deleting this file fails; saving under this name raises, and leaves
      nothing ([Some None]) or what had been written ([Some (Some partial)]).  A fault belongs to a file name, so
      that a name that fails keeps failing. *)
  delete_refused : pystr -> bool;
  save_fault : pystr -> option (option (list Z));
  (** [unicodedata.normalize("NFC", s)] *)
  nfc : pystr -> pystr;
  nfc_idem : forall s, nfc (nfc s) = nfc s;
  (** ASCII characters and CJK unified ideographs have no composed form *)
  nfc_stable : forall s,
    chars_all (fun c => is_ascii c || ((19968 <=? c) && (c <=? 40959))) s = true -> nfc s = s;
  (** [unicodedata.category(c).startswith("C")] *)
  category_C : Z -> bool;
  category_C_control : forall c, 0 <= c < 32 -> category_C c = true;
  category_C_surrogate : forall c, 55296 <= c <= 57343 -> category_C c = true;
  (** a character regular expressions match with [\w]: letters, numbers and the underscore *)
  word_char : Z -> bool;
  word_char_ascii : forall c, is_ascii c = true -> word_char c = is_ascii_alnum c || (c =? 95);
  word_char_not_C : forall c, word_char c = true -> category_C c = false;
  (** PostgreSQL's [UPPER], which [__iexact] compares with, maps each character to its upper case *)
  upper_char : Z -> list Z;
  upper_char_ascii : forall c, is_ascii c = true ->
    upper_char c = [if (97 <=? c) && (c <=? 122) then c - 32 else c];
  (** [s.lower()] and [s.casefold()] *)
  str_lower : pystr -> pystr;
  str_casefold : pystr -> pystr;
  (** [unicodedata.decimal(c)] *)
  unicode_decimal : Z -> option Z;
  unicode_decimal_ascii : forall c, is_ascii c = true ->
    unicode_decimal c = if (48 <=? c) && (c <=? 57) then Some (c - 48) else None;
  (** lower-casing is idempotent and leaves no outer whitespace behind *)
  lower_strip_idem : forall s,
    str_lower (strip (str_lower (strip s))) = str_lower (strip s);
  (** Django: [validate_email], [username__iexact], password hashing *)
  validate_email : pystr -> bool;
  username_iexact : pystr -> pystr -> bool;
  username_iexact_refl : forall s, username_iexact s s = true;
  make_password : pystr -> pystr;
  check_password : pystr -> pystr -> bool;
  check_make_password : forall p, check_password p (make_password p) = true;
  (** password, username and first name of the account *)
  validate_password : pystr -> pystr -> pystr -> bool;
}.

(** ** An instance exact on ASCII *)

Definition lower_char (c : Z) : Z := if (65 <=? c) && (c <=? 90) then c + 32 else c.
Definition ascii_lower (s : pystr) : pystr := PyStr (map lower_char (code_points s)).

Lemma is_space_lower c : is_space (lower_char c) = is_space c.
Proof.
  unfold lower_char. case_match eqn:E; [|done]. bool_inv.
  unfold is_space. lia.
Qed.

Lemma lower_char_idem c : lower_char (lower_char c) = lower_char c.
Proof. unfold lower_char. repeat case_match; lia. Qed.

Lemma drop_while_map (p : Z -> bool) (f : Z -> Z) l :
  (forall c, p (f c) = p c) -> drop_while p (map f l) = map f (drop_while p l).
Proof. intros Hf. induction l as [|c l IH]; [done|]. cbn. rewrite Hf. by case_match. Qed.

Lemma drop_while_idem p l : drop_while p (drop_while p l) = drop_while p l.
Proof. induction l as [|c l IH]; [done|]. cbn. case_match eqn:E; [done|]. cbn. by rewrite E. Qed.

Lemma drop_while_app_last p l c : p c = false ->
  drop_while p (l ++ [c]) = drop_while p l ++ [c].
Proof. intros Hc. induction l as [|d l IH]; cbn; [by rewrite Hc|]. by case_match. Qed.

Lemma strip_idem s : strip (strip s) = strip s.
Proof.
  unfold strip. cbn [code_points]. do 2 f_equal.
  set (l := drop_while is_space (code_points s)).
  assert (Hl : drop_while is_space l = l) by apply drop_while_idem. clearbody l.
  assert (Hk : drop_while is_space (rev (drop_while is_space (rev l))) =
               rev (drop_while is_space (rev l))).
  { destruct l as [|c l]; [done|]. cbn in Hl. destruct (is_space c) eqn:Hc.
    { exfalso. assert (length (drop_while is_space l) <= length l)%nat.
      { clear. induction l; cbn; [lia|]. case_match; cbn; lia. }
      rewrite Hl in *. cbn in *. lia. }
    cbn. rewrite drop_while_app_last, rev_app_distr by done. cbn. by rewrite Hc. }
  rewrite Hk, rev_involutive. by rewrite drop_while_idem.
Qed.

Lemma strip_lower s : strip (ascii_lower s) = ascii_lower (strip s).
Proof.
  unfold strip, ascii_lower. cbn [code_points].
  rewrite drop_while_map by apply is_space_lower.
  rewrite <- map_rev, drop_while_map by apply is_space_lower. by rewrite map_rev.
Qed.

Lemma ascii_lower_idem s : ascii_lower (ascii_lower s) = ascii_lower s.
Proof.
  unfold ascii_lower. cbn. rewrite map_map. f_equal. apply map_ext. apply lower_char_idem.
Qed.

Program Definition ascii_platform : Platform := {|
  delete_refused _ := false;
  save_fault _ := None;
  nfc s := s;
  category_C c := (c <? 32) || ((127 <=? c) && (c <? 160)) || ((55296 <=? c) && (c <=? 57343));
  word_char c := is_ascii_alnum c || (c =? 95);
  upper_char c := [if (97 <=? c) && (c <=? 122) then c - 32 else c];
  str_lower := ascii_lower;
  str_casefold := ascii_lower;
  unicode_decimal c := if (48 <=? c) && (c <=? 57) then Some (c - 48) else None;
  validate_email s := str_contains s "@";
  username_iexact s t := bool_decide (ascii_lower s = ascii_lower t);
  make_password p := p;
  check_password p q := bool_decide (p = q);
  validate_password p _ _ := 8 <=? str_len p;
|}.
Next Obligation. done. Qed.
Next Obligation. done. Qed.
Next Obligation. cbn; intros. lia. Qed.
Next Obligation. cbn; intros. lia. Qed.
Next Obligation. done. Qed.
Next Obligation. cbn; unfold is_ascii_alnum; intros. lia. Qed.
Next Obligation. done. Qed.
Next Obligation. done. Qed.
Next Obligation. cbn; intros. by rewrite strip_lower, ascii_lower_idem, strip_idem. Qed.
Next Obligation. cbn; intros. by apply bool_decide_eq_true. Qed.
Next Obligation. cbn; intros. by apply bool_decide_eq_true. Qed.
