(* ===== verification/Schema.v ===== *)
(** * The identity tables

    Rows and tables of [packages/api/app_core/models.py] that membership, source
    access, shared agent definitions and delegated applications read and write.
    Time stamps are integers; [created_at] is kept where an endpoint orders by it. *)

From stdpp Require Import base tactics list gmap numbers.
From S2P Require Import Prelude PyStr Table.

(** Exceptions of the API code. *)
Inductive exn : Type :=
| ValueError (message : pystr)
| IntegrityError
| DoesNotExist
| UnicodeEncodeError
| OSError
| RuntimeError (message : pystr).

#[global] Instance exn_eq_dec : EqDecision exn.
Proof. solve_decision. Defined.

Inductive workspace_status := WorkspaceActive | WorkspaceArchived.
Inductive role := Owner | Admin | Member.
(** [WORKSPACE_INVITATION_ROLES], the roles a request may assign *)
Inductive assignable := AssignAdmin | AssignMember.
Inductive group_kind := CustomGroup | AllMembersGroup.
Inductive access_level := AccessRead | AccessWrite | AccessControl.
Inductive invitation_status := Pending | Accepted | Revoked | Expired.
Inductive definition_status := DefinitionActive | DefinitionDisabled.
Inductive availability := AvailableNone | AvailableWorkspace | AvailableMembers.
Inductive life_status := Active | Deleted.
Inductive app_state := AppPending | AppActive | AppRevoked.

#[global] Instance workspace_status_eq_dec : EqDecision workspace_status.
Proof. solve_decision. Defined.
#[global] Instance role_eq_dec : EqDecision role.
Proof. solve_decision. Defined.
#[global] Instance group_kind_eq_dec : EqDecision group_kind.
Proof. solve_decision. Defined.
#[global] Instance access_level_eq_dec : EqDecision access_level.
Proof. solve_decision. Defined.
#[global] Instance invitation_status_eq_dec : EqDecision invitation_status.
Proof. solve_decision. Defined.
#[global] Instance definition_status_eq_dec : EqDecision definition_status.
Proof. solve_decision. Defined.
#[global] Instance availability_eq_dec : EqDecision availability.
Proof. solve_decision. Defined.
#[global] Instance app_state_eq_dec : EqDecision app_state.
Proof. solve_decision. Defined.
#[global] Instance life_status_eq_dec : EqDecision life_status.
Proof. solve_decision. Defined.

Definition assigned_role (a : assignable) : role :=
  match a with AssignAdmin => Admin | AssignMember => Member end.

Record user_row := User {
  u_username : pystr; u_email : pystr; u_first_name : pystr;
  u_password : pystr; u_active : bool }.

Record workspace_row := Workspace { w_name : pystr; w_status : workspace_status }.

Record membership_row := Membership {
  m_workspace : pystr; m_user : Z; m_role : role; m_invited_by : option Z; m_created_at : Z }.

Record group_row := Group {
  g_workspace : pystr; g_name : pystr; g_kind : group_kind; g_created_by : Z; g_created_at : Z }.

Record source_row := Source { s_workspace : pystr }.

Record grant_row := Grant {
  gr_workspace : pystr; gr_source : pystr; gr_group : pystr; gr_access : access_level }.

Record invitation_row := Invitation {
  i_workspace : pystr; i_email : pystr; i_role : assignable; i_status : invitation_status;
  i_token_digest : pystr; i_invited_by : Z; i_accepted_by : option Z;
  i_accepted_membership_ref : pystr; i_revoked_by : option Z; i_expires_at : Z; i_created_at : Z }.

Record definition_row := Definition_ {
  d_workspace : pystr; d_status : definition_status; d_scope : availability;
  d_published_version : option pystr }.

Record agent_row := Agent {
  a_workspace : pystr; a_owner : Z; a_definition : option pystr; a_name : pystr;
  a_description : pystr; a_instructions : pystr; a_status : life_status; a_created_at : Z }.

Record session_row := Session {
  se_workspace : pystr; se_owner : Z; se_agent : pystr; se_status : life_status }.

Record app_row := App { app_name : pystr; app_status : app_state; app_created_by : Z; app_created_at : Z }.

Record delegation_row := Delegation {
  dl_user : Z; dl_app : pystr; dl_workspace : pystr; dl_definition : pystr;
  dl_membership_ref : pystr; dl_issuer : pystr; dl_audience : pystr; dl_scopes : list pystr;
  dl_token_digest : pystr; dl_expires_at : Z; dl_revoked_at : option Z; dl_created_at : Z }.

Record db := Db {
  users : gmap Z user_row;
  workspaces : gmap pystr workspace_row;
  memberships : gmap pystr membership_row;
  groups : gmap pystr group_row;
  (** the many-to-many table of [WorkspaceGroup.members]: (group, membership) *)
  group_members : gset (pystr * pystr);
  sources : gmap pystr source_row;
  grants : gmap pystr grant_row;
  invitations : gmap pystr invitation_row;
  definitions : gmap pystr definition_row;
  (** [AgentDefinitionMember]: (definition, membership) *)
  definition_members : gset (pystr * pystr);
  agents : gmap pystr agent_row;
  sessions : gmap pystr session_row;
  apps : gmap pystr app_row;
  delegations : gmap pystr delegation_row }.

Definition set_users f d := Db (f (users d)) (workspaces d) (memberships d) (groups d)
  (group_members d) (sources d) (grants d) (invitations d) (definitions d)
  (definition_members d) (agents d) (sessions d) (apps d) (delegations d).
Definition set_memberships f d := Db (users d) (workspaces d) (f (memberships d)) (groups d)
  (group_members d) (sources d) (grants d) (invitations d) (definitions d)
  (definition_members d) (agents d) (sessions d) (apps d) (delegations d).
Definition set_groups f d := Db (users d) (workspaces d) (memberships d) (f (groups d))
  (group_members d) (sources d) (grants d) (invitations d) (definitions d)
  (definition_members d) (agents d) (sessions d) (apps d) (delegations d).
Definition set_group_members f d := Db (users d) (workspaces d) (memberships d) (groups d)
  (f (group_members d)) (sources d) (grants d) (invitations d) (definitions d)
  (definition_members d) (agents d) (sessions d) (apps d) (delegations d).
Definition set_grants f d := Db (users d) (workspaces d) (memberships d) (groups d)
  (group_members d) (sources d) (f (grants d)) (invitations d) (definitions d)
  (definition_members d) (agents d) (sessions d) (apps d) (delegations d).
Definition set_invitations f d := Db (users d) (workspaces d) (memberships d) (groups d)
  (group_members d) (sources d) (grants d) (f (invitations d)) (definitions d)
  (definition_members d) (agents d) (sessions d) (apps d) (delegations d).
Definition set_definition_members f d := Db (users d) (workspaces d) (memberships d) (groups d)
  (group_members d) (sources d) (grants d) (invitations d) (definitions d)
  (f (definition_members d)) (agents d) (sessions d) (apps d) (delegations d).
Definition set_agents f d := Db (users d) (workspaces d) (memberships d) (groups d)
  (group_members d) (sources d) (grants d) (invitations d) (definitions d)
  (definition_members d) (f (agents d)) (sessions d) (apps d) (delegations d).
Definition set_apps f d := Db (users d) (workspaces d) (memberships d) (groups d)
  (group_members d) (sources d) (grants d) (invitations d) (definitions d)
  (definition_members d) (agents d) (sessions d) (f (apps d)) (delegations d).
Definition set_delegations f d := Db (users d) (workspaces d) (memberships d) (groups d)
  (group_members d) (sources d) (grants d) (invitations d) (definitions d)
  (definition_members d) (agents d) (sessions d) (apps d) (f (delegations d)).

Definition empty_db : db :=
  Db ∅ ∅ ∅ ∅ ∅ ∅ ∅ ∅ ∅ ∅ ∅ ∅ ∅ ∅.

Definition set_role (r : role) (m : membership_row) : membership_row :=
  Membership (m_workspace m) (m_user m) r (m_invited_by m) (m_created_at m).
Definition set_g_name (n : pystr) (g : group_row) : group_row :=
  Group (g_workspace g) n (g_kind g) (g_created_by g) (g_created_at g).
Definition set_i_status (s : invitation_status) (i : invitation_row) : invitation_row :=
  Invitation (i_workspace i) (i_email i) (i_role i) s (i_token_digest i) (i_invited_by i)
    (i_accepted_by i) (i_accepted_membership_ref i) (i_revoked_by i) (i_expires_at i) (i_created_at i).
Definition set_i_revoked_by (u : Z) (i : invitation_row) : invitation_row :=
  Invitation (i_workspace i) (i_email i) (i_role i) (i_status i) (i_token_digest i) (i_invited_by i)
    (i_accepted_by i) (i_accepted_membership_ref i) (Some u) (i_expires_at i) (i_created_at i).
Definition set_i_accepted (u : Z) (m : pystr) (i : invitation_row) : invitation_row :=
  Invitation (i_workspace i) (i_email i) (i_role i) (i_status i) (i_token_digest i) (i_invited_by i)
    (Some u) m (i_revoked_by i) (i_expires_at i) (i_created_at i).

Definition workspace_is_active (d : db) (wid : pystr) : bool :=
  match workspaces d !! wid with
  | Some w => bool_decide (w_status w = WorkspaceActive)
  | None => false
  end.

(** ** Constraints the database enforces on each statement *)

(** [unique_workspace_membership] and [unique_workspace_owner] for row [k := r] *)
Definition membership_unique (t : gmap pystr membership_row) (k : pystr) (r : membership_row) : bool :=
  bool_decide (map_Forall (fun k' r' =>
    k' = k \/
    ((m_workspace r', m_user r') <> (m_workspace r, m_user r) /\
     ~ (m_workspace r' = m_workspace r /\ m_role r' = Owner /\ m_role r = Owner))) t).

(** [membership.save()] of an existing row *)
Definition save_membership (k : pystr) (r : membership_row) (d : db) : res exn db :=
  require (membership_unique (memberships d) k r) IntegrityError;;
  Ok (set_memberships <[k := r]> d).

(** [WorkspaceMembership.objects.create(...)] *)
Definition create_membership (k : pystr) (r : membership_row) (d : db) : res exn db :=
  match memberships d !! k with
  | Some _ => Err IntegrityError
  | None => save_membership k r d
  end.

(** [membership.delete()]: the group and definition grants of the row cascade *)
Definition delete_membership (k : pystr) (d : db) : db :=
  set_definition_members (filter (fun dm => dm.2 <> k))
    (set_group_members (filter (fun gm => gm.2 <> k))
      (set_memberships (delete k) d)).

(** [unique_workspace_group_name] and [unique_workspace_all_members_group] *)
Definition group_unique (t : gmap pystr group_row) (k : pystr) (r : group_row) : bool :=
  bool_decide (map_Forall (fun k' r' =>
    k' = k \/
    ((g_workspace r', g_name r') <> (g_workspace r, g_name r) /\
     ~ (g_workspace r' = g_workspace r /\ g_kind r' = AllMembersGroup /\ g_kind r = AllMembersGroup))) t).

Definition save_group (k : pystr) (r : group_row) (d : db) : res exn db :=
  require (group_unique (groups d) k r) IntegrityError;;
  Ok (set_groups <[k := r]> d).

Definition create_group (k : pystr) (r : group_row) (d : db) : res exn db :=
  match groups d !! k with
  | Some _ => Err IntegrityError
  | None => save_group k r d
  end.

(** [unique_pending_workspace_invitation] and the unique [token_digest] *)
Definition invitation_unique (t : gmap pystr invitation_row) (k : pystr) (r : invitation_row) : bool :=
  bool_decide (map_Forall (fun k' r' =>
    k' = k \/
    (i_token_digest r' <> i_token_digest r /\
     ~ (i_workspace r' = i_workspace r /\ i_email r' = i_email r /\
        i_status r' = Pending /\ i_status r = Pending))) t).

Lemma unique_rows {R} (t : gmap pystr R) k (P : R -> Prop) :
  map_Forall (fun k' r' => k' = k \/ P r') t <->
  forall k' r', t !! k' = Some r' -> k' <> k -> P r'.
Proof.
  split; intros Hu k' r' Hk.
  - intros Hne. by destruct (Hu k' r' Hk).
  - destruct (decide (k' = k)) as [->|Hne]; [by left|right; eauto].
Qed.

Lemma membership_unique_spec t k r :
  membership_unique t k r = true <->
  forall k' r', t !! k' = Some r' -> k' <> k ->
    (m_workspace r', m_user r') <> (m_workspace r, m_user r) /\
    ~ (m_workspace r' = m_workspace r /\ m_role r' = Owner /\ m_role r = Owner).
Proof.
  unfold membership_unique. rewrite bool_decide_eq_true. apply unique_rows.
Qed.

Lemma group_unique_spec t k r :
  group_unique t k r = true <->
  forall k' r', t !! k' = Some r' -> k' <> k ->
    (g_workspace r', g_name r') <> (g_workspace r, g_name r) /\
    ~ (g_workspace r' = g_workspace r /\ g_kind r' = AllMembersGroup /\ g_kind r = AllMembersGroup).
Proof.
  unfold group_unique. rewrite bool_decide_eq_true. apply unique_rows.
Qed.

Lemma invitation_unique_spec t k r :
  invitation_unique t k r = true <->
  forall k' r', t !! k' = Some r' -> k' <> k ->
    i_token_digest r' <> i_token_digest r /\
    ~ (i_workspace r' = i_workspace r /\ i_email r' = i_email r /\
       i_status r' = Pending /\ i_status r = Pending).
Proof.
  unfold invitation_unique. rewrite bool_decide_eq_true. apply unique_rows.
Qed.
