(* ===== verification/Access.v ===== *)
(** * Workspace membership lookup and source access

    [packages/api/app_core/workspace_access.py]: who is a member of which workspace
    with which role, and which sources a member may read, write or control through
    the grants of the member's groups. *)

From stdpp Require Import base tactics list gmap numbers.
From S2P Require Import Prelude PyStr Table Schema.

(** [WORKSPACE_ROLES] and [WORKSPACE_ADMIN_ROLES] *)
Definition WORKSPACE_ROLES : list role := [Owner; Admin; Member].
Definition WORKSPACE_ADMIN_ROLES : list role := [Owner; Admin].

(** [SOURCE_ACCESS_RANK] *)
Definition SOURCE_ACCESS_RANK (a : access_level) : Z :=
  match a with AccessRead => 1 | AccessWrite => 2 | AccessControl => 3 end.

Definition role_in (r : role) (roles : list role) : bool := bool_decide (r ∈ roles).

(** Rows [WorkspaceMembership.objects.filter(workspace_id=..., user=..., role__in=...)] selects. *)
Definition is_membership (wid : pystr) (u : Z) (roles : list role) (m : membership_row) : bool :=
  bool_decide (m_workspace m = wid) && (m_user m =? u) && role_in (m_role m) roles.

(** [user] is [None] for an anonymous request. *)
Definition workspace_membership_for (d : db) (user : option Z) (wid : pystr) (allowed_roles : list role)
  : res exn (option (pystr * membership_row)) :=
  require (negb (bool_decide (allowed_roles = []))) (ValueError "unsupported workspace role set");;
  match user with
  | None => Ok None
  | Some u =>
      Ok (qs_first (fun m => is_membership wid u allowed_roles m && workspace_is_active d (m_workspace m))
            (memberships d))
  end.

Definition locked_workspace_membership_for (d : db) (u : Z) (wid : pystr) (allowed_roles : list role)
  : res exn (option (pystr * membership_row)) :=
  require (negb (bool_decide (allowed_roles = []))) (ValueError "unsupported workspace role set");;
  if workspace_is_active d wid
  then Ok (qs_first (is_membership wid u allowed_roles) (memberships d))
  else Ok None.

(** [membership_ref], [workspace_id] and [user_id] are fields of the run. *)
Definition agent_run_membership_is_current (d : db) (membership_ref wid : pystr) (u : Z) : bool :=
  match memberships d !! membership_ref with
  | Some m => is_membership wid u WORKSPACE_ROLES m && workspace_is_active d (m_workspace m)
  | None => false
  end.

(** The group of a grant reaches the membership. *)
Definition group_reaches (d : db) (gid mid : pystr) : bool :=
  match groups d !! gid with
  | Some g => bool_decide (g_kind g = AllMembersGroup)
  | None => false
  end || bool_decide ((gid, mid) ∈ group_members d).

Definition source_grants_for_membership (d : db) (mid : pystr) (m : membership_row)
  : list (pystr * grant_row) :=
  qs_list (fun g => bool_decide (gr_workspace g = m_workspace m) && group_reaches d (gr_group g) mid)
    (grants d).

(** [if current is None or RANK[a] > RANK[current]: current = a] *)
Definition raise_access (current : option access_level) (a : access_level) : option access_level :=
  match current with
  | None => Some a
  | Some c => if SOURCE_ACCESS_RANK c <? SOURCE_ACCESS_RANK a then Some a else current
  end.

Definition source_access_map_for_workspace_member (d : db) (user : option Z) (wid : pystr)
  : res exn (option (gmap pystr access_level)) :=
  membership ← workspace_membership_for d user wid WORKSPACE_ROLES;
  match membership with
  | None => Ok None
  | Some (mid, m) =>
      if role_in (m_role m) WORKSPACE_ADMIN_ROLES then
        Ok (Some ((fun _ => AccessControl) <$>
                   filter (fun ks => s_workspace ks.2 = wid) (sources d)))
      else
        Ok (Some (foldl (fun acc kg =>
                     partial_alter (fun current => raise_access current (gr_access kg.2))
                       (gr_source kg.2) acc)
                   ∅ (source_grants_for_membership d mid m)))
  end.

Definition source_access_level_for_membership (d : db) (mid : pystr) (m : membership_row)
    (sid : pystr) (s : source_row) : res exn (option access_level) :=
  require (bool_decide (m_workspace m = s_workspace s)) (ValueError "Source membership workspace mismatch");;
  if role_in (m_role m) WORKSPACE_ADMIN_ROLES then Ok (Some AccessControl)
  else
    Ok (foldl (fun highest kg => raise_access highest (gr_access kg.2)) None
          (filter (fun kg => gr_source kg.2 = sid) (source_grants_for_membership d mid m))).

Definition source_access_is_at_least (d : db) (mid : pystr) (m : membership_row)
    (sid : pystr) (s : source_row) (required_access : access_level) : res exn bool :=
  actual ← source_access_level_for_membership d mid m sid s;
  Ok match actual with
     | Some a => SOURCE_ACCESS_RANK required_access <=? SOURCE_ACCESS_RANK a
     | None => false
     end.

(** ** Abstract specification: the grants that reach a member *)

Definition grants_access (d : db) (mid : pystr) (m : membership_row) (sid : pystr) (a : access_level) : Prop :=
  exists gk g, grants d !! gk = Some g /\ gr_workspace g = m_workspace m /\ gr_source g = sid /\
    gr_access g = a /\ group_reaches d (gr_group g) mid = true.

Definition is_admin (m : membership_row) : Prop := m_role m = Owner \/ m_role m = Admin.

(** ** Lemmas *)

Lemma role_in_admin r : role_in r WORKSPACE_ADMIN_ROLES = true <-> r = Owner \/ r = Admin.
Proof. unfold role_in, WORKSPACE_ADMIN_ROLES. rewrite bool_decide_eq_true. set_solver. Qed.

Lemma role_in_all r : role_in r WORKSPACE_ROLES = true.
Proof. apply bool_decide_eq_true. destruct r; set_solver. Qed.

Lemma is_membership_spec wid u roles m :
  is_membership wid u roles m = true <-> m_workspace m = wid /\ m_user m = u /\ m_role m ∈ roles.
Proof.
  unfold is_membership, role_in. rewrite !andb_true_iff, !bool_decide_eq_true, Z.eqb_eq. naive_solver.
Qed.

(** The locked lookup returns an existing membership of the user with an allowed role
    in an active workspace. *)
Lemma locked_membership_Some d u wid roles k m :
  locked_workspace_membership_for d u wid roles = Ok (Some (k, m)) ->
  memberships d !! k = Some m /\ m_workspace m = wid /\ m_user m = u /\ m_role m ∈ roles /\
  workspace_is_active d wid = true.
Proof.
  unfold locked_workspace_membership_for. intros. res_inv.
  match goal with H : context [if ?c then _ else _] |- _ => destruct c eqn:Hw end; res_inv.
  match goal with H : qs_first _ _ = _ |- _ => apply qs_first_Some in H as [? H] end.
  rewrite is_membership_spec in *. naive_solver.
Qed.

Lemma membership_for_Some d u wid roles k m :
  workspace_membership_for d u wid roles = Ok (Some (k, m)) ->
  memberships d !! k = Some m /\ m_workspace m = wid /\ u = Some (m_user m) /\ m_role m ∈ roles /\
  workspace_is_active d wid = true.
Proof.
  unfold workspace_membership_for. intros. res_inv. destruct u as [u|]; res_inv.
  match goal with H : qs_first _ _ = _ |- _ => apply qs_first_Some in H as [? H] end.
  bool_inv. rewrite is_membership_spec in *. naive_solver.
Qed.

Lemma rank_inj a b : SOURCE_ACCESS_RANK a = SOURCE_ACCESS_RANK b -> a = b.
Proof. by destruct a, b. Qed.

Lemma raise_access_rank c a :
  exists b, raise_access c a = Some b /\
    SOURCE_ACCESS_RANK b =
      Z.max (SOURCE_ACCESS_RANK a) (from_option SOURCE_ACCESS_RANK 0 c).
Proof. destruct c as [[]|], a; eexists; split; reflexivity. Qed.

(** The running maximum of the code is the largest rank of the list. *)
Definition best_rank (l : list access_level) : Z := foldr (fun a r => Z.max (SOURCE_ACCESS_RANK a) r) 0 l.
Definition best_access (l : list access_level) : option access_level :=
  foldl raise_access None l.

Lemma foldl_raise_rank l c :
  from_option SOURCE_ACCESS_RANK 0 (foldl raise_access c l) =
  Z.max (from_option SOURCE_ACCESS_RANK 0 c) (best_rank l).
Proof.
  revert c; induction l as [|a l IH]; intros c; cbn.
  - destruct c as [[]|]; done.
  - rewrite IH. destruct (raise_access_rank c a) as (b & -> & Hb). cbn. rewrite Hb.
    fold (best_rank l). lia.
Qed.

Lemma best_rank_ge l a : a ∈ l -> SOURCE_ACCESS_RANK a <= best_rank l.
Proof. induction 1; cbn; fold (best_rank l); lia. Qed.

Lemma best_rank_attained l : l <> [] -> exists a, a ∈ l /\ best_rank l = SOURCE_ACCESS_RANK a.
Proof.
  induction l as [|a l IH]; [done|]. intros _. cbn. fold (best_rank l).
  destruct l as [|b l].
  - exists a. split; [by left|]. destruct a; done.
  - destruct IH as (c & Hc & Hr); [done|]. rewrite Hr.
    destruct (Z.max_spec (SOURCE_ACCESS_RANK a) (SOURCE_ACCESS_RANK c)) as [[_ ->]|[_ ->]].
    + exists c. split; [by right|done].
    + exists a. split; [by left|done].
Qed.

Lemma best_access_Some l a :
  best_access l = Some a <-> a ∈ l /\ forall b, b ∈ l -> SOURCE_ACCESS_RANK b <= SOURCE_ACCESS_RANK a.
Proof.
  pose proof (foldl_raise_rank l None) as Hr. cbn in Hr. fold (best_access l) in Hr.
  destruct (decide (l = [])) as [->|Hl].
  { split; [done|]. intros [[]%not_elem_of_nil _]. }
  destruct (best_rank_attained l Hl) as (c & Hc & Hcr).
  assert (best_access l = Some c) as ->.
  { destruct (best_access l) as [b|] eqn:E; cbn in Hr.
    - f_equal. apply rank_inj. rewrite Hr, Hcr. destruct c; done.
    - exfalso. rewrite Hcr in Hr. destruct c; discriminate Hr. }
  split.
  - intros [= <-]. split; [done|]. intros b Hb. rewrite <- Hcr. by apply best_rank_ge.
  - intros [Ha Hmax]. f_equal. apply rank_inj. specialize (Hmax _ Hc).
    pose proof (best_rank_ge _ _ Ha). lia.
Qed.

Lemma best_access_None l : best_access l = None <-> l = [].
Proof.
  split; [|by intros ->]. intros Hn. destruct l as [|a l]; [done|].
  pose proof (foldl_raise_rank (a :: l) None) as Hr. fold (best_access (a :: l)) in Hr.
  rewrite Hn in Hr. cbn in Hr. pose proof (best_rank_ge (a :: l) a ltac:(by left)).
  cbn in *. destruct a; cbn in *; lia.
Qed.

(** The access levels the grants of one source give a member. *)
Definition member_accesses (d : db) (mid : pystr) (m : membership_row) (sid : pystr) : list access_level :=
  (fun kg : pystr * grant_row => gr_access kg.2) <$>
    filter (fun kg => gr_source kg.2 = sid) (source_grants_for_membership d mid m).

Lemma elem_of_member_accesses d mid m sid a :
  a ∈ member_accesses d mid m sid <-> grants_access d mid m sid a.
Proof.
  unfold member_accesses, grants_access, source_grants_for_membership.
  rewrite list_elem_of_fmap. split.
  - intros ([k g] & -> & [Hs Hg]%list_elem_of_filter). apply elem_of_qs_list in Hg as [Hk Hp].
    bool_inv. naive_solver.
  - intros (k & g & Hk & Hw & Hs & Ha & Hr). exists (k, g). split; [done|].
    apply list_elem_of_filter. split; [done|]. apply elem_of_qs_list. split; [done|].
    rewrite Hr, bool_decide_eq_true_2; done.
Qed.

Lemma foldl_raise_fmap (l : list (pystr * grant_row)) c :
  foldl (fun highest kg => raise_access highest (gr_access kg.2)) c l =
  foldl raise_access c ((fun kg : pystr * grant_row => gr_access kg.2) <$> l).
Proof. revert c; induction l; intros c; cbn; auto. Qed.

Lemma source_access_level_spec d mid m sid s :
  m_workspace m = s_workspace s ->
  source_access_level_for_membership d mid m sid s =
  Ok (if role_in (m_role m) WORKSPACE_ADMIN_ROLES then Some AccessControl
      else best_access (member_accesses d mid m sid)).
Proof.
  intros Hw. unfold source_access_level_for_membership.
  rewrite bool_decide_eq_true_2 by done. cbn. case_match; [done|].
  by rewrite foldl_raise_fmap.
Qed.

Lemma foldl_access_map (l : list (pystr * grant_row)) (acc : gmap pystr access_level) sid :
  foldl (fun (acc : gmap pystr access_level) kg => partial_alter (fun current => raise_access current (gr_access kg.2))
           (gr_source kg.2) acc) acc l !! sid =
  foldl raise_access (acc !! sid : option access_level)
    ((fun kg : pystr * grant_row => gr_access kg.2) <$> filter (fun kg => gr_source kg.2 = sid) l).
Proof.
  revert acc; induction l as [|[k g] l IH]; intros acc; [done|]. cbn [foldl]. rewrite IH.
  destruct (decide (gr_source g = sid)) as [<-|Hne].
  - rewrite filter_cons_True by done. cbn. by rewrite lookup_partial_alter_eq.
  - rewrite filter_cons_False by done. cbn. by rewrite lookup_partial_alter_ne.
Qed.

(** ** Properties *)

(** The access test answers yes exactly for an owner or admin of the workspace, or for a
    member who is reached by some group grant on that source of at least the required rank. *)
Lemma source_access_is_at_least_iff d mid m sid s required :
  m_workspace m = s_workspace s ->
  exists b, source_access_is_at_least d mid m sid s required = Ok b /\
    (b = true <->
       is_admin m \/
       exists a, grants_access d mid m sid a /\ SOURCE_ACCESS_RANK required <= SOURCE_ACCESS_RANK a).
Proof.
  intros Hw. unfold source_access_is_at_least.
  rewrite source_access_level_spec by done. cbn. eexists. split; [done|].
  unfold is_admin. rewrite <- role_in_admin. destruct (role_in _ _) eqn:Hr.
  { split; [by left|]. destruct required; done. }
  setoid_rewrite <- elem_of_member_accesses.
  destruct (best_access _) as [b|] eqn:Hb.
  - apply best_access_Some in Hb as [Hb Hmax]. rewrite Z.leb_le. split.
    + intros. right. eauto.
    + intros [?|(a & Ha & ?)]; [done|]. specialize (Hmax _ Ha). lia.
  - apply best_access_None in Hb. rewrite Hb. split; [done|].
    intros [?|(a & Ha & ?)]; [done|]. by apply not_elem_of_nil in Ha.
Qed.

(** A member's access map holds, for each source of the workspace, the level the
    single-source lookup computes. *)
Lemma access_map_lookup d u wid mid m acc sid s :
  workspace_membership_for d u wid WORKSPACE_ROLES = Ok (Some (mid, m)) ->
  source_access_map_for_workspace_member d u wid = Ok (Some acc) ->
  sources d !! sid = Some s -> s_workspace s = wid ->
  source_access_level_for_membership d mid m sid s = Ok (acc !! sid).
Proof.
  intros Hm Hacc Hs Hw. unfold source_access_map_for_workspace_member in Hacc.
  rewrite Hm in Hacc. cbn in Hacc. apply membership_for_Some in Hm as (_ & Hmw & _).
  rewrite source_access_level_spec by congruence.
  destruct (role_in (m_role m) WORKSPACE_ADMIN_ROLES); simplify_eq; f_equal.
  - rewrite lookup_fmap. erewrite (map_lookup_filter_Some_2 _ _ sid); done.
  - by rewrite foldl_access_map, lookup_empty.
Qed.

(** ** A sample state *)


(** A workspace with a member of one custom group that may write the source "src-1". *)
Definition sample_db : db :=
  Db (<[1 := User "amy" "amy@example.test" "Amy" "pw" true]> (<[2 := User "bob" "bob@example.test" "Bob" "pw" true]> ∅))
    {["ws" := Workspace "Team" WorkspaceActive]}
    (<["mem-1" := Membership "ws" 1 Owner None 0]> (<["mem-2" := Membership "ws" 2 Member (Some 1) 1]> ∅))
    (<["grp-all" := Group "ws" "All members" AllMembersGroup 1 0]> (<["grp-1" := Group "ws" "Team" CustomGroup 1 1]> ∅))
    {[("grp-1", "mem-2")]}
    {["src-1" := Source "ws"]}
    (<["gra-1" := Grant "ws" "src-1" "grp-all" AccessRead]> (<["gra-2" := Grant "ws" "src-1" "grp-1" AccessWrite]> ∅))
    ∅ ∅ ∅ ∅ ∅ ∅ ∅.
