(* ===== verification/AgentIdentity.v ===== *)
(** * Agent names and default agents

    [packages/api/app_core/agent_identity.py], [packages/api/app_core/agent_defaults.py]
    and the row creation of [ResourceQuerySet.create] and [Agent.save] in
    [packages/api/app_core/models.py]. *)

From stdpp Require Import base tactics list gmap numbers.
From S2P Require Import Prelude PyStr Table Platform Schema.

Definition MAX_AGENT_ID_CHARACTERS : Z := 64.
Definition MAX_AGENT_NAME_CHARACTERS : Z := 255.
Definition MAX_AGENT_DESCRIPTION_CHARACTERS : Z := 128.
Definition MAX_AGENT_INSTRUCTIONS_CHARACTERS : Z := 16000.

(** [unicodedata.category(c) in {"Cc", "Cs"}]: the control characters and surrogates,
    fixed by the Unicode stability policy. *)
Definition is_cc_cs (c : Z) : bool :=
  ((0 <=? c) && (c <? 32)) || ((127 <=? c) && (c <? 160)) || ((55296 <=? c) && (c <=? 57343)).

(** [value.replace("\r\n", "\n").replace("\r", "\n")] *)
Fixpoint normalize_newlines (l : list Z) : list Z :=
  match l with
  | [] => []
  | c :: l' =>
      if c =? 13 then
        match l' with
        | c2 :: l'' => if c2 =? 10 then 10 :: normalize_newlines l'' else 10 :: normalize_newlines l'
        | [] => [10]
        end
      else c :: normalize_newlines l'
  end.

Section identity.
Context {PL : Platform}.

Definition validate_agent_id (value : pystr) : res exn pystr :=
  let e := ValueError "agent_id_invalid" in
  require (bool_decide (value = strip value) && negb (is_empty value)) e;;
  require (str_len value <=? MAX_AGENT_ID_CHARACTERS) e;;
  require (bool_decide (nfc value = value)) e;;
  require (negb (chars_any (fun c => (c =? 47) || (c =? 92)) value)) e;;
  require (negb (chars_any is_cc_cs value)) e;;
  Ok value.

Definition normalize_agent_name (value : pystr) : res exn pystr :=
  let normalized := nfc (strip value) in
  require (negb (is_empty normalized || (MAX_AGENT_NAME_CHARACTERS <? str_len normalized)
                 || chars_any is_cc_cs normalized)) (ValueError "agent_name_invalid");;
  Ok normalized.

Definition normalize_agent_description (value : pystr) : res exn pystr :=
  let normalized := nfc (strip value) in
  require (negb ((MAX_AGENT_DESCRIPTION_CHARACTERS <? str_len normalized)
                 || chars_any is_cc_cs normalized)) (ValueError "agent_description_invalid");;
  Ok normalized.

Definition normalize_agent_instructions (value : pystr) : res exn pystr :=
  let normalized := strip (nfc (PyStr (normalize_newlines (code_points value)))) in
  require (negb ((MAX_AGENT_INSTRUCTIONS_CHARACTERS <? str_len normalized)
                 || chars_any (fun c => is_cc_cs c && negb ((c =? 10) || (c =? 9))) normalized))
    (ValueError "agent_instructions_invalid");;
  Ok normalized.

(** [agent_definition_owner_unique] compares only rows with a definition: SQL nulls
    are distinct. *)
Definition agent_unique (t : gmap pystr agent_row) (k : pystr) (r : agent_row) : bool :=
  bool_decide (map_Forall (fun k' r' =>
    k' = k \/ a_definition r' = None \/
    (a_workspace r', a_owner r', a_definition r') <> (a_workspace r, a_owner r, a_definition r)) t).

(** [Agent.save] of a new row without tombstone fields: the normalised row, or the
    refusal of the model or of the database *)
Definition insert_agent (k : pystr) (r : agent_row) (d : db) : res exn db :=
  validate_agent_id k;;
  name ← normalize_agent_name (a_name r);
  description ← normalize_agent_description (a_description r);
  instructions ← normalize_agent_instructions (a_instructions r);
  require (bool_decide (agents d !! k = None)) IntegrityError;;
  require (agent_unique (agents d) k r) IntegrityError;;
  Ok (set_agents <[k := Agent (a_workspace r) (a_owner r) (a_definition r) name description
                          instructions (a_status r) (a_created_at r)]> d).

(** [Agent.objects.create(...)] with a fresh default id per attempt: only a primary-key
    conflict is retried, at most twice.  [ids] are the ids the three attempts draw. *)
Fixpoint resource_create (ids : list pystr) (r : agent_row) (d : db) : res exn (pystr * db) :=
  match ids with
  | [] => Err IntegrityError
  | k :: rest =>
      match insert_agent k r d with
      | Ok d' => Ok (k, d')
      | Err e =>
          if bool_decide (e = IntegrityError) && bool_decide (is_Some (agents d !! k))
          then match rest with [] => Err e | _ => resource_create rest r d end
          else Err e
      end
  end.

Definition DEFAULT_AGENT_NAME : pystr := "Centaeris".
Definition DEFAULT_AGENT_DESCRIPTION : pystr := PyStr [40664; 35748; 32; 65; 103; 101; 110; 116].

(** [agent_ids] are the three ids drawn by [Agent.objects.create], [now] the clock. *)
Definition ensure_default_agent (wid : pystr) (u : Z) (agent_ids : list pystr) (now : Z) (d : db)
  : res exn (pystr * bool * db) :=
  match head (order_by Z.le a_created_at
                (qs_list (fun a => bool_decide (a_workspace a = wid) && (a_owner a =? u)
                                   && bool_decide (a_status a = Active)) (agents d))) with
  | Some (k, _) => Ok (k, false, d)
  | None =>
      kd ← resource_create agent_ids
             (Agent wid u None DEFAULT_AGENT_NAME DEFAULT_AGENT_DESCRIPTION "" Active now) d;
      Ok (kd.1, true, kd.2)
  end.

(** ** Lemmas *)

Lemma insert_agent_frame k r d d' :
  insert_agent k r d = Ok d' -> exists r', d' = set_agents <[k := r']> d /\ agents d !! k = None /\
    a_workspace r' = a_workspace r /\ a_owner r' = a_owner r /\ a_definition r' = a_definition r /\
    a_status r' = a_status r.
Proof. unfold insert_agent. intros. res_inv. bool_inv. eexists. split_and!; try done; done. Qed.

Lemma resource_create_frame ids r d k d' :
  resource_create ids r d = Ok (k, d') -> exists r', d' = set_agents <[k := r']> d /\ agents d !! k = None /\
    a_workspace r' = a_workspace r /\ a_owner r' = a_owner r /\ a_definition r' = a_definition r /\
    a_status r' = a_status r.
Proof.
  induction ids as [|k0 ids IH]; [done|]. cbn [resource_create]. intros H.
  destruct (insert_agent k0 r d) eqn:E; [simplify_eq; by apply insert_agent_frame|].
  destruct (_ && _); [|done]. destruct ids; [done|]. by apply IH.
Qed.

(** [ensure_default_agent] changes nothing but the agent table, and leaves the user with an
    active agent of the workspace under the returned id. *)
Lemma ensure_default_agent_spec wid u ids now d k created d' :
  ensure_default_agent wid u ids now d = Ok (k, created, d') ->
  (exists a, agents d' !! k = Some a /\ a_workspace a = wid /\ a_owner a = u /\ a_status a = Active) /\
  (d' = d \/ exists a, agents d !! k = None /\ d' = set_agents <[k := a]> d).
Proof.
  unfold ensure_default_agent. intros H. destruct (head _) as [[k0 a]|] eqn:Hh.
  - simplify_eq. split; [|by left].
    assert (Hin : (k, a) ∈ qs_list (fun a => bool_decide (a_workspace a = wid) && (a_owner a =? u)
                                   && bool_decide (a_status a = Active)) (agents d')).
    { erewrite <- (elem_of_order_by Z.le a_created_at). destruct (order_by _ _ _); [done|].
      cbn in Hh. simplify_eq. by left. }
    apply elem_of_qs_list in Hin as [Hk Hp]. bool_inv. eauto 10.
  - res_inv. match goal with H : resource_create _ _ _ = _ |- _ => rename H into Hc end.
    rewrite (surjective_pairing x) in Hc. apply resource_create_frame in Hc as (r' & -> & Hk & ? & ? & ? & ?).
    split; [|by right; eauto]. exists r'. cbn. rewrite lookup_insert_eq. done.
Qed.

(** A first id that is valid and unused is enough for the default agent to exist. *)
Lemma ensure_default_agent_ok wid u k0 ids now d :
  validate_agent_id k0 = Ok k0 -> agents d !! k0 = None ->
  exists k created d', ensure_default_agent wid u (k0 :: ids) now d = Ok (k, created, d').
Proof.
  intros Hv Hf. unfold ensure_default_agent. destruct (head _) as [[k a]|]; [eauto|].
  cbn [resource_create]. unfold insert_agent.
  unfold normalize_agent_name, normalize_agent_description, normalize_agent_instructions.
  cbn -[order_by]. rewrite Hv. cbn.
  assert (Hn : nfc DEFAULT_AGENT_NAME = DEFAULT_AGENT_NAME) by by apply nfc_stable.
  assert (Hd : nfc DEFAULT_AGENT_DESCRIPTION = DEFAULT_AGENT_DESCRIPTION) by by apply nfc_stable.
  assert (He : nfc (PyStr []) = PyStr []) by by apply nfc_stable.
  change (strip DEFAULT_AGENT_NAME) with DEFAULT_AGENT_NAME.
  change (strip DEFAULT_AGENT_DESCRIPTION) with DEFAULT_AGENT_DESCRIPTION.
  rewrite Hn. cbn. rewrite Hd. cbn. rewrite He. cbn.
  rewrite (bool_decide_eq_true_2 (_ = None)) by done. cbn.
  assert (agent_unique (agents d) k0
    (Agent wid u None DEFAULT_AGENT_NAME DEFAULT_AGENT_DESCRIPTION "" Active now) = true) as ->.
  { apply bool_decide_eq_true. intros k' r' _. right. cbn.
    destruct (a_definition r'); [right|left]; congruence. }
  cbn. eauto.
Qed.
End identity.
