(* ===== verification/Members.v ===== *)
(** * Workspace members, groups and invitations

    The endpoints of [packages/api/app_core/http/workspace_members.py].  A handler takes the
    database and the request and returns the response with the database after the
    transaction; an exception leaves the transaction uncommitted.  Fresh ids, the clock and
    the random token are arguments. *)

From stdpp Require Import base tactics list gmap numbers.
From S2P Require Import Prelude PyStr Table Utf8 Sha256 Platform Schema Access AgentIdentity.

(** ** Responses *)

Record member_view := MemberView {
  mv_membership_id : pystr; mv_user_id : Z; mv_email : pystr; mv_role : role; mv_created_at : Z }.
Record group_view := GroupView {
  gv_id : pystr; gv_name : pystr; gv_kind : group_kind; gv_created_at : Z }.
Record invitation_view := InvitationView {
  iv_id : pystr; iv_email : pystr; iv_role : assignable; iv_status : invitation_status;
  iv_expires_at : Z; iv_created_at : Z }.

Inductive body :=
| BError (error : pystr)
| BOk
| BMembers (members : list member_view)
| BMember (member : member_view)
| BGroups (groups : list group_view)
| BGroup (group : group_view)
| BOwner (owner previousOwner : member_view)
| BInvitations (invitations : list invitation_view)
| BInvitation (invitation : invitation_view) (inviteUrl : pystr)
| BPreview (workspaceId workspaceName email : pystr) (r : assignable) (accountExists : bool) (expiresAt : Z)
| BAccepted (workspaceId membershipId : pystr) (r : role) (userCreated : bool).

Record response := Status { status : Z; response_body : body }.

Definition error_response (code : Z) (error : pystr) : response := Status code (BError error).

(** Result of a handler: the response and the committed database. *)
Abbreviation handler_result := (res exn (response * db)).

Definition INVITATION_EXPIRY : Z := 72 * 3600.

(** The commit of a request: an exception becomes a 500 response and rolls back. *)
Definition committed (d : db) (r : handler_result) : response * db :=
  match r with
  | Ok rd => rd
  | Err _ => (error_response 500 "internal_error", d)
  end.

Section members.
Context {PL : Platform}.

(** ** Request validation *)

Definition normalize_workspace_invitation_email (email : pystr) : res exn pystr :=
  let normalized := str_lower (strip email) in
  require (validate_email normalized) (ValueError "WorkspaceInvitation email is invalid");;
  Ok normalized.

(** [WorkspaceGroupNameRequest]: field bounds on the raw value, then normalisation *)
Definition normalize_name (value : pystr) : res exn pystr :=
  require ((1 <=? str_len value) && (str_len value <=? 160)) (ValueError "string_length");;
  let normalized := nfc (strip value) in
  require (negb (is_empty normalized)) (ValueError "workspace_group_name_required");;
  Ok normalized.

Definition token_digest (token : pystr) : res exn (option pystr) :=
  if is_empty token || negb (bool_decide (token = strip token)) || (128 <? str_len token) then Ok None
  else match utf8_encode token with
       | Some data => Ok (Some ("sha256:" +:+ sha256_hex data))
       | None => Err UnicodeEncodeError
       end.

(** ** Serialisation *)

Definition serialize_invitation (k : pystr) (i : invitation_row) : invitation_view :=
  InvitationView k (i_email i) (i_role i) (i_status i) (i_expires_at i) (i_created_at i).

(** [membership.user] exists by referential integrity. *)
Definition serialize_member (d : db) (k : pystr) (m : membership_row) : member_view :=
  MemberView k (m_user m)
    (match users d !! m_user m with
     | Some u => if is_empty (u_email u) then u_username u else u_email u
     | None => ""
     end) (m_role m) (m_created_at m).

Definition serialize_group (k : pystr) (g : group_row) : group_view :=
  GroupView k (g_name g) (g_kind g) (g_created_at g).

(** ** Selections the handlers share *)

(** [Model.objects.filter(id=..., workspace=...).first()] *)
Definition group_of (d : db) (wid gid : pystr) : option group_row :=
  match groups d !! gid with
  | Some g => if bool_decide (g_workspace g = wid) then Some g else None
  | None => None
  end.
Definition membership_of (d : db) (wid mid : pystr) : option membership_row :=
  match memberships d !! mid with
  | Some m => if bool_decide (m_workspace m = wid) then Some m else None
  | None => None
  end.
Definition invitation_of (d : db) (wid iid : pystr) : option invitation_row :=
  match invitations d !! iid with
  | Some i => if bool_decide (i_workspace i = wid) then Some i else None
  | None => None
  end.

Definition group_name_taken (d : db) (wid name : pystr) (except : option pystr) : bool :=
  bool_decide (map_Exists (fun k g => g_workspace g = wid /\ g_name g = name /\ Some k <> except) (groups d)).

Definition is_member_of (d : db) (wid : pystr) (u : Z) : bool :=
  qs_exists (fun m => bool_decide (m_workspace m = wid) && (m_user m =? u)) (memberships d).

Definition members_in_order (d : db) (l : list (pystr * membership_row)) : list member_view :=
  (fun km => serialize_member d km.1 km.2) <$> order_by Z.le m_created_at l.

Definition workspace_members_of (d : db) (wid : pystr) : list (pystr * membership_row) :=
  qs_list (fun m => bool_decide (m_workspace m = wid)) (memberships d).

Definition _locked_workspace_and_actor_membership (d : db) (u : Z) (wid : pystr) (allowed_roles : list role)
  : res exn (option (pystr * membership_row)) :=
  locked_workspace_membership_for d u wid allowed_roles.

(** ** Members and groups *)

Definition list_workspace_members (d : db) (user : option Z) (wid : pystr) : res exn response :=
  membership ← workspace_membership_for d user wid WORKSPACE_ADMIN_ROLES;
  match membership with
  | None => Ok (error_response 404 "workspace_not_found")
  | Some _ => Ok (Status 200 (BMembers (members_in_order d (workspace_members_of d wid))))
  end.

(** "all_members" sorts before "custom" *)
Definition kind_rank (k : group_kind) : Z := match k with AllMembersGroup => 0 | CustomGroup => 1 end.
Definition group_key_le (x y : Z * Z) : Prop := x.1 < y.1 \/ (x.1 = y.1 /\ x.2 <= y.2).
#[global] Instance group_key_le_dec : RelDecision group_key_le.
Proof. intros x y. unfold group_key_le. apply _. Defined.

Definition list_workspace_groups (d : db) (user : option Z) (wid : pystr) : res exn response :=
  membership ← workspace_membership_for d user wid WORKSPACE_ROLES;
  match membership with
  | None => Ok (error_response 404 "workspace_not_found")
  | Some _ =>
      Ok (Status 200 (BGroups ((fun kg => serialize_group kg.1 kg.2) <$>
        order_by group_key_le (fun g => (kind_rank (g_kind g), g_created_at g))
          (qs_list (fun g => bool_decide (g_workspace g = wid)) (groups d)))))
  end.

Definition create_workspace_group (d : db) (u : Z) (wid name new_group_id : pystr) (now : Z) : handler_result :=
  locked ← _locked_workspace_and_actor_membership d u wid WORKSPACE_ADMIN_ROLES;
  match locked with
  | None => Ok (error_response 404 "workspace_not_found", d)
  | Some _ =>
      if group_name_taken d wid name None then Ok (error_response 409 "workspace_group_name_exists", d)
      else
        let g := Group wid name CustomGroup u now in
        d' ← create_group new_group_id g d;
        Ok (Status 201 (BGroup (serialize_group new_group_id g)), d')
  end.

Definition update_workspace_group (d : db) (u : Z) (wid gid name : pystr) : handler_result :=
  locked ← _locked_workspace_and_actor_membership d u wid WORKSPACE_ADMIN_ROLES;
  match locked with
  | None => Ok (error_response 404 "workspace_not_found", d)
  | Some _ =>
      match group_of d wid gid with
      | None => Ok (error_response 404 "workspace_group_not_found", d)
      | Some g =>
          if bool_decide (g_kind g = AllMembersGroup) then
            Ok (error_response 409 "workspace_system_group_immutable", d)
          else if bool_decide (g_name g = name) then
            Ok (error_response 409 "workspace_group_name_unchanged", d)
          else if group_name_taken d wid name (Some gid) then
            Ok (error_response 409 "workspace_group_name_exists", d)
          else
            d' ← save_group gid (set_g_name name g) d;
            Ok (Status 200 (BGroup (serialize_group gid (set_g_name name g))), d')
      end
  end.

(** [group.delete()] removes the rows of [members] with it. *)
Definition delete_workspace_group (d : db) (u : Z) (wid gid : pystr) : handler_result :=
  locked ← _locked_workspace_and_actor_membership d u wid WORKSPACE_ADMIN_ROLES;
  match locked with
  | None => Ok (error_response 404 "workspace_not_found", d)
  | Some _ =>
      match group_of d wid gid with
      | None => Ok (error_response 404 "workspace_group_not_found", d)
      | Some g =>
          if bool_decide (g_kind g = AllMembersGroup) then
            Ok (error_response 409 "workspace_system_group_immutable", d)
          else
            let d1 := set_grants (qs_delete (fun gr => bool_decide (gr_group gr = gid))) d in
            let d2 := set_groups (delete gid) (set_group_members (filter (fun gm => gm.1 <> gid)) d1) in
            Ok (Status 200 BOk, d2)
      end
  end.

Definition list_workspace_group_members (d : db) (user : option Z) (wid gid : pystr) : res exn response :=
  membership ← workspace_membership_for d user wid WORKSPACE_ADMIN_ROLES;
  match membership with
  | None => Ok (error_response 404 "workspace_not_found")
  | Some _ =>
      match group_of d wid gid with
      | None => Ok (error_response 404 "workspace_group_not_found")
      | Some g =>
          let members :=
            if bool_decide (g_kind g = AllMembersGroup) then workspace_members_of d wid
            else filter (fun km : pystr * membership_row => (gid, km.1) ∈ group_members d)
                   (qs_list (fun _ => true) (memberships d)) in
          Ok (Status 200 (BMembers (members_in_order d members)))
      end
  end.

Definition _change_workspace_group_member (add : bool) (d : db) (u : Z) (wid gid mid : pystr) : handler_result :=
  locked ← _locked_workspace_and_actor_membership d u wid WORKSPACE_ADMIN_ROLES;
  match locked with
  | None => Ok (error_response 404 "workspace_not_found", d)
  | Some _ =>
      match group_of d wid gid with
      | None => Ok (error_response 404 "workspace_group_not_found", d)
      | Some g =>
          if bool_decide (g_kind g = AllMembersGroup) then
            Ok (error_response 409 "workspace_system_group_immutable", d)
          else
            match membership_of d wid mid with
            | None => Ok (error_response 404 "workspace_member_not_found", d)
            | Some _ =>
                let d' := if add
                          then set_group_members (fun s => {[(gid, mid)]} ∪ s) d
                          else set_group_members (fun s => s ∖ {[(gid, mid)]}) d in
                Ok (Status 200 BOk, d')
            end
      end
  end.
Definition add_workspace_group_member := _change_workspace_group_member true.
Definition remove_workspace_group_member := _change_workspace_group_member false.

Definition update_workspace_member_role (d : db) (u : Z) (wid mid : pystr) (r : assignable) : handler_result :=
  locked ← _locked_workspace_and_actor_membership d u wid WORKSPACE_ADMIN_ROLES;
  match locked with
  | None => Ok (error_response 404 "workspace_not_found", d)
  | Some (actor_id, _) =>
      match membership_of d wid mid with
      | None => Ok (error_response 404 "workspace_member_not_found", d)
      | Some target =>
          if bool_decide (mid = actor_id) then
            Ok (error_response 409 "workspace_member_self_operation_forbidden", d)
          else if bool_decide (m_role target = Owner) then
            Ok (error_response 409 "workspace_owner_transfer_required", d)
          else if bool_decide (m_role target = assigned_role r) then
            Ok (error_response 409 "workspace_member_role_unchanged", d)
          else
            let target := set_role (assigned_role r) target in
            d' ← save_membership mid target d;
            Ok (Status 200 (BMember (serialize_member d' mid target)), d')
      end
  end.

Definition remove_workspace_member (d : db) (u : Z) (wid mid : pystr) : handler_result :=
  locked ← _locked_workspace_and_actor_membership d u wid WORKSPACE_ADMIN_ROLES;
  match locked with
  | None => Ok (error_response 404 "workspace_not_found", d)
  | Some (actor_id, _) =>
      match membership_of d wid mid with
      | None => Ok (error_response 404 "workspace_member_not_found", d)
      | Some target =>
          if bool_decide (mid = actor_id) then
            Ok (error_response 409 "workspace_member_self_operation_forbidden", d)
          else if bool_decide (m_role target = Owner) then
            Ok (error_response 409 "workspace_owner_transfer_required", d)
          else Ok (Status 200 BOk, delete_membership mid d)
      end
  end.

(** [request.user] is the authenticated user [u]; its password hash is the stored one. *)
Definition user_check_password (d : db) (u : Z) (password : pystr) : bool :=
  match users d !! u with
  | Some row => check_password password (u_password row)
  | None => false
  end.
Definition user_is_active (d : db) (u : Z) : bool :=
  match users d !! u with Some row => u_active row | None => false end.

Definition transfer_workspace_ownership (d : db) (u : Z) (wid target_membership_id current_password : pystr)
  : handler_result :=
  locked ← _locked_workspace_and_actor_membership d u wid [Owner];
  match locked with
  | None => Ok (error_response 404 "workspace_not_found", d)
  | Some (owner_id, owner_membership) =>
      if negb (user_check_password d u current_password) then
        Ok (error_response 403 "workspace_owner_reauthentication_failed", d)
      else
        match membership_of d wid target_membership_id with
        | None => Ok (error_response 404 "workspace_member_not_found", d)
        | Some target =>
            if bool_decide (target_membership_id = owner_id) then
              Ok (error_response 409 "workspace_owner_transfer_to_self", d)
            else if negb (role_in (m_role target) [Admin; Member]) then
              Ok (error_response 409 "workspace_owner_transfer_target_invalid", d)
            else if negb (user_is_active d (m_user target)) then
              Ok (error_response 409 "workspace_owner_transfer_target_inactive", d)
            else
              let owner_membership := set_role Admin owner_membership in
              d1 ← save_membership owner_id owner_membership d;
              let target := set_role Owner target in
              d2 ← save_membership target_membership_id target d1;
              Ok (Status 200 (BOwner (serialize_member d2 target_membership_id target)
                                (serialize_member d2 owner_id owner_membership)), d2)
        end
  end.

(** ** Invitations *)

Definition require_sha256 (name value : pystr) : res exn unit :=
  let digest := removeprefix value "sha256:" in
  require (startswith value "sha256:" && (str_len digest =? 64) && chars_all is_lower_hex digest)
    (ValueError (name +:+ " must be sha256:<64 lowercase hex>")).

(** [WorkspaceInvitation.save]: the email is normalised and the status fields must agree *)
Definition invitation_fields_valid (i : invitation_row) : res exn unit :=
  require (negb (bool_decide (i_status i = Pending) &&
            (bool_decide (is_Some (i_accepted_by i)) || negb (is_empty (i_accepted_membership_ref i))
             || bool_decide (is_Some (i_revoked_by i)))))
    (ValueError "pending WorkspaceInvitation has terminal fields");;
  require (negb (bool_decide (i_status i = Accepted) &&
            (bool_decide (i_accepted_by i = None) || is_empty (i_accepted_membership_ref i))))
    (ValueError "accepted WorkspaceInvitation requires membership identity");;
  require (negb (bool_decide (i_status i = Revoked) && bool_decide (i_revoked_by i = None)))
    (ValueError "revoked WorkspaceInvitation requires revoker identity").

Definition set_i_email (e : pystr) (i : invitation_row) : invitation_row :=
  Invitation (i_workspace i) e (i_role i) (i_status i) (i_token_digest i) (i_invited_by i)
    (i_accepted_by i) (i_accepted_membership_ref i) (i_revoked_by i) (i_expires_at i) (i_created_at i).

(** [invitation.save(update_fields=[...])] of an existing row; no caller writes the email *)
Definition save_invitation (k : pystr) (i : invitation_row) (d : db) : res exn db :=
  normalize_workspace_invitation_email (i_email i);;
  require_sha256 "WorkspaceInvitation.token_digest" (i_token_digest i);;
  invitation_fields_valid i;;
  require (invitation_unique (invitations d) k i) IntegrityError;;
  Ok (set_invitations <[k := i]> d).

(** [WorkspaceInvitation.objects.create(...)] *)
Definition create_invitation (k : pystr) (i : invitation_row) (d : db) : res exn (invitation_row * db) :=
  email ← normalize_workspace_invitation_email (i_email i);
  let i := set_i_email email i in
  match invitations d !! k with
  | Some _ => Err IntegrityError
  | None => d' ← save_invitation k i d; Ok (i, d')
  end.

Definition account_for_email (d : db) (email : pystr) : option (Z * user_row) :=
  qs_first (fun u => username_iexact email (u_username u)) (users d).

Definition list_workspace_invitations (d : db) (user : option Z) (wid : pystr) (now : Z) : res exn response :=
  membership ← workspace_membership_for d user wid WORKSPACE_ADMIN_ROLES;
  match membership with
  | None => Ok (error_response 404 "workspace_not_found")
  | Some _ =>
      Ok (Status 200 (BInvitations ((fun ki => serialize_invitation ki.1 ki.2) <$>
        order_by Z.le i_created_at
          (qs_list (fun i => bool_decide (i_workspace i = wid) && bool_decide (i_status i = Pending)
                             && (now <? i_expires_at i)) (invitations d)))))
  end.

(** [urllib.parse.quote(s, safe='')] *)
Definition quote_byte (b : Z) : list Z :=
  if is_ascii_alnum b || existsb (Z.eqb b) [95; 46; 45; 126] then [b]
  else 37 :: map (fun n => if n <? 10 then 48 + n else 55 + n) [b / 16; b mod 16].
Definition quote (s : pystr) : res exn pystr :=
  match utf8_encode s with
  | Some data => Ok (PyStr (concat (map quote_byte data)))
  | None => Err UnicodeEncodeError
  end.
(** [s.rstrip("/")] *)
Definition rstrip_slash (s : pystr) : pystr := PyStr (rev (drop_while (Z.eqb 47) (rev (code_points s)))).

Definition create_workspace_invitation (d : db) (u : Z) (wid email : pystr) (r : assignable)
    (now : Z) (token new_invitation_id web_origin : pystr) : handler_result :=
  locked ← _locked_workspace_and_actor_membership d u wid WORKSPACE_ADMIN_ROLES;
  match locked with
  | None => Ok (error_response 404 "workspace_not_found", d)
  | Some _ =>
      if match account_for_email d email with
         | Some (account, _) => is_member_of d wid account
         | None => false
         end then Ok (error_response 409 "workspace_member_exists", d)
      else
        let pending i := bool_decide (i_workspace i = wid) && bool_decide (i_email i = email)
                         && bool_decide (i_status i = Pending) in
        let d1 := set_invitations (qs_update (fun i => pending i && (i_expires_at i <=? now))
                                     (set_i_status Expired)) d in
        let d2 := set_invitations (qs_update (fun i => pending i && (now <? i_expires_at i))
                                     (fun i => set_i_revoked_by u (set_i_status Revoked i))) d1 in
        digest ← token_digest token;
        digest ← from_option_res (ValueError "WorkspaceInvitation.token_digest must be sha256:<64 lowercase hex>") digest;
        created ← create_invitation new_invitation_id
                    (Invitation wid email r Pending digest u None "" None (now + INVITATION_EXPIRY) now) d2;
        quoted ← quote token;
        Ok (Status 201 (BInvitation (serialize_invitation new_invitation_id created.1)
                          (rstrip_slash web_origin +:+ "/activate#token=" +:+ quoted)), created.2)
  end.

Definition revoke_workspace_invitation (d : db) (u : Z) (wid iid : pystr) (now : Z) : handler_result :=
  locked ← _locked_workspace_and_actor_membership d u wid WORKSPACE_ADMIN_ROLES;
  match locked with
  | None => Ok (error_response 404 "workspace_not_found", d)
  | Some _ =>
      match invitation_of d wid iid with
      | None => Ok (error_response 404 "invitation_not_found", d)
      | Some i =>
          if negb (bool_decide (i_status i = Pending)) then
            Ok (error_response 409 "invitation_not_pending", d)
          else if i_expires_at i <=? now then
            d' ← save_invitation iid (set_i_status Expired i) d;
            Ok (error_response 410 "invitation_expired", d')
          else
            d' ← save_invitation iid (set_i_revoked_by u (set_i_status Revoked i)) d;
            Ok (Status 200 BOk, d')
      end
  end.

Definition invitation_by_digest (d : db) (digest : pystr) : option (pystr * invitation_row) :=
  qs_first (fun i => bool_decide (i_token_digest i = digest)) (invitations d).

Definition preview_workspace_invitation (d : db) (token : pystr) (now : Z) : res exn response :=
  digest ← token_digest token;
  match digest with
  | None => Ok (error_response 404 "invitation_not_found")
  | Some digest =>
      match invitation_by_digest d digest with
      | None => Ok (error_response 404 "invitation_not_found")
      | Some (_, i) =>
          if negb (bool_decide (i_status i = Pending)) then Ok (error_response 404 "invitation_not_found")
          else if i_expires_at i <=? now then Ok (error_response 410 "invitation_expired")
          else
            match workspaces d !! i_workspace i with
            | None => Err DoesNotExist
            | Some w =>
                if negb (bool_decide (w_status w = WorkspaceActive)) then
                  Ok (error_response 409 "workspace_unavailable")
                else
                  Ok (Status 200 (BPreview (i_workspace i) (w_name w) (i_email i) (i_role i)
                        (bool_decide (is_Some (account_for_email d (i_email i)))) (i_expires_at i)))
            end
      end
  end.

(** What a request that accepts an invitation brings along: fresh ids and the clock. *)
Record accept_env := AcceptEnv {
  ae_now : Z; ae_user_id : Z; ae_membership_id : pystr; ae_agent_ids : list pystr }.

(** [accepted_user.save()] inside its own savepoint *)
Definition insert_user (uid : Z) (u : user_row) (d : db) : res exn db :=
  require (bool_decide (users d !! uid = None)
           && bool_decide (map_Forall (fun _ u' => u_username u' <> u_username u) (users d))) IntegrityError;;
  Ok (set_users <[uid := u]> d).

(** The user an invitation is accepted by: the account of the invited address, signed in,
    or a new account; [inl] is an early return. *)
Definition accepting_user (d : db) (user : option Z) (i : invitation_row) (name password : option pystr)
    (env : accept_env) : response + (Z * bool * db) :=
  match account_for_email d (i_email i) with
  | Some (pk, account) =>
      match user with
      | None => inl (error_response 401 "invitation_login_required")
      | Some u =>
          if negb (u =? pk) then inl (error_response 403 "invitation_account_mismatch")
          else if negb (u_active account) then inl (error_response 403 "invitation_account_inactive")
          else if bool_decide (is_Some name) || bool_decide (is_Some password) then
            inl (error_response 400 "invitation_account_exists")
          else inr (pk, false, d)
      end
  | None =>
      if bool_decide (is_Some user) then inl (error_response 403 "invitation_account_mismatch")
      else
        let name := nfc (strip (default "" name)) in
        let password := default "" password in
        if is_empty name || (150 <? str_len name) || is_empty password then
          inl (error_response 400 "invitation_account_setup_required")
        else if negb (validate_password password (i_email i) name) then inl (error_response 400 "password_invalid")
        else
          match insert_user (ae_user_id env)
                  (User (i_email i) (i_email i) name (make_password password) true) d with
          | Err _ => inl (error_response 409 "invitation_account_created_concurrently")
          | Ok d' => inr (ae_user_id env, true, d')
          end
  end.

Definition accept_workspace_invitation (d : db) (user : option Z) (token : pystr)
    (name password : option pystr) (env : accept_env) : handler_result :=
  digest ← token_digest token;
  match digest with
  | None => Ok (error_response 404 "invitation_not_found", d)
  | Some digest =>
      match invitation_by_digest d digest with
      | None => Ok (error_response 404 "invitation_not_found", d)
      | Some (iid, i) =>
          if negb (bool_decide (i_status i = Pending)) then
            Ok (error_response 409 "invitation_not_pending", d)
          else if i_expires_at i <=? ae_now env then
            d' ← save_invitation iid (set_i_status Expired i) d;
            Ok (error_response 410 "invitation_expired", d')
          else if negb (workspace_is_active d (i_workspace i)) then
            Ok (error_response 409 "workspace_unavailable", d)
          else
            match accepting_user d user i name password env with
            | inl early => Ok (early, d)
            | inr (uid, user_created, d1) =>
                if is_member_of d1 (i_workspace i) uid then
                  Ok (error_response 409 "workspace_member_exists", d1)
                else
                  let m := Membership (i_workspace i) uid (assigned_role (i_role i))
                             (Some (i_invited_by i)) (ae_now env) in
                  d2 ← create_membership (ae_membership_id env) m d1;
                  agent ← ensure_default_agent (i_workspace i) uid (ae_agent_ids env) (ae_now env) d2;
                  let d3 := agent.2 in
                  d4 ← save_invitation iid
                         (set_i_accepted uid (ae_membership_id env) (set_i_status Accepted i)) d3;
                  Ok (Status 200 (BAccepted (i_workspace i) (ae_membership_id env) (m_role m) user_created), d4)
            end
      end
  end.

(** ** The router *)

(** A request that may write; [u] is the signed-in user. *)
Inductive request :=
| CreateGroup (u : Z) (wid name new_id : pystr) (now : Z)
| UpdateGroup (u : Z) (wid gid name : pystr)
| DeleteGroup (u : Z) (wid gid : pystr)
| AddGroupMember (u : Z) (wid gid mid : pystr)
| RemoveGroupMember (u : Z) (wid gid mid : pystr)
| UpdateRole (u : Z) (wid mid : pystr) (r : assignable)
| RemoveMember (u : Z) (wid mid : pystr)
| TransferOwnership (u : Z) (wid target password : pystr)
| CreateInvitation (u : Z) (wid email : pystr) (r : assignable) (now : Z) (token new_id web_origin : pystr)
| RevokeInvitation (u : Z) (wid iid : pystr) (now : Z)
| AcceptInvitation (user : option Z) (token : pystr) (name password : option pystr) (env : accept_env).

Definition handle (q : request) (d : db) : handler_result :=
  match q with
  | CreateGroup u wid name new_id now => create_workspace_group d u wid name new_id now
  | UpdateGroup u wid gid name => update_workspace_group d u wid gid name
  | DeleteGroup u wid gid => delete_workspace_group d u wid gid
  | AddGroupMember u wid gid mid => add_workspace_group_member d u wid gid mid
  | RemoveGroupMember u wid gid mid => remove_workspace_group_member d u wid gid mid
  | UpdateRole u wid mid r => update_workspace_member_role d u wid mid r
  | RemoveMember u wid mid => remove_workspace_member d u wid mid
  | TransferOwnership u wid target password => transfer_workspace_ownership d u wid target password
  | CreateInvitation u wid email r now token new_id web_origin =>
      create_workspace_invitation d u wid email r now token new_id web_origin
  | RevokeInvitation u wid iid now => revoke_workspace_invitation d u wid iid now
  | AcceptInvitation user token name password env => accept_workspace_invitation d user token name password env
  end.

(** The database after a sequence of requests. *)
Definition serve (d : db) (qs : list request) : db :=
  foldl (fun d q => (committed d (handle q d)).2) d qs.

(** The workspace a request is addressed to and its user. *)
Definition addressed (q : request) : option (pystr * Z) :=
  match q with
  | CreateGroup u wid _ _ _ | UpdateGroup u wid _ _ | DeleteGroup u wid _ | AddGroupMember u wid _ _
  | RemoveGroupMember u wid _ _ | UpdateRole u wid _ _ | RemoveMember u wid _ | TransferOwnership u wid _ _
  | CreateInvitation u wid _ _ _ _ _ _ | RevokeInvitation u wid _ _ => Some (wid, u)
  | AcceptInvitation _ _ _ _ _ => None
  end.
End members.
