(* ===== verification/MembersInv.v ===== *)
(** * Correctness of the membership endpoints

    The invariant of the identity tables, that every request keeps it, that ownership moves
    only by a transfer, and what accepting an invitation does. *)

From stdpp Require Import base tactics list gmap numbers relations.
From S2P Require Import Prelude PyStr Table Utf8 Sha256 Platform Schema Access AgentIdentity Members.

Section inv.
Context {PL : Platform}.

(** ** The invariant, table by table *)

(** Members of a workspace are distinct users, all of them existing; one owner at most. *)
Definition same_seat (m1 m2 : membership_row) : Prop :=
  m_workspace m1 = m_workspace m2 /\
  (m_user m1 = m_user m2 \/ (m_role m1 = Owner /\ m_role m2 = Owner)).
Definition members_ok (us : gmap Z user_row) (ms : gmap pystr membership_row) : Prop :=
  conflict_free same_seat ms /\ forall k m, ms !! k = Some m -> is_Some (us !! m_user m).

(** Group names are unique in a workspace, and so is the group of all members. *)
Definition same_group (g1 g2 : group_row) : Prop :=
  g_workspace g1 = g_workspace g2 /\
  (g_name g1 = g_name g2 \/ (g_kind g1 = AllMembersGroup /\ g_kind g2 = AllMembersGroup)).
Definition groups_ok (gs : gmap pystr group_row) : Prop := conflict_free same_group gs.

(** A listed group member is a member of the group's workspace; the group is a custom one. *)
Definition links_ok (gs : gmap pystr group_row) (gm : gset (pystr * pystr)) (ms : gmap pystr membership_row) : Prop :=
  forall gid mid, (gid, mid) ∈ gm -> exists g m, gs !! gid = Some g /\ ms !! mid = Some m /\
    g_kind g = CustomGroup /\ g_workspace g = m_workspace m.

(** A grant names an existing group of its workspace. *)
Definition grants_ok (gs : gmap pystr group_row) (gr : gmap pystr grant_row) : Prop :=
  forall k r, gr !! k = Some r -> exists g, gs !! gr_group r = Some g /\ g_workspace g = gr_workspace r.

(** At most one pending invitation per address, one row per token, consistent fields. *)
Definition invitation_ok (i : invitation_row) : Prop :=
  is_ok (normalize_workspace_invitation_email (i_email i)) = true /\
  is_ok (require_sha256 "WorkspaceInvitation.token_digest" (i_token_digest i)) = true /\
  is_ok (invitation_fields_valid i) = true.
Definition same_invitation (i1 i2 : invitation_row) : Prop :=
  i_token_digest i1 = i_token_digest i2 \/
  (i_workspace i1 = i_workspace i2 /\ i_email i1 = i_email i2 /\
   i_status i1 = Pending /\ i_status i2 = Pending).
Definition invitations_ok (ivs : gmap pystr invitation_row) : Prop :=
  conflict_free same_invitation ivs /\ forall k i, ivs !! k = Some i -> invitation_ok i.

(** An agent definition is shared with existing members only. *)
Definition shares_ok (dm : gset (pystr * pystr)) (ms : gmap pystr membership_row) : Prop :=
  forall def mid, (def, mid) ∈ dm -> is_Some (ms !! mid).

Record wf (d : db) : Prop := Wf {
  wf_members : members_ok (users d) (memberships d);
  wf_groups : groups_ok (groups d);
  wf_links : links_ok (groups d) (group_members d) (memberships d);
  wf_grants : grants_ok (groups d) (grants d);
  wf_invitations : invitations_ok (invitations d);
  wf_shares : shares_ok (definition_members d) (memberships d) }.

(** ** Each statement keeps the invariant *)

#[local] Instance same_seat_sym : Symmetric same_seat.
Proof. unfold same_seat. intros m1 m2. naive_solver. Qed.
#[local] Instance same_group_sym : Symmetric same_group.
Proof. unfold same_group. intros g1 g2. naive_solver. Qed.
#[local] Instance same_invitation_sym : Symmetric same_invitation.
Proof. unfold same_invitation. intros i1 i2. naive_solver. Qed.

Lemma members_insert us ms k m :
  members_ok us ms -> is_Some (us !! m_user m) -> membership_unique ms k m = true ->
  members_ok us (<[k := m]> ms).
Proof.
  intros [Hu Hex] Hus Hn. rewrite membership_unique_spec in Hn. split.
  - apply conflict_free_insert; [apply _|done|]. intros k' r' Hk Hne [Hw Hor].
    destruct (Hn _ _ Hk Hne) as [Hpair Hown]. destruct Hor as [Hu'|[? ?]]; [congruence|by apply Hown].
  - intros k' m' [[_ <-]|[_ H']]%lookup_insert_Some; eauto.
Qed.

Lemma members_users us us' ms :
  members_ok us ms -> us ⊆ us' -> members_ok us' ms.
Proof.
  intros [Hu Hex] Hsub. split; [done|]. intros k m Hk. destruct (Hex _ _ Hk) as [u Hus].
  exists u. by eapply lookup_weaken.
Qed.

Lemma wf_save_membership k old m d d' :
  save_membership k m d = Ok d' -> wf d ->
  memberships d !! k = Some old -> m_user m = m_user old -> m_workspace m = m_workspace old -> wf d'.
Proof.
  intros Hsave [Hm Hg Hl Hgr Hi Hs] Hk Hmu Hmw. unfold save_membership in Hsave. res_inv.
  split; cbn; try done.
  - apply members_insert; try done. rewrite Hmu. by apply (proj2 Hm k).
  - intros gid mid Hin. destruct (Hl _ _ Hin) as (g & m0 & ? & ? & ? & ?).
    destruct (decide (mid = k)) as [->|Hne].
    + exists g, m. rewrite lookup_insert_eq. naive_solver congruence.
    + exists g, m0. by rewrite lookup_insert_ne.
  - intros def mid Hin. apply Hs in Hin as [m0 ?]. destruct (decide (mid = k)) as [->|Hne].
    + rewrite lookup_insert_eq. eauto.
    + rewrite lookup_insert_ne by done. eauto.
Qed.

Lemma wf_create_membership k m d d' :
  create_membership k m d = Ok d' -> wf d -> is_Some (users d !! m_user m) -> wf d'.
Proof.
  intros Hc [Hm Hg Hl Hgr Hi Hs] Hus. unfold create_membership, save_membership in Hc.
  destruct (memberships d !! k) eqn:Hk; [done|]. res_inv. split; cbn; try done.
  - by apply members_insert.
  - intros gid mid Hin. destruct (Hl _ _ Hin) as (g & m0 & ? & ? & ? & ?).
    exists g, m0. rewrite lookup_insert_ne by congruence. done.
  - intros def mid Hin. apply Hs in Hin as [m0 ?]. rewrite lookup_insert_ne by congruence. eauto.
Qed.

Lemma wf_delete_membership k d : wf d -> wf (delete_membership k d).
Proof.
  intros [Hm Hg Hl Hgr Hi Hs]. split; cbn; try done.
  - destruct Hm as [Hu Hex]. split.
    + by apply conflict_free_delete.
    + intros k' m' [_ H']%lookup_delete_Some. eauto.
  - intros gid mid [Hne Hin]%elem_of_filter. destruct (Hl _ _ Hin) as (g & m & ? & ? & ? & ?).
    exists g, m. cbn in Hne. by rewrite lookup_delete_ne.
  - intros def mid [Hne Hin]%elem_of_filter. cbn in Hne.
    rewrite lookup_delete_ne by done. by eapply Hs.
Qed.

Lemma groups_insert gs k g : groups_ok gs -> group_unique gs k g = true -> groups_ok (<[k := g]> gs).
Proof.
  intros Hu Hn. rewrite group_unique_spec in Hn. apply conflict_free_insert; [apply _|done|].
  intros k' r' Hk Hne [Hw Hor]. destruct (Hn _ _ Hk Hne) as [Hpair Hall].
  destruct Hor as [?|[? ?]]; [congruence|by apply Hall].
Qed.

Lemma wf_save_group k g d d' :
  wf d -> (forall old, groups d !! k = Some old -> g_workspace old = g_workspace g /\ g_kind old = g_kind g) ->
  save_group k g d = Ok d' -> wf d'.
Proof.
  intros [Hm Hg Hl Hgr Hi Hs] Hold Hsave. unfold save_group in Hsave. res_inv. split; cbn; try done.
  - by apply groups_insert.
  - intros gid mid Hin. destruct (Hl _ _ Hin) as (g0 & m & Hg0 & ? & ? & ?).
    destruct (decide (gid = k)) as [->|Hne].
    + exists g, m. rewrite lookup_insert_eq. destruct (Hold _ Hg0). naive_solver congruence.
    + exists g0, m. by rewrite lookup_insert_ne.
  - intros k' r Hr. destruct (Hgr _ _ Hr) as (g0 & Hg0 & ?).
    destruct (decide (gr_group r = k)) as [<-|Hne].
    + exists g. rewrite lookup_insert_eq. destruct (Hold _ Hg0). naive_solver congruence.
    + exists g0. by rewrite lookup_insert_ne.
Qed.

Lemma wf_delete_group gid d :
  wf d ->
  wf (set_groups (delete gid) (set_group_members (filter (fun gm => gm.1 <> gid))
        (set_grants (qs_delete (fun gr => bool_decide (gr_group gr = gid))) d))).
Proof.
  intros [Hm Hg Hl Hgr Hi Hs]. split; cbn; try done.
  - by apply conflict_free_delete.
  - intros g' mid [Hne Hin]%elem_of_filter. cbn in Hne. destruct (Hl _ _ Hin) as (g & m & ? & ? & ? & ?).
    exists g, m. by rewrite lookup_delete_ne.
  - intros k r [Hr Hne]%lookup_qs_delete_Some. bool_inv. destruct (Hgr _ _ Hr) as (g & ? & ?).
    exists g. by rewrite lookup_delete_ne.
Qed.

Lemma wf_add_group_member gid mid g m d :
  wf d -> groups d !! gid = Some g -> memberships d !! mid = Some m -> g_kind g = CustomGroup ->
  g_workspace g = m_workspace m ->
  wf (set_group_members (fun s => {[(gid, mid)]} ∪ s) d).
Proof.
  intros [Hm Hg Hl Hgr Hi Hs] ????. split; cbn; try done.
  intros gid' mid' [Hin|Hin]%elem_of_union; [|by apply Hl].
  apply elem_of_singleton in Hin. simplify_eq. eauto 10.
Qed.

Lemma wf_remove_group_member gid mid d :
  wf d -> wf (set_group_members (fun s => s ∖ {[(gid, mid)]}) d).
Proof.
  intros [Hm Hg Hl Hgr Hi Hs]. split; cbn; try done.
  intros gid' mid' [Hin _]%elem_of_difference. by apply Hl.
Qed.

Lemma invitations_insert ivs k i :
  invitations_ok ivs -> invitation_unique ivs k i = true -> invitation_ok i ->
  invitations_ok (<[k := i]> ivs).
Proof.
  intros [Hu Hok] Hn Hi. rewrite invitation_unique_spec in Hn. split.
  - apply conflict_free_insert; [apply _|done|]. intros k' r' Hk Hne Hor.
    destruct (Hn _ _ Hk Hne) as [Hd Hp]. by destruct Hor.
  - intros k' i' [[_ <-]|[_ H']]%lookup_insert_Some; eauto.
Qed.

Lemma wf_save_invitation k i d d' : wf d -> save_invitation k i d = Ok d' -> wf d'.
Proof.
  intros [Hm Hg Hl Hgr Hi Hs] Hsave. unfold save_invitation in Hsave. res_inv. split; cbn; try done.
  apply invitations_insert; try done. unfold invitation_ok.
  by repeat match goal with H : _ = Ok _ |- _ => rewrite H; clear H end.
Qed.

Lemma wf_create_invitation k i d p : wf d -> create_invitation k i d = Ok p -> wf p.2.
Proof.
  intros Hwf Hc. unfold create_invitation in Hc. res_inv. destruct (invitations d !! k); [done|].
  res_inv. by eapply wf_save_invitation.
Qed.

(** The bulk updates of pending rows to a final status. *)
Lemma wf_update_invitations p f d :
  wf d ->
  (forall i, p i = true -> invitation_ok i -> invitation_ok (f i)) ->
  (forall i, p i = true -> i_token_digest (f i) = i_token_digest i /\ i_status (f i) <> Pending) ->
  wf (set_invitations (qs_update p f) d).
Proof.
  intros [Hm Hg Hl Hgr [Hu Hok] Hs] Hp Hf. split; cbn; try done. split.
  - apply conflict_free_update; [apply _|done|]. intros i1 i2 Hc. unfold same_invitation in *.
    destruct (p i1) eqn:E1, (p i2) eqn:E2; repeat match goal with
      | H : p ?j = true |- _ => destruct (Hf j H); clear H end; naive_solver congruence.
  - intros k i H. rewrite lookup_qs_update in H. apply fmap_Some in H as (j & Hj & ->).
    destruct (p j) eqn:E; eauto.
Qed.

Lemma wf_insert_user uid u d d' : wf d -> insert_user uid u d = Ok d' ->
  wf d' /\ is_Some (users d' !! uid) /\ memberships d' = memberships d.
Proof.
  intros [Hm Hg Hl Hgr Hi Hs] Hins. unfold insert_user in Hins. res_inv. bool_inv.
  split; [|split; [cbn; rewrite lookup_insert_eq; eauto|done]].
  split; cbn; try done. eapply members_users; [done|]. by apply insert_subseteq.
Qed.

Lemma wf_agents d f : wf d -> wf (set_agents f d).
Proof. intros []. by split. Qed.

(** ** Each request keeps the invariant *)

Lemma group_of_Some d wid gid g :
  group_of d wid gid = Some g -> groups d !! gid = Some g /\ g_workspace g = wid.
Proof. unfold group_of. intros. repeat case_match; bool_inv; by simplify_eq. Qed.

Lemma membership_of_Some d wid mid m :
  membership_of d wid mid = Some m -> memberships d !! mid = Some m /\ m_workspace m = wid.
Proof. unfold membership_of. intros. repeat case_match; bool_inv; by simplify_eq. Qed.

Lemma invitation_of_Some d wid iid i :
  invitation_of d wid iid = Some i -> invitations d !! iid = Some i /\ i_workspace i = wid.
Proof. unfold invitation_of. intros. repeat case_match; bool_inv; by simplify_eq. Qed.

Ltac rows := repeat match goal with
  | H : group_of _ _ _ = Some _ |- _ => apply group_of_Some in H as [? ?]
  | H : membership_of _ _ _ = Some _ |- _ => apply membership_of_Some in H as [? ?]
  | H : invitation_of _ _ _ = Some _ |- _ => apply invitation_of_Some in H as [? ?]
  | H : _locked_workspace_and_actor_membership _ _ _ _ = Ok (Some (_, _)) |- _ =>
      apply locked_membership_Some in H as (? & ? & ? & ? & ?)
  end.

Lemma wf_create_workspace_group d u wid name gid now r d' :
  wf d -> create_workspace_group d u wid name gid now = Ok (r, d') -> wf d'.
Proof.
  intros Hwf H. unfold create_workspace_group in H. walk H; try done.
  unfold create_group in *. destruct (groups d !! gid) eqn:E; [done|].
  eapply wf_save_group; [done| |done]. intros ? ?. congruence.
Qed.

Lemma wf_update_workspace_group d u wid gid name r d' :
  wf d -> update_workspace_group d u wid gid name = Ok (r, d') -> wf d'.
Proof.
  intros Hwf H. unfold update_workspace_group in H. walk H; try done. rows.
  eapply wf_save_group; [done| |done]. intros ? ?. by simplify_eq.
Qed.

Lemma wf_delete_workspace_group d u wid gid r d' :
  wf d -> delete_workspace_group d u wid gid = Ok (r, d') -> wf d'.
Proof.
  intros Hwf H. unfold delete_workspace_group in H. walk H; try done. by apply wf_delete_group.
Qed.

Lemma wf_change_workspace_group_member add d u wid gid mid r d' :
  wf d -> _change_workspace_group_member add d u wid gid mid = Ok (r, d') -> wf d'.
Proof.
  intros Hwf H. unfold _change_workspace_group_member in H. walk H; try done; rows; bool_inv.
  destruct add; [|by apply wf_remove_group_member].
  eapply wf_add_group_member; try done; [|congruence]. by destruct (g_kind g).
Qed.

Lemma wf_update_workspace_member_role d u wid mid a r d' :
  wf d -> update_workspace_member_role d u wid mid a = Ok (r, d') -> wf d'.
Proof.
  intros Hwf H. unfold update_workspace_member_role in H. walk H; try done; rows.
  by eapply wf_save_membership.
Qed.

Lemma wf_remove_workspace_member d u wid mid r d' :
  wf d -> remove_workspace_member d u wid mid = Ok (r, d') -> wf d'.
Proof.
  intros Hwf H. unfold remove_workspace_member in H. walk H; try done. by apply wf_delete_membership.
Qed.

Lemma save_membership_lookup k m d d' :
  save_membership k m d = Ok d' -> memberships d' = <[k := m]> (memberships d).
Proof. unfold save_membership. intros. by res_inv. Qed.

Lemma wf_transfer_workspace_ownership d u wid mid pw r d' :
  wf d -> transfer_workspace_ownership d u wid mid pw = Ok (r, d') -> wf d'.
Proof.
  intros Hwf H. unfold transfer_workspace_ownership in H. walk H; try done; rows; bool_inv.
  match goal with H1 : save_membership _ _ d = Ok ?d1, H2 : save_membership _ _ ?d1 = Ok d' |- _ =>
    assert (wf d1) by (by eapply wf_save_membership);
    pose proof (save_membership_lookup _ _ _ _ H1) as Hl;
    eapply (wf_save_membership _ _ _ d1 d'); [exact H2|done|rewrite Hl, lookup_insert_ne by congruence; eassumption|done|done] end.
Qed.

Lemma invitation_ok_expired i : invitation_ok i -> invitation_ok (set_i_status Expired i).
Proof. by intros (? & ? & _). Qed.

Lemma invitation_ok_revoked u i :
  invitation_ok i -> invitation_ok (set_i_revoked_by u (set_i_status Revoked i)).
Proof. by intros (? & ? & _). Qed.

Lemma wf_create_workspace_invitation d u wid email a now token iid origin r d' :
  wf d -> create_workspace_invitation d u wid email a now token iid origin = Ok (r, d') -> wf d'.
Proof.
  intros Hwf H. unfold create_workspace_invitation in H. walk H; try done.
  all: eapply wf_create_invitation; [|done].
  all: apply wf_update_invitations; [apply wf_update_invitations; [done|..]|..].
  all: intros i Hp; try (by split); intros; by apply invitation_ok_expired || by apply invitation_ok_revoked.
Qed.

Lemma wf_revoke_workspace_invitation d u wid iid now r d' :
  wf d -> revoke_workspace_invitation d u wid iid now = Ok (r, d') -> wf d'.
Proof.
  intros Hwf H. unfold revoke_workspace_invitation in H. walk H; try done; by eapply wf_save_invitation.
Qed.

Lemma accepting_user_inr d user i name pw env uid created d' :
  wf d -> accepting_user d user i name pw env = inr (uid, created, d') ->
  wf d' /\ is_Some (users d' !! uid) /\ memberships d' = memberships d /\ invitations d' = invitations d /\
  workspaces d' = workspaces d /\ agents d' = agents d.
Proof.
  intros Hwf H. unfold accepting_user in H.
  destruct (account_for_email d (i_email i)) as [[pk account]|] eqn:Ha; walk H.
  - apply qs_first_Some in Ha as [? _]. eauto 10.
  - match goal with H : insert_user _ _ _ = _ |- _ => pose proof H as Hi; eapply wf_insert_user in Hi as (? & ? & ?); [|done] end.
    split_and!; try done; unfold insert_user in *; by res_inv.
Qed.

Lemma wf_accept_workspace_invitation d user token name pw env r d' :
  wf d -> accept_workspace_invitation d user token name pw env = Ok (r, d') -> wf d'.
Proof.
  intros Hwf H. unfold accept_workspace_invitation in H. walk H; try done.
  - by eapply wf_save_invitation.
  - match goal with H : accepting_user _ _ _ _ _ _ = _ |- _ => eapply accepting_user_inr in H as (? & _) end; done.
  - match goal with H : accepting_user _ _ _ _ _ _ = _ |- _ => eapply accepting_user_inr in H as (Hwf1 & Hus & _) end; [|done].
    match goal with H : create_membership _ _ _ = Ok ?d2 |- _ => assert (wf d2) as Hwf2 by by eapply wf_create_membership end.
    match goal with H : ensure_default_agent _ _ _ _ _ = Ok ?p |- _ =>
      destruct p as [[k c] d3]; apply ensure_default_agent_spec in H as (_ & [->|(a & _ & ->)]) end.
    all: eapply wf_save_invitation; [|done]; cbn; by try apply wf_agents.
Qed.

Lemma wf_handle q d r d' : wf d -> handle q d = Ok (r, d') -> wf d'.
Proof.
  destruct q; cbn [handle]; intros Hwf H.
  - by eapply wf_create_workspace_group.
  - by eapply wf_update_workspace_group.
  - by eapply wf_delete_workspace_group.
  - by eapply wf_change_workspace_group_member.
  - by eapply wf_change_workspace_group_member.
  - by eapply wf_update_workspace_member_role.
  - by eapply wf_remove_workspace_member.
  - by eapply wf_transfer_workspace_ownership.
  - by eapply wf_create_workspace_invitation.
  - by eapply wf_revoke_workspace_invitation.
  - by eapply wf_accept_workspace_invitation.
Qed.

(** ** Ownership *)

Definition owner_of (d : db) (wid k : pystr) : Prop :=
  exists m, memberships d !! k = Some m /\ m_workspace m = wid /\ m_role m = Owner.

(** The effect of a request on the membership table. *)
Inductive membership_effect (d : db) : request -> gmap pystr membership_row -> Prop :=
| effect_none q : membership_effect d q (memberships d)
| effect_role u wid mid r m :
    memberships d !! mid = Some m -> m_workspace m = wid -> m_role m <> Owner ->
    membership_effect d (UpdateRole u wid mid r) (<[mid := set_role (assigned_role r) m]> (memberships d))
| effect_remove u wid mid m :
    memberships d !! mid = Some m -> m_workspace m = wid -> m_role m <> Owner ->
    membership_effect d (RemoveMember u wid mid) (delete mid (memberships d))
| effect_transfer u wid oid owner tid target pw :
    memberships d !! oid = Some owner -> m_workspace owner = wid -> m_user owner = u -> m_role owner = Owner ->
    memberships d !! tid = Some target -> m_workspace target = wid -> m_role target <> Owner -> tid <> oid ->
    user_check_password d u pw = true -> user_is_active d (m_user target) = true ->
    membership_effect d (TransferOwnership u wid tid pw)
      (<[tid := set_role Owner target]> (<[oid := set_role Admin owner]> (memberships d)))
| effect_join user token name pw env m :
    memberships d !! ae_membership_id env = None -> m_role m <> Owner ->
    membership_effect d (AcceptInvitation user token name pw env) (<[ae_membership_id env := m]> (memberships d)).

Lemma save_invitation_frame k i d d' :
  save_invitation k i d = Ok d' -> d' = set_invitations <[k := i]> d.
Proof. unfold save_invitation. intros. by res_inv. Qed.

Lemma save_group_frame k g d d' : save_group k g d = Ok d' -> d' = set_groups <[k := g]> d.
Proof. unfold save_group. intros. by res_inv. Qed.

Lemma create_group_frame k g d d' :
  create_group k g d = Ok d' -> d' = set_groups <[k := g]> d /\ groups d !! k = None.
Proof.
  unfold create_group. destruct (groups d !! k) eqn:E; [done|]. intros H%save_group_frame. done.
Qed.

Lemma create_invitation_frame k i d p :
  create_invitation k i d = Ok p -> p.2 = set_invitations <[k := p.1]> d /\ invitations d !! k = None.
Proof.
  unfold create_invitation. intros. res_inv. destruct (invitations d !! k); [done|]. res_inv.
  split; [|done]. by apply save_invitation_frame.
Qed.

Lemma create_membership_frame k m d d' :
  create_membership k m d = Ok d' -> d' = set_memberships <[k := m]> d /\ memberships d !! k = None.
Proof.
  unfold create_membership, save_membership. destruct (memberships d !! k) eqn:E; [done|].
  intros. by res_inv.
Qed.

Lemma assigned_not_owner a : assigned_role a <> Owner.
Proof. by destruct a. Qed.

Lemma role_in_assignable r : role_in r [Admin; Member] = true <-> r <> Owner.
Proof. destruct r; cbn; naive_solver. Qed.

Lemma accept_membership_effect d user token name pw env r d' :
  wf d -> accept_workspace_invitation d user token name pw env = Ok (r, d') ->
  membership_effect d (AcceptInvitation user token name pw env) (memberships d').
Proof.
  intros Hwf H. unfold accept_workspace_invitation in H. walk H; try (cbn; apply effect_none).
  - match goal with H : save_invitation _ _ _ = _ |- _ => apply save_invitation_frame in H; subst end.
    (cbn; apply effect_none).
  - match goal with H : accepting_user _ _ _ _ _ _ = _ |- _ =>
      eapply accepting_user_inr in H as (? & ? & -> & _); [|done] end. (cbn; apply effect_none).
  - match goal with H : accepting_user _ _ _ _ _ _ = _ |- _ =>
      eapply accepting_user_inr in H as (_ & _ & Hms & _); [|done] end.
    match goal with H : save_invitation _ _ _ = _ |- _ => apply save_invitation_frame in H; subst end.
    match goal with H : create_membership _ _ _ = _ |- _ => apply create_membership_frame in H as [-> Hnone] end.
    match goal with H : ensure_default_agent _ _ _ _ _ = Ok ?p |- _ =>
      destruct p as [[k c] d3]; apply ensure_default_agent_spec in H as (_ & [->|(a & _ & ->)]) end.
    all: cbn; rewrite Hms in *; apply effect_join; [done|apply assigned_not_owner].
Qed.

Lemma handle_membership_effect q d r d' :
  wf d -> handle q d = Ok (r, d') -> membership_effect d q (memberships d').
Proof.
  intros Hwf H. destruct q; cbn [handle] in H; [..|by eapply accept_membership_effect].
  - unfold create_workspace_group in H. walk H; try (cbn; apply effect_none).
    match goal with H : create_group _ _ _ = _ |- _ => apply create_group_frame in H as [-> _] end. (cbn; apply effect_none).
  - unfold update_workspace_group in H. walk H; try (cbn; apply effect_none).
    match goal with H : save_group _ _ _ = _ |- _ => apply save_group_frame in H as -> end. (cbn; apply effect_none).
  - unfold delete_workspace_group in H. walk H; (cbn; apply effect_none).
  - unfold add_workspace_group_member, _change_workspace_group_member in H. walk H; (cbn; apply effect_none).
  - unfold remove_workspace_group_member, _change_workspace_group_member in H. walk H; (cbn; apply effect_none).
  - unfold update_workspace_member_role in H. walk H; try (cbn; apply effect_none). rows. bool_inv.
    match goal with H : save_membership _ _ _ = _ |- _ => apply save_membership_lookup in H as -> end.
    by eapply effect_role.
  - unfold remove_workspace_member in H. walk H; try (cbn; apply effect_none). rows. bool_inv.
    by eapply effect_remove.
  - unfold transfer_workspace_ownership in H. walk H; try (cbn; apply effect_none). rows. bool_inv.
    repeat match goal with H : save_membership _ _ _ = _ |- _ => apply save_membership_lookup in H end.
    match goal with H1 : memberships d' = _, H2 : memberships ?d1 = _ |- _ =>
      rewrite H1, H2 end.
    eapply effect_transfer; try done; [set_solver|by apply role_in_assignable].
  - unfold create_workspace_invitation in H. walk H; try (cbn; apply effect_none).
    all: match goal with H : create_invitation _ _ _ = _ |- _ =>
      apply create_invitation_frame in H as [-> _] end; (cbn; apply effect_none).
  - unfold revoke_workspace_invitation in H. walk H; try (cbn; apply effect_none).
    all: match goal with H : save_invitation _ _ _ = _ |- _ => apply save_invitation_frame in H; subst end;
      (cbn; apply effect_none).
Qed.

Lemma effect_owner d q ms wid k :
  wf d -> membership_effect d q ms -> owner_of d wid k ->
  (exists m, ms !! k = Some m /\ m_workspace m = wid /\ m_role m = Owner) \/
  (exists m tid target pw, q = TransferOwnership (m_user m) wid tid pw /\
     memberships d !! k = Some m /\ user_check_password d (m_user m) pw = true /\
     ms !! k = Some (set_role Admin m) /\
     ms !! tid = Some (set_role Owner target) /\ m_workspace target = wid /\
     user_is_active d (m_user target) = true).
Proof.
  intros Hwf He (m & Hk & Hw & Ho). destruct He.
  - left. eauto.
  - left. exists m. rewrite lookup_insert_ne by congruence. done.
  - left. exists m. rewrite lookup_delete_ne by congruence. done.
  - destruct (decide (wid0 = wid)) as [->|Hne].
    + assert (oid = k) as ->.
      { eapply (proj1 (wf_members _ Hwf)); [done|done|]. split; [congruence|right; done]. }
      right. simplify_eq. exists owner, tid, target, pw.
      rewrite lookup_insert_ne, !lookup_insert_eq by congruence. done.
    + left. exists m. rewrite !lookup_insert_ne by congruence. done.
  - left. exists m. rewrite lookup_insert_ne by congruence. done.
Qed.

Lemma serve_app d qs1 qs2 : serve d (qs1 ++ qs2) = serve (serve d qs1) qs2.
Proof. apply foldl_app. Qed.

Lemma committed_inv (P : db -> Prop) d q :
  P d -> (forall r d', handle q d = Ok (r, d') -> P d') -> P (committed d (handle q d)).2.
Proof. intros Hd Hq. destruct (handle q d) as [[r d']|] eqn:E; cbn; eauto. Qed.

Lemma owner_unique d wid k k' : wf d -> owner_of d wid k -> owner_of d wid k' -> k' = k.
Proof.
  intros Hwf (m & Hm & Hw & Ho) (m' & Hm' & Hw' & Ho').
  eapply (proj1 (wf_members _ Hwf)); [done|done|]. split; [congruence|right; done].
Qed.

(** ** Properties *)

(** Whatever sequence of requests is served, the identity tables keep their invariant
    (distinct members, unique groups and group links inside the workspace, grants on existing
    groups, one live invitation per address and token), and a workspace that has an owner
    has exactly one owner afterwards (C31). *)
Theorem serve_keeps_invariant d qs :
  wf d ->
  wf (serve d qs) /\
  forall wid k, owner_of d wid k ->
    exists k', owner_of (serve d qs) wid k' /\ forall k'', owner_of (serve d qs) wid k'' -> k'' = k'.
Proof.
  intros Hwf.
  enough (wf (serve d qs) /\ forall wid k, owner_of d wid k -> exists k', owner_of (serve d qs) wid k')
    as [Hw Ho].
  { split; [done|]. intros wid k [k' Hk']%Ho. exists k'. eauto using owner_unique. }
  induction qs as [|q qs IH] using rev_ind; [by cbn; eauto|].
  rewrite serve_app. destruct IH as [IHw IHo]. set (d1 := serve d qs) in *. cbn.
  assert (Hw2 : wf (committed d1 (handle q d1)).2).
  { apply committed_inv; [done|]. intros r d' H. by eapply wf_handle. }
  split; [done|]. intros wid k [k1 Hk1]%IHo.
  apply (committed_inv (fun d' => exists k', owner_of d' wid k')); [by eauto|].
  intros r d' H. destruct (effect_owner _ _ _ _ _ IHw (handle_membership_effect _ _ _ _ IHw H) Hk1)
    as [?|(m & tid & target & pw & _ & _ & _ & _ & Ht & ? & _)]; [by exists k1|].
  exists tid, (set_role Owner target). done.
Qed.

(** A workspace changes owner only through an ownership transfer requested by that owner with
    the owner's password; the previous owner stays as an admin and the new owner is an active
    user. *)
Theorem ownership_moves_only_by_transfer q d r d' wid k :
  wf d -> handle q d = Ok (r, d') -> owner_of d wid k ->
  owner_of d' wid k \/
  (exists m tid target pw, q = TransferOwnership (m_user m) wid tid pw /\
     memberships d !! k = Some m /\ user_check_password d (m_user m) pw = true /\
     memberships d' !! k = Some (set_role Admin m) /\
     memberships d' !! tid = Some (set_role Owner target) /\ m_workspace target = wid /\
     user_is_active d (m_user target) = true).
Proof. intros Hwf H. apply effect_owner; [done|by eapply handle_membership_effect]. Qed.

Lemma locked_owner_lookup d u wid roles k m :
  wf d -> memberships d !! k = Some m -> m_workspace m = wid -> m_user m = u -> m_role m ∈ roles ->
  workspace_is_active d wid = true ->
  locked_workspace_membership_for d u wid roles = Ok (Some (k, m)).
Proof.
  intros Hwf Hk Hw Hu Hr Ha. unfold locked_workspace_membership_for.
  destruct roles; [by apply not_elem_of_nil in Hr|]. cbn [bool_decide]. rewrite Ha. cbn. f_equal.
  apply qs_first_unique; [done|by apply is_membership_spec|].
  intros k' m' Hk' (? & ? & _)%is_membership_spec.
  eapply (proj1 (wf_members _ Hwf)); [done|done|]. split; [congruence|left; congruence].
Qed.

Lemma membership_of_lookup d wid mid m :
  memberships d !! mid = Some m -> m_workspace m = wid -> membership_of d wid mid = Some m.
Proof. intros Hk <-. unfold membership_of. rewrite Hk. by rewrite bool_decide_eq_true_2. Qed.

Lemma save_membership_ok k m d :
  membership_unique (memberships d) k m = true -> save_membership k m d = Ok (set_memberships <[k := m]> d).
Proof. unfold save_membership. by intros ->. Qed.

Lemma insert_demoted d k m :
  wf d -> memberships d !! k = Some m -> membership_unique (memberships d) k (set_role Admin m) = true.
Proof.
  intros Hwf Hk. apply membership_unique_spec. intros k' r' Hk' Hne. split; [|by intros (_ & _ & ?)].
  intros [= Hw Hu]. apply Hne. eapply (proj1 (wf_members _ Hwf)); [done|exact Hk|]. split; [done|by left].
Qed.

Lemma insert_promoted d oid owner tid target :
  wf d -> memberships d !! oid = Some owner -> m_role owner = Owner ->
  memberships d !! tid = Some target -> m_workspace target = m_workspace owner ->
  membership_unique (<[oid := set_role Admin owner]> (memberships d)) tid (set_role Owner target) = true.
Proof.
  intros Hwf Ho Hor Ht Htw. pose proof (proj1 (wf_members _ Hwf)) as Hcf.
  apply membership_unique_spec. intros k' r' [[<- <-]|[Hk0 Hk']]%lookup_insert_Some Hk.
  - split; [|by intros (_ & ? & _)]. intros [= Hw Hu]. apply Hk.
    eapply Hcf; [exact Ho|exact Ht|]. split; [done|by left].
  - split.
    + intros [= Hw Hu]. apply Hk. eapply Hcf; [done|exact Ht|]. split; [done|by left].
    + intros (Hw & Hr & _). apply Hk0. symmetry. eapply Hcf; [done|exact Ho|].
      split; [cbn in *; congruence|right; done].
Qed.

(** The two statements of a transfer respect the unique-owner constraint in the order the code
    issues them, so a well-formed transfer always succeeds: the target becomes the owner, the
    previous owner an admin, and no other membership changes. *)
Theorem transfer_succeeds d u wid oid owner tid target pw :
  wf d ->
  workspace_is_active d wid = true -> user_check_password d u pw = true ->
  memberships d !! oid = Some owner -> m_workspace owner = wid -> m_user owner = u -> m_role owner = Owner ->
  memberships d !! tid = Some target -> m_workspace target = wid -> tid <> oid ->
  user_is_active d (m_user target) = true ->
  exists d', transfer_workspace_ownership d u wid tid pw =
      Ok (Status 200 (BOwner (serialize_member d' tid (set_role Owner target))
                             (serialize_member d' oid (set_role Admin owner))), d') /\
    d' = set_memberships (fun ms => <[tid := set_role Owner target]> (<[oid := set_role Admin owner]> ms)) d.
Proof.
  intros Hwf Ha Hpw Ho How Hou Hor Ht Htw Hne Hact. unfold transfer_workspace_ownership.
  pose proof (proj1 (wf_members _ Hwf)) as Hcf.
  assert (Htr : m_role target <> Owner).
  { intros Htr. apply Hne. eapply Hcf; [done|done|]. split; [congruence|right; done]. }
  unfold _locked_workspace_and_actor_membership.
  rewrite (locked_owner_lookup _ _ _ _ oid owner) by (done || set_solver). cbn.
  rewrite Hpw. cbn. rewrite (membership_of_lookup _ _ _ target) by done.
  rewrite bool_decide_eq_false_2 by done.
  rewrite (proj2 (role_in_assignable _) Htr), Hact. cbn [negb].
  rewrite save_membership_ok by by apply insert_demoted. cbn [mbind res_bind].
  rewrite save_membership_ok by (cbn; apply insert_promoted; congruence). cbn. eauto.
Qed.

Lemma locked_None d u wid roles :
  roles <> [] ->
  (workspace_is_active d wid = true -> forall k m, memberships d !! k = Some m -> m_workspace m = wid ->
     m_user m = u -> m_role m ∉ roles) ->
  locked_workspace_membership_for d u wid roles = Ok None.
Proof.
  intros Hr Hno. unfold locked_workspace_membership_for. rewrite bool_decide_eq_false_2 by done. cbn.
  destruct (workspace_is_active d wid); [|done]. f_equal. apply qs_first_None. intros k m Hk.
  apply not_true_iff_false. intros (? & ? & ?)%is_membership_spec. by eapply Hno.
Qed.

(** A request on a workspace by someone who is neither owner nor admin of it, or on a workspace
    that is not active, is answered 404 and changes nothing, whatever the endpoint. *)
Theorem stranger_changes_nothing q d wid u :
  addressed q = Some (wid, u) ->
  (workspace_is_active d wid = true -> forall k m, memberships d !! k = Some m -> m_workspace m = wid ->
     m_user m = u -> m_role m = Member) ->
  handle q d = Ok (error_response 404 "workspace_not_found", d).
Proof.
  intros Hq Hno.
  assert (Hl : forall roles, roles <> [] -> Member ∉ roles ->
            _locked_workspace_and_actor_membership d u wid roles = Ok None).
  { intros roles Hne Hm. apply locked_None; [done|]. intros Ha k m Hk Hw Hu. by rewrite (Hno Ha k m). }
  assert (Hadm : _locked_workspace_and_actor_membership d u wid WORKSPACE_ADMIN_ROLES = Ok None)
    by (apply Hl; [done|unfold WORKSPACE_ADMIN_ROLES; set_solver]).
  destruct q; cbn in Hq; simplify_eq; cbn [handle];
    [unfold create_workspace_group|unfold update_workspace_group|unfold delete_workspace_group
    |unfold add_workspace_group_member, _change_workspace_group_member
    |unfold remove_workspace_group_member, _change_workspace_group_member
    |unfold update_workspace_member_role|unfold remove_workspace_member
    |unfold transfer_workspace_ownership; rewrite Hl by (done || set_solver); done
    |unfold create_workspace_invitation|unfold revoke_workspace_invitation]; by rewrite Hadm.
Qed.

(** A removed member keeps nothing: no membership of the workspace, no group, no shared agent
    definition, and runs started under the old membership are no longer current. *)
Theorem removed_member_has_no_access d u wid mid m d' :
  wf d -> memberships d !! mid = Some m ->
  remove_workspace_member d u wid mid = Ok (Status 200 BOk, d') ->
  (forall roles, roles <> [] -> workspace_membership_for d' (Some (m_user m)) wid roles = Ok None) /\
  (forall w u', agent_run_membership_is_current d' mid w u' = false) /\
  (forall gid, (gid, mid) ∉ group_members d') /\
  (forall def, (def, mid) ∉ definition_members d').
Proof.
  intros Hwf Hm H. unfold remove_workspace_member in H. walk H; rows; bool_inv. simplify_eq.
  split_and!.
  - intros roles Hr. unfold workspace_membership_for. rewrite bool_decide_eq_false_2 by done. cbn. f_equal.
    apply qs_first_None. intros k m1 [Hne Hk]%lookup_delete_Some. apply not_true_iff_false.
    intros [(? & ? & ?)%is_membership_spec _]%andb_true_iff. apply Hne. symmetry.
    eapply (proj1 (wf_members _ Hwf)); [done|done|]. split; [congruence|by left].
  - intros w u'. unfold agent_run_membership_is_current. cbn. by rewrite lookup_delete_eq.
  - intros gid [? ?]%elem_of_filter. done.
  - intros gid [? ?]%elem_of_filter. done.
Qed.

(** ** Accepting an invitation *)

Lemma digest_unique d digest k i :
  wf d -> invitations d !! k = Some i -> i_token_digest i = digest ->
  invitation_by_digest d digest = Some (k, i).
Proof.
  intros Hwf Hk Hd. apply qs_first_unique; [done|by apply bool_decide_eq_true|].
  intros k' i' Hk' ?%bool_decide_eq_true. eapply (proj1 (wf_invitations _ Hwf)); [done|done|].
  left. congruence.
Qed.

Lemma accept_200 d user token name pw env b d' :
  wf d -> accept_workspace_invitation d user token name pw env = Ok (Status 200 b, d') ->
  exists digest iid i uid created a,
    token_digest token = Ok (Some digest) /\ invitations d !! iid = Some i /\ i_token_digest i = digest /\
    i_status i = Pending /\ ae_now env < i_expires_at i /\ workspace_is_active d (i_workspace i) = true /\
    (created = false -> user = Some uid /\
       exists account, users d !! uid = Some account /\ username_iexact (i_email i) (u_username account) = true) /\
    is_member_of d (i_workspace i) uid = false /\
    memberships d' = <[ae_membership_id env := Membership (i_workspace i) uid (assigned_role (i_role i))
                         (Some (i_invited_by i)) (ae_now env)]> (memberships d) /\
    invitations d' = <[iid := set_i_accepted uid (ae_membership_id env) (set_i_status Accepted i)]> (invitations d) /\
    agents d' !! a <> None /\
    b = BAccepted (i_workspace i) (ae_membership_id env) (assigned_role (i_role i)) created.
Proof.
  intros Hwf H. unfold accept_workspace_invitation in H. walk H.
  { unfold accepting_user in *. repeat case_match; simplify_eq. }
  match goal with H : invitation_by_digest _ _ = _ |- _ => apply qs_first_Some in H as [Hi Hd] end.
  bool_inv. match goal with H : accepting_user _ _ _ _ _ _ = _ |- _ => pose proof H as Hacc;
      eapply accepting_user_inr in H as (Hwf1 & _ & Hms & His & _); [|done] end.
  match goal with H : save_invitation _ _ _ = _ |- _ => apply save_invitation_frame in H; subst end.
  match goal with H : create_membership _ _ _ = _ |- _ => apply create_membership_frame in H as [-> Hnone] end.
  match goal with H : ensure_default_agent _ _ _ _ _ = Ok ?p |- _ =>
    destruct p as [[k c] d3]; apply ensure_default_agent_spec in H as ((ag & Hag & _) & Hfr) end.
  assert (Hm3 : memberships d3 = <[ae_membership_id env := Membership (i_workspace i) z (assigned_role (i_role i))
                         (Some (i_invited_by i)) (ae_now env)]> (memberships d) /\ invitations d3 = invitations d).
  { destruct Hfr as [->|(? & _ & ->)]; cbn; by rewrite Hms, His. }
  destruct Hm3 as [Hm3 Hi3].
  eexists _, _, i, z, b0, k. split_and!; try done.
  - intros ->. clear -Hacc. unfold accepting_user in Hacc.
    destruct (account_for_email d (i_email i)) as [[pk account]|] eqn:Ha; walk Hacc.
    apply qs_first_Some in Ha as [? ?]. bool_inv. split; [congruence|eauto].
  - unfold is_member_of in *. by rewrite <- Hms.
  - cbn. by rewrite Hi3.
  - cbn. rewrite Hag. done.
Qed.

(** An invitation token works once: after an acceptance every later attempt with the token, by
    anyone, is answered 409 and changes nothing. *)
Theorem invitation_token_single_use d user token name pw env b d' user' name' pw' env' :
  wf d -> accept_workspace_invitation d user token name pw env = Ok (Status 200 b, d') ->
  accept_workspace_invitation d' user' token name' pw' env' =
    Ok (error_response 409 "invitation_not_pending", d').
Proof.
  intros Hwf H. pose proof (wf_accept_workspace_invitation _ _ _ _ _ _ _ _ Hwf H) as Hwf'.
  apply accept_200 in H as (digest & iid & i & uid & created & a & Ht & Hi & Hd & _ & _ & _ & _ & _ & _ & Hi' & _); [|done].
  unfold accept_workspace_invitation. rewrite Ht. cbn [mbind res_bind].
  rewrite (digest_unique d' digest iid (set_i_accepted uid (ae_membership_id env) (set_i_status Accepted i)));
    [done|done| |done].
  by rewrite Hi', lookup_insert_eq.
Qed.

Lemma create_membership_ok k m d :
  memberships d !! k = None -> is_member_of d (m_workspace m) (m_user m) = false -> m_role m <> Owner ->
  create_membership k m d = Ok (set_memberships <[k := m]> d).
Proof.
  intros Hk Hno Hr. unfold create_membership. rewrite Hk. apply save_membership_ok.
  apply membership_unique_spec. intros k' r' Hk' _. split; [|naive_solver].
  intros [= Hw Hu]. unfold is_member_of in Hno. eapply qs_exists_false in Hno; [|done].
  rewrite Hw, Hu, Z.eqb_refl, bool_decide_eq_true_2 in Hno; done.
Qed.

Lemma save_accepted_ok d k i u ref :
  invitations_ok (invitations d) -> invitations d !! k = Some i -> i_revoked_by i = None -> ref <> "" ->
  save_invitation k (set_i_accepted u ref (set_i_status Accepted i)) d =
    Ok (set_invitations <[k := set_i_accepted u ref (set_i_status Accepted i)]> d).
Proof.
  intros [Hcf Hok] Hk Hrev Href. destruct (Hok _ _ Hk) as (He & Hs & Hf). unfold save_invitation.
  change (i_email (set_i_accepted u ref (set_i_status Accepted i))) with (i_email i).
  change (i_token_digest (set_i_accepted u ref (set_i_status Accepted i))) with (i_token_digest i).
  destruct (normalize_workspace_invitation_email (i_email i)); [|done]. cbn [mbind res_bind].
  destruct (require_sha256 _ (i_token_digest i)); [|done]. cbn [mbind res_bind].
  assert (invitation_fields_valid (set_i_accepted u ref (set_i_status Accepted i)) = Ok tt) as ->.
  { unfold invitation_fields_valid. cbn. by rewrite (proj2 (is_empty_false ref) Href). }
  cbn [mbind res_bind].
  assert (invitation_unique (invitations d) k (set_i_accepted u ref (set_i_status Accepted i)) = true) as ->; [|done].
  apply invitation_unique_spec. intros k' r' Hk' Hne. split; [|by intros (_ & _ & _ & ?)].
  intros Hd. apply Hne. eapply Hcf; [done|exact Hk|]. by left.
Qed.

(** The invited user, signed in to the active account of the invited address and not yet a member,
    always gets in: the request succeeds and the user is then found as a member with exactly the
    workspace and role of the invitation, under the new membership id. *)
Theorem accept_admits_invited_user d token digest iid i u account env k0 ids :
  wf d -> token_digest token = Ok (Some digest) ->
  invitations d !! iid = Some i -> i_token_digest i = digest -> i_status i = Pending ->
  ae_now env < i_expires_at i -> workspace_is_active d (i_workspace i) = true ->
  account_for_email d (i_email i) = Some (u, account) -> u_active account = true ->
  is_member_of d (i_workspace i) u = false ->
  memberships d !! ae_membership_id env = None -> ae_membership_id env <> "" ->
  ae_agent_ids env = k0 :: ids -> validate_agent_id k0 = Ok k0 -> agents d !! k0 = None ->
  exists d', accept_workspace_invitation d (Some u) token None None env =
      Ok (Status 200 (BAccepted (i_workspace i) (ae_membership_id env) (assigned_role (i_role i)) false), d') /\
    workspace_membership_for d' (Some u) (i_workspace i) WORKSPACE_ROLES =
      Ok (Some (ae_membership_id env,
                Membership (i_workspace i) u (assigned_role (i_role i)) (Some (i_invited_by i)) (ae_now env))).
Proof.
  intros Hwf Ht Hi Hd Hst Hexp Hact Hacc Hua Hnm Hfresh Hne Hids Hval Hag.
  set (m := Membership (i_workspace i) u (assigned_role (i_role i)) (Some (i_invited_by i)) (ae_now env)).
  destruct (ensure_default_agent_ok (i_workspace i) u k0 ids (ae_now env)
              (set_memberships <[ae_membership_id env := m]> d) Hval Hag) as (k & created & d3 & Hen).
  pose proof Hen as Hfr. apply ensure_default_agent_spec in Hfr as [_ Hfr].
  assert (Hrest : invitations d3 = invitations d /\ memberships d3 = <[ae_membership_id env := m]> (memberships d)
                  /\ workspaces d3 = workspaces d) by (destruct Hfr as [->|(? & _ & ->)]; done).
  destruct Hrest as (Hi3 & Hm3 & Hw3).
  exists (set_invitations <[iid := set_i_accepted u (ae_membership_id env) (set_i_status Accepted i)]> d3).
  split.
  - unfold accept_workspace_invitation. rewrite Ht. cbn [mbind res_bind].
    rewrite (digest_unique d digest iid i) by done. rewrite (bool_decide_eq_true_2 _ Hst). cbn [negb].
    rewrite (proj2 (Z.leb_gt _ _) Hexp), Hact. cbn [negb].
    unfold accepting_user. rewrite Hacc, Z.eqb_refl, Hua. cbn. rewrite Hnm.
    rewrite (create_membership_ok _ m) by (done || apply assigned_not_owner). cbn.
    rewrite Hids, Hen. cbn. rewrite save_accepted_ok; [done| |by rewrite Hi3| |done].
    + rewrite Hi3. apply (wf_invitations _ Hwf).
    + destruct (proj2 (wf_invitations _ Hwf) _ _ Hi) as (_ & _ & Hf). unfold invitation_fields_valid in Hf.
      rewrite Hst in Hf. cbn in Hf. destruct (i_revoked_by i); [|done].
      rewrite (bool_decide_eq_true_2 (is_Some (Some _))), orb_true_r in Hf by eauto. done.
  - unfold workspace_membership_for. cbn. f_equal. apply qs_first_unique.
    + cbn. by rewrite Hm3, lookup_insert_eq.
    + rewrite (proj2 (is_membership_spec _ _ _ m)).
      * unfold workspace_is_active in *. cbn. by rewrite Hw3.
      * split_and!; try done. unfold WORKSPACE_ROLES. destruct (i_role i); set_solver.
    + intros k' m' Hk' [(? & ? & _)%is_membership_spec _]%andb_true_iff. cbn in Hk'. rewrite Hm3 in Hk'.
      apply lookup_insert_Some in Hk' as [[-> _]|[_ Hk']]; [done|]. exfalso.
      unfold is_member_of in Hnm. eapply qs_exists_false in Hnm; [|done].
      rewrite bool_decide_eq_true_2, (proj2 (Z.eqb_eq _ _)) in Hnm; done.
Qed.
End inv.

(** ** Witnesses *)

(** Executable form of the invariant, for concrete databases. *)
Section check.
Context {PL : Platform}.

Definition no_conflict {R} (C : R -> R -> bool) (t : gmap pystr R) : bool :=
  forallb (fun x => forallb (fun y => bool_decide (x.1 = y.1) || negb (C x.2 y.2)) (map_to_list t)) (map_to_list t).

Lemma no_conflict_sound {R} (C : R -> R -> bool) (P : relation R) t :
  (forall x y, P x y -> C x y = true) -> no_conflict C t = true -> conflict_free P t.
Proof.
  intros HP H k1 r1 k2 r2 H1 H2 HC. unfold no_conflict in H.
  rewrite forallb_Forall, Forall_forall in H.
  specialize (H (k1, r1) ltac:(by apply elem_of_map_to_list)). cbn in H.
  rewrite forallb_Forall, Forall_forall in H.
  specialize (H (k2, r2) ltac:(by apply elem_of_map_to_list)). cbn in H.
  rewrite (HP _ _ HC), orb_false_r in H. by bool_inv.
Qed.

Definition wf_check (d : db) : bool :=
  no_conflict (fun m1 m2 => bool_decide (same_seat m1 m2)) (memberships d) &&
  forallb (fun km => bool_decide (is_Some (users d !! m_user km.2))) (map_to_list (memberships d)) &&
  no_conflict (fun g1 g2 => bool_decide (same_group g1 g2)) (groups d) &&
  forallb (fun gm => match groups d !! gm.1, memberships d !! gm.2 with
                     | Some g, Some m => bool_decide (g_kind g = CustomGroup) && bool_decide (g_workspace g = m_workspace m)
                     | _, _ => false end) (elements (group_members d)) &&
  forallb (fun kr => match groups d !! gr_group kr.2 with
                     | Some g => bool_decide (g_workspace g = gr_workspace kr.2)
                     | None => false end) (map_to_list (grants d)) &&
  no_conflict (fun i1 i2 => bool_decide (same_invitation i1 i2)) (invitations d) &&
  forallb (fun ki => bool_decide (invitation_ok ki.2)) (map_to_list (invitations d)) &&
  forallb (fun dm => bool_decide (is_Some (memberships d !! dm.2))) (elements (definition_members d)).

Lemma wf_check_sound d : wf_check d = true -> wf d.
Proof.
  unfold wf_check. intros H. bool_inv. rewrite !forallb_Forall, !Forall_forall in *. split.
  - split; [eapply no_conflict_sound; [|done]; by intros; apply bool_decide_eq_true|].
    intros k m Hk%elem_of_map_to_list. by match goal with H : _ |- _ => specialize (H _ Hk); bool_inv end.
  - eapply no_conflict_sound; [|done]. by intros; apply bool_decide_eq_true.
  - intros gid mid Hin%elem_of_elements. match goal with H : _ |- _ => specialize (H _ Hin) end.
    cbn in *. repeat case_match; try done. bool_inv. eauto 10.
  - intros k r Hk%elem_of_map_to_list. match goal with H : _ |- _ => specialize (H _ Hk) end.
    cbn in *. repeat case_match; try done. bool_inv. eauto.
  - split; [eapply no_conflict_sound; [|done]; by intros; apply bool_decide_eq_true|].
    intros k m Hk%elem_of_map_to_list. by match goal with H : _ |- _ => specialize (H _ Hk); bool_inv end.
  - intros k mid Hin%elem_of_elements. by match goal with H : _ |- _ => specialize (H _ Hin); bool_inv end.
Qed.
End check.

#[local] Existing Instance ascii_platform.

Definition sample_token : pystr := "invite-token-for-carol".
Definition sample_invitation : invitation_row :=
  Invitation "ws" "carol@example.test" AssignMember Pending
    ("sha256:" +:+ sha256_hex (code_points sample_token)) 1 None "" None 1000 10.
(** The sample workspace with a third user, invited and not yet a member. *)
Definition invited_db : db :=
  set_invitations (fun _ => {["wsi-1" := sample_invitation]})
    (set_users (fun us => <[3 := User "carol@example.test" "carol@example.test" "Carol" "pw" true]> us) sample_db).
Definition sample_env : accept_env := AcceptEnv 20 9 "mem-3" ["agent-3"; "agent-4"; "agent-5"].

Lemma invited_db_wf : wf invited_db.
Proof. apply wf_check_sound. vm_compute. reflexivity. Qed.

Lemma serve_keeps_invariant_witness :
  let qs := [UpdateRole 1 "ws" "mem-2" AssignAdmin; TransferOwnership 1 "ws" "mem-2" "pw";
             AcceptInvitation (Some 3) sample_token None None sample_env; RemoveMember 2 "ws" "mem-1"] in
  wf invited_db /\ owner_of invited_db "ws" "mem-1" /\
  memberships (serve invited_db qs) !! "mem-1" = None /\
  (wf (serve invited_db qs) /\
   forall wid k, owner_of invited_db wid k ->
     exists k', owner_of (serve invited_db qs) wid k' /\
       forall k'', owner_of (serve invited_db qs) wid k'' -> k'' = k').
Proof.
  intros qs. split; [exact invited_db_wf|]. split.
  { exists (Membership "ws" 1 Owner None 0). vm_compute. repeat split; reflexivity. }
  split; [vm_compute; reflexivity|]. apply serve_keeps_invariant. exact invited_db_wf.
Defined.

Definition amy : membership_row := Membership "ws" 1 Owner None 0.
Definition bob : membership_row := Membership "ws" 2 Member (Some 1) 1.

Lemma transfer_succeeds_witness :
  exists d', transfer_workspace_ownership invited_db 1 "ws" "mem-2" "pw" =
      Ok (Status 200 (BOwner (serialize_member d' "mem-2" (set_role Owner bob))
                             (serialize_member d' "mem-1" (set_role Admin amy))), d') /\
    d' = set_memberships (fun ms => <["mem-2" := set_role Owner bob]> (<["mem-1" := set_role Admin amy]> ms)) invited_db.
Proof.
  apply transfer_succeeds; try (vm_compute; reflexivity); [exact invited_db_wf|discriminate].
Defined.

Lemma ownership_moves_only_by_transfer_witness :
  let d' := set_memberships (fun ms => <["mem-2" := set_role Owner bob]> (<["mem-1" := set_role Admin amy]> ms)) invited_db in
  owner_of d' "ws" "mem-1" \/
    (exists m tid target pw, TransferOwnership 1 "ws" "mem-2" "pw" = TransferOwnership (m_user m) "ws" tid pw /\
       memberships invited_db !! "mem-1" = Some m /\ user_check_password invited_db (m_user m) pw = true /\
       memberships d' !! "mem-1" = Some (set_role Admin m) /\
       memberships d' !! tid = Some (set_role Owner target) /\ m_workspace target = "ws" /\
       user_is_active invited_db (m_user target) = true).
Proof.
  eapply (ownership_moves_only_by_transfer (TransferOwnership 1 "ws" "mem-2" "pw") invited_db).
  - exact invited_db_wf.
  - vm_compute. reflexivity.
  - exists amy. vm_compute. repeat split; reflexivity.
Defined.

Lemma stranger_changes_nothing_witness :
  handle (DeleteGroup 2 "ws" "grp-1") invited_db = Ok (error_response 404 "workspace_not_found", invited_db).
Proof.
  apply (stranger_changes_nothing _ _ "ws" 2); [reflexivity|].
  intros _ k m Hm _ Hu.
  apply (lookup_insert_Some (<["mem-2" := bob]> ∅) "mem-1" k amy m) in Hm as [[_ <-]|[_ Hm]]; [discriminate Hu|].
  apply (lookup_insert_Some (∅ : gmap pystr membership_row)) in Hm as [[_ <-]|[_ Hm]]; [reflexivity|discriminate Hm].
Defined.

Lemma removed_member_has_no_access_witness :
  let d' := delete_membership "mem-2" invited_db in
  (forall roles, roles <> [] -> workspace_membership_for d' (Some (m_user bob)) "ws" roles = Ok None) /\
  (forall w u', agent_run_membership_is_current d' "mem-2" w u' = false) /\
  (forall gid, (gid, "mem-2") ∉ group_members d') /\
  (forall def, (def, "mem-2") ∉ definition_members d').
Proof.
  apply (removed_member_has_no_access invited_db 1 "ws" "mem-2" bob).
  - exact invited_db_wf.
  - vm_compute. reflexivity.
  - vm_compute. reflexivity.
Defined.

Lemma accept_admits_invited_user_witness :
  exists d', accept_workspace_invitation invited_db (Some 3) sample_token None None sample_env =
      Ok (Status 200 (BAccepted "ws" "mem-3" Member false), d') /\
    workspace_membership_for d' (Some 3) "ws" WORKSPACE_ROLES =
      Ok (Some ("mem-3", Membership "ws" 3 Member (Some 1) 20)).
Proof.
  apply (accept_admits_invited_user invited_db sample_token (i_token_digest sample_invitation) "wsi-1"
           sample_invitation 3 (User "carol@example.test" "carol@example.test" "Carol" "pw" true)
           sample_env "agent-3" ["agent-4"; "agent-5"]);
    try (vm_compute; reflexivity); [exact invited_db_wf|discriminate].
Defined.

Lemma invitation_token_single_use_witness :
  exists d', accept_workspace_invitation invited_db None sample_token None None sample_env =
      Ok (error_response 401 "invitation_login_required", invited_db) /\
    accept_workspace_invitation d' (Some 2) sample_token None None sample_env =
      Ok (error_response 409 "invitation_not_pending", d').
Proof.
  destruct (accept_workspace_invitation invited_db (Some 3) sample_token None None sample_env)
    as [[[code b] d']|e] eqn:E; [|vm_compute in E; discriminate E].
  exists d'. split; [vm_compute; reflexivity|].
  assert (code = 200) as -> by (vm_compute in E; congruence).
  exact (invitation_token_single_use invited_db (Some 3) sample_token None None sample_env b d'
           (Some 2) None None sample_env invited_db_wf E).
Defined.
