(* ===== verification/Delegation.v ===== *)
(** * Delegated business applications and hosted operation receipts

    [packages/api/app_core/app_delegation_contract.py], [app_delegations.py],
    [agent_definitions.py], [hosted_operations.py], the endpoints of
    [http/app_delegations.py] and the [save] guards of [UserAppDelegation] and
    [BusinessApplication] in [models.py].  Row locks do not change results and are not
    represented. *)

From stdpp Require Import base tactics list gmap numbers sorting.
From S2P Require Import Prelude PyStr Table Utf8 Sha256 Platform Schema Access AgentIdentity Members.

(** Exceptions of this component: the rejection carries its code and HTTP status. *)
Inductive dexn :=
| DelegationRejected (code : pystr) (http_status : Z)
| HostedOperationError (http_status : Z) (code : pystr)
| Raised (e : exn).

Definition lift {A} (r : res exn A) : res dexn A :=
  match r with Ok a => Ok a | Err e => Err (Raised e) end.

(** ** The contract *)

Definition ISSUER : pystr := "centaeris-workspace".
Definition AUDIENCE : pystr := "centaeris-workspace-api".
Definition SCOPES : list pystr :=
  ["assistant:use"; "sessions:read"; "sessions:create"; "messages:submit";
   "attachments:write"; "events:read"; "artifacts:read"; "runs:cancel"].

Definition validate_scopes (value : list pystr) : res exn (list pystr) :=
  require (negb (bool_decide (value = []))
           && forallb (fun scope => bool_decide (scope ∈ SCOPES)) value
           && bool_decide (NoDup value)) (ValueError "delegation_request_invalid");;
  Ok (merge_sort str_le value).

(** ["sha256:" + sha256(token.encode("ascii")).hexdigest()] *)
Definition delegation_token_digest (token : pystr) : res exn pystr :=
  if chars_all is_ascii token then Ok ("sha256:" +:+ sha256_hex (code_points token))
  else Err UnicodeEncodeError.

(** [re.fullmatch(r"cwa_[A-Za-z0-9_-]{43}", token)] *)
Definition token_shape (token : pystr) : bool :=
  startswith token "cwa_" && (str_len (removeprefix token "cwa_") =? 43)
  && chars_all (fun c => is_ascii_alnum c || (c =? 95) || (c =? 45)) (removeprefix token "cwa_").

(** ** Shared definitions a member may use *)

Definition definition_available (d : db) (mid : pystr) (m : membership_row) (def_id : pystr) : bool :=
  match definitions d !! def_id with
  | None => false
  | Some def =>
      bool_decide (d_workspace def = m_workspace m) && bool_decide (d_status def = DefinitionActive)
      && bool_decide (is_Some (d_published_version def))
      && match d_scope def with
         | AvailableWorkspace => true
         | AvailableMembers => bool_decide ((def_id, mid) ∈ definition_members d)
         | AvailableNone => false
         end
  end.

(** The published version an agent runs with; [plugins_current] is the check of
    [require_current_plugin_activation] on the workspace and the version. *)
Inductive definition_lookup := NoDefinition | Version (v : pystr) | DefinitionUnavailable (code : pystr).
Definition published_version_for_agent (plugins_current : pystr -> pystr -> bool) (d : db)
    (agent : agent_row) (mid : pystr) (m : membership_row) : definition_lookup :=
  match a_definition agent with
  | None => NoDefinition
  | Some def_id =>
      if definition_available d mid m def_id then
        match definitions d !! def_id ≫= d_published_version with
        | Some v => if plugins_current (a_workspace agent) v then Version v
                    else DefinitionUnavailable "agent_definition_capability_unavailable"
        | None => DefinitionUnavailable "agent_definition_not_available"
        end
      else DefinitionUnavailable "agent_definition_not_available"
  end.

(** ** Checking a delegation *)

Definition is_active_user (d : db) (u : Z) : bool :=
  match users d !! u with Some row => u_active row | None => false end.

Definition not_available {A} : res dexn A := Err (DelegationRejected "delegation_not_available" 403).

Definition require_current_delegation (d : db) (delegation_id : pystr) (scope : option pystr) (now : Z)
  : res dexn delegation_row :=
  require match scope with Some s => bool_decide (s ∈ SCOPES) | None => true end
    (Raised (ValueError "unknown delegation scope"));;
  match delegations d !! delegation_id with
  | None => not_available
  | Some grant =>
      if negb (is_active_user d (dl_user grant)
               && bool_decide (app_status <$> apps d !! dl_app grant = Some AppActive)
               && bool_decide (dl_revoked_at grant = None) && (now <? dl_expires_at grant)
               && bool_decide (dl_issuer grant = ISSUER) && bool_decide (dl_audience grant = AUDIENCE)
               && bool_decide (d_workspace <$> definitions d !! dl_definition grant = Some (dl_workspace grant)))
      then not_available
      else
        membership ← lift (workspace_membership_for d (Some (dl_user grant)) (dl_workspace grant) WORKSPACE_ROLES);
        match membership with
        | None => not_available
        | Some (mid, m) =>
            if negb (bool_decide (mid = dl_membership_ref grant) && definition_available d mid m (dl_definition grant))
            then not_available
            else
              require match scope with Some s => bool_decide (s ∈ dl_scopes grant) | None => true end
                (DelegationRejected "delegation_scope_forbidden" 403);;
              Ok grant
        end
  end.

Definition authenticate_delegation (d : db) (token scope : pystr) (now : Z) : res dexn delegation_row :=
  require (token_shape token) (DelegationRejected "delegation_invalid" 401);;
  digest ← lift (delegation_token_digest token);
  match qs_first (fun g => bool_decide (dl_token_digest g = digest)) (delegations d) with
  | None => Err (DelegationRejected "delegation_invalid" 401)
  | Some (delegation_id, _) => require_current_delegation d delegation_id (Some scope) now
  end.

Definition require_delegated_agent (d : db) (grant : delegation_row) (agent_id : pystr) (require_active : bool)
  : res dexn agent_row :=
  match agents d !! agent_id with
  | Some a =>
      if bool_decide (a_workspace a = dl_workspace grant) && (a_owner a =? dl_user grant)
         && bool_decide (a_definition a = Some (dl_definition grant))
         && (negb require_active || bool_decide (a_status a = Active))
      then Ok a else Err (DelegationRejected "agent_not_found" 404)
  | None => Err (DelegationRejected "agent_not_found" 404)
  end.

Definition require_delegated_session (d : db) (grant : delegation_row) (session_id : pystr) (require_active : bool)
  : res dexn session_row :=
  match sessions d !! session_id with
  | Some s =>
      match agents d !! se_agent s with
      | Some a =>
          if bool_decide (se_workspace s = dl_workspace grant) && (se_owner s =? dl_user grant)
             && (a_owner a =? dl_user grant) && bool_decide (a_definition a = Some (dl_definition grant))
             && (negb require_active || (bool_decide (se_status s = Active) && bool_decide (a_status a = Active)))
          then Ok s else Err (DelegationRejected "session_not_found" 404)
      | None => Err (DelegationRejected "session_not_found" 404)
      end
  | None => Err (DelegationRejected "session_not_found" 404)
  end.

(** [grant_id] is the delegation the request was authenticated with, if any. *)
Definition require_request_delegation (d : db) (grant_id : option pystr) (scope : pystr)
    (workspace_id agent_id session_id : option pystr) (additional_scopes : list pystr)
    (require_active : bool) (now : Z) : res dexn (option delegation_row) :=
  match grant_id with
  | None => Ok None
  | Some gid =>
      grant ← require_current_delegation d gid (Some scope) now;
      for_each (fun _ required_scope =>
          require (bool_decide (required_scope ∈ SCOPES)) (Raised (ValueError "unknown delegation scope"));;
          require (bool_decide (required_scope ∈ dl_scopes grant))
            (DelegationRejected "delegation_scope_forbidden" 403)) additional_scopes tt;;
      require match workspace_id with Some w => bool_decide (w = dl_workspace grant) | None => true end
        (DelegationRejected "workspace_not_found" 404);;
      match agent_id with Some a => require_delegated_agent d grant a require_active;; Ok tt | None => Ok tt end;;
      match session_id with
      | Some s => if bool_decide (s = "new") then Ok tt
                  else require_delegated_session d grant s require_active;; Ok tt
      | None => Ok tt
      end;;
      Ok (Some grant)
  end.

(** The fields of an agent run the delegation checks read. *)
Record run_identity := RunIdentity {
  ri_user : Z; ri_workspace : pystr; ri_session : pystr; ri_turn : pystr;
  ri_acting_app : option pystr; ri_app_delegation : option pystr }.

Definition require_run_delegation (d : db) (run : run_identity) (now : Z) : res dexn unit :=
  match ri_acting_app run, ri_app_delegation run with
  | None, None => Ok tt
  | Some app, Some gid =>
      grant ← require_current_delegation d gid (Some "messages:submit") now;
      require (bool_decide (dl_app grant = app) && (dl_user grant =? ri_user run)
               && bool_decide (dl_workspace grant = ri_workspace run))
        (DelegationRejected "delegation_not_available" 403);;
      require_delegated_session d grant (ri_session run) true;;
      Ok tt
  | _, _ => not_available
  end.

Definition session_authority_is_current (d : db) (user_id : Z) (session_id : pystr)
    (delegation_id : option pystr) (scope : pystr) (now : Z) : res dexn bool :=
  match users d !! user_id, sessions d !! session_id with
  | Some u, Some s =>
      match agents d !! se_agent s with
      | Some a =>
          if negb (u_active u && (se_owner s =? user_id) && bool_decide (se_status s = Active)
                   && (a_owner a =? user_id) && bool_decide (a_status a = Active)) then Ok false
          else
            membership ← lift (workspace_membership_for d (Some user_id) (se_workspace s) WORKSPACE_ROLES);
            match membership with
            | None => Ok false
            | Some (mid, m) =>
                if match a_definition a with
                   | Some def => negb (definition_available d mid m def)
                   | None => false
                   end then Ok false
                else
                  match delegation_id with
                  | None => Ok true
                  | Some gid =>
                      match (grant ← require_current_delegation d gid (Some scope) now;
                             if negb (dl_user grant =? user_id) then Ok false
                             else require_delegated_session d grant session_id true;; Ok true) with
                      | Err (DelegationRejected _ _) => Ok false
                      | r => r
                      end
                  end
            end
      | None => Ok false
      end
  | _, _ => Ok false
  end.

(** ** Endpoints *)

Section endpoints.
Context {PL : Platform}.

Definition validate_display_name (value : pystr) : res exn pystr :=
  require (negb (is_empty value) && bool_decide (value = strip value) && (str_len value <=? 160)
           && bool_decide (nfc value = value)
           && negb (chars_any (fun c => (c <? 32) || ((127 <=? c) && (c <? 160))) value))
    (ValueError "credential displayName is invalid");;
  Ok value.

(** [BusinessApplication.save]: a revoked application stays revoked, an active one does not
    return to pending *)
Definition save_app (k : pystr) (a : app_row) (d : db) : res exn db :=
  validate_display_name (app_name a);;
  match apps d !! k with
  | Some stored =>
      require (negb ((bool_decide (app_status stored = AppRevoked) && negb (bool_decide (app_status a = AppRevoked)))
                     || (bool_decide (app_status stored = AppActive) && bool_decide (app_status a = AppPending))))
        (ValueError "business_app_revoked")
  | None => Ok tt
  end;;
  Ok (set_apps <[k := a]> d).

Definition register_business_app (d : db) (u : Z) (name new_app_id : pystr) (now : Z) : res exn (Z * pystr * db) :=
  validate_display_name name;;
  require (bool_decide (apps d !! new_app_id = None)) IntegrityError;;
  d' ← save_app new_app_id (App name AppPending u now) d;
  Ok (201, new_app_id, d').

(** Only an id, an HTTP code and an error are kept of the responses here. *)
Definition update_business_app (d : db) (app_id : pystr) (revoke : bool) : res exn (Z * pystr * db) :=
  match apps d !! app_id with
  | None => Ok (404, "business_app_not_found", d)
  | Some a =>
      if bool_decide (app_status a = AppRevoked) then Ok (409, "business_app_revoked", d)
      else
        d' ← save_app app_id (App (app_name a) (if revoke then AppRevoked else AppActive)
                                  (app_created_by a) (app_created_at a)) d;
        Ok (200, app_id, d')
  end.

(** [UserAppDelegation.save], adding a row *)
Definition create_delegation (k : pystr) (g : delegation_row) (d : db) : res exn (delegation_row * db) :=
  scopes ← validate_scopes (dl_scopes g);
  let g := Delegation (dl_user g) (dl_app g) (dl_workspace g) (dl_definition g) (dl_membership_ref g)
             (dl_issuer g) (dl_audience g) scopes (dl_token_digest g) (dl_expires_at g)
             (dl_revoked_at g) (dl_created_at g) in
  require_sha256 "UserAppDelegation.token_digest" (dl_token_digest g);;
  require (bool_decide (dl_issuer g = ISSUER) && bool_decide (dl_audience g = AUDIENCE)
           && bool_decide (d_workspace <$> definitions d !! dl_definition g = Some (dl_workspace g)))
    (ValueError "UserAppDelegation authority binding mismatch");;
  require (agent_run_membership_is_current d (dl_membership_ref g) (dl_workspace g) (dl_user g))
    (ValueError "UserAppDelegation requires current membership");;
  require (negb (is_empty (dl_membership_ref g))
           && bool_decide (delegations d !! k = None)
           && bool_decide (map_Forall (fun _ g' => dl_token_digest g' <> dl_token_digest g) (delegations d)))
    IntegrityError;;
  Ok (g, set_delegations <[k := g]> d).

Definition set_dl_revoked (now : Z) (g : delegation_row) : delegation_row :=
  Delegation (dl_user g) (dl_app g) (dl_workspace g) (dl_definition g) (dl_membership_ref g)
    (dl_issuer g) (dl_audience g) (dl_scopes g) (dl_token_digest g) (dl_expires_at g)
    (Some now) (dl_created_at g).

(** [UserAppDelegation.save] of a stored row: authority is immutable, revocation permanent *)
Definition save_delegation (k : pystr) (g : delegation_row) (d : db) : res exn db :=
  scopes ← validate_scopes (dl_scopes g);
  require_sha256 "UserAppDelegation.token_digest" (dl_token_digest g);;
  require (bool_decide (dl_issuer g = ISSUER) && bool_decide (dl_audience g = AUDIENCE)
           && bool_decide (d_workspace <$> definitions d !! dl_definition g = Some (dl_workspace g)))
    (ValueError "UserAppDelegation authority binding mismatch");;
  match delegations d !! k with
  | None => Err DoesNotExist
  | Some stored =>
      require (bool_decide (dl_user stored = dl_user g) && bool_decide (dl_app stored = dl_app g)
               && bool_decide (dl_workspace stored = dl_workspace g)
               && bool_decide (dl_definition stored = dl_definition g)
               && bool_decide (dl_membership_ref stored = dl_membership_ref g)
               && bool_decide (dl_issuer stored = dl_issuer g) && bool_decide (dl_audience stored = dl_audience g)
               && bool_decide (dl_scopes stored = scopes) && bool_decide (dl_token_digest stored = dl_token_digest g)
               && bool_decide (dl_expires_at stored = dl_expires_at g))
        (ValueError "UserAppDelegation authority is immutable");;
      require (negb (bool_decide (is_Some (dl_revoked_at stored))
                     && negb (bool_decide (dl_revoked_at g = dl_revoked_at stored))))
        (ValueError "UserAppDelegation revocation is permanent");;
      Ok (set_delegations <[k := g]> d)
  end.

Record delegation_request := DelegationRequest {
  dr_app : pystr; dr_workspace : pystr; dr_definition : pystr; dr_scopes : list pystr; dr_expires_in : Z }.

(** [DelegationRequest]: the payload the endpoint receives *)
Definition valid_delegation_request (p : delegation_request) : res exn delegation_request :=
  let bounded s := (1 <=? str_len s) && (str_len s <=? 64) in
  require (bounded (dr_app p) && bounded (dr_workspace p) && bounded (dr_definition p)
           && (300 <=? dr_expires_in p) && (dr_expires_in p <=? 86400)) (ValueError "request_invalid");;
  scopes ← validate_scopes (dr_scopes p);
  Ok (DelegationRequest (dr_app p) (dr_workspace p) (dr_definition p) scopes (dr_expires_in p)).

Inductive issue_response :=
| IssueNotAvailable
| Issued (delegation_id : pystr) (grant : delegation_row) (access_token : pystr).

(** [secret] is [secrets.token_urlsafe(32)] *)
Definition issue_app_delegation (d : db) (u : Z) (p : delegation_request) (secret new_delegation_id : pystr) (now : Z)
  : res exn (issue_response * db) :=
  membership ← locked_workspace_membership_for d u (dr_workspace p) WORKSPACE_ROLES;
  match membership with
  | None => Ok (IssueNotAvailable, d)
  | Some (mid, m) =>
      if negb (bool_decide (app_status <$> apps d !! dr_app p = Some AppActive)
               && definition_available d mid m (dr_definition p)) then Ok (IssueNotAvailable, d)
      else
        let token := "cwa_" +:+ secret in
        digest ← delegation_token_digest token;
        created ← create_delegation new_delegation_id
                    (Delegation u (dr_app p) (dr_workspace p) (dr_definition p) mid ISSUER AUDIENCE (dr_scopes p)
                       digest (now + dr_expires_in p) None now) d;
        Ok (Issued new_delegation_id created.1 token, created.2)
  end.

Definition revoke_app_delegation (d : db) (u : Z) (delegation_id : pystr) (now : Z) : res exn (Z * db) :=
  match delegations d !! delegation_id with
  | Some grant =>
      if negb (dl_user grant =? u) then Ok (404, d)
      else
        match workspaces d !! dl_workspace grant with
        | None => Err DoesNotExist
        | Some _ =>
            if bool_decide (dl_revoked_at grant = None) then
              d' ← save_delegation delegation_id (set_dl_revoked now grant) d;
              Ok (204, d')
            else Ok (204, d)
        end
  | None => Ok (404, d)
  end.

Definition list_app_delegations (d : db) (u : Z) : list (pystr * delegation_row) :=
  order_by Z.le dl_created_at (qs_list (fun g => dl_user g =? u) (delegations d)).
End endpoints.

(** ** Receipts of hosted commands *)

Record receipt_row := Receipt {
  rc_user : Z; rc_workspace : pystr; rc_command : pystr; rc_operation : pystr; rc_digest : pystr;
  rc_session : pystr; rc_run : option pystr; rc_turn : option pystr;
  rc_app : option pystr; rc_delegation : option pystr }.

Record artifact_ref := ArtifactRef { ar_created_by : Z; ar_session : pystr }.
Record citation_ref := CitationRef {
  ci_session : pystr; ci_run : pystr; ci_owner_kind : pystr; ci_owner_ref : pystr }.
Record link_ref := LinkRef { lk_session : pystr; lk_source_object : option pystr; lk_library_object : option pystr }.

(** The resource tables a delegated request may reach. *)
Record resources := Resources {
  res_runs : gmap pystr run_identity;
  res_receipts : gmap Z receipt_row;
  res_artifacts : gmap pystr artifact_ref;
  res_citations : gmap pystr citation_ref;
  res_links : gmap pystr link_ref }.

Definition receipt_scope (user : Z) (wid command op : pystr) (r : receipt_row) : bool :=
  (rc_user r =? user) && bool_decide (rc_workspace r = wid) && bool_decide (rc_command r = command)
  && bool_decide (rc_operation r = op).

Definition replay_operation (d : db) (rs : resources) (user : Z) (wid command op : pystr)
    (digest : option pystr) (app_delegation : option delegation_row) : res dexn (option receipt_row) :=
  match qs_first (receipt_scope user wid command op) (res_receipts rs) with
  | None => Ok None
  | Some (_, receipt) =>
      match sessions d !! rc_session receipt with
      | None => Err (HostedOperationError 410 "operation_resource_unavailable")
      | Some session =>
          let agent := agents d !! se_agent session in
          require (bool_decide (se_workspace session = wid) && (se_owner session =? user)
                   && match agent with
                      | Some a => (a_owner a =? user) && bool_decide (a_workspace a = wid)
                      | None => false
                      end) (HostedOperationError 404 "operation_not_found");;
          match app_delegation with
          | Some g => require_delegated_session d g (rc_session receipt) false;; Ok tt
          | None => Ok tt
          end;;
          require (bool_decide (se_status session = Active)
                   && match agent with Some a => bool_decide (a_status a = Active) | None => false end)
            (HostedOperationError 410 "operation_resource_unavailable");;
          require match rc_run receipt with
                  | None => true
                  | Some run_id =>
                      match res_runs rs !! run_id with
                      | Some run => bool_decide (Some (ri_turn run) = rc_turn receipt)
                                    && bool_decide (ri_session run = rc_session receipt)
                                    && (ri_user run =? user) && bool_decide (ri_workspace run = wid)
                      | None => false
                      end
                  end (HostedOperationError 410 "operation_resource_unavailable");;
          require match digest with Some dg => bool_decide (rc_digest receipt = dg) | None => true end
            (HostedOperationError 409 "operation_conflict");;
          Ok (Some receipt)
      end
  end.

(** [hosted_operation_result_valid] *)
Definition receipt_result_valid (r : receipt_row) : bool :=
  (bool_decide (rc_command r = "createSession") && bool_decide (rc_run r = None) && bool_decide (rc_turn r = None))
  || (bool_decide (rc_command r = "submitMessage") && bool_decide (is_Some (rc_run r)) && bool_decide (is_Some (rc_turn r))).

Definition accept_operation (rs : resources) (key : Z) (user : Z) (wid command op digest session_id : pystr)
    (agent_run : option (pystr * run_identity)) (app_delegation : option (pystr * delegation_row))
  : res dexn (receipt_row * resources) :=
  let r := Receipt user wid command op digest session_id (fst <$> agent_run)
             ((fun kr => ri_turn kr.2) <$> agent_run)
             ((fun kg => dl_app kg.2) <$> app_delegation) (fst <$> app_delegation) in
  require (receipt_result_valid r && bool_decide (res_receipts rs !! key = None)
           && bool_decide (map_Forall (fun _ r' => receipt_scope user wid command op r' = false) (res_receipts rs)))
    (Raised IntegrityError);;
  Ok (r, Resources (res_runs rs) (<[key := r]> (res_receipts rs)) (res_artifacts rs) (res_citations rs) (res_links rs)).

(** The path parameters of a request. *)
Record path_values := PathValues {
  pv_workspace : option pystr; pv_definition : option pystr; pv_agent : option pystr;
  pv_session : option pystr; pv_run : option pystr;
  pv_operation : option (pystr * pystr) (** command and operation id *);
  pv_artifact : option pystr; pv_citation : option pystr;
  pv_library_object : option pystr; pv_source_object : option pystr;
  pv_message_submission : bool (** POST of [create_session_message] *) }.

Definition when_some {A} (o : option A) (f : A -> res dexn unit) : res dexn unit :=
  match o with Some a => f a | None => Ok tt end.
Definition rejected (code : pystr) : dexn := DelegationRejected code 404.

(** The session of a link or citation is an active one the grant covers. *)
Definition session_in_scope (d : db) (grant : delegation_row) (session_id : pystr) : bool :=
  match sessions d !! session_id with
  | Some s =>
      bool_decide (se_workspace s = dl_workspace grant) && (se_owner s =? dl_user grant)
      && bool_decide (se_status s = Active)
      && match agents d !! se_agent s with
         | Some a => bool_decide (a_status a = Active) && bool_decide (a_definition a = Some (dl_definition grant))
         | None => false
         end
  | None => false
  end.

Definition object_reachable (d : db) (rs : resources) (grant : delegation_row) (linked_as : link_ref -> option pystr)
    (owner_kind object_id : pystr) : bool :=
  qs_exists (fun l => session_in_scope d grant (lk_session l) && bool_decide (linked_as l = Some object_id)) (res_links rs)
  || qs_exists (fun c => session_in_scope d grant (ci_session c)
                         && bool_decide (ri_user <$> res_runs rs !! ci_run c = Some (dl_user grant))
                         && bool_decide (ci_owner_kind c = owner_kind) && bool_decide (ci_owner_ref c = object_id))
       (res_citations rs).

Definition authorize_session_path (d : db) (rs : resources) (grant : delegation_row) (v : path_values) (sid : pystr)
  : res dexn unit :=
  (if bool_decide (sid = "new") then
     require (bool_decide ("sessions:create" ∈ dl_scopes grant)) (DelegationRejected "delegation_scope_forbidden" 403)
   else require_delegated_session d grant sid (negb (pv_message_submission v));; Ok tt);;
  when_some (pv_run v) (fun run_id =>
    require match res_runs rs !! run_id with
            | Some run => bool_decide (ri_session run = sid) && (ri_user run =? dl_user grant)
                          && bool_decide (ri_workspace run = dl_workspace grant)
            | None => false
            end (rejected "agent_run_not_found")).

Definition authorize_delegated_request (d : db) (rs : resources) (grant : delegation_row) (v : path_values)
  : res dexn unit :=
  when_some (pv_workspace v) (fun w => require (bool_decide (w = dl_workspace grant)) (rejected "workspace_not_found"));;
  when_some (pv_definition v) (fun x => require (bool_decide (x = dl_definition grant)) (rejected "agent_definition_not_found"));;
  when_some (pv_agent v) (fun a => require_delegated_agent d grant a true;; Ok tt);;
  when_some (pv_session v) (authorize_session_path d rs grant v);;
  when_some (pv_operation v) (fun '(command, op) =>
    match qs_first (receipt_scope (dl_user grant) (dl_workspace grant) command op) (res_receipts rs) with
    | None => Err (rejected "operation_not_found")
    | Some (_, r) => require_delegated_session d grant (rc_session r) false;; Ok tt
    end);;
  when_some (pv_artifact v) (fun a =>
    match res_artifacts rs !! a with
    | Some ar => if ar_created_by ar =? dl_user grant then require_delegated_session d grant (ar_session ar) true;; Ok tt
                 else Err (rejected "artifact_not_found")
    | None => Err (rejected "artifact_not_found")
    end);;
  when_some (pv_citation v) (fun c =>
    match res_citations rs !! c with
    | Some ci => if bool_decide (ri_user <$> res_runs rs !! ci_run ci = Some (dl_user grant))
                 then require_delegated_session d grant (ci_session ci) true;; Ok tt
                 else Err (rejected "citation_not_found")
    | None => Err (rejected "citation_not_found")
    end);;
  when_some (pv_library_object v) (fun o =>
    require (object_reachable d rs grant lk_library_object "userLibraryObject" o) (rejected "object_not_found"));;
  when_some (pv_source_object v) (fun o =>
    require (object_reachable d rs grant lk_source_object "sourceObject" o) (rejected "object_not_found")).
