(* ===== verification/DelegationProps.v ===== *)
(** * Correctness of delegated access and of operation receipts *)

From stdpp Require Import base tactics list gmap numbers sorting.
From S2P Require Import Prelude PyStr Table Utf8 Sha256 Platform Schema Access AgentIdentity Members MembersInv Delegation.

Section delegation.
Context {PL : Platform}.

(** ** What makes a delegation current *)

(** The authority a delegation stands for is still in force at time [now]. *)
Record delegation_current (d : db) (now : Z) (g : delegation_row) : Prop := Current {
  cur_user : is_active_user d (dl_user g) = true;
  cur_app : app_status <$> apps d !! dl_app g = Some AppActive;
  cur_live : dl_revoked_at g = None /\ now < dl_expires_at g;
  cur_audience : dl_issuer g = ISSUER /\ dl_audience g = AUDIENCE;
  cur_definition : d_workspace <$> definitions d !! dl_definition g = Some (dl_workspace g);
  (** the very membership the delegation was issued under still exists *)
  cur_membership : exists m, memberships d !! dl_membership_ref g = Some m /\
    m_workspace m = dl_workspace g /\ m_user m = dl_user g /\
    definition_available d (dl_membership_ref g) m (dl_definition g) = true;
  cur_workspace : workspace_is_active d (dl_workspace g) = true }.

Lemma membership_for_lookup d u wid k m :
  wf d -> memberships d !! k = Some m -> m_workspace m = wid -> m_user m = u ->
  workspace_is_active d wid = true ->
  workspace_membership_for d (Some u) wid WORKSPACE_ROLES = Ok (Some (k, m)).
Proof.
  intros Hwf Hk <- <- Ha. unfold workspace_membership_for. cbn. f_equal. apply qs_first_unique; [done|..].
  - rewrite (proj2 (is_membership_spec _ _ _ m)); [by rewrite Ha|].
    split_and!; try done. unfold WORKSPACE_ROLES. destruct (m_role m); set_solver.
  - intros k' m' Hk' [(? & ? & _)%is_membership_spec _]%andb_true_iff.
    eapply (proj1 (wf_members _ Hwf)); [done|done|]. split; [congruence|left; congruence].
Qed.

Lemma require_current_Ok d gid scope now g :
  require_current_delegation d gid scope now = Ok g ->
  delegations d !! gid = Some g /\ delegation_current d now g /\
  (forall s, scope = Some s -> s ∈ SCOPES /\ s ∈ dl_scopes g).
Proof.
  unfold require_current_delegation. intros H. walk H.
  repeat match goal with H : require _ _ = Ok _ |- _ => apply require_Ok in H end. bool_inv.
  match goal with H : lift ?r = Ok _ |- _ => destruct r as [o|] eqn:Hr; cbn in H; simplify_eq end.
  apply membership_for_Some in Hr as (? & ? & ? & _ & ?). simplify_eq.
  split; [done|]. split; [split; eauto 10|]. intros s ->. bool_inv. done.
Qed.

Lemma require_current_complete d gid s now g :
  wf d -> delegations d !! gid = Some g -> delegation_current d now g -> s ∈ SCOPES -> s ∈ dl_scopes g ->
  require_current_delegation d gid (Some s) now = Ok g.
Proof.
  intros Hwf Hg [Hu Ha [Hr He] [Hi Hau] Hd (m & Hm & Hw & Hmu & Hdef) Hws] Hs Hsg.
  unfold require_current_delegation. rewrite bool_decide_eq_true_2 by done. cbn [require mbind res_bind].
  rewrite Hg. rewrite Hu, !bool_decide_eq_true_2, (proj2 (Z.ltb_lt _ _) He) by done. cbn [andb negb].
  rewrite (membership_for_lookup d _ _ _ m) by done. cbn [lift mbind res_bind].
  rewrite bool_decide_eq_true_2, Hdef by done. done.
Qed.

(** A delegation passes the check exactly when its authority is in force: the user and the
    application are active, it is neither revoked nor expired, it was issued for this audience,
    the membership it was issued under is still there in an active workspace, the assistant is
    available to that membership, and the scope was granted. *)
Theorem require_current_delegation_iff d gid s now g :
  wf d ->
  require_current_delegation d gid (Some s) now = Ok g <->
  delegations d !! gid = Some g /\ delegation_current d now g /\ s ∈ SCOPES /\ s ∈ dl_scopes g.
Proof.
  intros Hwf. split.
  - intros (? & ? & Hs)%require_current_Ok. split_and!; try done; by apply Hs.
  - intros (? & ? & ? & ?). by apply require_current_complete.
Qed.

(** ** A lost membership never comes back *)

(** The requests that create a membership under id [mid]. *)
Definition creates_membership (mid : pystr) (q : request) : Prop :=
  match q with AcceptInvitation _ _ _ _ env => ae_membership_id env = mid | _ => False end.

Lemma effect_keeps_absent d q ms mid :
  membership_effect d q ms -> memberships d !! mid = None -> ~ creates_membership mid q -> ms !! mid = None.
Proof.
  intros He Hn Hc. destruct He; try done.
  - rewrite lookup_insert_ne by congruence. done.
  - rewrite lookup_delete_None. by right.
  - rewrite !lookup_insert_ne by congruence. done.
  - rewrite lookup_insert_ne; [done|]. cbn in Hc. congruence.
Qed.

Lemma serve_keeps_absent d qs mid :
  wf d -> memberships d !! mid = None -> Forall (fun q => ~ creates_membership mid q) qs ->
  memberships (serve d qs) !! mid = None.
Proof.
  intros Hwf Hn Hqs. enough (wf (serve d qs) /\ memberships (serve d qs) !! mid = None) by tauto.
  induction qs as [|q qs IH] using rev_ind; [done|]. apply Forall_app in Hqs as [Hqs Hq].
  rewrite Forall_singleton in Hq. destruct (IH Hqs) as [Hwf1 Hn1]. rewrite serve_app. cbn.
  apply (committed_inv (fun d' => wf d' /\ memberships d' !! mid = None)); [done|].
  intros r d' H. split; [by eapply wf_handle|]. eapply effect_keeps_absent; [by eapply handle_membership_effect|exact Hn1|exact Hq].
Qed.

(** (C33) Leaving and rejoining never revives an old delegation: once the membership it was issued under
    is removed, the delegation is refused after every later sequence of membership requests,
    whoever rejoins under fresh membership ids. *)
Theorem rejoin_does_not_revive_delegation d u wid mid d' qs gid g scope now :
  wf d -> remove_workspace_member d u wid mid = Ok (Status 200 BOk, d') ->
  Forall (fun q => ~ creates_membership mid q) qs ->
  delegations (serve d' qs) !! gid = Some g -> dl_membership_ref g = mid -> scope ∈ SCOPES ->
  require_current_delegation (serve d' qs) gid (Some scope) now =
    Err (DelegationRejected "delegation_not_available" 403).
Proof.
  intros Hwf Hrm Hqs Hg Href Hs.
  assert (Hwf' : wf d') by by eapply wf_remove_workspace_member.
  assert (Hn : memberships d' !! mid = None).
  { unfold remove_workspace_member in Hrm. walk Hrm. cbn. by rewrite lookup_delete_eq. }
  pose proof (serve_keeps_absent _ qs _ Hwf' Hn Hqs) as Habs.
  unfold require_current_delegation. rewrite bool_decide_eq_true_2 by done. cbn [require mbind res_bind].
  rewrite Hg. destruct (negb _); [done|].
  destruct (workspace_membership_for _ _ _ _) as [[[k m]|]|e] eqn:Hm; cbn [lift mbind res_bind]; [|done|].
  - apply membership_for_Some in Hm as (Hk & _). rewrite bool_decide_eq_false_2; [done|].
    intros ->. rewrite Href, Habs in Hk. done.
  - unfold workspace_membership_for in Hm. cbn in Hm. done.
Qed.

(** ** Revocation *)

(** The endpoints that write delegations and applications. *)
Inductive delegation_op :=
| RegisterApp (u : Z) (name new_id : pystr) (now : Z)
| UpdateApp (app_id : pystr) (revoke : bool)
| IssueDelegation (u : Z) (p : delegation_request) (secret new_id : pystr) (now : Z)
| RevokeDelegation (u : Z) (gid : pystr) (now : Z).

Definition perform (d : db) (op : delegation_op) : db :=
  match op with
  | RegisterApp u name new_id now => match register_business_app d u name new_id now with Ok r => r.2 | Err _ => d end
  | UpdateApp app_id revoke => match update_business_app d app_id revoke with Ok r => r.2 | Err _ => d end
  | IssueDelegation u p secret new_id now => match issue_app_delegation d u p secret new_id now with Ok r => r.2 | Err _ => d end
  | RevokeDelegation u gid now => match revoke_app_delegation d u gid now with Ok r => r.2 | Err _ => d end
  end.

Definition app_revoked (d : db) (app : pystr) : Prop := exists a, apps d !! app = Some a /\ app_status a = AppRevoked.
Definition grant_revoked (d : db) (gid : pystr) : Prop := exists g, delegations d !! gid = Some g /\ dl_revoked_at g <> None.
(** The stored row of a delegation names the same application for ever. *)
Definition grant_of_app (d : db) (gid app : pystr) : Prop := exists g, delegations d !! gid = Some g /\ dl_app g = app.

Lemma save_app_effect k a d d' :
  save_app k a d = Ok d' -> d' = set_apps <[k := a]> d /\
  (forall stored, apps d !! k = Some stored -> app_status stored = AppRevoked -> app_status a = AppRevoked).
Proof.
  unfold save_app. intros H. walk H. split; [done|]. intros stored Hk Hr.
  rewrite Hk in *. res_inv. rewrite Hr in *. by destruct (app_status a).
Qed.

Lemma perform_apps d op app : app_revoked d app -> app_revoked (perform d op) app.
Proof.
  intros (a & Ha & Hr). destruct op; cbn [perform].
  - destruct (register_business_app _ _ _ _ _) as [[[c i] d']|] eqn:E; cbn; [|by exists a].
    unfold register_business_app in E. res_inv. bool_inv.
    match goal with H : save_app _ _ _ = _ |- _ => apply save_app_effect in H as [-> _] end.
    exists a. cbn. rewrite lookup_insert_ne by congruence. done.
  - destruct (update_business_app _ _ _) as [[[c i] d']|] eqn:E; cbn; [|by exists a].
    unfold update_business_app in E. walk E; try (by exists a). bool_inv.
    match goal with H : save_app _ _ _ = _ |- _ => apply save_app_effect in H as [-> _] end.
    exists a. cbn. rewrite lookup_insert_ne by congruence. done.
  - destruct (issue_app_delegation _ _ _ _ _ _) as [[r d']|] eqn:E; cbn; [|by exists a].
    unfold issue_app_delegation in E. walk E; try (by exists a).
    unfold create_delegation in *. res_inv. by exists a.
  - destruct (revoke_app_delegation _ _ _ _) as [[c d']|] eqn:E; cbn; [|by exists a].
    unfold revoke_app_delegation in E. walk E; try (by exists a).
    match goal with H : save_delegation _ _ _ = _ |- _ => unfold save_delegation in H; walk H end. by exists a.
Qed.

(** Every operation leaves a stored delegation as it is, except that it may set [revoked_at]
    once. *)
Lemma perform_grant d op gid g :
  delegations d !! gid = Some g ->
  exists g', delegations (perform d op) !! gid = Some g' /\ dl_app g' = dl_app g /\
    (dl_revoked_at g <> None -> g' = g).
Proof.
  intros Hg. assert (Hsame : exists g', delegations d !! gid = Some g' /\ dl_app g' = dl_app g /\
    (dl_revoked_at g <> None -> g' = g)) by eauto. destruct op; cbn [perform].
  - destruct (register_business_app _ _ _ _ _) as [[[c i] d']|] eqn:E; cbn; [|done].
    unfold register_business_app in E. res_inv.
    match goal with H : save_app _ _ _ = _ |- _ => apply save_app_effect in H as [-> _] end. done.
  - destruct (update_business_app _ _ _) as [[[c i] d']|] eqn:E; cbn; [|done].
    unfold update_business_app in E. walk E; try done.
    match goal with H : save_app _ _ _ = _ |- _ => apply save_app_effect in H as [-> _] end. done.
  - destruct (issue_app_delegation _ _ _ _ _ _) as [[r d']|] eqn:E; cbn; [|done].
    unfold issue_app_delegation in E. walk E; try done.
    unfold create_delegation in *. res_inv. bool_inv. cbn.
    exists g. rewrite lookup_insert_ne by congruence. done.
  - destruct (revoke_app_delegation _ _ _ _) as [[c d']|] eqn:E; cbn; [|done].
    unfold revoke_app_delegation in E. walk E; try done.
    match goal with H : save_delegation _ _ _ = _ |- _ => unfold save_delegation in H; walk H end. bool_inv. cbn.
    destruct (decide (gid0 = gid)) as [->|Hne]; [|rewrite lookup_insert_ne by done; done].
    rewrite lookup_insert_eq. simplify_eq. eexists. split; [done|]. split; [done|]. naive_solver.
Qed.

Lemma foldl_inv {A S} (P : S -> Prop) (f : S -> A -> S) l s :
  (forall s x, P s -> P (f s x)) -> P s -> P (foldl f s l).
Proof. intros Hf. revert s. induction l; cbn; eauto. Qed.

(** Revocation is permanent: once a delegation or its application is revoked, no sequence of
    registrations, approvals, issues and revocations makes the delegation usable again. *)
Theorem revocation_is_permanent d gid app ops scope now :
  grant_of_app d gid app -> grant_revoked d gid \/ app_revoked d app -> scope ∈ SCOPES ->
  require_current_delegation (foldl perform d ops) gid (Some scope) now =
    Err (DelegationRejected "delegation_not_available" 403).
Proof.
  intros Hga Hrev Hs.
  assert (grant_of_app (foldl perform d ops) gid app /\
          (grant_revoked (foldl perform d ops) gid \/ app_revoked (foldl perform d ops) app)) as [(g & Hg & Happ) Hor].
  { apply (foldl_inv (fun d => grant_of_app d gid app /\ (grant_revoked d gid \/ app_revoked d app))); [|done].
    clear. intros d op [(g & Hg & <-) Hor]. destruct (perform_grant d op gid g Hg) as (g' & Hg' & Happ & Hsame).
    split; [by exists g'|]. destruct Hor as [(g0 & Hg0 & Hr)|Hr]; [left|right; by apply perform_apps].
    simplify_eq. exists g'. split; [done|]. by rewrite (Hsame Hr). }
  unfold require_current_delegation. rewrite bool_decide_eq_true_2 by done. cbn [require mbind res_bind]. rewrite Hg.
  match goal with |- (if negb ?b then _ else _) = _ => assert (b = false) as ->; [|done] end.
  apply not_true_iff_false. intros H. bool_inv.
  destruct Hor as [(g0 & Hg0 & Hr)|(a & Ha & Hr)]; simplify_eq.
  match goal with H : app_status <$> _ = _ |- _ => rewrite Ha in H; cbn in H; congruence end.
Qed.

(** ** Issuing *)

Lemma merge_sort_elem (l : list pystr) x : x ∈ merge_sort str_le l <-> x ∈ l.
Proof. by rewrite merge_sort_Permutation. Qed.

Lemma validate_scopes_Ok l l' : validate_scopes l = Ok l' -> forall s, s ∈ l' <-> s ∈ l /\ s ∈ SCOPES.
Proof.
  unfold validate_scopes. intros. res_inv. bool_inv. rewrite merge_sort_elem. split; [|naive_solver].
  intros Hs. split; [done|]. rewrite forallb_Forall, Forall_forall in *.
  match goal with H : _ |- _ => specialize (H _ Hs); by bool_inv end.
Qed.

(** The bearer token returned by the issuing endpoint authenticates as exactly the delegation just
    issued, for the requested scopes and until it expires. *)
Theorem issued_token_authenticates d u p secret new_id now gid g token d' scope now' :
  wf d -> issue_app_delegation d u p secret new_id now = Ok (Issued gid g token, d') ->
  is_active_user d u = true -> token_shape token = true ->
  scope ∈ dr_scopes p -> now' < now + dr_expires_in p ->
  authenticate_delegation d' token scope now' = Ok g.
Proof.
  intros Hwf H Hu Hshape Hscope Hexp. unfold issue_app_delegation in H. walk H. bool_inv.
  match goal with H : locked_workspace_membership_for _ _ _ _ = _ |- _ =>
    apply locked_membership_Some in H as (Hm & Hmw & Hmu & _ & Hact) end.
  unfold create_delegation in *. res_inv. bool_inv.
  match goal with H : validate_scopes _ = Ok _ |- _ => pose proof (validate_scopes_Ok _ _ H) as Hsc end.
  match goal with H : validate_scopes _ = Ok ?x |- _ =>
    assert (Hs : scope ∈ SCOPES) by (unfold validate_scopes in H; res_inv; bool_inv;
      rewrite forallb_Forall, Forall_forall in *;
      match goal with H : _ |- _ => specialize (H _ Hscope); by bool_inv end) end.
  unfold authenticate_delegation. rewrite Hshape. cbn [require mbind res_bind].
  match goal with H : delegation_token_digest _ = Ok _ |- _ => rewrite H end. cbn [lift mbind res_bind].
  match goal with |- context [set_delegations <[gid := ?row]> d] =>
    rewrite (qs_first_unique _ (delegations (set_delegations <[gid := row]> d)) gid row) end.
  - apply require_current_complete; [by destruct Hwf; split|by apply lookup_insert_eq| |done|by apply Hsc].
    split; cbn; try done. eauto 10.
  - by apply lookup_insert_eq.
  - by apply bool_decide_eq_true.
  - intros k' r' Hk Hd. cbn in Hk. apply lookup_insert_Some in Hk as [[<- _]|[_ Hk']]; [done|]. bool_inv.
    match goal with H : map_Forall _ (delegations d) |- _ => by destruct (H _ _ Hk') end.
Qed.

(** ** Receipts *)

(** A command is accepted once: after its receipt is written, replaying it with the same request
    returns that receipt, and replaying it with another request is refused with 409, as long as
    the session and agent it names are the user's and active. *)
Theorem accepted_operation_replays d rs key user wid command op digest sid run r rs' digest' s a :
  accept_operation rs key user wid command op digest sid run None = Ok (r, rs') ->
  sessions d !! sid = Some s -> agents d !! se_agent s = Some a ->
  se_workspace s = wid -> se_owner s = user -> a_owner a = user -> a_workspace a = wid ->
  se_status s = Active -> a_status a = Active ->
  (forall rid rn, run = Some (rid, rn) -> res_runs rs !! rid = Some rn /\ ri_session rn = sid /\
     ri_user rn = user /\ ri_workspace rn = wid) ->
  replay_operation d rs' user wid command op (Some digest') None =
    if bool_decide (digest' = digest) then Ok (Some r) else Err (HostedOperationError 409 "operation_conflict").
Proof.
  intros H Hs Ha <- <- Hao Haw Hss Has Hrun. unfold accept_operation in H. res_inv. bool_inv.
  unfold replay_operation. cbn [res_receipts].
  erewrite qs_first_unique; [|by apply lookup_insert_eq| |].
  - cbn [rc_session]. rewrite Hs, Ha. cbn -[bool_decide]. rewrite Hao, Haw, !Z.eqb_refl, Hss, Has.
    assert (Hr : match fst <$> run with
                 | Some run_id => match res_runs rs !! run_id with
                     | Some rn => bool_decide (Some (ri_turn rn) = ((fun kr => ri_turn kr.2) <$> run))
                        && bool_decide (ri_session rn = sid)
                        && (ri_user rn =? se_owner s) && bool_decide (ri_workspace rn = se_workspace s)
                     | None => false end
                 | None => true end = true).
    { destruct run as [[rid rn]|]; [|done]. destruct (Hrun _ _ eq_refl) as (Hl & Hr1 & Hr2 & Hr3).
      cbn -[bool_decide]. rewrite Hl, Hr1, Hr2, Hr3, Z.eqb_refl. by rewrite !bool_decide_eq_true_2. }
    rewrite Hr. rewrite !(bool_decide_eq_true_2 (se_workspace s = se_workspace s)), !(bool_decide_eq_true_2 (Active = Active)) by done.
    cbn -[bool_decide]. destruct (decide (digest' = digest)) as [->|Hne];
      [by rewrite !bool_decide_eq_true_2|by rewrite !bool_decide_eq_false_2].
  - unfold receipt_scope. cbn. by rewrite Z.eqb_refl, !bool_decide_eq_true_2.
  - intros k' r' [[<- _]|[_ Hk']]%lookup_insert_Some Hsc; [done|].
    match goal with H : map_Forall _ (res_receipts rs) |- _ => by rewrite (H _ _ Hk') in Hsc end.
Qed.

(** ** Confinement *)

Definition covers_session (d : db) (g : delegation_row) (sid : pystr) : Prop :=
  exists s a, sessions d !! sid = Some s /\ agents d !! se_agent s = Some a /\
    se_workspace s = dl_workspace g /\ se_owner s = dl_user g /\
    a_owner a = dl_user g /\ a_definition a = Some (dl_definition g).

Lemma require_delegated_session_Ok d g sid active s :
  require_delegated_session d g sid active = Ok s -> covers_session d g sid.
Proof.
  unfold require_delegated_session. intros H. walk H. bool_inv. unfold covers_session. eauto 10.
Qed.

Lemma when_some_Ok {A} (o : option A) f u : when_some o f = Ok u -> forall a, o = Some a -> f a = Ok tt.
Proof. destruct o; cbn; [|done]. intros H ? [= <-]. by destruct u. Qed.

(** An authorised delegated request stays inside its delegation: its workspace and assistant are
    the delegation's, and every session, run, receipt, artifact and citation it names belongs to a
    session of the delegating user with that assistant in that workspace. *)
Theorem delegated_request_confined d rs g v :
  authorize_delegated_request d rs g v = Ok tt ->
  (forall w, pv_workspace v = Some w -> w = dl_workspace g) /\
  (forall x, pv_definition v = Some x -> x = dl_definition g) /\
  (forall sid, pv_session v = Some sid -> sid <> "new" -> covers_session d g sid) /\
  (forall sid rid, pv_session v = Some sid -> pv_run v = Some rid ->
     exists run, res_runs rs !! rid = Some run /\ ri_session run = sid /\ ri_user run = dl_user g) /\
  (forall c op, pv_operation v = Some (c, op) ->
     exists k r, res_receipts rs !! k = Some r /\ rc_operation r = op /\ rc_user r = dl_user g /\
       covers_session d g (rc_session r)) /\
  (forall aid, pv_artifact v = Some aid ->
     exists ar, res_artifacts rs !! aid = Some ar /\ ar_created_by ar = dl_user g /\ covers_session d g (ar_session ar)) /\
  (forall cid, pv_citation v = Some cid ->
     exists ci, res_citations rs !! cid = Some ci /\ covers_session d g (ci_session ci)).
Proof.
  unfold authorize_delegated_request. intros H. res_inv.
  repeat match goal with H : when_some _ _ = Ok _ |- _ => pose proof (when_some_Ok _ _ _ H); clear H end.
  split_and!.
  - intros w Hw. match goal with H : forall a, pv_workspace v = _ -> _ |- _ => specialize (H _ Hw); cbv beta in H end. res_inv. by bool_inv.
  - intros w Hw. match goal with H : forall a, pv_definition v = _ -> _ |- _ => specialize (H _ Hw); cbv beta in H end. res_inv. by bool_inv.
  - intros sid Hsid Hnew. match goal with H : forall a, pv_session v = _ -> _ |- _ => specialize (H _ Hsid); cbv beta in H end.
    unfold authorize_session_path in *. rewrite bool_decide_eq_false_2 in * by done. res_inv.
    eauto using require_delegated_session_Ok.
  - intros sid rid Hsid Hrid. match goal with H : forall a, pv_session v = _ -> _ |- _ => specialize (H _ Hsid); cbv beta in H end.
    unfold authorize_session_path in *. rewrite Hrid in *. res_inv. case_match; [|done]. bool_inv. eauto.
  - intros c op Hop. match goal with H : forall a, pv_operation v = _ -> _ |- _ => specialize (H _ Hop); cbn in H end.
    destruct (qs_first _ _) as [[k r]|] eqn:E; [|done]. res_inv. apply qs_first_Some in E as [? E].
    unfold receipt_scope in E. bool_inv. eauto 10 using require_delegated_session_Ok.
  - intros aid Haid. match goal with H : forall a, pv_artifact v = _ -> _ |- _ => specialize (H _ Haid); cbv beta in H end.
    destruct (res_artifacts rs !! aid) as [ar|]; [|done]. destruct (_ =? _) eqn:E; [|done]. res_inv. bool_inv.
    eauto 10 using require_delegated_session_Ok.
  - intros cid Hcid. match goal with H : forall a, pv_citation v = _ -> _ |- _ => specialize (H _ Hcid); cbv beta in H end.
    destruct (res_citations rs !! cid) as [ci|]; [|done]. destruct (bool_decide _) eqn:E; [|done]. res_inv.
    eauto 10 using require_delegated_session_Ok.
Qed.
End delegation.

(** ** Witnesses *)

#[local] Existing Instance ascii_platform.

Definition secret43 : pystr := "abcdefghijklmnopqrstuvwxyz0123456789ABCDEFG".
Definition sample_grant : delegation_row :=
  Delegation 2 "app-1" "ws" "def-1" "mem-2" ISSUER AUDIENCE ["messages:submit"; "sessions:read"]
    ("sha256:" +:+ sha256_hex (code_points ("cwa_" +:+ secret43))) 1000 None 10.
Definition business_db : db :=
  Db (users invited_db) (workspaces invited_db) (memberships invited_db) (groups invited_db) (group_members invited_db)
    (sources invited_db) (grants invited_db) (invitations invited_db)
    {["def-1" := Definition_ "ws" DefinitionActive AvailableMembers (Some "ver-1")]} {[("def-1", "mem-2")]}
    {["agent-1" := Agent "ws" 2 (Some "def-1") "Helper" "" "" Active 5]}
    {["session-1" := Session "ws" 2 "agent-1" Active]}
    {["app-1" := App "CRM" AppActive 1 0]} ∅.
Definition delegated_db : db := set_delegations (fun _ => {["del-1" := sample_grant]}) business_db.

Lemma delegated_db_wf : wf delegated_db.
Proof. apply wf_check_sound. vm_compute. reflexivity. Qed.
Lemma business_db_wf : wf business_db.
Proof. apply wf_check_sound. vm_compute. reflexivity. Qed.

Lemma require_current_delegation_iff_witness :
  require_current_delegation delegated_db "del-1" (Some "messages:submit") 20 = Ok sample_grant /\
  (require_current_delegation delegated_db "del-1" (Some "messages:submit") 20 = Ok sample_grant <->
   delegations delegated_db !! "del-1" = Some sample_grant /\ delegation_current delegated_db 20 sample_grant /\
   "messages:submit" ∈ SCOPES /\ "messages:submit" ∈ dl_scopes sample_grant).
Proof.
  split; [vm_compute; reflexivity|].
  apply (require_current_delegation_iff delegated_db "del-1" "messages:submit" 20 sample_grant). exact delegated_db_wf.
Defined.

(** Bob is removed and invited again; the delegation of the old membership stays refused. *)
Lemma rejoin_does_not_revive_delegation_witness :
  let d' := delete_membership "mem-2" delegated_db in
  let qs := [CreateInvitation 1 "ws" "bob" AssignMember 30 "tok-2" "wsi-2" "https://ws.test/";
             AcceptInvitation (Some 2) "tok-2" None None (AcceptEnv 40 9 "mem-9" ["agent-9"])] in
  require_current_delegation (serve d' qs) "del-1" (Some "messages:submit") 50 =
    Err (DelegationRejected "delegation_not_available" 403).
Proof.
  apply (rejoin_does_not_revive_delegation delegated_db 1 "ws" "mem-2" _ _ _ sample_grant).
  - exact delegated_db_wf.
  - vm_compute. reflexivity.
  - apply List.Forall_cons; [exact (fun H => H)|]. apply List.Forall_cons; [intros H; discriminate H|]. apply List.Forall_nil.
  - vm_compute. reflexivity.
  - reflexivity.
  - by_decide.
Defined.

Lemma revocation_is_permanent_witness :
  let d := set_delegations (fun _ => {["del-1" := set_dl_revoked 15 sample_grant]}) delegated_db in
  require_current_delegation (foldl perform d [UpdateApp "app-1" false; RevokeDelegation 2 "del-1" 30]) "del-1"
    (Some "messages:submit") 40 = Err (DelegationRejected "delegation_not_available" 403).
Proof.
  apply (revocation_is_permanent _ "del-1" "app-1").
  - exists (set_dl_revoked 15 sample_grant). vm_compute. split; reflexivity.
  - left. exists (set_dl_revoked 15 sample_grant). vm_compute. split; [reflexivity|discriminate].
  - by_decide.
Defined.

Lemma issued_token_authenticates_witness :
  exists g d', issue_app_delegation business_db 2 (DelegationRequest "app-1" "ws" "def-1" ["sessions:read"; "events:read"] 600)
      secret43 "del-2" 100 = Ok (Issued "del-2" g ("cwa_" +:+ secret43), d') /\
    authenticate_delegation d' ("cwa_" +:+ secret43) "events:read" 650 = Ok g.
Proof.
  eexists _, _. split; [vm_compute; reflexivity|].
  eapply (issued_token_authenticates business_db 2
            (DelegationRequest "app-1" "ws" "def-1" ["sessions:read"; "events:read"] 600) secret43 "del-2" 100);
    [exact business_db_wf|vm_compute; reflexivity|vm_compute; reflexivity|vm_compute; reflexivity|by_decide|cbn; lia].
Defined.

Definition sample_resources : resources :=
  Resources {["run-1" := RunIdentity 2 "ws" "session-1" "turn-1" None None]} ∅ {["art-1" := ArtifactRef 2 "session-1"]} ∅ ∅.

Lemma accepted_operation_replays_witness :
  exists r rs', accept_operation sample_resources 1 2 "ws" "submitMessage" "op-1" "d1" "session-1"
      (Some ("run-1", RunIdentity 2 "ws" "session-1" "turn-1" None None)) None = Ok (r, rs') /\
    replay_operation delegated_db rs' 2 "ws" "submitMessage" "op-1" (Some "d2") None =
      (if bool_decide ("d2" = "d1") then Ok (Some r) else Err (HostedOperationError 409 "operation_conflict")).
Proof.
  eexists _, _. split; [vm_compute; reflexivity|].
  eapply (accepted_operation_replays delegated_db sample_resources 1 2 "ws" "submitMessage" "op-1" "d1" "session-1"
            (Some ("run-1", RunIdentity 2 "ws" "session-1" "turn-1" None None)));
    try (vm_compute; reflexivity).
  intros rid rn [= <- <-]. vm_compute. repeat split; reflexivity.
Defined.

Lemma delegated_request_confined_witness :
  let v := PathValues (Some "ws") None (Some "agent-1") (Some "session-1") (Some "run-1") None (Some "art-1") None None None false in
  authorize_delegated_request delegated_db sample_resources sample_grant v = Ok tt /\
  covers_session delegated_db sample_grant "session-1".
Proof.
  intros v. assert (E : authorize_delegated_request delegated_db sample_resources sample_grant v = Ok tt)
    by (vm_compute; reflexivity).
  split; [exact E|].
  exact (proj1 (proj2 (proj2 (delegated_request_confined _ _ _ _ E))) "session-1" eq_refl ltac:(discriminate)).
Defined.
