(* ===== verification/Lifecycle.v ===== *)
(** * Agent run lifecycle

    The projection of committed Session events onto runs
    ([packages/api/app_core/session_event.py]) and the lifecycle endpoints of
    [packages/api/app_core/http/internal.py]: queue expiry, transition, dead-lettering, the
    paged scan and the reconciler.  Times are microseconds.  Calls to the runtime service are
    arguments: their outcome is what the service answered. *)

From stdpp Require Import base tactics list gmap numbers sorting.
From S2P Require Import Prelude PyStr Table.

Inductive run_status := Queued | Running | Completed | Failed | Cancelled.
#[global] Instance run_status_eq_dec : EqDecision run_status.
Proof. solve_decision. Defined.

Record run_row := Run {
  r_workspace : pystr; r_session : pystr; r_status : run_status; r_reason : pystr;
  r_started : option Z; r_completed : option Z; r_pre_admission_cancelled : option Z; r_created : Z }.

Record citation_row := Citation {
  ct_run : pystr; ct_sequence : Z; ct_input_ref : pystr; ct_display_name : pystr; ct_tool_call : pystr }.

Record event_row := Event {
  ev_workspace : pystr; ev_session : pystr; ev_run : pystr; ev_sequence : Z;
  (** null for session-level facts *)
  ev_run_sequence : option Z; ev_session_level : bool; ev_type : pystr; ev_created_ms : Z;
  (** citationId, inputRef, displayName and sourceToolCallId of a [citation_recorded] payload *)
  ev_citation : option (pystr * pystr * pystr * pystr) }.

Record store := Store {
  st_runs : gmap pystr run_row;
  st_events : gmap pystr event_row;
  (** sessions with [isUnread] set *)
  st_unread : gset pystr;
  st_citations : gmap pystr citation_row }.

Inductive lexn := LValueError (message : pystr) | LDoesNotExist | LRuntimeError (message : pystr) | LIntegrityError | LKeyError.
#[global] Instance lexn_eq_dec : EqDecision lexn.
Proof. solve_decision. Defined.

(** ** Committed events *)

(** [TERMINAL_STATES.get(type)] *)
Definition TERMINAL_STATES (type : pystr) : option run_status :=
  if bool_decide (type = "agent_run_completed") then Some Completed
  else if bool_decide (type = "agent_run_failed") then Some Failed
  else if bool_decide (type = "agent_run_interrupted") then Some Cancelled
  else None.

Definition is_run_record (run_id : pystr) (r : run_row) (e : event_row) : bool :=
  bool_decide (ev_workspace e = r_workspace r) && bool_decide (ev_session e = r_session r)
  && bool_decide (ev_run e = run_id) && negb (ev_session_level e).
Definition _run_records (st : store) (run_id : pystr) (r : run_row) : list event_row :=
  map snd (qs_list (is_run_record run_id r) (st_events st)).

Definition run_seq (e : event_row) : Z := default 0 (ev_run_sequence e).
Definition seq_le (e1 e2 : event_row) : Prop := run_seq e1 <= run_seq e2.
#[global] Instance seq_le_dec : RelDecision seq_le.
Proof. intros e1 e2. unfold seq_le. apply _. Defined.
Definition seq_ge (e1 e2 : event_row) : Prop := run_seq e2 <= run_seq e1.
#[global] Instance seq_ge_dec : RelDecision seq_ge.
Proof. intros e1 e2. unfold seq_ge. apply _. Defined.

Definition _committed_events (st : store) (run_id : pystr) (r : run_row) : list event_row :=
  merge_sort seq_le (_run_records st run_id r).

Definition committed_session_terminal_state (st : store) (run_id : pystr) (r : run_row) : option run_status :=
  match head (merge_sort seq_ge (_run_records st run_id r)) with
  | None => if bool_decide (is_Some (r_pre_admission_cancelled r)) then Some Cancelled else None
  | Some e => TERMINAL_STATES (ev_type e)
  end.

(** ** Updates of a run *)

Definition set_run (run_id : pystr) (r : run_row) (st : store) : store :=
  Store (<[run_id := r]> (st_runs st)) (st_events st) (st_unread st) (st_citations st).
Definition set_reason (reason : pystr) (r : run_row) : run_row :=
  Run (r_workspace r) (r_session r) (r_status r) reason (r_started r) (r_completed r)
    (r_pre_admission_cancelled r) (r_created r).
Definition set_terminal (s : run_status) (started completed : option Z) (r : run_row) : run_row :=
  Run (r_workspace r) (r_session r) s (r_reason r) started completed (r_pre_admission_cancelled r) (r_created r).
Definition get_run (st : store) (run_id : pystr) : res lexn run_row :=
  from_option_res LDoesNotExist (st_runs st !! run_id).

(** [datetime.fromtimestamp(ms / 1000)] *)
Definition ms_to_time (ms : Z) : Z := ms * 1000.

Section lifecycle.
(** [citation_projections(agent_run, through_sequence)] of [material_receipts.py]: the material
    citations of a run, by id. *)
Context (material_citations : pystr -> option Z -> gmap pystr citation_row).

Definition record_citation (run_id : pystr) (through : option Z) (acc : gmap pystr citation_row) (e : event_row)
  : res lexn (gmap pystr citation_row) :=
  if match through with Some t => t <? ev_sequence e | None => false end then Ok acc
  else if negb (bool_decide (ev_type e = "citation_recorded")) then Ok acc
  else match ev_citation e with
       | Some (cid, input_ref, display_name, call) =>
           Ok (<[cid := Citation run_id (ev_sequence e) input_ref display_name call]> acc)
       | None => Err LKeyError
       end.

Definition rebuild_agent_run_citation_projection (st : store) (run_id : pystr) (through : option Z)
  : res lexn (gmap pystr citation_row * store) :=
  r ← get_run st run_id;
  recorded ← for_each (record_citation run_id through) (_committed_events st run_id r) ∅;
  let material := material_citations run_id through in
  require (bool_decide (dom recorded ## dom material)) (LValueError "material citation identity conflict");;
  let citations := recorded ∪ material in
  let others := filter (fun kc => ct_run kc.2 <> run_id) (st_citations st) in
  require (bool_decide (dom citations ## dom others)) LIntegrityError;;
  Ok (citations, Store (st_runs st) (st_events st) (st_unread st) (citations ∪ others)).

Definition project_committed_agent_run (st : store) (run_id : pystr) (expected : option run_status)
  : res lexn (run_row * store) :=
  r ← get_run st run_id;
  let events := _committed_events st run_id r in
  match head events, last events with
  | Some first, Some final =>
      match TERMINAL_STATES (ev_type final) with
      | None => Ok (r, st)
      | Some s =>
          require match expected with Some x => bool_decide (s = x) | None => true end
            (LValueError "runtime and Session terminal states mismatch");;
          rebuilt ← rebuild_agent_run_citation_projection st run_id None;
          let st1 := rebuilt.2 in
          let st2 := if existsb (fun e => bool_decide (ev_type e = "assistant_message")) events
                     then Store (st_runs st1) (st_events st1) ({[r_session r]} ∪ st_unread st1) (st_citations st1)
                     else st1 in
          let r' := set_terminal s (Some (ms_to_time (ev_created_ms first)))
                      (Some (ms_to_time (ev_created_ms final))) r in
          Ok (r', set_run run_id r' st2)
      end
  | _, _ =>
      match r_pre_admission_cancelled r with
      | None => Ok (r, st)
      | Some at_ =>
          require match expected with Some x => bool_decide (x = Cancelled) | None => true end
            (LValueError "runtime and pre-admission terminal states mismatch");;
          let r' := set_terminal Cancelled None (Some at_) r in
          Ok (r', set_run run_id r' st)
      end
  end.

(** ** Queue expiry, dead letters and transitions *)

Definition AGENT_RUN_LIFECYCLE_RECONCILE_LIMIT : Z := 100.
Definition AGENT_RUN_LIFECYCLE_DEAD_LETTER_REASON : pystr := "agent_run_lifecycle_dead_lettered".

(** Settings and the answer of [request_agent_run_cancellation]. *)
Context (EXECUTION_QUEUE_WAIT_SECONDS : Z).

Definition _expire_queued_run_locked (st : store) (run_id : pystr) (r : run_row) (now : Z) (cancel_ok : bool)
  : res lexn (bool * run_row * store) :=
  if negb (bool_decide (r_status r = Queued)) || bool_decide (is_Some (r_started r))
     || (now - r_created r <? EXECUTION_QUEUE_WAIT_SECONDS * 1000000)
  then Ok (false, r, st)
  else
    require cancel_ok (LRuntimeError "runtime_agent_run_cancel_failed");;
    let r' := set_reason "execution_queue_expired" r in
    Ok (true, r', set_run run_id r' st).

Definition is_terminal (s : run_status) : bool :=
  match s with Completed | Failed | Cancelled => true | Queued | Running => false end.

Definition _fail_agent_run_lifecycle (st : store) (run_id : pystr) (now : Z) : res lexn (run_row * store) :=
  r ← get_run st run_id;
  let mark_failed :=
    if bool_decide (r_status r = Failed) then Ok (r, st)
    else
      let r' := set_reason AGENT_RUN_LIFECYCLE_DEAD_LETTER_REASON (set_terminal Failed (r_started r) (Some now) r) in
      Ok (r', set_run run_id r' st) in
  if bool_decide (r_status r = Completed) || bool_decide (r_status r = Cancelled)
     || (bool_decide (r_status r = Failed) && negb (bool_decide (r_reason r = AGENT_RUN_LIFECYCLE_DEAD_LETTER_REASON)))
  then Ok (r, st)
  else
    match committed_session_terminal_state st run_id r with
    | None => mark_failed
    | Some _ =>
        p ← project_committed_agent_run st run_id None;
        let '(projected, st') := p in
        if is_terminal (r_status projected) then
          let projected :=
            if bool_decide (r_pre_admission_cancelled projected = None) then
              set_reason "runtime_session_terminal_committed" projected
            else if negb (bool_decide (r_reason projected = "execution_queue_expired")) then
              set_reason "agent_run_cancelled" projected
            else projected in
          Ok (projected, set_run run_id projected st')
        else mark_failed
    end.

Inductive transition_response :=
| Transitioned (run_id : pystr) (state : run_status)
| TransitionConflict | SemanticTerminalMissing | ExpiryUnavailable | RunNotFound | TransitionInvalid (message : pystr).

(** The body of [transition_agent_run] inside its transaction; [cancel_ok] is the runtime's answer
    when the queue entry has expired. *)
Definition transition_locked (st : store) (run_id : pystr) (state : run_status) (reason : pystr) (now : Z)
    (cancel_ok : bool) : res lexn (transition_response * store) :=
  r ← get_run st run_id;
  match (if bool_decide (state = Running) && bool_decide (r_status r = Queued) then
           match _expire_queued_run_locked st run_id r now cancel_ok with
           | Ok (_, r, st) => Some (r, st)
           | Err _ => None
           end
         else Some (r, st)) with
  | None => Ok (ExpiryUnavailable, st)
  | Some (r, st) =>
      let reason := if bool_decide (r_reason r = "execution_queue_expired") then "execution_queue_expired" else reason in
      if bool_decide (state = Running) then
        if bool_decide (r_status r = Running) then
          Ok (Transitioned run_id Running, set_run run_id (set_reason reason r) st)
        else if negb (bool_decide (r_status r = Queued)) then Ok (TransitionConflict, st)
        else
          let r' := set_reason reason (set_terminal Running (Some now) (r_completed r) r) in
          Ok (Transitioned run_id Running, set_run run_id r' st)
      else if bool_decide (state = Failed) && bool_decide (reason = AGENT_RUN_LIFECYCLE_DEAD_LETTER_REASON) then
        p ← _fail_agent_run_lifecycle st run_id now;
        Ok (Transitioned run_id (r_status p.1), p.2)
      else
        p ← project_committed_agent_run st run_id (Some state);
        if negb (bool_decide (r_status p.1 = state)) then Ok (SemanticTerminalMissing, p.2)
        else
          let r' := set_reason reason p.1 in
          Ok (Transitioned run_id (r_status r'), set_run run_id r' p.2)
  end.

(** The endpoint; a [ValueError] or a missing run rolls back. *)
Definition transition_agent_run (st : store) (run_id : pystr) (state : run_status) (reason : pystr) (now : Z)
    (cancel_ok : bool) : transition_response * store :=
  if is_empty run_id || is_empty reason || bool_decide (state = Queued) then (TransitionInvalid "transition_invalid", st)
  else
    match transition_locked st run_id state reason now cancel_ok with
    | Ok p => p
    | Err LDoesNotExist => (RunNotFound, st)
    | Err (LValueError message) => (TransitionInvalid message, st)
    | Err _ => (TransitionInvalid "internal_error", st)
    end.

(** ** The paged scan *)

(** [order_by("createdAt", "id")] *)
Definition scan_ltb (x y : Z * pystr) : bool := (x.1 <? y.1) || ((x.1 =? y.1) && str_ltb x.2 y.2).
Definition scan_le (x y : Z * pystr) : Prop := scan_ltb y x = false.
#[global] Instance scan_le_dec : RelDecision scan_le.
Proof. intros x y. unfold scan_le. apply _. Defined.
Definition scan_key (row : pystr * run_row) : Z * pystr := (r_created row.2, row.1).
Definition row_scan_le (x y : pystr * run_row) : Prop := scan_le (scan_key x) (scan_key y).
#[global] Instance row_scan_le_dec : RelDecision row_scan_le.
Proof. intros x y. unfold row_scan_le. apply _. Defined.

Definition _lifecycle_scan_page (rows : list (pystr * run_row)) (after : option (Z * pystr)) (limit : nat)
  : list (pystr * run_row) * option (Z * pystr) :=
  let selected := match after with
                  | None => rows
                  | Some cursor => filter (fun row => scan_ltb cursor (scan_key row) = true) rows
                  end in
  let fetched := take (S limit) (merge_sort row_scan_le selected) in
  let page := take limit fetched in
  (page, if (limit <? length fetched)%nat then scan_key <$> last page else None).

(** ** The reconciler *)

(** What the runtime answered for a run during a reconciliation. *)
Record runtime_answers := Answers {
  (** [get_runtime_job]: [None] when the call raised, else the job's status if there is a job *)
  an_job : pystr -> option (option pystr);
  an_schedule_ok : pystr -> bool;
  an_cancel_ok : pystr -> bool }.

Inductive reconciled := Scheduled | Terminalized | Skipped.

(** One iteration; [r] is the row as the scan loaded it. *)
Definition reconcile_one (an : runtime_answers) (now : Z) (st : store) (run_id : pystr) (r : run_row)
  : res lexn (reconciled * store) :=
  if bool_decide (r_status r = Failed) then
    match committed_session_terminal_state st run_id r with
    | None => Ok (Skipped, st)
    | Some _ =>
        p ← project_committed_agent_run st run_id None;
        Ok (Terminalized, set_run run_id (set_reason "runtime_session_terminal_committed" p.1) p.2)
    end
  else
    job ← from_option_res (LRuntimeError "runtime_job_unavailable") (an_job an run_id);
    if bool_decide (job = Some "failed") || bool_decide (job = Some "dead_lettered") then
      p ← _fail_agent_run_lifecycle st run_id now;
      Ok (Terminalized, p.2)
    else if bool_decide (job = Some "succeeded") then
      p ← project_committed_agent_run st run_id None;
      require (is_terminal (r_status p.1))
        (LRuntimeError "agent_run_lifecycle_completed_without_session_terminal");;
      Ok (Terminalized, p.2)
    else
      require (an_schedule_ok an run_id) (LRuntimeError "runtime_schedule_failed");;
      if bool_decide (r_status r = Queued) then
        current ← get_run st run_id;
        e ← _expire_queued_run_locked st run_id current now (an_cancel_ok an run_id);
        Ok (Scheduled, e.2)
      else Ok (Scheduled, st).

(** [.filter(id=..., status__in={queued, running}).exclude(transitionReason=...).update(...)] *)
Definition mark_pending (run_id : pystr) (st : store) : store :=
  match st_runs st !! run_id with
  | Some r =>
      if (bool_decide (r_status r = Queued) || bool_decide (r_status r = Running))
         && negb (bool_decide (r_reason r = "execution_queue_expired"))
      then set_run run_id (set_reason "agent_run_lifecycle_reconcile_pending" r) st
      else st
  | None => st
  end.

Record reconcile_counts := Counts { n_scheduled : Z; n_terminalized : Z; n_pending : Z }.

Definition reconcile_step (an : runtime_answers) (now : Z) (acc : reconcile_counts * store) (row : pystr * run_row)
  : reconcile_counts * store :=
  let '(Counts s t p, st) := acc in
  match reconcile_one an now st row.1 row.2 with
  | Ok (Scheduled, st') => (Counts (s + 1) t p, st')
  | Ok (Terminalized, st') => (Counts s (t + 1) p, st')
  | Ok (Skipped, st') => (Counts s t p, st')
  | Err _ => (Counts s t (p + 1), mark_pending row.1 st)
  end.

Definition active_rows (st : store) : list (pystr * run_row) :=
  qs_list (fun r => bool_decide (r_status r = Queued) || bool_decide (r_status r = Running)) (st_runs st).

(** failed runs with the dead-letter reason and a terminal event *)
Definition dead_letter_rows (st : store) : list (pystr * run_row) :=
  filter (fun row => qs_exists (fun e => bool_decide (ev_run e = row.1)
                       && bool_decide (is_Some (TERMINAL_STATES (ev_type e)))) (st_events st) = true)
    (qs_list (fun r => bool_decide (r_status r = Failed)
                       && bool_decide (r_reason r = AGENT_RUN_LIFECYCLE_DEAD_LETTER_REASON)) (st_runs st)).

Record reconcile_result := Reconciled {
  rec_counts : reconcile_counts; rec_active_next : option (Z * pystr); rec_dead_letter_next : option (Z * pystr) }.

Definition reconcile_agent_run_lifecycle (an : runtime_answers) (now : Z) (st : store)
    (active_after dead_letter_after : option (Z * pystr)) (limit : nat) : reconcile_result * store :=
  let '(active, active_next) := _lifecycle_scan_page (active_rows st) active_after limit in
  let '(dead, dead_next) := _lifecycle_scan_page (dead_letter_rows st) dead_letter_after limit in
  let '(counts, st') := foldl (reconcile_step an now) (Counts 0 0 0, st) (dead ++ active) in
  (Reconciled counts active_next dead_next, st').
End lifecycle.
