(* ===== verification/LifecycleProps.v ===== *)
(** * Correctness of the run lifecycle

    A run is shown completed or cancelled only when the committed Session log says so, those
    states are final, dead-lettered runs are repaired once the log has a terminal event, and the
    paged scan visits every row exactly once. *)

From stdpp Require Import base tactics list gmap numbers sorting.
From S2P Require Import Prelude PyStr Table Lifecycle.

(** ** Order lemmas *)

#[global] Instance seq_le_total : Total seq_le.
Proof. intros x y. unfold seq_le. lia. Qed.
#[global] Instance seq_ge_total : Total seq_ge.
Proof. intros x y. unfold seq_ge. lia. Qed.
#[global] Instance seq_le_trans : Transitive seq_le.
Proof. intros x y z. unfold seq_le. lia. Qed.
#[global] Instance seq_ge_trans : Transitive seq_ge.
Proof. intros x y z. unfold seq_ge. lia. Qed.

(** The first element of a sorted list is a least one. *)
Lemma sorted_head_min {A} (R : relation A) `{!Transitive R, !Reflexive R} (x : A) l y :
  Sorted R (x :: l) -> y ∈ x :: l -> R x y.
Proof.
  intros Hs%Sorted_StronglySorted; [|done]. apply StronglySorted_inv in Hs as [_ Hs].
  intros [->|Hy]%elem_of_cons; [done|]. rewrite Forall_forall in Hs. by apply Hs.
Qed.

Lemma sorted_last_max {A} (R : relation A) `{!Transitive R, !Reflexive R} (l : list A) x y :
  Sorted R l -> last l = Some x -> y ∈ l -> R y x.
Proof.
  intros Hs%Sorted_StronglySorted; [|done]. induction Hs as [|a l Hs IH Hall]; [done|].
  destruct l as [|b l].
  - cbn. intros [= <-] Hy. apply elem_of_cons in Hy as [->|Hy%not_elem_of_nil]; [done|easy].
  - rewrite last_cons_cons. intros Hl [->|Hy]%elem_of_cons; [|by apply IH].
    rewrite Forall_forall in Hall. apply Hall. by apply last_Some_elem_of in Hl || (apply last_Some in Hl as [l' ->]; set_solver).
Qed.

#[global] Instance seq_le_refl : Reflexive seq_le.
Proof. intros x. unfold seq_le. lia. Qed.
#[global] Instance seq_ge_refl : Reflexive seq_ge.
Proof. intros x. unfold seq_ge. lia. Qed.

(** [unique_session_event_agent_run_sequence] *)
Definition seqs_unique (st : store) : Prop :=
  forall k1 e1 k2 e2, st_events st !! k1 = Some e1 -> st_events st !! k2 = Some e2 ->
    ev_session_level e1 = false -> ev_session_level e2 = false ->
    ev_run e1 = ev_run e2 -> run_seq e1 = run_seq e2 -> k1 = k2.

Lemma elem_of_run_records st id r e :
  e ∈ _run_records st id r <-> exists k, st_events st !! k = Some e /\ is_run_record id r e = true.
Proof.
  unfold _run_records. rewrite list_elem_of_In, in_map_iff. split.
  - intros ([k e'] & <- & Hin). rewrite <- list_elem_of_In in Hin. apply elem_of_qs_list in Hin. eauto.
  - intros (k & Hk & He). exists (k, e). split; [done|]. rewrite <- list_elem_of_In. by apply elem_of_qs_list.
Qed.

Lemma is_run_record_spec id r e :
  is_run_record id r e = true <->
  ev_workspace e = r_workspace r /\ ev_session e = r_session r /\ ev_run e = id /\ ev_session_level e = false.
Proof. unfold is_run_record. rewrite !andb_true_iff, !bool_decide_eq_true, negb_true_iff. tauto. Qed.

(** Reading the log from its end: the descending query and the last row of the ascending one
    agree, because run sequences are unique. *)
Lemma latest_event st id r :
  seqs_unique st ->
  head (merge_sort seq_ge (_run_records st id r)) = last (_committed_events st id r).
Proof.
  intros Hu. unfold _committed_events. set (L := _run_records st id r).
  destruct (merge_sort seq_ge L) as [|e l] eqn:Hg.
  - assert (L = []) as ->; [|done]. apply Permutation_nil_r. by rewrite <- (merge_sort_Permutation seq_ge L), Hg.
  - cbn [head]. destruct (last (merge_sort seq_le L)) as [e'|] eqn:Hl.
    2:{ apply last_None in Hl. exfalso.
        assert (L = []) as HL by (apply Permutation_nil_r; by rewrite <- (merge_sort_Permutation seq_le L), Hl).
        by rewrite HL in Hg. }
    assert (He : e ∈ L) by (rewrite <- (merge_sort_Permutation seq_ge L), Hg; by left).
    assert (He' : e' ∈ L).
    { rewrite <- (merge_sort_Permutation seq_le L). apply last_Some in Hl as [l' ->]. set_solver. }
    assert (H1 : seq_ge e e').
    { eapply sorted_head_min; [apply _|apply _| |].
      - rewrite <- Hg. apply Sorted_merge_sort. apply _.
      - rewrite <- Hg. by rewrite merge_sort_Permutation. }
    assert (H2 : seq_le e e').
    { eapply sorted_last_max; [apply _|apply _| |done|].
      - apply Sorted_merge_sort. apply _.
      - by rewrite merge_sort_Permutation. }
    unfold seq_ge, seq_le in *.
    apply elem_of_run_records in He as (k & Hk & (_ & _ & Hr & Hs)%is_run_record_spec).
    apply elem_of_run_records in He' as (k' & Hk' & (_ & _ & Hr' & Hs')%is_run_record_spec).
    assert (k = k') as -> by (eapply Hu; eauto; [congruence|lia]). congruence.
Qed.

Lemma terminal_state_last st id r :
  seqs_unique st ->
  committed_session_terminal_state st id r =
  match last (_committed_events st id r) with
  | None => if bool_decide (is_Some (r_pre_admission_cancelled r)) then Some Cancelled else None
  | Some e => TERMINAL_STATES (ev_type e)
  end.
Proof. intros Hu. unfold committed_session_terminal_state. by rewrite latest_event. Qed.

Lemma terminal_states_terminal t s : TERMINAL_STATES t = Some s -> is_terminal s = true.
Proof. unfold TERMINAL_STATES. repeat case_match; intros [= <-]; done. Qed.

Lemma committed_terminal st id r s : committed_session_terminal_state st id r = Some s -> is_terminal s = true.
Proof.
  unfold committed_session_terminal_state. case_match; [apply terminal_states_terminal|].
  case_match; [|done]. by intros [= <-].
Qed.

Section lifecycle.
Context (material_citations : pystr -> option Z -> gmap pystr citation_row) (wait : Z).

Lemma rebuild_frame st id through p :
  rebuild_agent_run_citation_projection material_citations st id through = Ok p ->
  st_runs p.2 = st_runs st /\ st_events p.2 = st_events st.
Proof. unfold rebuild_agent_run_citation_projection. intros. by res_inv. Qed.

Lemma head_last_nil {A} (l : list A) : head l = None <-> last l = None.
Proof. rewrite last_None. destruct l; naive_solver. Qed.

(** The projection writes exactly the committed terminal state, and nothing when there is none. *)
Lemma project_spec st id r expected r' st' :
  seqs_unique st -> st_runs st !! id = Some r ->
  project_committed_agent_run material_citations st id expected = Ok (r', st') ->
  st_events st' = st_events st /\
  match committed_session_terminal_state st id r with
  | None => r' = r /\ st' = st
  | Some s => (exists started completed, r' = set_terminal s started completed r) /\
      st_runs st' = <[id := r']> (st_runs st) /\ (forall x, expected = Some x -> x = s)
  end.
Proof.
  intros Hu Hr H. rewrite terminal_state_last by done. unfold project_committed_agent_run, get_run in H.
  rewrite Hr in H. cbn [from_option_res mbind res_bind] in H.
  destruct (last (_committed_events st id r)) as [final|] eqn:Hl.
  - destruct (head (_committed_events st id r)) as [first|] eqn:Hh.
    2:{ apply head_last_nil in Hh. congruence. }
    destruct (TERMINAL_STATES (ev_type final)) as [s|] eqn:Ht; [|by simplify_eq].
    res_inv. match goal with H : rebuild_agent_run_citation_projection _ _ _ _ = _ |- _ =>
      apply rebuild_frame in H as [Hr1 He1] end.
    split; [destruct (existsb _ _); done|]. split; [eauto|]. split.
    + destruct (existsb _ _); cbn; by rewrite Hr1.
    + intros ? ->. by bool_inv.
  - rewrite (proj2 (head_last_nil _) Hl) in H.
    destruct (r_pre_admission_cancelled r) as [at_|] eqn:Hp; [|by simplify_eq].
    rewrite bool_decide_eq_true_2 by eauto. res_inv. split; [done|]. split; [eauto|]. split; [done|].
    intros ? ->. by bool_inv.
Qed.

(** ** What an API step may do to the runs *)

(** The API may change a run's status only to the committed terminal state, or move an unfinished
    run to running or failed.  A run that is still queued was queued before, and is not started in between. *)
Definition allowed (st : store) (id : pystr) (r r' : run_row) : Prop :=
  r_workspace r' = r_workspace r /\ r_session r' = r_session r /\
  r_pre_admission_cancelled r' = r_pre_admission_cancelled r /\
  (r_status r' = r_status r \/ committed_session_terminal_state st id r = Some (r_status r') \/
   (is_terminal (r_status r) = false /\ (r_status r' = Running \/ r_status r' = Failed))) /\
  (r_status r' = Queued -> r_status r = Queued /\ r_started r' = r_started r).

Definition api_rel (st st' : store) : Prop :=
  st_events st' = st_events st /\
  forall id, match st_runs st !! id, st_runs st' !! id with
             | Some r, Some r' => allowed st id r r'
             | None, None => True
             | _, _ => False
             end.

Lemma committed_same st st' id r r' :
  st_events st' = st_events st -> r_workspace r' = r_workspace r -> r_session r' = r_session r ->
  r_pre_admission_cancelled r' = r_pre_admission_cancelled r ->
  committed_session_terminal_state st' id r' = committed_session_terminal_state st id r.
Proof.
  intros He Hw Hs Hp. unfold committed_session_terminal_state, _run_records, is_run_record.
  by rewrite He, Hw, Hs, Hp.
Qed.

Lemma api_refl st : api_rel st st.
Proof. split; [done|]. intros id. destruct (st_runs st !! id); [|done]. unfold allowed. split_and!; auto. Qed.

Lemma api_trans st1 st2 st3 : api_rel st1 st2 -> api_rel st2 st3 -> api_rel st1 st3.
Proof.
  intros [He1 H1] [He2 H2]. split; [congruence|]. intros id. specialize (H1 id). specialize (H2 id).
  destruct (st_runs st1 !! id) as [r1|], (st_runs st2 !! id) as [r2|], (st_runs st3 !! id) as [r3|]; try done.
  destruct H1 as (Hw1 & Hs1 & Hp1 & Ha1 & Hq1), H2 as (Hw2 & Hs2 & Hp2 & Ha2 & Hq2).
  rewrite (committed_same st1 st2 id r1 r2) in Ha2 by done.
  unfold allowed. split_and!; [congruence..| |intros Hq; destruct (Hq2 Hq) as [Hq' ->]; by apply Hq1].
  destruct Ha2 as [E2|[E2|[T2 E2]]]; [rewrite E2; done|by right; left|].
  destruct Ha1 as [E1|[E1|[T1 E1]]].
  - rewrite E1 in T2. auto.
  - apply committed_terminal in E1. congruence.
  - auto.
Qed.

Lemma api_set_run st id r r' :
  st_runs st !! id = Some r -> allowed st id r r' -> api_rel st (set_run id r' st).
Proof.
  intros Hr Ha. split; [done|]. intros id'. cbn. destruct (decide (id = id')) as [<-|Hne].
  - rewrite Hr, lookup_insert_eq. done.
  - rewrite lookup_insert_ne by done. destruct (st_runs st !! id'); [|done]. unfold allowed. split_and!; auto.
Qed.

Lemma allowed_reason st id r reason : allowed st id r (set_reason reason r).
Proof. unfold allowed. split_and!; auto. Qed.

Lemma api_same_runs st st' st'' :
  api_rel st st' -> st_events st'' = st_events st' -> st_runs st'' = st_runs st' -> api_rel st st''.
Proof. intros [He H] He' Hr'. split; [congruence|]. by rewrite Hr'. Qed.

Lemma project_api st id expected r' st' :
  seqs_unique st -> project_committed_agent_run material_citations st id expected = Ok (r', st') ->
  api_rel st st' /\ st_runs st' !! id = Some r'.
Proof.
  intros Hu H. assert (exists r, st_runs st !! id = Some r) as [r Hr].
  { unfold project_committed_agent_run, get_run in H. res_inv. eauto. }
  destruct (project_spec _ _ _ _ _ _ Hu Hr H) as [He Hp].
  destruct (committed_session_terminal_state st id r) as [s|] eqn:Hc.
  - destruct Hp as ((started & completed & ->) & Hruns & _). split; [|by rewrite Hruns, lookup_insert_eq].
    eapply api_same_runs; [eapply (api_set_run st id r (set_terminal s started completed r)); [done|]|done|done].
    unfold allowed. cbn. split_and!; auto. intros ->. by apply committed_terminal in Hc.
  - destruct Hp as [-> ->]. split; [apply api_refl|done].
Qed.

Lemma seqs_unique_api st st' : api_rel st st' -> seqs_unique st -> seqs_unique st'.
Proof. intros [He _]. unfold seqs_unique. by rewrite He. Qed.

Lemma expire_api st id r now ok b r' st' :
  st_runs st !! id = Some r -> _expire_queued_run_locked wait st id r now ok = Ok (b, r', st') ->
  api_rel st st' /\ st_runs st' !! id = Some r' /\ r_status r' = r_status r.
Proof.
  intros Hr H. unfold _expire_queued_run_locked in H. walk H; [by auto using api_refl|].
  split; [|split; [by apply lookup_insert_eq|done]]. eapply api_set_run; eauto using allowed_reason.
Qed.

Lemma set_reason_api st st' id r reason :
  api_rel st st' -> st_runs st' !! id = Some r -> api_rel st (set_run id (set_reason reason r) st').
Proof. intros Ha Hr. eapply api_trans; [done|]. eapply api_set_run; eauto using allowed_reason. Qed.

Lemma fail_api st id now r' st' :
  seqs_unique st -> _fail_agent_run_lifecycle material_citations st id now = Ok (r', st') -> api_rel st st'.
Proof.
  intros Hu H. unfold _fail_agent_run_lifecycle, get_run in H. apply bind_Ok in H as (r & Hr & H).
  apply from_option_res_Ok in Hr. cbv zeta in H.
  assert (Hmark : forall r1 st1, (if bool_decide (r_status r = Failed) then Ok (r, st)
      else Ok (set_reason AGENT_RUN_LIFECYCLE_DEAD_LETTER_REASON (set_terminal Failed (r_started r) (Some now) r),
        set_run id (set_reason AGENT_RUN_LIFECYCLE_DEAD_LETTER_REASON (set_terminal Failed (r_started r) (Some now) r)) st))
      = Ok (E := lexn) (r1, st1) ->
    bool_decide (r_status r = Completed) || bool_decide (r_status r = Cancelled) = false -> api_rel st st1).
  { intros r1 st1 H1 Hno. bool_inv. destruct (bool_decide (r_status r = Failed)) eqn:Hf; simplify_eq; [apply api_refl|].
    bool_inv. eapply api_set_run; [done|]. unfold allowed. cbn. split_and!; try done. right. right.
    destruct (r_status r); naive_solver. }
  destruct (_ || _) eqn:Hg in H; [simplify_eq; apply api_refl|]. apply orb_false_elim in Hg as [Hg _].
  destruct (committed_session_terminal_state st id r); [|by eapply Hmark].
  apply bind_Ok in H as ([projected st1] & Hp & H). apply project_api in Hp as [Hp Hl]; [|done].
  destruct (is_terminal (r_status projected)); [|by eapply Hmark].
  simplify_eq. destruct (bool_decide (r_pre_admission_cancelled projected = None)); [by apply set_reason_api|].
  destruct (negb (bool_decide (r_reason projected = _))); [by apply set_reason_api|]. eapply api_trans; [done|].
  eapply api_set_run; [done|]. unfold allowed. split_and!; auto.
Qed.

Lemma transition_locked_api st id state reason now ok resp st' :
  seqs_unique st -> transition_locked material_citations wait st id state reason now ok = Ok (resp, st') ->
  api_rel st st'.
Proof.
  intros Hu H. unfold transition_locked, get_run in H. apply bind_Ok in H as (r & Hr & H).
  apply from_option_res_Ok in Hr.
  destruct (if bool_decide (state = Running) && bool_decide (r_status r = Queued) then _ else _)
    as [[r1 st1]|] eqn:Hx in H; [|simplify_eq; apply api_refl].
  assert (api_rel st st1 /\ st_runs st1 !! id = Some r1) as [Ha Hr1].
  { destruct (_ && _) in Hx; [|simplify_eq; auto using api_refl].
    destruct (_expire_queued_run_locked wait st id r now ok) as [[[b r2] st2]|] eqn:He; simplify_eq.
    by destruct (expire_api _ _ _ _ _ _ _ _ Hr He) as (? & ? & _). }
  pose proof (seqs_unique_api _ _ Ha Hu) as Hu1. cbv zeta in H.
  set (reason' := if bool_decide (r_reason r1 = _) then _ else reason) in H.
  destruct (bool_decide (state = Running)).
  - destruct (bool_decide (r_status r1 = Running)); [simplify_eq; by apply set_reason_api|].
    destruct (negb (bool_decide (r_status r1 = Queued))) eqn:Hq; simplify_eq; [done|]. bool_inv.
    eapply api_trans; [done|]. eapply api_set_run; [done|]. unfold allowed. cbn. split_and!; auto; [|done].
    right. right. by rewrite Hq; auto.
  - clear Hx. destruct (_ && _) in H.
    + apply bind_Ok in H as ([r2 st2] & Hf & H). simplify_eq. eapply api_trans; [done|]. by eapply fail_api.
    + apply bind_Ok in H as ([r2 st2] & Hp & H). apply project_api in Hp as [Hp Hl]; [|done]. cbn in H.
      destruct (negb _); simplify_eq; [by eapply api_trans|]. apply set_reason_api; [by eapply api_trans|done].
Qed.

Lemma transition_api st id state reason now ok resp st' :
  seqs_unique st -> transition_agent_run material_citations wait st id state reason now ok = (resp, st') ->
  api_rel st st'.
Proof.
  intros Hu H. unfold transition_agent_run in H. destruct (_ || _); [simplify_eq; apply api_refl|].
  destruct (transition_locked material_citations wait st id state reason now ok) as [[resp' st'']|[]] eqn:E;
    simplify_eq; try apply api_refl. by eapply transition_locked_api.
Qed.

Lemma reconcile_one_api an now st id r out st' :
  seqs_unique st -> reconcile_one material_citations wait an now st id r = Ok (out, st') -> api_rel st st'.
Proof.
  intros Hu H. unfold reconcile_one, get_run in H. walk H; try apply api_refl.
  - destruct x as [r1 st1]. match goal with H : project_committed_agent_run _ _ _ _ = _ |- _ =>
      apply project_api in H as [? ?]; [|done] end. by apply set_reason_api.
  - destruct x0 as [r1 st1]. by eapply fail_api.
  - destruct x0 as [r1 st1]. match goal with H : project_committed_agent_run _ _ _ _ = _ |- _ =>
      apply project_api in H as [? ?]; [|done] end. done.
  - destruct x2 as [[b r1] st1]. match goal with H : from_option_res _ (st_runs _ !! _) = _ |- _ =>
      apply from_option_res_Ok in H end. by eapply expire_api.
Qed.

Lemma mark_pending_api id st : api_rel st (mark_pending id st).
Proof.
  unfold mark_pending. destruct (st_runs st !! id) as [r|] eqn:Hr; [|apply api_refl].
  destruct (_ && _); [|apply api_refl]. by apply set_reason_api; [apply api_refl|].
Qed.

Lemma reconcile_step_api an now c st row c' st' :
  seqs_unique st -> reconcile_step material_citations wait an now (c, st) row = (c', st') -> api_rel st st'.
Proof.
  intros Hu H. unfold reconcile_step in H. destruct c as [n1 n2 n3].
  destruct (reconcile_one _ _ _ _ _ _ _) as [[[] st1]|] eqn:E; simplify_eq;
    [by eapply reconcile_one_api..|apply mark_pending_api].
Qed.

Lemma reconcile_api an now st aa da limit res st' :
  seqs_unique st ->
  reconcile_agent_run_lifecycle material_citations wait an now st aa da limit = (res, st') -> api_rel st st'.
Proof.
  intros Hu H. unfold reconcile_agent_run_lifecycle in H.
  destruct (_lifecycle_scan_page (active_rows st) aa limit) as [active an'].
  destruct (_lifecycle_scan_page (dead_letter_rows st) da limit) as [dead dn'].
  destruct (foldl _ _ _) as [counts st1] eqn:E. simplify_eq.
  enough (Hgen : forall l c st0, api_rel st st0 ->
    api_rel st (foldl (reconcile_step material_citations wait an now) (c, st0) l).2).
  { specialize (Hgen (dead ++ active) (Counts 0 0 0) st (api_refl st)). by rewrite E in Hgen. }
  intros l. induction l as [|row l IH]; intros c st0 Ha; [done|]. cbn [foldl].
  destruct (reconcile_step _ _ _ _ (c, st0) row) as [c1 st2] eqn:E1. apply IH.
  eapply api_trans; [done|]. eapply reconcile_step_api; [|done]. by eapply seqs_unique_api.
Qed.

(** ** The system: API requests and what the runtime commits *)

(** The runtime only appends to the log of an unfinished run, and records a pre-admission
    cancellation only for a run that never started executing. *)
Inductive step (st : store) : store -> Prop :=
| step_transition id state reason now ok resp st' :
    transition_agent_run material_citations wait st id state reason now ok = (resp, st') -> step st st'
| step_reconcile an now aa da limit res st' :
    reconcile_agent_run_lifecycle material_citations wait an now st aa da limit = (res, st') -> step st st'
| step_run_event k e r :
    st_events st !! k = None -> st_runs st !! ev_run e = Some r -> is_run_record (ev_run e) r e = true ->
    committed_session_terminal_state st (ev_run e) r = None ->
    (forall k' e', st_events st !! k' = Some e' -> ev_session_level e' = false -> ev_run e' = ev_run e ->
       run_seq e' < run_seq e) ->
    step st (Store (st_runs st) (<[k := e]> (st_events st)) (st_unread st) (st_citations st))
| step_session_event k e :
    st_events st !! k = None -> ev_session_level e = true ->
    step st (Store (st_runs st) (<[k := e]> (st_events st)) (st_unread st) (st_citations st))
| step_pre_admission id r at_ :
    st_runs st !! id = Some r -> _run_records st id r = [] -> r_pre_admission_cancelled r = None ->
    step st (set_run id (Run (r_workspace r) (r_session r) (r_status r) (r_reason r) (r_started r) (r_completed r)
                           (Some at_) (r_created r)) st)
| step_create id r :
    st_runs st !! id = None -> r_status r = Queued -> step st (set_run id r st).

Definition lifecycle_inv (st : store) : Prop :=
  seqs_unique st /\
  forall id r, st_runs st !! id = Some r -> r_status r = Completed \/ r_status r = Cancelled ->
    committed_session_terminal_state st id r = Some (r_status r).

Lemma api_inv st st' : lifecycle_inv st -> api_rel st st' -> lifecycle_inv st'.
Proof.
  intros [Hu Hi] Ha. split; [by eapply seqs_unique_api|]. intros id r' Hr' Hs. destruct Ha as [He Ha].
  specialize (Ha id). rewrite Hr' in Ha. destruct (st_runs st !! id) as [r|] eqn:Hr; [|done].
  destruct Ha as (Hw & Hse & Hp & Ha & _). rewrite (committed_same st st' id r r') by done.
  destruct Ha as [E|[E|[T E]]]; [|done|naive_solver congruence].
  rewrite E in *. by apply Hi.
Qed.

Lemma records_other st k e id r :
  is_run_record id r e = false -> st_events st !! k = None ->
  forall e', e' ∈ _run_records (Store (st_runs st) (<[k := e]> (st_events st)) (st_unread st) (st_citations st)) id r
             <-> e' ∈ _run_records st id r.
Proof.
  intros He Hk e'. rewrite !elem_of_run_records. cbn. split; intros (k' & Hk' & Hr).
  - apply lookup_insert_Some in Hk' as [[_ <-]|[_ Hk']]; [congruence|eauto].
  - exists k'. rewrite lookup_insert_ne by congruence. done.
Qed.

(** The committed state depends only on which run records there are. *)
Lemma committed_ext st1 st2 id r :
  seqs_unique st1 -> (forall e, e ∈ _run_records st1 id r <-> e ∈ _run_records st2 id r) ->
  committed_session_terminal_state st1 id r = committed_session_terminal_state st2 id r.
Proof.
  intros Hu Hext. unfold committed_session_terminal_state.
  set (L1 := _run_records st1 id r) in *. set (L2 := _run_records st2 id r) in *.
  destruct (merge_sort seq_ge L1) as [|e1 l1] eqn:H1, (merge_sort seq_ge L2) as [|e2 l2] eqn:H2; cbn [head]; [done|..].
  - exfalso. assert (e2 ∈ L1) as Hin. { apply Hext. rewrite <- (merge_sort_Permutation seq_ge L2), H2. by left. }
    rewrite <- (merge_sort_Permutation seq_ge L1), H1 in Hin. by apply not_elem_of_nil in Hin.
  - exfalso. assert (e1 ∈ L2) as Hin. { apply Hext. rewrite <- (merge_sort_Permutation seq_ge L1), H1. by left. }
    rewrite <- (merge_sort_Permutation seq_ge L2), H2 in Hin. by apply not_elem_of_nil in Hin.
  - assert (He1 : e1 ∈ L1) by (rewrite <- (merge_sort_Permutation seq_ge L1), H1; by left).
    assert (He2 : e2 ∈ L1) by (apply Hext; rewrite <- (merge_sort_Permutation seq_ge L2), H2; by left).
    assert (seq_ge e1 e2).
    { eapply sorted_head_min; [apply _|apply _|rewrite <- H1; apply Sorted_merge_sort, _|].
      by rewrite <- H1, merge_sort_Permutation. }
    assert (seq_ge e2 e1).
    { eapply sorted_head_min; [apply _|apply _|rewrite <- H2; apply Sorted_merge_sort, _|].
      rewrite <- H2, merge_sort_Permutation. by apply Hext. }
    unfold seq_ge in *.
    apply elem_of_run_records in He1 as (k & Hk & (_ & _ & Hr & Hs)%is_run_record_spec).
    apply elem_of_run_records in He2 as (k' & Hk' & (_ & _ & Hr' & Hs')%is_run_record_spec).
    assert (k = k') as -> by (eapply Hu; eauto; [congruence|lia]). congruence.
Qed.

Lemma seqs_unique_insert st k e :
  seqs_unique st -> st_events st !! k = None ->
  (ev_session_level e = false -> forall k' e', st_events st !! k' = Some e' -> ev_session_level e' = false ->
     ev_run e' = ev_run e -> run_seq e' < run_seq e) ->
  seqs_unique (Store (st_runs st) (<[k := e]> (st_events st)) (st_unread st) (st_citations st)).
Proof.
  intros Hu Hk Hlt k1 e1 k2 e2 H1 H2 Hl1 Hl2 Hr Hs. cbn in H1, H2.
  apply lookup_insert_Some in H1 as [[<- <-]|[_ H1]], H2 as [[<- <-]|[_ H2]]; [done|..].
  - specialize (Hlt Hl1 _ _ H2 Hl2 (eq_sym Hr)). lia.
  - specialize (Hlt Hl2 _ _ H1 Hl1 Hr). lia.
  - by eapply Hu.
Qed.

Lemma step_inv st st' : lifecycle_inv st -> step st st' -> lifecycle_inv st'.
Proof.
  intros [Hu Hi] Hstep. destruct Hstep as
    [id state reason now ok resp st' H|an now aa da limit res st' H|k e r Hk Hr Hrec Hnone Hlt|k e Hk Hl
    |id r at_ Hr Hrec Hp|id r Hr Hq].
  - eapply api_inv; [done|]. by eapply transition_api.
  - eapply api_inv; [done|]. by eapply reconcile_api.
  - assert (Hu' : seqs_unique (Store (st_runs st) (<[k := e]> (st_events st)) (st_unread st) (st_citations st)))
      by (apply seqs_unique_insert; [done|done|by intros _; apply Hlt]).
    split; [done|]. intros id r' Hr' Hs. cbn in Hr'. rewrite <- (Hi id r' Hr' Hs).
    apply committed_ext; [done|]. apply records_other; [|done].
    apply not_true_iff_false. intros (_ & _ & Hid & _)%is_run_record_spec. rewrite Hid in *.
    assert (r' = r) as -> by congruence. rewrite (Hi _ _ Hr Hs) in Hnone. done.
  - assert (Hu' : seqs_unique (Store (st_runs st) (<[k := e]> (st_events st)) (st_unread st) (st_citations st)))
      by (apply seqs_unique_insert; [done|done|congruence]).
    split; [done|]. intros id r' Hr' Hs. cbn in Hr'. rewrite <- (Hi id r' Hr' Hs).
    apply committed_ext; [done|]. apply records_other; [|done].
    apply not_true_iff_false. intros (_ & _ & _ & ?)%is_run_record_spec. congruence.
  - split; [done|]. intros id' r' Hr' Hs. cbn in Hr'. apply lookup_insert_Some in Hr' as [[<- <-]|[Hne Hr']].
    + exfalso. cbn in Hs. pose proof (Hi _ _ Hr Hs) as Hc. unfold committed_session_terminal_state in Hc.
      rewrite Hrec, Hp in Hc. done.
    + by apply Hi.
  - split; [done|]. intros id' r' Hr' Hs. cbn in Hr'. apply lookup_insert_Some in Hr' as [[<- <-]|[Hne Hr']].
    + rewrite Hq in Hs. naive_solver.
    + by apply Hi.
Qed.

(** ** Properties *)

(** Whatever the API is asked and whatever the runtime commits, in any order: a run is recorded as
    completed or cancelled only if that is the terminal state its committed Session log (or the
    runtime's pre-admission receipt) shows (C39). *)
Theorem terminal_status_is_committed st st' id r :
  lifecycle_inv st -> rtc step st st' ->
  st_runs st' !! id = Some r -> r_status r = Completed \/ r_status r = Cancelled ->
  committed_session_terminal_state st' id r = Some (r_status r).
Proof.
  intros Hi Hsteps. assert (lifecycle_inv st') as [_ H']; [|apply H'].
  induction Hsteps as [|st1 st2 st3 Hs _ IH]; [done|]. apply IH. by eapply step_inv.
Qed.

Lemma step_final st st' id r :
  lifecycle_inv st -> step st st' -> st_runs st !! id = Some r ->
  r_status r = Completed \/ r_status r = Cancelled ->
  exists r', st_runs st' !! id = Some r' /\ r_status r' = r_status r.
Proof.
  intros [Hu Hi] Hstep Hr Hs.
  assert (Hapi : api_rel st st' -> exists r', st_runs st' !! id = Some r' /\ r_status r' = r_status r).
  { intros [_ Ha]. specialize (Ha id). rewrite Hr in Ha. destruct (st_runs st' !! id) as [r'|]; [|done].
    exists r'. split; [done|]. destruct Ha as (_ & _ & _ & [?|[E|[T _]]] & _); [done| |].
    - rewrite (Hi _ _ Hr Hs) in E. by injection E.
    - destruct Hs as [E|E]; by rewrite E in T. }
  destruct Hstep as [? ? ? ? ? ? ? H|? ? ? ? ? ? ? H|k e r0 ????|k e ??|id0 r0 at_ Hr0 ? ?|id0 r0 Hr0 ?]; cbn;
    [apply Hapi; by eapply transition_api|apply Hapi; by eapply reconcile_api|eauto|eauto| |].
  - destruct (decide (id0 = id)) as [->|Hne]; [|rewrite lookup_insert_ne by done; eauto].
    rewrite lookup_insert_eq. simplify_eq. eauto.
  - rewrite lookup_insert_ne by congruence. eauto.
Qed.

(** Completed and cancelled are final: no request, reconciliation, late dead letter or retry moves
    such a run to another state (C32). *)
Theorem completed_and_cancelled_are_final st st' id r :
  lifecycle_inv st -> rtc step st st' -> st_runs st !! id = Some r ->
  r_status r = Completed \/ r_status r = Cancelled ->
  exists r', st_runs st' !! id = Some r' /\ r_status r' = r_status r.
Proof.
  intros Hi Hsteps. revert r. induction Hsteps as [st|st1 st2 st3 Hs _ IH]; intros r Hr Hst; [eauto|].
  destruct (step_final _ _ _ _ Hi Hs Hr Hst) as (r2 & Hr2 & He).
  destruct (IH (step_inv _ _ Hi Hs) r2 Hr2) as (r3 & Hr3 & He3); [by rewrite He|].
  exists r3. split; [done|]. congruence.
Qed.
End lifecycle.

(** ** The paged scan *)

Lemma scan_ltb_irrefl x : scan_ltb x x = false.
Proof.
  unfold scan_ltb, str_ltb. rewrite Z.ltb_irrefl, Z.eqb_refl. cbn. apply lex_ltb_irrefl.
Qed.

Lemma scan_ltb_trans x y z : scan_ltb x y = true -> scan_ltb y z = true -> scan_ltb x z = true.
Proof.
  unfold scan_ltb, str_ltb. rewrite !orb_true_iff, !andb_true_iff, !Z.ltb_lt, !Z.eqb_eq.
  intros [?|[? ?]] [?|[? ?]]; [left; lia..|]. right. split; [lia|]. by eapply lex_ltb_trans.
Qed.

Lemma scan_ltb_total x y : scan_ltb x y = false -> scan_ltb y x = false -> x = y.
Proof.
  destruct x as [a s], y as [b t]. unfold scan_ltb, str_ltb. cbn.
  rewrite !orb_false_iff, !Z.ltb_ge. intros [? Ha] [? Hb]. assert (a = b) as -> by lia.
  rewrite Z.eqb_refl in *. f_equal. apply code_points_inj. by apply lex_ltb_total.
Qed.

#[global] Instance row_scan_le_total : Total row_scan_le.
Proof.
  intros x y. unfold row_scan_le, scan_le. destruct (scan_ltb (scan_key y) (scan_key x)) eqn:E; [|by left].
  right. destruct (scan_ltb (scan_key x) (scan_key y)) eqn:E'; [|done].
  by rewrite <- (scan_ltb_irrefl (scan_key x)), (scan_ltb_trans _ _ _ E' E).
Qed.

#[global] Instance row_scan_le_trans : Transitive row_scan_le.
Proof.
  intros x y z. unfold row_scan_le, scan_le. intros H1 H2.
  destruct (scan_ltb (scan_key z) (scan_key x)) eqn:E; [|done].
  destruct (scan_ltb (scan_key x) (scan_key y)) eqn:E'.
  - by rewrite <- H2, (scan_ltb_trans _ _ _ E E').
  - rewrite (scan_ltb_total _ _ E' H1) in E. congruence.
Qed.

(** A client that follows the cursor until the scan ends; [fuel] bounds the number of pages. *)
Fixpoint scan_all (fuel : nat) (rows : list (pystr * run_row)) (after : option (Z * pystr)) (limit : nat)
  : list (pystr * run_row) :=
  let '(page, next) := _lifecycle_scan_page rows after limit in
  match next, fuel with
  | Some cursor, S fuel => page ++ scan_all fuel rows (Some cursor) limit
  | _, _ => page
  end.

Definition key_lt (x y : pystr * run_row) : Prop := scan_ltb (scan_key x) (scan_key y) = true.

(** Rows with distinct ids, sorted, are strictly increasing. *)
Lemma scan_sorted_strict rows :
  NoDup rows.*1 -> StronglySorted key_lt (merge_sort row_scan_le rows).
Proof.
  intros Hnd. assert (Hp := merge_sort_Permutation row_scan_le rows).
  assert (Hs := StronglySorted_merge_sort row_scan_le rows).
  rewrite <- Hp in Hnd. clear Hp. induction Hs as [|x l Hs IH Hall]; [constructor|].
  cbn in Hnd. apply NoDup_cons in Hnd as [Hx Hnd]. constructor; [by apply IH|].
  rewrite Forall_forall in *. intros y Hy. specialize (Hall y Hy). unfold row_scan_le, scan_le, key_lt in *.
  destruct (scan_ltb (scan_key x) (scan_key y)) eqn:E; [done|]. exfalso. apply Hx.
  pose proof (scan_ltb_total _ _ E Hall) as Hk. injection Hk as _ ->. by apply list_elem_of_fmap_2.
Qed.

Lemma filter_after_prefix l1 x l2 :
  StronglySorted key_lt (l1 ++ x :: l2) ->
  filter (fun row => scan_ltb (scan_key x) (scan_key row) = true) (l1 ++ x :: l2) = l2.
Proof.
  intros Hs. rewrite filter_app, filter_cons_False by (by rewrite scan_ltb_irrefl).
  assert (filter (fun row => scan_ltb (scan_key x) (scan_key row) = true) l1 = []) as ->.
  { induction l1 as [|y l1 IH]; [done|]. cbn in Hs. apply StronglySorted_inv in Hs as [Hs Hall].
    rewrite Forall_forall in Hall. specialize (Hall x ltac:(set_solver)). unfold key_lt in Hall.
    rewrite filter_cons_False; [by apply IH|]. intros E.
    pose proof (scan_ltb_trans _ _ _ E Hall) as Hc. by rewrite scan_ltb_irrefl in Hc. }
  pose proof (StronglySorted_app_1_r _ _ _ Hs) as Hs2.
  apply StronglySorted_inv in Hs2 as [_ Hall]. clear Hs. cbn.
  induction l2 as [|y l2 IH]; [done|]. apply Forall_cons in Hall as [Hy Hall].
  rewrite filter_cons_True by done. f_equal. by apply IH.
Qed.

(** Selecting the rows after a cursor and sorting them yields the rest of the sorted table. *)
Lemma page_rest rows l1 x l2 :
  NoDup rows.*1 -> merge_sort row_scan_le rows = l1 ++ x :: l2 ->
  merge_sort row_scan_le (filter (fun row => scan_ltb (scan_key x) (scan_key row) = true) rows) = l2.
Proof.
  intros Hnd Hm. pose proof (scan_sorted_strict rows Hnd) as Hs. rewrite Hm in Hs.
  pose proof (filter_after_prefix _ _ _ Hs) as Hf.
  set (F := filter (fun row => scan_ltb (scan_key x) (scan_key row) = true) rows).
  assert (HF : F ≡ₚ l2). { unfold F. by rewrite <- Hf, <- Hm, merge_sort_Permutation. }
  assert (Hndl : NoDup (l1 ++ x :: l2).*1) by (by rewrite <- Hm, merge_sort_Permutation).
  apply (StronglySorted_unique_strong row_scan_le).
  - intros y1 y2 Hy1 Hy2 H1 H2. rewrite merge_sort_Permutation, HF in Hy1.
    pose proof (scan_ltb_total _ _ H2 H1) as Hk. injection Hk as _ Hid.
    rewrite fmap_app in Hndl. cbn in Hndl. apply NoDup_app in Hndl as (_ & _ & Hndl).
    apply NoDup_cons in Hndl as [_ Hndl].
    apply list_elem_of_lookup in Hy1 as [i Hi]. apply list_elem_of_lookup in Hy2 as [j Hj].
    assert (i = j) as ->; [|congruence].
    eapply (NoDup_lookup l2.*1); [done| |]; rewrite list_lookup_fmap;
      [rewrite Hi; reflexivity|rewrite Hj; cbn; congruence].
  - apply StronglySorted_merge_sort; apply _.
  - assert (Hss := StronglySorted_merge_sort row_scan_le rows). rewrite Hm in Hss.
    apply StronglySorted_app_1_r in Hss. by apply StronglySorted_inv in Hss as [Hss _].
  - by rewrite merge_sort_Permutation.
Qed.

Lemma scan_page_spec rows after limit sel :
  merge_sort row_scan_le (match after with
    | None => rows
    | Some cursor => filter (fun row => scan_ltb cursor (scan_key row) = true) rows end) = sel ->
  _lifecycle_scan_page rows after limit =
    (take limit sel, if (limit <? length sel)%nat then scan_key <$> last (take limit sel) else None).
Proof.
  intros <-. unfold _lifecycle_scan_page. set (sel := merge_sort _ _).
  rewrite take_take, length_take, Nat.min_l by lia. f_equal.
  destruct (Nat.ltb_spec limit (S limit `min` length sel)), (Nat.ltb_spec limit (length sel)); done || lia.
Qed.

(** Following the cursors returns the rest of the table after what was already read. *)
Lemma scan_all_rest rows limit :
  NoDup rows.*1 -> (0 < limit)%nat ->
  forall fuel after sel,
    merge_sort row_scan_le (match after with
      | None => rows
      | Some cursor => filter (fun row => scan_ltb cursor (scan_key row) = true) rows end) = sel ->
    (exists l1, merge_sort row_scan_le rows = l1 ++ sel) ->
    (length sel <= fuel)%nat -> scan_all fuel rows after limit = sel.
Proof.
  intros Hnd Hlim. induction fuel as [|fuel IH]; intros after sel Hsel [l1 Hl1] Hlen.
  - destruct sel; [|cbn in Hlen; lia]. unfold scan_all. rewrite (scan_page_spec _ _ _ _ Hsel). cbn. by rewrite take_nil.
  - unfold scan_all; fold scan_all. rewrite (scan_page_spec _ _ _ _ Hsel).
    destruct (Nat.ltb_spec limit (length sel)) as [Hlt|Hge]; [|by rewrite take_ge].
    destruct (last (take limit sel)) as [x|] eqn:Hlast.
    2:{ apply last_None in Hlast. apply (f_equal length) in Hlast. rewrite length_take in Hlast. cbn in *. lia. }
    apply last_Some in Hlast as [l2 Hl2]. cbn [fmap option_fmap option_map].
    rewrite (IH (Some (scan_key x)) (drop limit sel)).
    + apply take_drop.
    + apply (page_rest rows (l1 ++ l2) x); [done|]. rewrite Hl1.
      rewrite <- (take_drop limit sel) at 1. rewrite Hl2, <- !app_assoc. done.
    + exists (l1 ++ take limit sel). by rewrite <- app_assoc, take_drop.
    + rewrite length_drop. lia.
Qed.

(** The lifecycle scan is complete and free of duplicates: a client that follows the cursors page by
    page reads every selected run exactly once, in creation order, whatever the page size. *)
Theorem scan_pages_cover_all_rows rows limit :
  NoDup rows.*1 -> (0 < limit)%nat ->
  scan_all (length rows) rows None limit = merge_sort row_scan_le rows /\
  scan_all (length rows) rows None limit ≡ₚ rows.
Proof.
  intros Hnd Hlim.
  assert (scan_all (length rows) rows None limit = merge_sort row_scan_le rows) as ->.
  { apply scan_all_rest; [done|done|done|by exists []|].
    by rewrite merge_sort_Permutation. }
  split; [done|]. apply merge_sort_Permutation.
Qed.

(** ** Dead letters and queue expiry *)

Section repair.
Context (material_citations : pystr -> option Z -> gmap pystr citation_row) (wait : Z).

(** A run that was dead-lettered while its terminal event was still on the way is repaired: the scan
    selects it and one reconciliation gives it the committed state. *)
Theorem dead_letter_is_repaired an now st id r s k e :
  seqs_unique st -> st_runs st !! id = Some r -> r_status r = Failed ->
  r_reason r = AGENT_RUN_LIFECYCLE_DEAD_LETTER_REASON ->
  committed_session_terminal_state st id r = Some s ->
  st_events st !! k = Some e -> ev_run e = id -> is_Some (TERMINAL_STATES (ev_type e)) ->
  is_ok (rebuild_agent_run_citation_projection material_citations st id None) = true ->
  (id, r) ∈ dead_letter_rows st /\
  exists st' r', reconcile_one material_citations wait an now st id r = Ok (Terminalized, st') /\
    st_runs st' = <[id := r']> (st_runs st) /\ r_status r' = s /\
    r_reason r' = "runtime_session_terminal_committed".
Proof.
  intros Hu Hr Hs Hreason Hc Hk He Ht Hok. split.
  { unfold dead_letter_rows. apply list_elem_of_filter. split.
    - apply qs_exists_true. exists k, e. rewrite !bool_decide_eq_true_2 by done. done.
    - apply elem_of_qs_list. by rewrite !bool_decide_eq_true_2. }
  unfold reconcile_one. rewrite (bool_decide_eq_true_2 _ Hs), Hc.
  destruct (project_committed_agent_run material_citations st id None) as [[r1 st1]|err] eqn:Hp.
  - destruct (project_spec _ _ _ _ _ _ _ Hu Hr Hp) as [_ Hspec]. rewrite Hc in Hspec.
    destruct Hspec as ((started & completed & ->) & Hruns & _). cbn.
    eexists _, _. split; [done|]. cbn. rewrite Hruns. split; [by rewrite insert_insert_eq|done].
  - exfalso. unfold project_committed_agent_run, get_run in Hp. rewrite Hr in Hp. cbn in Hp.
    repeat case_match; try done; destruct (rebuild_agent_run_citation_projection _ _ _ _); done.
Qed.

(** Starting a queued run: before the queue limit it starts and keeps the given reason; from the
    limit on it is either refused, unchanged, because the runtime could not be told to cancel it, or
    marked as expired. *)
Theorem starting_a_queued_run st id r reason now ok :
  st_runs st !! id = Some r -> r_status r = Queued -> r_started r = None -> id <> "" -> reason <> "" ->
  r_reason r <> "execution_queue_expired" ->
  let expired := wait * 1000000 <=? now - r_created r in
  transition_agent_run material_citations wait st id Running reason now ok =
    if expired && negb ok then (ExpiryUnavailable, st)
    else (Transitioned id Running,
          let reason' := if expired then "execution_queue_expired" else reason in
          Store (<[id := Run (r_workspace r) (r_session r) Running reason' (Some now) (r_completed r)
                           (r_pre_admission_cancelled r) (r_created r)]> (st_runs st))
            (st_events st) (st_unread st) (st_citations st)).
Proof.
  intros Hr Hs Hst Hid Hreason Hne. cbv zeta. unfold transition_agent_run.
  rewrite (proj2 (is_empty_false _) Hid), (proj2 (is_empty_false _) Hreason). cbn [orb].
  rewrite (bool_decide_eq_false_2 (Running = Queued)) by done.
  unfold transition_locked, get_run. rewrite Hr. cbn [from_option_res mbind res_bind].
  rewrite (bool_decide_eq_true_2 (Running = Running)), (bool_decide_eq_true_2 _ Hs) by done. cbn [andb].
  unfold _expire_queued_run_locked. rewrite (bool_decide_eq_true_2 _ Hs), Hst. cbn [negb orb].
  rewrite (bool_decide_eq_false_2 (is_Some None)) by (intros [? ?]; done). cbn [orb].
  rewrite Z.ltb_antisym. destruct (wait * 1000000 <=? now - r_created r); cbn [negb andb].
  - destruct ok; cbn [require mbind res_bind negb]; [|done].
    cbn -[bool_decide]. rewrite Hs, (bool_decide_eq_true_2 ("execution_queue_expired" = _)) by done.
    rewrite bool_decide_eq_false_2, bool_decide_eq_true_2 by done. unfold set_run. cbn. by rewrite insert_insert_eq.
  - rewrite (bool_decide_eq_false_2 _ Hne), Hs. cbn -[bool_decide].
    rewrite bool_decide_eq_false_2, bool_decide_eq_true_2 by done. done.
Qed.
End repair.

(** ** Witnesses *)

Definition no_material : pystr -> option Z -> gmap pystr citation_row := fun _ _ => ∅.
Definition start_event : event_row :=
  Event "ws" "session-1" "run-1" 1 (Some 1) false "agent_run_started" 1000 None.
Definition done_event : event_row :=
  Event "ws" "session-1" "run-1" 2 (Some 2) false "agent_run_completed" 2000 None.
Definition queued_run : run_row := Run "ws" "session-1" Queued "agent_run_created" None None None 0.
Definition dead_run : run_row :=
  Run "ws" "session-1" Failed AGENT_RUN_LIFECYCLE_DEAD_LETTER_REASON (Some 10) (Some 20) None 0.
Definition queued_store : store := Store {["run-1" := queued_run]} ∅ ∅ ∅.
Definition logged_store (r : run_row) : store :=
  Store {["run-1" := r]} (<["e1" := start_event]> {["e2" := done_event]}) ∅ ∅.

Lemma logged_unique r : seqs_unique (logged_store r).
Proof.
  intros k1 e1 k2 e2 H1 H2 _ _ _ Hs. cbn in H1, H2.
  apply lookup_insert_Some in H1 as [[<- <-]|[_ H1]], H2 as [[<- <-]|[_ H2]];
    repeat match goal with H : {[_ := _]} !! _ = Some _ |- _ => apply lookup_singleton_Some in H as [<- <-] end;
    done || discriminate Hs.
Qed.

Lemma dead_letter_is_repaired_witness :
  ("run-1", dead_run) ∈ dead_letter_rows (logged_store dead_run) /\
  exists st' r', reconcile_one no_material 60 (Answers (fun _ => None) (fun _ => false) (fun _ => false)) 0
      (logged_store dead_run) "run-1" dead_run = Ok (Terminalized, st') /\
    st_runs st' = <["run-1" := r']> (st_runs (logged_store dead_run)) /\ r_status r' = Completed /\
    r_reason r' = "runtime_session_terminal_committed".
Proof.
  apply (dead_letter_is_repaired no_material 60 _ _ (logged_store dead_run) "run-1" dead_run Completed "e2" done_event);
    try (vm_compute; reflexivity); [apply logged_unique|exists Completed; vm_compute; reflexivity].
Defined.

Lemma starting_a_queued_run_witness :
  transition_agent_run no_material 60 queued_store "run-1" Running "runtime_started" 61000000 false =
    (if (60 * 1000000 <=? 61000000 - r_created queued_run) && negb false then (ExpiryUnavailable, queued_store)
     else (Transitioned "run-1" Running,
          let reason' := if 60 * 1000000 <=? 61000000 - r_created queued_run
                         then "execution_queue_expired" else "runtime_started" in
          Store (<["run-1" := Run "ws" "session-1" Running reason' (Some 61000000) None None 0]> (st_runs queued_store))
            ∅ ∅ ∅)).
Proof.
  apply (starting_a_queued_run no_material 60 queued_store "run-1" queued_run "runtime_started" 61000000 false);
    try reflexivity; discriminate.
Defined.

Lemma scan_pages_cover_all_rows_witness :
  let rows := [("c", queued_run); ("a", queued_run); ("b", dead_run)] in
  scan_all (length rows) rows None 2 = merge_sort row_scan_le rows /\ scan_all (length rows) rows None 2 ≡ₚ rows.
Proof.
  apply scan_pages_cover_all_rows; [|lia]. cbn. by_decide.
Defined.

Lemma completed_run_store_inv :
  lifecycle_inv (logged_store (Run "ws" "session-1" Completed "agent_run_completed" (Some 1000000) (Some 2000000) None 0)).
Proof.
  split; [apply logged_unique|]. intros id r Hr _. cbn in Hr. apply lookup_singleton_Some in Hr as [<- <-].
  vm_compute. reflexivity.
Qed.

(** A late dead letter for a completed run. *)
Lemma late_dead_letter_step :
  let st := logged_store (Run "ws" "session-1" Completed "agent_run_completed" (Some 1000000) (Some 2000000) None 0) in
  step no_material 60 st
    (transition_agent_run no_material 60 st "run-1" Failed AGENT_RUN_LIFECYCLE_DEAD_LETTER_REASON 9 true).2.
Proof. intros st. eapply step_transition. apply surjective_pairing. Qed.

Lemma completed_and_cancelled_are_final_witness :
  let st := logged_store (Run "ws" "session-1" Completed "agent_run_completed" (Some 1000000) (Some 2000000) None 0) in
  exists r', st_runs (transition_agent_run no_material 60 st "run-1" Failed AGENT_RUN_LIFECYCLE_DEAD_LETTER_REASON 9 true).2
      !! "run-1" = Some r' /\ r_status r' = Completed.
Proof.
  intros st.
  refine (completed_and_cancelled_are_final no_material 60 st _ "run-1"
    (Run "ws" "session-1" Completed "agent_run_completed" (Some 1000000) (Some 2000000) None 0)
    completed_run_store_inv (rtc_once _ _ late_dead_letter_step) _ _);
    [vm_compute; reflexivity|left; reflexivity].
Defined.

Lemma terminal_status_is_committed_witness :
  let st := logged_store queued_run in
  let st' := (transition_agent_run no_material 60 st "run-1" Completed "runtime_done" 9 true).2 in
  let r := Run "ws" "session-1" Completed "runtime_done" (Some 1000000) (Some 2000000) None 0 in
  st_runs st' !! "run-1" = Some r /\
  committed_session_terminal_state st' "run-1" r = Some (r_status r).
Proof.
  intros st st' r. split; [vm_compute; reflexivity|].
  apply (terminal_status_is_committed no_material 60 st st').
  - split; [apply logged_unique|]. intros id r0 Hr0 Hs. cbn in Hr0. apply lookup_singleton_Some in Hr0 as [<- <-].
    destruct Hs as [Hs|Hs]; discriminate Hs.
  - apply rtc_once. unfold st'. eapply step_transition. apply surjective_pairing.
  - vm_compute. reflexivity.
  - left. reflexivity.
Defined.

(** A [failed] transition with another reason is accepted for a dead-lettered run although the log
    has no terminal event, and it erases the dead-letter marker: when the log later completes, the
    reconciler's scan no longer selects the run. *)
Lemma failed_transition_erases_dead_letter_marker :
  let st := Store {["run-1" := dead_run]} {["e1" := start_event]} ∅ ∅ in
  let '(resp, st1) := transition_agent_run no_material 60 st "run-1" Failed "runtime_failed" 30 true in
  let st2 := Store (st_runs st1) (<["e2" := done_event]> (st_events st1)) ∅ ∅ in
  committed_session_terminal_state st "run-1" dead_run = None /\
  resp = Transitioned "run-1" Failed /\
  dead_letter_rows st2 = [] /\
  (r_status <$> st_runs st2 !! "run-1") = Some Failed /\
  (r ← st_runs st2 !! "run-1"; committed_session_terminal_state st2 "run-1" r) = Some Completed.
Proof. vm_compute. repeat split; reflexivity. Qed.
