(* ===== verification/PyValue.v ===== *)
(** * JSON values as Python sees them

    What [json.loads] returns: [None], [bool], [int], [float], [str], [list] and [dict] values,
    with the tests the sources make on them.  A [bool] is also an [int] for [isinstance], and
    the sources exclude it explicitly; [type(x) is int] excludes it by itself.  A dict keeps one
    entry per key. *)

From stdpp Require Import base tactics list numbers.
From S2P Require Import Prelude PyStr.

Inductive value :=
| VNone
| VBool (b : bool)
| VInt (z : Z)
| VFloat (repr : pystr)
| VStr (s : pystr)
| VList (l : list value)
| VDict (d : list (pystr * value)).

Definition as_str (v : value) : option pystr := match v with VStr s => Some s | _ => None end.
Definition as_dict (v : value) : option (list (pystr * value)) := match v with VDict d => Some d | _ => None end.
Definition as_list (v : value) : option (list value) := match v with VList l => Some l | _ => None end.
Definition as_bool (v : value) : option bool := match v with VBool b => Some b | _ => None end.
(** [isinstance(v, int) and not isinstance(v, bool)] *)
Definition as_int (v : value) : option Z := match v with VInt z => Some z | _ => None end.
Definition is_none (v : value) : bool := match v with VNone => true | _ => false end.

(** [d.get(k)]: a missing key reads as [None]. *)
Fixpoint dict_get (k : pystr) (d : list (pystr * value)) : value :=
  match d with
  | [] => VNone
  | (k', v) :: d' => if bool_decide (k = k') then v else dict_get k d'
  end.
(** [v.get(k)] where [v] was not checked to be a dict; callers check first. *)
Definition get (k : pystr) (v : value) : value :=
  match v with VDict d => dict_get k d | _ => VNone end.
Definition has_key (k : pystr) (v : value) : bool :=
  match v with VDict d => existsb (fun kv => bool_decide (k = kv.1)) d | _ => false end.

(** [set(v) == {...}] for a dict *)
Definition keys_are (ks : list pystr) (v : value) : bool :=
  match v with
  | VDict d => forallb (fun kv => bool_decide (kv.1 ∈ ks)) d && forallb (fun k => has_key k v) ks
  | _ => false
  end.

(** [v == "literal"] *)
Definition is_str (s : pystr) (v : value) : bool := bool_decide (as_str v = Some s).
(** [v in {"a", "b"}] for string literals *)
Definition str_in (ss : list pystr) (v : value) : bool :=
  match as_str v with Some s => bool_decide (s ∈ ss) | None => false end.

(** [v == {"k1": "s1", ...}] for a literal dict of strings *)
Definition is_str_dict (fields : list (pystr * pystr)) (v : value) : bool :=
  keys_are (map fst fields) v && forallb (fun kv => is_str kv.2 (get kv.1 v)) fields.

Lemma as_str_Some v s : as_str v = Some s <-> v = VStr s.
Proof. destruct v; cbn; naive_solver. Qed.
Lemma as_int_Some v z : as_int v = Some z <-> v = VInt z.
Proof. destruct v; cbn; naive_solver. Qed.
Lemma is_str_spec s v : is_str s v = true <-> v = VStr s.
Proof. unfold is_str. by rewrite bool_decide_eq_true, as_str_Some. Qed.
Lemma str_in_spec ss v : str_in ss v = true <-> exists s, v = VStr s /\ s ∈ ss.
Proof.
  unfold str_in. destruct v; cbn; split; try naive_solver.
  - rewrite bool_decide_eq_true. eauto.
  - intros (s' & [= ->] & ?). by apply bool_decide_eq_true.
Qed.
