(* ===== verification/Json.v ===== *)
(** * JSON text and base64

    [json.dumps(..., ensure_ascii=False, separators=(",", ":"))] and [json.loads] of Python's
    standard library on the values of [PyValue], and [base64.urlsafe_b64encode]/[urlsafe_b64decode]
    on unpadded text.  [json.loads] keeps a number with a fraction or an exponent as its text. *)

From stdpp Require Import base tactics numbers gmap list sorting.
From S2P Require Import Prelude PyStr Utf8 PyValue.

(** ** Decimal integers *)

Fixpoint digits_loop (fuel : nat) (n : Z) (acc : list Z) : list Z :=
  match fuel with
  | O => acc
  | S fuel => let acc := 48 + n mod 10 :: acc in
      if n <? 10 then acc else digits_loop fuel (n / 10) acc
  end.
(** decimal digits of a natural number; the fuel bounds the number of digits by the number of bits *)
Definition digits (n : Z) : list Z := digits_loop (S (Z.to_nat (Z.log2 n))) n [].
(** [str(z)] *)
Definition int_chars (z : Z) : list Z := if z <? 0 then 45 :: digits (- z) else digits z.
Definition int_str (z : Z) : pystr := PyStr (int_chars z).

Definition is_digit (c : Z) : bool := (48 <=? c) && (c <=? 57).
Definition digits_value (l : list Z) : Z := fold_left (fun acc c => acc * 10 + (c - 48)) l 0.

(** ** [json.dumps] *)

Definition hex_char (d : Z) : Z := if d <? 10 then 48 + d else 87 + d.
Definition escape_char (c : Z) : list Z :=
  if c =? 34 then [92; 34]
  else if c =? 92 then [92; 92]
  else if c =? 10 then [92; 110]
  else if c =? 13 then [92; 114]
  else if c =? 9 then [92; 116]
  else if c =? 12 then [92; 102]
  else if c =? 8 then [92; 98]
  else if c <? 32 then [92; 117; 48; 48; hex_char (c / 16); hex_char (c mod 16)]
  else [c].
Definition dump_str (s : pystr) : list Z := 34 :: concat (map escape_char (code_points s)) ++ [34].

Fixpoint dump (v : value) : list Z :=
  match v with
  | VNone => code_points "null"
  | VBool true => code_points "true"
  | VBool false => code_points "false"
  | VInt z => int_chars z
  | VFloat repr => code_points repr
  | VStr s => dump_str s
  | VList l =>
      91 :: (fix items (l : list value) : list Z :=
               match l with
               | [] => [93]
               | [v] => dump v ++ [93]
               | v :: l => dump v ++ 44 :: items l
               end) l
  | VDict d =>
      123 :: (fix members (d : list (pystr * value)) : list Z :=
               match d with
               | [] => [125]
               | [(k, v)] => dump_str k ++ 58 :: dump v ++ [125]
               | (k, v) :: d => dump_str k ++ 58 :: dump v ++ 44 :: members d
               end) d
  end.
Definition json_dumps (v : value) : pystr := PyStr (dump v).

(** [sort_keys=True] *)
Definition key_pair_le {A} (x y : pystr * A) : Prop := str_le x.1 y.1.
#[global] Instance key_pair_le_dec {A} : RelDecision (@key_pair_le A).
Proof. intros x y. unfold key_pair_le. apply _. Defined.
Fixpoint sort_keys (v : value) : value :=
  match v with
  | VList l => VList (map sort_keys l)
  | VDict d => VDict (merge_sort key_pair_le (map (fun kv => (kv.1, sort_keys kv.2)) d))
  | v => v
  end.

(** ** [json.loads] *)

Inductive json_error := JSONDecodeError | IntTooLong | JsonFuel.
Abbreviation J := (res json_error).

Definition is_ws (c : Z) : bool := (c =? 32) || (c =? 9) || (c =? 10) || (c =? 13).
Definition skip_ws (l : list Z) : list Z := drop_while is_ws l.

Definition hex_value (c : Z) : option Z :=
  if (48 <=? c) && (c <=? 57) then Some (c - 48)
  else if (65 <=? c) && (c <=? 70) then Some (c - 55)
  else if (97 <=? c) && (c <=? 102) then Some (c - 87)
  else None.
Definition hex4 (a b c d : Z) : option Z :=
  match hex_value a, hex_value b, hex_value c, hex_value d with
  | Some a, Some b, Some c, Some d => Some (((a * 16 + b) * 16 + c) * 16 + d)
  | _, _, _, _ => None
  end.
Definition simple_escape (c : Z) : option Z :=
  if c =? 34 then Some 34 else if c =? 92 then Some 92 else if c =? 47 then Some 47
  else if c =? 98 then Some 8 else if c =? 102 then Some 12 else if c =? 110 then Some 10
  else if c =? 114 then Some 13 else if c =? 116 then Some 9 else None.

(** Code points of two [\u] escapes when they form a surrogate pair. *)
Definition surrogate_pair (hi lo : Z) : option Z :=
  if (55296 <=? hi) && (hi <=? 56319) && (56320 <=? lo) && (lo <=? 57343)
  then Some (65536 + (hi - 55296) * 1024 + (lo - 56320)) else None.

(** [uXXXX] at the front of a text *)
Definition scan_u (l : list Z) : option (Z * list Z) :=
  match l with
  | u :: a :: b :: c :: d :: l => if u =? 117 then (., l) <$> hex4 a b c d else None
  | _ => None
  end.
(** A low surrogate's escape right after the escape of [hi]. *)
Definition scan_low (hi : Z) (l : list Z) : option (Z * list Z) :=
  match l with
  | c :: l => if c =? 92 then p ← scan_u l; (., p.2) <$> surrogate_pair hi p.1 else None
  | [] => None
  end.
(** What follows a backslash. *)
Definition scan_escape (l : list Z) : option (Z * list Z) :=
  match l with
  | [] => None
  | c :: rest =>
      if c =? 117 then
        p ← scan_u l;
        Some (match scan_low p.1 p.2 with Some q => q | None => p end)
      else (., rest) <$> simple_escape c
  end.

(** The rest of a string literal after its opening quote; strict mode refuses control characters. *)
Fixpoint scan_string (fuel : nat) (l : list Z) : J (list Z * list Z) :=
  match fuel with
  | O => Err JsonFuel
  | S fuel =>
      match l with
      | [] => Err JSONDecodeError
      | c :: l =>
          if c =? 34 then Ok ([], l)
          else if c =? 92 then
            match scan_escape l with
            | None => Err JSONDecodeError
            | Some (e, l) => p ← scan_string fuel l; Ok (e :: p.1, p.2)
            end
          else if c <? 32 then Err JSONDecodeError
          else p ← scan_string fuel l; Ok (c :: p.1, p.2)
      end
  end.
Definition parse_string (l : list Z) : J (pystr * list Z) :=
  p ← scan_string (S (length l)) l; Ok (PyStr p.1, p.2).

Fixpoint span_digits (l : list Z) : list Z * list Z :=
  match l with
  | c :: l' => if is_digit c then let '(ds, rest) := span_digits l' in (c :: ds, rest) else ([], l)
  | [] => ([], [])
  end.

(** the next character, when it is [c] *)
Definition eat (c : Z) (l : list Z) : option (list Z) :=
  match l with d :: l => if d =? c then Some l else None | [] => None end.

(** an optional minus sign, then [0] or digits not starting with [0] *)
Definition scan_int (l : list Z) : option (bool * list Z * list Z) :=
  let '(neg, l) := match eat 45 l with Some l => (true, l) | None => (false, l) end in
  match eat 48 l with
  | Some rest => Some (neg, [48], rest)
  | None => match span_digits l with
            | ([], _) => None
            | (ds, rest) => Some (neg, ds, rest)
            end
  end.
(** an optional fraction *)
Definition scan_frac (l : list Z) : list Z * list Z :=
  match eat 46 l with
  | Some l' => match span_digits l' with ([], _) => ([], l) | (ds, rest) => (46 :: ds, rest) end
  | None => ([], l)
  end.
(** an optional exponent *)
Definition scan_exp (l : list Z) : list Z * list Z :=
  match l with
  | e :: l' =>
      if (e =? 101) || (e =? 69) then
        let '(sign, l'') := match l' with c :: r => if (c =? 43) || (c =? 45) then ([c], r) else ([], l') | [] => ([], []) end in
        match span_digits l'' with ([], _) => ([], l) | (ds, rest) => (e :: sign ++ ds, rest) end
      else ([], l)
  | [] => ([], l)
  end.
Definition INT_MAX_STR_DIGITS : Z := 4300.
Definition scan_number (l : list Z) : J (value * list Z) :=
  match scan_int l with
  | None => Err JSONDecodeError
  | Some (neg, ds, rest) =>
      let '(frac, rest1) := scan_frac rest in
      let '(exp, rest2) := scan_exp rest1 in
      match frac ++ exp with
      | [] => if INT_MAX_STR_DIGITS <? zlen ds then Err IntTooLong
              else Ok (VInt (if neg : bool then - digits_value ds else digits_value ds), rest)
      | tail => Ok (VFloat (PyStr ((if neg : bool then [45] else []) ++ ds ++ tail)), rest2)
      end
  end.

(** [d[k] = v]: the last value of a repeated key stays, at the key's first position *)
Fixpoint dict_set (k : pystr) (v : value) (d : list (pystr * value)) : list (pystr * value) :=
  match d with
  | [] => [(k, v)]
  | (k', v') :: d => if bool_decide (k = k') then (k', v) :: d else (k', v') :: dict_set k v d
  end.

Definition literal (word : pystr) (v : value) (l : list Z) : option (value * list Z) :=
  if prefixb (code_points word) l then Some (v, drop (length (code_points word)) l) else None.
Definition scan_literal (l : list Z) : J (value * list Z) :=
  match literal "null" VNone l with Some p => Ok p | None =>
  match literal "true" (VBool true) l with Some p => Ok p | None =>
  match literal "false" (VBool false) l with Some p => Ok p | None =>
  match literal "NaN" (VFloat "nan") l with Some p => Ok p | None =>
  match literal "Infinity" (VFloat "inf") l with Some p => Ok p | None =>
  match literal "-Infinity" (VFloat "-inf") l with Some p => Ok p | None =>
  scan_number l end end end end end end.

Fixpoint scan_value (fuel : nat) (l : list Z) : J (value * list Z) :=
  match fuel with
  | O => Err JsonFuel
  | S fuel =>
      match eat 34 l, eat 91 l, eat 123 l with
      | Some l, _, _ => p ← parse_string l; Ok (VStr p.1, p.2)
      | _, Some l, _ =>
          match eat 93 (skip_ws l) with
          | Some rest => Ok (VList [], rest)
          | None => p ← scan_items fuel (skip_ws l); Ok (VList p.1, p.2)
          end
      | _, _, Some l =>
          match eat 125 (skip_ws l) with
          | Some rest => Ok (VDict [], rest)
          | None => p ← scan_members fuel (skip_ws l) []; Ok (VDict p.1, p.2)
          end
      | None, None, None => scan_literal l
      end
  end
with scan_items (fuel : nat) (l : list Z) : J (list value * list Z) :=
  match fuel with
  | O => Err JsonFuel
  | S fuel =>
      p ← scan_value fuel l;
      match eat 93 (skip_ws p.2), eat 44 (skip_ws p.2) with
      | Some rest, _ => Ok ([p.1], rest)
      | _, Some rest => q ← scan_items fuel (skip_ws rest); Ok (p.1 :: q.1, q.2)
      | None, None => Err JSONDecodeError
      end
  end
with scan_members (fuel : nat) (l : list Z) (acc : list (pystr * value)) : J (list (pystr * value) * list Z) :=
  match fuel with
  | O => Err JsonFuel
  | S fuel =>
      l ← from_option_res JSONDecodeError (eat 34 l);
      k ← parse_string l;
      l ← from_option_res JSONDecodeError (eat 58 (skip_ws k.2));
      p ← scan_value fuel (skip_ws l);
      let acc := dict_set k.1 p.1 acc in
      match eat 125 (skip_ws p.2), eat 44 (skip_ws p.2) with
      | Some rest, _ => Ok (acc, rest)
      | _, Some rest => scan_members fuel (skip_ws rest) acc
      | None, None => Err JSONDecodeError
      end
  end.

(** The scanners spend at most two units of fuel per character. *)
Definition json_loads (s : pystr) : J value :=
  let l := skip_ws (code_points s) in
  p ← scan_value (S (2 * length l)) l;
  match skip_ws p.2 with [] => Ok p.1 | _ => Err JSONDecodeError end.

(** ** Base64 *)

(** [A-Z a-z 0-9 - _] *)
Definition b64_char (d : Z) : Z :=
  if d <? 26 then 65 + d else if d <? 52 then 71 + d else if d <? 62 then d - 4
  else if d =? 62 then 45 else 95.
Definition b64_value (c : Z) : option Z :=
  if (65 <=? c) && (c <=? 90) then Some (c - 65)
  else if (97 <=? c) && (c <=? 122) then Some (c - 71)
  else if (48 <=? c) && (c <=? 57) then Some (c + 4)
  else if c =? 45 then Some 62 else if c =? 95 then Some 63 else None.

(** [urlsafe_b64encode(data).rstrip("=")] *)
Fixpoint b64_encode (l : list Z) : list Z :=
  match l with
  | a :: b :: c :: l =>
      b64_char (a / 4) :: b64_char ((a mod 4) * 16 + b / 16) ::
      b64_char ((b mod 16) * 4 + c / 64) :: b64_char (c mod 64) :: b64_encode l
  | [a; b] => [b64_char (a / 4); b64_char ((a mod 4) * 16 + b / 16); b64_char ((b mod 16) * 4)]
  | [a] => [b64_char (a / 4); b64_char ((a mod 4) * 16)]
  | [] => []
  end.
(** [urlsafe_b64decode] of text over the alphabet, padded to a multiple of four: surplus bits are
    ignored, one surplus character is an error. *)
Fixpoint b64_decode (l : list Z) : option (list Z) :=
  match l with
  | a :: b :: c :: d :: l =>
      a ← b64_value a; b ← b64_value b; c ← b64_value c; d ← b64_value d;
      rest ← b64_decode l;
      Some (a * 4 + b / 16 :: (b mod 16) * 16 + c / 4 :: (c mod 4) * 64 + d :: rest)
  | [a; b; c] =>
      a ← b64_value a; b ← b64_value b; c ← b64_value c;
      Some [a * 4 + b / 16; (b mod 16) * 16 + c / 4]
  | [a; b] => a ← b64_value a; b ← b64_value b; Some [a * 4 + b / 16]
  | [_] => None
  | [] => Some []
  end.

(** ** Round trips *)

Lemma digits_loop_spec fuel n acc :
  (1 <= fuel)%nat -> 0 <= n < 2 ^ Z.of_nat fuel ->
  exists c ds, digits_loop fuel n acc = (c :: ds) ++ acc /\
    forallb is_digit (c :: ds) = true /\ digits_value (c :: ds) = n /\ (c = 48 -> n = 0 /\ ds = []).
Proof.
  revert n acc. induction fuel as [|fuel IH]; intros n acc Hf Hn; [lia|]. cbn [digits_loop].
  pose proof (Z.mod_pos_bound n 10 ltac:(lia)). pose proof (Z.div_mod n 10 ltac:(lia)).
  destruct (Z.ltb_spec n 10).
  - exists (48 + n mod 10), []. split; [done|]. rewrite Z.mod_small by lia. unfold digits_value, is_digit. cbn.
    split; [lia|]. split; [lia|]. intros ?. split; [lia|done].
  - destruct (IH (n / 10) (48 + n mod 10 :: acc)) as (c & ds & -> & Hd & Hv & Hz).
    { destruct fuel; [|lia]. change (2 ^ Z.of_nat 1) with 2 in Hn. lia. }
    { split; [apply Z.div_pos; lia|]. apply Z.div_lt_upper_bound; [lia|].
      rewrite Nat2Z.inj_succ, Z.pow_succ_r in Hn by lia. lia. }
    exists c, (ds ++ [48 + n mod 10]). split; [cbn; by rewrite <- app_assoc|].
    change (c :: ds ++ [48 + n mod 10]) with ((c :: ds) ++ [48 + n mod 10]).
    rewrite forallb_app, Hd. split; [unfold is_digit; cbn; lia|].
    unfold digits_value in *. rewrite fold_left_app, Hv. cbn. split; [lia|].
    intros ->. destruct Hz as [Hz _]; [done|]. assert (n < 10) by (apply Z.div_small_iff in Hz; lia). lia.
Qed.

Lemma digits_spec n : 0 <= n -> exists c ds, digits n = c :: ds /\
  forallb is_digit (c :: ds) = true /\ digits_value (c :: ds) = n /\ (c = 48 -> n = 0 /\ ds = []).
Proof.
  intros Hn. destruct (digits_loop_spec (S (Z.to_nat (Z.log2 n))) n []) as (c & ds & E & ?); [lia| |].
  - rewrite Nat2Z.inj_succ, Z2Nat.id by apply Z.log2_nonneg.
    destruct (Z.eq_dec n 0) as [->|]; [cbn; lia|]. split; [done|]. apply Z.log2_spec. lia.
  - exists c, ds. rewrite app_nil_r in E. done.
Qed.

Lemma span_digits_app ds rest :
  forallb is_digit ds = true -> match rest with c :: _ => is_digit c = false | [] => True end ->
  span_digits (ds ++ rest) = (ds, rest).
Proof.
  intros Hd Hr. induction ds as [|c ds IH]; cbn in *.
  - destruct rest; cbn; [done|]. by rewrite Hr.
  - apply andb_prop in Hd as [-> Hd]. by rewrite IH.
Qed.

(** What may follow a value inside a document. *)
Definition delimited (rest : list Z) : Prop :=
  match rest with c :: _ => c = 44 \/ c = 93 \/ c = 125 \/ c = 58 | [] => True end.

Lemma eat_eq c l : eat c (c :: l) = Some l.
Proof. cbn. by rewrite Z.eqb_refl. Qed.
Lemma eat_ne c d l : d <> c -> eat c (d :: l) = None.
Proof. intros Hne. cbn. by apply Z.eqb_neq in Hne as ->. Qed.

Lemma delimited_cases rest : delimited rest -> rest = [] \/ exists c r, rest = c :: r /\ c ∈ [44; 93; 125; 58].
Proof. destruct rest as [|c r]; cbn; [by left|]. intros H. right. exists c, r. set_solver. Qed.

Lemma scan_nondigit rest : delimited rest ->
  match rest with c :: _ => is_digit c = false | [] => True end /\ scan_frac rest = ([], rest) /\ scan_exp rest = ([], rest).
Proof. intros [->|(c & r & -> & Hc)]%delimited_cases; [done|]. set_unfold in Hc. destruct_or! Hc; simplify_eq; done. Qed.

Lemma scan_number_int z rest :
  delimited rest -> zlen (digits (Z.abs z)) <= INT_MAX_STR_DIGITS ->
  scan_number (int_chars z ++ rest) = Ok (VInt z, rest).
Proof.
  intros Hr Hl. destruct (scan_nondigit rest Hr) as (Hnd & Hfr & Hex).
  destruct (digits_spec (Z.abs z) ltac:(lia)) as (c & ds & E & Hd & Hv & Hz). rewrite E in Hl.
  assert (Hc : c <> 45) by (intros ->; done).
  assert (Hi : scan_int (int_chars z ++ rest) = Some (z <? 0, c :: ds, rest)).
  { unfold scan_int, int_chars. destruct (Z.ltb_spec z 0) as [Hn|Hn].
    - replace (- z) with (Z.abs z) by lia. rewrite E. cbn [app]. rewrite eat_eq.
      destruct (Z.eq_dec c 48) as [->|Hne]; [destruct Hz; [done|]; lia|].
      rewrite eat_ne by done. change (c :: ds ++ rest) with ((c :: ds) ++ rest). by rewrite span_digits_app.
    - replace z with (Z.abs z) by lia. rewrite E. cbn [app]. rewrite eat_ne by done.
      destruct (Z.eq_dec c 48) as [->|Hne]; [destruct Hz as [_ ->]; [done|]; by rewrite eat_eq|].
      rewrite eat_ne by done. change (c :: ds ++ rest) with ((c :: ds) ++ rest). by rewrite span_digits_app. }
  unfold scan_number. rewrite Hi, Hfr, Hex. cbn [app].
  destruct (Z.ltb_spec INT_MAX_STR_DIGITS (zlen (c :: ds))); [lia|].
  rewrite Hv. destruct (Z.ltb_spec z 0); do 3 f_equal; lia.
Qed.

Lemma hex_value_char d : 0 <= d < 16 -> hex_value (hex_char d) = Some d.
Proof.
  intros Hd. unfold hex_char, hex_value. destruct (Z.ltb_spec d 10).
  - replace ((48 <=? 48 + d) && (48 + d <=? 57)) with true by lia. f_equal. lia.
  - replace ((48 <=? 87 + d) && (87 + d <=? 57)) with false by lia.
    replace ((65 <=? 87 + d) && (87 + d <=? 70)) with false by lia.
    replace ((97 <=? 87 + d) && (87 + d <=? 102)) with true by lia. f_equal. lia.
Qed.

Lemma scan_control c l : 0 <= c < 32 ->
  scan_escape (117 :: 48 :: 48 :: hex_char (c / 16) :: hex_char (c mod 16) :: l) = Some (c, l).
Proof.
  intros Hc. unfold scan_escape, scan_u, hex4. cbn [Z.eqb Pos.eqb].
  pose proof (Z.mod_pos_bound c 16 ltac:(lia)). pose proof (Z.div_mod c 16 ltac:(lia)).
  assert (0 <= c / 16 < 2) by (split; [apply Z.div_pos|apply Z.div_lt_upper_bound]; lia).
  rewrite !hex_value_char by lia. cbn [hex_value]. cbn -[Z.mul Z.add Z.div Z.modulo scan_low].
  replace ((((48 - 48) * 16 + (48 - 48)) * 16 + c / 16) * 16 + c mod 16) with c by lia.
  replace (scan_low c l) with (@None (Z * list Z)); [done|]. symmetry. unfold scan_low.
  destruct l as [|d l]; [done|]. destruct (d =? 92); [|done]. destruct (scan_u l) as [[u r]|]; [|done]. cbn.
  unfold surrogate_pair. by replace (55296 <=? c) with false by lia.
Qed.

Lemma scan_string_escape fuel c l : 0 <= c ->
  scan_string (S fuel) (escape_char c ++ l) = (p ← scan_string fuel l; Ok (c :: p.1, p.2)).
Proof.
  intros Hc. unfold escape_char.
  repeat match goal with |- context [if c =? ?k then _ else _] => destruct (Z.eqb_spec c k) as [->|] end; try done.
  destruct (Z.ltb_spec c 32).
  - cbn [app scan_string]. cbn [Z.eqb Pos.eqb]. by rewrite scan_control.
  - cbn [app scan_string]. replace (c =? 34) with false by lia. replace (c =? 92) with false by lia.
    by replace (c <? 32) with false by lia.
Qed.

Lemma scan_string_dump cps fuel rest :
  Forall (fun c => 0 <= c) cps -> (length cps < fuel)%nat ->
  scan_string fuel (concat (map escape_char cps) ++ 34 :: rest) = Ok (cps, rest).
Proof.
  revert fuel. induction cps as [|c cps IH]; intros [|fuel] Hc Hf; cbn in Hf; try lia; [done|].
  apply Forall_cons in Hc as [? ?]. cbn [map concat]. rewrite <- app_assoc, scan_string_escape by done.
  rewrite IH by (done || lia). done.
Qed.

Lemma escapes_length cps : (length cps <= length (concat (map escape_char cps)))%nat.
Proof.
  induction cps as [|c cps IH]; [done|]. cbn [map concat length]. rewrite length_app.
  assert (1 <= length (escape_char c))%nat by (unfold escape_char; repeat case_match; cbn; lia). lia.
Qed.

Definition str_ok (s : pystr) : Prop := Forall (fun c => 0 <= c) (code_points s).

Lemma parse_string_dump s rest : str_ok s ->
  parse_string (concat (map escape_char (code_points s)) ++ 34 :: rest) = Ok (s, rest).
Proof.
  intros Hs. unfold parse_string. rewrite scan_string_dump; [by destruct s|done|].
  rewrite length_app. pose proof (escapes_length (code_points s)). lia.
Qed.

(** Nested induction over JSON values. *)
Section value_ind.
Context (P : value -> Prop) (Hnone : P VNone) (Hbool : forall b, P (VBool b)) (Hint : forall z, P (VInt z))
  (Hfloat : forall r, P (VFloat r)) (Hstr : forall s, P (VStr s))
  (Hlist : forall l, Forall P l -> P (VList l))
  (Hdict : forall d, Forall (fun kv => P kv.2) d -> P (VDict d)).
Fixpoint value_nested_ind (v : value) : P v :=
  match v with
  | VNone => Hnone | VBool b => Hbool b | VInt z => Hint z | VFloat r => Hfloat r | VStr s => Hstr s
  | VList l => Hlist l ((fix go l : Forall P l := match l with [] => @List.Forall_nil _ _ | v :: l => @List.Forall_cons _ _ _ _ (value_nested_ind v) (go l) end) l)
  | VDict d => Hdict d ((fix go d : Forall (fun kv => P kv.2) d := match d with [] => @List.Forall_nil _ _ | kv :: d => @List.Forall_cons _ _ _ _ (value_nested_ind kv.2) (go d) end) d)
  end.
End value_ind.

(** Values a round trip preserves: no floats, integers within Python's conversion limit, code points
    for characters and one entry per key. *)
Fixpoint dumpable (v : value) : Prop :=
  match v with
  | VNone | VBool _ => True
  | VInt z => zlen (digits (Z.abs z)) <= INT_MAX_STR_DIGITS
  | VFloat _ => False
  | VStr s => str_ok s
  | VList l => (fix go l := match l with [] => True | v :: l => dumpable v /\ go l end) l
  | VDict d => NoDup (map fst d) /\ (fix go d := match d with [] => True | kv :: d => str_ok kv.1 /\ dumpable kv.2 /\ go d end) d
  end.

Definition dump_items : list value -> list Z :=
  fix items l := match l with [] => [93] | [v] => dump v ++ [93] | v :: l => dump v ++ 44 :: items l end.
Definition dump_members : list (pystr * value) -> list Z :=
  fix members d := match d with
    | [] => [125]
    | [(k, v)] => dump_str k ++ 58 :: dump v ++ [125]
    | (k, v) :: d => dump_str k ++ 58 :: dump v ++ 44 :: members d
    end.

(** The first character of a dumped value. *)
Definition value_start (c : Z) : Prop := is_ws c = false /\ c <> 93 /\ c <> 125.

Lemma int_chars_head z : exists c l, int_chars z = c :: l /\ (c = 45 \/ is_digit c = true).
Proof.
  unfold int_chars. destruct (Z.ltb_spec z 0); [eauto|].
  destruct (digits_spec z ltac:(lia)) as (c & ds & -> & Hd & _). cbn in Hd. apply andb_prop in Hd as [? _]. eauto.
Qed.

Lemma dump_head v : dumpable v -> exists c l, dump v = c :: l /\ value_start c.
Proof.
  destruct v as [|[]|z|r|s|l|d]; cbn; intros Hv; try done; try (by eexists _, _).
  destruct (int_chars_head z) as (c & l & -> & Hc). exists c, l. split; [done|].
  unfold value_start, is_ws, is_digit in *. destruct Hc as [->|Hc]; [done|]. split_and!; lia.
Qed.

Lemma skip_ws_start c l : is_ws c = false -> skip_ws (c :: l) = c :: l.
Proof. intros Hc. unfold skip_ws. cbn. by rewrite Hc. Qed.

Lemma skip_ws_delimited rest : delimited rest -> skip_ws rest = rest.
Proof. intros [->|(c & r & -> & Hc)]%delimited_cases; [done|]. apply skip_ws_start. set_unfold in Hc. by destruct_or! Hc; simplify_eq. Qed.

Lemma literal_ne word w ws v c l : code_points word = w :: ws -> w <> c -> literal word v (c :: l) = None.
Proof. intros Hw Hne. unfold literal. rewrite Hw. cbn -[Z.eqb]. by apply Z.eqb_neq in Hne as ->. Qed.

Lemma scan_literal_int z rest : delimited rest -> zlen (digits (Z.abs z)) <= INT_MAX_STR_DIGITS ->
  scan_literal (int_chars z ++ rest) = Ok (VInt z, rest).
Proof.
  intros Hr Hl. rewrite <- (scan_number_int z rest) by done.
  destruct (int_chars_head z) as (c & l & E & Hc).
  unfold scan_literal. rewrite E. cbn [app].
  repeat (erewrite literal_ne; [|done|unfold is_digit in Hc; intros <-; destruct Hc; done]).
  destruct (literal "-Infinity" _ _) eqn:El; [|done]. exfalso. revert E El. unfold int_chars.
  destruct (Z.ltb_spec z 0) as [Hz|Hz].
  - destruct (digits_spec (- z) ltac:(lia)) as (d & ds & -> & Hd & _). intros [= <- <-]. cbn in Hd.
    apply andb_prop in Hd as [Hd _]. unfold is_digit in Hd. unfold literal. cbn -[Z.eqb].
    by replace (73 =? d) with false by lia.
  - destruct (digits_spec z ltac:(lia)) as (d & ds & -> & Hd & _). intros [= <- <-]. cbn in Hd.
    apply andb_prop in Hd as [Hd _]. unfold is_digit in Hd. unfold literal. cbn -[Z.eqb].
    by replace (45 =? d) with false by lia.
Qed.

(** [scan_value] reads back a dumped value and stops right after it. *)
Definition reads_back (v : value) : Prop := forall fuel rest,
  delimited rest -> (2 * length (dump v) <= fuel)%nat -> scan_value fuel (dump v ++ rest) = Ok (v, rest).

Lemma dump_nonempty v : dumpable v -> (1 <= length (dump v))%nat.
Proof. intros Hv. destruct (dump_head v Hv) as (c & l & -> & _). cbn. lia. Qed.

Lemma scan_items_dump l fuel rest :
  l <> [] -> Forall (fun v => reads_back v /\ dumpable v) l -> (2 * length (dump_items l) <= fuel)%nat ->
  scan_items fuel (dump_items l ++ rest) = Ok (l, rest).
Proof.
  revert fuel. induction l as [|v l IH]; intros fuel Hne Hl Hf; [done|]. apply Forall_cons in Hl as [[Hv Hd] Hl].
  destruct l as [|w l].
  - cbn [dump_items] in *. rewrite length_app in Hf. cbn in Hf. destruct fuel as [|fuel]; [lia|].
    rewrite <- app_assoc. cbn [scan_items app]. rewrite Hv by (cbn; auto || lia). cbn -[eat]. by rewrite eat_eq.
  - change (dump_items (v :: w :: l)) with (dump v ++ 44 :: dump_items (w :: l)) in *.
    rewrite length_app in Hf. cbn [length] in Hf. destruct fuel as [|fuel]; [lia|].
    rewrite <- app_assoc. cbn [scan_items app]. rewrite Hv by (cbn; auto || lia). cbn -[eat scan_items dump_items].
    rewrite eat_ne, eat_eq by done. apply Forall_cons in Hl as [[Hw Hdw] Hl].
    destruct (dump_head w Hdw) as (c & r & Ec & Hc & _).
    assert (Es : exists r', dump_items (w :: l) = c :: r').
    { destruct l; cbn; rewrite Ec; eauto. }
    destruct Es as [r' Es]. assert (Hws : skip_ws (dump_items (w :: l) ++ rest) = dump_items (w :: l) ++ rest).
    { rewrite Es. cbn [app]. by apply skip_ws_start. }
    rewrite Hws, IH; [done|done|by apply List.Forall_cons|]. pose proof (dump_nonempty v Hd). lia.
Qed.

Lemma dict_set_fresh k v d : k ∉ map fst d -> dict_set k v d = d ++ [(k, v)].
Proof.
  induction d as [|[k' v'] d IH]; cbn; [done|]. intros Hk. apply not_elem_of_cons in Hk as [Hne Hk].
  by rewrite bool_decide_eq_false_2, IH.
Qed.

Lemma scan_members_dump d acc fuel rest :
  d <> [] -> Forall (fun kv => reads_back kv.2 /\ dumpable kv.2 /\ str_ok kv.1) d -> NoDup (map fst (acc ++ d)) ->
  (2 * length (dump_members d) <= fuel)%nat -> scan_members fuel (dump_members d ++ rest) acc = Ok (acc ++ d, rest).
Proof.
  revert acc fuel. induction d as [|[k v] d IH]; intros acc fuel Hne Hd Hnd Hf; [done|].
  apply Forall_cons in Hd as [(Hv & Hdv & Hk) Hd]. cbn in Hv, Hdv, Hk. pose proof (dump_nonempty v Hdv).
  assert (Hset : dict_set k v acc = acc ++ [(k, v)]).
  { apply dict_set_fresh. rewrite map_app in Hnd. apply NoDup_app in Hnd as (_ & Hn & _). intros Hin.
    apply (Hn k Hin). by left. }
  destruct (dump_head v Hdv) as (c & r & Ec & Hc & _).
  assert (Hws : forall t, skip_ws (dump v ++ t) = dump v ++ t) by (intros; rewrite Ec; by apply skip_ws_start).
  assert (Hstep : forall fuel tail, (2 * length (dump v) <= fuel)%nat -> delimited tail ->
    scan_members (S fuel) (dump_str k ++ 58 :: dump v ++ tail) acc =
    match eat 125 tail, eat 44 tail with
    | Some rest, _ => Ok (acc ++ [(k, v)], rest)
    | _, Some rest => scan_members fuel (skip_ws rest) (acc ++ [(k, v)])
    | None, None => Err JSONDecodeError
    end).
  { intros fuel0 tail Hf0 Ht. cbn [scan_members]. unfold dump_str. cbn [app]. rewrite eat_eq. cbn [from_option_res mbind res_bind].
    rewrite <- app_assoc. cbn [app]. rewrite parse_string_dump by done. cbn [mbind res_bind fst snd].
    rewrite skip_ws_start, eat_eq by done. cbn [from_option_res mbind res_bind].
    rewrite Hws, Hv by done. cbn [mbind res_bind fst snd]. by rewrite skip_ws_delimited, Hset. }
  destruct d as [|[k2 v2] d].
  - cbn [dump_members] in *. rewrite length_app in Hf. cbn [length] in Hf. rewrite length_app in Hf. cbn [length] in Hf.
    destruct fuel as [|fuel]; [lia|]. rewrite <- app_assoc. cbn [app]. rewrite <- app_assoc. cbn [app].
    rewrite Hstep by (cbn; auto || lia). by rewrite eat_eq.
  - change (dump_members ((k, v) :: (k2, v2) :: d)) with (dump_str k ++ 58 :: dump v ++ 44 :: dump_members ((k2, v2) :: d)) in *.
    rewrite length_app in Hf. cbn [length] in Hf. rewrite length_app in Hf. cbn [length] in Hf.
    destruct fuel as [|fuel]; [lia|]. rewrite <- app_assoc. cbn [app]. rewrite <- app_assoc. cbn [app].
    rewrite Hstep by (cbn; auto || lia). rewrite eat_ne, eat_eq by done.
    assert (Es : exists r', dump_members ((k2, v2) :: d) = 34 :: r') by (destruct d; cbn; eauto). destruct Es as [r' Es].
    assert (Hws2 : skip_ws (dump_members ((k2, v2) :: d) ++ rest) = dump_members ((k2, v2) :: d) ++ rest).
    { rewrite Es. by apply skip_ws_start. }
    rewrite Hws2, IH; [by rewrite <- app_assoc|done|done|by rewrite <- app_assoc|lia].
Qed.

Lemma dumpable_list l : dumpable (VList l) <-> Forall dumpable l.
Proof. cbn. induction l as [|v l IH]; [by split|]. rewrite Forall_cons, IH. done. Qed.
Lemma dumpable_dict d : dumpable (VDict d) <-> NoDup (map fst d) /\ Forall (fun kv => str_ok kv.1 /\ dumpable kv.2) d.
Proof.
  cbn. apply and_iff_compat_l. induction d as [|v d IH]; [by split|]. rewrite Forall_cons, IH. tauto.
Qed.

Lemma dump_reads_back v : dumpable v -> reads_back v.
Proof.
  induction v as [|[]|z|r|s|l IH|d IH] using value_nested_ind; intros Hv [|fuel] rest Hr Hf;
    try (pose proof (dump_nonempty _ Hv); cbn in *; lia); try done.
  - destruct (int_chars_head z) as (c & l & E & Hc). rewrite <- (scan_literal_int z rest) by done.
    cbn [dump scan_value]. rewrite E. cbn [app]. unfold is_digit in Hc. rewrite !eat_ne; [done|lia..].
  - cbn [dump scan_value]. unfold dump_str. cbn [app]. rewrite eat_eq, <- app_assoc. cbn [app].
    rewrite parse_string_dump by done. done.
  - apply dumpable_list in Hv. change (dump (VList l)) with (91 :: dump_items l) in *.
    cbn [app scan_value]. rewrite eat_ne, eat_eq by done. cbn [length] in Hf.
    destruct l as [|v l]; [done|]. assert (Hv' := Hv). apply Forall_cons in Hv' as [Hd _].
    destruct (dump_head v Hd) as (c & r & Ec & Hc & Hne & _).
    assert (Es : exists r', dump_items (v :: l) ++ rest = c :: r') by (destruct l; cbn; rewrite Ec; cbn; eauto).
    destruct Es as [r' Es]. assert (Hws : skip_ws (dump_items (v :: l) ++ rest) = dump_items (v :: l) ++ rest).
    { rewrite Es. by apply skip_ws_start. }
    rewrite Hws, Es, eat_ne, <- Es by done. rewrite scan_items_dump; [done|done| |lia].
    apply Forall_forall. intros w Hw. rewrite Forall_forall in IH, Hv. auto.
  - apply dumpable_dict in Hv as [Hnd Hv]. change (dump (VDict d)) with (123 :: dump_members d) in *.
    cbn [app scan_value]. rewrite !eat_ne, eat_eq by done. cbn [length] in Hf.
    destruct d as [|[k v] d]; [done|].
    assert (Es : exists r', dump_members ((k, v) :: d) ++ rest = 34 :: r') by (destruct d; cbn; eauto).
    destruct Es as [r' Es]. assert (Hws : skip_ws (dump_members ((k, v) :: d) ++ rest) = dump_members ((k, v) :: d) ++ rest).
    { rewrite Es. by apply skip_ws_start. }
    rewrite Hws, Es, eat_ne, <- Es by done. rewrite scan_members_dump; [done|done| |done|lia].
    apply Forall_forall. intros w Hw. rewrite Forall_forall in IH, Hv. destruct (Hv w Hw). auto.
Qed.

(** [json.loads(json.dumps(v)) == v] *)
Lemma json_loads_dumps v : dumpable v -> json_loads (json_dumps v) = Ok v.
Proof.
  intros Hv. unfold json_loads, json_dumps. cbn [code_points].
  destruct (dump_head v Hv) as (c & l & E & Hc & _). rewrite E, skip_ws_start, <- E by done.
  pose proof (dump_reads_back v Hv (S (2 * length (dump v))) [] I ltac:(lia)) as Hr.
  rewrite app_nil_r in Hr. by rewrite Hr.
Qed.

Lemma b64_value_char d : 0 <= d < 64 -> b64_value (b64_char d) = Some d.
Proof.
  intros Hd. unfold b64_char, b64_value.
  destruct (Z.ltb_spec d 26); [replace ((65 <=? 65 + d) && (65 + d <=? 90)) with true by lia; f_equal; lia|].
  destruct (Z.ltb_spec d 52).
  { replace ((65 <=? 71 + d) && (71 + d <=? 90)) with false by lia.
    replace ((97 <=? 71 + d) && (71 + d <=? 122)) with true by lia. f_equal; lia. }
  destruct (Z.ltb_spec d 62).
  { replace ((65 <=? d - 4) && (d - 4 <=? 90)) with false by lia.
    replace ((97 <=? d - 4) && (d - 4 <=? 122)) with false by lia.
    replace ((48 <=? d - 4) && (d - 4 <=? 57)) with true by lia. f_equal; lia. }
  destruct (Z.eqb_spec d 62) as [->|]; [done|]. by replace d with 63 by lia.
Qed.

(** Three bytes at a time. *)
Lemma list_ind3 {A} (P : list A -> Prop) :
  P [] -> (forall a, P [a]) -> (forall a b, P [a; b]) -> (forall a b c l, P l -> P (a :: b :: c :: l)) -> forall l, P l.
Proof.
  intros H0 H1 H2 H3. fix IH 1. intros [|a [|b [|c l]]]; [done|done|done|]. apply H3, IH.
Qed.

Lemma b64_decode_encode l : Forall (fun b => 0 <= b < 256) l -> b64_decode (b64_encode l) = Some l.
Proof.
  induction l as [|a|a b|a b c l IH] using list_ind3; intros Hl; [done|..];
    repeat (apply Forall_cons in Hl as [? Hl]);
    pose proof (Z.div_mod a 4 ltac:(lia)); pose proof (Z.mod_pos_bound a 4 ltac:(lia));
    try (pose proof (Z.div_mod b 16 ltac:(lia)); pose proof (Z.mod_pos_bound b 16 ltac:(lia)));
    try (pose proof (Z.div_mod c 64 ltac:(lia)); pose proof (Z.mod_pos_bound c 64 ltac:(lia)));
    cbn [b64_encode b64_decode]; rewrite !b64_value_char by lia; cbn [mbind option_bind].
  - f_equal. f_equal. Z.to_euclidean_division_equations; lia.
  - f_equal. f_equal; [|f_equal]; Z.to_euclidean_division_equations; lia.
  - rewrite IH by done. cbn -[Z.add Z.mul]. f_equal. f_equal; [|f_equal; [|f_equal]]; Z.to_euclidean_division_equations; lia.
Qed.

Lemma b64_encode_length l : (3 * length (b64_encode l) <= 4 * length l + 4)%nat.
Proof. induction l as [|a|a b|a b c l IH] using list_ind3; cbn in *; lia. Qed.
