(* ===== verification/Cursor.v ===== *)
(** * Stream cursors

    [encode_stream_cursor] and [parse_last_event_cursor] of
    [packages/api/app_core/agent_run_stream.py]: the [Last-Event-ID] a client sends back to resume
    the event stream of a run.  The text is JSON in unpadded base64; the theorem says which texts
    are accepted. *)

From stdpp Require Import base tactics numbers gmap list sorting.
From S2P Require Import Prelude PyStr Utf8 PyValue Json Schema.

Definition CURSOR_SCHEMA : pystr := "session.stream.cursor.v1".
Definition CURSOR_PREFIX : pystr := "v1.".
Definition CURSOR_MAX_LENGTH : Z := 512.

Definition cursor_payload (agent_run_id : pystr) (source_sequence : Z) : value :=
  VDict [("schema", VStr CURSOR_SCHEMA); ("agentRunId", VStr agent_run_id); ("sourceSequence", VInt source_sequence)].

Definition encode_stream_cursor (agent_run_id : pystr) (source_sequence : Z) : res exn pystr :=
  if source_sequence <? 0 then Err (ValueError "source_sequence_invalid")
  else if source_sequence =? 0 then Ok "0-0"
  else
    (* json.dumps refuses integers beyond Python's conversion limit *)
    require (zlen (digits source_sequence) <=? INT_MAX_STR_DIGITS) (ValueError "int_too_long");;
    payload ← from_option_res UnicodeEncodeError
      (utf8_encode (json_dumps (sort_keys (cursor_payload agent_run_id source_sequence))));
    Ok (CURSOR_PREFIX +:+ PyStr (b64_encode payload)).

(** [CURSOR_PAYLOAD.fullmatch] *)
Definition cursor_payload_chars (s : pystr) : bool :=
  negb (is_empty s) && chars_all (fun c => is_ascii_alnum c || (c =? 95) || (c =? 45)) s.

Definition decode_cursor_payload (encoded : pystr) : option value :=
  raw ← b64_decode (code_points encoded);
  text ← utf8_decode raw;
  match json_loads text with Ok v => Some v | Err _ => None end.

Definition parse_last_event_cursor (value : pystr) (agent_run_id : pystr) : res exn Z :=
  if is_empty value || bool_decide (value = "0-0") then Ok 0
  else
    let invalid := ValueError "last_event_id_invalid" in
    require (negb ((CURSOR_MAX_LENGTH <? str_len value) || negb (startswith value CURSOR_PREFIX)
                   || negb (cursor_payload_chars (removeprefix value CURSOR_PREFIX)))) invalid;;
    payload ← from_option_res invalid (decode_cursor_payload (removeprefix value CURSOR_PREFIX));
    require (keys_are ["schema"; "agentRunId"; "sourceSequence"] payload) invalid;;
    require (is_str CURSOR_SCHEMA (get "schema" payload) && is_str agent_run_id (get "agentRunId" payload)) invalid;;
    source_sequence ← from_option_res invalid (as_int (get "sourceSequence" payload));
    require (0 <? source_sequence) invalid;;
    canonical ← encode_stream_cursor agent_run_id source_sequence;
    require (bool_decide (canonical = value)) invalid;;
    Ok source_sequence.

(** ** Which cursors are accepted *)

(** Run identifiers as the lifecycle scheduler accepts them, and sequences of a
    [PositiveIntegerField]. *)
Definition run_id_chars (c : Z) : bool := is_ascii_alnum c || existsb (Z.eqb c) [95; 45; 46].
Definition schedulable_run_id (s : pystr) : bool :=
  (1 <=? str_len s) && (str_len s <=? 128) && chars_all run_id_chars s.
Definition MAX_SEQUENCE : Z := 2147483647.

Lemma sorted_cursor_payload run n :
  sort_keys (cursor_payload run n) =
  VDict [("agentRunId", VStr run); ("schema", VStr CURSOR_SCHEMA); ("sourceSequence", VInt n)].
Proof. vm_compute. reflexivity. Qed.

Lemma run_id_char_plain c : run_id_chars c = true -> escape_char c = [c] /\ 0 <= c < 128.
Proof.
  unfold run_id_chars, is_ascii_alnum, escape_char. cbn [existsb]. intros Hc.
  repeat match goal with |- context [if c =? ?k then _ else _] => replace (c =? k) with false by lia end.
  replace (c <? 32) with false by lia. split; [done|lia].
Qed.

Lemma run_id_escapes cps : forallb run_id_chars cps = true ->
  concat (map escape_char cps) = cps /\ Forall (fun c => 0 <= c < 128) cps.
Proof.
  induction cps as [|c cps IH]; cbn; [done|]. intros [Hc Hcs]%andb_prop.
  destruct (run_id_char_plain c Hc) as [-> ?]. destruct (IH Hcs) as [-> ?]. split; [done|by apply List.Forall_cons].
Qed.

Lemma utf8_encode_ascii cps : Forall (fun c => 0 <= c < 128) cps -> utf8_encode (PyStr cps) = Some cps.
Proof.
  intros Hc. unfold utf8_encode. cbn [code_points].
  replace (forallb is_scalar cps) with true.
  - f_equal. induction Hc as [|c cps Hc Hcs IH]; [done|]. unfold encode_cps in *. cbn. rewrite IH.
    unfold encode_cp. by replace (c <? 128) with true by lia.
  - symmetry. apply forallb_Forall. eapply Forall_impl; [done|]. intros c Hs. cbn beta in *. unfold is_scalar. lia.
Qed.

Lemma digits_range n : 0 <= n -> Forall (fun c => 0 <= c < 128) (digits n).
Proof.
  intros Hn. destruct (digits_spec n Hn) as (c & ds & -> & Hd & _). apply forallb_Forall in Hd.
  eapply Forall_impl; [done|]. intros d. cbn beta. unfold is_digit. lia.
Qed.

Lemma digits_loop_length fuel n acc : (length (digits_loop fuel n acc) <= fuel + length acc)%nat.
Proof.
  revert n acc. induction fuel as [|fuel IH]; intros n acc; cbn; [lia|]. case_match; cbn; [lia|].
  etrans; [apply IH|]. cbn. lia.
Qed.
Lemma digits_length n : n <= MAX_SEQUENCE -> zlen (digits n) <= 31.
Proof.
  intros Hn. unfold digits, zlen. pose proof (digits_loop_length (S (Z.to_nat (Z.log2 n))) n []) as Hl. cbn [length] in Hl.
  assert (Z.log2 n <= 30); [|lia].
  destruct (Z.le_gt_cases n 0); [rewrite Z.log2_nonpos; lia|].
  apply Z.lt_succ_r, Z.log2_lt_pow2; [lia|]. unfold MAX_SEQUENCE in *. cbn. lia.
Qed.

(** The payload of a cursor, as bytes. *)
Lemma cursor_bytes run n : chars_all run_id_chars run = true -> 0 < n ->
  exists raw, utf8_encode (json_dumps (sort_keys (cursor_payload run n))) = Some raw /\
    Forall (fun b => 0 <= b < 128) raw /\ zlen raw = 71 + str_len run + zlen (digits n).
Proof.
  intros Hr Hn. rewrite sorted_cursor_payload. unfold chars_all in Hr.
  destruct (run_id_escapes _ Hr) as [He Hb]. unfold json_dumps.
  exists (dump (VDict [("agentRunId", VStr run); ("schema", VStr CURSOR_SCHEMA); ("sourceSequence", VInt n)])).
  assert (Ed : dump (VDict [("agentRunId", VStr run); ("schema", VStr CURSOR_SCHEMA); ("sourceSequence", VInt n)]) =
    123 :: dump_str "agentRunId" ++ 58 :: (34 :: code_points run ++ [34]) ++ 44 ::
    dump_str "schema" ++ 58 :: dump_str CURSOR_SCHEMA ++ 44 :: dump_str "sourceSequence" ++ 58 :: digits n ++ [125]).
  { cbn [dump]. unfold dump_str at 2. rewrite He. unfold int_chars. by replace (n <? 0) with false by lia. }
  rewrite Ed. assert (Hall : Forall (fun c => 0 <= c < 128) (123 :: dump_str "agentRunId" ++ 58 :: (34 :: code_points run ++ [34]) ++ 44 ::
    dump_str "schema" ++ 58 :: dump_str CURSOR_SCHEMA ++ 44 :: dump_str "sourceSequence" ++ 58 :: digits n ++ [125])).
  { pose proof (digits_range n ltac:(lia)). repeat (apply List.Forall_cons || apply Forall_app_2);
      try done; try lia; by_decide. }
  split; [by apply utf8_encode_ascii|]. split; [done|]. unfold str_len.
  autorewrite with zlen. change (zlen (dump_str "agentRunId")) with 12. change (zlen (dump_str "schema")) with 8.
  change (zlen (dump_str CURSOR_SCHEMA)) with 26. change (zlen (dump_str "sourceSequence")) with 16. lia.
Qed.

Lemma b64_char_ok d : is_ascii_alnum (b64_char d) || (b64_char d =? 95) || (b64_char d =? 45) = true \/ ~ 0 <= d < 64.
Proof.
  destruct (decide (0 <= d < 64)) as [Hd|]; [left|by right]. unfold b64_char, is_ascii_alnum.
  destruct (Z.ltb_spec d 26); [lia|]. destruct (Z.ltb_spec d 52); [lia|]. destruct (Z.ltb_spec d 62); [lia|].
  destruct (Z.eqb_spec d 62); lia.
Qed.

Lemma b64_encode_chars l : Forall (fun b => 0 <= b < 256) l ->
  forallb (fun c => is_ascii_alnum c || (c =? 95) || (c =? 45)) (b64_encode l) = true.
Proof.
  assert (Hc : forall d, 0 <= d < 64 -> is_ascii_alnum (b64_char d) || (b64_char d =? 95) || (b64_char d =? 45) = true).
  { intros d Hd. by destruct (b64_char_ok d). }
  induction l as [|a|a b|a b c l IH] using list_ind3; intros Hl; [done|..];
    repeat (apply Forall_cons in Hl as [? Hl]); cbn [b64_encode forallb];
    rewrite ?Hc by (Z.to_euclidean_division_equations; lia); [done..|]. by apply IH.
Qed.

Lemma encode_cursor_accepted run n : schedulable_run_id run = true -> 0 < n <= MAX_SEQUENCE ->
  exists v, encode_stream_cursor run n = Ok v /\ parse_last_event_cursor v run = Ok n.
Proof.
  unfold schedulable_run_id. intros [[Hl1 Hl2]%andb_prop Hr]%andb_prop Hn. bool_inv.
  pose proof (digits_length n ltac:(lia)) as Hd.
  destruct (cursor_bytes run n Hr ltac:(lia)) as (raw & Eraw & Hraw & Hlen).
  set (v := CURSOR_PREFIX +:+ PyStr (b64_encode raw)).
  assert (Ev : encode_stream_cursor run n = Ok v).
  { unfold encode_stream_cursor. replace (n <? 0) with false by lia. replace (n =? 0) with false by lia.
    replace (zlen (digits n) <=? INT_MAX_STR_DIGITS) with true by (unfold INT_MAX_STR_DIGITS; lia).
    cbn [require mbind res_bind]. by rewrite Eraw. }
  exists v. split; [done|]. unfold parse_last_event_cursor.
  assert (Hne : b64_encode raw <> []).
  { destruct raw as [|a [|b [|c raw]]]; cbn; try done. rewrite zlen_nil in Hlen. pose proof (zlen_nonneg (digits n)). lia. }
  replace (is_empty v || bool_decide (v = "0-0")) with false by (symmetry; apply orb_false_iff; by rewrite bool_decide_eq_false).
  replace (removeprefix v CURSOR_PREFIX) with (PyStr (b64_encode raw)) by (symmetry; apply removeprefix_app).
  assert (Hv : str_len v <= CURSOR_MAX_LENGTH).
  { unfold v. rewrite str_len_app. unfold str_len at 2. cbn [code_points]. pose proof (b64_encode_length raw).
    unfold zlen in *. change (str_len CURSOR_PREFIX) with 3. unfold CURSOR_MAX_LENGTH. lia. }
  replace (CURSOR_MAX_LENGTH <? str_len v) with false by lia.
  assert (Hb : Forall (fun b => 0 <= b < 256) raw) by (eapply Forall_impl; [done|]; cbn; lia).
  assert (Hsw : startswith v CURSOR_PREFIX = true) by apply startswith_app. rewrite Hsw. unfold cursor_payload_chars, chars_all. cbn [code_points].
  rewrite b64_encode_chars by done. replace (is_empty _) with false by (symmetry; by apply is_empty_false; intros [= ?]).
  cbn [negb orb andb require mbind res_bind].
  unfold decode_cursor_payload. cbn [code_points]. rewrite b64_decode_encode by done. cbn [mbind option_bind].
  rewrite (utf8_decode_encode _ _ Eraw). rewrite sorted_cursor_payload. cbn [mbind option_bind]. rewrite json_loads_dumps.
  - cbn [from_option_res mbind res_bind]. set (d := VDict _).
    replace (keys_are _ d) with true by reflexivity. cbn [require mbind res_bind].
    change (get "schema" d) with (VStr CURSOR_SCHEMA). change (get "agentRunId" d) with (VStr run).
    change (get "sourceSequence" d) with (VInt n). unfold is_str. cbn [as_str as_int].
    rewrite !bool_decide_eq_true_2 by done. cbn [andb require from_option_res mbind res_bind].
    replace (0 <? n) with true by lia. cbn [require mbind res_bind]. rewrite Ev. cbn [require mbind res_bind].
    by rewrite bool_decide_eq_true_2.
  - apply dumpable_dict. split; [by_decide|]. repeat apply List.Forall_cons; [| | |done]; cbn [fst snd].
    + split; [by_decide|]. cbn. unfold str_ok. destruct (run_id_escapes _ Hr) as [_ ?]. eapply Forall_impl; [done|]. cbn; lia.
    + split; by_decide.
    + split; [by_decide|]. cbn -[digits]. rewrite Z.abs_eq by lia. unfold INT_MAX_STR_DIGITS. lia.
Qed.

(** A run's cursors are canonical.  For every run identifier and event sequence the system can
    hold, the text [value] is accepted as the position [n] exactly when it is the start position (an
    empty header or [0-0]) or the very text [encode_stream_cursor] produces for [n]: what the server
    sent is always accepted back, and no other text, no cursor of another run and no re-encoding is. *)
Theorem parse_last_event_cursor_iff value run n :
  schedulable_run_id run = true -> n <= MAX_SEQUENCE ->
  (parse_last_event_cursor value run = Ok n <->
   (n = 0 /\ (value = "" \/ value = "0-0")) \/ (0 < n /\ encode_stream_cursor run n = Ok value)).
Proof.
  intros Hr Hn. split.
  - unfold parse_last_event_cursor. destruct (is_empty value || bool_decide (value = "0-0")) eqn:E.
    + intros [= <-]. left. split; [done|]. apply orb_true_iff in E as [E%is_empty_true|E%bool_decide_eq_true]; auto.
    + intros H. walk H. right. repeat match goal with H : require _ _ = Ok _ |- _ => apply require_Ok in H end.
      bool_inv. by subst.
  - intros [[-> [->| ->]]|[Hp He]]; [done|done|].
    destruct (encode_cursor_accepted run n Hr ltac:(lia)) as (v & Ev & Hv). rewrite Ev in He. by injection He as <-.
Qed.

Lemma parse_last_event_cursor_iff_witness :
  exists v, encode_stream_cursor "run-1" 42 = Ok v /\ parse_last_event_cursor v "run-1" = Ok 42.
Proof.
  destruct (encode_stream_cursor "run-1" 42) as [v|e] eqn:E; [|by vm_compute in E].
  exists v. split; [done|]. apply parse_last_event_cursor_iff; [reflexivity|by vm_compute|]. right. split; [lia|exact E].
Defined.
