(* ===== verification/RuntimeClient.v ===== *)
(** * Scheduling a run

    The part of [packages/api/app_core/runtime_client.py] that names lifecycle jobs and checks the
    job service's answer, and the JSON of the transition endpoint, as the worker sees them. *)

From stdpp Require Import base tactics numbers gmap list.
From S2P Require Import Prelude PyStr PyValue Schema Lifecycle.

Definition agent_run_lifecycle_job_id (agent_run_id : pystr) : res exn pystr :=
  require ((1 <=? str_len agent_run_id) && (str_len agent_run_id <=? 128)
           && chars_all (fun c => is_ascii_alnum c || existsb (Z.eqb c) [95; 45; 46]) agent_run_id)
    (ValueError "agent_run_lifecycle_agent_run_id_invalid");;
  Ok ("agent_run.lifecycle:" +:+ agent_run_id).

Definition AGENT_RUN_LIFECYCLE_JOB_KIND : pystr := "agent_run.lifecycle".

(** The job [schedule_agent_run_lifecycle] asks for; [run_at_ms] is the clock. *)
Definition lifecycle_schedule_body (agent_run_id digest session_id workspace_id : pystr) (run_at_ms : Z) : res exn value :=
  job_id ← agent_run_lifecycle_job_id agent_run_id;
  Ok (VDict [("schema", VStr "runtime.job.schedule.v1"); ("jobId", VStr job_id); ("jobKind", VStr AGENT_RUN_LIFECYCLE_JOB_KIND);
             ("runAtMs", VInt run_at_ms); ("maxRetries", VInt 10);
             ("idempotencyKey", VStr ("agent_run.lifecycle:" +:+ agent_run_id +:+ ":" +:+ digest));
             ("sessionId", VStr session_id); ("payloadRef", VStr ("record:agent_run:" +:+ agent_run_id));
             ("workspaceId", VStr workspace_id)]).

(** The check of the answer of [schedule_runtime_job]. *)
Definition schedule_response_valid (body payload : value) : bool :=
  let job := get "job" payload in
  str_in ["inserted"; "existing"] (get "disposition" payload)
  && match job with VDict _ => true | _ => false end
  && forallb (fun k => match as_str (get k body) with Some s => is_str s (get k job) | None => false end)
       ["jobId"; "jobKind"; "idempotencyKey"; "sessionId"; "payloadRef"]
  && str_in ["queued"; "leased"; "running"] (get "status" job).

(** [agent_run.status] as text *)
Definition status_str (s : run_status) : pystr :=
  match s with
  | Queued => "queued" | Running => "running" | Completed => "completed" | Failed => "failed" | Cancelled => "cancelled"
  end.

(** The JSON body of a successful transition. *)
Definition transition_reply (run_id : pystr) (s : run_status) : value :=
  VDict [("agentRunId", VStr run_id); ("state", VStr (status_str s))].
