(* ===== verification/Worker.v ===== *)
(** * The worker

    [packages/worker/worker.py]: claiming and executing runtime jobs, stepping an agent run,
    finishing it, failing it, and the terminal dispatcher and reconciler loops.

    The worker only talks to two services.  A run of the worker is a history of the requests it
    sent with what came back; the services are an arbitrary function of that history, so the
    theorems hold for every behaviour of the services, of the lease heartbeats and of the
    clock. *)

From stdpp Require Import base tactics list gmap numbers.
From S2P Require Import Prelude PyStr PyValue Utf8.

(** ** Exceptions *)

(** [RuntimeError] and its subclasses, and any other exception *)
Inductive wexn :=
| RuntimeError (reason : pystr)
| RuntimeJobCancelled (reason : pystr)
| DependencyUnavailable (reason : pystr) (http_status : option Z)
| RuntimeStepFailed (reason : pystr) (retryable : bool) (agent_run_id : pystr) (http_status : Z)
| OtherError (what : pystr).

(** [str(error)] *)
Definition exn_str (e : wexn) : pystr :=
  match e with
  | RuntimeError r | RuntimeJobCancelled r | DependencyUnavailable r _ | RuntimeStepFailed r _ _ _ | OtherError r => r
  end.

(** [isinstance(e, RuntimeError)] *)
Definition is_runtime_error (e : wexn) : bool := match e with OtherError _ => false | _ => true end.

(** ** Requests and histories *)

Inductive request :=
| JobHeartbeat (job_id owner : pystr)
| JobComplete (job_id owner : pystr)
| JobStart (job_id owner : pystr)
| JobYield (job_id owner : pystr) (run_at_ms : Z) (reason : pystr)
| JobGet (job_id : pystr)
| JobFail (job_id owner error : pystr) (retryable : bool)
| JobClaim (worker_id kind : pystr)
| JobWait
| RunResolve (job_id run_id digest : pystr)
| RunTransition (run_id state reason : pystr)
| RunStep (job_id owner : pystr) (start : value)
| RunTeardown (job_id owner : pystr) (start : value)
| OutboxPending
| OutboxWake (job_id : pystr) (generation : Z) (after : option (pystr * pystr))
| OutboxPublished (job_id event_type : pystr) (generation : Z)
| JobsReconcile
| LifecycleReconcile (active_after dead_letter_after : value)
| WaitersReconcile (after : option (pystr * pystr)).

(** What the HTTP layer hands back: a decoded body, an error status with its decoded body (if it
    is JSON), or no usable response. *)
Inductive transport :=
| Body (v : value)
| HttpError (status : Z) (payload : option value)
| Unreachable.

Definition history := list (request * transport).

Section worker.
(** The environment: services, lease thread, clock. *)
Context (services : history -> request -> transport).
Context (lease_error : history -> option wexn).
Context (clock : history -> Z).

(** Computations that talk to the services. *)
Definition W (A : Type) : Type := history -> res wexn A * history.
#[global] Instance W_ret : MRet W := fun A a h => (Ok a, h).
#[global] Instance W_bind : MBind W := fun A B f m h =>
  match m h with
  | (Ok a, h') => f a h'
  | (Err e, h') => (Err e, h')
  end.
Definition raise {A} (e : wexn) : W A := fun h => (Err e, h).
Definition w_require (b : bool) (e : wexn) : W unit := if b then mret tt else raise e.
(** [try: m except Exception as e: handler(e)] *)
Definition w_catch {A} (m : W A) (handler : wexn -> W A) : W A := fun h =>
  match m h with
  | (Err e, h') => handler e h'
  | r => r
  end.
Definition send (q : request) : W transport := fun h => let t := services h q in (Ok t, h ++ [(q, t)]).
Definition now_ms : W Z := fun h => (Ok (clock h), h).
Definition require_healthy_lease : W unit := fun h =>
  match lease_error h with Some e => (Err e, h) | None => (Ok tt, h) end.

Definition non_empty_str (v : value) : bool := match as_str v with Some s => negb (is_empty s) | None => false end.

(** [payload.get("error", default_reason)]; the reason is used as text *)
Definition error_reason (default_reason : pystr) (payload : value) : pystr :=
  if has_key "error" payload then match as_str (get "error" payload) with Some s => s | None => "None" end
  else default_reason.

(** ** HTTP *)

Definition _json_request (q : request) (default_reason : pystr) : W value :=
  t ← send q;
  match t with
  | Body v => mret v
  | Unreachable => raise (DependencyUnavailable default_reason None)
  | HttpError status payload =>
      let reason := match payload with Some (VDict d) => error_reason default_reason (VDict d) | _ => default_reason end in
      match payload with
      | Some (VDict d) =>
          let p := VDict d in
          if is_str "runtime.agent_run.step.failure.v1" (get "schema" p) then
            if negb (keys_are ["schema"; "agentRunId"; "failureClass"; "retryable"; "transitionReason"; "error"] p
                     && non_empty_str (get "agentRunId" p) && non_empty_str (get "failureClass" p)
                     && bool_decide (is_Some (as_bool (get "retryable" p)))
                     && non_empty_str (get "transitionReason" p) && is_str "runtime_step_failed" (get "error" p))
            then raise (RuntimeError "runtime_step_failure_response_invalid")
            else raise (RuntimeStepFailed reason (default false (as_bool (get "retryable" p)))
                          (default "" (as_str (get "agentRunId" p))) status)
          else if bool_decide (status ∈ [502; 503; 504]) then raise (DependencyUnavailable reason (Some status))
          else raise (RuntimeError reason)
      | _ => if bool_decide (status ∈ [502; 503; 504]) then raise (DependencyUnavailable reason (Some status))
             else raise (RuntimeError reason)
      end
  end.

Definition runtime_request (q : request) : W value := _json_request q "runtime_job_request_failed".
Definition api_request (q : request) (default_reason : pystr) : W value := _json_request q default_reason.
Definition runtime_teardown_request (q : request) : W value := _json_request q "sandbox_teardown_failed".

Definition agent_run_step_request (job_id owner : pystr) (start : value) : W value :=
  w_catch (_json_request (RunStep job_id owner start) "agent_run_step_unavailable")
    (fun e => match e with
              | RuntimeStepFailed _ _ run_id _ =>
                  if is_str run_id (get "agentRunId" start) then raise e
                  else raise (RuntimeError "runtime_step_failure_response_invalid")
              | _ => raise e
              end).

(** ** Job calls *)

Definition raise_if_job_cancelled (job_id : pystr) (error : wexn) (rejected_reason : pystr) : W unit :=
  if negb (bool_decide (exn_str error = rejected_reason)) then raise error
  else
    response ← runtime_request (JobGet job_id);
    let job := match response with VDict _ => get "job" response | _ => VNone end in
    match job with
    | VDict _ =>
        if negb (is_str job_id (get "jobId" job) && bool_decide (is_Some (as_str (get "status" job))))
        then raise (RuntimeError "runtime_job_state_invalid")
        else if is_str "cancelled" (get "status" job) then raise (RuntimeJobCancelled "job_cancelled_during_worker_lease")
        else raise error
    | _ => raise (RuntimeError "runtime_job_state_invalid")
    end.

(** [try: runtime_request(...) except RuntimeError as error: raise_if_job_cancelled(...)] *)
Definition guarded (q : request) (job_id rejected_reason : pystr) : W unit :=
  w_catch (runtime_request q;; mret tt)
    (fun e => if is_runtime_error e then raise_if_job_cancelled job_id e rejected_reason else raise e).

Definition heartbeat (job_id owner : pystr) : W unit := guarded (JobHeartbeat job_id owner) job_id "job_heartbeat_rejected".
Definition complete_job (job_id owner : pystr) : W unit := guarded (JobComplete job_id owner) job_id "job_complete_rejected".
Definition start_job (job_id owner : pystr) : W unit := guarded (JobStart job_id owner) job_id "job_start_rejected".
Definition yield_job (job_id owner : pystr) (run_at_ms : Z) (reason : pystr) : W unit :=
  guarded (JobYield job_id owner run_at_ms reason) job_id "job_yield_rejected".

Record job_row := Job {
  j_id : pystr; j_kind : pystr; j_payload_ref : value; j_session : value; j_idempotency : value;
  j_retry_count : value; j_max_retries : value }.

Definition fail_job (job : job_row) (owner reason : pystr) (retryable : bool) : W bool :=
  match as_int (j_retry_count job), as_int (j_max_retries job) with
  | Some retry_count, Some max_retries =>
      w_require ((0 <=? retry_count) && (retry_count <=? max_retries) && (max_retries <=? 10))
        (RuntimeError "runtime_job_retry_state_invalid");;
      let terminal := negb retryable || (max_retries <? retry_count + 1) in
      response ← runtime_request (JobFail (j_id job) owner reason retryable);
      let expected := if negb retryable then "failed" else if terminal then "dead_lettered" else "retry_scheduled" in
      match response with
      | VDict _ =>
          w_require (is_str expected (get "disposition" response)) (RuntimeError "runtime_job_fail_response_invalid");;
          mret terminal
      | _ => raise (OtherError "AttributeError")
      end
  | _, _ => raise (RuntimeError "runtime_job_retry_state_invalid")
  end.

(** The responses [transition_agent_run] accepts. *)
Definition transition_accepted (run_id state reason : pystr) (response : value) : bool :=
  is_str_dict [("agentRunId", run_id); ("state", state)] response
  || (bool_decide (state = "failed") && bool_decide (reason = "agent_run_lifecycle_dead_lettered")
      && is_str_dict [("agentRunId", run_id); ("state", "completed")] response).

Definition transition_agent_run (run_id state reason : pystr) : W unit :=
  response ← api_request (RunTransition run_id state reason) "agent_run_transition_unavailable";
  w_require (transition_accepted run_id state reason response) (RuntimeError "agent_run_transition_response_invalid").

(** ** The lifecycle job *)

Definition lifecycle_prefix : pystr := "agent_run.lifecycle:".

Definition agent_run_lifecycle_binding (job : job_row) : res wexn (pystr * pystr) :=
  let e := RuntimeError "agent_run_lifecycle_binding_invalid" in
  match as_str (j_payload_ref job), as_str (j_session job), as_str (j_idempotency job) with
  | Some payload_ref, Some session_id, Some idempotency_key =>
      require (startswith (j_id job) lifecycle_prefix && negb (is_empty session_id)) e;;
      let agent_run_id := removeprefix (j_id job) lifecycle_prefix in
      let digest_prefix := lifecycle_prefix +:+ agent_run_id +:+ ":" in
      let digest := if startswith idempotency_key digest_prefix then removeprefix idempotency_key digest_prefix else "" in
      require (negb (is_empty agent_run_id) && bool_decide (payload_ref = "record:agent_run:" +:+ agent_run_id)
               && (str_len digest =? 71) && startswith digest "sha256:"
               && chars_all is_lower_hex (str_drop 7 digest)) e;;
      Ok (agent_run_id, digest)
  | _, _, _ => Err e
  end.

Definition w_lift {A} (r : res wexn A) : W A := fun h => (r, h).

Definition fail_claimed_job (job : job_row) (owner reason : pystr) (retryable : bool) : W bool :=
  terminal ← fail_job job owner reason retryable;
  (if terminal && bool_decide (j_kind job = "agent_run.lifecycle") then
     binding ← w_lift (agent_run_lifecycle_binding job);
     transition_agent_run binding.1 "failed"
       (if retryable then "agent_run_lifecycle_dead_lettered" else "runtime_step_failed")
   else mret tt);;
  mret terminal.

Definition finish_agent_run_lifecycle (job : job_row) (owner run_id : pystr) (start : value) (terminal_state : pystr) : W unit :=
  transition_agent_run run_id terminal_state
    (if bool_decide (terminal_state = "cancelled") then "agent_run_cancelled" else "runtime_session_terminal_committed");;
  result ← runtime_teardown_request (RunTeardown (j_id job) owner start);
  w_require (is_str_dict [("schema", "runtime.agent_run.teardown.result.v1"); ("agentRunId", run_id); ("status", "removed")] result)
    (RuntimeError "runtime_teardown_response_invalid");;
  complete_job (j_id job) owner.

Definition AGENT_RUN_WAITING_TRANSITION_REASONS : list pystr :=
  ["execution_recovery_checkpoint_committed"; "question_wait"; "runtime_job_wait";
   "session_workspace_commit_unavailable"; "session_workspace_resolve_unavailable"].
Definition TERMINAL : list pystr := ["completed"; "failed"; "cancelled"].

Definition RUNTIME_JOB_WAIT_RECHECK_MS : Z := 5 * 60 * 1000.
Definition AGENT_RUN_LIFECYCLE_RECHECK_MS : Z := 30000.

(** When a waiting run is looked at again. *)
Definition next_run_at (yielded_at_ms : Z) (reason : pystr) (retry_at_ms : Z) : Z :=
  if bool_decide (reason = "execution_recovery_checkpoint_committed") then Z.max yielded_at_ms retry_at_ms
  else if bool_decide (reason = "runtime_job_wait") then yielded_at_ms + RUNTIME_JOB_WAIT_RECHECK_MS
  else yielded_at_ms + AGENT_RUN_LIFECYCLE_RECHECK_MS.

Definition step_fields (reason : value) : list pystr :=
  ["schema"; "agentRunId"; "disposition"; "terminalState"; "transitionReason"]
  ++ (if is_str "execution_recovery_checkpoint_committed" reason then ["retryAtMs"] else []).

(** The validated outcome of a step: wait for [reason] until a deadline, or a terminal state. *)
Inductive step_outcome := StepWaiting (reason : pystr) (retry_at_ms : Z) | StepTerminal (state : pystr).

Definition check_step_result (run_id : pystr) (result : value) : res wexn step_outcome :=
  let e := RuntimeError "agent_run_step_response_invalid" in
  let reason := get "transitionReason" result in
  require (keys_are (step_fields reason) result && is_str "runtime.agent_run.step.result.v1" (get "schema" result)
           && is_str run_id (get "agentRunId" result) && str_in ["waiting"; "terminal"] (get "disposition" result)
           && non_empty_str reason) e;;
  require (negb (is_str "execution_recovery_checkpoint_committed" reason)
           || (is_str "waiting" (get "disposition" result)
               && match as_int (get "retryAtMs" result) with Some z => 0 <=? z | None => false end)) e;;
  if is_str "waiting" (get "disposition" result) then
    require (is_none (get "terminalState" result) && str_in AGENT_RUN_WAITING_TRANSITION_REASONS reason) e;;
    Ok (StepWaiting (default "" (as_str reason)) (default 0 (as_int (get "retryAtMs" result))))
  else
    require (str_in TERMINAL (get "terminalState" result)) e;;
    Ok (StepTerminal (default "" (as_str (get "terminalState" result)))).

(** [v in {"a", ...}] raises [TypeError] for a list or a dict *)
Definition in_set (v : value) (ss : list pystr) : res wexn bool :=
  match v with VList _ | VDict _ => Err (OtherError "TypeError") | v => Ok (str_in ss v) end.
(** The validated answer of the resolve endpoint: the run start and, when the run already ended,
    its terminal state. *)
Definition check_resolved (run_id digest : pystr) (resolved : value) : res wexn (value * option pystr) :=
  let e := RuntimeError "agent_run_lifecycle_resolve_response_invalid" in
  require (is_str "runtime.agent_run_lifecycle.resolved.v1" (get "schema" resolved)) e;;
  known ← in_set (get "disposition" resolved) ["ready"; "terminal"];
  require known e;;
  let start := get "agentRunStart" resolved in
  require (is_str run_id (get "agentRunId" start) && is_str digest (get "authorizationDigest" start)) e;;
  if is_str "terminal" (get "disposition" resolved) then
    require (keys_are ["schema"; "disposition"; "terminalState"; "agentRunStart"] resolved) e;;
    final ← in_set (get "terminalState" resolved) TERMINAL;
    require final e;;
    Ok (start, as_str (get "terminalState" resolved))
  else
    require (keys_are ["schema"; "disposition"; "agentRunStart"] resolved) e;;
    Ok (start, None).

Definition execute_agent_run_lifecycle_job (job : job_row) (owner : pystr) : W bool :=
  binding ← w_lift (agent_run_lifecycle_binding job);
  let '(run_id, digest) := binding in
  resolved ← api_request (RunResolve (j_id job) run_id digest) "agent_run_start_unavailable";
  checked ← w_lift (check_resolved run_id digest resolved);
  let '(start, already) := checked in
  match already with
  | Some terminal_state =>
      require_healthy_lease;;
      finish_agent_run_lifecycle job owner run_id start terminal_state;;
      mret false
  | None =>
      transition_agent_run run_id "running" "agent_run_lifecycle_step_started";;
      require_healthy_lease;;
      result ← agent_run_step_request (j_id job) owner start;
      require_healthy_lease;;
      outcome ← w_lift (check_step_result run_id result);
      match outcome with
      | StepWaiting reason retry_at_ms =>
          transition_agent_run run_id "running" reason;;
          require_healthy_lease;;
          yielded_at_ms ← now_ms;
          yield_job (j_id job) owner (next_run_at yielded_at_ms reason retry_at_ms) reason;;
          mret false
      | StepTerminal terminal_state =>
          require_healthy_lease;;
          finish_agent_run_lifecycle job owner run_id start terminal_state;;
          mret false
      end
  end.

(** ** Claiming *)

Definition WORKER_JOB_KINDS : list pystr := ["agent_run.lifecycle"; "worker.noop"].

Definition valid_runtime_job_id (v : value) : bool :=
  match as_str v with
  | Some s => (1 <=? str_len s) && (str_len s <=? 160)
              && chars_all (fun c => is_ascii_alnum c || existsb (Z.eqb c) [95; 45; 58; 46]) s
  | None => false
  end.

Definition valid_lease_owner (v : value) : bool :=
  match as_str v with
  | Some s =>
      match utf8_encode s with
      | Some b => (16 <=? zlen b) && (zlen b <=? 160)
                  && chars_all (fun c => (32 <=? c) && negb ((127 <=? c) && (c <? 160))) s
      | None => false
      end
  | None => false
  end.

Definition job_of_value (v : value) : job_row :=
  Job (default "" (as_str (get "jobId" v))) (default "" (as_str (get "jobKind" v))) (get "payloadRef" v)
    (get "sessionId" v) (get "idempotencyKey" v) (get "retryCount" v) (get "maxRetries" v).

(** The claimed job and its lease owner. *)
Definition claim_job (job_kind worker_id : pystr) : W (option (job_row * pystr)) :=
  w_require (bool_decide (job_kind ∈ WORKER_JOB_KINDS)) (RuntimeError "worker_job_kind_invalid");;
  response ← runtime_request (JobClaim worker_id job_kind);
  let e := RuntimeError "runtime_job_claim_response_invalid" in
  w_require (keys_are ["jobs"] response) e;;
  match as_list (get "jobs" response) with
  | Some [] => mret None
  | Some [job] =>
      w_require (valid_runtime_job_id (get "jobId" job) && is_str job_kind (get "jobKind" job)
                 && valid_lease_owner (get "leaseOwner" job) && is_str "leased" (get "status" job)) e;;
      mret (Some (job_of_value job, default "" (as_str (get "leaseOwner" job))))
  | _ => raise e
  end.

Definition wait_for_jobs : W pystr :=
  response ← _json_request JobWait "runtime_job_wait_unavailable";
  w_require (keys_are ["schema"; "disposition"; "nextRunAtMs"] response
             && is_str "runtime.job.wait.result.v1" (get "schema" response)
             && str_in ["ready"; "timeout"] (get "disposition" response)
             && negb (is_str "ready" (get "disposition" response) && is_none (get "nextRunAtMs" response))
             && (is_none (get "nextRunAtMs" response) || bool_decide (is_Some (as_int (get "nextRunAtMs" response)))))
    (RuntimeError "runtime_job_wait_response_invalid");;
  mret (default "" (as_str (get "disposition" response))).

(** The body of the [with lease_heartbeats(...)] block. *)
Definition execute_leased (job : job_row) (owner : pystr) : W unit :=
  w_require (bool_decide (j_kind job ∈ WORKER_JOB_KINDS)) (RuntimeError "unknown_job_kind");;
  heartbeat (j_id job) owner;;
  completed ← (if bool_decide (j_kind job = "worker.noop") then mret true
               else execute_agent_run_lifecycle_job job owner);
  if completed : bool then require_healthy_lease;; complete_job (j_id job) owner else mret tt.

(** How the execution of a claimed job ended, for the caller. *)
Definition _execute_claimed_job (job : job_row) (owner : pystr) : W unit :=
  w_catch (start_job (j_id job) owner;; execute_leased job owner)
    (fun e =>
       match e with
       | RuntimeJobCancelled _ => mret tt
       | DependencyUnavailable _ _ => fail_claimed_job job owner "dependency_unavailable" true;; mret tt
       | RuntimeStepFailed reason retryable _ _ => fail_claimed_job job owner reason retryable;; mret tt
       | RuntimeError reason =>
           if bool_decide (j_kind job = "agent_run.lifecycle") then
             if bool_decide (reason = "agent_run_lifecycle_lease_lost") then mret tt
             else fail_claimed_job job owner "agent_run_lifecycle_failed" false;; mret tt
           else raise e
       | OtherError _ => raise e
       end).

(** Kinds in the order slot [slot_index] tries them. *)
Definition slot_kinds (slot_index : nat) : list pystr :=
  map (fun offset => nth ((slot_index + offset) mod length WORKER_JOB_KINDS) WORKER_JOB_KINDS "")
    (seq 0 (length WORKER_JOB_KINDS)).

Fixpoint try_kinds (worker_id : pystr) (kinds : list pystr) : W bool :=
  match kinds with
  | [] => mret false
  | kind :: rest =>
      job ← claim_job kind worker_id;
      match job with
      | Some (job, owner) => _execute_claimed_job job owner;; mret true
      | None => try_kinds worker_id rest
      end
  end.
Definition execute_next_job (slot_index : nat) (worker_id : pystr) : W bool := try_kinds worker_id (slot_kinds slot_index).

(** One iteration of a job slot: the delay it sleeps, if any. *)
Definition JOB_WAIT_FAILURE_BACKOFF_SECONDS : Z := 1.
Definition job_loop_iteration (slot_index : nat) (worker_id : pystr) (h : history) : option Z * history :=
  match (worked ← execute_next_job slot_index worker_id;
         if worked : bool then mret tt else wait_for_jobs;; mret tt) h with
  | (Ok _, h') => (None, h')
  | (Err e, h') =>
      (Some (if bool_decide (exn_str e ∈ ["runtime_busy"; "execution_claim_busy"]) then 5
             else JOB_WAIT_FAILURE_BACKOFF_SECONDS), h')
  end.

(** ** The terminal dispatcher *)

Definition cursor := (pystr * pystr)%type.

(** [isinstance(value, str) and value.strip()] *)
Definition non_blank (v : value) : bool := match as_str v with Some s => negb (is_empty (strip s)) | None => false end.

Definition waiter_page_next (response : value) (disposition : list pystr) (after : option cursor) : res wexn (option cursor) :=
  require (keys_are ["disposition"; "checked"; "waiters"; "next"] response && str_in disposition (get "disposition" response)
           && match as_int (get "checked" response) with Some n => (0 <=? n) && (n <=? 256) | None => false end
           && bool_decide (is_Some (as_list (get "waiters" response)))) (RuntimeError "runtime_job_waiter_page_invalid");;
  let next := get "next" response in
  if is_none next then Ok None
  else
    let c := (default "" (as_str (get "checkpointId" next)), default "" (as_str (get "toolCallId" next))) in
    require (keys_are ["checkpointId"; "toolCallId"] next && non_blank (get "checkpointId" next)
             && non_blank (get "toolCallId" next) && negb (bool_decide (Some c = after))
             && negb (bool_decide (as_int (get "checked" response) = Some 0))) (RuntimeError "runtime_job_waiter_cursor_invalid");;
    Ok (Some c).

Definition outbox_key := (pystr * Z)%type.
Definition cursors := gmap outbox_key cursor.

Definition check_outbox_event (event : value) : res wexn outbox_key :=
  require (keys_are ["jobId"; "eventType"; "publishedAtMs"; "generation"] event && valid_runtime_job_id (get "jobId" event)
           && is_str "runtime_job.terminal" (get "eventType" event) && is_none (get "publishedAtMs" event)
           && match as_int (get "generation" event) with Some g => (0 <=? g) && (g <=? 4294967295) | None => false end)
    (RuntimeError "runtime_job_outbox_event_invalid");;
  Ok (default "" (as_str (get "jobId" event)), default 0 (as_int (get "generation" event))).

(** One event of the outbox; the cursor table survives an exception, as the dict does. *)
Definition dispatch_event (cs : cursors) (event : value) : history -> res wexn unit * cursors * history := fun h =>
  match check_outbox_event event with
  | Err e => (Err e, cs, h)
  | Ok (job_id, generation) =>
      let key := (job_id, generation) in
      let after := cs !! key in
      match (wake ← runtime_request (OutboxWake job_id generation after);
             w_lift (waiter_page_next wake ["woken"; "no_waiter"] after)) h with
      | (Err e, h') => (Err e, cs, h')
      | (Ok (Some next), h') => (Ok tt, <[key := next]> cs, h')
      | (Ok None, h') =>
          match (published ← runtime_request (OutboxPublished job_id "runtime_job.terminal" generation);
                 match published with
                 | VDict _ =>
                     w_require (str_in ["published"; "already_published"; "stale"] (get "disposition" published))
                       (RuntimeError "runtime_job_outbox_publish_response_invalid")
                 | _ => raise (OtherError "AttributeError")
                 end) h' with
          | (Err e, h'') => (Err e, cs, h'')
          | (Ok _, h'') => (Ok tt, delete key cs, h'')
          end
      end
  end.

Fixpoint dispatch_events (cs : cursors) (events : list value) (h : history) : res wexn unit * cursors * history :=
  match events with
  | [] => (Ok tt, cs, h)
  | event :: rest =>
      match dispatch_event cs event h with
      | (Ok _, cs', h') => dispatch_events cs' rest h'
      | r => r
      end
  end.

Definition event_key (event : value) : outbox_key :=
  (default "" (as_str (get "jobId" event)), default 0 (as_int (get "generation" event))).

Definition dispatch_terminal_once (cs : cursors) (h : history) : res wexn Z * cursors * history :=
  match runtime_request OutboxPending h with
  | (Err e, h') => (Err e, cs, h')
  | (Ok response, h') =>
      match get "events" response with
      | VList events =>
          match dispatch_events cs events h' with
          | (Err e, cs', h'') => (Err e, cs', h'')
          | (Ok _, cs', h'') =>
              (Ok (zlen events), filter (fun kc => kc.1 ∈ map event_key events) cs', h'')
          end
      | _ => (Err (OtherError "KeyError"), cs, h')
      end
  end.

(** ** The reconciler *)

Record reconciler := Reconciler { rc_active_after : value; rc_dead_letter_after : value; rc_waiter_after : option cursor }.

Definition lifecycle_reconciler (s : reconciler) (h : history) : res wexn unit * reconciler * history :=
  match (runtime_request JobsReconcile;;
         api_request (LifecycleReconcile (rc_active_after s) (rc_dead_letter_after s))
           "agent_run_lifecycle_reconcile_unavailable") h with
  | (Err e, h') => (Err e, s, h')
  | (Ok lifecycle, h') =>
      if negb (has_key "activeNext" lifecycle) then (Err (OtherError "KeyError"), s, h')
      else
        let s1 := Reconciler (get "activeNext" lifecycle) (rc_dead_letter_after s) (rc_waiter_after s) in
        if negb (has_key "deadLetterNext" lifecycle) then (Err (OtherError "KeyError"), s1, h')
        else
          let s2 := Reconciler (get "activeNext" lifecycle) (get "deadLetterNext" lifecycle) (rc_waiter_after s) in
          match (waiters ← runtime_request (WaitersReconcile (rc_waiter_after s));
                 w_lift (waiter_page_next waiters ["reconciled"] (rc_waiter_after s))) h' with
          | (Err e, h'') => (Err e, s2, h'')
          | (Ok next, h'') => (Ok tt, Reconciler (rc_active_after s2) (rc_dead_letter_after s2) next, h'')
          end
  end.
End worker.
