(* ===== verification/WorkerProps.v ===== *)
(** * Correctness of the worker

    The statements quantify over every behaviour of the services, the lease thread and the
    clock: they are about the order of the requests the worker sends. *)

From stdpp Require Import base tactics numbers gmap list sorting.
From S2P Require Import Prelude PyStr PyValue Utf8 Schema Lifecycle RuntimeClient Worker.

Section props.
Context (services : history -> request -> transport).
Context (lease_error : history -> option wexn).
Context (clock : history -> Z).

(** ** Computations extend the history *)

(** Running [m] appends some requests, related to its result by [P]. *)
Definition emits {A} (m : W A) (P : history -> res wexn A -> Prop) : Prop :=
  forall h, exists new r, m h = (r, h ++ new) /\ P new r.

Lemma emits_weaken {A} (m : W A) (P Q : history -> res wexn A -> Prop) :
  emits m P -> (forall new r, P new r -> Q new r) -> emits m Q.
Proof. intros Hm HPQ h. destruct (Hm h) as (new & r & ? & ?). eauto. Qed.

Lemma emits_ret {A} (a : A) (P : history -> res wexn A -> Prop) : P [] (Ok a) -> emits (mret a) P.
Proof. intros HP h. exists [], (Ok a). by rewrite app_nil_r. Qed.

Lemma emits_raise {A} e (P : history -> res wexn A -> Prop) : P [] (Err e) -> emits (raise e) P.
Proof. intros HP h. exists [], (Err e). by rewrite app_nil_r. Qed.

Lemma emits_send q (P : history -> res wexn transport -> Prop) :
  (forall t, P [(q, t)] (Ok t)) -> emits (send services q) P.
Proof. intros HP h. by eexists _, _. Qed.

Lemma emits_lift {A} (x : res wexn A) (P : history -> res wexn A -> Prop) : P [] x -> emits (w_lift x) P.
Proof. intros HP h. exists [], x. by rewrite app_nil_r. Qed.

Lemma emits_bind {A B} (m : W A) (f : A -> W B) P (Q : history -> res wexn B -> Prop) :
  emits m P ->
  (forall n e, P n (Err e) -> Q n (Err e)) ->
  (forall n a, P n (Ok a) -> emits (f a) (fun n' r => Q (n ++ n') r)) ->
  emits (m ≫= f) Q.
Proof.
  intros Hm He Hf h. destruct (Hm h) as (n & [a|e] & Hh & HP); unfold mbind, W_bind; rewrite Hh; [|eauto].
  destruct (Hf n a HP (h ++ n)) as (n' & r & Hh' & HQ). rewrite Hh', <- app_assoc. eauto.
Qed.

Lemma emits_catch {A} (m : W A) handler P (Q : history -> res wexn A -> Prop) :
  emits m P ->
  (forall n a, P n (Ok a) -> Q n (Ok a)) ->
  (forall n e, P n (Err e) -> emits (handler e) (fun n' r => Q (n ++ n') r)) ->
  emits (w_catch m handler) Q.
Proof.
  intros Hm Ho Hc h. destruct (Hm h) as (n & [a|e] & Hh & HP); unfold w_catch; rewrite Hh; [eauto|].
  destruct (Hc n e HP (h ++ n)) as (n' & r & Hh' & HQ). rewrite Hh', <- app_assoc. eauto.
Qed.

(** ** Requests a computation may send *)

(** [m] only sends requests satisfying [p]. *)
Definition only {A} (p : request -> bool) (m : W A) : Prop :=
  emits m (fun new _ => Forall (fun ev => p ev.1 = true) new).

Lemma only_ret {A} p (a : A) : only p (mret a).
Proof. by apply emits_ret. Qed.
Lemma only_raise {A} p e : only p (@raise A e).
Proof. by apply emits_raise. Qed.
Lemma only_lift {A} p (x : res wexn A) : only p (w_lift x).
Proof. by apply emits_lift. Qed.
Lemma only_require p b e : only p (w_require b e).
Proof. unfold w_require. destruct b; [apply only_ret|apply only_raise]. Qed.
Lemma only_bind {A B} p (m : W A) (f : A -> W B) : only p m -> (forall a, only p (f a)) -> only p (m ≫= f).
Proof.
  intros Hm Hf. eapply emits_bind; [exact Hm|done|]. intros n a Hn. eapply emits_weaken; [apply Hf|].
  intros n' r Hn'. by apply Forall_app.
Qed.
Lemma only_catch {A} p (m : W A) handler : only p m -> (forall e, only p (handler e)) -> only p (w_catch m handler).
Proof.
  intros Hm Hf. eapply emits_catch; [exact Hm|done|]. intros n a Hn. eapply emits_weaken; [apply Hf|].
  intros n' r Hn'. by apply Forall_app.
Qed.
Lemma only_send p q : p q = true -> only p (send services q).
Proof. intros Hq. apply emits_send. intros t. by apply Forall_singleton. Qed.
Lemma only_lease p : only p (require_healthy_lease lease_error).
Proof.
  intros h. unfold require_healthy_lease. destruct (lease_error h);
    eexists [], _; rewrite app_nil_r; (split; [done|]; apply Forall_nil_2).
Qed.
Lemma only_now p : only p (now_ms clock).
Proof. intros h. eexists [], _. rewrite app_nil_r. split; [done|]. apply Forall_nil_2. Qed.
Lemma only_if {A} p (b : bool) (m1 m2 : W A) : only p m1 -> only p m2 -> only p (if b then m1 else m2).
Proof. by destruct b. Qed.

Lemma only_json p q reason : p q = true -> only p (_json_request services q reason).
Proof.
  intros Hq. unfold _json_request. apply only_bind; [by apply only_send|]. intros [v|s [[]|]|];
    repeat first [apply only_ret|apply only_raise|apply only_if].
Qed.

Lemma only_cancelled p job e reason : p (JobGet job) = true -> only p (raise_if_job_cancelled services job e reason).
Proof.
  intros Hp. unfold raise_if_job_cancelled. apply only_if; [apply only_raise|].
  apply only_bind; [by apply only_json|]. intros v. destruct (match v with VDict _ => get "job" v | _ => VNone end);
    repeat first [apply only_raise|apply only_if].
Qed.

Lemma only_guarded p q job reason : p q = true -> p (JobGet job) = true -> only p (guarded services q job reason).
Proof.
  intros Hq Hp. unfold guarded. apply only_catch.
  - apply only_bind; [by apply only_json|]. intros. apply only_ret.
  - intros e. apply only_if; [by apply only_cancelled|apply only_raise].
Qed.

Lemma only_transition p run st reason :
  p (RunTransition run st reason) = true -> only p (transition_agent_run services run st reason).
Proof.
  intros Hq. unfold transition_agent_run. apply only_bind; [by apply only_json|]. intros. apply only_require.
Qed.

(** ** Completion *)

Definition not_complete (q : request) : bool := match q with JobComplete _ _ => false | _ => true end.

(** Every completion report is immediately preceded by an acknowledged terminal transition of the
    run and the acknowledged removal of its sandbox. *)
Definition completes_safely (new : history) : Prop :=
  forall pre job owner t post, new = pre ++ (JobComplete job owner, t) :: post ->
    exists pre' run state reason start v1 v2,
      pre = pre' ++ [(RunTransition run state reason, Body v1); (RunTeardown job owner start, Body v2)] /\
      state ∈ TERMINAL /\ transition_accepted run state reason v1 = true /\
      is_str_dict [("schema", "runtime.agent_run.teardown.result.v1"); ("agentRunId", run); ("status", "removed")] v2 = true.

Lemma no_complete_in new pre job owner t post :
  Forall (fun ev : request * transport => not_complete ev.1 = true) new -> new = pre ++ (JobComplete job owner, t) :: post -> False.
Proof.
  intros Hn ->. rewrite Forall_app, Forall_cons in Hn. by destruct Hn as (_ & ? & _).
Qed.

Lemma completes_none new : Forall (fun ev => not_complete ev.1 = true) new -> completes_safely new.
Proof. intros Hn pre job owner t post E. exfalso. by eapply no_complete_in. Qed.

Lemma completes_app n1 n2 :
  Forall (fun ev => not_complete ev.1 = true) n1 -> completes_safely n2 -> completes_safely (n1 ++ n2).
Proof.
  intros H1 H2 pre job owner t post E. apply app_eq_app in E as (l & [[E1 E2]|[E1 E2]]).
  - destruct l as [|ev l].
    + cbn in E2. destruct (H2 [] job owner t post (eq_sym E2)) as (pre' & ? & ? & ? & ? & ? & ? & E & _).
      by destruct pre'.
    + injection E2 as <- ->. exfalso. by eapply no_complete_in; [exact H1|exact E1].
  - destruct (H2 _ _ _ _ _ E2) as (pre' & run & state & reason & start & v1 & v2 & -> & Hrest).
    exists (n1 ++ pre'), run, state, reason, start, v1, v2. split; [by rewrite E1, <- app_assoc|done].
Qed.

(** Sequencing: silent steps first, then a safe rest. *)
Lemma safe_bind {A B} (m : W A) (f : A -> W B) :
  only not_complete m -> (forall a, emits (f a) (fun new _ => completes_safely new)) ->
  emits (m ≫= f) (fun new _ => completes_safely new).
Proof.
  intros Hm Hf. eapply emits_bind; [exact Hm|intros; by apply completes_none|].
  intros n a Hn. eapply emits_weaken; [apply Hf|]. intros n' r Hn'. by apply completes_app.
Qed.

Lemma safe_only {A} (m : W A) : only not_complete m -> emits m (fun new _ => completes_safely new).
Proof. intros Hm. eapply emits_weaken; [exact Hm|]. intros. by apply completes_none. Qed.

(** Computations that send nothing and raise. *)
Definition raises {A} (m : W A) : Prop := emits m (fun new r => new = [] /\ exists e, r = Err e).
Lemma raises_raise {A} e : raises (@raise A e).
Proof. apply emits_raise. eauto. Qed.
Lemma raises_if {A} (b : bool) (m1 m2 : W A) : raises m1 -> raises m2 -> raises (if b then m1 else m2).
Proof. by destruct b. Qed.

Lemma json_shape q reason :
  emits (_json_request services q reason) (fun new r => exists t, new = [(q, t)] /\ forall v, r = Ok v -> t = Body v).
Proof.
  unfold _json_request. eapply (emits_bind _ _ (fun new r => exists t, new = [(q, t)] /\ r = Ok t)).
  - apply emits_send. eauto.
  - intros n e (t & _ & ?). done.
  - intros n a (t & -> & [= <-]).
    assert (Hgo : forall m : W value, raises m ->
      emits m (fun n' r => exists t, [(q, a)] ++ n' = [(q, t)] /\ forall v, r = Ok v -> t = Body v)).
    { intros m Hm. eapply emits_weaken; [exact Hm|]. intros n r (-> & e & ->). exists a. done. }
    destruct a as [v|st payload|]; [apply emits_ret; exists (Body v); naive_solver| |apply Hgo, raises_raise].
    apply Hgo. destruct payload as [[]|]; repeat first [apply raises_raise|apply raises_if].
Qed.

Lemma transition_shape run st reason :
  emits (transition_agent_run services run st reason)
    (fun new r => exists t, new = [(RunTransition run st reason, t)] /\
       (r = Ok tt -> exists v, t = Body v /\ transition_accepted run st reason v = true)).
Proof.
  unfold transition_agent_run. eapply emits_bind; [apply json_shape| |].
  - intros n e (t & -> & _). exists t. done.
  - intros n v (t & -> & Hv). specialize (Hv v eq_refl) as ->. unfold w_require.
    destruct (transition_accepted run st reason v) eqn:E; [apply emits_ret|apply emits_raise];
      exists (Body v); (split; [done|]); [eauto|done].
Qed.

Lemma guarded_shape q job reason :
  emits (guarded services q job reason)
    (fun new r => exists t rest, new = (q, t) :: rest /\ Forall (fun ev => ev.1 = JobGet job) rest).
Proof.
  unfold guarded. eapply (emits_catch _ _ (fun new _ => exists t, new = [(q, t)])).
  - eapply emits_bind; [apply json_shape| |].
    + intros n e (t & -> & _). eauto.
    + intros n a (t & -> & _). apply emits_ret. eauto.
  - intros n a (t & ->). eauto.
  - intros n e (t & ->).
    enough (emits (if is_runtime_error e then raise_if_job_cancelled services job e reason else raise e)
              (fun n' _ => Forall (fun ev => ev.1 = JobGet job) n')) as Hm.
    { eapply emits_weaken; [exact Hm|]. intros n' r Hn'. exists t, n'. done. }
    destruct (is_runtime_error e); [|by apply emits_raise]. unfold raise_if_job_cancelled.
    destruct (negb _); [by apply emits_raise|]. eapply emits_bind; [apply json_shape| |].
    + intros n e' (t' & -> & _). by apply Forall_singleton.
    + intros n v (t' & -> & _).
      assert (Hn : Forall (fun ev : request * transport => ev.1 = JobGet job) ([(JobGet job, t')] ++ []))
        by by apply Forall_singleton.
      destruct (match v with VDict _ => get "job" v | _ => VNone end); try (by apply emits_raise).
      repeat case_match; by apply emits_raise.
Qed.

Lemma completes_finish job owner run st reason start v1 v2 t rest :
  st ∈ TERMINAL -> transition_accepted run st reason v1 = true ->
  is_str_dict [("schema", "runtime.agent_run.teardown.result.v1"); ("agentRunId", run); ("status", "removed")] v2 = true ->
  Forall (fun ev => ev.1 = JobGet job) rest ->
  completes_safely ([(RunTransition run st reason, Body v1); (RunTeardown job owner start, Body v2);
                     (JobComplete job owner, t)] ++ rest).
Proof.
  intros Hst Ha Hr Hrest pre job' owner' t' post E.
  assert (Hrest' : Forall (fun ev => not_complete ev.1 = true) rest)
    by (eapply Forall_impl; [exact Hrest|]; by intros ev ->).
  destruct pre as [|e1 [|e2 [|e3 pre]]]; cbn in E; simplify_eq.
  - exists [], run, st, reason, start, v1, v2. done.
  - exfalso. by eapply no_complete_in.
Qed.

Lemma finish_safe job owner run start st :
  st ∈ TERMINAL ->
  emits (finish_agent_run_lifecycle services job owner run start st) (fun new _ => completes_safely new).
Proof.
  intros Hst. unfold finish_agent_run_lifecycle. eapply emits_bind; [apply transition_shape| |].
  - intros n e (t & -> & _). apply completes_none. by apply Forall_singleton.
  - intros n [] (t & -> & Hok). destruct (Hok eq_refl) as (v1 & -> & Hacc).
    unfold runtime_teardown_request. eapply emits_bind; [apply json_shape| |].
    + intros n e (t & -> & _). apply completes_none. by repeat constructor.
    + intros n v2 (t & -> & Hv). specialize (Hv v2 eq_refl) as ->. unfold w_require.
      destruct (is_str_dict _ v2) eqn:Hrem.
      * unfold complete_job. eapply (emits_bind _ _ (fun n r => n = [] /\ r = Ok tt)); [by apply emits_ret|by intros ? ? [_ ?]|].
        intros n u [-> _]. eapply emits_weaken; [apply guarded_shape|]. intros n r (t & rest & -> & Hrest).
        by apply (completes_finish (j_id job) owner run _ _ start v1 v2 t rest).
      * intros h. exists [], (Err (RuntimeError "runtime_teardown_response_invalid")). rewrite app_nil_r.
        split; [done|]. apply completes_none. by repeat constructor.
Qed.

Lemma only_step p job owner start : p (RunStep job owner start) = true -> only p (agent_run_step_request services job owner start).
Proof.
  intros Hp. unfold agent_run_step_request. apply only_catch; [by apply only_json|].
  intros []; try apply only_raise. apply only_if; apply only_raise.
Qed.

Lemma in_set_true v ss : in_set v ss = Ok true -> str_in ss v = true.
Proof. unfold in_set. destruct v; try done; by intros [= ->]. Qed.
Lemma check_resolved_terminal run digest v start st :
  check_resolved run digest v = Ok (start, Some st) -> st ∈ TERMINAL.
Proof.
  unfold check_resolved. intros H. walk H; res_inv. bool_inv.
  match goal with H : in_set (get "terminalState" _) _ = Ok _ |- _ => apply in_set_true, str_in_spec in H as (s & Hs & ?) end.
  rewrite Hs in *. by simplify_eq/=.
Qed.

Lemma check_step_terminal run v st : check_step_result run v = Ok (StepTerminal st) -> st ∈ TERMINAL.
Proof.
  unfold check_step_result. intros H. walk H; res_inv.
  match goal with H : str_in TERMINAL _ = true |- _ => apply str_in_spec in H as (s & Hs & ?) end.
  rewrite Hs in *. by simplify_eq/=.
Qed.

Lemma lift_bind_safe {A B} (x : res wexn A) (f : A -> W B) :
  (forall a, x = Ok a -> emits (f a) (fun new _ => completes_safely new)) ->
  emits (w_lift x ≫= f) (fun new _ => completes_safely new).
Proof.
  intros Hf h. destruct x as [a|e].
  - destruct (Hf a eq_refl h) as (new & r & Hh & Hs). exists new, r. done.
  - exists [], (Err e). rewrite app_nil_r. split; [done|]. by apply completes_none.
Qed.

Lemma finish_then_safe {A} job owner run start st (a : A) :
  st ∈ TERMINAL ->
  emits (finish_agent_run_lifecycle services job owner run start st;; mret a) (fun new _ => completes_safely new).
Proof.
  intros Hst. eapply emits_bind; [by apply finish_safe|done|].
  intros n u Hn. apply emits_ret. by rewrite app_nil_r.
Qed.

Lemma execute_lifecycle_safe job owner :
  emits (execute_agent_run_lifecycle_job services lease_error clock job owner) (fun new _ => completes_safely new).
Proof.
  unfold execute_agent_run_lifecycle_job. apply lift_bind_safe. intros [run digest] _.
  apply safe_bind; [by apply only_json|]. intros resolved. apply lift_bind_safe. intros [start [st|]] Hc.
  - apply safe_bind; [apply only_lease|]. intros _. apply finish_then_safe. by eapply check_resolved_terminal.
  - apply safe_bind; [by apply only_transition|]. intros _.
    apply safe_bind; [apply only_lease|]. intros _.
    apply safe_bind; [by apply only_step|]. intros result.
    apply safe_bind; [apply only_lease|]. intros _.
    apply lift_bind_safe. intros [reason retry|st] Hr.
    + apply safe_only. apply only_bind; [by apply only_transition|]. intros _.
      apply only_bind; [apply only_lease|]. intros _. apply only_bind; [apply only_now|]. intros y.
      apply only_bind; [by apply only_guarded|]. intros _. apply only_ret.
    + apply safe_bind; [apply only_lease|]. intros _. apply finish_then_safe. by eapply check_step_terminal.
Qed.

Lemma only_fail_claimed job owner reason retryable :
  only not_complete (fail_claimed_job services job owner reason retryable).
Proof.
  unfold fail_claimed_job. apply only_bind.
  - unfold fail_job. destruct (as_int (j_retry_count job)), (as_int (j_max_retries job)); try apply only_raise.
    apply only_bind; [apply only_require|]. intros _. apply only_bind; [by apply only_json|]. intros v.
    destruct v; try apply only_raise. apply only_bind; [apply only_require|]. intros _. apply only_ret.
  - intros terminal. apply only_bind; [|intros; apply only_ret].
    apply only_if; [|apply only_ret]. apply only_bind; [apply only_lift|]. intros b. by apply only_transition.
Qed.

Lemma completes_app_r n1 n2 :
  completes_safely n1 -> Forall (fun ev => not_complete ev.1 = true) n2 -> completes_safely (n1 ++ n2).
Proof.
  intros H1 H2 pre job owner t post E. apply app_eq_app in E as (l & [[E1 E2]|[E1 E2]]).
  - destruct l as [|ev l]; [by cbn in E2; exfalso; eapply (no_complete_in n2 []); [exact H2|by rewrite E2]|].
    injection E2 as <- ->. by eapply H1.
  - exfalso. by eapply no_complete_in; [exact H2|exact E2].
Qed.

(** Every normal return of [m] satisfies [P]. *)
Definition returns {A} (m : W A) (P : A -> Prop) : Prop := forall h a h', m h = (Ok a, h') -> P a.
Lemma returns_ret {A} (a : A) (P : A -> Prop) : P a -> returns (mret a) P.
Proof. by intros HP h a' h' [= <- <-]. Qed.
Lemma returns_bind {A B} (m : W A) (f : A -> W B) P : (forall a, returns (f a) P) -> returns (m ≫= f) P.
Proof.
  intros Hf h b h'. unfold mbind, W_bind. destruct (m h) as [[a|e] h1]; [apply Hf|done].
Qed.

Lemma execute_lifecycle_returns job owner :
  returns (execute_agent_run_lifecycle_job services lease_error clock job owner) (fun b => b = false).
Proof.
  unfold execute_agent_run_lifecycle_job. apply returns_bind. intros [run digest].
  do 2 (apply returns_bind; intros ?). case_match. case_match.
  - do 2 (apply returns_bind; intros ?). by apply returns_ret.
  - do 5 (apply returns_bind; intros ?). case_match.
    + do 4 (apply returns_bind; intros ?). by apply returns_ret.
    + do 2 (apply returns_bind; intros ?). by apply returns_ret.
Qed.

Lemma execute_leased_safe job owner :
  j_kind job = "agent_run.lifecycle" ->
  emits (execute_leased services lease_error clock job owner) (fun new _ => completes_safely new).
Proof.
  intros Hkind. unfold execute_leased. apply safe_bind; [apply only_require|]. intros _.
  apply safe_bind; [by apply only_guarded|]. intros _. rewrite Hkind. rewrite bool_decide_eq_false_2 by done.
  intros h. unfold mbind, W_bind.
  destruct (execute_lifecycle_safe job owner h) as (new & [b|e] & Hh & Hs); rewrite Hh; [|eauto].
  rewrite (execute_lifecycle_returns job owner h b _ Hh). eexists new, _. done.
Qed.

(** ** Properties *)

(** A lifecycle job is reported complete only after the run's terminal state was accepted by the API
    and its sandbox was removed: in every history the completion request immediately follows the
    acknowledged terminal transition and the acknowledged teardown (C22). *)
Theorem job_completed_only_after_teardown job owner h :
  j_kind job = "agent_run.lifecycle" ->
  exists new r, _execute_claimed_job services lease_error clock job owner h = (r, h ++ new) /\ completes_safely new.
Proof.
  intros Hkind. revert h. change (emits (_execute_claimed_job services lease_error clock job owner) (fun new _ => completes_safely new)).
  unfold _execute_claimed_job. eapply emits_catch.
  - apply safe_bind; [by apply only_guarded|]. intros _. by apply execute_leased_safe.
  - done.
  - intros n e Hn.
    assert (Honly : forall m : W unit, only not_complete m -> emits m (fun n' _ => completes_safely (n ++ n'))).
    { intros m Hm. eapply emits_weaken; [exact Hm|]. intros. by apply completes_app_r. }
    apply Honly. destruct e; try apply only_ret; try apply only_raise;
      try (apply only_bind; [apply only_fail_claimed|intros; apply only_ret]).
    apply only_if; [|apply only_raise]. apply only_if; [apply only_ret|].
    apply only_bind; [apply only_fail_claimed|intros; apply only_ret].
Qed.

(** A job failure is settled as the retry policy says: not retryable is final, and a retryable failure
    becomes final exactly when the retries are used up; the worker accepts only the matching
    disposition of the job service. *)
Theorem fail_job_spec job owner reason retryable h retry_count max_retries :
  j_retry_count job = VInt retry_count -> j_max_retries job = VInt max_retries ->
  0 <= retry_count <= max_retries -> max_retries <= 10 ->
  exists t, (fail_job services job owner reason retryable h).2 = h ++ [(JobFail (j_id job) owner reason retryable, t)] /\
    forall terminal, (fail_job services job owner reason retryable h).1 = Ok terminal ->
      (terminal = true <-> retryable = false \/ retry_count = max_retries) /\
      exists v, t = Body v /\ get "disposition" v =
        VStr (if retryable then if bool_decide (retry_count = max_retries) then "dead_lettered" else "retry_scheduled"
              else "failed").
Proof.
  intros Hrc Hmr Hr Hm. unfold fail_job. rewrite Hrc, Hmr. cbn [as_int].
  rewrite (proj2 (Z.leb_le 0 retry_count)), (proj2 (Z.leb_le retry_count max_retries)), (proj2 (Z.leb_le max_retries 10)) by lia.
  cbn [andb w_require]. unfold mbind, W_bind. cbn [mret W_ret].
  destruct (json_shape (JobFail (j_id job) owner reason retryable) "runtime_job_request_failed" h)
    as (new & r & Hh & t & -> & Hv). unfold runtime_request. rewrite Hh.
  destruct r as [v|e]; [|by exists t]. specialize (Hv v eq_refl) as ->. exists (Body v).
  destruct v as [| | | | | |fields]; try done. unfold w_require. destruct (is_str _ _) eqn:Hd; [|done].
  apply is_str_spec in Hd. cbn. split; [done|]. intros terminal [= <-].
  rewrite orb_true_iff, negb_true_iff, Z.ltb_lt. split; [split; intros [?|?]; [by left|right; lia|by left|right; lia]|].
  exists (VDict fields). split; [done|]. rewrite Hd. f_equal. destruct retryable; [|done]. cbn.
  destruct (Z.ltb_spec max_retries (retry_count + 1)); [rewrite bool_decide_eq_true_2 by lia|rewrite bool_decide_eq_false_2 by lia]; done.
Qed.

(** ** The terminal dispatcher *)

(** Every acknowledgement of an outbox event immediately follows a wake call for the same event that
    the service answered with the last page. *)
Definition acknowledges_delivered (new : history) : Prop :=
  forall pre job ty gen t post, new = pre ++ (OutboxPublished job ty gen, t) :: post ->
    exists pre' after v, pre = pre' ++ [(OutboxWake job gen after, Body v)] /\
      waiter_page_next v ["woken"; "no_waiter"] after = Ok None.

Lemma acknowledges_app n1 n2 :
  acknowledges_delivered n1 -> acknowledges_delivered n2 -> acknowledges_delivered (n1 ++ n2).
Proof.
  intros H1 H2 pre job ty gen t post E. apply app_eq_app in E as (l & [[E1 E2]|[E1 E2]]).
  - destruct l as [|ev l].
    + destruct (H2 [] job ty gen t post (eq_sym E2)) as (pre' & ? & ? & E & _). by destruct pre'.
    + injection E2 as <- ->. by eapply H1.
  - destruct (H2 _ _ _ _ _ _ E2) as (pre' & after & v & -> & Hw). exists (n1 ++ pre'), after, v.
    by rewrite E1, <- app_assoc.
Qed.

Lemma acknowledges_other q t :
  (forall job ty gen, q <> OutboxPublished job ty gen) -> acknowledges_delivered [(q, t)].
Proof.
  intros Hq pre job ty gen t' post E. destruct pre as [|? pre].
  - injection E as -> _ _. by edestruct (Hq job ty gen).
  - injection E as _ E. by destruct pre.
Qed.

Lemma dispatch_event_spec cs event h r cs' h' :
  dispatch_event services cs event h = (r, cs', h') ->
  exists new, h' = h ++ new /\ acknowledges_delivered new.
Proof.
  unfold dispatch_event. destruct (check_outbox_event event) as [[job gen]|e].
  2:{ intros [= <- <- <-]. exists []. rewrite app_nil_r. split; [done|]. intros [|? pre]; done. }
  cbv zeta. unfold mbind, W_bind, runtime_request.
  match goal with |- context [OutboxWake job gen ?a] => set (after := a) end.
  destruct (json_shape (OutboxWake job gen after) "runtime_job_request_failed" h) as (n & rw & Hh & t & -> & Hv).
  rewrite Hh.
  assert (Hone : acknowledges_delivered [(OutboxWake job gen after, t)]) by by apply acknowledges_other.
  destruct rw as [v|e]; [|intros [= <- <- <-]; eauto]. specialize (Hv v eq_refl) as ->.
  unfold w_lift. destruct (waiter_page_next v _ _) as [[next|]|e] eqn:Hw; try (intros [= <- <- <-]; eauto).
  destruct (json_shape (OutboxPublished job "runtime_job.terminal" gen) "runtime_job_request_failed"
              (h ++ [(OutboxWake job gen after, Body v)])) as (n2 & rp & Hh2 & t2 & -> & Hv2).
  rewrite Hh2.
  assert (Htwo : acknowledges_delivered [(OutboxWake job gen after, Body v);
                                         (OutboxPublished job "runtime_job.terminal" gen, t2)]).
  { intros pre job' ty' gen' t' post E. destruct pre as [|e1 [|e2 pre]].
    - discriminate E.
    - injection E as <- -> _ -> _ _. by exists [], after, v.
    - injection E as _ _ E. by destruct pre. }
  assert (Hend : forall r0 cs0, (r0, cs0, (h ++ [(OutboxWake job gen after, Body v)]) ++
     [(OutboxPublished job "runtime_job.terminal" gen, t2)]) = (r, cs', h') ->
     exists new, h' = h ++ new /\ acknowledges_delivered new).
  { intros r0 cs0 [= <- <- <-]. rewrite <- app_assoc. eauto. }
  destruct rp as [p|e]; [|apply Hend]. destruct p; try apply Hend.
  unfold w_require. destruct (str_in _ _); apply Hend.
Qed.

Lemma dispatch_events_spec events cs h r cs' h' :
  dispatch_events services cs events h = (r, cs', h') ->
  exists new, h' = h ++ new /\ acknowledges_delivered new.
Proof.
  revert cs h. induction events as [|event events IH]; intros cs h; cbn.
  - intros [= <- <- <-]. exists []. rewrite app_nil_r. split; [done|]. intros [|? pre]; done.
  - destruct (dispatch_event services cs event h) as [[re cs1] h1] eqn:E.
    apply dispatch_event_spec in E as (n1 & -> & H1). destruct re as [u|e]; [|intros [= <- <- <-]; eauto].
    intros (n2 & -> & H2)%IH. exists (n1 ++ n2). rewrite app_assoc. auto using acknowledges_app.
Qed.

(** The dispatcher never acknowledges an incomplete delivery: in every round, an outbox event is
    marked published only right after the service reported that the last page of its waiters was
    woken. *)
Theorem dispatcher_acknowledges_only_complete_deliveries cs h r cs' h' :
  dispatch_terminal_once services cs h = (r, cs', h') ->
  exists new, h' = h ++ new /\ acknowledges_delivered new.
Proof.
  unfold dispatch_terminal_once.
  destruct (json_shape OutboxPending "runtime_job_request_failed" h) as (n & rp & Hh & t & -> & _).
  unfold runtime_request. rewrite Hh.
  assert (Hone : acknowledges_delivered [(OutboxPending, t)]) by by apply acknowledges_other.
  destruct rp as [v|e]; [|intros [= <- <- <-]; eauto]. destruct (get "events" v) as [| | | | |events|];
    try (intros [= <- <- <-]; eauto).
  destruct (dispatch_events _ _ _ _) as [[re cs1] h1] eqn:E. apply dispatch_events_spec in E as (n2 & -> & H2).
  assert (Hend : exists new, (h ++ [(OutboxPending, t)]) ++ n2 = h ++ new /\ acknowledges_delivered new).
  { exists ([(OutboxPending, t)] ++ n2). rewrite app_assoc. auto using acknowledges_app. }
  destruct re; intros [= <- <- <-]; exact Hend.
Qed.
End props.

(** ** The API and the worker agree *)

(** A job as the claim endpoint returns it for a scheduled body. *)
Definition scheduled_job (body : value) : job_row := job_of_value body.

Lemma binding_of_fields run_id digest session_id kind rc mr :
  run_id <> "" -> session_id <> "" -> startswith digest "sha256:" = true -> str_len digest = 71 ->
  chars_all is_lower_hex (str_drop 7 digest) = true ->
  agent_run_lifecycle_binding
    (Job (lifecycle_prefix +:+ run_id) kind (VStr ("record:agent_run:" +:+ run_id)) (VStr session_id)
       (VStr (lifecycle_prefix +:+ run_id +:+ ":" +:+ digest)) rc mr) = Ok (run_id, digest).
Proof.
  intros Hne Hs Hd1 Hd2 Hd3. unfold agent_run_lifecycle_binding. cbn [j_payload_ref j_session j_idempotency j_id as_str].
  rewrite startswith_app, removeprefix_app, (proj2 (is_empty_false _) Hs). cbn [andb negb require mbind res_bind].
  replace (lifecycle_prefix +:+ run_id +:+ ":" +:+ digest) with ((lifecycle_prefix +:+ run_id +:+ ":") +:+ digest)
    by (by rewrite !str_app_assoc).
  rewrite startswith_app, removeprefix_app, (proj2 (is_empty_false _) Hne), Hd1, Hd2, Hd3.
  by rewrite bool_decide_eq_true_2.
Qed.

(** Round trip across the two services: the job the API schedules for a run is recognised by the
    worker as that run with that authorization digest, and its id is one the worker accepts. *)
Theorem scheduled_job_binds_back run_id digest session_id workspace_id run_at body :
  lifecycle_schedule_body run_id digest session_id workspace_id run_at = Ok body ->
  session_id <> "" -> startswith digest "sha256:" = true -> str_len digest = 71 ->
  chars_all is_lower_hex (str_drop 7 digest) = true ->
  agent_run_lifecycle_binding (scheduled_job body) = Ok (run_id, digest) /\
  valid_runtime_job_id (get "jobId" body) = true /\ is_str "agent_run.lifecycle" (get "jobKind" body) = true.
Proof.
  intros Hb Hs Hd1 Hd2 Hd3. unfold lifecycle_schedule_body, agent_run_lifecycle_job_id in Hb. res_inv. bool_inv.
  assert (Hne : run_id <> "") by (intros ->; unfold str_len, zlen in *; cbn in *; lia).
  split; [|split].
  - by apply binding_of_fields.
  - unfold valid_runtime_job_id. cbn -[str_len chars_all str_app]. rewrite str_len_app.
    change (str_len _ + str_len run_id) with (20 + str_len run_id).
    rewrite !andb_true_iff, !Z.leb_le. split; [lia|]. unfold chars_all in *. rewrite code_points_app, forallb_app.
    apply andb_true_iff. split; [done|]. rewrite forallb_Forall in *.
    eapply Forall_impl; [eassumption|]. cbn. intros c. rewrite !orb_true_iff. naive_solver.
  - done.
Qed.

Lemma reply_fields id s : is_str_dict [("agentRunId", id); ("state", status_str s)] (transition_reply id s) = true.
Proof.
  unfold is_str_dict, is_str. cbn -[bool_decide].
  rewrite !(bool_decide_eq_true_2 (Some id = Some id)), !(bool_decide_eq_true_2 (Some (status_str s) = _)) by done.
  reflexivity.
Qed.

Section agreement.
Context (material_citations : pystr -> option Z -> gmap pystr citation_row) (wait : Z).

Lemma fail_terminal st id now r st' :
  _fail_agent_run_lifecycle material_citations st id now = Ok (r, st') -> is_terminal (r_status r) = true.
Proof.
  unfold _fail_agent_run_lifecycle. intros H. apply bind_Ok in H as (r0 & _ & H). cbv zeta in H.
  assert (Hmark : forall p, (if bool_decide (r_status r0 = Failed) then Ok (r0, st)
      else Ok (set_reason AGENT_RUN_LIFECYCLE_DEAD_LETTER_REASON (set_terminal Failed (r_started r0) (Some now) r0),
        set_run id (set_reason AGENT_RUN_LIFECYCLE_DEAD_LETTER_REASON (set_terminal Failed (r_started r0) (Some now) r0)) st))
      = Ok (E := lexn) p -> is_terminal (r_status p.1) = true).
  { intros p Hp. destruct (bool_decide (r_status r0 = Failed)) eqn:E; simplify_eq; [|done]. bool_inv. cbn. by rewrite E. }
  destruct (_ || _) eqn:Hg in H.
  - simplify_eq. rewrite !orb_true_iff, !andb_true_iff, !bool_decide_eq_true in Hg.
    destruct Hg as [[E|E]|[E _]]; by rewrite E.
  - destruct (committed_session_terminal_state st id r0); [|by apply Hmark in H].
    apply bind_Ok in H as ([p st1] & _ & H). destruct (is_terminal (r_status p)) eqn:Ht; [|by apply Hmark in H].
    simplify_eq. by repeat case_match.
Qed.

(** What the API answers to a transition the worker asks for is accepted by the worker, except that a
    dead letter may be answered with the cancelled state. *)
Theorem worker_accepts_transition_replies st id state reason now ok run_id s st' :
  Lifecycle.transition_agent_run material_citations wait st id state reason now ok = (Transitioned run_id s, st') ->
  transition_accepted id (status_str state) reason (transition_reply run_id s) = true \/
  (state = Failed /\ reason = AGENT_RUN_LIFECYCLE_DEAD_LETTER_REASON /\ s = Cancelled).
Proof.
  assert (Hacc : forall s', transition_accepted id (status_str s') reason (transition_reply id s') = true).
  { intros s'. unfold transition_accepted. by rewrite reply_fields. }
  unfold Lifecycle.transition_agent_run. destruct (_ || _); [done|].
  destruct (transition_locked material_citations wait st id state reason now ok) as [[resp st1]|[]] eqn:E; try done.
  intros [= -> ->]. unfold transition_locked in E. apply bind_Ok in E as (r & _ & E).
  destruct (if bool_decide (state = Running) && bool_decide (r_status r = Queued) then _ else _)
    as [[r1 st2]|] in E; [|done]. cbv zeta in E.
  destruct (bool_decide (state = Running)) eqn:Hrun.
  { bool_inv. subst state. walk E; left; apply (Hacc Running). }
  destruct (_ && _) eqn:Hdl in E.
  - apply bind_Ok in E as ([r2 st3] & Hf & E). simplify_eq. bool_inv. subst state. cbn.
    apply fail_terminal in Hf. destruct (bool_decide (r_reason r1 = _)) eqn:Hexp; [done|].
    subst reason. destruct (r_status r2) eqn:Hs; try done; [|by left; rewrite <- (Hacc Failed)|by right].
    left. unfold transition_accepted. pose proof (reply_fields run_id Completed) as Hc. cbn [status_str] in Hc. rewrite Hc. apply orb_true_r.
  - apply bind_Ok in E as ([r2 st3] & _ & E). cbn in E. destruct (negb _) eqn:Hneq in E; [done|].
    simplify_eq. bool_inv. cbn. rewrite Hneq. left. apply Hacc.
Qed.

End agreement.

(** The exception is real: a dead letter for a run whose log was already interrupted is answered
    [cancelled], which the worker rejects as an invalid response. *)
Lemma dead_letter_of_cancelled_run_is_rejected :
  let run := Run "ws" "session-1" Running "runtime_job_wait" (Some 5) None None 0 in
  let ev := Event "ws" "session-1" "run-1" 1 (Some 1) false "agent_run_interrupted" 1000 None in
  let st := Store {["run-1" := run]} {["e1" := ev]} ∅ ∅ in
  let '(resp, _) := Lifecycle.transition_agent_run (fun _ _ => ∅) 60 st "run-1" Failed
                      AGENT_RUN_LIFECYCLE_DEAD_LETTER_REASON 9 true in
  resp = Transitioned "run-1" Cancelled /\
  transition_accepted "run-1" "failed" AGENT_RUN_LIFECYCLE_DEAD_LETTER_REASON (transition_reply "run-1" Cancelled) = false.
Proof. vm_compute. split; reflexivity. Qed.

(** ** Witnesses *)

Definition sample_digest : pystr := "sha256:0123456789abcdef0123456789abcdef0123456789abcdef0123456789abcdef".
Definition sample_job : job_row :=
  Job "agent_run.lifecycle:run-1" "agent_run.lifecycle" (VStr "record:agent_run:run-1") (VStr "session-1")
    (VStr ("agent_run.lifecycle:run-1:" +:+ sample_digest)) (VInt 2) (VInt 2).
Definition ok_reply (fields : list (pystr * value)) : transport := Body (VDict fields).
Definition sample_start : value := VDict [("agentRunId", VStr "run-1"); ("authorizationDigest", VStr sample_digest)].

(** Services that resolve the run as already completed and acknowledge everything. *)
Definition sample_services (h : history) (q : request) : transport :=
  match q with
  | RunResolve _ _ _ => ok_reply [("schema", VStr "runtime.agent_run_lifecycle.resolved.v1"); ("disposition", VStr "terminal");
                                  ("terminalState", VStr "completed"); ("agentRunStart", sample_start)]
  | RunTransition run st _ => ok_reply [("agentRunId", VStr run); ("state", VStr st)]
  | RunTeardown _ _ _ => ok_reply [("schema", VStr "runtime.agent_run.teardown.result.v1"); ("agentRunId", VStr "run-1"); ("status", VStr "removed")]
  | JobFail _ _ _ retryable => ok_reply [("disposition", VStr (if retryable then "dead_lettered" else "failed"))]
  | OutboxPending => ok_reply [("events", VList [VDict [("jobId", VStr "job-1"); ("eventType", VStr "runtime_job.terminal");
                                                       ("publishedAtMs", VNone); ("generation", VInt 3)]])]
  | OutboxWake _ _ _ => ok_reply [("disposition", VStr "woken"); ("checked", VInt 1); ("waiters", VList []); ("next", VNone)]
  | OutboxPublished _ _ _ => ok_reply [("disposition", VStr "published")]
  | _ => ok_reply []
  end.

Lemma job_completed_only_after_teardown_witness :
  exists new r, _execute_claimed_job sample_services (fun _ => None) (fun _ => 0) sample_job "owner-0123456789" [] = (r, [] ++ new) /\
    completes_safely new.
Proof. apply job_completed_only_after_teardown. reflexivity. Defined.

(** The completion really is sent in that history. *)
Lemma sample_job_completes :
  (_execute_claimed_job sample_services (fun _ => None) (fun _ => 0) sample_job "owner-0123456789" []).1 = Ok tt /\
  fst <$> last (_execute_claimed_job sample_services (fun _ => None) (fun _ => 0) sample_job "owner-0123456789" []).2
    = Some (JobComplete "agent_run.lifecycle:run-1" "owner-0123456789").
Proof. vm_compute. split; reflexivity. Qed.

Lemma fail_job_spec_witness :
  exists t, (fail_job sample_services sample_job "owner" "boom" true []).2 = [] ++ [(JobFail (j_id sample_job) "owner" "boom" true, t)] /\
    forall terminal, (fail_job sample_services sample_job "owner" "boom" true []).1 = Ok terminal ->
      (terminal = true <-> true = false \/ 2 = 2) /\
      exists v, t = Body v /\ get "disposition" v =
        VStr (if bool_decide (2 = 2) then "dead_lettered" else "retry_scheduled").
Proof. apply (fail_job_spec sample_services sample_job "owner" "boom" true [] 2 2); try reflexivity; lia. Defined.

Lemma dispatcher_acknowledges_only_complete_deliveries_witness :
  exists r cs' h', dispatch_terminal_once sample_services ∅ [] = (r, cs', h') /\ r = Ok 1 /\
    exists new, h' = [] ++ new /\ acknowledges_delivered new.
Proof.
  eexists _, _, _. split; [vm_compute; reflexivity|]. split; [reflexivity|].
  eapply (dispatcher_acknowledges_only_complete_deliveries sample_services ∅ []). vm_compute. reflexivity.
Defined.

Lemma scheduled_job_binds_back_witness :
  exists body, lifecycle_schedule_body "run-1" sample_digest "session-1" "ws" 7 = Ok body /\
    agent_run_lifecycle_binding (scheduled_job body) = Ok ("run-1", sample_digest) /\
    valid_runtime_job_id (get "jobId" body) = true /\ is_str "agent_run.lifecycle" (get "jobKind" body) = true.
Proof.
  eexists. split; [reflexivity|].
  apply (scheduled_job_binds_back "run-1" sample_digest "session-1" "ws" 7); try (vm_compute; reflexivity). discriminate.
Defined.

Lemma worker_accepts_transition_replies_witness :
  let st := Store {["run-1" := Run "ws" "session-1" Queued "agent_run_created" None None None 0]} ∅ ∅ ∅ in
  transition_accepted "run-1" (status_str Running) "started" (transition_reply "run-1" Running) = true \/
  (Running = Failed /\ "started" = AGENT_RUN_LIFECYCLE_DEAD_LETTER_REASON /\ Running = Cancelled).
Proof.
  intros st. eapply (worker_accepts_transition_replies (fun _ _ => ∅) 60 st "run-1" Running "started" 5 true).
  vm_compute. reflexivity.
Defined.
