(* ===== verification/Stream.v ===== *)
(** * The event stream of a run

    [packages/api/app_core/agent_run_stream.py]: committed Session events are read from PostgreSQL in
    pages and delivered in order, with the live text of the running turn overlaid from Redis.

    The generator reads an environment that changes while it runs.  Every read takes the next tick of
    the environment: [pg_at] is the database at a tick, the other fields what Redis and the clock
    answered.  What the generator yielded so far is part of its state, so a property of the outputs is
    a property at every point where a consumer may stop. *)

From stdpp Require Import base tactics numbers gmap list sorting.
From S2P Require Import Prelude PyStr Platform Table PyValue Json Schema Lifecycle Cursor.

(** ** Data *)

(** [SessionEvent], keyed by [eventId] *)
Record stream_row := StreamRow {
  sr_session : pystr; sr_run : pystr; sr_projects : bool; sr_sequence : Z; sr_payload : value }.
Record pg := Pg { pg_events : gmap pystr stream_row; pg_status : gmap pystr run_status }.

Record agent_run := AgentRun { ar_id : pystr; ar_session : pystr; ar_status : run_status }.

Record live_state := Live {
  lv_message : pystr; lv_turn : pystr; lv_after : Z; lv_revision : Z; lv_text : pystr;
  (** [None] when the state has no [reasoning] key *)
  lv_reasoning : option value }.

Inductive sexn :=
| SValueError (message : pystr)
| SRuntimeError (message : pystr)
| STypeError
| SRedisError
(** the generator has not finished within the given number of loop iterations *)
| StillRunning.
#[global] Instance sexn_eq_dec : EqDecision sexn.
Proof. solve_decision. Defined.

Definition STREAM_ITEM_SCHEMA : pystr := "session.stream.item.v1".
Definition SIGNAL_SCHEMA : pystr := "agent_run.transient.signal.v1".
Definition SIGNAL_FIELD : pystr := "signal".
Definition SIGNAL_FIELDS (kind : pystr) : option (list pystr) :=
  if bool_decide (kind = "commit_wake") then Some ["schema"; "kind"; "agentRunId"; "highWaterSequence"]
  else if bool_decide (kind = "live") then
    Some ["schema"; "kind"; "agentRunId"; "afterSequence"; "revision"; "turnId"; "messageId"; "text"]
  else None.
Definition TERMINAL_EVENT_TYPES : list pystr := ["agent_run_completed"; "agent_run_failed"; "agent_run_interrupted"].
Definition OVERLAY_BARRIER_EVENT_TYPES : list pystr := ["phase_event"; "assistant_message"].
Definition POSTGRES_BATCH_SIZE : nat := 100.
Definition POSTGRES_RECONCILE_MS : Z := 5000.

(** [v == n] for a JSON value: a [bool] counts as 0 or 1, a whole float prints as [n.0]
    (below 10^16, where [repr] switches to exponents). *)
Definition py_eq_int (v : value) (n : Z) : bool :=
  match v with
  | VInt z => z =? n
  | VBool b => (if b then 1 else 0) =? n
  | VFloat r => bool_decide (r = int_str n +:+ ".0") && (Z.abs n <? 10 ^ 16)
  | _ => false
  end.

(** ** Queries *)

(** [order_by("sequence")] and [order_by("-sequence")] *)
Definition sequence_le (x y : pystr * stream_row) : Prop := sr_sequence x.2 <= sr_sequence y.2.
#[global] Instance sequence_le_dec : RelDecision sequence_le.
Proof. intros x y. unfold sequence_le. apply _. Defined.
Definition sequence_ge (x y : pystr * stream_row) : Prop := sr_sequence y.2 <= sr_sequence x.2.
#[global] Instance sequence_ge_dec : RelDecision sequence_ge.
Proof. intros x y. unfold sequence_ge. apply _. Defined.

Definition load_session_high_water (db : pg) (session_id : pystr) : Z :=
  match head (merge_sort sequence_ge (qs_list (fun r => bool_decide (sr_session r = session_id)) (pg_events db))) with
  | Some (_, r) => sr_sequence r
  | None => 0
  end.

Definition require_cursor_not_future (db : pg) (run : agent_run) (source_sequence : Z) : res exn unit :=
  require (negb (load_session_high_water db (ar_session run) <? source_sequence)) (ValueError "last_event_id_invalid").

(** the rows a run's stream shows *)
Definition projected (run : agent_run) (r : stream_row) : bool :=
  bool_decide (sr_session r = ar_session run) && bool_decide (sr_run r = ar_id run) && sr_projects r.

(** Each query of a load sees the database of its own moment: [db] first, then [db']. *)
Definition _load_postgres_page (db db' : pg) (run : agent_run) (after_sequence : Z) : list (pystr * stream_row) * Z :=
  let high_water := load_session_high_water db (ar_session run) in
  let records := take POSTGRES_BATCH_SIZE
    (merge_sort sequence_le (qs_list (fun r => projected run r && (after_sequence <? sr_sequence r)) (pg_events db'))) in
  (records, match last records with Some (_, r) => Z.max high_water (sr_sequence r) | None => high_water end).

Definition event_type (v : value) : value := get "type" v.
(** lists and dicts cannot be looked up in a set or dict *)
Definition unhashable (v : value) : bool := match v with VList _ | VDict _ => true | _ => false end.

Definition _load_terminal_sequence (db db' db'' : pg) (run_id : pystr) : option Z :=
  match head (merge_sort sequence_le
    (qs_list (fun r => bool_decide (sr_run r = run_id) && sr_projects r
                       && str_in TERMINAL_EVENT_TYPES (event_type (sr_payload r))) (pg_events db))) with
  | Some (_, r) => Some (sr_sequence r)
  | None =>
      match pg_status db' !! run_id with
      | Some Failed | Some Cancelled =>
          if negb (qs_exists (fun r => bool_decide (sr_run r = run_id) && is_str "user_message" (event_type (sr_payload r)))
                     (pg_events db''))
          then Some 0 else None
      | _ => None
      end
  end.

(** ** Live overlay *)

Abbreviation barriers_t := (gmap pystr Z).

Definition advance_overlay_barrier (barriers : barriers_t) (event : value) (sequence : Z) : res sexn barriers_t :=
  if unhashable (event_type event) then Err STypeError
  else if negb (str_in OVERLAY_BARRIER_EVENT_TYPES (event_type event)) then Ok barriers
  else match get "turnId" event with
       | VStr turn_id =>
           if is_empty turn_id then Err (SRuntimeError "committed overlay barrier identity is invalid")
           else Ok (<[turn_id := Z.max (default 0 (barriers !! turn_id)) sequence]> barriers)
       | _ => Err (SRuntimeError "committed overlay barrier identity is invalid")
       end.

Definition live_overlay_is_superseded (l : live_state) (barriers : barriers_t) : bool :=
  lv_after l <? default 0 (barriers !! lv_turn l).

Definition _load_committed_overlay_projection (db db' : pg) (run : agent_run) (turn_id message_id : pystr) : res sexn (Z * bool) :=
  let barrier :=
    match head (merge_sort sequence_ge
      (qs_list (fun r => projected run r && is_str turn_id (get "turnId" (sr_payload r))
                         && str_in OVERLAY_BARRIER_EVENT_TYPES (event_type (sr_payload r))) (pg_events db))) with
    | Some (_, r) => sr_sequence r
    | None => 0
    end in
  let sealed_rows := take 2 (merge_sort sequence_le
    (qs_list (fun r => projected run r && is_str "assistant_message" (event_type (sr_payload r))
                       && is_str message_id (get "messageId" (get "payload" (sr_payload r)))) (pg_events db'))) in
  if (1 <? length sealed_rows)%nat
     || match head sealed_rows with Some (_, r) => negb (is_str turn_id (get "turnId" (sr_payload r))) | None => false end
  then Err (SRuntimeError "live assistant message identity conflicts with committed history")
  else Ok (barrier, bool_decide (sealed_rows <> [])).

Definition _validate_reasoning (v : value) : res sexn value :=
  let invalid := SValueError "agent_run_live_reasoning_invalid" in
  match v with
  | VNone => Ok VNone
  | VDict _ =>
      require (keys_are ["blockId"; "requestId"; "text"] v) invalid;;
      match get "requestId" v with
      | VStr request_id =>
          require (negb (is_empty (strip request_id)) && is_str ("reasoning:" +:+ request_id) (get "blockId" v)
                   && bool_decide (is_Some (as_str (get "text" v)))) invalid;;
          Ok v
      | _ => Err invalid
      end
  | _ => Err invalid
  end.

Section platform.
Context {PL : Platform}.

(** [int(text)] *)
Fixpoint int_body (after_digit : bool) (acc : Z) (count : Z) (l : list Z) : option (Z * Z) :=
  match l with
  | [] => if after_digit then Some (acc, count) else None
  | c :: l =>
      match unicode_decimal c with
      | Some d => int_body true (acc * 10 + d) (count + 1) l
      | None => if (c =? 95) && after_digit then int_body false acc count l else None
      end
  end.
Definition int_of_str (s : pystr) : option Z :=
  let '(neg, l) := match code_points (strip s) with
                   | c :: l => if c =? 45 then (true, l) else if c =? 43 then (false, l) else (false, c :: l)
                   | [] => (false, [])
                   end in
  p ← int_body false 0 0 l;
  if INT_MAX_STR_DIGITS <? p.2 then None else Some (if neg : bool then - p.1 else p.1).

(** The Redis hash [meta] as a dict of strings. *)
Definition _live_state (meta : gmap pystr pystr) (text : option pystr) : res sexn (option live_state) :=
  if bool_decide (meta = ∅) then Ok None
  else
    let invalid := SValueError "agent_run_live_state_invalid" in
    require (bool_decide (dom meta ∖ {["reasoning"]} = ({["messageId"; "turnId"; "afterSequence"; "revision"]} : gset pystr))) invalid;;
    message_id ← from_option_res invalid (meta !! "messageId");
    turn_id ← from_option_res invalid (meta !! "turnId");
    after_sequence ← from_option_res invalid (meta !! "afterSequence" ≫= int_of_str);
    revision ← from_option_res invalid (meta !! "revision" ≫= int_of_str);
    require (negb ((after_sequence <? 0) || (revision <? 0) || is_empty message_id || is_empty turn_id)) invalid;;
    if revision =? 0 then Ok None
    else
      reasoning ← match meta !! "reasoning" with
                  | None => Ok None
                  | Some raw =>
                      v ← match json_loads raw with Ok v => Ok v | Err _ => Err (SValueError "json_decode_error") end;
                      v ← _validate_reasoning v; Ok (Some v)
                  end;
      Ok (Some (Live message_id turn_id after_sequence revision (default "" text) reasoning)).
End platform.

(** A Redis signal's fields as a dict of strings. *)
Definition _decode_signal (run : agent_run) (fields : gmap pystr pystr) : res sexn value :=
  require (bool_decide (dom fields = ({[SIGNAL_FIELD]} : gset pystr))) (SRuntimeError "Redis AgentRun signal fields mismatch");;
  raw ← from_option_res (SRuntimeError "Redis AgentRun signal is missing") (fields !! SIGNAL_FIELD);
  signal ← match json_loads raw with
           | Ok v => Ok v
           | Err IntTooLong => Err (SValueError "int_too_long")
           | Err _ => Err (SRuntimeError "Redis AgentRun signal is invalid JSON")
           end;
  let unsupported := SRuntimeError "Redis AgentRun signal kind is unsupported" in
  match signal with
  | VDict _ =>
      kind ← match get "kind" signal with
             | VStr k => Ok k
             | k => Err (if unhashable k then STypeError else unsupported)
             end;
      fields ← from_option_res unsupported (SIGNAL_FIELDS kind);
      let live := bool_decide (kind = "live") in
      require (keys_are (if live && has_key "reasoning" signal then "reasoning" :: fields else fields) signal)
        (SRuntimeError "Redis AgentRun signal fields mismatch");;
      require (is_str SIGNAL_SCHEMA (get "schema" signal) && is_str (ar_id run) (get "agentRunId" signal))
        (SRuntimeError "Redis AgentRun signal binding mismatch");;
      let at_least k minimum := match as_int (get k signal) with Some n => minimum <=? n | None => false end in
      if negb live then
        require (at_least "highWaterSequence" 1) (SRuntimeError "Redis commit wake highWaterSequence is invalid");;
        Ok signal
      else
        require (at_least "afterSequence" 0) (SRuntimeError "Redis live signal afterSequence is invalid");;
        require (at_least "revision" 1) (SRuntimeError "Redis live signal revision is invalid");;
        let non_empty k := match as_str (get k signal) with Some s => negb (is_empty s) | None => false end in
        require (non_empty "turnId") (SRuntimeError "Redis live signal turnId is invalid");;
        require (non_empty "messageId") (SRuntimeError "Redis live signal messageId is invalid");;
        require (bool_decide (is_Some (as_str (get "text" signal)))) (SRuntimeError "Redis live signal text is invalid");;
        (if has_key "reasoning" signal then _validate_reasoning (get "reasoning" signal) else Ok VNone);;
        Ok signal
  | _ => Err unsupported
  end.

(** ** The generator *)

Record tail_state := Tail {
  source_sequence : Z; session_high_water : Z; terminal : bool;
  sealed_live_identities : gset (pystr * pystr); checked_live_identities : gset (pystr * pystr);
  overlay_barriers : barriers_t; live_identity : option (pystr * pystr); live_revision : Z }.

Definition _new_tail_state (source_sequence : Z) : tail_state := Tail source_sequence 0 false ∅ ∅ ∅ None 0.

Definition set_high_water (h : Z) (s : tail_state) : tail_state :=
  Tail (source_sequence s) h (terminal s) (sealed_live_identities s) (checked_live_identities s)
    (overlay_barriers s) (live_identity s) (live_revision s).
Definition set_terminal_flag (b : bool) (s : tail_state) : tail_state :=
  Tail (source_sequence s) (session_high_water s) b (sealed_live_identities s) (checked_live_identities s)
    (overlay_barriers s) (live_identity s) (live_revision s).
Definition set_source (n : Z) (s : tail_state) : tail_state :=
  Tail n (session_high_water s) (terminal s) (sealed_live_identities s) (checked_live_identities s)
    (overlay_barriers s) (live_identity s) (live_revision s).
Definition set_barriers (b : barriers_t) (s : tail_state) : tail_state :=
  Tail (source_sequence s) (session_high_water s) (terminal s) (sealed_live_identities s) (checked_live_identities s)
    b (live_identity s) (live_revision s).
Definition add_sealed (i : pystr * pystr) (s : tail_state) : tail_state :=
  Tail (source_sequence s) (session_high_water s) (terminal s) ({[i]} ∪ sealed_live_identities s) (checked_live_identities s)
    (overlay_barriers s) (live_identity s) (live_revision s).
Definition add_checked (i : pystr * pystr) (s : tail_state) : tail_state :=
  Tail (source_sequence s) (session_high_water s) (terminal s) (sealed_live_identities s) ({[i]} ∪ checked_live_identities s)
    (overlay_barriers s) (live_identity s) (live_revision s).
Definition set_live (i : pystr * pystr) (revision : Z) (s : tail_state) : tail_state :=
  Tail (source_sequence s) (session_high_water s) (terminal s) (sealed_live_identities s) (checked_live_identities s)
    (overlay_barriers s) (Some i) revision.

(** What is yielded: a committed event with its cursor, or the live overlay. *)
Inductive emission :=
| Committed (event_id : pystr) (row : stream_row) (cursor : pystr)
| LiveItem (l : live_state).

(** [_encode_sse] of an emission *)
Definition item_value (run : agent_run) (e : emission) : value :=
  match e with
  | Committed _ r _ =>
      VDict [("schema", VStr STREAM_ITEM_SCHEMA); ("kind", VStr "committed"); ("agentRunId", VStr (ar_id run));
             ("sourceSequence", VInt (sr_sequence r)); ("event", sr_payload r)]
  | LiveItem l =>
      VDict ([("schema", VStr STREAM_ITEM_SCHEMA); ("kind", VStr "live"); ("agentRunId", VStr (ar_id run));
              ("messageId", VStr (lv_message l)); ("turnId", VStr (lv_turn l)); ("afterSequence", VInt (lv_after l));
              ("revision", VInt (lv_revision l)); ("text", VStr (lv_text l))]
             ++ match lv_reasoning l with Some v => [("reasoning", v)] | None => [] end)
  end.
Definition newline : pystr := PyStr [10].
Definition _encode_sse (run : agent_run) (e : emission) : pystr :=
  let data := json_dumps (item_value run e) in
  match e with
  | Committed _ _ cursor => "id: " +:+ cursor +:+ newline +:+ "data: " +:+ data +:+ newline +:+ newline
  | LiveItem _ => "data: " +:+ data +:+ newline +:+ newline
  end.

Record environment := Env {
  pg_at : nat -> pg;
  (** [None] is a [RedisError] *)
  signal_tail_at : nat -> option (option pystr);
  live_at : nat -> option (gmap pystr pystr * option pystr);
  xread_at : nat -> option (list (pystr * list (pystr * gmap pystr pystr)));
  (** [time.monotonic()] in milliseconds *)
  monotonic_at : nat -> Z }.

Record gstate := G { g_tick : nat; g_tail : tail_state; g_out : list emission }.
Definition gen (A : Type) : Type := gstate -> res sexn A * gstate.
#[global] Instance gen_ret : MRet gen := fun A a g => (Ok a, g).
#[global] Instance gen_bind : MBind gen := fun A B f m g =>
  match m g with
  | (Ok a, g') => f a g'
  | (Err e, g') => (Err e, g')
  end.
Definition g_raise {A} (e : sexn) : gen A := fun g => (Err e, g).
Definition g_lift {A} (r : res sexn A) : gen A := fun g => (r, g).
Definition g_get : gen tail_state := fun g => (Ok (g_tail g), g).
Definition g_modify (f : tail_state -> tail_state) : gen unit := fun g => (Ok tt, G (g_tick g) (f (g_tail g)) (g_out g)).
Definition g_yield (e : emission) : gen unit := fun g => (Ok tt, G (g_tick g) (g_tail g) (g_out g ++ [e])).
(** a read of the environment *)
Definition g_read {A} (f : nat -> A) : gen A := fun g => (Ok (f (g_tick g)), G (S (g_tick g)) (g_tail g) (g_out g)).
Definition g_read_pg (env : environment) : gen pg := g_read (pg_at env).
(** [except redis.RedisError] *)
Definition g_catch_redis {A} (m : gen A) : gen (option A) := fun g =>
  match m g with
  | (Ok a, g') => (Ok (Some a), g')
  | (Err SRedisError, g') => (Ok None, g')
  | (Err e, g') => (Err e, g')
  end.

Section generator.
Context {PL : Platform} (env : environment) (run : agent_run).

(** The checks of [_committed_item]. *)
Definition _committed_item (event_id : pystr) (r : stream_row) : res sexn value :=
  let event := sr_payload r in
  require (bool_decide (is_Some (as_dict event)) && (0 <? sr_sequence r) && py_eq_int (get "sequence" event) (sr_sequence r)
           && is_str event_id (get "eventId" event) && is_str (ar_session run) (get "sessionId" event)
           && is_str (ar_id run) (get "agentRunId" event))
    (SRuntimeError "PostgreSQL session stream event binding mismatch");;
  Ok event.

Definition assistant_identity (event : value) : res sexn (pystr * pystr) :=
  match get "payload" event with
  | VDict d =>
      match get "turnId" event, dict_get "messageId" d with
      | VStr t, VStr msg => if is_empty t || is_empty msg then Err (SRuntimeError "committed assistant identity is invalid")
                            else Ok (t, msg)
      | _, _ => Err (SRuntimeError "committed assistant identity is invalid")
      end
  | _ => Err (SRuntimeError "committed assistant payload is invalid")
  end.

(** The body of the loop over a page; true when a terminal event was yielded. *)
Definition deliver_record (event_id : pystr) (r : stream_row) : gen bool :=
  event ← g_lift (_committed_item event_id r);
  st ← g_get;
  (if sr_sequence r <=? source_sequence st then g_raise (SRuntimeError "PostgreSQL session stream sequence did not advance")
   else mret tt);;
  g_modify (set_source (sr_sequence r));;
  barriers ← g_lift (advance_overlay_barrier (overlay_barriers st) event (sr_sequence r));
  g_modify (set_barriers barriers);;
  (if is_str "assistant_message" (event_type event) then
     identity ← g_lift (assistant_identity event); g_modify (add_sealed identity)
   else mret tt);;
  cursor ← g_lift match encode_stream_cursor (ar_id run) (sr_sequence r) with
                  | Ok c => Ok c
                  | Err _ => Err (SValueError "cursor_not_encodable")
                  end;
  g_yield (Committed event_id r cursor);;
  if str_in TERMINAL_EVENT_TYPES (event_type event) then g_modify (set_terminal_flag true);; mret true
  else mret false.

Fixpoint deliver_page (records : list (pystr * stream_row)) : gen bool :=
  match records with
  | [] => mret false
  | (event_id, r) :: records =>
      stop ← deliver_record event_id r;
      if stop : bool then mret true else deliver_page records
  end.

Fixpoint _drain_postgres (fuel : nat) : gen unit :=
  match fuel with
  | O => g_raise StillRunning
  | S fuel =>
      st ← g_get;
      db ← g_read_pg env; db' ← g_read_pg env;
      let page := _load_postgres_page db db' run (source_sequence st) in
      g_modify (set_high_water page.2);;
      stop ← deliver_page page.1;
      if stop : bool then mret tt
      else if (length page.1 <? POSTGRES_BATCH_SIZE)%nat then
        db ← g_read_pg env; db' ← g_read_pg env; db'' ← g_read_pg env;
        st ← g_get;
        g_modify (set_terminal_flag match _load_terminal_sequence db db' db'' (ar_id run) with
                                    | Some n => n <=? source_sequence st
                                    | None => false
                                    end)
      else _drain_postgres fuel
  end.

Definition _load_live_text_state_async : gen (option live_state) :=
  answer ← g_read (live_at env);
  match answer with
  | None => g_raise SRedisError
  | Some (meta, text) => g_lift (_live_state meta text)
  end.

Definition _capture_signal_tail : gen pystr :=
  answer ← g_read (signal_tail_at env);
  match answer with
  | None => g_raise SRedisError
  | Some entry => mret (default "0-0" entry)
  end.

(** The part of [_stream_live_candidate] after the high-water test. *)
Definition overlay_candidate (l : live_state) : gen unit :=
  st ← g_get;
  if live_overlay_is_superseded l (overlay_barriers st) then mret tt
  else
    let identity := (lv_turn l, lv_message l) in
    if terminal st || bool_decide (identity ∈ sealed_live_identities st) then mret tt
    else
      proceed ←
        (if bool_decide (identity ∈ checked_live_identities st) then mret true
         else
           db ← g_read_pg env; db' ← g_read_pg env;
           p ← g_lift (_load_committed_overlay_projection db db' run (lv_turn l) (lv_message l));
           let barriers := <[lv_turn l := Z.max (default 0 (overlay_barriers st !! lv_turn l)) p.1]> (overlay_barriers st) in
           g_modify (set_barriers barriers);;
           if live_overlay_is_superseded l barriers then mret false
           else if p.2 : bool then g_modify (add_sealed identity);; mret false
           else g_modify (add_checked identity);; mret true);
      if negb proceed then mret tt
      else if bool_decide (live_identity st = Some identity) && (lv_revision l <=? live_revision st) then mret tt
      else g_modify (set_live identity (lv_revision l));; g_yield (LiveItem l).

Definition _stream_live_candidate (fuel : nat) (l : live_state) : gen unit :=
  st ← g_get;
  if session_high_water st <? lv_after l then
    _drain_postgres fuel;;
    st ← g_get;
    if terminal st then mret tt
    else if session_high_water st <? lv_after l then
      g_raise (SRuntimeError "live afterSequence exceeds PostgreSQL session high-water")
    else overlay_candidate l
  else overlay_candidate l.

(** [if live_state is not None: async for item in _stream_live_candidate(...)] *)
Definition maybe_live (fuel : nat) (l : option live_state) : gen unit :=
  match l with Some l => _stream_live_candidate fuel l | None => mret tt end.

Record loop_vars := Loop { redis_available : bool; redis_cursor : pystr; next_pg_reconcile_at : Z }.

Definition reconcile_deadline : gen Z := now ← g_read (monotonic_at env); mret (now + POSTGRES_RECONCILE_MS).

(** The decoded signals of one [xread]: the new cursor and whether one of them was live. *)
Definition read_entry (acc : pystr * bool) (entry : pystr * gmap pystr pystr) : res sexn (pystr * bool) :=
  signal ← _decode_signal run entry.2;
  Ok (entry.1, acc.2 || is_str "live" (get "kind" signal)).
Definition read_batches (cursor : pystr) (batches : list (pystr * list (pystr * gmap pystr pystr))) : res sexn (pystr * bool) :=
  for_each read_entry (concat (map snd batches)) (cursor, false).

(** One iteration of the loop: [None] is the generator's return. *)
Definition iteration (fuel : nat) (v : loop_vars) : gen (option loop_vars) :=
  if negb (redis_available v) then
    _drain_postgres fuel;;
    st ← g_get;
    if terminal st then mret None
    else
      at_ ← reconcile_deadline;
      cursor ← g_catch_redis _capture_signal_tail;
      match cursor with
      | None => mret (Some (Loop false (redis_cursor v) at_))
      | Some cursor =>
          _drain_postgres fuel;;
          st ← g_get;
          if terminal st then mret None
          else
            at_ ← reconcile_deadline;
            live ← g_catch_redis _load_live_text_state_async;
            match live with
            | None => mret (Some (Loop false cursor at_))
            | Some live =>
                maybe_live fuel live;;
                st ← g_get;
                if bool_decide (is_Some live) && terminal st then mret None else mret (Some (Loop true cursor at_))
            end
      end
  else
    now ← g_read (monotonic_at env);
    if next_pg_reconcile_at v - now <=? 0 then
      _drain_postgres fuel;;
      st ← g_get;
      if terminal st then mret None
      else at_ ← reconcile_deadline; mret (Some (Loop true (redis_cursor v) at_))
    else
      batches ← g_read (xread_at env);
      match batches with
      | None => mret (Some (Loop false (redis_cursor v) (next_pg_reconcile_at v)))
      | Some [] => mret (Some v)
      | Some batches =>
          p ← g_lift (read_batches (redis_cursor v) batches);
          _drain_postgres fuel;;
          st ← g_get;
          if terminal st then mret None
          else
            at_ ← reconcile_deadline;
            if p.2 : bool then
              live ← g_catch_redis _load_live_text_state_async;
              match live with
              | None => mret (Some (Loop false p.1 at_))
              | Some live =>
                  maybe_live fuel live;;
                  st ← g_get;
                  if bool_decide (is_Some live) && terminal st then mret None else mret (Some (Loop true p.1 at_))
              end
            else mret (Some (Loop true p.1 at_))
      end.

Fixpoint tail_loop (iterations fuel : nat) (v : loop_vars) : gen unit :=
  match iterations with
  | O => g_raise StillRunning
  | S iterations =>
      next ← iteration fuel v;
      match next with None => mret tt | Some v => tail_loop iterations fuel v end
  end.

(** The generator, followed for at most [iterations] rounds of its loop with at most [fuel] pages per
    drain. *)
Definition _stream_agent_run_session_items_async (iterations fuel : nat) : gen unit :=
  if is_terminal (ar_status run) then _drain_postgres fuel
  else
    cursor ← g_catch_redis _capture_signal_tail;
    _drain_postgres fuel;;
    st ← g_get;
    if terminal st then mret tt
    else
      at_ ← reconcile_deadline;
      match cursor with
      | None => tail_loop iterations fuel (Loop false "0-0" at_)
      | Some cursor =>
          live ← g_catch_redis _load_live_text_state_async;
          match live with
          | None => tail_loop iterations fuel (Loop false cursor at_)
          | Some live =>
              maybe_live fuel live;;
              st ← g_get;
              if bool_decide (is_Some live) && terminal st then mret tt
              else tail_loop iterations fuel (Loop true cursor at_)
          end
      end.

Definition stream_from (source_sequence : Z) (iterations fuel : nat) : res sexn unit * gstate :=
  _stream_agent_run_session_items_async iterations fuel (G 0 (_new_tail_state source_sequence) []).
End generator.

(** ** The authority guard *)

(** What the guarded source does next: an item, the end, an exception, or nothing within
    [AUTHORITY_RECHECK_SECONDS]. *)
Inductive source_event (A : Type) := SourceItem (a : A) | SourceTimeout | SourceEnd | SourceError.
Arguments SourceItem {A} a.
Arguments SourceTimeout {A}.
Arguments SourceEnd {A}.
Arguments SourceError {A}.

(** How an authority check ended: [task.result()], no answer in time, or an exception. *)
Inductive check_outcome := CheckResult (b : bool) | CheckTimeout | CheckRaised.
Definition _stream_authority_is_current (c : check_outcome) : bool :=
  match c with CheckResult b => b | CheckTimeout | CheckRaised => false end.

(** What the response saw, in order. *)
Inductive guard_step (A : Type) := Checked (ok : bool) | Exposed (a : A).
Arguments Checked {A} ok.
Arguments Exposed {A} a.

(** [stream_agent_run_session_items_async]: [checks n] is the outcome of the [n]-th check. *)
Fixpoint guard_loop {A} (checks : nat -> check_outcome) (n : nat) (source : list (source_event A)) : list (guard_step A) :=
  match source with
  | [] => []
  | SourceTimeout :: source =>
      let ok := _stream_authority_is_current (checks n) in
      Checked ok :: if ok then guard_loop checks (S n) source else []
  | SourceEnd :: _ | SourceError :: _ => []
  | SourceItem a :: source =>
      let ok := _stream_authority_is_current (checks n) in
      Checked ok :: if ok then Exposed a :: guard_loop checks (S n) source else []
  end.
Definition stream_agent_run_session_items_async {A} (authority_check : option (nat -> check_outcome))
    (source : list (source_event A)) : list (guard_step A) :=
  match authority_check with
  | None =>
      (fix pass source := match source with
        | SourceItem a :: source => Exposed a :: pass source
        | SourceTimeout :: source => pass source
        | _ => []
        end) source
  | Some checks =>
      let ok := _stream_authority_is_current (checks 0%nat) in
      Checked ok :: if ok then guard_loop checks 1 source else []
  end.
