(* ===== verification/StreamProps.v ===== *)
(** * Properties of the event stream

    Exactly-once delivery in order for every interleaving with concurrent commits and every Redis
    behaviour, resumption from a cursor, completeness for a finished run, the live overlay never
    showing text the committed log has superseded, and the authority guard. *)

From stdpp Require Import base tactics numbers gmap list sorting.
From S2P Require Import Prelude PyStr Platform Table PyValue Json Schema Lifecycle Cursor Stream.

(** ** Lists sorted by an integer key *)

Section keyed.
Context {A : Type} (f : A -> Z).
Definition key_lt (x y : A) : Prop := f x < f y.

Lemma keyed_head_le x l y : StronglySorted key_lt (x :: l) -> y ∈ x :: l -> f x <= f y.
Proof.
  intros [_ Hall]%StronglySorted_inv [->|Hy]%elem_of_cons; [lia|]. rewrite Forall_forall in Hall.
  specialize (Hall y Hy). unfold key_lt in Hall. lia.
Qed.

Lemma keyed_inj l x y : StronglySorted key_lt l -> x ∈ l -> y ∈ l -> f x = f y -> x = y.
Proof.
  induction l as [|z l IH]; intros Hs Hx Hy Hf; [by apply elem_of_nil in Hx|].
  assert (Hs' := Hs). apply StronglySorted_inv in Hs' as [Hs' Hall]. rewrite Forall_forall in Hall. unfold key_lt in Hall.
  apply elem_of_cons in Hx as [->|Hx], Hy as [->|Hy]; [done| | |by apply IH].
  - specialize (Hall y Hy). lia.
  - specialize (Hall x Hx). lia.
Qed.

(** A strictly sorted list is determined by its elements. *)
Lemma keyed_ext l1 l2 : StronglySorted key_lt l1 -> StronglySorted key_lt l2 -> (forall x, x ∈ l1 <-> x ∈ l2) -> l1 = l2.
Proof.
  revert l2. induction l1 as [|x l1 IH]; intros [|y l2] H1 H2 He; [done|..].
  - exfalso. apply (not_elem_of_nil y), He. by left.
  - exfalso. apply (not_elem_of_nil x), He. by left.
  - assert (x = y) as <-.
    { apply (keyed_inj (x :: l1)); [done|by left|apply He; by left|].
      pose proof (keyed_head_le x l1 y H1). pose proof (keyed_head_le y l2 x H2).
      assert (y ∈ x :: l1) by (apply He; by left). assert (x ∈ y :: l2) by (apply He; by left). naive_solver lia. }
    f_equal. assert (H1' := H1). assert (H2' := H2).
    apply StronglySorted_inv in H1' as [Hs1 Ha1], H2' as [Hs2 Ha2]. rewrite Forall_forall in Ha1, Ha2. unfold key_lt in Ha1, Ha2.
    apply IH; [done..|]. intros z. specialize (He z). rewrite !elem_of_cons in He. split; intros Hz.
    + specialize (Ha1 z Hz). destruct He as [He _]. destruct He as [->|?]; [by right|lia|done].
    + specialize (Ha2 z Hz). destruct He as [_ He]. destruct He as [->|?]; [by right|lia|done].
Qed.

Lemma keyed_filter (P : A -> Prop) `{!forall x, Decision (P x)} l : StronglySorted key_lt l -> StronglySorted key_lt (filter P l).
Proof.
  induction 1 as [|x l Hs IH Hall]; [constructor|]. rewrite filter_cons. case_decide; [|done].
  constructor; [done|]. rewrite Forall_forall in Hall |- *. intros y [_ Hy]%list_elem_of_filter. auto.
Qed.

Lemma keyed_snoc l x : StronglySorted key_lt l -> (forall y, y ∈ l -> f y < f x) -> StronglySorted key_lt (l ++ [x]).
Proof.
  induction 1 as [|y l Hs IH Hall]; intros Hx; cbn; [repeat constructor|]. constructor.
  - apply IH. intros z Hz. apply Hx. by right.
  - apply Forall_app. split; [done|]. apply List.Forall_cons; [|constructor]. apply Hx. by left.
Qed.

(** What lies in a range, and beyond a point. *)
Definition between (lo hi : Z) (l : list A) : list A := filter (fun x => lo < f x <= hi) l.
Definition beyond (lo : Z) (l : list A) : list A := filter (fun x => lo < f x) l.

Lemma between_empty lo l : between lo lo l = [].
Proof.
  unfold between. induction l as [|x l IH]; [done|]. rewrite filter_cons, decide_False by lia. done.
Qed.

Lemma elem_of_between lo hi l x : x ∈ between lo hi l <-> lo < f x <= hi /\ x ∈ l.
Proof. unfold between. by rewrite list_elem_of_filter. Qed.
Lemma elem_of_beyond lo l x : x ∈ beyond lo l <-> lo < f x /\ x ∈ l.
Proof. unfold beyond. by rewrite list_elem_of_filter. Qed.

(** The next element beyond a point extends the range by itself. *)
Lemma beyond_step l lo p x rest :
  StronglySorted key_lt l -> lo <= p -> beyond p l = x :: rest ->
  p < f x /\ x ∈ l /\ between lo (f x) l = between lo p l ++ [x] /\ beyond (f x) l = rest.
Proof.
  intros Hs Hlo Hb. assert (Hx : x ∈ beyond p l) by (rewrite Hb; by left). apply elem_of_beyond in Hx as [Hp Hx].
  assert (Hbs : StronglySorted key_lt (x :: rest)) by (rewrite <- Hb; by apply keyed_filter).
  assert (Hin : forall y, y ∈ x :: rest <-> p < f y /\ y ∈ l) by (intros y; by rewrite <- Hb, elem_of_beyond).
  split_and!; [done|done| |].
  - apply keyed_ext; [by apply keyed_filter| |].
    + apply keyed_snoc; [by apply keyed_filter|]. intros y [? _]%elem_of_between. lia.
    + intros y. rewrite elem_of_app, list_elem_of_singleton, !elem_of_between. split; [|naive_solver lia].
      intros [Hy Hyl]. destruct (Z.le_gt_cases (f y) p); [by left; split; [lia|]|]. right.
      assert (y ∈ x :: rest) as Hy' by (by apply Hin). pose proof (keyed_head_le x rest y Hbs Hy').
      apply (keyed_inj l); [done..|lia].
  - apply keyed_ext; [by apply keyed_filter|by apply StronglySorted_inv in Hbs as [? _]|].
    intros y. rewrite elem_of_beyond. specialize (Hin y). rewrite elem_of_cons in Hin.
    apply StronglySorted_inv in Hbs as [_ Hall]. rewrite Forall_forall in Hall. split.
    + intros [Hy Hyl]. destruct Hin as [_ Hin]. destruct Hin as [->|?]; [split; [lia|done]|lia|done].
    + intros Hy. split; [by apply (Hall y Hy)|]. apply Hin. by right.
Qed.

(** Ranges that follow each other concatenate. *)
Lemma between_app l lo mid hi : StronglySorted key_lt l -> lo <= mid -> mid <= hi ->
  between lo mid l ++ between mid hi l = between lo hi l.
Proof.
  intros Hs Hlo Hhi. unfold between. induction Hs as [|x l Hs IH Hall]; [done|]. rewrite !filter_cons.
  destruct (decide (lo < f x <= mid)) as [H1|H1].
  - rewrite (decide_False (P := mid < f x <= hi)), (decide_True (P := lo < f x <= hi)) by lia. cbn. by rewrite IH.
  - rewrite <- IH. destruct (decide (mid < f x <= hi)) as [H2|H2].
    + rewrite (decide_True (P := lo < f x <= hi)) by lia.
      replace (filter (fun y => lo < f y <= mid) l) with (@nil A); [done|]. symmetry.
      apply elem_of_nil_inv. intros y [Hy Hyl]%list_elem_of_filter. rewrite Forall_forall in Hall.
      specialize (Hall y Hyl). unfold key_lt in Hall. lia.
    + by rewrite (decide_False (P := lo < f x <= hi)) by lia.
Qed.
End keyed.

(** ** The committed log of a run *)

Definition row_seq (kr : pystr * stream_row) : Z := sr_sequence kr.2.
(** the run's projected events in sequence order *)
Definition run_log (run : agent_run) (db : pg) : list (pystr * stream_row) :=
  merge_sort sequence_le (qs_list (projected run) (pg_events db)).
(** the run's events after [lo] up to and including [hi] *)
Definition committed_between (run : agent_run) (db : pg) (lo hi : Z) : list (pystr * stream_row) :=
  between row_seq lo hi (run_log run db).

(** [unique_session_event_session_sequence] *)
Definition unique_sequences (db : pg) : Prop := forall k1 r1 k2 r2,
  pg_events db !! k1 = Some r1 -> pg_events db !! k2 = Some r2 ->
  sr_session r1 = sr_session r2 -> sr_sequence r1 = sr_sequence r2 -> k1 = k2.

(** Events are never changed or removed, and a session's new events follow its old ones. *)
Definition appends (session : pystr) (db db' : pg) : Prop :=
  pg_events db ⊆ pg_events db' /\
  forall k r, pg_events db' !! k = Some r -> sr_session r = session -> pg_events db !! k = None ->
  forall k0 r0, pg_events db !! k0 = Some r0 -> sr_session r0 = session -> sr_sequence r0 < sr_sequence r.

Record append_only (run : agent_run) (env : environment) : Prop := {
  ao_unique : forall t, unique_sequences (pg_at env t);
  ao_grows : forall t t', (t <= t')%nat -> appends (ar_session run) (pg_at env t) (pg_at env t') }.

#[global] Instance sequence_le_total : Total sequence_le.
Proof. intros x y. unfold sequence_le. lia. Qed.
#[global] Instance sequence_le_trans : Transitive sequence_le.
Proof. intros x y z. unfold sequence_le. lia. Qed.

Lemma projected_session run r : projected run r = true -> sr_session r = ar_session run.
Proof. unfold projected. intros H. by bool_inv. Qed.

Lemma NoDup_qs_list {K R} `{Countable K, !KeyOrder K} (p : R -> bool) (t : gmap K R) : NoDup (qs_list p t).
Proof. unfold qs_list. rewrite merge_sort_Permutation. apply NoDup_filter, NoDup_map_to_list. Qed.

(** Selected rows of one session, in strict sequence order. *)
Lemma ordered_rows run db (p : stream_row -> bool) :
  unique_sequences db -> (forall r, p r = true -> sr_session r = ar_session run) ->
  StronglySorted (key_lt row_seq) (merge_sort sequence_le (qs_list p (pg_events db))).
Proof.
  intros Hu Hp. pose proof (StronglySorted_merge_sort sequence_le (qs_list p (pg_events db))) as Hs.
  assert (Hnd : NoDup (merge_sort sequence_le (qs_list p (pg_events db)))) by (rewrite merge_sort_Permutation; apply NoDup_qs_list).
  assert (Hin : forall k r, (k, r) ∈ merge_sort sequence_le (qs_list p (pg_events db)) ->
                pg_events db !! k = Some r /\ sr_session r = ar_session run).
  { intros k r. rewrite merge_sort_Permutation, elem_of_qs_list. naive_solver. }
  induction Hs as [|[k r] l Hs IH Hall]; [constructor|]. apply NoDup_cons in Hnd as [Hx Hnd]. constructor.
  - apply IH; [done|]. intros k' r' Hk. apply Hin. by right.
  - rewrite Forall_forall in Hall |- *. intros [k' r'] Hy. specialize (Hall _ Hy). unfold sequence_le, key_lt, row_seq in *.
    cbn in *. destruct (Hin k r ltac:(by left)) as [Hk Hks]. destruct (Hin k' r' ltac:(by right)) as [Hk' Hks'].
    destruct (Z.eq_dec (sr_sequence r) (sr_sequence r')); [|lia]. exfalso. apply Hx.
    assert (k = k') as -> by (eapply Hu; eauto; congruence). rewrite Hk in Hk'. by injection Hk' as ->.
Qed.

Lemma run_log_sorted run db : unique_sequences db -> StronglySorted (key_lt row_seq) (run_log run db).
Proof. intros Hu. apply (ordered_rows run); [done|]. apply projected_session. Qed.

Lemma elem_of_run_log run db k r : (k, r) ∈ run_log run db <-> pg_events db !! k = Some r /\ projected run r = true.
Proof. unfold run_log. by rewrite merge_sort_Permutation, elem_of_qs_list. Qed.

(** A page is the first hundred events beyond the position. *)
Lemma page_records run db db' p : unique_sequences db' ->
  (_load_postgres_page db db' run p).1 = take POSTGRES_BATCH_SIZE (beyond row_seq p (run_log run db')).
Proof.
  intros Hu. unfold _load_postgres_page. cbn [fst]. f_equal. apply (keyed_ext row_seq).
  - apply (ordered_rows run); [done|]. intros r [Hr _]%andb_prop. by apply projected_session.
  - by apply keyed_filter, run_log_sorted.
  - intros [k r]. rewrite elem_of_beyond, elem_of_run_log, merge_sort_Permutation, elem_of_qs_list, andb_true_iff, Z.ltb_lt.
    unfold row_seq. cbn. tauto.
Qed.

(** Commits do not change what is at or below an event's sequence. *)
Lemma committed_stable run db db' lo hi :
  unique_sequences db -> unique_sequences db' -> appends (ar_session run) db db' ->
  hi = lo \/ (exists k r, pg_events db !! k = Some r /\ sr_session r = ar_session run /\ sr_sequence r = hi) ->
  committed_between run db' lo hi = committed_between run db lo hi.
Proof.
  intros Hu Hu' [Hsub Hnew] [->|(k0 & r0 & H0 & Hs0 & <-)]; [unfold committed_between; by rewrite !between_empty|].
  apply (keyed_ext row_seq); [by apply keyed_filter, run_log_sorted..|]. intros [k r].
  unfold committed_between. rewrite !elem_of_between, !elem_of_run_log. unfold row_seq. cbn. split.
  - intros (Hb & Hk & Hp). split_and!; [lia|lia| |done]. destruct (pg_events db !! k) as [r'|] eqn:E.
    + pose proof (lookup_weaken _ _ _ _ E Hsub). congruence.
    + specialize (Hnew k r Hk (projected_session _ _ Hp) E k0 r0 H0 Hs0). lia.
  - intros (Hb & Hk & Hp). split_and!; [lia|lia| |done]. by eapply lookup_weaken.
Qed.

(** ** What the client has received *)

Definition committed_of (out : list emission) : list (pystr * stream_row) :=
  omap (fun e => match e with Committed k r _ => Some (k, r) | LiveItem _ => None end) out.
(** the position of a client that started at [s0] *)
Definition position (s0 : Z) (out : list emission) : Z := default s0 (row_seq <$> last (committed_of out)).

Lemma committed_of_app o1 o2 : committed_of (o1 ++ o2) = committed_of o1 ++ committed_of o2.
Proof. apply omap_app. Qed.

(** ** Generator invariants *)

Section maintains.
Context (weak strong : gstate -> Prop) (Hweak : forall g, strong g -> weak g).

(** From a [strong] state the computation ends in a [weak] state, and in a [strong] one unless it
    raises. *)
Definition maintains {A} (m : gen A) : Prop := forall g, strong g ->
  weak (m g).2 /\ (forall a, (m g).1 = Ok a -> strong (m g).2).

Lemma maintains_bind {A B} (m : gen A) (f : A -> gen B) : maintains m -> (forall a, maintains (f a)) -> maintains (m ≫= f).
Proof.
  intros Hm Hf g Hg. unfold mbind, gen_bind. destruct (Hm g Hg) as [H1 H2].
  destruct (m g) as [[a|e] g'] eqn:E; cbn in *; [|done]. apply Hf. by eapply H2.
Qed.
(** a computation that does not change the state *)
Lemma maintains_pure {A} (m : gen A) : (forall g, (m g).2 = g) -> maintains m.
Proof. intros Hm g Hg. rewrite !Hm. auto. Qed.
Lemma maintains_total {A} (m : gen A) : (forall g, strong g -> strong (m g).2) -> maintains m.
Proof. intros Hm g Hg. auto. Qed.
Lemma maintains_catch {A} (m : gen A) : maintains m -> (forall g, (m g).1 = Err SRedisError -> strong g -> strong (m g).2) ->
  maintains (g_catch_redis m).
Proof.
  intros Hm Hr g Hg. destruct (Hm g Hg) as [H1 H2]. specialize (Hr g). unfold g_catch_redis.
  destruct (m g) as [[a|[]] g']; cbn in *; (split; [done|]); intros b Hb; try done; [by eapply H2|by apply Hr].
Qed.
End maintains.

Section delivery.
Context {PL : Platform} (env : environment) (run : agent_run) (s0 : Z).
Context (Henv : append_only run env).

(** The output is the log between the start and the client's position, each event under its cursor. *)
Definition delivered (db : pg) (out : list emission) : Prop :=
  let p := position s0 out in
  s0 <= p /\ (p = s0 \/ exists k r, pg_events db !! k = Some r /\ sr_session r = ar_session run /\ sr_sequence r = p) /\
  committed_of out = committed_between run db s0 p /\
  (forall k r c, Committed k r c ∈ out -> encode_stream_cursor (ar_id run) (sr_sequence r) = Ok c).

Definition sound (g : gstate) : Prop := forall t, (g_tick g <= t)%nat -> delivered (pg_at env t) (g_out g).
Definition in_step (g : gstate) : Prop := sound g /\ source_sequence (g_tail g) = position s0 (g_out g).

(** The computation keeps the output sound, and the position in step unless it raises. *)
Abbreviation keeps := (maintains sound in_step).

Lemma in_step_sound g : in_step g -> sound g.
Proof. by intros [? _]. Qed.
Lemma keeps_bind {A B} (m : gen A) (f : A -> gen B) : keeps m -> (forall a, keeps (f a)) -> keeps (m ≫= f).
Proof. apply maintains_bind. Qed.
Lemma keeps_ret {A} (a : A) : keeps (mret a).
Proof. by apply maintains_pure; [apply in_step_sound|]. Qed.
Lemma keeps_raise {A} e : keeps (g_raise (A := A) e).
Proof. by apply maintains_pure; [apply in_step_sound|]. Qed.
Lemma keeps_lift {A} (r : res sexn A) : keeps (g_lift r).
Proof. by apply maintains_pure; [apply in_step_sound|]. Qed.
Lemma keeps_get : keeps g_get.
Proof. by apply maintains_pure; [apply in_step_sound|]. Qed.
Lemma keeps_modify f : (forall s, source_sequence (f s) = source_sequence s) -> keeps (g_modify f).
Proof. intros Hf. apply maintains_total; [apply in_step_sound|]. intros g [Hs Hp]. split; [done|]. cbn. by rewrite Hf. Qed.
Lemma in_step_tick g t : in_step g -> (g_tick g <= t)%nat -> in_step (G t (g_tail g) (g_out g)).
Proof. intros [Hs Hp] Hle. split; [|done]. intros t' Ht. apply Hs. cbn in Ht. lia. Qed.
Lemma keeps_read {A} (f : nat -> A) : keeps (g_read f).
Proof. apply maintains_total; [apply in_step_sound|]. intros g Hg. apply (in_step_tick g); [done|lia]. Qed.
Lemma position_live out l : position s0 (out ++ [LiveItem l]) = position s0 out.
Proof. unfold position. rewrite committed_of_app. cbn. by rewrite app_nil_r. Qed.
Lemma keeps_live l : keeps (g_yield (LiveItem l)).
Proof.
  intros g [Hs Hp]. assert (sound (g_yield (LiveItem l) g).2) as Hs'.
  { intros t Ht. cbn in *. destruct (Hs t Ht) as (H1 & H2 & H3 & H4). unfold delivered. cbv zeta. rewrite position_live.
    split_and!; [done..| |].
    - rewrite committed_of_app. cbn. by rewrite app_nil_r.
    - intros k r c [Hin|Hin]%elem_of_app; [eauto|]. apply list_elem_of_singleton in Hin. done. }
  split; [done|]. intros _ _. split; [done|]. unfold g_yield. cbn [snd g_tail g_out]. by rewrite position_live.
Qed.

Lemma delivered_grows t t' out : (t <= t')%nat -> delivered (pg_at env t) out -> delivered (pg_at env t') out.
Proof.
  intros Ht (H1 & H2 & H3 & H4). destruct Henv as [Hu Hg]. specialize (Hg t t' Ht).
  split_and!; [done| | |done].
  - destruct H2 as [->|(k & r & Hk & Hs & Hq)]; [by left|right]. exists k, r. split_and!; [|done..].
    eapply lookup_weaken; [done|]. apply Hg.
  - rewrite H3. symmetry. by apply committed_stable.
Qed.

Lemma position_committed out k r c : position s0 (out ++ [Committed k r c]) = sr_sequence r.
Proof. unfold position. rewrite committed_of_app. cbn. by rewrite last_snoc. Qed.

(** The next event of the log extends the output. *)
Lemma delivered_next db out k r c rest :
  unique_sequences db -> delivered db out -> beyond row_seq (position s0 out) (run_log run db) = (k, r) :: rest ->
  encode_stream_cursor (ar_id run) (sr_sequence r) = Ok c ->
  delivered db (out ++ [Committed k r c]) /\ beyond row_seq (sr_sequence r) (run_log run db) = rest.
Proof.
  intros Hu (H1 & H2 & H3 & H4) Hb Hc.
  destruct (beyond_step row_seq _ s0 _ _ _ (run_log_sorted run db Hu) H1 Hb) as (Hlt & Hin & Hbt & Hrest).
  change (row_seq (k, r)) with (sr_sequence r) in *. split; [|done]. unfold delivered. cbv zeta. rewrite position_committed.
  apply elem_of_run_log in Hin as [Hk Hp]. split_and!.
  - lia.
  - right. exists k, r. split_and!; [done|by apply projected_session|done].
  - rewrite committed_of_app, H3. symmetry. apply Hbt.
  - intros k' r' c' [Hin|Hin]%elem_of_app; [eauto|]. apply list_elem_of_singleton in Hin. by simplify_eq.
Qed.

(** Delivering one row: either it raises with nothing yielded, or the row is yielded. *)
Lemma deliver_record_spec k r g : exists g',
  (deliver_record run k r g).2 = g' /\ g_tick g' = g_tick g /\
  ((exists e, (deliver_record run k r g).1 = Err e /\ g_out g' = g_out g) \/
   (exists b c, (deliver_record run k r g).1 = Ok b /\ g_out g' = g_out g ++ [Committed k r c] /\
      source_sequence (g_tail g') = sr_sequence r /\ encode_stream_cursor (ar_id run) (sr_sequence r) = Ok c)).
Proof.
  eexists. split; [done|]. unfold deliver_record, mbind, gen_bind, g_lift, g_get, g_modify, g_yield, g_raise, mret, gen_ret. cbn.
  repeat (case_match; simplify_eq/=; try (split; [done|left; eauto; fail])); split; try done; first [left; by eauto|right; by eauto 10].
Qed.

Lemma deliver_page_keeps db records more g :
  unique_sequences db -> delivered db (g_out g) -> source_sequence (g_tail g) = position s0 (g_out g) ->
  beyond row_seq (position s0 (g_out g)) (run_log run db) = records ++ more ->
  let r := deliver_page run records g in
  g_tick r.2 = g_tick g /\ delivered db (g_out r.2) /\
  (forall b, r.1 = Ok b -> source_sequence (g_tail r.2) = position s0 (g_out r.2)).
Proof.
  intros Hu. revert g. induction records as [|[k r] records IH]; intros g Hd Hs Hb; cbn [deliver_page].
  { split_and!; [done..|]. by intros. }
  unfold mbind, gen_bind.
  destruct (deliver_record_spec k r g) as (g' & Eg & Ht & [(e & Er & Ho)|(b & c & Er & Ho & Hq & Hc)]).
  - destruct (deliver_record run k r g) as [[]]; cbn in *; simplify_eq. rewrite Ho. split_and!; done.
  - destruct (deliver_record run k r g) as [[] g1]; cbn in *; simplify_eq.
    destruct (delivered_next db (g_out g) k r c (records ++ more) Hu Hd Hb Hc) as [Hd' Hb'].
    assert (Hp : position s0 (g_out g') = sr_sequence r) by (rewrite Ho; apply position_committed).
    rewrite <- Ho in Hd'. destruct b; cbn.
    + split_and!; [done..|]. intros. congruence.
    + rewrite <- Ht. apply IH; [done|congruence|]. by rewrite Hp.
Qed.

(** What follows a page. *)
Definition after_page (fuel : nat) (records : list (pystr * stream_row)) (stop : bool) : gen unit :=
  if stop then mret tt
  else if (length records <? POSTGRES_BATCH_SIZE)%nat then
    db ← g_read_pg env; db' ← g_read_pg env; db'' ← g_read_pg env;
    st ← g_get;
    g_modify (set_terminal_flag match _load_terminal_sequence db db' db'' (ar_id run) with
                                | Some n => n <=? source_sequence st
                                | None => false
                                end)
  else _drain_postgres env run fuel.

Lemma drain_unfold fuel g :
  _drain_postgres env run (S fuel) g =
  let t := g_tick g in
  let page := _load_postgres_page (pg_at env t) (pg_at env (S t)) run (source_sequence (g_tail g)) in
  match deliver_page run page.1 (G (S (S t)) (set_high_water page.2 (g_tail g)) (g_out g)) with
  | (Ok stop, g') => after_page fuel page.1 stop g'
  | (Err e, g') => (Err e, g')
  end.
Proof. reflexivity. Qed.

Lemma keeps_after fuel records stop : keeps (_drain_postgres env run fuel) -> keeps (after_page fuel records stop).
Proof.
  intros IH. unfold after_page. destruct stop; [apply keeps_ret|]. destruct (_ <? _)%nat; [|done].
  repeat (apply keeps_bind; [first [apply keeps_read|apply keeps_get]|intros ?]). by apply keeps_modify.
Qed.

Lemma keeps_drain fuel : keeps (_drain_postgres env run fuel).
Proof.
  induction fuel as [|fuel IH]; intros g Hg; [by apply keeps_raise|]. rewrite drain_unfold. cbv zeta.
  destruct Henv as [Hu Hgr]. destruct Hg as [Hs Hp].
  set (db' := pg_at env (S (g_tick g))). set (page := _load_postgres_page _ _ _ _). set (g1 := G _ _ _).
  assert (Hd : delivered db' (g_out g1)) by (apply Hs; lia).
  assert (Hb : beyond row_seq (position s0 (g_out g1)) (run_log run db') =
               page.1 ++ drop POSTGRES_BATCH_SIZE (beyond row_seq (position s0 (g_out g1)) (run_log run db'))).
  { unfold page. rewrite page_records by apply Hu. rewrite Hp. symmetry. apply take_drop. }
  destruct (deliver_page_keeps db' page.1 _ g1 (Hu _) Hd Hp Hb) as (Ht & Hd' & Hq).
  destruct (deliver_page run page.1 g1) as [[stop|e] g'] eqn:E; cbn [fst snd] in *.
  - assert (Hg' : in_step g').
    { split; [|by eapply Hq]. intros t Hle. eapply delivered_grows; [|exact Hd']. cbn in Ht. lia. }
    by apply keeps_after.
  - split; [|done]. intros t Hle. eapply delivered_grows; [|exact Hd']. cbn in Ht. lia.
Qed.

Ltac keeps_step :=
  first [ apply keeps_drain | apply keeps_ret | apply keeps_raise | apply keeps_lift | apply keeps_get
        | apply keeps_read | apply keeps_live | (apply keeps_modify; reflexivity)
        | (apply keeps_bind; [|intros ?]) | case_match ].
Ltac solve_keeps := repeat keeps_step.

Lemma keeps_live_candidate fuel l : keeps (_stream_live_candidate env run fuel l).
Proof. unfold _stream_live_candidate, overlay_candidate, g_read_pg. solve_keeps. Qed.

(** A Redis error is raised before anything else happens. *)
Lemma keeps_catch_tail : keeps (g_catch_redis (_capture_signal_tail env)).
Proof.
  apply maintains_catch; [unfold _capture_signal_tail; solve_keeps|].
  unfold _capture_signal_tail, mbind, gen_bind, g_read. intros g. cbn. case_match; [done|]. intros _ Hg.
  apply in_step_tick; [done|lia].
Qed.
Ltac no_redis H :=
  repeat match type of H with
         | _ ≫= _ = Err _ => let x := fresh in apply bind_Err in H as [H|(x & _ & H)]
         | require _ _ = Err _ => apply require_Err in H as [_ H]
         | from_option_res _ ?o = Err _ => destruct o; cbn in H
         | (if ?b then _ else _) = _ => destruct b
         | (match ?x with _ => _ end) = _ => destruct x
         end; simplify_eq.
Lemma live_state_no_redis meta text : _live_state meta text <> Err SRedisError.
Proof. unfold _live_state, _validate_reasoning. intros H. cbv zeta in H. no_redis H. Qed.
Lemma keeps_catch_live : keeps (g_catch_redis (_load_live_text_state_async env)).
Proof.
  apply maintains_catch; [unfold _load_live_text_state_async; solve_keeps|].
  unfold _load_live_text_state_async, mbind, gen_bind, g_read. intros g. cbn. case_match; [case_match|].
  - cbn. by intros ?%live_state_no_redis.
  - intros _ Hg. apply in_step_tick; [done|lia].
Qed.

Ltac keeps_more := first [ apply keeps_catch_tail | apply keeps_catch_live | apply keeps_live_candidate | keeps_step ].

Lemma keeps_iteration fuel v : keeps (iteration env run fuel v).
Proof. unfold iteration, maybe_live, reconcile_deadline. repeat keeps_more. Qed.

Lemma keeps_loop iterations fuel v : keeps (tail_loop env run iterations fuel v).
Proof.
  revert v. induction iterations as [|n IH]; intros v; cbn [tail_loop]; [apply keeps_raise|].
  apply keeps_bind; [apply keeps_iteration|]. intros [v'|]; [apply IH|apply keeps_ret].
Qed.

Lemma keeps_stream iterations fuel : keeps (_stream_agent_run_session_items_async env run iterations fuel).
Proof. unfold _stream_agent_run_session_items_async, maybe_live, reconcile_deadline. repeat first [apply keeps_loop | keeps_more]. Qed.

Lemma stream_sound iterations fuel : sound (stream_from env run s0 iterations fuel).2.
Proof.
  apply keeps_stream. split; [|done]. intros t _. unfold delivered, position. cbn. split_and!; [lia|by left| |].
  - unfold committed_between. by rewrite between_empty.
  - intros k r c Hin. by apply elem_of_nil in Hin.
Qed.
End delivery.

(** ** Exactly once, in order *)

(** (C2) Exactly-once, in-order delivery.  Whatever PostgreSQL commits, Redis answers and clock
    readings the generator meets, at every point of the stream the committed events the client has
    received are exactly the run's projected events after its start position up to its current
    position, in strictly increasing sequence order, each under the cursor of its own sequence: no
    event is skipped, repeated or reordered. *)
Theorem stream_delivers_exactly_once {PL : Platform} env run s0 iterations fuel :
  append_only run env ->
  let g := (stream_from env run s0 iterations fuel).2 in
  committed_of (g_out g) = committed_between run (pg_at env (g_tick g)) s0 (position s0 (g_out g)) /\
  StronglySorted (key_lt row_seq) (committed_of (g_out g)) /\
  (forall k r c, Committed k r c ∈ g_out g -> encode_stream_cursor (ar_id run) (sr_sequence r) = Ok c).
Proof.
  intros Henv g. destruct (stream_sound env run s0 Henv iterations fuel (g_tick g)) as (H1 & H2 & H3 & H4); [reflexivity|].
  fold g in H1, H2, H3, H4. split_and!; [done| |done]. rewrite H3. apply keyed_filter, run_log_sorted, Henv.
Qed.

(** The [id] of the last committed item, which a client sends back as [Last-Event-ID]. *)
Definition last_cursor (out : list emission) : option pystr :=
  last (omap (fun e => match e with Committed _ _ c => Some c | LiveItem _ => None end) out).

Lemma last_cursor_position s0 out c : last_cursor out = Some c ->
  exists k r, Committed k r c ∈ out /\ (k, r) ∈ committed_of out /\ position s0 out = sr_sequence r.
Proof.
  unfold last_cursor, position. induction out as [|e out IH] using rev_ind; [done|].
  rewrite committed_of_app, omap_app. destruct e as [k r c'|l]; cbn.
  - rewrite !last_snoc. intros [= ->]. exists k, r. split_and!; [apply elem_of_app; right; by left..|done].
  - rewrite !app_nil_r. intros (k & r & ? & ? & ?)%IH. exists k, r. split_and!; [apply elem_of_app; by left|done|done].
Qed.

Lemma appends_trans session db1 db2 db3 : appends session db1 db2 -> appends session db2 db3 -> appends session db1 db3.
Proof.
  intros [Ha Hb] [Hc Hd]. split; [by etrans|]. intros k r Hk Hs Hn k0 r0 H0 Hr0.
  destruct (pg_events db2 !! k) as [r'|] eqn:E.
  - pose proof (lookup_weaken _ _ _ _ E Hc) as E'. rewrite Hk in E'. injection E' as <-. by eapply Hb.
  - eapply (Hd k r); eauto. by eapply lookup_weaken.
Qed.

(** Reconnecting neither loses nor repeats events.  A client that streamed from [s0] and
    reconnects with the last cursor it received is resumed at its position, and what it then receives
    continues what it had: together the two streams are the run's log after [s0] up to its new
    position. *)
Theorem reconnect_resumes {PL : Platform} env1 env2 run s0 cursor i1 f1 i2 f2 :
  append_only run env1 -> append_only run env2 ->
  let g1 := (stream_from env1 run s0 i1 f1).2 in
  appends (ar_session run) (pg_at env1 (g_tick g1)) (pg_at env2 0) ->
  schedulable_run_id (ar_id run) = true -> 0 <= s0 -> position s0 (g_out g1) <= MAX_SEQUENCE ->
  last_cursor (g_out g1) = Some cursor ->
  exists s1, parse_last_event_cursor cursor (ar_id run) = Ok s1 /\
  let g2 := (stream_from env2 run s1 i2 f2).2 in
  committed_of (g_out g1) ++ committed_of (g_out g2) =
  committed_between run (pg_at env2 (g_tick g2)) s0 (position s1 (g_out g2)).
Proof.
  intros He1 He2 g1 Happ Hid Hs0 Hmax Hlast. exists (position s0 (g_out g1)).
  destruct (stream_sound env1 run s0 He1 i1 f1 (g_tick g1)) as (H1 & H2 & H3 & H4); [reflexivity|]. fold g1 in H1, H2, H3, H4.
  destruct (last_cursor_position s0 _ _ Hlast) as (k & r & Hin & Hink & Hpos). split.
  { rewrite Hpos in Hmax |- *. rewrite H3 in Hink. apply elem_of_between in Hink as [[? ?] _]. unfold row_seq in *. cbn in *.
    destruct (encode_cursor_accepted (ar_id run) (sr_sequence r)) as (v & Ev & Hv); [done|lia|].
    rewrite (H4 _ _ _ Hin) in Ev. by injection Ev as <-. }
  intros g2. set (s1 := position s0 (g_out g1)) in *.
  destruct (stream_sound env2 run s1 He2 i2 f2 (g_tick g2)) as (G1 & G2 & G3 & G4); [reflexivity|]. fold g2 in G1, G2, G3, G4.
  rewrite H3, G3.
  assert (Hgrow : appends (ar_session run) (pg_at env1 (g_tick g1)) (pg_at env2 (g_tick g2))).
  { eapply appends_trans; [exact Happ|]. apply He2. lia. }
  rewrite <- (committed_stable run (pg_at env1 (g_tick g1)) (pg_at env2 (g_tick g2))); [|apply He1|apply He2|done|done].
  apply between_app; [apply run_log_sorted, He2|done|done].
Qed.

(** ** A finished run is streamed to its end *)

Definition is_terminal_row (kr : pystr * stream_row) : bool := str_in TERMINAL_EVENT_TYPES (event_type (sr_payload kr.2)).

(** the events up to and including the first terminal one *)
Fixpoint upto_terminal (l : list (pystr * stream_row)) : list (pystr * stream_row) :=
  match l with
  | [] => []
  | kr :: l => kr :: if is_terminal_row kr then [] else upto_terminal l
  end.

(** A row whose columns and payload agree, as the commit endpoint writes them. *)
Definition deliverable (run : agent_run) (kr : pystr * stream_row) : bool :=
  let '(k, r) := kr in
  is_ok (_committed_item run k r) && is_ok (advance_overlay_barrier ∅ (sr_payload r) (sr_sequence r))
  && (negb (is_str "assistant_message" (event_type (sr_payload r))) || is_ok (assistant_identity (sr_payload r)))
  && is_ok (encode_stream_cursor (ar_id run) (sr_sequence r)).

Lemma advance_overlay_barrier_ok b1 b2 event n :
  is_ok (advance_overlay_barrier b1 event n) = is_ok (advance_overlay_barrier b2 event n).
Proof. unfold advance_overlay_barrier. repeat case_match; done. Qed.

Lemma deliver_record_ok run k r g :
  deliverable run (k, r) = true -> source_sequence (g_tail g) < sr_sequence r ->
  exists g' c, deliver_record run k r g = (Ok (is_terminal_row (k, r)), g') /\ g_tick g' = g_tick g /\
    g_out g' = g_out g ++ [Committed k r c] /\ source_sequence (g_tail g') = sr_sequence r.
Proof.
  unfold deliverable. intros H Hlt. apply andb_prop in H as [H Hc]. apply andb_prop in H as [H Ha]. apply andb_prop in H as [Hi Hb].
  rewrite (advance_overlay_barrier_ok _ (overlay_barriers (g_tail g))) in Hb.
  destruct (_committed_item run k r) as [event|] eqn:Ei; [|done].
  assert (event = sr_payload r) as -> by (unfold _committed_item in Ei; by walk Ei).
  destruct (encode_stream_cursor (ar_id run) (sr_sequence r)) as [c|] eqn:Ec; [|done].
  destruct (advance_overlay_barrier (overlay_barriers (g_tail g)) (sr_payload r) (sr_sequence r)) as [b|] eqn:Eb; [|done].
  unfold deliver_record, mbind, gen_bind, g_lift, g_get, g_modify, g_yield, g_raise, mret, gen_ret.
  rewrite Ei, Ec. cbn -[is_str str_in]. replace (sr_sequence r <=? source_sequence (g_tail g)) with false by lia.
  cbn -[is_str str_in]. rewrite Eb. unfold is_terminal_row. cbn -[is_str str_in].
  destruct (is_str "assistant_message" (event_type (sr_payload r))); cbn in Ha.
  - destruct (assistant_identity (sr_payload r)) as [i|]; [|done]. cbn -[is_str str_in]. exists (if str_in TERMINAL_EVENT_TYPES (event_type (sr_payload r))
      then G (g_tick g) (set_terminal_flag true (add_sealed i (set_barriers b (set_source (sr_sequence r) (g_tail g))))) (g_out g ++ [Committed k r c])
      else G (g_tick g) (add_sealed i (set_barriers b (set_source (sr_sequence r) (g_tail g)))) (g_out g ++ [Committed k r c])), c.
    by destruct (str_in _ _).
  - exists (if str_in TERMINAL_EVENT_TYPES (event_type (sr_payload r))
      then G (g_tick g) (set_terminal_flag true (set_barriers b (set_source (sr_sequence r) (g_tail g)))) (g_out g ++ [Committed k r c])
      else G (g_tick g) (set_barriers b (set_source (sr_sequence r) (g_tail g))) (g_out g ++ [Committed k r c])), c.
    by destruct (str_in _ _).
Qed.

Section completeness.
Context (run : agent_run) (db : pg) (Hu : unique_sequences db).

(** A page of deliverable rows is delivered up to its first terminal event. *)
Lemma deliver_page_complete records more g :
  beyond row_seq (source_sequence (g_tail g)) (run_log run db) = records ++ more ->
  forallb (deliverable run) records = true ->
  exists g', deliver_page run records g = (Ok (existsb is_terminal_row records), g') /\ g_tick g' = g_tick g /\
    committed_of (g_out g') = committed_of (g_out g) ++ upto_terminal records /\
    (existsb is_terminal_row records = false ->
     beyond row_seq (source_sequence (g_tail g')) (run_log run db) = more).
Proof.
  revert g. induction records as [|[k r] records IH]; intros g Hb Hd; cbn [deliver_page].
  { exists g. cbn. rewrite app_nil_r. split_and!; done. }
  cbn [forallb] in Hd. apply andb_prop in Hd as [Hd Hds].
  destruct (beyond_step row_seq _ _ _ _ _ (run_log_sorted run db Hu) (Z.le_refl _) Hb) as (Hlt & _ & _ & Hrest).
  destruct (deliver_record_ok run k r g Hd Hlt) as (g1 & c & E & Ht & Ho & Hs).
  unfold mbind, gen_bind. rewrite E. cbn [existsb upto_terminal].
  assert (Hc : committed_of (g_out g1) = committed_of (g_out g) ++ [(k, r)]) by (rewrite Ho, committed_of_app; done).
  destruct (is_terminal_row (k, r)).
  - exists g1. rewrite Hc. split_and!; done.
  - destruct (IH g1) as (g' & E' & Ht' & Hc' & Hm); [rewrite Hs; exact Hrest|done|].
    exists g'. rewrite E', Ht', Hc', Hc, <- app_assoc. split_and!; done.
Qed.

Lemma upto_app_stop l1 l2 : existsb is_terminal_row l1 = true -> upto_terminal (l1 ++ l2) = upto_terminal l1.
Proof. induction l1 as [|x l1 IH]; cbn; [done|]. destruct (is_terminal_row x); [done|]. intros. by rewrite IH. Qed.
Lemma upto_app_go l1 l2 : existsb is_terminal_row l1 = false -> upto_terminal (l1 ++ l2) = l1 ++ upto_terminal l2.
Proof. induction l1 as [|x l1 IH]; cbn; [done|]. destruct (is_terminal_row x); [done|]. intros. by rewrite IH. Qed.
Lemma upto_go l : existsb is_terminal_row l = false -> upto_terminal l = l.
Proof. intros H. rewrite <- (app_nil_r l) at 1. rewrite upto_app_go by done. apply app_nil_r. Qed.

Lemma drain_complete {PL : Platform} env fuel g l :
  (forall t, pg_at env t = db) -> beyond row_seq (source_sequence (g_tail g)) (run_log run db) = l ->
  forallb (deliverable run) l = true -> (length l < POSTGRES_BATCH_SIZE * fuel)%nat ->
  exists g', _drain_postgres env run fuel g = (Ok tt, g') /\ committed_of (g_out g') = committed_of (g_out g) ++ upto_terminal l.
Proof.
  intros Hpg. revert g l. induction fuel as [|fuel IH]; intros g l Hb Hd Hf; [lia|].
  rewrite drain_unfold. cbv zeta. rewrite !Hpg. set (page := _load_postgres_page _ _ _ _). set (g1 := G _ _ _).
  assert (Ep : page.1 = take POSTGRES_BATCH_SIZE l) by (unfold page; rewrite page_records, Hb; done).
  rewrite Ep. rewrite <- (take_drop POSTGRES_BATCH_SIZE l), forallb_app in Hd. apply andb_prop in Hd as [Hd1 Hd2].
  destruct (deliver_page_complete (take POSTGRES_BATCH_SIZE l) (drop POSTGRES_BATCH_SIZE l) g1) as (g2 & E & Ht & Hc & Hm);
    [cbn; by rewrite Hb, take_drop|done|].
  rewrite E. unfold after_page. destruct (existsb is_terminal_row (take POSTGRES_BATCH_SIZE l)) eqn:Est.
  - exists g2. split; [done|]. rewrite Hc. by rewrite <- (upto_app_stop _ (drop POSTGRES_BATCH_SIZE l)), take_drop.
  - destruct (Nat.ltb_spec (length (take POSTGRES_BATCH_SIZE l)) POSTGRES_BATCH_SIZE) as [Hl|Hl].
    + eexists. split; [reflexivity|]. cbn -[committed_of]. rewrite Hc. rewrite length_take in Hl. by rewrite take_ge by lia.
    + rewrite length_take in Hl. destruct (IH g2 (drop POSTGRES_BATCH_SIZE l)) as (g' & E' & Hc'); [by apply Hm|done| |].
      { rewrite length_drop. unfold POSTGRES_BATCH_SIZE in *. lia. }
      exists g'. split; [done|]. rewrite Hc', Hc, <- app_assoc. f_equal.
      rewrite <- (take_drop POSTGRES_BATCH_SIZE l) at 3. by rewrite upto_app_go, (upto_go _ Est).
Qed.
End completeness.

(** (C36) A finished run is streamed to its end.  For a completed, failed or cancelled run with
    a well-formed log of any length, the stream terminates without error (one page of a hundred
    events per unit of fuel) and the client receives every event after its position up to and
    including the run's first terminal event. *)
Theorem finished_run_stream_is_complete {PL : Platform} env run db s0 iterations fuel :
  (forall t, pg_at env t = db) -> unique_sequences db -> is_terminal (ar_status run) = true ->
  forallb (deliverable run) (beyond row_seq s0 (run_log run db)) = true ->
  (length (beyond row_seq s0 (run_log run db)) < POSTGRES_BATCH_SIZE * fuel)%nat ->
  exists g, stream_from env run s0 iterations fuel = (Ok tt, g) /\
    committed_of (g_out g) = upto_terminal (beyond row_seq s0 (run_log run db)).
Proof.
  intros Hpg Hu Ht Hd Hf. unfold stream_from, _stream_agent_run_session_items_async. rewrite Ht.
  destruct (drain_complete run db Hu env fuel (G 0 (_new_tail_state s0) []) _ Hpg eq_refl Hd Hf) as (g & E & Hc). eauto.
Qed.

(** ** The live overlay *)

Definition identity_of (l : live_state) : pystr * pystr := (lv_turn l, lv_message l).
Definition last_live (out : list emission) : option live_state :=
  last (omap (fun e => match e with LiveItem l => Some l | Committed _ _ _ => None end) out).

(** Live text that the committed events and the live text shown before do not supersede. *)
Definition fresh (shown : list emission) (l : live_state) : Prop :=
  (forall k r c, Committed k r c ∈ shown -> get "turnId" (sr_payload r) = VStr (lv_turn l) ->
     (str_in OVERLAY_BARRIER_EVENT_TYPES (event_type (sr_payload r)) = true -> sr_sequence r <= lv_after l) /\
     ~ (event_type (sr_payload r) = VStr "assistant_message" /\
        get "messageId" (get "payload" (sr_payload r)) = VStr (lv_message l))) /\
  (forall l', last_live shown = Some l' -> identity_of l' = identity_of l -> lv_revision l' < lv_revision l).
Definition overlay_ok (out : list emission) : Prop :=
  forall shown l later, out = shown ++ LiveItem l :: later -> fresh shown l.

Lemma overlay_snoc out e : overlay_ok out -> (forall l, e = LiveItem l -> fresh out l) -> overlay_ok (out ++ [e]).
Proof.
  intros Ho He shown l later Heq. destruct later as [|e' later _] using rev_ind.
  - apply app_inj_tail in Heq as [-> ->]. by apply He.
  - rewrite app_comm_cons, app_assoc in Heq. apply app_inj_tail in Heq as [-> _]. by eapply Ho.
Qed.

(** The generator's bookkeeping covers what it has shown. *)
Record covers (s : tail_state) (out : list emission) : Prop := {
  cov_barrier : forall k r c turn, Committed k r c ∈ out -> get "turnId" (sr_payload r) = VStr turn ->
    str_in OVERLAY_BARRIER_EVENT_TYPES (event_type (sr_payload r)) = true ->
    sr_sequence r <= default 0 (overlay_barriers s !! turn);
  cov_sealed : forall k r c turn msg, Committed k r c ∈ out -> get "turnId" (sr_payload r) = VStr turn ->
    event_type (sr_payload r) = VStr "assistant_message" -> get "messageId" (get "payload" (sr_payload r)) = VStr msg ->
    (turn, msg) ∈ sealed_live_identities s;
  cov_live : forall l, last_live out = Some l -> live_identity s = Some (identity_of l) /\ live_revision s = lv_revision l }.

Definition shows_fresh (g : gstate) : Prop := overlay_ok (g_out g).
Definition tidy (g : gstate) : Prop := overlay_ok (g_out g) /\ covers (g_tail g) (g_out g).

Lemma covers_mono s s' out : covers s out ->
  (forall t, default 0 (overlay_barriers s !! t) <= default 0 (overlay_barriers s' !! t)) ->
  sealed_live_identities s ⊆ sealed_live_identities s' ->
  live_identity s' = live_identity s -> live_revision s' = live_revision s -> covers s' out.
Proof.
  intros [Hb Hs Hl] Hb' Hs' Hi Hr. split; intros.
  - etrans; [by eapply Hb|apply Hb'].
  - apply Hs'. by eapply Hs.
  - rewrite Hi, Hr. by apply Hl.
Qed.

Lemma advance_spec b event n b' : advance_overlay_barrier b event n = Ok b' ->
  (forall t, default 0 (b !! t) <= default 0 (b' !! t)) /\
  (str_in OVERLAY_BARRIER_EVENT_TYPES (event_type event) = true -> forall t, get "turnId" event = VStr t -> n <= default 0 (b' !! t)).
Proof.
  unfold advance_overlay_barrier. intros H. walk H; bool_inv; (split; [|intros Ho t Ht]); try congruence; intros.
  - lia.
  - destruct (decide (t = s)) as [->|]; [rewrite lookup_insert; rewrite decide_True by done; cbn; lia|by rewrite lookup_insert_ne].
  - assert (s = t) as -> by congruence. rewrite lookup_insert, decide_True by done. cbn. lia.
Qed.

Lemma assistant_identity_spec event i : assistant_identity event = Ok i ->
  get "turnId" event = VStr i.1 /\ get "messageId" (get "payload" event) = VStr i.2.
Proof. unfold assistant_identity. intros H. walk H. cbn. done. Qed.

(** Every effect of delivering a row. *)
Lemma deliver_record_effect run k r g b g' : deliver_record run k r g = (Ok b, g') ->
  exists c bar, g_out g' = g_out g ++ [Committed k r c] /\
    advance_overlay_barrier (overlay_barriers (g_tail g)) (sr_payload r) (sr_sequence r) = Ok bar /\
    overlay_barriers (g_tail g') = bar /\ live_identity (g_tail g') = live_identity (g_tail g) /\
    live_revision (g_tail g') = live_revision (g_tail g) /\
    (if is_str "assistant_message" (event_type (sr_payload r)) then
       exists i, assistant_identity (sr_payload r) = Ok i /\ sealed_live_identities (g_tail g') = {[i]} ∪ sealed_live_identities (g_tail g)
     else sealed_live_identities (g_tail g') = sealed_live_identities (g_tail g)).
Proof.
  unfold deliver_record, mbind, gen_bind, g_lift, g_get, g_modify, g_yield, g_raise, mret, gen_ret. intros H.
  destruct (_committed_item run k r) as [event|] eqn:Ei; [|done].
  assert (event = sr_payload r) as -> by (unfold _committed_item in Ei; by walk Ei). cbn -[is_str str_in] in H.
  destruct (sr_sequence r <=? _); [done|]. cbn -[is_str str_in] in H.
  destruct (advance_overlay_barrier _ _ _) as [bar|]; [|done]. cbn -[is_str str_in] in H.
  destruct (is_str "assistant_message" _); [destruct (assistant_identity _) as [i|]; [|done]|]; cbn -[is_str str_in] in H;
    (destruct (encode_stream_cursor _ _) as [c|]; [|done]); cbn -[is_str str_in] in H;
    destruct (str_in _ _); simplify_eq/=; eauto 20.
Qed.

Lemma deliver_record_fresh run k r : maintains shows_fresh tidy (deliver_record run k r).
Proof.
  intros g [Ho Hc]. destruct (deliver_record_spec run k r g) as (g' & Eg & _ & [(e & Er & Eo)|(b & c & Er & Eo & _)]).
  { destruct (deliver_record run k r g) as [res g1]; cbn in *; subst. split; [unfold shows_fresh; by rewrite Eo|done]. }
  destruct (deliver_record run k r g) as [res g1] eqn:E; cbn in *; simplify_eq.
  destruct (deliver_record_effect _ _ _ _ _ _ E) as (c' & bar & Eo' & Ea & Eb & Ei & Er & Es). rewrite Eo in Eo'. clear Eo'.
  assert (Hov : overlay_ok (g_out g')) by (rewrite Eo; by apply overlay_snoc). split; [done|]. intros _ _. split; [done|].
  destruct (advance_spec _ _ _ _ Ea) as [Hmono Hnew]. rewrite Eo. destruct Hc as [Hb Hs Hl].
  assert (Hll : last_live (g_out g ++ [Committed k r c]) = last_live (g_out g)).
  { unfold last_live. rewrite omap_app. cbn. by rewrite app_nil_r. }
  split.
  - intros k' r' c'' turn [Hin|Hin]%elem_of_app Ht Hty; rewrite Eb.
    + etrans; [by eapply Hb|apply Hmono].
    + apply list_elem_of_singleton in Hin. simplify_eq. by apply Hnew.
  - intros k' r' c'' turn msg [Hin|Hin]%elem_of_app Ht Hty Hm.
    + specialize (Hs _ _ _ _ _ Hin Ht Hty Hm). destruct (is_str _ _); [destruct Es as (i & _ & ->); by apply elem_of_union_r|by rewrite Es].
    + apply list_elem_of_singleton in Hin. simplify_eq. rewrite Hty in Es. cbn in Es.
      replace (is_str _ _) with true in Es by (symmetry; by apply is_str_spec). destruct Es as ([t m] & Hi & ->).
      apply assistant_identity_spec in Hi as [Ht' Hm']. cbn [fst snd] in Ht', Hm'. rewrite Ht in Ht'. rewrite Hm in Hm'.
      injection Ht' as ->. injection Hm' as ->. by apply elem_of_union_l, elem_of_singleton.
  - intros l Hlast. rewrite Hll in Hlast. rewrite Ei, Er. by apply Hl.
Qed.

Section overlay.
Context {PL : Platform} (env : environment) (run : agent_run).
Abbreviation keeps_fresh := (maintains shows_fresh tidy).

Lemma tidy_shows g : tidy g -> shows_fresh g.
Proof. by intros [? _]. Qed.
Lemma fresh_bind {A B} (m : gen A) (f : A -> gen B) : keeps_fresh m -> (forall a, keeps_fresh (f a)) -> keeps_fresh (m ≫= f).
Proof. apply maintains_bind. Qed.
Lemma fresh_pure {A} (m : gen A) : (forall g, (m g).2 = g) -> keeps_fresh m.
Proof. apply maintains_pure, tidy_shows. Qed.
Lemma fresh_read {A} (f : nat -> A) : keeps_fresh (g_read f).
Proof. apply maintains_total; [apply tidy_shows|]. by intros g Hg. Qed.
Lemma fresh_modify f : (forall s, overlay_barriers (f s) = overlay_barriers s /\ sealed_live_identities (f s) = sealed_live_identities s /\
    live_identity (f s) = live_identity s /\ live_revision (f s) = live_revision s) -> keeps_fresh (g_modify f).
Proof.
  intros Hf. apply maintains_total; [apply tidy_shows|]. intros g [Ho Hc]. split; [done|]. cbn.
  destruct (Hf (g_tail g)) as (Eb & Es & Ei & Er). eapply covers_mono; [done| | |done|done]; [by rewrite Eb|by rewrite Es].
Qed.

Lemma fresh_page records : keeps_fresh (deliver_page run records).
Proof.
  induction records as [|[k r] records IH]; cbn [deliver_page]; [by apply fresh_pure|].
  apply fresh_bind; [apply deliver_record_fresh|]. intros []; [by apply fresh_pure|done].
Qed.

Ltac fresh_step :=
  first [ (by apply fresh_pure) | apply fresh_read | apply fresh_page | (by apply fresh_modify)
        | (apply fresh_bind; [|intros ?]) | case_match ].

Lemma fresh_drain fuel : keeps_fresh (_drain_postgres env run fuel).
Proof.
  induction fuel as [|fuel IH]; cbn [_drain_postgres]; [by apply fresh_pure|]. unfold g_read_pg.
  repeat first [exact IH | fresh_step].
Qed.

(** Showing live text that passed the tests. *)
Lemma show_fresh l g : tidy g -> live_overlay_is_superseded l (overlay_barriers (g_tail g)) = false ->
  identity_of l ∉ sealed_live_identities (g_tail g) ->
  bool_decide (live_identity (g_tail g) = Some (identity_of l)) && (lv_revision l <=? live_revision (g_tail g)) = false ->
  tidy (G (g_tick g) (set_live (identity_of l) (lv_revision l) (g_tail g)) (g_out g ++ [LiveItem l])).
Proof.
  intros [Ho [Hb Hs Hl]] Hsup Hseal Hrev. unfold live_overlay_is_superseded in Hsup. bool_inv.
  assert (Hll : last_live (g_out g ++ [LiveItem l]) = Some l) by (unfold last_live; rewrite omap_app; cbn; by rewrite last_snoc).
  split; cbn [g_out g_tail].
  - apply overlay_snoc; [done|]. intros l' [= <-]. split.
    + intros k r c Hin Ht. split.
      * intros Hty. specialize (Hb _ _ _ _ Hin Ht Hty). lia.
      * intros [Hty Hm]. apply Hseal. by eapply Hs.
    + intros l' Hl' Hid. destruct (Hl _ Hl') as [Ei Er]. rewrite Ei, Er, Hid in Hrev.
      rewrite bool_decide_eq_true_2 in Hrev by done. cbn in Hrev. bool_inv. done.
  - split; cbn.
    + intros k r c turn [Hin|Hin]%elem_of_app; [by eapply Hb|]. by apply list_elem_of_singleton in Hin.
    + intros k r c turn msg [Hin|Hin]%elem_of_app; [by eapply Hs|]. by apply list_elem_of_singleton in Hin.
    + intros l' Hl'. rewrite Hll in Hl'. by injection Hl' as <-.
Qed.

Lemma fresh_overlay l : keeps_fresh (overlay_candidate env run l).
Proof.
  intros g Hg. pose proof Hg as [Ho Hc].
  unfold overlay_candidate, g_read_pg, mbind, gen_bind, g_get, g_read, g_lift, g_modify, g_yield, mret, gen_ret. cbn -[insert].
  destruct (live_overlay_is_superseded l _) eqn:Hsup; [done|].
  destruct (terminal _ || _) eqn:Hts; [done|]. apply orb_false_iff in Hts as [_ Hseal]. apply bool_decide_eq_false in Hseal.
  destruct (bool_decide ((lv_turn l, lv_message l) ∈ checked_live_identities (g_tail g))) eqn:Hchk.
  - cbn. destruct (bool_decide (live_identity _ = _) && _) eqn:Hrev; [done|]. cbn.
    pose proof (show_fresh l g Hg Hsup Hseal Hrev) as Ht. split; [by apply tidy_shows|done].
  - cbn -[insert]. destruct (_load_committed_overlay_projection _ _ _ _ _) as [[barrier seal]|e]; [|done]. cbn -[insert].
    set (bar := <[lv_turn l := _]> _).
    assert (Hmono : forall t, default 0 (overlay_barriers (g_tail g) !! t) <= default 0 (bar !! t)).
    { intros t. unfold bar. destruct (decide (t = lv_turn l)) as [->|]; [rewrite lookup_insert, decide_True by done; cbn; lia|by rewrite lookup_insert_ne]. }
    assert (Hcov : forall s', overlay_barriers s' = bar -> sealed_live_identities (g_tail g) ⊆ sealed_live_identities s' ->
      live_identity s' = live_identity (g_tail g) -> live_revision s' = live_revision (g_tail g) -> covers s' (g_out g)).
    { intros s' Eb Es Ei Er. eapply covers_mono; [done|by rewrite Eb|done|done|done]. }
    destruct (live_overlay_is_superseded l bar) eqn:Hsup2; cbn.
    { split; [done|]. intros _ _. split; [done|]. by apply Hcov. }
    destruct seal; cbn.
    { split; [done|]. intros _ _. split; [done|]. apply Hcov; cbn; [done|apply union_subseteq_r|done|done]. }
    destruct (bool_decide (live_identity _ = _) && _) eqn:Hrev; cbn.
    { split; [done|]. intros _ _. split; [done|]. by apply Hcov. }
    set (g1 := G (S (S (g_tick g))) (add_checked (identity_of l) (set_barriers bar (g_tail g))) (g_out g)).
    assert (Ht : tidy (G (g_tick g1) (set_live (identity_of l) (lv_revision l) (g_tail g1)) (g_out g1 ++ [LiveItem l]))).
    { apply show_fresh; [split; [done|by apply Hcov]|done|done|done]. }
    split; [by apply tidy_shows|done].
Qed.
Lemma fresh_candidate fuel l : keeps_fresh (_stream_live_candidate env run fuel l).
Proof. unfold _stream_live_candidate. repeat first [apply fresh_drain | apply fresh_overlay | fresh_step]. Qed.

Lemma fresh_catch_tail : keeps_fresh (g_catch_redis (_capture_signal_tail env)).
Proof.
  apply maintains_catch; [unfold _capture_signal_tail; repeat fresh_step|].
  unfold _capture_signal_tail, mbind, gen_bind, g_read. intros g. cbn. by case_match.
Qed.
Lemma fresh_catch_live : keeps_fresh (g_catch_redis (_load_live_text_state_async env)).
Proof.
  apply maintains_catch; [unfold _load_live_text_state_async; repeat fresh_step|].
  unfold _load_live_text_state_async, mbind, gen_bind, g_read. intros g. cbn. case_match; [case_match|done].
  cbn. by intros ?%live_state_no_redis.
Qed.

Ltac fresh_more :=
  first [ apply fresh_drain | apply fresh_catch_tail | apply fresh_catch_live | apply fresh_candidate | fresh_step ].

Lemma fresh_iteration fuel v : keeps_fresh (iteration env run fuel v).
Proof. unfold iteration, maybe_live, reconcile_deadline. repeat fresh_more. Qed.
Lemma fresh_loop iterations fuel v : keeps_fresh (tail_loop env run iterations fuel v).
Proof.
  revert v. induction iterations as [|n IH]; intros v; cbn [tail_loop]; [by apply fresh_pure|].
  apply fresh_bind; [apply fresh_iteration|]. intros [v'|]; [apply IH|by apply fresh_pure].
Qed.
Lemma fresh_stream iterations fuel : keeps_fresh (_stream_agent_run_session_items_async env run iterations fuel).
Proof. unfold _stream_agent_run_session_items_async, maybe_live, reconcile_deadline. repeat first [apply fresh_loop | fresh_more]. Qed.
End overlay.

(** Live text never overwrites committed history.  Whenever the stream shows live text of a
    message, no event it has already shown supersedes it: every phase or assistant event of that turn
    shown before lies at or below the log position the text was written after, the message itself has
    not been committed, and the text is a newer revision than the live text of that message shown
    last. *)
Theorem live_text_is_never_stale {PL : Platform} env run s0 iterations fuel shown l later :
  g_out (stream_from env run s0 iterations fuel).2 = shown ++ LiveItem l :: later -> fresh shown l.
Proof.
  assert (Hs : tidy (G 0 (_new_tail_state s0) [])).
  { split; [by intros [] ?|]. split; cbn; intros; try done; by apply elem_of_nil in H. }
  destruct (fresh_stream env run iterations fuel _ Hs) as [Ho _]. apply Ho.
Qed.

(** ** The authority guard *)

(** A check passed right before each exposed item, and nothing follows a failed check. *)
Fixpoint guarded_run {A} (passed : bool) (l : list (guard_step A)) : Prop :=
  match l with
  | [] => True
  | Checked ok :: l => (ok = false -> l = []) /\ guarded_run ok l
  | Exposed _ :: l => passed = true /\ guarded_run false l
  end.
Definition exposed {A} (l : list (guard_step A)) : list A :=
  omap (fun s => match s with Exposed a => Some a | Checked _ => None end) l.
Definition source_items {A} (l : list (source_event A)) : list A :=
  omap (fun e => match e with SourceItem a => Some a | _ => None end) l.

Lemma guard_loop_spec {A} checks n (source : list (source_event A)) passed :
  guarded_run passed (guard_loop checks n source) /\ exposed (guard_loop checks n source) `prefix_of` source_items source.
Proof.
  revert n passed. induction source as [|[a| | |] source IH]; intros n passed; cbn.
  - split; [done|]. apply prefix_nil.
  - destruct (_stream_authority_is_current (checks n)); cbn.
    + destruct (IH (S n) false) as [H1 H2]. split_and!; [done..|]. by apply prefix_cons.
    + split_and!; [done..|]. apply prefix_nil.
  - destruct (_stream_authority_is_current (checks n)); cbn.
    + destruct (IH (S n) true) as [H1 H2]. split_and!; done.
    + split_and!; [done..|]. apply prefix_nil.
  - split; [done|]. apply prefix_nil.
  - split; [done|]. apply prefix_nil.
Qed.

(** Nothing is shown without current authority.  Under an authority check, for every
    behaviour of the source and of the check (including checks that hang or raise), each item reaches
    the client right after a check that passed, nothing at all happens after a check that did not
    pass, and the items shown are the source's, in order and without gaps. *)
Theorem stream_exposes_only_under_authority {A} checks (source : list (source_event A)) :
  let steps := stream_agent_run_session_items_async (Some checks) source in
  guarded_run false steps /\ exposed steps `prefix_of` source_items source.
Proof.
  cbn. destruct (_stream_authority_is_current (checks 0%nat)); cbn.
  - destruct (guard_loop_spec checks 1 source true) as [H1 H2]. split_and!; done.
  - split_and!; [done..|]. apply prefix_nil.
Qed.

(** ** A sample run *)

Definition unique_sequences_b (db : pg) : bool :=
  bool_decide (map_Forall (fun k1 r1 => map_Forall (fun k2 r2 =>
    sr_session r1 <> sr_session r2 \/ sr_sequence r1 <> sr_sequence r2 \/ k1 = k2) (pg_events db)) (pg_events db)).
Lemma unique_sequences_dec db : unique_sequences_b db = true -> unique_sequences db.
Proof.
  unfold unique_sequences_b. intros H%bool_decide_eq_true k1 r1 k2 r2 H1 H2 Hs Hq.
  specialize (H k1 r1 H1 k2 r2 H2). naive_solver.
Qed.

Definition quiet_env (db : pg) (live : option (gmap pystr pystr * option pystr)) : environment :=
  Env (fun _ => db) (fun _ => Some None) (fun _ => live) (fun _ => None) (fun _ => 0).

Lemma appends_refl session db : appends session db db.
Proof. split; [done|]. intros k r Hk _ Hn. congruence. Qed.
Lemma quiet_append_only run db live : unique_sequences db -> append_only run (quiet_env db live).
Proof. intros Hu. split; [done|]. intros t t' _. apply appends_refl. Qed.

Definition sample_run (s : run_status) : agent_run := AgentRun "run-1" "session-1" s.
Definition sample_row (event_id type : pystr) (sequence : Z) (rest : list (pystr * value)) : pystr * stream_row :=
  (event_id, StreamRow "session-1" "run-1" true sequence
    (VDict ([("eventId", VStr event_id); ("sequence", VInt sequence); ("sessionId", VStr "session-1");
             ("agentRunId", VStr "run-1"); ("type", VStr type)] ++ rest))).
Definition sample_rows : list (pystr * stream_row) :=
  [sample_row "e1" "user_message" 1 []; sample_row "e2" "phase_event" 2 [("turnId", VStr "t1")];
   sample_row "e3" "assistant_message" 4 [("turnId", VStr "t1"); ("payload", VDict [("messageId", VStr "m1")])];
   sample_row "e4" "agent_run_completed" 5 []].
Definition sample_pg (n : nat) : pg := Pg (list_to_map (take n sample_rows)) ∅.

Lemma stream_delivers_exactly_once_witness :
  append_only (sample_run Running) (quiet_env (sample_pg 4) None) /\
  committed_of (g_out (stream_from (PL := ascii_platform) (quiet_env (sample_pg 4) None) (sample_run Running) 1 0 2).2) =
  drop 1 sample_rows.
Proof.
  assert (Hao : append_only (sample_run Running) (quiet_env (sample_pg 4) None)).
  { apply quiet_append_only, unique_sequences_dec. vm_compute. reflexivity. }
  split; [exact Hao|].
  destruct (stream_delivers_exactly_once (PL := ascii_platform) (quiet_env (sample_pg 4) None) (sample_run Running) 1 0 2 Hao) as (E & _ & _).
  rewrite E. vm_compute. reflexivity.
Defined.

Definition first_stream : gstate :=
  (stream_from (PL := ascii_platform) (quiet_env (sample_pg 2) None) (sample_run Running) 0 0 2).2.
Definition first_cursor : pystr := default "" (last_cursor (g_out first_stream)).

Lemma sample_appends : appends "session-1" (sample_pg 2) (sample_pg 4).
Proof.
  split.
  - apply map_subseteq_spec. intros k r Hk. revert k r Hk. change (map_Forall (fun k r => pg_events (sample_pg 4) !! k = Some r) (pg_events (sample_pg 2))).
    apply map_Forall_to_list. unfold sample_pg. cbn [pg_events]. rewrite map_to_list_to_map by by_decide.
    repeat apply List.Forall_cons; vm_compute; try reflexivity; constructor.
  - intros k r Hk Hs Hn k0 r0 H0 Hs0. apply elem_of_list_to_map_2 in Hk, H0. cbn in Hk, H0.
    repeat match goal with
           | H : _ ∈ _ :: _ |- _ => apply elem_of_cons in H as [H|H]
           | H : _ ∈ [] |- _ => by apply elem_of_nil in H
           end; unfold sample_row in *; simplify_eq; first [by vm_compute in Hn | by_decide].
Qed.

Lemma reconnect_resumes_witness :
  exists s1, parse_last_event_cursor first_cursor "run-1" = Ok s1 /\
  committed_of (g_out first_stream) ++
  committed_of (g_out (stream_from (PL := ascii_platform) (quiet_env (sample_pg 4) None) (sample_run Running) s1 0 2).2) = sample_rows.
Proof.
  destruct (reconnect_resumes (PL := ascii_platform) (quiet_env (sample_pg 2) None) (quiet_env (sample_pg 4) None)
    (sample_run Running) 0 first_cursor 0 2 0 2) as (s1 & Hp & He).
  - apply quiet_append_only, unique_sequences_dec. vm_compute. reflexivity.
  - apply quiet_append_only, unique_sequences_dec. vm_compute. reflexivity.
  - apply sample_appends.
  - reflexivity.
  - lia.
  - vm_compute. discriminate.
  - vm_compute. reflexivity.
  - exists s1. split; [exact Hp|]. cbv zeta in He. fold first_stream in He. rewrite He.
    assert (s1 = 2) as -> by (vm_compute in Hp; congruence). vm_compute. reflexivity.
Defined.

Lemma finished_run_stream_is_complete_witness : exists g,
  stream_from (PL := ascii_platform) (quiet_env (sample_pg 4) None) (sample_run Completed) 0 0 1 = (Ok tt, g) /\
  committed_of (g_out g) = sample_rows.
Proof.
  destruct (finished_run_stream_is_complete (PL := ascii_platform) (quiet_env (sample_pg 4) None) (sample_run Completed) (sample_pg 4) 0 0 1)
    as (g & E & Hc).
  - reflexivity.
  - apply unique_sequences_dec. vm_compute. reflexivity.
  - reflexivity.
  - vm_compute. reflexivity.
  - vm_compute. lia.
  - exists g. split; [exact E|]. rewrite Hc. vm_compute. reflexivity.
Defined.

Definition sample_meta : gmap pystr pystr :=
  list_to_map [("messageId", "m2"); ("turnId", "t1"); ("afterSequence", "2"); ("revision", " 1 ")].

Lemma live_text_is_never_stale_witness : exists shown l,
  g_out (stream_from (PL := ascii_platform) (quiet_env (sample_pg 2) (Some (sample_meta, Some "draft"))) (sample_run Running) 0 0 2).2
  = shown ++ [LiveItem l] /\ length shown = 2%nat /\ fresh shown l.
Proof.
  destruct (g_out (stream_from (PL := ascii_platform) (quiet_env (sample_pg 2) (Some (sample_meta, Some "draft"))) (sample_run Running) 0 0 2).2)
    as [|e1 [|e2 [|[|l] [|]]]] eqn:E; vm_compute in E; try discriminate E.
  exists [e1; e2], l. split; [reflexivity|]. split; [reflexivity|].
  apply (live_text_is_never_stale (PL := ascii_platform) (quiet_env (sample_pg 2) (Some (sample_meta, Some "draft"))) (sample_run Running) 0 0 2 [e1; e2] l []).
  vm_compute. exact E.
Defined.
