(* ===== verification/Contract.v ===== *)
(** * The authorization contract of a run

    [packages/api/app_core/runtime_contract.py], with [validate_thinking_mode] of [models.py] and
    [validate_plugin_activation] of [plugin_catalog.py]: validation of the payload the API signs for
    the runtime, its digest and signature. *)

From stdpp Require Import base tactics numbers gmap list sorting.
From S2P Require Import Prelude PyStr Utf8 Sha256 Platform PyValue Json Schema AgentIdentity.

Inductive cexn := CValueError (message : pystr) | CTypeError | CAttributeError | CUnicodeEncodeError.

Definition AGENT_RUN_AUTHORIZATION_SCHEMA : pystr := "workspace.agent_run_authorization.v1".
Definition RESOLVED_INPUT_SCHEMA : pystr := "runtime.resolved_input.v1".
Definition DECLARED_INPUT_SCHEMA : pystr := "runtime.declared_input.v1".
Definition AGENT_RUN_AUTHORIZATION_FIELDS : list pystr :=
  ["schema"; "id"; "organizationId"; "workspaceId"; "userId"; "agentId"; "sessionId"; "agentRunId"; "sessionWorkspace";
   "modelConfigRef"; "thinkingMode"; "artifactScopeRef"; "assetRefs"; "messageAssetRefs"; "imageCapability"; "imageDigest";
   "pluginActivation"; "resources"].
Definition SESSION_WORKSPACE_FIELDS : list pystr :=
  ["generation"; "snapshotSha256"; "snapshotSizeBytes"; "expandedSizeBytes"; "fileCount"].
Definition DECLARED_INPUT_FIELDS : list pystr :=
  ["schema"; "inputRef"; "displayName"; "contentType"; "inputIdentity"; "sizeBytes"].
Definition INPUT_IDENTITY_FIELDS : list pystr := ["ownerKind"; "ownerId"; "generation"; "sha256"].
Definition RESOLVED_INPUT_FIELDS : list pystr :=
  ["schema"; "inputRef"; "objectRef"; "ownerKind"; "virtualPath"; "displayName"; "contentType"; "sizeBytes"; "sha256";
   "sourceVersion"; "evidenceKind"; "citationAllowed"].
Definition OWNER_KINDS : list pystr := ["sourceObject"; "userLibraryObject"; "artifact"].
Definition EVIDENCE_KINDS : list pystr := ["workspaceSource"; "userProvided"; "generatedArtifact"].
Definition MAX_DECLARED_INPUTS : Z := 64.
Definition PLUGIN_ACTIVATION_SCHEMA : pystr := "plugin_activation_snapshot_v1".
Definition ACTIVATION_FIELDS : list pystr := ["schema"; "digest"; "packages"].
Definition PACKAGE_FIELDS : list pystr := ["name"; "version"; "packageDigest"; "skills"; "cli"; "mcpServers"; "hooks"].
Definition RESOURCE_FIELDS : list pystr := ["path"; "digest"].

(** [value in {...}] for a set of strings *)
Definition in_enum (allowed : list pystr) (v : value) (e : cexn) : res cexn unit :=
  match v with
  | VList _ | VDict _ => Err CTypeError
  | _ => require (str_in allowed v) e
  end.

(** [for x in l: check(x)] *)
Definition check_all {A} (check : A -> res cexn unit) (l : list A) : res cexn unit :=
  for_each (fun _ x => check x) l tt.

(** [l == sorted(set(l))] *)
Fixpoint strictly_sorted (l : list pystr) : bool :=
  match l with
  | x :: (y :: _) as rest => str_ltb x y && strictly_sorted rest
  | _ => true
  end.

(** a JSON list, or a [ValueError] *)
Definition require_list (v : value) (message : pystr) : res cexn (list value) :=
  from_option_res (CValueError message) (as_list v).
(** an [int] that is not a [bool] and satisfies [p] *)
Definition int_where (p : Z -> bool) (v : value) : bool := match as_int v with Some z => p z | None => false end.

Definition require_exact_fields (payload : value) (expected : list pystr) (label : pystr) : res cexn unit :=
  match payload with
  | VDict _ => require (keys_are expected payload) (CValueError (label +:+ " fields mismatch"))
  | _ => Err (CValueError (label +:+ " must be an object"))
  end.

Definition require_sha256 (name : pystr) (v : value) : res cexn unit :=
  match v with
  | VStr s =>
      require (startswith s "sha256:") (CValueError (name +:+ " must use sha256:<hex> format"));;
      let digest := removeprefix s "sha256:" in
      require ((str_len digest =? 64) && chars_all is_lower_hex digest)
        (CValueError (name +:+ " must contain 64 lowercase hexadecimal characters"))
  | _ => Err (CValueError (name +:+ " must use sha256:<hex> format"))
  end.

Definition path_parts (s : pystr) : list pystr := str_split 47 s.
Definition dot_part (p : pystr) : bool := is_empty p || bool_decide (p = ".") || bool_decide (p = "..").

Section contract.
Context {PL : Platform}.

Definition require_string (name : pystr) (v : value) : res cexn unit :=
  match v with
  | VStr s =>
      require (negb (is_empty (strip s)) && bool_decide (s = strip s)) (CValueError (name +:+ " is required without outer whitespace"));;
      require (bool_decide (nfc s = s)) (CValueError (name +:+ " must use NFC Unicode normalization"))
  | _ => Err (CValueError (name +:+ " is required without outer whitespace"))
  end.

Definition has_char (c : Z) (v : value) : bool := match v with VStr s => chars_any (Z.eqb c) s | _ => false end.

Definition require_opaque_ref (name : pystr) (v : value) : res cexn unit :=
  require_string name v;;
  require (negb (has_char 47 v || has_char 92 v)) (CValueError (name +:+ " must be an opaque ref, not a path")).

Definition validate_virtual_path (v : value) : res cexn unit :=
  require_string "virtualPath" v;;
  match v with
  | VStr s =>
      require (negb (has_char 92 v || has_char 58 v || startswith s "/")) (CValueError "virtualPath must be a relative POSIX path");;
      require (negb (existsb dot_part (path_parts s))) (CValueError "virtualPath must not contain dot or parent components");;
      require (negb (chars_any category_C s)) (CValueError "virtualPath must not contain control characters")
  | _ => Ok tt
  end.

Definition validate_session_workspace (payload : value) : res cexn unit :=
  require_exact_fields payload SESSION_WORKSPACE_FIELDS "session workspace";;
  check_all (fun name => require (int_where (Z.leb 0) (get name payload))
                           (CValueError ("sessionWorkspace." +:+ name +:+ " must be a non-negative integer")))
    ["generation"; "snapshotSizeBytes"; "expandedSizeBytes"; "fileCount"];;
  let zero name := int_where (Z.eqb 0) (get name payload) in
  let is_empty_snapshot := is_str "" (get "snapshotSha256" payload) && zero "snapshotSizeBytes" && zero "expandedSizeBytes" && zero "fileCount" in
  require (negb (zero "generation" && negb is_empty_snapshot)) (CValueError "sessionWorkspace generation zero requires an empty snapshot");;
  if is_empty_snapshot then Ok tt
  else
    require_sha256 "sessionWorkspace.snapshotSha256" (get "snapshotSha256" payload);;
    require (negb (zero "snapshotSizeBytes" || zero "fileCount"))
      (CValueError "sessionWorkspace non-empty snapshot requires size and fileCount").

Definition validate_declared_input (payload : value) : res cexn unit :=
  require_exact_fields payload DECLARED_INPUT_FIELDS "declared input";;
  require (is_str DECLARED_INPUT_SCHEMA (get "schema" payload)) (CValueError "declared_input_schema_mismatch");;
  require_opaque_ref "inputRef" (get "inputRef" payload);;
  require_string "displayName" (get "displayName" payload);;
  require_string "contentType" (get "contentType" payload);;
  let identity := get "inputIdentity" payload in
  require_exact_fields identity INPUT_IDENTITY_FIELDS "input identity";;
  in_enum OWNER_KINDS (get "ownerKind" identity) (CValueError "unsupported ownerKind");;
  require_opaque_ref "ownerId" (get "ownerId" identity);;
  require (int_where (Z.ltb 0) (get "generation" identity)) (CValueError "input identity generation must be positive");;
  require_sha256 "inputIdentity.sha256" (get "sha256" identity);;
  require (int_where (fun z => (0 <=? z) && (z <=? 64 * 1024 * 1024)) (get "sizeBytes" payload))
    (CValueError "declared input sizeBytes exceeds direct input policy").

Definition validate_resolved_input (payload : value) : res cexn unit :=
  require_exact_fields payload RESOLVED_INPUT_FIELDS "resolved input";;
  require (is_str RESOLVED_INPUT_SCHEMA (get "schema" payload)) (CValueError "resolved_input_schema_mismatch");;
  require_opaque_ref "inputRef" (get "inputRef" payload);;
  require_opaque_ref "objectRef" (get "objectRef" payload);;
  require_string "displayName" (get "displayName" payload);;
  require_string "contentType" (get "contentType" payload);;
  require_string "sourceVersion" (get "sourceVersion" payload);;
  in_enum OWNER_KINDS (get "ownerKind" payload) (CValueError "unsupported ownerKind");;
  in_enum EVIDENCE_KINDS (get "evidenceKind" payload) (CValueError "unsupported evidenceKind");;
  require (bool_decide (is_Some (as_bool (get "citationAllowed" payload)))) (CValueError "citationAllowed must be a boolean");;
  require (int_where (Z.leb 0) (get "sizeBytes" payload)) (CValueError "sizeBytes must be a non-negative integer");;
  validate_virtual_path (get "virtualPath" payload);;
  require_sha256 "sha256" (get "sha256" payload).

(** [validate_thinking_mode] of [models.py] *)
Definition validate_thinking_mode (v : value) : res cexn unit :=
  let invalid := CValueError "thinking mode is invalid" in
  match v with
  | VStr s => require (negb (is_empty s) && bool_decide (s = strip s) && (str_len s <=? 64) && bool_decide (nfc s = s)
                       && negb (chars_any category_C s)) invalid
  | _ => Err invalid
  end.

(** ** Plugin activation *)

Definition sha256_71 (label : pystr) (v : value) : res cexn unit :=
  require match v with
          | VStr s => (str_len s =? 71) && startswith s "sha256:" && chars_all is_lower_hex (str_drop 7 s)
          | _ => false
          end (CValueError (label +:+ " must be lowercase sha256")).

Definition ends_with_dash (s : pystr) : bool := match last (code_points s) with Some c => c =? 45 | None => false end.
Definition is_lower_kebab_char (c : Z) : bool := ((97 <=? c) && (c <=? 122)) || ((48 <=? c) && (c <=? 57)) || (c =? 45).
Definition _is_lower_kebab (v : value) : bool :=
  match v with
  | VStr s => (0 <? str_len s) && (str_len s <=? 64) && negb (startswith s "-") && negb (ends_with_dash s)
              && negb (str_contains s "--") && chars_all is_lower_kebab_char s
  | _ => false
  end.

Definition version_part (p : pystr) : bool :=
  negb (is_empty p) && chars_all is_digit p && negb ((1 <? str_len p) && startswith p "0").
Definition _require_version (v : value) : res cexn unit :=
  require match v with
          | VStr s => let parts := str_split 46 s in (length parts =? 3)%nat && forallb version_part parts
          | _ => false
          end (CValueError "plugin version must be major.minor.patch").

Definition _require_resource_path (v : value) : res cexn unit :=
  require match v with
          | VStr s => negb (is_empty s) && negb (startswith s "/") && negb (has_char 92 v) && negb (has_char 58 v)
                      && negb (existsb dot_part (path_parts s)) && negb (chars_any category_C s) && bool_decide (nfc s = s)
          | _ => false
          end (CValueError "plugin resource path must be canonical relative POSIX").

(** the sort key of a package: [.get("name", "")] and [.get("packageDigest", "")] *)
Definition package_key (package : value) : res cexn (pystr * pystr) :=
  let field k := if has_key k package then from_option_res CTypeError (as_str (get k package)) else Ok "" in
  match package with
  | VDict _ => n ← field "name"; d ← field "packageDigest"; Ok (n, d)
  | _ => Err CAttributeError
  end.
Definition key_leb (x y : pystr * pystr) : bool := str_ltb x.1 y.1 || (bool_decide (x.1 = y.1) && str_leb x.2 y.2).
(** [l == sorted(l)] *)
Fixpoint sorted_keys (l : list (pystr * pystr)) : bool :=
  match l with
  | x :: (y :: _) as rest => key_leb x y && sorted_keys rest
  | _ => true
  end.
Fixpoint map_res {A B} (f : A -> res cexn B) (l : list A) : res cexn (list B) :=
  match l with
  | [] => Ok []
  | x :: l => y ← f x; ys ← map_res f l; Ok (y :: ys)
  end.

Definition activation_digest (packages : list value) : res cexn pystr :=
  encoded ← from_option_res CUnicodeEncodeError
    (utf8_encode (json_dumps (sort_keys (VDict [("schema", VStr PLUGIN_ACTIVATION_SCHEMA); ("packages", VList packages)]))));
  Ok (sha256_tag encoded).

Definition text_of (v : value) : pystr := default "" (as_str v).

Definition check_resources (package : value) (kind : pystr) : res cexn unit :=
  resources ← require_list (get kind package) ("plugin " +:+ kind +:+ " must be a list");
  check_all (fun r =>
    require_exact_fields r RESOURCE_FIELDS "plugin resource";;
    _require_resource_path (get "path" r);;
    sha256_71 "plugin resource digest" (get "digest" r)) resources;;
  require (strictly_sorted (map (fun r => text_of (get "path" r)) resources))
    (CValueError ("plugin " +:+ kind +:+ " resources must be sorted and unique")).

(** [path.rsplit("/", 1)[-1]] *)
Definition base_name (s : pystr) : pystr := default "" (last (path_parts s)).

Definition check_package (names : list pystr * list pystr) (package : value) : res cexn (list pystr * list pystr) :=
  require_exact_fields package PACKAGE_FIELDS "activated plugin package";;
  let name := text_of (get "name" package) in
  require (_is_lower_kebab (get "name" package) && negb (bool_decide (name ∈ names.1)))
    (CValueError "invalid or duplicate activated plugin name");;
  _require_version (get "version" package);;
  sha256_71 "plugin package digest" (get "packageDigest" package);;
  check_all (check_resources package) ["skills"; "cli"; "mcpServers"; "hooks"];;
  cli ← require_list (get "cli" package) "plugin cli must be a list";
  cli_names ← for_each (fun seen r =>
      let cli_name := base_name (text_of (get "path" r)) in
      require (negb (bool_decide (cli_name ∈ seen))) (CValueError "duplicate plugin CLI identity");;
      Ok (cli_name :: seen)) cli names.2;
  Ok (name :: names.1, cli_names).

Definition validate_plugin_activation (payload : value) : res cexn unit :=
  require_exact_fields payload ACTIVATION_FIELDS "plugin activation";;
  require (is_str PLUGIN_ACTIVATION_SCHEMA (get "schema" payload)) (CValueError "plugin_activation_schema_mismatch");;
  sha256_71 "plugin activation digest" (get "digest" payload);;
  packages ← require_list (get "packages" payload) "plugin activation packages must be a list";
  keys ← map_res package_key packages;
  require (sorted_keys keys) (CValueError "plugin activation packages must be sorted");;
  for_each check_package packages ([], []);;
  digest ← activation_digest packages;
  require (is_str digest (get "digest" payload)) (CValueError "plugin activation snapshot digest mismatch").

(** ** The payload *)

Definition int_of (v : value) : Z := default 0 (as_int v).

Definition validate_resources (resources : value) (asset_refs : list value) : res cexn unit :=
  require_exact_fields resources ["memoryBytes"; "cpuMilli"; "pidsLimit"; "dataTmpfsBytes"] "sandbox resources";;
  require (forallb (fun name => int_where (Z.ltb 0) (get name resources)) ["memoryBytes"; "cpuMilli"; "pidsLimit"; "dataTmpfsBytes"])
    (CValueError "sandbox resources must be positive integers");;
  check_all (fun nm => require (int_where (fun z => z <=? nm.2) (get nm.1 resources))
                         (CValueError ("sandbox resources." +:+ nm.1 +:+ " exceeds transport range")))
    [("memoryBytes", 2 ^ 64 - 1); ("cpuMilli", 2 ^ 32 - 1); ("pidsLimit", 2 ^ 32 - 1); ("dataTmpfsBytes", 2 ^ 64 - 1)];;
  require (sum_by (fun item => int_of (get "sizeBytes" item)) asset_refs <=? int_of (get "dataTmpfsBytes" resources) / 2)
    (CValueError "declared inputs must fit within half of dataTmpfsBytes").

Definition validate_agent_run_authorization_payload (payload : value) : res cexn unit :=
  require_exact_fields payload AGENT_RUN_AUTHORIZATION_FIELDS "AgentRun authorization";;
  require (is_str AGENT_RUN_AUTHORIZATION_SCHEMA (get "schema" payload)) (CValueError "agent_run_authorization_schema_mismatch");;
  check_all (fun name => require_opaque_ref name (get name payload))
    ["id"; "organizationId"; "workspaceId"; "userId"; "agentId"; "sessionId"; "agentRunId"; "modelConfigRef"; "artifactScopeRef"];;
  match validate_agent_id (text_of (get "agentId" payload)) with
  | Ok _ => Ok tt
  | Err _ => Err (CValueError "agent_id_invalid")
  end;;
  (if is_none (get "thinkingMode" payload) then Ok tt else validate_thinking_mode (get "thinkingMode" payload));;
  validate_session_workspace (get "sessionWorkspace" payload);;
  asset_refs ← require_list (get "assetRefs" payload) "assetRefs must be a list";
  require (zlen asset_refs <=? MAX_DECLARED_INPUTS) (CValueError "assetRefs must contain at most 64 direct inputs");;
  check_all validate_declared_input asset_refs;;
  let input_refs := map (fun item => text_of (get "inputRef" item)) asset_refs in
  require (strictly_sorted input_refs) (CValueError "declared inputs must be sorted by unique inputRef");;
  let message_error := CValueError "messageAssetRefs must be sorted unique authorized inputRefs" in
  message_asset_refs ← from_option_res message_error (as_list (get "messageAssetRefs" payload) ≫= mapM as_str);
  require (strictly_sorted message_asset_refs && forallb (fun r => bool_decide (r ∈ input_refs)) message_asset_refs) message_error;;
  require (is_str "workspace_general_v1" (get "imageCapability" payload)) (CValueError "imageCapability must be workspace_general_v1");;
  require_sha256 "imageDigest" (get "imageDigest" payload);;
  validate_plugin_activation (get "pluginActivation" payload);;
  validate_resources (get "resources" payload) asset_refs.

(** ** Digest and signature *)

Definition _validated_authorization_digest (payload : value) : res cexn pystr :=
  canonical ← from_option_res CUnicodeEncodeError (utf8_encode (json_dumps (sort_keys payload)));
  Ok (sha256_tag canonical).

Definition authorization_digest (payload : value) : res cexn pystr :=
  validate_agent_run_authorization_payload payload;;
  _validated_authorization_digest payload.

Definition _authorization_signature_for_digest (digest signing_key : pystr) : res cexn pystr :=
  require (negb (is_empty signing_key)) (CValueError "AgentRun authorization signing key is required");;
  key ← from_option_res CUnicodeEncodeError (utf8_encode signing_key);
  message ← from_option_res CUnicodeEncodeError (utf8_encode ("workspace:agent-run-authorization:v1" +:+ PyStr [0] +:+ digest));
  Ok ("hmac-sha256:" +:+ hmac_sha256_hex key message).

Definition authorization_signature (payload : value) (signing_key : pystr) : res cexn pystr :=
  require (negb (is_empty signing_key)) (CValueError "AgentRun authorization signing key is required");;
  digest ← authorization_digest payload;
  _authorization_signature_for_digest digest signing_key.

(** [hmac.compare_digest] accepts only ASCII strings *)
Definition _verify_authorization_digest_signature (digest signing_key signature : pystr) : res cexn unit :=
  expected ← _authorization_signature_for_digest digest signing_key;
  require (chars_all is_ascii signature) CTypeError;;
  require (bool_decide (expected = signature)) (CValueError "AgentRunAuthorization signature mismatch").

Definition verify_agent_run_authorization_signature (payload : value) (signing_key signature : pystr) : res cexn unit :=
  require (negb (is_empty signing_key)) (CValueError "AgentRun authorization signing key is required");;
  digest ← authorization_digest payload;
  _verify_authorization_digest_signature digest signing_key signature.
End contract.
