(* ===== verification/ContractProps.v ===== *)
(** * Properties of the authorization contract

    Validated paths stay inside the directory they are resolved in, signatures verify exactly when the
    API produced them, a digest determines the signed object, and a valid payload respects the limits
    the sandbox relies on. *)

From stdpp Require Import base tactics numbers gmap list sorting.
From S2P Require Import Prelude PyStr Utf8 Sha256 Platform PyValue Json Schema AgentIdentity Contract.

(** ** Paths *)

(** Lexical resolution of a POSIX path below the directory [dir]. *)
Fixpoint resolve (dir parts : list pystr) : list pystr :=
  match parts with
  | [] => dir
  | p :: parts =>
      if is_empty p || bool_decide (p = ".") then resolve dir parts
      else if bool_decide (p = "..") then resolve (removelast dir) parts
      else resolve (dir ++ [p]) parts
  end.
Definition resolve_path (dir : list pystr) (path : pystr) : list pystr :=
  resolve (if startswith path "/" then [] else dir) (path_parts path).

Lemma resolve_plain dir parts : existsb dot_part parts = false -> resolve dir parts = dir ++ parts.
Proof.
  revert dir. induction parts as [|p parts IH]; intros dir; cbn [existsb resolve]; [by rewrite app_nil_r|].
  unfold dot_part at 1. intros [Hp Hps]%orb_false_iff. apply orb_false_iff in Hp as [Hp H2].
  rewrite Hp, H2, IH by done. by rewrite <- app_assoc.
Qed.

(** [sep.join(s.split(sep)) == s] *)
Fixpoint unsplit (sep : Z) (ws : list (list Z)) : list Z :=
  match ws with
  | [] => []
  | [w] => w
  | w :: ws => w ++ sep :: unsplit sep ws
  end.
Lemma split_on_cons sep l : exists w ws, split_on sep l = w :: ws.
Proof. induction l as [|c l (w & ws & E)]; cbn; [eauto|]. rewrite E. case_match; eauto. Qed.
Lemma unsplit_split sep l : unsplit sep (split_on sep l) = l.
Proof.
  induction l as [|c l IH]; [done|]. cbn [split_on]. destruct (split_on_cons sep l) as (w & ws & E). rewrite E in *.
  destruct (Z.eqb_spec c sep) as [->|Hne]; [cbn in *; by rewrite IH|]. destruct ws; cbn in *; by rewrite IH.
Qed.
Lemma path_parts_inj p q : path_parts p = path_parts q -> p = q.
Proof.
  unfold path_parts, str_split. intros H. apply code_points_inj.
  rewrite <- (unsplit_split 47 (code_points p)), <- (unsplit_split 47 (code_points q)). f_equal.
  apply (f_equal (map code_points)) in H. rewrite !map_map in H. cbn in H. by rewrite !map_id in H.
Qed.

Section paths.
Context {PL : Platform}.

Lemma validate_virtual_path_parts p : validate_virtual_path (VStr p) = Ok tt ->
  startswith p "/" = false /\ existsb dot_part (path_parts p) = false /\ chars_any category_C p = false.
Proof.
  unfold validate_virtual_path. intros H. apply bind_Ok in H as (u & _ & H). cbv beta iota in H. res_inv.
  by bool_inv.
Qed.
End paths.

(** Validated paths cannot escape.  A path accepted by [validate_virtual_path], resolved by
    POSIX rules in any directory, denotes an entry strictly below that directory, component for
    component the path itself, and two different accepted paths denote different entries. *)
Theorem validated_path_stays_inside {PL : Platform} dir p q :
  validate_virtual_path (VStr p) = Ok tt ->
  resolve_path dir p = dir ++ path_parts p /\ path_parts p <> [] /\
  (validate_virtual_path (VStr q) = Ok tt -> resolve_path dir p = resolve_path dir q -> p = q).
Proof.
  intros (Hs & Hd & _)%validate_virtual_path_parts. unfold resolve_path. rewrite Hs, resolve_plain by done. split_and!; [done| |].
  - unfold path_parts, str_split. destruct (split_on_cons 47 (code_points p)) as (w & ws & ->). done.
  - intros (Hs' & Hd' & _)%validate_virtual_path_parts. rewrite Hs', resolve_plain by done.
    intros ?%app_inv_head. by apply path_parts_inj.
Qed.

Lemma validated_path_stays_inside_witness :
  validate_virtual_path (PL := ascii_platform) (VStr "notes/a.txt") = Ok tt /\
  resolve_path ["data"; "inputs"] "notes/a.txt" = ["data"; "inputs"; "notes"; "a.txt"].
Proof.
  split; [vm_compute; reflexivity|].
  refine (proj1 (validated_path_stays_inside (PL := ascii_platform) ["data"; "inputs"] "notes/a.txt" "b" _)). vm_compute. reflexivity.
Defined.

(** ** Signatures *)

Lemma hmac_ascii key data : chars_all is_ascii ("hmac-sha256:" +:+ hmac_sha256_hex key data) = true.
Proof.
  unfold chars_all. rewrite code_points_app, forallb_app. apply andb_true_iff. split; [reflexivity|].
  destruct (sha256_hex_wf (xor_pad 92 (if 64 <? zlen key then sha256 key else key) ++
    sha256 (xor_pad 54 (if 64 <? zlen key then sha256 key else key) ++ data))) as [_ Hh].
  unfold hmac_sha256_hex, chars_all in *. apply forallb_Forall. apply forallb_Forall in Hh.
  eapply Forall_impl; [exact Hh|]. intros c. cbn beta. unfold is_lower_hex, is_ascii. lia.
Qed.

(** A signature verifies exactly when the API produced it.  For every payload, key and text,
    verification succeeds if and only if signing that payload with that key yields that very text: an
    invalid payload, an empty key or any other text is refused. *)
Theorem signature_verifies_iff {PL : Platform} payload signing_key signature :
  verify_agent_run_authorization_signature payload signing_key signature = Ok tt <->
  authorization_signature payload signing_key = Ok signature.
Proof.
  unfold verify_agent_run_authorization_signature, authorization_signature, _verify_authorization_digest_signature.
  destruct (require (negb (is_empty signing_key)) _) as [[]|]; cbn [mbind res_bind]; [|by split].
  destruct (authorization_digest payload) as [digest|]; cbn [mbind res_bind]; [|by split].
  destruct (_authorization_signature_for_digest digest signing_key) as [expected|] eqn:E; cbn [mbind res_bind]; [|by split].
  unfold _authorization_signature_for_digest in E. walk E. split.
  - intros H. walk H. apply require_Ok in H. bool_inv. by subst.
  - intros [= <-]. rewrite hmac_ascii. cbn [require mbind res_bind]. by rewrite bool_decide_eq_true_2.
Qed.

(** ** Digests *)

Lemma hex_byte_inj b c : 0 <= b < 256 -> 0 <= c < 256 -> hex_byte b = hex_byte c -> b = c.
Proof.
  unfold hex_byte. intros Hb Hc [= H1 H2].
  assert (Hinj : forall m n, 0 <= m < 16 -> 0 <= n < 16 -> hex_digit m = hex_digit n -> m = n).
  { unfold hex_digit. intros m n ??. destruct (Z.ltb_spec m 10), (Z.ltb_spec n 10); lia. }
  apply Hinj in H1; [|Z.to_euclidean_division_equations; lia..].
  apply Hinj in H2; [|Z.to_euclidean_division_equations; lia..].
  rewrite (Z.div_mod b 16), (Z.div_mod c 16) by lia. lia.
Qed.

Lemma to_hex_inj l1 l2 : Forall (fun b => 0 <= b < 256) l1 -> Forall (fun b => 0 <= b < 256) l2 -> to_hex l1 = to_hex l2 -> l1 = l2.
Proof.
  unfold to_hex. intros H1. revert l2. induction H1 as [|b l1 Hb H1 IH]; intros [|c l2] H2 H; [done|done|done|].
  apply Forall_cons in H2 as [Hc H2]. cbn in H. injection H as Ha Hd H.
  f_equal; [apply hex_byte_inj; [done..|]; unfold hex_byte; congruence|]. apply IH; [done|]. congruence.
Qed.

Lemma sha256_tag_inj x y : sha256_tag x = sha256_tag y -> sha256 x = sha256 y.
Proof. unfold sha256_tag, sha256_hex. intros H%str_app_inj_l. apply to_hex_inj in H; [done|apply sha256_range..]. Qed.

Lemma dumpable_sort_keys v : dumpable v -> dumpable (sort_keys v).
Proof.
  induction v as [|[]|z|r|s|l IH|d IH] using value_nested_ind; try done.
  - rewrite dumpable_list. cbn [sort_keys]. rewrite dumpable_list. intros Hl. apply Forall_fmap.
    rewrite Forall_forall in IH, Hl |- *. cbn. auto.
  - rewrite dumpable_dict. cbn [sort_keys]. rewrite dumpable_dict. intros [Hnd Hd].
    set (d' := map _ d). assert (Hp : merge_sort key_pair_le d' ≡ₚ d') by apply merge_sort_Permutation. split.
    + change (NoDup ((merge_sort key_pair_le d').*1)). rewrite Hp. unfold d'. change (NoDup (map fst (map (fun kv => (kv.1, sort_keys kv.2)) d))).
      by rewrite map_map.
    + rewrite Hp. unfold d'. apply Forall_fmap. rewrite Forall_forall in IH, Hd |- *. intros kv Hkv. cbn.
      destruct (Hd kv Hkv). auto.
Qed.

Lemma authorization_digest_Ok {PL : Platform} p digest : authorization_digest p = Ok digest ->
  exists b, utf8_encode (json_dumps (sort_keys p)) = Some b /\ digest = sha256_tag b.
Proof.
  unfold authorization_digest, _validated_authorization_digest. intros H. apply bind_Ok in H as (? & _ & H).
  apply bind_Ok in H as (b & Hb & H). apply from_option_res_Ok in Hb. exists b. split; [done|]. congruence.
Qed.

(** The digest determines the object that was signed.  If two payloads, neither of them
    using floats, get the same authorization digest, they are the same object up to the order of keys;
    the only other possibility is a collision of SHA-256. *)
Theorem authorization_digest_binds {PL : Platform} p q digest :
  dumpable p -> dumpable q ->
  authorization_digest p = Ok digest -> authorization_digest q = Ok digest ->
  sort_keys p = sort_keys q \/ exists x y, x <> y /\ sha256 x = sha256 y.
Proof.
  intros Hp Hq (x & Ex & Hx)%authorization_digest_Ok (y & Ey & Hy)%authorization_digest_Ok.
  rewrite Hx in Hy. apply sha256_tag_inj in Hy. destruct (decide (x = y)) as [->|Hne]; [left|right; eauto].
  pose proof (utf8_encode_inj _ _ _ Ex Ey) as Hj.
  pose proof (json_loads_dumps _ (dumpable_sort_keys _ Hp)) as Lp.
  pose proof (json_loads_dumps _ (dumpable_sort_keys _ Hq)) as Lq. congruence.
Qed.

(** ** Limits *)

Lemma check_all_Ok {A} (check : A -> res cexn unit) l u : check_all check l = Ok u -> Forall (fun x => check x = Ok tt) l.
Proof.
  unfold check_all. destruct u. induction l as [|x l IH]; cbn; [constructor|]. intros H. apply bind_Ok in H as ([] & Hx & Hl).
  apply List.Forall_cons; auto.
Qed.

Lemma strictly_sorted_NoDup l : strictly_sorted l = true -> NoDup l.
Proof.
  assert (Hlt : forall l x, strictly_sorted (x :: l) = true -> Forall (fun y => str_ltb x y = true) l).
  { clear l. induction l as [|y l IH]; intros x H; [constructor|]. cbn [strictly_sorted] in H. apply andb_prop in H as [Hxy H].
    apply List.Forall_cons; [done|]. eapply Forall_impl; [exact (IH y H)|]. intros z Hz. exact (lex_ltb_trans _ _ _ Hxy Hz). }
  induction l as [|x l IH]; intros H; [constructor|]. apply NoDup_cons. split.
  - intros Hin. pose proof (Hlt _ _ H) as Hall. rewrite Forall_forall in Hall. specialize (Hall x Hin).
    unfold str_ltb in Hall. by rewrite lex_ltb_irrefl in Hall.
  - apply IH. destruct l as [|y l]; [done|]. cbn [strictly_sorted] in H. by apply andb_prop in H as [_ ?].
Qed.

Lemma int_where_spec p v : int_where p v = true -> exists z, v = VInt z /\ p z = true.
Proof. unfold int_where. destruct (as_int v) eqn:E; [|done]. apply as_int_Some in E as ->. eauto. Qed.

Lemma mapM_as_str l ss : mapM as_str l = Some ss -> l = map VStr ss.
Proof.
  intros H%mapM_Some. induction H as [|v s l ss Hs _ IH]; [done|]. apply as_str_Some in Hs as ->. cbn. by rewrite IH.
Qed.

(** What a valid authorization guarantees the sandbox.  At most 64 inputs, with pairwise
    different references; every input attached to the message is one of them; together they fill at
    most half of the sandbox's data file system, whose size fits 64 bits. *)
Theorem valid_authorization_respects_limits {PL : Platform} payload :
  validate_agent_run_authorization_payload payload = Ok tt ->
  exists inputs messages tmpfs,
    get "assetRefs" payload = VList inputs /\ get "messageAssetRefs" payload = VList (map VStr messages) /\
    get "dataTmpfsBytes" (get "resources" payload) = VInt tmpfs /\
    let refs := map (fun item => text_of (get "inputRef" item)) inputs in
    zlen inputs <= MAX_DECLARED_INPUTS /\ NoDup refs /\ messages ⊆ refs /\
    0 < tmpfs < 2 ^ 64 /\ 2 * sum_by (fun item => int_of (get "sizeBytes" item)) inputs <= tmpfs.
Proof.
  unfold validate_agent_run_authorization_payload. intros H. do 6 (apply bind_Ok in H as (? & _ & H)).
  apply bind_Ok in H as (inputs & Hi & H). apply bind_Ok in H as (? & Hlen & H). apply bind_Ok in H as (? & _ & H).
  cbv zeta in H. apply bind_Ok in H as (? & Hsort & H). apply bind_Ok in H as (messages & Hm & H).
  apply bind_Ok in H as (? & Hms & H). do 3 (apply bind_Ok in H as (? & _ & H)).
  unfold validate_resources in H. apply bind_Ok in H as (? & _ & H). apply bind_Ok in H as (? & Hpos & H).
  apply bind_Ok in H as (? & Hmax & H).
  unfold require_list in Hi. apply from_option_res_Ok in Hi, Hm. apply require_Ok in Hlen, Hsort, Hms, Hpos, H.
  apply Z.leb_le in Hlen, H. apply andb_prop in Hms as [_ Hms].
  destruct (get "assetRefs" payload) as [| | | | |inputs'|] eqn:Ea; cbn in Hi; simplify_eq.
  apply bind_Some in Hm as (ms & Hml & Hmm). apply mapM_as_str in Hmm as ->.
  destruct (get "messageAssetRefs" payload) as [| | | | |ms'|] eqn:Em; cbn in Hml; simplify_eq.
  cbn [forallb] in Hpos. apply andb_prop in Hpos as [_ Hpos]. apply andb_prop in Hpos as [_ Hpos].
  apply andb_prop in Hpos as [_ Hpos]. apply andb_prop in Hpos as [Hpos _]. apply int_where_spec in Hpos as (tmpfs & Et & Hpos).
  apply check_all_Ok in Hmax. do 3 (apply Forall_cons in Hmax as [_ Hmax]). apply Forall_cons in Hmax as [Hmax _].
  apply require_Ok in Hmax. cbn [fst snd] in Hmax. rewrite Et in Hmax, H. cbn [int_where as_int int_of default] in Hmax, H.
  exists inputs, messages, tmpfs. split_and!; try done.
  - by apply strictly_sorted_NoDup.
  - intros r Hr. apply forallb_Forall in Hms. rewrite Forall_forall in Hms. specialize (Hms r Hr). by apply bool_decide_eq_true in Hms.
  - lia.
  - lia.
  - unfold id in H. pose proof (Z.mul_div_le tmpfs 2 ltac:(lia)). lia.
Qed.

(** ** A sample payload *)

Definition sample_sha : pystr := "sha256:" +:+ PyStr (replicate 64 48).
Definition sample_input : value :=
  VDict [("schema", VStr DECLARED_INPUT_SCHEMA); ("inputRef", VStr "input-1"); ("displayName", VStr "notes.txt");
         ("contentType", VStr "text/plain");
         ("inputIdentity", VDict [("ownerKind", VStr "sourceObject"); ("ownerId", VStr "object-1"); ("generation", VInt 1);
                                  ("sha256", VStr sample_sha)]);
         ("sizeBytes", VInt 100)].
Definition sample_payload : value :=
  VDict [("schema", VStr AGENT_RUN_AUTHORIZATION_SCHEMA); ("id", VStr "auth-1"); ("organizationId", VStr "default_org");
         ("workspaceId", VStr "ws-1"); ("userId", VStr "7"); ("agentId", VStr "agent-1"); ("sessionId", VStr "session-1");
         ("agentRunId", VStr "run-1");
         ("sessionWorkspace", VDict [("generation", VInt 0); ("snapshotSha256", VStr ""); ("snapshotSizeBytes", VInt 0);
                                     ("expandedSizeBytes", VInt 0); ("fileCount", VInt 0)]);
         ("modelConfigRef", VStr "model-1"); ("thinkingMode", VNone); ("artifactScopeRef", VStr "artifact_scope_run-1");
         ("assetRefs", VList [sample_input]); ("messageAssetRefs", VList [VStr "input-1"]);
         ("imageCapability", VStr "workspace_general_v1"); ("imageDigest", VStr sample_sha);
         ("pluginActivation", VDict [("schema", VStr PLUGIN_ACTIVATION_SCHEMA);
            ("digest", VStr match activation_digest [] with Ok d => d | Err _ => "" end); ("packages", VList [])]);
         ("resources", VDict [("memoryBytes", VInt 1000); ("cpuMilli", VInt 500); ("pidsLimit", VInt 64); ("dataTmpfsBytes", VInt 4096)])].

Lemma sample_payload_valid : validate_agent_run_authorization_payload (PL := ascii_platform) sample_payload = Ok tt.
Proof. vm_compute. reflexivity. Qed.

Lemma valid_authorization_respects_limits_witness : exists inputs,
  get "assetRefs" sample_payload = VList inputs /\ zlen inputs <= MAX_DECLARED_INPUTS.
Proof.
  destruct (valid_authorization_respects_limits (PL := ascii_platform) sample_payload) as (inputs & ? & ? & Hi & _ & _ & Hl & _).
  - exact sample_payload_valid.
  - exists inputs. split; [exact Hi|exact Hl].
Defined.

(** The same payload with its keys in another order has the same digest. *)
Definition reordered_payload : value := match sample_payload with VDict d => VDict (rev d) | v => v end.

Lemma sample_dumpable : dumpable sample_payload.
Proof. unfold sample_payload, sample_input. cbn. unfold str_ok. split_and!; try exact I; by_decide. Qed.
Lemma reordered_dumpable : dumpable reordered_payload.
Proof. unfold reordered_payload, sample_payload, sample_input. cbn. unfold str_ok. split_and!; try exact I; by_decide. Qed.

Lemma authorization_digest_binds_witness : exists d,
  authorization_digest (PL := ascii_platform) sample_payload = Ok d /\
  authorization_digest (PL := ascii_platform) reordered_payload = Ok d /\
  (sort_keys sample_payload = sort_keys reordered_payload \/ exists x y, x <> y /\ sha256 x = sha256 y).
Proof.
  destruct (authorization_digest (PL := ascii_platform) sample_payload) as [d|e] eqn:E; [|vm_compute in E; discriminate E].
  assert (E' : authorization_digest (PL := ascii_platform) reordered_payload = Ok d).
  { rewrite <- E. vm_compute. reflexivity. }
  exists d. split; [reflexivity|]. split; [exact E'|].
  exact (authorization_digest_binds (PL := ascii_platform) sample_payload reordered_payload d sample_dumpable reordered_dumpable E E').
Defined.
