(* ===== verification/Snapshot.v ===== *)
(** * Workspace snapshots

    The snapshot reader of [packages/api/app_core/http/internal.py]: a snapshot is a four-byte length, a
    canonical JSON manifest and the contents of its files.  The reader checks it while it is uploaded,
    chunk by chunk; [read_snapshot] is the whole upload.

    A [hashlib] object is the bytes it was fed.  The request body is a byte string whose reads may come
    back short: [sizes n] is how many bytes the [n]-th read would return. *)

From stdpp Require Import base tactics numbers gmap list sorting.
From S2P Require Import Prelude PyStr Utf8 Sha256 Platform PyValue Json Schema Contract.

(** [SessionWorkspaceError(code, status)], or any other exception *)
Inductive wserr := SessionWorkspaceError (code : pystr) (status : Z) | UnexpectedError.

(** The [candidate] dict. *)
Record candidate := Candidate {
  c_generation : Z; c_sha256 : pystr; c_size : Z; c_expanded : Z; c_file_count : Z }.
Record file_entry := FileEntry { f_path : pystr; f_size : Z; f_sha256 : pystr; f_executable : bool }.

Definition MAX_SESSION_WORKSPACE_MANIFEST_BYTES : Z := 1024 * 1024.
Definition MAX_SESSION_WORKSPACE_PATH_BYTES : Z := 4 * 1024.
Definition MAX_SESSION_WORKSPACE_PATH_DEPTH : Z := 64.
Definition SESSION_WORKSPACE_SNAPSHOT_SCHEMA : pystr := "workspace.snapshot.v1".
Definition snapshot_invalid : wserr := SessionWorkspaceError "session_workspace_snapshot_invalid" 400.

(** [int.from_bytes(data, "big")] *)
Definition from_bytes (l : bytes) : Z := fold_left (fun acc b => acc * 256 + b) l 0.

Section snapshot.
Context {PL : Platform}.

(** ** The manifest *)

(** [try: check() except ValueError: raise SessionWorkspaceError(...)] *)
Definition checked (r : res cexn unit) : res wserr unit := catch r (fun _ => Err snapshot_invalid).

Record manifest_loop := ManifestLoop { ml_previous : option pystr; ml_expanded : Z; ml_files : list file_entry }.

Definition manifest_file (cand : candidate) (st : manifest_loop) (file : value) : res wserr manifest_loop :=
  require (match file with VDict _ => true | _ => false end && keys_are ["path"; "sizeBytes"; "sha256"; "executable"] file) snapshot_invalid;;
  checked (validate_virtual_path (get "path" file));;
  checked (require_sha256 "workspace snapshot file sha256" (get "sha256" file));;
  let path := text_of (get "path" file) in
  encoded ← from_option_res UnexpectedError (utf8_encode path);
  size ← from_option_res snapshot_invalid (as_int (get "sizeBytes" file));
  executable ← from_option_res snapshot_invalid (as_bool (get "executable" file));
  require (negb ((MAX_SESSION_WORKSPACE_PATH_BYTES <? zlen encoded) || (MAX_SESSION_WORKSPACE_PATH_DEPTH <? zlen (path_parts path))
                 || (size <? 0)
                 || match ml_previous st with
                    | Some previous => str_leb path previous || startswith path (previous +:+ "/")
                    | None => false
                    end)) snapshot_invalid;;
  let expanded := ml_expanded st + size in
  require (negb (c_expanded cand <? expanded)) snapshot_invalid;;
  Ok (ManifestLoop (Some path) expanded (ml_files st ++ [FileEntry path size (text_of (get "sha256" file)) executable])).

Definition _workspace_snapshot_manifest (manifest_bytes : bytes) (cand : candidate) : res wserr (list file_entry) :=
  text ← from_option_res snapshot_invalid (utf8_decode manifest_bytes);
  manifest ← match json_loads text with
             | Ok v => Ok v
             | Err IntTooLong => Err UnexpectedError
             | Err _ => Err snapshot_invalid
             end;
  canonical ← from_option_res UnexpectedError (utf8_encode (json_dumps manifest));
  require (bool_decide (canonical = manifest_bytes) && match manifest with VDict _ => true | _ => false end
           && keys_are ["schema"; "files"] manifest) snapshot_invalid;;
  require (is_str SESSION_WORKSPACE_SNAPSHOT_SCHEMA (get "schema" manifest)) snapshot_invalid;;
  files ← from_option_res snapshot_invalid (as_list (get "files" manifest));
  require ((zlen files =? c_file_count cand) && negb (zlen files =? 0)) snapshot_invalid;;
  st ← for_each (manifest_file cand) files (ManifestLoop None 0 []);
  require (ml_expanded st =? c_expanded cand) snapshot_invalid;;
  Ok (ml_files st).

(** ** The reader *)

(** [_WorkspaceSnapshotReader] *)
Record reader := Reader {
  rd_remaining : Z; rd_digest : bytes; rd_header : bytes; rd_manifest : bytes; rd_manifest_length : option Z;
  rd_files : option (list file_entry); rd_file_index : nat; rd_file_remaining : Z; rd_file_digest : option bytes }.

Definition new_reader (cand : candidate) : reader := Reader (c_size cand) [] [] [] None None 0 0 None.

Definition set_header (h : bytes) (n : option Z) (r : reader) : reader :=
  Reader (rd_remaining r) (rd_digest r) h (rd_manifest r) n (rd_files r) (rd_file_index r) (rd_file_remaining r) (rd_file_digest r).
Definition set_manifest (m : bytes) (fs : option (list file_entry)) (r : reader) : reader :=
  Reader (rd_remaining r) (rd_digest r) (rd_header r) m (rd_manifest_length r) fs (rd_file_index r) (rd_file_remaining r) (rd_file_digest r).
Definition set_file (i : nat) (rem : Z) (d : option bytes) (r : reader) : reader :=
  Reader (rd_remaining r) (rd_digest r) (rd_header r) (rd_manifest r) (rd_manifest_length r) (rd_files r) i rem d.
Definition set_read (rem : Z) (d : bytes) (r : reader) : reader :=
  Reader rem d (rd_header r) (rd_manifest r) (rd_manifest_length r) (rd_files r) (rd_file_index r) (rd_file_remaining r) (rd_file_digest r).

(** [_advance_empty_files] over the files not yet finished. *)
Fixpoint advance_files (todo : list file_entry) (r : reader) : res wserr reader :=
  match todo with
  | [] => Ok r
  | f :: todo =>
      let '(remaining, digest) := match rd_file_digest r with
                                  | None => (f_size f, [])
                                  | Some d => (rd_file_remaining r, d)
                                  end in
      if negb (remaining =? 0) then Ok (set_file (rd_file_index r) remaining (Some digest) r)
      else if negb (bool_decide (sha256_tag digest = f_sha256 f)) then Err snapshot_invalid
      else advance_files todo (set_file (S (rd_file_index r)) remaining None r)
  end.
Definition _advance_empty_files (r : reader) : res wserr reader :=
  match rd_files r with
  | None => Ok r
  | Some files => advance_files (drop (rd_file_index r) files) r
  end.

(** The header part of an iteration of [_consume]. *)
Definition header_step (cand : candidate) (r : reader) (chunk : bytes) : res wserr (reader * bytes * bool) :=
  if zlen (rd_header r) <? 4 then
    let count := Nat.min (4 - length (rd_header r)) (length chunk) in
    let header := rd_header r ++ take count chunk in
    if negb (zlen header =? 4) then Ok (set_header header (rd_manifest_length r) r, drop count chunk, true)
    else
      let n := from_bytes header in
      require ((0 <? n) && (n <=? MAX_SESSION_WORKSPACE_MANIFEST_BYTES)) snapshot_invalid;;
      require (negb (c_size cand <? 4 + n)) snapshot_invalid;;
      Ok (set_header header (Some n) r, drop count chunk, false)
  else Ok (r, chunk, false).

(** One iteration of the loop of [_consume]: the new state and what is left of the chunk. *)
Definition consume_step (cand : candidate) (r : reader) (chunk : bytes) : res wserr (reader * bytes) :=
  p ← header_step cand r chunk;
  let '(r, chunk, continue_) := p in
  if continue_ : bool then Ok (r, chunk)
  else
    let n := default 0 (rd_manifest_length r) in
    if zlen (rd_manifest r) <? n then
      let count := Nat.min (Z.to_nat n - length (rd_manifest r)) (length chunk) in
      let manifest := rd_manifest r ++ take count chunk in
      if negb (zlen manifest =? n) then Ok (set_manifest manifest (rd_files r) r, drop count chunk)
      else
        files ← _workspace_snapshot_manifest manifest cand;
        r ← _advance_empty_files (set_manifest manifest (Some files) r);
        Ok (r, drop count chunk)
    else
      r ← _advance_empty_files r;
      require (negb (rd_file_index r =? length (default [] (rd_files r)))%nat) snapshot_invalid;;
      let count := Nat.min (Z.to_nat (rd_file_remaining r)) (length chunk) in
      r ← _advance_empty_files (set_file (rd_file_index r) (rd_file_remaining r - Z.of_nat count)
                                  (Some (default [] (rd_file_digest r) ++ take count chunk)) r);
      Ok (r, drop count chunk).

(** Every iteration consumes at least one byte, so the length of the chunk is enough fuel. *)
Fixpoint _consume (cand : candidate) (fuel : nat) (r : reader) (chunk : bytes) : res wserr reader :=
  match chunk, fuel with
  | [], _ => Ok r
  | _, O => Err UnexpectedError
  | _, S fuel => p ← consume_step cand r chunk; _consume cand fuel p.1 p.2
  end.

(** [source.read(requested)]: something if anything is left, never more than asked for. *)
Definition source_read (size : nat) (requested : Z) (source : bytes) : bytes * bytes :=
  let count := Nat.max 1 (Nat.min size (Z.to_nat requested)) in (take count source, drop count source).

(** [while reader.read(64 * 1024): pass]; each read takes at least one byte of [remaining]. *)
Fixpoint read_loop (cand : candidate) (sizes : nat -> nat) (fuel n : nat) (r : reader) (source : bytes) : res wserr (reader * bytes) :=
  if rd_remaining r =? 0 then Ok (r, source)
  else match fuel with
       | O => Err UnexpectedError
       | S fuel =>
           let requested := Z.min (64 * 1024) (rd_remaining r) in
           let '(chunk, source) := source_read (sizes n) requested source in
           match chunk with
           | [] => Err snapshot_invalid
           | _ =>
               r ← _consume cand (length chunk) (set_read (rd_remaining r - zlen chunk) (rd_digest r ++ chunk) r) chunk;
               read_loop cand sizes fuel (S n) r source
           end
       end.

Definition require_complete (cand : candidate) (r : reader) (source : bytes) : res wserr unit :=
  require match rd_files r with
          | Some files => (rd_remaining r =? 0) && (rd_file_index r =? length files)%nat
                          && bool_decide (sha256_tag (rd_digest r) = c_sha256 cand) && bool_decide (source = [])
          | None => false
          end snapshot_invalid.

(** The upload loop of [_store_workspace_snapshot]. *)
Definition read_snapshot (cand : candidate) (sizes : nat -> nat) (source : bytes) : res wserr unit :=
  p ← read_loop cand sizes (Z.to_nat (c_size cand)) 0 (new_reader cand) source;
  require_complete cand p.1 p.2.
End snapshot.
