(* ===== verification/SnapshotProps.v ===== *)
(** * The streaming snapshot reader equals its specification

    [valid_snapshot] checks a complete snapshot at once; the reader checks it while it arrives in chunks
    of any size.  Both accept the same snapshots. *)

From stdpp Require Import base tactics numbers gmap list sorting.
From S2P Require Import Prelude PyStr Utf8 Sha256 Platform PyValue Json Schema Contract Snapshot.

(** ** The specification *)

(** [body] is the contents of the files, one after the other. *)
Fixpoint files_ok (files : list file_entry) (body : bytes) : Prop :=
  match files with
  | [] => body = []
  | f :: files =>
      f_size f <= zlen body /\ sha256_tag (take (Z.to_nat (f_size f)) body) = f_sha256 f /\
      files_ok files (drop (Z.to_nat (f_size f)) body)
  end.

Section spec.
Context {PL : Platform} (cand : candidate).

(** [body] is a manifest of [n] bytes and the files it lists. *)
Definition body_ok (n : Z) (body : bytes) : Prop :=
  n <= zlen body /\
  exists files, _workspace_snapshot_manifest (take (Z.to_nat n) body) cand = Ok files /\ files_ok files (drop (Z.to_nat n) body).

Definition valid_snapshot (data : bytes) : Prop :=
  zlen data = c_size cand /\ sha256_tag data = c_sha256 cand /\ 4 <= zlen data /\
  let n := from_bytes (take 4 data) in
  0 < n <= MAX_SESSION_WORKSPACE_MANIFEST_BYTES /\ body_ok n (drop 4 data).
End spec.

(** ** The manifest lists sizes *)

Section proofs.
Context {PL : Platform} (cand : candidate).

Lemma manifest_file_sizes st file st' :
  Forall (fun f => 0 <= f_size f) (ml_files st) -> manifest_file cand st file = Ok st' -> Forall (fun f => 0 <= f_size f) (ml_files st').
Proof.
  unfold manifest_file. intros Hs H. repeat (apply bind_Ok in H as (? & ? & H)). injection H as <-. cbn.
  apply Forall_app. split; [done|]. apply List.Forall_cons; [|constructor]. cbn.
  repeat match goal with H : require _ _ = Ok _ |- _ => apply require_Ok in H end. bool_inv. done.
Qed.

Lemma manifest_sizes m files : _workspace_snapshot_manifest m cand = Ok files -> Forall (fun f => 0 <= f_size f) files.
Proof.
  unfold _workspace_snapshot_manifest. intros H. repeat (apply bind_Ok in H as (? & ? & H)). injection H as <-.
  match goal with H : for_each _ _ _ = Ok _ |- _ => refine (for_each_inv (fun st => Forall (fun f => 0 <= f_size f) (ml_files st)) _ _ _ _ _ _ H) end.
  - intros. by eapply manifest_file_sizes.
  - constructor.
Qed.

(** ** What a reader state still accepts *)

Definition layout_ok (data : bytes) : Prop :=
  4 <= zlen data /\
  let n := from_bytes (take 4 data) in
  0 < n <= MAX_SESSION_WORKSPACE_MANIFEST_BYTES /\ 4 + n <= c_size cand /\ body_ok cand n (drop 4 data).

Definition accepts (r : reader) (suffix : bytes) : Prop :=
  match rd_files r with
  | Some files => files_ok (drop (rd_file_index r) files) (default [] (rd_file_digest r) ++ suffix)
  | None =>
      match rd_manifest_length r with
      | Some n => body_ok cand n (rd_manifest r ++ suffix)
      | None => layout_ok (rd_header r ++ suffix)
      end
  end.

(** Between iterations. *)
Definition at_file (r : reader) (files : list file_entry) : Prop :=
  Forall (fun f => 0 <= f_size f) files /\
  match rd_file_digest r with
  | None => drop (rd_file_index r) files = []
  | Some cur => exists f rest, drop (rd_file_index r) files = f :: rest /\
                  rd_file_remaining r = f_size f - zlen cur /\ 0 < rd_file_remaining r
  end.
Definition settled (r : reader) : Prop :=
  match rd_files r with
  | Some files => length (rd_header r) = 4%nat /\ rd_manifest_length r = Some (zlen (rd_manifest r)) /\ at_file r files /\
                  (rd_file_index r <= length files)%nat
  | None => rd_file_index r = 0%nat /\ rd_file_digest r = None /\
      match rd_manifest_length r with
      | Some n => length (rd_header r) = 4%nat /\ zlen (rd_manifest r) < n
      | None => (length (rd_header r) < 4)%nat /\ rd_manifest r = []
      end
  end.

(** Advancing past finished files does not change what is accepted. *)
Lemma advance_files_spec files todo r :
  rd_files r = Some files -> drop (rd_file_index r) files = todo -> (rd_file_index r <= length files)%nat ->
  Forall (fun f => 0 <= f_size f) files ->
  match rd_file_digest r, todo with
  | Some cur, f :: _ => rd_file_remaining r = f_size f - zlen cur /\ 0 <= rd_file_remaining r
  | Some _, [] => False
  | None, _ => True
  end ->
  match advance_files todo r with
  | Ok r' => rd_files r' = Some files /\ rd_header r' = rd_header r /\ rd_manifest r' = rd_manifest r /\
             rd_manifest_length r' = rd_manifest_length r /\ rd_remaining r' = rd_remaining r /\ rd_digest r' = rd_digest r /\
             at_file r' files /\ (rd_file_index r' <= length files)%nat /\ (forall s, accepts r' s <-> accepts r s)
  | Err _ => forall s, ~ accepts r s
  end.
Proof.
  revert r. induction todo as [|f todo IH]; intros r Hf Hd Hi Hs Hc; cbn [advance_files].
  - assert (rd_file_digest r = None) as Hn by (destruct (rd_file_digest r); done).
    split_and!; try done. unfold at_file. rewrite Hn. done.
  - assert (Hdrop : drop (S (rd_file_index r)) files = todo) by (replace (S (rd_file_index r)) with (rd_file_index r + 1)%nat by lia; by rewrite <- drop_drop, Hd).
    assert (Hlt : (S (rd_file_index r) <= length files)%nat).
    { apply (f_equal length) in Hd. rewrite length_drop in Hd. cbn in Hd. lia. }
    assert (Hsz : 0 <= f_size f).
    { pose proof (Forall_drop _ (rd_file_index r) _ Hs) as Hs'. rewrite Hd in Hs'. by apply Forall_cons in Hs' as [? _]. }
    set (cur := default [] (rd_file_digest r)). set (rem := match rd_file_digest r with None => f_size f | Some _ => rd_file_remaining r end).
    assert (Hrem : rem = f_size f - zlen cur /\ 0 <= rem).
    { unfold rem, cur. destruct (rd_file_digest r); cbn; [done|]. unfold zlen; cbn. lia. }
    replace (match rd_file_digest r with None => (f_size f, []) | Some d => (rd_file_remaining r, d) end) with (rem, cur)
      by (unfold rem, cur; by destruct (rd_file_digest r)).
    destruct (Z.eqb_spec rem 0) as [E0|E0]; cbn [negb].
    + assert (Hacc : forall s, accepts r s <-> (sha256_tag cur = f_sha256 f /\ files_ok todo s)).
      { intros s. unfold accepts. rewrite Hf, Hd. fold cur. cbn [files_ok].
        assert (Z.to_nat (f_size f) = length cur) as -> by (unfold zlen in Hrem; lia).
        rewrite take_app_length, drop_app_length, zlen_app. pose proof (zlen_nonneg s). intuition lia. }
      destruct (bool_decide (sha256_tag cur = f_sha256 f)) eqn:Hsha; cbn [negb]; bool_inv.
      * specialize (IH (set_file (S (rd_file_index r)) rem None r) Hf Hdrop Hlt Hs I).
        destruct (advance_files todo _) as [r'|]; cbn in IH.
        -- destruct IH as (? & ? & ? & ? & ? & ? & ? & ? & Ha). split_and!; try done. intros s. rewrite Ha, Hacc.
           unfold accepts. cbn. rewrite Hf, Hdrop. cbn. tauto.
        -- intros s. rewrite Hacc. intros [_ Hok]. apply (IH s). unfold accepts. cbn. by rewrite Hf, Hdrop.
      * intros s. rewrite Hacc. tauto.
    + split_and!; try done.
      split; [done|]. cbn. exists f, todo. split_and!; [done|lia|lia].
Qed.

(** What a step promises. *)
Definition steps_to (r : reader) (chunk : bytes) (r' : reader) (rest : bytes) : Prop :=
  settled r' /\ (length rest < length chunk)%nat /\ rd_remaining r' = rd_remaining r /\ rd_digest r' = rd_digest r /\
  (forall s, accepts r (chunk ++ s) <-> accepts r' (rest ++ s)).

Lemma advance_empty_files_spec files r :
  rd_files r = Some files -> (rd_file_index r <= length files)%nat -> Forall (fun f => 0 <= f_size f) files ->
  match rd_file_digest r, drop (rd_file_index r) files with
  | Some cur, f :: _ => rd_file_remaining r = f_size f - zlen cur /\ 0 <= rd_file_remaining r
  | Some _, [] => False
  | None, _ => True
  end ->
  length (rd_header r) = 4%nat -> rd_manifest_length r = Some (zlen (rd_manifest r)) ->
  match _advance_empty_files r with
  | Ok r' => rd_files r' = Some files /\ settled r' /\ rd_remaining r' = rd_remaining r /\ rd_digest r' = rd_digest r /\
             (forall s, accepts r' s <-> accepts r s)
  | Err _ => forall s, ~ accepts r s
  end.
Proof.
  intros Hf Hi Hs Hc Hh Hm. unfold _advance_empty_files. rewrite Hf.
  pose proof (advance_files_spec files _ r Hf eq_refl Hi Hs Hc) as Ha.
  destruct (advance_files _ r) as [r'|]; [|done]. destruct Ha as (Hf' & Hh' & Hm' & Hl' & Hr' & Hd' & Haf & Hi' & Ha).
  split_and!; try done. unfold settled. rewrite Hf', Hh', Hm', Hl'. done.
Qed.

(** Reading manifest bytes. *)
Lemma manifest_part r n chunk :
  rd_files r = None -> rd_file_index r = 0%nat -> rd_file_digest r = None -> rd_manifest_length r = Some n ->
  length (rd_header r) = 4%nat -> zlen (rd_manifest r) < n ->
  let count := Nat.min (Z.to_nat n - length (rd_manifest r)) (length chunk) in
  let manifest := rd_manifest r ++ take count chunk in
  match (if negb (zlen manifest =? n) then Ok (set_manifest manifest (rd_files r) r, drop count chunk)
         else files ← _workspace_snapshot_manifest manifest cand;
              r ← _advance_empty_files (set_manifest manifest (Some files) r);
              Ok (r, drop count chunk)) with
  | Ok (r', rest) => settled r' /\ (chunk <> [] -> length rest < length chunk)%nat /\ (length rest <= length chunk)%nat /\
      rd_remaining r' = rd_remaining r /\ rd_digest r' = rd_digest r /\ (forall s, accepts r (chunk ++ s) <-> accepts r' (rest ++ s))
  | Err _ => forall s, ~ accepts r (chunk ++ s)
  end.
Proof.
  intros Hf Hi Hd Hn Hh Hlt count manifest.
  assert (Hzl : zlen manifest = zlen (rd_manifest r) + Z.of_nat count).
  { unfold manifest. rewrite zlen_app. unfold zlen at 2. rewrite length_take. lia. }
  assert (Hrest : (chunk <> [] -> length (drop count chunk) < length chunk)%nat /\ (length (drop count chunk) <= length chunk)%nat).
  { rewrite length_drop. split; [|lia]. intros Hne. assert (0 < length chunk)%nat by (destruct chunk; cbn; [done|lia]). unfold zlen in *. lia. }
  destruct Hrest as [Hrest1 Hrest2].
  assert (Hacc : forall s, accepts r (chunk ++ s) <-> body_ok cand n (manifest ++ drop count chunk ++ s)).
  { intros s. unfold accepts. rewrite Hf, Hn. unfold manifest. by rewrite <- app_assoc, (app_assoc (take _ _)), take_drop. }
  destruct (Z.eqb_spec (zlen manifest) n) as [E|E]; cbn [negb].
  - assert (Hbody : forall s, body_ok cand n (manifest ++ s) <-> exists files, _workspace_snapshot_manifest manifest cand = Ok files /\ files_ok files s).
    { intros s. unfold body_ok. assert (Z.to_nat n = length manifest) as -> by (unfold zlen in E; lia).
      rewrite take_app_length, drop_app_length, zlen_app. pose proof (zlen_nonneg s). intuition lia. }
    destruct (_workspace_snapshot_manifest manifest cand) as [files|] eqn:Em; cbn [mbind res_bind].
    + pose proof (advance_empty_files_spec files (set_manifest manifest (Some files) r) eq_refl ltac:(cbn; rewrite Hi; lia) (manifest_sizes _ _ Em)
        ltac:(cbn; by rewrite Hd) Hh ltac:(cbn; by rewrite Hn, E)) as Ha.
      destruct (_advance_empty_files _) as [r'|]; cbn [mbind res_bind].
      * destruct Ha as (Hf' & Hs' & Hr' & Hd' & Ha). split_and!; try done. intros s. rewrite Hacc, Hbody, Ha.
        unfold accepts. cbn. rewrite Hi, Hd. cbn. naive_solver.
      * intros s. rewrite Hacc, Hbody. intros (files' & [= <-] & Hok). apply (Ha (drop count chunk ++ s)).
        unfold accepts. cbn. by rewrite Hi, Hd.
    + intros s. rewrite Hacc, Hbody. by intros (? & ? & _).
  - split_and!; try done.
    + unfold settled. cbn. rewrite Hf, Hn. split_and!; try done. unfold zlen in *. lia.
    + intros s. rewrite Hacc. unfold accepts. cbn. by rewrite Hf, Hn.
Qed.

Lemma app_take_drop (l : bytes) n s : l ++ s = take n l ++ drop n l ++ s.
Proof. by rewrite app_assoc, take_drop. Qed.

(** The header part of a step. *)
Lemma header_part r chunk : settled r -> chunk <> [] ->
  match header_step cand r chunk with
  | Ok (r', rest, true) => steps_to r chunk r' rest
  | Ok (r', rest, false) =>
      (r' = r /\ rest = chunk /\ length (rd_header r) = 4%nat) \/
      (exists n, rd_files r' = None /\ rd_file_index r' = 0%nat /\ rd_file_digest r' = None /\ rd_manifest_length r' = Some n /\
         length (rd_header r') = 4%nat /\ rd_manifest r' = [] /\ 0 < n /\ (length rest < length chunk)%nat /\
         rd_remaining r' = rd_remaining r /\ rd_digest r' = rd_digest r /\
         (forall s, accepts r (chunk ++ s) <-> accepts r' (rest ++ s)))
  | Err _ => forall s, ~ accepts r (chunk ++ s)
  end.
Proof.
  intros Hs Hne. assert (Hc : (0 < length chunk)%nat) by (destruct chunk; cbn; [done|lia]). unfold header_step.
  destruct (Z.ltb_spec (zlen (rd_header r)) 4) as [Hlt|Hge].
  2: { left. split_and!; try done. unfold settled in Hs. unfold zlen in Hge.
       destruct (rd_files r); [by destruct Hs|]. destruct Hs as (_ & _ & Hs). destruct (rd_manifest_length r); [by destruct Hs|]. lia. }
  assert (rd_files r = None /\ rd_manifest_length r = None /\ rd_file_index r = 0%nat /\ rd_file_digest r = None /\ rd_manifest r = [])
    as (Hf & Hl & Hi & Hd & Hm).
  { unfold settled in Hs. unfold zlen in Hlt. destruct (rd_files r); [destruct Hs; lia|]. destruct Hs as (? & ? & Hs).
    destruct (rd_manifest_length r); [destruct Hs; lia|]. naive_solver. }
  set (count := Nat.min _ _). set (header := rd_header r ++ take count chunk).
  assert (Hzl : length header = (length (rd_header r) + count)%nat) by (unfold header; rewrite length_app, length_take; lia).
  assert (Hacc : forall s, accepts r (chunk ++ s) <-> layout_ok (header ++ drop count chunk ++ s)).
  { intros s. unfold accepts. rewrite Hf, Hl. unfold header. by rewrite <- app_assoc, <- app_take_drop. }
  destruct (Z.eqb_spec (zlen header) 4) as [E|E]; cbn [negb].
  - assert (Hlay : forall s, layout_ok (header ++ s) <->
      0 < from_bytes header <= MAX_SESSION_WORKSPACE_MANIFEST_BYTES /\ 4 + from_bytes header <= c_size cand /\ body_ok cand (from_bytes header) s).
    { intros s. unfold layout_ok. rewrite take_app_le, take_ge, drop_app_ge by (unfold zlen in E; lia).
      replace (4 - length header)%nat with 0%nat by (unfold zlen in E; lia). rewrite drop_0, zlen_app.
      pose proof (zlen_nonneg s). cbv zeta. intuition lia. }
    destruct ((0 <? from_bytes header) && (from_bytes header <=? MAX_SESSION_WORKSPACE_MANIFEST_BYTES)) eqn:Hb; cbn [require mbind res_bind].
    2: { intros s. rewrite Hacc, Hlay. apply andb_false_iff in Hb. destruct Hb; bool_inv; lia. }
    bool_inv. destruct (c_size cand <? 4 + from_bytes header) eqn:Hsz; cbn [negb require mbind res_bind]; bool_inv.
    { intros s. rewrite Hacc, Hlay. lia. }
    right. exists (from_bytes header). cbn. split_and!; try done.
    + unfold zlen in E. lia.
    + rewrite length_drop. unfold zlen in *. lia.
    + intros s. rewrite Hacc, Hlay. unfold accepts. cbn. rewrite Hf, Hm. cbn. intuition lia.
  - unfold steps_to. assert (count = length chunk) as Hcount by (unfold zlen in *; lia).
    rewrite Hcount, drop_all. split_and!; try done.
    + unfold settled. cbn. rewrite Hf, Hl. split_and!; try done. unfold zlen in *. rewrite Hzl. lia.
    + intros s. rewrite Hacc, Hcount, drop_all. unfold accepts. cbn. by rewrite Hf, Hl.
Qed.

(** Reading file bytes. *)
Lemma file_part r files chunk : rd_files r = Some files -> settled r -> chunk <> [] ->
  match (r ← _advance_empty_files r;
         require (negb (rd_file_index r =? length (default [] (rd_files r)))%nat) snapshot_invalid;;
         let count := Nat.min (Z.to_nat (rd_file_remaining r)) (length chunk) in
         r ← _advance_empty_files (set_file (rd_file_index r) (rd_file_remaining r - Z.of_nat count)
                                     (Some (default [] (rd_file_digest r) ++ take count chunk)) r);
         Ok (r, drop count chunk)) with
  | Ok (r', rest) => steps_to r chunk r' rest
  | Err _ => forall s, ~ accepts r (chunk ++ s)
  end.
Proof.
  intros Hf Hs Hne. assert (Hc : (0 < length chunk)%nat) by (destruct chunk; cbn; [done|lia]).
  unfold settled in Hs. rewrite Hf in Hs. destruct Hs as (Hh & Hm & [Hsz Hat] & Hi).
  assert (Hpre : match rd_file_digest r, drop (rd_file_index r) files with
    | Some cur, f :: _ => rd_file_remaining r = f_size f - zlen cur /\ 0 <= rd_file_remaining r
    | Some _, [] => False | None, _ => True end).
  { destruct (rd_file_digest r); [|done]. destruct Hat as (f & rest & -> & ? & ?). lia. }
  pose proof (advance_empty_files_spec files r Hf Hi Hsz Hpre Hh Hm) as Ha.
  destruct (_advance_empty_files r) as [r1|]; cbn [mbind res_bind]; [|by intros s; apply Ha].
  destruct Ha as (Hf1 & Hs1 & Hr1 & Hd1 & Ha). assert (Hs1' := Hs1). unfold settled in Hs1'. rewrite Hf1 in Hs1'.
  destruct Hs1' as (Hh1 & Hm1 & [_ Hat1] & Hi1). rewrite Hf1. change (default [] (Some files)) with files.
  destruct (Nat.eqb_spec (rd_file_index r1) (length files)) as [E|E]; cbn [negb require mbind res_bind].
  { intros s. rewrite <- Ha. unfold accepts. rewrite Hf1, drop_ge by lia. cbn [files_ok].
    destruct chunk; [done|]. by destruct (default [] (rd_file_digest r1)). }
  destruct (rd_file_digest r1) as [cur|] eqn:Ed; cbn in Hat1.
  2: { exfalso. apply (f_equal length) in Hat1. rewrite length_drop in Hat1. cbn in Hat1. lia. }
  destruct Hat1 as (f & rest & Edrop & Erem & Hpos). cbv zeta. change (default [] (Some cur)) with cur.
  set (count := Nat.min _ _). set (r2 := set_file _ _ _ r1).
  assert (Hcount : (0 < count)%nat) by lia.
  assert (Hpre2 : match rd_file_digest r2, drop (rd_file_index r2) files with
    | Some cur, f :: _ => rd_file_remaining r2 = f_size f - zlen cur /\ 0 <= rd_file_remaining r2
    | Some _, [] => False | None, _ => True end).
  { cbn. rewrite Edrop, zlen_app. unfold zlen at 2. rewrite length_take. lia. }
  pose proof (advance_empty_files_spec files r2 Hf1 Hi1 Hsz Hpre2 Hh1 Hm1) as Hb.
  assert (H2 : forall s, accepts r (chunk ++ s) <-> accepts r2 (drop count chunk ++ s)).
  { intros s. rewrite <- Ha. unfold accepts. cbn. rewrite Hf1, Ed. cbn. by rewrite <- app_assoc, <- app_take_drop. }
  destruct (_advance_empty_files r2) as [r3|]; cbn [mbind res_bind].
  - destruct Hb as (Hf3 & Hs3 & Hr3 & Hd3 & Hb). unfold steps_to. split_and!; [done| |cbn in *; congruence..|].
    + rewrite length_drop. lia.
    + intros s. by rewrite Hb, H2.
  - intros s. rewrite H2. apply Hb.
Qed.

Lemma consume_step_spec r chunk : settled r -> chunk <> [] ->
  match consume_step cand r chunk with
  | Ok (r', rest) => steps_to r chunk r' rest
  | Err _ => forall s, ~ accepts r (chunk ++ s)
  end.
Proof.
  intros Hs Hne. unfold consume_step. pose proof (header_part r chunk Hs Hne) as Hh.
  destruct (header_step cand r chunk) as [[[r1 chunk1] []]|]; cbn [mbind res_bind]; [done| |done].
  destruct Hh as [(-> & -> & Hl)|(n & Hf & Hi & Hd & Hn & Hl & Hm & Hpos & Hlt & Hr & Hg & Hacc)].
  - destruct (rd_files r) as [files|] eqn:Hf.
    + assert (Hs' := Hs). unfold settled in Hs'. rewrite Hf in Hs'. destruct Hs' as (_ & -> & _). cbn [default].
      rewrite Z.ltb_irrefl. by apply (file_part r files).
    + assert (Hs' := Hs). unfold settled in Hs'. rewrite Hf in Hs'. destruct Hs' as (Hi & Hd & Hs').
      destruct (rd_manifest_length r) as [n|] eqn:Hn; [|destruct Hs'; lia]. destruct Hs' as [_ Hlt].
      cbn [default]. apply Z.ltb_lt in Hlt as Hlt'. unfold id. rewrite Hlt'. pose proof (manifest_part r n chunk Hf Hi Hd Hn Hl Hlt) as Hp. cbv zeta in Hp.
      rewrite Hf in Hp. destruct (if negb _ then _ else _) as [[r' rest]|]; [|done].
      destruct Hp as (? & Hp & ? & ? & ? & ?). split_and!; try done. by apply Hp.
  - rewrite Hn. cbn [default]. unfold id. assert (zlen (rd_manifest r1) < n) as Hlt2 by (rewrite Hm; unfold zlen; cbn; lia).
    apply Z.ltb_lt in Hlt2 as Hlt'. rewrite Hlt'. pose proof (manifest_part r1 n chunk1 Hf Hi Hd Hn Hl Hlt2) as Hp. cbv zeta in Hp.
    rewrite Hf in Hp |- *. destruct (if negb _ then _ else _) as [[r' rest]|].
    + destruct Hp as (? & _ & Hle & Hr' & Hg' & Ha). unfold steps_to. split_and!; [done|lia|congruence|congruence|].
      intros s. by rewrite Hacc, Ha.
    + intros s. rewrite Hacc. apply Hp.
Qed.

Lemma consume_spec fuel r chunk : settled r -> (length chunk <= fuel)%nat ->
  match _consume cand fuel r chunk with
  | Ok r' => settled r' /\ rd_remaining r' = rd_remaining r /\ rd_digest r' = rd_digest r /\ (forall s, accepts r (chunk ++ s) <-> accepts r' s)
  | Err _ => forall s, ~ accepts r (chunk ++ s)
  end.
Proof.
  revert r chunk. induction fuel as [|fuel IH]; intros r [|b chunk] Hs Hf; cbn in Hf; try lia; cbn [_consume]; try by split_and!.
  pose proof (consume_step_spec r (b :: chunk) Hs ltac:(done)) as Hstep.
  destruct (consume_step cand r (b :: chunk)) as [[r1 rest]|]; cbn [mbind res_bind fst snd]; [|done].
  destruct Hstep as (Hs1 & Hlt & Hr & Hd & Ha). cbn in Hlt. specialize (IH r1 rest Hs1 ltac:(lia)).
  destruct (_consume cand fuel r1 rest) as [r2|].
  - destruct IH as (? & ? & ? & Hb). split_and!; [done|congruence|congruence|]. intros s. by rewrite Ha, Hb.
  - intros s. rewrite Ha. apply IH.
Qed.

(** The read loop consumes exactly the announced number of bytes. *)
Lemma read_loop_spec sizes fuel n r source :
  settled r -> 0 <= rd_remaining r -> (Z.to_nat (rd_remaining r) <= fuel)%nat ->
  match read_loop cand sizes fuel n r source with
  | Ok (r', rest) => exists data, source = data ++ rest /\ zlen data = rd_remaining r /\ rd_remaining r' = 0 /\
      rd_digest r' = rd_digest r ++ data /\ settled r' /\ (forall s, accepts r (data ++ s) <-> accepts r' s)
  | Err _ => zlen source < rd_remaining r \/ (rd_remaining r <= zlen source /\ ~ accepts r (take (Z.to_nat (rd_remaining r)) source))
  end.
Proof.
  revert n r source. induction fuel as [|fuel IH]; intros n r source Hs H0 Hf; cbn [read_loop].
  { destruct (Z.eqb_spec (rd_remaining r) 0); [|lia]. exists []. rewrite app_nil_r. split_and!; done. }
  destruct (Z.eqb_spec (rd_remaining r) 0) as [E|E]; [exists []; rewrite app_nil_r; split_and!; done|].
  unfold source_read. set (count := Nat.max _ _).
  assert (Hcount : (1 <= count <= Z.to_nat (rd_remaining r))%nat) by lia.
  destruct (take count source) as [|b chunk'] eqn:Et.
  { left. destruct source; [|destruct count; [lia|done]]. unfold zlen. cbn. lia. }
  rewrite <- Et. set (chunk := take count source) in *. set (r1 := set_read _ _ r).
  assert (Hcl : (1 <= length chunk <= count)%nat) by (rewrite Et; split; [cbn; lia|rewrite <- Et; unfold chunk; rewrite length_take; lia]).
  assert (Hsplit : source = chunk ++ drop count source) by (unfold chunk; by rewrite take_drop).
  pose proof (consume_spec (length chunk) r1 chunk Hs ltac:(lia)) as Hc.
  assert (Hacc1 : forall s, accepts r1 s <-> accepts r s) by done.
  destruct (_consume cand (length chunk) r1 chunk) as [r2|]; cbn [mbind res_bind].
  - destruct Hc as (Hs2 & Hr2 & Hd2 & Ha2). cbn in Hr2, Hd2. unfold zlen in Hr2.
    specialize (IH (S n) r2 (drop count source) Hs2 ltac:(lia) ltac:(lia)).
    destruct (read_loop cand sizes fuel (S n) r2 (drop count source)) as [[r3 rest]|].
    + destruct IH as (data & Hsrc & Hlen & Hr3 & Hd3 & Hs3 & Ha3). exists (chunk ++ data). split_and!; try done.
      * rewrite <- app_assoc, <- Hsrc. done.
      * rewrite zlen_app, Hlen, Hr2. unfold zlen. lia.
      * rewrite Hd3, Hd2. by rewrite app_assoc.
      * intros s. rewrite <- app_assoc, <- Hacc1, Ha2. apply Ha3.
    + assert (Hzs : zlen source = zlen chunk + zlen (drop count source)) by (rewrite Hsplit at 1; apply zlen_app).
      destruct IH as [IH|[Hle IH]]; [left; unfold zlen in *; lia|right]. split; [unfold zlen in *; lia|].
      rewrite <- Hacc1. intros Hok. apply IH. rewrite <- Ha2.
      replace (Z.to_nat (rd_remaining r)) with (length chunk + Z.to_nat (rd_remaining r2))%nat in Hok by lia.
      rewrite Hsplit in Hok. by rewrite take_app_add in Hok.
  - destruct (Z.lt_ge_cases (zlen source) (rd_remaining r)) as [Hlt|Hge]; [by left|right]. split; [done|]. rewrite <- Hacc1.
    rewrite Hsplit, take_app_ge by (unfold zlen in *; lia). apply Hc.
Qed.

Lemma accepts_done r : settled r -> (accepts r [] <-> exists files, rd_files r = Some files /\ rd_file_index r = length files).
Proof.
  intros Hs. unfold settled, accepts in *. destruct (rd_files r) as [files|] eqn:Hf.
  - destruct Hs as (_ & _ & [Hsz Hat] & Hi). rewrite app_nil_r. split.
    + intros Hok. exists files. split; [done|]. destruct (rd_file_digest r) as [cur|]; cbn in *.
      * destruct Hat as (f & rest & E & Hrem & Hpos). rewrite E in Hok. cbn in Hok. lia.
      * apply (f_equal length) in Hat. rewrite length_drop in Hat. cbn in Hat. lia.
    + intros (files' & [= <-] & E). rewrite drop_ge by lia. destruct (rd_file_digest r) as [cur|]; cbn in *; [|done].
      destruct Hat as (f & rest & E' & _). rewrite drop_ge in E' by lia. done.
  - destruct Hs as (_ & _ & Hs). split; [|naive_solver]. destruct (rd_manifest_length r) as [n|].
    + intros [Hle _]. destruct Hs. rewrite app_nil_r in Hle. lia.
    + intros [Hle _]. destruct Hs. unfold zlen in Hle. rewrite app_nil_r in Hle. lia.
Qed.

Lemma layout_valid data : zlen data = c_size cand -> sha256_tag data = c_sha256 cand -> (layout_ok data <-> valid_snapshot cand data).
Proof.
  intros Hl Hsha. unfold layout_ok, valid_snapshot. cbv zeta. split; [intuition|]. intros (_ & _ & H4 & Hn & Hb).
  split_and!; try done; try lia. destruct Hb as [Hle _]. unfold zlen in *. rewrite length_drop in Hle. lia.
Qed.
End proofs.

(** (C10) The streaming reader implements the snapshot specification.  However the upload is cut
    into reads, the reader accepts it exactly when the complete byte string is a valid snapshot: the
    announced size and digest, a manifest of the announced length that is canonical and well formed,
    and after it exactly the listed files with their sizes and digests.  Nothing longer, shorter or
    different is accepted, and every valid snapshot is. *)
Theorem snapshot_reader_correct {PL : Platform} cand sizes data :
  0 <= c_size cand -> (read_snapshot cand sizes data = Ok tt <-> valid_snapshot cand data).
Proof.
  intros H0. unfold read_snapshot.
  assert (Hs : settled (new_reader cand)) by (unfold settled; cbn; split_and!; [done|done|lia|done]).
  assert (Hnew : forall s, accepts cand (new_reader cand) s <-> layout_ok cand s) by done.
  pose proof (read_loop_spec cand sizes (Z.to_nat (c_size cand)) 0 (new_reader cand) data Hs H0 ltac:(cbn; lia)) as Hl.
  destruct (read_loop cand sizes _ 0 _ data) as [[r rest]|e]; cbn [mbind res_bind fst snd].
  - destruct Hl as (read & -> & Hlen & Hrem & Hdig & Hs' & Ha). cbn in Hlen, Hdig.
    pose proof (accepts_done cand r Hs') as Hd. rewrite <- Ha, app_nil_r, Hnew in Hd.
    unfold require_complete. rewrite require_Ok, Hrem, Hdig. cbn [Z.eqb]. split.
    + destruct (rd_files r) as [files|] eqn:Hf; [|done]. intros H. apply andb_prop in H as [H Hrest]. apply andb_prop in H as [Hi Hsha].
      cbn in Hi. apply Nat.eqb_eq in Hi. apply bool_decide_eq_true in Hsha, Hrest. subst rest. rewrite app_nil_r.
      apply layout_valid; [done..|]. apply Hd. eauto.
    + intros Hv. assert (rest = []) as ->.
      { destruct Hv as [Hz _]. rewrite zlen_app in Hz. apply zlen_0. lia. }
      rewrite app_nil_r in Hv. assert (Hsha : sha256_tag read = c_sha256 cand) by apply Hv.
      apply layout_valid in Hv; [|done..]. apply Hd in Hv as (files & -> & ->).
      rewrite Nat.eqb_refl. cbn. by rewrite !bool_decide_eq_true_2.
  - split; [done|]. intros Hv. change (rd_remaining (new_reader cand)) with (c_size cand) in Hl. assert (Hz : zlen data = c_size cand) by apply Hv.
    destruct Hl as [Hl|[_ Hl]]; [lia|]. exfalso. apply Hl. rewrite take_ge by (unfold zlen in Hz; lia). rewrite Hnew.
    apply layout_valid; [done|apply Hv|done].
Qed.

(** ** What an accepted manifest guarantees *)

Definition path_lt (x y : file_entry) : Prop := str_ltb (f_path x) (f_path y) = true.
#[global] Instance path_lt_trans : Transitive path_lt.
Proof. intros x y z. unfold path_lt, str_ltb. apply lex_ltb_trans. Qed.

Lemma str_leb_ltb s t : str_leb s t = false -> str_ltb t s = true.
Proof. unfold str_leb. by intros ?%negb_false_iff. Qed.

Lemma sorted_snoc l (x : file_entry) : StronglySorted path_lt l -> (forall y, last l = Some y -> path_lt y x) -> StronglySorted path_lt (l ++ [x]).
Proof.
  induction 1 as [|y l Hs IH Hall]; intros Hx; cbn; [repeat constructor|]. constructor.
  - apply IH. intros z Hz. apply Hx. destruct l; [done|]. by rewrite last_cons_cons.
  - apply Forall_app. split; [done|]. apply List.Forall_cons; [|constructor]. destruct (last l) as [z|] eqn:E.
    + trans z.
      * rewrite Forall_forall in Hall. apply Hall. apply last_Some in E as [l' ->]. apply elem_of_app. right. by left.
      * apply Hx. destruct l; [done|]. by rewrite last_cons_cons.
    + destruct l; [|by rewrite last_cons in E; destruct (last l)]. by apply Hx.
Qed.

Section manifest.
Context {PL : Platform} (cand : candidate).

Definition file_valid (f : file_entry) : Prop :=
  validate_virtual_path (VStr (f_path f)) = Ok tt /\ require_sha256 "workspace snapshot file sha256" (VStr (f_sha256 f)) = Ok tt /\ 0 <= f_size f.
Record loop_ok (st : manifest_loop) : Prop := {
  lo_sum : ml_expanded st = sum_by f_size (ml_files st);
  lo_valid : Forall file_valid (ml_files st);
  lo_sorted : StronglySorted path_lt (ml_files st);
  lo_previous : ml_previous st = f_path <$> last (ml_files st) }.

Lemma validated_is_text v : validate_virtual_path v = Ok tt -> v = VStr (text_of v).
Proof. unfold validate_virtual_path, require_string. destruct v; cbn; intros H; try done. Qed.
Lemma sha_is_text name v : require_sha256 name v = Ok tt -> v = VStr (text_of v).
Proof. unfold require_sha256. destruct v; cbn; intros H; try done. Qed.
Lemma checked_Ok r u : checked r = Ok u -> r = Ok tt.
Proof. unfold checked, catch. destruct r as [[]|]; done. Qed.

Lemma manifest_file_ok st file st' : loop_ok st -> manifest_file cand st file = Ok st' ->
  loop_ok st' /\ length (ml_files st') = S (length (ml_files st)).
Proof.
  intros [Hsum Hval Hsort Hprev] H. unfold manifest_file in H. apply bind_Ok in H as (? & _ & H).
  apply bind_Ok in H as (? & Hp & H). apply bind_Ok in H as (? & Hsha & H). apply checked_Ok in Hp, Hsha. cbv zeta in H.
  apply bind_Ok in H as (? & _ & H). apply bind_Ok in H as (size & _ & H). apply bind_Ok in H as (exe & _ & H).
  apply bind_Ok in H as (? & Hg & H). apply bind_Ok in H as (? & _ & H). injection H as <-. apply require_Ok in Hg.
  apply negb_true_iff, orb_false_iff in Hg as [Hg Hpv]. apply orb_false_iff in Hg as [_ Hsz]. bool_inv.
  rewrite (validated_is_text _ Hp) in Hp. rewrite (sha_is_text _ _ Hsha) in Hsha.
  set (f := FileEntry _ _ _ _). split; [|cbn; rewrite length_app; cbn; lia]. split; cbn [ml_expanded ml_files ml_previous].
  - rewrite sum_by_app, Hsum. cbn. lia.
  - apply Forall_app. split; [done|]. apply List.Forall_cons; [done|constructor].
  - apply sorted_snoc; [done|]. intros y Hy. rewrite Hprev, Hy in Hpv. cbn in Hpv.
    apply orb_false_iff in Hpv as [? _]. by apply str_leb_ltb.
  - by rewrite last_snoc.
Qed.

Lemma manifest_loop_ok files st st' : loop_ok st -> for_each (manifest_file cand) files st = Ok st' ->
  loop_ok st' /\ length (ml_files st') = (length (ml_files st) + length files)%nat.
Proof.
  revert st. induction files as [|v files IH]; intros st Hst H; cbn in H; [injection H as <-; cbn; split; [done|lia]|].
  apply bind_Ok in H as (st1 & H1 & H). destruct (manifest_file_ok _ _ _ Hst H1) as [Hok Hl].
  destruct (IH _ Hok H) as [Hok' Hl']. split; [done|]. cbn. lia.
Qed.
End manifest.

(** An accepted manifest is consistent.  It lists exactly the announced number of files, at
    least one, in strictly increasing path order (so every path once), each with a path that stays inside
    the workspace, a well-formed digest and a non-negative size, and the sizes add up to the announced
    expanded size. *)
Theorem accepted_manifest_is_consistent {PL : Platform} manifest cand files :
  _workspace_snapshot_manifest manifest cand = Ok files ->
  zlen files = c_file_count cand /\ files <> [] /\ StronglySorted path_lt files /\ Forall file_valid files /\
  sum_by f_size files = c_expanded cand.
Proof.
  unfold _workspace_snapshot_manifest. intros H. do 5 (apply bind_Ok in H as (? & _ & H)).
  apply bind_Ok in H as (values & _ & H). apply bind_Ok in H as (? & Hn & H). apply bind_Ok in H as (st & Hloop & H).
  apply bind_Ok in H as (? & He & H). injection H as <-. apply require_Ok in Hn, He. bool_inv.
  destruct (manifest_loop_ok cand values (ManifestLoop None 0 []) st) as [[Hsum Hval Hsort _] Hlen]; [by split; try constructor|done|].
  cbn in Hlen. unfold zlen in *. split_and!; [lia| |done|done|lia]. intros E. rewrite E in Hlen. cbn in Hlen. lia.
Qed.

(** ** Samples *)

Definition empty_sha : pystr := sha256_tag [].
Definition manifest_entry (path : pystr) (content : bytes) : value :=
  VDict [("path", VStr path); ("sizeBytes", VInt (zlen content)); ("sha256", VStr (sha256_tag content)); ("executable", VBool false)].
Definition manifest_of (files : list (pystr * bytes)) : bytes :=
  default [] (utf8_encode (json_dumps (VDict [("schema", VStr SESSION_WORKSPACE_SNAPSHOT_SCHEMA);
                                              ("files", VList (map (fun f => manifest_entry f.1 f.2) files))]))).
Definition snapshot_of (files : list (pystr * bytes)) : bytes :=
  let m := manifest_of files in be_bytes 4 (zlen m) ++ m ++ concat (map snd files).
Definition candidate_of (files : list (pystr * bytes)) : candidate :=
  let d := snapshot_of files in Candidate 1 (sha256_tag d) (zlen d) (sum_by (fun f => zlen f.2) files) (zlen files).
Definition sample_files : list (pystr * bytes) := [("a.txt", [104; 105]); ("docs/b", []); ("docs/c", [1])].

Lemma snapshot_reader_correct_witness :
  read_snapshot (PL := ascii_platform) (candidate_of sample_files) (fun n => n) (snapshot_of sample_files) = Ok tt /\
  valid_snapshot (PL := ascii_platform) (candidate_of sample_files) (snapshot_of sample_files).
Proof.
  assert (H : read_snapshot (PL := ascii_platform) (candidate_of sample_files) (fun n => n) (snapshot_of sample_files) = Ok tt)
    by (vm_compute; reflexivity).
  split; [exact H|]. apply (snapshot_reader_correct (PL := ascii_platform) (candidate_of sample_files) (fun n => n)); [|exact H].
  apply zlen_nonneg.
Defined.

Lemma accepted_manifest_is_consistent_witness : exists files,
  _workspace_snapshot_manifest (PL := ascii_platform) (manifest_of sample_files) (candidate_of sample_files) = Ok files /\
  zlen files = 3 /\ StronglySorted path_lt files.
Proof.
  destruct (_workspace_snapshot_manifest (PL := ascii_platform) (manifest_of sample_files) (candidate_of sample_files)) as [files|e] eqn:E;
    [|vm_compute in E; discriminate E].
  exists files. split; [reflexivity|]. destruct (accepted_manifest_is_consistent (PL := ascii_platform) _ _ _ E) as (Hn & _ & Hs & _).
  split; [exact Hn|exact Hs].
Defined.

(** The file/directory check of the manifest is incomplete.  Each path is only compared with
    the one before it, but between a file [a] and a path [a/b] other paths may sort, because characters
    such as the dot precede the slash: a manifest that lists [a], [a.txt] and [a/b] is accepted although
    [a] would have to be a file and a directory. *)
Theorem manifest_accepts_file_below_file :
  match _workspace_snapshot_manifest (PL := ascii_platform)
          (manifest_of [("a", []); ("a.txt", []); ("a/b", [])]) (candidate_of [("a", []); ("a.txt", []); ("a/b", [])]) with
  | Ok files => map f_path files = ["a"; "a.txt"; "a/b"]
  | Err _ => False
  end /\
  _workspace_snapshot_manifest (PL := ascii_platform) (manifest_of [("a", []); ("a/b", [])]) (candidate_of [("a", []); ("a/b", [])])
  = Err snapshot_invalid.
Proof. split; vm_compute; reflexivity. Qed.
