(* ===== verification/WorkspaceCommit.v ===== *)
(** * Committing a session workspace

    The resolve and commit endpoints for session workspaces in
    [packages/api/app_core/http/internal.py].  A commit is a first transaction that checks the lease and
    the baseline, an upload outside any transaction, and a publishing transaction that checks everything
    again and advances the session.  The database and the object store may change between the phases:
    each phase is a function of the state at its own moment. *)

From stdpp Require Import base tactics numbers gmap list sorting.
From S2P Require Import Prelude PyStr Table Utf8 Sha256 Platform PyValue Json Schema Access Lifecycle RuntimeClient Contract Snapshot.

#[global] Instance candidate_eq_dec : EqDecision candidate.
Proof. solve_decision. Defined.

Definition SESSION_WORKSPACE_RESOLVE_SCHEMA : pystr := "runtime.session_workspace.resolve.v1".
Definition SESSION_WORKSPACE_COMMIT_SCHEMA : pystr := "runtime.session_workspace.commit.v1".
Definition SESSION_WORKSPACE_LEASE_FIELDS : list pystr := ["schema"; "jobId"; "leaseOwner"; "agentRunId"; "authorizationDigest"].
Definition SESSION_WORKSPACE_COMMIT_FIELDS : list pystr :=
  SESSION_WORKSPACE_LEASE_FIELDS ++ ["snapshotSha256"; "snapshotSizeBytes"; "expandedSizeBytes"; "fileCount"].
Definition MAX_SESSION_WORKSPACE_METADATA_BYTES : Z := 64 * 1024.
Definition MAX_SESSION_WORKSPACE_FILE_COUNT : Z := 2147483647.
Definition SESSION_WORKSPACE_RESTORE_OVERHEAD_BYTES : Z := 64 * 1024.

(** ** Rows *)

(** [runtime.runtime_jobs] *)
Record runtime_job := RuntimeJob {
  rj_session : pystr; rj_kind : pystr; rj_status : pystr; rj_lease_owner : pystr; rj_payload_ref : pystr;
  rj_idempotency_key : pystr; rj_lease_expires_at_ms : Z }.
Record ws_session := WsSession {
  wss_agent : pystr; wss_workspace : pystr; wss_status : life_status; wss_purged : bool;
  wss_current : candidate; wss_storage_key : pystr; wss_last_advanced : option pystr }.
Record ws_agent := WsAgent { wsa_workspace : pystr; wsa_status : life_status; wsa_purged : bool }.
Record ws_run := WsRun {
  wsr_workspace : pystr; wsr_session : pystr; wsr_user : Z; wsr_membership_ref : pystr; wsr_model_config : pystr;
  wsr_status : run_status }.
Record authorization := Authorization { au_payload : value; au_digest : pystr; au_signature : pystr }.

Record wstate := WState {
  w_db : db; w_jobs : gmap pystr runtime_job; w_sessions : gmap pystr ws_session; w_agents : gmap pystr ws_agent;
  w_runs : gmap pystr ws_run; w_authorizations : gmap pystr authorization; w_storage : gmap pystr bytes;
  (** [clock_timestamp()] in milliseconds *)
  w_now_ms : Z }.

Definition set_session (id : pystr) (s : ws_session) (w : wstate) : wstate :=
  WState (w_db w) (w_jobs w) (<[id := s]> (w_sessions w)) (w_agents w) (w_runs w) (w_authorizations w) (w_storage w) (w_now_ms w).
Definition set_storage (key : pystr) (data : bytes) (w : wstate) : wstate :=
  WState (w_db w) (w_jobs w) (w_sessions w) (w_agents w) (w_runs w) (w_authorizations w) (<[key := data]> (w_storage w)) (w_now_ms w).

(** [session_workspace_for_session] is [wss_current]; a dict with the same fields. *)
Definition candidate_of_value (v : value) : candidate :=
  Candidate (int_of (get "generation" v)) (text_of (get "snapshotSha256" v)) (int_of (get "snapshotSizeBytes" v))
    (int_of (get "expandedSizeBytes" v)) (int_of (get "fileCount" v)).

Section commit.
Context {PL : Platform} (SIGNING_KEY : pystr).

(** ** Requests *)

Definition non_control (c : Z) : bool := negb ((c <? 32) || ((127 <=? c) && (c <? 160))).

Definition _workspace_lease_request (body : value) (schema code : pystr) : res wserr value :=
  let invalid := SessionWorkspaceError code 400 in
  require (match body with VDict _ => true | _ => false end && keys_are SESSION_WORKSPACE_LEASE_FIELDS body) invalid;;
  require (is_str schema (get "schema" body)) invalid;;
  catch (require_opaque_ref "agentRunId" (get "agentRunId" body);;
         require_sha256 "authorizationDigest" (get "authorizationDigest" body);;
         require_string "jobId" (get "jobId" body)) (fun _ => Err invalid);;
  owner ← from_option_res invalid (as_str (get "leaseOwner" body));
  encoded ← from_option_res invalid (utf8_encode owner);
  require ((16 <=? zlen encoded) && (zlen encoded <=? 160) && chars_all non_control owner) invalid;;
  match agent_run_lifecycle_job_id (text_of (get "agentRunId" body)) with
  | Ok job_id => require (is_str job_id (get "jobId" body)) invalid
  | Err _ => Err invalid
  end;;
  Ok body.

(** [_read_workspace_bytes]: exactly [size] bytes of the request *)
Definition _read_workspace_bytes (size : Z) (source : bytes) : res wserr (bytes * bytes) :=
  require (size <=? zlen source) (SessionWorkspaceError "session_workspace_commit_invalid" 400);;
  Ok (take (Z.to_nat size) source, drop (Z.to_nat size) source).

(** The fields of a dict, as a new dict. *)
Definition pick (fields : list pystr) (v : value) : value := VDict (map (fun k => (k, get k v)) fields).

Definition _workspace_snapshot_upload_request (content_length : option Z) (source : bytes) (schema : pystr) (fields : list pystr)
    (code : pystr) : res wserr (value * bytes) :=
  let invalid := SessionWorkspaceError code 400 in
  content_length ← from_option_res invalid content_length;
  require (4 <=? content_length) invalid;;
  prefix ← _read_workspace_bytes 4 source;
  let metadata_length := from_bytes prefix.1 in
  require ((0 <? metadata_length) && (metadata_length <=? MAX_SESSION_WORKSPACE_METADATA_BYTES)) invalid;;
  metadata ← _read_workspace_bytes metadata_length prefix.2;
  text ← from_option_res invalid (utf8_decode metadata.1);
  body ← match json_loads text with
         | Ok v => Ok v
         | Err IntTooLong => Err UnexpectedError
         | Err _ => Err invalid
         end;
  require (match body with VDict _ => true | _ => false end && keys_are fields body) invalid;;
  _workspace_lease_request (pick SESSION_WORKSPACE_LEASE_FIELDS body) schema code;;
  let cand := VDict [("generation", VInt 1); ("snapshotSha256", get "snapshotSha256" body);
                     ("snapshotSizeBytes", get "snapshotSizeBytes" body); ("expandedSizeBytes", get "expandedSizeBytes" body);
                     ("fileCount", get "fileCount" body)] in
  catch (validate_session_workspace cand) (fun _ => Err invalid);;
  require (int_of (get "fileCount" cand) <=? MAX_SESSION_WORKSPACE_FILE_COUNT) invalid;;
  require (content_length =? 4 + metadata_length + int_of (get "snapshotSizeBytes" cand)) invalid;;
  Ok (pick fields body, metadata.2).

Definition _workspace_commit_request (content_length : option Z) (source : bytes) : res wserr (value * bytes) :=
  _workspace_snapshot_upload_request content_length source SESSION_WORKSPACE_COMMIT_SCHEMA SESSION_WORKSPACE_COMMIT_FIELDS
    "session_workspace_commit_invalid".

(** ** The locked rows *)

(** [lease_query] *)
Definition leased_session (w : wstate) (body : value) : option pystr :=
  let run_id := text_of (get "agentRunId" body) in
  job ← w_jobs w !! text_of (get "jobId" body);
  if bool_decide (rj_kind job = "agent_run.lifecycle") && bool_decide (rj_status job = "running")
     && bool_decide (rj_lease_owner job = text_of (get "leaseOwner" body))
     && bool_decide (rj_payload_ref job = "record:agent_run:" +:+ run_id)
     && bool_decide (rj_idempotency_key job = "agent_run.lifecycle:" +:+ run_id +:+ ":" +:+ text_of (get "authorizationDigest" body))
     && (w_now_ms w <? rj_lease_expires_at_ms job)
  then Some (rj_session job) else None.

Definition agent_run_binding_matches (payload : value) (run_id : pystr) (run : ws_run) (agent_id : pystr) : bool :=
  is_str run_id (get "agentRunId" payload) && is_str (wsr_workspace run) (get "workspaceId" payload)
  && is_str (wsr_session run) (get "sessionId" payload) && is_str (int_str (wsr_user run)) (get "userId" payload)
  && is_str agent_id (get "agentId" payload) && is_str (wsr_model_config run) (get "modelConfigRef" payload).

(** The authorization checks: digest, signature, request and bindings. *)
Definition authorization_ok (au : authorization) (body : value) (run_id : pystr) (run : ws_run) (agent_id : pystr) : res cexn unit :=
  digest ← authorization_digest (au_payload au);
  _verify_authorization_digest_signature digest SIGNING_KEY (au_signature au);;
  require (bool_decide (digest = au_digest au) && is_str (au_digest au) (get "authorizationDigest" body)
           && agent_run_binding_matches (au_payload au) run_id run agent_id) (CValueError "").

(** The rows are locked and the lease is read again before they are used, so the outcome is that of the
    state the locks protect. *)
Definition _locked_session_workspace_agent_run (w : wstate) (body : value)
  : res wserr (pystr * ws_run * pystr * ws_session * value) :=
  let conflict code := SessionWorkspaceError code 409 in
  session_id ← from_option_res (conflict "session_workspace_lease_lost") (leased_session w body);
  let run_id := text_of (get "agentRunId" body) in
  run ← from_option_res (conflict "session_workspace_agent_run_not_found") (w_runs w !! run_id);
  require (agent_run_membership_is_current (w_db w) (wsr_membership_ref run) (wsr_workspace run) (wsr_user run))
    (conflict "session_workspace_agent_run_not_found");;
  require (bool_decide (session_id = wsr_session run)) (conflict "session_workspace_lease_lost");;
  session ← from_option_res (conflict "session_workspace_session_unavailable") (w_sessions w !! session_id);
  au ← from_option_res (conflict "session_workspace_authorization_invalid") (w_authorizations w !! run_id);
  match authorization_ok au body run_id run (wss_agent session) with
  | Ok _ => Ok tt
  | Err CTypeError => Err UnexpectedError
  | Err _ => Err (conflict "session_workspace_authorization_invalid")
  end;;
  agent ← from_option_res (conflict "session_workspace_session_unavailable") (w_agents w !! wss_agent session);
  require (bool_decide (wsa_workspace agent = wss_workspace session) && bool_decide (wsa_status agent = Active) && negb (wsa_purged agent)
           && (bool_decide (wsr_status run = Queued) || bool_decide (wsr_status run = Running))
           && bool_decide (wss_status session = Active) && negb (wss_purged session))
    (conflict "session_workspace_session_unavailable");;
  Ok (run_id, run, session_id, session, au_payload au).

Definition frozen_workspace (payload : value) : candidate := candidate_of_value (get "sessionWorkspace" payload).

Definition _require_workspace_baseline (session : ws_session) (frozen : candidate) : res wserr unit :=
  require (bool_decide (wss_current session = frozen)) (SessionWorkspaceError "session_workspace_baseline_conflict" 409).

Definition _is_workspace_commit_replay (session : ws_session) (cand : candidate) (run_id storage_key : pystr) : bool :=
  bool_decide (wss_current session = cand) && bool_decide (wss_storage_key session = storage_key)
  && bool_decide (wss_last_advanced session = Some run_id).

Definition _workspace_advanced_by_agent_run (session : ws_session) (frozen : candidate) (run_id : pystr) : bool :=
  (c_generation (wss_current session) =? c_generation frozen + 1) && bool_decide (wss_last_advanced session = Some run_id).

Definition asset_refs_of (payload : value) : list value := default [] (as_list (get "assetRefs" payload)).
Definition tmpfs_of (payload : value) : Z := int_of (get "dataTmpfsBytes" (get "resources" payload)).
Definition _workspace_tmpfs_fits (payload : value) (expanded_size_bytes : Z) : bool :=
  expanded_size_bytes + sum_by (fun item => int_of (get "sizeBytes" item)) (asset_refs_of payload)
  + SESSION_WORKSPACE_RESTORE_OVERHEAD_BYTES <=? tmpfs_of payload.

(** ** Resolve *)

Inductive disposition := Advanced | EmptyWorkspace | Download.
Definition resolve_session_workspace (w : wstate) (body : value) : res wserr (disposition * candidate) :=
  body ← _workspace_lease_request body SESSION_WORKSPACE_RESOLVE_SCHEMA "session_workspace_resolve_invalid";
  locked ← _locked_session_workspace_agent_run w body;
  let '(run_id, _, _, session, payload) := locked in
  let frozen := frozen_workspace payload in
  if _workspace_advanced_by_agent_run session frozen run_id then Ok (Advanced, wss_current session)
  else
    _require_workspace_baseline session frozen;;
    Ok (if c_size frozen =? 0 then EmptyWorkspace else Download, frozen).

(** ** Commit *)

Definition snapshot_storage_key (run : ws_run) (cand : candidate) : pystr :=
  if c_size cand =? 0 then ""
  else "workspaces/" +:+ wsr_workspace run +:+ "/sessions/" +:+ wsr_session run +:+ "/snapshots/" +:+ int_str (c_generation cand)
       +:+ "/" +:+ removeprefix (c_sha256 cand) "sha256:" +:+ ".snapshot".

(** The first transaction: the candidate and where it will be stored. *)
Definition prepare_commit (w : wstate) (body : value) : res wserr (candidate * pystr) :=
  locked ← _locked_session_workspace_agent_run w body;
  let '(run_id, run, _, session, payload) := locked in
  let frozen := frozen_workspace payload in
  let size := int_of (get "snapshotSizeBytes" body) in
  let expanded := int_of (get "expandedSizeBytes" body) in
  require (negb ((tmpfs_of payload <? size) || (tmpfs_of payload <? expanded) || negb (_workspace_tmpfs_fits payload expanded)))
    (SessionWorkspaceError "session_workspace_commit_invalid" 400);;
  let cand := Candidate (c_generation frozen + 1) (text_of (get "snapshotSha256" body)) size expanded (int_of (get "fileCount" body)) in
  let storage_key := snapshot_storage_key run cand in
  require (bool_decide (wss_current session = frozen) || _is_workspace_commit_replay session cand run_id storage_key)
    (SessionWorkspaceError "session_workspace_baseline_conflict" 409);;
  Ok (cand, storage_key).

(** [_WorkspaceSnapshotUpload]: the temporary file's content, once validated. *)
Record upload := Upload { up_content : bytes; up_existing_verified : bool }.

(** [_verify_workspace_snapshot] of a stored object *)
Definition _verify_workspace_snapshot (w : wstate) (cand : candidate) (storage_key : pystr) : res wserr unit :=
  match w_storage w !! storage_key with
  | None => Err (SessionWorkspaceError "session_workspace_snapshot_invalid" 409)
  | Some data => require ((zlen data =? c_size cand) && bool_decide (sha256_tag data = c_sha256 cand))
                   (SessionWorkspaceError "session_workspace_snapshot_invalid" 409)
  end.
(** A missing object first reports a lost lease or owner. *)
Definition _verify_owned_workspace_snapshot (w : wstate) (body : value) (cand : candidate) (storage_key : pystr) : res wserr unit :=
  match w_storage w !! storage_key with
  | None => _locked_session_workspace_agent_run w body;; _verify_workspace_snapshot w cand storage_key
  | Some _ => _verify_workspace_snapshot w cand storage_key
  end.

(** The upload phase; [w] is the object store it meets, [source] the rest of the request. *)
Definition _store_workspace_snapshot (w : wstate) (body : value) (cand : candidate) (storage_key : pystr) (sizes : nat -> nat) (source : bytes)
  : res wserr upload :=
  if c_size cand =? 0 then
    require (bool_decide (source = [])) (SessionWorkspaceError "session_workspace_commit_invalid" 400);;
    Ok (Upload [] false)
  else
    match w_storage w !! storage_key with
    | Some _ =>
        _verify_owned_workspace_snapshot w body cand storage_key;;
        read_snapshot cand sizes source;;
        Ok (Upload source true)
    | None =>
        read_snapshot cand sizes source;;
        Ok (Upload source false)
    end.

(** [os.link]: false when the key is taken *)
Definition _link_workspace_snapshot (w : wstate) (storage_key : pystr) (up : upload) : bool * wstate :=
  if is_empty storage_key || up_existing_verified up then (true, w)
  else match w_storage w !! storage_key with
       | Some _ => (false, w)
       | None => (true, set_storage storage_key (up_content up) w)
       end.

Inductive publication := Committed_ | Idempotent.
#[global] Instance publication_eq_dec : EqDecision publication.
Proof. solve_decision. Defined.

Definition advance_session (session : ws_session) (cand : candidate) (storage_key run_id : pystr) : ws_session :=
  WsSession (wss_agent session) (wss_workspace session) (wss_status session) (wss_purged session) cand storage_key (Some run_id).

(** [publish()] with [advance_session=True]: [None] is a key taken by another writer. *)
Definition publish (w : wstate) (body : value) (cand : candidate) (storage_key : pystr) (up : upload)
  : res wserr (option publication * wstate) :=
  locked ← _locked_session_workspace_agent_run w body;
  let '(run_id, _, session_id, session, payload) := locked in
  let replay := _is_workspace_commit_replay session cand run_id storage_key in
  (if replay then Ok tt else _require_workspace_baseline session (frozen_workspace payload));;
  let '(linked, w') := _link_workspace_snapshot w storage_key up in
  if negb linked then Ok (None, w)
  else if replay then Ok (Some Idempotent, w')
  else Ok (Some Committed_, set_session session_id (advance_session session cand storage_key run_id) w').

(** [_publish_workspace_snapshot]; [w2] and [w3] are the states after the first attempt lost its key. *)
Definition _publish_workspace_snapshot (w1 w2 w3 : wstate) (body : value) (cand : candidate) (storage_key : pystr) (up : upload)
  : res wserr (option publication * wstate) :=
  p ← publish w1 body cand storage_key up;
  match p.1 with
  | Some _ => Ok p
  | None =>
      _verify_owned_workspace_snapshot w2 body cand storage_key;;
      publish w3 body cand storage_key (Upload (up_content up) true)
  end.

(** The endpoint: the disposition and the candidate, or an error; [w1] to [w5] are the states its phases
    meet. *)
Definition commit_session_workspace (w1 w2 w3 w4 w5 : wstate) (content_length : option Z) (sizes : nat -> nat) (request : bytes)
  : res wserr (option publication * candidate * wstate) :=
  r ← _workspace_commit_request content_length request;
  let '(body, source) := r in
  prepared ← prepare_commit w1 body;
  let '(cand, storage_key) := prepared in
  up ← _store_workspace_snapshot w2 body cand storage_key sizes source;
  p ← _publish_workspace_snapshot w3 w4 w5 body cand storage_key up;
  Ok (p.1, cand, p.2).
End commit.
