(* ===== verification/WorkspaceCommitProps.v ===== *)
(** * Properties of workspace commits

    A session's workspace advances by compare-and-swap on its generation: whatever the interleaving of
    requests, at most one commit succeeds per baseline. *)

From stdpp Require Import base tactics numbers gmap list relations.
From S2P Require Import Prelude PyStr Table Utf8 Sha256 Platform PyValue Json Schema Access Lifecycle RuntimeClient Contract ContractProps Snapshot SnapshotProps WorkspaceCommit.

Section props.
Context {PL : Platform} (SIGNING_KEY : pystr).

(** What the lock hands out belongs to the state. *)
Lemma locked_spec w body run_id run sid session payload :
  _locked_session_workspace_agent_run SIGNING_KEY w body = Ok (run_id, run, sid, session, payload) ->
  run_id = text_of (get "agentRunId" body) /\ w_sessions w !! sid = Some session /\ w_runs w !! run_id = Some run /\
  sid = wsr_session run /\ (exists au, w_authorizations w !! run_id = Some au /\ payload = au_payload au).
Proof.
  unfold _locked_session_workspace_agent_run. intros H. cbv zeta in H.
  apply bind_Ok in H as (s1 & Hlease & H). apply bind_Ok in H as (run1 & Hrun & H). apply bind_Ok in H as (? & _ & H).
  apply bind_Ok in H as (? & Hsid & H). apply bind_Ok in H as (sess & Hsess & H). apply bind_Ok in H as (au & Hau & H).
  apply bind_Ok in H as (? & _ & H). apply bind_Ok in H as (? & _ & H). apply bind_Ok in H as (? & _ & H).
  apply from_option_res_Ok in Hrun, Hsess, Hau. apply require_Ok, bool_decide_eq_true in Hsid. injection H as <- <- <- <- <-.
  split_and!; try done. eauto.
Qed.

(** Every outcome of a publishing transaction. *)
Lemma publish_spec w body cand key up r w' : publish SIGNING_KEY w body cand key up = Ok (r, w') ->
  exists run_id run sid session payload,
    _locked_session_workspace_agent_run SIGNING_KEY w body = Ok (run_id, run, sid, session, payload) /\
    w_authorizations w' = w_authorizations w /\
    (r <> Some Committed_ /\ w_sessions w' = w_sessions w \/
     r = Some Committed_ /\ wss_current session = frozen_workspace payload /\
     w_sessions w' = <[sid := advance_session session cand key run_id]> (w_sessions w)).
Proof.
  unfold publish. intros H. apply bind_Ok in H as ([[[[run_id run] sid] session] payload] & Hl & H). cbv zeta in H.
  exists run_id, run, sid, session, payload. split; [done|]. apply bind_Ok in H as (u & Hb & H).
  assert (Hlink : forall b w1, _link_workspace_snapshot w key up = (b, w1) -> w_authorizations w1 = w_authorizations w /\ w_sessions w1 = w_sessions w).
  { unfold _link_workspace_snapshot. intros b w1. repeat case_match; intros [= <- <-]; done. }
  destruct (_link_workspace_snapshot w key up) as [linked w1] eqn:El. destruct (Hlink _ _ eq_refl) as [Ha Hs].
  destruct linked; cbn [negb] in H; [|injection H as <- <-; split; [done|by left]].
  destruct (_is_workspace_commit_replay session cand run_id key) eqn:Er; injection H as <- <-.
  - split; [done|]. by left.
  - split; [done|]. right. cbn. rewrite Hs. unfold _require_workspace_baseline in Hb. apply require_Ok, bool_decide_eq_true in Hb. done.
Qed.

(** Requests as the endpoint runs them, and everything else the system does to these rows: sessions keep
    their workspace columns and authorizations are immutable. *)
Inductive step : wstate -> wstate -> Prop :=
| step_publish w0 w body cand key up r w' :
    prepare_commit SIGNING_KEY w0 body = Ok (cand, key) -> w_authorizations w0 ⊆ w_authorizations w ->
    publish SIGNING_KEY w body cand key up = Ok (r, w') -> step w w'
| step_other w w' :
    w_authorizations w ⊆ w_authorizations w' ->
    (forall sid s, w_sessions w !! sid = Some s -> exists s', w_sessions w' !! sid = Some s' /\
       wss_current s' = wss_current s /\ wss_storage_key s' = wss_storage_key s /\ wss_last_advanced s' = wss_last_advanced s) ->
    step w w'.

(** A prepared candidate is the successor of the baseline its run was authorized with. *)
Lemma prepared_generation w0 w body cand key up w' :
  prepare_commit SIGNING_KEY w0 body = Ok (cand, key) -> w_authorizations w0 ⊆ w_authorizations w ->
  publish SIGNING_KEY w body cand key up = Ok (Some Committed_, w') ->
  exists run_id run sid session payload,
    _locked_session_workspace_agent_run SIGNING_KEY w body = Ok (run_id, run, sid, session, payload) /\
    w_sessions w !! sid = Some session /\ wss_current session = frozen_workspace payload /\
    c_generation cand = c_generation (frozen_workspace payload) + 1 /\
    w_sessions w' = <[sid := advance_session session cand key run_id]> (w_sessions w) /\ w_authorizations w' = w_authorizations w.
Proof.
  intros Hp Hsub Hpub. destruct (publish_spec _ _ _ _ _ _ _ Hpub) as (run_id & run & sid & session & payload & Hl & Ha & [[? _]|(_ & Hb & Hs)]); [done|].
  exists run_id, run, sid, session, payload. destruct (locked_spec _ _ _ _ _ _ _ Hl) as (Hid & Hsess & _ & _ & (au & Hau & Hpay)).
  split_and!; try done. unfold prepare_commit in Hp. apply bind_Ok in Hp as ([[[[run0 r0] sid0] s0] payload0] & Hl0 & Hp). cbv zeta in Hp.
  apply bind_Ok in Hp as (? & _ & Hp). apply bind_Ok in Hp as (? & _ & Hp). injection Hp as <- _.
  destruct (locked_spec _ _ _ _ _ _ _ Hl0) as (Hid0 & _ & _ & _ & (au0 & Hau0 & Hpay0)).
  assert (au0 = au) as -> by (pose proof (lookup_weaken _ _ _ _ Hau0 Hsub); congruence). cbn. congruence.
Qed.

(** Generations never go back. *)
Lemma step_generation w w' sid s : step w w' -> w_sessions w !! sid = Some s ->
  exists s', w_sessions w' !! sid = Some s' /\ c_generation (wss_current s) <= c_generation (wss_current s').
Proof.
  intros [w0 w1 body cand key up r w2 Hp Hsub Hpub|w1 w2 Ha Hs] Hsid.
  - destruct (decide (r = Some Committed_)) as [->|Hr].
    + destruct (prepared_generation _ _ _ _ _ _ _ Hp Hsub Hpub) as (run_id & run & sid' & session & payload & _ & Hsess & Hb & Hg & -> & _).
      destruct (decide (sid = sid')) as [<-|Hne].
      * rewrite lookup_insert, decide_True by done. eexists. split; [done|]. cbn. assert (s = session) as -> by congruence. rewrite Hb. lia.
      * rewrite lookup_insert_ne by done. eauto with lia.
    + destruct (publish_spec _ _ _ _ _ _ _ Hpub) as (? & ? & ? & ? & ? & _ & _ & [[_ ->]|[? _]]); [eauto with lia|done].
  - destruct (Hs _ _ Hsid) as (s' & Hs' & Hc & _). exists s'. split; [done|]. rewrite Hc. lia.
Qed.
Lemma steps_generation w w' sid s : rtc step w w' -> w_sessions w !! sid = Some s ->
  exists s', w_sessions w' !! sid = Some s' /\ c_generation (wss_current s) <= c_generation (wss_current s').
Proof.
  intros Hr. revert s. induction Hr as [|w w1 w2 H1 _ IH]; intros s Hs; [eauto with lia|].
  destruct (step_generation _ _ _ _ H1 Hs) as (s1 & Hs1 & Hle). destruct (IH _ Hs1) as (s2 & Hs2 & Hle2). eauto with lia.
Qed.
End props.


(** (C3) A baseline is committed at most once.  Once some run has advanced a session's workspace from
    a baseline generation, then after any interleaving of commits, retries and other activity no run
    authorized with that baseline generation, the same one or another, can commit to the session
    again. *)
Theorem baseline_committed_at_most_once {PL : Platform} key w0 w body cand storage_key up w1 w2 run_id run sid session payload
    body' cand' storage_key' up' run_id' run' session' payload' :
  prepare_commit key w0 body = Ok (cand, storage_key) -> w_authorizations w0 ⊆ w_authorizations w ->
  publish key w body cand storage_key up = Ok (Some Committed_, w1) ->
  _locked_session_workspace_agent_run key w body = Ok (run_id, run, sid, session, payload) ->
  rtc (step key) w1 w2 ->
  _locked_session_workspace_agent_run key w2 body' = Ok (run_id', run', sid, session', payload') ->
  c_generation (frozen_workspace payload') = c_generation (frozen_workspace payload) ->
  forall w3, publish key w2 body' cand' storage_key' up' <> Ok (Some Committed_, w3).
Proof.
  intros Hp Hsub Hpub Hl Hsteps Hl' Hgen w3 Hpub'.
  destruct (prepared_generation key _ _ _ _ _ _ _ Hp Hsub Hpub) as (? & ? & ? & ? & ? & E & _ & Hb & Hg & Hs1 & _).
  rewrite Hl in E. injection E as <- <- <- <- <-.
  destruct (steps_generation key w1 w2 sid (advance_session session cand storage_key run_id) Hsteps) as (s2 & Hs2 & Hle).
  { rewrite Hs1, lookup_insert. by rewrite decide_True. }
  destruct (publish_spec key _ _ _ _ _ _ _ Hpub') as (? & ? & ? & ? & ? & E & _ & [[? _]|(_ & Hb' & _)]); [done|].
  rewrite Hl' in E. injection E as <- <- <- <- <-.
  destruct (locked_spec key _ _ _ _ _ _ _ Hl') as (_ & Hsess & _). rewrite Hs2 in Hsess. injection Hsess as ->.
  rewrite Hb' in Hle. change (wss_current (advance_session session cand storage_key run_id)) with cand in Hle. lia.
Qed.

(** ** A sample commit *)

Definition commit_key : pystr := "key".
(** the sandbox of [sample_payload] is too small for a restore; one with room *)
Definition roomy (v : value) : value :=
  match v with
  | VDict d => VDict (map (fun kv => if bool_decide (kv.1 = "resources") then
      ("resources", VDict [("memoryBytes", VInt 1000); ("cpuMilli", VInt 500); ("pidsLimit", VInt 64); ("dataTmpfsBytes", VInt 1000000)])
      else kv) d)
  | v => v
  end.
Definition roomy_authorization : authorization :=
  Authorization (roomy sample_payload)
    match authorization_digest (PL := ascii_platform) (roomy sample_payload) with Ok d => d | Err _ => "" end
    match authorization_signature (PL := ascii_platform) (roomy sample_payload) commit_key with Ok s => s | Err _ => "" end.
Definition roomy_body : value :=
  VDict [("schema", VStr SESSION_WORKSPACE_COMMIT_SCHEMA); ("jobId", VStr "agent_run.lifecycle:run-1"); ("leaseOwner", VStr "worker-0123456789");
         ("agentRunId", VStr "run-1"); ("authorizationDigest", VStr (au_digest roomy_authorization));
         ("snapshotSha256", VStr ""); ("snapshotSizeBytes", VInt 0); ("expandedSizeBytes", VInt 0); ("fileCount", VInt 0)].
Definition commit_db : db :=
  Db ∅ {["ws-1" := Workspace "team" WorkspaceActive]} {["m-7" := Membership "ws-1" 7 Member None 0]} ∅ ∅ ∅ ∅ ∅ ∅ ∅ ∅ ∅ ∅ ∅.
Definition commit_state : wstate :=
  WState commit_db
    {["agent_run.lifecycle:run-1" := RuntimeJob "session-1" "agent_run.lifecycle" "running" "worker-0123456789" "record:agent_run:run-1"
        ("agent_run.lifecycle:run-1:" +:+ au_digest roomy_authorization) 1000]}
    {["session-1" := WsSession "agent-1" "ws-1" Active false (Candidate 0 "" 0 0 0) "" None]}
    {["agent-1" := WsAgent "ws-1" Active false]}
    {["run-1" := WsRun "ws-1" "session-1" 7 "m-7" "model-1" Running]}
    {["run-1" := roomy_authorization]} ∅ 10.

Definition empty_commit (w : wstate) : res wserr (option publication * wstate) :=
  publish (PL := ascii_platform) commit_key w roomy_body (Candidate 1 "" 0 0 0) "" (Upload [] false).
Definition advanced_state : wstate := set_session "session-1" (WsSession "agent-1" "ws-1" Active false (Candidate 1 "" 0 0 0) "" (Some "run-1")) commit_state.

Lemma sample_published : empty_commit commit_state = Ok (Some Committed_, advanced_state).
Proof. vm_compute. reflexivity. Qed.
Lemma sample_prepared : prepare_commit (PL := ascii_platform) commit_key commit_state roomy_body = Ok (Candidate 1 "" 0 0 0, "").
Proof. vm_compute. reflexivity. Qed.
Definition sample_run_row : ws_run := WsRun "ws-1" "session-1" 7 "m-7" "model-1" Running.
Lemma sample_locked : _locked_session_workspace_agent_run (PL := ascii_platform) commit_key commit_state roomy_body =
  Ok ("run-1", sample_run_row, "session-1", WsSession "agent-1" "ws-1" Active false (Candidate 0 "" 0 0 0) "" None, roomy sample_payload).
Proof. vm_compute. reflexivity. Qed.
Lemma sample_locked_after : _locked_session_workspace_agent_run (PL := ascii_platform) commit_key advanced_state roomy_body =
  Ok ("run-1", sample_run_row, "session-1", WsSession "agent-1" "ws-1" Active false (Candidate 1 "" 0 0 0) "" (Some "run-1"), roomy sample_payload).
Proof. vm_compute. reflexivity. Qed.

Lemma baseline_committed_at_most_once_witness :
  empty_commit commit_state = Ok (Some Committed_, advanced_state) /\
  forall w3, empty_commit advanced_state <> Ok (Some Committed_, w3).
Proof.
  split; [exact sample_published|].
  exact (baseline_committed_at_most_once (PL := ascii_platform) commit_key commit_state commit_state roomy_body (Candidate 1 "" 0 0 0) ""
    (Upload [] false) advanced_state advanced_state _ _ _ _ _ roomy_body (Candidate 1 "" 0 0 0) "" (Upload [] false) _ _ _ _
    sample_prepared (reflexivity _) sample_published sample_locked (rtc_refl _ _) sample_locked_after eq_refl).
Defined.
