(* ===== verification/Quota.v ===== *)
(** * Provider quota

    [packages/api/app_core/model_adapter/quota.py]: every attempt against a hosted model provider holds one
    of the quota domain's slots, a PostgreSQL session advisory lock on its own connection.  Attempts run
    concurrently: each atomic action of an attempt is a step, and the steps of attempts, clock and
    configuration interleave freely.  Times are integer milliseconds, as the database stores them; the code
    compares them as floats of seconds, which are exact enough to order milliseconds below 2^53. *)

From stdpp Require Import base tactics numbers gmap list sets relations.
From S2P Require Import Prelude PyStr Json.

(** [ModelQuotaDomain] *)
Record domain := Domain { dm_max_concurrent : Z; dm_enabled : bool; dm_cooldown_until_ms : Z }.

Inductive phase :=
| Polling
(** in the loop of [_try_lock], about to try a slot *)
| Trying (candidate limit : Z)
(** a slot is locked, the cooldown not yet checked again *)
| Holding (slot : Z)
(** inside the [with] block: the provider is called *)
| Attempting (slot : Z)
| Finished (error : option pystr).
#[global] Instance phase_eq_dec : EqDecision phase.
Proof. solve_decision. Defined.

(** One [model_attempt] and its own connection, the one that holds the advisory lock ([at_connected]: the
    connection is alive). *)
Record attempt := Attempt { at_key : Z; at_phase : phase; at_cancelled : bool; at_connected : bool }.

Record qstate := Q {
  q_domains : gmap Z domain;
  q_attempts : gmap nat attempt;
  (** advisory locks: (domain key, slot) held by the connection of an attempt *)
  q_locks : gmap (Z * Z) nat;
  q_now_ms : Z }.

Definition with_phase (id : nat) (a : attempt) (p : phase) (q : qstate) : qstate :=
  Q (q_domains q) (<[id := Attempt (at_key a) p (at_cancelled a) (at_connected a)]> (q_attempts q)) (q_locks q) (q_now_ms q).
Definition with_locks (l : gmap (Z * Z) nat) (q : qstate) : qstate := Q (q_domains q) (q_attempts q) l (q_now_ms q).

(** [pg_try_advisory_lock(-key, slot)]: granted unless another connection holds it *)
Definition try_advisory_lock (q : qstate) (id : nat) (key slot : Z) : option qstate :=
  match q_locks q !! (key, slot) with
  | Some owner => if decide (owner = id) then Some q else None
  | None => Some (with_locks (<[(key, slot) := id]> (q_locks q)) q)
  end.
Definition _unlock (q : qstate) (id : nat) (key slot : Z) : qstate :=
  if decide (q_locks q !! (key, slot) = Some id) then with_locks (delete (key, slot) (q_locks q)) q else q.
(** closing a connection releases its locks *)
Definition close_connection (id : nat) (q : qstate) : qstate := with_locks (filter (fun kv => kv.2 <> id) (q_locks q)) q.

Definition finish (id : nat) (a : attempt) (error : option pystr) (q : qstate) : qstate :=
  close_connection id (with_phase id a (Finished error) q).

(** [_domain_state]: the limit and the cooldown, or the error it raises *)
Definition _domain_state (q : qstate) (key : Z) : res pystr (Z * Z) :=
  match q_domains q !! key with
  | None => Err "model_quota_domain_required"
  | Some d => if dm_enabled d then Ok (dm_max_concurrent d, dm_cooldown_until_ms d) else Err "model_quota_domain_disabled"
  end.

(** The next action of an attempt that waits for its slot.  The domain is read over Django's connection: only
    the statements on the attempt's own connection fail once that connection is lost. *)
Definition model_attempt_step (id : nat) (a : attempt) (q : qstate) : qstate :=
  match at_phase a with
  | Polling =>
      if at_cancelled a then finish id a (Some "model_run_cancelled") q
      else match _domain_state q (at_key a) with
           | Err e => finish id a (Some e) q
           | Ok (limit, cooldown_until) =>
               if cooldown_until <=? q_now_ms q then with_phase id a (Trying 1 limit) q else q
           end
  | Trying candidate limit =>
      if limit <? candidate then with_phase id a Polling q
      else if negb (at_connected a) then finish id a (Some "OperationalError") q
      else match try_advisory_lock q id (at_key a) candidate with
           | Some q' => with_phase id a (Holding candidate) q'
           | None => with_phase id a (Trying (candidate + 1) limit) q
           end
  | Holding slot =>
      match _domain_state q (at_key a) with
      | Err e => finish id a (Some e) q
      | Ok (_, cooldown_until) =>
          if (cooldown_until <=? q_now_ms q) && negb (at_cancelled a) then with_phase id a (Attempting slot) q
          else if negb (at_connected a) then finish id a (Some "OperationalError") q
          else with_phase id a Polling (_unlock q id (at_key a) slot)
      end
  | Attempting _ | Finished _ => q
  end.

(** [_retry_after_delay] in milliseconds, for a number of seconds; [http_date_ms] is what
    [parsedate_to_datetime] reads from a text that is no number.  The clock is read once, and the upper bound is
    compared exactly where the code rounds a float of about 9.2 * 10^15 seconds. *)
Definition MAX_BIGINT : Z := 2 ^ 63 - 1.
Definition _retry_after_delay (http_date_ms : pystr -> option Z) (q : qstate) (value : option pystr) : option Z :=
  value ← value;
  if is_empty value then None
  else
    let value := strip value in
    delay ← (if negb (is_empty value) && chars_all is_digit value then
               if INT_MAX_STR_DIGITS <? str_len value then None else Some (digits_value (code_points value) * 1000)
             else (fun date => date - q_now_ms q) <$> http_date_ms value);
    let delay := Z.max delay 0 in
    if MAX_BIGINT - q_now_ms q <? delay then None else Some delay.

(** [ModelProviderError]: its code, HTTP status and Retry-After header *)
Record provider_error := ProviderError { pe_code : pystr; pe_status : option Z; pe_retry_after : option pystr }.

Definition _observe_error (http_date_ms : pystr -> option Z) (key : Z) (e : provider_error) (q : qstate) : qstate :=
  let transient := match pe_status e with Some s => (s =? 408) || (s =? 429) || (500 <=? s) | None => false end in
  if negb transient then q
  else match _retry_after_delay http_date_ms q (pe_retry_after e), q_domains q !! key with
       | Some delay, Some d =>
           Q (<[key := Domain (dm_max_concurrent d) (dm_enabled d) (Z.max (dm_cooldown_until_ms d) (q_now_ms q + delay))]> (q_domains q))
             (q_attempts q) (q_locks q) (q_now_ms q)
       | _, _ => q
       end.

(** The end of the [with] block: normal or with a provider error. *)
Definition end_attempt (http_date_ms : pystr -> option Z) (id : nat) (a : attempt) (e : option provider_error) (q : qstate) : qstate :=
  let q := match e with Some e => _observe_error http_date_ms (at_key a) e q | None => q end in
  finish id a (pe_code <$> e) q.

Definition lose_connection (id : nat) (a : attempt) (q : qstate) : qstate :=
  close_connection id
    (Q (q_domains q) (<[id := Attempt (at_key a) (at_phase a) (at_cancelled a) false]> (q_attempts q)) (q_locks q) (q_now_ms q)).

(** Everything that can happen next. *)
Inductive qstep (http_date_ms : pystr -> option Z) : qstate -> qstate -> Prop :=
| q_start q id key : q_attempts q !! id = None ->
    qstep http_date_ms q (Q (q_domains q) (<[id := Attempt key Polling false true]> (q_attempts q)) (q_locks q) (q_now_ms q))
| q_attempt q id a : q_attempts q !! id = Some a -> qstep http_date_ms q (model_attempt_step id a q)
| q_end q id a slot e : q_attempts q !! id = Some a -> at_phase a = Attempting slot ->
    qstep http_date_ms q (end_attempt http_date_ms id a e q)
(** the API process dies, with the provider call it makes *)
| q_die q id a : q_attempts q !! id = Some a -> qstep http_date_ms q (finish id a None q)
(** the advisory-lock connection is lost: the server releases its locks, the attempt goes on *)
| q_disconnect q id a : q_attempts q !! id = Some a -> qstep http_date_ms q (lose_connection id a q)
| q_cancel q id a : q_attempts q !! id = Some a ->
    qstep http_date_ms q (Q (q_domains q) (<[id := Attempt (at_key a) (at_phase a) true (at_connected a)]> (q_attempts q)) (q_locks q) (q_now_ms q))
| q_tick q now : q_now_ms q <= now -> qstep http_date_ms q (Q (q_domains q) (q_attempts q) (q_locks q) now)
(** an administrator creates or edits a domain *)
| q_configure q key d : 1 <= dm_max_concurrent d <= 64 ->
    qstep http_date_ms q (Q (<[key := d]> (q_domains q)) (q_attempts q) (q_locks q) (q_now_ms q)).

(** ** At most the configured number of concurrent attempts *)

Definition limit_at_most (key bound : Z) (q : qstate) : Prop :=
  forall d, q_domains q !! key = Some d -> dm_max_concurrent d <= bound.
(** A step of a history in which the domain's limit never exceeds [bound]. *)
Definition bounded_step (http_date_ms : pystr -> option Z) (key bound : Z) (q q' : qstate) : Prop :=
  qstep http_date_ms q q' /\ limit_at_most key bound q'.

(** the slot an attempt has locked *)
Definition slot_of (p : phase) : option Z := match p with Holding s | Attempting s => Some s | _ => None end.
Definition is_attempting (p : phase) : bool := match p with Attempting _ => true | _ => false end.
(** the attempts that are inside their [with] block *)
Definition calling_provider (key : Z) (q : qstate) : gset nat :=
  dom (filter (fun ia => at_key ia.2 = key /\ is_attempting (at_phase ia.2) = true) (q_attempts q)).
(** those of them whose lock connection is alive, and those that lost it *)
Definition calling_connected (key : Z) (q : qstate) : gset nat :=
  dom (filter (fun ia => (at_key ia.2 = key /\ is_attempting (at_phase ia.2) = true) /\ at_connected ia.2 = true) (q_attempts q)).
Definition calling_disconnected (key : Z) (q : qstate) : gset nat :=
  dom (filter (fun ia => (at_key ia.2 = key /\ is_attempting (at_phase ia.2) = true) /\ at_connected ia.2 = false) (q_attempts q)).

Section bound.
Context (http_date_ms : pystr -> option Z) (key bound : Z).

(** Whoever has a slot on a live connection holds its lock, and slots of the domain stay within the bound. *)
Record slots_locked (q : qstate) : Prop := {
  sl_held : forall id a s, q_attempts q !! id = Some a -> slot_of (at_phase a) = Some s -> at_connected a = true ->
    q_locks q !! (at_key a, s) = Some id /\ (at_key a = key -> 1 <= s <= bound);
  sl_trying : forall id a c limit, q_attempts q !! id = Some a -> at_phase a = Trying c limit -> at_key a = key -> 1 <= c /\ limit <= bound;
  sl_limit : limit_at_most key bound q }.

(** An attempt without a slot changes its phase to one without a slot. *)
Lemma slots_phase q id a p : slots_locked q -> q_attempts q !! id = Some a -> slot_of p = None ->
  (forall c limit, p = Trying c limit -> at_key a = key -> 1 <= c /\ limit <= bound) -> slots_locked (with_phase id a p q).
Proof.
  intros [Hh Ht Hl] Ha Hp Hc. split; cbn; [| |done].
  - intros id' a' s [[<- <-]|[Hne Ha']]%lookup_insert_Some Hs; [cbn in Hs; congruence|eauto].
  - intros id' a' c limit [[<- <-]|[Hne Ha']]%lookup_insert_Some Hs Hk; [cbn in *; eauto|eauto].
Qed.

(** Releasing locks only an attempt without a slot, or without its connection, may own. *)
Lemma slots_release (q : qstate) (id : nat) (l : gmap (Z * Z) nat) : slots_locked q ->
  (forall a s, q_attempts q !! id = Some a -> at_connected a = true -> slot_of (at_phase a) <> Some s) ->
  (forall ks owner, q_locks q !! ks = Some owner -> owner <> id -> l !! ks = Some owner) -> slots_locked (with_locks l q).
Proof.
  intros [Hh Ht Hl] Hno Hkeep. split; cbn; [|done|done]. intros id' a' s Ha Hs Hcn. destruct (Hh _ _ _ Ha Hs Hcn) as [Hlk Hb].
  split; [|done]. apply Hkeep; [done|]. intros ->. by eapply Hno.
Qed.

Lemma slots_finish q id a e : slots_locked q -> q_attempts q !! id = Some a -> slots_locked (finish id a e q).
Proof.
  intros Hs Ha. unfold finish, close_connection. apply (slots_release _ id).
  - by apply slots_phase.
  - cbn. intros a' s [[_ <-]|[Hne _]]%lookup_insert_Some; [done|done].
  - intros ks owner Hk Hne. cbn in *. by apply map_lookup_filter_Some.
Qed.

Lemma slots_observe q e : slots_locked q -> slots_locked (_observe_error http_date_ms key e q) /\
  forall k, slots_locked (_observe_error http_date_ms k e q).
Proof.
  assert (H : forall k, slots_locked q -> slots_locked (_observe_error http_date_ms k e q)).
  { intros k [Hh Ht Hl]. unfold _observe_error. repeat case_match; try by split. split; [done..|].
    intros d' Hd. cbn in Hd. apply lookup_insert_Some in Hd as [[<- <-]|[Hne Hd]]; cbn; eauto. }
  auto.
Qed.

Lemma slots_attempt q id a : slots_locked q -> q_attempts q !! id = Some a -> slots_locked (model_attempt_step id a q).
Proof.
  intros Hs Ha. unfold model_attempt_step. destruct (at_phase a) as [|c limit|slot|slot|e] eqn:Hp; try done.
  - destruct (at_cancelled a); [by apply slots_finish|]. unfold _domain_state.
    destruct (q_domains q !! at_key a) as [d|] eqn:Hd; [|by apply slots_finish]. destruct (dm_enabled d); [|by apply slots_finish].
    case_match; [|done]. apply slots_phase; try done. intros c l [= <- <-] Hk. rewrite Hk in Hd. split; [lia|]. by apply (sl_limit q Hs).
  - destruct (Z.ltb_spec limit c); [by apply slots_phase|].
    destruct (negb (at_connected a)); [by apply slots_finish|]. pose proof (fun Hk => sl_trying q Hs id a c limit Ha Hp Hk) as Hc.
    unfold try_advisory_lock. destruct (q_locks q !! (at_key a, c)) as [owner|] eqn:Hlk.
    + destruct (decide (owner = id)) as [->|Hne].
      * destruct Hs as [Hh Ht Hl]. split; cbn; [| |done].
        -- intros id' a' s [[<- <-]|[Hne Ha']]%lookup_insert_Some Hsl Hcn; [|eauto]. cbn in *. injection Hsl as <-. split; [done|]. intros Hk. destruct (Hc Hk). lia.
        -- intros id' a' c' l' [[<- <-]|[Hne Ha']]%lookup_insert_Some; [done|eauto].
      * apply slots_phase; try done. intros c' l' [= <- <-] Hk. destruct (Hc Hk). lia.
    + destruct Hs as [Hh Ht Hl]. split; cbn; [| |done].
      * intros id' a' s [[<- <-]|[Hne Ha']]%lookup_insert_Some Hsl Hcn; cbn in *.
        -- injection Hsl as <-. rewrite lookup_insert, decide_True by done. split; [done|]. intros Hk. destruct (Hc Hk). lia.
        -- destruct (Hh _ _ _ Ha' Hsl Hcn) as [Hl' Hb]. rewrite lookup_insert_ne; [done|]. intros E. rewrite <- E in Hl'. congruence.
      * intros id' a' c' l' [[<- <-]|[Hne Ha']]%lookup_insert_Some; [done|eauto].
  - unfold _domain_state. destruct (q_domains q !! at_key a) as [d|]; [|by apply slots_finish]. destruct (dm_enabled d); [|by apply slots_finish].
    destruct (_ && _).
    + destruct Hs as [Hh Ht Hl]. split; cbn; [| |done].
      * intros id' a' s [[<- <-]|[Hne Ha']]%lookup_insert_Some Hsl Hcn; [|eauto]. cbn in *. injection Hsl as <-. apply (Hh _ _ _ Ha); [by rewrite Hp|done].
      * intros id' a' c' l' [[<- <-]|[Hne Ha']]%lookup_insert_Some; [done|eauto].
    + destruct (negb (at_connected a)); [by apply slots_finish|].
      assert (Hphase : slots_locked (with_phase id a Polling q)) by by apply slots_phase.
      unfold _unlock. case_decide; [|done].
      apply (slots_release (with_phase id a Polling q) id (delete (at_key a, slot) (q_locks q))); [done| |].
      * cbn. intros a' s [[_ <-]|[Hne _]]%lookup_insert_Some; done.
      * cbn. intros ks owner Hk Hne. rewrite lookup_delete_ne; [done|]. intros <-. congruence.
Qed.

Lemma slots_disconnect q id a : slots_locked q -> q_attempts q !! id = Some a -> slots_locked (lose_connection id a q).
Proof.
  intros [Hh Ht Hl] Ha. unfold lose_connection, close_connection. apply (slots_release _ id).
  - split; cbn; [| |done].
    + intros id' a' s [[<- <-]|[Hne Ha']]%lookup_insert_Some Hs Hcn; [done|eauto].
    + intros id' a' c limit [[<- <-]|[Hne Ha']]%lookup_insert_Some Hs Hk; [exact (Ht _ _ _ _ Ha Hs Hk)|eauto].
  - cbn. intros a' s [[_ <-]|[Hne _]]%lookup_insert_Some; done.
  - intros ks owner Hk Hne. cbn in *. by apply map_lookup_filter_Some.
Qed.

Lemma slots_step q q' : slots_locked q -> bounded_step http_date_ms key bound q q' -> slots_locked q'.
Proof.
  intros Hs [Hstep Hlim]. destruct Hstep as [q id k Hn|q id a Ha|q id a slot e Ha Hp|q id a Ha|q id a Ha|q id a Ha|q now Hle|q k d Hd].
  - destruct Hs as [Hh Ht Hl]. split; cbn; [| |done]; intros id' a' ? *; intros [[<- <-]|[Hne Ha']]%lookup_insert_Some; try done; eauto.
  - by apply slots_attempt.
  - unfold end_attempt. apply slots_finish.
    + destruct e; [|done]. by apply slots_observe.
    + destruct e as [e|]; [|done]. unfold _observe_error. by repeat case_match.
  - by apply slots_finish.
  - by apply slots_disconnect.
  - destruct Hs as [Hh Ht Hl]. split; cbn; [| |done].
    + intros id' a' s [[<- <-]|[Hne Ha']]%lookup_insert_Some Hsl; [exact (Hh _ _ _ Ha Hsl)|eauto].
    + intros id' a' c l [[<- <-]|[Hne Ha']]%lookup_insert_Some Hsl; [exact (Ht _ _ _ _ Ha Hsl)|eauto].
  - by destruct Hs.
  - destruct Hs as [Hh Ht _]. by split.
Qed.

(** Attempts calling the provider on a live connection have different slots between 1 and the bound. *)
Lemma slots_count q : slots_locked q -> 0 <= bound -> Z.of_nat (size (calling_connected key q)) <= bound.
Proof.
  intros [Hh _ _] H0. set (slot := fun id => default 0 (a ← q_attempts q !! id; slot_of (at_phase a))).
  assert (Hin : forall id, id ∈ calling_connected key q -> q_locks q !! (key, slot id) = Some id /\ 1 <= slot id <= bound).
  { intros id Hid. unfold calling_connected in Hid. apply elem_of_dom in Hid as [a Ha]. apply map_lookup_filter_Some in Ha as [Ha [[Hk Hp] Hcn]]. cbn in *.
    unfold slot. rewrite Ha. cbn. destruct (at_phase a) as [| | |s|] eqn:E; try done. cbn.
    destruct (Hh id a s Ha) as [Hl Hb]; [by rewrite E|done|]. rewrite Hk in Hl. auto. }
  assert (Hinj : NoDup (map slot (elements (calling_connected key q)))).
  { apply (NoDup_fmap_2_strong slot); [|apply NoDup_elements]. intros x y Hx Hy Hxy. apply elem_of_elements in Hx, Hy.
    destruct (Hin x Hx) as [Lx _], (Hin y Hy) as [Ly _]. rewrite Hxy in Lx. congruence. }
  assert (Hsub : map slot (elements (calling_connected key q)) ⊆ seqZ 1 bound).
  { intros z Hz. apply list_elem_of_fmap in Hz as (id & -> & Hid). apply elem_of_elements in Hid. apply elem_of_seqZ.
    destruct (Hin id Hid). lia. }
  assert (Hle : (length (map slot (elements (calling_connected key q))) <= length (seqZ 1 bound))%nat).
  { apply NoDup_incl_length; [by apply NoDup_ListNoDup|]. intros z Hz. apply list_elem_of_In, Hsub. by apply list_elem_of_In. }
  rewrite length_map, length_seqZ in Hle. unfold size, set_size. cbn. lia.
Qed.

Lemma calling_split q : calling_provider key q = calling_connected key q ∪ calling_disconnected key q.
Proof.
  apply set_eq. intros id. unfold calling_provider, calling_connected, calling_disconnected.
  rewrite elem_of_union, !elem_of_dom. split.
  - intros [a Ha]. apply map_lookup_filter_Some in Ha as [Ha Hp]. destruct (at_connected a) eqn:Hc; [left|right]; exists a; by apply map_lookup_filter_Some.
  - intros [[a Ha]|[a Ha]]; apply map_lookup_filter_Some in Ha as [Ha [Hp _]]; exists a; by apply map_lookup_filter_Some.
Qed.
End bound.

(** (C34) The provider quota binds every attempt that keeps its advisory-lock connection.  Start with no attempts;
    let attempts start, wait, lock, run, fail, be cancelled, lose their lock connection while they go on, or die with
    their process, in any order, the clock advance and the domain be reconfigured: as long as the domain's limit
    never exceeds [bound], at most [bound] attempts whose lock connection is alive call the provider at the same
    time, and all calls together exceed [bound] by at most the number of calls that lost that connection (the
    window the documentation leaves outside the guarantee). *)
Theorem quota_binds_connected_attempts http_date_ms key bound q q' :
  0 <= bound -> q_attempts q = ∅ -> limit_at_most key bound q ->
  rtc (bounded_step http_date_ms key bound) q q' ->
  Z.of_nat (size (calling_connected key q')) <= bound /\
  Z.of_nat (size (calling_provider key q')) <= bound + Z.of_nat (size (calling_disconnected key q')).
Proof.
  intros H0 He Hl Hsteps.
  assert (Hc : Z.of_nat (size (calling_connected key q')) <= bound).
  { apply slots_count; [|done].
    assert (Hs : slots_locked key bound q) by (split; [rewrite He..|done]; intros *; by rewrite lookup_empty).
    clear He Hl. induction Hsteps as [|q1 q2 q3 H1 _ IH]; [done|]. apply IH. by eapply slots_step. }
  split; [done|]. rewrite calling_split. pose proof (size_union_alt (calling_connected key q') (calling_disconnected key q')) as Hu.
  pose proof (subseteq_size (calling_disconnected key q' ∖ calling_connected key q') (calling_disconnected key q')) as Hd.
  specialize (Hd ltac:(set_solver)). lia.
Qed.

(** ** A sample history *)

Definition sample_quota : qstate := Q {[1 := Domain 1 true 0]} ∅ ∅ 10.
Definition start_attempt (id : nat) (q : qstate) : qstate :=
  Q (q_domains q) (<[id := Attempt 1 Polling false true]> (q_attempts q)) (q_locks q) (q_now_ms q).
(** the attempt takes its next step *)
Definition go (id : nat) (q : qstate) : qstate :=
  match q_attempts q !! id with Some a => model_attempt_step id a q | None => q end.
Definition disconnect (id : nat) (q : qstate) : qstate :=
  match q_attempts q !! id with Some a => lose_connection id a q | None => q end.
(** two attempts for one slot: the first calls the provider, the second polls again *)
Definition contended_quota : qstate := go 1 (go 1 (go 1 (go 0 (go 0 (go 0 (start_attempt 1 (start_attempt 0 sample_quota))))))).
(** the first one loses its lock connection, and the second one gets the slot *)
Definition overrun_quota : qstate := go 1 (go 1 (go 1 (disconnect 0 contended_quota))).

Lemma go_bounded hd (id : nat) q : is_Some (q_attempts q !! id) -> limit_at_most 1 1 (go id q) -> bounded_step hd 1 1 q (go id q).
Proof. intros [a Ha] Hl. split; [|done]. unfold go. rewrite Ha. by constructor. Qed.
Lemma disconnect_bounded hd (id : nat) q :
  is_Some (q_attempts q !! id) -> limit_at_most 1 1 (disconnect id q) -> bounded_step hd 1 1 q (disconnect id q).
Proof. intros [a Ha] Hl. split; [|done]. unfold disconnect. rewrite Ha. by apply q_disconnect. Qed.

Lemma sample_limit q : q_domains q = {[1 := Domain 1 true 0]} -> limit_at_most 1 1 q.
Proof. unfold limit_at_most. intros Hq d Hd. rewrite Hq in Hd. apply lookup_singleton_Some in Hd as [_ <-]. by cbn. Qed.

Lemma contended_reached hd : rtc (bounded_step hd 1 1) sample_quota contended_quota.
Proof.
  unfold contended_quota. do 6 (eapply rtc_r; [|apply go_bounded; [vm_compute; eauto|apply sample_limit; vm_compute; reflexivity]]).
  eapply rtc_r; [|split; [apply q_start; vm_compute; reflexivity|apply sample_limit; reflexivity]].
  eapply rtc_r; [|split; [apply q_start; vm_compute; reflexivity|apply sample_limit; reflexivity]].
  apply rtc_refl.
Qed.
Lemma overrun_reached hd : rtc (bounded_step hd 1 1) sample_quota overrun_quota.
Proof.
  unfold overrun_quota. do 3 (eapply rtc_r; [|apply go_bounded; [vm_compute; eauto|apply sample_limit; vm_compute; reflexivity]]).
  eapply rtc_r; [apply contended_reached|]. apply disconnect_bounded; [vm_compute; eauto|apply sample_limit; vm_compute; reflexivity].
Qed.

(** With the lock connections alive one attempt calls; once the first connection is lost two do, of which one is bound. *)
Lemma quota_binds_connected_attempts_witness :
  (calling_provider 1 contended_quota = {[0%nat]} /\ Z.of_nat (size (calling_connected 1 contended_quota)) <= 1) /\
  (calling_provider 1 overrun_quota = {[0%nat; 1%nat]} /\ calling_connected 1 overrun_quota = {[1%nat]} /\
   Z.of_nat (size (calling_provider 1 overrun_quota)) <= 1 + Z.of_nat (size (calling_disconnected 1 overrun_quota))).
Proof.
  split; [split; [vm_compute; reflexivity|]|split; [vm_compute; reflexivity|split; [vm_compute; reflexivity|]]].
  - apply (quota_binds_connected_attempts (fun _ => None) 1 1 sample_quota contended_quota); [lia|reflexivity|by apply sample_limit|apply contended_reached].
  - apply (quota_binds_connected_attempts (fun _ => None) 1 1 sample_quota overrun_quota); [lia|reflexivity|by apply sample_limit|apply overrun_reached].
Defined.
