(* ===== verification/Assets.v ===== *)
(** * Stored objects

    [packages/api/app_core/assets.py], [packages/api/app_core/trash_retention.py] and the rows of
    [packages/api/app_core/models.py] they work on: file names, the object store, the three kinds of objects
    that own stored bytes, and the derived resources through which deleted bytes are reclaimed.

    The object store is Django's [default_storage]: a map from keys to contents with their modification
    time.  Times are microseconds. *)

From stdpp Require Import base tactics list gmap numbers.
From S2P Require Import Prelude PyStr Table Utf8 Sha256 Platform Schema Json.

(** ** File names *)

(** [os.path.splitext] of a POSIX path: the position of the last dot after the last slash that is not a
    leading dot. *)
Fixpoint rfind (c : Z) (l : list Z) : option nat :=
  match l with
  | [] => None
  | d :: l' => match rfind c l' with
               | Some n => Some (S n)
               | None => if d =? c then Some O else None
               end
  end.
Definition splitext (s : pystr) : pystr * pystr :=
  let l := code_points s in
  let start := match rfind 47 l with Some n => S n | None => O end in
  match rfind 46 l with
  | Some dot =>
      if (start <=? dot)%nat && existsb (fun c => negb (c =? 46)) (drop start (take dot l))
      then (PyStr (take dot l), PyStr (drop dot l))
      else (s, "")
  | None => (s, "")
  end.

(** [re.sub("[^...]+", "_", s)]: every run of characters outside [keep] becomes one underscore *)
Fixpoint sub_runs (keep : Z -> bool) (in_run : bool) (l : list Z) : list Z :=
  match l with
  | [] => []
  | c :: l' =>
      if keep c then c :: sub_runs keep false l'
      else if in_run then sub_runs keep true l'
      else 95 :: sub_runs keep true l'
  end.
(** [s.strip("._")] *)
Definition strip_chars (drop_char : Z -> bool) (s : pystr) : pystr :=
  PyStr (rev (drop_while drop_char (rev (drop_while drop_char (code_points s))))).
Definition str_has (c : Z) (s : pystr) : bool := chars_any (Z.eqb c) s.
(** [len(s.encode("utf-8"))] *)
Definition encoded_len (s : pystr) : res exn Z :=
  from_option_res UnicodeEncodeError (zlen <$> utf8_encode s).

Section names.
Context {PL : Platform}.

(** characters [safe_filename] keeps *)
Definition safe_char (c : Z) : bool := word_char c || (c =? 46) || (c =? 45).

Definition safe_filename (value : pystr) : res exn pystr :=
  let normalized := nfc value in
  require (negb (chars_any category_C normalized)) (ValueError "filename contains a control character");;
  let name := strip normalized in
  require (negb (is_empty name || str_has 47 name || str_has 92 name || bool_decide (name = ".") || bool_decide (name = "..")))
    (ValueError "filename must be a basename");;
  let safe := strip_chars (fun c => (c =? 46) || (c =? 95)) (PyStr (sub_runs safe_char false (code_points name))) in
  require (negb (is_empty safe)) (ValueError "filename has no safe characters");;
  Ok safe.

(** [while stem and len(stem.encode("utf-8")) > budget: stem = stem[:-1]], on the reversed stem *)
Fixpoint shorten (budget : Z) (reversed : list Z) : res exn (list Z) :=
  match reversed with
  | [] => Ok []
  | _ :: reversed' =>
      n ← encoded_len (PyStr (rev reversed));
      if budget <? n then shorten budget reversed' else Ok (rev reversed)
  end.

Definition _virtual_filename (display_name : pystr) (input_ref : option pystr) : res exn pystr :=
  filename ← safe_filename display_name;
  let '(stem, extension) := splitext filename in
  suffix ← match input_ref with
           | Some ref => if is_empty ref then Ok "" else safe ← safe_filename ref; Ok ("_" +:+ safe)
           | None => Ok ""
           end;
  used ← encoded_len (suffix +:+ extension);
  let budget := 240 - used in
  stem ← shorten budget (rev (code_points stem));
  require (negb (is_empty (PyStr stem) || (budget <=? 0))) (ValueError "filename cannot fit a safe virtualPath");;
  Ok (PyStr stem +:+ suffix +:+ extension).

(** An ordered dict of strings: assignment keeps the position of an existing key. *)
Fixpoint assoc_set {A} (k : pystr) (v : A) (d : list (pystr * A)) : list (pystr * A) :=
  match d with
  | [] => [(k, v)]
  | (k', v') :: d' => if bool_decide (k' = k) then (k, v) :: d' else (k', v') :: assoc_set k v d'
  end.
(** [next(item[1] for item in l if item[0] == k)] *)
Fixpoint assoc_first {A} (k : pystr) (l : list (pystr * A)) : option A :=
  match l with
  | [] => None
  | (k', v) :: l' => if bool_decide (k' = k) then Some v else assoc_first k l'
  end.

(** [allocated_virtual_paths]; [declared] are the inputs of the authorization, as (inputRef, displayName) *)
Definition virtual_candidates (declared : list (pystr * pystr)) : res exn (list (pystr * pystr)) :=
  for_each (fun candidates item =>
      name ← _virtual_filename item.2 None;
      Ok (assoc_set item.1 name candidates)) declared [].
Definition colliding (candidates : list (pystr * pystr)) (name : pystr) : bool :=
  (1 <? length (filter (fun c => str_casefold c.2 = str_casefold name) candidates))%nat.
Definition allocated_virtual_paths (declared : list (pystr * pystr)) : res exn (list (pystr * pystr)) :=
  candidates ← virtual_candidates declared;
  allocated ← for_each (fun allocated item =>
      let '(ref, candidate) := item in
      path ← (if colliding candidates candidate
              then display_name ← from_option_res DoesNotExist (assoc_first ref declared); _virtual_filename display_name (Some ref)
              else Ok candidate);
      Ok (allocated ++ [(ref, path)])) candidates [];
  require (bool_decide (NoDup (map (fun p => str_casefold p.2) allocated))) (ValueError "AgentRun input virtualPath collision");;
  Ok allocated.

Definition strip_slashes (s : pystr) : pystr := strip_chars (Z.eqb 47) s.
Definition normalize_display_path (value : pystr) : res exn pystr :=
  let path := strip_slashes (strip value) in
  require (negb (is_empty path || str_has 92 path
                 || existsb (fun part => is_empty part || bool_decide (part = ".") || bool_decide (part = "..")) (str_split 47 path)))
    (ValueError "displayPath must be a relative POSIX path");;
  Ok path.

(** [UPPER(a) = UPPER(b)], what [__iexact] compiles to *)
Definition pg_upper (s : pystr) : list Z := concat (map upper_char (code_points s)).
Definition iexact (a b : pystr) : bool := bool_decide (pg_upper a = pg_upper b).
End names.

(** ** Rows *)

Inductive object_status := OProcessing | OReady | OFailed | ODeleted.
Inductive artifact_status := AStaging | APublished | AFailed | ADeleted.
Inductive library_kind := LFile | LImage | LFolder | LNote | LSavedArtifact.
Inductive resource_state := RActive | RPending | RCleaning | RCleaned | RFailed.
Inductive owner_kind := KSourceObject | KUserLibraryObject | KArtifact.
Inductive link_kind := LinkUpload | LinkArtifact | LinkManual.

#[global] Instance object_status_eq_dec : EqDecision object_status.
Proof. solve_decision. Defined.
#[global] Instance artifact_status_eq_dec : EqDecision artifact_status.
Proof. solve_decision. Defined.
#[global] Instance library_kind_eq_dec : EqDecision library_kind.
Proof. solve_decision. Defined.
#[global] Instance resource_state_eq_dec : EqDecision resource_state.
Proof. solve_decision. Defined.
#[global] Instance owner_kind_eq_dec : EqDecision owner_kind.
Proof. solve_decision. Defined.
#[global] Instance link_kind_eq_dec : EqDecision link_kind.
Proof. solve_decision. Defined.

(** [UserLibraryObject]; [lb_deleted_from] is [None] for the empty string *)
Record library_row := LibraryObject {
  lb_owner : Z; lb_name : pystr; lb_kind : library_kind; lb_content_type : pystr; lb_size : option Z;
  lb_sha256 : pystr; lb_storage_key : pystr; lb_parent : option pystr; lb_status : object_status;
  lb_failure_reason : pystr; lb_deleted_at : option Z; lb_deleted_by : option Z; lb_purged_at : option Z;
  lb_deleted_from : option object_status; lb_deletion_generation : Z; lb_content_generation : Z;
  lb_created_at : Z }.
(** [SourceObject] *)
Record source_object_row := SourceObject {
  so_workspace : pystr; so_source : pystr; so_directory : bool; so_path : pystr; so_name : pystr;
  so_content_type : pystr; so_size : option Z; so_sha256 : pystr; so_storage_key : pystr;
  so_version : pystr; so_content_generation : Z; so_status : object_status; so_failure_reason : pystr;
  so_deleted_at : option Z; so_deletion_generation : Z }.
(** [Artifact] *)
Record artifact_row := ArtifactRow {
  ar_workspace : pystr; ar_run : pystr; ar_session : pystr; ar_created_by : Z; ar_name : pystr;
  ar_safe_filename : pystr; ar_content_type : pystr; ar_size : Z; ar_sha256 : pystr;
  ar_content_generation : Z; ar_storage_key : pystr; ar_status : artifact_status;
  ar_published_at : option Z; ar_failure_reason : pystr; ar_deleted_at : option Z;
  ar_deletion_generation : Z }.
(** [UserLibraryLink] *)
Record link_row := LibraryLink { lk_object : pystr; lk_kind : link_kind; lk_source_ref : pystr }.
(** [DerivedResource] *)
Record resource_row := Resource {
  dr_owner_kind : owner_kind; dr_owner_id : pystr; dr_content_generation : Z; dr_deletion_generation : Z;
  dr_resource_kind : pystr; dr_resource_key : pystr; dr_state : resource_state; dr_tombstoned_at : option Z;
  dr_lease_owner : pystr; dr_lease_expires_at : option Z; dr_attempts : Z; dr_last_failure : pystr;
  dr_cleaned_at : option Z }.

#[global] Instance library_row_eq_dec : EqDecision library_row.
Proof. solve_decision. Defined.
#[global] Instance resource_row_eq_dec : EqDecision resource_row.
Proof. solve_decision. Defined.

Abbreviation files_t := (gmap pystr (bytes * Z)).
Record store := Store {
  library : gmap pystr library_row;
  source_objects : gmap pystr source_object_row;
  artifacts : gmap pystr artifact_row;
  library_links : gmap pystr link_row;
  resources : gmap pystr resource_row;
  (** [default_storage]: contents and modification time *)
  files : files_t }.

Definition set_library f st := Store (f (library st)) (source_objects st) (artifacts st) (library_links st) (resources st) (files st).
Definition set_source_objects f st := Store (library st) (f (source_objects st)) (artifacts st) (library_links st) (resources st) (files st).
Definition set_artifacts f st := Store (library st) (source_objects st) (f (artifacts st)) (library_links st) (resources st) (files st).
Definition set_library_links f st := Store (library st) (source_objects st) (artifacts st) (f (library_links st)) (resources st) (files st).
Definition set_resources f st := Store (library st) (source_objects st) (artifacts st) (library_links st) (f (resources st)) (files st).
Definition set_files f st := Store (library st) (source_objects st) (artifacts st) (library_links st) (resources st) (f (files st)).
(** A transaction that raises undoes the tables, not the object store. *)
Definition rollback (before after : store) : store := set_files (fun _ => files after) before.

Definition require_failure_reason (failed : bool) (reason : pystr) : res exn unit :=
  require (negb (failed && is_empty (strip reason))) (ValueError "failed status requires failureReason").

(** ** The object store *)

Section storage.
(** the name [default_storage.save] gives a file that is to be stored under a key *)
Context (available_name : files_t -> pystr -> pystr).

Definition storage_save (key : pystr) (content : bytes) (now : Z) (st : store) : pystr * store :=
  let stored := available_name (files st) key in
  (stored, set_files <[stored := (content, now)]> st).
(** the same on a storage that may fail *)
Definition storage_try_save {PL : Platform} (key : pystr) (content : bytes) (now : Z) (st : store) : res exn pystr * store :=
  let stored := available_name (files st) key in
  match save_fault stored with
  | None => (Ok stored, set_files <[stored := (content, now)]> st)
  | Some None => (Err OSError, st)
  | Some (Some partial) => (Err OSError, set_files <[stored := (partial, now)]> st)
  end.
End storage.

Definition storage_exists (key : pystr) (st : store) : bool := bool_decide (is_Some (files st !! key)).
Definition storage_delete (key : pystr) (st : store) : store := set_files (delete key) st.

Definition delete_stored_object (key : pystr) (st : store) : store :=
  if is_empty key then st else storage_delete key st.
(** the file is still there after [default_storage.delete], or that raised *)
Definition delete_stored_object_for_gc {PL : Platform} (key : pystr) (st : store) : res exn store :=
  require (negb (is_empty key)) (ValueError "GC storage resource key is empty");;
  if negb (storage_exists key st) then Ok st
  else
    require (negb (delete_refused key)) OSError;;
    Ok (storage_delete key st).

(** [store_bytes] and [store_upload] return the description of the stored file *)
Record metadata := Metadata {
  md_name : pystr; md_safe_filename : pystr; md_content_type : pystr; md_size : Z; md_sha256 : pystr; md_key : pystr }.

Section store_file.
Context {PL : Platform} (available_name : files_t -> pystr -> pystr).

Definition store_bytes (content : bytes) (area uuid filename content_type : pystr) (now : Z) (st : store)
  : res exn (metadata * store) :=
  let display_name := nfc filename in
  safe ← safe_filename display_name;
  let '(key, st') := storage_save available_name (area +:+ "/" +:+ uuid +:+ "/" +:+ safe) content now st in
  Ok (Metadata display_name safe content_type (zlen content) (sha256_tag content) key, st').

(** An uploaded file: its name, content type and contents. *)
Record upload_file := UploadFile { uf_name : pystr; uf_content_type : pystr; uf_content : bytes }.
(** A save that fails is cleaned up under the requested key. *)
Definition store_upload (upload : upload_file) (area uuid : pystr) (now : Z) (st : store) : res exn metadata * store :=
  let display_name := nfc (uf_name upload) in
  match safe_filename display_name with
  | Err e => (Err e, st)
  | Ok filename =>
      let requested := area +:+ "/" +:+ uuid +:+ "/" +:+ filename in
      match storage_try_save available_name requested (uf_content upload) now st with
      | (Ok key, st') =>
          (Ok (Metadata display_name filename
                 (if is_empty (uf_content_type upload) then "application/octet-stream" else uf_content_type upload)
                 (zlen (uf_content upload)) (sha256_tag (uf_content upload)) key), st')
      | (Err e, st') =>
          match delete_stored_object_for_gc requested st' with
          | Ok st'' => (Err e, st'')
          | Err _ => (Err (RuntimeError "upload_storage_cleanup_failed"), st')
          end
      end
  end.
End store_file.

(** ** Owners of stored bytes *)

Inductive owner :=
| OwnSource (id : pystr) (r : source_object_row)
| OwnLibrary (id : pystr) (r : library_row)
| OwnArtifact (id : pystr) (r : artifact_row).

Definition stored_object_identity (o : owner) : owner_kind * pystr :=
  match o with
  | OwnSource id _ => (KSourceObject, id)
  | OwnLibrary id _ => (KUserLibraryObject, id)
  | OwnArtifact id _ => (KArtifact, id)
  end.
Definition o_content_generation (o : owner) : Z :=
  match o with
  | OwnSource _ r => so_content_generation r | OwnLibrary _ r => lb_content_generation r
  | OwnArtifact _ r => ar_content_generation r
  end.
Definition o_deletion_generation (o : owner) : Z :=
  match o with
  | OwnSource _ r => so_deletion_generation r | OwnLibrary _ r => lb_deletion_generation r
  | OwnArtifact _ r => ar_deletion_generation r
  end.
Definition o_storage_key (o : owner) : pystr :=
  match o with
  | OwnSource _ r => so_storage_key r | OwnLibrary _ r => lb_storage_key r | OwnArtifact _ r => ar_storage_key r
  end.
Definition o_deleted (o : owner) : bool :=
  match o with
  | OwnSource _ r => bool_decide (so_status r = ODeleted)
  | OwnLibrary _ r => bool_decide (lb_status r = ODeleted)
  | OwnArtifact _ r => bool_decide (ar_status r = ADeleted)
  end.
Definition o_deleted_at (o : owner) : option Z :=
  match o with
  | OwnSource _ r => so_deleted_at r | OwnLibrary _ r => lb_deleted_at r | OwnArtifact _ r => ar_deleted_at r
  end.
Definition o_size (o : owner) : option Z :=
  match o with OwnSource _ r => so_size r | OwnLibrary _ r => lb_size r | OwnArtifact _ r => Some (ar_size r) end.
Definition o_sha256 (o : owner) : pystr :=
  match o with OwnSource _ r => so_sha256 r | OwnLibrary _ r => lb_sha256 r | OwnArtifact _ r => ar_sha256 r end.

(** The assignments of [tombstone_stored_object] to the row; only library objects have the columns
    [deletedBy] and [deletedFromStatus]. *)
Definition tombstoned (deleted_at : Z) (deleted_by : option Z) (o : owner) : owner :=
  match o with
  | OwnSource id r => OwnSource id
      (SourceObject (so_workspace r) (so_source r) (so_directory r) (so_path r) (so_name r) (so_content_type r)
         (so_size r) (so_sha256 r) (so_storage_key r) (so_version r) (so_content_generation r) ODeleted
         (so_failure_reason r) (Some deleted_at) (so_deletion_generation r + 1))
  | OwnLibrary id r => OwnLibrary id
      (LibraryObject (lb_owner r) (lb_name r) (lb_kind r) (lb_content_type r) (lb_size r) (lb_sha256 r)
         (lb_storage_key r) (lb_parent r) ODeleted (lb_failure_reason r) (Some deleted_at)
         (match deleted_by with Some u => Some u | None => lb_deleted_by r end) (lb_purged_at r)
         (Some (lb_status r)) (lb_deletion_generation r + 1) (lb_content_generation r) (lb_created_at r))
  | OwnArtifact id r => OwnArtifact id
      (ArtifactRow (ar_workspace r) (ar_run r) (ar_session r) (ar_created_by r) (ar_name r) (ar_safe_filename r)
         (ar_content_type r) (ar_size r) (ar_sha256 r) (ar_content_generation r) (ar_storage_key r) ADeleted
         (ar_published_at r) (ar_failure_reason r) (Some deleted_at) (ar_deletion_generation r + 1))
  end.

(** [UserLibraryObject.save]: deletion metadata belongs to deleted rows, the parent is a folder of the
    owner, and the owner never changes. *)
Definition deletion_consistent (r : library_row) : res exn unit :=
  match lb_status r with
  | ODeleted =>
      require match lb_deleted_from r with Some (OProcessing | OReady | OFailed) => true | _ => false end
        (ValueError "unsupported UserLibraryObject.deletedFromStatus");;
      match lb_deleted_at r with
      | None => Err (ValueError "deleted UserLibraryObject requires deletedAt")
      | Some deleted_at =>
          require match lb_purged_at r with Some p => deleted_at <=? p | None => true end
            (ValueError "purged UserLibraryObject predates deletion")
      end
  | _ =>
      require (bool_decide (lb_deleted_at r = None) && bool_decide (lb_purged_at r = None) && bool_decide (lb_deleted_from r = None))
        (ValueError "active UserLibraryObject has deletion metadata")
  end.
Definition parent_matches (lib : gmap pystr library_row) (r : library_row) : bool :=
  match lb_parent r with
  | None => true
  | Some p => match lib !! p with
              | Some f => (lb_owner f =? lb_owner r) && bool_decide (lb_kind f = LFolder)
              | None => false
              end
  end.
Definition save_library_object (id : pystr) (r : library_row) (st : store) : res exn store :=
  require_failure_reason (bool_decide (lb_status r = OFailed)) (lb_failure_reason r);;
  deletion_consistent r;;
  require (parent_matches (library st) r) (ValueError "UserLibraryObject parent ownership mismatch");;
  require match library st !! id with Some old => lb_owner old =? lb_owner r | None => true end
    (ValueError "UserLibraryObject ownership is immutable");;
  Ok (set_library <[id := r]> st).
Definition create_library_object (id : pystr) (r : library_row) (st : store) : res exn store :=
  match library st !! id with
  | Some _ => Err IntegrityError
  | None => save_library_object id r st
  end.

(** [SourceObject.save] and [Artifact.save] of an existing row: the binding to source, session and run, which
    they check again, never changes *)
Definition save_source_object (id : pystr) (r : source_object_row) (st : store) : res exn store :=
  require_failure_reason (bool_decide (so_status r = OFailed)) (so_failure_reason r);;
  Ok (set_source_objects <[id := r]> st).
Definition save_artifact (id : pystr) (r : artifact_row) (st : store) : res exn store :=
  require_failure_reason (bool_decide (ar_status r = AFailed)) (ar_failure_reason r);;
  require (negb (bool_decide (ar_status r = APublished) && bool_decide (ar_published_at r = None)))
    (ValueError "published Artifact requires publishedAt");;
  Ok (set_artifacts <[id := r]> st).
Definition save_owner (o : owner) (st : store) : res exn store :=
  match o with
  | OwnSource id r => save_source_object id r st
  | OwnLibrary id r => save_library_object id r st
  | OwnArtifact id r => save_artifact id r st
  end.

(** ** Derived resources *)

(** the columns of [unique_derived_resource_owner_generation] *)
Definition resource_identity (r : resource_row) : owner_kind * pystr * Z * Z * pystr * pystr :=
  (dr_owner_kind r, dr_owner_id r, dr_content_generation r, dr_deletion_generation r, dr_resource_kind r, dr_resource_key r).
Definition resources_unique (t : gmap pystr resource_row) : bool :=
  bool_decide (map_Forall (fun k r => map_Forall (fun k' r' => k = k' \/ resource_identity r <> resource_identity r') t) t).
Definition owned_by (kind : owner_kind) (id : pystr) (r : resource_row) : bool :=
  bool_decide (dr_owner_kind r = kind) && bool_decide (dr_owner_id r = id).

(** the columns written when a resource becomes pending *)
Definition pending_resource (deletion_generation : Z) (at_ : option Z) (r : resource_row) : resource_row :=
  Resource (dr_owner_kind r) (dr_owner_id r) (dr_content_generation r) deletion_generation (dr_resource_kind r)
    (dr_resource_key r) RPending at_ "" None (dr_attempts r) "" (dr_cleaned_at r).
Definition set_resource_state (state : resource_state) (at_ : option Z) (r : resource_row) : resource_row :=
  Resource (dr_owner_kind r) (dr_owner_id r) (dr_content_generation r) (dr_deletion_generation r) (dr_resource_kind r)
    (dr_resource_key r) state at_ (dr_lease_owner r) (dr_lease_expires_at r) (dr_attempts r) (dr_last_failure r) (dr_cleaned_at r).

(** [DerivedResource.save] *)
Definition save_resource (id : pystr) (r : resource_row) (st : store) : res exn store :=
  require (bool_decide (dr_resource_kind r = "storageObject")) (ValueError "unsupported DerivedResource.resourceKind");;
  require (negb (bool_decide (dr_state r = RActive) && bool_decide (is_Some (dr_tombstoned_at r))))
    (ValueError "active DerivedResource cannot be tombstoned");;
  require (bool_decide (dr_state r = RActive) || bool_decide (is_Some (dr_tombstoned_at r)))
    (ValueError "tombstoned DerivedResource requires tombstonedAt");;
  require (negb (bool_decide (dr_state r = RCleaned) && bool_decide (dr_cleaned_at r = None)))
    (ValueError "cleaned DerivedResource requires cleanedAt");;
  let t := <[id := r]> (resources st) in
  require (resources_unique t) IntegrityError;;
  Ok (set_resources (fun _ => t) st).
(** [.filter(p).update(...)] of resources *)
Definition update_resources (p : resource_row -> bool) (f : resource_row -> resource_row) (st : store) : res exn store :=
  let t := qs_update p f (resources st) in
  require (resources_unique t) IntegrityError;;
  Ok (set_resources (fun _ => t) st).

(** [register_derived_resource]; [new_id] is the primary key of a new row *)
Definition register_derived_resource (o : owner) (resource_kind resource_key new_id : pystr) (st : store) : res exn store :=
  let '(kind, id) := stored_object_identity o in
  let pending := o_deleted o in
  let tombstoned_at := if pending then o_deleted_at o else None in
  let wanted := Resource kind id (o_content_generation o) (o_deletion_generation o) resource_kind resource_key
                  (if pending then RPending else RActive) tombstoned_at "" None 0 "" None in
  match qs_first (fun r => bool_decide (resource_identity r = resource_identity wanted)) (resources st) with
  | None =>
      match resources st !! new_id with
      | Some _ => Err IntegrityError
      | None => save_resource new_id wanted st
      end
  | Some (rid, r) =>
      if bool_decide (dr_state r = RActive) && pending
      then save_resource rid (set_resource_state RPending (o_deleted_at o) r) st
      else Ok st
  end.

Definition tombstone_superseded_derived_resources (o : owner) (now : Z) (st : store) : res exn store :=
  let '(kind, id) := stored_object_identity o in
  require (0 <? o_content_generation o) (ValueError "asset_input_identity_invalid");;
  update_resources (fun r => owned_by kind id r && (dr_content_generation r <? o_content_generation o) && bool_decide (dr_state r = RActive))
    (fun r => pending_resource (dr_deletion_generation r) (Some now) r) st.

(** [deleted_at] is the argument or the clock *)
Definition tombstone_stored_object (o : owner) (deleted_at : Z) (deleted_by : option Z) (new_id : pystr) (st : store)
  : res exn store :=
  require (negb (o_deleted o)) (ValueError "stored object is already deleted");;
  let o := tombstoned deleted_at deleted_by o in
  let '(kind, id) := stored_object_identity o in
  st ← save_owner o st;
  st ← update_resources (fun r => owned_by kind id r && negb (bool_decide (dr_state r = RCleaned)))
         (pending_resource (o_deletion_generation o) (o_deleted_at o)) st;
  if is_empty (o_storage_key o) then Ok st
  else register_derived_resource o "storageObject" (o_storage_key o) new_id st.

(** ** Retention *)

Definition TRASH_RETENTION : Z := 30 * 24 * 3600 * 1000000.
Definition trash_cutoff (now : Z) : Z := now - TRASH_RETENTION.
Definition trash_is_restorable (deleted_at purged_at : option Z) (now : Z) : bool :=
  match deleted_at with
  | Some d => bool_decide (purged_at = None) && (trash_cutoff now <? d)
  | None => false
  end.
