(* ===== verification/Library.v ===== *)
(** * The private library

    The endpoints of [packages/api/app_core/http/library.py] that manage a user's files, notes and folders.
    A handler returns its response or the exception it lets through, with the store afterwards: an exception
    undoes the tables and not the object store.  The requests of one user are serialised by a lock on the
    user's row; what happens before that lock is taken (the check of the target folder, the upload) sees an
    earlier state, which is a separate argument. *)

From stdpp Require Import base tactics list gmap numbers.
From S2P Require Import Prelude PyStr Table Utf8 Sha256 Platform Schema Json Assets.

Definition MAX_UPLOAD_BATCH_FILES : Z := 50.

(** Exceptions of this component.  [LibraryNameConflict] is a [ValueError]; [Diverges] is a loop that has
    not ended within its fuel. *)
Inductive lexn := LExn (e : exn) | LibraryNameConflict | Diverges.
#[global] Instance lexn_eq_dec : EqDecision lexn.
Proof. solve_decision. Defined.
Definition lift {A} (m : res exn A) : res lexn A := catch m (fun e => Err (LExn e)).

Inductive lbody :=
| BObject (id : pystr) (r : library_row)
| BObjects (l : list (pystr * library_row))
| BNote (id : pystr) (r : library_row) (markdown : pystr)
| BDeleted
| BError (code : pystr).
Inductive lresponse := LStatus (code : Z) (body : lbody).
Definition lerror (status : Z) (code : pystr) : lresponse := LStatus status (BError code).
Definition lib_handler : Type := res lexn lresponse * store.

(** [try: ... except DoesNotExist: a except LibraryNameConflict: b except ValueError: c] around a transaction *)
Definition run_tx (st : store) (tx : res lexn (lresponse * store)) (handle : lexn -> option lresponse) : lib_handler :=
  match tx with
  | Ok (resp, st') => (Ok resp, st')
  | Err e => (match handle e with Some resp => Ok resp | None => Err e end, st)
  end.

Definition is_value_error (e : lexn) : bool :=
  match e with LExn (ValueError _ | UnicodeEncodeError) | LibraryNameConflict => true | _ => false end.
Definition is_does_not_exist (e : lexn) : bool := bool_decide (e = LExn DoesNotExist).

(** descending order of time stamps *)
Definition newest_first (a b : Z) : Prop := b <= a.
#[global] Instance newest_first_dec : RelDecision newest_first.
Proof. intros a b. unfold newest_first. apply _. Defined.

Section library.
Context {PL : Platform} (available_name : files_t -> pystr -> pystr).

(** ** Names *)

Definition _numbered_upload_name (display_name : pystr) (index : Z) : res exn pystr :=
  require (negb (is_empty display_name) && (str_len display_name <=? 255)) (ValueError "upload_filename_invalid");;
  if index =? 0 then Ok display_name
  else
    let '(stem, extension) := splitext display_name in
    let suffix := "(" +:+ int_str index +:+ ")" in
    let stem_limit := 255 - str_len extension - str_len suffix in
    require (1 <=? stem_limit) (ValueError "upload_filename_invalid");;
    Ok (PyStr (take (Z.to_nat stem_limit) (code_points stem)) +:+ suffix +:+ extension).

(** rows that occupy a name in a folder *)
Definition occupies (user : Z) (parent : option pystr) (display_name : pystr) (r : library_row) : bool :=
  (lb_owner r =? user) && bool_decide (lb_parent r = parent) && iexact (lb_name r) display_name
  && negb (bool_decide (lb_status r = ODeleted)).
Definition _library_name_taken (lib : gmap pystr library_row) (user : Z) (parent : option pystr) (display_name exclude_id : pystr) : bool :=
  existsb (fun kr => is_empty exclude_id || negb (bool_decide (kr.1 = exclude_id)))
    (qs_list (occupies user parent display_name) lib).
Definition _require_library_name_available (lib : gmap pystr library_row) (user : Z) (parent : option pystr)
    (display_name exclude_id : pystr) : res lexn unit :=
  require (negb (_library_name_taken lib user parent display_name exclude_id)) LibraryNameConflict.

(** [while True: candidate = _numbered_upload_name(display_name, index) ...] *)
Fixpoint numbered_name_loop (fuel : nat) (lib : gmap pystr library_row) (user : Z) (parent : option pystr)
    (display_name exclude_id : pystr) (index : Z) : res lexn pystr :=
  candidate ← lift (_numbered_upload_name display_name index);
  if _library_name_taken lib user parent candidate exclude_id then
    match fuel with
    | O => Err Diverges
    | S fuel => numbered_name_loop fuel lib user parent display_name exclude_id (index + 1)
    end
  else Ok candidate.
Definition _available_numbered_library_name (lib : gmap pystr library_row) (user : Z) (parent : option pystr)
    (display_name exclude_id : pystr) : res lexn pystr :=
  numbered_name_loop (S (size lib)) lib user parent display_name exclude_id 0.

Definition _require_library_display_name (value : pystr) : res lexn pystr :=
  let normalized := strip (nfc value) in
  require (negb (is_empty normalized || (255 <? str_len normalized))) (LExn (ValueError "library_display_name_invalid"));;
  lift (safe_filename normalized);;
  Ok normalized.

(** ** Folders *)

Definition ready_folder (lib : gmap pystr library_row) (user : Z) (id : pystr) : res lexn library_row :=
  r ← from_option_res (LExn DoesNotExist) (lib !! id);
  require ((lb_owner r =? user) && bool_decide (lb_kind r = LFolder) && bool_decide (lb_status r = OReady)) (LExn DoesNotExist);;
  Ok r.

(** [while parent is not None: ...] up the chain of parents *)
Fixpoint parent_walk (fuel : nat) (lib : gmap pystr library_row) (visited : list pystr) (moving : pystr) (parent : option pystr)
  : res lexn unit :=
  match parent with
  | None => Ok tt
  | Some id =>
      require (negb (bool_decide (id ∈ visited) || bool_decide (id = moving))) (LExn (ValueError "library_folder_cycle"));;
      r ← from_option_res (LExn DoesNotExist) (lib !! id);
      match fuel with
      | O => Err Diverges
      | S fuel => parent_walk fuel lib (id :: visited) moving (lb_parent r)
      end
  end.

Definition _library_parent (lib : gmap pystr library_row) (user : Z) (parent_folder_id moving_object_id : pystr)
  : res lexn (option pystr) :=
  let id := strip parent_folder_id in
  if is_empty id then Ok None
  else
    ready_folder lib user id;;
    parent_walk (size lib) lib [] moving_object_id (Some id);;
    ready_folder lib user id;;
    Ok (Some id).

Definition _library_object (lib : gmap pystr library_row) (user : Z) (id : pystr) : res lexn library_row :=
  r ← from_option_res (LExn DoesNotExist) (lib !! id);
  require (lb_owner r =? user) (LExn DoesNotExist);;
  Ok r.
Definition live_object (lib : gmap pystr library_row) (user : Z) (id : pystr) : res lexn library_row :=
  r ← _library_object lib user id;
  require (negb (bool_decide (lb_status r = ODeleted))) (LExn DoesNotExist);;
  Ok r.

Definition create_link (link_id : pystr) (l : link_row) (st : store) : res lexn store :=
  match qs_insert link_id l (library_links st) with
  | Some t => Ok (set_library_links (fun _ => t) st)
  | None => Err (LExn IntegrityError)
  end.

(** ** Reading *)

(** [.order_by("-createdAt")]: newest first *)
Definition list_library (st : store) (user : Z) (parent_folder_id : pystr) : lib_handler :=
  run_tx st
    (parent ← _library_parent (library st) user parent_folder_id "";
     let items := qs_list (fun r => (lb_owner r =? user) && bool_decide (lb_parent r = parent)
                                    && negb (bool_decide (lb_status r = ODeleted))) (library st) in
     Ok (LStatus 200 (BObjects (order_by newest_first lb_created_at items)), st))
    (fun e => if is_does_not_exist e then Some (lerror 404 "library_folder_not_found") else None).

Definition get_library_object (st : store) (user : Z) (id : pystr) : lib_handler :=
  run_tx st (r ← live_object (library st) user id; Ok (LStatus 200 (BObject id r), st))
    (fun e => if is_does_not_exist e then Some (lerror 404 "library_object_not_found") else None).

Definition get_library_note (st : store) (user : Z) (id : pystr) : lib_handler :=
  run_tx st
    (r ← _library_object (library st) user id;
     require (bool_decide (lb_kind r = LNote) && bool_decide (lb_status r = OReady)) (LExn DoesNotExist);;
     if is_empty (lb_storage_key r) then Ok (lerror 409 "library_note_not_available", st)
     else match files st !! lb_storage_key r with
          | None => Ok (lerror 409 "library_note_not_available", st)
          | Some (content, _) =>
              match utf8_decode content with
              | Some markdown => Ok (LStatus 200 (BNote id r markdown), st)
              | None => Ok (lerror 409 "library_note_not_utf8", st)
              end
          end)
    (fun e => if is_does_not_exist e then Some (lerror 404 "library_note_not_found") else None).

(** ** Creating *)

Definition new_row (user : Z) (name : pystr) (kind : library_kind) (content_type : pystr) (size : Z) (sha storage_key : pystr)
    (parent : option pystr) (content_generation now : Z) : library_row :=
  LibraryObject user name kind content_type (Some size) sha storage_key parent OReady "" None None None None 0 content_generation now.

(** A request that creates something is checked in one state and committed in a later one: [others] is what
    other requests did in between. *)
Definition folder_prepare (st : store) (user : Z) (display_name parent_folder_id : pystr) : res lexn (pystr * option pystr) :=
  name ← _require_library_display_name display_name;
  parent ← _library_parent (library st) user parent_folder_id "";
  Ok (name, parent).
Definition folder_commit (st : store) (user : Z) (name : pystr) (parent : option pystr) (new_id link_id : pystr) (now : Z) : lib_handler :=
  run_tx st
    (_require_library_name_available (library st) user parent name "";;
     let r := new_row user name LFolder "application/vnd.centaeris.folder" 0 "" "" parent 0 now in
     st ← lift (create_library_object new_id r st);
     st ← create_link link_id (LibraryLink new_id LinkManual "") st;
     Ok (LStatus 201 (BObject new_id r), st))
    (fun e => if bool_decide (e = LibraryNameConflict) then Some (lerror 409 "library_name_conflict") else None).
Definition create_library_folder (st : store) (others : store -> store) (user : Z) (display_name parent_folder_id new_id link_id : pystr) (now : Z)
  : lib_handler :=
  match folder_prepare st user display_name parent_folder_id with
  | Err e => (if is_value_error e || is_does_not_exist e then Ok (lerror 400 "library_folder_request_invalid") else Err e, st)
  | Ok (name, parent) => folder_commit (others st) user name parent new_id link_id now
  end.

Definition endswith (s suffix : pystr) : bool := prefixb (rev (code_points suffix)) (rev (code_points s)).
Definition note_filename (display_name : pystr) : pystr :=
  if endswith (str_lower display_name) ".md" then display_name else display_name +:+ ".md".
Definition library_area (user : Z) : pystr := "users/" +:+ int_str user +:+ "/library".

(** The note is stored before its row is created. *)
Definition note_prepare (st : store) (user : Z) (display_name markdown parent_folder_id uuid : pystr) (now : Z)
  : res lexn (pystr * option pystr * metadata * store) :=
  name ← _require_library_display_name display_name;
  parent ← _library_parent (library st) user parent_folder_id "";
  content ← from_option_res (LExn UnicodeEncodeError) (utf8_encode markdown);
  p ← lift (store_bytes available_name content (library_area user) uuid (note_filename name) "text/markdown" now st);
  Ok (name, parent, p.1, p.2).
Definition note_commit (st : store) (user : Z) (name : pystr) (parent : option pystr) (md : metadata) (new_id link_id : pystr) (now : Z) : lib_handler :=
  let r := new_row user name LNote (md_content_type md) (md_size md) (md_sha256 md) (md_key md) parent 1 now in
  match (_require_library_name_available (library st) user parent name "";;
         st ← lift (create_library_object new_id r st);
         create_link link_id (LibraryLink new_id LinkManual "") st) with
  | Ok st' => (Ok (LStatus 201 (BObject new_id r)), st')
  | Err e => (if bool_decide (e = LibraryNameConflict) then Ok (lerror 409 "library_name_conflict") else Err e,
              delete_stored_object (md_key md) st)
  end.
Definition create_library_note (st : store) (others : store -> store) (user : Z) (display_name markdown parent_folder_id uuid new_id link_id : pystr) (now : Z)
  : lib_handler :=
  match note_prepare st user display_name markdown parent_folder_id uuid now with
  | Err e => (if is_value_error e || is_does_not_exist e then Ok (lerror 400 "library_note_request_invalid") else Err e, st)
  | Ok (name, parent, md, st1) => note_commit (others st1) user name parent md new_id link_id now
  end.

(** ** Changing *)

(** [Some v] is a field the request sets. *)
Record update_request := UpdateLibraryObject { ur_display_name : option pystr; ur_parent_folder_id : option pystr }.

Definition renamed (name : pystr) (parent : option pystr) (r : library_row) : library_row :=
  LibraryObject (lb_owner r) name (lb_kind r) (lb_content_type r) (lb_size r) (lb_sha256 r) (lb_storage_key r) parent
    (lb_status r) (lb_failure_reason r) (lb_deleted_at r) (lb_deleted_by r) (lb_purged_at r) (lb_deleted_from r)
    (lb_deletion_generation r) (lb_content_generation r) (lb_created_at r).

Definition update_library_object (st : store) (user : Z) (id : pystr) (payload : update_request) : lib_handler :=
  match ur_display_name payload, ur_parent_folder_id payload with
  | None, None => (Ok (lerror 400 "library_update_request_invalid"), st)
  | new_name, new_parent =>
      run_tx st
        (item ← live_object (library st) user id;
         name ← match new_name with Some n => _require_library_display_name n | None => Ok (lb_name item) end;
         parent ← match new_parent with Some p => _library_parent (library st) user p id | None => Ok (lb_parent item) end;
         if bool_decide (name = lb_name item) && bool_decide (parent = lb_parent item)
         then Ok (LStatus 200 (BObject id item), st)
         else
           _require_library_name_available (library st) user parent name id;;
           let item := renamed name parent item in
           st ← lift (save_library_object id item st);
           Ok (LStatus 200 (BObject id item), st))
        (fun e => if is_does_not_exist e then Some (lerror 404 "library_object_not_found")
                  else if bool_decide (e = LibraryNameConflict) then Some (lerror 409 "library_name_conflict")
                  else if is_value_error e then Some (lerror 400 "library_update_request_invalid") else None)
  end.

Definition rewritten (name : pystr) (md : metadata) (r : library_row) : library_row :=
  LibraryObject (lb_owner r) name (lb_kind r) (md_content_type md) (Some (md_size md)) (md_sha256 md) (md_key md) (lb_parent r)
    (lb_status r) (lb_failure_reason r) (lb_deleted_at r) (lb_deleted_by r) (lb_purged_at r) (lb_deleted_from r)
    (lb_deletion_generation r) (lb_content_generation r + 1) (lb_created_at r).

(** [commits]: the transaction reaches the database *)
Definition update_library_note (st : store) (user : Z) (id display_name markdown uuid : pystr) (now : Z) (commits : bool) : lib_handler :=
  let not_stored :=
    name ← _require_library_display_name display_name;
    item ← _library_object (library st) user id;
    require (bool_decide (lb_kind item = LNote) && bool_decide (lb_status item = OReady)) (LExn DoesNotExist);;
    _require_library_name_available (library st) user (lb_parent item) name id;;
    content ← from_option_res (LExn UnicodeEncodeError) (utf8_encode markdown);
    p ← lift (store_bytes available_name content (library_area user) uuid (note_filename name) "text/markdown" now st);
    Ok (item, rewritten name p.1 item, p.1, p.2) in
  let handle e :=
    if is_does_not_exist e then Ok (lerror 404 "library_note_not_found")
    else if bool_decide (e = LibraryNameConflict) then Ok (lerror 409 "library_name_conflict")
    else if is_value_error e then Ok (lerror 400 "library_note_request_invalid") else Err e in
  match not_stored with
  | Err e => (handle e, st)
  | Ok (item, item', md, st1) =>
      match (st2 ← lift (save_library_object id item' st1);
             st2 ← lift (tombstone_superseded_derived_resources (OwnLibrary id item') now st2);
             Ok (delete_stored_object (lb_storage_key item) st2)) with
      | Err e => (handle e, delete_stored_object (md_key md) (rollback st st1))
      | Ok st3 =>
          if commits then (Ok (LStatus 200 (BNote id item' markdown)), st3)
          else (Err (LExn IntegrityError), delete_stored_object (md_key md) (rollback st st3))
      end
  end.

(** ** Deleting and restoring *)

Definition delete_library_object (st : store) (user : Z) (id resource_id : pystr) (now : Z) : lib_handler :=
  run_tx st
    (item ← live_object (library st) user id;
     if bool_decide (lb_kind item = LFolder)
        && qs_exists (fun r => bool_decide (lb_parent r = Some id) && negb (bool_decide (lb_status r = ODeleted))) (library st)
     then Ok (lerror 409 "library_folder_not_empty", st)
     else
       st ← lift (tombstone_stored_object (OwnLibrary id item) now (Some user) resource_id st);
       Ok (LStatus 200 BDeleted, st))
    (fun e => if is_does_not_exist e then Some (lerror 404 "library_object_not_found") else None).

(** the columns a restore writes to the resources of the object's bytes *)
Definition reactivated (r : resource_row) : resource_row :=
  Resource (dr_owner_kind r) (dr_owner_id r) (dr_content_generation r) (dr_deletion_generation r) (dr_resource_kind r)
    (dr_resource_key r) RActive None "" None (dr_attempts r) "" None.
Definition bytes_resource (id key : pystr) (r : resource_row) : bool :=
  owned_by KUserLibraryObject id r && bool_decide (dr_resource_kind r = "storageObject") && bool_decide (dr_resource_key r = key).

(** The error code and the store. *)
Definition _prepare_library_storage_restore (id : pystr) (item : library_row) (st : store) : res exn (pystr * store) :=
  if is_empty (lb_storage_key item) then Ok ("", st)
  else
    let selected := bytes_resource id (lb_storage_key item) in
    let in_state s := qs_exists (fun r => selected r && bool_decide (dr_state r = s)) (resources st) in
    if in_state RCleaning then Ok ("library_object_restore_busy", st)
    else if in_state RCleaned || negb (storage_exists (lb_storage_key item) st) then Ok ("library_object_not_restorable", st)
    else st' ← update_resources selected reactivated st; Ok ("", st').

Definition restored (name : pystr) (status : object_status) (r : library_row) : library_row :=
  LibraryObject (lb_owner r) name (lb_kind r) (lb_content_type r) (lb_size r) (lb_sha256 r) (lb_storage_key r) (lb_parent r)
    status (lb_failure_reason r) None None None None (lb_deletion_generation r) (lb_content_generation r + 1) (lb_created_at r).

Definition restore_library_object (st : store) (user : Z) (id : pystr) (now : Z) : lib_handler :=
  run_tx st
    (item ← _library_object (library st) user id;
     require (bool_decide (lb_status item = ODeleted)) (LExn DoesNotExist);;
     if negb (trash_is_restorable (lb_deleted_at item) (lb_purged_at item) now) then Ok (lerror 410 "library_object_expired", st)
     else
       let parent_ready := match lb_parent item with
                           | None => true
                           | Some p => match library st !! p with
                                       | Some f => (lb_owner f =? user) && bool_decide (lb_kind f = LFolder) && bool_decide (lb_status f = OReady)
                                       | None => false
                                       end
                           end in
       if negb parent_ready then Ok (lerror 409 "library_restore_parent_unavailable", st)
       else
         prepared ← lift (_prepare_library_storage_restore id item st);
         if negb (is_empty prepared.1) then Ok (lerror 409 prepared.1, prepared.2)
         else
           name ← _available_numbered_library_name (library prepared.2) user (lb_parent item) (lb_name item) id;
           (* [deletedFromStatus] is never empty on a deleted row *)
           status ← from_option_res (LExn (ValueError "unsupported UserLibraryObject.status")) (lb_deleted_from item);
           let item := restored name status item in
           st ← lift (save_library_object id item prepared.2);
           Ok (LStatus 200 (BObject id item), st))
    (fun e => if is_does_not_exist e then Some (lerror 404 "library_object_not_found") else None).

Definition purged (now : Z) (r : library_row) : library_row :=
  LibraryObject (lb_owner r) (lb_name r) (lb_kind r) (lb_content_type r) (lb_size r) (lb_sha256 r) (lb_storage_key r) (lb_parent r)
    (lb_status r) (lb_failure_reason r) (lb_deleted_at r) (lb_deleted_by r) (Some now) (lb_deleted_from r)
    (lb_deletion_generation r) (lb_content_generation r) (lb_created_at r).

Definition permanently_delete_library_object (st : store) (user : Z) (id : pystr) (now : Z) : lib_handler :=
  run_tx st
    (item ← _library_object (library st) user id;
     if negb (bool_decide (lb_status item = ODeleted)) then Ok (lerror 409 "library_object_not_deleted", st)
     else if bool_decide (is_Some (lb_purged_at item)) then Ok (lerror 410 "library_object_purged", st)
     else
       st ← lift (save_library_object id (purged now item) st);
       st ← lift (update_resources (fun r => owned_by KUserLibraryObject id r && negb (bool_decide (dr_state r = RCleaned)))
                   (fun r => set_resource_state (dr_state r) (Some (trash_cutoff now)) r) st);
       Ok (LStatus 200 BDeleted, st))
    (fun e => if is_does_not_exist e then Some (lerror 404 "library_object_not_found") else None).

(** ** Uploading *)

(** [form_files] are the names of the file fields, [form_fields] those of the other fields. *)
Definition _require_uploads (uploads : list upload_file) (form_files form_fields allowed : list pystr) : res lexn unit :=
  require (negb (bool_decide (uploads = []))) (LExn (ValueError "files_required"));;
  require (forallb (fun f => bool_decide (f = "files")) form_files && forallb (fun f => bool_decide (f ∈ allowed)) form_fields)
    (LExn (ValueError "upload_fields_invalid"));;
  require (zlen uploads <=? MAX_UPLOAD_BATCH_FILES) (LExn (ValueError "upload_batch_too_large")).

(** every file is tried; [true] once a deletion failed *)
Fixpoint delete_batch (stored : list metadata) (failed : bool) (st : store) : bool * store :=
  match stored with
  | [] => (failed, st)
  | md :: stored =>
      match delete_stored_object_for_gc (md_key md) st with
      | Ok st => delete_batch stored failed st
      | Err _ => delete_batch stored true st
      end
  end.
Definition _delete_stored_upload_batch (stored : list metadata) (st : store) : res exn unit * store :=
  let '(failed, st) := delete_batch stored false st in
  (require (negb failed) (RuntimeError "upload_batch_cleanup_failed"), st).
(** The handler of a failed request: what was stored is deleted and [answer] given, or the error of the clean-up raised. *)
Definition after_cleanup {E A} (raised : exn -> E) (stored : list metadata) (answer : res E A) (st : store) : res E A * store :=
  let '(cleaned, st) := _delete_stored_upload_batch stored st in
  (match cleaned with Ok _ => answer | Err e => Err (raised e) end, st).

(** [uuids n] is the random directory of the [n]-th file.  On an error the files stored so far are
    deleted again. *)
Fixpoint store_uploads (uploads : list upload_file) (area : pystr) (uuids : nat -> pystr) (now : Z) (stored : list metadata) (st : store)
  : res lexn (list metadata) * store :=
  match uploads with
  | [] => (Ok stored, st)
  | u :: uploads =>
      match store_upload available_name u area (uuids (length stored)) now st with
      | (Ok md, st) => store_uploads uploads area uuids now (stored ++ [md]) st
      | (Err e, st) => after_cleanup LExn stored (Err (LExn e)) st
      end
  end.
Definition _store_upload_batch (uploads : list upload_file) (area : pystr) (uuids : nat -> pystr) (now : Z) (st : store)
  : res lexn (list metadata) * store := store_uploads uploads area uuids now [] st.

(** the oldest ready object of the user with these contents *)
Definition reusable_object (lib : gmap pystr library_row) (user : Z) (sha : pystr) : option (pystr * library_row) :=
  head (order_by Z.le lb_created_at
    (qs_list (fun r => (lb_owner r =? user) && bool_decide (lb_status r = OReady) && bool_decide (lb_sha256 r = sha)) lib)).

Definition _create_uploaded_library_object (st : store) (user : Z) (md : metadata) (parent : option pystr) (new_id link_id : pystr) (now : Z)
  : res lexn (pystr * library_row * store) :=
  match reusable_object (library st) user (md_sha256 md) with
  | Some (id, r) =>
      st ← lift (delete_stored_object_for_gc (md_key md) st);
      Ok (id, r, st)
  | None =>
      candidate ← numbered_name_loop (S (size (library st))) (library st) user parent (md_name md) "" 0;
      let r := new_row user candidate (if startswith (md_content_type md) "image/" then LImage else LFile) (md_content_type md)
                 (md_size md) (md_sha256 md) (md_key md) parent 1 now in
      st ← lift (create_library_object new_id r st);
      st ← create_link link_id (LibraryLink new_id LinkUpload "") st;
      Ok (new_id, r, st)
  end.

(** [ids n] and [link_ids n] are the primary keys of the rows the [n]-th file may create. *)
Fixpoint create_uploaded (st : store) (user : Z) (stored : list metadata) (parent : option pystr) (ids link_ids : nat -> pystr) (now : Z)
    (n : nat) (items : list (pystr * library_row)) : res lexn (list (pystr * library_row) * store) :=
  match stored with
  | [] => Ok (items, st)
  | md :: stored =>
      p ← _create_uploaded_library_object st user md parent (ids n) (link_ids n) now;
      let '(id, r, st) := p in
      create_uploaded st user stored parent ids link_ids now (S n)
        (if bool_decide (id ∈ map fst items) then items else items ++ [(id, r)])
  end.
Definition _create_uploaded_library_objects (st : store) (user : Z) (stored : list metadata) (parent : option pystr)
    (ids link_ids : nat -> pystr) (now : Z) : res lexn (list (pystr * library_row) * store) :=
  create_uploaded st user stored parent ids link_ids now 0 [].

Definition error_text (e : lexn) : pystr :=
  match e with
  | LExn (ValueError m) => m
  | LExn DoesNotExist => "UserLibraryObject matching query does not exist."
  | _ => ""
  end.

Definition upload_prepare (st : store) (user : Z) (uploads : list upload_file) (form_files form_fields : list pystr) (parent_folder_id : pystr)
    (uuids : nat -> pystr) (now : Z) : res lexn (option pystr * list metadata) * store :=
  match (_require_uploads uploads form_files form_fields ["parentFolderId"];; _library_parent (library st) user parent_folder_id "") with
  | Err e => (Err e, st)
  | Ok parent =>
      let '(stored, st) := _store_upload_batch uploads (library_area user) uuids now st in
      (stored ← stored; Ok (parent, stored), st)
  end.
Definition upload_commit (st : store) (user : Z) (parent : option pystr) (stored : list metadata) (ids link_ids : nat -> pystr) (now : Z) : lib_handler :=
  match _create_uploaded_library_objects st user stored parent ids link_ids now with
  | Ok (items, st') => (Ok (LStatus 201 (BObjects items)), st')
  | Err e => after_cleanup LExn stored (Err e) st
  end.
Definition upload_library_objects (st : store) (others : store -> store) (user : Z) (uploads : list upload_file)
    (form_files form_fields : list pystr) (parent_folder_id : pystr) (uuids ids link_ids : nat -> pystr) (now : Z) : lib_handler :=
  match upload_prepare st user uploads form_files form_fields parent_folder_id uuids now with
  | (Err e, st1) => (if is_value_error e || is_does_not_exist e then Ok (lerror 400 (error_text e)) else Err e, st1)
  | (Ok (parent, stored), st1) => upload_commit (others st1) user parent stored ids link_ids now
  end.
End library.
