(* ===== verification/Sources.v ===== *)
(** * Shared sources

    The endpoints of [packages/api/app_core/http/sources.py] with [Source], [SourceObject] and [SourceGrant] of
    [packages/api/app_core/models.py]: who may see, change, share, delete and restore a source of a workspace. *)

From stdpp Require Import base tactics list gmap numbers.
From S2P Require Import Prelude PyStr Table Utf8 Sha256 Platform Schema Access Assets.

Inductive source_type := UploadedFile | FileTree.
#[global] Instance source_type_eq_dec : EqDecision source_type.
Proof. solve_decision. Defined.

(** [Source] *)
Record source_state := SourceState {
  sc_workspace : pystr; sc_type : source_type; sc_name : pystr; sc_status : object_status;
  sc_failure_reason : pystr; sc_deleted_at : option Z; sc_deleted_by : option Z; sc_purged_at : option Z;
  sc_deleted_from : option object_status; sc_created_by : Z }.

(** The identity tables, the sources and the stored objects. *)
Record sstate := SState { x_db : db; x_sources : gmap pystr source_state; x_store : store }.
Definition set_x_db f x := SState (f (x_db x)) (x_sources x) (x_store x).
Definition set_x_sources f x := SState (x_db x) (f (x_sources x)) (x_store x).
Definition set_x_store f x := SState (x_db x) (x_sources x) (f (x_store x)).

(** The identity tables with the source table the access rules read. *)
Definition access_db (x : sstate) : db :=
  let d := x_db x in
  Db (users d) (workspaces d) (memberships d) (groups d) (group_members d) ((fun s => Source (sc_workspace s)) <$> x_sources x)
    (grants d) (invitations d) (definitions d) (definition_members d) (agents d) (sessions d) (apps d) (delegations d).

Inductive sbody :=
| SSource (id : pystr) (s : source_state) (access : access_level)
| SSources (l : list (pystr * source_state * access_level))
| SObject (id : pystr) (r : source_object_row)
| SObjects (l : list (pystr * source_object_row))
| SGrant (id : pystr) (g : grant_row)
| SGrants (l : list (pystr * grant_row))
| SOk
| SError (code : pystr).
Inductive sresponse := SStatus (code : Z) (body : sbody).
Definition serror (status : Z) (code : pystr) : sresponse := SStatus status (SError code).
Abbreviation source_handler := (res exn (sresponse * sstate)).

(** ** Saving *)

Definition source_lifecycle_valid (s : source_state) : bool :=
  match sc_status s with
  | ODeleted =>
      match sc_deleted_at s, sc_deleted_from s with
      | Some d, Some (OProcessing | OReady | OFailed) => match sc_purged_at s with Some p => d <=? p | None => true end
      | _, _ => false
      end
  | _ => bool_decide (sc_deleted_at s = None) && bool_decide (sc_purged_at s = None) && bool_decide (sc_deleted_from s = None)
  end.
Definition save_source (id : pystr) (s : source_state) (x : sstate) : res exn sstate :=
  require (source_lifecycle_valid s) (ValueError "Source lifecycle shape is invalid");;
  require_failure_reason (bool_decide (sc_status s = OFailed)) (sc_failure_reason s);;
  Ok (set_x_sources <[id := s]> x).
Definition create_source_row (id : pystr) (s : source_state) (x : sstate) : res exn sstate :=
  match x_sources x !! id with Some _ => Err IntegrityError | None => save_source id s x end.

(** [SourceObject.objects.create]: [unique_source_object_path] *)
Definition create_source_object (id : pystr) (r : source_object_row) (x : sstate) : res exn sstate :=
  let t := source_objects (x_store x) in
  require (bool_decide (t !! id = None)
           && negb (qs_exists (fun r' => bool_decide (so_source r' = so_source r) && bool_decide (so_path r' = so_path r)) t)) IntegrityError;;
  require match x_sources x !! so_source r with Some s => bool_decide (so_workspace r = sc_workspace s) | None => false end
    (ValueError "SourceObject workspace/source binding mismatch");;
  st ← save_source_object id r (x_store x);
  Ok (set_x_store (fun _ => st) x).

(** [SourceGrant.objects.create] and [save]: [unique_source_workspace_group_grant] and the workspace bindings *)
Definition save_grant (id : pystr) (g : grant_row) (x : sstate) : res exn sstate :=
  require match x_sources x !! gr_source g with Some s => bool_decide (gr_workspace g = sc_workspace s) | None => false end
    (ValueError "SourceGrant workspace/source binding mismatch");;
  require match groups (x_db x) !! gr_group g with Some w => bool_decide (gr_workspace g = g_workspace w) | None => false end
    (ValueError "SourceGrant workspace/group binding mismatch");;
  require (bool_decide (map_Forall (fun k g' => k = id \/ (gr_source g', gr_group g') <> (gr_source g, gr_group g)) (grants (x_db x))))
    IntegrityError;;
  Ok (set_x_db (set_grants <[id := g]>) x).

Section sources.
Context {PL : Platform} (available_name : files_t -> pystr -> pystr).

Definition _normalize_source_name (value : pystr) : res exn pystr :=
  let normalized := nfc (strip value) in
  require (negb (is_empty normalized)) (ValueError "source_name_required");;
  Ok normalized.

(** ** Lookups *)

Definition _source_for_member (x : sstate) (user : option Z) (wid sid : pystr) : res exn (option (pystr * membership_row * source_state)) :=
  membership ← workspace_membership_for (access_db x) user wid WORKSPACE_ROLES;
  match membership with
  | None => Ok None
  | Some (mid, m) =>
      match x_sources x !! sid with
      | Some s => Ok (if bool_decide (sc_workspace s = wid) then Some (mid, m, s) else None)
      | None => Ok None
      end
  end.
Definition access_at_least (x : sstate) (mid : pystr) (m : membership_row) (sid : pystr) (s : source_state) (required : access_level) : res exn bool :=
  source_access_is_at_least (access_db x) mid m sid (Source (sc_workspace s)) required.

Definition _source_for_access (x : sstate) (user : option Z) (wid sid : pystr) (required : access_level)
  : res exn (option (pystr * membership_row * source_state)) :=
  selected ← _source_for_member x user wid sid;
  match selected with
  | None => Ok None
  | Some (mid, m, s) => granted ← access_at_least x mid m sid s required; Ok (if granted : bool then selected else None)
  end.

Definition _locked_source_for_access (x : sstate) (user : Z) (wid sid : pystr) (required : access_level)
  : res exn (option (pystr * membership_row * source_state)) :=
  membership ← locked_workspace_membership_for (access_db x) user wid WORKSPACE_ROLES;
  match membership with
  | None => Ok None
  | Some (mid, m) =>
      match x_sources x !! sid with
      | Some s =>
          if bool_decide (sc_workspace s = wid) then
            granted ← access_at_least x mid m sid s required; Ok (if granted : bool then Some (mid, m, s) else None)
          else Ok None
      | None => Ok None
      end
  end.

(** [if locked is None: return 404] *)
Definition with_source (x : sstate) (locked : res exn (option (pystr * membership_row * source_state)))
    (k : pystr -> membership_row -> source_state -> source_handler) : source_handler :=
  locked ← locked;
  match locked with
  | None => Ok (serror 404 "source_not_found", x)
  | Some (mid, m, s) => k mid m s
  end.
Definition source_deleted (s : source_state) : bool := bool_decide (sc_status s = ODeleted).

(** ** Sources *)

Definition list_sources (x : sstate) (user : Z) (wid : pystr) : source_handler :=
  access ← source_access_map_for_workspace_member (access_db x) (Some user) wid;
  match access with
  | None => Ok (serror 404 "workspace_not_found", x)
  | Some access =>
      let listed := filter (fun ks => is_Some (access !! ks.1) /\ source_deleted ks.2 = false) (map_to_list (x_sources x)) in
      Ok (SStatus 200 (SSources (omap (fun ks => a ← access !! ks.1; Some (ks.1, ks.2, a)) (order_by str_le sc_name listed))), x)
  end.

Definition create_source (x : sstate) (user : Z) (wid source_type name new_id : pystr) : source_handler :=
  membership ← locked_workspace_membership_for (access_db x) user wid WORKSPACE_ROLES;
  match membership with
  | Some (_, m) =>
      if role_in (m_role m) WORKSPACE_ADMIN_ROLES then
        let source_type := strip source_type in
        if negb (bool_decide (source_type = "uploadedFile") || bool_decide (source_type = "fileTree"))
        then Ok (serror 400 "invalid_source", x)
        else
          let s := SourceState wid (if bool_decide (source_type = "uploadedFile") then UploadedFile else FileTree) name OProcessing ""
                     None None None None user in
          x' ← create_source_row new_id s x;
          Ok (SStatus 201 (SSource new_id s AccessControl), x')
      else Ok (serror 404 "workspace_not_found", x)
  | None => Ok (serror 404 "workspace_not_found", x)
  end.

Definition set_sc_name (name : pystr) (s : source_state) : source_state :=
  SourceState (sc_workspace s) (sc_type s) name (sc_status s) (sc_failure_reason s) (sc_deleted_at s) (sc_deleted_by s)
    (sc_purged_at s) (sc_deleted_from s) (sc_created_by s).
Definition set_sc_lifecycle (status : object_status) (deleted_at deleted_by purged_at : option Z) (from : option object_status) (s : source_state) : source_state :=
  SourceState (sc_workspace s) (sc_type s) (sc_name s) status (sc_failure_reason s) deleted_at deleted_by purged_at from (sc_created_by s).

Definition update_source (x : sstate) (user : Z) (wid sid name : pystr) : source_handler :=
  with_source x (_locked_source_for_access x user wid sid AccessControl) (fun _ _ s =>
    if source_deleted s then Ok (serror 410 "source_deleted", x)
    else if bool_decide (sc_name s = name) then Ok (serror 409 "source_name_unchanged", x)
    else
      x' ← save_source sid (set_sc_name name s) x;
      Ok (SStatus 200 (SSource sid (set_sc_name name s) AccessControl), x')).

Definition restore_source (x : sstate) (user : Z) (wid sid : pystr) (now : Z) : source_handler :=
  with_source x (_locked_source_for_access x user wid sid AccessControl) (fun _ _ s =>
    if source_deleted s then
      if negb (trash_is_restorable (sc_deleted_at s) (sc_purged_at s) now) then Ok (serror 410 "source_expired", x)
      else
        status ← from_option_res (ValueError "unsupported Source.status") (sc_deleted_from s);
        let s := set_sc_lifecycle status None None None None s in
        x' ← save_source sid s x;
        Ok (SStatus 200 (SSource sid s AccessControl), x')
    else Ok (serror 409 "source_not_restorable", x)).

Definition delete_source (x : sstate) (user : Z) (wid sid : pystr) (now : Z) : source_handler :=
  with_source x (_locked_source_for_access x user wid sid AccessControl) (fun _ _ s =>
    if source_deleted s then Ok (serror 410 "source_deleted", x)
    else
      x' ← save_source sid (set_sc_lifecycle ODeleted (Some now) (Some user) (sc_purged_at s) (Some (sc_status s)) s) x;
      Ok (SStatus 200 SOk, x')).

Definition permanently_delete_source (x : sstate) (user : Z) (wid sid : pystr) (now : Z) : source_handler :=
  with_source x (_locked_source_for_access x user wid sid AccessControl) (fun _ _ s =>
    if negb (source_deleted s) then Ok (serror 409 "source_not_deleted", x)
    else if bool_decide (is_Some (sc_purged_at s)) then Ok (serror 410 "source_purged", x)
    else
      x' ← save_source sid (set_sc_lifecycle ODeleted (sc_deleted_at s) (sc_deleted_by s) (Some now) (sc_deleted_from s) s) x;
      Ok (SStatus 200 SOk, x')).

(** ** Objects of a source *)

Definition granted_source_objects (x : sstate) (user : Z) (sid : pystr) (s : source_state) : res exn (list (pystr * source_object_row)) :=
  if negb (bool_decide (sc_status s = OReady)) then Ok []
  else
    membership ← workspace_membership_for (access_db x) (Some user) (sc_workspace s) WORKSPACE_ROLES;
    match membership with
    | None => Ok []
    | Some (mid, m) =>
        granted ← access_at_least x mid m sid s AccessRead;
        Ok (if granted : bool then
              order_by str_le so_path
                (qs_list (fun r => bool_decide (so_source r = sid) && negb (bool_decide (so_status r = ODeleted))) (source_objects (x_store x)))
            else [])
    end.
(** [source_object_is_granted] *)
Definition source_object_is_granted (x : sstate) (user : Z) (r : source_object_row) : res exn bool :=
  s ← from_option_res DoesNotExist (x_sources x !! so_source r);
  if negb (bool_decide (sc_status s = OReady)) then Ok false
  else
    membership ← workspace_membership_for (access_db x) (Some user) (so_workspace r) WORKSPACE_ROLES;
    match membership with
    | None => Ok false
    | Some (mid, m) => access_at_least x mid m (so_source r) s AccessRead
    end.

Definition list_source_objects (x : sstate) (user : Z) (wid sid : pystr) : source_handler :=
  with_source x (_source_for_access x (Some user) wid sid AccessRead) (fun _ _ s =>
    if source_deleted s then Ok (serror 410 "source_deleted", x)
    else objects ← granted_source_objects x user sid s; Ok (SStatus 200 (SObjects objects), x)).

Definition set_sc_ready (s : source_state) : source_state :=
  SourceState (sc_workspace s) (sc_type s) (sc_name s) OReady "" (sc_deleted_at s) (sc_deleted_by s) (sc_purged_at s)
    (sc_deleted_from s) (sc_created_by s).

(** The file is stored after a first check; an early answer, or the path and the stored file. *)
Definition source_upload_prepare (x : sstate) (user : Z) (wid sid : pystr) (upload : option upload_file) (display_path uuid : pystr) (now : Z)
  : res exn (sresponse + pystr * metadata) * sstate :=
  let handle e := match e with ValueError message => Ok (inl (serror 400 message)) | UnicodeEncodeError => Ok (inl (serror 400 "")) | e => Err e end in
  match _source_for_member x (Some user) wid sid with
  | Err e => (Err e, x)
  | Ok None => (Ok (inl (serror 404 "source_not_found")), x)
  | Ok (Some (mid, m, s)) =>
      let checked :=
        upload ← from_option_res (ValueError "file_required") upload;
        path ← normalize_display_path (if is_empty display_path then uf_name upload else display_path);
        granted ← access_at_least x mid m sid s AccessWrite;
        if negb granted then Ok (inl (serror 404 "source_not_found"))
        else if source_deleted s then Ok (inl (serror 410 "source_deleted"))
        else Ok (inr (upload, path)) in
      match checked with
      | Err e => (handle e, x)
      | Ok (inl response) => (Ok (inl response), x)
      | Ok (inr (upload, path)) =>
          let '(stored, st) := store_upload available_name upload ("workspaces/" +:+ wid +:+ "/sources/" +:+ sid) uuid now (x_store x) in
          (match stored with Ok md => Ok (inr (path, md)) | Err e => handle e end, set_x_store (fun _ => st) x)
      end
  end.
(** The transaction checks everything again.  Whenever no object is created the stored file is deleted. *)
Definition source_upload_commit (x : sstate) (user : Z) (wid sid path : pystr) (md : metadata) (new_id : pystr) : res exn sresponse * sstate :=
  let discard := set_x_store (delete_stored_object (md_key md)) x in
  match _locked_source_for_access x user wid sid AccessWrite with
  | Err e => (Err e, discard)
  | Ok None => (Ok (serror 404 "source_not_found"), discard)
  | Ok (Some (_, _, s)) =>
      if source_deleted s then (Ok (serror 410 "source_deleted"), discard)
      else
        let r := SourceObject (sc_workspace s) sid false path (md_name md) (md_content_type md) (Some (md_size md)) (md_sha256 md)
                   (md_key md) (md_sha256 md) 1 OReady "" None 0 in
        match (x ← create_source_object new_id r x; save_source sid (set_sc_ready s) x) with
        | Ok x' => (Ok (SStatus 201 (SObject new_id r)), x')
        | Err e => (Err e, discard)
        end
  end.
(** [others] is what happens between the storing of the file and the transaction. *)
Definition upload_source_object (x : sstate) (others : sstate -> sstate) (user : Z) (wid sid : pystr) (upload : option upload_file)
    (display_path uuid new_id : pystr) (now : Z) : res exn sresponse * sstate :=
  match source_upload_prepare x user wid sid upload display_path uuid now with
  | (Err e, x) => (Err e, x)
  | (Ok (inl response), x) => (Ok response, x)
  | (Ok (inr (path, md)), x) => source_upload_commit (others x) user wid sid path md new_id
  end.

(** ** Grants *)

(** [grant_row] has no creation time: the grants are listed in primary-key order. *)
Definition list_source_grants (x : sstate) (user : Z) (wid sid : pystr) : source_handler :=
  with_source x (_source_for_access x (Some user) wid sid AccessControl) (fun _ _ s =>
    if source_deleted s then Ok (serror 410 "source_deleted", x)
    else Ok (SStatus 200 (SGrants (qs_list (fun g => bool_decide (gr_source g = sid)) (grants (x_db x)))), x)).

Definition create_source_grant (x : sstate) (user : Z) (wid sid group_id : pystr) (access : access_level) (new_id : pystr) : source_handler :=
  with_source x (_locked_source_for_access x user wid sid AccessControl) (fun _ m s =>
    if source_deleted s then Ok (serror 410 "source_deleted", x)
    else
      let group_id := strip group_id in
      if is_empty group_id then Ok (serror 400 "invalid_source_grant", x)
      else match groups (x_db x) !! group_id with
           | Some w =>
               if negb (bool_decide (g_workspace w = m_workspace m)) then Ok (serror 400 "invalid_source_grant", x)
               else if qs_exists (fun g => bool_decide (gr_source g = sid) && bool_decide (gr_group g = group_id)) (grants (x_db x))
               then Ok (serror 409 "source_grant_exists", x)
               else
                 let g := Grant (m_workspace m) sid group_id access in
                 require (bool_decide (grants (x_db x) !! new_id = None)) IntegrityError;;
                 x' ← save_grant new_id g x;
                 Ok (SStatus 201 (SGrant new_id g), x')
           | None => Ok (serror 400 "invalid_source_grant", x)
           end).

(** [SourceGrant.objects.filter(id=..., workspace_id=..., source=source).first()] *)
Definition grant_of (x : sstate) (m : membership_row) (sid grant_id : pystr) : option grant_row :=
  g ← grants (x_db x) !! grant_id;
  if bool_decide (gr_workspace g = m_workspace m) && bool_decide (gr_source g = sid) then Some g else None.

Definition update_source_grant (x : sstate) (user : Z) (wid sid grant_id : pystr) (access : access_level) : source_handler :=
  with_source x (_locked_source_for_access x user wid sid AccessControl) (fun _ m s =>
    if source_deleted s then Ok (serror 410 "source_deleted", x)
    else match grant_of x m sid grant_id with
         | None => Ok (serror 404 "source_grant_not_found", x)
         | Some g =>
             if bool_decide (gr_access g = access) then Ok (serror 409 "source_grant_access_unchanged", x)
             else
               let g := Grant (gr_workspace g) (gr_source g) (gr_group g) access in
               x' ← save_grant grant_id g x;
               Ok (SStatus 200 (SGrant grant_id g), x')
         end).

Definition delete_source_grant (x : sstate) (user : Z) (wid sid grant_id : pystr) : source_handler :=
  with_source x (_locked_source_for_access x user wid sid AccessControl) (fun _ m s =>
    if source_deleted s then Ok (serror 410 "source_deleted", x)
    else match grant_of x m sid grant_id with
         | None => Ok (serror 404 "source_grant_not_found", x)
         | Some _ => Ok (SStatus 200 SOk, set_x_db (set_grants (delete grant_id)) x)
         end).
End sources.
