(* ===== verification/ResourceGc.v ===== *)
(** * Reclaiming deleted resources

    [packages/api/app_core/deleted_resource_gc.py] and the command [gc_deleted_resources.py] that runs it: expired
    trash is purged, due derived resources are claimed under a lease, verified, deleted and marked.  Every
    database transaction and every storage operation is a definition of its own, so that other requests can
    happen in between. *)

From stdpp Require Import base tactics list gmap numbers sorting.
From S2P Require Import Prelude PyStr Table Utf8 Sha256 Platform Schema Json Assets Sources.

(** An exception with its text. *)
Definition gc_error : Type := pystr.
Definition LEASE : Z := 5 * 60 * 1000000.

(** ** Due resources *)

Definition owner_kind_str (k : owner_kind) : pystr :=
  match k with KSourceObject => "sourceObject" | KUserLibraryObject => "userLibraryObject" | KArtifact => "artifact" end.
Definition is_storage (r : resource_row) : bool := bool_decide (dr_resource_kind r = "storageObject").

(** The sort key of [collect_deleted_resource_gc], compared as Python compares tuples. *)
Definition then_by (lt eq rest : bool) : bool := lt || (eq && rest).
Definition due_lt (x y : pystr * resource_row) : bool :=
  let a := x.2 in let b := y.2 in
  let ka := owner_kind_str (dr_owner_kind a) in let kb := owner_kind_str (dr_owner_kind b) in
  then_by (str_ltb ka kb) (bool_decide (ka = kb))
    (then_by (str_ltb (dr_owner_id a) (dr_owner_id b)) (bool_decide (dr_owner_id a = dr_owner_id b))
      (then_by (dr_deletion_generation a <? dr_deletion_generation b) (dr_deletion_generation a =? dr_deletion_generation b)
        (then_by (negb (is_storage a) && is_storage b) (bool_decide (is_storage a = is_storage b)) (str_ltb x.1 y.1)))).
Definition due_le (x y : pystr * resource_row) : Prop := due_lt y x = false.
#[global] Instance due_le_dec : RelDecision due_le.
Proof. intros x y. unfold due_le. apply _. Defined.

Definition is_due (cutoff : Z) (r : resource_row) : bool :=
  match dr_tombstoned_at r with Some t => t <=? cutoff | None => false end && negb (bool_decide (dr_state r = RCleaned)).
Definition due_resources (cutoff : Z) (st : store) : list (pystr * resource_row) :=
  merge_sort due_le (qs_list (is_due cutoff) (resources st)).

Definition _has_uncleaned_derived_resources (st : store) (r : resource_row) : bool :=
  qs_exists (fun r' => owned_by (dr_owner_kind r) (dr_owner_id r) r' && (dr_deletion_generation r' =? dr_deletion_generation r)
                       && negb (is_storage r') && negb (bool_decide (dr_state r' = RCleaned))) (resources st).

(** ** One resource *)

Definition claimed_resource (lease_owner : pystr) (now : Z) (r : resource_row) : resource_row :=
  Resource (dr_owner_kind r) (dr_owner_id r) (dr_content_generation r) (dr_deletion_generation r) (dr_resource_kind r)
    (dr_resource_key r) RCleaning (dr_tombstoned_at r) lease_owner (Some (now + LEASE)) (dr_attempts r + 1) "" (dr_cleaned_at r).

(** [None]: another worker holds it, or it needs no cleaning *)
Definition _claim_resource (st : store) (id lease_owner : pystr) (now : Z) : res exn (option resource_row * store) :=
  r ← from_option_res DoesNotExist (resources st !! id);
  let leased := bool_decide (dr_state r = RCleaning) && match dr_lease_expires_at r with Some t => now <? t | None => false end in
  if bool_decide (dr_state r = RCleaned) || leased || bool_decide (dr_state r = RActive) then Ok (None, st)
  else
    let r := claimed_resource lease_owner now r in
    st ← save_resource id r st;
    Ok (Some r, st).

Definition find_owner (st : store) (kind : owner_kind) (id : pystr) : option owner :=
  match kind with
  | KSourceObject => OwnSource id <$> source_objects st !! id
  | KUserLibraryObject => OwnLibrary id <$> library st !! id
  | KArtifact => OwnArtifact id <$> artifacts st !! id
  end.
Definition owner_purged (o : owner) : bool :=
  match o with OwnLibrary _ r => bool_decide (is_Some (lb_purged_at r)) | _ => true end.
Definition reclaimable (r : resource_row) (o : owner) : bool :=
  let deleted := o_deleted o && (o_deletion_generation o =? dr_deletion_generation r) && bool_decide (is_Some (o_deleted_at o)) && owner_purged o in
  let stale := (0 <? dr_content_generation r) && (dr_content_generation r <? o_content_generation o) in
  deleted || stale.
Definition _verify_deleted_owner (st : store) (r : resource_row) : res gc_error unit :=
  o ← from_option_res ("derived resource owner is missing" : gc_error) (find_owner st (dr_owner_kind r) (dr_owner_id r));
  require (reclaimable r o) "derived resource owner generation is no longer reclaimable".

(** [storage_ok]: the storage backend deleted the object *)
Definition _clean_resource (st : store) (r : resource_row) (storage_ok : bool) : res gc_error store :=
  require (is_storage r) "unsupported derived resource kind";;
  require (negb (is_empty (dr_resource_key r))) "GC storage resource key is empty";;
  require storage_ok "GC storage object remains after delete";;
  Ok (storage_delete (dr_resource_key r) st).

Definition held_by (lease_owner : pystr) (r : resource_row) : bool :=
  bool_decide (dr_state r = RCleaning) && bool_decide (dr_lease_owner r = lease_owner).
Definition finished (state : resource_state) (failure : pystr) (cleaned_at : option Z) (r : resource_row) : resource_row :=
  Resource (dr_owner_kind r) (dr_owner_id r) (dr_content_generation r) (dr_deletion_generation r) (dr_resource_kind r)
    (dr_resource_key r) state (dr_tombstoned_at r) "" None (dr_attempts r) failure cleaned_at.
(** the conditional updates of [_mark_cleaned] and [_mark_failed] *)
Definition mark (st : store) (id lease_owner : pystr) (f : resource_row -> resource_row) (error : gc_error) : res gc_error store :=
  match resources st !! id with
  | Some r => if held_by lease_owner r then Ok (set_resources <[id := f r]> st) else Err error
  | None => Err error
  end.
Definition _mark_cleaned (st : store) (id lease_owner : pystr) (now : Z) : res gc_error store :=
  mark st id lease_owner (fun r => finished RCleaned (dr_last_failure r) (Some now) r) "derived resource GC lease was lost before completion".
Definition _mark_failed (st : store) (id lease_owner : pystr) (reason : pystr) : res gc_error store :=
  mark st id lease_owner (fun r => finished RFailed (PyStr (take 4000 (code_points reason))) (dr_cleaned_at r) r)
    "derived resource GC lease was lost before failure recording".

(** ** A whole pass *)

Record gc_report := GcReport { gr_planned : list pystr; gr_cleaned : list pystr; gr_blocked : list pystr; gr_failures : list pystr }.
Definition empty_report : gc_report := GcReport [] [] [] [].

(** The body of the loop when nothing else happens in between. *)
Definition collect_one (dry_run : bool) (lease_owner : pystr) (now : Z) (storage_ok : pystr -> bool)
    (acc : gc_report * store) (due : pystr * resource_row) : res gc_error (gc_report * store) :=
  let '(rep, st) := acc in let '(id, r) := due in
  if is_storage r && _has_uncleaned_derived_resources st r
  then Ok (GcReport (gr_planned rep) (gr_cleaned rep) (gr_blocked rep ++ [id]) (gr_failures rep), st)
  else if dry_run then Ok (GcReport (gr_planned rep ++ [id]) (gr_cleaned rep) (gr_blocked rep) (gr_failures rep), st)
  else
    claim ← catch (_claim_resource st id lease_owner now) (fun _ => Err ("" : gc_error));
    match claim with
    | (None, st) => Ok (GcReport (gr_planned rep) (gr_cleaned rep) (gr_blocked rep ++ [id]) (gr_failures rep), st)
    | (Some claimed, st) =>
        match (_verify_deleted_owner st claimed;; _clean_resource st claimed (storage_ok (dr_resource_key claimed))) with
        | Err error =>
            st ← _mark_failed st id lease_owner error;
            Ok (GcReport (gr_planned rep) (gr_cleaned rep) (gr_blocked rep) (gr_failures rep ++ [id]), st)
        | Ok st =>
            st ← _mark_cleaned st id lease_owner now;
            Ok (GcReport (gr_planned rep) (gr_cleaned rep ++ [id]) (gr_blocked rep) (gr_failures rep), st)
        end
    end.
Definition collect_deleted_resource_gc (st : store) (cutoff : Z) (dry_run : bool) (lease_owner : pystr) (now : Z) (storage_ok : pystr -> bool)
  : res gc_error (gc_report * store) :=
  for_each (collect_one dry_run lease_owner now storage_ok) (due_resources cutoff st) (empty_report, st).

(** ** Library files without an owner *)

(** a file [users/<user>/library/<directory>/<name>], by its last three names *)
Definition library_path (key : pystr) : option (pystr * pystr * pystr) :=
  match str_split 47 key with
  | [users; user; library; directory; name] =>
      if bool_decide (users = "users") && bool_decide (library = "library") then Some (user, directory, name) else None
  | _ => None
  end.
(** no row names the file, and it was last modified at the cutoff or before *)
Definition orphaned_key (st : store) (cutoff : Z) (key : pystr) (modified : Z) : bool :=
  bool_decide (is_Some (library_path key)) && negb (qs_exists (fun r => bool_decide (lb_storage_key r = key)) (library st)) && (modified <=? cutoff).
Definition path_lt (x y : pystr * pystr * pystr) : bool :=
  let '(u1, d1, n1) := x in let '(u2, d2, n2) := y in
  then_by (str_ltb u1 u2) (bool_decide (u1 = u2)) (then_by (str_ltb d1 d2) (bool_decide (d1 = d2)) (str_ltb n1 n2)).
Definition path_le (x y : pystr) : Prop := path_lt (default ("", "", "") (library_path y)) (default ("", "", "") (library_path x)) = false.
#[global] Instance path_le_dec : RelDecision path_le.
Proof. intros x y. unfold path_le. apply _. Defined.
Definition _scan_orphaned_library_keys (st : store) (cutoff : Z) : list pystr :=
  merge_sort path_le (map fst (filter (fun kf => orphaned_key st cutoff kf.1 kf.2.2 = true) (map_to_list (files st)))).

Record orphan_report := OrphanReport { or_planned : list pystr; or_cleaned : list pystr; or_failures : list pystr }.
(** The loop when nothing else happens in between. *)
Definition collect_orphaned_library_gc {PL : Platform} (st : store) (cutoff : Z) (dry_run : bool) : orphan_report * store :=
  foldl (fun acc key =>
    let '(rep, st) := acc in
    if dry_run then (OrphanReport (or_planned rep ++ [key]) (or_cleaned rep) (or_failures rep), st)
    else match delete_stored_object_for_gc key st with
         | Ok st => (OrphanReport (or_planned rep) (or_cleaned rep ++ [key]) (or_failures rep), st)
         | Err _ => (OrphanReport (or_planned rep) (or_cleaned rep) (or_failures rep ++ [key]), st)
         end) (OrphanReport [] [] [], st) (_scan_orphaned_library_keys st cutoff).

(** ** Expired trash *)

(** [Agent] and [Session] rows as far as the trash concerns them *)
Record trash_row := TrashRow { tr_deleted : bool; tr_deleted_at : option Z; tr_purged_at : option Z }.
Record gc_state := GcState { g_agents : gmap pystr trash_row; g_sessions : gmap pystr trash_row; g_content : sstate }.

Definition expired (cutoff : Z) (deleted : bool) (deleted_at purged_at : option Z) : bool :=
  deleted && bool_decide (purged_at = None) && match deleted_at with Some d => d <=? cutoff | None => false end.

(** [filter(id__in=ids, purgedAt__isnull=True).update(purgedAt=now)]; the check constraint of the table
    refuses a purged row that is not deleted, or purged before it was deleted *)
Definition purge_listed {R} (deleted : R -> bool) (deleted_at purged_at : R -> option Z) (set_purged : Z -> R -> R)
    (ids : list pystr) (now : Z) (t : gmap pystr R) : res exn (gmap pystr R) :=
  let hit (k : pystr) (r : R) : bool := bool_decide (k ∈ ids) && bool_decide (purged_at r = None) in
  require (bool_decide (map_Forall (fun k r =>
             negb (hit k r) || (deleted r && match deleted_at r with Some d => d <=? now | None => false end) = true) t)) IntegrityError;;
  Ok (map_imap (fun k r => Some (if hit k r then set_purged now r else r)) t).

Definition set_tr_purged (now : Z) (r : trash_row) : trash_row := TrashRow (tr_deleted r) (tr_deleted_at r) (Some now).
Definition expired_rows (cutoff : Z) (t : gmap pystr trash_row) : list pystr :=
  map fst (qs_list (fun r => expired cutoff (tr_deleted r) (tr_deleted_at r) (tr_purged_at r)) t).
Definition purge_rows := purge_listed tr_deleted tr_deleted_at tr_purged_at set_tr_purged.

Definition library_deleted (r : library_row) : bool := bool_decide (lb_status r = ODeleted).
Definition set_lb_purged (now : Z) (r : library_row) : library_row :=
  LibraryObject (lb_owner r) (lb_name r) (lb_kind r) (lb_content_type r) (lb_size r) (lb_sha256 r) (lb_storage_key r) (lb_parent r)
    (lb_status r) (lb_failure_reason r) (lb_deleted_at r) (lb_deleted_by r) (Some now) (lb_deleted_from r)
    (lb_deletion_generation r) (lb_content_generation r) (lb_created_at r).
Definition expired_library (cutoff : Z) (st : store) : list pystr :=
  map fst (qs_list (fun r => expired cutoff (library_deleted r) (lb_deleted_at r) (lb_purged_at r)) (library st)).
Definition purge_library (ids : list pystr) (now : Z) (st : store) : res exn store :=
  t ← purge_listed library_deleted lb_deleted_at lb_purged_at set_lb_purged ids now (library st);
  Ok (set_library (fun _ => t) st).

(** live objects of a source *)
Definition live_source_objects (st : store) (sid : pystr) : list (pystr * source_object_row) :=
  qs_list (fun r => bool_decide (so_source r = sid) && negb (bool_decide (so_status r = ODeleted))) (source_objects st).
(** the sources the pass looks at: expired ones, and purged ones that still have live objects *)
Definition trash_sources (cutoff : Z) (x : sstate) : list pystr :=
  map fst (filter (fun ks => (expired cutoff (source_deleted ks.2) (sc_deleted_at ks.2) (sc_purged_at ks.2)
                              || (source_deleted ks.2 && bool_decide (is_Some (sc_purged_at ks.2))
                                  && negb (bool_decide (live_source_objects (x_store x) ks.1 = [])))) = true)
             (qs_list (fun _ => true) (x_sources x))).
(** The transaction on one source; [ids] are the primary keys of new resources. *)
Definition expire_source (cutoff now : Z) (ids : pystr -> pystr) (x : sstate) (sid : pystr) : res exn sstate :=
  s ← from_option_res DoesNotExist (x_sources x !! sid);
  if negb (source_deleted s) then Ok x
  else
    deleted_at ← from_option_res (ValueError "Source lifecycle shape is invalid") (sc_deleted_at s);
    st ← for_each (fun st kr => tombstone_stored_object (OwnSource kr.1 kr.2) deleted_at None (ids kr.1) st)
           (live_source_objects (x_store x) sid) (x_store x);
    let x := set_x_store (fun _ => st) x in
    if bool_decide (is_Some (sc_purged_at s)) then
      st ← update_resources (fun r => bool_decide (dr_owner_kind r = KSourceObject)
                                      && match source_objects st !! dr_owner_id r with Some o => bool_decide (so_source o = sid) | None => false end
                                      && negb (bool_decide (dr_state r = RCleaned)))
             (fun r => set_resource_state (dr_state r) (Some cutoff) r) st;
      Ok (set_x_store (fun _ => st) x)
    else if deleted_at <=? cutoff
    then save_source sid (set_sc_lifecycle (sc_status s) (sc_deleted_at s) (sc_deleted_by s) (Some now) (sc_deleted_from s) s) x
    else Ok x.
(** The rows are listed in [listed] and written in [g]. *)
Definition expire_trash (listed g : gc_state) (cutoff now : Z) (dry_run : bool) (ids : pystr -> pystr) : res exn gc_state :=
  if dry_run then Ok g
  else
    agents ← purge_rows (expired_rows cutoff (g_agents listed)) now (g_agents g);
    sessions ← purge_rows (expired_rows cutoff (g_sessions listed)) now (g_sessions g);
    st ← purge_library (expired_library cutoff (x_store (g_content listed))) now (x_store (g_content g));
    x ← for_each (expire_source cutoff now ids) (trash_sources cutoff (g_content listed)) (set_x_store (fun _ => st) (g_content g));
    Ok (GcState agents sessions x).
