(* ===== verification/Plugins.v ===== *)
(** * Plugins of a workspace

    The catalog and the activation snapshots of [packages/api/app_core/plugin_catalog.py], and the plugin
    endpoints of [packages/api/app_core/http/workspaces.py] with the schema [WorkspacePluginResponse] of
    [http/response_schema.py].  The files of the catalog and the answers of the runtime service are arguments. *)

From stdpp Require Import base tactics list gmap numbers sorting.
From S2P Require Import Prelude PyStr Table Utf8 Sha256 Platform Schema Access PyValue Json Contract.

Definition MAX_PLUGIN_METADATA_BYTES : Z := 4 * 1024 * 1024.
Definition MANIFEST_FIELDS : list pystr := ["name"; "version"; "paths"; "interface"].
Definition INTERFACE_FIELDS : list pystr := ["displayName"; "shortDescription"; "capabilities"].

(** The catalog directory: the contents of a readable file, whether a package is a directory, and what
    resolving a path below the root finds. *)
Inductive path_state := PathMissing | PathEscapes | PathInside.
Record plugin_root := PluginRoot { pr_read : list pystr -> option bytes; pr_dir : pystr -> bool; pr_path : list pystr -> path_state }.

(** [WorkspacePluginEnablement]: workspace and plugin *)
Abbreviation enablements := (gset (pystr * pystr)).

Inductive pexn := PValueError (message : pystr) | POSError | PKeyError | PTypeError | PAttributeError | PRuntimeError | PLookupError.
#[global] Instance pexn_eq_dec : EqDecision pexn.
Proof. solve_decision. Defined.
Definition is_pvalue_error (e : pexn) : bool := match e with PValueError _ => true | _ => false end.
Definition plift {A} (m : res cexn A) : res pexn A :=
  catch m (fun e => Err match e with
                        | CValueError message => PValueError message
                        | CUnicodeEncodeError => PValueError ""
                        | CTypeError => PTypeError
                        | CAttributeError => PAttributeError
                        end).

(** Equality of two JSON values whose leaves are strings: the order of keys does not matter. *)
Fixpoint value_eqb (x y : value) {struct x} : bool :=
  match x, y with
  | VNone, VNone => true
  | VBool a, VBool b => Bool.eqb a b
  | VInt a, VInt b => a =? b
  | VFloat a, VFloat b => bool_decide (a = b)
  | VStr a, VStr b => bool_decide (a = b)
  | VList a, VList b =>
      (fix go (a b : list value) : bool :=
         match a, b with [], [] => true | x :: a, y :: b => value_eqb x y && go a b | _, _ => false end) a b
  | VDict a, VDict b =>
      (fix go (a b : list (pystr * value)) : bool :=
         match a, b with
         | [], [] => true
         | (k, x) :: a, (k', y) :: b => bool_decide (k = k') && value_eqb x y && go a b
         | _, _ => false
         end) a b
  | _, _ => false
  end.
Lemma value_eqb_sound x : forall y, value_eqb x y = true -> x = y.
Proof.
  induction x as [|b|z|r|s|l IH|d IH] using value_nested_ind; intros [|b'|z'|r'|s'|l'|d'] H; cbn in H; try done.
  - by apply Bool.eqb_prop in H as ->.
  - by apply Z.eqb_eq in H as ->.
  - by apply bool_decide_eq_true in H as ->.
  - by apply bool_decide_eq_true in H as ->.
  - f_equal. revert l' H. induction IH as [|x l Hx Hl IHl]; intros [|y l'] H; try done. apply andb_prop in H as [H1 H2].
    f_equal; [by apply Hx|by apply IHl].
  - f_equal. revert d' H. induction IH as [|[k x] d Hx Hd IHd]; intros [|[k' y] d'] H; try done. bool_inv. subst.
    f_equal; [f_equal; by apply Hx|by apply IHd].
Qed.
Definition same_value (x y : value) : bool := value_eqb (sort_keys x) (sort_keys y).

Definition _read_plugin_metadata (root : plugin_root) (path : list pystr) (limit : Z) : res pexn bytes :=
  content ← from_option_res POSError (pr_read root path);
  require (zlen content <=? limit) (PValueError "plugin metadata exceeds byte budget");;
  Ok content.
(** [json.loads(content.decode("utf-8"))]; every failure is a [ValueError] *)
Definition loads_utf8 (content : bytes) (message : pystr) : res pexn value :=
  text ← from_option_res (PValueError message) (utf8_decode content);
  catch (json_loads text) (fun _ => Err (PValueError message)).
(** [except (OSError, UnicodeDecodeError, json.JSONDecodeError)] *)
Definition read_plugin_json (root : plugin_root) (path : list pystr) (message : pystr) : res pexn value :=
  content ← catch (_read_plugin_metadata root path MAX_PLUGIN_METADATA_BYTES)
              (fun e => Err match e with POSError => PValueError message | e => e end);
  loads_utf8 content message.

Section plugins.
Context {PL : Platform}.

Definition packages_of (activation : value) : list value := default [] (as_list (get "packages" activation)).
Definition package_name (package : value) : pystr := text_of (get "name" package).

(** the codes of the messages carry no paths or names *)
Definition load_plugin_catalog_at (root : plugin_root) (require_packages : bool) : res pexn value :=
  payload ← read_plugin_json root ["catalog.snapshot.json"] "plugin_catalog_unavailable";
  plift (validate_plugin_activation payload);;
  require (negb require_packages || forallb (fun p => pr_dir root (package_name p)) (packages_of payload)) (PValueError "plugin_package_missing");;
  Ok payload.

Definition enabled_names (en : enablements) (wid : pystr) : gset pystr :=
  set_map snd (filter (fun p => p.1 = wid) en).

Definition activation_of (packages : list value) : res pexn value :=
  digest ← plift (activation_digest packages);
  Ok (VDict [("schema", VStr PLUGIN_ACTIVATION_SCHEMA); ("digest", VStr digest); ("packages", VList packages)]).

Definition plugin_activation_for_workspace (root : plugin_root) (en : enablements) (wid : pystr) : res pexn value :=
  catalog ← load_plugin_catalog_at root true;
  let enabled := enabled_names en wid in
  require (bool_decide (enabled ⊆ list_to_set (map package_name (packages_of catalog)))) (PValueError "enabled_plugin_not_in_release_catalog");;
  activation ← activation_of (List.filter (fun p => bool_decide (package_name p ∈ enabled)) (packages_of catalog));
  plift (validate_plugin_activation activation);;
  Ok activation.

Definition validate_plugin_names (names : list pystr) : res pexn unit :=
  require (forallb (fun n => _is_lower_kebab (VStr n)) names) (PValueError "plugin name must be lower kebab");;
  require (strictly_sorted names) (PValueError "plugin names must be sorted and unique").

Definition selected_plugin_activation (root : plugin_root) (en : enablements) (wid : pystr) (names : list pystr) : res pexn value :=
  validate_plugin_names names;;
  if bool_decide (names = []) then activation_of []
  else
    available ← plugin_activation_for_workspace root en wid;
    let packages := List.filter (fun p => bool_decide (package_name p ∈ names)) (packages_of available) in
    require (length packages =? length names)%nat (PValueError "agent_definition_plugin_not_enabled");;
    activation_of packages.

Definition require_current_plugin_activation (root : plugin_root) (en : enablements) (wid : pystr) (activation : value) : res pexn unit :=
  plift (validate_plugin_activation activation);;
  selected ← selected_plugin_activation root en wid (map package_name (packages_of activation));
  require (same_value selected activation) (PValueError "agent_definition_plugin_snapshot_unavailable").

(** ** What a package declares *)

Record plugin_interface := Interface { if_display_name : pystr; if_short_description : pystr; if_capabilities : list pystr }.
Definition all_str (v : value) : option (list pystr) := as_list v ≫= mapM as_str.
(** the value under a key, or a default when it is absent; [None] when it is not a string *)
Definition str_field (k : pystr) (d : pystr) (v : value) : option pystr := if has_key k v then as_str (get k v) else Some d.
Definition subset_keys (allowed : list pystr) (v : value) : bool :=
  match v with VDict d => forallb (fun kv => bool_decide (kv.1 ∈ allowed)) d | _ => false end.

(** the body of the loop of [load_plugin_interfaces] *)
Definition load_plugin_interface (root : plugin_root) (package : value) : res pexn plugin_interface :=
  let name := package_name package in
  manifest ← read_plugin_json root [name; ".centaeris-plugin"; "plugin.json"] "plugin_manifest_unavailable";
  require (subset_keys MANIFEST_FIELDS manifest && is_str name (get "name" manifest) && is_str (text_of (get "version" package)) (get "version" manifest))
    (PValueError "plugin_manifest_mismatch");;
  let interface := match get "interface" manifest with VNone => VDict [] | v => v end in
  let invalid := PValueError "plugin_interface_invalid" in
  require (subset_keys INTERFACE_FIELDS interface) invalid;;
  display_name ← from_option_res invalid (str_field "displayName" name interface);
  short ← from_option_res invalid (str_field "shortDescription" "" interface);
  capabilities ← from_option_res invalid (if has_key "capabilities" interface then all_str (get "capabilities" interface) else Some []);
  Ok (Interface (if is_empty display_name then name else display_name) short capabilities).

Definition be8 (n : Z) : bytes := be_bytes 8 n.
(** the digest of one file of a plugin *)
Definition tree_digest (path content : bytes) : pystr :=
  sha256_tag (default [] (utf8_encode ("centaeris.plugin.tree.v1" +:+ PyStr [0])) ++ be8 (zlen path) ++ path ++ be8 (zlen content) ++ content).
(** every prefix of the path, the package directory itself first *)
Definition path_prefixes (package : pystr) (path : pystr) : list (list pystr) :=
  let parts := path_parts path in map (fun n => package :: take n parts) (seq 0 (S (length parts))).

Definition check_server (server : value) : res pexn unit :=
  require (subset_keys ["id"; "transport"; "modelContractDigest"; "lifecycle"; "startupTimeoutMs"; "toolTimeoutMs"; "tools"] server)
    (PValueError "MCP credential server fields mismatch");;
  let transport := get "transport" server in
  require (bool_decide (is_Some (as_dict transport))) (PValueError "MCP credential transport missing");;
  if is_str "stdio" (get "type" transport)
  then require (keys_are ["type"; "program"; "args"] transport) (PValueError "MCP credential transport fields mismatch")
  else
    require (is_str "streamableHttp" (get "type" transport)
             && (keys_are ["type"; "url"] transport || keys_are ["type"; "url"; "bearerCredentialRef"] transport))
      (PValueError "MCP credential transport fields mismatch");;
    require (negb (has_key "bearerCredentialRef" transport) || _is_lower_kebab (get "bearerCredentialRef" transport))
      (PValueError "MCP bearer credential ref must be lower kebab").

(** [remaining] is the byte budget left *)
Fixpoint verified_mcp_loop (root : plugin_root) (name : pystr) (resources : list value) (remaining : Z) : res pexn (list (value * value)) :=
  match resources with
  | [] => Ok []
  | resource :: resources =>
      plift (_require_resource_path (get "path" resource));;
      let path := text_of (get "path" resource) in
      for_each (fun _ prefix => match pr_path root prefix with
                                | PathMissing => Err POSError
                                | PathEscapes => Err (PValueError "plugin credential resource escaped package")
                                | PathInside => Ok tt
                                end) (path_prefixes name path) tt;;
      content ← _read_plugin_metadata root (name :: path_parts path) remaining;
      encoded ← from_option_res (PValueError "") (utf8_encode path);
      require (is_str (tree_digest encoded content) (get "digest" resource)) (PValueError "plugin credential resource digest mismatch");;
      payload ← loads_utf8 content "";
      require (keys_are ["schema"; "servers"] payload) (PValueError "MCP credential document fields mismatch");;
      servers ← from_option_res (PValueError "MCP credential document schema mismatch")
        (if is_str "mcp_servers_v1" (get "schema" payload) then as_list (get "servers" payload) else None);
      for_each (fun _ s => check_server s) servers tt;;
      rest ← verified_mcp_loop root name resources (remaining - zlen content);
      Ok ((resource, payload) :: rest)
  end.
Definition _verified_mcp_documents (root : plugin_root) (package : value) : res pexn (list (value * value)) :=
  verified_mcp_loop root (package_name package) (default [] (as_list (get "mcpServers" package))) MAX_PLUGIN_METADATA_BYTES.

Definition servers_of (document : value) : list value := default [] (as_list (get "servers" document)).
(** [sorted({...})] *)
Definition load_plugin_bearer_credential_refs (root : plugin_root) (package : value) : res pexn (list pystr) :=
  documents ← _verified_mcp_documents root package;
  Ok (merge_sort str_le (remove_dups (concat (map (fun d => omap (fun s => as_str (get "bearerCredentialRef" (get "transport" s))) (servers_of d.2)) documents)))).

(** ** What the runtime reports *)

(** the entries of a projection by plugin; [check] validates one list of entries *)
Definition projected_plugins (field : pystr) (check : list value -> res pexn unit) (invalid mismatch : pystr) (catalog reply : value)
  : res pexn (list (pystr * list value)) :=
  plugins ← from_option_res (PValueError invalid) (as_list (get "plugins" reply));
  by_name ← for_each (fun acc plugin =>
      let name := text_of (get "pluginName" plugin) in
      require (keys_are ["pluginName"; field] plugin && bool_decide (is_Some (as_str (get "pluginName" plugin)))
               && bool_decide (is_Some (as_list (get field plugin))) && negb (bool_decide (name ∈ map fst acc))) (PValueError invalid);;
      let values := default [] (as_list (get field plugin)) in
      check values;;
      Ok (acc ++ [(name, values)])) plugins [];
  let expected := map package_name (packages_of catalog) in
  require (forallb (fun n => bool_decide (n ∈ expected)) (map fst by_name) && forallb (fun n => bool_decide (n ∈ map fst by_name)) expected)
    (PValueError mismatch);;
  Ok by_name.

Definition _workspace_mcp_servers (catalog : value) (reply : res pexn value) : res pexn (list (pystr * list value)) :=
  reply ← reply;
  projected_plugins "servers" (fun _ => Ok tt) "workspace_mcp_catalog_plugin_invalid" "workspace_mcp_catalog_plugin_mismatch" catalog reply.

Definition supported_events : list pystr :=
  ["UserPromptSubmit"; "PreToolUse"; "PermissionRequest"; "PostToolUse"; "PreCompact"; "PostCompact"; "SubagentStart"; "SubagentStop"].
Definition check_hooks (hooks : list value) : res pexn unit :=
  for_each (fun seen hook =>
    let invalid := PValueError "workspace_hook_catalog_hook_invalid" in
    let id := text_of (get "id" hook) in
    require (keys_are ["id"; "event"; "matcher"; "timeoutMs"] hook && bool_decide (is_Some (as_str (get "id" hook))) && negb (is_empty id)
             && negb (bool_decide (id ∈ seen))) invalid;;
    match get "event" hook with
    | VList _ | VDict _ => Err PTypeError
    | e => require (str_in supported_events e) invalid
    end;;
    require ((is_none (get "matcher" hook) || bool_decide (is_Some (as_str (get "matcher" hook))))
             && int_where (fun n => (1 <=? n) && (n <=? 10000)) (get "timeoutMs" hook)) invalid;;
    Ok (id :: seen)) hooks [];;
  Ok tt.
Definition _workspace_hooks (catalog : value) (reply : res pexn value) : res pexn (list (pystr * list value)) :=
  reply ← reply;
  projected_plugins "hooks" check_hooks "workspace_hook_catalog_plugin_invalid" "workspace_hook_catalog_plugin_mismatch" catalog reply.

(** ** The response schema: strict types, no further fields *)

Definition t_str (v : value) : bool := match v with VStr s => bool_decide (is_Some (utf8_encode s)) | _ => false end.
Definition t_bool (v : value) : bool := bool_decide (is_Some (as_bool v)).
Definition t_int (v : value) : bool := bool_decide (is_Some (as_int v)).
Definition t_null (t : value -> bool) (v : value) : bool := is_none v || t v.
Definition t_list (t : value -> bool) (v : value) : bool := match v with VList l => forallb t l | _ => false end.
Definition t_literal (l : list pystr) (v : value) : bool := str_in l v.
Definition t_object (fields : list (pystr * (value -> bool))) (v : value) : bool :=
  keys_are (map fst fields) v && forallb (fun kt => kt.2 (get kt.1 v)) fields.
Definition t_dict (v : value) : bool := match v with VDict d => forallb (fun kv => t_str (VStr kv.1)) d | _ => false end.

Definition PluginResourceResponse : value -> bool := t_object [("path", t_str); ("digest", t_str)].
Definition WorkspaceMcpTransportResponse : value -> bool := t_object [("type", t_literal ["stdio"; "streamableHttp"]); ("endpoint", t_null t_str)].
Definition WorkspaceMcpAuthResponse : value -> bool :=
  t_object [("type", t_literal ["none"; "bearer"]); ("credentialRef", t_null t_str); ("credentialConfigured", t_null t_bool)].
Definition WorkspaceMcpToolResponse : value -> bool :=
  t_object [("sourceName", t_str); ("name", t_str); ("description", t_str); ("inputSchema", t_dict); ("concurrencySafe", t_bool); ("scopes", t_list t_str)].
Definition WorkspaceMcpServerResponse : value -> bool :=
  t_object [("id", t_str); ("modelContractDigest", t_str); ("transport", WorkspaceMcpTransportResponse); ("auth", WorkspaceMcpAuthResponse);
            ("startupTimeoutMs", t_int); ("toolTimeoutMs", t_int); ("tools", t_list WorkspaceMcpToolResponse)].
Definition WorkspaceHookResponse : value -> bool :=
  t_object [("id", t_str); ("event", t_literal supported_events); ("matcher", t_null t_str); ("timeoutMs", t_int)].
Definition WorkspacePluginResponse : value -> bool :=
  t_object [("name", t_str); ("displayName", t_str); ("shortDescription", t_str); ("capabilities", t_list t_str); ("version", t_str);
            ("packageDigest", t_str); ("enabled", t_bool); ("skills", t_list PluginResourceResponse); ("cli", t_list PluginResourceResponse);
            ("mcpServers", t_null (t_list WorkspaceMcpServerResponse)); ("mcpCredentialRefs", t_null (t_list t_str));
            ("hooks", t_null (t_list WorkspaceHookResponse)); ("errors", t_list t_str)].

(** [d[k]] *)
Definition index (k : pystr) (v : value) : res pexn value :=
  match v with
  | VDict _ => if has_key k v then Ok (get k v) else Err PKeyError
  | _ => Err PTypeError
  end.
(** [{**v, k: x}] *)
Definition with_key (k : pystr) (x : value) (v : value) : value := match v with VDict d => VDict (dict_set k x d) | v => v end.

Definition project_server (name : pystr) (configured : gset (pystr * pystr)) (server : value) : res pexn value :=
  auth ← index "auth" server;
  credential ← index "credentialRef" auth;
  type ← index "type" auth;
  state ← (if is_str "none" type then Ok VNone
           else match credential with
                | VList _ | VDict _ => Err PTypeError
                | VStr r => Ok (VBool (bool_decide ((name, r) ∈ configured)))
                | _ => Ok (VBool false)
                end);
  Ok (with_key "auth" (with_key "credentialConfigured" state auth) server).
Fixpoint mapM_res {A B} (f : A -> res pexn B) (l : list A) : res pexn (list B) :=
  match l with
  | [] => Ok []
  | x :: l => y ← f x; ys ← mapM_res f l; Ok (y :: ys)
  end.
Definition opt_list (o : option (list value)) : value := match o with Some l => VList l | None => VNone end.
Definition _serialize_workspace_plugin (package : value) (i : plugin_interface) (enabled : bool) (mcp_servers hooks : option (list value))
    (configured : gset (pystr * pystr)) : res pexn value :=
  projected ← mapM_res (project_server (package_name package) configured) (default [] mcp_servers);
  Ok (VDict [("name", get "name" package); ("displayName", VStr (if_display_name i)); ("shortDescription", VStr (if_short_description i));
             ("capabilities", VList (map VStr (if_capabilities i))); ("version", get "version" package); ("packageDigest", get "packageDigest" package);
             ("enabled", VBool enabled); ("skills", get "skills" package); ("cli", get "cli" package);
             ("mcpServers", opt_list (match mcp_servers with Some _ => Some projected | None => None end));
             ("mcpCredentialRefs", VNone); ("hooks", opt_list hooks); ("errors", VList [])]).

(** [except (OSError, RuntimeError, ValueError, KeyError, TypeError)] *)
Definition inspection_error (e : pexn) : bool :=
  match e with POSError | PRuntimeError | PValueError _ | PKeyError | PTypeError => true | PAttributeError | PLookupError => false end.
Definition assoc (name : pystr) (l : list (pystr * list value)) : list value :=
  default [] (snd <$> List.find (fun kv => bool_decide (kv.1 = name)) l).

(** One contribution of an inspected plugin: what [plugin[field]] becomes, or the code of an error. *)
Definition inspect_field (package : value) (i : plugin_interface) (enabled : bool) (configured : gset (pystr * pystr)) (field code : pystr)
    (values : res pexn (list (pystr * list value))) : res pexn (option value * list pystr) :=
  match as_list (get field package) with
  | None | Some [] => Ok (Some (VList []), [])
  | Some _ =>
    match (values ← values;
           let l := assoc (package_name package) values in
           projected ← _serialize_workspace_plugin package i enabled (if bool_decide (field = "mcpServers") then Some l else None)
                         (if bool_decide (field = "hooks") then Some l else None) configured;
           require (WorkspacePluginResponse projected) (PValueError "");;
           Ok (get field projected)) with
    | Ok v => Ok (Some v, [])
    | Err e => if inspection_error e then Ok (None, [code]) else Err e
    end
  end.

(** [mcp] and [hooks] are the replies of the runtime to the two catalog requests *)
Definition _workspace_plugin (root : plugin_root) (configured : gset (pystr * pystr)) (mcp hooks : res pexn value)
    (package : value) (enabled inspect : bool) : res pexn value :=
  catalog ← activation_of [package];
  p ← match load_plugin_interface root package with
      | Ok i => Ok (i, [])
      | Err (POSError | PValueError _) => Ok (Interface (package_name package) "" [], ["plugin_manifest_invalid"])
      | Err e => Err e
      end;
  let '(i, errors) := p in
  plugin ← _serialize_workspace_plugin package i enabled None None ∅;
  q ← (if bool_decide (errors = []) then
         match load_plugin_bearer_credential_refs root package with
         | Ok refs => Ok (with_key "mcpCredentialRefs" (VList (map VStr refs)) plugin, [])
         | Err (POSError | PValueError _) => Ok (plugin, ["plugin_credentials_unavailable"])
         | Err e => Err e
         end
       else Ok (plugin, errors));
  let '(plugin, errors) := q in
  if inspect && negb (bool_decide ("plugin_manifest_invalid" ∈ errors)) then
    m ← inspect_field package i enabled configured "mcpServers" "workspace_mcp_catalog_unavailable" (_workspace_mcp_servers catalog mcp);
    h ← inspect_field package i enabled configured "hooks" "workspace_hook_catalog_unavailable" (_workspace_hooks catalog hooks);
    let put field o v := match o with Some x => with_key field x v | None => v end in
    Ok (with_key "errors" (VList (map VStr (errors ++ m.2 ++ h.2))) (put "hooks" h.1 (put "mcpServers" m.1 plugin)))
  else Ok (with_key "errors" (VList (map VStr errors)) plugin).

(** ** Endpoints *)

Inductive pbody := PBError (code : pystr) | PBPlugins (l : list value) | PBPlugin (v : value) | PBReply (v : value) | PBWorkspaces (l : list (pystr * role)).
Inductive presponse := PStatus (code : Z) (body : pbody).
Definition perror (status : Z) (code : pystr) : presponse := PStatus status (PBError code).

(** [except ValueError] around the loading of the catalog *)
Definition with_catalog {S} (catalog : res pexn value) (s : S) (k : value -> res pexn (presponse * S)) : res pexn (presponse * S) :=
  match catalog with
  | Ok v => k v
  | Err (PValueError _) => Ok (perror 503 "plugin_catalog_invalid", s)
  | Err e => Err e
  end.
Definition _workspace_for_user (d : db) (user : Z) (wid : pystr) (roles : list role) : res exn bool :=
  membership ← workspace_membership_for d (Some user) wid roles; Ok (bool_decide (is_Some membership)).
Definition with_workspace {S} (found : res exn bool) (s : S) (k : res pexn (presponse * S)) : res pexn (presponse * S) :=
  found ← catch found (fun e => Err match e with ValueError m => PValueError m | _ => PLookupError end);
  if (found : bool) then k else Ok (perror 404 "workspace_not_found", s).
Definition find_package (name : pystr) (catalog : value) : option value :=
  List.find (fun p => bool_decide (package_name p = name)) (packages_of catalog).

Definition list_workspaces (d : db) (user : Z) : presponse :=
  PStatus 200 (PBWorkspaces (map (fun km => (m_workspace km.2, m_role km.2))
    (qs_list (fun m => (m_user m =? user) && workspace_is_active d (m_workspace m)) (memberships d)))).

Section endpoints.
(** the replies of the runtime to the catalog requests for a package *)
Context (root : plugin_root) (configured : gset (pystr * pystr)) (mcp hooks : value -> res pexn value).

Definition list_workspace_plugins (d : db) (en : enablements) (user : Z) (wid : pystr) : res pexn (presponse * enablements) :=
  with_workspace (_workspace_for_user d user wid WORKSPACE_ROLES) en
    (with_catalog (load_plugin_catalog_at root false) en (fun catalog =>
      let enabled := enabled_names en wid in
      if negb (bool_decide (enabled ⊆ list_to_set (map package_name (packages_of catalog)))) then Ok (perror 409 "workspace_plugin_enablement_invalid", en)
      else
        plugins ← mapM_res (fun p => _workspace_plugin root configured (mcp p) (hooks p) p (bool_decide (package_name p ∈ enabled)) false) (packages_of catalog);
        Ok (PStatus 200 (PBPlugins plugins), en))).

Definition get_workspace_plugin (d : db) (en : enablements) (user : Z) (wid name : pystr) : res pexn (presponse * enablements) :=
  with_workspace (_workspace_for_user d user wid WORKSPACE_ROLES) en
    (with_catalog (load_plugin_catalog_at root false) en (fun catalog =>
      match find_package name catalog with
      | None => Ok (perror 404 "plugin_not_found", en)
      | Some p => plugin ← _workspace_plugin root configured (mcp p) (hooks p) p (bool_decide ((wid, name) ∈ en)) true;
                  Ok (PStatus 200 (PBPlugin plugin), en)
      end)).

(** the first pass, before the lifecycle lock: the package and its projection *)
Definition plugin_prepare (d : db) (user : Z) (wid name : pystr) (enabled : bool) : res pexn (presponse + value * value) :=
  found ← catch (_workspace_for_user d user wid WORKSPACE_ADMIN_ROLES) (fun e => Err match e with ValueError m => PValueError m | _ => PLookupError end);
  if negb (found : bool) then Ok (inl (perror 404 "workspace_not_found"))
  else match load_plugin_catalog_at root false with
       | Err (PValueError _) => Ok (inl (perror 503 "plugin_catalog_invalid"))
       | Err e => Err e
       | Ok catalog =>
           match find_package name catalog with
           | None => Ok (inl (perror 404 "plugin_not_found"))
           | Some p =>
               plugin ← _workspace_plugin root configured (mcp p) (hooks p) p enabled enabled;
               if enabled && match as_list (get "errors" plugin) with Some (_ :: _) => true | _ => false end
               then Ok (inl (perror 409 "workspace_plugin_unavailable"))
               else Ok (inr (p, plugin))
           end
       end.
End endpoints.

(** [root'] is the catalog under the lock, and [others] what other requests did to the enablements before *)
Definition set_workspace_plugin_enabled (root root' : plugin_root) (configured : gset (pystr * pystr)) (mcp hooks : value -> res pexn value)
    (d : db) (en : enablements) (others : enablements -> enablements) (user : Z) (wid name : pystr) (enabled : bool)
  : res pexn (presponse * enablements) :=
  prepared ← plugin_prepare root configured mcp hooks d user wid name enabled;
  match prepared with
  | inl response => Ok (response, en)
  | inr (package, plugin) =>
      let en := others en in
      with_catalog (load_plugin_catalog_at root' false) en (fun catalog =>
        match find_package name catalog with
        | None => Ok (perror 404 "plugin_not_found", en)
        | Some current =>
            if negb (same_value current package) then Ok (perror 409 "workspace_plugin_package_changed", en)
            else Ok (PStatus 200 (PBPlugin plugin), if enabled then {[(wid, name)]} ∪ en else en ∖ {[(wid, name)]})
        end)
  end.

(** [request_workspace_skill_catalog] and [request_workspace_skill_detail] answer the activation *)
Definition list_workspace_skills (root : plugin_root) (d : db) (en : enablements) (user : Z) (wid : pystr) (reply : value -> res pexn value)
  : res pexn (presponse * enablements) :=
  with_workspace (_workspace_for_user d user wid WORKSPACE_ROLES) en
    match (activation ← plugin_activation_for_workspace root en wid; reply activation) with
    | Ok v => Ok (PStatus 200 (PBReply v), en)
    | Err (PRuntimeError | PValueError _) => Ok (perror 503 "workspace_skill_catalog_unavailable", en)
    | Err e => Err e
    end.
Definition get_workspace_skill (root : plugin_root) (d : db) (en : enablements) (user : Z) (wid : pystr) (reply : value -> res pexn value)
  : res pexn (presponse * enablements) :=
  with_workspace (_workspace_for_user d user wid WORKSPACE_ROLES) en
    match (activation ← plugin_activation_for_workspace root en wid; reply activation) with
    | Ok v => Ok (PStatus 200 (PBReply v), en)
    | Err (PLookupError | PKeyError) => Ok (perror 404 "skill_not_found", en)
    | Err (PRuntimeError | PValueError _) => Ok (perror 503 "workspace_skill_detail_unavailable", en)
    | Err e => Err e
    end.
End plugins.
