(* ===== verification/Hosted.v ===== *)
(** * The tables of agents, sessions and runs

    The rows of [packages/api/app_core/models.py] behind the endpoints of [http/agents.py] and
    [http/workspaces.py]: agents and sessions with their trash columns, session projects, runs with everything a
    run is created with, receipts, asset links and captured outputs.  The identity tables, the lifecycle store
    and the object store of the other files are views of this state or parts of it. *)

From stdpp Require Import base tactics list gmap numbers.
From S2P Require Import Prelude PyStr Table Utf8 Sha256 Platform Schema Access AgentIdentity Delegation Lifecycle Contract Snapshot WorkspaceCommit Assets Library Sources.

(** [Agent] *)
Record agent_full := AgentFull {
  af_row : agent_row; af_avatar : pystr; af_deleted_at : option Z; af_deleted_by : option Z; af_purged_at : option Z }.
(** [Session]; the flag [isUnread] is [h_unread] *)
Record session_full := SessionFull {
  sf_row : session_row; sf_project : option pystr; sf_title : pystr; sf_pinned : bool;
  sf_deleted_at : option Z; sf_deleted_by : option Z; sf_purged_at : option Z;
  (** the columns [workspaceGeneration] to [workspaceFileCount] *)
  sf_workspace : candidate; sf_created_at : Z; sf_updated_at : Z }.
(** [SessionProject] *)
Record project_row := Project { pj_workspace : pystr; pj_owner : Z; pj_agent : pystr; pj_name : pystr; pj_created_at : Z }.
(** [AgentRun]: the columns the lifecycle writes, the columns delegations read, and what the run was created with *)
Record run_full := RunFull {
  rf_life : run_row; rf_identity : run_identity; rf_membership : pystr; rf_model : pystr; rf_thinking : pystr; rf_prompt : pystr;
  rf_instructions : pystr; rf_version : option pystr; rf_rewrite : option (pystr * pystr) }.
(** [SessionAssetLink]: the object it links, and its identity when it was linked *)
Record asset_link := AssetLink {
  al_workspace : pystr; al_session : pystr; al_attached_by : Z; al_owner_kind : owner_kind; al_owner_id : pystr;
  al_generation : Z; al_size : Z; al_sha256 : pystr; al_display_name : pystr; al_content_type : pystr }.
(** [TranscriptOutputCapture] with its [TranscriptOutputChunk] rows by index: contents and digest *)
Record capture_row := Capture { cp_byte_length : Z; cp_chunk_size : Z; cp_purged_at : option Z; cp_chunks : gmap Z (bytes * pystr) }.

Record hosted := Hosted {
  (** users, workspaces, members, groups, definitions, applications and delegations *)
  h_db : db;
  h_agents : gmap pystr agent_full;
  h_sessions : gmap pystr session_full;
  h_projects : gmap pystr project_row;
  h_runs : gmap pystr run_full;
  h_events : gmap pystr event_row;
  h_unread : gset pystr;
  h_citations : gmap pystr citation_row;
  h_receipts : gmap Z receipt_row;
  (** [AgentRunAuthorization] by run *)
  h_authorizations : gmap pystr authorization;
  h_links : gmap pystr asset_link;
  (** by the event they belong to *)
  h_captures : gmap pystr capture_row;
  h_sources : gmap pystr source_state;
  h_store : Assets.store }.

Definition set_h_db f h := Hosted (f (h_db h)) (h_agents h) (h_sessions h) (h_projects h) (h_runs h) (h_events h) (h_unread h)
  (h_citations h) (h_receipts h) (h_authorizations h) (h_links h) (h_captures h) (h_sources h) (h_store h).
Definition set_h_agents f h := Hosted (h_db h) (f (h_agents h)) (h_sessions h) (h_projects h) (h_runs h) (h_events h) (h_unread h)
  (h_citations h) (h_receipts h) (h_authorizations h) (h_links h) (h_captures h) (h_sources h) (h_store h).
Definition set_h_sessions f h := Hosted (h_db h) (h_agents h) (f (h_sessions h)) (h_projects h) (h_runs h) (h_events h) (h_unread h)
  (h_citations h) (h_receipts h) (h_authorizations h) (h_links h) (h_captures h) (h_sources h) (h_store h).
Definition set_h_projects f h := Hosted (h_db h) (h_agents h) (h_sessions h) (f (h_projects h)) (h_runs h) (h_events h) (h_unread h)
  (h_citations h) (h_receipts h) (h_authorizations h) (h_links h) (h_captures h) (h_sources h) (h_store h).
Definition set_h_runs f h := Hosted (h_db h) (h_agents h) (h_sessions h) (h_projects h) (f (h_runs h)) (h_events h) (h_unread h)
  (h_citations h) (h_receipts h) (h_authorizations h) (h_links h) (h_captures h) (h_sources h) (h_store h).
Definition set_h_unread f h := Hosted (h_db h) (h_agents h) (h_sessions h) (h_projects h) (h_runs h) (h_events h) (f (h_unread h))
  (h_citations h) (h_receipts h) (h_authorizations h) (h_links h) (h_captures h) (h_sources h) (h_store h).
Definition set_h_citations f h := Hosted (h_db h) (h_agents h) (h_sessions h) (h_projects h) (h_runs h) (h_events h) (h_unread h)
  (f (h_citations h)) (h_receipts h) (h_authorizations h) (h_links h) (h_captures h) (h_sources h) (h_store h).
Definition set_h_receipts f h := Hosted (h_db h) (h_agents h) (h_sessions h) (h_projects h) (h_runs h) (h_events h) (h_unread h)
  (h_citations h) (f (h_receipts h)) (h_authorizations h) (h_links h) (h_captures h) (h_sources h) (h_store h).
Definition set_h_authorizations f h := Hosted (h_db h) (h_agents h) (h_sessions h) (h_projects h) (h_runs h) (h_events h) (h_unread h)
  (h_citations h) (h_receipts h) (f (h_authorizations h)) (h_links h) (h_captures h) (h_sources h) (h_store h).
Definition set_h_links f h := Hosted (h_db h) (h_agents h) (h_sessions h) (h_projects h) (h_runs h) (h_events h) (h_unread h)
  (h_citations h) (h_receipts h) (h_authorizations h) (f (h_links h)) (h_captures h) (h_sources h) (h_store h).
Definition set_h_captures f h := Hosted (h_db h) (h_agents h) (h_sessions h) (h_projects h) (h_runs h) (h_events h) (h_unread h)
  (h_citations h) (h_receipts h) (h_authorizations h) (h_links h) (f (h_captures h)) (h_sources h) (h_store h).
Definition set_h_store f h := Hosted (h_db h) (h_agents h) (h_sessions h) (h_projects h) (h_runs h) (h_events h) (h_unread h)
  (h_citations h) (h_receipts h) (h_authorizations h) (h_links h) (h_captures h) (h_sources h) (f (h_store h)).

(** ** Views *)

(** the identity tables with the current agents and sessions *)
Definition identity (h : hosted) : db :=
  let d := h_db h in
  Db (users d) (workspaces d) (memberships d) (groups d) (group_members d) (sources d) (grants d) (invitations d) (definitions d)
    (definition_members d) (af_row <$> h_agents h) (sf_row <$> h_sessions h) (apps d) (delegations d).
(** what the lifecycle code works on *)
Definition life (h : hosted) : Lifecycle.store := Lifecycle.Store (rf_life <$> h_runs h) (h_events h) (h_unread h) (h_citations h).
Definition set_rf_life (r : run_row) (f : run_full) : run_full :=
  RunFull r (rf_identity f) (rf_membership f) (rf_model f) (rf_thinking f) (rf_prompt f) (rf_instructions f) (rf_version f) (rf_rewrite f).
(** its result written back *)
Definition put_life (st : Lifecycle.store) (h : hosted) : hosted :=
  set_h_citations (fun _ => st_citations st) (set_h_unread (fun _ => st_unread st)
    (set_h_runs (map_imap (fun k f => Some (set_rf_life (default (rf_life f) (st_runs st !! k)) f))) h)).
(** the sources with their objects *)
Definition source_view (h : hosted) : sstate := SState (h_db h) (h_sources h) (h_store h).
(** the tables the receipts of commands refer to *)
Definition operation_resources (h : hosted) : Delegation.resources := Resources (rf_identity <$> h_runs h) (h_receipts h) ∅ ∅ ∅.

Definition run_active (f : run_full) : bool :=
  bool_decide (r_status (rf_life f) = Queued) || bool_decide (r_status (rf_life f) = Running).
Definition active_runs (h : hosted) (sid : pystr) : list (pystr * run_full) :=
  qs_list (fun f => bool_decide (r_session (rf_life f) = sid) && run_active f) (h_runs h).

(** ** Saving *)

(** exceptions of the endpoints *)
Inductive hexn := HDelegation (e : dexn) | HLife (e : Lifecycle.lexn) | HLibrary (e : Library.lexn) | HContract (e : Contract.cexn) | HMultipleObjects.
Definition hlift {A} (m : res exn A) : res hexn A := catch m (fun e => Err (HDelegation (Raised e))).
Definition dlift {A} (m : res dexn A) : res hexn A := catch m (fun e => Err (HDelegation e)).
Definition llift {A} (m : res Lifecycle.lexn A) : res hexn A := catch m (fun e => Err (HLife e)).

(** the condition [agent_deletion_consistency], [session_deletion_consistency] and the [save] methods check *)
Definition deletion_state_ok (status : life_status) (deleted_at purged_at : option Z) : bool :=
  Bool.eqb (bool_decide (status = Active)) (bool_decide (deleted_at = None) && bool_decide (purged_at = None))
  && match purged_at with
     | None => true
     | Some p => match deleted_at with Some d => d <=? p | None => false end
     end.

Section saving.
Context {PL : Platform}.

(** [Agent.save] of a stored row: owner, workspace and definition are not changed by any caller, and a managed
    agent's configuration neither *)
Definition save_agent (k : pystr) (f : agent_full) (h : hosted) : res exn hosted :=
  validate_agent_id k;;
  name ← normalize_agent_name (a_name (af_row f));
  description ← normalize_agent_description (a_description (af_row f));
  instructions ← normalize_agent_instructions (a_instructions (af_row f));
  require (bool_decide (af_avatar f ∈ (["centaeris"; "banana"] : list pystr))) (ValueError "unsupported Agent.avatar_kind");;
  require (deletion_state_ok (a_status (af_row f)) (af_deleted_at f) (af_purged_at f)) (ValueError "Agent deletion state is invalid");;
  let a := af_row f in
  Ok (set_h_agents <[k := AgentFull (Agent (a_workspace a) (a_owner a) (a_definition a) name description instructions (a_status a) (a_created_at a))
                            (af_avatar f) (af_deleted_at f) (af_deleted_by f) (af_purged_at f)]> h).

(** [Agent.objects.create] of an unmanaged agent; [ids] are the ids its three attempts draw *)
Definition create_agent_row (ids : list pystr) (r : agent_row) (avatar : pystr) (h : hosted) : res exn (pystr * agent_full * hosted) :=
  require (bool_decide (avatar ∈ (["centaeris"; "banana"] : list pystr))) (ValueError "unsupported Agent.avatar_kind");;
  kd ← resource_create ids r (identity h);
  row ← from_option_res DoesNotExist (agents kd.2 !! kd.1);
  let f := AgentFull row avatar None None None in
  Ok (kd.1, f, set_h_agents <[kd.1 := f]> h).

(** [Session.save] of a new row *)
Definition insert_session (k : pystr) (f : session_full) (h : hosted) : res exn hosted :=
  validate_agent_id (se_agent (sf_row f));;
  a ← from_option_res (ValueError "Session agent does not exist") (h_agents h !! se_agent (sf_row f));
  require (bool_decide (a_workspace (af_row a) = se_workspace (sf_row f)) && (a_owner (af_row a) =? se_owner (sf_row f)))
    (ValueError "Session agent ownership mismatch");;
  require (deletion_state_ok (se_status (sf_row f)) (sf_deleted_at f) (sf_purged_at f)) (ValueError "Session deletion state is invalid");;
  require (bool_decide (h_sessions h !! k = None)) IntegrityError;;
  Ok (set_h_sessions <[k := f]> h).
(** [Session.objects.create]: a primary-key conflict is retried with another id, three attempts in all *)
Fixpoint session_create (ids : list pystr) (f : session_full) (h : hosted) : res exn (pystr * hosted) :=
  match ids with
  | [] => Err IntegrityError
  | k :: rest =>
      match insert_session k f h with
      | Ok h' => Ok (k, h')
      | Err e =>
          if bool_decide (e = IntegrityError) && bool_decide (is_Some (h_sessions h !! k))
          then match rest with [] => Err e | _ => session_create rest f h end
          else Err e
      end
  end.
(** [Session.save] of a stored row: agent, workspace and owner are not changed by any caller *)
Definition save_session (k : pystr) (f : session_full) (h : hosted) : res exn hosted :=
  require (deletion_state_ok (se_status (sf_row f)) (sf_deleted_at f) (sf_purged_at f)) (ValueError "Session deletion state is invalid");;
  Ok (set_h_sessions <[k := f]> h).
End saving.

(** [purge_session_outputs] *)
Definition purge_session_outputs (sid : pystr) (at_ : Z) (h : hosted) : hosted :=
  set_h_captures (map_imap (fun ev c => Some (if bool_decide (ev_session <$> h_events h !! ev = Some sid)
    then Capture (cp_byte_length c) (cp_chunk_size c) (Some at_) ∅ else c))) h.
