(* ===== verification/Sessions.v ===== *)
(** * Agents and sessions

    The endpoints of [packages/api/app_core/http/agents.py] and the session endpoints of
    [packages/api/app_core/http/workspaces.py]: creating, listing, renaming, deleting, restoring and purging,
    the receipts of session creation, and the cancellation and supplementing of runs.  Answers of the runtime
    service are arguments. *)

From stdpp Require Import base tactics list gmap numbers.
From S2P Require Import Prelude PyStr Table Utf8 Sha256 Platform Schema Access AgentIdentity Delegation Lifecycle Snapshot Assets Hosted.

(** ** Requests and responses *)

(** the query string: names and values in order *)
Abbreviation query := (list (pystr * pystr)).
Definition getlist (name : pystr) (q : query) : list pystr := map snd (filter (fun kv => kv.1 = name) q).
(** [set(request.GET.keys()) <= names] and one value for each name *)
Definition fields_within (names : list pystr) (q : query) : bool := forallb (fun kv => bool_decide (kv.1 ∈ names)) q.
Definition single_values (q : query) : bool := forallb (fun kv => bool_decide (length (getlist kv.1 q) = 1%nat)) q.
Definition fields_equal (names : list pystr) (q : query) : bool :=
  fields_within names q && forallb (fun n => bool_decide (n ∈ map fst q)) names.
(** [request.GET.get(name)] *)
Definition q_get (name : pystr) (q : query) : option pystr := list.last (getlist name q).

Inductive hbody :=
| HError (code : pystr)
| HAgent (id : pystr) (f : agent_full)
| HAgents (l : list (pystr * agent_full))
| HProject (id : pystr) (p : project_row)
| HProjects (l : list (pystr * project_row))
(** with [hasActiveAgentRun] *)
| HSession (id : pystr) (f : session_full) (active : bool)
| HSessions (l : list (pystr * session_full * bool))
| HReceipt (r : receipt_row)
| HRun (run_id : pystr) (status : run_status) (disposition : pystr)
| HSupplement (run_id session_id supplement_id disposition : pystr) (queued : Z)
| HDeleted.
Inductive hresponse := HStatus (code : Z) (body : hbody).
Definition herror (status : Z) (code : pystr) : hresponse := HStatus status (HError code).
Abbreviation hosted_handler := (res hexn (hresponse * hosted)).

(** the delegation a request was authenticated with: its id and row *)
Abbreviation app_delegation := (option (pystr * delegation_row)).

Definition member_of (h : hosted) (user : Z) (wid : pystr) : res exn (option (pystr * membership_row)) :=
  workspace_membership_for (identity h) (Some user) wid WORKSPACE_ROLES.
Definition locked_member (h : hosted) (user : Z) (wid : pystr) : res exn (option (pystr * membership_row)) :=
  locked_workspace_membership_for (identity h) user wid WORKSPACE_ROLES.
(** [if membership is None: return 404] *)
Definition with_member (h : hosted) (membership : res exn (option (pystr * membership_row))) (missing : hresponse)
    (k : pystr -> membership_row -> hosted_handler) : hosted_handler :=
  membership ← hlift membership;
  match membership with None => Ok (missing, h) | Some (mid, m) => k mid m end.
Definition workspace_missing : hresponse := herror 404 "workspace_not_found".

Section agents.
Context {PL : Platform}.

(** ** Agents *)

Definition _owned_agent (h : hosted) (user : Z) (id : pystr) (lock : bool) : res exn (option agent_full) :=
  match h_agents h !! id with
  | None => Ok None
  | Some f =>
      if negb (a_owner (af_row f) =? user) then Ok None
      else
        membership ← (if lock then locked_member h user (a_workspace (af_row f)) else member_of h user (a_workspace (af_row f)));
        Ok match membership with None => None | Some _ => Some f end
  end.
Definition with_agent (h : hosted) (user : Z) (id : pystr) (k : agent_full -> hosted_handler) : hosted_handler :=
  agent ← hlift (_owned_agent h user id true);
  match agent with None => Ok (herror 404 "agent_not_found", h) | Some f => k f end.

(** [.order_by("createdAt", "id")] *)
Definition list_agents (h : hosted) (user : Z) (wid : pystr) (grant : app_delegation) : hosted_handler :=
  with_member h (member_of h user wid) workspace_missing (fun _ _ =>
    let listed := qs_list (fun f => bool_decide (a_workspace (af_row f) = wid) && (a_owner (af_row f) =? user)
                                    && bool_decide (a_status (af_row f) = Active)
                                    && match grant with
                                       | Some (_, g) => bool_decide (a_definition (af_row f) = Some (dl_definition g))
                                       | None => true
                                       end) (h_agents h) in
    Ok (HStatus 200 (HAgents (order_by Z.le (fun f => a_created_at (af_row f)) listed)), h)).

(** the request is normalised when it is parsed *)
Definition create_agent (h : hosted) (user : Z) (wid name description instructions avatar : pystr) (ids : list pystr) (now : Z) : hosted_handler :=
  with_member h (locked_member h user wid) workspace_missing (fun _ _ =>
    p ← hlift (create_agent_row ids (Agent wid user None name description instructions Active now) avatar h);
    let '(k, f, h') := p in
    Ok (HStatus 201 (HAgent k f), h')).

Definition get_agent (h : hosted) (user : Z) (id : pystr) : hosted_handler :=
  agent ← hlift (_owned_agent h user id false);
  match agent with
  | Some f => if bool_decide (a_status (af_row f) = Active) then Ok (HStatus 200 (HAgent id f), h) else Ok (herror 404 "agent_not_found", h)
  | None => Ok (herror 404 "agent_not_found", h)
  end.

(** A field is absent, or set, possibly to null. *)
Record update_agent_request := UpdateAgent {
  ua_name : option (option pystr); ua_description : option (option pystr);
  ua_instructions : option (option pystr); ua_avatar : option (option pystr) }.
Definition ua_values (p : update_agent_request) : list (option pystr) := omap id [ua_name p; ua_description p; ua_instructions p; ua_avatar p].
(** the value a field has after the update *)
Definition field_after (current : pystr) (field : option (option pystr)) : pystr := default current (default None field).
Definition agent_after (p : update_agent_request) (f : agent_full) : agent_full :=
  let a := af_row f in
  AgentFull (Agent (a_workspace a) (a_owner a) (a_definition a) (field_after (a_name a) (ua_name p))
               (field_after (a_description a) (ua_description p)) (field_after (a_instructions a) (ua_instructions p)) (a_status a) (a_created_at a))
    (field_after (af_avatar f) (ua_avatar p)) (af_deleted_at f) (af_deleted_by f) (af_purged_at f).
#[global] Instance agent_row_eq_dec : EqDecision agent_row.
Proof. solve_decision. Defined.
#[global] Instance agent_full_eq_dec : EqDecision agent_full.
Proof. solve_decision. Defined.

Definition update_agent (h : hosted) (user : Z) (id : pystr) (payload : update_agent_request) : hosted_handler :=
  if bool_decide (ua_values payload = []) || existsb (fun v => bool_decide (v = None)) (ua_values payload)
  then Ok (herror 400 "agent_invalid", h)
  else
    with_agent h user id (fun f =>
      if bool_decide (a_status (af_row f) = Deleted) then Ok (herror 410 "agent_deleted", h)
      else if bool_decide (is_Some (a_definition (af_row f))) then Ok (herror 409 "agent_configuration_managed", h)
      else if bool_decide (agent_after payload f = f) then Ok (herror 409 "agent_unchanged", h)
      else
        h' ← hlift (save_agent id (agent_after payload f) h);
        Ok (HStatus 200 (HAgent id (default f (h_agents h' !! id))), h')).

Definition set_a_status (s : life_status) (a : agent_row) : agent_row :=
  Agent (a_workspace a) (a_owner a) (a_definition a) (a_name a) (a_description a) (a_instructions a) s (a_created_at a).
Definition agent_lifecycle (s : life_status) (deleted_at deleted_by purged_at : option Z) (f : agent_full) : agent_full :=
  AgentFull (set_a_status s (af_row f)) (af_avatar f) deleted_at deleted_by purged_at.
(** [agent.sessions.filter(agent_runs__status__in={...}).exists()] *)
Definition agent_has_active_run (h : hosted) (id : pystr) : bool :=
  qs_exists (fun f => run_active f && bool_decide (se_agent ∘ sf_row <$> h_sessions h !! r_session (rf_life f) = Some id)) (h_runs h).

Definition delete_agent (h : hosted) (user : Z) (id : pystr) (now : Z) : hosted_handler :=
  with_agent h user id (fun f =>
    if bool_decide (a_status (af_row f) = Deleted) then Ok (herror 410 "agent_deleted", h)
    else if agent_has_active_run h id then Ok (herror 409 "agent_has_active_agent_run", h)
    else
      h' ← hlift (save_agent id (agent_lifecycle Deleted (Some now) (Some user) (af_purged_at f) f) h);
      Ok (HStatus 200 HDeleted, h')).

Definition restore_agent (h : hosted) (user : Z) (id : pystr) (now : Z) : hosted_handler :=
  with_agent h user id (fun f =>
    if negb (bool_decide (a_status (af_row f) = Deleted)) then Ok (herror 409 "agent_not_deleted", h)
    else if negb (trash_is_restorable (af_deleted_at f) (af_purged_at f) now) then Ok (herror 410 "agent_expired", h)
    else
      h' ← hlift (save_agent id (agent_lifecycle Active None None None f) h);
      Ok (HStatus 200 (HAgent id (default f (h_agents h' !! id))), h')).

Definition permanently_delete_agent (h : hosted) (user : Z) (id : pystr) (now : Z) : hosted_handler :=
  with_agent h user id (fun f =>
    if negb (bool_decide (a_status (af_row f) = Deleted)) then Ok (herror 409 "agent_not_deleted", h)
    else if bool_decide (is_Some (af_purged_at f)) then Ok (herror 410 "agent_purged", h)
    else
      h' ← hlift (save_agent id (agent_lifecycle Deleted (af_deleted_at f) (af_deleted_by f) (Some now) f) h);
      Ok (HStatus 200 HDeleted, h')).
End agents.

(** ** Projects and sessions *)

Definition pinned_then_newest (x y : bool * Z) : Prop := negb x.1 && y.1 = false /\ (x.1 = y.1 -> y.2 <= x.2).
#[global] Instance pinned_then_newest_dec : RelDecision pinned_then_newest.
Proof. intros x y. unfold pinned_then_newest. apply _. Defined.

Section sessions.
Context {PL : Platform}.

Definition list_session_projects (h : hosted) (user : Z) (wid : pystr) (q : query) : hosted_handler :=
  with_member h (member_of h user wid) workspace_missing (fun _ _ =>
    if negb (fields_equal ["agentId"] q && single_values q) then Ok (herror 400 "session_project_filter_invalid", h)
    else
      let agent_id := default "" (q_get "agentId" q) in
      match validate_agent_id agent_id with
      | Err _ => Ok (herror 400 "agent_id_invalid", h)
      | Ok _ =>
          match h_agents h !! agent_id with
          | Some f =>
              if bool_decide (a_workspace (af_row f) = wid) && (a_owner (af_row f) =? user) && bool_decide (a_status (af_row f) = Active) then
                let listed := qs_list (fun p => bool_decide (pj_workspace p = wid) && (pj_owner p =? user) && bool_decide (pj_agent p = agent_id)) (h_projects h) in
                Ok (HStatus 200 (HProjects (order_by Z.le pj_created_at listed)), h)
              else Ok (herror 404 "agent_not_found", h)
          | None => Ok (herror 404 "agent_not_found", h)
          end
      end).

(** the agent of a request that creates something: [None] when it is not the user's *)
Definition request_agent (h : hosted) (user : Z) (wid agent_id : pystr) : option agent_full :=
  f ← h_agents h !! agent_id;
  if bool_decide (a_workspace (af_row f) = wid) && (a_owner (af_row f) =? user) then Some f else None.
Definition project_matches (h : hosted) (user : Z) (wid agent_id project_id : pystr) : bool :=
  match h_projects h !! project_id with
  | Some p => bool_decide (pj_workspace p = wid) && (pj_owner p =? user) && bool_decide (pj_agent p = agent_id)
  | None => false
  end.

(** [others] is what happens between the first check and the transaction; the name was normalised when the
    request was parsed *)
Definition create_session_project (h : hosted) (others : hosted -> hosted) (user : Z) (wid agent_id name new_id : pystr) (now : Z) : hosted_handler :=
  with_member h (member_of h user wid) workspace_missing (fun _ _ =>
    let h := others h in
    with_member h (locked_member h user wid) workspace_missing (fun _ _ =>
      match request_agent h user wid agent_id with
      | None => Ok (herror 404 "agent_not_found", h)
      | Some f =>
          if bool_decide (a_status (af_row f) = Deleted) then Ok (herror 410 "agent_deleted", h)
          else
            let p := Project wid user agent_id name now in
            match qs_insert new_id p (h_projects h) with
            | Some t => Ok (HStatus 201 (HProject new_id p), set_h_projects (fun _ => t) h)
            | None => Err (HDelegation (Raised IntegrityError))
            end
      end)).

Definition session_has_active_run (h : hosted) (sid : pystr) : bool := negb (bool_decide (active_runs h sid = [])).

Definition list_workspace_sessions (h : hosted) (user : Z) (wid : pystr) (grant : app_delegation) (q : query) : hosted_handler :=
  with_member h (member_of h user wid) workspace_missing (fun _ _ =>
    if negb (fields_within ["agentId"] q && single_values q) then Ok (herror 400 "session_filter_unsupported", h)
    else
      let agent_id := q_get "agentId" q in
      let listed :=
        qs_list (fun f => bool_decide (se_workspace (sf_row f) = wid) && (se_owner (sf_row f) =? user) && bool_decide (se_status (sf_row f) = Active)
                          && match h_agents h !! se_agent (sf_row f) with
                             | Some a => bool_decide (a_status (af_row a) = Active)
                                         && match grant with
                                            | Some (_, g) => bool_decide (a_definition (af_row a) = Some (dl_definition g))
                                            | None => true
                                            end
                             | None => false
                             end
                          && match agent_id with Some a => bool_decide (se_agent (sf_row f) = a) | None => true end) (h_sessions h) in
      let answer := Ok (HStatus 200 (HSessions (map (fun kf => (kf.1, kf.2, session_has_active_run h kf.1))
                          (order_by pinned_then_newest (fun f => (sf_pinned f, sf_updated_at f)) listed))), h) in
      match agent_id with
      | None => answer
      | Some a =>
          match validate_agent_id a with
          | Err _ => Ok (herror 400 "agent_id_invalid", h)
          | Ok _ =>
              match request_agent h user wid a with
              | Some f =>
                  if bool_decide (a_status (af_row f) = Active) then
                    match grant with
                    | Some (_, g) => dlift (require_delegated_agent (identity h) g a true);; answer
                    | None => answer
                    end
                  else Ok (herror 404 "agent_not_found", h)
              | None => Ok (herror 404 "agent_not_found", h)
              end
          end
      end).

Definition new_session (wid : pystr) (user : Z) (agent_id : pystr) (project : option pystr) (now : Z) : session_full :=
  SessionFull (Session wid user agent_id Active) project "New chat" false None None None (Candidate 0 "" 0 0 0) now now.

(** [except HostedOperationError] *)
Definition or_hosted_error {A} (m : res dexn A) (h : hosted) (k : A -> hosted_handler) : hosted_handler :=
  match m with
  | Ok a => k a
  | Err (HostedOperationError status code) => Ok (herror status code, h)
  | Err e => Err (HDelegation e)
  end.

(** The commit of [create_workspace_session]; [digest] is the request's, [ids] the session ids that are drawn,
    [key] the primary key of the receipt. *)
Definition session_commit (h : hosted) (user : Z) (wid : pystr) (grant_id : option pystr) (operation_id agent_id : pystr)
    (project_id : option pystr) (digest : pystr) (ids : list pystr) (key : Z) (now : Z) : hosted_handler :=
  with_member h (locked_member h user wid) workspace_missing (fun _ _ =>
    grant ← dlift (require_request_delegation (identity h) grant_id "sessions:create" (Some wid) (Some agent_id) None [] false now);
    or_hosted_error (replay_operation (identity h) (operation_resources h) user wid "createSession" operation_id (Some digest) grant) h (fun receipt =>
      match receipt with
      | Some r => Ok (HStatus 201 (HReceipt r), h)
      | None =>
          match grant with Some g => dlift (require_delegated_agent (identity h) g agent_id true);; Ok tt | None => Ok tt end;;
          match request_agent h user wid agent_id with
          | None => Ok (herror 404 "agent_not_found", h)
          | Some f =>
              if bool_decide (a_status (af_row f) = Deleted) then Ok (herror 410 "agent_deleted", h)
              else if match project_id with Some p => negb (project_matches h user wid agent_id p) | None => false end
              then Ok (herror 404 "session_project_not_found", h)
              else
                created ← hlift (session_create ids (new_session wid user agent_id project_id now) h);
                let '(sid, h1) := created in
                accepted ← dlift (accept_operation (operation_resources h1) key user wid "createSession" operation_id digest sid None
                                    (match grant_id, grant with Some i, Some g => Some (i, g) | _, _ => None end));
                Ok (HStatus 201 (HReceipt accepted.1), set_h_receipts (fun _ => res_receipts accepted.2) h1)
          end
      end)).
Definition create_workspace_session (h : hosted) (others : hosted -> hosted) (user : Z) (wid : pystr) (grant_id : option pystr)
    (operation_id agent_id : pystr) (project_id : option pystr) (digest : pystr) (ids : list pystr) (key : Z) (now : Z) : hosted_handler :=
  with_member h (member_of h user wid) workspace_missing (fun _ _ =>
    session_commit (others h) user wid grant_id operation_id agent_id project_id digest ids key now).

Definition is_operation_char (c : Z) : bool := is_ascii_alnum c || (c =? 95) || (c =? 46) || (c =? 58) || (c =? 45).
Definition operation_id_ok (s : pystr) : bool := (1 <=? str_len s) && (str_len s <=? 128) && chars_all is_operation_char s.

Definition get_hosted_operation (h : hosted) (user : Z) (wid : pystr) (grant_id : option pystr) (command operation_id : pystr) (q : query) (now : Z) : hosted_handler :=
  if negb (bool_decide (q = [])) || negb (operation_id_ok operation_id) then Ok (herror 400 "request_invalid", h)
  else
    with_member h (locked_member h user wid) (herror 404 "operation_not_found") (fun _ _ =>
      grant ← dlift (require_request_delegation (identity h) grant_id "sessions:read" (Some wid) None None [] true now);
      or_hosted_error (replay_operation (identity h) (operation_resources h) user wid command operation_id None grant) h (fun receipt =>
        match receipt with
        | None => Ok (herror 404 "operation_not_found", h)
        | Some r => Ok (HStatus 200 (HReceipt r), h)
        end)).

(** ** One session *)

Definition _authorized_transcript_session (h : hosted) (user : Z) (sid : pystr) : res exn (option session_full) :=
  match h_sessions h !! sid with
  | Some f =>
      if (se_owner (sf_row f) =? user) && bool_decide (sf_purged_at f = None)
         && match h_agents h !! se_agent (sf_row f) with Some a => bool_decide (af_purged_at a = None) | None => false end
      then membership ← member_of h user (se_workspace (sf_row f)); Ok match membership with None => None | Some _ => Some f end
      else Ok None
  | None => Ok None
  end.
Definition _session_for_update (h : hosted) (user : Z) (sid : pystr) : res exn (option session_full) :=
  match h_sessions h !! sid with
  | Some f =>
      if (se_owner (sf_row f) =? user) && bool_decide (se_status (sf_row f) = Active)
         && match h_agents h !! se_agent (sf_row f) with Some a => bool_decide (a_status (af_row a) = Active) | None => false end
      then membership ← member_of h user (se_workspace (sf_row f)); Ok match membership with None => None | Some _ => Some f end
      else Ok None
  | None => Ok None
  end.
Definition _locked_owned_session (h : hosted) (user : Z) (sid : pystr) : res exn (option (agent_full * session_full)) :=
  match h_sessions h !! sid with
  | Some f =>
      if negb (se_owner (sf_row f) =? user) then Ok None
      else
        membership ← locked_member h user (se_workspace (sf_row f));
        match membership with
        | None => Ok None
        | Some _ => Ok match request_agent h user (se_workspace (sf_row f)) (se_agent (sf_row f)) with
                       | Some a => Some (a, f)
                       | None => None
                       end
        end
  | None => Ok None
  end.
Definition session_missing : hresponse := herror 404 "session_not_found".

Definition get_session (h : hosted) (user : Z) (sid : pystr) : hosted_handler :=
  session ← hlift (_authorized_transcript_session h user sid);
  match session with
  | None => Ok (session_missing, h)
  | Some f => Ok (HStatus 200 (HSession sid f (session_has_active_run h sid)), h)
  end.

(** A field is absent, or set, possibly to null. *)
Record session_metadata := SessionMetadata {
  sm_title : option (option pystr); sm_pinned : option (option bool); sm_unread : option (option bool) }.
Definition set_sf_display (title : pystr) (pinned : bool) (f : session_full) : session_full :=
  SessionFull (sf_row f) (sf_project f) title pinned (sf_deleted_at f) (sf_deleted_by f) (sf_purged_at f) (sf_workspace f) (sf_created_at f) (sf_updated_at f).
Definition sm_invalid (p : session_metadata) : bool :=
  (bool_decide (sm_title p = None) && bool_decide (sm_pinned p = None) && bool_decide (sm_unread p = None))
  || bool_decide (sm_title p = Some None) || bool_decide (sm_pinned p = Some None) || bool_decide (sm_unread p = Some None).

(** the save names its columns: [updatedAt] is not among them *)
Definition update_session_metadata (h : hosted) (user : Z) (sid : pystr) (payload : session_metadata) : hosted_handler :=
  if sm_invalid payload then Ok (herror 400 "session_metadata_invalid", h)
  else
    session ← hlift (_session_for_update h user sid);
    match session with
    | None => Ok (session_missing, h)
    | Some f =>
        let title := strip (field_after (sf_title f) (sm_title payload)) in
        if bool_decide (is_Some (sm_title payload)) && (is_empty title || (200 <? str_len title))
        then Ok (herror 400 "session_title_invalid", h)
        else
          let f' := set_sf_display (if bool_decide (is_Some (sm_title payload)) then title else sf_title f)
                      (match sm_pinned payload with Some (Some b) => b | _ => sf_pinned f end) f in
          h1 ← hlift (save_session sid f' h);
          let h2 := match sm_unread payload with
                    | Some (Some true) => set_h_unread (fun u => {[sid]} ∪ u) h1
                    | Some (Some false) => set_h_unread (fun u => u ∖ {[sid]}) h1
                    | _ => h1
                    end in
          Ok (HStatus 200 (HSession sid f' (session_has_active_run h2 sid)), h2)
    end.
End sessions.

(** ** Deleting sessions and stopping runs *)

(** What [request_agent_run_cancellation] returned, or that it raised [RuntimeError]. *)
Inductive cancel_reply := CancelFailed | CancelRequested | CancelTerminal (state : run_status).
(** What [request_agent_run_supplement] returned or raised. *)
Inductive supplement_reply := SupplementConflict (message : pystr) | SupplementFailed | SupplementAccepted (disposition : pystr) (queued : Z).

Section stopping.
Context {PL : Platform} (material_citations : pystr -> option Z -> gmap pystr citation_row).

(** [AgentRun.objects.filter(id=..., status__in={queued, running}).update(transitionReason=...)] *)
Definition mark_reason (run_id reason : pystr) (active_only : run_full -> bool) (h : hosted) : hosted :=
  match h_runs h !! run_id with
  | Some f => if active_only f then set_h_runs <[run_id := set_rf_life (set_reason reason (rf_life f)) f]> h else h
  | None => h
  end.

Definition project_run (h : hosted) (run_id : pystr) (expected : option run_status) : res hexn (run_row * hosted) :=
  p ← llift (project_committed_agent_run material_citations (life h) run_id expected);
  Ok (p.1, put_life p.2 h).

(** The loop over the active runs: [Some] is an early answer.  A [return] inside the transaction commits what
    was done before. *)
Fixpoint stop_runs (runs : list pystr) (cancel : pystr -> cancel_reply) (h : hosted) : res hexn (option hresponse * hosted) :=
  match runs with
  | [] => Ok (None, h)
  | run_id :: runs =>
      match cancel run_id with
      | CancelFailed => Ok (Some (herror 503 "session_delete_cancel_unavailable"), h)
      | CancelTerminal state =>
          p ← project_run h run_id (Some state);
          if bool_decide (r_status p.1 = Queued) || bool_decide (r_status p.1 = Running)
          then Ok (Some (herror 503 "session_delete_cancel_unavailable"), p.2)
          else stop_runs runs cancel p.2
      | CancelRequested => stop_runs runs cancel (mark_reason run_id "agent_run_cancel_requested" run_active h)
      end
  end.

Definition session_lifecycle (s : life_status) (deleted_at deleted_by purged_at : option Z) (now : Z) (f : session_full) : session_full :=
  let r := sf_row f in
  SessionFull (Session (se_workspace r) (se_owner r) (se_agent r) s) (sf_project f) (sf_title f) (sf_pinned f)
    deleted_at deleted_by purged_at (sf_workspace f) (sf_created_at f) now.

Definition with_owned_session (h : hosted) (user : Z) (sid : pystr) (k : agent_full -> session_full -> hosted_handler) : hosted_handler :=
  owned ← hlift (_locked_owned_session h user sid);
  match owned with None => Ok (session_missing, h) | Some (a, f) => k a f end.

Definition delete_session (h : hosted) (user : Z) (sid : pystr) (cancel : pystr -> cancel_reply) (now : Z) : hosted_handler :=
  with_owned_session h user sid (fun a f =>
    if bool_decide (se_status (sf_row f) = Deleted) then Ok (herror 410 "session_deleted", h)
    else if bool_decide (a_status (af_row a) = Deleted) then Ok (herror 409 "agent_deleted", h)
    else
      stopped ← stop_runs (map fst (active_runs h sid)) cancel h;
      match stopped with
      | (Some response, h) => Ok (response, h)
      | (None, h) =>
          h' ← hlift (save_session sid (session_lifecycle Deleted (Some now) (Some user) (Some now) now f) (purge_session_outputs sid now h));
          Ok (HStatus 200 HDeleted, h')
      end).

Definition restore_session (h : hosted) (user : Z) (sid : pystr) (now : Z) : hosted_handler :=
  with_owned_session h user sid (fun a f =>
    if bool_decide (a_status (af_row a) = Deleted) then Ok (herror 409 "agent_deleted", h)
    else if negb (bool_decide (se_status (sf_row f) = Deleted)) then Ok (herror 409 "session_not_deleted", h)
    else if negb (trash_is_restorable (sf_deleted_at f) (sf_purged_at f) now) then Ok (herror 410 "session_expired", h)
    else if session_has_active_run h sid then Ok (herror 409 "session_stop_pending", h)
    else
      let f' := session_lifecycle Active None None None now f in
      h' ← hlift (save_session sid f' h);
      Ok (HStatus 200 (HSession sid f' false), h')).

Definition permanently_delete_session (h : hosted) (user : Z) (sid : pystr) (now : Z) : hosted_handler :=
  with_owned_session h user sid (fun _ f =>
    if negb (bool_decide (se_status (sf_row f) = Deleted)) then Ok (herror 409 "session_not_deleted", h)
    else if bool_decide (is_Some (sf_purged_at f)) then Ok (herror 410 "session_purged", h)
    else
      h' ← hlift (save_session sid (session_lifecycle Deleted (sf_deleted_at f) (sf_deleted_by f) (Some now) now f) (purge_session_outputs sid now h));
      Ok (HStatus 200 HDeleted, h')).

(** the run of a path, when the session is the user's and the membership it was created under is current *)
Definition requested_run (h : hosted) (user : Z) (sid run_id : pystr) (selected : run_full -> bool) : option run_full :=
  f ← h_runs h !! run_id;
  if bool_decide (r_session (rf_life f) = sid) && bool_decide (se_owner ∘ sf_row <$> h_sessions h !! sid = Some user) && selected f
     && agent_run_membership_is_current (identity h) (rf_membership f) (r_workspace (rf_life f)) (ri_user (rf_identity f))
  then Some f else None.

Definition supplement_agent_run (h : hosted) (user : Z) (sid run_id : pystr) (grant_id : option pystr) (supplement_id : pystr)
    (reply : supplement_reply) (now : Z) : hosted_handler :=
  match requested_run h user sid run_id run_active with
  | None => Ok (herror 404 "active_agent_run_not_found", h)
  | Some _ =>
      dlift (require_request_delegation (identity h) grant_id "messages:submit" None None (Some sid) [] true now);;
      match reply with
      | SupplementConflict message => Ok (herror 409 message, h)
      | SupplementFailed => Ok (herror 503 "agent_run_supplement_unavailable", h)
      | SupplementAccepted disposition queued => Ok (HStatus 202 (HSupplement run_id sid supplement_id disposition queued), h)
      end
  end.

(** [others] is what happens while the runtime answers *)
Definition cancel_agent_run (h : hosted) (others : hosted -> hosted) (user : Z) (sid run_id : pystr) (grant_id : option pystr)
    (reply : cancel_reply) (now : Z) : hosted_handler :=
  match requested_run h user sid run_id (fun _ => true) with
  | None => Ok (herror 404 "agent_run_not_found", h)
  | Some f =>
      dlift (require_request_delegation (identity h) grant_id "runs:cancel" None None (Some sid) [] true now);;
      let h := others h in
      match reply with
      | CancelFailed => Ok (herror 503 "agent_run_cancel_unavailable", h)
      | CancelTerminal state => p ← project_run h run_id (Some state); Ok (HStatus 200 (HRun run_id (r_status p.1) "terminal"), p.2)
      | CancelRequested =>
          let h := mark_reason run_id "agent_run_cancel_requested" run_active h in
          status ← from_option_res (HLife LDoesNotExist) ((fun f => r_status (rf_life f)) <$> h_runs h !! run_id);
          Ok (HStatus 202 (HRun run_id status "requested"), h)
      end
  end.
End stopping.
