(* ===== verification/Inputs.v ===== *)
(** * Attachments and the inputs of a run

    The endpoints of [packages/api/app_core/http/library.py] that attach objects to a session, the capture of an
    object's identity and the declared and resolved inputs of [packages/api/app_core/assets.py], and
    [packages/api/app_core/deferred_input.py], which gives a run access to the bytes of an input. *)

From stdpp Require Import base tactics list gmap numbers sorting.
From S2P Require Import Prelude PyStr Table Utf8 Sha256 Platform Schema Access AgentIdentity Delegation Lifecycle PyValue Json Contract Snapshot WorkspaceCommit Assets Library Sources ResourceGc Hosted Sessions.

Definition MAX_DIRECT_INPUT_BYTES : Z := 64 * 1024 * 1024.

(** ** Capturing *)

Definition owner_name (o : owner) : pystr := match o with OwnSource _ r => so_name r | OwnLibrary _ r => lb_name r | OwnArtifact _ r => ar_name r end.
Definition owner_content_type (o : owner) : pystr :=
  match o with OwnSource _ r => so_content_type r | OwnLibrary _ r => lb_content_type r | OwnArtifact _ r => ar_content_type r end.

(** [re.fullmatch(r"sha256:[0-9a-f]{64}", s)] *)
Definition is_sha256_tag (s : pystr) : bool :=
  startswith s "sha256:" && (str_len s =? 71) && chars_all is_lower_hex (removeprefix s "sha256:").

(** the kind and id of the owner, and the generation, size and digest of its contents *)
Definition captured_input_fields (o : owner) : res exn (owner_kind * pystr * Z * Z * pystr) :=
  let '(kind, id) := stored_object_identity o in
  let invalid := ValueError "asset_input_identity_invalid" in
  size ← from_option_res invalid (o_size o);
  require ((0 <? o_content_generation o) && (0 <=? size) && is_sha256_tag (o_sha256 o)) invalid;;
  require (size <=? MAX_DIRECT_INPUT_BYTES) (ValueError "attachment_too_large");;
  Ok (kind, id, o_content_generation o, size, o_sha256 o).

(** ** Links *)

Definition _session_for_assets (h : hosted) (user : Z) (sid : pystr) : res exn (option session_full) :=
  match h_sessions h !! sid with
  | Some f => if se_owner (sf_row f) =? user
              then membership ← member_of h user (se_workspace (sf_row f)); Ok match membership with None => None | Some _ => Some f end
              else Ok None
  | None => Ok None
  end.

Definition _resolve_linkable_asset (h : hosted) (user : Z) (sid : pystr) (f : session_full) (kind : owner_kind) (id : pystr) : res exn owner :=
  let missing := ValueError "asset_not_accessible" in
  match kind with
  | KSourceObject =>
      r ← from_option_res missing (source_objects (h_store h) !! id);
      require (bool_decide (so_workspace r = se_workspace (sf_row f)) && negb (so_directory r) && bool_decide (so_status r = OReady)) missing;;
      granted ← source_object_is_granted (source_view h) user r;
      require granted (ValueError "source_object_not_granted");;
      Ok (OwnSource id r)
  | KUserLibraryObject =>
      r ← from_option_res missing (library (h_store h) !! id);
      require ((lb_owner r =? user) && bool_decide (lb_status r = OReady) && negb (bool_decide (lb_kind r = LFolder))) missing;;
      Ok (OwnLibrary id r)
  | KArtifact =>
      r ← from_option_res missing (artifacts (h_store h) !! id);
      require (bool_decide (ar_session r = sid) && bool_decide (ar_status r = APublished)) missing;;
      Ok (OwnArtifact id r)
  end.

(** The asset of the link lies within the scope of its session. *)
Definition link_in_scope (l : asset_link) (o : owner) : bool :=
  match o with
  | OwnSource _ r => bool_decide (so_workspace r = al_workspace l)
  | OwnLibrary _ r => lb_owner r =? al_attached_by l
  | OwnArtifact _ r => bool_decide (ar_workspace r = al_workspace l) && bool_decide (ar_session r = al_session l)
  end.
Definition link_captures (l : asset_link) (o : owner) : bool :=
  bool_decide ((al_owner_kind l, al_owner_id l) = stored_object_identity o) && (al_generation l =? o_content_generation o)
  && bool_decide (Some (al_size l) = o_size o) && bool_decide (al_sha256 l = o_sha256 o).
Definition scope_message (o : owner) : pystr :=
  match o with
  | OwnSource _ _ => "SessionAssetLink source workspace mismatch"
  | OwnLibrary _ _ => "SessionAssetLink library owner mismatch"
  | OwnArtifact _ _ => "SessionAssetLink artifact scope mismatch"
  end.
(** [SessionAssetLink.save] of a new row *)
Definition insert_link (id : pystr) (l : asset_link) (o : owner) (h : hosted) : res exn hosted :=
  f ← from_option_res DoesNotExist (h_sessions h !! al_session l);
  require (bool_decide (al_workspace l = se_workspace (sf_row f))) (ValueError "SessionAssetLink workspace/session binding mismatch");;
  require (al_attached_by l =? se_owner (sf_row f)) (ValueError "SessionAssetLink attachedBy/session owner mismatch");;
  require (negb (is_empty (strip (al_display_name l)) || is_empty (strip (al_content_type l)))) (ValueError "SessionAssetLink requires captured file metadata");;
  require (is_sha256_tag (al_sha256 l)) (ValueError "SessionAssetLink.capturedSha256 must be sha256:<64 lowercase hex>");;
  require ((0 <? al_generation l) && (0 <=? al_size l)) (ValueError "SessionAssetLink requires a positive generation and size");;
  require (link_in_scope l o) (ValueError (scope_message o));;
  require (link_captures l o) (ValueError "SessionAssetLink input identity mismatch");;
  require (bool_decide (h_links h !! id = None)) IntegrityError;;
  Ok (set_h_links <[id := l]> h).

(** the columns [get_or_create] looks a link up by: all but the display name and the content type *)
Definition link_key (l : asset_link) : pystr * pystr * Z * (owner_kind * pystr) * Z * Z * pystr :=
  (al_workspace l, al_session l, al_attached_by l, (al_owner_kind l, al_owner_id l), al_generation l, al_size l, al_sha256 l).
Definition link_get_or_create (new_id : pystr) (l : asset_link) (o : owner) (h : hosted) : res hexn (pystr * asset_link * hosted) :=
  match qs_list (fun l' => bool_decide (link_key l' = link_key l)) (h_links h) with
  | [] => h' ← hlift (insert_link new_id l o h); Ok (new_id, l, h')
  | [(id, l')] => Ok (id, l', h)
  | _ => Err HMultipleObjects
  end.
Definition new_link (h : hosted) (user : Z) (sid wid : pystr) (o : owner) (content_type : pystr) : res exn asset_link :=
  captured ← captured_input_fields o;
  let '(kind, id, generation, size, sha) := captured in
  Ok (AssetLink wid sid user kind id generation size sha (owner_name o) content_type).

Inductive abody := ALink (id : pystr) (l : asset_link) | ALinks (l : list (pystr * asset_link)) | AUploaded (objects : list (pystr * library_row)) (l : list (pystr * asset_link)) | ADeletedLink | AError (code : pystr).
Inductive aresponse := AStatus (code : Z) (body : abody).
Definition aerror (status : Z) (code : pystr) : aresponse := AStatus status (AError code).

Definition list_session_assets (h : hosted) (user : Z) (sid : pystr) : res hexn (aresponse * hosted) :=
  session ← hlift (_session_for_assets h user sid);
  match session with
  | None => Ok (aerror 404 "session_not_found", h)
  | Some _ => Ok (AStatus 200 (ALinks (qs_list (fun l => bool_decide (al_session l = sid)) (h_links h))), h)
  end.

Definition attach_session_asset (h : hosted) (user : Z) (sid : pystr) (kind : owner_kind) (asset_id new_id : pystr) : res hexn (aresponse * hosted) :=
  session ← hlift (_session_for_assets h user sid);
  match session with
  | None => Ok (aerror 404 "session_not_found", h)
  | Some f =>
      match (o ← _resolve_linkable_asset h user sid f kind (strip asset_id);
             l ← new_link h user sid (se_workspace (sf_row f)) o
                   (if is_empty (owner_content_type o) then "application/octet-stream" else owner_content_type o);
             Ok (o, l)) with
      | Err (ValueError message) =>
          Ok (if bool_decide (message = "attachment_too_large") then aerror 400 "attachment_too_large" else aerror 403 "asset_not_accessible", h)
      | Err e => Err (HDelegation (Raised e))
      | Ok (o, l) =>
          p ← link_get_or_create new_id l o h;
          let '(id, l, h') := p in
          Ok (AStatus 201 (ALink id l), h')
      end
  end.

(** [others] is what happens between the first check and the transaction *)
Definition detach_session_asset (h : hosted) (others : hosted -> hosted) (user : Z) (sid : pystr) (grant_id : option pystr) (link_id : pystr) (now : Z)
  : res hexn (aresponse * hosted) :=
  session ← hlift (_session_for_assets h user sid);
  match session with
  | None => Ok (aerror 404 "session_not_found", h)
  | Some f =>
      let h := others h in
      membership ← hlift (locked_member h user (se_workspace (sf_row f)));
      match membership with
      | None => Ok (aerror 404 "session_not_found", h)
      | Some _ =>
          dlift (require_request_delegation (identity h) grant_id "attachments:write" None None (Some sid) [] true now);;
          match h_links h !! strip link_id with
          | Some l => if bool_decide (al_session l = sid) then Ok (AStatus 200 ADeletedLink, set_h_links (delete (strip link_id)) h)
                      else Ok (aerror 404 "asset_link_not_found", h)
          | None => Ok (aerror 404 "asset_link_not_found", h)
          end
      end
  end.

Section uploads.
Context {PL : Platform} (available_name : files_t -> pystr -> pystr).

(** The links of uploaded objects, in order; [ids n] is the primary key of the [n]-th link if it is new. *)
Fixpoint link_objects (h : hosted) (user : Z) (sid wid : pystr) (objects : list (pystr * library_row)) (ids : nat -> pystr) (n : nat)
    (acc : list (pystr * asset_link)) : res hexn (list (pystr * asset_link) * hosted) :=
  match objects with
  | [] => Ok (acc, h)
  | (id, r) :: objects =>
      l ← hlift (new_link h user sid wid (OwnLibrary id r) (lb_content_type r));
      p ← link_get_or_create (ids n) l (OwnLibrary id r) h;
      let '(lid, l, h) := p in
      link_objects h user sid wid objects ids (S n) (acc ++ [(lid, l)])
  end.

(** The stored files become objects of the library and links of the session. *)
Definition attach_uploads (h : hosted) (user : Z) (sid wid : pystr) (stored : list metadata) (ids link_ids asset_link_ids : nat -> pystr) (now : Z)
  : res hexn (list (pystr * library_row) * list (pystr * asset_link) * hosted) :=
  p ← catch (_create_uploaded_library_objects (h_store h) user stored None ids link_ids now) (fun e => Err (HLibrary e));
  q ← link_objects (set_h_store (fun _ => p.2) h) user sid wid p.1 asset_link_ids 0 [];
  Ok (p.1, q.1, q.2).

Definition session_upload_prepare (h : hosted) (user : Z) (sid : pystr) (uploads : list upload_file) (form_files form_fields : list pystr)
    (uuids : nat -> pystr) (now : Z) : res hexn (aresponse + pystr * list metadata) * hosted :=
  match h_sessions h !! sid with
  | Some f =>
      if negb ((se_owner (sf_row f) =? user) && bool_decide (se_status (sf_row f) = Active)) then (Ok (inl (aerror 404 "session_not_found")), h)
      else match member_of h user (se_workspace (sf_row f)) with
           | Err e => (Err (HDelegation (Raised e)), h)
           | Ok None => (Ok (inl (aerror 404 "session_not_found")), h)
           | Ok (Some _) =>
               match (_require_uploads uploads form_files form_fields [];;
                      require (forallb (fun u => zlen (uf_content u) <=? MAX_DIRECT_INPUT_BYTES) uploads) (LExn (ValueError "attachment_too_large"))) with
               | Err e => (Ok (inl (aerror 400 (error_text e))), h)
               | Ok _ =>
                   let '(stored, st) := _store_upload_batch available_name uploads (library_area user) uuids now (h_store h) in
                   let h := set_h_store (fun _ => st) h in
                   match stored with
                   | Ok stored => (Ok (inr (se_workspace (sf_row f), stored)), h)
                   | Err e => (if is_value_error e then Ok (inl (aerror 400 (error_text e))) else Err (HLibrary e), h)
                   end
               end
           end
  | None => (Ok (inl (aerror 404 "session_not_found")), h)
  end.
(** An exception rolls the tables back and deletes the stored files. *)
Definition session_upload_commit (h : hosted) (user : Z) (sid wid : pystr) (grant_id : option pystr) (stored : list metadata)
    (ids link_ids asset_link_ids : nat -> pystr) (now : Z) : res hexn aresponse * hosted :=
  let tx :=
    membership ← hlift (locked_member h user wid);
    require (bool_decide (is_Some membership)) (HDelegation (DelegationRejected "session_not_found" 404));;
    dlift (require_request_delegation (identity h) grant_id "attachments:write" None None (Some sid) [] true now);;
    require match h_sessions h !! sid with
            | Some f => (se_owner (sf_row f) =? user) && bool_decide (se_status (sf_row f) = Active)
            | None => false
            end (HDelegation (DelegationRejected "session_not_found" 404));;
    p ← attach_uploads h user sid wid stored ids link_ids asset_link_ids now;
    let '(objects, links, h') := p in
    Ok (AStatus 201 (AUploaded objects links), h') in
  match tx with
  | Ok (response, h') => (Ok response, h')
  | Err e =>
      let '(answer, st) := after_cleanup (fun e => HLibrary (LExn e)) stored (Err e) (h_store h) in
      (answer, set_h_store (fun _ => st) h)
  end.
Definition upload_session_library_objects (h : hosted) (others : hosted -> hosted) (user : Z) (sid : pystr) (grant_id : option pystr)
    (uploads : list upload_file) (form_files form_fields : list pystr) (uuids ids link_ids asset_link_ids : nat -> pystr) (now : Z)
  : res hexn aresponse * hosted :=
  match session_upload_prepare h user sid uploads form_files form_fields uuids now with
  | (Err e, h) => (Err e, h)
  | (Ok (inl response), h) => (Ok response, h)
  | (Ok (inr (wid, stored)), h) => session_upload_commit (others h) user sid wid grant_id stored ids link_ids asset_link_ids now
  end.
End uploads.

(** ** The inputs of a run *)

Definition link_le (x y : pystr * asset_link) : Prop := str_le x.1 y.1.
#[global] Instance link_le_dec : RelDecision link_le.
Proof. intros x y. unfold link_le. apply _. Defined.

Definition declared_input (id : pystr) (l : asset_link) : value :=
  VDict [("schema", VStr "runtime.declared_input.v1"); ("inputRef", VStr id); ("displayName", VStr (al_display_name l));
         ("contentType", VStr (al_content_type l));
         ("inputIdentity", VDict [("ownerKind", VStr (owner_kind_str (al_owner_kind l))); ("ownerId", VStr (al_owner_id l));
                                  ("generation", VInt (al_generation l)); ("sha256", VStr (al_sha256 l))]);
         ("sizeBytes", VInt (al_size l))].
(** sorted by [inputRef]; the check for an owner repeats a constraint of the table *)
Definition deferred_input_refs (h : hosted) (sid : pystr) : list (pystr * asset_link) :=
  merge_sort link_le (qs_list (fun l => bool_decide (al_session l = sid)) (h_links h)).

Inductive input_error := DeferredInputResolutionError (code : pystr) | DeferredInputBindingError (message : pystr) | InputRaised (e : hexn).

Definition _require_captured_identity (l : asset_link) (o : owner) : res input_error unit :=
  require (link_captures l o) (DeferredInputResolutionError "stale_generation").

Definition resolved_input (id : pystr) (l : asset_link) (virtual_path evidence_kind : pystr) : value :=
  VDict [("schema", VStr "runtime.resolved_input.v1"); ("inputRef", VStr id); ("objectRef", VStr (al_owner_id l));
         ("ownerKind", VStr (owner_kind_str (al_owner_kind l))); ("virtualPath", VStr virtual_path); ("displayName", VStr (al_display_name l));
         ("contentType", VStr (al_content_type l)); ("sizeBytes", VInt (al_size l)); ("sha256", VStr (al_sha256 l));
         ("sourceVersion", VStr (int_str (al_generation l))); ("evidenceKind", VStr evidence_kind);
         ("citationAllowed", VBool (bool_decide (al_owner_kind l <> KArtifact)))].

(** [user] and [sid] are the run's; the owner a link points to *)
Definition resolved_input_for_link (h : hosted) (user : Z) (sid id : pystr) (l : asset_link) (virtual_path : pystr) : res input_error (value * owner) :=
  let failed code := DeferredInputResolutionError code in
  o ← from_option_res (failed "asset_unavailable") (find_owner (h_store h) (al_owner_kind l) (al_owner_id l));
  match o with
  | OwnSource _ r =>
      s ← from_option_res (InputRaised (HDelegation (Raised DoesNotExist))) (h_sources h !! so_source r);
      require (negb (source_deleted s)) (failed "source_deleted");;
      require (negb (bool_decide (so_status r = ODeleted))) (failed "asset_removed");;
      require (bool_decide (so_status r = OReady)) (failed "access_revoked");;
      granted ← catch (source_object_is_granted (source_view h) user r) (fun e => Err (InputRaised (HDelegation (Raised e))));
      require granted (failed "access_revoked");;
      _require_captured_identity l o;;
      Ok (resolved_input id l virtual_path "workspaceSource", o)
  | OwnLibrary _ r =>
      require (negb (bool_decide (lb_status r = ODeleted))) (failed "asset_removed");;
      require ((lb_owner r =? user) && bool_decide (lb_status r = OReady)) (failed "access_revoked");;
      _require_captured_identity l o;;
      Ok (resolved_input id l virtual_path "userProvided", o)
  | OwnArtifact _ r =>
      require (negb (bool_decide (ar_status r = ADeleted))) (failed "asset_removed");;
      require (bool_decide (ar_session r = sid) && bool_decide (ar_status r = APublished)) (failed "access_revoked");;
      _require_captured_identity l o;;
      Ok (resolved_input id l virtual_path "generatedArtifact", o)
  end.

(** The run as the authorization binds it. *)
Definition bound_run (f : run_full) : ws_run :=
  WsRun (r_workspace (rf_life f)) (r_session (rf_life f)) (ri_user (rf_identity f)) (rf_membership f) (rf_model f) (r_status (rf_life f)).

Definition declared_pairs (payload : value) : list (pystr * pystr) :=
  map (fun item => (text_of (get "inputRef" item), text_of (get "displayName" item))) (asset_refs_of payload).
(** the declared input is still the linked one *)
Definition input_matches (l : asset_link) (declared : value) : bool :=
  let identity := get "inputIdentity" declared in
  is_str (al_display_name l) (get "displayName" declared) && is_str (al_content_type l) (get "contentType" declared)
  && is_str (owner_kind_str (al_owner_kind l)) (get "ownerKind" identity) && is_str (al_owner_id l) (get "ownerId" identity)
  && bool_decide (int_str (al_generation l) = int_str (int_of (get "generation" identity))) && is_str (al_sha256 l) (get "sha256" identity)
  && bool_decide (as_int (get "sizeBytes" declared) = Some (al_size l)).

(** What was verified: payload, digest, signature, signing key and expected digest. *)
Abbreviation proof := (value * pystr * pystr * pystr * pystr)%type.

Section current_input.
Context {PL : Platform} (signing_key : pystr).

Definition verify_authorization (au : authorization) (expected : pystr) : res input_error unit :=
  digest ← catch (authorization_digest (au_payload au)) (fun e => Err (InputRaised (HContract e)));
  require (bool_decide (digest = au_digest au) && bool_decide (digest = expected)) (DeferredInputBindingError "AgentRun authorization digest mismatch");;
  match _verify_authorization_digest_signature digest signing_key (au_signature au) with
  | Ok _ => Ok tt
  | Err (CValueError _ | CUnicodeEncodeError) => Err (DeferredInputBindingError "AgentRun authorization signature mismatch")
  | Err e => Err (InputRaised (HContract e))
  end.

(** [verified]: [None] without a cache, else what the cache holds; [same] is the equality of proofs *)
Definition cached_verify (same : proof -> proof -> bool) (au : authorization) (expected : pystr) (verified : option (option proof))
  : res input_error (option (option proof)) :=
  let candidate := (au_payload au, au_digest au, au_signature au, signing_key, expected) in
  match verified with
  | Some (Some p) => if same p candidate then Ok verified else verify_authorization au expected;; Ok (Some (Some candidate))
  | Some None => verify_authorization au expected;; Ok (Some (Some candidate))
  | None => verify_authorization au expected;; Ok None
  end.

(** the resolution after the authorization [au] was verified *)
Definition current_resolution (h : hosted) (run_id : pystr) (f : run_full) (au : authorization) (input_ref : pystr) : res input_error (value * pystr) :=
  let user := ri_user (rf_identity f) in let sid := r_session (rf_life f) in
  session ← from_option_res (InputRaised (HDelegation (Raised DoesNotExist))) (h_sessions h !! sid);
  require (agent_run_binding_matches (au_payload au) run_id (bound_run f) (se_agent (sf_row session)))
    (DeferredInputBindingError "AgentRun authorization binding mismatch");;
  let unavailable := DeferredInputResolutionError "asset_unavailable" in
  declared ← from_option_res unavailable (List.find (fun item => is_str input_ref (get "inputRef" item)) (asset_refs_of (au_payload au)));
  l ← from_option_res unavailable (h_links h !! input_ref);
  require (bool_decide (al_workspace l = r_workspace (rf_life f)) && bool_decide (al_session l = sid) && (al_attached_by l =? user)) unavailable;;
  paths ← catch (allocated_virtual_paths (declared_pairs (au_payload au))) (fun e => Err (InputRaised (HDelegation (Raised e))));
  path ← from_option_res unavailable (assoc_first input_ref paths);
  resolved ← resolved_input_for_link h user sid input_ref l path;
  require (input_matches l declared) (DeferredInputBindingError "resolved input identity changed after AgentRun authorization");;
  let key := o_storage_key resolved.2 in
  require (negb (is_empty key) && storage_exists key (h_store h)) unavailable;;
  Ok (resolved.1, key).

(** the membership and the authorization of a run *)
Definition current_authorization (h : hosted) (run_id : pystr) (f : run_full) : res input_error authorization :=
  require (agent_run_membership_is_current (identity h) (rf_membership f) (r_workspace (rf_life f)) (ri_user (rf_identity f)))
    (DeferredInputBindingError "AgentRun WorkspaceMembership is no longer current");;
  from_option_res (InputRaised (HDelegation (Raised DoesNotExist))) (h_authorizations h !! run_id).

(** The cache keeps a verification even when the resolution then fails. *)
Definition _current_input (same : proof -> proof -> bool) (h : hosted) (run_id : pystr) (f : run_full) (input_ref expected : pystr)
    (verified : option (option proof)) : res input_error (value * pystr) * option (option proof) :=
  match (au ← current_authorization h run_id f; cache ← cached_verify same au expected verified; Ok (au, cache)) with
  | Err e => (Err e, verified)
  | Ok (au, verified) => (current_resolution h run_id f au input_ref, verified)
  end.

Definition resolve_deferred_input (same : proof -> proof -> bool) (h : hosted) (run_id : pystr) (f : run_full) (input_ref expected : pystr) : res input_error value :=
  r ← (_current_input same h run_id f input_ref expected None).1; Ok r.1.
Definition resolved_input_storage (same : proof -> proof -> bool) (h : hosted) (run_id : pystr) (f : run_full) (input_ref expected : pystr) : res input_error (value * pystr) :=
  (_current_input same h run_id f input_ref expected None).1.
(** The calls of one resolver, which share a cache; each sees the state of its time. *)
Fixpoint input_storage_batch (same : proof -> proof -> bool) (run_id expected : pystr) (verified : option proof) (calls : list (hosted * run_full * pystr))
  : list (res input_error (value * pystr)) :=
  match calls with
  | [] => []
  | (h, f, input_ref) :: calls =>
      let '(r, cache) := _current_input same h run_id f input_ref expected (Some verified) in
      r :: input_storage_batch same run_id expected (default verified cache) calls
  end.
End current_input.
