(* ===== verification/Messages.v ===== *)
(** * Submitting a message

    [create_session_message] of [packages/api/app_core/http/workspaces.py] with everything it calls: the parsing
    of the request, [request_digest] of [hosted_operations.py], the admission of [execution_admission.py], the row
    of [AgentRun], and the authorization [agent_run_authorization_factory.py] and [runtime_contract.py] sign for
    the runtime.  A submission runs in three phases: preparation, which ends with the storing of the uploads; the
    transaction that accepts the run; and its scheduling.  Other requests may run between the phases. *)

From stdpp Require Import base tactics list gmap numbers sorting.
From S2P Require Import Prelude PyStr Table Utf8 Sha256 Platform Schema Access AgentIdentity Delegation Lifecycle PyValue Json Contract Snapshot WorkspaceCommit Assets Library Sources ResourceGc Plugins Hosted Sessions Inputs.

(** ** The request *)

(** [SessionMessageRequest]; the tail action holds the target and the expected tail message *)
Record message_request := MessageRequest {
  mr_operation : pystr; mr_text : pystr; mr_agent : option pystr; mr_project : option pystr; mr_model : pystr;
  mr_thinking : option pystr; mr_attachments : list pystr; mr_tail : option (pystr * pystr) }.
Definition MESSAGE_FIELDS : list pystr :=
  ["operationId"; "text"; "agentId"; "projectId"; "modelConfigRef"; "thinkingMode"; "attachmentRefs"; "tailAction"].
Definition FORM_FIELDS : list pystr := ["operationId"; "text"; "modelConfigRef"; "agentId"; "projectId"; "thinkingMode"].
Definition FORM_REQUIRED : list pystr := ["operationId"; "text"; "modelConfigRef"; "agentId"].

(** The body by content type: a JSON text ([None] when its bytes do not decode), a form, anything else. *)
Inductive message_body :=
| JsonBody (text : option pystr)
| FormBody (uploads : list upload_file) (form_files : list pystr) (post : query)
| OtherBody.

Section messages.
Context {PL : Platform}.

Definition field_ok (k : pystr) (required : bool) (t : value -> bool) (v : value) : bool := if has_key k v then t (get k v) else negb required.
Definition t_sized (n : Z) (v : value) : bool := t_str v && (1 <=? str_len (text_of v)) && (str_len (text_of v) <=? n).
Definition t_agent_id (v : value) : bool := t_str v && match validate_agent_id (text_of v) with Ok _ => true | Err _ => false end.
Definition RewriteLastUserTailRequest : value -> bool :=
  t_object [("type", t_literal ["rewriteLastUser"]); ("targetMessageId", t_sized 160); ("expectedTailMessageId", t_sized 160)].
Definition message_valid (v : value) : bool :=
  subset_keys MESSAGE_FIELDS v
  && field_ok "operationId" true (fun x => t_str x && operation_id_ok (text_of x)) v && field_ok "text" false t_str v
  && field_ok "agentId" false (t_null t_agent_id) v && field_ok "projectId" false (t_null t_str) v
  && field_ok "modelConfigRef" false t_str v && field_ok "thinkingMode" false (t_null t_str) v
  && field_ok "attachmentRefs" false (t_list t_str) v && field_ok "tailAction" false (t_null RewriteLastUserTailRequest) v.
(** an error whose location names [attachmentRefs] *)
Definition attachment_error (v : value) : bool :=
  negb (field_ok "attachmentRefs" false (t_list t_str) v) || has_key "attachmentRefs" (get "tailAction" v).
Definition message_of (v : value) : message_request :=
  let opt k := as_str (get k v) in
  MessageRequest (text_of (get "operationId" v)) (text_of (get "text" v)) (opt "agentId") (opt "projectId") (text_of (get "modelConfigRef" v))
    (opt "thinkingMode") (default [] (all_str (get "attachmentRefs" v)))
    (match get "tailAction" v with
     | VDict _ as t => Some (text_of (get "targetMessageId" t), text_of (get "expectedTailMessageId" t))
     | _ => None
     end).
Definition model_validate (v : value) : res pystr message_request :=
  if message_valid v then Ok (message_of v) else Err (if attachment_error v then "invalid_attachment_refs" else "request_invalid").

Definition form_value (post : query) : value :=
  let field k := match q_get k post with Some s => [(k, VStr s)] | None => [] end in
  VDict (concat (map field ["operationId"; "text"; "modelConfigRef"; "agentId"; "thinkingMode"; "projectId"])).
Definition form_fields_ok (post : query) : bool :=
  forallb (fun k => bool_decide (length (getlist k post) = 1%nat)) FORM_REQUIRED && fields_within FORM_FIELDS post
  && forallb (fun k => (length (getlist k post) <=? 1)%nat) ["projectId"; "thinkingMode"].

(** The request and its uploads, or the code of the error; an integer with too many digits raises. *)
Definition _parse_session_message_request (body : message_body) : res hexn (res pystr (message_request * list upload_file)) :=
  match body with
  | OtherBody => Ok (Err "message_content_type_unsupported")
  | JsonBody None => Ok (Err "invalid_json")
  | JsonBody (Some text) =>
      match json_loads text with
      | Ok v => Ok (p ← model_validate v; Ok (p, []))
      | Err JSONDecodeError => Ok (Err "invalid_json")
      | Err _ => Err (HDelegation (Raised (ValueError "")))
      end
  | FormBody uploads form_files post =>
      match _require_uploads uploads form_files (map fst post) FORM_FIELDS with
      | Err e => if is_value_error e then Ok (Err (error_text e)) else Err (HLibrary e)
      | Ok _ => if negb (form_fields_ok post) then Ok (Err "message_fields_invalid")
                else Ok (p ← model_validate (form_value post); Ok (p, uploads))
      end
  end.

(** ** The digest of the request *)

Definition upload_value (u : upload_file) : res exn value :=
  let display_name := nfc (uf_name u) in
  safe_filename display_name;;
  require (zlen (uf_content u) <=? MAX_DIRECT_INPUT_BYTES) (ValueError "attachment_too_large");;
  Ok (VDict [("displayName", VStr display_name);
             ("contentType", VStr (if is_empty (uf_content_type u) then "application/octet-stream" else uf_content_type u));
             ("sizeBytes", VInt (zlen (uf_content u))); ("sha256", VStr (sha256_hex (uf_content u)))]).
Fixpoint upload_values (uploads : list upload_file) : res exn (list value) :=
  match uploads with
  | [] => Ok []
  | u :: uploads => v ← upload_value u; vs ← upload_values uploads; Ok (v :: vs)
  end.
Definition opt_str (o : option pystr) : value := match o with Some s => VStr s | None => VNone end.
Definition tail_value (o : option (pystr * pystr)) : value :=
  match o with
  | Some (target, expected) => VDict [("type", VStr "rewriteLastUser"); ("targetMessageId", VStr target); ("expectedTailMessageId", VStr expected)]
  | None => VNone
  end.
(** the dump of the request without its operation id, with the session and the uploads *)
Definition message_value (p : message_request) (sid : pystr) (uploads : list value) : value :=
  VDict [("text", VStr (strip (mr_text p))); ("agentId", opt_str (mr_agent p)); ("projectId", opt_str (mr_project p));
         ("modelConfigRef", VStr (mr_model p)); ("thinkingMode", opt_str (mr_thinking p)); ("attachmentRefs", VList (map VStr (mr_attachments p)));
         ("tailAction", tail_value (mr_tail p)); ("sessionId", VStr sid); ("uploads", VList uploads)].
Definition digest_of (v : value) : res exn pystr :=
  encoded ← from_option_res UnicodeEncodeError (utf8_encode (json_dumps (sort_keys v)));
  Ok (sha256_hex encoded).
(** [request_digest(payload, session_id=..., uploads=...)] *)
Definition request_digest (p : message_request) (sid : pystr) (uploads : list upload_file) : res exn pystr :=
  values ← upload_values uploads;
  digest_of (message_value p sid values).
(** [request_digest(payload)] of a request that creates a session *)
Definition session_request_digest (agent_id : pystr) (project_id : option pystr) : res exn pystr :=
  digest_of (VDict [("agentId", VStr agent_id); ("projectId", opt_str project_id)]).

(** ** Admission *)

(** [status="queued", startedAt__isnull=True] *)
Definition waiting (f : run_full) : bool := bool_decide (r_status (rf_life f) = Queued) && bool_decide (r_started (rf_life f) = None).
Definition waiting_in (wid : pystr) (f : run_full) : bool := waiting f && bool_decide (r_workspace (rf_life f) = wid).
Definition count_runs (p : run_full -> bool) (h : hosted) : Z := zlen (qs_list p (h_runs h)).

Record limits := Limits { EXECUTION_TENANT_QUEUE_LIMIT : Z; EXECUTION_GLOBAL_QUEUE_LIMIT : Z }.
(** [locked]: the advisory lock was free *)
Definition queued_admission_error (lim : limits) (locked : bool) (wid : pystr) (h : hosted) : option (Z * pystr) :=
  if negb locked then Some (503, "execution_admission_busy")
  else if EXECUTION_TENANT_QUEUE_LIMIT lim <=? count_runs (waiting_in wid) h then Some (429, "workspace_execution_queue_full")
  else if EXECUTION_GLOBAL_QUEUE_LIMIT lim <=? count_runs waiting h then Some (503, "execution_queue_full")
  else None.

(** ** The run and its authorization *)

(** [AgentDefinitionVersion] rows are immutable, so one table holds them at all times. *)
Record version_row := VersionRow { ve_definition : pystr; ve_instructions : pystr; ve_activation : value }.
(** [ModelConfig] *)
Record model_row := ModelRow { mo_enabled : bool; mo_current : bool; mo_thinking : pystr; mo_modes : list pystr }.
(** the catalog and the enabled plugins a phase sees *)
Record plugin_state := PluginState { ps_root : plugin_root; ps_enabled : enablements }.

Inductive mexn :=
| AcceptedOperationReplay (r : receipt_row)
| AgentDefinitionUnavailable (code : pystr)
| AgentSessionCreationError (status : Z) (code : pystr)
| MPlugin (e : pexn)
| MHosted (e : hexn).
Definition mlift {A} (m : res hexn A) : res mexn A := catch m (fun e => Err (MHosted e)).
Definition elift {A} (m : res exn A) : res mexn A := mlift (hlift m).
Definition clift {A} (m : res cexn A) : res mexn A := catch m (fun e => Err (MHosted (HContract e))).
Definition xlift {A} (m : res dexn A) : res mexn A := mlift (dlift m).

Section acceptance.
Context (versions : gmap pystr version_row) (models : gmap pystr model_row) (lim : limits) (signing_key : pystr)
  (* the sandbox settings: memory, CPU, processes and temporary file system *)
  (sandbox : Z * Z * Z * Z) (available_name : files_t -> pystr -> pystr).

Definition published_version (ps : plugin_state) (h : hosted) (a : agent_row) (mid : pystr) (m : membership_row) : res mexn (option (pystr * version_row)) :=
  match published_version_for_agent (fun _ _ => true) (identity h) a mid m with
  | NoDefinition => Ok None
  | DefinitionUnavailable code => Err (AgentDefinitionUnavailable code)
  | Version v =>
      row ← from_option_res (MHosted (HDelegation (Raised DoesNotExist))) (versions !! v);
      match require_current_plugin_activation (ps_root ps) (ps_enabled ps) (a_workspace a) (ve_activation row) with
      | Ok _ => Ok (Some (v, row))
      | Err (PValueError _) => Err (AgentDefinitionUnavailable "agent_definition_capability_unavailable")
      | Err e => Err (MPlugin e)
      end
  end.

Definition session_agent (h : hosted) (f : session_full) : option agent_full := h_agents h !! se_agent (sf_row f).

(** [AgentRun.save] of a new row with the tail [f] carries; it fills in the instructions and the membership *)
Definition insert_run (id : pystr) (f : run_full) (grant : option delegation_row) (h : hosted) : res mexn (run_full * hosted) :=
  let bad message : mexn := MHosted (HDelegation (Raised (ValueError message))) in
  let ri := rf_identity f in let life := rf_life f in
  instructions ← elift (normalize_agent_instructions (rf_instructions f));
  session ← from_option_res (MHosted (HDelegation (Raised DoesNotExist))) (h_sessions h !! r_session life);
  agent ← from_option_res (MHosted (HDelegation (Raised DoesNotExist))) (session_agent h session);
  let definition := a_definition (af_row agent) in
  require match grant with
          | Some g => bool_decide (Some (dl_app g) = ri_acting_app ri) && (dl_user g =? ri_user ri) && bool_decide (dl_workspace g = r_workspace life)
                      && bool_decide (Some (dl_definition g) = definition)
          | None => true
          end (bad "AgentRun application origin binding mismatch");;
  match rf_version f with
  | Some v =>
      row ← from_option_res (MHosted (HDelegation (Raised DoesNotExist))) (versions !! v);
      require (bool_decide (Some (ve_definition row) = definition) && bool_decide (instructions = ve_instructions row))
        (bad "AgentRun definition version binding mismatch")
  | None => require (bool_decide (definition = None)) (bad "Managed AgentRun requires a published definition version")
  end;;
  (if is_empty (rf_thinking f) then Ok tt else clift (validate_thinking_mode (VStr (rf_thinking f))));;
  require match rf_rewrite f with Some (target, expected) => negb (is_empty target) && negb (is_empty expected) | None => true end
    (bad "rewrite AgentRun requires target and expected tail message ids");;
  require (bool_decide (r_workspace life = se_workspace (sf_row session)) && (ri_user ri =? se_owner (sf_row session)))
    (bad "AgentRun workspace/session/user binding mismatch");;
  membership ← from_option_res (bad "AgentRun requires active WorkspaceMembership")
    (qs_first (fun m => is_membership (r_workspace life) (ri_user ri) WORKSPACE_ROLES m && workspace_is_active (h_db h) (m_workspace m)) (memberships (h_db h)));
  require (negb (is_empty (strip (ri_turn ri))) && negb (bool_decide (ri_turn ri = id))) (bad "AgentRun initial Turn identity is invalid");;
  require (bool_decide (h_runs h !! id = None) && negb (qs_exists (fun f' => bool_decide (ri_turn (rf_identity f') = ri_turn ri)) (h_runs h)))
    (MHosted (HDelegation (Raised IntegrityError)));;
  let f := RunFull life ri membership.1 (rf_model f) (rf_thinking f) (rf_prompt f) instructions (rf_version f) (rf_rewrite f) in
  Ok (f, set_h_runs <[id := f]> h).

Definition session_workspace_for_session (c : candidate) : value :=
  VDict [("generation", VInt (c_generation c)); ("snapshotSha256", VStr (c_sha256 c)); ("snapshotSizeBytes", VInt (c_size c));
         ("expandedSizeBytes", VInt (c_expanded c)); ("fileCount", VInt (c_file_count c))].
Definition none_if_empty (s : pystr) : value := if is_empty s then VNone else VStr s.

Definition build_agent_run_authorization_payload (ps : plugin_state) (h : hosted) (id : pystr) (f : run_full) (session : session_full)
    (authorization_id : pystr) (message_asset_refs : list pystr) (image_digest : pystr) : res mexn value :=
  let refs := deferred_input_refs h (r_session (rf_life f)) in
  let normalized := merge_sort str_le (remove_dups message_asset_refs) in
  require (forallb (fun r => bool_decide (r ∈ map fst refs)) normalized)
    (MHosted (HContract (CValueError "messageAssetRefs must reference authorized session assets")));;
  activation ← match rf_version f with
               | Some v => row ← from_option_res (MHosted (HDelegation (Raised DoesNotExist))) (versions !! v); Ok (ve_activation row)
               | None => catch (plugin_activation_for_workspace (ps_root ps) (ps_enabled ps) (r_workspace (rf_life f))) (fun e => Err (MPlugin e))
               end;
  let '(memory, cpu, pids, tmpfs) := sandbox in
  let payload := VDict [
    ("schema", VStr AGENT_RUN_AUTHORIZATION_SCHEMA); ("id", VStr authorization_id); ("organizationId", VStr "default_org");
    ("workspaceId", VStr (r_workspace (rf_life f))); ("userId", VStr (int_str (ri_user (rf_identity f)))); ("agentId", VStr (se_agent (sf_row session)));
    ("sessionId", VStr (r_session (rf_life f))); ("agentRunId", VStr id); ("sessionWorkspace", session_workspace_for_session (sf_workspace session));
    ("modelConfigRef", VStr (rf_model f)); ("thinkingMode", none_if_empty (rf_thinking f)); ("artifactScopeRef", VStr ("artifact_scope_" +:+ id));
    ("assetRefs", VList (map (fun kl => declared_input kl.1 kl.2) refs)); ("messageAssetRefs", VList (map VStr normalized));
    ("imageCapability", VStr "workspace_general_v1"); ("imageDigest", VStr image_digest); ("pluginActivation", activation);
    ("resources", VDict [("memoryBytes", VInt memory); ("cpuMilli", VInt cpu); ("pidsLimit", VInt pids); ("dataTmpfsBytes", VInt tmpfs)])] in
  clift (validate_agent_run_authorization_payload payload);;
  Ok payload.

(** the comparison of [AgentRunAuthorization.save] *)
Definition authorization_bound (id : pystr) (f : run_full) (session : session_full) (authorization_id : pystr) (payload : value) : bool :=
  is_str authorization_id (get "id" payload) && is_str id (get "agentRunId" payload) && is_str (r_workspace (rf_life f)) (get "workspaceId" payload)
  && is_str (int_str (ri_user (rf_identity f))) (get "userId" payload) && is_str (se_agent (sf_row session)) (get "agentId" payload)
  && is_str (r_session (rf_life f)) (get "sessionId" payload) && is_str (rf_model f) (get "modelConfigRef" payload)
  && value_eqb (get "thinkingMode" payload) (none_if_empty (rf_thinking f))
  && same_value (get "sessionWorkspace" payload) (session_workspace_for_session (sf_workspace session)).
Definition save_authorization (id : pystr) (f : run_full) (session : session_full) (authorization_id : pystr) (au : authorization) (h : hosted) : res mexn hosted :=
  clift (validate_agent_run_authorization_payload (au_payload au));;
  digest ← clift (authorization_digest (au_payload au));
  require (bool_decide (digest = au_digest au)) (MHosted (HContract (CValueError "AgentRunAuthorization digest mismatch")));;
  clift (verify_agent_run_authorization_signature (au_payload au) signing_key (au_signature au));;
  require (authorization_bound id f session authorization_id (au_payload au)) (MHosted (HContract (CValueError "AgentRunAuthorization binding mismatch")));;
  require (bool_decide (h_authorizations h !! id = None)
           && negb (qs_exists (fun au' => is_str authorization_id (get "id" (au_payload au'))) (h_authorizations h))) (MHosted (HDelegation (Raised IntegrityError)));;
  Ok (set_h_authorizations <[id := au]> h).

Definition create_agent_run_authorization (ps : plugin_state) (h : hosted) (id : pystr) (f : run_full) (session : session_full)
    (authorization_id : pystr) (message_asset_refs : list pystr) (image_digest : pystr) : res mexn hosted :=
  require (agent_run_membership_is_current (identity h) (rf_membership f) (r_workspace (rf_life f)) (ri_user (rf_identity f)))
    (MHosted (HContract (CValueError "AgentRun WorkspaceMembership is no longer current")));;
  payload ← build_agent_run_authorization_payload ps h id f session authorization_id message_asset_refs image_digest;
  digest ← clift (authorization_digest payload);
  signature ← clift (authorization_signature payload signing_key);
  save_authorization id f session authorization_id (Authorization payload digest signature) h.

(** ** The endpoint *)

Inductive message_response := Plain (r : hresponse) | RetryAfter (seconds status : Z) (code : pystr).
Definition merror (status : Z) (code : pystr) : message_response := Plain (herror status code).

Definition is_new (sid : pystr) : bool := bool_decide (sid = "new").
Definition extra_scopes (sid : pystr) (uploads : list upload_file) : list pystr :=
  (if is_new sid then ["sessions:create"] else []) ++ (match uploads with [] => [] | _ => ["attachments:write"] end).

(** What both transactions check before anything else: the grant of the request, a receipt of an earlier
    acceptance, and that the grant covers agent and session. *)
Definition request_authority (h : hosted) (user : Z) (wid sid : pystr) (grant_id : option pystr) (p : message_request) (uploads : list upload_file)
    (digest : pystr) (now : Z) : res dexn (option receipt_row * option delegation_row) :=
  grant ← require_request_delegation (identity h) grant_id "messages:submit" (Some wid) (mr_agent p) (Some sid) (extra_scopes sid uploads) false now;
  receipt ← replay_operation (identity h) (operation_resources h) user wid "submitMessage" (mr_operation p) (Some digest) grant;
  match receipt with
  | Some r => Ok (Some r, grant)
  | None =>
      match grant with
      | Some g =>
          match mr_agent p with Some a => require_delegated_agent (identity h) g a true;; Ok tt | None => Ok tt end;;
          (if is_new sid then Ok tt else require_delegated_session (identity h) g sid true;; Ok tt)
      | None => Ok tt
      end;;
      Ok (None, grant)
  end.

(** What the preparation found out. *)
Record prepared := Prepared {
  pp_request : message_request; pp_prompt : pystr; pp_uploads : list upload_file; pp_digest : pystr; pp_thinking : pystr;
  pp_image_digest : pystr; pp_stored : list metadata }.
(** an early answer, or a value *)
Abbreviation or_answer A := (message_response + A)%type.

(** text, attachments, digest, and the first check of authority *)
Definition message_authority (h : hosted) (user : Z) (wid sid : pystr) (grant_id : option pystr) (p : message_request) (uploads : list upload_file) (now : Z)
  : res mexn (or_answer (pystr * pystr * membership_row)) :=
  if is_empty (strip (mr_text p)) then Ok (inl (merror 400 "empty_message"))
  else if negb (forallb (fun r => negb (is_empty (strip r))) (mr_attachments p) && strictly_sorted (mr_attachments p))
  then Ok (inl (merror 400 "invalid_attachment_refs"))
  else
    match (digest ← Delegation.lift (request_digest p sid uploads);
           membership ← Delegation.lift (locked_member h user wid);
           match membership with
           | None => Ok (inl (merror 404 "session_not_found"))
           | Some (mid, m) =>
               authority ← request_authority h user wid sid grant_id p uploads digest now;
               Ok match authority.1 with
                  | Some receipt => inl (Plain (HStatus 202 (HReceipt receipt)))
                  | None => inr (digest, mid, m)
                  end
           end) with
    | Ok r => Ok r
    | Err (Raised (ValueError message)) => Ok (inl (merror 400 message))
    | Err (Raised UnicodeEncodeError) => Ok (inl (merror 400 ""))
    | Err (HostedOperationError status code) => Ok (inl (merror status code))
    | Err e => Err (MHosted (HDelegation e))
    end.

Definition thinking_mode (p : message_request) (model : model_row) : option pystr :=
  match mr_thinking p with
  | None => Some (mo_thinking model)
  | Some t => match validate_thinking_mode (VStr t) with
              | Ok _ => if bool_decide (t ∈ mo_modes model) then Some t else None
              | Err _ => None
              end
  end.
(** the rules on what a message to a new or to an existing session may carry *)
Definition message_shape_error (sid : pystr) (p : message_request) (uploads : list upload_file) : option (Z * pystr) :=
  if negb (is_new sid) && negb (match uploads with [] => true | _ => false end) then Some (400, "message_upload_requires_new_session")
  else if negb (is_new sid) && bool_decide (is_Some (mr_project p)) then Some (400, "session_project_requires_new_session")
  else if is_new sid && negb (bool_decide (mr_attachments p = [])) then Some (403, "attachment_not_accessible")
  else if is_new sid && bool_decide (is_Some (mr_tail p)) then Some (400, "rewrite_requires_existing_session")
  else if is_new sid && bool_decide (mr_agent p = None) then Some (400, "agent_id_required")
  else None.
(** the agent of a new session: [inl] is the error *)
Definition new_session_agent (h : hosted) (user : Z) (wid : pystr) (p : message_request) : (Z * pystr) + (pystr * agent_full) :=
  let id := default "" (mr_agent p) in
  match request_agent h user wid id with
  | None => inl (404, "agent_not_found")
  | Some a =>
      if bool_decide (a_status (af_row a) = Deleted) then inl (410, "agent_deleted")
      else if match mr_project p with Some q => negb (project_matches h user wid id q) | None => false end then inl (404, "session_project_not_found")
      else inr (id, a)
  end.
(** the existing session of a message with its agent *)
Definition existing_session (h : hosted) (user : Z) (wid sid : pystr) : (Z * pystr) + (session_full * agent_full) :=
  match h_sessions h !! sid with
  | Some f =>
      if bool_decide (se_workspace (sf_row f) = wid) && (se_owner (sf_row f) =? user) && bool_decide (se_status (sf_row f) = Active) then
        match session_agent h f with
        | Some a => if bool_decide (a_status (af_row a) = Deleted) then inl (410, "agent_deleted") else inr (f, a)
        | None => inl (404, "session_not_found")
        end
      else inl (404, "session_not_found")
  | None => inl (404, "session_not_found")
  end.

(** model, shape, and agent or session: the thinking mode and the agent *)
Definition message_target (h : hosted) (user : Z) (wid sid : pystr) (p : message_request) (uploads : list upload_file) : (Z * pystr) + (pystr * agent_full) :=
  match models !! mr_model p with
  | Some model =>
      if negb (mo_enabled model && mo_current model) then inl (400, "model_not_found")
      else match thinking_mode p model with
           | None => inl (400, "model_thinking_mode_unsupported")
           | Some thinking =>
               match message_shape_error sid p uploads with
               | Some e => inl e
               | None =>
                   if is_new sid then match new_session_agent h user wid p with inl e => inl e | inr (_, a) => inr (thinking, a) end
                   else match existing_session h user wid sid with inl e => inl e | inr (_, a) => inr (thinking, a) end
               end
           end
  | None => inl (400, "model_not_found")
  end.

(** everything before the uploads are stored; [profile] is the image digest of the runtime's execution profile *)
Definition message_checks (ps : plugin_state) (h : hosted) (user : Z) (wid sid : pystr) (grant_id : option pystr) (body : message_body)
    (profile : option pystr) (now : Z) : res mexn (or_answer (message_request * list upload_file * pystr * pystr * pystr)) :=
  member ← elift (member_of h user wid);
  if bool_decide (member = None) then Ok (inl (merror 404 "session_not_found"))
  else
    parsed ← mlift (_parse_session_message_request body);
    match parsed with
    | Err code => Ok (inl (merror 400 code))
    | Ok (p, uploads) =>
        authority ← message_authority h user wid sid grant_id p uploads now;
        match authority with
        | inl answer => Ok (inl answer)
        | inr (digest, mid, m) =>
            match message_target h user wid sid p uploads with
            | inl (status, code) => Ok (inl (merror status code))
            | inr (thinking, a) =>
                match published_version ps h (af_row a) mid m with
                | Err (AgentDefinitionUnavailable code) => Ok (inl (merror 403 code))
                | Err e => Err e
                | Ok _ =>
                    match profile with
                    | None => Ok (inl (merror 503 "runtime_execution_profile_unavailable"))
                    | Some image => Ok (inr (p, uploads, digest, thinking, image))
                    end
                end
            end
        end
    end.

Definition message_prepare (ps : plugin_state) (h : hosted) (user : Z) (wid sid : pystr) (grant_id : option pystr) (body : message_body)
    (profile : option pystr) (uuids : nat -> pystr) (now : Z) : res mexn (or_answer prepared) * hosted :=
  match message_checks ps h user wid sid grant_id body profile now with
  | Err e => (Err e, h)
  | Ok (inl answer) => (Ok (inl answer), h)
  | Ok (inr (p, uploads, digest, thinking, image)) =>
      let ready stored := Ok (inr (Prepared p (strip (mr_text p)) uploads digest thinking image stored)) in
      match uploads with
      | [] => (ready [], h)
      | _ =>
          let '(stored, st) := _store_upload_batch available_name uploads (library_area user) uuids now (h_store h) in
          let h := set_h_store (fun _ => st) h in
          match stored with
          | Ok stored => (ready stored, h)
          | Err e => (if is_value_error e then Ok (inl (merror 400 (error_text e))) else Err (MHosted (HLibrary e)), h)
          end
      end
  end.

(** the ids drawn in the transaction *)
Record fresh_ids := FreshIds {
  fi_sessions : list pystr; fi_objects : nat -> pystr; fi_links : nat -> pystr; fi_asset_links : nat -> pystr;
  fi_run : pystr; fi_turn : pystr; fi_authorization : pystr; fi_receipt : Z }.

(** a new session with its uploads, or the checked existing one; a [return] inside the transaction commits it *)
Definition message_session (h : hosted) (user : Z) (wid sid : pystr) (pp : prepared) (ids : fresh_ids) (now : Z)
  : res mexn (or_answer (pystr * session_full * agent_full * list pystr) * hosted) :=
  let p := pp_request pp in
  if is_new sid then
    match new_session_agent h user wid p with
    | inl (status, code) => Err (AgentSessionCreationError status code)
    | inr (agent_id, a) =>
        let f := new_session wid user agent_id (mr_project p) now in
        created ← elift (session_create (fi_sessions ids) f h);
        q ← mlift (attach_uploads created.2 user created.1 wid (pp_stored pp) (fi_objects ids) (fi_links ids) (fi_asset_links ids) now);
        let '(_, links, h) := q in
        Ok (inr (created.1, f, a, merge_sort str_le (map fst links)), h)
    end
  else
    match existing_session h user wid sid with
    | inl (status, code) => Ok (inl (merror status code), h)
    | inr (f, a) =>
        if match mr_agent p with Some i => negb (bool_decide (i = se_agent (sf_row f))) | None => false end then Ok (inl (merror 409 "session_agent_mismatch"), h)
        else if session_has_active_run h sid then Ok (inl (merror 409 "session_has_active_agent_run"), h)
        else if negb (forallb (fun r => match h_links h !! r with Some l => bool_decide (al_session l = sid) | None => false end) (mr_attachments p))
        then Ok (inl (merror 403 "attachment_not_accessible"), h)
        else Ok (inr (sid, f, a, mr_attachments p), h)
    end.

Definition titled (prompt : pystr) (now : Z) (f : session_full) : session_full :=
  SessionFull (sf_row f) (sf_project f) (if bool_decide (sf_title f = "New chat") then PyStr (take 80 (code_points prompt)) else sf_title f)
    (sf_pinned f) (sf_deleted_at f) (sf_deleted_by f) (sf_purged_at f) (sf_workspace f) (sf_created_at f) now.
Definition new_run (user : Z) (wid sid : pystr) (grant : option (pystr * delegation_row)) (pp : prepared) (instructions : pystr) (version : option pystr)
    (turn : pystr) (now : Z) : run_full :=
  RunFull (Run wid sid Queued "agent_run_created" None None None now)
    (RunIdentity user wid sid turn ((fun g => dl_app g.2) <$> grant) (fst <$> grant))
    "" (mr_model (pp_request pp)) (pp_thinking pp) (pp_prompt pp) instructions version (mr_tail (pp_request pp)).

(** the run, its authorization, the session's title and the receipt *)
Definition accept_run (ps : plugin_state) (h : hosted) (user : Z) (wid mid : pystr) (m : membership_row) (grant : option (pystr * delegation_row))
    (pp : prepared) (target : pystr * session_full * agent_full * list pystr) (ids : fresh_ids) (now : Z) : res mexn (receipt_row * hosted) :=
  let '(sid, session, a, attachments) := target in
  version ← published_version ps h (af_row a) mid m;
  let instructions := match version with Some (_, row) => ve_instructions row | None => a_instructions (af_row a) end in
  p ← insert_run (fi_run ids) (new_run user wid sid grant pp instructions (fst <$> version) (fi_turn ids) now) (snd <$> grant) h;
  let '(f, h) := p in
  h ← create_agent_run_authorization ps h (fi_run ids) f session (fi_authorization ids) attachments (pp_image_digest pp);
  h ← elift (save_session sid (titled (pp_prompt pp) now session) h);
  accepted ← xlift (accept_operation (operation_resources h) (fi_receipt ids) user wid "submitMessage" (mr_operation (pp_request pp)) (pp_digest pp) sid
                      (Some (fi_run ids, rf_identity f)) grant);
  Ok (accepted.1, set_h_receipts (fun _ => res_receipts accepted.2) h).

(** The acceptance transaction; [locked] tells whether the admission lock was free. *)
Definition message_transaction (ps : plugin_state) (h : hosted) (user : Z) (wid sid : pystr) (grant_id : option pystr) (pp : prepared) (ids : fresh_ids)
    (locked : bool) (now : Z) : res mexn (or_answer receipt_row * hosted) :=
  membership ← elift (locked_member h user wid);
  match membership with
  | None => Err (AgentSessionCreationError 404 "session_not_found")
  | Some (mid, m) =>
      authority ← xlift (request_authority h user wid sid grant_id (pp_request pp) (pp_uploads pp) (pp_digest pp) now);
      match authority with
      | (Some receipt, _) => Err (AcceptedOperationReplay receipt)
      | (None, grant) =>
          match queued_admission_error lim locked wid h with
          | Some (status, code) => Err (AgentSessionCreationError status code)
          | None =>
              s ← message_session h user wid sid pp ids now;
              match s with
              | (inl answer, h) => Ok (inl answer, h)
              | (inr target, h) =>
                  let grant := match grant_id, grant with Some i, Some g => Some (i, g) | _, _ => None end in
                  accepted ← accept_run ps h user wid mid m grant pp target ids now;
                  Ok (inr accepted.1, accepted.2)
              end
          end
      end
  end.

(** what the request answers to an exception of its transaction *)
Definition refused_answer (e : mexn) : res mexn (or_answer receipt_row) :=
  match e with
  | AcceptedOperationReplay receipt => Ok (inl (Plain (HStatus 202 (HReceipt receipt))))
  | AgentDefinitionUnavailable code => Ok (inl (merror 403 code))
  | AgentSessionCreationError status code | MHosted (HDelegation (HostedOperationError status code)) =>
      Ok (inl (if (status =? 429) || (status =? 503) then RetryAfter 5 status code else merror status code))
  | e => Err e
  end.
(** An exception rolls the tables back and deletes what was stored; a failing deletion is raised instead. *)
Definition message_commit (ps : plugin_state) (h : hosted) (user : Z) (wid sid : pystr) (grant_id : option pystr) (pp : prepared) (ids : fresh_ids)
    (locked : bool) (now : Z) : res mexn (or_answer receipt_row) * hosted :=
  match message_transaction ps h user wid sid grant_id pp ids locked now with
  | Ok (r, h') => (Ok r, h')
  | Err e =>
      let '(answer, st) := after_cleanup (fun e => MHosted (HLibrary (LExn e))) (pp_stored pp) (refused_answer e) (h_store h) in
      (answer, set_h_store (fun _ => st) h)
  end.

(** [scheduled]: [schedule_agent_run_lifecycle] did not raise *)
Definition message_schedule (h : hosted) (receipt : receipt_row) (scheduled : bool) : message_response * hosted :=
  (Plain (HStatus 202 (HReceipt receipt)),
   if scheduled then h
   else mark_reason (default "" (rc_run receipt)) "agent_run_lifecycle_schedule_pending" (fun f => bool_decide (r_status (rf_life f) = Queued)) h).

Definition create_session_message (ps ps' : plugin_state) (h : hosted) (others others' : hosted -> hosted) (user : Z) (wid sid : pystr)
    (grant_id : option pystr) (body : message_body) (profile : option pystr) (uuids : nat -> pystr) (ids : fresh_ids) (locked scheduled : bool) (now now' : Z)
  : res mexn message_response * hosted :=
  match message_prepare ps h user wid sid grant_id body profile uuids now with
  | (Err e, h) => (Err e, h)
  | (Ok (inl answer), h) => (Ok answer, h)
  | (Ok (inr pp), h) =>
      match message_commit ps' (others h) user wid sid grant_id pp ids locked now' with
      | (Err e, h) => (Err e, h)
      | (Ok (inl answer), h) => (Ok answer, h)
      | (Ok (inr receipt), h) =>
          let '(answer, h) := message_schedule (others' h) receipt scheduled in
          (Ok answer, h)
      end
  end.
End acceptance.
End messages.
