(* ===== verification/HostedInv.v ===== *)
(** * Runs, sessions and receipts stay consistent

    Every transaction of the endpoints of [http/agents.py] and [http/workspaces.py], the lifecycle code and the
    runtime service take the tables from one state to the next, in any order and interleaving.  The invariant:
    a session has at most one active run, an active run belongs to a session of an active agent, the queue stays
    within its limits, and receipts are unique and keep pointing at what was accepted. *)

From stdpp Require Import base tactics list gmap numbers sorting relations.
From S2P Require Import Prelude PyStr Table Utf8 Sha256 Platform Schema Access AgentIdentity Delegation Lifecycle LifecycleProps PyValue Json Contract Snapshot WorkspaceCommit Assets Library Sources ResourceGc Plugins Hosted Sessions Inputs Messages.

(** Lifting an exception keeps the results. *)
Lemma catch_lift_Ok {E F A} (m : res E A) (g : E -> F) a : catch m (fun e => Err (g e)) = Ok a <-> m = Ok a.
Proof. unfold catch. destruct m; naive_solver. Qed.
Lemma hlift_Ok {A} (m : res exn A) a : hlift m = Ok a <-> m = Ok a.
Proof. apply (catch_lift_Ok m (fun e => HDelegation (Raised e))). Qed.
Lemma dlift_Ok {A} (m : res dexn A) a : dlift m = Ok a <-> m = Ok a.
Proof. apply (catch_lift_Ok m HDelegation). Qed.
Lemma llift_Ok {A} (m : res Lifecycle.lexn A) a : llift m = Ok a <-> m = Ok a.
Proof. apply (catch_lift_Ok m HLife). Qed.
Lemma mlift_Ok {A} (m : res hexn A) a : mlift m = Ok a <-> m = Ok a.
Proof. apply (catch_lift_Ok m MHosted). Qed.
Lemma clift_Ok {A} (m : res cexn A) a : clift m = Ok a <-> m = Ok a.
Proof. apply (catch_lift_Ok m (fun e => MHosted (HContract e))). Qed.
Lemma elift_Ok {A} (m : res exn A) a : elift m = Ok a <-> m = Ok a.
Proof. unfold elift. by rewrite mlift_Ok, hlift_Ok. Qed.
Lemma xlift_Ok {A} (m : res dexn A) a : xlift m = Ok a <-> m = Ok a.
Proof. unfold xlift. by rewrite mlift_Ok, dlift_Ok. Qed.
Ltac unlift := repeat match goal with
  | H : hlift _ = Ok _ |- _ => apply hlift_Ok in H
  | H : dlift _ = Ok _ |- _ => apply dlift_Ok in H
  | H : llift _ = Ok _ |- _ => apply llift_Ok in H
  | H : mlift _ = Ok _ |- _ => apply mlift_Ok in H
  | H : clift _ = Ok _ |- _ => apply clift_Ok in H
  | H : elift _ = Ok _ |- _ => apply elift_Ok in H
  | H : xlift _ = Ok _ |- _ => apply xlift_Ok in H
  end.

(** ** The invariant *)

(** an active run belongs to a session of an active agent *)
Definition housed (h : hosted) (f : run_full) : Prop :=
  exists s a, h_sessions h !! r_session (rf_life f) = Some s /\ h_agents h !! se_agent (sf_row s) = Some a /\ a_status (af_row a) = Active.
(** the command of a receipt left its session and run behind *)
Definition backed (h : hosted) (r : receipt_row) : Prop :=
  is_Some (h_sessions h !! rc_session r) /\
  forall run_id, rc_run r = Some run_id -> exists f, h_runs h !! run_id = Some f /\ r_session (rf_life f) = rc_session r /\
    Some (ri_turn (rf_identity f)) = rc_turn r /\ ri_user (rf_identity f) = rc_user r /\ r_workspace (rf_life f) = rc_workspace r.
Definition same_scope (r1 r2 : receipt_row) : Prop :=
  rc_user r1 = rc_user r2 /\ rc_workspace r1 = rc_workspace r2 /\ rc_command r1 = rc_command r2 /\ rc_operation r1 = rc_operation r2.

Record hosted_inv (lim : limits) (h : hosted) : Prop := HostedInv {
  hi_one_active : forall k1 f1 k2 f2, h_runs h !! k1 = Some f1 -> h_runs h !! k2 = Some f2 -> run_active f1 = true -> run_active f2 = true ->
    r_session (rf_life f1) = r_session (rf_life f2) -> k1 = k2;
  hi_housed : forall k f, h_runs h !! k = Some f -> run_active f = true -> housed h f;
  hi_identity : forall k f, h_runs h !! k = Some f ->
    ri_workspace (rf_identity f) = r_workspace (rf_life f) /\ ri_session (rf_identity f) = r_session (rf_life f) /\
    is_Some (h_sessions h !! r_session (rf_life f));
  hi_queued : forall k f, h_runs h !! k = Some f -> r_status (rf_life f) = Queued -> r_started (rf_life f) = None;
  hi_tenant : forall wid, count_runs (waiting_in wid) h <= EXECUTION_TENANT_QUEUE_LIMIT lim;
  hi_global : count_runs waiting h <= EXECUTION_GLOBAL_QUEUE_LIMIT lim;
  hi_events : seqs_unique (life h);
  hi_receipts : conflict_free same_scope (h_receipts h);
  hi_backed : forall k r, h_receipts h !! k = Some r -> backed h r }.

(** ** Steps that only calm things down *)

Record calmer (r r' : run_row) : Prop := Calmer {
  cm_workspace : r_workspace r' = r_workspace r; cm_session : r_session r' = r_session r;
  cm_active : is_terminal (r_status r') = false -> is_terminal (r_status r) = false;
  cm_queued : r_status r' = Queued -> r_status r = Queued /\ r_started r' = r_started r }.
#[global] Instance calmer_refl : Reflexive calmer.
Proof. intros r. by constructor. Qed.
#[global] Instance calmer_trans : Transitive calmer.
Proof.
  intros r1 r2 r3 [W1 S1 A1 Q1] [W2 S2 A2 Q2]. constructor; [congruence..|auto|].
  intros Hq. destruct (Q2 Hq) as [Hq' ->]. by apply Q1.
Qed.

Lemma allowed_calmer st id r r' : allowed st id r r' -> calmer r r'.
Proof.
  intros (Hw & Hs & _ & Ha & Hq). constructor; [done..| |done]. intros Ht.
  destruct Ha as [E|[Hc|[? _]]]; [by rewrite <- E| |done]. apply committed_terminal in Hc. congruence.
Qed.

Definition run_calmer (f f' : run_full) : Prop := rf_identity f' = rf_identity f /\ calmer (rf_life f) (rf_life f').
(** no run is added, none becomes active, and no session or active agent goes away *)
Record calm (h h' : hosted) : Prop := Calm {
  ca_runs : forall id, option_Forall2 run_calmer (h_runs h !! id) (h_runs h' !! id);
  ca_sessions : forall sid s, h_sessions h !! sid = Some s -> exists s', h_sessions h' !! sid = Some s' /\ se_agent (sf_row s') = se_agent (sf_row s);
  ca_agents : forall id a, h_agents h !! id = Some a -> a_status (af_row a) = Active -> exists a', h_agents h' !! id = Some a' /\ a_status (af_row a') = Active;
  ca_events : seqs_unique (life h) -> seqs_unique (life h');
  ca_receipts : h_receipts h' = h_receipts h }.

#[global] Instance calm_refl : Reflexive calm.
Proof. intros h. constructor; eauto. intros id. destruct (h_runs h !! id); constructor. by split. Qed.
#[global] Instance calm_trans : Transitive calm.
Proof.
  intros h1 h2 h3 [R1 S1 A1 E1 C1] [R2 S2 A2 E2 C2]. constructor; [| | |auto|congruence].
  - intros id. specialize (R1 id). specialize (R2 id). inversion R1 as [f1 f2 [I1 L1] Ha Hb|Ha Hb].
    + rewrite <- Hb in R2. inversion R2 as [? f3 [I2 L2] Hc Hd|]. constructor. split; [congruence|by etrans].
    + rewrite <- Hb in R2. inversion R2. constructor.
  - intros sid s Hs. destruct (S1 _ _ Hs) as (s2 & Hs2 & ?). destruct (S2 _ _ Hs2) as (s3 & ? & ?). exists s3. split; [done|congruence].
  - intros id a Ha Hst. destruct (A1 _ _ Ha Hst) as (a2 & Ha2 & Hst2). eauto.
Qed.

Lemma active_terminal f : run_active f = negb (is_terminal (r_status (rf_life f))).
Proof. unfold run_active. by destruct (r_status (rf_life f)). Qed.
Lemma calmer_active f f' : run_calmer f f' -> run_active f' = true -> run_active f = true.
Proof. intros [_ [_ _ Ha _]]. rewrite !active_terminal, !negb_true_iff. done. Qed.
Lemma calmer_waiting f f' : run_calmer f f' -> waiting f' = true -> waiting f = true.
Proof.
  intros [_ [_ _ _ Hq]]. unfold waiting. rewrite !andb_true_iff, !bool_decide_eq_true. intros [Ha Hb].
  destruct (Hq Ha) as [? E]. split; congruence.
Qed.
Lemma calmer_waiting_in wid f f' : run_calmer f f' -> waiting_in wid f' = true -> waiting_in wid f = true.
Proof.
  intros Hc. unfold waiting_in. rewrite !andb_true_iff, !bool_decide_eq_true. intros [Hw <-].
  split; [by eapply calmer_waiting|]. by destruct Hc as [_ [-> _ _ _]].
Qed.

Lemma calm_run h h' id f' : calm h h' -> h_runs h' !! id = Some f' -> exists f, h_runs h !! id = Some f /\ run_calmer f f'.
Proof. intros Hc Hf. pose proof (ca_runs _ _ Hc id) as Hr. rewrite Hf in Hr. inversion Hr; subst. eauto. Qed.
Lemma calm_run_fwd h h' id f : calm h h' -> h_runs h !! id = Some f -> exists f', h_runs h' !! id = Some f' /\ run_calmer f f'.
Proof. intros Hc Hf. pose proof (ca_runs _ _ Hc id) as Hr. rewrite Hf in Hr. inversion Hr; subst. eauto. Qed.

(** ** The invariant survives a calming step *)

Lemma calm_housed h h' f f' : calm h h' -> run_calmer f f' -> housed h f -> housed h' f'.
Proof.
  intros Hc [_ [_ Hse _ _]] (s & a & Hs & Ha & Hst). destruct (ca_sessions _ _ Hc _ _ Hs) as (s' & Hs' & E).
  destruct (ca_agents _ _ Hc _ _ Ha Hst) as (a' & Ha' & Hst'). exists s', a'. by rewrite Hse, E.
Qed.
Lemma calm_backed h h' r : calm h h' -> backed h r -> backed h' r.
Proof.
  intros Hc [[s Hs] Hr]. split; [destruct (ca_sessions _ _ Hc _ _ Hs) as (s' & -> & _); eauto|].
  intros id Hid. destruct (Hr _ Hid) as (f & Hf & Hse & Ht & Hu & Hw). destruct (calm_run_fwd _ _ _ _ Hc Hf) as (f' & Hf' & HI & Hl).
  exists f'. rewrite HI, (cm_session _ _ Hl), (cm_workspace _ _ Hl). auto.
Qed.

Lemma calm_inv lim h h' : hosted_inv lim h -> calm h h' -> hosted_inv lim h'.
Proof.
  intros [One Hou Hid Hqu Hte Hgl Hev Hre Hba] Hc. constructor.
  - intros k1 f1' k2 f2' H1 H2 A1 A2 E. destruct (calm_run _ _ _ _ Hc H1) as (f1 & F1 & C1), (calm_run _ _ _ _ Hc H2) as (f2 & F2 & C2).
    apply (One _ _ _ _ F1 F2); eauto using calmer_active.
    by rewrite <- (cm_session _ _ (proj2 C1)), <- (cm_session _ _ (proj2 C2)).
  - intros k f' Hf Ha. destruct (calm_run _ _ _ _ Hc Hf) as (f & F & C). eauto using calm_housed, calmer_active.
  - intros k f' Hf. destruct (calm_run _ _ _ _ Hc Hf) as (f & F & [C1 [C2 C3 _ _]]). rewrite C1, C2, C3.
    destruct (Hid _ _ F) as (? & ? & [s Hs]). destruct (ca_sessions _ _ Hc _ _ Hs) as (s' & Hs' & _). eauto.
  - intros k f' Hf Hq. destruct (calm_run _ _ _ _ Hc Hf) as (f & F & [_ [_ _ _ C]]). destruct (C Hq) as [? ->]. eauto.
  - intros wid. etransitivity; [|apply (Hte wid)]. apply qs_count_mono. intros k f' Hf Hw.
    destruct (calm_run _ _ _ _ Hc Hf) as (f & F & C). eauto using calmer_waiting_in.
  - etransitivity; [|apply Hgl]. apply qs_count_mono. intros k f' Hf Hw.
    destruct (calm_run _ _ _ _ Hc Hf) as (f & F & C). eauto using calmer_waiting.
  - by apply (ca_events _ _ Hc).
  - by rewrite (ca_receipts _ _ Hc).
  - intros k r. rewrite (ca_receipts _ _ Hc). eauto using calm_backed.
Qed.

(** ** Calm operations *)

Lemma calm_same h h' : h_runs h' = h_runs h -> h_sessions h' = h_sessions h -> h_agents h' = h_agents h -> h_events h' = h_events h ->
  h_receipts h' = h_receipts h -> calm h h'.
Proof.
  intros R S A E C. constructor; [rewrite R|rewrite S|rewrite A| |done].
  - intros id. destruct (h_runs h !! id); constructor. by split.
  - eauto.
  - eauto.
  - unfold seqs_unique, life. cbn. by rewrite E.
Qed.
Ltac same := apply calm_same; reflexivity.

Lemma lookup_put_life st h id : h_runs (put_life st h) !! id = (fun f => set_rf_life (default (rf_life f) (st_runs st !! id)) f) <$> h_runs h !! id.
Proof. cbn. rewrite map_lookup_imap. by destruct (h_runs h !! id). Qed.
Lemma calm_put_life st h : api_rel (life h) st -> calm h (put_life st h).
Proof.
  intros [He Ha]. constructor; [|by eauto|by eauto|done|done].
  - intros id. rewrite lookup_put_life. specialize (Ha id). cbn in Ha. rewrite lookup_fmap in Ha.
    destruct (h_runs h !! id) as [f|]; cbn in *; [|constructor]. constructor. destruct (st_runs st !! id); [|done].
    split; [done|]. by eapply allowed_calmer.
Qed.

Lemma receipt_scope_true user wid command op r : receipt_scope user wid command op r = true <->
  rc_user r = user /\ rc_workspace r = wid /\ rc_command r = command /\ rc_operation r = op.
Proof. unfold receipt_scope. rewrite !andb_true_iff, Z.eqb_eq, !bool_decide_eq_true. tauto. Qed.

Section steps.
Context {PL : Platform} (material_citations : pystr -> option Z -> gmap pystr citation_row) (wait : Z).

Lemma project_run_calm h id expected p : seqs_unique (life h) -> project_run material_citations h id expected = Ok p -> calm h p.2.
Proof.
  intros Hu H. unfold project_run in H. apply bind_Ok in H as ([r st] & Hp & H). simplify_eq/=. apply calm_put_life.
  unlift. by eapply project_api.
Qed.
Lemma mark_reason_calm id reason p h : calm h (mark_reason id reason p h).
Proof.
  unfold mark_reason. destruct (h_runs h !! id) as [f|] eqn:Hf; [|reflexivity]. destruct (p f); [|reflexivity].
  constructor; [|by eauto|by eauto|done|done]. intros id'. cbn. destruct (decide (id = id')) as [<-|Hne].
  - rewrite Hf, lookup_insert_eq. constructor. split; [done|]. by constructor.
  - rewrite lookup_insert_ne by done. destruct (h_runs h !! id'); constructor. by split.
Qed.
Lemma stop_runs_calm runs cancel h p : seqs_unique (life h) -> stop_runs material_citations runs cancel h = Ok p -> calm h p.2.
Proof.
  revert h. induction runs as [|id runs IH]; intros h Hu H; cbn in H; [by simplify_eq|].
  destruct (cancel id) as [| |state]; [by simplify_eq| |].
  - etrans; [apply (mark_reason_calm id "agent_run_cancel_requested" run_active)|]. apply IH; [|done].
    by apply (ca_events _ _ (mark_reason_calm id _ run_active h)).
  - apply bind_Ok in H as (q & Hq & H). apply project_run_calm in Hq; [|done].
    destruct (_ || _); [by simplify_eq|]. etrans; [done|]. apply IH; [by apply (ca_events _ _ Hq)|done].
Qed.

Lemma save_agent_calm k f h h' : save_agent k f h = Ok h' ->
  (forall a, h_agents h !! k = Some a -> a_status (af_row a) = Active -> a_status (af_row f) = Active) -> calm h h'.
Proof.
  intros H Hst. unfold save_agent in H. walk H. constructor; [|by eauto| |done|done].
  - intros id. destruct (h_runs h !! id) eqn:E; cbn; rewrite E; constructor. by split.
  - intros id a Ha Hact. cbn. destruct (decide (k = id)) as [<-|Hne].
    + rewrite lookup_insert_eq. eexists. split; [done|]. cbn. eauto.
    + rewrite lookup_insert_ne by done. eauto.
Qed.
Lemma save_session_calm k f h h' : save_session k f h = Ok h' ->
  (forall s, h_sessions h !! k = Some s -> se_agent (sf_row f) = se_agent (sf_row s)) -> calm h h'.
Proof.
  intros H Hst. unfold save_session in H. walk H. constructor; [| |by eauto|done|done].
  - intros id. destruct (h_runs h !! id) eqn:E; cbn; rewrite E; constructor. by split.
  - intros sid s Hs. cbn. destruct (decide (k = sid)) as [<-|Hne].
    + rewrite lookup_insert_eq. eexists. split; [done|]. eauto.
    + rewrite lookup_insert_ne by done. eauto.
Qed.
Lemma purge_outputs_calm sid at_ h : calm h (purge_session_outputs sid at_ h).
Proof. same. Qed.

(** ** Rows that are added *)

Lemma session_create_ok ids f h k h' : session_create ids f h = Ok (k, h') ->
  h_sessions h !! k = None /\ h' = set_h_sessions <[k := f]> h.
Proof.
  revert k h'. induction ids as [|i ids IH]; intros k h' H; cbn in H; [done|].
  destruct (insert_session i f h) as [h1|e] eqn:E.
  - simplify_eq. unfold insert_session in E. walk E. res_inv. by bool_inv.
  - destruct (_ && _); [|done]. destruct ids as [|j ids]; [done|]. by apply IH.
Qed.
Lemma session_create_calm ids f h k h' : session_create ids f h = Ok (k, h') -> calm h h'.
Proof.
  intros [Hk ->]%session_create_ok. constructor; [| |by eauto|done|done]; cbn.
  - intros id. destruct (h_runs h !! id); constructor. by split.
  - intros sid s Hs. rewrite lookup_insert_ne by congruence. eauto.
Qed.

Lemma accept_operation_inv lim h key user wid command op digest sid run grant r rs :
  hosted_inv lim h -> accept_operation (operation_resources h) key user wid command op digest sid run grant = Ok (r, rs) ->
  backed h r -> hosted_inv lim (set_h_receipts (fun _ => res_receipts rs) h).
Proof.
  intros [One Hou Hid Hqu Hte Hgl Hev Hre Hba] H Hb. unfold accept_operation in H. walk H. res_inv. bool_inv. cbn.
  constructor; try done; cbn.
  - intros k1 r1 k2 r2 [[<- <-]|[? L1]]%lookup_insert_Some [[<- <-]|[? L2]]%lookup_insert_Some Hs; try done; [..|by eapply Hre].
    all: destruct Hs as (? & ? & ? & ?); cbn in *; subst.
    + match goal with Hm : map_Forall _ _ |- _ => specialize (Hm _ _ L2); cbn in Hm end.
      assert (receipt_scope (rc_user r2) (rc_workspace r2) (rc_command r2) (rc_operation r2) r2 = true) by by apply receipt_scope_true. congruence.
    + match goal with Hm : map_Forall _ _ |- _ => specialize (Hm _ _ L1); cbn in Hm end.
      assert (receipt_scope (rc_user r1) (rc_workspace r1) (rc_command r1) (rc_operation r1) r1 = true) by by apply receipt_scope_true. congruence.
  - intros k r [[<- <-]|[? L1]]%lookup_insert_Some; [exact Hb|exact (Hba _ _ L1)].
Qed.

Lemma insert_run_ok versions id f grant h f' h' : insert_run versions id f grant h = Ok (f', h') ->
  h_runs h !! id = None /\ h' = set_h_runs <[id := f']> h /\ rf_life f' = rf_life f /\ rf_identity f' = rf_identity f /\ rf_version f' = rf_version f.
Proof. intros H. unfold insert_run in H. walk H. all: res_inv; bool_inv; done. Qed.

(** A waiting run joins a session without active runs while the queue has room. *)
Lemma insert_run_inv lim versions id f grant h f' h' :
  hosted_inv lim h -> insert_run versions id f grant h = Ok (f', h') ->
  r_status (rf_life f) = Queued -> r_started (rf_life f) = None ->
  ri_workspace (rf_identity f) = r_workspace (rf_life f) -> ri_session (rf_identity f) = r_session (rf_life f) ->
  session_has_active_run h (r_session (rf_life f)) = false -> housed h f ->
  queued_admission_error lim true (r_workspace (rf_life f)) h = None -> hosted_inv lim h'.
Proof.
  intros [One Hou Hid Hqu Hte Hgl Hev Hre Hba] H Hq Hs Hiw His Hact Hho Hadm. apply insert_run_ok in H as (Hnew & -> & EL & EI & _).
  assert (Hidle : forall k g, h_runs h !! k = Some g -> run_active g = true -> r_session (rf_life g) <> r_session (rf_life f)).
  { intros k g Hg Hga E. unfold session_has_active_run in Hact. bool_inv.
    assert ((k, g) ∈ active_runs h (r_session (rf_life f))) as Hin.
    { apply elem_of_qs_list. by rewrite E, bool_decide_eq_true_2, Hga. }
    rewrite Hact in Hin. by apply not_elem_of_nil in Hin. }
  unfold queued_admission_error in Hadm. cbn in Hadm. repeat case_match; try done. bool_inv.
  constructor; try done; cbn.
  - intros k1 f1 k2 f2 [[<- <-]|[? L1]]%lookup_insert_Some [[<- <-]|[? L2]]%lookup_insert_Some A1 A2 E; try done; [..|by eapply One].
    + exfalso. apply (Hidle _ _ L2 A2). congruence.
    + exfalso. apply (Hidle _ _ L1 A1). congruence.
  - intros k g [[<- <-]|[? L]]%lookup_insert_Some Hga; [|exact (Hou _ _ L Hga)]. unfold housed. by rewrite EL.
  - intros k g [[<- <-]|[? L]]%lookup_insert_Some; [|exact (Hid _ _ L)]. rewrite EL, EI. destruct Hho as (s & _ & Hs' & _). eauto.
  - intros k g [[<- <-]|[? L]]%lookup_insert_Some; [by rewrite EL|exact (Hqu _ _ L)].
  - intros wid. destruct (decide (wid = r_workspace (rf_life f))) as [->|Hne].
    + unfold count_runs in *. cbn. etransitivity; [apply qs_count_insert|]. lia.
    + etransitivity; [|apply (Hte wid)]. apply qs_count_mono. cbn. intros k g [[<- <-]|[? L]]%lookup_insert_Some Hw; [|eauto].
      unfold waiting_in in Hw. bool_inv. congruence.
  - unfold count_runs in *. cbn. etransitivity; [apply qs_count_insert|]. lia.
  - intros k r Hr. destruct (Hba _ _ Hr) as [Hb Hb']. split; [done|]. intros rid Hrid. destruct (Hb' _ Hrid) as (g & Hg & ?). exists g.
    split; [|done]. cbn. rewrite lookup_insert_ne by congruence. done.
Qed.

Lemma link_objects_frame h user sid wid objects ids n acc p :
  link_objects h user sid wid objects ids n acc = Ok p -> exists links, p.2 = set_h_links (fun _ => links) h.
Proof.
  revert h n acc. induction objects as [|[id r] objects IH]; intros h n acc H; cbn in H; [simplify_eq; exists (h_links h); by destruct h|].
  walk H. destruct (IH _ _ _ H) as [links E]. unfold link_get_or_create in *.
  match goal with Hl : match qs_list _ _ with _ => _ end = Ok _ |- _ => walk Hl end; [|eauto].
  unlift. match goal with Hl : insert_link _ _ _ _ = Ok _ |- _ => unfold insert_link in Hl; walk Hl end. by exists links.
Qed.
Lemma attach_uploads_frame h user sid wid stored ids link_ids asset_link_ids now p :
  attach_uploads h user sid wid stored ids link_ids asset_link_ids now = Ok p ->
  exists links st, p.2 = set_h_links (fun _ => links) (set_h_store (fun _ => st) h).
Proof. intros H. unfold attach_uploads in H. walk H. cbn. edestruct link_objects_frame as [links ->]; [done|]. eauto. Qed.

(** ** Transactions *)

Lemma not_deleted (s : life_status) : s <> Deleted -> s = Active.
Proof. by destruct s. Qed.
Lemma request_agent_Some h user wid id a : request_agent h user wid id = Some a -> h_agents h !! id = Some a.
Proof. unfold request_agent. destruct (h_agents h !! id); cbn; [|done]. case_match; naive_solver. Qed.
Lemma new_session_agent_inr h user wid p id a : new_session_agent h user wid p = inr (id, a) ->
  h_agents h !! id = Some a /\ a_status (af_row a) = Active.
Proof.
  unfold new_session_agent. destruct (request_agent _ _ _ _) eqn:E; [|done]. repeat case_match; intros; simplify_eq; bool_inv;
    eauto using request_agent_Some, not_deleted.
Qed.
Lemma existing_session_inr h user wid sid f a : existing_session h user wid sid = inr (f, a) ->
  h_sessions h !! sid = Some f /\ h_agents h !! se_agent (sf_row f) = Some a /\ a_status (af_row a) = Active /\
  se_workspace (sf_row f) = wid /\ se_owner (sf_row f) = user.
Proof.
  unfold existing_session, session_agent. intros H. repeat case_match; simplify_eq. bool_inv. eauto 10 using not_deleted.
Qed.

Lemma idle_session h sid : (forall k f, h_runs h !! k = Some f -> r_session (rf_life f) <> sid) -> session_has_active_run h sid = false.
Proof.
  intros Hn. unfold session_has_active_run. apply negb_false_iff, bool_decide_eq_true.
  destruct (active_runs h sid) as [|[k f] l] eqn:E; [done|]. exfalso.
  assert ((k, f) ∈ active_runs h sid) as [Hf Hs]%elem_of_qs_list by (rewrite E; by left). bool_inv. naive_solver.
Qed.

(** the session of an accepted message is idle and its agent active *)
Lemma message_session_ok lim h user wid sid pp ids now target h' :
  hosted_inv lim h -> message_session h user wid sid pp ids now = Ok (inr target, h') ->
  let '(sid', f, a, _) := target in
  calm h h' /\ h_runs h' = h_runs h /\ h_sessions h' !! sid' = Some f /\ h_agents h' !! se_agent (sf_row f) = Some a /\
  a_status (af_row a) = Active /\ session_has_active_run h' sid' = false.
Proof.
  intros Hi H. unfold message_session in H. walk H; cbn in *; unlift.
  - match goal with Hn : new_session_agent _ _ _ _ = inr _ |- _ => apply new_session_agent_inr in Hn as [Ha Hst] end.
    match goal with Hc : session_create _ _ _ = Ok ?x, Hu : attach_uploads _ _ _ _ _ _ _ _ _ = Ok _ |- _ =>
      destruct x as [k h1]; pose proof (session_create_calm _ _ _ _ _ Hc) as Hcalm; apply session_create_ok in Hc as [Hnew ->];
      apply attach_uploads_frame in Hu as (links & st & Hu) end. cbn in *. subst. split_and!; try done.
    + etrans; [exact Hcalm|same].
    + cbn. by rewrite lookup_insert_eq.
    + apply idle_session. intros id g Hg E. cbn in Hg. destruct (hi_identity _ _ Hi _ _ Hg) as (_ & _ & [s Hs]). congruence.
  - match goal with Hn : existing_session _ _ _ _ = inr _ |- _ => apply existing_session_inr in Hn as (Hs & Ha & Hst & _ & _) end.
    split_and!; try done.
Qed.

Lemma create_authorization_ok versions key sandbox ps h id f session aid refs image h' :
  create_agent_run_authorization versions key sandbox ps h id f session aid refs image = Ok h' ->
  exists au, h' = set_h_authorizations <[id := au]> h /\ authorization_digest (au_payload au) = Ok (au_digest au) /\
    is_ok (verify_agent_run_authorization_signature (au_payload au) key (au_signature au)) = true /\
    authorization_bound id f session aid (au_payload au) = true.
Proof.
  intros H. unfold create_agent_run_authorization, save_authorization in H. walk H. res_inv. unlift. bool_inv. subst. eexists. split_and!; eauto.
  cbn. unfold is_ok. by case_match.
Qed.

Lemma accept_operation_ok rs key user wid command op digest sid run grant r rs' :
  accept_operation rs key user wid command op digest sid run grant = Ok (r, rs') ->
  r = Receipt user wid command op digest sid (fst <$> run) ((fun kr => ri_turn kr.2) <$> run) ((fun kg => dl_app kg.2) <$> grant) (fst <$> grant) /\
  res_receipts rs' = <[key := r]> (res_receipts rs) /\ res_receipts rs !! key = None.
Proof. intros H. unfold accept_operation in H. walk H. res_inv. bool_inv. done. Qed.

Lemma accept_run_inv lim versions key sandbox ps h user wid mid m grant pp sid f a refs ids now r h' :
  hosted_inv lim h -> h_sessions h !! sid = Some f -> h_agents h !! se_agent (sf_row f) = Some a -> a_status (af_row a) = Active ->
  session_has_active_run h sid = false -> queued_admission_error lim true wid h = None ->
  accept_run versions key sandbox ps h user wid mid m grant pp (sid, f, a, refs) ids now = Ok (r, h') -> hosted_inv lim h'.
Proof.
  intros Hi Hs Ha Hst Hidle Hadm H. unfold accept_run in H. walk H. unlift. cbn.
  match goal with Hr : insert_run _ _ _ _ _ = Ok (?f', _) |- _ => rename f' into run; pose proof (insert_run_ok _ _ _ _ _ _ _ Hr) as (Hnew & -> & EL & EI & _);
    eapply insert_run_inv in Hr; [|done..| |] end; [|by exists f, a|done].
  match goal with Hr : create_agent_run_authorization _ _ _ _ _ _ _ _ _ _ _ = Ok _ |- _ => apply create_authorization_ok in Hr as (au & -> & _) end.
  match goal with Hv : save_session _ _ _ = Ok ?hh |- _ => pose proof Hv as Hv'; unfold save_session in Hv'; walk Hv'; apply save_session_calm in Hv end.
  2:{ cbn. rewrite Hs. by intros ? [= <-]. }
  match goal with Ho : accept_operation _ _ _ _ _ _ _ _ _ _ = Ok ?x |- _ => destruct x as [rr rs]; pose proof Ho as Ho'; eapply accept_operation_inv in Ho end.
  - eassumption.
  - eapply calm_inv; [eapply calm_inv; [eassumption|]|eassumption]. same.
  - apply accept_operation_ok in Ho' as (-> & _ & _). split; cbn; [rewrite lookup_insert_eq; eauto|].
    intros rid [= <-]. exists run. rewrite lookup_insert_eq, EL, EI. done.
Qed.

Lemma message_transaction_inv lim versions key sandbox ps h user wid sid grant_id pp ids locked now r h' :
  hosted_inv lim h -> message_transaction versions lim key sandbox ps h user wid sid grant_id pp ids locked now = Ok (r, h') -> hosted_inv lim h'.
Proof.
  intros Hi H. unfold message_transaction in H. walk H; unlift.
  - assert (h' = h) as ->; [|done]. match goal with Hm : message_session _ _ _ _ _ _ _ = Ok _ |- _ => unfold message_session in Hm; walk Hm end; done.
  - match goal with Hm : message_session _ _ _ _ _ _ _ = Ok (inr ?t, _) |- _ => destruct t as [[[sid' f] a] refs]; apply (message_session_ok lim) in Hm as (Hc & Hr & Hs & Ha & Hst & Hidle); [|done] end.
    match goal with Hx : accept_run _ _ _ _ _ _ _ _ _ _ _ _ _ _ = Ok ?x |- _ => destruct x; eapply accept_run_inv in Hx end; try done.
    + by eapply calm_inv.
    + destruct locked; [|done]. unfold queued_admission_error, count_runs in *. by rewrite Hr.
Qed.

(** a submission commits its transaction, or clears up what it had stored *)
Lemma message_commit_cases lim versions key sandbox ps h user wid sid grant_id pp ids locked now r h' :
  message_commit versions lim key sandbox ps h user wid sid grant_id pp ids locked now = (r, h') ->
  (exists r1, message_transaction versions lim key sandbox ps h user wid sid grant_id pp ids locked now = Ok (r1, h') /\ r = Ok r1) \/
  (exists e cleaned st, message_transaction versions lim key sandbox ps h user wid sid grant_id pp ids locked now = Err e /\
     _delete_stored_upload_batch (pp_stored pp) (h_store h) = (cleaned, st) /\ h' = set_h_store (fun _ => st) h /\
     r = match cleaned with Ok _ => refused_answer e | Err x => Err (MHosted (HLibrary (LExn x))) end).
Proof.
  unfold message_commit, after_cleanup. intros H. destruct (message_transaction _ _ _ _ _ _ _ _ _ _ _ _ _ _) as [[r1 h1]|e]; [left; simplify_eq; eauto|].
  right. destruct (_delete_stored_upload_batch _ _) as [cleaned st]. simplify_eq. by exists e, cleaned, st.
Qed.
Lemma message_commit_inv lim versions key sandbox ps h user wid sid grant_id pp ids locked now r h' :
  hosted_inv lim h -> message_commit versions lim key sandbox ps h user wid sid grant_id pp ids locked now = (r, h') -> hosted_inv lim h'.
Proof.
  intros Hi [(r1 & E & ->)|(e & cleaned & st & _ & _ & -> & _)]%message_commit_cases.
  - by eapply message_transaction_inv.
  - eapply calm_inv; [done|same].
Qed.

Lemma session_commit_inv lim h user wid grant_id op agent_id project digest ids key now r h' :
  hosted_inv lim h -> session_commit h user wid grant_id op agent_id project digest ids key now = Ok (r, h') -> hosted_inv lim h'.
Proof.
  intros Hi H. unfold session_commit, with_member, or_hosted_error in H. walk H; try done; unlift.
  all: match goal with Hc : session_create _ _ _ = Ok (?k, ?h1), Ho : accept_operation _ _ _ _ _ _ _ _ _ _ = Ok ?x |- _ =>
    pose proof (calm_inv _ _ _ Hi (session_create_calm _ _ _ _ _ Hc)) as Hi1; apply session_create_ok in Hc as [_ ->];
    destruct x as [rr rs]; pose proof Ho as Ho'; eapply accept_operation_inv in Ho; [exact Ho|exact Hi1|];
    apply accept_operation_ok in Ho' as (-> & _ & _); split; cbn; [rewrite lookup_insert_eq; eauto|done] end.
Qed.

Lemma delete_agent_inv lim h user id now r h' : hosted_inv lim h -> delete_agent h user id now = Ok (r, h') -> hosted_inv lim h'.
Proof.
  intros Hi H. unfold delete_agent, with_agent in H. walk H; try done. unlift.
  match goal with Hs : save_agent _ _ _ = Ok _, Hno : agent_has_active_run _ _ = false |- _ => unfold save_agent in Hs; walk Hs; rename Hno into Hn end.
  unfold agent_has_active_run in Hn. rewrite qs_exists_false in Hn.
  destruct Hi as [One Hou Hid Hqu Hte Hgl Hev Hre Hba]. constructor; try done. cbn.
  intros k g Hg Hga. destruct (Hou _ _ Hg Hga) as (s & b & Hs & Hb & Hst). exists s, b. cbn.
  rewrite lookup_insert_ne; [done|]. intros E. specialize (Hn _ _ Hg). rewrite Hga, Hs in Hn. cbn in Hn. bool_inv. congruence.
Qed.

Lemma owned_session_Some h user sid a f : _locked_owned_session h user sid = Ok (Some (a, f)) -> h_sessions h !! sid = Some f.
Proof. unfold _locked_owned_session. intros H. walk H; try done. by repeat case_match; simplify_eq. Qed.
Lemma owned_agent_Some h user id lock f : _owned_agent h user id lock = Ok (Some f) -> h_agents h !! id = Some f.
Proof. unfold _owned_agent. intros H. walk H; try done. by repeat case_match; simplify_eq. Qed.

Lemma update_agent_calm h user id p r h' : update_agent h user id p = Ok (r, h') -> calm h h'.
Proof.
  intros H. unfold update_agent, with_agent in H. walk H; try reflexivity. unlift.
  match goal with Ho : _owned_agent _ _ _ _ = Ok _ |- _ => apply owned_agent_Some in Ho end.
  eapply save_agent_calm; [done|]. naive_solver.
Qed.
Lemma restore_agent_calm h user id now r h' : restore_agent h user id now = Ok (r, h') -> calm h h'.
Proof. intros H. unfold restore_agent, with_agent in H. walk H; try reflexivity. unlift. by eapply save_agent_calm. Qed.
Lemma purge_agent_calm h user id now r h' : permanently_delete_agent h user id now = Ok (r, h') -> calm h h'.
Proof.
  intros H. unfold permanently_delete_agent, with_agent in H. walk H; try reflexivity. unlift. bool_inv.
  match goal with Ho : _owned_agent _ _ _ _ = Ok _ |- _ => apply owned_agent_Some in Ho end.
  eapply save_agent_calm; [done|]. intros. exfalso. congruence.
Qed.
Lemma create_agent_calm h user wid name description instructions avatar ids now r h' :
  create_agent h user wid name description instructions avatar ids now = Ok (r, h') -> calm h h'.
Proof.
  intros H. unfold create_agent, with_member, create_agent_row in H. walk H; try reflexivity. unlift.
  match goal with Hc : _ ≫= _ = Ok _ |- _ => walk Hc end.
  match goal with Hc : resource_create _ _ _ = Ok ?x |- _ => destruct x as [k d']; apply resource_create_frame in Hc as (? & _ & Hk & _) end.
  cbn in Hk. rewrite lookup_fmap, fmap_None in Hk. constructor; [|by eauto| |done|done]; cbn.
  - intros id. destruct (h_runs h !! id); constructor. by split.
  - intros id b Hb Hst. rewrite lookup_insert_ne by congruence. eauto.
Qed.

Lemma save_session_same_calm sid f h h' s : h_sessions h !! sid = Some s -> save_session sid f h = Ok h' ->
  se_agent (sf_row f) = se_agent (sf_row s) -> calm h h'.
Proof. intros Hs H E. eapply save_session_calm; [done|]. intros. by simplify_eq. Qed.
Lemma session_for_update_Some h user sid f : _session_for_update h user sid = Ok (Some f) -> h_sessions h !! sid = Some f.
Proof. unfold _session_for_update. intros H. walk H; try done. by repeat case_match; simplify_eq. Qed.

Lemma update_session_calm h user sid p r h' : update_session_metadata h user sid p = Ok (r, h') -> calm h h'.
Proof.
  intros H. unfold update_session_metadata in H. walk H; try reflexivity. all: unlift.
  all: match goal with Ho : _session_for_update _ _ _ = Ok _ |- _ => apply session_for_update_Some in Ho end.
  all: etrans; [eapply save_session_same_calm; [done|done|]; cbn; reflexivity|]. all: repeat case_match; same.
Qed.
Lemma delete_session_calm h user sid cancel now r h' : seqs_unique (life h) ->
  delete_session material_citations h user sid cancel now = Ok (r, h') -> calm h h'.
Proof.
  intros Hu H. unfold delete_session, with_owned_session in H. walk H; try reflexivity; unlift.
  all: match goal with Hs : stop_runs _ _ _ _ = Ok _ |- _ => apply stop_runs_calm in Hs as Hc; [|done] end; cbn in Hc.
  { done. }
  match goal with Ho : _locked_owned_session _ _ _ = Ok _ |- _ => apply owned_session_Some in Ho as Ho' end.
  etrans; [exact Hc|]. destruct (ca_sessions _ _ Hc _ _ Ho') as (s1 & Hs1 & E).
  etrans; [apply (purge_outputs_calm sid now)|]. eapply save_session_same_calm; [exact Hs1|eassumption|]. cbn. done.
Qed.
Lemma restore_session_calm h user sid now r h' : restore_session h user sid now = Ok (r, h') -> calm h h'.
Proof.
  intros H. unfold restore_session, with_owned_session in H. walk H; try reflexivity; unlift.
  match goal with Ho : _locked_owned_session _ _ _ = Ok _ |- _ => apply owned_session_Some in Ho end. by eapply save_session_same_calm.
Qed.
Lemma purge_session_calm h user sid now r h' : permanently_delete_session h user sid now = Ok (r, h') -> calm h h'.
Proof.
  intros H. unfold permanently_delete_session, with_owned_session in H. walk H; try reflexivity; unlift.
  match goal with Ho : _locked_owned_session _ _ _ = Ok _ |- _ => apply owned_session_Some in Ho end.
  etrans; [apply (purge_outputs_calm sid now)|]. by eapply save_session_same_calm.
Qed.
Lemma cancel_run_calm h user sid run_id grant_id reply now r h' : seqs_unique (life h) ->
  cancel_agent_run material_citations h id user sid run_id grant_id reply now = Ok (r, h') -> calm h h'.
Proof.
  intros Hu H. unfold cancel_agent_run in H. walk H; try reflexivity; [apply mark_reason_calm|]. by eapply project_run_calm.
Qed.

Lemma message_prepare_calm versions models available_name ps h user wid sid grant_id body profile uuids now r h' :
  message_prepare versions models available_name ps h user wid sid grant_id body profile uuids now = (r, h') -> calm h h'.
Proof. intros H. unfold message_prepare in H. split_all H; try reflexivity. all: same. Qed.

Definition set_h_events (f : gmap pystr event_row -> gmap pystr event_row) (h : hosted) : hosted :=
  Hosted (h_db h) (h_agents h) (h_sessions h) (h_projects h) (h_runs h) (f (h_events h)) (h_unread h)
    (h_citations h) (h_receipts h) (h_authorizations h) (h_links h) (h_captures h) (h_sources h) (h_store h).
Definition set_pre_admission (at_ : Z) (r : run_row) : run_row :=
  Run (r_workspace r) (r_session r) (r_status r) (r_reason r) (r_started r) (r_completed r) (Some at_) (r_created r).

Lemma event_calm h k e : h_events h !! k = None ->
  (ev_session_level e = false -> forall k' e', h_events h !! k' = Some e' -> ev_session_level e' = false -> ev_run e' = ev_run e -> run_seq e' < run_seq e) ->
  calm h (set_h_events <[k := e]> h).
Proof.
  intros Hk Hlt. constructor; [|by eauto|by eauto| |done].
  - intros id. cbn. destruct (h_runs h !! id); constructor. by split.
  - intros Hu. exact (seqs_unique_insert (life h) k e Hu Hk Hlt).
Qed.
Lemma pre_admission_calm h id f at_ : h_runs h !! id = Some f ->
  calm h (set_h_runs <[id := set_rf_life (set_pre_admission at_ (rf_life f)) f]> h).
Proof.
  intros Hf. constructor; [|by eauto|by eauto|done|done]. intros id'. cbn. destruct (decide (id = id')) as [<-|Hne].
  - rewrite Hf, lookup_insert_eq. constructor. split; [done|]. by constructor.
  - rewrite lookup_insert_ne by done. destruct (h_runs h !! id'); constructor. by split.
Qed.
Lemma elsewhere_calm h h' : h_runs h' = h_runs h -> h_sessions h' = h_sessions h -> h_agents h ⊆ h_agents h' -> h_events h' = h_events h ->
  h_receipts h' = h_receipts h -> calm h h'.
Proof.
  intros R S A E C. constructor; [rewrite R|rewrite S| | |done].
  - intros id. destruct (h_runs h !! id); constructor. by split.
  - eauto.
  - intros id a Ha Hst. exists a. split; [by eapply lookup_weaken|done].
  - unfold seqs_unique, life. cbn. by rewrite E.
Qed.
Lemma message_schedule_calm h receipt scheduled : calm h (message_schedule h receipt scheduled).2.
Proof. cbn. destruct scheduled; [reflexivity|apply mark_reason_calm]. Qed.

End steps.

Create HintDb calm.
#[export] Hint Resolve message_prepare_calm message_schedule_calm create_agent_calm update_agent_calm restore_agent_calm purge_agent_calm
  update_session_calm delete_session_calm restore_session_calm purge_session_calm cancel_run_calm calm_put_life transition_api
  reconcile_api event_calm pre_admission_calm elsewhere_calm : calm.

(** ** Every transaction *)

Section transactions.
Context {PL : Platform} (material_citations : pystr -> option Z -> gmap pystr citation_row) (wait : Z) (lim : limits) (versions : gmap pystr version_row) (models : gmap pystr model_row) (signing_key : pystr) (sandbox : Z * Z * Z * Z)
  (available_name : files_t -> pystr -> pystr).

(** The transactions of the endpoints, the lifecycle code, the writes of the runtime service, and everything
    that touches other tables only. *)
Inductive hosted_step (h : hosted) : hosted -> Prop :=
| hs_message_prepare ps user wid sid grant_id body profile uuids now r h' :
    message_prepare versions models available_name ps h user wid sid grant_id body profile uuids now = (r, h') -> hosted_step h h'
| hs_message_commit ps user wid sid grant_id pp ids locked now r h' :
    message_commit versions lim signing_key sandbox ps h user wid sid grant_id pp ids locked now = (r, h') -> hosted_step h h'
| hs_message_schedule receipt scheduled : hosted_step h (message_schedule h receipt scheduled).2
| hs_create_agent user wid name description instructions avatar ids now r h' :
    create_agent h user wid name description instructions avatar ids now = Ok (r, h') -> hosted_step h h'
| hs_update_agent user id p r h' : update_agent h user id p = Ok (r, h') -> hosted_step h h'
| hs_delete_agent user id now r h' : delete_agent h user id now = Ok (r, h') -> hosted_step h h'
| hs_restore_agent user id now r h' : restore_agent h user id now = Ok (r, h') -> hosted_step h h'
| hs_purge_agent user id now r h' : permanently_delete_agent h user id now = Ok (r, h') -> hosted_step h h'
| hs_session_commit user wid grant_id op agent_id project digest ids key now r h' :
    session_commit h user wid grant_id op agent_id project digest ids key now = Ok (r, h') -> hosted_step h h'
| hs_update_session user sid p r h' : update_session_metadata h user sid p = Ok (r, h') -> hosted_step h h'
| hs_delete_session user sid cancel now r h' : delete_session material_citations h user sid cancel now = Ok (r, h') -> hosted_step h h'
| hs_restore_session user sid now r h' : restore_session h user sid now = Ok (r, h') -> hosted_step h h'
| hs_purge_session user sid now r h' : permanently_delete_session h user sid now = Ok (r, h') -> hosted_step h h'
| hs_cancel_run user sid run_id grant_id reply now r h' :
    cancel_agent_run material_citations h id user sid run_id grant_id reply now = Ok (r, h') -> hosted_step h h'
| hs_transition run_id state reason now ok r st' :
    transition_agent_run material_citations wait (life h) run_id state reason now ok = (r, st') -> hosted_step h (put_life st' h)
| hs_reconcile an now aa da limit r st' :
    reconcile_agent_run_lifecycle material_citations wait an now (life h) aa da limit = (r, st') -> hosted_step h (put_life st' h)
(** the runtime appends to the log of a run, or of the session *)
| hs_event k e : h_events h !! k = None ->
    (ev_session_level e = false -> forall k' e', h_events h !! k' = Some e' -> ev_session_level e' = false -> ev_run e' = ev_run e -> run_seq e' < run_seq e) ->
    hosted_step h (set_h_events <[k := e]> h)
| hs_pre_admission id f at_ : h_runs h !! id = Some f -> hosted_step h (set_h_runs <[id := set_rf_life (set_pre_admission at_ (rf_life f)) f]> h)
(** library, sources, attachments, projects, administration; agents of new members *)
| hs_elsewhere h' : h_runs h' = h_runs h -> h_sessions h' = h_sessions h -> h_agents h ⊆ h_agents h' -> h_events h' = h_events h ->
    h_receipts h' = h_receipts h -> hosted_step h h'.

Lemma hosted_step_inv h h' : hosted_inv lim h -> hosted_step h h' -> hosted_inv lim h'.
Proof.
  intros Hi Hs. pose proof (hi_events _ _ Hi) as Hu.
  destruct Hs; first
    [ by eapply message_commit_inv | by eapply delete_agent_inv | by eapply session_commit_inv | eapply calm_inv; [exact Hi|] ];
    eauto with calm.
Qed.
Lemma hosted_steps_inv h h' : hosted_inv lim h -> rtc hosted_step h h' -> hosted_inv lim h'.
Proof. intros Hi Hs. induction Hs; eauto using hosted_step_inv. Qed.

(** a deployment before its first message *)
Definition unused (h : hosted) : Prop := h_runs h = ∅ /\ h_events h = ∅ /\ h_receipts h = ∅ /\
  0 <= EXECUTION_TENANT_QUEUE_LIMIT lim /\ 0 <= EXECUTION_GLOBAL_QUEUE_LIMIT lim.
Lemma unused_inv h : unused h -> hosted_inv lim h.
Proof.
  intros (R & E & C & Ht & Hg). constructor; rewrite ?R, ?C; try (intros; by rewrite lookup_empty in *).
  - intros wid. unfold count_runs. by rewrite R.
  - unfold count_runs. by rewrite R.
  - intros k1 e1 k2 e2. cbn. rewrite E, lookup_empty. done.
  - intros k1 r1 k2 r2 H1. by rewrite lookup_empty in H1.
Qed.
End transactions.
