(* ===== verification/HostedProps.v ===== *)
(** * What submissions, sessions and agents guarantee

    Theorems over every interleaving of the transactions of [HostedInv.v]: one active run per session, the limits
    of the queue, one effect per operation id, no uploads left behind by a submission that was not accepted, and
    the authorization every accepted run carries. *)

From stdpp Require Import base tactics list gmap numbers sorting relations.
From S2P Require Import Prelude PyStr Table Utf8 Sha256 Platform Schema Access AgentIdentity Delegation Lifecycle LifecycleProps PyValue Json Contract ContractProps Snapshot WorkspaceCommit Assets Library Sources ResourceGc Plugins Hosted Sessions Inputs Messages HostedInv.

(** a file [delete_stored_object_for_gc] does not remove *)
Definition undeletable {PL : Platform} (key : pystr) : bool := is_empty key || delete_refused key.
Lemma delete_gc_files {PL : Platform} key st :
  match delete_stored_object_for_gc key st with
  | Ok st' => forall k, files st' !! k = if bool_decide (k = key) then None else files st !! k
  | Err _ => undeletable key = true
  end.
Proof.
  unfold delete_stored_object_for_gc, undeletable, storage_exists. destruct (is_empty key); cbn; [done|].
  destruct (files st !! key) as [c|] eqn:E; cbn.
  - destruct (delete_refused key); cbn; [done|]. intros k. case_bool_decide as Hk; [subst; apply lookup_delete_eq|by apply lookup_delete_ne].
  - intros k. case_bool_decide as Hk; by subst.
Qed.
(** Clearing up a batch touches only its files, and what remains of them could not be removed and is reported. *)
Lemma delete_batch_spec {PL : Platform} stored : forall failed st,
  (forall key, key ∉ map md_key stored -> files (delete_batch stored failed st).2 !! key = files st !! key) /\
  (forall key, key ∈ map md_key stored -> is_Some (files (delete_batch stored failed st).2 !! key) ->
     undeletable key = true /\ (delete_batch stored failed st).1 = true) /\
  (failed = true -> (delete_batch stored failed st).1 = true) /\
  (forall key, is_Some (files (delete_batch stored failed st).2 !! key) -> is_Some (files st !! key)).
Proof.
  induction stored as [|md stored IH]; intros failed st; [split_and!; try done; intros key Hk; by apply elem_of_nil in Hk|]. cbn [delete_batch map].
  pose proof (delete_gc_files (md_key md) st) as Hd. destruct (delete_stored_object_for_gc _ _) as [st1|e].
  - destruct (IH failed st1) as (H1 & H2 & H3 & H4). split_and!; [| |done|].
    + intros key Hk. apply not_elem_of_cons in Hk as [Hne Hk]. rewrite H1 by done. rewrite Hd. by rewrite bool_decide_eq_false_2.
    + intros key [->|Hk]%elem_of_cons Hs; [|by apply H2]. exfalso. apply H4 in Hs. rewrite Hd, bool_decide_eq_true_2 in Hs by done. by destruct Hs.
    + intros key Hs%H4. rewrite Hd in Hs. case_bool_decide; [by destruct Hs|done].
  - destruct (IH true st) as (H1 & H2 & H3 & H4). split_and!; [| |by intros; apply H3|done].
    + intros key Hk. apply not_elem_of_cons in Hk as [_ Hk]. by apply H1.
    + intros key [->|Hk]%elem_of_cons Hs; [split; [done|by apply H3]|by apply H2].
Qed.

Lemma shape_uploads sid p uploads : message_shape_error sid p uploads = None -> is_new sid = false -> uploads = [].
Proof. unfold message_shape_error. intros H Hn. rewrite Hn in H. by destruct uploads. Qed.

Section hosted.
Context {PL : Platform} (material_citations : pystr -> option Z -> gmap pystr citation_row) (wait : Z) (lim : limits)
  (versions : gmap pystr version_row) (models : gmap pystr model_row) (signing_key : pystr) (sandbox : Z * Z * Z * Z)
  (available_name : files_t -> pystr -> pystr).
Local Abbreviation hstep := (hosted_step material_citations wait lim versions models signing_key sandbox available_name).
Local Abbreviation commit := (message_commit versions lim signing_key sandbox).

(** ** Receipts are kept *)

Lemma accepted_receipts h key user wid command op digest sid run grant x h1 :
  accept_operation (operation_resources h1) key user wid command op digest sid run grant = Ok x -> h_receipts h1 = h_receipts h ->
  h_receipts h ⊆ res_receipts x.2.
Proof.
  intros H E. destruct x as [r rs]. apply accept_operation_ok in H as (_ & Hr & Hn). cbn in *. rewrite Hr, E in *.
  by apply insert_subseteq.
Qed.

Lemma commit_receipts h ps user wid sid grant_id pp ids locked now r h' :
  commit ps h user wid sid grant_id pp ids locked now = (r, h') -> h_receipts h ⊆ h_receipts h'.
Proof.
  intros [(r1 & E & ->)|(e & cleaned & st & _ & _ & -> & _)]%message_commit_cases; [|done].
  unfold message_transaction in E. walk E; unlift; try done.
  all: match goal with Hm : message_session _ _ _ _ _ _ _ = Ok (_, ?g) |- _ => assert (h_receipts g = h_receipts h) as Hg;
    [unfold message_session in Hm; walk Hm; unlift; try done;
     match goal with Hc : session_create _ _ _ = Ok ?x, Hu : attach_uploads _ _ _ _ _ _ _ _ _ = Ok _ |- _ =>
       destruct x; apply session_create_ok in Hc as [_ ->]; apply attach_uploads_frame in Hu as (? & ? & Hu) end; cbn in *; by subst|] end.
  { by rewrite Hg. }
  match goal with Ha : accept_run _ _ _ _ _ _ _ _ _ _ _ ?t _ _ = Ok _ |- _ => destruct t as [[[sid' f] a] refs]; unfold accept_run in Ha; walk Ha end. unlift. cbn.
  match goal with Hr : insert_run _ _ _ _ _ = Ok _ |- _ => apply insert_run_ok in Hr as (_ & -> & _) end.
  match goal with Hr : create_agent_run_authorization _ _ _ _ _ _ _ _ _ _ _ = Ok _ |- _ => apply create_authorization_ok in Hr as (au & -> & _) end.
  match goal with Hv : save_session _ _ _ = Ok _ |- _ => unfold save_session in Hv; walk Hv end.
  by eapply accepted_receipts.
Qed.
Lemma session_commit_receipts h user wid grant_id op agent_id project digest ids key now r h' :
  session_commit h user wid grant_id op agent_id project digest ids key now = Ok (r, h') -> h_receipts h ⊆ h_receipts h'.
Proof.
  intros H. unfold session_commit, with_member, or_hosted_error in H. walk H; try done; unlift.
  all: match goal with Hc : session_create _ _ _ = Ok _ |- _ => apply session_create_ok in Hc as [_ ->] end; by eapply accepted_receipts.
Qed.
Lemma delete_agent_receipts h user id now r h' : delete_agent h user id now = Ok (r, h') -> h_receipts h' = h_receipts h.
Proof.
  intros H. unfold delete_agent, with_agent in H. walk H; try done. unlift.
  match goal with Hs : save_agent _ _ _ = Ok _ |- _ => unfold save_agent in Hs; walk Hs end. done.
Qed.

Lemma step_receipts h h' : hosted_inv lim h -> hstep h h' -> h_receipts h ⊆ h_receipts h'.
Proof.
  intros Hi Hs. pose proof (hi_events _ _ Hi) as Hu.
  assert (Hcalm : calm h h' -> h_receipts h ⊆ h_receipts h') by (intros [_ _ _ _ ->]; done).
  destruct Hs; first [ by eapply commit_receipts | by eapply session_commit_receipts
    | match goal with Hd : delete_agent _ _ _ _ = Ok _ |- _ => by rewrite (delete_agent_receipts _ _ _ _ _ _ Hd) end | apply Hcalm ];
    eauto with calm.
Qed.
Lemma steps_receipts h h' : hosted_inv lim h -> rtc hstep h h' -> h_receipts h ⊆ h_receipts h' /\ hosted_inv lim h'.
Proof.
  intros Hi Hs. induction Hs as [h|h h1 h2 Hs Hss IH]; [done|]. destruct IH as [IH1 IH2]; [by eapply hosted_step_inv|].
  split; [|done]. etrans; [by eapply step_receipts|done].
Qed.

(** ** What an accepted message leaves behind *)

Record accepted_message (h' : hosted) (user : Z) (wid : pystr) (pp : prepared) (ids : fresh_ids) (receipt : receipt_row) (f : run_full) (s : session_full)
    (au : authorization) : Prop := AcceptedMessage {
  am_receipt : h_receipts h' !! fi_receipt ids = Some receipt;
  am_scope : rc_user receipt = user /\ rc_workspace receipt = wid /\ rc_command receipt = "submitMessage" /\
    rc_operation receipt = mr_operation (pp_request pp) /\ rc_digest receipt = pp_digest pp;
  am_run : rc_run receipt = Some (fi_run ids) /\ h_runs h' !! fi_run ids = Some f;
  am_life : rf_life f = Run wid (rc_session receipt) Queued "agent_run_created" None None None (r_created (rf_life f)) /\ ri_user (rf_identity f) = user /\
    rf_prompt f = pp_prompt pp /\ rf_model f = mr_model (pp_request pp);
  am_session : h_sessions h' !! rc_session receipt = Some s;
  am_authorization : h_authorizations h' !! fi_run ids = Some au;
  am_digest : authorization_digest (au_payload au) = Ok (au_digest au);
  am_signature : is_ok (verify_agent_run_authorization_signature (au_payload au) signing_key (au_signature au)) = true;
  am_bound : authorization_bound (fi_run ids) f s (fi_authorization ids) (au_payload au) = true;
  am_member : agent_run_membership_is_current (identity h') (rf_membership f) wid user = true }.

Lemma insert_run_request id f grant h f' h' : insert_run versions id f grant h = Ok (f', h') -> rf_prompt f' = rf_prompt f /\ rf_model f' = rf_model f.
Proof. intros H. unfold insert_run in H. by walk H. Qed.
Lemma create_authorization_member ps h id f session aid refs image h' :
  create_agent_run_authorization versions signing_key sandbox ps h id f session aid refs image = Ok h' ->
  agent_run_membership_is_current (identity h) (rf_membership f) (r_workspace (rf_life f)) (ri_user (rf_identity f)) = true.
Proof. intros H. unfold create_agent_run_authorization in H. walk H. by res_inv. Qed.

Lemma commit_accepted ps h user wid sid grant_id pp ids locked now receipt h' :
  commit ps h user wid sid grant_id pp ids locked now = (Ok (inr receipt), h') ->
  exists f s au, accepted_message h' user wid pp ids receipt f s au.
Proof.
  intros [(r1 & E & Hr1)|(e & cleaned & st & _ & _ & _ & H)]%message_commit_cases; [injection Hr1 as <-|].
  2:{ unfold refused_answer in H. by repeat case_match. }
  unfold message_transaction in E. walk E; unlift.
  match goal with Ha : accept_run _ _ _ _ _ _ _ _ _ _ _ ?t _ _ = Ok _ |- _ => destruct t as [[[sid' f] a] refs]; unfold accept_run in Ha; walk Ha end. unlift. cbn.
  match goal with Hr : insert_run _ _ _ _ _ = Ok (?f', _) |- _ => rename f' into run;
    destruct (insert_run_ok _ _ _ _ _ _ _ Hr) as (_ & -> & EL & EI & _); apply insert_run_request in Hr as [EP EM] end.
  match goal with Hr : create_agent_run_authorization _ _ _ _ _ _ _ _ _ _ _ = Ok _ |- _ =>
    pose proof (create_authorization_member _ _ _ _ _ _ _ _ _ Hr) as Hm; apply create_authorization_ok in Hr as (au & -> & Hd & Hv & Hb) end.
  match goal with Hv : save_session _ _ _ = Ok _ |- _ => unfold save_session in Hv; walk Hv end.
  match goal with Ho : accept_operation _ _ _ _ _ _ _ _ _ _ = Ok ?x |- _ => destruct x as [rr rs]; apply accept_operation_ok in Ho as (-> & Hrs & _) end.
  exists run, (titled (pp_prompt pp) now f), au. rewrite EL, EI in Hm. constructor; cbn in *; try done.
  - by rewrite Hrs, lookup_insert_eq.
  - by rewrite lookup_insert_eq.
  - by rewrite EL, EI.
  - by rewrite lookup_insert_eq.
  - by rewrite lookup_insert_eq.
Qed.

(** ** Theorems *)

(** (C1) Whatever requests, lifecycle reports and runtime events interleave, from a deployment without runs every
    session has at most one queued or running run, and such a run's agent exists and is not deleted. *)
Theorem one_active_run_per_session h h' :
  unused lim h -> rtc hstep h h' ->
  (forall sid, zlen (active_runs h' sid) <= 1) /\
  (forall k f, h_runs h' !! k = Some f -> run_active f = true ->
     exists s a, h_sessions h' !! r_session (rf_life f) = Some s /\ h_agents h' !! se_agent (sf_row s) = Some a /\ a_status (af_row a) = Active).
Proof.
  intros Hn Hs. pose proof (hosted_steps_inv _ _ _ _ _ _ _ _ _ _ (unused_inv _ _ Hn) Hs) as Hi. split.
  - intros sid. destruct (active_runs h' sid) as [|[k f] l] eqn:E; [done|]. change 1 with (zlen [k]). unfold active_runs in E. rewrite <- E.
    assert ((k, f) ∈ active_runs h' sid) as [Hk Hf]%elem_of_qs_list by (unfold active_runs; rewrite E; by left). bool_inv.
    apply qs_count_keys. intros k' f' Hk' Hf'. bool_inv. apply list_elem_of_singleton. eapply (hi_one_active _ _ Hi); eauto. congruence.
  - apply (hi_housed _ _ Hi).
Qed.

(** (C29) The runs that wait for execution never exceed the limit of their workspace or the global limit: admission is
    checked in the transaction that adds a run, and nothing else makes a run wait. *)
Theorem queue_stays_within_limits h h' wid :
  unused lim h -> rtc hstep h h' ->
  count_runs (waiting_in wid) h' <= EXECUTION_TENANT_QUEUE_LIMIT lim /\ count_runs waiting h' <= EXECUTION_GLOBAL_QUEUE_LIMIT lim.
Proof. intros Hn Hs. destruct (hosted_steps_inv _ _ _ _ _ _ _ _ _ _ (unused_inv _ _ Hn) Hs). auto. Qed.

(** a receipt of the scope decides what [replay_operation] may answer *)
Lemma replay_of_receipt h key receipt digest grant user wid command op :
  conflict_free same_scope (h_receipts h) -> h_receipts h !! key = Some receipt ->
  rc_user receipt = user -> rc_workspace receipt = wid -> rc_command receipt = command -> rc_operation receipt = op ->
  forall r, replay_operation (identity h) (operation_resources h) user wid command op digest grant = Ok r -> r = Some receipt.
Proof.
  intros Hc Hk <- <- <- <- r H. unfold replay_operation in H. rewrite (qs_first_unique _ _ key receipt) in H; [|done|by apply receipt_scope_true|].
  2:{ intros k' r' Hk' (? & ? & ? & ?)%receipt_scope_true. eapply Hc; [exact Hk'|exact Hk|]. by unfold same_scope. }
  cbn in H. walk H. done.
Qed.

(** under a receipt of its scope a submission ends before anything is written *)
Lemma request_authority_receipt h key receipt user wid sid grant_id p uploads digest now a :
  conflict_free same_scope (h_receipts h) -> h_receipts h !! key = Some receipt ->
  rc_user receipt = user -> rc_workspace receipt = wid -> rc_command receipt = "submitMessage" -> rc_operation receipt = mr_operation p ->
  request_authority h user wid sid grant_id p uploads digest now = Ok a -> a.1 = Some receipt.
Proof.
  intros Hc Hk Hu Hw Hcm Ho H. unfold request_authority in H. walk H;
    match goal with Hx : replay_operation _ _ _ _ _ _ _ _ = Ok _ |- _ => eapply (replay_of_receipt _ _ receipt) in Hx; [|exact Hc|exact Hk|done..] end; by simplify_eq.
Qed.
Lemma transaction_receipt ps h key receipt user wid sid grant_id pp ids locked now :
  conflict_free same_scope (h_receipts h) -> h_receipts h !! key = Some receipt ->
  rc_user receipt = user -> rc_workspace receipt = wid -> rc_command receipt = "submitMessage" -> rc_operation receipt = mr_operation (pp_request pp) ->
  exists e, message_transaction versions lim signing_key sandbox ps h user wid sid grant_id pp ids locked now = Err e /\
    forall receipt', e = AcceptedOperationReplay receipt' -> receipt' = receipt.
Proof.
  intros Hc Hk Hu Hw Hcm Ho. unfold message_transaction. destruct (elift _) as [[[mid m]|]|e] eqn:Em; cbn; [|by eexists|].
  - destruct (xlift _) as [[[r|] g]|e] eqn:Ea; cbn.
    + apply xlift_Ok in Ea. eapply request_authority_receipt in Ea; [|done..]. cbn in Ea. simplify_eq. eexists. split; [done|]. congruence.
    + apply xlift_Ok in Ea. by eapply request_authority_receipt in Ea.
    + eexists. split; [done|]. intros ? ->. unfold xlift, mlift, catch in Ea. by case_match.
  - eexists. split; [done|]. intros ? ->. unfold elift, mlift, catch in Em. by case_match.
Qed.

(** session and agent of an operation are the user's, in the workspace *)
Definition operation_owned (user : Z) (wid : pystr) (s : session_full) (a : agent_full) : bool :=
  bool_decide (se_workspace (sf_row s) = wid) && (se_owner (sf_row s) =? user)
  && ((a_owner (af_row a) =? user) && bool_decide (a_workspace (af_row a) = wid)).
(** what a repetition of an accepted operation is answered, by the state of its session and agent and the digest of the request *)
Definition repeated_answer (receipt : receipt_row) (digest : pystr) (s : session_full) (a : agent_full) : message_response :=
  if negb (bool_decide (se_status (sf_row s) = Active) && bool_decide (a_status (af_row a) = Active)) then merror 410 "operation_resource_unavailable"
  else if bool_decide (rc_digest receipt = digest) then Plain (HStatus 202 (HReceipt receipt))
  else merror 409 "operation_conflict".

(** a repetition of an accepted operation with the user's own session *)
Lemma repeated_replay h key receipt user wid digest s a :
  hosted_inv lim h -> h_receipts h !! key = Some receipt -> rc_user receipt = user -> rc_workspace receipt = wid -> rc_command receipt = "submitMessage" ->
  h_sessions h !! rc_session receipt = Some s -> h_agents h !! se_agent (sf_row s) = Some a -> operation_owned user wid s a = true ->
  replay_operation (identity h) (operation_resources h) user wid "submitMessage" (rc_operation receipt) (Some digest) None =
    if negb (bool_decide (se_status (sf_row s) = Active) && bool_decide (a_status (af_row a) = Active))
    then Err (HostedOperationError 410 "operation_resource_unavailable")
    else if bool_decide (rc_digest receipt = digest) then Ok (Some receipt) else Err (HostedOperationError 409 "operation_conflict").
Proof.
  intros Hi Hk <- <- Hcm Hs Ha Ho. unfold replay_operation. rewrite (qs_first_unique _ _ key receipt); [|done|by apply receipt_scope_true|].
  2:{ intros k' r' Hk' (? & ? & ? & ?)%receipt_scope_true. eapply (hi_receipts _ _ Hi); [exact Hk'|exact Hk|]. unfold same_scope. by rewrite Hcm. }
  cbn [identity sessions agents]. rewrite lookup_fmap, Hs. cbn [fmap option_fmap option_map]. rewrite lookup_fmap, Ha. cbn [fmap option_fmap option_map].
  unfold operation_owned in Ho. rewrite Ho. cbn [require mbind res_bind].
  destruct (bool_decide (se_status _ = Active) && bool_decide (a_status _ = Active)); cbn [negb require mbind res_bind]; [|done].
  assert (match rc_run receipt with
          | Some run_id => match res_runs (operation_resources h) !! run_id with
                           | Some run => bool_decide (Some (ri_turn run) = rc_turn receipt) && bool_decide (ri_session run = rc_session receipt)
                                         && (ri_user run =? rc_user receipt) && bool_decide (ri_workspace run = rc_workspace receipt)
                           | None => false
                           end
          | None => true
          end = true) as ->; [|cbn [require mbind res_bind]; destruct (bool_decide (rc_digest receipt = digest)); reflexivity].
  destruct (rc_run receipt) as [run_id|] eqn:Er; [|done]. destruct (hi_backed _ _ Hi _ _ Hk) as [_ Hb].
  destruct (Hb _ Er) as (f & Hf & Hse & Ht & Hu & Hw). destruct (hi_identity _ _ Hi _ _ Hf) as (Hiw & His & _).
  cbn. rewrite lookup_fmap, Hf. cbn. rewrite His, Hiw, Hse, Hw, Hu, Ht. rewrite Z.eqb_refl. by rewrite !bool_decide_eq_true_2.
Qed.
Lemma delete_batch_clean stored : (forall md, md ∈ stored -> undeletable (md_key md) = false) -> forall st, (delete_batch stored false st).1 = false.
Proof.
  intros H. induction stored as [|md stored IH]; intros st; [done|]. cbn. pose proof (delete_gc_files (md_key md) st) as Hd.
  destruct (delete_stored_object_for_gc _ _); [apply IH; intros; apply H; by right|]. rewrite H in Hd by (by left). done.
Qed.
Lemma repeated_commit ps h key receipt user wid sid pp ids locked now s a member :
  hosted_inv lim h -> h_receipts h !! key = Some receipt -> rc_user receipt = user -> rc_workspace receipt = wid -> rc_command receipt = "submitMessage" ->
  rc_operation receipt = mr_operation (pp_request pp) -> locked_member h user wid = Ok (Some member) ->
  h_sessions h !! rc_session receipt = Some s -> h_agents h !! se_agent (sf_row s) = Some a -> operation_owned user wid s a = true ->
  (forall md, md ∈ pp_stored pp -> undeletable (md_key md) = false) ->
  (commit ps h user wid sid None pp ids locked now).1 = Ok (inl (repeated_answer receipt (pp_digest pp) s a)).
Proof.
  intros Hi Hk Hu Hw Hc Hop Hm Hs Ha Ho Hd. unfold message_commit, message_transaction. rewrite Hm. destruct member as [mid m]. cbn.
  unfold request_authority. cbn. rewrite <- Hop, (repeated_replay h key receipt user wid (pp_digest pp) s a) by done.
  unfold repeated_answer, after_cleanup, _delete_stored_upload_batch. pose proof (delete_batch_clean _ Hd (h_store h)) as Hb.
  destruct (negb _); [|case_bool_decide]; cbn; destruct (delete_batch _ _ _) as [failed st]; cbn in *; by rewrite Hb.
Qed.


(** ** Uploads *)

Lemma target_shape h user wid sid p uploads x : message_target models h user wid sid p uploads = inr x -> message_shape_error sid p uploads = None.
Proof. unfold message_target. intros H. by repeat case_match. Qed.
Lemma prepare_stored ps h user wid sid grant_id body profile uuids now pp h' :
  message_prepare versions models available_name ps h user wid sid grant_id body profile uuids now = (Ok (inr pp), h') ->
  is_new sid = false -> pp_stored pp = [].
Proof.
  intros H Hn. unfold message_prepare in H. destruct (message_checks _ _ _ _ _ _ _ _ _ _ _) as [[|[[[[p uploads] digest] thinking] image]]|] eqn:E; try done.
  assert (uploads = []) as ->; [|by simplify_eq]. unfold message_checks in E. walk E; eauto using shape_uploads, target_shape.
Qed.


(** (C26) The run of an accepted message waits in its session under a signed authorization: the stored payload is valid,
    has the stored digest and a signature that verifies, binds run, workspace, session, user, agent and model, and
    the membership it was accepted under is current, which is what later requests of the runtime check. *)
Theorem accepted_run_is_authorized ps h user wid sid grant_id pp ids locked now receipt h' :
  commit ps h user wid sid grant_id pp ids locked now = (Ok (inr receipt), h') ->
  exists f s au,
    rc_run receipt = Some (fi_run ids) /\ h_runs h' !! fi_run ids = Some f /\ h_authorizations h' !! fi_run ids = Some au /\
    h_sessions h' !! r_session (rf_life f) = Some s /\ r_status (rf_life f) = Queued /\ rf_prompt f = pp_prompt pp /\
    verify_authorization signing_key au (au_digest au) = Ok tt /\
    agent_run_binding_matches (au_payload au) (fi_run ids) (bound_run f) (se_agent (sf_row s)) = true /\
    agent_run_membership_is_current (identity h') (rf_membership f) (r_workspace (rf_life f)) (ri_user (rf_identity f)) = true.
Proof.
  intros H. destruct (commit_accepted _ _ _ _ _ _ _ _ _ _ _ _ H) as (f & s & au & [Hr _ [Hrun Hf] (Hl & Hu & Hp & Hm) Hs Ha Hd Hv Hb Hmem]).
  exists f, s, au. rewrite Hl, Hu. cbn. split_and!; try done.
  - unfold verify_authorization. rewrite Hd. cbn. rewrite bool_decide_eq_true_2 by done. cbn.
    unfold verify_agent_run_authorization_signature in Hv. destruct (require _ _); cbn in Hv; [|done]. rewrite Hd in Hv. cbn in Hv.
    by destruct (_verify_authorization_digest_signature _ _ _) as [[]|].
  - unfold authorization_bound in Hb. unfold agent_run_binding_matches, bound_run. cbn. rewrite Hl, Hu in *. cbn in *. bool_inv.
    repeat match goal with Hx : is_str _ _ = true |- _ => rewrite Hx end. done.
Qed.
End hosted.

(** ** A submission, evaluated *)

Definition empty_catalog : value :=
  match activation_of [] with Ok v => v | Err _ => VNone end.
Definition sample_root : plugin_root :=
  PluginRoot (fun path => if bool_decide (path = ["catalog.snapshot.json"]) then utf8_encode (json_dumps empty_catalog) else None) (fun _ => false)
    (fun _ => PathMissing).
Definition sample_plugins : plugin_state := PluginState sample_root ∅.
Definition sample_limits : limits := Limits 1 2.
Definition sample_models : gmap pystr model_row := {["model-1" := ModelRow true true "" ["deep"]]}.
Definition sample_sandbox : Z * Z * Z * Z := (1000, 500, 64, 1000000000).
Definition sample_image : pystr := sha256_tag [].
Definition same_name (_ : files_t) (key : pystr) : pystr := key.
Definition members_db : db :=
  Db {[7 := User "ada" "ada@x" "Ada" "" true]} {["ws-1" := Workspace "team" WorkspaceActive]} {["m-7" := Membership "ws-1" 7 Member None 0]} ∅ ∅ ∅ ∅ ∅ ∅ ∅ ∅ ∅ ∅ ∅.
Definition sample_agent : agent_full := AgentFull (Agent "ws-1" 7 None "Helper" "" "" Active 0) "centaeris" None None None.
Definition quiet : hosted :=
  Hosted members_db {["agent-1" := sample_agent]} ∅ ∅ ∅ ∅ ∅ ∅ ∅ ∅ ∅ ∅ ∅ (Assets.Store ∅ ∅ ∅ ∅ ∅ ∅).
Definition sample_message (text : pystr) : message_body :=
  JsonBody (Some (json_dumps (VDict [("operationId", VStr "op-1"); ("text", VStr text); ("agentId", VStr "agent-1"); ("modelConfigRef", VStr "model-1")]))).
Definition sample_ids (n : pystr) : fresh_ids :=
  FreshIds ["session-" +:+ n] (fun _ => "object-" +:+ n) (fun _ => "link-" +:+ n) (fun _ => "asset-" +:+ n) ("run-" +:+ n) ("turn-" +:+ n) ("auth-" +:+ n) (zlen (code_points n)).
#[local] Existing Instance ascii_platform.
Local Abbreviation sample_prepare h body :=
  (message_prepare ∅ sample_models same_name sample_plugins h 7 "ws-1" "new" None body (Some sample_image) (fun _ => "dir" : pystr) 5).
Local Abbreviation sample_commit h pp n :=
  (message_commit ∅ sample_limits "key" sample_sandbox sample_plugins h 7 "ws-1" "new" None pp (sample_ids n) true 6).
Definition sample_prepared_message : prepared :=
  match (sample_prepare quiet (sample_message " hello ")).1 with Ok (inr pp) => pp | _ => Prepared (MessageRequest "" "" None None "" None [] None) "" [] "" "" "" [] end.
Definition after_first : hosted := (sample_commit quiet sample_prepared_message "1").2.
Definition first_receipt : receipt_row :=
  Receipt 7 "ws-1" "submitMessage" "op-1" (pp_digest sample_prepared_message) "session-1" (Some "run-1") (Some "turn-1") None None.
Definition no_citations : pystr -> option Z -> gmap pystr citation_row := fun _ _ => ∅.

Lemma sample_accepted : (sample_commit quiet sample_prepared_message "1").1 = Ok (inr first_receipt).
Proof. vm_compute. reflexivity. Qed.
Lemma sample_commit_eq : sample_commit quiet sample_prepared_message "1" = (Ok (inr first_receipt), after_first).
Proof. unfold after_first. rewrite <- sample_accepted. apply surjective_pairing. Qed.
Lemma quiet_unused : unused sample_limits quiet.
Proof. by_decide. Qed.
Lemma sample_reached : rtc (hosted_step no_citations 60 sample_limits ∅ sample_models "key" sample_sandbox same_name) quiet after_first.
Proof. apply rtc_once. eapply hs_message_commit. exact sample_commit_eq. Qed.

Lemma one_active_run_per_session_witness :
  zlen (active_runs after_first "session-1") = 1 /\ forall sid, zlen (active_runs after_first sid) <= 1.
Proof.
  split; [vm_compute; reflexivity|].
  exact (proj1 (one_active_run_per_session no_citations 60 sample_limits ∅ sample_models "key" sample_sandbox same_name quiet after_first quiet_unused sample_reached)).
Defined.
Lemma queue_stays_within_limits_witness :
  count_runs (waiting_in "ws-1") after_first = 1 /\ count_runs (waiting_in "ws-1") after_first <= 1 /\ count_runs waiting after_first <= 2.
Proof.
  split; [vm_compute; reflexivity|].
  exact (queue_stays_within_limits no_citations 60 sample_limits ∅ sample_models "key" sample_sandbox same_name quiet after_first "ws-1" quiet_unused sample_reached).
Defined.
Lemma sample_replay : sample_commit after_first sample_prepared_message "22" = ((sample_commit after_first sample_prepared_message "22").1, (sample_commit after_first sample_prepared_message "22").2).
Proof. apply surjective_pairing. Qed.
Lemma accepted_run_is_authorized_witness : exists f, h_runs after_first !! "run-1" = Some f /\ r_status (rf_life f) = Queued /\ rf_prompt f = "hello".
Proof.
  destruct (accepted_run_is_authorized sample_limits ∅ "key" sample_sandbox sample_plugins quiet 7 "ws-1" "new" None sample_prepared_message (sample_ids "1") true 6
    first_receipt after_first sample_commit_eq) as (f & s & au & _ & Hf & _ & _ & Hq & Hp & _).
  exists f. split; [exact Hf|]. split; [exact Hq|]. rewrite Hp. vm_compute. reflexivity.
Defined.

(** a second submission with a file, refused because the queue of the workspace is full *)
Definition upload_message : message_body :=
  FormBody [UploadFile "a.txt" "text/plain" [104; 105]] ["files"] [("operationId", "op-2"); ("text", "read this"); ("modelConfigRef", "model-1"); ("agentId", "agent-1")].
Definition with_upload : hosted := (sample_prepare after_first upload_message).2.
Definition upload_prepared : prepared :=
  match (sample_prepare after_first upload_message).1 with Ok (inr pp) => pp | _ => sample_prepared_message end.
Lemma upload_prepared_ok : (sample_prepare after_first upload_message).1 = Ok (inr upload_prepared).
Proof. vm_compute. reflexivity. Qed.
Lemma upload_prepared_eq : sample_prepare after_first upload_message = (Ok (inr upload_prepared), with_upload).
Proof. unfold with_upload. rewrite <- upload_prepared_ok. apply surjective_pairing. Qed.
Lemma upload_refused_ok : (sample_commit with_upload upload_prepared "22").1 = Ok (inl (RetryAfter 5 429 "workspace_execution_queue_full")).
Proof. vm_compute. reflexivity. Qed.
Lemma upload_refused_eq : sample_commit with_upload upload_prepared "22" =
  (Ok (inl (RetryAfter 5 429 "workspace_execution_queue_full")), (sample_commit with_upload upload_prepared "22").2).
Proof. rewrite <- upload_refused_ok. apply surjective_pairing. Qed.
Lemma upload_key_stored : ("users/7/library/dir/a.txt" : pystr) ∈ map md_key (pp_stored upload_prepared).
Proof. by_decide. Qed.
Lemma upload_was_stored : files (h_store with_upload) !! ("users/7/library/dir/a.txt" : pystr) = Some ([104; 105], 5).
Proof. vm_compute. reflexivity. Qed.
Lemma upload_not_accepted (receipt : receipt_row) :
  (Ok (inl (RetryAfter 5 429 "workspace_execution_queue_full")) : res mexn (message_response + receipt_row)) <> Ok (inr receipt).
Proof. discriminate. Qed.
