(* ===== verification/InputsProps.v ===== *)
(** * Inputs: what a run may read

    Resolutions with a cache of verified authorizations agree with resolutions without one, a resolved input is one
    the run's user may still read and that has not changed since it was declared, and the names inputs get in the
    sandbox are distinct, safe and short. *)

From stdpp Require Import base tactics list gmap numbers sorting.
From S2P Require Import Prelude PyStr Table Utf8 Sha256 Platform Schema Access AgentIdentity Delegation Lifecycle PyValue Json Contract ContractProps Snapshot WorkspaceCommit WorkspaceCommitProps Assets Library Sources ResourceGc Plugins Hosted Sessions Inputs Messages HostedProps.

Section inputs.
Context {PL : Platform} (signing_key : pystr) (same : proof -> proof -> bool).
(** Python's [==] on the tuples: equal proofs are the same proof *)
Hypothesis same_sound : forall p q, same p q = true -> p = q.

(** what the cache holds has been verified *)
Definition cache_ok (expected : pystr) (verified : option proof) : Prop :=
  forall payload digest signature key exp, verified = Some (payload, digest, signature, key, exp) ->
    verify_authorization signing_key (Authorization payload digest signature) expected = Ok tt.

Lemma cached_verify_uncached au expected verified : cache_ok expected verified ->
  match verify_authorization signing_key au expected with
  | Ok _ => exists cache, cached_verify signing_key same au expected (Some verified) = Ok (Some cache) /\ cache_ok expected cache
  | Err e => cached_verify signing_key same au expected (Some verified) = Err e
  end.
Proof.
  intros Hc. assert (Hnew : verify_authorization signing_key au expected = Ok tt ->
    cache_ok expected (Some (au_payload au, au_digest au, au_signature au, signing_key, expected))).
  { intros Hv payload digest signature key exp [= <- <- <- <- <-]. by destruct au. }
  unfold cached_verify. destruct verified as [q|].
  - destruct (same q _) eqn:Hs.
    + apply same_sound in Hs as ->. pose proof (Hc _ _ _ _ _ eq_refl) as Hv. assert (verify_authorization signing_key au expected = Ok tt) as ->.
      { by destruct au. } eauto.
    + destruct (verify_authorization _ _ _) as [[]|e]; cbn; eauto.
  - destruct (verify_authorization _ _ _) as [[]|e]; cbn; eauto.
Qed.

Lemma current_input_cached h run_id f ref expected verified : cache_ok expected verified ->
  exists cache, _current_input signing_key same h run_id f ref expected (Some verified) =
    (resolved_input_storage signing_key same h run_id f ref expected, Some cache) /\ cache_ok expected cache.
Proof.
  intros Hc. unfold resolved_input_storage, _current_input. destruct (current_authorization h run_id f) as [au|e]; [|cbn; eauto].
  cbn [mbind res_bind].
  pose proof (cached_verify_uncached au expected verified Hc) as Hv. destruct (verify_authorization signing_key au expected) as [[]|e] eqn:E.
  - destruct Hv as (cache & -> & Hok). cbn. rewrite E. cbn. eauto.
  - rewrite Hv. cbn. rewrite E. cbn. eauto.
Qed.

(** One resolver's calls, which reuse the verification of an unchanged authorization, give exactly what separate
    calls give, call by call, however the tables change in between: only the signature check is saved. *)
Theorem batch_resolves_as_single_calls run_id expected calls :
  input_storage_batch signing_key same run_id expected None calls =
  map (fun c => resolved_input_storage signing_key same c.1.1 run_id c.1.2 c.2 expected) calls.
Proof.
  assert (cache_ok expected None) as Hc by (intros ?????; discriminate). revert Hc. generalize (None : option proof).
  induction calls as [|[[h f] ref] calls IH]; intros verified Hc; [done|]. cbn [input_storage_batch map].
  destruct (current_input_cached h run_id f ref expected verified Hc) as (cache & -> & Hok). cbn. f_equal. by apply IH.
Qed.

(** the user of a run may read the object *)
Definition readable (h : hosted) (user : Z) (sid : pystr) (o : owner) : Prop :=
  match o with
  | OwnSource _ r => so_status r = OReady /\ source_object_is_granted (source_view h) user r = Ok true
  | OwnLibrary _ r => lb_owner r = user /\ lb_status r = OReady
  | OwnArtifact _ r => ar_session r = sid /\ ar_status r = APublished
  end.
Lemma resolved_link_ok h user sid ref l path x : resolved_input_for_link h user sid ref l path = Ok x ->
  find_owner (h_store h) (al_owner_kind l) (al_owner_id l) = Some x.2 /\ link_captures l x.2 = true /\ readable h user sid x.2.
Proof.
  intros H. unfold resolved_input_for_link, _require_captured_identity in H. walk H; res_inv; bool_inv; try done.
  match goal with Hc : catch _ _ = Ok _ |- _ => unfold catch in Hc; case_match; simplify_eq end. done.
Qed.

(** (C15) An input resolves to stored bytes only if, at that moment, the run's membership is current, its signed
    authorization declares the input, the link still belongs to the run's session and user, and the object behind it
    is one this user may read, with the generation, size and digest that were declared; the bytes exist. *)
Theorem resolved_input_is_current h run_id f ref expected resolved key :
  resolved_input_storage signing_key same h run_id f ref expected = Ok (resolved, key) ->
  agent_run_membership_is_current (identity h) (rf_membership f) (r_workspace (rf_life f)) (ri_user (rf_identity f)) = true /\
  exists au l o, h_authorizations h !! run_id = Some au /\ verify_authorization signing_key au expected = Ok tt /\
    h_links h !! ref = Some l /\ al_session l = r_session (rf_life f) /\ al_attached_by l = ri_user (rf_identity f) /\
    find_owner (h_store h) (al_owner_kind l) (al_owner_id l) = Some o /\ link_captures l o = true /\
    (exists declared, declared ∈ asset_refs_of (au_payload au) /\ is_str ref (get "inputRef" declared) = true /\ input_matches l declared = true) /\
    o_storage_key o = key /\ is_Some (files (h_store h) !! key) /\
    readable h (ri_user (rf_identity f)) (r_session (rf_life f)) o.
Proof.
  intros H. unfold resolved_input_storage, _current_input in H.
  destruct (au ← current_authorization h run_id f; _) as [[au cache]|e] eqn:E in H; [|done]. cbn in H.
  unfold current_authorization in E. walk E. res_inv. split; [done|]. unfold current_resolution in H. walk H. res_inv. bool_inv.
  match goal with Hr : resolved_input_for_link _ _ _ _ _ _ = Ok ?x |- _ => apply resolved_link_ok in Hr as (Ho & Hl & Hrd); exists au, x4, x.2 end.
  match goal with Hf : List.find _ _ = Some _ |- _ => apply find_some in Hf as [Hin Hstr]; rewrite <- list_elem_of_In in Hin end.
  match goal with Hs : storage_exists _ _ = true |- _ => unfold storage_exists in Hs end. bool_inv. destruct x0. split_and!; eauto.
Qed.
End inputs.

(** ** Names in the sandbox *)

Lemma forallb_take {A} (p : A -> bool) n l : forallb p l = true -> forallb p (take n l) = true.
Proof. intros H. rewrite <- (take_drop n l), forallb_app in H. by apply andb_prop in H as [H _]. Qed.
Lemma forallb_drop {A} (p : A -> bool) n l : forallb p l = true -> forallb p (drop n l) = true.
Proof. intros H. rewrite <- (take_drop n l), forallb_app in H. by apply andb_prop in H as [_ H]. Qed.
Lemma drop_while_suffix p l : exists a, l = a ++ drop_while p l.
Proof. induction l as [|c l [a IH]]; cbn; [by exists []|]. destruct (p c); [exists (c :: a); cbn; by rewrite <- IH|by exists []]. Qed.
Lemma drop_while_head p l c l' : drop_while p l = c :: l' -> p c = false.
Proof. induction l as [|d l IH]; cbn; [done|]. destruct (p d) eqn:E; [done|]. by intros [= <- _]. Qed.

(** stripping leaves a slice that does not begin with a stripped character *)
Lemma strip_chars_spec p s : let t := code_points (strip_chars p s) in
  (exists a b, code_points s = a ++ t ++ b) /\ (forall c t', t = c :: t' -> p c = false).
Proof.
  cbn. set (m := drop_while p (code_points s)). destruct (drop_while_suffix p (code_points s)) as [a Ha].
  destruct (drop_while_suffix p (rev m)) as [b Hb]. apply (f_equal (@rev Z)) in Hb. rewrite rev_app_distr, rev_involutive in Hb. split.
  - exists a, (rev b). by rewrite <- Hb.
  - intros c t' E. rewrite E in Hb. eapply (drop_while_head p (code_points s)). exact Hb.
Qed.

Section names.
Context {PL : Platform}.

Lemma safe_underscore : safe_char 95 = true.
Proof. unfold safe_char. by rewrite word_char_ascii. Qed.
Lemma sub_runs_safe b l : forallb safe_char (sub_runs safe_char b l) = true.
Proof.
  revert b. induction l as [|c l IH]; intros b; [done|]. cbn. destruct (safe_char c) eqn:E; [cbn; by rewrite E, IH|].
  destruct b; [apply IH|]. cbn [forallb]. by rewrite safe_underscore, IH.
Qed.

Lemma safe_filename_spec value s : safe_filename value = Ok s ->
  chars_all safe_char s = true /\ exists c l, code_points s = c :: l /\ c <> 46.
Proof.
  intros H. unfold safe_filename in H. walk H. res_inv. bool_inv. destruct (strip_chars_spec (fun c => (c =? 46) || (c =? 95))
    (PyStr (sub_runs safe_char false (code_points (strip (nfc value)))))) as [(a & b & E) Hh]. split.
  - unfold chars_all. pose proof (sub_runs_safe false (code_points (strip (nfc value)))) as Hs. cbn [code_points] in E. rewrite E in Hs.
    rewrite !forallb_app, !andb_true_iff in Hs. by destruct Hs as (_ & Hs & _).
  - match goal with He : is_empty ?x = false |- _ => unfold is_empty in He; destruct (code_points x) as [|c l] eqn:El; [done|]; exists c, l end.
    split; [done|]. specialize (Hh _ _ El). bool_inv. done.
Qed.

Lemma shorten_spec budget rv st : shorten budget rv = Ok st ->
  (exists b, rev rv = st ++ b) /\ (st = [] \/ exists n, encoded_len (PyStr st) = Ok n /\ n <= budget).
Proof.
  revert st. induction rv as [|c rv IH]; intros st H; [cbn in H; simplify_eq; eauto|]. cbn [shorten] in H. apply bind_Ok in H as (n & Hn & H).
  destruct (budget <? n) eqn:E; bool_inv.
  - destruct (IH _ H) as [[b Hb] Hs]. split; [|done]. exists (b ++ [c]). cbn. by rewrite Hb, app_assoc.
  - simplify_eq. split; [exists []; by rewrite app_nil_r|eauto].
Qed.

Lemma splitext_spec s stem ext : splitext s = (stem, ext) -> code_points s = code_points stem ++ code_points ext.
Proof. unfold splitext. intros H. repeat case_match; simplify_eq; cbn; by rewrite ?app_nil_r, ?take_drop. Qed.

(** A name for the sandbox: safe characters, not hidden, at most 240 bytes. *)
Definition sandbox_name (s : pystr) : Prop :=
  chars_all safe_char s = true /\ s <> "." /\ s <> ".." /\ exists n, encoded_len s = Ok n /\ 0 < n <= 240.

Lemma encoded_len_app s t n m : encoded_len s = Ok n -> encoded_len t = Ok m -> encoded_len (s +:+ t) = Ok (n + m).
Proof.
  unfold encoded_len. destruct (utf8_encode s) as [bs|] eqn:Es, (utf8_encode t) as [bt|] eqn:Et; cbn; try done.
  intros [= <-] [= <-]. rewrite (utf8_encode_app _ _ _ _ Es Et). cbn. by rewrite zlen_app.
Qed.
Lemma encoded_len_nonneg s n : encoded_len s = Ok n -> 0 <= n.
Proof. unfold encoded_len. destruct (utf8_encode s); cbn; [|done]. intros [= <-]. apply zlen_nonneg. Qed.
Lemma encoded_len_pos s n c l : code_points s = c :: l -> encoded_len s = Ok n -> 0 < n.
Proof.
  unfold encoded_len, utf8_encode. intros ->. case_match; cbn; [|done]. intros [= <-]. unfold encode_cps. cbn. rewrite zlen_app.
  assert (0 < zlen (encode_cp c)); [|pose proof (zlen_nonneg (concat (map encode_cp l))); lia]. unfold encode_cp. repeat case_match; cbn; unfold zlen; cbn; lia.
Qed.

Lemma virtual_filename_spec name ref path : _virtual_filename name ref = Ok path -> sandbox_name path.
Proof.
  intros H. unfold _virtual_filename in H. apply bind_Ok in H as (filename & Hf & H). destruct (safe_filename_spec _ _ Hf) as [Hall (c & l & Hc & Hdot)].
  destruct (splitext filename) as [stem ext] eqn:Hse. apply splitext_spec in Hse.
  apply bind_Ok in H as (suffix & Hsuf & H). apply bind_Ok in H as (used & Hused & H). cbv zeta in H.
  apply bind_Ok in H as (st & Hst & H). res_inv. bool_inv. apply shorten_spec in Hst as [[b Hb] Hlen]. rewrite rev_involutive in Hb.
  assert (Hsafe : forallb safe_char (code_points suffix) = true).
  { destruct ref as [r|]; [|by simplify_eq]. destruct (is_empty r); [by simplify_eq|]. walk Hsuf.
    match goal with Hr : safe_filename r = Ok _ |- _ => destruct (safe_filename_spec _ _ Hr) as [Hr' _] end.
    cbn [code_points str_app]. cbn. by rewrite safe_underscore. }
  destruct st as [|d st]; [done|]. destruct Hlen as [?|(n & Hn & Hle)]; [done|].
  assert (d = c) as ->. { rewrite Hb in Hse. rewrite Hc in Hse. by injection Hse. }
  pose proof (encoded_len_app _ _ _ _ Hn Hused) as Hlen. unfold sandbox_name. split_and!.
  - unfold chars_all in *. rewrite Hse, Hb in Hall. cbn [code_points str_app]. cbn in *. rewrite !forallb_app in *. bool_inv.
    repeat match goal with Hx : _ = true |- _ => rewrite Hx end. done.
  - intros E. apply (f_equal code_points) in E. cbn in E. congruence.
  - intros E. apply (f_equal code_points) in E. cbn in E. congruence.
  - exists (n + used). split; [done|]. pose proof (encoded_len_nonneg _ _ Hused). pose proof (encoded_len_pos (PyStr (c :: st)) n c st eq_refl Hn). lia.
Qed.

Abbreviation named := (Forall (fun kp : pystr * pystr => sandbox_name kp.2)).

Lemma assoc_set_keys (k v : pystr) d : NoDup (map fst d) ->
  NoDup (map fst (assoc_set k v d)) /\ (forall x, x ∈ map fst (assoc_set k v d) <-> x = k \/ x ∈ map fst d).
Proof.
  induction d as [|[k' v'] d IH]; cbn; intros Hd.
  - split; [apply NoDup_singleton|]. intros x. rewrite list_elem_of_singleton, elem_of_nil. tauto.
  - apply NoDup_cons in Hd as [Hk' Hd]. case_bool_decide as E; cbn.
    + subst. split; [by apply NoDup_cons|]. intros x. rewrite elem_of_cons. tauto.
    + destruct (IH Hd) as [Hn Hx]. split; [apply NoDup_cons; rewrite Hx; naive_solver|]. intros x. rewrite !elem_of_cons, Hx. tauto.
Qed.
Lemma assoc_set_named k v d : sandbox_name v -> named d -> named (assoc_set k v d).
Proof. intros Hv Hd. induction Hd as [|[k' v'] d Hx Hd IH]; cbn; [apply Forall_singleton; done|]. case_bool_decide; by constructor. Qed.

Lemma candidates_spec declared acc out :
  for_each (fun candidates item => name ← _virtual_filename item.2 None; Ok (assoc_set item.1 name candidates)) declared acc = Ok out ->
  NoDup (map fst acc) -> named acc ->
  NoDup (map fst out) /\ named out /\ (forall x, x ∈ map fst out <-> x ∈ map fst acc \/ x ∈ map fst declared).
Proof.
  revert acc. induction declared as [|[ref name] declared IH]; intros acc H Hn Ha; cbn in H.
  - simplify_eq. split_and!; [done..|]. intros x. cbn. rewrite elem_of_nil. tauto.
  - apply bind_Ok in H as (acc' & Hx & H). apply bind_Ok in Hx as (path & Hp & Hx). simplify_eq. apply virtual_filename_spec in Hp.
    destruct (assoc_set_keys ref path acc Hn) as [Hn' Hk]. destruct (IH _ H Hn') as (H1 & H2 & H3); [by apply assoc_set_named|].
    split_and!; [done..|]. intros x. rewrite H3, Hk. cbn. rewrite elem_of_cons. tauto.
Qed.
Lemma allocation_spec (step : pystr * pystr -> res exn pystr) candidates acc out :
  (forall item path, item ∈ candidates -> step item = Ok path -> sandbox_name path) ->
  for_each (fun allocated item => let '(ref, candidate) := item in path ← step (ref, candidate); Ok (allocated ++ [(ref, path)])) candidates acc = Ok out ->
  named acc -> named out /\ map fst out = map fst acc ++ map fst candidates.
Proof.
  revert acc. induction candidates as [|[ref candidate] candidates IH]; intros acc Hs H Ha; cbn in H.
  - simplify_eq. by rewrite app_nil_r.
  - apply bind_Ok in H as (acc' & Hx & H). apply bind_Ok in Hx as (path & Hp & Hx). simplify_eq.
    destruct (IH (acc ++ [(ref, path)])) as [H1 H2]; [intros; eapply Hs; [by right|done]|done| |].
    + apply Forall_app. split; [done|]. constructor; [|done]. cbn. eapply Hs; [by left|done].
    + split; [done|]. rewrite H2, map_app, <- app_assoc. done.
Qed.

(** The inputs of a run get distinct names in the sandbox, compared without case: every declared input has one, made of
    safe characters only, neither "." nor "..", and at most 240 bytes long. *)
Theorem virtual_paths_are_distinct_and_safe declared allocated :
  allocated_virtual_paths declared = Ok allocated ->
  NoDup (map fst allocated) /\ (forall ref, ref ∈ map fst allocated <-> ref ∈ map fst declared) /\
  NoDup (map (fun p => str_casefold p.2) allocated) /\ Forall (fun p => sandbox_name p.2) allocated.
Proof.
  intros H. unfold allocated_virtual_paths, virtual_candidates in H. apply bind_Ok in H as (candidates & Hc & H).
  apply bind_Ok in H as (out & Ho & H). res_inv. bool_inv.
  destruct (candidates_spec _ _ _ Hc) as (Hn & Hnamed & Hk); [constructor|constructor|].
  destruct (allocation_spec (fun item => if colliding candidates item.2
    then display_name ← from_option_res DoesNotExist (assoc_first item.1 declared); _virtual_filename display_name (Some item.1) else Ok item.2)
    candidates [] allocated) as [Hall Hfst]; [|exact Ho|constructor|].
  - intros [ref candidate] path Hin Hs. cbn [fst snd] in Hs. destruct (colliding candidates candidate).
    + apply bind_Ok in Hs as (name & _ & Hs). by eapply virtual_filename_spec.
    + simplify_eq. rewrite Forall_forall in Hnamed. by apply (Hnamed (ref, path)).
  - rewrite Hfst. cbn. split_and!; [done| |done..]. intros ref. rewrite Hk. cbn. rewrite elem_of_nil. tauto.
Qed.
End names.

(** ** A file read back *)

#[local] Existing Instance ascii_platform.
Definition same_proof (p q : proof) : bool :=
  let '(a, b, c, d, e) := p in let '(a', b', c', d', e') := q in
  value_eqb a a' && bool_decide (b = b') && bool_decide (c = c') && bool_decide (d = d') && bool_decide (e = e').
Lemma same_proof_sound p q : same_proof p q = true -> p = q.
Proof.
  destruct p as [[[[a b] c] d] e], q as [[[[a' b'] c'] d'] e']. cbn. intros. bool_inv. subst.
  match goal with H : value_eqb _ _ = true |- _ => apply value_eqb_sound in H as -> end. done.
Qed.

(** the state after a message with an upload was accepted *)
Definition upload_ready : res mexn (message_response + prepared) * hosted :=
  message_prepare ∅ sample_models same_name sample_plugins quiet 7 "ws-1" "new" None upload_message (Some sample_image) (fun _ => "dir") 5.
Definition reading : hosted :=
  match upload_ready with
  | (Ok (inr pp), h) => (message_commit ∅ sample_limits "key" sample_sandbox sample_plugins h 7 "ws-1" "new" None pp (sample_ids "1") true 6).2
  | (_, h) => h
  end.
Definition reading_run : run_full :=
  default (RunFull (Run "" "" Failed "" None None None 0) (RunIdentity 0 "" "" "" None None) "" "" "" "" "" None None) (h_runs reading !! ("run-1" : pystr)).
Definition reading_digest : pystr := match h_authorizations reading !! ("run-1" : pystr) with Some au => au_digest au | None => "" end.
Local Abbreviation read_file := (resolved_input_storage "key" same_proof reading "run-1" reading_run "asset-1" reading_digest).
Definition read_value : value := match read_file with Ok (v, _) => v | Err _ => VNone end.
Lemma read_file_ok : read_file = Ok (read_value, "users/7/library/dir/a.txt").
Proof. vm_compute. reflexivity. Qed.
Lemma read_path : get "virtualPath" read_value = VStr "a.txt".
Proof. vm_compute. reflexivity. Qed.
Lemma resolved_input_is_current_witness :
  get "virtualPath" read_value = VStr "a.txt" /\
  agent_run_membership_is_current (identity reading) (rf_membership reading_run) (r_workspace (rf_life reading_run)) (ri_user (rf_identity reading_run)) = true.
Proof.
  split; [exact read_path|]. exact (proj1 (resolved_input_is_current "key" same_proof reading "run-1" reading_run "asset-1" reading_digest _ _ read_file_ok)).
Defined.
Lemma batch_resolves_as_single_calls_witness :
  input_storage_batch "key" same_proof "run-1" reading_digest None [(reading, reading_run, "asset-1" : pystr); (quiet, reading_run, "asset-1" : pystr)] =
  [read_file; resolved_input_storage "key" same_proof quiet "run-1" reading_run "asset-1" reading_digest].
Proof. exact (batch_resolves_as_single_calls "key" same_proof same_proof_sound "run-1" reading_digest [(reading, reading_run, "asset-1"); (quiet, reading_run, "asset-1")]). Defined.

Lemma sample_paths : allocated_virtual_paths [("in-1", "a.txt"); ("in-2", "A.TXT"); ("in-3", "b c.md")] =
  Ok [("in-1", "a_in-1.txt"); ("in-2", "A_in-2.TXT"); ("in-3", "b_c.md")].
Proof. vm_compute. reflexivity. Qed.
Lemma virtual_paths_are_distinct_and_safe_witness :
  NoDup (map (fun p : pystr * pystr => str_casefold p.2) [("in-1", "a_in-1.txt"); ("in-2", "A_in-2.TXT"); ("in-3", "b_c.md")]).
Proof. exact (proj1 (proj2 (proj2 (virtual_paths_are_distinct_and_safe _ _ sample_paths)))). Defined.
