(* ===== verification/RuntimeReplies.v ===== *)
(** * What the API accepts from the runtime service

    The requests of [packages/api/app_core/runtime_client.py]: which answers of the runtime each of them returns,
    and what it raises for the others.  The answer is an argument.  The structure of transcript pages is checked
    against schemas generated by the build with a library ([transcript_contract.py]): the two validators are
    parameters, and a value whose type the schema would have guaranteed raises [TypeError] where Python's
    operation on another type is not needed. *)

From stdpp Require Import base tactics list gmap numbers.
From S2P Require Import Prelude PyStr Utf8 PyValue Json Contract.

(** ** Answers and exceptions *)

(** The body is [None] when it is not JSON. *)
Inductive runtime_reply :=
| Reply (body : option value)
| HttpFailure (code : Z) (body : option value)
(** [URLError] *)
| NoReply.

Inductive rexn :=
| RRuntimeError (message : pystr)
(** [TranscriptRuntimeError], a [RuntimeError] with a payload *)
| RTranscript (payload : value)
| RValueError (message : pystr)
| RLookupError (message : pystr)
| RKeyError
| RTypeError
| RAttributeError
| RUnicodeEncodeError.

Abbreviation R A := (res rexn A).

(** [a and b] where the operands may raise *)
Definition and_then (a b : R bool) : R bool := x ← a; if (x : bool) then b else Ok false.
Definition or_else (a b : R bool) : R bool := x ← a; if (x : bool) then Ok true else b.
Infix "&&&" := and_then (at level 40, left associativity).
Infix "|||" := or_else (at level 50, left associativity).
Fixpoint all_of {A} (p : A -> R bool) (l : list A) : R bool :=
  match l with [] => Ok true | x :: l => p x &&& all_of p l end.

(** [v[k]] *)
Definition item (k : pystr) (v : value) : R value :=
  match v with VDict d => if has_key k v then Ok (dict_get k d) else Err RKeyError | _ => Err RTypeError end.
(** [v.get(k)] *)
Definition dget (k : pystr) (v : value) : R value :=
  match v with VDict d => Ok (dict_get k d) | _ => Err RAttributeError end.
(** [list(v)] *)
Definition items (v : value) : R (list value) := from_option_res RTypeError (as_list v).
(** [bool(v.strip())] *)
Definition stripped (v : value) : R bool :=
  s ← from_option_res RAttributeError (as_str v); Ok (negb (is_empty (strip s))).
(** [isinstance(v, str) and v.strip()] *)
Definition nonblank (v : value) : bool := match v with VStr s => negb (is_empty (strip s)) | _ => false end.
(** [len(s.encode())] *)
Definition encoded_len (s : pystr) : R Z := zlen <$> from_option_res RUnicodeEncodeError (utf8_encode s).
(** the [ensure_ascii] default of [json.dumps]: what is not printable ASCII is escaped, which happens in strings only *)
Definition u_escape (c : Z) : list Z :=
  [92; 117; hex_char (c / 4096); hex_char (c / 256 mod 16); hex_char (c / 16 mod 16); hex_char (c mod 16)].
Definition ascii_escape (c : Z) : list Z :=
  if (32 <=? c) && (c <=? 126) then [c]
  else if c <? 65536 then u_escape c
  else u_escape (55296 + (c - 65536) / 1024) ++ u_escape (56320 + (c - 65536) mod 1024).
Definition json_dumps_ascii (v : value) : pystr := PyStr (concat (map ascii_escape (code_points (json_dumps v)))).
(** [len(json.dumps(v, separators=(",", ":")).encode())]: the text is ASCII *)
Definition dumped_len (v : value) : Z := str_len (json_dumps_ascii v).
Example escaped_dump : json_dumps_ascii (VStr (PyStr [233; 128512])) = PyStr [34; 92; 117; 48; 48; 101; 57; 92; 117; 100; 56; 51; 100; 92; 117; 100; 101; 48; 48; 34].
Proof. vm_compute. reflexivity. Qed.
(** [a == b] of scalars; a [bool] is an [int] *)
Definition as_num (v : value) : option Z :=
  match v with VInt z => Some z | VBool b => Some (if b then 1 else 0) | _ => None end.
Definition py_eq (a b : value) : bool :=
  match as_num a, as_num b with
  | Some x, Some y => x =? y
  | None, None =>
      match a, b with
      | VNone, VNone => true
      | VStr s, VStr t => bool_decide (s = t)
      | VFloat s, VFloat t => bool_decide (s = t)
      | _, _ => false
      end
  | _, _ => false
  end.
(** [a.get(k) == b.get(k)] *)
Definition same_field (a b : value) (k : pystr) : bool := py_eq (get k a) (get k b).

(** ** Decimal numbers in text *)

Definition MAX_U64 : Z := 18446744073709551615.
(** [s.isascii() and s.isdigit()] and no leading zero, at most 20 digits, below 2^64 *)
Definition canonical_decimal (s : pystr) : bool :=
  chars_all is_ascii s && negb (is_empty s) && chars_all is_digit s
  && (bool_decide (s = "0") || negb (startswith s "0"))
  && (str_len s <=? 20) && (digits_value (code_points s) <=? MAX_U64).
Definition _canonical_decimal_u64 (v : value) : bool := match v with VStr s => canonical_decimal s | _ => false end.
(** [int(s)] of such a text *)
Definition decimal (s : pystr) : Z := digits_value (code_points s).
Definition decimal_of (v : value) : Z := decimal (text_of v).

(** ** Requests without a transcript *)

Definition json_reply (message : pystr) (reply : runtime_reply) : R value :=
  match reply with Reply (Some v) => Ok v | _ => Err (RRuntimeError message) end.
Definition is_dict (v : value) : bool := match v with VDict _ => true | _ => false end.

Definition request_execution_profile (reply : runtime_reply) : R value :=
  result ← json_reply "runtime_execution_profile_request_failed" reply;
  require (keys_are ["schema"; "imageCapability"; "imageDigest"] result
           && is_str "runtime.execution_profile.v1" (get "schema" result)
           && is_str "workspace_general_v1" (get "imageCapability" result)
           && match get "imageDigest" result with
              | VStr digest =>
                  (str_len digest =? 71) && startswith digest "sha256:" && chars_all is_lower_hex (str_drop 7 digest)
              | _ => false
              end)
    (RRuntimeError "runtime_execution_profile_response_invalid");;
  Ok result.

Definition request_model_catalog (reply : runtime_reply) : R value :=
  result ← json_reply "workspace_model_catalog_request_failed" reply;
  require (keys_are ["schema"; "catalog"] result && is_str "workspace.model_catalog.result.v1" (get "schema" result))
    (RRuntimeError "workspace_model_catalog_response_invalid");;
  let catalog := get "catalog" result in
  require (keys_are ["schema"; "providers"] catalog && is_str "centaeris.model_catalog.v1" (get "schema" catalog)
           && match get "providers" catalog with VList _ => true | _ => false end)
    (RRuntimeError "workspace_model_catalog_response_invalid");;
  Ok catalog.

(** [payload == {"error": message}], where [not_found_error] may be [None] *)
Definition is_error_body (message : option pystr) (body : option value) : bool :=
  match body with
  | Some v => keys_are ["error"] v && match message with Some m => is_str m (get "error" v) | None => is_none (get "error" v) end
  | None => false
  end.

Definition _request_workspace_projection (expected_fields : list pystr) (expected_schema : pystr) (not_found_error : option pystr)
    (reply : runtime_reply) : R value :=
  match reply with
  | HttpFailure code body =>
      if (code =? 404) && is_error_body not_found_error body then Err (RLookupError (default "None" not_found_error))
      else Err (RRuntimeError "workspace_runtime_projection_request_failed")
  | _ =>
      result ← json_reply "workspace_runtime_projection_request_failed" reply;
      require (keys_are expected_fields result && is_str expected_schema (get "schema" result))
        (RRuntimeError "workspace_runtime_projection_response_invalid");;
      Ok result
  end.
Definition request_workspace_skill_catalog : runtime_reply -> R value :=
  _request_workspace_projection ["schema"; "skills"] "workspace.skill.catalog.result.v1" None.
Definition request_workspace_skill_detail (skill_id : pystr) (reply : runtime_reply) : R value :=
  require (negb (is_empty (strip skill_id))) (RValueError "workspace_skill_id_invalid");;
  _request_workspace_projection ["schema"; "skill"; "content"] "workspace.skill.detail.result.v1" (Some "skill_not_found") reply.
Definition request_workspace_mcp_catalog : runtime_reply -> R value :=
  _request_workspace_projection ["schema"; "plugins"] "workspace.mcp.catalog.result.v1" None.
Definition request_workspace_hook_catalog : runtime_reply -> R value :=
  _request_workspace_projection ["schema"; "plugins"] "workspace.hook.catalog.result.v1" None.

Definition request_plugin_inspection (package_path : pystr) (reply : runtime_reply) : R value :=
  require (negb (is_empty package_path) && negb (startswith package_path "/") && negb (chars_any (Z.eqb 92) package_path)
           && negb (chars_any (Z.eqb 58) package_path) && forallb (negb ∘ dot_part) (path_parts package_path))
    (RValueError "plugin_inspection_path_invalid");;
  match reply with
  | HttpFailure code body =>
      if (code =? 400) && is_error_body (Some "plugin_package_invalid") body then Err (RValueError "plugin_package_invalid")
      else Err (RRuntimeError "plugin_inspection_request_failed")
  | _ =>
      result ← json_reply "plugin_inspection_request_failed" reply;
      require (keys_are ["schema"; "package"] result && is_str "workspace.plugin.inspect.result.v1" (get "schema" result)
               && is_dict (get "package" result))
        (RRuntimeError "plugin_inspection_response_invalid");;
      Ok (get "package" result)
  end.

(** [value in {"a", ...}] raises for an unhashable value. *)
Definition member_of_texts (ss : list pystr) (v : value) : R bool :=
  match v with VList _ | VDict _ => Err RTypeError | _ => Ok (str_in ss v) end.

Definition request_agent_run_cancellation (run_id : pystr) (reply : runtime_reply) : R value :=
  result ← json_reply "agent_run_cancel_request_failed" reply;
  valid ← Ok (keys_are ["schema"; "agentRunId"; "disposition"; "terminalState"] result)
          &&& Ok (is_str "runtime.agent_run.cancel.result.v1" (get "schema" result))
          &&& Ok (is_str run_id (get "agentRunId" result))
          &&& member_of_texts ["requested"; "terminal"] (get "disposition" result)
          &&& Ok (negb (is_str "requested" (get "disposition" result) && negb (is_none (get "terminalState" result))))
          &&& (if is_str "terminal" (get "disposition" result)
               then member_of_texts ["completed"; "failed"; "cancelled"] (get "terminalState" result) else Ok true);
  require valid (RRuntimeError "agent_run_cancel_response_invalid");;
  Ok result.

Definition request_agent_run_supplement (run_id session_id supplement_id : pystr) (reply : runtime_reply) : R value :=
  match reply with
  | HttpFailure code body =>
      match body with
      | Some (VDict _ as payload) =>
          if (code =? 409) && keys_are ["error"] payload
             && match get "error" payload with VStr e => negb (is_empty e) | _ => false end
          then Err (RValueError (text_of (get "error" payload)))
          else Err (RRuntimeError "agent_run_supplement_request_failed")
      | _ => Err (RRuntimeError "agent_run_supplement_request_failed")
      end
  | _ =>
      result ← json_reply "agent_run_supplement_request_failed" reply;
      require (keys_are ["schema"; "accepted"; "disposition"; "agentRunId"; "sessionId"; "supplementId"; "queuedCount"; "queueRevision"] result
               && is_str "runtime.agent_run.supplement.result.v1" (get "schema" result)
               && bool_decide (as_bool (get "accepted" result) = Some true)
               && str_in ["accepted"; "duplicate"] (get "disposition" result)
               && is_str run_id (get "agentRunId" result) && is_str session_id (get "sessionId" result)
               && is_str supplement_id (get "supplementId" result)
               && int_where (fun n => (0 <=? n) && (n <=? 8)) (get "queuedCount" result)
               && int_where (fun n => 1 <=? n) (get "queueRevision" result))
        (RRuntimeError "agent_run_supplement_response_invalid");;
      Ok result
  end.

(** ** Transcript reads *)

Definition TRANSCRIPT_PAGE_MAX_BLOCKS : Z := 128.
Definition TRANSCRIPT_PAGE_MAX_INLINE_BYTES : Z := 64 * 1024.
Definition TRANSCRIPT_PAGE_MAX_SERIALIZED_BYTES : Z := 4 * TRANSCRIPT_PAGE_MAX_INLINE_BYTES.
Definition TRANSCRIPT_PATCH_PAGE_MAX_PATCHES : Z := TRANSCRIPT_PAGE_MAX_BLOCKS.
Definition TRANSCRIPT_PATCH_MAX_CHANGES : Z := TRANSCRIPT_PAGE_MAX_BLOCKS.
Definition TRANSCRIPT_PATCH_MAX_SERIALIZED_BYTES : Z := TRANSCRIPT_PAGE_MAX_SERIALIZED_BYTES.
Definition TRANSCRIPT_PATCH_PAGE_MAX_SERIALIZED_BYTES : Z := 2 * TRANSCRIPT_PATCH_MAX_SERIALIZED_BYTES.
Definition WORKSPACE_TRANSCRIPT_STREAM_ID : pystr := "workspace-transcript.v1".

Definition _valid_transcript_content_ref (reference : value) : R bool :=
  if is_none reference then Ok false
  else
    (ref_id ← item "refId" reference; stripped ref_id)
    &&& (v ← dget "revision" reference; Ok (_canonical_decimal_u64 v))
    &&& (v ← dget "byteLength" reference; Ok (_canonical_decimal_u64 v)).

(** [isinstance(v, str) and len(v.encode()) <= MAX], where [v] is not a string only if it is [None] *)
Definition inline_fits (v : value) : R bool :=
  match v with
  | VStr s => n ← encoded_len s; Ok (n <=? TRANSCRIPT_PAGE_MAX_INLINE_BYTES)
  | _ => Ok false
  end.
Definition is_text (v : value) : bool := match v with VStr _ => true | _ => false end.

Definition _valid_transcript_content (content : value) : R bool :=
  inline ← dget "inlineContent" content;
  reference ← dget "sourceRef" content;
  (Ok (is_text inline && is_none reference) &&& inline_fits inline)
  ||| (Ok (is_none inline) &&& _valid_transcript_content_ref reference).

Definition _transcript_block_order (block : value) : R (option (Z * Z)) :=
  order ← dget "orderKey" block;
  Ok (if keys_are ["sourceSequence"; "ordinal"] order && _canonical_decimal_u64 (get "sourceSequence" order)
         && int_where (fun n => (0 <=? n) && (n <=? 4294967295)) (get "ordinal" order)
      then Some (decimal_of (get "sourceSequence" order), int_of (get "ordinal" order)) else None).

Definition _transcript_inline_bytes (block : value) : R Z :=
  body ← item "body" block;
  kind ← item "kind" body;
  inline ← (if is_str "tool" kind then item "summary" body
            else content ← item "content" body; dget "inlineContent" content);
  match inline with VNone => Ok 0 | VStr s => encoded_len s | _ => Err RAttributeError end.

Section transcript.
(** [_ENVELOPES[name].is_valid(value)] and [_BLOCK.is_valid(value)] *)
Context (valid_transcript_structure : pystr -> value -> bool) (valid_transcript_block_structure : value -> bool).

Definition _valid_transcript_block (block : value) : R bool :=
  if negb (valid_transcript_block_structure block) then Ok false
  else
    Ok (nonblank (get "blockId" block) && _canonical_decimal_u64 (get "blockRevision" block))
    &&& (order ← _transcript_block_order block; Ok (bool_decide (is_Some order)))
    &&& (body ← dget "body" block;
         kind ← item "kind" body;
         if is_str "tool" kind then
           summary ← item "summary" body;
           summary_ref ← item "summaryRef" body;
           Ok (nonblank (get "callId" body) && nonblank (get "toolName" body))
           &&& ((inline_fits summary &&& Ok (is_none summary_ref))
                ||| (Ok (is_none summary) &&& _valid_transcript_content_ref summary_ref))
           &&& (output ← item "outputRef" body; Ok (is_none output) ||| _valid_transcript_content_ref output)
         else
           Ok (negb (is_str "reasoning" kind) || nonblank (get "requestId" body))
           &&& Ok (negb (is_str "notice" kind) || nonblank (get "noticeType" body))
           &&& (content ← dget "content" body; _valid_transcript_content content)).

(** [all(left < right for left, right in zip(orders, orders[1:]))] *)
Definition order_ltb (x y : Z * Z) : bool := (x.1 <? y.1) || ((x.1 =? y.1) && (x.2 <? y.2)).
Fixpoint increasing (orders : list (Z * Z)) : bool :=
  match orders with
  | x :: (y :: _) as rest => order_ltb x y && increasing rest
  | _ => true
  end.

Fixpoint collect {A B} (f : A -> R B) (l : list A) : R (list B) :=
  match l with [] => Ok [] | x :: l => y ← f x; ys ← collect f l; Ok (y :: ys) end.

Definition _valid_transcript_page_content (page : value) : R bool :=
  if TRANSCRIPT_PAGE_MAX_SERIALIZED_BYTES <? dumped_len page then Ok false
  else if negb (_canonical_decimal_u64 (get "sourceHighWater" page)) then Ok false
  else
    let high_water := decimal_of (get "sourceHighWater" page) in
    blocks ← items (get "blocks" page);
    Ok (zlen blocks <=? TRANSCRIPT_PAGE_MAX_BLOCKS) &&& all_of _valid_transcript_block blocks
    &&& (orders ← collect _transcript_block_order blocks;
         Ok (forallb (fun o => match o with Some o => o.1 <=? high_water | None => false end) orders && increasing (omap id orders))
         &&& (ids ← collect (item "blockId") blocks; Ok (bool_decide (NoDup (map text_of ids))))
         &&& (sizes ← collect _transcript_inline_bytes blocks; Ok (sum_by id sizes <=? TRANSCRIPT_PAGE_MAX_INLINE_BYTES)))
    &&& Ok (py_eq (get "hasOlder" page) (VBool (negb (is_none (get "olderCursor" page)))))
    &&& match get "resumeCursors" page with
        | VList [] => Ok (high_water =? 0)
        | VList [cursor] =>
            Ok (negb (high_water =? 0))
            &&& (v ← dget "streamId" cursor; Ok (is_str WORKSPACE_TRANSCRIPT_STREAM_ID v))
            &&& (v ← dget "cursor" cursor; Ok (_canonical_decimal_u64 v && (decimal_of v <=? high_water)))
        | VList _ => Ok false
        | _ => if high_water =? 0 then Ok false else Err RTypeError
        end.

Definition _valid_transcript_patch (patch page : value) : R bool :=
  if negb (is_dict patch) then Err RAttributeError
  else
    Ok (is_str "transcript.patch.v1" (get "schema" patch)
        && forallb (same_field patch page) ["sessionId"; "projectionVersion"; "projectionGeneration"]
        && is_str WORKSPACE_TRANSCRIPT_STREAM_ID (get "streamId" patch)
        && py_eq (get "appliedCursor" patch) (get "sourceHighWater" patch)
        && _canonical_decimal_u64 (get "sourceHighWater" patch)
        && (decimal_of (get "sourceHighWater" patch) <=? decimal_of (get "throughSourceHighWater" page)))
    &&& (upserts ← item "upserts" patch;
         upserts ← items upserts;
         removals ← item "removals" patch;
         removals ← items removals;
         Ok (zlen upserts + zlen removals <=? TRANSCRIPT_PATCH_MAX_CHANGES)
         &&& all_of _valid_transcript_block upserts
         &&& all_of (fun removal =>
               (block_id ← item "blockId" removal; stripped block_id)
               &&& (v ← dget "blockRevision" removal; Ok (_canonical_decimal_u64 v))) removals)
    &&& Ok (dumped_len patch <=? TRANSCRIPT_PATCH_MAX_SERIALIZED_BYTES).

(** The loop over the patches: [None] when one is invalid, otherwise the last water line. *)
Fixpoint patch_waters (page : value) (patches : list value) (previous : Z) : R (option Z) :=
  match patches with
  | [] => Ok (Some previous)
  | patch :: patches =>
      valid ← _valid_transcript_patch patch page;
      let water := decimal_of (get "sourceHighWater" patch) in
      if negb valid || (water <=? previous) then Ok None else patch_waters page patches water
  end.

Definition _valid_transcript_patch_content (page request : value) : R bool :=
  if TRANSCRIPT_PATCH_PAGE_MAX_SERIALIZED_BYTES <? dumped_len page then Ok false
  else
    let through := get "throughSourceHighWater" page in
    let next_water := get "nextSourceHighWater" page in
    let after := get "afterSourceHighWater" request in
    if negb (_canonical_decimal_u64 through && _canonical_decimal_u64 next_water && _canonical_decimal_u64 after
             && (decimal_of after <=? decimal_of next_water))
    then Ok false
    else
      patches ← items (get "patches" page);
      Ok (zlen patches <=? TRANSCRIPT_PATCH_PAGE_MAX_PATCHES)
      &&& (waters ← patch_waters page patches (decimal_of after); Ok (bool_decide (is_Some waters)))
      &&& Ok match list.last patches with
             | Some patch => py_eq next_water (get "sourceHighWater" patch)
             | None => py_eq next_water through && py_eq after through
             end
      &&& Ok (py_eq (VBool (decimal_of next_water <? decimal_of through)) (get "hasMore" page)).

Definition _validate_transcript_conflict (payload request_body : value) : option value :=
  if valid_transcript_structure "error" payload
     && str_in ["transcript_content_unavailable"; "transcript_view_invalidated"] (get "error" payload) then Some payload
  else if negb (valid_transcript_structure "projectionNotReady" payload && is_str "transcript_projection_not_ready" (get "error" payload))
  then None
  else
    let generation := get "projectionGeneration" payload in
    let requested := get "projectionGeneration" request_body in
    let source := get "sourceHighWater" payload in
    let projected := get "projectedHighWater" payload in
    if match generation with VStr g => negb (is_empty g) | _ => false end
       && (is_none requested || py_eq generation requested)
       && (py_eq source (get "sourceHighWater" request_body) || py_eq source (get "throughSourceHighWater" request_body))
       && _canonical_decimal_u64 source && _canonical_decimal_u64 projected && (decimal_of projected <? decimal_of source)
    then Some payload else None.

Definition _request_transcript_read (body : value) (reply : runtime_reply) : R value :=
  match reply with
  | HttpFailure code payload =>
      match payload with
      | Some (VDict _ as payload) =>
          match (if code =? 409 then _validate_transcript_conflict payload body else None) with
          | Some conflict => Err (RTranscript conflict)
          | None => Err (RRuntimeError "transcript_runtime_request_failed")
          end
      | _ => Err (RRuntimeError "transcript_runtime_request_failed")
      end
  | _ =>
      result ← json_reply "transcript_runtime_request_failed" reply;
      require (is_dict result) (RRuntimeError "transcript_runtime_response_invalid");;
      Ok result
  end.

Definition request_transcript_content (body : value) (reply : runtime_reply) : R value :=
  result ← _request_transcript_read body reply;
  require (valid_transcript_structure "content" result && is_str "transcript.content.range.v1" (get "schema" result)
           && forallb (same_field result body) ["sessionId"; "projectionVersion"; "projectionGeneration"; "refId"; "revision"; "byteLength"]
           && py_eq (get "startOffset" result) (get "offset" body)
           && _canonical_decimal_u64 (get "endOffset" result))
    (RRuntimeError "transcript_content_response_invalid");;
  let start := decimal_of (get "startOffset" result) in
  let end_ := decimal_of (get "endOffset" result) in
  let length := decimal_of (get "byteLength" result) in
  text ← item "content" result;
  text ← from_option_res RAttributeError (as_str text);
  valid ← Ok ((start <=? end_) && (end_ <=? length))
          &&& (n ← encoded_len text; Ok (end_ - start =? n))
          &&& Ok ((end_ - start <=? int_of (get "maxBytes" body)) && negb ((end_ =? start) && (end_ <? length)))
          &&& (more ← item "hasMore" result; Ok (py_eq more (VBool (end_ <? length))));
  require valid (RRuntimeError "transcript_content_response_invalid");;
  Ok result.

Definition request_transcript_page (body : value) (reply : runtime_reply) : R value :=
  result ← _request_transcript_read body reply;
  valid ← Ok (valid_transcript_structure "page" result && is_str "transcript.page.v1" (get "schema" result)
              && same_field result body "sessionId" && same_field result body "projectionVersion"
              && (is_none (get "projectionGeneration" body) || same_field result body "projectionGeneration")
              && same_field result body "sourceHighWater")
          &&& _valid_transcript_page_content result;
  require valid (RRuntimeError "transcript_page_response_invalid");;
  Ok result.

Definition request_transcript_patches (body : value) (reply : runtime_reply) : R value :=
  result ← _request_transcript_read body reply;
  valid ← Ok (valid_transcript_structure "patches" result && is_str "transcript.patch.page.v1" (get "schema" result)
              && forallb (same_field result body) ["sessionId"; "projectionVersion"; "projectionGeneration"; "throughSourceHighWater"])
          &&& _valid_transcript_patch_content result body;
  require valid (RRuntimeError "transcript_patch_response_invalid");;
  Ok result.
End transcript.
