(* ===== verification/Transcript.v ===== *)
(** * The transcript of a session

    The transcript endpoints of [packages/api/app_core/http/workspaces.py] and the reader of captured output of
    [packages/api/app_core/transcript_output.py]: pages and patches of the runtime's projection, ranges of long
    contents, the metadata of turns, the active run and the use of the context window.  Answers of the runtime are
    arguments. *)

From stdpp Require Import base tactics list gmap numbers sorting.
From S2P Require Import Prelude PyStr Table Utf8 Sha256 Platform Schema Access AgentIdentity Delegation Lifecycle PyValue Json Cursor RuntimeClient Contract Snapshot Assets Hosted Sessions RuntimeReplies.

(** ** Ranges of UTF-8 text *)

(** Decode as many code points as possible: the code points and the bytes that are left. *)
Fixpoint decode_prefix (fuel : nat) (l : bytes) : list Z * bytes :=
  match fuel with
  | O => ([], l)
  | S fuel => match decode_cp l with Some (c, l') => let '(cs, r) := decode_prefix fuel l' in (c :: cs, r) | None => ([], l) end
  end.
(** The second byte a sequence may have after its first. *)
Definition second_ok (b0 b1 : Z) : bool :=
  is_cont b1
  && (if b0 =? 224 then 160 <=? b1 else if b0 =? 237 then b1 <? 160 else if b0 =? 240 then 144 <=? b1
      else if b0 =? 244 then b1 <? 144 else true).
(** [error.reason == "unexpected end of data"]: the bytes the decoder stopped at begin a sequence that is well formed
    as far as it goes. *)
Definition unexpected_end (l : bytes) : bool :=
  match l with
  | [b0] => (194 <=? b0) && (b0 <? 245)
  | [b0; b1] => (224 <=? b0) && (b0 <? 245) && second_ok b0 b1
  | [b0; b1; b2] => (240 <=? b0) && (b0 <? 245) && second_ok b0 b1 && is_cont b2
  | _ => false
  end.

Definition TRANSCRIPT_CONTENT_RANGE_BYTES : Z := 64 * 1024.

(** [b[start:start + n]] for nonnegative bounds *)
Definition slice (start n : Z) (b : bytes) : bytes := take (Z.to_nat n) (drop (Z.to_nat start) b).

Definition trimmed (trim : nat) (encoded : bytes) : bytes := take (length encoded - trim) encoded.
Definition _decode_transcript_range (encoded : bytes) (offset : Z) : R (pystr * Z) :=
  let attempt := fun (trim : nat) (otherwise : R (pystr * Z)) =>
    let candidate := trimmed trim encoded in
    match utf8_decode candidate with Some content => Ok (content, offset + zlen candidate) | None => otherwise end in
  attempt 0%nat (attempt 1%nat (attempt 2%nat (attempt 3%nat (Err (RValueError "invalid range boundary"))))).

Definition _transcript_utf8_range (content : pystr) (offset : Z) : R (pystr * Z) :=
  encoded ← from_option_res RUnicodeEncodeError (utf8_encode content);
  require (offset <=? zlen encoded) (RValueError "transcript content offset exceeds byteLength");;
  _decode_transcript_range (slice offset TRANSCRIPT_CONTENT_RANGE_BYTES encoded) offset.

(** [range(first, last + 1)] *)
Definition z_range (first last : Z) : list Z := map (fun k => first + Z.of_nat k) (seq 0 (Z.to_nat (last - first + 1))).

Definition check_chunk (chunk_size byte_length : Z) (indexed : Z * (Z * (bytes * pystr))) : R bytes :=
  let '(index, (chunk_index, (data, digest))) := indexed in
  require ((chunk_index =? index) && (zlen data =? Z.min chunk_size (byte_length - index * chunk_size))
           && bool_decide (digest = sha256_tag data)) (RValueError "transcript capture chunk corrupt");;
  Ok data.

Definition read_output_range (captures : gmap pystr capture_row) (event_id : pystr) (offset byte_length : Z) : R (pystr * Z) :=
  let unavailable := RValueError "transcript capture unavailable" in
  capture ← from_option_res unavailable (captures !! event_id);
  require (bool_decide (cp_purged_at capture = None) && (cp_byte_length capture =? byte_length) && (cp_chunk_size capture =? 65536)
           && (0 <=? offset) && (offset <=? byte_length)) unavailable;;
  if offset =? byte_length then Ok ("", offset)
  else
    let end_ := Z.min (offset + 65536) byte_length in
    let first := offset / cp_chunk_size capture in
    let last := (end_ - 1) / cp_chunk_size capture in
    let chunks := omap (fun i => pair i <$> cp_chunks capture !! i) (z_range first last) in
    require (zlen chunks =? last - first + 1) (RValueError "transcript capture chunk missing");;
    parts ← collect (check_chunk (cp_chunk_size capture) byte_length) (zip (z_range first last) chunks);
    let data := slice (offset mod cp_chunk_size capture) (end_ - offset) (concat parts) in
    match utf8_decode data with
    | Some content => Ok (content, end_)
    | None =>
        let '(decoded, rest) := decode_prefix (length data) data in
        let start := zlen data - zlen rest in
        require (unexpected_end rest && negb (start =? 0) && negb (end_ =? byte_length))
          (RValueError "transcript capture UTF-8 boundary invalid");;
        Ok (PyStr decoded, offset + start)
    end.

(** ** Requests *)

Inductive tfail := THosted (e : hexn) | TRuntime (e : rexn) | TStream (e : exn) | TZeroDivision.
Definition tlift {A} (m : res exn A) : res tfail A := catch m (fun e => Err (THosted (HDelegation (Raised e)))).
(** status and JSON body *)
Abbreviation tanswer := (res tfail (Z * value)).
Definition terror (status : Z) (code : pystr) : Z * value := (status, VDict [("error", VStr code)]).

Definition _session_source_high_water (h : hosted) (sid : pystr) : Z :=
  foldr Z.max 0 (map (ev_sequence ∘ snd) (qs_list (fun e => bool_decide (ev_session e = sid)) (h_events h))).
Definition _canonical_waterline : pystr -> bool := canonical_decimal.
(** [not generation or len(generation) > 160] *)
Definition generation_ok (generation : pystr) : bool := negb (is_empty generation) && (str_len generation <=? 160).
Definition TRANSCRIPT_PROJECTION_VERSION : pystr := "transcript.projection.v1".
Definition optional_str (s : option pystr) : value := match s with Some s => VStr s | None => VNone end.
(** [request.GET[name]] of a field that is present *)
Definition q_text (name : pystr) (q : query) : pystr := default "" (q_get name q).

Section endpoints.
Context {PL : Platform}.
Context (valid_transcript_structure : pystr -> value -> bool) (valid_transcript_block_structure : value -> bool).
(** the runtime's answer to the body of a request *)
Context (runtime : value -> runtime_reply).
(** the member [payload] of the [payload] column of the events *)
Context (payloads : gmap pystr value).

Definition with_transcript_session (h : hosted) (user : Z) (sid : pystr) (k : session_full -> tanswer) : tanswer :=
  session ← tlift (_authorized_transcript_session h user sid);
  match session with None => Ok (terror 404 "session_not_found") | Some f => k f end.

(** [try: request except TranscriptRuntimeError / RuntimeError] *)
Definition runtime_answer (unavailable : pystr) (m : R value) : tanswer :=
  match m with
  | Ok v => Ok (200, v)
  | Err (RTranscript payload) => Ok (409, payload)
  | Err (RRuntimeError _) => Ok (terror 503 unavailable)
  | Err e => Err (TRuntime e)
  end.

Definition page_request (sid high_water : pystr) (generation older : option pystr) : value :=
  VDict [("schema", VStr "runtime.transcript.page.read.v1"); ("sessionId", VStr sid);
         ("projectionVersion", VStr TRANSCRIPT_PROJECTION_VERSION); ("projectionGeneration", optional_str generation);
         ("sourceHighWater", VStr high_water); ("olderCursor", optional_str older)].

Definition session_transcript (h : hosted) (user : Z) (sid : pystr) (q : query) : tanswer :=
  with_transcript_session h user sid (fun _ =>
    let request := fun body => runtime_answer "transcript_page_unavailable"
      (request_transcript_page valid_transcript_structure valid_transcript_block_structure body (runtime body)) in
    if negb (single_values q) then Ok (terror 400 "transcript_page_query_invalid")
    else if fields_equal [] q then request (page_request sid (int_str (_session_source_high_water h sid)) None None)
    else if fields_equal ["sourceHighWater"; "projectionGeneration"] q
            || fields_equal ["sourceHighWater"; "projectionGeneration"; "olderCursor"] q then
      let high_water := q_text "sourceHighWater" q in
      let generation := q_text "projectionGeneration" q in
      let older := q_get "olderCursor" q in
      if _canonical_waterline high_water && (decimal high_water <=? _session_source_high_water h sid) && generation_ok generation
         && match older with Some c => negb (is_empty c) && (str_len c <=? 4096) | None => true end
      then request (page_request sid high_water (Some generation) older)
      else Ok (terror 400 "transcript_page_cursor_invalid")
    else Ok (terror 400 "transcript_page_query_invalid")).

Definition patches_request (sid generation after through : pystr) : value :=
  VDict [("schema", VStr "runtime.transcript.patch.read.v1"); ("sessionId", VStr sid);
         ("projectionVersion", VStr TRANSCRIPT_PROJECTION_VERSION); ("projectionGeneration", VStr generation);
         ("afterSourceHighWater", VStr after); ("throughSourceHighWater", VStr through)].

Definition session_transcript_patches (h : hosted) (user : Z) (sid : pystr) (q : query) : tanswer :=
  with_transcript_session h user sid (fun _ =>
    if single_values q && (fields_equal ["afterSourceHighWater"; "projectionGeneration"] q
         || fields_equal ["afterSourceHighWater"; "throughSourceHighWater"; "projectionGeneration"] q) then
      let after := q_text "afterSourceHighWater" q in
      let generation := q_text "projectionGeneration" q in
      let current := _session_source_high_water h sid in
      let through := default (int_str current) (q_get "throughSourceHighWater" q) in
      if _canonical_waterline after && _canonical_waterline through && (decimal after <=? decimal through)
         && (decimal through <=? current) && generation_ok generation
      then
        let body := patches_request sid generation after through in
        runtime_answer "transcript_patch_unavailable"
          (request_transcript_patches valid_transcript_structure valid_transcript_block_structure body (runtime body))
      else Ok (terror 400 "transcript_patch_cursor_invalid")
    else Ok (terror 400 "transcript_patch_query_invalid")).

(** ** Ranges of contents *)

(** [payload #>> '{payload,callId}'] of a scalar *)
Definition json_text (v : value) : option pystr :=
  match v with
  | VStr s => Some s | VInt n => Some (int_str n) | VBool b => Some (if b then "true" else "false") | VFloat r => Some r
  | _ => None
  end.
Definition payload_of (event_id : pystr) : value := default VNone (payloads !! event_id).
(** the results of a tool call in a session *)
Definition tool_results (h : hosted) (sid call_id : pystr) : list (pystr * event_row) :=
  filter (fun e => json_text (get "callId" (payload_of e.1)) = Some call_id)
    (qs_list (fun e => bool_decide (ev_session e = sid) && bool_decide (ev_type e = "tool_result")) (h_events h)).

Definition content_range (h : hosted) (event_id : pystr) (payload : value) (offset byte_length : Z) : R (pystr * Z) :=
  if negb (is_none (get "fullOutputPath" payload)) || negb (is_none (get "outputStartByte" payload))
  then read_output_range (h_captures h) event_id offset byte_length
  else
    inline ← from_option_res (RValueError "transcript inline content is invalid") (as_str (get "modelContent" payload));
    n ← encoded_len inline;
    require (n =? byte_length) (RValueError "transcript inline content is invalid");;
    _transcript_utf8_range inline offset.

Definition content_request (sid generation ref_id revision byte_length offset : pystr) : value :=
  VDict [("schema", VStr "transcript.content.range.read.v1"); ("sessionId", VStr sid);
         ("projectionVersion", VStr TRANSCRIPT_PROJECTION_VERSION); ("projectionGeneration", VStr generation);
         ("refId", VStr ref_id); ("revision", VStr revision); ("byteLength", VStr byte_length); ("offset", VStr offset);
         ("maxBytes", VInt (64 * 1024))].
Definition range_body (sid generation ref_id revision byte_length start content : pystr) (end_ : Z) : value :=
  VDict [("schema", VStr "transcript.content.range.v1"); ("sessionId", VStr sid);
         ("projectionVersion", VStr TRANSCRIPT_PROJECTION_VERSION); ("projectionGeneration", VStr generation);
         ("refId", VStr ref_id); ("revision", VStr revision); ("byteLength", VStr byte_length);
         ("startOffset", VStr start); ("endOffset", VStr (int_str end_)); ("content", VStr content);
         ("hasMore", VBool (end_ <? decimal byte_length))].

Definition session_transcript_content (h : hosted) (user : Z) (sid : pystr) (q : query) : tanswer :=
  with_transcript_session h user sid (fun _ =>
    let invalid := terror 400 "transcript_content_query_invalid" in
    let unavailable := terror 409 "transcript_content_unavailable" in
    if negb (fields_equal ["projectionGeneration"; "refId"; "revision"; "byteLength"; "offset"] q && single_values q) then Ok invalid
    else
      let generation := q_text "projectionGeneration" q in
      let ref_id := q_text "refId" q in
      let revision := q_text "revision" q in
      let byte_length := q_text "byteLength" q in
      let offset := q_text "offset" q in
      if negb (generation_ok generation && (startswith ref_id "tool-output:" || startswith ref_id "session-event:")
               && (str_len ref_id <=? 320) && _canonical_waterline revision && _canonical_waterline byte_length
               && negb (bool_decide (byte_length = "0")) && _canonical_waterline offset && (decimal offset <=? decimal byte_length))
      then Ok invalid
      else if startswith ref_id "session-event:" then
        let body := content_request sid generation ref_id revision byte_length offset in
        runtime_answer "transcript_content_unavailable" (request_transcript_content valid_transcript_structure body (runtime body))
      else
        let call_id := removeprefix ref_id "tool-output:" in
        if is_empty call_id || negb (bool_decide (revision = "2")) then Ok invalid
        else
          match tool_results h sid call_id with
          | [(event_id, _)] =>
              let payload := payload_of event_id in
              if is_dict payload && bool_decide (as_bool (get "outputComplete" payload) = Some true)
                 && py_eq (get "outputByteLength" payload) (VInt (decimal byte_length))
              then
                match content_range h event_id payload (decimal offset) (decimal byte_length) with
                | Ok (content, end_) => Ok (200, range_body sid generation ref_id revision byte_length offset content end_)
                | Err _ => Ok unavailable
                end
              else Ok (terror 409 "transcript_content_reference_stale")
          | _ => Ok unavailable
          end).
End endpoints.

(** ** Turns *)

(** [dict(queryset.values_list(key, value))]: the last row of a key stays *)
Definition dict_of {A} (l : list (pystr * A)) : gmap pystr A := foldl (fun m kv => <[kv.1 := kv.2]> m) ∅ l.
Definition by_sequence (x y : Z * pystr) : Prop := x.1 <= y.1.
#[global] Instance by_sequence_dec : RelDecision by_sequence.
Proof. intros x y. unfold by_sequence. apply _. Defined.
(** [order_by("publishedAt", "id")]: a published artifact has its time *)
Definition by_publication (x y : pystr * artifact_row) : Prop :=
  scan_le (default 0 (ar_published_at x.2), x.1) (default 0 (ar_published_at y.2), y.1).
#[global] Instance by_publication_dec : RelDecision by_publication.
Proof. intros x y. unfold by_publication, scan_le. apply _. Defined.

Definition artifact_entry (a : pystr * artifact_row) : value :=
  VDict [("artifactRef", VStr ("artifact:" +:+ a.1)); ("filename", VStr (ar_safe_filename a.2));
         ("downloadUrl", VStr ("/api/artifacts/" +:+ a.1 +:+ "/download"))].
Definition optional_int (n : option Z) : value := match n with Some n => VInt n | None => VNone end.

Definition session_transcript_turn_metadata {PL : Platform} (h : hosted) (user : Z) (sid : pystr) (q : query) : tanswer :=
  with_transcript_session h user sid (fun _ =>
    let values := getlist "sequence" q in
    if negb (fields_equal ["sequence"] q && (1 <=? zlen values) && (zlen values <=? 128) && forallb _canonical_waterline values)
    then Ok (terror 400 "transcript_turn_metadata_query_invalid")
    else
      let events := fun p => qs_list (fun e => bool_decide (ev_session e = sid) && p e) (h_events h) in
      let sequences := map decimal values in
      let anchors := merge_sort by_sequence
        (map (fun e => (ev_sequence e.2, ev_run e.2)) (events (fun e => bool_decide (ev_sequence e ∈ sequences)))) in
      let run_ids := map snd anchors in
      let times := fun types => dict_of (map (fun e => (ev_run e.2, ev_created_ms e.2))
        (events (fun e => bool_decide (ev_run e ∈ run_ids) && bool_decide (ev_type e ∈ types)))) in
      let starts := times ["user_message"] in
      let terminals := times ["agent_run_completed"; "agent_run_failed"; "agent_run_interrupted"] in
      let published := merge_sort by_publication (qs_list (fun a => bool_decide (ar_session a = sid) && bool_decide (ar_run a ∈ run_ids)
        && bool_decide (ar_status a = APublished) && bool_decide (ar_deleted_at a = None)) (artifacts (h_store h))) in
      let artifacts_of := fun run_id => map artifact_entry (filter (fun a => ar_run a.2 = run_id) published) in
      Ok (200, VDict [("turns", VList (omap (fun anchor =>
        started ← starts !! anchor.2;
        Some (VDict [("anchorSequence", VStr (int_str anchor.1)); ("startedAtMs", VInt started);
                     ("completedAtMs", optional_int (terminals !! anchor.2)); ("artifacts", VList (artifacts_of anchor.2))])) anchors))])).

(** ** The active run *)

Section active.
Context {PL : Platform} (material_citations : pystr -> option Z -> gmap pystr citation_row).

(** [order_by("-createdAt", "-id")] *)
Definition newest_run (x y : pystr * run_full) : Prop :=
  scan_le (r_created (rf_life y.2), y.1) (r_created (rf_life x.2), x.1).
#[global] Instance newest_run_dec : RelDecision newest_run.
Proof. intros x y. unfold newest_run, scan_le. apply _. Defined.

(** The loop over the candidates: runs whose log has ended are projected. *)
Fixpoint live_candidates (candidates : list (pystr * run_full)) (h : hosted) : res tfail (list (pystr * run_full) * hosted) :=
  match candidates with
  | [] => Ok ([], h)
  | (run_id, f) :: candidates =>
      match committed_session_terminal_state (life h) run_id (rf_life f) with
      | None => p ← live_candidates candidates h; Ok ((run_id, f) :: p.1, p.2)
      | Some state =>
          p ← catch (project_run material_citations h run_id (Some state)) (fun e => Err (THosted e));
          live_candidates candidates p.2
      end
  end.

Definition active_run_body (sid : pystr) (run : value) : value :=
  VDict [("schema", VStr "workspace.transcript.active_agent_run.v1"); ("sessionId", VStr sid); ("agentRun", run)].
Definition session_transcript_active_agent_run (h : hosted) (user : Z) (sid : pystr) (q : query) : res tfail (Z * value * hosted) :=
  session ← tlift (_authorized_transcript_session h user sid);
  match session with
  | None => Ok (terror 404 "session_not_found", h)
  | Some _ =>
      let high_water := q_text "sourceHighWater" q in
      if negb (fields_equal ["sourceHighWater"] q && bool_decide (length (getlist "sourceHighWater" q) = 1%nat)
               && _canonical_waterline high_water && (decimal high_water <=? _session_source_high_water h sid))
      then Ok (terror 400 "transcript_active_agent_run_query_invalid", h)
      else
        p ← live_candidates (take 2 (merge_sort newest_run (active_runs h sid))) h;
        match p.1 with
        | [] => Ok ((200, active_run_body sid VNone), p.2)
        | [(run_id, f)] =>
            cursor ← catch (encode_stream_cursor run_id (decimal high_water)) (fun e => Err (TStream e));
            Ok ((200, active_run_body sid
              (VDict [("agentRunId", VStr run_id); ("status", VStr (status_str (r_status (rf_life f)))); ("streamCursor", VStr cursor)])), p.2)
        | _ => Ok (terror 409 "transcript_active_agent_run_conflict", p.2)
        end
  end.
End active.

(** ** Use of the context window *)

Definition CONTEXT_COMPACTION_HEADROOM_TOKENS : Z := 32768.
Definition TOKEN_FIELDS : list pystr := ["systemPromptTokens"; "systemToolTokens"; "mcpToolTokens"; "skillsTokens"; "messageTokens"].
Definition is_count (v : value) : bool := int_where (fun n => 0 <=? n) v.
Definition mcp_tool_ok (tool : value) : bool :=
  keys_are ["providerId"; "name"; "tokens"] tool && nonblank (get "providerId" tool) && nonblank (get "name" tool)
  && is_count (get "tokens" tool).

(** the numbers that are reported: used tokens, the compaction buffer, free tokens and the percentage *)
Record usage := Usage { us_used : Z; us_buffer : Z; us_free : Z; us_percentage : Z }.
Definition usage_numbers (estimate max_tokens : Z) : usage :=
  let buffer := Z.min (Z.max (max_tokens - estimate) 0) CONTEXT_COMPACTION_HEADROOM_TOKENS in
  let used := Z.min (estimate + buffer) max_tokens in
  Usage used buffer (Z.max (max_tokens - used) 0) (Z.min ((used * 100 + max_tokens / 2) / max_tokens) 100).

(** What is raised as [KeyError], [TypeError] or [ValueError] is one [None] for the caller. *)
Definition usage_estimate (payload : value) : option (Z * list (pystr * value)) :=
  match get "contextTokenEstimate" payload, get "contextTokenBreakdown" payload with
  | VInt estimate, VDict d =>
      let breakdown := VDict d in
      let tools := default [] (as_list (get "mcpTools" breakdown)) in
      if forallb (fun k => has_key k payload) ["purpose"; "contextTokenEstimate"; "contextTokenBreakdown"]
         && is_str "main" (get "purpose" payload) && (0 <=? estimate) && keys_are (TOKEN_FIELDS ++ ["mcpTools"]) breakdown
         && forallb (fun k => is_count (get k breakdown)) TOKEN_FIELDS
         && (sum_by (fun k => int_of (get k breakdown)) TOKEN_FIELDS =? estimate)
         && match get "mcpTools" breakdown with VList _ => true | _ => false end
         && forallb mcp_tool_ok tools
         && bool_decide (NoDup (map (fun tool => (text_of (get "providerId" tool), text_of (get "name" tool))) tools))
         && (sum_by (fun tool => int_of (get "tokens" tool)) tools =? int_of (get "mcpToolTokens" breakdown))
      then Some (estimate, d) else None
  | _, _ => None
  end.

Section usage.
Context {PL : Platform}.
Context (payloads : gmap pystr value).
(** [contextTokens] of the model of a run *)
Context (context_tokens : pystr -> Z).

Definition _context_usage (event_id : pystr) (event : event_row) (f : run_full) (is_compacting : bool) : res tfail (option value) :=
  match usage_estimate (payload_of payloads event_id) with
  | None => Ok None
  | Some (estimate, breakdown) =>
      let max_tokens := context_tokens (rf_model f) in
      require (negb (max_tokens =? 0)) TZeroDivision;;
      let u := usage_numbers estimate max_tokens in
      Ok (Some (VDict [("usedTokens", VInt (us_used u)); ("maxContextTokens", VInt max_tokens);
        ("usedPercentage", VInt (us_percentage u)); ("updatedAt", VInt (ev_created_ms event)); ("isCompacting", VBool is_compacting);
        ("breakdown", VDict (breakdown ++ [("autoCompactBufferTokens", VInt (us_buffer u)); ("freeSpaceTokens", VInt (us_free u))]))]))
  end.

Definition later (x y : pystr * event_row) : Prop := ev_sequence y.2 <= ev_sequence x.2.
#[global] Instance later_dec : RelDecision later.
Proof. intros x y. unfold later. apply _. Defined.
(** [order_by("-sequence").first()] *)
Definition latest (l : list (pystr * event_row)) : option (pystr * event_row) := head (merge_sort later l).

Definition session_context_usage (h : hosted) (user : Z) (sid : pystr) : tanswer :=
  session ← tlift (_session_for_update h user sid);
  match session with
  | None => Ok (terror 404 "session_not_found")
  | Some _ =>
      let boundaries := qs_list (fun e => bool_decide (ev_session e = sid) && bool_decide (ev_type e = "model_request_started")) (h_events h) in
      let event := latest (filter (fun e => is_str "main" (get "purpose" (payload_of payloads e.1)) = true) boundaries) in
      let invalid := terror 409 "session_context_usage_invalid" in
      let answer := fun usage => (200, VDict [("schema", VStr "session.context_usage.v1"); ("sessionId", VStr sid); ("contextUsage", usage)]) in
      match latest boundaries with
      | None => Ok (answer VNone)
      | Some (boundary_id, boundary) =>
          if negb (has_key "purpose" (payload_of payloads boundary_id)) then Ok invalid
          else
            let is_compacting := is_str "compaction" (get "purpose" (payload_of payloads boundary_id))
              && bool_decide (r_status ∘ rf_life <$> h_runs h !! ev_run boundary = Some Running) in
            match event with
            | None => Ok (answer VNone)
            | Some (event_id, e) =>
                match h_runs h !! ev_run e with
                (* the foreign key of the event *)
                | None => Ok invalid
                | Some f =>
                    usage ← _context_usage event_id e f is_compacting;
                    match usage with Some u => Ok (answer u) | None => Ok invalid end
                end
            end
      end
  end.
End usage.
