(* ===== verification/TranscriptProps.v ===== *)
(** * Correctness of the transcript endpoints

    A client that follows the ranges of a content reads all of it and nothing else, wherever it is stored; pages of
    patches lead to the requested water line; the active run is found without conflict; the reported use of the
    context window adds up. *)

From stdpp Require Import base tactics list gmap numbers sorting.
From S2P Require Import Prelude PyStr Table Utf8 Sha256 Platform Schema Access AgentIdentity Delegation Lifecycle PyValue Json Cursor RuntimeClient Contract Snapshot Assets Hosted Sessions Inputs Messages HostedInv HostedProps RuntimeReplies Transcript.

(** ** Cutting an encoding *)

Lemma encode_cps_cons c l : encode_cps (c :: l) = encode_cp c ++ encode_cps l.
Proof. done. Qed.
Lemma encode_cps_app l1 l2 : encode_cps (l1 ++ l2) = encode_cps l1 ++ encode_cps l2.
Proof. unfold encode_cps. by rewrite map_app, concat_app. Qed.
Lemma encode_cp_nonempty c : encode_cp c <> [].
Proof. pose proof (encode_cp_length c) as H. intros E. rewrite E in H. cbn in H. lia. Qed.
Lemma encode_cps_nil l : encode_cps l = [] -> l = [].
Proof. destruct l; [done|]. rewrite encode_cps_cons. intros [E _]%app_eq_nil. by apply encode_cp_nonempty in E. Qed.

(** What is left of an encoding when it is cut after some bytes: nothing, or the beginning of a code point. *)
Inductive fragment : bytes -> Prop :=
| whole : fragment []
| part c k : is_scalar c = true -> (0 < k < length (encode_cp c))%nat -> fragment (take k (encode_cp c)).

Lemma part_undecodable c k : is_scalar c = true -> (k < length (encode_cp c))%nat -> decode_cp (take k (encode_cp c)) = None.
Proof.
  intros Hc Hk. destruct (decode_cp _) as [[c' l']|] eqn:E; [|done]. exfalso.
  apply decode_cp_Some in E as [E Hc'].
  assert (encode_cp c ++ [] = encode_cp c' ++ (l' ++ drop k (encode_cp c))) as H.
  { rewrite app_nil_r, app_assoc, <- E. symmetry. apply take_drop. }
  apply (f_equal decode_cp) in H. rewrite !decode_encode_cp in H by done. injection H as _ H.
  symmetry in H. apply app_eq_nil in H as [_ H]. apply (f_equal length) in H. rewrite length_drop in H. cbn in H. lia.
Qed.
Lemma fragment_undecodable p : fragment p -> decode_cp p = None.
Proof. intros [|c k Hc Hk]; [done|]. apply part_undecodable; [done|lia]. Qed.
Lemma fragment_length p : fragment p -> (length p <= 3)%nat.
Proof. intros [|c k Hc Hk]; cbn; [lia|]. rewrite length_take. pose proof (encode_cp_length c). lia. Qed.
Lemma fragment_take p j : fragment p -> fragment (take j p).
Proof.
  intros [|c k Hc Hk]; [rewrite take_nil; constructor|]. rewrite take_take.
  destruct (decide (j = 0%nat)) as [->|?]; [constructor|]. constructor; [done|lia].
Qed.

Lemma cut_encoding l n : forallb is_scalar l = true ->
  exists l1 l2 p, l = l1 ++ l2 /\ take n (encode_cps l) = encode_cps l1 ++ p /\ fragment p
    /\ (l <> [] -> (4 <= n)%nat -> l1 <> []) /\ (l2 = [] -> p = []).
Proof.
  revert n. induction l as [|c l IH]; intros n Hl.
  { exists [], [], []. rewrite (take_nil n : take n (encode_cps []) = []). repeat split; [constructor|done]. }
  cbn in Hl. bool_inv. rewrite encode_cps_cons.
  destruct (decide (length (encode_cp c) <= n)%nat) as [Hn|Hn].
  - destruct (IH (n - length (encode_cp c))%nat) as (l1 & l2 & p & -> & Ht & Hp & _ & H2); [done|].
    exists (c :: l1), l2, p. rewrite take_app_ge by lia. rewrite Ht, encode_cps_cons, app_assoc. by repeat split.
  - exists [], (c :: l), (take n (encode_cp c)). rewrite take_app_le by lia.
    repeat split; [|intros _ ?; pose proof (encode_cp_length c); lia|done].
    destruct (decide (n = 0%nat)) as [->|?]; [constructor|]. constructor; [done|lia].
Qed.

Lemma decode_encoding l : forallb is_scalar l = true -> utf8_decode (encode_cps l) = Some (PyStr l).
Proof. intros H. apply utf8_decode_encode. unfold utf8_encode. cbn. by rewrite H. Qed.

Lemma decode_cut l p : forallb is_scalar l = true -> fragment p -> p <> [] -> utf8_decode (encode_cps l ++ p) = None.
Proof.
  intros Hl Hp Hne. destruct (utf8_decode _) as [[s]|] eqn:E; [|done]. exfalso.
  apply fmap_Some in E as (s' & E & _). apply decode_cps_Some in E as [E Hs]. clear s. revert s' E Hs.
  induction l as [|c l IH]; intros s E Hs.
  - cbn [encode_cps concat map app] in E. destruct s as [|c s]; [done|]. cbn in Hs. bool_inv. rewrite encode_cps_cons in E.
    apply fragment_undecodable in Hp. rewrite E, decode_encode_cp in Hp by done. done.
  - cbn in Hl. bool_inv. rewrite encode_cps_cons, <- app_assoc in E. destruct s as [|c' s].
    { cbn in E. by apply app_eq_nil in E as [E%encode_cp_nonempty _]. }
    cbn in Hs. bool_inv. rewrite encode_cps_cons in E. apply (f_equal decode_cp) in E.
    rewrite !decode_encode_cp in E by done. injection E as _ E. by eapply IH.
Qed.

Lemma decode_prefix_cut l p fuel : forallb is_scalar l = true -> decode_cp p = None -> (length l <= fuel)%nat ->
  decode_prefix fuel (encode_cps l ++ p) = (l, p).
Proof.
  revert fuel. induction l as [|c l IH]; intros fuel Hl Hp Hf.
  - cbn. destruct fuel; cbn; [done|]. by rewrite Hp.
  - cbn in Hl. bool_inv. destruct fuel as [|fuel]; [cbn in Hf; lia|]. cbn [decode_prefix].
    rewrite encode_cps_cons, <- app_assoc, decode_encode_cp by done. rewrite (IH fuel); [done|done|done|cbn in Hf; lia].
Qed.

#[local] Ltac Zify.zify_post_hook ::= Z.to_euclidean_division_equations.
Lemma part_is_unexpected_end c k : is_scalar c = true -> (0 < k < length (encode_cp c))%nat ->
  unexpected_end (take k (encode_cp c)) = true.
Proof.
  unfold is_scalar, encode_cp. intros Hc.
  assert (0 <= c < 1114112) by (apply orb_prop in Hc as [?|?]; bool_inv; lia).
  repeat match goal with |- context [if c <? ?n then _ else _] => destruct (Z.ltb_spec c n) end;
    cbn [length]; intros Hk; destruct k as [|[|[|[|k]]]]; try lia; cbn [take unexpected_end]; unfold second_ok, is_cont;
    repeat match goal with |- context [if ?b then _ else _] => destruct b eqn:? end; bool_inv; lia.
Qed.
#[local] Ltac Zify.zify_post_hook ::= idtac.

(** ** Both readers return a nonempty prefix of what is left *)

Lemma trimmed_cut l p trim : (trim <= length p)%nat ->
  trimmed trim (encode_cps l ++ p) = encode_cps l ++ take (length p - trim) p.
Proof.
  intros H. unfold trimmed. rewrite length_app, take_app_ge by lia. do 2 f_equal. lia.
Qed.

Lemma decode_transcript_range_cut l p offset : forallb is_scalar l = true -> fragment p ->
  _decode_transcript_range (encode_cps l ++ p) offset = Ok (PyStr l, offset + zlen (encode_cps l)).
Proof.
  intros Hl Hp. pose proof (fragment_length _ Hp) as H3. unfold _decode_transcript_range.
  assert (forall trim, (trim < length p)%nat -> utf8_decode (trimmed trim (encode_cps l ++ p)) = None) as Hnone.
  { intros trim Ht. rewrite trimmed_cut by lia. apply decode_cut; [done|by apply fragment_take|].
    intros E. apply (f_equal length) in E. rewrite length_take in E. cbn in E. lia. }
  assert (trimmed (length p) (encode_cps l ++ p) = encode_cps l) as Hlast.
  { rewrite trimmed_cut by lia. by rewrite Nat.sub_diag, app_nil_r. }
  assert (forall otherwise, match utf8_decode (trimmed (length p) (encode_cps l ++ p)) with
    | Some content => Ok (content, offset + zlen (trimmed (length p) (encode_cps l ++ p))) | None => otherwise end
    = Ok (E := rexn) (PyStr l, offset + zlen (encode_cps l))) as Hok.
  { intros. by rewrite Hlast, decode_encoding. }
  clear Hlast. destruct (length p) as [|[|[|[|n]]]]; [| | | |lia];
    repeat (rewrite Hnone by lia); apply Hok.
Qed.

(** [R] reads [content] in ranges: from the end of a whole number of code points it returns at least one more. *)
Class RangeReader (content : list Z) (R : Z -> RuntimeReplies.R (pystr * Z)) : Prop :=
  read_range l1 l2 : content = l1 ++ l2 -> l2 <> [] ->
    exists l3 l4, l2 = l3 ++ l4 /\ l3 <> []
      /\ R (zlen (encode_cps l1)) = Ok (PyStr l3, zlen (encode_cps (l1 ++ l3))).

Lemma slice_after l1 l2 n : slice (zlen (encode_cps l1)) n (encode_cps (l1 ++ l2)) = take (Z.to_nat n) (encode_cps l2).
Proof. unfold slice, zlen. by rewrite Nat2Z.id, encode_cps_app, drop_app_length. Qed.

Lemma inline_reader content : forallb is_scalar content = true ->
  RangeReader content (_transcript_utf8_range (PyStr content)).
Proof.
  intros Hs l1 l2 -> Hne. unfold _transcript_utf8_range, utf8_encode. cbn [code_points]. rewrite Hs. cbn [from_option_res mbind res_bind].
  rewrite forallb_app in Hs. bool_inv.
  destruct (cut_encoding l2 (Z.to_nat TRANSCRIPT_CONTENT_RANGE_BYTES)) as (l3 & l4 & p & -> & Ht & Hp & H3 & _); [done|].
  exists l3, l4. split; [done|]. split; [apply H3; [done|unfold TRANSCRIPT_CONTENT_RANGE_BYTES; lia]|].
  rewrite (proj2 (Z.leb_le _ _)) by (rewrite encode_cps_app, zlen_app; pose proof (zlen_nonneg (encode_cps (l3 ++ l4))); lia).
  cbn [require mbind res_bind]. rewrite slice_after, Ht, forallb_app in *. bool_inv.
  rewrite decode_transcript_range_cut, encode_cps_app, zlen_app by done. done.
Qed.

(** *** Captured output *)

(** A capture as the runtime publishes it. *)
Definition captured (content : bytes) (c : capture_row) : Prop :=
  cp_byte_length c = zlen content /\ cp_chunk_size c = 65536 /\ cp_purged_at c = None
  /\ forall i, 0 <= i -> i * 65536 < zlen content ->
       cp_chunks c !! i = Some (slice (i * 65536) 65536 content, sha256_tag (slice (i * 65536) 65536 content)).

Lemma chunks_concat (b : bytes) (c a n : nat) :
  concat (map (fun k => take c (drop ((a + k) * c) b)) (seq 0 n)) = take (n * c) (drop (a * c) b).
Proof.
  revert a. induction n as [|n IH]; intros a; [done|].
  cbn [seq map concat]. rewrite <- seq_shift, map_map. rewrite Nat.add_0_r.
  rewrite (map_ext _ (fun k => take c (drop ((S a + k) * c) b))) by (intros k; do 2 f_equal; lia).
  rewrite IH. cbn [Nat.mul]. rewrite <- (take_take_drop (drop (a * c) b) c (n * c)).
  rewrite drop_drop. do 3 f_equal. lia.
Qed.

Lemma length_slice (b : bytes) start n : 0 <= start -> 0 <= n -> zlen (slice start n b) = Z.max 0 (Z.min n (zlen b - start)).
Proof. intros. unfold slice, zlen. rewrite length_take, length_drop. lia. Qed.

Lemma collect_Ok {A B} (f : A -> RuntimeReplies.R B) (g : A -> B) l : (forall x, x ∈ l -> f x = Ok (g x)) -> collect f l = Ok (map g l).
Proof.
  induction l as [|x l IH]; intros H; cbn; [done|]. rewrite H by left. cbn. rewrite IH; [done|]. intros; apply H; by right.
Qed.

Lemma omap_all {A B} (f : A -> option B) (g : A -> B) l : (forall x, x ∈ l -> f x = Some (g x)) -> omap f l = map g l.
Proof. induction l as [|x l IH]; intros H; cbn; [done|]. rewrite H by left. rewrite IH; [done|]. intros; apply H; by right. Qed.

Lemma elem_of_z_range first last i : i ∈ z_range first last -> first <= i <= last.
Proof. unfold z_range. intros (k & -> & Hk%elem_of_seq)%list_elem_of_fmap. lia. Qed.

Lemma zip_map_self {A B} (g : A -> B) l : zip l (map g l) = map (fun x => (x, g x)) l.
Proof. induction l; cbn; by f_equal. Qed.

Lemma read_chunks content c first last : captured content c -> 0 <= first -> first <= last -> last * 65536 < zlen content ->
  let chunks := omap (fun i => pair i <$> cp_chunks c !! i) (z_range first last) in
  zlen chunks = last - first + 1
  /\ collect (check_chunk 65536 (zlen content)) (zip (z_range first last) chunks)
     = Ok (map (fun i => slice (i * 65536) 65536 content) (z_range first last)).
Proof.
  intros (Hlen & Hsize & Hpurged & Hchunks) Hf Hl Hr chunks.
  assert (chunks = map (fun i => (i, (slice (i * 65536) 65536 content, sha256_tag (slice (i * 65536) 65536 content)))) (z_range first last)) as ->.
  { apply omap_all. intros i Hi%elem_of_z_range. rewrite Hchunks by lia. done. }
  split.
  - unfold zlen, z_range. rewrite !length_map, length_seq. lia.
  - rewrite zip_map_self. erewrite (collect_Ok _ (fun x => x.2.2.1)); [by rewrite map_map|].
    intros x (i & -> & Hi%elem_of_z_range)%list_elem_of_fmap. unfold check_chunk.
    rewrite length_slice by lia.
    rewrite (bool_decide_eq_true_2 _ eq_refl), Z.eqb_refl, (proj2 (Z.eqb_eq (Z.max _ _) _)) by lia. cbn [andb require mbind res_bind fst snd]. reflexivity.
Qed.

Lemma slice_of_chunks content first last offset n : 0 <= first -> first * 65536 <= offset -> 0 <= n ->
  offset + n <= (last + 1) * 65536 -> first <= last ->
  slice (offset - first * 65536) n (concat (map (fun i => slice (i * 65536) 65536 content) (z_range first last))) = slice offset n content.
Proof.
  intros. unfold z_range. rewrite map_map.
  rewrite (map_ext_in _ (fun k => take (Z.to_nat 65536) (drop ((Z.to_nat first + k) * Z.to_nat 65536) content))).
  2:{ intros k _. unfold slice. do 2 f_equal. lia. }
  rewrite chunks_concat. unfold slice. rewrite skipn_firstn_comm, take_take, drop_drop. do 2 f_equal; lia.
Qed.

(** The bytes [read_output_range] decodes. *)
Lemma read_output_data content captures event_id c offset : captured content c -> captures !! event_id = Some c ->
  0 <= offset < zlen content ->
  let n := zlen content in let end_ := Z.min (offset + 65536) n in let data := slice offset (end_ - offset) content in
  read_output_range captures event_id offset n =
    match utf8_decode data with
    | Some text => Ok (text, end_)
    | None =>
        let '(decoded, rest) := decode_prefix (length data) data in
        require (unexpected_end rest && negb (zlen data - zlen rest =? 0) && negb (end_ =? n))
          (RValueError "transcript capture UTF-8 boundary invalid");;
        Ok (PyStr decoded, offset + (zlen data - zlen rest))
    end.
Proof.
  intros Hc Hl Ho n end_ data. pose proof Hc as (Hlen & Hsize & Hpurged & _).
  unfold read_output_range. rewrite Hl. cbn [from_option_res mbind res_bind]. rewrite Hlen, Hsize, Hpurged.
  rewrite (bool_decide_eq_true_2 _ eq_refl), !Z.eqb_refl, (proj2 (Z.leb_le 0 offset)), (proj2 (Z.leb_le offset _)) by (unfold n; lia).
  cbn [andb require mbind res_bind]. rewrite (proj2 (Z.eqb_neq offset _)) by (unfold n; lia). fold n. fold end_.
  assert (0 <= offset / 65536) by (apply Z.div_pos; lia).
  assert (offset / 65536 <= (end_ - 1) / 65536) by (apply Z.div_le_mono; unfold end_, n; lia).
  assert ((end_ - 1) / 65536 * 65536 < n) by (pose proof (Z.mul_div_le (end_ - 1) 65536); unfold end_, n in *; lia).
  destruct (read_chunks content c (offset / 65536) ((end_ - 1) / 65536)) as [-> Hchunks]; [done..|].
  rewrite Z.eqb_refl. cbn [require mbind res_bind]. fold n in Hchunks. rewrite Hchunks. cbn [mbind res_bind].
  replace (offset mod 65536) with (offset - offset / 65536 * 65536) by (rewrite Z.mod_eq by lia; lia).
  rewrite slice_of_chunks; [done|done| | | |done].
  - pose proof (Z.mul_div_le offset 65536). lia.
  - unfold end_, n. lia.
  - pose proof (Z.mul_succ_div_gt (end_ - 1) 65536). lia.
Qed.

Lemma captured_reader content captures event_id c : forallb is_scalar content = true ->
  captured (encode_cps content) c -> captures !! event_id = Some c ->
  RangeReader content (fun offset => read_output_range captures event_id offset (zlen (encode_cps content))).
Proof.
  intros Hs Hc Hl l1 l2 -> Hne.
  assert (0 < zlen (encode_cps l2)) as Hpos.
  { destruct (encode_cps l2) eqn:E; [by apply encode_cps_nil in E|]. unfold zlen; cbn; lia. }
  pose proof (zlen_nonneg (encode_cps l1)).
  rewrite (read_output_data _ _ _ _ _ Hc Hl) by (rewrite encode_cps_app, zlen_app; lia).
  rewrite forallb_app in Hs. bool_inv. rewrite slice_after.
  rewrite encode_cps_app, zlen_app.
  set (N := Z.min (zlen (encode_cps l1) + 65536) (zlen (encode_cps l1) + zlen (encode_cps l2)) - zlen (encode_cps l1)).
  assert (zlen (take (Z.to_nat N) (encode_cps l2)) = N) as HN.
  { unfold zlen in *. rewrite length_take. lia. }
  assert (forallb is_scalar l2 = true) as Hs2 by done.
  destruct (cut_encoding l2 (Z.to_nat N)) as (l3 & l4 & p & El & Ht & Hp & H3 & H4); [done|].
  rewrite Ht in *. rewrite zlen_app in HN. subst l2.
  assert (forallb is_scalar l3 = true) as Hs3 by (rewrite forallb_app in Hs2; by bool_inv).
  exists l3, l4. split; [done|]. rewrite (encode_cps_app l1 l3), (zlen_app (encode_cps l1)).
  destruct (decide (p = [])) as [->|Hpne].
  - rewrite app_nil_r, decode_encoding by done. rewrite zlen_nil in HN. split; [|do 2 f_equal; lia].
    intros ->. rewrite (zlen_nil : zlen (encode_cps []) = 0) in HN. unfold N in HN. lia.
  - pose proof (decode_cut l3 p Hs3 Hp Hpne) as Hd.
    assert (N < zlen (encode_cps (l3 ++ l4))).
    { destruct (decide (N < zlen (encode_cps (l3 ++ l4)))); [done|]. exfalso.
      rewrite firstn_all2 in Ht by (unfold zlen in *; lia). by rewrite <- Ht, decode_encoding in Hd. }
    assert (l3 <> []) as Hl3 by (apply H3; [done|unfold N in *; lia]). split; [done|].
    rewrite Hd, decode_prefix_cut;
      [|done|by apply fragment_undecodable|rewrite length_app; pose proof (encode_cps_length l3); lia].
    rewrite zlen_app. replace (zlen (encode_cps l3) + zlen p - zlen p) with (zlen (encode_cps l3)) by lia.
    assert (unexpected_end p = true) as ->.
    { destruct Hp as [|c' k ? ?]; [done|]. by apply part_is_unexpected_end. }
    rewrite (proj2 (Z.eqb_neq (zlen (encode_cps l3)) 0)) by (rewrite zlen_0; intros E; by apply Hl3, encode_cps_nil).
    rewrite (proj2 (Z.eqb_neq _ (zlen (encode_cps l1) + zlen (encode_cps (l3 ++ l4))))) by (unfold N in *; lia). done.
Qed.

(** ** Numbers in text *)

Definition no_leading_zero (l : list Z) : Prop := match l with c :: _ => c <> 48 | [] => True end.
Lemma digits_value_snoc l c : digits_value (l ++ [c]) = digits_value l * 10 + (c - 48).
Proof. unfold digits_value. by rewrite fold_left_app. Qed.
Lemma no_leading_zero_init l c : no_leading_zero (l ++ [c]) -> no_leading_zero l.
Proof. by destruct l. Qed.

Lemma zlen_pos (l : list Z) : l <> [] -> 0 < zlen l.
Proof. destruct l; [done|]. intros _. rewrite zlen_cons. pose proof (zlen_nonneg l). lia. Qed.

Lemma digits_value_lower l : Forall (fun c => is_digit c = true) l -> no_leading_zero l -> l <> [] ->
  10 ^ (zlen l - 1) <= digits_value l.
Proof.
  induction l as [|c l IH] using rev_ind; [done|]. intros [Hl Hc]%Forall_app Hz _. rewrite Forall_singleton in Hc.
  unfold is_digit in Hc. bool_inv. rewrite digits_value_snoc, zlen_app. destruct (decide (l = [])) as [->|Hne].
  - change (10 ^ 0 <= 0 * 10 + (c - 48)). cbn in Hz. lia.
  - specialize (IH Hl (no_leading_zero_init _ _ Hz) Hne).
    replace (zlen l + zlen [c] - 1) with (Z.succ (zlen l - 1)) by (rewrite zlen_cons, zlen_nil; lia).
    rewrite Z.pow_succ_r; [lia|]. pose proof (zlen_pos l Hne). lia.
Qed.
Lemma digits_value_pos l : Forall (fun c => is_digit c = true) l -> no_leading_zero l -> l <> [] -> 0 < digits_value l.
Proof.
  intros Hl Hz Hne. pose proof (digits_value_lower l Hl Hz Hne). pose proof (zlen_pos l Hne).
  pose proof (Z.pow_pos_nonneg 10 (zlen l - 1)). lia.
Qed.

Lemma digits_value_nonneg l : Forall (fun c => is_digit c = true) l -> 0 <= digits_value l.
Proof.
  induction l as [|c l IH] using rev_ind; [done|]. intros [Hl Hc]%Forall_app. rewrite Forall_singleton in Hc.
  unfold is_digit in Hc. bool_inv. rewrite digits_value_snoc. specialize (IH Hl). lia.
Qed.

Lemma digits_value_inj l l' : Forall (fun c => is_digit c = true) l -> Forall (fun c => is_digit c = true) l' ->
  no_leading_zero l -> no_leading_zero l' -> digits_value l = digits_value l' -> l = l'.
Proof.
  assert (forall l, Forall (fun c => is_digit c = true) l -> no_leading_zero l -> digits_value l = 0 -> l = []) as Hzero.
  { intros k Hk Hz E. destruct (decide (k = [])); [done|]. pose proof (digits_value_pos k Hk Hz n). lia. }
  revert l'. induction l as [|c l IH] using rev_ind; intros l' Hl Hl' Hz Hz' E; [by rewrite (Hzero l')|].
  destruct l' as [|c' l' _] using rev_ind; [by apply Hzero|].
  apply Forall_app in Hl as [Hl Hc], Hl' as [Hl' Hc']. rewrite Forall_singleton in *. unfold is_digit in Hc, Hc'. bool_inv.
  rewrite !digits_value_snoc in E. pose proof (digits_value_nonneg l Hl). pose proof (digits_value_nonneg l' Hl').
  assert (digits_value l = digits_value l') by lia. assert (c = c') as -> by lia.
  rewrite (IH l'); eauto using no_leading_zero_init.
Qed.

Lemma digits_canonical n : 0 < n -> Forall (fun c => is_digit c = true) (digits n) /\ no_leading_zero (digits n)
  /\ digits_value (digits n) = n /\ digits n <> [].
Proof.
  intros Hn. destruct (digits_spec n) as (c & ds & -> & Hd & Hv & Hz); [lia|].
  repeat split; [by apply forallb_Forall|cbn; intros ?; lia|done|done].
Qed.
Lemma int_str_decimal n : 0 <= n -> decimal (int_str n) = n.
Proof.
  intros Hn. unfold decimal, int_str, int_chars. cbn [code_points]. rewrite (proj2 (Z.ltb_ge _ _)) by done.
  destruct (digits_spec n Hn) as (c & ds & -> & _ & Hv & _). done.
Qed.

Lemma canonical_decimal_text n : 0 <= n <= MAX_U64 -> canonical_decimal (int_str n) = true.
Proof.
  intros Hn. destruct (decide (n = 0)) as [->|Hne]; [done|].
  destruct (digits_canonical n) as (Hd & Hz & Hv & Hnil); [lia|].
  unfold canonical_decimal, int_str, int_chars, chars_all, str_len, is_empty. rewrite (proj2 (Z.ltb_ge n 0)) by lia. cbn [code_points].
  rewrite Hv, (proj2 (Z.leb_le n _)) by lia. rewrite (proj2 (forallb_Forall is_digit _)) by done.
  rewrite (proj2 (forallb_Forall is_ascii _)) by (eapply Forall_impl; [done|]; unfold is_digit, is_ascii; intros; bool_inv; lia).
  rewrite (proj2 (Z.leb_le (zlen _) 20)).
  2:{ destruct (decide (zlen (digits n) <= 20)); [done|]. pose proof (digits_value_lower _ Hd Hz Hnil).
      pose proof (Z.pow_le_mono_r 10 20 (zlen (digits n) - 1)). unfold MAX_U64 in Hn. lia. }
  unfold startswith. cbn [code_points]. destruct (digits n) as [|c ds]; [done|].
  change (prefixb [48] (c :: ds)) with ((48 =? c) && true).
  rewrite (proj2 (Z.eqb_neq 48 c)) by (cbn in Hz; lia). cbn. by destruct (bool_decide _).
Qed.

(** The canonical numbers of the API are exactly the decimal texts of the 64-bit numbers. *)
Lemma canonical_decimal_iff s : canonical_decimal s = true <-> exists n, 0 <= n <= MAX_U64 /\ s = int_str n.
Proof.
  split; [|by intros (n & Hn & ->); apply canonical_decimal_text].
  unfold canonical_decimal, chars_all. intros H.
  apply andb_prop in H as [H Hmax]. apply andb_prop in H as [H _]. apply andb_prop in H as [H H3].
  apply andb_prop in H as [H H4%forallb_Forall]. apply andb_prop in H as [_ Hempty]. bool_inv. exists (decimal s).
  pose proof (digits_value_nonneg _ H4). split; [done|].
  destruct s as [l]. cbn [code_points] in *.
  assert (l = [48] \/ no_leading_zero l) as [->|Hz].
  { apply orb_prop in H3 as [Heq|Hz]; bool_inv; [left; by injection Heq as ->|right].
    unfold startswith in Hz. cbn in Hz. destruct l as [|c l]; [done|]. cbn in *. intros ->. done. }
  { done. }
  unfold int_str, int_chars, decimal. cbn [code_points]. rewrite (proj2 (Z.ltb_ge _ _)) by done. f_equal.
  assert (l <> []) as Hnil by (by destruct l). pose proof (digits_value_pos l H4 Hz Hnil).
  destruct (digits_canonical (digits_value l)) as (Hd & Hz' & Hv & _); [lia|].
  by apply digits_value_inj.
Qed.

(** ** Reading a content to its end *)

Definition content_query (generation call_id : pystr) (byte_length offset : Z) : query :=
  [("projectionGeneration", generation); ("refId", "tool-output:" +:+ call_id); ("revision", "2");
   ("byteLength", int_str byte_length); ("offset", int_str offset)].

Section reading.
Context {PL : Platform}.
Context (valid_transcript_structure : pystr -> value -> bool) (runtime : value -> runtime_reply) (payloads : gmap pystr value).
Local Abbreviation request := (session_transcript_content valid_transcript_structure runtime payloads).

(** A client that asks for the content from [offset] on, and goes on at [endOffset] while there is more. *)
Fixpoint read_content (fuel : nat) (h : hosted) (user : Z) (sid generation call_id : pystr) (byte_length offset : Z) : option pystr :=
  match fuel with
  | O => None
  | S fuel =>
      match request h user sid (content_query generation call_id byte_length offset) with
      | Ok (200, body) =>
          let content := text_of (get "content" body) in
          if bool_decide (as_bool (get "hasMore" body) = Some true) then
            rest ← read_content fuel h user sid generation call_id byte_length (decimal_of (get "endOffset" body));
            Some (content +:+ rest)
          else Some content
      | _ => None
      end
  end.

(** Where the text of a tool result is kept: in its event, or captured. *)
Definition content_stored (h : hosted) (event_id : pystr) (payload : value) (content : list Z) : Prop :=
  if negb (is_none (get "fullOutputPath" payload)) || negb (is_none (get "outputStartByte" payload))
  then exists c, h_captures h !! event_id = Some c /\ captured (encode_cps content) c
  else get "modelContent" payload = VStr (PyStr content).

Record readable (h : hosted) (user : Z) (sid generation call_id event_id : pystr) (content : list Z) : Prop := Readable {
  rd_session : exists f, _authorized_transcript_session h user sid = Ok (Some f);
  rd_generation : generation_ok generation = true;
  rd_call : call_id <> "" /\ str_len call_id <= 308;
  rd_event : exists e, tool_results payloads h sid call_id = [(event_id, e)];
  rd_payload : is_dict (payload_of payloads event_id) = true;
  rd_complete : get "outputComplete" (payload_of payloads event_id) = VBool true;
  rd_length : get "outputByteLength" (payload_of payloads event_id) = VInt (zlen (encode_cps content));
  rd_bound : 0 < zlen (encode_cps content) <= MAX_U64;
  rd_text : forallb is_scalar content = true;
  rd_stored : content_stored h event_id (payload_of payloads event_id) content }.

Lemma content_range_reader h event_id payload content : forallb is_scalar content = true ->
  content_stored h event_id payload content ->
  RangeReader content (fun offset => content_range h event_id payload offset (zlen (encode_cps content))).
Proof.
  unfold content_stored, content_range. intros Hs Hc. destruct (negb _ || negb _).
  - destruct Hc as (c & Hl & Hc). by eapply captured_reader.
  - rewrite Hc. cbn [as_str from_option_res mbind res_bind]. unfold encoded_len, utf8_encode. cbn [code_points]. rewrite Hs.
    cbn [from_option_res fmap res_fmap mbind res_bind]. rewrite Z.eqb_refl. by apply inline_reader.
Qed.

Lemma content_query_fields generation call_id byte_length offset :
  let q := content_query generation call_id byte_length offset in
  fields_equal ["projectionGeneration"; "refId"; "revision"; "byteLength"; "offset"] q && single_values q = true
  /\ q_text "projectionGeneration" q = generation /\ q_text "refId" q = "tool-output:" +:+ call_id /\ q_text "revision" q = "2"
  /\ q_text "byteLength" q = int_str byte_length /\ q_text "offset" q = int_str offset.
Proof. cbv zeta. split_and!; reflexivity. Qed.

(** One request answers what the reader of the content returns. *)
Lemma content_request_answer h user sid generation call_id event_id content offset text end_ :
  readable h user sid generation call_id event_id content -> 0 <= offset <= zlen (encode_cps content) ->
  content_range h event_id (payload_of payloads event_id) offset (zlen (encode_cps content)) = Ok (text, end_) ->
  request h user sid (content_query generation call_id (zlen (encode_cps content)) offset)
  = Ok (200, range_body sid generation ("tool-output:" +:+ call_id) "2" (int_str (zlen (encode_cps content))) (int_str offset) text end_).
Proof.
  intros [(f & Hf) Hg [Hc1 Hc2] (e & He) Hd Hcomplete Hlen Hb Hs Hst] Ho Hr.
  destruct (content_query_fields generation call_id (zlen (encode_cps content)) offset) as (Hq & Hq1 & Hq2 & Hq3 & Hq4 & Hq5).
  unfold session_transcript_content, with_transcript_session. rewrite Hf. cbn [tlift catch mbind res_bind].
  rewrite Hq, Hq1, Hq2, Hq3, Hq4, Hq5. cbn [negb]. rewrite Hg, startswith_app.
  change (_canonical_waterline "2") with true. unfold _canonical_waterline.
  rewrite !canonical_decimal_text, !int_str_decimal by lia.
  rewrite (bool_decide_eq_false_2 (int_str _ = "0")).
  2:{ intros E. apply (f_equal decimal) in E. rewrite int_str_decimal in E by lia. change (decimal "0") with 0 in E. lia. }
  rewrite str_len_app. change (str_len "tool-output:") with 12. rewrite (proj2 (Z.leb_le (12 + _) 320)) by lia.
  rewrite (proj2 (Z.leb_le offset _)) by lia. cbn [andb orb negb].
  assert (startswith ("tool-output:" +:+ call_id) "session-event:" = false) as -> by (by destruct call_id).
  rewrite removeprefix_app, (proj2 (is_empty_false call_id)) by done. cbn [orb negb].
  rewrite (bool_decide_eq_true_2 _ eq_refl). cbn [negb]. rewrite He, Hd, Hcomplete, Hlen. cbn [as_bool].
  rewrite (bool_decide_eq_true_2 _ eq_refl). unfold py_eq. cbn [as_num]. rewrite Z.eqb_refl. cbn [andb]. by rewrite Hr.
Qed.

(** (C14) Following the ranges of the transcript content endpoint from offset 0 along [endOffset] while
    [hasMore] is set ends, and the texts put together are the complete output of the tool call, whether the output is
    stored in its event or was captured in chunks and wherever the ranges of 64 KiB cut its UTF-8 encoding.  As many
    requests as the output has code points are enough. *)
Theorem content_is_read_completely h user sid generation call_id event_id content fuel :
  readable h user sid generation call_id event_id content -> (length content <= fuel)%nat ->
  read_content fuel h user sid generation call_id (zlen (encode_cps content)) 0 = Some (PyStr content).
Proof.
  intros Hr Hf. pose proof (content_range_reader _ _ _ _ (rd_text _ _ _ _ _ _ _ Hr) (rd_stored _ _ _ _ _ _ _ Hr)) as Hreader.
  assert (forall l1 l2, content = l1 ++ l2 -> l2 <> [] -> (length l2 <= fuel)%nat ->
    read_content fuel h user sid generation call_id (zlen (encode_cps content)) (zlen (encode_cps l1)) = Some (PyStr l2)) as Hall.
  { clear Hf. induction fuel as [|fuel IH]; intros l1 l2 E Hne Hl; [by destruct l2; cbn in Hl; [|lia]|].
    destruct (Hreader l1 l2 E Hne) as (l3 & l4 & -> & Hne3 & Hrange).
    assert (forall l, zlen (encode_cps (l1 ++ l)) = zlen (encode_cps l1) + zlen (encode_cps l)) as Happ
      by (intros; by rewrite encode_cps_app, zlen_app).
    assert (zlen (encode_cps content) = zlen (encode_cps (l1 ++ l3)) + zlen (encode_cps l4)) as Hlen
      by (by rewrite E, app_assoc, encode_cps_app, zlen_app).
    pose proof (zlen_nonneg (encode_cps l1)). pose proof (zlen_nonneg (encode_cps l3)). pose proof (zlen_nonneg (encode_cps l4)).
    cbn [read_content].
    assert (0 <= zlen (encode_cps l1) <= zlen (encode_cps content)) as Hoff by (rewrite Hlen, (Happ l3); lia).
    rewrite (content_request_answer _ _ _ _ _ _ _ _ _ _ Hr Hoff Hrange).
    change (get "hasMore" (range_body _ _ _ _ ?n _ _ ?e)) with (VBool (e <? decimal n)).
    change (get "content" (range_body _ _ _ _ _ _ ?t _)) with (VStr t).
    change (get "endOffset" (range_body _ _ _ _ _ _ _ ?e)) with (VStr (int_str e)).
    unfold decimal_of, text_of. cbn [as_bool as_str default from_option id]. rewrite !int_str_decimal by apply zlen_nonneg.
    destruct (decide (l4 = [])) as [->|Hne4].
    - rewrite (zlen_nil : zlen (encode_cps []) = 0) in Hlen. rewrite Hlen, Z.add_0_r, Z.ltb_irrefl. by rewrite app_nil_r.
    - assert (zlen (encode_cps l4) <> 0) by (rewrite zlen_0; intros ?; by apply Hne4, encode_cps_nil).
      rewrite (proj2 (Z.ltb_lt (zlen (encode_cps (l1 ++ l3))) _)) by lia. rewrite (bool_decide_eq_true_2 _ eq_refl).
      rewrite (IH (l1 ++ l3) l4); [done|by rewrite <- app_assoc|done|].
      rewrite length_app in Hl. destruct l3; [done|]. cbn in Hl. lia. }
  apply (Hall [] content); [done| |done]. intros ->. pose proof (rd_bound _ _ _ _ _ _ _ Hr) as Hb. change (0 < 0 <= MAX_U64) in Hb. lia.
Qed.
End reading.

(** ** Following patches *)

Lemma py_eq_str s v : py_eq (VStr s) v = true -> v = VStr s.
Proof. unfold py_eq. destruct v; cbn; try done. intros ->%bool_decide_eq_true. done. Qed.
Lemma py_eq_str_r s v : py_eq v (VStr s) = true -> v = VStr s.
Proof. unfold py_eq. destruct v; cbn; try done. intros ->%bool_decide_eq_true. done. Qed.
Lemma canonical_is_str v : _canonical_decimal_u64 v = true -> exists s, v = VStr s /\ canonical_decimal s = true.
Proof. destruct v; cbn; try done. eauto. Qed.
Lemma and_then_true a b : and_then a b = Ok true <-> a = Ok true /\ b = Ok true.
Proof. unfold and_then. destruct a as [[]|]; cbn; naive_solver. Qed.

Lemma last_after {A} (x d : A) l : List.last (x :: l) d = List.last l x.
Proof. revert x d. induction l as [|y l IH]; intros x d; [done|]. change (List.last (y :: l) d = List.last (y :: l) x). by rewrite !IH. Qed.

Lemma last_app_default {A} (l1 l2 : list A) d : List.last (l1 ++ l2) d = List.last l2 (List.last l1 d).
Proof. revert d. induction l1 as [|x l1 IH]; intros d; [done|]. change ((x :: l1) ++ l2) with (x :: (l1 ++ l2)). by rewrite !last_after, IH. Qed.
Lemma sorted_join (x y : Z) l1 l2 : StronglySorted Z.lt (x :: l1) -> List.last l1 x = y -> StronglySorted Z.lt (y :: l2) ->
  StronglySorted Z.lt ((x :: l1) ++ l2).
Proof.
  revert x. induction l1 as [|z l1 IH]; intros x Hs Hl Hs2.
  { cbn in Hl. by subst. }
  rewrite last_after in Hl. apply StronglySorted_inv in Hs as [Hs Hx]. specialize (IH z Hs Hl Hs2).
  change ((x :: z :: l1) ++ l2) with (x :: ((z :: l1) ++ l2)). constructor; [done|].
  apply StronglySorted_inv in IH as [_ IH]. apply Forall_cons in Hx as [Hx _]. constructor; [done|].
  eapply Forall_impl; [exact IH|]. cbn; intros; lia.
Qed.
Lemma py_eq_more b v : py_eq (VBool b) v = true -> py_eq v (VBool true) = b.
Proof. unfold py_eq. destruct v as [|[]|z| | | |], b; cbn [as_num]; try done; intros <-%Z.eqb_eq; done. Qed.

Definition patch_water (patch : value) : Z := decimal_of (get "sourceHighWater" patch).
Definition page_waters (page : value) : list Z := map patch_water (default [] (as_list (get "patches" page))).

Section patches.
Context (valid_transcript_structure : pystr -> value -> bool) (valid_transcript_block_structure : value -> bool).
Context (runtime : value -> runtime_reply).
Local Abbreviation request := (request_transcript_patches valid_transcript_structure valid_transcript_block_structure).

Lemma valid_patch_through patch page : _valid_transcript_patch valid_transcript_block_structure patch page = Ok true ->
  patch_water patch <= decimal_of (get "throughSourceHighWater" page).
Proof.
  unfold _valid_transcript_patch. destruct (negb (is_dict patch)); [done|].
  intros [[H _]%and_then_true _]%and_then_true. injection H as H. bool_inv. done.
Qed.

(** The patches of an accepted page go up, from the position that was asked for to the last one. *)
Lemma patch_waters_increase page patches previous final :
  patch_waters valid_transcript_block_structure page patches previous = Ok (Some final) ->
  StronglySorted Z.lt (previous :: map patch_water patches)
  /\ Forall (fun w => w <= decimal_of (get "throughSourceHighWater" page)) (map patch_water patches)
  /\ List.last (map patch_water patches) previous = final.
Proof.
  revert previous. induction patches as [|patch patches IH]; intros previous; cbn [patch_waters map].
  { intros [= ->]. repeat constructor. }
  intros (valid & Hv & H)%bind_Ok. fold (patch_water patch) in H.
  destruct (negb valid || (patch_water patch <=? previous)) eqn:E; [done|]. bool_inv. subst valid.
  destruct (IH _ H) as (Hs & Hf & Hl). apply valid_patch_through in Hv.
  split; [|split; [by constructor|]].
  - constructor; [done|]. apply StronglySorted_inv in Hs as [_ Hs]. constructor; [lia|].
    eapply Forall_impl; [exact Hs|]. cbn; intros; lia.
  - by rewrite last_after.
Qed.

Lemma accepted_patches sid generation after through reply page :
  request (patches_request sid generation after through) reply = Ok page ->
  let next := decimal_of (get "nextSourceHighWater" page) in
  StronglySorted Z.lt (decimal after :: page_waters page) /\ Forall (fun w => w <= decimal through) (page_waters page)
  /\ List.last (page_waters page) (decimal after) = next
  /\ (exists s, get "nextSourceHighWater" page = VStr s)
  /\ next <= decimal through /\ (next < decimal through -> decimal after < next)
  /\ py_eq (VBool (next <? decimal through)) (get "hasMore" page) = true.
Proof.
  intros H next. unfold request_transcript_patches in H. walk H.
  match goal with Hr : require _ _ = Ok _ |- _ => apply require_Ok in Hr as -> end.
  match goal with Hv : and_then _ _ = Ok true |- _ => apply and_then_true in Hv as [Hb Hc] end.
  injection Hb as Hb. bool_inv.
  assert (get "throughSourceHighWater" page = VStr through) as Hth.
  { match goal with He : same_field page _ "throughSourceHighWater" = true |- _ => by apply py_eq_str_r in He end. }
  clear - Hc Hth. unfold _valid_transcript_patch_content in Hc. walk Hc.
  match goal with Hx : negb _ = false |- _ => apply negb_false_iff in Hx end. bool_inv.
  rewrite Hth in *. change (get "afterSourceHighWater" (patches_request _ _ _ _)) with (VStr after) in *.
  change (decimal_of (VStr after)) with (decimal after) in *. change (decimal_of (VStr through)) with (decimal through) in *.
  apply and_then_true in Hc as [Hc Hmore]. apply and_then_true in Hc as [Hc Hlast]. apply and_then_true in Hc as [_ Hw].
  injection Hmore as Hmore. injection Hlast as Hlast. apply bind_Ok in Hw as (waters & Hw & Hsome). injection Hsome as Hsome.
  apply bool_decide_eq_true in Hsome as [final ->]. apply patch_waters_increase in Hw as (Hs & Hf & Hl).
  rewrite Hth in Hf. change (decimal_of (VStr through)) with (decimal through) in Hf.
  match goal with Hp : items _ = Ok ?l |- _ => unfold items in Hp; apply from_option_res_Ok in Hp; rename l into patches; rename Hp into Hpatches end.
  assert (page_waters page = map patch_water patches) as Hpw by (unfold page_waters; by rewrite Hpatches).
  destruct (canonical_is_str (get "nextSourceHighWater" page)) as (s & Hn & _); [done|].
  rewrite <- Hpw in *.
  assert (List.last (page_waters page) (decimal after) = next /\ next <= decimal through /\ (next < decimal through -> decimal after < next))
    as (Hnext & Hle & Hlt).
  { unfold next. rewrite Hn in *. destruct (list.last patches) as [patch|] eqn:El.
    - apply py_eq_str in Hlast. apply last_Some in El as [l ->]. rewrite Hpw, map_app in *. cbn [map] in *. rewrite List.last_last.
      apply StronglySorted_inv in Hs as [_ Hs]. apply Forall_app in Hf as [_ Hf], Hs as [_ Hs].
      rewrite Forall_singleton in Hf, Hs. unfold patch_water in *. rewrite Hlast in *. done.
    - apply last_None in El as ->. rewrite Hpw. apply andb_prop in Hlast as [E1%py_eq_str E2%py_eq_str]. injection E1 as E1. injection E2 as E2.
      change (decimal after = decimal s /\ decimal s <= decimal through /\ (decimal s < decimal through -> decimal after < decimal s)).
      rewrite <- E1, <- E2. split; [done|lia]. }
  split_and!; [done|done|done|eauto|done|done|done].
Qed.

(** A client that asks for patches until the page says that there are no more: the water lines it was given, in order. *)
Fixpoint follow_patches (fuel : nat) (sid generation after through : pystr) : option (R (list Z)) :=
  match fuel with
  | O => None
  | S fuel =>
      let body := patches_request sid generation after through in
      match request body (runtime body) with
      | Err e => Some (Err e)
      | Ok page =>
          if py_eq (get "hasMore" page) (VBool true) then
            rest ← follow_patches fuel sid generation (text_of (get "nextSourceHighWater" page)) through;
            Some (rest ≫= fun rest => Ok (page_waters page ++ rest))
          else Some (Ok (page_waters page))
      end
  end.

(** (C35) Whatever the runtime answers, a client that follows the pages of patches the API accepts ends:
    one request per position between the two water lines is enough.  Unless a request fails, the patches it was given
    have strictly increasing positions after the one it started from, and the last is the water line it asked for. *)
Theorem patches_reach_the_water_line fuel sid generation after through :
  Z.max 0 (decimal through - decimal after) < Z.of_nat fuel ->
  exists r, follow_patches fuel sid generation after through = Some r
    /\ forall waters, r = Ok waters ->
         StronglySorted Z.lt (decimal after :: waters) /\ List.last waters (decimal after) = decimal through.
Proof.
  revert after. induction fuel as [|fuel IH]; intros after Hf; [lia|]. cbn [follow_patches].
  destruct (request _ _) as [page|e] eqn:E; [|by eexists].
  apply accepted_patches in E as (Hs & _ & Hl & (s & Hn) & Hle & Hlt & Hmore%py_eq_more). rewrite Hmore.
  change (text_of (get "nextSourceHighWater" page)) with (default "" (as_str (get "nextSourceHighWater" page))).
  rewrite Hn in *. change (decimal_of (VStr s)) with (decimal s) in *. cbn [as_str default from_option id].
  destruct (Z.ltb_spec (decimal s) (decimal through)) as [Hlt'|Hge].
  - specialize (Hlt Hlt'). destruct (IH s) as (r & -> & Hr); [lia|]. eexists. split; [done|].
    intros waters (rest & -> & [= <-])%bind_Ok. destruct (Hr rest eq_refl) as [Hs' Hl'].
    split; [|by rewrite last_app_default, Hl].
    change (decimal after :: page_waters page ++ rest) with ((decimal after :: page_waters page) ++ rest). by apply sorted_join with (decimal s).
  - eexists. split; [done|]. intros waters [= <-]. split; [done|]. rewrite Hl. lia.
Qed.
End patches.

(** ** The active run *)

Lemma single_active_run lim h sid k f : hosted_inv lim h -> (k, f) ∈ active_runs h sid -> active_runs h sid = [(k, f)].
Proof.
  intros Hi Hin. pose proof Hin as [Hk Hf]%elem_of_qs_list. bool_inv.
  assert (forall x, x ∈ active_runs h sid -> x = (k, f)) as Hall.
  { intros [k' f'] [Hk' Hf']%elem_of_qs_list. bool_inv. assert (k' = k) as -> by (eapply hi_one_active; eauto; congruence). congruence. }
  assert (NoDup (active_runs h sid)) as Hnd.
  { unfold active_runs. apply (NoDup_fmap_1 fst). apply qs_keys_NoDup. }
  destruct (active_runs h sid) as [|x [|y l]]; [by apply elem_of_nil in Hin| |].
  - by rewrite (Hall x) by left.
  - apply NoDup_cons in Hnd as [Hx _]. rewrite (Hall x), (Hall y) in Hx by (repeat constructor). exfalso. apply Hx. by left.
Qed.

Section active.
Context {PL : Platform} (material_citations : pystr -> option Z -> gmap pystr citation_row).

(** In every state the endpoints can reach, the request for the active run of a session never reports a conflict,
    and a successful answer names exactly the run of that session that is queued or running and whose committed log has
    not ended. *)
Theorem active_run_is_found lim h user sid q status body h' :
  hosted_inv lim h ->
  session_transcript_active_agent_run material_citations h user sid q = Ok (status, body, h') ->
  status ∈ [200; 400; 404] /\
  (status = 200 -> forall run_id, get "agentRunId" (get "agentRun" body) = VStr run_id <->
     exists f, h_runs h !! run_id = Some f /\ r_session (rf_life f) = sid /\ run_active f = true
       /\ committed_session_terminal_state (life h) run_id (rf_life f) = None).
Proof.
  intros Hi H. unfold session_transcript_active_agent_run in H.
  apply bind_Ok in H as (session & _ & H). destruct session as [f0|]; [|simplify_eq; split; [by_decide|done]].
  destruct (negb _); [simplify_eq; split; [by_decide|done]|].
  assert (forall run_id f, h_runs h !! run_id = Some f -> r_session (rf_life f) = sid -> run_active f = true -> (run_id, f) ∈ active_runs h sid) as Hin.
  { intros run_id f Hf Hs Ha. apply elem_of_qs_list. by rewrite Ha, bool_decide_eq_true_2. }
  destruct (active_runs h sid) as [|[k f] l] eqn:E.
  { cbn in H. simplify_eq. split; [by_decide|]. intros _ run_id. split; [done|]. intros (f & Hf & Hs & Ha & _).
    by pose proof (Hin _ _ Hf Hs Ha) as Hx%elem_of_nil. }
  assert ((k, f) ∈ active_runs h sid) as Hkf by (rewrite E; by left).
  pose proof (single_active_run _ _ _ _ _ Hi Hkf) as E'. rewrite E in E'. injection E' as ->.
  apply elem_of_qs_list in Hkf as [Hk Hkf]. bool_inv.
  change (take 2 (merge_sort newest_run [(k, f)])) with [(k, f)] in H. cbn [live_candidates] in H.
  destruct (committed_session_terminal_state (life h) k (rf_life f)) as [state|] eqn:Et.
  - apply bind_Ok in H as (p & Hp & H). apply bind_Ok in Hp as (p' & _ & Hp). injection Hp as <-. cbn in H. simplify_eq.
    split; [by_decide|]. intros _ run_id. split; [done|]. intros (f' & Hf' & Hs & Ha & Ht).
    pose proof (Hin _ _ Hf' Hs Ha) as [= -> ->]%list_elem_of_singleton. congruence.
  - cbn [mbind res_bind fst snd] in H. apply bind_Ok in H as (cursor & _ & H). injection H as Hst Hbody _. subst status body. split; [by_decide|].
    intros _ run_id. change (VStr k = VStr run_id <-> exists f0, h_runs h !! run_id = Some f0 /\ r_session (rf_life f0) = sid
      /\ run_active f0 = true /\ committed_session_terminal_state (life h) run_id (rf_life f0) = None).
    split; [intros [= <-]; eauto|]. intros (f' & Hf' & Hs & Ha & _).
    by pose proof (Hin _ _ Hf' Hs Ha) as [= -> ->]%list_elem_of_singleton.
Qed.
End active.

(** ** Use of the context window *)

Lemma dict_get_app k d1 d2 : existsb (fun kv => bool_decide (k = kv.1)) d1 = false -> dict_get k (d1 ++ d2) = dict_get k d2.
Proof.
  induction d1 as [|[k' v] d1 IH]; cbn; [done|]. intros [H1 H2]%orb_false_iff. rewrite H1. by apply IH.
Qed.
Lemma dict_get_app_l k d1 d2 : existsb (fun kv => bool_decide (k = kv.1)) d1 = true -> dict_get k (d1 ++ d2) = dict_get k d1.
Proof.
  induction d1 as [|[k' v] d1 IH]; cbn; [done|]. destruct (bool_decide (k = k')); [done|]. apply IH.
Qed.
Lemma keys_are_absent ks k d : keys_are ks (VDict d) = true -> k ∉ ks -> existsb (fun kv => bool_decide (k = kv.1)) d = false.
Proof.
  cbn. intros [H _]%andb_prop Hk. apply existsb_false_Forall. apply forallb_Forall in H.
  eapply Forall_impl; [exact H|]. intros kv Hin%bool_decide_eq_true. apply bool_decide_eq_false. intros ->. done.
Qed.
Lemma keys_are_present ks k d : keys_are ks (VDict d) = true -> k ∈ ks -> existsb (fun kv => bool_decide (k = kv.1)) d = true.
Proof. cbn. intros [_ H]%andb_prop Hk. apply forallb_Forall in H. by eapply Forall_forall in H. Qed.
Lemma sum_by_ext {A} (f g : A -> Z) l : (forall x, x ∈ l -> f x = g x) -> sum_by f l = sum_by g l.
Proof.
  induction l as [|x l IH]; intros H; [done|]. cbn. rewrite H by left. f_equal. apply IH. intros; apply H; by right.
Qed.
Lemma usage_numbers_add_up estimate max_tokens : 0 <= estimate -> 0 < max_tokens ->
  let u := usage_numbers estimate max_tokens in
  0 <= us_used u <= max_tokens /\ us_used u + us_free u = max_tokens
  /\ (estimate <= max_tokens -> estimate + us_buffer u = us_used u)
  /\ 0 <= us_percentage u <= 100 /\ 2 * Z.abs (us_percentage u * max_tokens - us_used u * 100) <= max_tokens.
Proof.
  intros He Hm u.
  assert (0 <= us_used u <= max_tokens) as Hu by (unfold u, usage_numbers, CONTEXT_COMPACTION_HEADROOM_TOKENS; cbn; lia).
  set (q := (us_used u * 100 + max_tokens / 2) / max_tokens).
  assert (us_percentage u = Z.min q 100) as Hp by done.
  assert (q * max_tokens <= us_used u * 100 + max_tokens / 2 < q * max_tokens + max_tokens) as Hq.
  { unfold q. pose proof (Z.div_mod (us_used u * 100 + max_tokens / 2) max_tokens). pose proof (Z.mod_pos_bound (us_used u * 100 + max_tokens / 2) max_tokens). lia. }
  pose proof (Z.div_mod max_tokens 2). pose proof (Z.mod_pos_bound max_tokens 2).
  assert (0 <= q) by nia. assert (q <= 100) by nia.
  rewrite Hp, Z.min_l by done. split_and!; try lia; unfold u, usage_numbers, CONTEXT_COMPACTION_HEADROOM_TOKENS in *; cbn in *; lia.
Qed.

(** The reported use of the context window is consistent: used and free tokens are within the window and add
    up to it; as long as the estimate fits, used tokens are the estimated tokens, which the fields of the breakdown add
    up to, with the buffer for compaction; the percentage is the nearest one between 0 and 100. *)
Theorem context_usage_adds_up payloads context_tokens event_id event f is_compacting v :
  0 < context_tokens (rf_model f) ->
  _context_usage payloads context_tokens event_id event f is_compacting = Ok (Some v) ->
  exists used free buffer percentage, let breakdown := get "breakdown" v in let tokens := context_tokens (rf_model f) in
  let estimate := sum_by (fun k => int_of (get k breakdown)) TOKEN_FIELDS in
    get "usedTokens" v = VInt used /\ get "usedPercentage" v = VInt percentage
    /\ get "freeSpaceTokens" breakdown = VInt free /\ get "autoCompactBufferTokens" breakdown = VInt buffer
    /\ 0 <= used <= tokens /\ used + free = tokens /\ (estimate <= tokens -> estimate + buffer = used)
    /\ 0 <= percentage <= 100 /\ 2 * Z.abs (percentage * tokens - used * 100) <= tokens.
Proof.
  intros Hm H. unfold _context_usage in H. destruct (usage_estimate _) as [[estimate d]|] eqn:E; [|done].
  unfold usage_estimate in E. destruct (get "contextTokenEstimate" _) as [| |n| | | |]; try done.
  destruct (get "contextTokenBreakdown" _) as [| | | | | |d']; try done.
  destruct (_ && _) eqn:Hc in E; [|done]. simplify_eq. repeat (apply andb_prop in Hc as [Hc ?]). bool_inv.
  apply bind_Ok in H as (? & _ & H). injection H as <-.
  pose proof (usage_numbers_add_up _ _ ltac:(eassumption) Hm) as Hu. cbv zeta in Hu |- *.
  do 4 eexists. split; [reflexivity|]. split; [reflexivity|].
  change (get "breakdown" (VDict [_; _; _; _; _; ("breakdown", ?b)])) with b. cbn [get].
  rewrite !dict_get_app by (by eapply keys_are_absent; [eassumption|by_decide]).
  split; [reflexivity|]. split; [reflexivity|].
  rewrite (sum_by_ext _ (fun k => int_of (get k (VDict d)))) by
    (intros k Hk; cbn [get]; rewrite dict_get_app_l; [done|]; eapply keys_are_present; [eassumption|]; apply elem_of_app; by left).
  match goal with Hsum : sum_by _ TOKEN_FIELDS = estimate |- _ => rewrite Hsum end. exact Hu.
Qed.

(** ** Examples *)

#[local] Existing Instance ascii_platform.
Definition accept_structure (_ : pystr) (_ : value) : bool := true.
Definition silent (_ : value) : runtime_reply := NoReply.

(** a captured output of three code points *)
Definition euro_text : list Z := [233; 8364; 128512].
Definition euro_payload : value :=
  VDict [("callId", VStr "call-1"); ("outputComplete", VBool true); ("outputByteLength", VInt 9); ("fullOutputPath", VStr "/out.txt")].
Definition euro_capture : capture_row :=
  Capture 9 65536 None {[0 := (encode_cps euro_text, sha256_tag (encode_cps euro_text))]}.
Definition euro_payloads : gmap pystr value := {["e-1" := euro_payload]}.
Definition euro_state : hosted :=
  Hosted members_db {["agent-1" := sample_agent]}
    {["session-1" := SessionFull (Session "ws-1" 7 "agent-1" Active) None "" false None None None (Candidate 0 "" 0 0 0) 1 1]} ∅ ∅
    {["e-1" := Event "ws-1" "session-1" "run-1" 1 (Some 1) false "tool_result" 5 None]} ∅ ∅ ∅ ∅ ∅ {["e-1" := euro_capture]} ∅ (Assets.Store ∅ ∅ ∅ ∅ ∅ ∅).

Lemma euro_session : exists f, _authorized_transcript_session euro_state 7 "session-1" = Ok (Some f).
Proof. eexists. vm_compute. reflexivity. Qed.
Lemma euro_event : exists e, tool_results euro_payloads euro_state "session-1" "call-1" = [("e-1", e)].
Proof. eexists. vm_compute. reflexivity. Qed.
Lemma euro_captured : captured (encode_cps euro_text) euro_capture.
Proof.
  split; [reflexivity|]. split; [reflexivity|]. split; [reflexivity|]. intros i Hi Hl.
  change (zlen (encode_cps euro_text)) with 9 in Hl. assert (i = 0) as -> by lia. reflexivity.
Qed.
Lemma euro_readable : readable euro_payloads euro_state 7 "session-1" "generation-1" "call-1" "e-1" euro_text.
Proof.
  split; [apply euro_session|reflexivity|split; [done|by vm_compute]|apply euro_event|reflexivity|reflexivity|reflexivity|by vm_compute|reflexivity|].
  exists euro_capture. split; [reflexivity|apply euro_captured].
Qed.
Lemma content_is_read_completely_witness :
  read_content accept_structure silent euro_payloads 3 euro_state 7 "session-1" "generation-1" "call-1" 9 0 = Some (PyStr euro_text).
Proof.
  exact (content_is_read_completely accept_structure silent euro_payloads euro_state 7 "session-1" "generation-1" "call-1" "e-1" euro_text 3
    euro_readable (le_n 3)).
Defined.

(** an inline content read from inside its last code point: an empty range that does not end *)
Lemma inline_range_can_be_empty : _transcript_utf8_range (PyStr [233]) 1 = Ok ("", 1).
Proof. vm_compute. reflexivity. Qed.

(** two pages of patches *)
Definition sample_patch (water : pystr) : value :=
  VDict [("schema", VStr "transcript.patch.v1"); ("sessionId", VStr "session-1"); ("projectionVersion", VStr TRANSCRIPT_PROJECTION_VERSION);
         ("projectionGeneration", VStr "g"); ("streamId", VStr WORKSPACE_TRANSCRIPT_STREAM_ID); ("appliedCursor", VStr water);
         ("sourceHighWater", VStr water); ("upserts", VList []); ("removals", VList [])].
Definition sample_patches (body : value) : runtime_reply :=
  let first := is_str "3" (get "afterSourceHighWater" body) in
  let water : pystr := if first then "5" else "8" in
  Reply (Some (VDict [("schema", VStr "transcript.patch.page.v1"); ("sessionId", VStr "session-1"); ("projectionVersion", VStr TRANSCRIPT_PROJECTION_VERSION);
    ("projectionGeneration", VStr "g"); ("throughSourceHighWater", VStr "8"); ("nextSourceHighWater", VStr water); ("hasMore", VBool first);
    ("patches", VList [sample_patch water])])).
Lemma sample_followed : follow_patches accept_structure (fun _ => true) sample_patches 6 "session-1" "g" "3" "8" = Some (Ok [5; 8]).
Proof. vm_compute. reflexivity. Qed.
Lemma patches_reach_the_water_line_witness :
  follow_patches accept_structure (fun _ => true) sample_patches 6 "session-1" "g" "3" "8" = Some (Ok [5; 8])
  /\ exists r, follow_patches accept_structure (fun _ => true) sample_patches 6 "session-1" "g" "3" "8" = Some r
     /\ forall waters, r = Ok waters -> StronglySorted Z.lt (3 :: waters) /\ List.last waters 3 = 8.
Proof.
  split; [exact sample_followed|].
  refine (patches_reach_the_water_line accept_structure (fun _ => true) sample_patches 6 "session-1" "g" "3" "8" _). vm_compute. reflexivity.
Defined.

Lemma after_first_inv : hosted_inv sample_limits after_first.
Proof. exact (hosted_steps_inv _ _ _ _ _ _ _ _ _ _ (unused_inv _ _ quiet_unused) sample_reached). Qed.
Local Abbreviation active_request := (session_transcript_active_agent_run no_citations after_first 7 "session-1" [("sourceHighWater", "0")]).
Lemma active_reply : (fun a => (a.1.1, get "agentRunId" (get "agentRun" a.1.2))) <$> active_request = Ok (200, VStr "run-1").
Proof. vm_compute. reflexivity. Qed.
Lemma active_answered : exists body h', active_request = Ok (200, body, h') /\ get "agentRunId" (get "agentRun" body) = VStr "run-1".
Proof.
  pose proof active_reply as H. apply fmap_Ok in H as ([[status body] h'] & H & E). cbn [fst snd] in E. injection E as <- E.
  exists body, h'. split; [exact H|symmetry; exact E].
Qed.
Lemma active_run_is_found_witness : exists f, h_runs after_first !! "run-1" = Some f /\ run_active f = true.
Proof.
  destruct active_answered as (body & h' & H & Hr).
  destruct (proj1 (proj2 (active_run_is_found no_citations sample_limits after_first 7 "session-1" _ _ _ _ after_first_inv H) eq_refl "run-1") Hr) as (f & Hf & _ & Ha & _).
  exists f. split; assumption.
Defined.

Definition usage_payload : value :=
  VDict [("purpose", VStr "main"); ("contextTokenEstimate", VInt 1000);
    ("contextTokenBreakdown", VDict [("systemPromptTokens", VInt 500); ("systemToolTokens", VInt 100); ("mcpToolTokens", VInt 40); ("skillsTokens", VInt 60);
      ("messageTokens", VInt 300); ("mcpTools", VList [VDict [("providerId", VStr "p"); ("name", VStr "t"); ("tokens", VInt 40)]])])].
Definition usage_event : event_row := Event "ws-1" "session-1" "run-1" 4 (Some 4) false "model_request_started" 9 None.
Definition usage_run : run_full := default (RunFull (Run "" "" Queued "" None None None 0) (RunIdentity 0 "" "" "" None None) "" "" "" "" "" None None) (h_runs after_first !! "run-1").
Local Abbreviation sample_usage := (_context_usage {["e-4" := usage_payload]} (fun _ => 100000) "e-4" usage_event usage_run false).
Lemma sample_usage_valid : sample_usage = Ok (Some (default VNone (match sample_usage with Ok v => v | _ => None end))).
Proof. vm_compute. reflexivity. Qed.
Lemma context_usage_adds_up_witness : exists v used free,
  sample_usage = Ok (Some v) /\ get "usedTokens" v = VInt used /\ get "freeSpaceTokens" (get "breakdown" v) = VInt free /\ used + free = 100000.
Proof.
  assert (0 < 100000) as Hpos by lia.
  destruct (context_usage_adds_up {["e-4" := usage_payload]} (fun _ => 100000) "e-4" usage_event usage_run false _ Hpos sample_usage_valid)
    as (used & free & buffer & percentage & Hused & _ & Hfree & _ & _ & Hsum & _).
  eexists _, used, free. split; [exact sample_usage_valid|]. split; [exact Hused|]. split; [exact Hfree|exact Hsum].
Defined.
