(* ===== verification/Artifacts.v ===== *)
(** * Publishing artifacts

    [packages/api/app_core/artifact_publish.py] with [ArtifactPublication] and the creation of [Artifact] of
    [packages/api/app_core/models.py], and the endpoints [publish_artifact] and [artifact_status] of
    [http/internal.py].  A publication runs in phases: the metadata and the row of the publication, the bytes, and
    the transaction that publishes the artifact and copies it into the library of its user.  Other requests may run
    between the phases.  A transaction that raises undoes the tables, not the object store. *)

From stdpp Require Import base tactics list gmap numbers sorting.
From S2P Require Import Prelude PyStr Table Utf8 Sha256 Platform Schema Access AgentIdentity Delegation Lifecycle PyValue Json Contract Snapshot WorkspaceCommit Assets Hosted Inputs.

(** ** Rows and errors *)

(** [ArtifactPublication]; the status is staging or published *)
Record publication_row := Publication {
  pb_run : pystr; pb_digest : pystr; pb_call : pystr; pb_filename : pystr; pb_size : Z; pb_sha256 : pystr;
  pb_published : bool; pb_artifact : option pystr; pb_published_at : option Z }.

Record astate := AState { as_hosted : hosted; as_publications : gmap pystr publication_row }.
Definition as_store (a : astate) : store := h_store (as_hosted a).
Definition set_as_store (f : store -> store) (a : astate) : astate := AState (set_h_store f (as_hosted a)) (as_publications a).
Definition set_as_publications f (a : astate) : astate := AState (as_hosted a) (f (as_publications a)).
(** the tables of [before] with the object store of [after] *)
Definition as_rollback (before after : astate) : astate := set_as_store (fun st => rollback st (as_store after)) before.

(** [ArtifactPublishError], and every other exception *)
Inductive pexn := PublishError (code : pystr) (status : Z) | PublishFailed.
Definition conflict (code : pystr) : pexn := PublishError code 409.
Definition plift {E A} (m : res E A) : res pexn A := catch m (fun _ => Err PublishFailed).

Definition MAX_ARTIFACT_BYTES : Z := 64 * 1024 * 1024.
Definition MAX_METADATA_BYTES : Z := 64 * 1024.
Definition ARTIFACT_PUBLICATION_SCHEMA : pystr := "artifact.publication.v1".
Definition ARTIFACT_PUBLICATION_STATUS_SCHEMA : pystr := "artifact.publication.status.v1".
Definition ARTIFACT_PUBLICATION_STATUS_FIELDS : list pystr := ["schema"; "publicationId"; "agentRunId"; "authorizationDigest"; "toolCallId"].
Definition ARTIFACT_PUBLICATION_FIELDS : list pystr := ARTIFACT_PUBLICATION_STATUS_FIELDS ++ ["filename"; "sizeBytes"; "sha256"].

(** ** The body of a request *)

(** A stream hands out at most what is asked for of its next piece; nothing means that it has ended. *)
Abbreviation stream := (list bytes).
Definition stream_read (n : Z) (s : stream) : bytes * stream :=
  match s with
  | [] => ([], [])
  | p :: s' => if zlen p <=? n then (p, s') else (take (Z.to_nat n) p, drop (Z.to_nat n) p :: s')
  end.

Definition truncated : pexn := PublishError "artifact_publication_body_truncated" 400.
(** every iteration takes at least one byte: the size is enough fuel *)
Fixpoint read_exact (fuel : nat) (s : stream) (remaining : Z) : res pexn (bytes * stream) :=
  match fuel with
  | O => Ok ([], s)
  | S fuel =>
      if remaining =? 0 then Ok ([], s)
      else
        let '(chunk, s') := stream_read remaining s in
        require (negb (bool_decide (chunk = []))) truncated;;
        p ← read_exact fuel s' (remaining - zlen chunk);
        Ok (chunk ++ p.1, p.2)
  end.
Definition _read_exact (s : stream) (size : Z) : res pexn (bytes * stream) := read_exact (Z.to_nat size) s size.

(** [int.from_bytes(prefix, "big")] *)
Definition big_endian (b : bytes) : Z := fold_left (fun acc c => acc * 256 + c) b 0.

(** The validated metadata: the identity of the publication and, for a publication, its file. *)
Record pub_identity := PubIdentity { pi_publication : pystr; pi_run : pystr; pi_digest : pystr; pi_call : pystr }.
Record pub_file := PubFile { pf_name : pystr; pf_size : Z; pf_sha256 : pystr }.
Record pub_metadata := PubMetadata { pm_identity : pub_identity; pm_file : pub_file }.

Definition _require_hash (v : value) (prefix code : pystr) : res pexn unit :=
  let digest := match v with VStr s => if startswith s prefix then removeprefix s prefix else "" | _ => "" end in
  require ((str_len digest =? 64) && chars_all is_lower_hex digest) (PublishError code 400).

Definition identity_char (c : Z) : bool := is_ascii_alnum c || existsb (Z.eqb c) [95; 45; 58; 46].
Definition identity_text (v : value) : bool :=
  match v with
  | VStr s => negb (is_empty s) && (str_len s <=? 160) && bool_decide (strip s = s) && chars_all identity_char s
  | _ => false
  end.
(** the digest of run and tool call *)
Definition expected_publication_id (run_id call_id : pystr) : pystr :=
  "pub_" +:+ sha256_hex (default [] (utf8_encode (json_dumps (VList [VStr run_id; VStr call_id])))).

Definition _validate_identity_fields (body : value) : res pexn pub_identity :=
  _require_hash (get "publicationId" body) "pub_" "artifact_publication_id_invalid";;
  _require_hash (get "authorizationDigest" body) "sha256:" "artifact_authorization_digest_invalid";;
  require (identity_text (get "agentRunId" body)) (PublishError "artifact_agentRunId_invalid" 400);;
  require (identity_text (get "toolCallId" body)) (PublishError "artifact_toolCallId_invalid" 400);;
  let run_id := text_of (get "agentRunId" body) in
  let call_id := text_of (get "toolCallId" body) in
  require (is_str (expected_publication_id run_id call_id) (get "publicationId" body)) (conflict "artifact_publication_identity_mismatch");;
  Ok (PubIdentity (text_of (get "publicationId" body)) run_id (text_of (get "authorizationDigest" body)) call_id).

Definition _validate_status_request (body : value) : res pexn pub_identity :=
  require (keys_are ARTIFACT_PUBLICATION_STATUS_FIELDS body) (PublishError "artifact_publication_status_fields_mismatch" 400);;
  require (is_str ARTIFACT_PUBLICATION_STATUS_SCHEMA (get "schema" body)) (PublishError "artifact_publication_status_schema_mismatch" 400);;
  _validate_identity_fields body.

(** ** Bytes *)

(** [_HashingReader]: the bytes it has handed out stand for their digest. *)
Record hashing_reader := HashingReader { hr_source : stream; hr_remaining : Z; hr_data : bytes }.
Definition hashing_read (size : Z) (r : hashing_reader) : res pexn (bytes * hashing_reader) :=
  if hr_remaining r =? 0 then Ok ([], r)
  else
    let '(chunk, source) := stream_read (Z.min size (hr_remaining r)) (hr_source r) in
    require (negb (bool_decide (chunk = []))) truncated;;
    Ok (chunk, HashingReader source (hr_remaining r - zlen chunk) (hr_data r ++ chunk)).
Definition require_complete (r : hashing_reader) (expected_hash : pystr) : res pexn unit :=
  require ((hr_remaining r =? 0) && bool_decide (sha256_tag (hr_data r) = expected_hash)) (conflict "artifact_integrity_mismatch").

Definition verify_stored_object (st : store) (key : pystr) (expected_size : Z) (expected_hash : pystr) : res pexn unit :=
  match (if is_empty key then None else files st !! key) with
  | None => Err (conflict "artifact_storage_missing")
  | Some (content, _) =>
      require (negb (MAX_ARTIFACT_BYTES <? zlen content) && (zlen content =? expected_size) && bool_decide (sha256_tag content = expected_hash))
        (conflict "artifact_storage_integrity_mismatch")
  end.

Section publishing.
Context {PL : Platform} (available_name : files_t -> pystr -> pystr).
(** [mimetypes.guess_type(name, strict=False)[0]] *)
Context (guess_type : pystr -> option pystr).

Definition artifact_filename_ok (filename : pystr) : bool :=
  negb (is_empty filename) && (str_len filename <=? 255) && bool_decide (strip filename = filename) && bool_decide (nfc filename = filename)
  && negb (str_has 47 filename) && negb (str_has 92 filename) && negb (bool_decide (filename = ".") || bool_decide (filename = ".."))
  && negb (chars_any (fun c => (c <? 32) || (c =? 127)) filename).

Definition _validate_publication_metadata (body : value) : res pexn pub_metadata :=
  require (keys_are ARTIFACT_PUBLICATION_FIELDS body) (PublishError "artifact_publication_fields_mismatch" 400);;
  require (is_str ARTIFACT_PUBLICATION_SCHEMA (get "schema" body)) (PublishError "artifact_publication_schema_mismatch" 400);;
  identity ← _validate_identity_fields body;
  require match get "filename" body with VStr s => artifact_filename_ok s | _ => false end (PublishError "artifact_filename_invalid" 400);;
  require (int_where (fun n => (0 <=? n) && (n <=? MAX_ARTIFACT_BYTES)) (get "sizeBytes" body)) (PublishError "artifact_size_invalid" 400);;
  _require_hash (get "sha256" body) "sha256:" "artifact_sha256_invalid";;
  Ok (PubMetadata identity (PubFile (text_of (get "filename" body)) (int_of (get "sizeBytes" body)) (text_of (get "sha256" body)))).

(** [content_length] is what [int] makes of the header; the metadata and the rest of the stream *)
Definition _decode_publication_body (content_length : option Z) (s : stream) : res pexn (pub_metadata * stream) :=
  content_length ← from_option_res (PublishError "artifact_publication_content_length_invalid" 400) content_length;
  p ← _read_exact s 4;
  let metadata_length := big_endian p.1 in
  require ((0 <? metadata_length) && (metadata_length <=? MAX_METADATA_BYTES)) (PublishError "artifact_publication_metadata_length_invalid" 400);;
  q ← _read_exact p.2 metadata_length;
  let invalid := PublishError "artifact_publication_metadata_invalid" 400 in
  text ← from_option_res invalid (utf8_decode q.1);
  body ← catch (json_loads text) (fun e => match e with JSONDecodeError => Err invalid | _ => Err PublishFailed end);
  metadata ← _validate_publication_metadata body;
  require (content_length =? 4 + metadata_length + pf_size (pm_file metadata)) (PublishError "artifact_publication_content_length_mismatch" 400);;
  Ok (metadata, q.2).

(** ** Rows of a publication *)

Definition _bound_agent_run (a : astate) (i : pub_identity) : res pexn run_full :=
  let h := as_hosted a in
  match h_authorizations h !! pi_run i, h_runs h !! pi_run i with
  | Some frozen, Some f =>
      require (agent_run_membership_is_current (identity h) (rf_membership f) (r_workspace (rf_life f)) (ri_user (rf_identity f)))
        (PublishError "artifact_scope_mismatch" 403);;
      digest ← plift (authorization_digest (au_payload frozen));
      require (bool_decide (digest = au_digest frozen)) (conflict "artifact_agent_run_authorization_invalid");;
      require (bool_decide (pi_digest i = au_digest frozen)) (PublishError "artifact_scope_mismatch" 403);;
      Ok f
  | _, _ => Err (PublishError "artifact_agent_run_not_found" 404)
  end.

Definition _require_idempotent_publication (p : publication_row) (run_id : pystr) (i : pub_identity) (file : option pub_file) : res pexn unit :=
  require (bool_decide (pb_run p = run_id) && bool_decide (pb_digest p = pi_digest i) && bool_decide (pb_call p = pi_call i)
           && match file with
              | Some f => bool_decide (pb_filename p = pf_name f) && (pb_size p =? pf_size f) && bool_decide (pb_sha256 p = pf_sha256 f)
              | None => true
              end) (conflict "artifact_publication_idempotency_conflict").

Definition _require_artifact_bytes (r : artifact_row) (file : pub_file) (code : pystr) : res pexn unit :=
  require ((ar_size r =? pf_size file) && bool_decide (ar_sha256 r = pf_sha256 file)) (conflict code).

(** [Artifact.objects.create] *)
Definition create_artifact (id : pystr) (r : artifact_row) (f : run_full) (a : astate) : res pexn astate :=
  require (bool_decide (ar_workspace r = r_workspace (rf_life f)) && bool_decide (ar_session r = r_session (rf_life f))
           && (ar_created_by r =? ri_user (rf_identity f))
           && bool_decide (se_workspace ∘ sf_row <$> h_sessions (as_hosted a) !! ar_session r = Some (ar_workspace r))) PublishFailed;;
  require (bool_decide (artifacts (as_store a) !! id = None)) PublishFailed;;
  st ← plift (save_artifact id r (as_store a));
  Ok (set_as_store (fun _ => st) a).

(** [ArtifactPublication.save]; run and tool call are unique *)
Definition publication_ok (p : publication_row) (a : astate) : bool :=
  (negb (pb_published p) || (bool_decide (is_Some (pb_artifact p)) && bool_decide (is_Some (pb_published_at p))))
  && match pb_artifact p with
     | Some id => bool_decide (ar_run <$> artifacts (as_store a) !! id = Some (pb_run p))
     | None => true
     end.
Definition same_call (p q : publication_row) : bool := bool_decide (pb_run p = pb_run q) && bool_decide (pb_call p = pb_call q).
Definition create_publication (id : pystr) (p : publication_row) (a : astate) : res pexn astate :=
  require (publication_ok p a) PublishFailed;;
  require (bool_decide (as_publications a !! id = None) && negb (qs_exists (same_call p) (as_publications a))) PublishFailed;;
  Ok (set_as_publications <[id := p]> a).

Definition filename_key (name : pystr) : pystr := str_casefold (nfc name).
Definition artifact_live (s : artifact_status) : bool := bool_decide (s = AStaging) || bool_decide (s = APublished).
(** the artifact of the run that has the file's name already *)
Definition named_artifact (st : store) (run_id name : pystr) : option (pystr * artifact_row) :=
  qs_first (fun r => bool_decide (ar_run r = run_id) && artifact_live (ar_status r) && bool_decide (filename_key (ar_name r) = filename_key name)) (artifacts st).

Definition new_artifact (new_id : pystr) (f : run_full) (run_id : pystr) (file : pub_file) (stored_filename : pystr) : artifact_row :=
  ArtifactRow (r_workspace (rf_life f)) run_id (r_session (rf_life f)) (ri_user (rf_identity f)) (pf_name file) stored_filename
    (default "application/octet-stream" (guess_type (pf_name file))) (pf_size file) (pf_sha256 file) 1
    ("workspaces/" +:+ r_workspace (rf_life f) +:+ "/artifacts/" +:+ new_id +:+ "/" +:+ stored_filename)
    AStaging None "" None 0.

(** the artifact a new publication is about *)
Definition publication_artifact (a : astate) (f : run_full) (m : pub_metadata) (new_id : pystr) : res pexn (pystr * artifact_row * astate) :=
  let file := pm_file m in
  let run_id := pi_run (pm_identity m) in
  match named_artifact (as_store a) run_id (pf_name file) with
  | Some (id, r) => _require_artifact_bytes r file "artifact_filename_conflict";; Ok (id, r, a)
  | None =>
      stored_filename ← catch (safe_filename (pf_name file))
        (fun e => match e with ValueError _ => Err (PublishError "artifact_filename_invalid" 400) | _ => Err PublishFailed end);
      let r := new_artifact new_id f run_id file stored_filename in
      a' ← create_artifact new_id r f a;
      Ok (new_id, r, a')
  end.

Definition _prepare_publication (a : astate) (m : pub_metadata) (new_id : pystr) (now : Z)
    : res pexn (publication_row * (pystr * artifact_row) * astate) :=
  let i := pm_identity m in
  let file := pm_file m in
  f ← from_option_res PublishFailed (h_runs (as_hosted a) !! pi_run i);
  match as_publications a !! pi_publication i with
  | Some p =>
      _require_idempotent_publication p (pi_run i) i (Some file);;
      id ← from_option_res (conflict "artifact_publication_state_conflict") (pb_artifact p);
      r ← from_option_res PublishFailed (artifacts (as_store a) !! id);
      Ok (p, (id, r), a)
  | None =>
      x ← publication_artifact a f m new_id;
      let '(id, r, a) := x in
      let published := bool_decide (ar_status r = APublished) in
      let p := Publication (pi_run i) (pi_digest i) (pi_call i) (pf_name file) (pf_size file) (pf_sha256 file) published (Some id)
        (if published then Some now else None) in
      a' ← create_publication (pi_publication i) p a;
      Ok (p, (id, r), a')
  end.

(** ** Storing the bytes *)

(** Where a request is in the [try] block that stores its bytes and in the handler of that block.  [default_storage]
    writes to the final path: the file is there, and visible to other requests, from its creation on, and grows by
    one chunk at a time.  A file that is deleted while it is written loses its name ([linked] is [false]): the
    writer goes on, and nobody sees what it writes. *)
Inductive storing_phase :=
| Checking (source : stream)
| Verifying
| Creating (source : stream)
| Saving (stored : pystr) (linked : bool) (reader : hashing_reader) (written : bytes)
(** the file was stored under another name, which is deleted *)
| Misplaced (stored : pystr)
| Handling (e : pexn)
| Rechecking (e : pexn)
| Deleting (e : pexn)
| Stored
| NotStored (e : pexn).

(** One file operation of a request.  [fault]: the storage raises, which leaves what was written. *)
Definition storing_step (key : pystr) (file : pub_file) (fault : bool) (now : Z) (ph : storing_phase) (st : store) : storing_phase * store :=
  match ph with
  | Checking source => (if storage_exists key st then Verifying else Creating source, st)
  | Verifying => (match verify_stored_object st key (pf_size file) (pf_sha256 file) with Ok _ => Stored | Err e => Handling e end, st)
  | Creating source =>
      if fault then (Handling PublishFailed, st)
      else
        let stored := available_name (files st) key in
        (Saving stored true (HashingReader source (pf_size file) []) [], set_files <[stored := ([], now)]> st)
  | Saving stored linked reader written =>
      if fault then (Handling PublishFailed, st)
      else match hashing_read (64 * 1024) reader with
           | Err e => (Handling e, st)
           | Ok ([], reader) =>
               if bool_decide (stored = key)
               then (match require_complete reader (pf_sha256 file) with Ok _ => Stored | Err e => Handling e end, st)
               else (Misplaced stored, st)
           | Ok (chunk, reader) =>
               (Saving stored linked reader (written ++ chunk), if linked then set_files <[stored := (written ++ chunk, now)]> st else st)
           end
  | Misplaced stored => (Handling (conflict "artifact_storage_key_conflict"), delete_stored_object stored st)
  | Handling e => (if storage_exists key st then Rechecking e else NotStored e, st)
  | Rechecking e => (if is_ok (verify_stored_object st key (pf_size file) (pf_sha256 file)) then NotStored e else Deleting e, st)
  | Deleting e => (NotStored e, delete_stored_object key st)
  | Stored => (Stored, st)
  | NotStored e => (NotStored e, st)
  end.
(** the file a request has open for writing lost its name *)
Definition cut (unlinked : bool) (ph : storing_phase) : storing_phase :=
  match ph with Saving stored linked reader written => Saving stored (linked && negb unlinked) reader written | ph => ph end.

(** [others n] is what other requests do after the [n]-th operation, and whether they delete the file that is being
    written; [faults n] tells whether the storage fails in it. *)
Fixpoint store_artifact_bytes (fuel n : nat) (others : nat -> astate -> astate * bool) (faults : nat -> bool) (key : pystr) (file : pub_file) (now : Z)
    (ph : storing_phase) (a : astate) : storing_phase * astate :=
  match ph with
  | Stored | NotStored _ => (ph, a)
  | _ =>
      match fuel with
      | O => (ph, a)
      | S fuel =>
          let '(ph, st) := storing_step key file (faults n) now ph (as_store a) in
          let '(a, unlinked) := others n (set_as_store (fun _ => st) a) in
          store_artifact_bytes fuel (S n) others faults key file now (cut unlinked ph) a
      end
  end.
(** a read per byte, and the operations before and after *)
Definition storing_fuel (file : pub_file) : nat := Z.to_nat (pf_size file) + 8.

(** ** The publishing transaction *)

Definition library_copied (st : store) (artifact_id : pystr) (user : Z) : bool :=
  qs_exists (fun l => bool_decide (lk_kind l = LinkArtifact) && bool_decide (lk_source_ref l = artifact_id)
                      && bool_decide (lb_owner <$> library st !! lk_object l = Some user)) (library_links st).
Definition saved_artifact (user : Z) (r : artifact_row) (key : pystr) (now : Z) : library_row :=
  LibraryObject user (ar_name r) LSavedArtifact (ar_content_type r) (Some (ar_size r)) (ar_sha256 r) key None OReady "" None None None None 0 1 now.

(** The outcome and the store: what was written to storage stays when the transaction is undone. *)
Definition _ingest_artifact_library_copy (st : store) (artifact_id : pystr) (r : artifact_row) (user : Z) (library_id link_id : pystr) (now : Z)
    : res pexn unit * store :=
  if library_copied st artifact_id user then (Ok tt, st)
  else
    match (if is_empty (ar_storage_key r) then None else files st !! ar_storage_key r) with
    | None => (Err (conflict "stored_object_not_available"), st)
    | Some (content, _) =>
        let key := "users/" +:+ int_str user +:+ "/library/" +:+ library_id +:+ "/" +:+ ar_safe_filename r in
        let '(stored, st1) := storage_save available_name key content now st in
        if negb (bool_decide (stored = key)) then (Err (conflict "library_storage_key_conflict"), delete_stored_object stored st1)
        else
          match (st2 ← create_library_object library_id (saved_artifact user r key now) st1;
                 links ← from_option_res IntegrityError (qs_insert link_id (LibraryLink library_id LinkArtifact artifact_id) (library_links st2));
                 Ok (set_library_links (fun _ => links) st2)) with
          | Ok st3 => (Ok tt, st3)
          | Err _ => (Err PublishFailed, delete_stored_object key st1)
          end
    end.

Definition set_ar_published (now : Z) (r : artifact_row) : artifact_row :=
  ArtifactRow (ar_workspace r) (ar_run r) (ar_session r) (ar_created_by r) (ar_name r) (ar_safe_filename r) (ar_content_type r)
    (ar_size r) (ar_sha256 r) (ar_content_generation r) (ar_storage_key r) APublished (Some now) "" (ar_deleted_at r) (ar_deletion_generation r).
Definition set_pb_published (now : Z) (p : publication_row) : publication_row :=
  Publication (pb_run p) (pb_digest p) (pb_call p) (pb_filename p) (pb_size p) (pb_sha256 p) true (pb_artifact p) (Some now).

Definition publish_transaction (a : astate) (m : pub_metadata) (f : run_full) (library_id link_id : pystr) (now : Z)
    : res pexn (publication_row * (pystr * artifact_row)) * astate :=
  let i := pm_identity m in
  match (p ← from_option_res PublishFailed (as_publications a !! pi_publication i);
         id ← from_option_res PublishFailed (pb_artifact p);
         r ← from_option_res PublishFailed (artifacts (as_store a) !! id);
         _require_idempotent_publication p (pi_run i) i (Some (pm_file m));;
         _require_artifact_bytes r (pm_file m) "artifact_integrity_mismatch";;
         Ok (p, id, r)) with
  | Err e => (Err e, a)
  | Ok (p, id, r) =>
      if pb_published p then
        match verify_stored_object (as_store a) (ar_storage_key r) (ar_size r) (ar_sha256 r) with
        | Ok _ => (Ok (p, (id, r)), a)
        | Err e => (Err e, a)
        end
      else
        let finish := fun r a' =>
          let p := set_pb_published now p in
          if publication_ok p a' then (Ok (p, (id, r)), set_as_publications <[pi_publication i := p]> a')
          else (Err PublishFailed, as_rollback a a') in
        match ar_status r with
        | AStaging =>
            let '(outcome, st) := _ingest_artifact_library_copy (as_store a) id r (ri_user (rf_identity f)) library_id link_id now in
            let a1 := set_as_store (fun _ => st) a in
            match outcome with
            | Err e => (Err e, as_rollback a a1)
            | Ok _ =>
                let r := set_ar_published now r in
                match save_artifact id r (as_store a1) with
                | Err _ => (Err PublishFailed, as_rollback a a1)
                | Ok st => finish r (set_as_store (fun _ => st) a1)
                end
            end
        | APublished => finish r a
        | _ => (Err (conflict "artifact_publish_state_conflict"), a)
        end
  end.

(** ** The requests *)

(** [others n] is what other requests do after the [n]-th operation of this one *)
Definition publish_artifact (a : astate) (others : nat -> astate -> astate * bool) (faults : nat -> bool) (content_length : option Z) (s : stream)
    (new_id library_id link_id : pystr) (now : Z) : res pexn (publication_row * (pystr * artifact_row)) * astate :=
  match (d ← _decode_publication_body content_length s;
         f ← _bound_agent_run a (pm_identity d.1);
         Ok (d, f)) with
  | Err e => (Err e, a)
  | Ok ((m, source), f) =>
      let a := (others 0%nat a).1 in
      match _prepare_publication a m new_id now with
      | Err e => (Err e, a)
      | Ok (p, (id, r), a) =>
          let a := (others 1%nat a).1 in
          if pb_published p then
            (_ ← verify_stored_object (as_store a) (ar_storage_key r) (ar_size r) (ar_sha256 r); Ok (p, (id, r)), a)
          else
            match store_artifact_bytes (storing_fuel (pm_file m)) 2 others faults (ar_storage_key r) (pm_file m) now (Checking source) a with
            | (Stored, a) => publish_transaction a m f library_id link_id now
            | (NotStored e, a) => (Err e, a)
            | (_, a) => (Err PublishFailed, a)
            end
      end
  end.

Definition published_artifact (a : astate) (body : value) : res pexn (option (publication_row * (pystr * artifact_row))) :=
  i ← _validate_status_request body;
  _bound_agent_run a i;;
  match as_publications a !! pi_publication i with
  | None => Ok None
  | Some p =>
      _require_idempotent_publication p (pi_run i) i None;;
      match pb_published p, pb_artifact p with
      | true, Some id =>
          r ← from_option_res PublishFailed (artifacts (as_store a) !! id);
          verify_stored_object (as_store a) (ar_storage_key r) (ar_size r) (ar_sha256 r);;
          Ok (Some (p, (id, r)))
      | _, _ => Ok None
      end
  end.
End publishing.

Definition publication_response (publication_id : pystr) (p : publication_row) (artifact : pystr * artifact_row) : value :=
  VDict [("schema", VStr "artifact.publication.result.v1"); ("publicationId", VStr publication_id);
         ("artifactRef", VStr ("artifact:" +:+ artifact.1)); ("filename", VStr (pb_filename p)); ("contentType", VStr (ar_content_type artifact.2));
         ("sizeBytes", VInt (pb_size p)); ("sha256", VStr (pb_sha256 p))].

(** The endpoints: status and body. *)
Definition artifact_error (failed : pystr) (e : pexn) : Z * value :=
  match e with
  | PublishError code status => (status, VDict [("error", VStr code)])
  | PublishFailed => (500, VDict [("error", VStr failed)])
  end.
Definition publish_artifact_endpoint (publication_id : pystr) (outcome : res pexn (publication_row * (pystr * artifact_row))) : Z * value :=
  match outcome with
  | Ok (p, artifact) => (201, publication_response publication_id p artifact)
  | Err e => artifact_error "artifact_publication_failed" e
  end.
(** [body] is [None] when it is not a JSON object *)
Definition artifact_status {PL : Platform} (a : astate) (body : option value) : Z * value :=
  match body with
  | None => (400, VDict [("error", VStr "invalid_json")])
  | Some body =>
      match published_artifact a body with
      | Ok None => (404, VDict [("error", VStr "artifact_publication_not_found")])
      | Ok (Some (p, artifact)) => (200, publication_response (text_of (get "publicationId" body)) p artifact)
      | Err e => artifact_error "artifact_publication_status_failed" e
      end
  end.
