(* ===== verification/LibraryProps.v ===== *)
(** * Correctness of the private library

    The loops of the library code end; folders always form a forest of their owner, two live objects of a folder
    share a name only when one of them is the saved copy of an artifact, and a restore undoes a deletion. *)

From stdpp Require Import base tactics list gmap numbers relations.
From S2P Require Import Prelude PyStr Table Utf8 Sha256 Platform Schema Json Assets Artifacts Library Sources ResourceGc.

Section termination.
Context {PL : Platform}.

(** ** The walk up the folders *)

Lemma visited_bound (lib : gmap pystr library_row) (visited : list pystr) :
  NoDup visited -> (forall x, x ∈ visited -> is_Some (lib !! x)) -> (length visited <= size lib)%nat.
Proof.
  intros Hnd Hin. rewrite <- (size_dom lib), <- (size_list_to_set (C := gset pystr) visited Hnd).
  apply subseteq_size. intros x Hx. apply elem_of_list_to_set in Hx. by apply elem_of_dom, Hin.
Qed.

Lemma parent_walk_ends fuel lib visited moving p :
  NoDup visited -> (forall x, x ∈ visited -> is_Some (lib !! x)) -> (size lib <= fuel + length visited)%nat ->
  parent_walk fuel lib visited moving p <> Err Diverges.
Proof.
  revert visited p. induction fuel as [|fuel IH]; intros visited p Hnd Hin Hf; cbn [parent_walk]; destruct p as [id|]; try done;
    destruct (bool_decide (id ∈ visited)) eqn:Hv; try done; destruct (bool_decide (id = moving)); try done;
    cbn [orb negb require mbind res_bind]; destruct (lib !! id) as [r|] eqn:Hr; try done; cbn [from_option_res mbind res_bind];
    bool_inv.
  - exfalso. assert (length (id :: visited) <= size lib)%nat; [|cbn in *; lia].
    apply visited_bound; [by constructor|]. intros x [->|Hx]%elem_of_cons; eauto.
  - apply IH; [by constructor| |cbn; lia]. intros x [->|Hx]%elem_of_cons; eauto.
Qed.

Lemma library_parent_ends lib user id moving : _library_parent lib user id moving <> Err Diverges.
Proof.
  unfold _library_parent. case_match; [done|].
  assert (Hf : forall i, ready_folder lib user i <> Err Diverges).
  { intros i. unfold ready_folder. destruct (lib !! i); cbn; [|done]. unfold require. by case_match. }
  destruct (ready_folder lib user (strip id)) as [r|e] eqn:Er; cbn; [|specialize (Hf (strip id)); rewrite Er in Hf; congruence].
  destruct (parent_walk (size lib) lib [] moving (Some (strip id))) as [u|e] eqn:Ew; cbn; [done|].
  intros [= ->]. eapply (parent_walk_ends (size lib) lib [] moving (Some (strip id))); [constructor|set_solver|cbn; lia|done].
Qed.

(** ** The search for a free name *)

Lemma pg_upper_app a b : pg_upper (a +:+ b) = pg_upper a ++ pg_upper b.
Proof. unfold pg_upper. cbn. by rewrite map_app, concat_app. Qed.
Lemma pg_upper_fixed l : Forall (fun c => is_ascii c = true /\ ((97 <=? c) && (c <=? 122)) = false) l -> pg_upper (PyStr l) = l.
Proof.
  unfold pg_upper. cbn. induction 1 as [|c l [Ha Hc] _ IH]; [done|]. cbn. rewrite upper_char_ascii by done. rewrite Hc, IH. done.
Qed.

Lemma split_at_last (c : Z) a b d e : c ∉ d -> c ∉ e -> a ++ c :: d = b ++ c :: e -> d = e.
Proof.
  intros Hd He H. assert (Hr : rev d ++ c :: rev a = rev e ++ c :: rev b).
  { apply (f_equal (@rev Z)) in H. rewrite !rev_app_distr in H. cbn in H. by rewrite <- !app_assoc in H. }
  assert (Hd' : c ∉ rev d) by (rewrite list_elem_of_In, <- in_rev, <- list_elem_of_In; done).
  assert (He' : c ∉ rev e) by (rewrite list_elem_of_In, <- in_rev, <- list_elem_of_In; done).
  rewrite <- (rev_involutive d), <- (rev_involutive e). f_equal. clear H Hd He.
  revert Hd' He' Hr. generalize (rev d) (rev e) (rev a) (rev b). clear.
  intros d. induction d as [|x d IH]; intros [|y e] a b Hd He; cbn; intros E; simplify_eq; try done; try set_solver.
  f_equal. eapply IH; [set_solver..|done].
Qed.

Lemma int_str_inj i j : 0 <= i -> 0 <= j -> int_str i = int_str j -> i = j.
Proof.
  unfold int_str, int_chars. intros Hi Hj [= H]. rewrite !(proj2 (Z.ltb_ge _ _)) in H by lia.
  destruct (digits_spec i Hi) as (c & ds & E & _ & Vi & _), (digits_spec j Hj) as (c' & ds' & E' & _ & Vj & _).
  rewrite E, E' in H. congruence.
Qed.
Lemma int_str_digits i : 0 <= i -> Forall (fun c => is_digit c = true) (code_points (int_str i)).
Proof.
  intros Hi. unfold int_str, int_chars. rewrite (proj2 (Z.ltb_ge _ _)) by lia. cbn [code_points].
  destruct (digits_spec i Hi) as (c & ds & -> & Hd & _). by apply forallb_Forall.
Qed.

(** The candidates after the first are pairwise different, however names are truncated. *)
Lemma numbered_inj name i j a b : 1 <= i -> 1 <= j ->
  _numbered_upload_name name i = Ok a -> _numbered_upload_name name j = Ok b -> pg_upper a = pg_upper b -> i = j.
Proof.
  intros Hi Hj Ha Hb E. unfold _numbered_upload_name in *. rewrite (proj2 (Z.eqb_neq i 0)) in Ha by lia. rewrite (proj2 (Z.eqb_neq j 0)) in Hb by lia.
  destruct (splitext name) as [stem ext]. res_inv. rewrite !pg_upper_app in E. rewrite !app_assoc in E. apply app_inv_tail in E.
  rewrite <- !app_assoc in E. cbn [app] in E.
  assert (Hfix : forall k, 1 <= k -> pg_upper (int_str k) = code_points (int_str k)).
  { intros k Hk. destruct (int_str k) as [l] eqn:El. apply pg_upper_fixed. pose proof (int_str_digits k ltac:(lia)) as Hd. rewrite El in Hd.
    cbn [code_points] in Hd. rewrite List.Forall_forall in *. intros c Hc%Hd.
    unfold is_digit, is_ascii in *. lia. }
  rewrite !Hfix in E by lia. rewrite !(pg_upper_fixed [_]) in E by (repeat constructor).
  rewrite !app_assoc in E. apply app_inv_tail in E. rewrite <- !app_assoc in E. cbn [app] in E.
  assert (Hno : forall k, 1 <= k -> 40 ∉ code_points (int_str k)).
  { intros k Hk Hin. pose proof (int_str_digits k ltac:(lia)) as Hd. rewrite List.Forall_forall in Hd. apply list_elem_of_In, Hd in Hin. done. }
  apply split_at_last in E; [|by apply Hno..]. apply code_points_inj in E. apply int_str_inj in E; lia.
Qed.

Lemma name_taken_upper lib user parent name ex :
  _library_name_taken lib user parent name ex = true ->
  pg_upper name ∈ map (fun kr => pg_upper (lb_name kr.2)) (map_to_list lib).
Proof.
  unfold _library_name_taken. intros H. apply existsb_exists in H as ([k r] & Hin & _). apply list_elem_of_In, elem_of_qs_list in Hin as [Hk Ho].
  unfold occupies, iexact in Ho. bool_inv. apply list_elem_of_fmap. exists (k, r). split; [done|]. by apply elem_of_map_to_list.
Qed.

(** When the loop runs out of fuel every candidate was taken. *)
Lemma numbered_loop_diverges fuel lib user parent name ex i :
  numbered_name_loop fuel lib user parent name ex i = Err Diverges ->
  forall j, i <= j <= i + Z.of_nat fuel -> exists c, _numbered_upload_name name j = Ok c /\ _library_name_taken lib user parent c ex = true.
Proof.
  revert i. induction fuel as [|fuel IH]; intros i H j Hj; cbn [numbered_name_loop] in H;
    destruct (_numbered_upload_name name i) as [c|e] eqn:Ec; cbn in H; try done;
    destruct (_library_name_taken lib user parent c ex) eqn:Et; try done.
  - assert (j = i) as -> by lia. eauto.
  - destruct (decide (j = i)) as [->|]; [eauto|]. apply (IH _ H). lia.
Qed.

Lemma numbered_loop_ends lib user parent name ex :
  numbered_name_loop (S (size lib)) lib user parent name ex 0 <> Err Diverges.
Proof.
  intros H. pose proof (numbered_loop_diverges _ _ _ _ _ _ _ H) as Hall.
  set (up := fun j => match _numbered_upload_name name j with Ok c => pg_upper c | Err _ => [] end).
  assert (Hnd : NoDup (map up (seqZ 1 (Z.of_nat (S (size lib)))))).
  { apply NoDup_fmap_2_strong; [|apply NoDup_seqZ]. intros x y Hx%elem_of_seqZ Hy%elem_of_seqZ E.
    destruct (Hall x ltac:(lia)) as (a & Ha & _), (Hall y ltac:(lia)) as (b & Hb & _). unfold up in E. rewrite Ha, Hb in E.
    eapply numbered_inj; [..|done]; [lia| |done..]. lia. }
  assert (Hle : (length (map up (seqZ 1 (Z.of_nat (S (size lib))))) <= length (map (fun kr => pg_upper (lb_name kr.2)) (map_to_list lib)))%nat).
  { apply NoDup_incl_length; [by apply NoDup_ListNoDup|]. intros u Hu. apply list_elem_of_In in Hu. apply list_elem_of_In.
    apply list_elem_of_fmap in Hu as (j & -> & Hj%elem_of_seqZ). destruct (Hall j ltac:(lia)) as (c & Hc & Ht). unfold up. rewrite Hc.
    by eapply name_taken_upper. }
  rewrite !length_map, length_seqZ, length_map_to_list in Hle. lia.
Qed.

(** A name the search returns is free. *)
Lemma numbered_loop_free fuel lib user parent name ex i c :
  numbered_name_loop fuel lib user parent name ex i = Ok c -> _library_name_taken lib user parent c ex = false.
Proof.
  revert i. induction fuel as [|fuel IH]; intros i H; cbn [numbered_name_loop] in H;
    destruct (_numbered_upload_name name i) as [d|e]; cbn in H; try done;
    destruct (_library_name_taken lib user parent d ex) eqn:Et; try congruence; eauto.
Qed.
End termination.

(** ** Folders form forests *)

(** The chain of parents from [p] ends at the root without passing [avoided]. *)
Inductive avoids (lib : gmap pystr library_row) (avoided : pystr) : option pystr -> Prop :=
| avoids_root : avoids lib avoided None
| avoids_step k r : k <> avoided -> lib !! k = Some r -> avoids lib avoided (lb_parent r) -> avoids lib avoided (Some k).
Inductive rooted (lib : gmap pystr library_row) : option pystr -> Prop :=
| rooted_root : rooted lib None
| rooted_step k r : lib !! k = Some r -> rooted lib (lb_parent r) -> rooted lib (Some k).

(** Every object lies in a folder of its owner, and climbing from folder to folder ends at the root. *)
Definition forest (lib : gmap pystr library_row) : Prop :=
  forall id r, lib !! id = Some r -> parent_matches lib r = true /\ rooted lib (lb_parent r).

(** Two live objects of a folder whose names the database considers equal, neither of them the saved copy of an
    artifact: publication creates those copies without looking at the names in the library. *)
Definition same_place {PL : Platform} (a b : library_row) : Prop :=
  lb_owner a = lb_owner b /\ lb_parent a = lb_parent b /\ pg_upper (lb_name a) = pg_upper (lb_name b) /\
  lb_status a <> ODeleted /\ lb_status b <> ODeleted /\ lb_kind a <> LSavedArtifact /\ lb_kind b <> LSavedArtifact.
Definition names_unique {PL : Platform} (lib : gmap pystr library_row) : Prop := conflict_free same_place lib.
Definition library_ok {PL : Platform} (lib : gmap pystr library_row) : Prop := forest lib /\ names_unique lib.

(** the columns the two properties are about *)
Definition place_view (r : library_row) : Z * library_kind * option pystr * pystr * object_status :=
  (lb_owner r, lb_kind r, lb_parent r, lb_name r, lb_status r).

Section effects.
Context {PL : Platform}.

(** What a request does to the table: nothing, one row, or the purge mark of deleted rows. *)
Inductive library_effect (lib : gmap pystr library_row) : gmap pystr library_row -> Prop :=
| eff_same : library_effect lib lib
| eff_put id r :
    parent_matches lib r = true ->
    (forall old, lib !! id = Some old -> lb_owner r = lb_owner old /\ lb_kind r = lb_kind old /\
       (lb_parent r = lb_parent old \/ avoids lib id (lb_parent r))) ->
    (lb_status r = ODeleted \/ lb_kind r = LSavedArtifact \/ _library_name_taken lib (lb_owner r) (lb_parent r) (lb_name r) id = false \/
     exists old, lib !! id = Some old /\ lb_status old <> ODeleted /\ lb_parent r = lb_parent old /\ lb_name r = lb_name old) ->
    library_effect lib (<[id := r]> lib)
| eff_purge lib' :
    (forall k, place_view <$> lib' !! k = place_view <$> lib !! k) ->
    library_effect lib lib'.

#[global] Instance same_place_sym : Symmetric same_place.
Proof. unfold same_place. intros a b (-> & -> & -> & ? & ? & ? & ?). done. Qed.

Lemma name_free_spec lib u p n ex : _library_name_taken lib u p n ex = false <->
  forall k r, lib !! k = Some r -> occupies u p n r = true -> ex <> "" /\ k = ex.
Proof.
  unfold _library_name_taken. rewrite <- not_true_iff_false, existsb_exists. split.
  - intros Hn k r Hk Ho. destruct (decide (ex <> "" /\ k = ex)) as [|Hne]; [done|]. exfalso. apply Hn. exists (k, r).
    split; [by apply list_elem_of_In, elem_of_qs_list|]. cbn. destruct (is_empty ex) eqn:E; [done|]. apply is_empty_false in E. cbn.
    apply negb_true_iff, bool_decide_eq_false. naive_solver.
  - intros Hall ([k r] & Hin & Hk). apply list_elem_of_In, elem_of_qs_list in Hin as [Hr Ho]. destruct (Hall _ _ Hr Ho) as [He ->].
    cbn in Hk. apply is_empty_false in He. rewrite He in Hk. by rewrite bool_decide_eq_true_2 in Hk.
Qed.
Lemma name_free_any lib u p n ex : _library_name_taken lib u p n "" = false -> _library_name_taken lib u p n ex = false.
Proof. rewrite !name_free_spec. intros H k r Hk Ho. by destruct (H _ _ Hk Ho). Qed.

Lemma occupies_spec u p n r : occupies u p n r = true <->
  lb_owner r = u /\ lb_parent r = p /\ pg_upper (lb_name r) = pg_upper n /\ lb_status r <> ODeleted.
Proof.
  unfold occupies, iexact. rewrite !andb_true_iff, negb_true_iff, bool_decide_eq_false, !bool_decide_eq_true, Z.eqb_eq. tauto.
Qed.

Lemma rooted_put lib id r p : avoids lib id (lb_parent r) \/ (exists old, lib !! id = Some old /\ lb_parent r = lb_parent old) ->
  rooted lib p -> rooted (<[id := r]> lib) p.
Proof.
  intros Hr Hp. assert (Hav : forall q, avoids lib id q -> rooted (<[id := r]> lib) q).
  { induction 1 as [|k s Hne Hk _ IH]; [constructor|]. econstructor; [by rewrite lookup_insert_ne|done]. }
  induction Hp as [|k s Hk Hs IH]; [constructor|]. destruct (decide (k = id)) as [->|Hne].
  - apply rooted_step with r; [apply lookup_insert_eq|]. destruct Hr as [Hr|(old & Ho & Hr)]; [by apply Hav|]. rewrite Hr. congruence.
  - econstructor; [by rewrite lookup_insert_ne|done].
Qed.
Lemma rooted_avoids_new lib id p : lib !! id = None -> rooted lib p -> avoids lib id p.
Proof. intros Hn. induction 1 as [|k r Hk _ IH]; [constructor|]. econstructor; [congruence|done|done]. Qed.

Lemma forest_put lib id r : forest lib -> parent_matches lib r = true ->
  (forall old, lib !! id = Some old -> lb_owner r = lb_owner old /\ lb_kind r = lb_kind old /\
     (lb_parent r = lb_parent old \/ avoids lib id (lb_parent r))) -> forest (<[id := r]> lib).
Proof.
  intros Hf Hm Hold.
  assert (Hpm : forall s, parent_matches lib s = true -> parent_matches (<[id := r]> lib) s = true).
  { unfold parent_matches. intros s. destruct (lb_parent s) as [p|]; [|done]. destruct (decide (p = id)) as [->|Hne].
    - destruct (lib !! id) as [old|] eqn:Ho; [|done]. rewrite lookup_insert_eq. destruct (Hold _ eq_refl) as (-> & -> & _). done.
    - by rewrite lookup_insert_ne. }
  assert (Hroot : rooted lib (lb_parent r)).
  { unfold parent_matches in Hm. destruct (lb_parent r) as [p|]; [|constructor]. destruct (lib !! p) as [f|] eqn:Hp; [|done].
    econstructor; [done|]. by apply (Hf p). }
  assert (Hchain : avoids lib id (lb_parent r) \/ (exists old, lib !! id = Some old /\ lb_parent r = lb_parent old)).
  { destruct (lib !! id) as [old|] eqn:Ho; [|left; by apply rooted_avoids_new]. destruct (Hold _ eq_refl) as (_ & _ & [|]); eauto. }
  intros k s [[<- <-]|[Hne Hk]]%lookup_insert_Some; [split; [by apply Hpm|by apply rooted_put]|].
  destruct (Hf _ _ Hk). split; [by apply Hpm|by apply rooted_put].
Qed.

Lemma names_put lib id r : names_unique lib ->
  (lb_status r = ODeleted \/ lb_kind r = LSavedArtifact \/ _library_name_taken lib (lb_owner r) (lb_parent r) (lb_name r) id = false \/
   exists old, lib !! id = Some old /\ lb_owner r = lb_owner old /\ lb_kind r = lb_kind old /\ lb_status old <> ODeleted /\ lb_parent r = lb_parent old /\ lb_name r = lb_name old) ->
  names_unique (<[id := r]> lib).
Proof.
  intros Hu H. apply conflict_free_insert; [apply _|done|]. intros k s Hk Hne (Ho & Hp & Hn & Hs & Hr & Hks & Hkr).
  destruct H as [H|[H|[H|(old & Hold & Hoo & Hkk & Hlive & Hpp & Hnn)]]]; [done|done| |].
  - rewrite name_free_spec in H. destruct (H k s Hk) as [_ ->]; [|done]. by apply occupies_spec.
  - apply Hne. eapply Hu; [done..|]. split_and!; congruence.
Qed.

Lemma purge_lookup (lib lib' : gmap pystr library_row) :
  (forall k, place_view <$> lib' !! k = place_view <$> lib !! k) ->
  forall k r, lib' !! k = Some r -> exists s, lib !! k = Some s /\ lb_owner r = lb_owner s /\ lb_kind r = lb_kind s /\
    lb_parent r = lb_parent s /\ lb_name r = lb_name s /\ lb_status r = lb_status s.
Proof.
  intros H k r Hk. specialize (H k). rewrite Hk in H. cbn in H. symmetry in H. apply fmap_Some in H as (s & Hs & E).
  exists s. split; [done|]. by injection E.
Qed.

(** Every effect keeps the library well formed. *)
Lemma effect_ok lib lib' : library_effect lib lib' -> library_ok lib -> library_ok lib'.
Proof.
  intros [|id r Hm Hold Hname|lib1 Hview] [Hf Hu]; [done| |].
  - split; [by apply forest_put|]. apply names_put; [done|]. destruct Hname as [|[|[|(old & Ho & ?)]]]; [by left|by right; left|by right; right; left|].
    right; right; right. exists old. destruct (Hold _ Ho) as (-> & -> & _). naive_solver.
  - assert (Hroot : forall p, rooted lib p -> rooted lib1 p).
    { induction 1 as [|k r Hk _ IH]; [constructor|]. pose proof (Hview k) as Hv. rewrite Hk in Hv. apply fmap_Some in Hv as (s & Hs & E).
      injection E as _ _ E _ _. econstructor; [done|]. congruence. }
    pose proof (purge_lookup lib lib1 Hview) as Hl. split.
    + intros k r Hk. destruct (Hl _ _ Hk) as (s & Hs & Ho & _ & Hp & _). destruct (Hf _ _ Hs) as [Hm Hr]. rewrite Hp. split; [|by apply Hroot].
      unfold parent_matches in *. rewrite Hp, Ho. destruct (lb_parent s) as [p|]; [|done]. destruct (lib !! p) as [f|] eqn:Ef; [|done].
      pose proof (Hview p) as Hv. rewrite Ef in Hv. apply fmap_Some in Hv as (g & -> & E). injection E as E1 E2 _ _ _. by rewrite <- E1, <- E2.
    + intros k1 r1 k2 r2 H1 H2 HC. destruct (Hl _ _ H1) as (s1 & Hs1 & ? & ? & ? & ? & ?), (Hl _ _ H2) as (s2 & Hs2 & ? & ? & ? & ? & ?).
      eapply Hu; [done..|]. unfold same_place in *. naive_solver congruence.
Qed.
End effects.

(** ** The effect of every request *)

(** What may happen to the store: the phases of the requests of [http/library.py], the expiry of trash, the copy of a
    published artifact into the library, and
    everything that leaves the library table alone (other requests, garbage collection, file operations). *)
Inductive library_step {PL : Platform} (available_name : files_t -> pystr -> pystr) : store -> store -> Prop :=
| step_folder st0 st user display_name folder name parent id link now :
    folder_prepare st0 user display_name folder = Ok (name, parent) ->
    library_step available_name st (folder_commit st user name parent id link now).2
| step_note st0 st user display_name markdown folder uuid name parent md st1 id link now now' :
    note_prepare available_name st0 user display_name markdown folder uuid now = Ok (name, parent, md, st1) ->
    library_step available_name st (note_commit st user name parent md id link now').2
| step_upload st0 st user uploads fs ps folder uuids parent stored st1 ids links now now' :
    upload_prepare available_name st0 user uploads fs ps folder uuids now = (Ok (parent, stored), st1) ->
    library_step available_name st (upload_commit st user parent stored ids links now').2
| step_update st user id payload : library_step available_name st (update_library_object st user id payload).2
| step_rewrite st user id name markdown uuid now commits :
    library_step available_name st (update_library_note available_name st user id name markdown uuid now commits).2
| step_delete st user id resource now : library_step available_name st (delete_library_object st user id resource now).2
| step_restore st user id now : library_step available_name st (restore_library_object st user id now).2
| step_purge st user id now : library_step available_name st (permanently_delete_library_object st user id now).2
| step_expire st ids now st' : purge_library ids now st = Ok st' -> library_step available_name st st'
| step_artifact_copy st artifact_id r user id link now :
    library_step available_name st (_ingest_artifact_library_copy available_name st artifact_id r user id link now).2
| step_elsewhere st st' : library st' = library st -> library_step available_name st st'.

Section handlers.
Context {PL : Platform} (available_name : files_t -> pystr -> pystr).

Lemma lift_Ok {A} (m : res exn A) a : lift m = Ok a <-> m = Ok a.
Proof. unfold lift. destruct m; cbn; naive_solver. Qed.

Lemma save_library_Ok id r st st' : save_library_object id r st = Ok st' ->
  st' = set_library <[id := r]> st /\ parent_matches (library st) r = true /\
  (forall old, library st !! id = Some old -> lb_owner r = lb_owner old).
Proof.
  unfold save_library_object. intros H. walk H. repeat match goal with Hx : require _ _ = Ok _ |- _ => apply require_Ok in Hx end.
  split_and!; [done|done|]. intros old Ho. rewrite Ho in *. by bool_inv.
Qed.
Lemma create_library_Ok id r st st' : create_library_object id r st = Ok st' ->
  library st !! id = None /\ st' = set_library <[id := r]> st /\ parent_matches (library st) r = true.
Proof.
  unfold create_library_object. destruct (library st !! id) eqn:E; [done|]. intros H. apply save_library_Ok in H. naive_solver.
Qed.
Lemma create_link_library id l st st' : create_link id l st = Ok st' -> library st' = library st /\ resources st' = resources st /\ files st' = files st.
Proof. unfold create_link. destruct (qs_insert _ _ _); intros [= <-]. done. Qed.
Lemma update_resources_Ok p f st st' : update_resources p f st = Ok st' -> st' = set_resources (fun _ => qs_update p f (resources st)) st.
Proof. unfold update_resources. intros H. walk H. done. Qed.
Lemma save_resource_Ok id r st st' : save_resource id r st = Ok st' -> st' = set_resources (fun _ => <[id := r]> (resources st)) st.
Proof. unfold save_resource. intros H. walk H. done. Qed.
Lemma register_Ok o kind key id st st' : register_derived_resource o kind key id st = Ok st' ->
  exists t, st' = set_resources (fun _ => t) st.
Proof.
  unfold register_derived_resource. destruct (stored_object_identity o) as [k i]. cbv zeta. intros H. repeat case_match; try done;
    first [apply save_resource_Ok in H; by eauto|injection H as <-; exists (resources st); by destruct st].
Qed.

Lemma delete_stored_library key st : library (delete_stored_object key st) = library st.
Proof. unfold delete_stored_object. by case_match. Qed.

Lemma delete_gc_library key st st' : delete_stored_object_for_gc key st = Ok st' -> library st' = library st.
Proof. unfold delete_stored_object_for_gc. intros H. walk H; done. Qed.

(** A new live row with a free name. *)
Lemma effect_new id r st st' : create_library_object id r st = Ok st' ->
  _library_name_taken (library st) (lb_owner r) (lb_parent r) (lb_name r) "" = false -> library_effect (library st) (library st').
Proof.
  intros (Hn & -> & Hm)%create_library_Ok Ht. cbn. apply eff_put; [done| |].
  - intros old Ho. congruence.
  - right; right; left. by apply name_free_any.
Qed.
(** The saved copy of an artifact is a new object of the root folder. *)
Lemma copy_effect st artifact_id r user id link now :
  library_effect (library st) (library (_ingest_artifact_library_copy available_name st artifact_id r user id link now).2).
Proof.
  unfold _ingest_artifact_library_copy. destruct (library_copied _ _ _); [apply eff_same|]. destruct (if is_empty _ then _ else _) as [[content t]|]; [|apply eff_same].
  unfold storage_save. cbv zeta. destruct (negb _); [cbn [snd]; rewrite delete_stored_library; apply eff_same|]. case_match eqn:E; cbn [snd].
  2:{ rewrite delete_stored_library. apply eff_same. }
  apply bind_Ok in E as (st2 & H2 & E). apply bind_Ok in E as (links & _ & E). injection E as <-. apply create_library_Ok in H2 as (Hn & -> & Hm). cbn in *.
  apply eff_put; [done|congruence|]. right; by left.
Qed.

Lemma folder_effect st user name parent id link now :
  library_effect (library st) (library (folder_commit st user name parent id link now).2).
Proof.
  unfold folder_commit, run_tx. case_match eqn:E; [|apply eff_same]. destruct a as [resp st']. cbn. walk E.
  apply lift_Ok in Hx0. apply create_link_library in Hx1 as (-> & _). apply require_Ok, negb_true_iff in Hx. by eapply effect_new.
Qed.
Lemma note_effect st user name parent md id link now :
  library_effect (library st) (library (note_commit st user name parent md id link now).2).
Proof.
  unfold note_commit. case_match eqn:E; cbn.
  - apply bind_Ok in E as (u & Hu & E). apply bind_Ok in E as (st1 & H1 & E). apply lift_Ok in H1. apply create_link_library in E as (-> & _).
    apply require_Ok, negb_true_iff in Hu. by eapply effect_new.
  - unfold delete_stored_object. case_match; apply eff_same.
Qed.

Lemma uploaded_effect st user md parent id link now p :
  _create_uploaded_library_object st user md parent id link now = Ok p -> library_effect (library st) (library p.2).
Proof.
  unfold _create_uploaded_library_object. destruct (reusable_object _ _ _) as [[k r]|]; intros H.
  - apply bind_Ok in H as (st1 & H1 & H). injection H as <-. apply lift_Ok in H1. apply delete_gc_library in H1. cbn. rewrite H1. apply eff_same.
  - apply bind_Ok in H as (c & Hc & H). cbv zeta in H. apply bind_Ok in H as (st1 & H1 & H). apply bind_Ok in H as (st2 & H2 & H). injection H as <-.
    apply lift_Ok in H1. apply create_link_library in H2 as (E & _). cbn. rewrite E. eapply effect_new; [done|]. by eapply numbered_loop_free.
Qed.
Lemma create_uploaded_effect stored : forall st user parent ids links now n items q,
  create_uploaded st user stored parent ids links now n items = Ok q -> rtc library_effect (library st) (library q.2).
Proof.
  induction stored as [|md stored IH]; intros st user parent ids links now n items q H; cbn in H; [injection H as <-; done|].
  apply bind_Ok in H as ([[id r] st1] & H1 & H). eapply rtc_l; [by eapply uploaded_effect|]. by eapply IH.
Qed.
Lemma delete_batch_library stored : forall failed st, library (delete_batch stored failed st).2 = library st.
Proof.
  induction stored as [|md stored IH]; intros failed st; [done|]. cbn. destruct (delete_stored_object_for_gc _ _) as [st1|] eqn:E; rewrite IH; [|done].
  by eapply delete_gc_library.
Qed.
Lemma cleanup_library {E A} (raised : exn -> E) stored (answer : res E A) st : library (after_cleanup raised stored answer st).2 = library st.
Proof.
  unfold after_cleanup, _delete_stored_upload_batch. rewrite <- (delete_batch_library stored false st). by destruct (delete_batch _ _ _).
Qed.
Lemma upload_effect st user parent stored ids links now :
  rtc library_effect (library st) (library (upload_commit st user parent stored ids links now).2).
Proof.
  unfold upload_commit, _create_uploaded_library_objects. case_match eqn:E; [|by rewrite cleanup_library].
  destruct a as [items st']. cbn. by apply create_uploaded_effect in E.
Qed.

Lemma walk_avoids fuel lib visited moving p : parent_walk fuel lib visited moving p = Ok tt -> avoids lib moving p.
Proof.
  revert visited p. induction fuel as [|fuel IH]; intros visited [id|] H; try apply avoids_root; cbn in H;
    apply bind_Ok in H as (u & Hu & H); apply bind_Ok in H as (r & Hr & H); [done|].
  apply require_Ok, negb_true_iff in Hu. bool_inv. apply from_option_res_Ok in Hr. eapply avoids_step; eauto.
Qed.
Lemma library_parent_avoids lib user folder moving p : _library_parent lib user folder moving = Ok p -> avoids lib moving p.
Proof.
  unfold _library_parent. case_match; [intros [= <-]; constructor|]. intros Hp. walk Hp. destruct x0. by eapply walk_avoids.
Qed.
Lemma live_object_Ok lib user id r : live_object lib user id = Ok r -> lib !! id = Some r /\ lb_owner r = user /\ lb_status r <> ODeleted.
Proof. unfold live_object, _library_object. intros H. res_inv. by bool_inv. Qed.
Lemma library_object_Ok lib user id r : _library_object lib user id = Ok r -> lib !! id = Some r /\ lb_owner r = user.
Proof. unfold _library_object. intros H. res_inv. by bool_inv. Qed.

Lemma update_effect st user id payload : library_effect (library st) (library (update_library_object st user id payload).2).
Proof.
  assert (Hgen : forall n p, library_effect (library st) (library (run_tx st
    (item ← live_object (library st) user id;
     name ← match n with Some n => _require_library_display_name n | None => Ok (lb_name item) end;
     parent ← match p with Some p => _library_parent (library st) user p id | None => Ok (lb_parent item) end;
     if bool_decide (name = lb_name item) && bool_decide (parent = lb_parent item) then Ok (LStatus 200 (BObject id item), st)
     else
       _require_library_name_available (library st) user parent name id;;
       let item := renamed name parent item in
       st ← lift (save_library_object id item st); Ok (LStatus 200 (BObject id item), st))
    (fun e => if is_does_not_exist e then Some (lerror 404 "library_object_not_found")
              else if bool_decide (e = LibraryNameConflict) then Some (lerror 409 "library_name_conflict")
              else if is_value_error e then Some (lerror 400 "library_update_request_invalid") else None)).2)).
  { intros n p. unfold run_tx. case_match eqn:E; [|apply eff_same]. destruct a as [resp st']. cbn.
    apply bind_Ok in E as (item & Hi & E). apply bind_Ok in E as (name & _ & E). apply bind_Ok in E as (parent & Hp & E).
    case_match; [injection E as _ <-; apply eff_same|]. apply bind_Ok in E as (u & Hu & E). apply bind_Ok in E as (st1 & H1 & E). injection E as _ <-.
    apply live_object_Ok in Hi as (Hi & Ho & Hl). apply lift_Ok, save_library_Ok in H1 as (-> & Hm & _). cbn. apply eff_put; [done| |].
    - intros old Hold. assert (old = item) as -> by congruence. cbn. split_and!; [done..|].
      destruct p; [right; by eapply library_parent_avoids|]. left. by injection Hp.
    - right; right; left. cbn. rewrite Ho. by apply require_Ok, negb_true_iff in Hu. }
  unfold update_library_object. destruct payload as [[n|] [p|]];
    [exact (Hgen (Some n) (Some p))|exact (Hgen (Some n) None)|exact (Hgen None (Some p))|apply eff_same].
Qed.

(** A row whose place is unchanged while it stays live or becomes deleted. *)
Lemma effect_inplace id r old st : library st !! id = Some old -> parent_matches (library st) r = true ->
  lb_owner r = lb_owner old -> lb_kind r = lb_kind old -> lb_parent r = lb_parent old ->
  (lb_status r = ODeleted \/ lb_status old <> ODeleted /\ (lb_name r = lb_name old \/
     _library_name_taken (library st) (lb_owner r) (lb_parent r) (lb_name r) id = false)) ->
  library_effect (library st) (<[id := r]> (library st)).
Proof.
  intros Hold Hm Ho Hk Hp Hn. apply eff_put; [done| |].
  - intros old' E. assert (old' = old) as -> by congruence. eauto.
  - destruct Hn as [|(Hl & [|])]; [by left| |by right; right; left]. right; right; right. eauto 6.
Qed.

Lemma store_bytes_tables content area uuid name ct now st p :
  store_bytes available_name content area uuid name ct now st = Ok p -> library p.2 = library st /\ resources p.2 = resources st.
Proof. unfold store_bytes, storage_save. intros H. walk H. done. Qed.

Lemma rewrite_effect st user id name markdown uuid now commits :
  library_effect (library st) (library (update_library_note available_name st user id name markdown uuid now commits).2).
Proof.
  unfold update_library_note. case_match eqn:E; [|apply eff_same]. destruct a as [[[item item'] md] st1].
  case_match eqn:E2; [|cbn; rewrite delete_stored_library; apply eff_same]. destruct commits; [|cbn; rewrite delete_stored_library; apply eff_same].
  cbn [snd]. apply bind_Ok in E2 as (st2 & H2 & E2). apply bind_Ok in E2 as (st3 & H3 & E2). injection E2 as <-. rewrite delete_stored_library.
  apply lift_Ok in H2, H3. unfold tombstone_superseded_derived_resources in H3. cbn [stored_object_identity] in H3.
  apply bind_Ok in H3 as (? & _ & H3). apply update_resources_Ok in H3 as ->. apply save_library_Ok in H2 as (-> & Hm & _). cbn.
  apply bind_Ok in E as (n & _ & E). apply bind_Ok in E as (i & Hi & E). apply bind_Ok in E as (u & Hk & E). apply bind_Ok in E as (u' & Hn & E).
  apply bind_Ok in E as (c & _ & E). apply bind_Ok in E as (p & Hp & E). injection E as <- <- <- <-. apply lift_Ok, store_bytes_tables in Hp as [Hp _].
  rewrite Hp in *. apply library_object_Ok in Hi as [Hi Ho]. apply require_Ok in Hk, Hn. bool_inv.
  eapply effect_inplace; [done..|]. right. split; [congruence|]. right. cbn. by rewrite Ho.
Qed.

Lemma tombstone_library id item now by_ rid st st' : tombstone_stored_object (OwnLibrary id item) now by_ rid st = Ok st' ->
  exists r', tombstoned now by_ (OwnLibrary id item) = OwnLibrary id r' /\ library st' = <[id := r']> (library st) /\
    parent_matches (library st) r' = true.
Proof.
  unfold tombstone_stored_object. intros H. apply bind_Ok in H as (u & _ & H). cbn [tombstoned stored_object_identity save_owner] in *. cbv zeta in H.
  apply bind_Ok in H as (st1 & H1 & H). apply bind_Ok in H as (st2 & H2 & H). apply save_library_Ok in H1 as (-> & Hm & _).
  apply update_resources_Ok in H2 as ->. eexists. split; [done|]. split; [|done].
  case_match; [by injection H as <-|]. apply register_Ok in H as (t & ->). done.
Qed.
Lemma delete_effect st user id rid now : library_effect (library st) (library (delete_library_object st user id rid now).2).
Proof.
  unfold delete_library_object, run_tx. case_match eqn:E; [|apply eff_same]. destruct a as [resp st']. cbn.
  apply bind_Ok in E as (item & Hi & E). case_match; [injection E as _ <-; apply eff_same|]. apply bind_Ok in E as (st1 & H1 & E). injection E as _ <-.
  apply live_object_Ok in Hi as (Hi & _). apply lift_Ok, tombstone_library in H1 as (r' & Ht & -> & Hm). injection Ht as <-.
  eapply effect_inplace; try done. by left.
Qed.

Lemma prepare_restore_library id item st p : _prepare_library_storage_restore id item st = Ok p -> library p.2 = library st.
Proof.
  unfold _prepare_library_storage_restore. cbv zeta. intros Hr. repeat case_match; try (by injection Hr as <-).
  apply bind_Ok in Hr as (st1 & Hup & Hr). injection Hr as <-. by apply update_resources_Ok in Hup as ->.
Qed.
Lemma restore_effect st user id now : library_effect (library st) (library (restore_library_object st user id now).2).
Proof.
  unfold restore_library_object, run_tx. case_match eqn:E; [|apply eff_same]. destruct a as [resp st']. cbn.
  apply bind_Ok in E as (item & Hi & E). apply bind_Ok in E as (u & Hd & E). cbv zeta in E.
  case_match; [injection E as _ <-; apply eff_same|]. case_match; [injection E as _ <-; apply eff_same|].
  apply bind_Ok in E as (p & Hp & E). apply lift_Ok, prepare_restore_library in Hp. case_match; [injection E as _ <-; rewrite Hp; apply eff_same|].
  apply bind_Ok in E as (name & Hn & E). apply bind_Ok in E as (status & Hs & E). apply bind_Ok in E as (st1 & Hsv & E). injection E as _ <-.
  apply library_object_Ok in Hi as [Hi Ho]. apply lift_Ok, save_library_Ok in Hsv as (-> & Hm & _). cbn. rewrite Hp in *. apply eff_put; [done| |].
  - intros old Hold. assert (old = item) as -> by congruence. cbn. split_and!; [done..|by left].
  - right; right; left. cbn. rewrite Ho. by eapply numbered_loop_free.
Qed.

Lemma purge_effect st user id now : library_effect (library st) (library (permanently_delete_library_object st user id now).2).
Proof.
  unfold permanently_delete_library_object, run_tx. case_match eqn:E; [|apply eff_same]. destruct a as [resp st']. cbn.
  apply bind_Ok in E as (item & Hi & E). case_match eqn:Hd; [injection E as _ <-; apply eff_same|]. case_match; [injection E as _ <-; apply eff_same|].
  apply bind_Ok in E as (st1 & H1 & E). apply bind_Ok in E as (st2 & H2 & E). injection E as _ <-.
  apply library_object_Ok in Hi as [Hi _]. apply lift_Ok, save_library_Ok in H1 as (-> & Hm & _). apply lift_Ok, update_resources_Ok in H2 as ->. cbn.
  bool_inv. eapply effect_inplace; try done. by left.
Qed.
Lemma expire_effect ids now st st' : purge_library ids now st = Ok st' -> library_effect (library st) (library st').
Proof.
  unfold purge_library, purge_listed. cbv zeta. intros H. apply bind_Ok in H as (t & Ht & H). injection H as <-. apply bind_Ok in Ht as (u & _ & Ht).
  injection Ht as <-. apply eff_purge. intros k. cbn. rewrite map_lookup_imap. destruct (library st !! k) as [r|]; cbn; [|done]. by case_match.
Qed.

Lemma step_effect st st' : library_step available_name st st' -> rtc library_effect (library st) (library st').
Proof.
  intros [ | | | | | | | | | |? ? E]; [..|rewrite E; apply rtc_refl]; first [apply upload_effect|apply rtc_once];
    eauto using copy_effect, folder_effect, note_effect, update_effect, rewrite_effect, delete_effect, restore_effect, purge_effect, expire_effect.
Qed.
Lemma steps_ok st st' : rtc (library_step available_name) st st' -> library_ok (library st) -> library_ok (library st').
Proof.
  intros Hs Hok. eapply (rtc_ind_r (fun s => library_ok (library s))); [done| |done]. intros s s' _ Hstep IH.
  apply step_effect in Hstep. eapply (rtc_ind_r library_ok); [done| |done]. intros l l' _ He. by apply effect_ok.
Qed.
End handlers.

Lemma numbered_length {PL : Platform} name i c : _numbered_upload_name name i = Ok c -> 1 <= str_len c <= 255.
Proof.
  unfold _numbered_upload_name. intros H. apply bind_Ok in H as (u & Hu & H). apply require_Ok, andb_prop in Hu as [Hn Hl].
  apply negb_true_iff, is_empty_false in Hn. bool_inv. destruct (i =? 0).
  - injection H as <-. split; [|done]. destruct name as [[|x l]]; [done|]. unfold str_len, zlen. cbn. lia.
  - destruct (splitext name) as [stem ext]. cbv zeta in H. apply bind_Ok in H as (u' & Hlim & H). apply require_Ok, Z.leb_le in Hlim.
    injection H as <-.
    assert (Ht : forall n (l : list Z), 0 <= str_len (PyStr (take n l)) <= Z.of_nat n).
    { intros n l. unfold str_len, zlen. cbn [code_points]. rewrite length_take. lia. }
    specialize (Ht (Z.to_nat (255 - str_len ext - str_len ("(" +:+ int_str i +:+ ")"))) (code_points stem)).
    rewrite Z2Nat.id in Ht by lia. rewrite (str_len_app (PyStr _)), (str_len_app (_ +:+ _) ext).
    assert (0 <= str_len ext) by apply zlen_nonneg. assert (0 <= str_len (int_str i)) by apply zlen_nonneg.
    rewrite !(str_len_app "("), !(str_len_app _ ")") in *. change (str_len "(") with 1 in *. change (str_len ")") with 1 in *. lia.
Qed.
Lemma numbered_loop_result {PL : Platform} fuel lib user parent name ex i :
  match numbered_name_loop fuel lib user parent name ex i with
  | Ok c => 1 <= str_len c <= 255
  | Err e => e = Diverges \/ e = LExn (ValueError "upload_filename_invalid")
  end.
Proof.
  revert i. induction fuel as [|fuel IH]; intros i; cbn [numbered_name_loop];
    destruct (_numbered_upload_name name i) as [c|e] eqn:Ec; cbn;
    try (destruct (_library_name_taken lib user parent c ex); [first [by left|apply IH]|by eapply numbered_length]).
  all: right; unfold _numbered_upload_name, require in Ec; repeat case_match; cbn in Ec; congruence.
Qed.

(** The unbounded loops of the library code end.  Searching a free name for an object, whatever the
    library contains, returns a name of 1 to 255 characters that no live object of the folder has, or reports
    that the name cannot be numbered; and climbing the parents of a folder ends on every table, cyclic ones
    included. *)
Theorem library_loops_terminate {PL : Platform} lib user parent name exclude folder moving :
  match _available_numbered_library_name lib user parent name exclude with
  | Ok c => 1 <= str_len c <= 255 /\ _library_name_taken lib user parent c exclude = false
  | Err e => e = LExn (ValueError "upload_filename_invalid")
  end /\
  _library_parent lib user folder moving <> Err Diverges.
Proof.
  split; [|apply library_parent_ends]. unfold _available_numbered_library_name.
  pose proof (numbered_loop_result (S (size lib)) lib user parent name exclude 0) as Hr.
  pose proof (numbered_loop_ends lib user parent name exclude) as Hd.
  destruct (numbered_name_loop _ lib user parent name exclude 0) as [c|e] eqn:E; [split; [done|by eapply numbered_loop_free]|].
  destruct Hr as [->|]; done.
Qed.

(** (C20) The library stays well formed.  Whatever requests, uploads, deletions, restores, purges and
    collections happen, and copies of published artifacts arrive, in whatever interleaving of their phases: every
    object lies in a folder of its owner, climbing from folder to folder always ends at the root (moving a folder
    below itself is refused), and two live objects of a folder have names the database considers equal only when
    one of them is the saved copy of an artifact. *)
Theorem library_stays_well_formed {PL : Platform} available_name st st' :
  library_ok (library st) -> rtc (library_step available_name) st st' -> library_ok (library st').
Proof. intros Hok Hsteps. by eapply steps_ok. Qed.

(** ** Sample requests *)

Definition empty_store : store := Store ∅ ∅ ∅ ∅ ∅ ∅.
(** a key that is taken is lengthened until it is longer than every key *)
Definition sample_name (fs : files_t) (key : pystr) : pystr :=
  if decide (is_Some (fs !! key)) then key +:+ str_join "" (map fst (map_to_list fs)) +:+ "_" else key.

Lemma empty_library_ok : library_ok (PL := ascii_platform) (library empty_store).
Proof.
  change (library empty_store) with (∅ : gmap pystr library_row).
  split; [intros id r Hr; by rewrite lookup_empty in Hr|intros k1 r1 k2 r2 Hr; by rewrite lookup_empty in Hr].
Qed.

Definition sample_folders : store :=
  let st := (folder_commit (PL := ascii_platform) empty_store 7 "Plans" None "lib_1" "link_1" 10).2 in
  (folder_commit (PL := ascii_platform) st 7 "Drafts" (Some "lib_1") "lib_2" "link_2" 11).2.
(** the outer folder is moved below the inner one, which is refused, and renamed *)
Definition sample_moved : store :=
  let st := (update_library_object (PL := ascii_platform) sample_folders 7 "lib_1" (UpdateLibraryObject None (Some "lib_2"))).2 in
  (update_library_object (PL := ascii_platform) st 7 "lib_1" (UpdateLibraryObject (Some "Archive") None)).2.

Lemma sample_rows : (fun r => (lb_name r, lb_parent r)) <$> library sample_moved =
  {["lib_1" := ("Archive", None); "lib_2" := ("Drafts", Some "lib_1")]}.
Proof. vm_compute. reflexivity. Qed.
Lemma sample_folders_prepared : folder_prepare (PL := ascii_platform) empty_store 7 "Plans" "" = Ok ("Plans", None) /\
  folder_prepare (PL := ascii_platform) (folder_commit (PL := ascii_platform) empty_store 7 "Plans" None "lib_1" "link_1" 10).2 7 "Drafts" "lib_1"
    = Ok ("Drafts", Some "lib_1").
Proof. split; vm_compute; reflexivity. Qed.

Lemma library_stays_well_formed_witness :
  (fun r => (lb_name r, lb_parent r)) <$> library sample_moved = {["lib_1" := ("Archive", None); "lib_2" := ("Drafts", Some "lib_1")]} /\
  library_ok (PL := ascii_platform) (library sample_moved).
Proof.
  split; [exact sample_rows|].
  apply (library_stays_well_formed (PL := ascii_platform) sample_name empty_store sample_moved).
  - exact empty_library_ok.
  - unfold sample_moved, sample_folders. do 2 (eapply rtc_r; [|apply step_update]).
    eapply rtc_r; [|eapply step_folder; exact (proj2 sample_folders_prepared)]. eapply rtc_r; [|eapply step_folder; exact (proj1 sample_folders_prepared)].
    apply rtc_refl.
Defined.

(** An object can be created in a folder that is already deleted.  The target folder is checked
    before the lock on the owner is taken: when the folder is deleted between the check and the commit, the
    request still succeeds, and the new live object lies in a deleted folder. *)
Theorem folder_deleted_before_commit :
  match create_library_folder (PL := ascii_platform) sample_folders
          (fun st => (delete_library_object st 7 "lib_2" "res_1" 20).2) 7 "Notes" "lib_2" "lib_3" "link_3" 21 with
  | (Ok (LStatus 201 _), st) =>
      lb_status <$> library st !! "lib_2" = Some ODeleted /\
      (fun r => (lb_status r, lb_parent r)) <$> library st !! "lib_3" = Some (OReady, Some "lib_2")
  | _ => False
  end.
Proof. vm_compute. split; reflexivity. Qed.

(** The copy of a published artifact takes a name that is in use: the library has a live folder "Plans", and the
    copy of an artifact of that name becomes a second live object "Plans" of the same folder. *)
Definition plans_artifact : artifact_row :=
  ArtifactRow "ws-1" "run-1" "session-1" 7 "Plans" "Plans" "text/plain" 2 (sha256_tag [104; 105]) 1 "workspaces/ws-1/artifacts/artifact-1/Plans" AStaging
    None "" None 0.
Definition with_plans_artifact : store := set_files <["workspaces/ws-1/artifacts/artifact-1/Plans" := ([104; 105], 20)]> sample_folders.
Theorem saved_copy_takes_a_used_name :
  let p := _ingest_artifact_library_copy sample_name with_plans_artifact "artifact-1" plans_artifact 7 "lib_9" "link_9" 30 in
  p.1 = Ok tt /\
  (fun r => (lb_name r, lb_parent r, lb_status r)) <$> library p.2 !! "lib_1" = Some ("Plans" : pystr, None, OReady) /\
  (fun r => (lb_name r, lb_parent r, lb_status r)) <$> library p.2 !! "lib_9" = Some ("Plans" : pystr, None, OReady).
Proof. vm_compute. split_and!; reflexivity. Qed.
