(* ===== verification/SourcesProps.v ===== *)
(** * Correctness of shared sources

    Only members with control over a source change it, change its grants or delete it; a member who may write to it
    adds objects, which marks it ready; requests change nothing else; deleting and restoring a source are inverse. *)

From stdpp Require Import base tactics list gmap numbers.
From S2P Require Import Prelude PyStr Table Utf8 Sha256 Platform Schema Access Assets Sources LibraryProps.

(** The requests of [http/sources.py] that can change something; an upload in its two phases, the storing of the
    file and the transaction. *)
Inductive source_request :=
| QCreate (source_type name new_id : pystr)
| QUpdate (sid name : pystr)
| QRestore (sid : pystr)
| QDelete (sid : pystr)
| QPurge (sid : pystr)
| QGrant (sid group_id : pystr) (access : access_level) (new_id : pystr)
| QRegrant (sid grant_id : pystr) (access : access_level)
| QRevoke (sid grant_id : pystr)
| QStoreUpload (sid : pystr) (upload : option upload_file) (display_path uuid : pystr)
| QAttachUpload (sid path : pystr) (md : metadata) (new_id : pystr).

(** The response, [None] for an upload that goes on with its transaction, and the state. *)
Definition serve_source {PL : Platform} (available_name : files_t -> pystr -> pystr) (x : sstate) (user : Z) (wid : pystr) (now : Z) (q : source_request)
  : res exn (option sresponse) * sstate :=
  let handled (m : source_handler) := match m with Ok (r, x') => (Ok (Some r), x') | Err e => (Err e, x) end in
  match q with
  | QCreate source_type name new_id => handled (create_source x user wid source_type name new_id)
  | QUpdate sid name => handled (update_source x user wid sid name)
  | QRestore sid => handled (restore_source x user wid sid now)
  | QDelete sid => handled (delete_source x user wid sid now)
  | QPurge sid => handled (permanently_delete_source x user wid sid now)
  | QGrant sid group_id access new_id => handled (create_source_grant x user wid sid group_id access new_id)
  | QRegrant sid grant_id access => handled (update_source_grant x user wid sid grant_id access)
  | QRevoke sid grant_id => handled (delete_source_grant x user wid sid grant_id)
  | QStoreUpload sid upload display_path uuid =>
      let '(r, x') := source_upload_prepare available_name x user wid sid upload display_path uuid now in
      (match r with Ok (inl response) => Ok (Some response) | Ok (inr _) => Ok None | Err e => Err e end, x')
  | QAttachUpload sid path md new_id =>
      let '(r, x') := source_upload_commit x user wid sid path md new_id in
      (match r with Ok response => Ok (Some response) | Err e => Err e end, x')
  end.
Definition target (q : source_request) : pystr :=
  match q with
  | QCreate _ _ id | QUpdate id _ | QRestore id | QDelete id | QPurge id | QGrant id _ _ _ | QRegrant id _ _ | QRevoke id _
  | QStoreUpload id _ _ _ | QAttachUpload id _ _ _ => id
  end.

(** The user is a member of the active workspace, and an administrator, or a group grant gives the member
    the rank on the source. *)
Definition member_may (x : sstate) (user : Z) (wid sid : pystr) (required : access_level) : Prop :=
  workspace_is_active (access_db x) wid = true /\
  exists mid m, memberships (x_db x) !! mid = Some m /\ m_user m = user /\ m_workspace m = wid /\
    (is_admin m \/ exists a, grants_access (access_db x) mid m sid a /\ SOURCE_ACCESS_RANK required <= SOURCE_ACCESS_RANK a).

(** Nothing but the source [sid] and the grants on it differ. *)
Definition only_source (sid : pystr) (x x' : sstate) : Prop :=
  x_store x' = x_store x /\
  (forall k, k <> sid -> x_sources x' !! k = x_sources x !! k) /\
  exists t, x_db x' = set_grants (fun _ => t) (x_db x) /\
    forall k, grants (x_db x) !! k = t !! k \/
      (forall g, grants (x_db x) !! k = Some g -> gr_source g = sid) /\ (forall g, t !! k = Some g -> gr_source g = sid).

Lemma locked_source_Some x user wid sid required mid m s :
  _locked_source_for_access x user wid sid required = Ok (Some (mid, m, s)) ->
  member_may x user wid sid required /\ x_sources x !! sid = Some s /\ sc_workspace s = wid /\ m_workspace m = wid.
Proof.
  unfold _locked_source_for_access, access_at_least. intros H. walk H. destruct x1; [|done]. injection H as -> -> ->.
  match goal with Hl : locked_workspace_membership_for _ _ _ _ = Ok _ |- _ => apply locked_membership_Some in Hl as (Hm & Hw & Hu & _ & Ha) end.
  bool_inv. split; [|done]. split; [done|]. exists mid, m. split_and!; try done.
  match goal with Hs : source_access_is_at_least ?d ?a ?b ?c ?e ?r = Ok true |- _ =>
    destruct (source_access_is_at_least_iff d a b c e r) as (ok & Hok & Hiff); [cbn; congruence|] end.
  apply Hiff. congruence.
Qed.

Lemma only_source_refl sid x : only_source sid x x.
Proof. split; [done|]. split; [done|]. exists (grants (x_db x)). split; [by destruct x as [[] ? ?]|]. by left. Qed.
Lemma save_source_only sid s x x' : save_source sid s x = Ok x' -> only_source sid x x' /\ x' = set_x_sources <[sid := s]> x.
Proof.
  unfold save_source. intros H. walk H. split; [|done]. split; [done|]. split; [intros k Hk; cbn; by rewrite lookup_insert_ne|].
  exists (grants (x_db x)). split; [by destruct x as [[] ? ?]|]. by left.
Qed.
Lemma grant_change_only sid k (g : option grant_row) x :
  (forall g0, grants (x_db x) !! k = Some g0 -> gr_source g0 = sid) -> (forall g1, g = Some g1 -> gr_source g1 = sid) ->
  only_source sid x (set_x_db (set_grants (partial_alter (fun _ => g) k)) x).
Proof.
  intros Hold Hnew. split; [done|]. split; [done|]. eexists. split; [done|]. intros k'. destruct (decide (k' = k)) as [->|Hne].
  - right. rewrite lookup_partial_alter_eq. done.
  - left. by rewrite lookup_partial_alter_ne.
Qed.

(** Every handler with a target runs only under control access. *)
Lemma with_source_change x user wid sid k resp x' :
  with_source x (_locked_source_for_access x user wid sid AccessControl) k = Ok (resp, x') ->
  (forall mid m s, x_sources x !! sid = Some s -> m_workspace m = wid -> k mid m s = Ok (resp, x') -> only_source sid x x') ->
  x' = x \/ member_may x user wid sid AccessControl /\ only_source sid x x'.
Proof.
  unfold with_source. intros H Hk. apply bind_Ok in H as (locked & Hl & H). destruct locked as [[[mid m] s]|]; [|injection H as _ <-; by left].
  right. apply locked_source_Some in Hl as (Hmay & Hs & _ & Hw). eauto.
Qed.

Lemma save_grant_only id g x x' sid : save_grant id g x = Ok x' -> gr_source g = sid ->
  (forall g0, grants (x_db x) !! id = Some g0 -> gr_source g0 = sid) -> only_source sid x x'.
Proof.
  unfold save_grant. intros H Hg Hold. walk H. apply (grant_change_only _ id (Some g)); [done|]. by intros ? [= <-].
Qed.
Lemma grant_of_Some x m sid id g : grant_of x m sid id = Some g -> grants (x_db x) !! id = Some g /\ gr_source g = sid.
Proof.
  unfold grant_of. destruct (grants (x_db x) !! id) as [g'|]; cbn; [|done]. case_match eqn:E; [|done]. intros [= <-]. by bool_inv.
Qed.

(** Discharge [only_source] for a handler that either answers an error or saves. *)
Ltac only_step :=
  match goal with
  | |- only_source _ ?x ?x => apply only_source_refl
  | H : save_source _ _ _ = Ok _ |- _ => apply save_source_only in H as [H _]; exact H
  | H : grant_of _ _ _ _ = Some _ |- _ => apply grant_of_Some in H as [? ?]
  | H : save_grant _ _ _ = Ok _ |- _ => eapply save_grant_only in H; [exact H|..]
  end.

(** ** Uploads *)

(** the tables of the store stay, files may differ *)
Definition same_tables (st st' : store) : Prop :=
  library st' = library st /\ source_objects st' = source_objects st /\ artifacts st' = artifacts st /\ library_links st' = library_links st /\
  resources st' = resources st.
Lemma set_files_tables f st : same_tables st (set_files f st).
Proof. done. Qed.
#[global] Instance same_tables_refl : Reflexive same_tables.
Proof. done. Qed.
Lemma delete_stored_tables key st : same_tables st (delete_stored_object key st).
Proof. unfold delete_stored_object. by case_match. Qed.
Lemma delete_gc_tables {PL : Platform} key st st' : delete_stored_object_for_gc key st = Ok st' -> same_tables st st'.
Proof. unfold delete_stored_object_for_gc. intros H. walk H; done. Qed.
Lemma try_save_tables {PL : Platform} available_name key content now st : same_tables st (storage_try_save available_name key content now st).2.
Proof. unfold storage_try_save. by repeat case_match. Qed.
Lemma store_upload_tables {PL : Platform} available_name upload area uuid now st : same_tables st (store_upload available_name upload area uuid now st).2.
Proof.
  unfold store_upload. destruct (safe_filename _) as [filename|]; [|done]. cbv zeta.
  match goal with |- context [storage_try_save ?a ?k ?c ?n ?t] => pose proof (try_save_tables a k c n t) as Ht; destruct (storage_try_save a k c n t) as [[key|e] st1] end; [done|].
  destruct (delete_stored_object_for_gc _ _) as [st2|] eqn:E; [|done]. apply delete_gc_tables in E. cbn in *. unfold same_tables in *. naive_solver congruence.
Qed.

Lemma upload_prepare_effect {PL : Platform} available_name x user wid sid upload path uuid now :
  exists st, (source_upload_prepare available_name x user wid sid upload path uuid now).2 = set_x_store (fun _ => st) x /\ same_tables (x_store x) st.
Proof.
  assert (forall st, x = set_x_store (fun _ => x_store x) x) as Hx by (by destruct x).
  unfold source_upload_prepare. cbv zeta. destruct (_source_for_member _ _ _ _) as [[[[mid m] s]|]|]; [|exists (x_store x); by destruct x..].
  destruct (from_option_res _ _ ≫= _) as [[response|[up p]]|]; [exists (x_store x); by destruct x| |exists (x_store x); by destruct x].
  match goal with |- context [store_upload available_name up ?a uuid now ?st] => pose proof (store_upload_tables available_name up a uuid now st) as Ht;
    destruct (store_upload available_name up a uuid now st) as [stored st1] end. exists st1. done.
Qed.
(** The transaction of an upload attaches the object and marks the source ready, or deletes the stored file. *)
Lemma upload_commit_effect x user wid sid path md new_id :
  let x' := (source_upload_commit x user wid sid path md new_id).2 in
  x' = set_x_store (delete_stored_object (md_key md)) x \/
  exists s r, member_may x user wid sid AccessWrite /\ x_sources x !! sid = Some s /\ source_deleted s = false /\
    source_objects (x_store x) !! new_id = None /\ so_source r = sid /\
    x' = set_x_sources <[sid := set_sc_ready s]> (set_x_store (set_source_objects <[new_id := r]>) x).
Proof.
  unfold source_upload_commit. cbv zeta. destruct (_locked_source_for_access _ _ _ _ _) as [[[[mid m] s]|]|] eqn:El; [|by left..].
  destruct (source_deleted s) eqn:Ed; [by left|]. case_match eqn:E; [|by left]. right. apply locked_source_Some in El as (Hmay & Hs & _).
  apply bind_Ok in E as (x1 & H1 & E). apply save_source_only in E as [_ ->]. unfold create_source_object in H1. cbv zeta in H1.
  apply bind_Ok in H1 as (u & Hu & H1). apply bind_Ok in H1 as (u' & _ & H1). apply bind_Ok in H1 as (st & Hst & H1). injection H1 as <-.
  apply require_Ok in Hu. bool_inv. unfold save_source_object in Hst. walk Hst. do 2 eexists. do 4 (split; [done|]). split; [|reflexivity]. done.
Qed.

Section changes.
Context {PL : Platform} (available_name : files_t -> pystr -> pystr).
Local Abbreviation serve := (serve_source available_name).

Definition is_upload (q : source_request) : bool := match q with QStoreUpload _ _ _ _ | QAttachUpload _ _ _ _ => true | _ => false end.
Lemma handled_state (m : source_handler) x x' (r : res exn (option sresponse)) :
  match m with Ok (r, x') => (Ok (Some r), x') | Err e => (Err e, x) end = (r, x') -> x' = x \/ exists resp, m = Ok (resp, x').
Proof. destruct m as [[resp x1]|e]; intros [= <- <-]; eauto. Qed.

Lemma control_change x user wid now q resp x' : is_upload q = false -> serve x user wid now q = (resp, x') ->
  x' = x \/ member_may x user wid (target q) AccessControl /\ only_source (target q) x x'.
Proof.
  intros Hq Hs. destruct q; try done; cbn [serve_source target] in *; apply handled_state in Hs as [->|[resp' H]]; try (by left);
    try (apply with_source_change in H; [done|]; intros mid m s Hs Hw Hk; walk Hk; repeat only_step; try done; try congruence).
  - unfold create_source in H. walk H; try (by left). right.
    match goal with Hl : locked_workspace_membership_for _ _ _ _ = Ok _ |- _ => apply locked_membership_Some in Hl as (Hm & Hw & Hu & _ & Ha) end.
    split; [split; [done|]; do 2 eexists; split_and!; try done; left; by apply role_in_admin|].
    unfold create_source_row in *. case_match; [done|]. by repeat only_step.
  - match goal with Hr : require _ _ = Ok _ |- _ => apply require_Ok in Hr end. bool_inv. intros g0 Hg0. congruence.
  - apply (grant_change_only _ _ None); [|done]. intros g0 Hg0. congruence.
Qed.

(** What a request on sources may do, by the access its user has. *)
Record source_change (user : Z) (wid sid : pystr) (x x' : sstate) : Prop := SourceChange {
  (** a source that differs is the target, changed under control, or marked ready by an upload of someone who may write *)
  ch_source : forall k, x_sources x' !! k <> x_sources x !! k -> k = sid /\
    (member_may x user wid sid AccessControl \/
     member_may x user wid sid AccessWrite /\ exists s, x_sources x !! sid = Some s /\ source_deleted s = false /\ x_sources x' !! sid = Some (set_sc_ready s));
  (** a grant that differs is on the target, and the user has control *)
  ch_grants : forall k, grants (x_db x') !! k <> grants (x_db x) !! k -> member_may x user wid sid AccessControl /\
    (forall g, grants (x_db x) !! k = Some g \/ grants (x_db x') !! k = Some g -> gr_source g = sid);
  (** an object that differs is new, belongs to the target, and the user may write *)
  ch_objects : forall k, source_objects (x_store x') !! k <> source_objects (x_store x) !! k -> member_may x user wid sid AccessWrite /\
    source_objects (x_store x) !! k = None /\ exists r, source_objects (x_store x') !! k = Some r /\ so_source r = sid;
  (** nothing else but files differs *)
  ch_db : exists t, x_db x' = set_grants (fun _ => t) (x_db x);
  ch_store : library (x_store x') = library (x_store x) /\ artifacts (x_store x') = artifacts (x_store x) /\
    library_links (x_store x') = library_links (x_store x) /\ resources (x_store x') = resources (x_store x) }.

Lemma only_change user wid sid x x' : member_may x user wid sid AccessControl -> only_source sid x x' -> source_change user wid sid x x'.
Proof.
  intros Hmay (Hst & Hsrc & t & Hdb & Ht). constructor; rewrite ?Hst; try done; [| |by eauto].
  - intros k Hk. destruct (decide (k = sid)) as [->|Hne]; [by auto|]. by destruct (Hk (Hsrc _ Hne)).
  - intros k Hk. split; [done|]. rewrite Hdb in *. cbn in *. destruct (Ht k) as [E|[H1 H2]]; [by rewrite E in Hk|]. intros g [Hg|Hg]; eauto.
Qed.
Lemma files_change user wid sid x st : same_tables (x_store x) st -> source_change user wid sid x (set_x_store (fun _ => st) x).
Proof. intros (? & E & ? & ? & ?). constructor; cbn; try done; [by rewrite E|]. exists (grants (x_db x)). by destruct x as [[] ? ?]. Qed.

Lemma unchanged user wid sid x : source_change user wid sid x x.
Proof. constructor; try done. exists (grants (x_db x)). by destruct x as [[] ? ?]. Qed.

(** (C40) Access decides who changes what.  Whatever request on sources a user makes (creating, renaming, deleting,
    restoring, purging or sharing a source, uploading an object in either phase): a source whose row changes is the
    one asked for, and the user has control over it (is an administrator of the active workspace, or is reached by a
    group grant of control), or the request is an upload of a member who may write, the source is live, and only its
    status becomes ready and its failure reason empty; grants change only on that source under control; objects are
    only added, to that source, by a member who may write; and nothing else changes but stored files. *)
Theorem source_changes_need_access x user wid now q resp x' :
  serve x user wid now q = (resp, x') -> source_change user wid (target q) x x'.
Proof.
  intros H. destruct (is_upload q) eqn:Hq.
  - destruct q; try done; cbn [serve_source target] in *.
    + pose proof (upload_prepare_effect available_name x user wid sid upload display_path uuid now) as (st & E & Ht).
      destruct (source_upload_prepare _ _ _ _ _ _ _ _ _) as [r x1]. cbn in E. injection H as _ <-. subst. by apply files_change.
    + pose proof (upload_commit_effect x user wid sid path md new_id) as He. destruct (source_upload_commit _ _ _ _ _ _ _) as [r x1]. cbn in He.
      injection H as _ <-. destruct He as [->|(s & r1 & Hmay & Hs & Hd & Hn & Hr & ->)].
      { apply (files_change user wid sid x (delete_stored_object (md_key md) (x_store x))). apply delete_stored_tables. }
      constructor; cbn; try done.
      * intros k Hk. destruct (decide (k = sid)) as [->|Hne]; [|by rewrite lookup_insert_ne in Hk]. split; [done|]. right. split; [done|].
        exists s. by rewrite lookup_insert_eq.
      * intros k Hk. destruct (decide (k = new_id)) as [->|Hne]; [|by rewrite lookup_insert_ne in Hk]. split; [done|]. split; [done|].
        exists r1. by rewrite lookup_insert_eq.
      * exists (grants (x_db x)). by destruct x as [[] ? ?].
  - destruct (control_change _ _ _ _ _ _ _ Hq H) as [->|[Hmay Ho]]; [|by apply only_change].
    by apply unchanged.
Qed.
End changes.

(** ** Listing *)

Lemma elem_of_listed x user wid l :
  list_sources x user wid = Ok (SStatus 200 (SSources l), x) ->
  exists access mid m, workspace_membership_for (access_db x) (Some user) wid WORKSPACE_ROLES = Ok (Some (mid, m)) /\
    source_access_map_for_workspace_member (access_db x) (Some user) wid = Ok (Some access) /\
    forall sid s a, (sid, s, a) ∈ l <-> x_sources x !! sid = Some s /\ source_deleted s = false /\ access !! sid = Some a.
Proof.
  unfold list_sources. intros H. walk H. match goal with Ha : source_access_map_for_workspace_member _ _ _ = Ok (Some ?g) |- _ => rename g into access; rename Ha into Hmap end.
  pose proof Hmap as Hmem. unfold source_access_map_for_workspace_member in Hmem. apply bind_Ok in Hmem as (o & Hm & Hmem).
  destruct o as [[mid m]|]; [|done]. exists access, mid, m. split; [done|]. split; [done|]. intros sid s a. rewrite list_elem_of_omap. split.
  - intros ([sid' s'] & Hin & Ha). apply elem_of_order_by in Hin. apply list_elem_of_filter in Hin as [[_ Hd] Hk]. apply elem_of_map_to_list in Hk. cbn in *.
    destruct (access !! sid') eqn:Ea; cbn in Ha; [|done]. injection Ha as -> -> ->. done.
  - intros (Hs & Hd & Ha). exists (sid, s). split; [|cbn; by rewrite Ha]. apply elem_of_order_by, list_elem_of_filter. split; [cbn; rewrite Ha; eauto|].
    by apply elem_of_map_to_list.
Qed.

(** Grants are on sources of their workspace, which [SourceGrant.save] checks. *)
Definition grants_bound (x : sstate) : Prop :=
  forall k g s, grants (x_db x) !! k = Some g -> x_sources x !! gr_source g = Some s -> sc_workspace s = gr_workspace g.

(** The list of sources agrees with the access check of the other endpoints.  A member of the
    workspace sees a source, with a level, exactly when it is a source of the workspace that is not deleted and
    the check used for a single source computes that level for the member. *)
Theorem listed_sources_iff x user wid l :
  grants_bound x -> list_sources x user wid = Ok (SStatus 200 (SSources l), x) ->
  exists mid m, workspace_membership_for (access_db x) (Some user) wid WORKSPACE_ROLES = Ok (Some (mid, m)) /\
  forall sid s a, (sid, s, a) ∈ l <->
    x_sources x !! sid = Some s /\ sc_workspace s = wid /\ source_deleted s = false /\
    source_access_level_for_membership (access_db x) mid m sid (Source (sc_workspace s)) = Ok (Some a).
Proof.
  intros Hb H. apply elem_of_listed in H as (access & mid & m & Hm & Hmap & Hin). exists mid, m. split; [done|]. intros sid s a. rewrite Hin.
  assert (Hsrc : x_sources x !! sid = Some s -> sources (access_db x) !! sid = Some (Source (sc_workspace s))) by (cbn; rewrite lookup_fmap; by intros ->).
  split.
  - intros (Hs & Hd & Ha). assert (Hw : sc_workspace s = wid).
    { unfold source_access_map_for_workspace_member in Hmap. rewrite Hm in Hmap. cbn in Hmap. apply membership_for_Some in Hm as (_ & Hmw & _).
      destruct (role_in (m_role m) WORKSPACE_ADMIN_ROLES); injection Hmap as <-.
      - rewrite lookup_fmap in Ha. destruct (filter _ _ !! sid) as [r|] eqn:Ef; [|done]. apply map_lookup_filter_Some in Ef as [Er Ew]. cbn in Ew.
        specialize (Hsrc Hs). cbn in Hsrc, Er. rewrite Hsrc in Er. by injection Er as <-.
      - rewrite foldl_access_map, lookup_empty in Ha. apply best_access_Some in Ha as [Ha _].
        apply (elem_of_member_accesses (access_db x) mid m sid a) in Ha as (gk & g & Hg & Hgw & <- & _).
        rewrite (Hb _ _ _ Hg Hs). congruence. }
    split_and!; try done. erewrite access_map_lookup; eauto. by rewrite Ha.
  - intros (Hs & Hw & Hd & Ha). split_and!; try done. erewrite access_map_lookup in Ha; eauto. by injection Ha.
Qed.

(** ** Deleting and restoring *)

Lemma locked_source_same x x' user wid sid required :
  x_db x' = x_db x -> (fun s => Source (sc_workspace s)) <$> x_sources x' = (fun s => Source (sc_workspace s)) <$> x_sources x ->
  forall mid m s s', _locked_source_for_access x user wid sid required = Ok (Some (mid, m, s)) -> x_sources x' !! sid = Some s' ->
  sc_workspace s' = sc_workspace s -> _locked_source_for_access x' user wid sid required = Ok (Some (mid, m, s')).
Proof.
  intros Hdb Hsrc mid m s s' H Hs' Hw. assert (Hacc : access_db x' = access_db x) by (unfold access_db; by rewrite Hdb, Hsrc).
  unfold _locked_source_for_access, access_at_least in *. rewrite Hacc. walk H. rewrite Hs', Hx. destruct x1; [|done]. injection H as -> -> ->. cbn.
  rewrite Hw, Heqb. by rewrite Hx0.
Qed.

Lemma save_source_succeeds sid s x : source_lifecycle_valid s = true -> (sc_status s = OFailed -> strip (sc_failure_reason s) <> "") ->
  save_source sid s x = Ok (set_x_sources <[sid := s]> x).
Proof.
  intros Hv Hr. unfold save_source, require_failure_reason. rewrite Hv. cbn [require mbind res_bind].
  destruct (bool_decide (sc_status s = OFailed)) eqn:E; [|done]. bool_inv. specialize (Hr E). apply is_empty_false in Hr. by rewrite Hr.
Qed.

Section round_trip.
Context (s : source_state) (user now : Z) (Hv : source_lifecycle_valid s = true) (Hd : source_deleted s = false).
(** the row of a deleted source *)
Definition deleted_row : source_state := set_sc_lifecycle ODeleted (Some now) (Some user) (sc_purged_at s) (Some (sc_status s)) s.

Lemma live_lifecycle : sc_deleted_at s = None /\ sc_purged_at s = None /\ sc_deleted_from s = None.
Proof. unfold source_lifecycle_valid, source_deleted in *. destruct (sc_status s); bool_inv; done. Qed.
Lemma deleted_row_valid : source_lifecycle_valid deleted_row = true.
Proof.
  destruct live_lifecycle as (_ & Hp & _). unfold source_lifecycle_valid, deleted_row. cbn. rewrite Hp. unfold source_deleted in Hd. by destruct (sc_status s).
Qed.
Lemma deleted_row_back : sc_deleted_by s = None -> set_sc_lifecycle (sc_status s) None None None None deleted_row = s.
Proof. destruct live_lifecycle as (H1 & H2 & H3). intros H4. unfold deleted_row. destruct s. cbn in *. by subst. Qed.
Lemma deleted_row_restorable later : now <= later < now + TRASH_RETENTION ->
  trash_is_restorable (sc_deleted_at deleted_row) (sc_purged_at deleted_row) later = true.
Proof.
  intros Ht. destruct live_lifecycle as (_ & Hp & _). unfold trash_is_restorable, trash_cutoff. cbn. rewrite Hp. cbn. lia.
Qed.
End round_trip.

(** Restoring undoes deleting.  A live source is deleted and, within thirty days and with no other
    change, restored by someone with control over it: both requests succeed, the source is exactly what it was,
    and in between its objects are not listed. *)
Theorem restore_undoes_delete x user wid sid s mid m now later :
  _locked_source_for_access x user wid sid AccessControl = Ok (Some (mid, m, s)) ->
  source_lifecycle_valid s = true -> source_deleted s = false -> sc_deleted_by s = None ->
  (sc_status s = OFailed -> strip (sc_failure_reason s) <> "") -> now <= later < now + TRASH_RETENTION ->
  exists x1, delete_source x user wid sid now = Ok (SStatus 200 SOk, x1) /\
    granted_source_objects x1 user sid (default s (x_sources x1 !! sid)) = Ok [] /\
    restore_source x1 user wid sid later = Ok (SStatus 200 (SSource sid s AccessControl), x).
Proof.
  intros Hl Hv Hd Hby Hreason Ht. pose proof Hl as (_ & Hs & Hw & _)%locked_source_Some.
  exists (set_x_sources <[sid := deleted_row s user now]> x). unfold delete_source, restore_source, with_source.
  rewrite (locked_source_same x (set_x_sources <[sid := deleted_row s user now]> x) user wid sid AccessControl eq_refl) with (mid := mid) (m := m) (s := s) (s' := deleted_row s user now);
    [|cbn; rewrite fmap_insert; apply insert_id; by rewrite lookup_fmap, Hs|done|cbn; by rewrite lookup_insert_eq|done].
  rewrite Hl. cbn [mbind res_bind]. rewrite Hd. split; [|split].
  - fold (deleted_row s user now). by rewrite save_source_succeeds by first [by apply deleted_row_valid|done].
  - cbn. rewrite lookup_insert_eq. cbn. unfold granted_source_objects. by rewrite bool_decide_eq_false_2.
  - rewrite deleted_row_restorable by done. cbn [negb source_deleted]. change (source_deleted (deleted_row s user now)) with true. cbn [sc_deleted_from deleted_row set_sc_lifecycle from_option_res mbind res_bind].
    fold (deleted_row s user now). rewrite deleted_row_back by done. rewrite save_source_succeeds by done. cbn. do 2 f_equal.
    unfold set_x_sources. cbn. rewrite insert_insert_eq, insert_id by done. by destruct x.
Qed.

(** ** Samples *)

Definition sample_source : source_state := SourceState "ws" UploadedFile "Docs" OReady "" None None None None 1.
Definition sample_state : sstate := SState sample_db {["src-1" := sample_source]} empty_store.
(** a second custom group is given control, by the owner *)
Definition sample_shared : sstate := set_x_db (set_grants <["gra-3" := Grant "ws" "src-1" "grp-1" AccessControl]>) (set_x_db (set_grants (delete "gra-2")) sample_state).

(** renaming needs control; a member who may write adds an object to a failed source, which marks it ready *)
Definition failed_source : source_state := SourceState "ws" UploadedFile "Docs" OFailed "no text" None None None None 1.
Definition failed_state : sstate := SState sample_db {["src-1" := failed_source]} empty_store.
Definition sample_file : metadata := Metadata "a.txt" "a.txt" "text/plain" 2 (sha256_tag [104; 105]) "workspaces/ws/sources/src-1/dir/a.txt".
Local Abbreviation sample_serve := (serve_source (PL := ascii_platform) sample_name).
Definition attached : res exn (option sresponse) * sstate := sample_serve failed_state 2 "ws" 5 (QAttachUpload "src-1" "a.txt" sample_file "obj-1").
Lemma sample_requests :
  sample_serve sample_state 2 "ws" 5 (QUpdate "src-1" "Mine") = (Ok (Some (serror 404 "source_not_found")), sample_state) /\
  sample_serve sample_shared 2 "ws" 5 (QUpdate "src-1" "Mine") =
    (Ok (Some (SStatus 200 (SSource "src-1" (set_sc_name "Mine" sample_source) AccessControl))), set_x_sources <["src-1" := set_sc_name "Mine" sample_source]> sample_shared).
Proof. split_and!; vm_compute; reflexivity. Qed.
Lemma attached_eq : sample_serve failed_state 2 "ws" 5 (QAttachUpload "src-1" "a.txt" sample_file "obj-1") = (attached.1, attached.2).
Proof. apply surjective_pairing. Qed.
Lemma attached_ready : x_sources attached.2 !! "src-1" = Some (set_sc_ready failed_source).
Proof. vm_compute. reflexivity. Qed.

Lemma source_changes_need_access_witness :
  source_change 2 "ws" "src-1" sample_shared (set_x_sources <["src-1" := set_sc_name "Mine" sample_source]> sample_shared) /\
  (x_sources attached.2 !! "src-1" = Some (set_sc_ready failed_source) /\ source_change 2 "ws" "src-1" failed_state attached.2).
Proof.
  split; [exact (source_changes_need_access (PL := ascii_platform) sample_name sample_shared 2 "ws" 5 (QUpdate "src-1" "Mine") _ _ (proj2 sample_requests))|].
  split; [exact attached_ready|].
  exact (source_changes_need_access (PL := ascii_platform) sample_name failed_state 2 "ws" 5 (QAttachUpload "src-1" "a.txt" sample_file "obj-1") _ _ attached_eq).
Defined.

Lemma sample_bound : grants_bound sample_state.
Proof.
  intros k g s Hg Hs. assert (Hall : map_Forall (fun _ g => gr_workspace g = "ws") (grants (x_db sample_state))) by by_decide.
  rewrite (Hall _ _ Hg). change (x_sources sample_state) with ({["src-1" := sample_source]} : gmap pystr source_state) in Hs.
  by apply lookup_singleton_Some in Hs as [_ <-].
Qed.
Lemma sample_list : list_sources sample_state 2 "ws" = Ok (SStatus 200 (SSources [("src-1", sample_source, AccessWrite)]), sample_state).
Proof. vm_compute. reflexivity. Qed.
Lemma listed_sources_iff_witness : exists mid m,
  workspace_membership_for (access_db sample_state) (Some 2) "ws" WORKSPACE_ROLES = Ok (Some (mid, m)) /\
  forall sid s a, (sid, s, a) ∈ [("src-1", sample_source, AccessWrite)] <->
    x_sources sample_state !! sid = Some s /\ sc_workspace s = "ws" /\ source_deleted s = false /\
    source_access_level_for_membership (access_db sample_state) mid m sid (Source (sc_workspace s)) = Ok (Some a).
Proof. exact (listed_sources_iff _ _ _ _ sample_bound sample_list). Defined.

Lemma sample_source_locked : _locked_source_for_access sample_state 1 "ws" "src-1" AccessControl = Ok (Some ("mem-1", Membership "ws" 1 Owner None 0, sample_source)).
Proof. vm_compute. reflexivity. Qed.
Lemma restore_undoes_delete_witness : exists x1, delete_source sample_state 1 "ws" "src-1" 10 = Ok (SStatus 200 SOk, x1) /\
  granted_source_objects x1 1 "src-1" (default sample_source (x_sources x1 !! "src-1")) = Ok [] /\
  restore_source x1 1 "ws" "src-1" 20 = Ok (SStatus 200 (SSource "src-1" sample_source AccessControl), sample_state).
Proof.
  apply (restore_undoes_delete sample_state 1 "ws" "src-1" sample_source "mem-1" (Membership "ws" 1 Owner None 0) 10 20);
    [exact sample_source_locked|reflexivity|reflexivity|reflexivity|discriminate|unfold TRASH_RETENTION; lia].
Defined.
