(* ===== verification/Retention.v ===== *)
(** * What is stored stays stored

    The library endpoints and the garbage collector share tables and object store.  Here they run
    interleaved: requests in their phases, copies of published artifacts, the expiry of trash, any number of
    collectors of deleted resources and of files without an owner, other users of the object store, crashes, and
    time.  The invariant says that the bytes of every object that is live, or deleted and still fully protected by
    the trash, are present and are the bytes the object describes. *)

From stdpp Require Import base tactics list gmap numbers relations sets.
From S2P Require Import Prelude PyStr Table Utf8 Sha256 Platform Schema Json Assets Artifacts Library Sources ResourceGc LibraryProps SourcesProps.

(** A collector between claiming a resource and marking it: the row it holds in memory, and whether the
    owner was verified. *)
Record worker := CollectorState { wk_id : pystr; wk_row : resource_row; wk_verified : bool; wk_expires : Z }.

Record system := System {
  y_store : store;
  y_now : Z;
  (** every storage key that was ever given out *)
  y_used : gset pystr;
  (** uploads that are stored and not yet committed *)
  y_pending : gmap pystr metadata;
  y_workers : gmap pystr worker;
  (** the notes a rewrite of which failed to commit *)
  y_lost : gset pystr;
  (** the files a collector of files without an owner has found and may delete *)
  y_orphans : gset pystr }.

Definition with_store (st : store) (y : system) : system := System st (y_now y) (y_used y) (y_pending y) (y_workers y) (y_lost y) (y_orphans y).
Definition without_pending (keys : list pystr) (st : store) (y : system) : system :=
  System st (y_now y) (y_used y) (foldl (fun p k => delete k p) (y_pending y) keys) (y_workers y) (y_lost y) (y_orphans y).
Definition with_workers (st : store) (ws : gmap pystr worker) (y : system) : system := System st (y_now y) (y_used y) (y_pending y) ws (y_lost y) (y_orphans y).
(** the collector is still within its lease *)
Definition in_time (y : system) (w : worker) : Prop := y_now y < wk_expires w.

(** A file is stored by [store_bytes] or [store_upload]. *)
Definition stores {PL : Platform} (available_name : files_t -> pystr -> pystr) (st : store) (md : metadata) (st' : store) : Prop :=
  (exists content area uuid name type now, store_bytes available_name content area uuid name type now st = Ok (md, st')) \/
  (exists upload area uuid now, store_upload available_name upload area uuid now st = (Ok md, st')).
(** the files a step adds are under keys that were never used: their directories are random identifiers *)
Definition new_keys_unused (y : system) (st' : store) : Prop :=
  forall k, is_Some (files st' !! k) -> files (y_store y) !! k = None -> k ∉ y_used y.
(** whatever is stored in the directory gets a key that was never used *)
Definition new_directory (available_name : files_t -> pystr -> pystr) (y : system) (area uuid : pystr) : Prop :=
  forall name, available_name (files (y_store y)) (area +:+ "/" +:+ uuid +:+ "/" +:+ name) ∉ y_used y.
(** only files that were never the library's differ *)
Definition foreign_files (y : system) (st' : store) : Prop := forall k, k ∈ y_used y -> files st' !! k = files (y_store y) !! k.
Definition added_keys (y : system) (st' : store) : gset pystr := dom (files st') ∖ dom (files (y_store y)).
(** the stored bytes of an artifact are those its row describes *)
Definition artifact_intact (st : store) (r : artifact_row) : Prop :=
  forall content t, files st !! ar_storage_key r = Some (content, t) -> ar_size r = zlen content /\ ar_sha256 r = sha256_tag content.
(** every file that waits for its commit is younger than the cutoff *)
Definition in_flight_after (y : system) (cutoff : Z) : Prop :=
  forall k md content t, y_pending y !! k = Some md -> files (y_store y) !! k = Some (content, t) -> cutoff < t.

(** One step of the whole system. *)
Inductive system_step {PL : Platform} (available_name : files_t -> pystr -> pystr) : system -> system -> Prop :=
| y_put y md st' : stores available_name (y_store y) md st' -> new_keys_unused y st' ->
    system_step available_name y
      (System st' (y_now y) ({[md_key md]} ∪ y_used y) (<[md_key md := md]> (y_pending y)) (y_workers y) (y_lost y) (y_orphans y))
(** an upload that cannot be stored, in a new directory *)
| y_put_failed y upload area uuid now e st' : store_upload available_name upload area uuid now (y_store y) = (Err e, st') -> foreign_files y st' ->
    system_step available_name y (with_store st' y)
(** the request of a stored file dies *)
| y_abandon y key : system_step available_name y (without_pending [key] (y_store y) y)
| y_folder y user name parent id link now :
    system_step available_name y (with_store (folder_commit (y_store y) user name parent id link now).2 y)
| y_note y user name parent md id link now : y_pending y !! md_key md = Some md ->
    system_step available_name y (without_pending [md_key md] (note_commit (y_store y) user name parent md id link now).2 y)
| y_upload y user parent stored ids links now :
    NoDup (map md_key stored) -> (forall md, md ∈ stored -> y_pending y !! md_key md = Some md) ->
    system_step available_name y (without_pending (map md_key stored) (upload_commit (y_store y) user parent stored ids links now).2 y)
| y_update y user id payload : system_step available_name y (with_store (update_library_object (y_store y) user id payload).2 y)
(** a rewrite whose transaction fails to commit has deleted the old bytes of the note *)
| y_rewrite y user id name markdown uuid now commits st' :
    st' = (update_library_note available_name (y_store y) user id name markdown uuid now commits).2 ->
    new_directory available_name y (library_area user) uuid ->
    system_step available_name y (System st' (y_now y) (added_keys y st' ∪ y_used y) (y_pending y) (y_workers y)
      (if commits then y_lost y else {[id]} ∪ y_lost y) (y_orphans y))
(** a published artifact is copied; a failure rolls the tables back *)
| y_copy y artifact_id r user id link now outcome st' :
    _ingest_artifact_library_copy available_name (y_store y) artifact_id r user id link now = (outcome, st') ->
    new_keys_unused y st' -> artifact_intact (y_store y) r ->
    system_step available_name y (System (if is_ok outcome then st' else rollback (y_store y) st') (y_now y) (added_keys y st' ∪ y_used y)
      (y_pending y) (y_workers y) (y_lost y) (y_orphans y))
| y_delete y user id resource : system_step available_name y (with_store (delete_library_object (y_store y) user id resource (y_now y)).2 y)
| y_restore y user id : system_step available_name y (with_store (restore_library_object (y_store y) user id (y_now y)).2 y)
| y_purge y user id : system_step available_name y (with_store (permanently_delete_library_object (y_store y) user id (y_now y)).2 y)
| y_expire y ids st' : purge_library ids (y_now y) (y_store y) = Ok st' -> system_step available_name y (with_store st' y)
| y_claim y w id r st' : y_workers y !! w = None -> _claim_resource (y_store y) id w (y_now y) = Ok (Some r, st') ->
    system_step available_name y (with_workers st' (<[w := CollectorState id r false (y_now y + LEASE)]> (y_workers y)) y)
| y_verify y w k : y_workers y !! w = Some k -> in_time y k -> _verify_deleted_owner (y_store y) (wk_row k) = Ok tt ->
    system_step available_name y (with_workers (y_store y) (<[w := CollectorState (wk_id k) (wk_row k) true (wk_expires k)]> (y_workers y)) y)
| y_clean y w k st' : y_workers y !! w = Some k -> in_time y k -> wk_verified k = true ->
    _clean_resource (y_store y) (wk_row k) true = Ok st' -> system_step available_name y (with_store st' y)
| y_cleaned y w k st' : y_workers y !! w = Some k -> _mark_cleaned (y_store y) (wk_id k) w (y_now y) = Ok st' ->
    system_step available_name y (with_workers st' (delete w (y_workers y)) y)
| y_failed y w k reason st' : y_workers y !! w = Some k -> _mark_failed (y_store y) (wk_id k) w reason = Ok st' ->
    system_step available_name y (with_workers st' (delete w (y_workers y)) y)
(** a collector crashes, or finds its lease lost *)
| y_crash y w : system_step available_name y (with_workers (y_store y) (delete w (y_workers y)) y)
(** a collector of files without an owner finds a file, and later deletes it *)
| y_scan y key content modified cutoff : files (y_store y) !! key = Some (content, modified) -> orphaned_key (y_store y) cutoff key modified = true ->
    in_flight_after y cutoff ->
    system_step available_name y (System (y_store y) (y_now y) ({[key]} ∪ y_used y) (y_pending y) (y_workers y) (y_lost y) ({[key]} ∪ y_orphans y))
| y_orphan y key st' : key ∈ y_orphans y -> delete_stored_object_for_gc key (y_store y) = Ok st' -> system_step available_name y (with_store st' y)
(** everything that leaves the library, its resources and its files alone *)
| y_elsewhere y st' : library st' = library (y_store y) -> resources st' = resources (y_store y) -> foreign_files y st' ->
    system_step available_name y (with_store st' y)
| y_tick y now : y_now y <= now -> system_step available_name y (System (y_store y) now (y_used y) (y_pending y) (y_workers y) (y_lost y) (y_orphans y)).

(** ** What is protected *)

Definition live (r : library_row) : Prop := lb_status r <> ODeleted.
(** An object whose bytes must be kept: it is live, or it is in the trash, not purged, and no record of its
    bytes dates from before its last restore. *)
Definition protected (res : gmap pystr resource_row) (r : library_row) : Prop :=
  live r \/
  (lb_purged_at r = None /\
   forall i d, res !! i = Some d -> dr_resource_key d = lb_storage_key r -> lb_content_generation r <= dr_content_generation d).
Definition describes (r : library_row) (content : bytes) : Prop :=
  lb_size r = Some (zlen content) /\ lb_sha256 r = sha256_tag content.
Definition bytes_kept (y : system) : Prop :=
  forall id r, library (y_store y) !! id = Some r -> id ∉ y_lost y -> lb_storage_key r <> "" -> protected (resources (y_store y)) r ->
    exists content t, files (y_store y) !! lb_storage_key r = Some (content, t) /\ describes r content.

(** ** The invariant *)

Definition has_key (lib : gmap pystr library_row) (k : pystr) : Prop := k <> "" /\ exists id r, lib !! id = Some r /\ lb_storage_key r = k.

(** the columns of a resource that never change *)
Definition same_resource (d d' : resource_row) : Prop :=
  dr_resource_key d' = dr_resource_key d /\ dr_owner_kind d' = dr_owner_kind d /\ dr_owner_id d' = dr_owner_id d /\
  dr_content_generation d' = dr_content_generation d /\ dr_resource_kind d' = dr_resource_kind d.

Record retained (y : system) : Prop := {
  rt_row_used : forall id r, library (y_store y) !! id = Some r -> lb_storage_key r <> "" -> lb_storage_key r ∈ y_used y;
  rt_res_used : forall i d, resources (y_store y) !! i = Some d -> dr_resource_key d <> "" -> dr_resource_key d ∈ y_used y;
  rt_res_kind : forall i d, resources (y_store y) !! i = Some d -> dr_resource_kind d = "storageObject";
  rt_keys : forall id1 r1 id2 r2, library (y_store y) !! id1 = Some r1 -> library (y_store y) !! id2 = Some r2 ->
    lb_storage_key r1 <> "" -> lb_storage_key r1 = lb_storage_key r2 -> id1 = id2;
  rt_pending : forall k md, y_pending y !! k = Some md ->
    md_key md = k /\ k <> "" /\ k ∈ y_used y /\ ~ has_key (library (y_store y)) k /\
    (forall i d, resources (y_store y) !! i = Some d -> dr_resource_key d <> k) /\
    exists content t, files (y_store y) !! k = Some (content, t) /\ md_size md = zlen content /\ md_sha256 md = sha256_tag content;
  rt_content : forall id r content t, library (y_store y) !! id = Some r -> lb_storage_key r <> "" ->
    files (y_store y) !! lb_storage_key r = Some (content, t) -> describes r content;
  rt_present : forall id r, library (y_store y) !! id = Some r -> id ∉ y_lost y -> lb_storage_key r <> "" ->
    protected (resources (y_store y)) r -> is_Some (files (y_store y) !! lb_storage_key r);
  rt_owner : forall i d id r, resources (y_store y) !! i = Some d -> library (y_store y) !! id = Some r ->
    lb_storage_key r <> "" -> dr_resource_key d = lb_storage_key r -> dr_owner_kind d = KUserLibraryObject /\ dr_owner_id d = id;
  rt_active : forall i d id r, resources (y_store y) !! i = Some d -> library (y_store y) !! id = Some r ->
    lb_storage_key r <> "" -> dr_resource_key d = lb_storage_key r -> live r -> dr_state d = RActive;
  rt_worker : forall w k, y_workers y !! w = Some k -> in_time y k ->
    exists d, resources (y_store y) !! wk_id k = Some d /\ same_resource (wk_row k) d /\
      (dr_state d = RCleaning /\ dr_lease_owner d = w /\ dr_lease_expires_at d = Some (wk_expires k) \/
       ~ has_key (library (y_store y)) (dr_resource_key d));
  rt_verified : forall w k id r, y_workers y !! w = Some k -> in_time y k -> wk_verified k = true ->
    library (y_store y) !! id = Some r -> lb_storage_key r <> "" -> lb_storage_key r = dr_resource_key (wk_row k) ->
    is_Some (lb_purged_at r) \/ dr_content_generation (wk_row k) < lb_content_generation r;
  rt_orphan : forall k, k ∈ y_orphans y -> k ∈ y_used y /\ ~ has_key (library (y_store y)) k /\ y_pending y !! k = None;
}.

Lemma retained_bytes_kept y : retained y -> bytes_kept y.
Proof.
  intros R id r Hr Hlost Hk Hp. destruct (rt_present _ R _ _ Hr Hlost Hk Hp) as [[content t] Hf]. exists content, t. split; [done|].
  by eapply rt_content.
Qed.

(** *** Steps that keep keys and contents *)

(** The row [r'] of the new table describes the bytes [r] described. *)
Definition same_bytes (r r' : library_row) : Prop :=
  lb_storage_key r' = lb_storage_key r /\ lb_size r' = lb_size r /\ lb_sha256 r' = lb_sha256 r.
(** ... and is not more protected. *)
Definition row_kept (r r' : library_row) : Prop :=
  same_bytes r r' /\ lb_content_generation r' = lb_content_generation r /\ (lb_purged_at r' = None -> lb_purged_at r = None) /\ (live r' -> live r).
Definition same_claim (d d' : resource_row) : Prop :=
  dr_state d' = dr_state d /\ dr_lease_owner d' = dr_lease_owner d /\ dr_lease_expires_at d' = dr_lease_expires_at d.
(** Every row of the new table has no bytes or is related to its predecessor. *)
Definition rows_from (kept : library_row -> library_row -> Prop) (lib lib' : gmap pystr library_row) : Prop :=
  forall id r', lib' !! id = Some r' -> (exists r, lib !! id = Some r /\ kept r r') \/ lb_storage_key r' = "".
(** A resource of a row's own bytes. *)
Definition records (lib : gmap pystr library_row) (d : resource_row) : Prop :=
  dr_resource_kind d = "storageObject" /\ dr_owner_kind d = KUserLibraryObject /\ exists r, lib !! dr_owner_id d = Some r /\ lb_storage_key r = dr_resource_key d /\ lb_storage_key r <> "".

Lemma rows_from_key lib lib' k : rows_from same_bytes lib lib' -> has_key lib' k -> has_key lib k.
Proof. intros Hk (Hne & id & r' & Hr' & <-). destruct (Hk _ _ Hr') as [(r & Hr & (E & _))|]; [|done].
  split; [done|]. exists id, r. by rewrite E. Qed.
Lemma row_kept_refl r : row_kept r r.
Proof. by unfold row_kept, same_bytes. Qed.
Lemma rows_kept_refl lib : rows_from row_kept lib lib.
Proof. intros id r Hr. left. eauto using row_kept_refl. Qed.
Lemma rows_kept_bytes lib lib' : rows_from row_kept lib lib' -> rows_from same_bytes lib lib'.
Proof. intros H id r' Hr'. destruct (H _ _ Hr') as [(r & Hr & (Hb & _))|]; eauto. Qed.
Lemma rows_kept_insert lib id r r' : lib !! id = Some r -> row_kept r r' -> rows_from row_kept lib (<[id := r']> lib).
Proof. intros Hr Hk i x [[<- <-]|[_ Hx]]%lookup_insert_Some; left; eauto using row_kept_refl. Qed.
Lemma same_resource_refl d : same_resource d d.
Proof. by unfold same_resource. Qed.
Lemma same_resource_trans d1 d2 d3 : same_resource d1 d2 -> same_resource d2 d3 -> same_resource d1 d3.
Proof. unfold same_resource. intuition congruence. Qed.
Lemma same_claim_refl d : same_claim d d.
Proof. by unfold same_claim. Qed.

Section evolve.
Context (y : system) (st' : store) (R : retained y).
Context (Hfiles : files st' = files (y_store y)).
Context (Hback : forall i d', resources st' !! i = Some d' ->
  (exists d, resources (y_store y) !! i = Some d /\ same_resource d d') \/ records (library (y_store y)) d').
Context (Hforth : forall i d, resources (y_store y) !! i = Some d -> exists d', resources st' !! i = Some d' /\ same_resource d d').

(** The claims of collectors, and what is known of live and of verified objects, are the caller's. *)
Lemma evolve_retained (ws : gmap pystr worker) :
  rows_from same_bytes (library (y_store y)) (library st') ->
  (forall id r', library st' !! id = Some r' -> id ∉ y_lost y -> lb_storage_key r' <> "" -> protected (resources st') r' -> is_Some (files (y_store y) !! lb_storage_key r')) ->
  (forall i d' id r', resources st' !! i = Some d' -> library st' !! id = Some r' -> lb_storage_key r' <> "" ->
     dr_resource_key d' = lb_storage_key r' -> live r' -> dr_state d' = RActive) ->
  (forall w k, ws !! w = Some k -> in_time y k ->
    exists d, resources st' !! wk_id k = Some d /\ same_resource (wk_row k) d /\
      (dr_state d = RCleaning /\ dr_lease_owner d = w /\ dr_lease_expires_at d = Some (wk_expires k) \/ ~ has_key (library st') (dr_resource_key d))) ->
  (forall w k id r', ws !! w = Some k -> in_time y k -> wk_verified k = true -> library st' !! id = Some r' ->
     lb_storage_key r' <> "" -> lb_storage_key r' = dr_resource_key (wk_row k) ->
     is_Some (lb_purged_at r') \/ dr_content_generation (wk_row k) < lb_content_generation r') ->
  retained (with_workers st' ws y).
Proof.
  intros Hrows Hpresent Hact Hworker Hverified. pose proof R as R0. destruct R0. unfold with_workers. split; cbn in *.
  - intros id r Hr Hne. destruct (Hrows _ _ Hr) as [(r0 & Hr0 & (E & _))|]; [|done]. rewrite E in *. eauto.
  - intros i d' Hd' Hne. destruct (Hback _ _ Hd') as [(d & Hd & (E & _))|(_ & _ & r & Hr & E & ?)]; [rewrite E in *|rewrite <- E in *]; eauto.
  - intros i d' Hd'. destruct (Hback _ _ Hd') as [(d & Hd & (_ & _ & _ & _ & E))|(? & _)]; [rewrite E|]; eauto.
  - intros id1 r1 id2 r2 H1 H2 Hne He. destruct (Hrows _ _ H1) as [(s1 & Hs1 & (E1 & _))|]; [|done].
    destruct (Hrows _ _ H2) as [(s2 & Hs2 & (E2 & _))|]; [|congruence]. eapply rt_keys0; [done..|congruence|congruence].
  - intros k md Hk. destruct (rt_pending0 _ _ Hk) as (? & ? & ? & Hn & Hd & Hf). rewrite Hfiles. do 3 (split; [done|]). split; [|split; [|done]].
    + intros Hh. apply Hn. by eapply rows_from_key.
    + intros i d' Hd'. destruct (Hback _ _ Hd') as [(d & Hd0 & (-> & _))|(_ & _ & r & Hr & E & ?)]; [eauto|].
      intros <-. apply Hn. rewrite <- E. split; [done|]. eauto.
  - intros id r c t Hr Hne Hf. rewrite Hfiles in Hf. destruct (Hrows _ _ Hr) as [(r0 & Hr0 & (Ek & Es & Eh))|]; [|done].
    rewrite Ek in *. unfold describes. rewrite Es, Eh. exact (rt_content0 _ _ _ _ Hr0 Hne Hf).
  - rewrite Hfiles. done.
  - intros i d' id r Hd' Hr Hne Hk. destruct (Hrows _ _ Hr) as [(r0 & Hr0 & (Ek & _))|]; [|done].
    destruct (Hback _ _ Hd') as [(d & Hd & (E1 & -> & -> & _))|(_ & Eo & r1 & Hr1 & E & ?)]; [eapply rt_owner0; [done..|congruence|congruence]|].
    split; [done|]. eapply rt_keys0; [done..|congruence].
  - done.
  - done.
  - done.
  - intros k Hk. destruct (rt_orphan0 _ Hk) as (? & Hn & ?). split_and!; try done. intros Hh. apply Hn. by eapply rows_from_key.
Qed.

Context (Hrows : rows_from row_kept (library (y_store y)) (library st')).

Lemma kept_protected r r' : row_kept r r' -> protected (resources st') r' -> protected (resources (y_store y)) r.
Proof.
  intros ((Hk & _) & Hg & Hp & Hl) [H|[H1 H2]]; [left; by apply Hl|right]. split; [by apply Hp|].
  intros i d Hd Hkey. destruct (Hforth _ _ Hd) as (d' & Hd' & (E1 & _ & _ & E2 & _)). rewrite <- Hg, <- E2. apply (H2 _ _ Hd'). congruence.
Qed.

(** When rows are not more protected than before, only the claims and the use of live bytes remain. *)
Lemma evolve_kept (ws : gmap pystr worker) :
  (forall i d' id r', resources st' !! i = Some d' -> library st' !! id = Some r' -> lb_storage_key r' <> "" ->
     dr_resource_key d' = lb_storage_key r' -> live r' -> dr_state d' = RActive) ->
  (forall w k, ws !! w = Some k -> in_time y k ->
     (y_workers y !! w = Some k /\
      forall d d', resources (y_store y) !! wk_id k = Some d -> resources st' !! wk_id k = Some d' ->
        dr_state d = RCleaning -> dr_lease_owner d = w -> dr_lease_expires_at d = Some (wk_expires k) ->
        same_claim d d' \/ ~ has_key (library (y_store y)) (dr_resource_key d)) \/
     (wk_verified k = false /\ resources st' !! wk_id k = Some (wk_row k) /\ dr_state (wk_row k) = RCleaning /\
      dr_lease_owner (wk_row k) = w /\ dr_lease_expires_at (wk_row k) = Some (wk_expires k))) ->
  retained (with_workers st' ws y).
Proof.
  intros Hact Hclaim. apply evolve_retained; [by apply rows_kept_bytes| |done| |].
  - intros id r Hr Hlost Hne Hp. destruct (Hrows _ _ Hr) as [(r0 & Hr0 & Hkept)|]; [|done].
    pose proof Hkept as ((Ek & _) & _). rewrite Ek in *. eapply rt_present; [done..|]. by eapply kept_protected.
  - intros w k Hw Ht. destruct (Hclaim _ _ Hw Ht) as [[Hw0 Hc]|(_ & Hd & ?)]; [|exists (wk_row k); auto using same_resource_refl].
    destruct (rt_worker _ R _ _ Hw0 Ht) as (d & Hd & Es & Hcase). destruct (Hforth _ _ Hd) as (d' & Hd' & Hsame).
    exists d'. split; [done|]. split; [by eapply same_resource_trans|]. pose proof Hsame as (F1 & _). rewrite F1.
    pose proof (rows_kept_bytes _ _ Hrows) as Hb.
    destruct Hcase as [(S1 & S2 & S3)|Hn]; [|right; intros Hh; by apply Hn; eapply rows_from_key].
    destruct (Hc _ _ Hd Hd' S1 S2 S3) as [(T1 & T2 & T3)|Hn]; [left; split_and!; congruence|right].
    intros Hh. by apply Hn; eapply rows_from_key.
  - intros w k id r Hw Ht Hv Hr Hne Hk. destruct (Hclaim _ _ Hw Ht) as [[Hw0 _]|(? & _)]; [|congruence].
    destruct (Hrows _ _ Hr) as [(r0 & Hr0 & ((Ek & _) & Eg & Ep & _))|]; [|done]. rewrite Ek in *. rewrite Eg.
    destruct (rt_verified _ R _ _ _ _ Hw0 Ht Hv Hr0 Hne Hk) as [Hp|]; [left|by right].
    destruct (lb_purged_at r); [eauto|]. rewrite Ep in Hp by done. by destruct Hp.
Qed.
End evolve.

(** *** Requests that leave the claims alone *)

(** no resource changed, as far as the invariant is concerned *)
Definition quiet (t t' : gmap pystr resource_row) : Prop :=
  forall i, option_Forall2 (fun d d' => same_resource d d' /\ same_claim d d') (t !! i) (t' !! i).
Lemma quiet_refl t : quiet t t.
Proof. intros i. destruct (t !! i); constructor. auto using same_resource_refl, same_claim_refl. Qed.
Lemma quiet_update p f t : (forall d, same_resource d (f d) /\ same_claim d (f d)) -> quiet t (qs_update p f t).
Proof.
  intros Hf i. unfold qs_update. rewrite lookup_fmap. destruct (t !! i) as [d|]; constructor. case_match; [done|].
  auto using same_resource_refl, same_claim_refl.
Qed.

Lemma evolve_quiet y st' : retained y -> files st' = files (y_store y) -> rows_from row_kept (library (y_store y)) (library st') ->
  quiet (resources (y_store y)) (resources st') -> retained (with_store st' y).
Proof.
  intros R Hf Hrows Hq. change (with_store st' y) with (with_workers st' (y_workers y) y).
  assert (Hback : forall i d', resources st' !! i = Some d' -> exists d, resources (y_store y) !! i = Some d /\ same_resource d d' /\ same_claim d d').
  { intros i d' Hd'. specialize (Hq i). rewrite Hd' in Hq. inversion Hq; eauto. }
  apply evolve_kept; [done..| | |done| |].
  - intros i d' Hd'. left. destruct (Hback _ _ Hd') as (d & ? & ? & ?). eauto.
  - intros i d Hd. specialize (Hq i). rewrite Hd in Hq. inversion Hq as [? ? []|]; eauto.
  - intros i d' id r' Hd' Hr' Hne Hk Hlive. destruct (Hback _ _ Hd') as (d & Hd & (Ed & _) & (-> & _)).
    destruct (Hrows _ _ Hr') as [(r & Hr & ((Ek & _) & _ & _ & Hl))|]; [|done]. rewrite Ed, Ek in *. eapply rt_active; eauto.
  - intros w k Hw Ht. left. split; [done|]. intros d d' Hd Hd' _ _ _. destruct (Hback _ _ Hd') as (d0 & ? & ? & ?). left. congruence.
Qed.

Section requests.
Context {PL : Platform}.

Lemma with_same_store y : with_store (y_store y) y = y.
Proof. by destruct y. Qed.

Lemma rows_kept_put lib id r' : (exists r, lib !! id = Some r /\ row_kept r r') \/ lb_storage_key r' = "" -> rows_from row_kept lib (<[id := r']> lib).
Proof. intros H i x [[<- <-]|[_ Hx]]%lookup_insert_Some; [done|]. left. eauto using row_kept_refl. Qed.

Lemma folder_retained y user name parent id link now :
  retained y -> retained (with_store (folder_commit (y_store y) user name parent id link now).2 y).
Proof.
  intros R. unfold folder_commit, run_tx. case_match eqn:E; [|cbn [snd]; by rewrite with_same_store]. destruct a as [resp st']. cbn [snd]. walk E.
  apply lift_Ok, create_library_Ok in Hx0 as (_ & -> & _). apply create_link_library in Hx1 as (El & Er & Ef).
  apply evolve_quiet; [done..| |]; rewrite ?El, ?Er; cbn; [|apply quiet_refl]. apply rows_kept_put. by right.
Qed.

Lemma run_tx_store st tx handle : (run_tx st tx handle).2 = st \/ exists resp st', tx = Ok (resp, st') /\ (run_tx st tx handle).2 = st'.
Proof. unfold run_tx. destruct tx as [[resp st']|e]; [right; eauto|by left]. Qed.
Lemma update_store st user id payload :
  (update_library_object st user id payload).2 = st \/
  exists item name parent, library st !! id = Some item /\ (update_library_object st user id payload).2 = set_library <[id := renamed name parent item]> st.
Proof.
  unfold update_library_object. destruct payload as [[n|] [p|]]; [| | |by left]; cbn [ur_display_name ur_parent_folder_id];
    match goal with |- context [run_tx ?a ?b ?c] => destruct (run_tx_store a b c) as [->|(resp & st' & E & ->)]; [by left|] end;
    walk E; try (by left);
    repeat match goal with
    | H : live_object _ _ _ = Ok _ |- _ => apply live_object_Ok in H as (H & _)
    | H : lift (save_library_object _ _ _) = Ok _ |- _ => apply lift_Ok, save_library_Ok in H as (-> & _)
    end; right; eauto.
Qed.
Lemma update_retained y user id payload : retained y -> retained (with_store (update_library_object (y_store y) user id payload).2 y).
Proof.
  intros R. destruct (update_store (y_store y) user id payload) as [->|(item & n & p & Hi & ->)]; [by rewrite with_same_store|].
  apply evolve_quiet; [done..| |apply quiet_refl]. apply rows_kept_put. left. exists item. by unfold row_kept, same_bytes.
Qed.

Lemma purge_retained y user id now : retained y -> retained (with_store (permanently_delete_library_object (y_store y) user id now).2 y).
Proof.
  intros R. unfold permanently_delete_library_object, run_tx. case_match eqn:E; [|cbn [snd]; by rewrite with_same_store].
  destruct a as [resp st']. cbn [snd]. walk E; try (by rewrite with_same_store).
  apply library_object_Ok in Hx as [Hi _]. apply lift_Ok, save_library_Ok in Hx0 as (-> & _). apply lift_Ok, update_resources_Ok in Hx1 as ->.
  apply evolve_quiet; [done..| |apply quiet_update; done]. apply rows_kept_put. left. exists x. split; [done|]. by unfold row_kept, same_bytes.
Qed.
Lemma expire_retained y ids now st' : retained y -> purge_library ids now (y_store y) = Ok st' -> retained (with_store st' y).
Proof.
  intros R H. unfold purge_library, purge_listed in H. cbv zeta in H. walk H. walk Hx. apply evolve_quiet; [done..| |apply quiet_refl].
  intros k r'. cbn. rewrite map_lookup_imap. destruct (library (y_store y) !! k) as [r|] eqn:Hr; cbn; [|done]. intros [= <-]. left. exists r.
  split; [done|]. case_match; [|apply row_kept_refl]. by unfold row_kept, same_bytes.
Qed.
End requests.

(** *** Collectors *)

Section collectors.
Context (y : system) (R : retained y).

(** One resource changes its state; its row is of no live object. *)
Lemma put_resource_retained i d d' ws :
  resources (y_store y) !! i = Some d -> same_resource d d' -> dr_state d <> RActive ->
  (forall w k, ws !! w = Some k -> in_time y k ->
     (y_workers y !! w = Some k /\
      (wk_id k = i -> ~ (dr_state d = RCleaning /\ dr_lease_owner d = w /\ dr_lease_expires_at d = Some (wk_expires k)))) \/
     (wk_verified k = false /\ wk_id k = i /\ wk_row k = d' /\ dr_state d' = RCleaning /\
      dr_lease_owner d' = w /\ dr_lease_expires_at d' = Some (wk_expires k))) ->
  retained (with_workers (set_resources <[i := d']> (y_store y)) ws y).
Proof.
  intros Hd Hsame Hna Hws. apply evolve_kept; [done..| | |apply rows_kept_refl| |]; cbn.
  - intros j e [[<- <-]|[_ He]]%lookup_insert_Some; left; eauto using same_resource_refl.
  - intros j e He. destruct (decide (i = j)) as [<-|Hne].
    + exists d'. rewrite lookup_insert_eq. split; [done|]. congruence.
    + exists e. rewrite lookup_insert_ne by done. auto using same_resource_refl.
  - intros j e id r [[<- <-]|[_ He]]%lookup_insert_Some Hr Hne Hk Hl; [|by eapply rt_active].
    exfalso. apply Hna. eapply rt_active; [done..| |done]. by destruct Hsame as (<- & _).
  - intros w k Hw Ht. destruct (Hws _ _ Hw Ht) as [[Hy Hn]|(? & <- & <- & ?)].
    + left. split; [done|]. intros e e' He [[Ei Ed]|[_ He']]%lookup_insert_Some S1 S2 S3.
      * exfalso. apply Hn; [done|]. rewrite <- Ei in He. by simplify_eq.
      * left. simplify_eq. apply same_claim_refl.
    + right. rewrite lookup_insert_eq. done.
Qed.

Lemma claim_retained id w r st' : y_workers y !! w = None -> _claim_resource (y_store y) id w (y_now y) = Ok (Some r, st') ->
  retained (with_workers st' (<[w := CollectorState id r false (y_now y + LEASE)]> (y_workers y)) y).
Proof.
  unfold _claim_resource. intros Hw H. walk H. apply save_resource_Ok in Hx0 as ->.
  destruct (resources (y_store y) !! id) as [d|] eqn:Hd; cbn in Hx; [injection Hx as ->|done]. bool_inv.
  apply (put_resource_retained id x); [done..|]. intros w' k [[<- <-]|[Hne Hk]]%lookup_insert_Some Ht; [right; done|left].
  split; [done|]. intros _ (S1 & _ & S3). rewrite S3, bool_decide_eq_true_2 in * by done. unfold in_time in Ht. cbn in *.
  lia.
Qed.

Lemma mark_retained w k f e st' : y_workers y !! w = Some k -> (forall d, same_resource d (f d)) ->
  mark (y_store y) (wk_id k) w f e = Ok st' -> retained (with_workers st' (delete w (y_workers y)) y).
Proof.
  unfold mark. intros Hw Hf H. destruct (resources (y_store y) !! wk_id k) as [d|] eqn:Hd; [|done]. case_match eqn:Hh; [|done]. injection H as <-.
  unfold held_by in Hh. bool_inv. apply (put_resource_retained _ d); [done..|congruence|].
  intros w' k' [Hne Hk']%lookup_delete_Some Ht. left. split; [done|]. intros _ (_ & ? & _). congruence.
Qed.

(** Fewer collectors within their leases. *)
Lemma fewer_workers_retained now ws : y_now y <= now -> (forall w k, ws !! w = Some k -> y_workers y !! w = Some k) ->
  retained (System (y_store y) now (y_used y) (y_pending y) ws (y_lost y) (y_orphans y)).
Proof.
  intros Hn Hws. assert (Ht : forall k, in_time (System (y_store y) now (y_used y) (y_pending y) ws (y_lost y) (y_orphans y)) k -> in_time y k) by (unfold in_time; cbn; lia).
  destruct R. split; cbn in *; eauto.
Qed.

(** A timely collector holds a resource of bytes that no live object has. *)
Lemma worker_not_live w k id r : y_workers y !! w = Some k -> in_time y k -> library (y_store y) !! id = Some r -> lb_storage_key r <> "" ->
  lb_storage_key r = dr_resource_key (wk_row k) -> ~ live r.
Proof.
  intros Hw Ht Hr Hne Hk Hl. destruct (rt_worker _ R _ _ Hw Ht) as (d & Hd & (E & _) & [(S1 & _)|Hn]).
  - assert (dr_state d = RActive) by (eapply rt_active; [done..|congruence|done]). congruence.
  - apply Hn. rewrite E. split; [congruence|]. eauto.
Qed.

Lemma verify_retained w k : y_workers y !! w = Some k -> in_time y k -> _verify_deleted_owner (y_store y) (wk_row k) = Ok tt ->
  retained (with_workers (y_store y) (<[w := CollectorState (wk_id k) (wk_row k) true (wk_expires k)]> (y_workers y)) y).
Proof.
  intros Hw Ht Hv. pose proof R as R0. destruct R0. split; cbn in *; try done.
  - intros w' k' [[<- <-]|[_ Hk']]%lookup_insert_Some Ht'; [exact (rt_worker0 _ _ Hw Ht)|eauto].
  - intros w' k' id r [[<- <-]|[_ Hk']]%lookup_insert_Some Ht' Hv' Hr Hne Hkey; [|eauto]. cbn in *.
    destruct (rt_worker0 _ _ Hw Ht) as (d & Hd & (Ek & Eo & Ei & _) & _).
    destruct (rt_owner0 _ _ _ _ Hd Hr Hne) as [Ho Hid]; [congruence|].
    unfold _verify_deleted_owner in Hv. rewrite <- Eo, <- Ei, Ho, Hid in Hv. cbn in Hv. rewrite Hr in Hv. cbn in Hv.
    apply require_Ok in Hv. unfold reclaimable in Hv. cbn in Hv. apply orb_true_iff in Hv as [Hv|Hv]; bool_inv; [by left|right; lia].
Qed.

(** A verified collector deletes bytes that nothing protects. *)
Lemma clean_retained w k st' : y_workers y !! w = Some k -> in_time y k -> wk_verified k = true ->
  _clean_resource (y_store y) (wk_row k) true = Ok st' -> retained (with_store st' y).
Proof.
  unfold _clean_resource. intros Hw Ht Hv H. walk H. pose proof R as R0. destruct R0. split; cbn in *; try done.
  - intros k' md Hk'. destruct (rt_pending0 _ _ Hk') as (? & ? & ? & ? & Hd & Hf). do 5 (split; [done|]).
    rewrite lookup_delete_ne; [done|]. destruct (rt_worker0 _ _ Hw Ht) as (d & Hd' & (E & _) & _). rewrite <- E. eauto.
  - intros id r c t Hr Hne [_ Hf]%lookup_delete_Some. eauto.
  - intros id r Hr Hlost Hne Hp. destruct (decide (dr_resource_key (wk_row k) = lb_storage_key r)) as [Hk|Hk]; [|rewrite lookup_delete_ne; eauto].
    exfalso. destruct Hp as [Hl|[Hpu Hg]]; [by eapply worker_not_live|].
    destruct (rt_verified0 _ _ _ _ Hw Ht Hv Hr Hne ltac:(done)) as [Hs|Hs]; [rewrite Hpu in Hs; by destruct Hs|].
    destruct (rt_worker0 _ _ Hw Ht) as (d & Hd' & (E & _ & _ & Eg & _) & _). specialize (Hg _ _ Hd' ltac:(congruence)). lia.
Qed.
End collectors.

(** *** Deleting and restoring *)

(** Resources of one object may have changed, and new ones may describe its bytes [key]. *)
Definition touched (id key : pystr) (t t' : gmap pystr resource_row) : Prop :=
  (forall i d', t' !! i = Some d' ->
     (exists d, t !! i = Some d /\ same_resource d d' /\ (d' = d \/ dr_owner_kind d = KUserLibraryObject /\ dr_owner_id d = id)) \/
     (t !! i = None /\ dr_resource_kind d' = "storageObject" /\ dr_owner_kind d' = KUserLibraryObject /\ dr_owner_id d' = id /\ dr_resource_key d' = key /\ key <> "")) /\
  (forall i d, t !! i = Some d -> exists d', t' !! i = Some d' /\ same_resource d d').

Lemma touched_refl id key t : touched id key t t.
Proof. split; intros i d Hd; eauto 7 using same_resource_refl. Qed.
Lemma touched_trans id key t1 t2 t3 : touched id key t1 t2 -> touched id key t2 t3 -> touched id key t1 t3.
Proof.
  intros [B1 F1] [B2 F2]. split.
  - intros i d3 H3. destruct (B2 _ _ H3) as [(d2 & H2 & S2 & C2)|[Hn ?]].
    2:{ right. split; [|done]. destruct (t1 !! i) as [d1|] eqn:H1; [|done]. destruct (F1 _ _ H1) as (? & ? & _). congruence. }
    destruct (B1 _ _ H2) as [(d1 & H1 & S1 & C1)|(K0 & K1 & K2 & K3 & K4 & K5)].
    + left. exists d1. split; [done|]. split; [by eapply same_resource_trans|]. destruct C1 as [->|]; [|by right]. destruct C2; [by left|by right].
    + right. destruct S2 as (-> & -> & -> & _ & ->). done.
  - intros i d1 H1. destruct (F1 _ _ H1) as (d2 & H2 & S2). destruct (F2 _ _ H2) as (d3 & H3 & S3). eauto using same_resource_trans.
Qed.
Lemma touched_put id key t i d d' : t !! i = Some d -> same_resource d d' -> dr_owner_kind d = KUserLibraryObject -> dr_owner_id d = id ->
  touched id key t (<[i := d']> t).
Proof.
  intros Hd Hs Hk Ho. split.
  - intros j e [[<- <-]|[_ He]]%lookup_insert_Some; left; eauto 7 using same_resource_refl.
  - intros j e He. destruct (decide (i = j)) as [<-|Hne].
    + exists d'. rewrite lookup_insert_eq. split; [done|]. congruence.
    + exists e. rewrite lookup_insert_ne by done. auto using same_resource_refl.
Qed.
Lemma touched_new id key t i d' : t !! i = None -> dr_resource_kind d' = "storageObject" -> dr_owner_kind d' = KUserLibraryObject ->
  dr_owner_id d' = id -> dr_resource_key d' = key -> key <> "" -> touched id key t (<[i := d']> t).
Proof.
  intros Hn ? ? ? ? ?. split.
  - intros j e [[<- <-]|[_ He]]%lookup_insert_Some; [by right|left; eauto 7 using same_resource_refl].
  - intros j e He. exists e. rewrite lookup_insert_ne by congruence. auto using same_resource_refl.
Qed.
Lemma touched_update id key p f t : (forall d, same_resource d (f d)) -> (forall d, p d = true -> dr_owner_kind d = KUserLibraryObject /\ dr_owner_id d = id) ->
  touched id key t (qs_update p f t).
Proof.
  intros Hf Hp. unfold qs_update. split.
  - intros i d'. rewrite lookup_fmap. destruct (t !! i) as [d|]; cbn; intros [= <-]. left. exists d. split; [done|].
    case_match; [|auto using same_resource_refl]. split; [done|]. right. by apply Hp.
  - intros i d Hd. rewrite lookup_fmap, Hd. cbn. eexists. split; [done|]. case_match; auto using same_resource_refl.
Qed.

Lemma register_touched id r key new_id st st' : key <> "" ->
  register_derived_resource (OwnLibrary id r) "storageObject" key new_id st = Ok st' ->
  exists t, st' = set_resources (fun _ => t) st /\ touched id key (resources st) t.
Proof.
  unfold register_derived_resource. cbn [stored_object_identity]. cbv zeta. intros Hne H. case_match eqn:Hq.
  - destruct p as [rid d]. apply qs_first_Some in Hq as [Hd Hi]. apply bool_decide_eq_true in Hi. injection Hi as Hk Ho _ _ _ _.
    case_match; [|injection H as <-; exists (resources st); split; [by destruct st|apply touched_refl]].
    apply save_resource_Ok in H as ->. eexists. split; [done|]. by eapply touched_put.
  - case_match eqn:Hn; [done|]. apply save_resource_Ok in H as ->. eexists. split; [done|]. by apply touched_new.
Qed.

Lemma owned_by_spec kind id d : owned_by kind id d = true <-> dr_owner_kind d = kind /\ dr_owner_id d = id.
Proof. unfold owned_by. by rewrite andb_true_iff, !bool_decide_eq_true. Qed.

Lemma tombstone_touched id item now by_ rid st st' : tombstone_stored_object (OwnLibrary id item) now by_ rid st = Ok st' ->
  files st' = files st /\ touched id (lb_storage_key item) (resources st) (resources st') /\
  exists r', library st' = <[id := r']> (library st) /\ row_kept item r' /\ ~ live r'.
Proof.
  unfold tombstone_stored_object. intros H. apply bind_Ok in H as (u & Hu & H).
  cbn [tombstoned stored_object_identity save_owner o_storage_key lb_storage_key o_deletion_generation o_deleted_at] in H. cbv zeta in H.
  apply bind_Ok in H as (st1 & H1 & H). apply bind_Ok in H as (st2 & H2 & H). apply save_library_Ok in H1 as (-> & _). apply update_resources_Ok in H2 as ->.
  assert (Hrow : forall r', lb_status r' = ODeleted -> ~ live r') by (unfold live; tauto).
  match type of H with context [qs_update ?p ?f _] => assert (Ht : touched id (lb_storage_key item) (resources st) (qs_update p f (resources st))) end.
  { apply touched_update; [done|]. intros d Hd. apply andb_prop in Hd as [Hd _]. by apply owned_by_spec. }
  destruct (is_empty (lb_storage_key item)) eqn:Hemp.
  - injection H as <-. cbn. split; [done|]. split; [done|]. eexists. split; [done|]. split; [|by apply Hrow]. by unfold row_kept, same_bytes.
  - apply is_empty_false in Hemp. apply register_touched in H as (t & -> & Ht2); [|done]. cbn in *. split; [done|]. split; [by eapply touched_trans|].
    eexists. split; [done|]. split; [|by apply Hrow]. by unfold row_kept, same_bytes.
Qed.

Section trash.
Context {PL : Platform} (y : system) (R : retained y).

(** Resources of other objects' bytes are not touched. *)
Lemma touched_other id key t' i d' id2 r2 r : touched id key (resources (y_store y)) t' -> t' !! i = Some d' ->
  library (y_store y) !! id = Some r -> key = lb_storage_key r ->
  library (y_store y) !! id2 = Some r2 -> lb_storage_key r2 <> "" -> dr_resource_key d' = lb_storage_key r2 -> id2 <> id ->
  resources (y_store y) !! i = Some d'.
Proof.
  intros [Hb _] Hd' Hr -> Hr2 Hne Hk Hid. destruct (Hb _ _ Hd') as [(d & Hd & (E & _) & [->|[_ Ho]])|(_ & _ & _ & _ & E & _)]; [done|exfalso..].
  - destruct (rt_owner _ R _ _ _ _ Hd Hr2 Hne) as [_ Ho2]; congruence.
  - apply Hid. eapply (rt_keys _ R); [done..|congruence].
Qed.

Lemma delete_retained user id rid now : retained (with_store (delete_library_object (y_store y) user id rid now).2 y).
Proof.
  unfold delete_library_object. match goal with |- context [run_tx ?a ?b ?c] => destruct (run_tx_store a b c) as [->|(resp & st' & E & ->)] end;
    [by rewrite with_same_store|]. walk E; [by rewrite with_same_store|].
  apply live_object_Ok in Hx as (Hi & _ & Hl). apply lift_Ok, tombstone_touched in Hx0 as (Hf & Ht & r' & El & Hkept & Hnl).
  change (with_store st' y) with (with_workers st' (y_workers y) y). pose proof Hkept as ((Ek & _) & _).
  apply evolve_kept; [done..| | |rewrite El; by eapply rows_kept_insert| |].
  - intros i d' Hd'. destruct Ht as [Hb _]. destruct (Hb _ _ Hd') as [(d & ? & ? & _)|(_ & ? & ? & Ho & E & Hne)]; [left; eauto|].
    right. split; [done|]. split; [done|]. exists x. rewrite Ho, E in *. done.
  - apply Ht.
  - intros i d' id2 r2 Hd' Hr2 Hne Hk Hlive. rewrite El in Hr2. apply lookup_insert_Some in Hr2 as [[<- <-]|[Hid Hr2]]; [done|].
    eapply rt_active; [done| |done..]. by eapply (touched_other id).
  - intros w k Hw Htm. left. split; [done|]. intros d d' Hd Hd' S1 S2 S3.
    destruct Ht as [Hb _]. destruct (Hb _ _ Hd') as [(d0 & Hd0 & Hs & [->|[_ Ho]])|(Hn & _)]; simplify_eq; [left; apply same_claim_refl|right].
    intros (Hne & id2 & r2 & Hr2 & Hk2). assert (Hne2 : lb_storage_key r2 <> "") by congruence.
    destruct (rt_owner _ R _ _ _ _ Hd Hr2 Hne2 ltac:(done)) as [_ Ho2]. assert (r2 = x) as -> by congruence.
    enough (dr_state d = RActive) by congruence. by eapply rt_active.
Qed.

Lemma prepare_restore_Ok id item st p : _prepare_library_storage_restore id item st = Ok p ->
  p.2 = st /\ (p.1 <> "" \/ lb_storage_key item = "") \/
  is_Some (files st !! lb_storage_key item) /\
  (forall i d, resources st !! i = Some d -> bytes_resource id (lb_storage_key item) d = true -> dr_state d <> RCleaning) /\
  p = ("", set_resources (fun _ => qs_update (bytes_resource id (lb_storage_key item)) reactivated (resources st)) st).
Proof.
  unfold _prepare_library_storage_restore. cbv zeta. intros H. destruct (is_empty (lb_storage_key item)) eqn:He.
  { injection H as <-. left. split; [done|]. right. by apply is_empty_true in He. }
  destruct (qs_exists _ _) eqn:Hc; [injection H as <-; left; split; [done|]; by left|].
  destruct (qs_exists _ _ || _) eqn:Hn in H; [injection H as <-; left; split; [done|]; by left|].
  apply bind_Ok in H as (st' & Hu & H). injection H as <-. right. apply update_resources_Ok in Hu as ->.
  apply orb_false_iff in Hn as [_ Hn]. unfold storage_exists in Hn. apply negb_false_iff, bool_decide_eq_true in Hn.
  split; [done|]. split; [|done]. intros i d Hd Hb Hs. rewrite qs_exists_false in Hc.
  specialize (Hc _ _ Hd). rewrite Hb, bool_decide_eq_true_2 in Hc by done. done.
Qed.

Lemma bytes_resource_spec id key d : bytes_resource id key d = true <->
  dr_owner_kind d = KUserLibraryObject /\ dr_owner_id d = id /\ dr_resource_kind d = "storageObject" /\ dr_resource_key d = key.
Proof. unfold bytes_resource. rewrite !andb_true_iff, owned_by_spec, !bool_decide_eq_true. tauto. Qed.

Section restored.
Context (id name : pystr) (item : library_row) (status : object_status) (Hi : library (y_store y) !! id = Some item).
Let sel := bytes_resource id (lb_storage_key item).
Context (Hfile : is_Some (files (y_store y) !! lb_storage_key item) \/ lb_storage_key item = "").
Context (Hnc : forall i d, resources (y_store y) !! i = Some d -> sel d = true -> dr_state d <> RCleaning).
Let st' := set_library <[id := restored name status item]> (set_resources (fun _ => qs_update sel reactivated (resources (y_store y))) (y_store y)).

Lemma restored_touched : touched id (lb_storage_key item) (resources (y_store y)) (resources st').
Proof. apply touched_update; [done|]. intros d Hd. apply bytes_resource_spec in Hd. naive_solver. Qed.
Lemma restored_selects i d : resources (y_store y) !! i = Some d -> lb_storage_key item <> "" -> dr_resource_key d = lb_storage_key item -> sel d = true.
Proof.
  intros Hd Hne Hk. destruct (rt_owner _ R _ _ _ _ Hd Hi Hne Hk). apply bytes_resource_spec. split_and!; try done. by eapply (rt_res_kind _ R).
Qed.
Lemma restored_row j r : library st' !! j = Some r -> j = id /\ r = restored name status item \/ j <> id /\ library (y_store y) !! j = Some r.
Proof. unfold st'. cbn. intros [[<- <-]|[]]%lookup_insert_Some; [by left|by right]. Qed.
Lemma restored_resource i d' : resources st' !! i = Some d' -> exists d, resources (y_store y) !! i = Some d /\ d' = if sel d then reactivated d else d.
Proof. unfold st', qs_update. cbn. rewrite lookup_fmap. destruct (resources (y_store y) !! i); cbn; intros [= <-]. eauto. Qed.
Lemma restored_has_key k : has_key (library st') k -> has_key (library (y_store y)) k.
Proof. intros (Hne & j & r & [[-> ->]|[_ Hr]]%restored_row & Hk); split; eauto. Qed.
(** no collector works on the bytes *)
Lemma restored_no_worker w k : y_workers y !! w = Some k -> in_time y k -> lb_storage_key item <> "" -> dr_resource_key (wk_row k) <> lb_storage_key item.
Proof.
  intros Hw Ht Hne Hk. destruct (rt_worker _ R _ _ Hw Ht) as (d & Hd & (E & _) & [(S1 & _)|Hn]).
  - eapply Hnc; [done| |done]. eapply restored_selects; [done..|]. congruence.
  - apply Hn. split; [congruence|]. exists id, item. split; [done|]. congruence.
Qed.

(** The bytes of a restored object are there, no collector holds them, and their records are in active use. *)
Lemma restored_retained : retained (with_store st' y).
Proof.
  change (with_store st' y) with (with_workers st' (y_workers y) y). pose proof restored_touched as Ht.
  apply evolve_retained; [done..| | | | | |].
  - intros i d' (d & Hd & ->)%restored_resource. left. exists d. split; [done|]. by destruct (sel d).
  - intros j r [[-> ->]|[_ Hr]]%restored_row; left; eexists; (split; [done|]); by unfold same_bytes.
  - intros j r [[-> ->]|[Hj Hr]]%restored_row Hlost Hne Hp; [by destruct Hfile|].
    eapply rt_present; [done..|]. destruct Hp as [|[Hpu Hg]]; [by left|right]. split; [done|]. intros i d Hd Hk.
    destruct (proj2 Ht _ _ Hd) as (d' & Hd' & (E1 & _ & _ & E2 & _)). rewrite <- E2. eapply Hg; [done|congruence].
  - intros i d' id2 r2 Hd' [[-> ->]|[Hid Hr2]]%restored_row Hne Hk Hlive; [|eapply rt_active; [done| |done..]; by eapply (touched_other id)].
    apply restored_resource in Hd' as (d & Hd & ->). cbn in Hne, Hk. rewrite (restored_selects _ _ Hd Hne); [done|]. revert Hk. by destruct (sel d).
  - intros w k Hw Htm. destruct (rt_worker _ R _ _ Hw Htm) as (d & Hd & Es & Hcase). destruct (proj2 Ht _ _ Hd) as (d' & Hd' & Hsame).
    exists d'. split; [done|]. split; [by eapply same_resource_trans|]. apply restored_resource in Hd' as (d0 & Hd0 & ->). simplify_eq.
    destruct (sel d) eqn:Hs; [right|destruct Hcase as [|Hn]; [by left|right; intros Hk; by apply Hn, restored_has_key]].
    apply bytes_resource_spec in Hs as (_ & _ & _ & Hk). intros (Hne & _). cbn in Hne.
    eapply restored_no_worker; [done..|congruence|]. destruct Es as (<- & _). done.
  - intros w k id2 r2 Hw Htm Hv [[-> ->]|[Hid Hr2]]%restored_row Hne Hk; [|by eapply rt_verified].
    exfalso. by eapply restored_no_worker.
Qed.
End restored.

Lemma restore_retained user id now : retained (with_store (restore_library_object (y_store y) user id now).2 y).
Proof.
  unfold restore_library_object. match goal with |- context [run_tx ?a ?b ?c] => destruct (run_tx_store a b c) as [->|(resp & st' & E & ->)] end;
    [by rewrite with_same_store|]. apply bind_Ok in E as (item & Hi & E). apply library_object_Ok in Hi as [Hi _].
  apply bind_Ok in E as (u & _ & E). cbv zeta in E. case_match; [injection E as _ <-; by rewrite with_same_store|].
  case_match; [injection E as _ <-; by rewrite with_same_store|]. apply bind_Ok in E as (p & Hp & E). apply lift_Ok, prepare_restore_Ok in Hp.
  case_match eqn:Hcode.
  { apply negb_true_iff, is_empty_false in Hcode. injection E as _ <-. destruct Hp as [[-> _]|(_ & _ & ->)]; [by rewrite with_same_store|done]. }
  apply negb_false_iff, is_empty_true in Hcode. apply bind_Ok in E as (name & _ & E). apply bind_Ok in E as (status & _ & E).
  apply bind_Ok in E as (st1 & Hsv & E). injection E as _ <-. apply lift_Ok, save_library_Ok in Hsv as (-> & _).
  destruct Hp as [[-> [|Hkey]]|(Hf & Hnc & ->)]; [done| |apply restored_retained; eauto].
  apply evolve_quiet; [done..| |apply quiet_refl]. apply rows_kept_put. by right.
Qed.
End trash.

(** *** Storing, dropping and recording files *)

(** What [default_storage.save] promises: it never overwrites a file. *)
Definition free_names (available_name : files_t -> pystr -> pystr) : Prop :=
  forall fs key, fs !! available_name fs key = None /\ (key <> "" -> available_name fs key <> "").

Lemma key_nonempty (area rest : pystr) : area +:+ "/" +:+ rest <> "".
Proof. intros E. apply (f_equal str_len) in E. rewrite !str_len_app in E. change (str_len "/") with 1 in E. change (str_len "") with 0 in E.
  pose proof (zlen_nonneg (code_points area)). pose proof (zlen_nonneg (code_points rest)). unfold str_len in E. lia. Qed.

Definition describes_file (md : metadata) (content : bytes) : Prop := md_size md = zlen content /\ md_sha256 md = sha256_tag content.
(** The file [md] is stored under a new name. *)
Definition put_file (st : store) (md : metadata) (st' : store) : Prop :=
  exists content t, st' = set_files <[md_key md := (content, t)]> st /\ files st !! md_key md = None /\ md_key md <> "" /\ describes_file md content.

Lemma store_bytes_put {PL : Platform} av content area uuid name type now st md st' : free_names av ->
  store_bytes av content area uuid name type now st = Ok (md, st') -> put_file st md st'.
Proof.
  unfold store_bytes, storage_save. intros Hav H. walk H. destruct (Hav (files st) (area +:+ "/" +:+ uuid +:+ "/" +:+ x)) as [Hn Hne].
  exists content, now. split_and!; try done. apply Hne, key_nonempty.
Qed.
Lemma store_bytes_key {PL : Platform} av content area uuid name type now st md st' :
  store_bytes av content area uuid name type now st = Ok (md, st') -> exists f, md_key md = av (files st) (area +:+ "/" +:+ uuid +:+ "/" +:+ f).
Proof. unfold store_bytes, storage_save. intros H. walk H. eauto. Qed.
Lemma stores_put {PL : Platform} av st md st' : free_names av -> stores av st md st' -> put_file st md st'.
Proof.
  intros Hav [(content & area & uuid & name & type & now & H)|(upload & area & uuid & now & H)]; [by eapply store_bytes_put|].
  unfold store_upload in H. destruct (safe_filename _) as [x|]; [|done]. cbv zeta in H. unfold storage_try_save in H.
  destruct (Hav (files st) (area +:+ "/" +:+ uuid +:+ "/" +:+ x)) as [Hn Hne].
  destruct (save_fault _) as [[partial|]|]; [by destruct (delete_stored_object_for_gc _ _)..|]. injection H as <- <-.
  exists (uf_content upload), now. split_and!; try done. apply Hne, key_nonempty.
Qed.

Section files.
Context (y : system) (R : retained y).

Lemma more_used_retained used : y_used y ⊆ used -> retained (System (y_store y) (y_now y) used (y_pending y) (y_workers y) (y_lost y) (y_orphans y)).
Proof.
  intros Hu. pose proof R as R0. destruct R0. split; cbn in *; try done.
  - intros id r Hr Hk. by eapply Hu, rt_row_used0.
  - intros i d Hd Hk. by eapply Hu, rt_res_used0.
  - intros k md Hk. destruct (rt_pending0 _ _ Hk) as (? & ? & ? & ?). do 2 (split; [done|]). split; [by apply Hu|done].
  - intros k Hk. destruct (rt_orphan0 _ Hk) as (? & ?). split; [by apply Hu|done].
Qed.

(** Files that were never the library's come and go. *)
Lemma foreign_retained st' used : library st' = library (y_store y) -> resources st' = resources (y_store y) -> foreign_files y st' -> y_used y ⊆ used ->
  retained (System st' (y_now y) used (y_pending y) (y_workers y) (y_lost y) (y_orphans y)).
Proof.
  intros El Er Hf Hu. pose proof (more_used_retained _ Hu) as R1. destruct R1. pose proof R as R0. destruct R0. split; cbn in *; rewrite ?El, ?Er; try done.
  - intros k md Hk. destruct (rt_pending1 _ _ Hk) as (? & ? & Hku & ? & ? & ?). rewrite (Hf _ Hku). split_and!; try done. by apply Hu.
  - intros id r content t Hr Hne. rewrite Hf by eauto. eauto.
  - intros id r Hr Hl Hne Hp. rewrite Hf by eauto. eauto.
Qed.

Lemma put_retained md st' : put_file (y_store y) md st' -> new_keys_unused y st' ->
  retained (System st' (y_now y) ({[md_key md]} ∪ y_used y) (<[md_key md := md]> (y_pending y)) (y_workers y) (y_lost y) (y_orphans y)).
Proof.
  intros (content & t & -> & Hnone & Hne & Hdesc) Hnew.
  assert (Hfresh : md_key md ∉ y_used y) by (apply Hnew; [cbn; rewrite lookup_insert_eq; eauto|done]).
  pose proof R as R0. destruct R0. split; cbn in *; try done.
  - intros id r Hr Hk. specialize (rt_row_used0 _ _ Hr Hk). set_solver.
  - intros i d Hd Hk. specialize (rt_res_used0 _ _ Hd Hk). set_solver.
  - intros k md' [[<- <-]|[Hk Hp]]%lookup_insert_Some.
    + split_and!; try done; [set_solver| | |].
      * intros (_ & id & r & Hr & Hk). apply Hfresh. rewrite <- Hk. apply (rt_row_used0 _ _ Hr). congruence.
      * intros i d Hd Hk. apply Hfresh. rewrite <- Hk. apply (rt_res_used0 _ _ Hd). congruence.
      * exists content, t. rewrite lookup_insert_eq. done.
    + destruct (rt_pending0 _ _ Hp) as (? & ? & ? & ? & ? & ?). split_and!; try done; [set_solver|]. by rewrite lookup_insert_ne.
  - intros id r c t' Hr Hk Hf. specialize (rt_row_used0 _ _ Hr Hk). rewrite lookup_insert_ne in Hf by congruence. by eapply rt_content0.
  - intros id r Hr Hl Hk Hp. specialize (rt_row_used0 _ _ Hr Hk). rewrite lookup_insert_ne by congruence. by eapply rt_present0.
  - intros k Hk. destruct (rt_orphan0 _ Hk) as (Hku & ? & ?). split_and!; [set_solver|done|]. rewrite lookup_insert_ne; [done|congruence].
Qed.

(** A stored file is forgotten. *)
Lemma forget_retained key : retained (System (y_store y) (y_now y) (y_used y) (delete key (y_pending y)) (y_workers y) (y_lost y) (y_orphans y)).
Proof.
  pose proof R as R0. destruct R0. split; cbn in *; try done.
  - intros k md [_ Hk]%lookup_delete_Some. eauto.
  - intros k Hk. destruct (rt_orphan0 _ Hk) as (? & ? & Hn). split_and!; try done. apply lookup_delete_None. by right.
Qed.
(** A file that no row has and no request waits for is deleted. *)
Lemma unowned_retained key : ~ has_key (library (y_store y)) key -> y_pending y !! key = None -> retained (with_store (storage_delete key (y_store y)) y).
Proof.
  intros Hn Hp. pose proof R as R0. destruct R0. split; cbn in *; try done.
  - intros k md Hk. destruct (rt_pending0 _ _ Hk) as (? & ? & ? & ? & ? & ?). split_and!; try done. rewrite lookup_delete_ne by congruence. done.
  - intros id r c t Hr Hk [_ Hf]%lookup_delete_Some. eauto.
  - intros id r Hr Hl Hk Hprot. rewrite lookup_delete_ne; [by eapply rt_present0|]. intros ->. apply Hn. split; [done|]. eauto.
Qed.
(** More notes count as lost. *)
Lemma more_lost_retained id : retained (System (y_store y) (y_now y) (y_used y) (y_pending y) (y_workers y) ({[id]} ∪ y_lost y) (y_orphans y)).
Proof. pose proof R as R0. destruct R0. split; cbn in *; try done. intros j r Hr Hl Hk Hp. eapply rt_present0; [done|set_solver|done..]. Qed.
(** A note loses its bytes. *)
Lemma lose_retained id item : library (y_store y) !! id = Some item ->
  retained (System (delete_stored_object (lb_storage_key item) (y_store y)) (y_now y) (y_used y) (y_pending y) (y_workers y) ({[id]} ∪ y_lost y) (y_orphans y)).
Proof.
  intros Hi. pose proof R as R0. destruct R0.
  assert (library (delete_stored_object (lb_storage_key item) (y_store y)) = library (y_store y) /\
    resources (delete_stored_object (lb_storage_key item) (y_store y)) = resources (y_store y) /\
    (forall k, k <> lb_storage_key item -> files (delete_stored_object (lb_storage_key item) (y_store y)) !! k = files (y_store y) !! k) /\
    (forall k x, files (delete_stored_object (lb_storage_key item) (y_store y)) !! k = Some x -> files (y_store y) !! k = Some x)) as (El & Er & Ef & Eb).
  { unfold delete_stored_object. destruct (is_empty _); split_and!; try done; cbn; intros k.
    - intros Hk. by apply lookup_delete_ne.
    - by intros x [_ Hx]%lookup_delete_Some. }
  split; cbn in *; rewrite ?El, ?Er; try done.
  - intros k md Hk. destruct (rt_pending0 _ _ Hk) as (? & Hne & ? & Hn & ? & ?). split_and!; try done. rewrite Ef; [done|]. intros ->. apply Hn. split; [done|]. eauto.
  - intros j r c t Hr Hk Hf. eauto.
  - intros j r Hr Hl Hk Hprot. assert (j <> id) by set_solver. rewrite Ef; [eapply rt_present0; [done|set_solver|done..]|].
    intros E. by eapply rt_keys0 in E.
Qed.

(** A stored file that was not recorded is deleted again. *)
Lemma drop_retained md : y_pending y !! md_key md = Some md ->
  retained (System (storage_delete (md_key md) (y_store y)) (y_now y) (y_used y) (delete (md_key md) (y_pending y)) (y_workers y) (y_lost y) (y_orphans y)).
Proof.
  intros Hp. pose proof R as R0. destruct R0. destruct (rt_pending0 _ _ Hp) as (_ & Hne & _ & Hkey & _). split; cbn in *; try done.
  - intros k md' [Hk Hp']%lookup_delete_Some. destruct (rt_pending0 _ _ Hp') as (? & ? & ? & ? & ? & ?). split_and!; try done. by rewrite lookup_delete_ne.
  - intros id r c t' Hr Hk [_ Hf]%lookup_delete_Some. by eapply rt_content0.
  - intros id r Hr Hl Hk Hprot. rewrite lookup_delete_ne; [by eapply rt_present0|]. intros E. apply Hkey. rewrite E. split; [done|]. eauto.
  - intros k Hk. destruct (rt_orphan0 _ Hk) as (? & ? & Hn). split_and!; try done. apply lookup_delete_None. by right.
Qed.

(** A stored file is recorded in a new row. *)
Lemma record_retained md id r st' : y_pending y !! md_key md = Some md -> library (y_store y) !! id = None ->
  lb_storage_key r = md_key md -> lb_size r = Some (md_size md) -> lb_sha256 r = md_sha256 md ->
  library st' = <[id := r]> (library (y_store y)) -> resources st' = resources (y_store y) -> files st' = files (y_store y) ->
  retained (System st' (y_now y) (y_used y) (delete (md_key md) (y_pending y)) (y_workers y) (y_lost y) (y_orphans y)).
Proof.
  intros Hp Hnone Ek Es Eh El Er Ef. pose proof R as R0. destruct R0.
  destruct (rt_pending0 _ _ Hp) as (_ & Hne & Hused & Hkey & Hres & content & t & Hfile & Hs & Hh).
  assert (Hother : forall j s, library (y_store y) !! j = Some s -> lb_storage_key s <> md_key md).
  { intros j s Hj E. apply Hkey. split; [done|]. eauto. }
  split; cbn in *; rewrite ?El, ?Er, ?Ef; try done.
  - intros j s [[<- <-]|[_ Hj]]%lookup_insert_Some; [by rewrite Ek|eauto].
  - intros j1 s1 j2 s2 [[<- <-]|[_ H1]]%lookup_insert_Some [[<- <-]|[_ H2]]%lookup_insert_Some Hn E; [done| | |eauto];
      exfalso; eapply Hother; [done|congruence|done|congruence].
  - intros k md' [Hk Hp']%lookup_delete_Some. destruct (rt_pending0 _ _ Hp') as (? & ? & ? & Hnk & ? & ?). split_and!; try done.
    intros (_ & j & s & [[<- <-]|[_ Hj]]%lookup_insert_Some & E); [congruence|]. apply Hnk. split; [done|]. eauto.
  - intros j s c t' [[<- <-]|[_ Hj]]%lookup_insert_Some Hn Hf; [|by eapply rt_content0]. rewrite Ek, Hfile in Hf. injection Hf as <- <-.
    split; congruence.
  - intros j s [[<- <-]|[_ Hj]]%lookup_insert_Some Hl Hn Hprot; [rewrite Ek, Hfile; eauto|by eapply rt_present0].
  - intros i d j s Hd [[<- <-]|[_ Hj]]%lookup_insert_Some Hn E; [|by eapply rt_owner0]. exfalso. eapply Hres; [done|congruence].
  - intros i d j s Hd [[<- <-]|[_ Hj]]%lookup_insert_Some Hn E Hl; [|by eapply rt_active0]. exfalso. eapply Hres; [done|congruence].
  - intros w k Hw Ht. destruct (rt_worker0 _ _ Hw Ht) as (d & Hd & Hsame & Hcase). exists d. split; [done|]. split; [done|].
    destruct Hcase as [|Hn]; [by left|right]. intros (Hne' & j & s & [[<- <-]|[_ Hj]]%lookup_insert_Some & E); [|apply Hn; split; eauto].
    eapply Hres; [done|congruence].
  - intros w k j s Hw Ht Hv [[<- <-]|[_ Hj]]%lookup_insert_Some Hn E; [|by eapply rt_verified0]. exfalso.
    destruct (rt_worker0 _ _ Hw Ht) as (d & Hd & (Ed & _) & _). eapply Hres; [done|congruence].
  - intros k Hk. destruct (rt_orphan0 _ Hk) as (? & Hnk & Hpn). split_and!; [done| |apply lookup_delete_None; by right].
    intros (Hk0 & j & s & [[<- <-]|[_ Hj]]%lookup_insert_Some & E); [congruence|]. apply Hnk. split; [done|]. eauto.
Qed.

(** A stored file replaces the bytes of a live object. *)
Section switch.
Context (md : metadata) (id : pystr) (item r : library_row) (p : resource_row -> bool) (f : resource_row -> resource_row).
Context (Hp : y_pending y !! md_key md = Some md) (Hi : library (y_store y) !! id = Some item).
Context (Ek : lb_storage_key r = md_key md) (Es : lb_size r = Some (md_size md)) (Eh : lb_sha256 r = md_sha256 md).
Context (Hf : forall d, same_resource d (f d)).
Context (Hsel : forall d, p d = true -> dr_owner_kind d = KUserLibraryObject /\ dr_owner_id d = id /\ dr_state d = RActive).
Let st' := delete_stored_object (lb_storage_key item) (set_resources (fun _ => qs_update p f (resources (y_store y))) (set_library <[id := r]> (y_store y))).

Lemma switch_library : library st' = <[id := r]> (library (y_store y)).
Proof. unfold st'. by rewrite delete_stored_library. Qed.
Lemma switch_resource i d' : resources st' !! i = Some d' -> exists d, resources (y_store y) !! i = Some d /\ d' = if p d then f d else d.
Proof.
  assert (E : resources st' = qs_update p f (resources (y_store y))) by (unfold st', delete_stored_object; by case_match). rewrite E. unfold qs_update.
  rewrite lookup_fmap. destruct (resources (y_store y) !! i); cbn; intros [= <-]. eauto.
Qed.
Lemma switch_resource_forth i d : resources (y_store y) !! i = Some d -> resources st' !! i = Some (if p d then f d else d).
Proof.
  assert (E : resources st' = qs_update p f (resources (y_store y))) by (unfold st', delete_stored_object; by case_match). rewrite E. unfold qs_update.
  rewrite lookup_fmap. by intros ->.
Qed.
Lemma switch_same d : same_resource d (if p d then f d else d).
Proof. destruct (p d); [done|apply same_resource_refl]. Qed.
Lemma switch_files k : files st' !! k = if decide (k <> "" /\ k = lb_storage_key item) then None else files (y_store y) !! k.
Proof.
  unfold st', delete_stored_object. destruct (is_empty (lb_storage_key item)) eqn:E.
  - apply is_empty_true in E. rewrite E. rewrite decide_False; [done|]. naive_solver.
  - apply is_empty_false in E. cbn. destruct (decide (k <> "" /\ k = lb_storage_key item)) as [[_ ->]|Hn]; [apply lookup_delete_eq|].
    apply lookup_delete_ne. naive_solver.
Qed.
(** the other rows keep other bytes *)
Lemma switch_other j s : j <> id -> library (y_store y) !! j = Some s -> lb_storage_key s <> "" ->
  lb_storage_key s <> md_key md /\ files st' !! lb_storage_key s = files (y_store y) !! lb_storage_key s.
Proof.
  intros Hj Hs Hne. destruct (rt_pending _ R _ _ Hp) as (_ & ? & _ & Hkey & _). split.
  - intros E. apply Hkey. split; [done|]. eauto.
  - rewrite switch_files, decide_False; [done|]. intros [_ E]. apply Hj. by eapply (rt_keys _ R).
Qed.
(** the records of other rows' bytes are not changed *)
Lemma switch_record i d' j s : resources st' !! i = Some d' -> j <> id -> library (y_store y) !! j = Some s -> lb_storage_key s <> "" ->
  dr_resource_key d' = lb_storage_key s -> resources (y_store y) !! i = Some d'.
Proof.
  intros (d & Hd & ->)%switch_resource Hj Hs Hne E. destruct (p d) eqn:Hpd; [|done]. exfalso. destruct (Hsel _ Hpd) as (_ & Ho & _).
  destruct (Hf d) as (Ef & _). destruct (rt_owner _ R _ _ _ _ Hd Hs Hne) as [_ Ho2]; congruence.
Qed.
(** no record has the new bytes *)
Lemma switch_no_record i d' : resources st' !! i = Some d' -> dr_resource_key d' <> md_key md.
Proof.
  intros (d & Hd & ->)%switch_resource. destruct (rt_pending _ R _ _ Hp) as (_ & _ & _ & _ & Hres & _). destruct (switch_same d) as (-> & _). eauto.
Qed.

Lemma switch_retained : retained (System st' (y_now y) (y_used y) (delete (md_key md) (y_pending y)) (y_workers y) (y_lost y) (y_orphans y)).
Proof.
  destruct (rt_pending _ R _ _ Hp) as (_ & Hne & Hused & Hkey & Hres & content & t & Hfile & Hs & Hh).
  assert (Hnew : files st' !! md_key md = Some (content, t)).
  { rewrite switch_files, decide_False; [done|]. intros [_ E]. apply Hkey. split; [done|]. eauto. }
  pose proof R as R0. destruct R0. split; cbn in *; rewrite ?switch_library; try done.
  - intros j s [[<- <-]|[_ Hj]]%lookup_insert_Some; [by rewrite Ek|eauto].
  - intros i d' (d & Hd & ->)%switch_resource. destruct (switch_same d) as (-> & _). eauto.
  - intros i d' (d & Hd & ->)%switch_resource. destruct (switch_same d) as (_ & _ & _ & _ & ->). eauto.
  - intros j1 s1 j2 s2 [[<- <-]|[N1 H1]]%lookup_insert_Some [[<- <-]|[N2 H2]]%lookup_insert_Some Hn E; [done| | |eauto]; exfalso.
    + destruct (switch_other j2 s2) as [? _]; [done..|congruence|congruence].
    + destruct (switch_other j1 s1) as [? _]; [done..|congruence].
  - intros k md' [Hk Hp']%lookup_delete_Some. destruct (rt_pending0 _ _ Hp') as (? & ? & ? & Hnk & Hnr & ?). split_and!; try done.
    + intros (_ & j & s & [[<- <-]|[_ Hj]]%lookup_insert_Some & E); [congruence|]. apply Hnk. split; [done|]. eauto.
    + intros i d' (d & Hd & ->)%switch_resource. destruct (switch_same d) as (-> & _). eauto.
    + rewrite switch_files, decide_False; [done|]. intros [_ E]. apply Hnk. split; [done|]. eauto.
  - intros j s c t' [[<- <-]|[Nj Hj]]%lookup_insert_Some Hn Hff.
    + rewrite Ek, Hnew in Hff. injection Hff as <- <-. split; congruence.
    + destruct (switch_other j s) as [_ E]; [done..|]. rewrite E in Hff. by eapply rt_content0.
  - intros j s [[<- <-]|[Nj Hj]]%lookup_insert_Some Hlost Hn Hprot; [rewrite Ek, Hnew; eauto|].
    destruct (switch_other j s) as [_ ->]; [done..|]. eapply rt_present0; [done..|]. destruct Hprot as [|[Hpu Hg]]; [by left|right].
    split; [done|]. intros i d Hd E. specialize (Hg i _ (switch_resource_forth _ _ Hd)). destruct (switch_same d) as (E1 & _ & _ & E2 & _).
    rewrite E2 in Hg. apply Hg. congruence.
  - intros i d' j s Hd' [[<- <-]|[Nj Hj]]%lookup_insert_Some Hn E; [exfalso; apply (switch_no_record _ _ Hd'); congruence|].
    eapply rt_owner0; [|done..]. by eapply switch_record.
  - intros i d' j s Hd' [[<- <-]|[Nj Hj]]%lookup_insert_Some Hn E Hl; [exfalso; apply (switch_no_record _ _ Hd'); congruence|].
    eapply rt_active0; [|done..]. by eapply switch_record.
  - intros w k Hw Ht. destruct (rt_worker0 _ _ Hw Ht) as (d & Hd & Hsame & Hcase). pose proof (switch_resource_forth _ _ Hd) as Hd'.
    eexists. split; [done|]. split; [eapply same_resource_trans, switch_same; done|]. destruct (switch_same d) as (Ed & _). rewrite Ed.
    destruct Hcase as [(S1 & S2)|Hn]; [left; destruct (p d) eqn:Hpd; [|done]; destruct (Hsel _ Hpd) as (_ & _ & ?); congruence|right].
    intros (Hne' & j & s & [[<- <-]|[_ Hj]]%lookup_insert_Some & E); [|apply Hn; split; eauto]. eapply Hres; [done|congruence].
  - intros w k j s Hw Ht Hv [[<- <-]|[_ Hj]]%lookup_insert_Some Hn E; [|by eapply rt_verified0]. exfalso.
    destruct (rt_worker0 _ _ Hw Ht) as (d & Hd & (Ed & _) & _). eapply Hres; [done|congruence].
  - intros k Hk. destruct (rt_orphan0 _ Hk) as (? & Hnk & Hpn). split_and!; [done| |apply lookup_delete_None; by right].
    intros (Hk0 & j & s & [[<- <-]|[_ Hj]]%lookup_insert_Some & E); [congruence|]. apply Hnk. split; [done|]. eauto.
Qed.
End switch.
End files.

(** *** Every step *)

Section steps.
Context {PL : Platform} (available_name : files_t -> pystr -> pystr) (Hav : free_names available_name).

Lemma note_retained y user name parent md id link now : retained y -> y_pending y !! md_key md = Some md ->
  retained (without_pending [md_key md] (note_commit (y_store y) user name parent md id link now).2 y).
Proof.
  intros R Hp. unfold note_commit. case_match eqn:E; cbn [snd].
  - apply bind_Ok in E as (u & Hu & E). apply bind_Ok in E as (st1 & H1 & E). apply lift_Ok, create_library_Ok in H1 as (Hn & -> & _).
    apply create_link_library in E as (El & Er & Ef). eapply (record_retained _ R md id); [done..| | | |exact El|exact Er|exact Ef]; done.
  - destruct (rt_pending _ R _ _ Hp) as (_ & Hne & _). unfold delete_stored_object. apply is_empty_false in Hne. rewrite Hne. by apply drop_retained.
Qed.

Lemma dropped_retained y md st' : retained y -> y_pending y !! md_key md = Some md -> delete_stored_object_for_gc (md_key md) (y_store y) = Ok st' ->
  retained (without_pending [md_key md] st' y).
Proof. intros R Hp H. unfold delete_stored_object_for_gc in H. walk H; [by apply forget_retained|by apply drop_retained]. Qed.
Lemma uploaded_retained y user md parent id link now q : retained y -> y_pending y !! md_key md = Some md ->
  _create_uploaded_library_object (y_store y) user md parent id link now = Ok q -> retained (without_pending [md_key md] q.2 y).
Proof.
  intros R Hp H. unfold _create_uploaded_library_object in H. destruct (reusable_object _ _ _) as [[k r]|].
  - apply bind_Ok in H as (st1 & H1 & H). injection H as <-. apply lift_Ok in H1. by eapply dropped_retained.
  - apply bind_Ok in H as (c & Hc & H). cbv zeta in H. apply bind_Ok in H as (st1 & H1 & H). apply bind_Ok in H as (st2 & H2 & H). injection H as <-.
    apply lift_Ok, create_library_Ok in H1 as (Hn & -> & _). apply create_link_library in H2 as (El & Er & Ef). eapply (record_retained _ R md id); [done..| | | |exact El|exact Er|exact Ef]; done.
Qed.

Lemma pending_later md stored (pending : gmap pystr metadata) : NoDup (map md_key (md :: stored)) ->
  (forall m, m ∈ md :: stored -> pending !! md_key m = Some m) -> forall m, m ∈ stored -> delete (md_key md) pending !! md_key m = Some m.
Proof.
  intros [Hnot _]%NoDup_cons Hall m Hm. rewrite lookup_delete_ne; [apply Hall; by right|]. intros E. apply Hnot. rewrite E. by apply list_elem_of_fmap_2.
Qed.
Lemma create_uploaded_retained stored : forall y user parent ids links now n items q, retained y -> NoDup (map md_key stored) ->
  (forall md, md ∈ stored -> y_pending y !! md_key md = Some md) ->
  create_uploaded (y_store y) user stored parent ids links now n items = Ok q -> retained (without_pending (map md_key stored) q.2 y).
Proof.
  induction stored as [|md stored IH]; intros y user parent ids links now n items q R Hnd Hall H; cbn in H.
  { injection H as <-. unfold without_pending. cbn. by destruct y. }
  apply bind_Ok in H as ([[id r] st1] & H1 & H). eapply uploaded_retained in H1; [|done|apply Hall; by left].
  apply (IH (without_pending [md_key md] st1 y)) in H; [done|done|exact (proj2 (proj1 (NoDup_cons _ _) Hnd))|exact (pending_later _ _ _ Hnd Hall)].
Qed.
Lemma delete_batch_retained stored : forall failed y, retained y -> NoDup (map md_key stored) ->
  (forall md, md ∈ stored -> y_pending y !! md_key md = Some md) ->
  retained (without_pending (map md_key stored) (delete_batch stored failed (y_store y)).2 y).
Proof.
  induction stored as [|md stored IH]; intros failed y R Hnd Hall; [unfold without_pending; cbn; by destruct y|]. cbn [delete_batch].
  pose proof (proj2 (proj1 (NoDup_cons _ _) Hnd)) as Hnd'. pose proof (pending_later _ _ _ Hnd Hall) as Hall'.
  destruct (delete_stored_object_for_gc _ _) as [st1|e] eqn:E.
  - eapply dropped_retained in E; [|done|apply Hall; by left]. exact (IH failed (without_pending [md_key md] st1 y) E Hnd' Hall').
  - exact (IH true (without_pending [md_key md] (y_store y) y) (forget_retained _ R _) Hnd' Hall').
Qed.
Lemma upload_retained y user parent stored ids links now : retained y -> NoDup (map md_key stored) ->
  (forall md, md ∈ stored -> y_pending y !! md_key md = Some md) ->
  retained (without_pending (map md_key stored) (upload_commit (y_store y) user parent stored ids links now).2 y).
Proof.
  intros R Hnd Hall. unfold upload_commit, _create_uploaded_library_objects. case_match eqn:E.
  2:{ unfold after_cleanup, _delete_stored_upload_batch. pose proof (delete_batch_retained stored false y R Hnd Hall) as Hd.
      by destruct (delete_batch stored false (y_store y)). }
  destruct a as [items st']. by eapply create_uploaded_retained in E.
Qed.

(** What a rewrite does to the store: nothing, or the old bytes are replaced, or they are lost. *)
Lemma rewrite_store st user id name markdown uuid now commits : let st' := (update_library_note available_name st user id name markdown uuid now commits).2 in
  st' = st \/
  exists md st1 item r, put_file st md st1 /\ library st !! id = Some item /\ live item /\ lb_storage_key r = md_key md /\ lb_size r = Some (md_size md) /\
    lb_sha256 r = md_sha256 md /\ (exists f, md_key md = available_name (files st) (library_area user +:+ "/" +:+ uuid +:+ "/" +:+ f)) /\
    st' =
      let rewritten := delete_stored_object (lb_storage_key item) (set_resources (fun _ => qs_update
        (fun d => owned_by KUserLibraryObject id d && (dr_content_generation d <? lb_content_generation r) && bool_decide (dr_state d = RActive))
        (fun d => pending_resource (dr_deletion_generation d) (Some now) d) (resources st1)) (set_library <[id := r]> st1)) in
      if commits then rewritten else delete_stored_object (md_key md) (rollback st rewritten).
Proof.
  cbv zeta. unfold update_library_note. case_match eqn:E; [|by left]. destruct a as [[[item item'] md] st1]. walk E.
  destruct x4 as [md st1]. apply lift_Ok in Hx4. pose proof (store_bytes_key _ _ _ _ _ _ _ _ _ _ Hx4). apply store_bytes_put in Hx4; [|done]. cbn [fst snd] in *. case_match eqn:E2; cbn [snd].
  - right. walk E2. apply lift_Ok in Hx5, Hx6. apply save_library_Ok in Hx5 as (-> & _). unfold tombstone_superseded_derived_resources in Hx6. walk Hx6.
    apply update_resources_Ok in Hx6 as ->. apply library_object_Ok in Hx0 as [Hi _].
    apply require_Ok in Hx1. bool_inv. assert (live item) by (unfold live; congruence). injection Heqp as <- <-. exists md, st1, item, (rewritten x md item).
    split_and!; try done. by destruct commits.
  - left. destruct Hx4 as (content & t & -> & Hn & Hne & _). unfold delete_stored_object, rollback, storage_delete, set_files. apply is_empty_false in Hne.
    rewrite Hne. cbn. rewrite delete_insert_id by done. by destruct st.
Qed.
Lemma added_used y st' key x : files st' !! key = Some x -> files (y_store y) !! key = None -> {[key]} ∪ y_used y ⊆ added_keys y st' ∪ y_used y.
Proof.
  intros Hx Hn. apply union_mono_r, singleton_subseteq_l. unfold added_keys. apply elem_of_difference. rewrite elem_of_dom, not_elem_of_dom. eauto.
Qed.
Lemma rewrite_retained y user id name markdown uuid now commits st' : retained y ->
  st' = (update_library_note available_name (y_store y) user id name markdown uuid now commits).2 -> new_directory available_name y (library_area user) uuid ->
  retained (System st' (y_now y) (added_keys y st' ∪ y_used y) (y_pending y) (y_workers y) (if commits then y_lost y else {[id]} ∪ y_lost y) (y_orphans y)).
Proof.
  intros R -> Hdir. destruct (rewrite_store (y_store y) user id name markdown uuid now commits) as [E|(md & st1 & item & r & Hput & Hi & Hl & Ek & Es & Eh & [f Ef] & E)].
  { rewrite E. destruct commits; [apply more_used_retained; [done|set_solver]|]. apply (more_used_retained _ (more_lost_retained _ R id)). set_solver. }
  assert (Hfresh : md_key md ∉ y_used y) by (rewrite Ef; apply Hdir).
  pose proof Hput as (content & t & E1 & Hn & Hne & Hd). cbv zeta in E.
  assert (Hkey : lb_storage_key item <> md_key md) by (intros Eq; apply Hfresh; rewrite <- Eq; eapply rt_row_used; [done..|congruence]).
  destruct commits.
  - rewrite E. rewrite E1 in *. clear E E1. match goal with |- retained (System ?s _ _ _ _ _ _) => set (st' := s) in * end.
    assert (Hkept : files st' !! md_key md = Some (content, t)).
    { unfold st', delete_stored_object. case_match; cbn; rewrite ?lookup_delete_ne by done; apply lookup_insert_eq. }
    assert (Hnone : y_pending y !! md_key md = None).
    { destruct (y_pending y !! md_key md) as [m|] eqn:Hm; [|done]. destruct (rt_pending _ R _ _ Hm) as (_ & _ & ? & _). done. }
    eapply put_retained in Hput; [|done|intros k Hk Hk0; cbn in Hk; destruct (decide (k = md_key md)) as [->|]; [done|];
      rewrite lookup_insert_ne, Hk0 in Hk by done; by destruct Hk].
    eapply (switch_retained _ Hput md id item r) in Hi; [|cbn; by rewrite lookup_insert_eq|done..| |]; cbn in Hi.
    + rewrite delete_insert_id in Hi by done. apply more_used_retained with (used := added_keys y st' ∪ y_used y) in Hi; [exact Hi|].
      cbn. by eapply added_used.
    + done.
    + intros d Hsel. apply andb_prop in Hsel as [Hsel Hact]. apply andb_prop in Hsel as [Hsel _]. apply owned_by_spec in Hsel as [].
      by apply bool_decide_eq_true in Hact.
  - assert (E2 : (update_library_note available_name (y_store y) user id name markdown uuid now false).2 =
      delete_stored_object (lb_storage_key item) (y_store y)).
    { rewrite E, E1. unfold delete_stored_object, rollback, storage_delete, set_files. apply is_empty_false in Hne. rewrite Hne.
      destruct (is_empty (lb_storage_key item)); cbn; [by rewrite delete_insert_id; destruct (y_store y)|].
      rewrite delete_insert_ne, delete_insert_id by (try done; by rewrite lookup_delete_ne). by destruct (y_store y). }
    rewrite E2. apply (more_used_retained _ (lose_retained _ R id item Hi)). set_solver.
Qed.

(** The copy of an artifact is stored and recorded in a new row. *)
Lemma copy_retained y artifact_id r user id link now outcome st' : retained y ->
  _ingest_artifact_library_copy available_name (y_store y) artifact_id r user id link now = (outcome, st') ->
  new_keys_unused y st' -> artifact_intact (y_store y) r ->
  retained (System (if is_ok outcome then st' else rollback (y_store y) st') (y_now y) (added_keys y st' ∪ y_used y) (y_pending y) (y_workers y) (y_lost y) (y_orphans y)).
Proof.
  intros R H Hnew Hint. unfold _ingest_artifact_library_copy in H. destruct (library_copied _ _ _).
  { injection H as <- <-. cbn. apply more_used_retained; [done|set_solver]. }
  assert (Hroll : forall st1 used, files st1 = files (y_store y) -> y_used y ⊆ used -> retained (System (rollback (y_store y) st1) (y_now y) used (y_pending y) (y_workers y) (y_lost y) (y_orphans y))).
  { intros st1 used Ef Hu. apply foreign_retained; try done. intros k _. cbn. by rewrite Ef. }
  destruct (if is_empty _ then _ else _) as [[content t]|] eqn:Ec; [|injection H as <- <-; apply Hroll; [done|set_solver]].
  destruct (is_empty (ar_storage_key r)); [done|]. destruct (Hint _ _ Ec) as [Hsize Hsha].
  match type of H with context [storage_save _ ?k _ _ _] => set (key := k) in * end. unfold storage_save in H. cbv zeta in H.
  destruct (Hav (files (y_store y)) key) as [Hn Hne].
  assert (Hkn : key <> "") by (unfold key; intros E0; apply (f_equal (head ∘ code_points)) in E0; discriminate E0). specialize (Hne Hkn).
  set (stored := available_name (files (y_store y)) key) in *.
  assert (Hdel : files (delete_stored_object stored (set_files <[stored := (content, now)]> (y_store y))) = files (y_store y)).
  { unfold delete_stored_object. apply is_empty_false in Hne. rewrite Hne. cbn. by rewrite delete_insert_id. }
  destruct (bool_decide (stored = key)) eqn:Hsk; cbn [negb] in H; [|injection H as <- <-; cbn; apply Hroll; [done|set_solver]].
  apply bool_decide_eq_true in Hsk. rewrite <- Hsk in *. case_match eqn:E; injection H as <- <-; cbn [is_ok]; [|apply Hroll; [done|set_solver]].
  apply bind_Ok in E as (st2 & H2 & E). apply bind_Ok in E as (links & _ & E). injection E as <-. apply create_library_Ok in H2 as (Hid & -> & _). cbn in Hid.
  set (md := Metadata (ar_name r) (ar_safe_filename r) (ar_content_type r) (ar_size r) (ar_sha256 r) stored).
  assert (Hput : put_file (y_store y) md (set_files <[stored := (content, now)]> (y_store y))) by (by exists content, now).
  assert (Hfresh : stored ∉ y_used y) by (apply Hnew; [cbn; rewrite lookup_insert_eq; eauto|done]).
  assert (Hnone : y_pending y !! stored = None).
  { destruct (y_pending y !! stored) as [m|] eqn:Hm; [|done]. destruct (rt_pending _ R _ _ Hm) as (_ & _ & ? & _). done. }
  eapply put_retained in Hput; [|done|done].
  eapply (record_retained _ Hput md id (saved_artifact user r stored now)
    (set_library_links (fun _ => links) (set_library <[id := saved_artifact user r stored now]> (set_files <[stored := (content, now)]> (y_store y))))) in Hid;
    [|cbn; by rewrite lookup_insert_eq|done..]. cbn in Hid. rewrite delete_insert_id in Hid by done.
  apply more_used_retained with (used := added_keys y (set_library_links (fun _ => links) (set_library <[id := saved_artifact user r stored now]>
    (set_files <[stored := (content, now)]> (y_store y)))) ∪ y_used y) in Hid; [exact Hid|]. cbn. eapply added_used; [|done]. cbn. apply lookup_insert_eq.
Qed.

Lemma scan_retained y key content modified cutoff : retained y -> files (y_store y) !! key = Some (content, modified) ->
  orphaned_key (y_store y) cutoff key modified = true -> in_flight_after y cutoff ->
  retained (System (y_store y) (y_now y) ({[key]} ∪ y_used y) (y_pending y) (y_workers y) (y_lost y) ({[key]} ∪ y_orphans y)).
Proof.
  intros R Hf Ho Hfl. assert (Hu : y_used y ⊆ {[key]} ∪ y_used y) by set_solver. destruct (more_used_retained _ R _ Hu). split; cbn in *; try done.
  intros k [->%elem_of_singleton|Hk]%elem_of_union; [|eauto]. unfold orphaned_key in Ho. bool_inv. split; [set_solver|]. split.
  - intros (_ & id & r & Hr & Hk). match goal with Hq : qs_exists _ _ = false |- _ => rewrite qs_exists_false in Hq; specialize (Hq _ _ Hr) end. by bool_inv.
  - destruct (y_pending y !! key) as [md|] eqn:Hp; [|done]. specialize (Hfl _ _ _ _ Hp Hf). lia.
Qed.
Lemma orphan_retained y key st' : retained y -> key ∈ y_orphans y -> delete_stored_object_for_gc key (y_store y) = Ok st' -> retained (with_store st' y).
Proof.
  intros R Hk H. destruct (rt_orphan _ R _ Hk) as (_ & Hn & Hp). unfold delete_stored_object_for_gc in H. walk H; [by rewrite with_same_store|].
  by apply unowned_retained.
Qed.
Lemma store_failed_retained y upload area uuid now e st' : retained y -> store_upload available_name upload area uuid now (y_store y) = (Err e, st') ->
  foreign_files y st' -> retained (with_store st' y).
Proof.
  intros R H Hf. pose proof (store_upload_tables available_name upload area uuid now (y_store y)) as (El & _ & _ & _ & Er). rewrite H in *. by apply foreign_retained.
Qed.

Lemma step_retained y y' : system_step available_name y y' -> retained y -> retained y'.
Proof.
  intros Hs R. destruct Hs; eauto using folder_retained, note_retained, upload_retained, update_retained, rewrite_retained, purge_retained,
    expire_retained, delete_retained, restore_retained, claim_retained, verify_retained, clean_retained, copy_retained, scan_retained, orphan_retained,
    store_failed_retained, foreign_retained, forget_retained.
  - apply put_retained; [done| |done]. by eapply stores_put.
  - match goal with H : _mark_cleaned _ _ _ _ = _ |- _ => eapply (mark_retained _ R) in H; [exact H|done|done] end.
  - match goal with H : _mark_failed _ _ _ _ = _ |- _ => eapply (mark_retained _ R) in H; [exact H|done|done] end.
  - apply fewer_workers_retained; [done|lia|]. intros w' k [_ Hk]%lookup_delete_Some. done.
  - apply fewer_workers_retained; done.
Qed.
End steps.

Definition fresh_system (now : Z) : system := System empty_store now ∅ ∅ ∅ ∅ ∅.
Lemma fresh_retained now : retained (fresh_system now).
Proof. split; cbn; intros; try set_solver; repeat match goal with H : _ !! _ = Some _ |- _ => by rewrite lookup_empty in H end. Qed.

(** (C12) What is stored stays stored.  Start with an empty system and let uploads, notes, renames, rewrites, copies
    of published artifacts, deletions, restores, purges, the expiry of trash, any number of collectors of deleted
    resources and of files without an owner, and other users of the object store run interleaved, requests and
    collectors in their phases, failures and crashes included.  The conditions: a collector that deletes the bytes
    of a resource does so within its lease; directories of new files are new and storing never overwrites; a
    collector of files without an owner looks only at files older than every upload still in flight; an artifact is
    copied from intact bytes.  Then the bytes of every live object, and of every object in the trash whose records
    are not older than its last restore, are in the object store and are the bytes the row describes, except for
    notes a rewrite of which failed to commit ([y_lost]): that failure deletes the old bytes. *)
Theorem stored_bytes_are_kept {PL : Platform} available_name now y :
  free_names available_name -> rtc (system_step available_name) (fresh_system now) y -> bytes_kept y.
Proof.
  intros Hav Hs. apply retained_bytes_kept. eapply (rtc_ind_r retained); [apply fresh_retained| |exact Hs].
  intros y1 y2 _ Hstep. by apply (step_retained available_name Hav).
Qed.

(** ** A sample run *)

Lemma join_bound x l : x ∈ l -> str_len x <= str_len (str_join "" l).
Proof.
  assert (Hn : forall s, 0 <= str_len s) by (intros s; apply zlen_nonneg).
  induction l as [|a [|b l] IH]; intros Hx; [set_solver|apply list_elem_of_singleton in Hx as ->; done|].
  change (str_join "" (a :: b :: l)) with (a +:+ "" +:+ str_join "" (b :: l)). rewrite !str_len_app. change (str_len "") with 0.
  pose proof (Hn a). pose proof (Hn (str_join "" (b :: l))). apply elem_of_cons in Hx as [->|Hx]; [lia|]. specialize (IH Hx). lia.
Qed.
Lemma sample_names_free : free_names sample_name.
Proof.
  intros fs key. unfold sample_name. destruct (decide (is_Some (fs !! key))) as [_|Hn].
  - split; [|intros _ E; apply (f_equal str_len) in E]; rewrite ?str_len_app in *.
    + apply eq_None_not_Some. intros [x Hx]. assert (Hin : key +:+ str_join "" (map fst (map_to_list fs)) +:+ "_" ∈ map fst (map_to_list fs)).
      { apply list_elem_of_fmap. exists (key +:+ str_join "" (map fst (map_to_list fs)) +:+ "_", x). split; [done|]. by apply elem_of_map_to_list. }
      apply join_bound in Hin. rewrite !str_len_app in Hin. change (str_len "_") with 1 in Hin. pose proof (zlen_nonneg (code_points key)).
      unfold str_len in *. lia.
    + change (str_len "_") with 1 in E. change (str_len "") with 0 in E. pose proof (zlen_nonneg (code_points key)).
      pose proof (zlen_nonneg (code_points (str_join "" (map fst (map_to_list fs))))). unfold str_len in *. lia.
  - split; [by apply eq_None_not_Some|done].
Qed.

Definition sample_content : bytes := [104; 105].
Definition sample_md : metadata :=
  Metadata "Plan.md" "Plan.md" "text/markdown" 2 (sha256_tag sample_content) "users/7/library/u1/Plan.md".
Definition sample_stored : system :=
  System (set_files <[md_key sample_md := (sample_content, 10)]> empty_store) 10 {[md_key sample_md]} {[md_key sample_md := sample_md]} ∅ ∅ ∅.
Definition sample_noted : system :=
  without_pending [md_key sample_md] (note_commit (PL := ascii_platform) (y_store sample_stored) 7 "Plan" None sample_md "lib_1" "link_1" 11).2 sample_stored.
Definition sample_deleted : system := with_store (delete_library_object (y_store sample_noted) 7 "lib_1" "res_1" 10).2 sample_noted.
Definition sample_restored : system := with_store (restore_library_object (PL := ascii_platform) (y_store sample_deleted) 7 "lib_1" 10).2 sample_deleted.

Lemma sample_store : store_bytes (PL := ascii_platform) sample_name sample_content "users/7/library" "u1" "Plan.md" "text/markdown" 10 empty_store
  = Ok (sample_md, set_files <[md_key sample_md := (sample_content, 10)]> empty_store).
Proof. vm_compute. reflexivity. Qed.
Lemma sample_row : (fun r => (lb_status r, lb_content_generation r, lb_storage_key r)) <$> library (y_store sample_restored) !! "lib_1"
  = Some (OReady, 2, "users/7/library/u1/Plan.md").
Proof. vm_compute. reflexivity. Qed.

Lemma stored_bytes_are_kept_witness :
  (fun r => (lb_status r, lb_content_generation r, lb_storage_key r)) <$> library (y_store sample_restored) !! "lib_1"
    = Some (OReady, 2, "users/7/library/u1/Plan.md") /\ bytes_kept sample_restored.
Proof.
  split; [exact sample_row|]. apply (stored_bytes_are_kept (PL := ascii_platform) sample_name 10); [exact sample_names_free|].
  eapply rtc_l; [|eapply rtc_l; [|eapply rtc_l; [|eapply rtc_l; [|apply rtc_refl]]]].
  - eapply (y_put sample_name (fresh_system 10) sample_md); [left; do 6 eexists; exact sample_store|].
    intros k _ _ Hk. by apply elem_of_empty in Hk.
  - cbn. rewrite insert_empty, union_empty_r_L. apply (y_note sample_name sample_stored). apply lookup_singleton_eq.
  - apply (y_delete sample_name sample_noted).
  - apply (y_restore sample_name sample_deleted).
Defined.

(** ** A rewrite that fails to commit *)

(** A rewrite that fails to commit loses the note: the old bytes are deleted inside the transaction, so when the
    commit fails the row is back and its bytes are gone. *)
Theorem failed_rewrite_loses_bytes :
  let p := update_library_note (PL := ascii_platform) sample_name (y_store sample_noted) 7 "lib_1" "Plan" "new text" "u2" 20 false in
  p.1 = Err (LExn IntegrityError) /\ library p.2 = library (y_store sample_noted) /\
  lb_storage_key <$> library p.2 !! "lib_1" = Some (md_key sample_md) /\
  is_Some (files (y_store sample_noted) !! md_key sample_md) /\ files p.2 !! md_key sample_md = None.
Proof. vm_compute. split_and!; eauto. Qed.

(** ** Collecting too early *)

(** The note is deleted a second time, and the collector runs with no retention of its own. *)
Definition sample_again : store := (delete_library_object (y_store sample_restored) 7 "lib_1" "res_2" 20).2.

(** The bytes of an object in the trash can be reclaimed before it is purged.  A note is
    deleted, restored and deleted again; the collector is run with a cutoff of "now", as
    [--older-than-seconds 0] does.  The record of the first deletion is older than the restored contents, so
    the collector takes it for a superseded version and deletes the bytes, which are still the note's: the
    note is unpurged and within its thirty days, but restoring it answers 409. *)
Theorem restorable_bytes_reclaimed :
  match collect_deleted_resource_gc sample_again 30 false "gc" 30 (fun _ => true) with
  | Ok (report, st) =>
      gr_cleaned report = ["res_1"] /\
      (fun r => trash_is_restorable (lb_deleted_at r) (lb_purged_at r) 30) <$> library st !! "lib_1" = Some true /\
      files st !! md_key sample_md = None /\
      (restore_library_object (PL := ascii_platform) st 7 "lib_1" 31).1 = Ok (lerror 409 "library_object_not_restorable")
  | Err _ => False
  end.
Proof. vm_compute. split_and!; reflexivity. Qed.
