(* ===== verification/ArtifactsProps.v ===== *)
(** * Correctness of artifact publication

    Requests to publish run interleaved, file operation by file operation, with storage that fails half way, requests
    that die, and everything else the service does.  A publication is opened once, never changes its contents and is
    published at most once.  As long as no two requests store the same artifact at the same time, a published
    artifact has its bytes and what a request answers is true; when two do, one of them can delete the bytes the
    other has published. *)

From stdpp Require Import base tactics list gmap numbers sorting relations.
From S2P Require Import Prelude PyStr Table Utf8 Sha256 Platform Schema Access AgentIdentity Delegation Lifecycle PyValue Json Contract Snapshot WorkspaceCommit Assets Hosted Inputs Messages HostedInv HostedProps Artifacts.

(** ** Streams *)

Lemma stream_read_spec n s chunk s' : 0 < n -> stream_read n s = (chunk, s') -> concat s = chunk ++ concat s' /\ zlen chunk <= n.
Proof.
  intros Hn. destruct s as [|p s]; cbn [stream_read]; [intros [= <- <-]; split; [done|rewrite zlen_nil; lia]|]. destruct (Z.leb_spec (zlen p) n); intros [= <- <-]; cbn; [done|].
  rewrite app_assoc, take_drop. split; [done|]. unfold zlen in *. rewrite length_take. lia.
Qed.

Lemma hashing_read_spec r chunk r' : 0 <= hr_remaining r -> hashing_read (64 * 1024) r = Ok (chunk, r') ->
  hr_data r' = hr_data r ++ chunk /\ hr_remaining r' = hr_remaining r - zlen chunk /\ 0 <= hr_remaining r' /\ (chunk = [] -> r' = r).
Proof.
  intros Hr H. unfold hashing_read in H. destruct (Z.eqb_spec (hr_remaining r) 0) as [E|E].
  { injection H as <- <-. rewrite app_nil_r, zlen_nil. split_and!; try done; lia. }
  destruct (stream_read _ _) as [c source] eqn:Es. apply stream_read_spec in Es as [_ Hc]; [|lia].
  apply bind_Ok in H as (u & Hu & H). injection H as <- <-. cbn. apply require_Ok in Hu. split_and!; try done; [lia|]. intros ->. done.
Qed.

(** ** Stored bytes *)

(** the bytes of a file as its description says *)
Definition holds (st : store) (key : pystr) (size : Z) (digest : pystr) : Prop :=
  key <> "" /\ exists content at_, files st !! key = Some (content, at_) /\ zlen content = size /\ sha256_tag content = digest
    /\ zlen content <= MAX_ARTIFACT_BYTES.

Lemma verify_stored_object_Ok st key size digest u : verify_stored_object st key size digest = Ok u <-> holds st key size digest.
Proof.
  unfold verify_stored_object, holds. split.
  - destruct (is_empty key) eqn:E; [done|]. destruct (files st !! key) as [[content at_]|]; [|done].
    intros H%require_Ok. bool_inv. split; [by apply is_empty_false|]. naive_solver.
  - intros (Hk & content & at_ & Hf & Hs & Hd & Hm). apply is_empty_false in Hk. rewrite Hk, Hf.
    apply require_Ok. rewrite Hs, Z.eqb_refl, bool_decide_eq_true_2 by done.
    rewrite (proj2 (Z.ltb_ge _ _)) by lia. done.
Qed.
Lemma holds_files st st' key size digest : files st' !! key = files st !! key -> holds st key size digest -> holds st' key size digest.
Proof. unfold holds. by intros ->. Qed.
Lemma holds_exists st key size digest : holds st key size digest -> is_Some (files st !! key).
Proof. intros (_ & ? & ? & -> & _). eauto. Qed.

Section storing.
Context {PL : Platform} (available_name : files_t -> pystr -> pystr).
(** [default_storage.save] never overwrites a file *)
Hypothesis free_names : forall fs key, fs !! available_name fs key = None.

(** Nothing that was stored is changed by a step: only the named key may change. *)
Definition keeps_files (st st' : store) : Prop := forall key, is_Some (files st !! key) -> files st' !! key = files st !! key.

Lemma delete_keeps st st' key : files st !! key = None -> keeps_files st st' -> keeps_files st (delete_stored_object key st').
Proof.
  intros Hn Hk key' Hs. unfold delete_stored_object. destruct (is_empty key); [by apply Hk|]. cbn.
  rewrite lookup_delete_ne; [by apply Hk|]. intros ->. rewrite Hn in Hs. by destruct Hs.
Qed.
Lemma insert_keeps st key v : files st !! key = None -> keeps_files st (set_files <[key := v]> st).
Proof. intros Hn key' Hs. cbn. rewrite lookup_insert_ne; [done|]. intros ->. rewrite Hn in Hs. by destruct Hs. Qed.

Lemma ingest_keeps st id r user library_id link_id now outcome st' :
  _ingest_artifact_library_copy available_name st id r user library_id link_id now = (outcome, st') ->
  keeps_files st st' /\ artifacts st' = artifacts st.
Proof.
  unfold _ingest_artifact_library_copy. destruct (library_copied _ _ _); [by intros [= <- <-]|].
  destruct (if is_empty _ then _ else _) as [[content at_]|]; [|by intros [= <- <-]].
  set (key := _ +:+ int_str user +:+ _). unfold storage_save. set (stored := available_name _ _).
  assert (keeps_files st (set_files <[stored := (content, now)]> st)) as Hk by (apply insert_keeps, free_names).
  assert (forall k s, artifacts (delete_stored_object k s) = artifacts s) as Ha by (intros; unfold delete_stored_object; by destruct (is_empty _)).
  case_bool_decide as Hkey; cbn [negb].
  2:{ intros [= <- <-]. rewrite Ha. split; [apply delete_keeps; [apply free_names|done]|done]. }
  destruct (_ ≫= _) as [st3|e] eqn:E; intros [= <- <-].
  - apply bind_Ok in E as (st2 & H2 & E). apply bind_Ok in E as (links & Hl & E). injection E as <-.
    unfold create_library_object, save_library_object in H2. walk H2. done.
  - rewrite Ha. split; [apply delete_keeps; [rewrite <- Hkey; apply free_names|done]|done].
Qed.
End storing.

(** ** Interleaved publications *)

(** a request with the artifact its publication is about *)
Abbreviation request := (pub_metadata * (pystr * artifact_row))%type.
(** The service and the requests in flight: prepared ones, those that store their bytes, and those whose bytes are stored. *)
Record system := System {
  sy_state : astate;
  sy_prepared : list request;
  sy_storing : gmap nat (request * storing_phase);
  sy_stored : list request }.

(** [r'] is a later row of the artifact [r]: what describes its bytes never changes, and it may be deleted. *)
Record later_artifact (r r' : artifact_row) : Prop := LaterArtifact {
  la_same : ar_run r' = ar_run r /\ ar_storage_key r' = ar_storage_key r /\ ar_size r' = ar_size r /\ ar_sha256 r' = ar_sha256 r;
  la_live : artifact_live (ar_status r') = true -> artifact_live (ar_status r) = true;
  la_published : ar_status r = APublished -> artifact_live (ar_status r') = true -> ar_status r' = APublished }.

(** What everything else may do: delete artifacts and their files, but leave the files of live artifacts and the
    publications alone. *)
Record undisturbed (a a' : astate) : Prop := Undisturbed {
  un_publications : as_publications a' = as_publications a;
  un_artifacts : forall id r, artifacts (as_store a) !! id = Some r -> exists r', artifacts (as_store a') !! id = Some r' /\ later_artifact r r'
    /\ (ar_status r' = ar_status r \/ artifact_live (ar_status r') = false);
  un_new : forall id r', artifacts (as_store a') !! id = Some r' -> is_Some (artifacts (as_store a) !! id);
  un_files : forall id r', artifacts (as_store a') !! id = Some r' -> artifact_live (ar_status r') = true ->
    files (as_store a') !! ar_storage_key r' = files (as_store a) !! ar_storage_key r' }.

Definition request_key (t : request) : pystr := ar_storage_key t.2.2.
(** the file a request writes to *)
Definition writes_to (ph : storing_phase) : option pystr := match ph with Saving stored _ _ _ | Misplaced stored => Some stored | _ => None end.
(** no artifact has the name *)
Definition foreign_name (a : astate) (name : pystr) : Prop := forall id r, artifacts (as_store a) !! id = Some r -> ar_storage_key r <> name.
(** after a step that leaves the store [st], files that were deleted have lost their name *)
Definition unlinks (st : store) (ph : storing_phase) : storing_phase :=
  cut match ph with Saving stored _ _ _ => bool_decide (files st !! stored = None) | _ => false end ph.
Definition relink (st : store) (storing : gmap nat (request * storing_phase)) : gmap nat (request * storing_phase) :=
  (fun tp => (tp.1, unlinks st tp.2)) <$> storing.

Section system.
Context {PL : Platform} (available_name : files_t -> pystr -> pystr) (guess_type : pystr -> option pystr).

(** a new artifact has a storage key nothing else uses: its identifier is random *)
Definition fresh_key (a : astate) (storing : gmap nat (request * storing_phase)) (id : pystr) (r : artifact_row) : Prop :=
  artifacts (as_store a) !! id = None ->
  foreign_name a (ar_storage_key r) /\ forall i t ph, storing !! i = Some (t, ph) -> writes_to ph <> Some (ar_storage_key r).
Definition valid_file (file : pub_file) : Prop := 0 <= pf_size file <= MAX_ARTIFACT_BYTES.

Inductive publication_step : system -> system -> Prop :=
| ps_prepare a prepared storing stored m new_id now p id r a' :
    valid_file (pm_file m) -> _prepare_publication guess_type a m new_id now = Ok (p, (id, r), a') -> fresh_key a storing id r ->
    publication_step (System a prepared storing stored) (System a' ((m, (id, r)) :: prepared) storing stored)
| ps_begin a prepared storing stored i t source : t ∈ prepared -> storing !! i = None ->
    publication_step (System a prepared storing stored) (System a prepared (<[i := (t, Checking source)]> storing) stored)
(** one file operation; a name other than the wanted one has a random suffix *)
| ps_store a prepared storing stored i t ph fault now ph' st' :
    storing !! i = Some (t, ph) -> storing_step available_name (request_key t) (pm_file t.1) fault now ph (as_store a) = (ph', st') ->
    (forall name, writes_to ph = None -> writes_to ph' = Some name -> name = request_key t \/ foreign_name a name) ->
    publication_step (System a prepared storing stored) (System (set_as_store (fun _ => st') a) prepared (relink st' (<[i := (t, ph')]> storing)) stored)
| ps_end a prepared storing stored i t : storing !! i = Some (t, Stored) ->
    publication_step (System a prepared storing stored) (System a prepared (delete i storing) (t :: stored))
(** a request answers its error, or dies *)
| ps_abort a prepared storing stored i : publication_step (System a prepared storing stored) (System a prepared (delete i storing) stored)
| ps_publish a prepared storing stored m id r f library_id link_id now outcome a' :
    (m, (id, r)) ∈ stored -> publish_transaction available_name a m f library_id link_id now = (outcome, a') ->
    publication_step (System a prepared storing stored) (System a' prepared (relink (as_store a') storing) stored)
| ps_others a prepared storing stored a' : undisturbed a a' ->
    publication_step (System a prepared storing stored) (System a' prepared (relink (as_store a') storing) stored).

(** no two requests store the same artifact at the same time *)
Definition exclusive (s : system) : Prop :=
  forall i j t ph t' ph', sy_storing s !! i = Some (t, ph) -> sy_storing s !! j = Some (t', ph') -> t.2.1 = t'.2.1 -> i = j.
Definition exclusive_step (s s' : system) : Prop := exclusive s' /\ publication_step s s'.

(** ** The invariant *)

(** the artifact of a request in flight, as it is now *)
Definition tracks (a : astate) (t : request) (r' : artifact_row) : Prop :=
  artifacts (as_store a) !! t.2.1 = Some r' /\ later_artifact t.2.2 r'.
(** somebody counts on the bytes of the artifact *)
Definition relied (a : astate) (stored : list request) (id : pystr) : Prop :=
  (exists r, artifacts (as_store a) !! id = Some r /\ ar_status r = APublished) \/ exists t, t ∈ stored /\ t.2.1 = id.
Definition live_now (a : astate) (id : pystr) : Prop := exists r, artifacts (as_store a) !! id = Some r /\ artifact_live (ar_status r) = true.

Definition phase_ok (a : astate) (stored : list request) (t : request) (ph : storing_phase) : Prop :=
  match ph with
  | Saving name linked reader written =>
      hr_data reader = written /\ 0 <= hr_remaining reader /\ zlen written + hr_remaining reader = pf_size (pm_file t.1) /\
      (name <> request_key t -> foreign_name a name) /\
      (name = request_key t -> live_now a t.2.1 -> linked = true /\ ~ relied a stored t.2.1 /\ exists at_, files (as_store a) !! name = Some (written, at_))
  | Misplaced name => foreign_name a name
  | Deleting _ => live_now a t.2.1 -> ~ relied a stored t.2.1
  | Stored => live_now a t.2.1 -> holds (as_store a) (request_key t) (pf_size (pm_file t.1)) (pf_sha256 (pm_file t.1))
  | _ => True
  end.

Record publication_inv (s : system) : Prop := PublicationInv {
  pv_keys : forall id1 r1 id2 r2, artifacts (as_store (sy_state s)) !! id1 = Some r1 -> artifacts (as_store (sy_state s)) !! id2 = Some r2 ->
    ar_storage_key r1 = ar_storage_key r2 -> id1 = id2;
  pv_nonempty : forall id r, artifacts (as_store (sy_state s)) !! id = Some r -> ar_storage_key r <> "";
  pv_published : forall id r, artifacts (as_store (sy_state s)) !! id = Some r -> ar_status r = APublished ->
    holds (as_store (sy_state s)) (ar_storage_key r) (ar_size r) (ar_sha256 r);
  pv_publications : forall k p, as_publications (sy_state s) !! k = Some p -> exists id r, pb_artifact p = Some id
    /\ artifacts (as_store (sy_state s)) !! id = Some r /\ ar_size r = pb_size p /\ ar_sha256 r = pb_sha256 p
    /\ (pb_published p = true -> artifact_live (ar_status r) = true -> ar_status r = APublished);
  pv_prepared : forall t, t ∈ sy_prepared s -> valid_file (pm_file t.1)
    /\ ar_size t.2.2 = pf_size (pm_file t.1) /\ ar_sha256 t.2.2 = pf_sha256 (pm_file t.1)
    /\ (exists r', tracks (sy_state s) t r')
    /\ exists p, as_publications (sy_state s) !! pi_publication (pm_identity t.1) = Some p /\ pb_artifact p = Some t.2.1;
  pv_stored : forall t, t ∈ sy_stored s -> t ∈ sy_prepared s
    /\ forall r', tracks (sy_state s) t r' -> artifact_live (ar_status r') = true ->
         holds (as_store (sy_state s)) (ar_storage_key r') (ar_size r') (ar_sha256 r');
  pv_storing : forall i t ph, sy_storing s !! i = Some (t, ph) -> t ∈ sy_prepared s /\ phase_ok (sy_state s) (sy_stored s) t ph }.

Lemma later_refl r : later_artifact r r.
Proof. by split. Qed.
Lemma later_trans r1 r2 r3 : later_artifact r1 r2 -> later_artifact r2 r3 -> later_artifact r1 r3.
Proof. intros [(?&?&?&?) L1 P1] [(?&?&?&?) L2 P2]. split; [split_and!; congruence|auto|]. intros E L. apply P2; auto. Qed.

(** What somebody counts on is there. *)
Lemma relied_holds s id r : publication_inv s -> relied (sy_state s) (sy_stored s) id -> artifacts (as_store (sy_state s)) !! id = Some r ->
  artifact_live (ar_status r) = true -> holds (as_store (sy_state s)) (ar_storage_key r) (ar_size r) (ar_sha256 r).
Proof.
  intros Hi [(r0 & Hr0 & Hp)|(t & Ht & <-)] Hr Hl; [apply (pv_published _ Hi id); [done|congruence]|].
  destruct (pv_stored _ Hi _ Ht) as [Hin Hh]. destruct (pv_prepared _ Hi _ Hin) as (_ & _ & _ & (r' & Hr' & Hlt) & _).
  assert (r' = r) as -> by congruence. by apply Hh.
Qed.

(** Steps that create no rows keep the invariant when rows only move forward, the bytes somebody counts on stay, and
    what becomes published was counted on and has its bytes. *)
Record advances (kept : pystr -> Prop) (a a' : astate) : Prop := Advances {
  ad_artifacts : forall id r', artifacts (as_store a') !! id = Some r' -> exists r, artifacts (as_store a) !! id = Some r /\ later_artifact r r'
    /\ (kept id -> artifact_live (ar_status r') = true -> holds (as_store a) (ar_storage_key r') (ar_size r') (ar_sha256 r') ->
        holds (as_store a') (ar_storage_key r') (ar_size r') (ar_sha256 r'))
    /\ (ar_status r' = APublished -> ar_status r <> APublished -> kept id /\ holds (as_store a') (ar_storage_key r') (ar_size r') (ar_sha256 r'));
  ad_rows : forall id, is_Some (artifacts (as_store a) !! id) -> is_Some (artifacts (as_store a') !! id);
  ad_publications : forall k p', as_publications a' !! k = Some p' -> exists p, as_publications a !! k = Some p
    /\ pb_artifact p' = pb_artifact p /\ pb_size p' = pb_size p /\ pb_sha256 p' = pb_sha256 p
    /\ (pb_published p' = true -> pb_published p = true \/ forall id r', pb_artifact p' = Some id -> artifacts (as_store a') !! id = Some r' -> ar_status r' = APublished);
  ad_kept : forall k, is_Some (as_publications a !! k) -> is_Some (as_publications a' !! k) }.

Lemma inv_advances a a' prepared storing storing' stored : publication_inv (System a prepared storing stored) -> advances (relied a stored) a a' ->
  (forall i t ph, storing' !! i = Some (t, ph) -> t ∈ prepared /\ phase_ok a' stored t ph) ->
  publication_inv (System a' prepared storing' stored).
Proof.
  intros [Hk Hn Hp Hpb Hpr Hst _] [Ha Hr Hb Hkept] Hph. cbn in *.
  assert (forall t r, tracks a t r -> exists r', tracks a' t r' /\ later_artifact r r') as Htr.
  { intros t r [Ht Hl]. destruct (Hr t.2.1) as [r' Hr']; [eauto|]. destruct (Ha _ _ Hr') as (r0 & Hr0 & Hl' & _).
    assert (r0 = r) as -> by congruence. exists r'. split; [|done]. split; [done|]. by eapply later_trans. }
  split; cbn; [| | | | | |exact Hph].
  - intros id1 r1 id2 r2 H1 H2 E. destruct (Ha _ _ H1) as (r1' & H1' & [(_&E1&_) _ _] & _), (Ha _ _ H2) as (r2' & H2' & [(_&E2&_) _ _] & _).
    eapply Hk; [exact H1'|exact H2'|congruence].
  - intros id r H. destruct (Ha _ _ H) as (r0 & H0 & [(_&E&_) _ _] & _). rewrite E. eauto.
  - intros id r H Hs. destruct (Ha _ _ H) as (r0 & H0 & [(E1&E2&E3&E4) Hlive _] & Hh & Hnew).
    destruct (decide (ar_status r0 = APublished)) as [E|E]; [|by apply Hnew]. apply Hh; [left; eauto|by rewrite Hs|].
    rewrite E2, E3, E4. by apply Hp with id.
  - intros k p' H. destruct (Hb _ _ H) as (p & H0 & Ea & Es & Ed & Hpub). destruct (Hpb _ _ H0) as (id & r & Hid & Hr0 & Hs & Hd & Hl).
    destruct (Hr id) as [r' Hr']; [eauto|]. exists id, r'. destruct (Ha _ _ Hr') as (r1 & Hr1 & [(E1&E2&E3&E4) Hlive Hpp] & _).
    assert (r1 = r) as -> by congruence. split_and!; [congruence|done|congruence|congruence|].
    intros Hpb' Hl'. destruct (Hpub Hpb') as [Hold|Hnew]; [|apply (Hnew id); [congruence|done]]. apply Hpp; auto.
  - intros t Ht. destruct (Hpr t Ht) as (Hv & Hs & Hd & (r & Htr') & p & Hpt & Hid). split_and!; [done|done|done| |].
    + destruct (Htr _ _ Htr') as (r' & ? & _). eauto.
    + destruct (Hkept _ (mk_is_Some _ _ Hpt)) as [p' Hp']. destruct (Hb _ _ Hp') as (p0 & Hp0 & Ea & _). exists p'. split; [done|congruence].
  - intros t Ht. destruct (Hst t Ht) as [? Hh]. split; [done|]. intros r' [Hr' Hl] Hlive.
    destruct (Hpr t) as (_ & _ & _ & (r & Htr') & _); [done|]. destruct (Htr _ _ Htr') as (r'' & [Hr'' _] & Hlr).
    assert (r'' = r') as -> by congruence. destruct (Ha _ _ Hr') as (r0 & Hr0 & [(E1&E2&E3&E4) Hlive0 _] & Hhh & _).
    assert (r0 = r) as -> by (destruct Htr'; congruence). apply Hhh; [right; eauto|done|]. rewrite E2, E3, E4. apply Hh; auto.
Qed.

(** A phase stays right when the file of the artifact stays, as long as the artifact is live. *)
Lemma phase_frame a a' stored stored' t ph :
  (forall id r', artifacts (as_store a') !! id = Some r' -> exists r, artifacts (as_store a) !! id = Some r /\ later_artifact r r') ->
  (live_now a' t.2.1 -> is_Some (files (as_store a) !! request_key t) -> files (as_store a') !! request_key t = files (as_store a) !! request_key t) ->
  (live_now a' t.2.1 -> relied a' stored' t.2.1 -> relied a stored t.2.1) ->
  phase_ok a stored t ph -> phase_ok a' stored' t (unlinks (as_store a') ph).
Proof.
  intros Hrows Hf Hr.
  assert (live_now a' t.2.1 -> live_now a t.2.1) as Hl.
  { intros (r' & Hr' & Hl'). destruct (Hrows _ _ Hr') as (r & ? & [_ Hll _]). exists r. auto. }
  assert (forall name, foreign_name a name -> foreign_name a' name) as Hfn.
  { intros name H id r' Hr'. destruct (Hrows _ _ Hr') as (r & Hr0 & [(_ & -> & _) _ _]). eauto. }
  destruct ph as [| | |name linked reader written|name| | |e| |]; cbn; try done.
  - intros (H1 & H2 & H3 & H4 & H5). split_and!; [done|done|done|auto|]. intros -> Hlive. destruct (H5 eq_refl (Hl Hlive)) as (-> & Hn & at_ & Hfile).
    rewrite Hf by eauto. rewrite Hfile. cbn. split_and!; [done|by auto|eauto].
  - auto.
  - auto.
  - intros H Hlive. eapply holds_files; [|by apply H, Hl]. apply Hf; [done|]. eapply holds_exists. by apply H, Hl.
Qed.

Lemma advances_files kept a st' : artifacts st' = artifacts (as_store a) ->
  (forall id r, artifacts (as_store a) !! id = Some r -> kept id -> artifact_live (ar_status r) = true ->
     holds (as_store a) (ar_storage_key r) (ar_size r) (ar_sha256 r) -> holds st' (ar_storage_key r) (ar_size r) (ar_sha256 r)) ->
  advances kept a (set_as_store (fun _ => st') a).
Proof.
  intros Ha Hh. split; cbn; unfold as_store in *; cbn; rewrite ?Ha; eauto.
  - intros id r' Hr. exists r'. split_and!; [done|apply later_refl|eauto|done].
  - intros k p' Hp. exists p'. split_and!; auto.
Qed.

Lemma keeps_holds st st' key size digest : keeps_files st st' -> holds st key size digest -> holds st' key size digest.
Proof. intros Hk Hh. eapply holds_files; [|done]. apply Hk. by eapply holds_exists. Qed.

Hypothesis free_names : forall fs key, fs !! available_name fs key = None.

Lemma undisturbed_advances kept a a' : undisturbed a a' -> advances kept a a'.
Proof.
  intros [Hp Ha Hn Hf]. split.
  - intros id r' Hr'. destruct (Hn _ _ Hr') as [r Hr]. destruct (Ha _ _ Hr) as (r0 & Hr0 & Hl & Hs).
    assert (r0 = r') as -> by congruence. exists r. split_and!; [done|done| |].
    + intros _ Hlive. apply holds_files. by eapply Hf.
    + intros Hpub Hne. destruct Hs as [Hs|Hs]; [congruence|]. by rewrite Hpub in Hs.
  - intros id [r Hr]. destruct (Ha _ _ Hr) as (r' & ? & _). eauto.
  - rewrite Hp. intros k p' Hk. exists p'. split_and!; auto.
  - by rewrite Hp.
Qed.

(** *** Opening a publication *)

(** What [_prepare_publication] found or created. *)
Record prepared_as (a : astate) (m : pub_metadata) (p : publication_row) (id : pystr) (r : artifact_row) (a' : astate) : Prop := PreparedAs {
  pa_files : files (as_store a') = files (as_store a);
  pa_artifact : artifacts (as_store a') !! id = Some r;
  pa_rows : artifacts (as_store a') = artifacts (as_store a)
    \/ artifacts (as_store a) !! id = None /\ artifacts (as_store a') = <[id := r]> (artifacts (as_store a)) /\ ar_status r = AStaging /\ ar_storage_key r <> "";
  pa_publication : as_publications a' !! pi_publication (pm_identity m) = Some p;
  pa_publications : as_publications a' = as_publications a
    \/ as_publications a !! pi_publication (pm_identity m) = None
       /\ as_publications a' = <[pi_publication (pm_identity m) := p]> (as_publications a)
       /\ (pb_published p = true -> ar_status r = APublished) /\ ar_size r = pf_size (pm_file m) /\ ar_sha256 r = pf_sha256 (pm_file m);
  pa_id : pb_artifact p = Some id;
  pa_contents : pb_run p = pi_run (pm_identity m) /\ pb_digest p = pi_digest (pm_identity m) /\ pb_call p = pi_call (pm_identity m)
    /\ pb_filename p = pf_name (pm_file m) /\ pb_size p = pf_size (pm_file m) /\ pb_sha256 p = pf_sha256 (pm_file m) }.

Lemma idempotent_contents p run_id i file : _require_idempotent_publication p run_id i (Some file) = Ok tt ->
  pb_run p = run_id /\ pb_digest p = pi_digest i /\ pb_call p = pi_call i
  /\ pb_filename p = pf_name file /\ pb_size p = pf_size file /\ pb_sha256 p = pf_sha256 file.
Proof. unfold _require_idempotent_publication. intros H%require_Ok. bool_inv. done. Qed.

Lemma publication_artifact_ok a f m new_id id r a' : publication_artifact guess_type a f m new_id = Ok (id, r, a') ->
  files (as_store a') = files (as_store a) /\ as_publications a' = as_publications a /\ artifacts (as_store a') !! id = Some r
  /\ ar_size r = pf_size (pm_file m) /\ ar_sha256 r = pf_sha256 (pm_file m)
  /\ (artifacts (as_store a') = artifacts (as_store a)
      \/ artifacts (as_store a) !! id = None /\ artifacts (as_store a') = <[id := r]> (artifacts (as_store a)) /\ ar_status r = AStaging /\ ar_storage_key r <> "").
Proof.
  unfold publication_artifact. destruct (named_artifact _ _ _) as [[id0 r0]|] eqn:E; intros H.
  - walk H. unfold named_artifact, qs_first in E. apply head_Some_elem_of, elem_of_qs_list in E as [E _].
    match goal with Hb : _require_artifact_bytes _ _ _ = Ok _ |- _ => apply require_Ok in Hb end. bool_inv. split_and!; auto.
  - walk H. match goal with Hc : create_artifact _ _ _ _ = Ok _ |- _ => unfold create_artifact, save_artifact in Hc; walk Hc end.
    repeat match goal with Hq : require _ _ = Ok _ |- _ => apply require_Ok in Hq; bool_inv end.
    match goal with Hq : plift _ = Ok _ |- _ => unfold plift, catch in Hq; walk Hq end.
    match goal with Hq : (_ ;; _) = Ok _ |- _ => walk Hq end. cbn.
    split_and!; [done|done|apply lookup_insert_eq|done|done|]. right. split_and!; done.
Qed.

Lemma prepare_publication_ok a m new_id now p id r a' :
  _prepare_publication guess_type a m new_id now = Ok (p, (id, r), a') -> prepared_as a m p id r a'.
Proof.
  intros H. unfold _prepare_publication in H. walk H.
  - match goal with Hi : _require_idempotent_publication _ _ _ _ = Ok ?u |- _ => destruct u; pose proof (idempotent_contents _ _ _ _ Hi) end.
    repeat match goal with Hq : from_option_res _ _ = Ok _ |- _ => apply from_option_res_Ok in Hq end.
    split; auto.
  - match goal with Hx : publication_artifact _ _ _ _ _ = Ok _ |- _ => apply publication_artifact_ok in Hx as (Hf & Hp & Hr & Hs & Hd & Hrows) end.
    match goal with Hc : create_publication _ _ _ = Ok _ |- _ => unfold create_publication in Hc; walk Hc end.
    repeat match goal with Hq : require _ _ = Ok _ |- _ => apply require_Ok in Hq; bool_inv end. rewrite Hp in *.
    split; cbn; auto.
    + apply lookup_insert_eq.
    + right. split_and!; [done|by rewrite <- Hp|by intros ?%bool_decide_eq_true|done|done].
    + by split_and!.
Qed.

Lemma prepare_inv a prepared storing stored m p id r a' :
  publication_inv (System a prepared storing stored) -> valid_file (pm_file m) -> fresh_key a storing id r -> prepared_as a m p id r a' ->
  publication_inv (System a' ((m, (id, r)) :: prepared) storing stored).
Proof.
  intros [Hk Hn Hp Hpb Hpr Hst Hsg] Hv Hfresh [Hf Hr Hrows Hpm Hpubs Hid (Hc1 & Hc2 & Hc3 & Hc4 & Hc5 & Hc6)]. cbn in *.
  assert (forall key size digest, holds (as_store a) key size digest <-> holds (as_store a') key size digest) as Hh
    by (intros; unfold holds; by rewrite Hf).
  assert (forall id0 r0, artifacts (as_store a) !! id0 = Some r0 -> artifacts (as_store a') !! id0 = Some r0) as Hold.
  { intros id0 r0 H0. destruct Hrows as [->|(Hnone & -> & _)]; [done|]. rewrite lookup_insert_ne; [done|]. intros <-. congruence. }
  assert (forall id0 r0, artifacts (as_store a') !! id0 = Some r0 -> artifacts (as_store a) !! id0 = Some r0
    \/ id0 = id /\ r0 = r /\ artifacts (as_store a) !! id = None /\ ar_status r = AStaging /\ ar_storage_key r <> "") as Hnew.
  { intros id0 r0. destruct Hrows as [->|(Hnone & -> & Hs & Hne)]; [auto|]. destruct (decide (id0 = id)) as [->|Hi].
    - rewrite lookup_insert_eq. intros [= <-]. right. by split_and!.
    - rewrite lookup_insert_ne by done. auto. }
  assert (ar_size r = pf_size (pm_file m) /\ ar_sha256 r = pf_sha256 (pm_file m)) as [Hs Hd].
  { destruct Hpubs as [E|(_ & _ & _ & ? & ?)]; [|done]. rewrite E in Hpm.
    destruct (Hpb _ _ Hpm) as (id0 & r0 & Hid0 & Hr0 & ? & ? & _). assert (id0 = id) as -> by congruence.
    assert (r0 = r) as -> by (specialize (Hold _ _ Hr0); congruence). split; congruence. }
  split; cbn.
  - intros id1 r1 id2 r2 H1 H2 E.
    destruct (Hnew _ _ H1) as [H1'|(-> & -> & Hnone & _)], (Hnew _ _ H2) as [H2'|(-> & -> & Hnone' & _)]; [by eapply Hk| | |done].
    + exfalso. by eapply (proj1 (Hfresh Hnone')).
    + exfalso. symmetry in E. by eapply (proj1 (Hfresh Hnone)).
  - intros id0 r0 H0. destruct (Hnew _ _ H0) as [H0'|(-> & -> & _ & _ & ?)]; eauto.
  - intros id0 r0 H0 Hpub. apply Hh. destruct (Hnew _ _ H0) as [H0'|(-> & -> & _ & E & _)]; [by eapply Hp|congruence].
  - intros k q Hq.
    assert (as_publications a !! k = Some q \/ k = pi_publication (pm_identity m) /\ q = p /\ (pb_published p = true -> ar_status r = APublished)) as [Ho|(-> & -> & Hpub)].
    { destruct Hpubs as [E|(Hnone & E & Hpub & _)]; rewrite E in Hq; [auto|]. apply lookup_insert_Some in Hq as [[<- <-]|[_ ?]]; auto. }
    + destruct (Hpb _ _ Ho) as (id0 & r0 & ? & Hr0 & ? & ? & ?). exists id0, r0. split_and!; auto.
    + exists id, r. split_and!; auto; congruence.
  - intros t [->|Ht]%elem_of_cons.
    + cbn. split_and!; [done|done|done| |eauto]. exists r. split; [done|apply later_refl].
    + destruct (Hpr t Ht) as (? & ? & ? & (r0 & Hr0 & Hl) & q & Hq & ?). split_and!; [done|done|done| |].
      * exists r0. split; [by apply Hold|done].
      * exists q. split; [|done]. destruct Hpubs as [->|(Hnone & -> & _)]; [done|]. rewrite lookup_insert_ne; [done|]. congruence.
  - intros t Ht. destruct (Hst t Ht) as [Hin Hhold]. split; [by right|]. intros r' [Hr' Hl] Hlive. apply Hh, Hhold; [|done].
    split; [|done]. destruct (Hpr t Hin) as (_ & _ & _ & (r0 & Hr0 & _) & _). specialize (Hold _ _ Hr0). congruence.
  - intros i t ph Hst'. destruct (Hsg i t ph Hst') as [Hin Hok]. split; [by right|].
    destruct (Hpr t Hin) as (_ & _ & _ & (r0 & Hr0 & _) & _).
    assert (live_now a' t.2.1 -> live_now a t.2.1) as Hl.
    { intros (r' & Hr' & Hl'). specialize (Hold _ _ Hr0). exists r0. split; [done|]. congruence. }
    assert (relied a' stored t.2.1 -> relied a stored t.2.1) as Hrel.
    { intros [(r' & Hr' & Hl')|?]; [left|by right]. specialize (Hold _ _ Hr0). exists r0. split; [done|]. congruence. }
    assert (forall name, writes_to ph = Some name -> foreign_name a name -> foreign_name a' name) as Hfn.
    { intros name Hw H id0 r' Hr'. destruct (Hnew _ _ Hr') as [?|(-> & -> & Hnone & _)]; [eauto|]. intros <-. by eapply (proj2 (Hfresh Hnone)). }
    destruct ph as [| | |name linked reader written|name| | |e| |]; cbn in *; try done.
    + destruct Hok as (H1 & H2 & H3 & H4 & H5). rewrite Hf. split_and!; [done|done|done|auto|]. intros -> Hlive.
      destruct (H5 eq_refl (Hl Hlive)) as (-> & Hnr & Hfile). split_and!; [done|by auto|done].
    + auto.
    + intros Hlv Hre. apply (Hok (Hl Hlv)). auto.
    + intros Hlive. apply Hh. auto.
Qed.

(** *** The publishing transaction *)

Lemma rollback_advances kept a a1 : keeps_files (as_store a) (as_store a1) -> advances kept a (as_rollback a a1).
Proof.
  intros Hk. apply (advances_files kept a (rollback (as_store a) (as_store a1))); [done|].
  intros id r _ _ _ Hh. eapply holds_files; [|exact Hh]. cbn. apply Hk. by eapply holds_exists.
Qed.

Lemma advances_refl kept a : advances kept a a.
Proof.
  split; eauto.
  - intros id r Hr. exists r. split_and!; [done|apply later_refl|done|done].
  - intros k p Hp. exists p. split_and!; auto.
Qed.

(** A publication becomes published together with its artifact. *)
Lemma publish_row_advances (kept : pystr -> Prop) a st' k p id r now :
  as_publications a !! k = Some p -> pb_artifact p = Some id -> artifacts (as_store a) !! id = Some r ->
  artifact_live (ar_status r) = true -> kept id -> keeps_files (as_store a) st' ->
  holds (as_store a) (ar_storage_key r) (ar_size r) (ar_sha256 r) ->
  forall r', later_artifact r r' -> ar_status r' = APublished -> artifacts st' = <[id := r']> (artifacts (as_store a)) ->
  advances kept a (set_as_publications <[k := set_pb_published now p]> (set_as_store (fun _ => st') a)).
Proof.
  intros Hp Hid Hr Hlive Hkept Hk Hh r' Hl Hpub Ha.
  assert (holds st' (ar_storage_key r') (ar_size r') (ar_sha256 r')) as Hh'.
  { destruct Hl as [(_ & -> & -> & ->) _ _]. by eapply keeps_holds. }
  split; cbn; unfold as_store in *; cbn.
  - intros id0 r0. rewrite Ha. intros [[<- <-]|[_ H0]]%lookup_insert_Some.
    + exists r. split_and!; auto.
    + exists r0. split_and!; [done|apply later_refl|intros _ _; by apply keeps_holds|done].
  - intros id0 Hs. rewrite Ha. destruct (decide (id0 = id)) as [->|?]; [rewrite lookup_insert_eq; eauto|by rewrite lookup_insert_ne].
  - intros k0 p0 [[<- <-]|[_ H0]]%lookup_insert_Some.
    + exists p. split_and!; try done. intros _. right. intros id0 r0 E. cbn in E. assert (id0 = id) as -> by congruence.
      rewrite Ha, lookup_insert_eq. by intros [= <-].
    + exists p0. split_and!; auto.
  - intros k0 Hs. destruct (decide (k0 = k)) as [->|?]; [rewrite lookup_insert_eq; eauto|by rewrite lookup_insert_ne].
Qed.

Lemma publish_transaction_advances a prepared storing stored m id r f library_id link_id now outcome a' :
  publication_inv (System a prepared storing stored) -> (m, (id, r)) ∈ stored ->
  publish_transaction available_name a m f library_id link_id now = (outcome, a') ->
  advances (relied a stored) a a' /\ keeps_files (as_store a) (as_store a').
Proof.
  intros [_ _ _ _ Hpr Hst _] Hin H. destruct (Hst _ Hin) as [Hin' Hhold]. destruct (Hpr _ Hin') as (_ & Hs & Hd & (r0 & Hr0 & Hl) & p & Hp & Hid).
  cbn in *. unfold publish_transaction in H. assert (keeps_files (as_store a) (as_store a)) as Hrefl by done.
  destruct (_ ≫= _) as [[[p1 id1] r1]|e] eqn:E in H; [|injection H as <- <-; auto using advances_refl].
  repeat (apply bind_Ok in E as (? & ? & E)). repeat match goal with Hq : from_option_res _ _ = Ok _ |- _ => apply from_option_res_Ok in Hq end.
  injection E as -> -> ->. simplify_eq.
  assert (relied a stored id1) as Hrel by (right; eauto).
  destruct (pb_published p1) eqn:Epub.
  { destruct (verify_stored_object _ _ _ _); injection H as <- <-; auto using advances_refl. }
  destruct (ar_status r1) eqn:Est; try (injection H as <- <-; by auto using advances_refl).
  - destruct (_ingest_artifact_library_copy _ _ _ _ _ _ _ _) as [out st] eqn:Ei. apply (ingest_keeps _ free_names) in Ei as [Hk Ha].
    destruct out as [u|e]; [|injection H as <- <-; split; [by apply rollback_advances|done]].
    destruct (save_artifact id1 (set_ar_published now r1) _) as [st2|e] eqn:Es; [|injection H as <- <-; split; [by apply rollback_advances|done]].
    unfold save_artifact in Es. walk Es. destruct (publication_ok _ _); injection H as <- <-; [|split; [by apply rollback_advances|done]]. split; [|done].
    eapply (publish_row_advances _ a (set_artifacts <[id1 := set_ar_published now r1]> st) _ _ id1 r1 now) with (r' := set_ar_published now r1); try done.
    + by rewrite Est.
    + apply Hhold; [done|by rewrite Est].
    + split; [by split_and!|by rewrite Est|by rewrite Est].
    + cbn. by rewrite Ha.
  - destruct (publication_ok _ _); injection H as <- <-; [|split; [by apply rollback_advances|done]]. split; [|done].
    replace (advances (relied a stored) a _) with (advances (relied a stored) a (set_as_publications <[pi_publication (pm_identity m) := set_pb_published now p1]> (set_as_store (fun _ => as_store a) a)))
      by (by destruct a as [[] ?]).
    eapply (publish_row_advances _ a (as_store a) _ _ id1 r1 now) with (r' := r1); try done;
      [by rewrite Est|apply Hhold; [done|by rewrite Est]|by rewrite insert_id].
Qed.

(** *** Storing *)

Section storing_step.
Context (a : astate) (prepared stored : list request) (storing : gmap nat (request * storing_phase)).
Context (Hi : publication_inv (System a prepared storing stored)).
Context (t : request) (Ht : t ∈ prepared) (fault : bool) (now : Z).
Let key := request_key t.
Let file := pm_file t.1.

(** the artifact the request is about *)
Lemma request_row : exists r, artifacts (as_store a) !! t.2.1 = Some r /\ ar_storage_key r = key /\ ar_size r = pf_size file /\ ar_sha256 r = pf_sha256 file /\ key <> "".
Proof.
  destruct (pv_prepared _ Hi _ Ht) as (_ & Hs & Hd & (r & Hr & [(_ & E1 & E2 & E3) _ _]) & _). cbn in *. exists r. unfold key, request_key, file.
  split_and!; [done|done|congruence|congruence|]. rewrite <- E1. by eapply (pv_nonempty _ Hi).
Qed.
(** when somebody counts on the live artifact its file is right *)
Lemma relied_file : live_now a t.2.1 -> relied a stored t.2.1 -> holds (as_store a) key (pf_size file) (pf_sha256 file).
Proof.
  intros (r0 & Hr0 & Hl) Hrel. destruct request_row as (r & Hr & <- & <- & <- & _). assert (r0 = r) as -> by congruence.
  exact (relied_holds _ _ _ Hi Hrel Hr Hl).
Qed.

(** The only files an operation changes are the one of its artifact, when nobody counts on it, and files of no artifact. *)
Lemma storing_files ph ph' st' : phase_ok a stored t ph ->
  storing_step available_name key file fault now ph (as_store a) = (ph', st') ->
  (forall name, writes_to ph = None -> writes_to ph' = Some name -> name = key \/ foreign_name a name) ->
  artifacts st' = artifacts (as_store a) /\
  forall k, files st' !! k = files (as_store a) !! k \/ foreign_name a k \/ k = key /\ (live_now a t.2.1 -> ~ relied a stored t.2.1).
Proof.
  intros Hok H Hap. destruct ph as [source| |source|name linked reader written|name|e|e|e| |e]; cbn [storing_step] in H; try (injection H as <- <-; by auto).
  - destruct fault; injection H as <- <-; [by auto|]. split; [done|]. intros k. cbn. destruct (decide (k = available_name (files (as_store a)) key)) as [->|Hne].
    2:{ left. by apply lookup_insert_ne. }
    right. destruct (Hap _ eq_refl eq_refl) as [E|Hf]; [right|by left]. split; [done|]. intros Hl Hr. destruct (relied_file Hl Hr) as (_ & c & at_ & Hf & _).
    rewrite <- E, free_names in Hf. done.
  - destruct fault; [injection H as <- <-; by auto|]. destruct (hashing_read _ _) as [[[|b chunk] reader']|e]; [| |injection H as <- <-; by auto].
    + destruct (bool_decide _); injection H as <- <-; by auto.
    + injection H as <- <-. destruct linked; [|by auto]. split; [done|]. intros k. cbn. destruct (decide (k = name)) as [->|Hne]; [|left; by apply lookup_insert_ne].
      right. destruct Hok as (_ & _ & _ & H4 & H5). destruct (decide (name = key)) as [E|E]; [right|left; by apply H4]. split; [done|].
      intros Hl. by apply (H5 E Hl).
  - injection H as <- <-. split; [unfold delete_stored_object; by case_match|]. intros k. cbn in Hok. destruct (decide (k = name)) as [->|Hne]; [by auto|left].
    unfold delete_stored_object. case_match; [done|]. by apply lookup_delete_ne.
  - injection H as <- <-. split; [unfold delete_stored_object; by case_match|]. intros k. destruct (decide (k = key)) as [->|Hne]; [by auto|left].
    unfold delete_stored_object. case_match; [done|]. by apply lookup_delete_ne.
Qed.

(** The operation leads to a phase that is right again. *)
Lemma storing_phase_ok ph ph' st' : phase_ok a stored t ph ->
  storing_step available_name key file fault now ph (as_store a) = (ph', st') ->
  (forall name, writes_to ph = None -> writes_to ph' = Some name -> name = key \/ foreign_name a name) ->
  phase_ok (set_as_store (fun _ => st') a) stored t (unlinks st' ph').
Proof.
  intros Hok H Hap. pose proof (storing_files _ _ _ Hok H Hap) as [Ha _].
  assert (live_now (set_as_store (fun _ => st') a) t.2.1 <-> live_now a t.2.1) as Hl by (unfold live_now, as_store in *; cbn in *; by rewrite Ha).
  assert (relied (set_as_store (fun _ => st') a) stored t.2.1 <-> relied a stored t.2.1) as Hr by (unfold relied, as_store in *; cbn in *; by rewrite Ha).
  assert (forall name, foreign_name (set_as_store (fun _ => st') a) name <-> foreign_name a name) as Hfn by (intros name; unfold foreign_name, as_store in *; cbn in *; by rewrite Ha).
  destruct request_row as (r & Hrow & Ek & Es & Ed & Hne). destruct (pv_prepared _ Hi _ Ht) as (Hv & _). cbn in Hv. unfold valid_file in Hv. fold file in Hv.
  destruct ph as [source| |source|name linked reader written|name|e|e|e| |e]; cbn [storing_step] in H.
  - injection H as <- <-. by case_match.
  - destruct (verify_stored_object _ _ _ _) as [u|e] eqn:E; injection H as <- <-; [|done]. intros _. by apply verify_stored_object_Ok in E.
  - destruct fault; injection H as <- <-; [done|]. cbn. rewrite lookup_insert_eq. cbn. split_and!; try done; [lia| |].
    + intros Hx. apply Hfn. by destruct (Hap _ eq_refl eq_refl).
    + intros E Hlive%(proj1 Hl). split_and!; [done| |exists now; by rewrite ?lookup_insert_eq]. rewrite Hr. intros Hre.
      destruct (relied_file Hlive Hre) as (_ & c & at_ & Hf & _). fold key in E. rewrite <- E, free_names in Hf. done.
  - destruct Hok as (H1 & H2 & H3 & H4 & H5). destruct fault; [injection H as <- <-; done|].
    destruct (hashing_read _ _) as [[chunk reader']|e] eqn:Er; [|injection H as <- <-; done]. apply hashing_read_spec in Er as (R1 & R2 & R3 & R4); [|done].
    destruct chunk as [|b chunk].
    + destruct (bool_decide_reflect (name = key)) as [E|E]; [|injection H as <- <-; cbn; by apply Hfn, H4].
      destruct (require_complete _ _) as [u|e] eqn:Eq; injection H as <- <-; [|done]. cbn. intros Hlive%(proj1 Hl). destruct (H5 E Hlive) as (_ & _ & at_ & Hfile).
      unfold require_complete in Eq. apply require_Ok in Eq. bool_inv. rewrite (R4 eq_refl) in *. unfold key, file in *.
      split; [done|]. exists written, at_. unfold as_store. cbn. fold (as_store a). rewrite <- E. split_and!; [done|lia|congruence|lia].
    + injection H as <- <-. cbn. rewrite H1 in R1. rewrite zlen_app. split_and!; [done|done|lia|intros Hx; by apply Hfn, H4|].
      intros E Hlive%(proj1 Hl). destruct (H5 E Hlive) as (-> & Hn & at_ & Hfile). cbn. rewrite lookup_insert_eq. cbn. rewrite Hr. split_and!; [done|done|]. exists now. by rewrite ?lookup_insert_eq.
  - injection H as <- <-. done.
  - injection H as <- <-. by case_match.
  - destruct (is_ok (verify_stored_object _ _ _ _)) eqn:E; injection H as <- <-; [done|]. cbn. intros Hlive%(proj1 Hl). rewrite Hr. intros Hre.
    pose proof (relied_file Hlive Hre) as Hh. apply (verify_stored_object_Ok _ _ _ _ tt) in Hh. by rewrite Hh in E.
  - injection H as <- <-. done.
  - injection H as <- <-. cbn. intros Hlive%(proj1 Hl). by apply Hok.
  - injection H as <- <-. done.
Qed.
End storing_step.

Lemma relink_lookup st storing i t ph : relink st storing !! i = Some (t, ph) -> exists ph0, storing !! i = Some (t, ph0) /\ ph = unlinks st ph0.
Proof.
  unfold relink. rewrite lookup_fmap. destruct (storing !! i) as [[t0 ph0]|]; cbn; [|done]. intros [= <- <-]. eauto.
Qed.

(** Requests for other artifacts, and somebody who counts on an artifact, do not notice an operation. *)
Lemma store_step_inv a prepared storing stored i t ph fault now ph' st' :
  publication_inv (System a prepared storing stored) -> exclusive (System a prepared storing stored) ->
  storing !! i = Some (t, ph) -> storing_step available_name (request_key t) (pm_file t.1) fault now ph (as_store a) = (ph', st') ->
  (forall name, writes_to ph = None -> writes_to ph' = Some name -> name = request_key t \/ foreign_name a name) ->
  publication_inv (System (set_as_store (fun _ => st') a) prepared (relink st' (<[i := (t, ph')]> storing)) stored).
Proof.
  intros Hi Hx Hs H Hap. destruct (pv_storing _ Hi _ _ _ Hs) as [Hin Hok]. cbn in Hin, Hok.
  destruct (storing_files _ _ _ _ Hi t Hin fault now _ _ _ Hok H Hap) as [Ha Hf]. destruct (request_row _ _ _ _ Hi t Hin) as (r & Hr & Ek & _).
  (* the file of another artifact *)
  assert (forall id' r', artifacts (as_store a) !! id' = Some r' -> id' <> t.2.1 -> files st' !! ar_storage_key r' = files (as_store a) !! ar_storage_key r') as Hother.
  { intros id' r' Hr' Hne. destruct (Hf (ar_storage_key r')) as [?|[Hfor|[E _]]]; [done|by destruct (Hfor _ _ Hr')|].
    destruct Hne. eapply (pv_keys _ Hi); [done|done|congruence]. }
  eapply inv_advances; [exact Hi| |].
  - apply advances_files; [done|]. intros id' r' Hr' Hrel Hlive Hh. destruct (decide (id' = t.2.1)) as [->|Hne].
    2:{ eapply holds_files; [by eapply Hother|exact Hh]. }
    assert (r' = r) as -> by congruence. eapply holds_files; [|exact Hh]. destruct (Hf (ar_storage_key r)) as [?|[Hfor|[_ Hn]]]; [done|by destruct (Hfor _ _ Hr)|].
    destruct Hn; [|done]. exists r. auto.
  - intros j t' ph1 (ph0 & Hj & ->)%relink_lookup. destruct (decide (i = j)) as [<-|Hne].
    + rewrite lookup_insert_eq in Hj. injection Hj as <- <-. split; [done|]. by eapply storing_phase_ok.
    + rewrite lookup_insert_ne in Hj by done. destruct (pv_storing _ Hi _ _ _ Hj) as [Hin' Hok']. cbn in *. split; [done|].
      destruct (request_row _ _ _ _ Hi t' Hin') as (r' & Hr' & Ek' & _).
      eapply (phase_frame a (set_as_store (fun _ => st') a)); [| | |exact Hok']; unfold as_store; cbn; fold (as_store a).
      * intros id0 r0. rewrite Ha. exists r0. split; [done|apply later_refl].
      * intros _ _. rewrite <- Ek'. eapply Hother; [done|]. intros E. apply Hne. symmetry. eapply Hx; [exact Hj|exact Hs|done].
      * intros _. unfold relied, as_store. cbn. by rewrite Ha.
Qed.

Lemma publication_step_inv s s' : publication_inv s -> exclusive s -> publication_step s s' -> publication_inv s'.
Proof.
  intros Hi Hx Hs. destruct Hs as [a prepared storing stored m new_id now p id r a' Hv Hp Hf|a prepared storing stored i t source Hin Hn
    |a prepared storing stored i t ph fault now ph' st' Hst Hstep Hap|a prepared storing stored i t Hst|a prepared storing stored i
    |a prepared storing stored m id r f library_id link_id now outcome a' Hin Hp|a prepared storing stored a' Hu].
  - eapply prepare_inv; eauto. by eapply prepare_publication_ok.
  - destruct Hi as [K N P B Pr St Sg]. split; try done. cbn in *. intros j t' ph [[<- [= <- <-]]|[_ Hj]]%lookup_insert_Some; [done|eauto].
  - by eapply store_step_inv.
  - destruct Hi as [K N P B Pr St Sg]. cbn in *. destruct (Sg _ _ _ Hst) as [Hin Hok]. destruct (Pr _ Hin) as (_ & Hsz & Hd & _). split; try done; cbn.
    + intros t' [->|Ht']%elem_of_cons; [|by apply St]. split; [done|]. intros r' [Hr' [(_ & -> & -> & ->) _ _]] Hlive. rewrite Hsz, Hd. apply Hok. exists r'. done.
    + intros j t' ph [Hne Hj]%lookup_delete_Some. destruct (Sg _ _ _ Hj) as [Hin' Hok']. split; [done|].
      assert (relied a (t :: stored) t'.2.1 -> relied a stored t'.2.1) as Hrel.
      { intros [?|(t0 & [->|Ht0]%elem_of_cons & E)]; [by left| |right; eauto]. destruct Hne. eapply (Hx i j); cbn; [exact Hst|exact Hj|done]. }
      destruct ph as [| | |name linked reader written|name| | |e| |]; cbn in *; try done.
      * destruct Hok' as (H1 & H2 & H3 & H4 & H5). split_and!; [done|done|done|done|]. intros E Hl. destruct (H5 E Hl) as (? & ? & ?). split_and!; auto.
      * intros Hl Hr. apply (Hok' Hl). auto.
  - destruct Hi as [K N P B Pr St Sg]. split; try done. cbn in *. intros j t' ph [_ Hj]%lookup_delete_Some. eauto.
  - destruct (publish_transaction_advances _ _ _ _ _ _ _ _ _ _ _ _ _ Hi Hin Hp) as [Had Hk]. eapply inv_advances; [done|done|].
    intros j t' ph1 (ph0 & Hj & ->)%relink_lookup. destruct (pv_storing _ Hi _ _ _ Hj) as [Hin' Hok']. cbn in *. split; [done|].
    eapply (phase_frame a); [| | |exact Hok'].
    + intros id0 r' Hr'. destruct (ad_artifacts _ _ _ Had _ _ Hr') as (r0 & ? & ? & _). eauto.
    + intros _. apply Hk.
    + intros _ [(r' & Hr' & Hpub)|?]; [|by right]. destruct (ad_artifacts _ _ _ Had _ _ Hr') as (r0 & Hr0 & _ & _ & Hnew).
      destruct (decide (ar_status r0 = APublished)); [left; eauto|]. by apply Hnew.
  - pose proof (undisturbed_advances (relied a stored) _ _ Hu) as Had. eapply inv_advances; [done|done|].
    intros j t' ph1 (ph0 & Hj & ->)%relink_lookup. destruct (pv_storing _ Hi _ _ _ Hj) as [Hin' Hok']. cbn in *. split; [done|].
    destruct (request_row _ _ _ _ Hi t' Hin') as (r1 & Hr1 & Ek & _).
    eapply (phase_frame a); [| | |exact Hok'].
    + intros id0 r' Hr'. destruct (ad_artifacts _ _ _ Had _ _ Hr') as (r0 & ? & ? & _). eauto.
    + intros (r' & Hr' & Hl) _. destruct (ad_artifacts _ _ _ Had _ _ Hr') as (r0 & Hr0 & [(_ & E & _) _ _] & _). assert (r0 = r1) as -> by congruence.
      rewrite <- Ek, <- E. by eapply (un_files _ _ Hu).
    + intros (r' & Hr' & Hl) [(r0 & Hr0 & Hpub)|?]; [left|by right]. assert (r0 = r') as -> by congruence.
      destruct (un_artifacts _ _ Hu _ _ Hr1) as (r2 & Hr2 & _ & [E|E]); assert (r2 = r') as -> by congruence; [exists r1; split; [done|congruence]|congruence].
Qed.

Local Abbreviation steps := (rtc publication_step).

Lemma exclusive_steps_inv s s' : publication_inv s -> exclusive s -> rtc exclusive_step s s' -> publication_inv s' /\ exclusive s'.
Proof. intros Hi Hx Hs. induction Hs as [|s1 s2 s3 [Hx2 Hs] _ IH]; [done|]. apply IH; [by eapply publication_step_inv|done]. Qed.
(** a service without artifacts and requests *)
Definition unpublished (a : astate) : system := System a [] ∅ [].
Lemma unused_publication_inv a : artifacts (as_store a) = ∅ -> as_publications a = ∅ -> publication_inv (unpublished a) /\ exclusive (unpublished a).
Proof.
  intros Ha Hp. split; [|intros i j t ph t' ph' H; cbn in H; by apply lookup_empty_Some in H]. split; cbn; rewrite ?Ha, ?Hp.
  - by intros ? ? ? ? ?%lookup_empty_Some.
  - by intros ? ? ?%lookup_empty_Some.
  - by intros ? ? ?%lookup_empty_Some.
  - by intros ? ? ?%lookup_empty_Some.
  - by intros ? ?%elem_of_nil.
  - by intros ? ?%elem_of_nil.
  - by intros ? ? ? ?%lookup_empty_Some.
Qed.

(** ** The specification *)

(** A publication is opened with contents that never change, and is published at most once. *)
Record contents := Contents { co_run : pystr; co_digest : pystr; co_call : pystr; co_filename : pystr; co_size : Z; co_sha256 : pystr }.
Abbreviation spec := (gmap pystr (contents * bool)).
Inductive spec_step (s : spec) : spec -> Prop :=
| sp_open k c published : s !! k = None -> spec_step s (<[k := (c, published)]> s)
| sp_publish k c : s !! k = Some (c, false) -> spec_step s (<[k := (c, true)]> s).

Definition row_contents (p : publication_row) : contents :=
  Contents (pb_run p) (pb_digest p) (pb_call p) (pb_filename p) (pb_size p) (pb_sha256 p).
Definition request_contents (m : pub_metadata) : contents :=
  Contents (pi_run (pm_identity m)) (pi_digest (pm_identity m)) (pi_call (pm_identity m)) (pf_name (pm_file m)) (pf_size (pm_file m)) (pf_sha256 (pm_file m)).
Definition abstract (a : astate) : spec := (fun p => (row_contents p, pb_published p)) <$> as_publications a.

Lemma spec_step_keeps s s' k c : spec_step s s' -> s !! k = Some (c, true) -> s' !! k = Some (c, true).
Proof. intros [k0 c0 b0 H|k0 c0 H] Hk; rewrite lookup_insert_ne; (done || intros <-; congruence). Qed.

Lemma publish_transaction_abstract a m f library_id link_id now outcome a' :
  publish_transaction available_name a m f library_id link_id now = (outcome, a') ->
  abstract a' = abstract a \/ spec_step (abstract a) (abstract a').
Proof.
  intros H. unfold publish_transaction in H.
  destruct (_ ≫= _) as [[[p id] r]|e] eqn:E in H; [|injection H as <- <-; by left].
  apply bind_Ok in E as (p0 & Hp & E). apply from_option_res_Ok in Hp.
  assert (p0 = p) as -> by (repeat (apply bind_Ok in E as (? & _ & E)); by injection E).
  destruct (pb_published p) eqn:Epub.
  { destruct (verify_stored_object _ _ _ _); injection H as <- <-; by left. }
  assert (forall st now, spec_step (abstract a) (abstract (set_as_publications <[pi_publication (pm_identity m) := set_pb_published now p]> (set_as_store st a)))) as Hpub.
  { intros st n. unfold abstract. cbn. rewrite fmap_insert. apply (sp_publish _ _ (row_contents p)).
    rewrite lookup_fmap, Hp. cbn. by rewrite Epub. }
  destruct (ar_status r); try (injection H as <- <-; by left).
  - destruct (_ingest_artifact_library_copy _ _ _ _ _ _ _ _) as [[u|e] st]; [|injection H as <- <-; by left].
    destruct (save_artifact _ _ _) as [st2|e]; [|injection H as <- <-; by left].
    destruct (publication_ok _ _); injection H as <- <-; [right; apply (Hpub (fun _ => st2))|by left].
  - destruct (publication_ok _ _); injection H as <- <-; [right|by left].
    replace a with (set_as_store (fun st => st) a) at 2 by (by destruct a as [[] ?]). apply Hpub.
Qed.

(** (C5) The publication of artifacts refines its specification: whatever the phases of requests, failing uploads and the
    rest of the service do, each step opens one publication, publishes one that was open, or leaves all publications
    as they are.  So a publication keeps the run, tool call, file name, size and digest it was opened with, and once
    published stays published. *)
Theorem publication_refines_spec s s' : steps s s' -> rtc spec_step (abstract (sy_state s)) (abstract (sy_state s')).
Proof.
  induction 1 as [|s1 s2 s3 Hs _ IH]; [done|]. etransitivity; [clear IH s3|exact IH].
  assert (abstract (sy_state s2) = abstract (sy_state s1) \/ spec_step (abstract (sy_state s1)) (abstract (sy_state s2))) as H.
  2: { destruct H as [->|H]; [done|by apply rtc_once]. }
  destruct Hs as [a prepared storing stored m new_id now p id r a' _ Hp _| | | | |a prepared storing stored m id r f library_id link_id now outcome a' _ Hp
    |a prepared storing stored a' [Hu _ _ _]]; cbn; auto.
  - apply prepare_publication_ok in Hp as [_ _ _ _ [E|(Hnone & E & _)] _ _]; unfold abstract; rewrite E; [auto|].
    right. rewrite fmap_insert. apply sp_open. by rewrite lookup_fmap, Hnone.
  - by eapply publish_transaction_abstract.
  - left. unfold abstract. by rewrite Hu.
Qed.

(** (C4) From a service without artifacts, whatever the requests that publish do, file operation by file operation, in any
    order, with storage that fails half way, requests that die and the rest of the service in between, as long as no
    two requests store the bytes of the same artifact at the same time: the artifact of a published publication is
    published as well or has been deleted since, and as long as it is not deleted its file is there, with exactly the
    size and the SHA-256 digest the publication was made with. *)
Theorem published_artifacts_have_their_bytes a s' k p :
  artifacts (as_store a) = ∅ -> as_publications a = ∅ -> rtc exclusive_step (unpublished a) s' ->
  as_publications (sy_state s') !! k = Some p -> pb_published p = true ->
  exists id r, pb_artifact p = Some id /\ artifacts (as_store (sy_state s')) !! id = Some r /\
    (artifact_live (ar_status r) = true ->
       ar_status r = APublished /\ holds (as_store (sy_state s')) (ar_storage_key r) (pb_size p) (pb_sha256 p)).
Proof.
  intros Ha Hp Hs Hk Hpub. destruct (unused_publication_inv _ Ha Hp) as [Hi Hx].
  destruct (exclusive_steps_inv _ _ Hi Hx Hs) as [[_ _ Hholds Hpb _ _ _] _].
  destruct (Hpb _ _ Hk) as (id & r & Hid & Hr & <- & <- & Hl). exists id, r. split_and!; [done|done|]. intros Hlive. split; eauto.
Qed.

(** ** The whole request *)

Lemma decoded_file_valid content_length s m rest : _decode_publication_body content_length s = Ok (m, rest) -> valid_file (pm_file m).
Proof.
  intros H. unfold _decode_publication_body in H. walk H.
  match goal with Hm : _validate_publication_metadata _ = Ok _ |- _ => unfold _validate_publication_metadata in Hm; walk Hm end. cbn.
  repeat match goal with Hq : require _ _ = Ok _ |- _ => apply require_Ok in Hq end.
  match goal with Hq : int_where _ _ = true |- _ => unfold int_where in Hq; destruct (get "sizeBytes" _); try done end.
  unfold valid_file. cbn in *. bool_inv. lia.
Qed.

Lemma transaction_published a m f library_id link_id now p id r a' :
  publish_transaction available_name a m f library_id link_id now = (Ok (p, (id, r)), a') ->
  abstract a' !! pi_publication (pm_identity m) = Some (request_contents m, true)
  /\ ar_size r = pf_size (pm_file m) /\ ar_sha256 r = pf_sha256 (pm_file m)
  /\ (holds (as_store a') (ar_storage_key r) (ar_size r) (ar_sha256 r)
      \/ keeps_files (as_store a) (as_store a') /\ exists p0 r0, as_publications a !! pi_publication (pm_identity m) = Some p0 /\ pb_artifact p0 = Some id
           /\ artifacts (as_store a) !! id = Some r0 /\ artifact_live (ar_status r0) = true /\ ar_storage_key r = ar_storage_key r0).
Proof.
  intros H. unfold publish_transaction in H.
  destruct (_ ≫= _) as [[[p0 id0] r0]|e] eqn:E in H; [|done].
  apply bind_Ok in E as (p1 & Hp & E). apply bind_Ok in E as (id1 & Hid & E). apply bind_Ok in E as (r1 & Hr & E).
  apply bind_Ok in E as ([] & Hc & E). apply bind_Ok in E as ([] & Hb & E). injection E as -> -> ->.
  apply from_option_res_Ok in Hp, Hid, Hr. apply idempotent_contents in Hc as (? & ? & ? & ? & ? & ?).
  unfold _require_artifact_bytes in Hb. apply require_Ok in Hb. bool_inv.
  assert (row_contents p0 = request_contents m) as Hrow by (unfold row_contents, request_contents; congruence).
  assert (forall a0 n, abstract (set_as_publications <[pi_publication (pm_identity m) := set_pb_published n p0]> a0) !! pi_publication (pm_identity m)
    = Some (request_contents m, true)) as Habs.
  { intros a0 n. unfold abstract. cbn. rewrite lookup_fmap, lookup_insert_eq. cbn. rewrite <- Hrow. done. }
  destruct (pb_published p0) eqn:Epub.
  { destruct (verify_stored_object _ _ _ _) eqn:Hv; [|done]. injection H as -> -> -> ->. apply verify_stored_object_Ok in Hv.
    split_and!; [|done|done|by left]. unfold abstract. rewrite lookup_fmap, Hp. cbn. by rewrite Hrow, Epub. }
  destruct (ar_status r0) eqn:Est; try done.
  - destruct (_ingest_artifact_library_copy _ _ _ _ _ _ _ _) as [[u|e] st] eqn:Ei; [|done]. apply ingest_keeps in Ei as [Hk _]; [|exact free_names].
    destruct (save_artifact _ _ _) as [st2|e] eqn:Es; [|done]. unfold save_artifact in Es. walk Es.
    destruct (publication_ok _ _); [|done]. injection H as <- <- <- <-. split_and!; [apply Habs|done|done|].
    right. split; [exact Hk|]. exists p0, r0. by rewrite Est.
  - destruct (publication_ok _ _); [|done]. injection H as <- <- <- <-. split_and!; [apply Habs|done|done|]. right. split; [done|]. exists p0, r0. by rewrite Est.
Qed.

(** What other requests leave to a request for the publication [k] and its artifact [id]: its rows move forward only,
    and as long as the artifact is live they do not touch its file. *)
Record spares (k id : pystr) (a : astate) (other : astate * bool) : Prop := Spares {
  so_publication : forall p, as_publications a !! k = Some p -> exists p', as_publications other.1 !! k = Some p' /\ pb_artifact p' = pb_artifact p
    /\ row_contents p' = row_contents p /\ (pb_published p = true -> pb_published p' = true);
  so_artifact : forall r, artifacts (as_store a) !! id = Some r -> exists r', artifacts (as_store other.1) !! id = Some r' /\ later_artifact r r'
    /\ (artifact_live (ar_status r') = true -> files (as_store other.1) !! ar_storage_key r = files (as_store a) !! ar_storage_key r /\ other.2 = false) }.

(** What a request knows of its publication, its artifact and its file. *)
Definition own_phase (a : astate) (id key : pystr) (file : pub_file) (ph : storing_phase) : Prop :=
  match ph with
  | Saving stored linked reader written =>
      hr_data reader = written /\ 0 <= hr_remaining reader /\ zlen written + hr_remaining reader = pf_size file /\
      (stored = key -> live_now a id -> linked = true /\ exists at_, files (as_store a) !! key = Some (written, at_))
  | Stored => live_now a id -> holds (as_store a) key (pf_size file) (pf_sha256 file)
  | _ => True
  end.
Definition own_rows (a : astate) (k id : pystr) (r : artifact_row) : Prop :=
  (exists p, as_publications a !! k = Some p /\ pb_artifact p = Some id) /\ exists r', artifacts (as_store a) !! id = Some r' /\ later_artifact r r'.

Lemma spares_rows k id r a other : spares k id a other -> own_rows a k id r -> own_rows other.1 k id r.
Proof.
  intros [Hp Ha] [(p & Hk & Hid) (r1 & Hr1 & Hl)]. destruct (Hp _ Hk) as (p' & ? & ? & _), (Ha _ Hr1) as (r' & ? & ? & _).
  split; [exists p'; split; [done|congruence]|]. exists r'. split; [done|]. by eapply later_trans.
Qed.
Lemma spares_phase k id r file ph a other : spares k id a other -> own_rows a k id r -> own_phase a id (ar_storage_key r) file ph ->
  own_phase other.1 id (ar_storage_key r) file (cut other.2 ph).
Proof.
  intros [_ Ha] [_ (r1 & Hr1 & [(_ & Ek & _) _ _])] Hok. destruct (Ha _ Hr1) as (r' & Hr' & [_ Hlive _] & Hkeep). rewrite Ek in Hkeep.
  assert (live_now other.1 id -> live_now a id /\ files (as_store other.1) !! ar_storage_key r = files (as_store a) !! ar_storage_key r /\ other.2 = false) as Hl.
  { intros (r0 & Hr0 & Hl0). assert (r0 = r') as -> by congruence. split; [|by auto]. exists r1. auto. }
  destruct ph as [| | |stored linked reader written| | | | | |]; cbn in *; try done.
  - destruct Hok as (H1 & H2 & H3 & H4). split_and!; [done|done|done|]. intros E (Hl1 & -> & ->)%Hl. destruct (H4 E Hl1) as [-> ?]. done.
  - intros (Hl1 & Hf & _)%Hl. eapply holds_files; [exact Hf|auto].
Qed.

Lemma own_step a id key file fault now ph ph' st' : valid_file file -> key <> "" -> own_phase a id key file ph ->
  storing_step available_name key file fault now ph (as_store a) = (ph', st') ->
  artifacts st' = artifacts (as_store a) /\ own_phase (set_as_store (fun _ => st') a) id key file ph'.
Proof.
  intros Hv Hne Hok H. unfold valid_file in Hv.
  assert (artifacts st' = artifacts (as_store a) -> live_now (set_as_store (fun _ => st') a) id -> live_now a id) as Hl by (intros Ha; unfold live_now, as_store in *; cbn; by rewrite Ha).
  assert (forall k st, artifacts (delete_stored_object k st) = artifacts st) as Hd by (intros; unfold delete_stored_object; by case_match).
  destruct ph as [source| |source|stored linked reader written|stored|e|e|e| |e]; cbn [storing_step] in H; try (injection H as <- <-; by auto).
  - injection H as <- <-. split; [done|]. by case_match.
  - injection H as <- <-. split; [done|]. destruct (verify_stored_object _ _ _ _) as [u|e] eqn:E; [|done]. intros _. by apply verify_stored_object_Ok in E.
  - destruct fault; injection H as <- <-; [done|]. split; [done|]. cbn. split_and!; [done|lia|rewrite zlen_nil; lia|].
    intros -> _. split; [done|]. exists now. by rewrite lookup_insert_eq.
  - destruct Hok as (H1 & H2 & H3 & H4). destruct fault; [injection H as <- <-; done|].
    destruct (hashing_read _ _) as [[chunk reader']|e] eqn:Er; [|injection H as <- <-; done]. apply hashing_read_spec in Er as (R1 & R2 & R3 & R4); [|done].
    destruct chunk as [|b chunk].
    + destruct (bool_decide_reflect (stored = key)) as [E|E]; injection H as <- <-; [|done]. split; [done|].
      destruct (require_complete _ _) as [u|e] eqn:Eq; [|done]. cbn. intros Hlive. destruct (H4 E (Hl eq_refl Hlive)) as (_ & at_ & Hfile).
      unfold require_complete in Eq. apply require_Ok in Eq. bool_inv. rewrite (R4 eq_refl) in *.
      split; [done|]. exists written, at_. split_and!; [done|lia|congruence|lia].
    + injection H as <- <-. split; [by destruct linked|]. cbn. rewrite H1 in R1. rewrite zlen_app. split_and!; [done|done|lia|].
      intros E Hlive. destruct (H4 E) as [-> _]; [apply Hl; [by destruct linked|done]|]. split; [done|]. exists now. cbn. rewrite E. apply lookup_insert_eq.
  - injection H as <- <-. split; [done|]. by case_match.
  - injection H as <- <-. split; [done|]. by case_match.
Qed.

Lemma store_artifact_bytes_ok others faults file now k id r fuel : valid_file file -> ar_storage_key r <> "" -> forall n ph a ph' a',
  (forall n' b, n <= n' -> spares k id b (others n' b))%nat -> own_rows a k id r -> own_phase a id (ar_storage_key r) file ph ->
  store_artifact_bytes available_name fuel n others faults (ar_storage_key r) file now ph a = (ph', a') ->
  own_rows a' k id r /\ own_phase a' id (ar_storage_key r) file ph'.
Proof.
  intros Hv Hne. induction fuel as [|fuel IH]; intros n ph a ph' a' Ho Hrows Hok H; cbn [store_artifact_bytes] in H.
  { by destruct ph; injection H as <- <-. }
  assert (forall p1, p1 = storing_step available_name (ar_storage_key r) file (faults n) now ph (as_store a) ->
    (let '(ph, st) := p1 in let '(a, unlinked) := others n (set_as_store (fun _ => st) a) in
     store_artifact_bytes available_name fuel (S n) others faults (ar_storage_key r) file now (cut unlinked ph) a) = (ph', a') ->
    own_rows a' k id r /\ own_phase a' id (ar_storage_key r) file ph') as Hstep.
  2:{ destruct ph; try (eapply Hstep; [reflexivity|exact H]); injection H as <- <-; done. }
  clear H. intros [ph1 st] E H. symmetry in E. destruct (own_step _ _ _ _ _ _ _ _ _ Hv Hne Hok E) as [Ha Hok1].
  assert (own_rows (set_as_store (fun _ => st) a) k id r) as Hrows1 by (destruct Hrows as [? ?]; split; [done|]; unfold as_store in *; cbn; by rewrite Ha).
  pose proof (Ho n (set_as_store (fun _ => st) a) ltac:(lia)) as Hsp. destruct (others n _) as [a1 unlinked] eqn:Eo.
  eapply IH; [|exact (spares_rows _ _ _ _ _ Hsp Hrows1)|exact (spares_phase _ _ _ _ _ _ _ Hsp Hrows1 Hok1)|exact H]. intros n' b Hn. apply Ho. lia.
Qed.

(** Every request ends, with the fuel of [publish_artifact]. *)
Definition storing_measure (file : pub_file) (ph : storing_phase) : nat :=
  match ph with
  | Checking _ => Z.to_nat (pf_size file) + 7
  | Creating _ => Z.to_nat (pf_size file) + 6
  | Saving _ _ reader _ => Z.to_nat (hr_remaining reader) + 5
  | Verifying | Misplaced _ => 4
  | Handling _ => 3 | Rechecking _ => 2 | Deleting _ => 1 | Stored | NotStored _ => 0
  end.
Definition reading (ph : storing_phase) : Prop := match ph with Saving _ _ reader _ => 0 <= hr_remaining reader | _ => True end.
Definition ended (ph : storing_phase) : bool := match ph with Stored | NotStored _ => true | _ => false end.
Lemma cut_measure file unlinked ph : storing_measure file (cut unlinked ph) = storing_measure file ph /\ (reading ph -> reading (cut unlinked ph)).
Proof. by destruct ph. Qed.
Lemma storing_step_measure key file fault now ph st ph' st' : valid_file file -> reading ph -> ended ph = false ->
  storing_step available_name key file fault now ph st = (ph', st') -> (storing_measure file ph' < storing_measure file ph)%nat /\ reading ph'.
Proof.
  intros Hv Hok He H. unfold valid_file in Hv. destruct ph as [source| |source|stored linked reader written|stored|e|e|e| |e]; cbn [storing_step] in H; try done.
  - injection H as <- _. case_match; cbn; split; (done || lia).
  - injection H as <- _. case_match; cbn; split; (done || lia).
  - destruct fault; injection H as <- _; cbn; split; (done || lia).
  - destruct fault; [injection H as <- _; cbn; split; (done || lia)|].
    destruct (hashing_read _ _) as [[[|b chunk] reader']|e] eqn:Er; [| |injection H as <- _; cbn; split; (done || lia)].
    + destruct (bool_decide _); injection H as <- _; [case_match|]; cbn; split; (done || lia).
    + injection H as <- _. apply hashing_read_spec in Er as (_ & E & ? & _); [|done]. rewrite zlen_cons in E. pose proof (zlen_nonneg chunk). cbn. split; lia.
  - injection H as <- _. cbn. split; (done || lia).
  - injection H as <- _. case_match; cbn; split; (done || lia).
  - injection H as <- _. case_match; cbn; split; (done || lia).
  - injection H as <- _. cbn. split; (done || lia).
Qed.
Lemma storing_ends others faults key file now fuel : valid_file file -> forall n ph a, reading ph -> (storing_measure file ph <= fuel)%nat ->
  ended (store_artifact_bytes available_name fuel n others faults key file now ph a).1 = true.
Proof.
  intros Hv. induction fuel as [|fuel IH]; intros n ph a Hr Hm; cbn [store_artifact_bytes].
  { destruct ph; cbn in *; (done || lia). }
  destruct (ended ph) eqn:He; [by destruct ph|].
  destruct (storing_step available_name key file (faults n) now ph (as_store a)) as [ph1 st] eqn:E.
  destruct (storing_step_measure _ _ _ _ _ _ _ _ Hv Hr He E) as [Hlt Hr1]. destruct (others n (set_as_store (fun _ => st) a)) as [a1 unlinked] eqn:Eo.
  destruct (cut_measure file unlinked ph1) as [Hc Hr2].
  destruct ph; try done; (apply IH; [by apply Hr2|rewrite Hc; lia]).
Qed.

Lemma store_artifact_bytes_ends others faults key file now source n a : valid_file file ->
  ended (store_artifact_bytes available_name (storing_fuel file) n others faults key file now (Checking source) a).1 = true.
Proof. intros Hv. apply storing_ends; [done|done|]. unfold storing_fuel. cbn. lia. Qed.

(** Once its bytes are stored, a request that is left alone publishes them. *)
Lemma stored_is_published a m f library_id link_id now p id r a' id1 r1 : own_rows a (pi_publication (pm_identity m)) id1 r1 ->
  own_phase a id1 (ar_storage_key r1) (pm_file m) Stored ->
  publish_transaction available_name a m f library_id link_id now = (Ok (p, (id, r)), a') ->
  abstract a' !! pi_publication (pm_identity m) = Some (request_contents m, true)
  /\ holds (as_store a') (ar_storage_key r) (pf_size (pm_file m)) (pf_sha256 (pm_file m)).
Proof.
  intros [(p1 & Hp1 & Hid1) (r' & Hr' & [(_ & Ek & _) _ _])] Hok H.
  apply transaction_published in H as (Habs & Hs & Hd & [Hh|(Hkeep & p0 & r0 & Hp0 & Hid & Hr0 & Hlive & ->)]); [by rewrite <- Hs, <- Hd|]. split; [done|].
  assert (id1 = id) as -> by congruence. assert (r0 = r') as -> by congruence. rewrite Ek. eapply keeps_holds; [exact Hkeep|].
  apply Hok. exists r'. done.
Qed.

(** (C23) What a successful publication answers is true, when no other request stores or deletes the file of the artifact
    while this one is under way (they may do anything else, after each of its file operations, and the storage may
    fail in each): the body was decoded completely, the publication is recorded as published with exactly the contents
    of the request, and the artifact that is returned has a stored file of the announced size and SHA-256 digest. *)
Theorem accepted_publication_is_true a prepared storing stored others faults content_length body new_id library_id link_id now p id r a' :
  publication_inv (System (others 0%nat a).1 prepared storing stored) ->
  (forall m rest p1 id1 r1 a1, _decode_publication_body content_length body = Ok (m, rest) ->
     _prepare_publication guess_type (others 0%nat a).1 m new_id now = Ok (p1, (id1, r1), a1) ->
     fresh_key (others 0%nat a).1 storing id1 r1 /\ forall n b, (1 <= n)%nat -> spares (pi_publication (pm_identity m)) id1 b (others n b)) ->
  publish_artifact available_name guess_type a others faults content_length body new_id library_id link_id now = (Ok (p, (id, r)), a') ->
  exists m rest, _decode_publication_body content_length body = Ok (m, rest)
    /\ abstract a' !! pi_publication (pm_identity m) = Some (request_contents m, true)
    /\ holds (as_store a') (ar_storage_key r) (pf_size (pm_file m)) (pf_sha256 (pm_file m)).
Proof.
  intros Hi Ho H. unfold publish_artifact in H.
  destruct (_ ≫= _) as [[[m source] f]|e] eqn:E in H; [|done].
  apply bind_Ok in E as ([m' rest] & Hdec & E). apply bind_Ok in E as (f' & _ & E). injection E as -> -> ->.
  pose proof (decoded_file_valid _ _ _ _ Hdec) as Hv. exists m, source. split; [done|].
  destruct (_prepare_publication _ _ _ _ _) as [[[p1 [id1 r1]] a1]|e] eqn:Hp; [|done]. destruct (Ho _ _ _ _ _ _ Hdec Hp) as [Hfresh Hsp].
  pose proof (prepare_publication_ok _ _ _ _ _ _ _ _ Hp) as Hpa.
  destruct (pv_prepared _ (prepare_inv _ _ _ _ _ _ _ _ _ Hi Hv Hfresh Hpa) (m, (id1, r1)) ltac:(by left)) as (_ & Hsz & Hdg & _). cbn in Hsz, Hdg.
  pose proof (pv_nonempty _ (prepare_inv _ _ _ _ _ _ _ _ _ Hi Hv Hfresh Hpa) _ _ (pa_artifact _ _ _ _ _ _ Hpa)) as Hne.
  assert (own_rows a1 (pi_publication (pm_identity m)) id1 r1) as Hrows.
  { destruct Hpa as [_ ? _ ? _ ? _]. split; [eauto|]. exists r1. split; [done|apply later_refl]. }
  pose proof (spares_rows _ _ _ _ _ (Hsp 1%nat a1 ltac:(lia)) Hrows) as Hrows1.
  destruct (pb_published p1) eqn:Epub.
  - destruct (verify_stored_object _ _ _ _) as [u|] eqn:Hver; [|done]. injection H as <- <- <- <-. apply verify_stored_object_Ok in Hver.
    split; [|by rewrite <- Hsz, <- Hdg]. destruct (so_publication _ _ _ _ (Hsp 1%nat a1 ltac:(lia)) _ (pa_publication _ _ _ _ _ _ Hpa)) as (p' & Hp' & _ & Hc & Hpub).
    unfold abstract. rewrite lookup_fmap, Hp'. cbn. rewrite Hc, Hpub by done. destruct (pa_contents _ _ _ _ _ _ Hpa) as (? & ? & ? & ? & ? & ?).
    unfold row_contents, request_contents. congruence.
  - destruct (store_artifact_bytes _ _ _ _ _ _ _ _ _ _) as [ph a2] eqn:Es. destruct ph; try done.
    apply (store_artifact_bytes_ok _ _ _ _ (pi_publication (pm_identity m)) id1 r1) in Es as [Hr2 Hok2]; try done.
    + exact (stored_is_published _ _ _ _ _ _ _ _ _ _ _ _ Hr2 Hok2 H).
    + intros n b Hn. apply Hsp. lia.
Qed.

End system.

(** ** Traces, evaluated *)

(** A step of the system as a function, for traces that are computed. *)
Inductive action :=
| Prepare (m : pub_metadata) (new_id : pystr)
| Begin (i : nat) (t : nat) (source : stream)
| Operate (i : nat)
| Finish (i : nat)
| Publish (t : nat) (library_id link_id : pystr).

Section traces.
Context {PL : Platform} (available_name : files_t -> pystr -> pystr) (guess_type : pystr -> option pystr).
Let time : Z := 9.

(** the sufficient conditions that are checked *)
Definition fresh_check (a : astate) (storing : gmap nat (request * storing_phase)) (id : pystr) : bool :=
  bool_decide (is_Some (artifacts (as_store a) !! id)) || (bool_decide (size (artifacts (as_store a)) = 0%nat) && bool_decide (size storing = 0%nat)).
Definition name_check (key : pystr) (ph ph' : storing_phase) : bool :=
  match writes_to ph, writes_to ph' with None, Some name => bool_decide (name = key) | _, _ => true end.
Definition size_check (file : pub_file) : bool := (0 <=? pf_size file) && (pf_size file <=? MAX_ARTIFACT_BYTES).

Definition act (x : action) (s : system) : option system :=
  let '(System a prepared storing stored) := s in
  match x with
  | Prepare m new_id =>
      match _prepare_publication guess_type a m new_id time with
      | Ok (_, (id, r), a') =>
          if size_check (pm_file m) && fresh_check a storing id then Some (System a' ((m, (id, r)) :: prepared) storing stored) else None
      | Err _ => None
      end
  | Begin i n source =>
      match prepared !! n, storing !! i with
      | Some t, None => Some (System a prepared (<[i := (t, Checking source)]> storing) stored)
      | _, _ => None
      end
  | Operate i =>
      match storing !! i with
      | Some (t, ph) =>
          let '(ph', st') := storing_step available_name (request_key t) (pm_file t.1) false time ph (as_store a) in
          if name_check (request_key t) ph ph'
          then Some (System (set_as_store (fun _ => st') a) prepared (relink st' (<[i := (t, ph')]> storing)) stored) else None
      | None => None
      end
  | Finish i =>
      match storing !! i with
      | Some (t, Stored) => Some (System a prepared (delete i storing) (t :: stored))
      | _ => None
      end
  | Publish n library_id link_id =>
      '(m, _) ← stored !! n;
      f ← h_runs (as_hosted a) !! pi_run (pm_identity m);
      let a' := (publish_transaction available_name a m f library_id link_id time).2 in
      Some (System a' prepared (relink (as_store a') storing) stored)
  end.

Lemma act_step x s s' : act x s = Some s' -> publication_step available_name guess_type s s'.
Proof.
  destruct s as [a prepared storing stored], x as [m new_id|i n source|i|i|n library_id link_id]; cbn [act]; intros H.
  - destruct (_prepare_publication _ _ _ _ _) as [[[p [id r]] a']|e] eqn:Hp; [|done]. destruct (size_check _ && _) eqn:E; [|done]. injection H as <-.
    apply andb_true_iff in E as [Hv Hf]. unfold size_check in Hv. eapply ps_prepare; [unfold valid_file; lia|exact Hp|]. unfold fresh_key, foreign_name. intros Hn. unfold fresh_check in Hf. rewrite Hn in Hf.
    apply orb_true_iff in Hf as [Hf|Hf]; [by apply bool_decide_eq_true in Hf as [? ?]|].
    apply andb_true_iff in Hf as [E1%bool_decide_eq_true%map_size_empty_inv E2%bool_decide_eq_true%map_size_empty_inv]. rewrite E1, E2. split.
    + by intros ? ? ?%lookup_empty_Some.
    + by intros ? ? ? ?%lookup_empty_Some.
  - destruct (prepared !! n) as [t|] eqn:Et; [|done]. destruct (storing !! i) eqn:Ei; [done|]. injection H as <-. apply ps_begin; [by eapply list_elem_of_lookup_2|done].
  - destruct (storing !! i) as [[t ph]|] eqn:Ei; [|done]. destruct (storing_step _ _ _ _ _ _ _) as [ph' st'] eqn:Es. destruct (name_check _ _ _) eqn:En; [|done]. injection H as <-.
    eapply ps_store; [exact Ei|exact Es|]. unfold name_check in En. intros name H1 H2. rewrite H1, H2 in En. left. by apply bool_decide_eq_true in En.
  - destruct (storing !! i) as [[t []]|] eqn:Ei; try done. injection H as <-. by apply ps_end.
  - destruct (stored !! n) as [[m [id r]]|] eqn:En; [|done]. cbn in H. destruct (h_runs _ !! _) as [f|]; [|done]. injection H as <-.
    eapply (ps_publish _ _ _ _ _ _ m id r f library_id link_id time); [by eapply list_elem_of_lookup_2|apply surjective_pairing].
Qed.

Definition acts (xs : list action) (s : system) : option system := fold_left (fun o x => s ← o; act x s) xs (Some s).
Definition exclusive_check (s : system) : bool :=
  forallb (fun x => forallb (fun y => bool_decide (x.1 = y.1) || negb (bool_decide (x.2.1.2.1 = y.2.1.2.1))) (map_to_list (sy_storing s))) (map_to_list (sy_storing s)).
Lemma exclusive_checked s : exclusive_check s = true -> exclusive s.
Proof.
  intros H i j t ph t' ph' Hi%elem_of_map_to_list Hj%elem_of_map_to_list E. unfold exclusive_check in H.
  rewrite forallb_forall in H. specialize (H _ (proj1 (list_elem_of_In _ _) Hi)). rewrite forallb_forall in H. specialize (H _ (proj1 (list_elem_of_In _ _) Hj)).
  cbn in H. apply orb_true_iff in H as [H%bool_decide_eq_true|H%negb_true_iff%bool_decide_eq_false]; [done|by destruct H].
Qed.
Definition exclusive_acts (xs : list action) (s : system) : option system := fold_left (fun o x => s ← o; s' ← act x s; if exclusive_check s' then Some s' else None) xs (Some s).

Lemma acts_steps xs s s' : acts xs s = Some s' -> rtc (publication_step available_name guess_type) s s'.
Proof.
  revert s. unfold acts. induction xs as [|x xs IH]; intros s H; cbn in H; [by injection H as <-|].
  destruct (act x s) as [s1|] eqn:E.
  - eapply rtc_l; [by eapply act_step|by apply IH].
  - exfalso. clear -H. induction xs; cbn in H; [done|auto].
Qed.
Lemma exclusive_acts_steps xs s s' : exclusive_acts xs s = Some s' -> rtc (exclusive_step available_name guess_type) s s'.
Proof.
  revert s. unfold exclusive_acts. induction xs as [|x xs IH]; intros s H; cbn in H; [by injection H as <-|].
  destruct (act x s) as [s1|] eqn:E; [cbn in H; destruct (exclusive_check s1) eqn:Ex|].
  - eapply rtc_l; [split; [by apply exclusive_checked|by eapply act_step]|by apply IH].
  - exfalso. clear -H. induction xs; cbn in H; [done|auto].
  - exfalso. clear -H. induction xs; cbn in H; [done|auto].
Qed.
End traces.

#[local] Existing Instance ascii_platform.
#[global] Instance pystr_infinite : Infinite pystr := inj_infinite PyStr (fun s => Some (code_points s)) (fun _ => eq_refl).
(** the wanted name, or an unused one *)
Definition unused_name (fs : files_t) (key : pystr) : pystr := if decide (fs !! key = None) then key else fresh (dom fs).
Lemma unused_name_free fs key : fs !! unused_name fs key = None.
Proof. unfold unused_name. case_decide; [done|]. apply not_elem_of_dom, is_fresh. Qed.
Definition no_type (_ : pystr) : option pystr := None.

Definition idle : astate := AState after_first ∅.
Definition frozen_digest : pystr := default "" (au_digest <$> h_authorizations after_first !! "run-1").
Definition report_bytes : bytes := [104; 105; 33].
Definition report_metadata : bytes :=
  code_points (json_dumps (VDict [("schema", VStr ARTIFACT_PUBLICATION_SCHEMA); ("publicationId", VStr (expected_publication_id "run-1" "call-1"));
    ("agentRunId", VStr "run-1"); ("authorizationDigest", VStr frozen_digest); ("toolCallId", VStr "call-1"); ("filename", VStr "report.txt");
    ("sizeBytes", VInt 3); ("sha256", VStr (sha256_tag report_bytes))])).
(** the body arrives in pieces *)
Definition report_body : stream :=
  [[0; 0]; zlen report_metadata / 256 :: [zlen report_metadata mod 256] ++ take 10 report_metadata; drop 10 report_metadata ++ [104]; [105; 33]].
Definition report_length : option Z := Some (4 + zlen report_metadata + 3).
(** nobody else does anything *)
Definition quiet (_ : nat) (a : astate) : astate * bool := (a, false).
Local Abbreviation publish_report a := (publish_artifact unused_name no_type a quiet (fun _ => false) report_length report_body "art-1" "lib-1" "link-1" 9).
Definition published_report : astate := (publish_report idle).2.

Lemma idle_empty : artifacts (as_store idle) = ∅ /\ as_publications idle = ∅.
Proof. split; vm_compute; reflexivity. Qed.
Lemma quiet_spares k id n b : spares k id b (quiet n b).
Proof. split; [intros p Hp; exists p; auto|]. intros r Hr. exists r. split; [exact Hr|]. split; [apply later_refl|auto]. Qed.

Lemma publish_outcome : (fun x => (x.2.1, ar_storage_key x.2.2, ar_status x.2.2, pb_published x.1)) <$> (publish_report idle).1
  = Ok ("art-1", "workspaces/ws-1/artifacts/art-1/report.txt", APublished, true).
Proof. vm_compute. reflexivity. Qed.
Lemma pair_of_fst {A B} (x : A * B) y : x.1 = y -> x = (y, x.2).
Proof. destruct x. by intros <-. Qed.
Lemma accepted_publication_is_true_witness : exists m rest p r,
  publish_report idle = (Ok (p, ("art-1", r)), published_report)
  /\ abstract published_report !! pi_publication (pm_identity m) = Some (request_contents m, true)
  /\ holds (as_store published_report) (ar_storage_key r) (pf_size (pm_file m)) (pf_sha256 (pm_file m))
  /\ _decode_publication_body report_length report_body = Ok (m, rest).
Proof.
  pose proof publish_outcome as H. apply fmap_Ok in H as ([p [i r]] & H & E). cbn [fst snd] in E. injection E as E1 E2 _ E4. subst i.
  pose proof (pair_of_fst _ _ H) as Hp.
  destruct (accepted_publication_is_true unused_name no_type unused_name_free idle [] ∅ [] quiet (fun _ => false) report_length report_body "art-1" "lib-1" "link-1" 9 p "art-1" r published_report)
    as (m & rest & Hd & Ha & Hh).
  - exact (proj1 (unused_publication_inv _ (proj1 idle_empty) (proj2 idle_empty))).
  - intros m rest p1 id1 r1 a1 _ _. split; [|intros n b _; exact (quiet_spares _ _ _ _)]. intros _. split.
    + intros i' r' Hr'. exfalso. cbn [quiet fst] in Hr'. rewrite (proj1 idle_empty) in Hr'. exact (lookup_empty_Some _ _ Hr').
    + intros i t ph Hs. exfalso. exact (lookup_empty_Some _ _ Hs).
  - exact Hp.
  - exists m, rest, p, r. split; [exact Hp|]. split; [exact Ha|]. split; [exact Hh|exact Hd].
Defined.

(** *** One request after another *)

Definition decoded_report : pub_metadata * stream :=
  ok_or (PubMetadata (PubIdentity "" "" "" "") (PubFile "" 0 ""), []) (_decode_publication_body report_length report_body).
Definition unfinished : system := unpublished idle.
Definition outcome_of (o : option system) : option (bool * option pystr * bool) :=
  s ← o; p ← as_publications (sy_state s) !! expected_publication_id "run-1" "call-1";
  Some (pb_published p, pb_artifact p, bool_decide (is_Some (files (as_store (sy_state s)) !! "workspaces/ws-1/artifacts/art-1/report.txt"))).

(** the request is made a second time while the first one stores its bytes; it waits, and finds them *)
Definition retried_trace : list action :=
  [Prepare decoded_report.1 "art-1"; Begin 0 0 decoded_report.2] ++ replicate 3 (Operate 0) ++ [Prepare decoded_report.1 "art-2"] ++ replicate 2 (Operate 0)
  ++ [Finish 0; Begin 1 0 decoded_report.2; Operate 1; Operate 1; Finish 1; Publish 0 "lib-1" "link-1"].
Lemma retried_outcome : outcome_of (exclusive_acts unused_name no_type retried_trace unfinished) = Some (true, Some "art-1", true).
Proof. vm_compute. reflexivity. Qed.
Lemma outcome_inv o published id stored : outcome_of o = Some (published, id, stored) -> exists s p, o = Some s
  /\ as_publications (sy_state s) !! expected_publication_id "run-1" "call-1" = Some p /\ pb_published p = published /\ pb_artifact p = id
  /\ bool_decide (is_Some (files (as_store (sy_state s)) !! "workspaces/ws-1/artifacts/art-1/report.txt")) = stored.
Proof.
  unfold outcome_of. generalize (expected_publication_id "run-1" "call-1") as k. intros k. destruct o as [s|]; [|done]. cbn [mbind option_bind].
  destruct (as_publications (sy_state s) !! k) as [p|] eqn:E; [|done]. intros [= <- <- <-]. exists s, p. auto.
Qed.
Lemma published_artifacts_have_their_bytes_witness : exists s' p i r,
  rtc (exclusive_step unused_name no_type) (unpublished idle) s' /\ pb_published p = true /\ pb_artifact p = Some i
  /\ artifacts (as_store (sy_state s')) !! i = Some r.
Proof.
  destruct (outcome_inv _ _ _ _ retried_outcome) as (s' & p & Hs%exclusive_acts_steps & Hk & Hp & _).
  destruct (published_artifacts_have_their_bytes unused_name no_type unused_name_free idle s' _ p (proj1 idle_empty) (proj2 idle_empty) Hs Hk Hp)
    as (i & r & Hi & Hr & _).
  exists s', p, i, r. split; [exact Hs|]. split; [exact Hp|]. split; [exact Hi|exact Hr].
Defined.

(** *** Two requests for one artifact *)

(** The second request finds the file the first one is writing, finds it incomplete, and is about to delete it when the
    first one completes and publishes it. *)
Definition racing_trace : list action :=
  [Prepare decoded_report.1 "art-1"; Prepare decoded_report.1 "art-2"; Begin 0 0 decoded_report.2; Operate 0; Operate 0; Begin 1 0 decoded_report.2] ++ replicate 4 (Operate 1)
  ++ replicate 3 (Operate 0) ++ [Finish 0; Publish 0 "lib-1" "link-1"; Operate 1].
Lemma racing_outcome : outcome_of (acts unused_name no_type racing_trace unfinished) = Some (true, Some "art-1", false).
Proof. vm_compute. reflexivity. Qed.
Lemma publication_refines_spec_witness : exists s', rtc (publication_step unused_name no_type) (unpublished idle) s'
  /\ rtc spec_step (abstract idle) (abstract (sy_state s')) /\ abstract idle = ∅ /\ abstract (sy_state s') <> ∅.
Proof.
  destruct (outcome_inv _ _ _ _ racing_outcome) as (s' & p & Hs%acts_steps & Hk & _). exists s'. split; [exact Hs|].
  split; [exact (publication_refines_spec unused_name no_type _ _ Hs)|]. split; [vm_compute; reflexivity|].
  intros E. assert (abstract (sy_state s') !! expected_publication_id "run-1" "call-1" = Some (row_contents p, pb_published p)) as H by (unfold abstract; rewrite lookup_fmap, Hk; reflexivity).
  rewrite E in H. exact (lookup_empty_Some _ _ H).
Defined.

(** Two requests that store the same artifact at the same time can leave a published artifact without its bytes: the
    handler that removes an invalid file ([publish_artifact], the [except] branch) checks and deletes in two steps. *)
Theorem concurrent_retry_deletes_published_bytes : exists s' p,
  rtc (publication_step unused_name no_type) (unpublished idle) s'
  /\ as_publications (sy_state s') !! expected_publication_id "run-1" "call-1" = Some p /\ pb_published p = true /\ pb_artifact p = Some "art-1"
  /\ files (as_store (sy_state s')) !! "workspaces/ws-1/artifacts/art-1/report.txt" = None.
Proof.
  destruct (outcome_inv _ _ _ _ racing_outcome) as (s' & p & Hs%acts_steps & Hk & Hp & Ha & Hf%bool_decide_eq_false%eq_None_not_Some). exists s', p. auto.
Qed.
