(* ===== verification/Definitions.v ===== *)
(** * Shared agent definitions

    The endpoints of [packages/api/app_core/http/agent_definitions.py], [agent_definitions.py] and the rows
    [AgentDefinition], [AgentDefinitionVersion] and [AgentDefinitionMember] of [models.py]: drafts that administrators
    edit, versions that are published from them, who may use a definition, and the agents made from it. *)

From stdpp Require Import base tactics list gmap numbers sorting.
From S2P Require Import Prelude PyStr Table Utf8 Sha256 Platform Schema Access AgentIdentity Delegation Lifecycle PyValue Json Contract Assets Plugins Hosted Sessions Inputs Messages.

(** ** Rows *)

(** The columns of [AgentDefinition] that its row in [Schema] does not have. *)
Record draft_row := Draft {
  df_name : pystr; df_description : pystr; df_instructions : pystr; df_avatar : pystr; df_plugins : list pystr;
  df_created_by : Z; df_created_at : Z }.
(** [AgentDefinitionVersion]: the columns a run reads, and the others *)
Record version_full := VersionFull {
  vf_row : version_row; vf_number : Z; vf_name : pystr; vf_description : pystr; vf_avatar : pystr;
  vf_published_by : Z; vf_published_at : Z }.
Record dstate := DState {
  ds_hosted : hosted; ds_drafts : gmap pystr draft_row; ds_versions : gmap pystr version_full }.
Definition ds_db (s : dstate) : db := h_db (ds_hosted s).
Definition ds_definitions (s : dstate) : gmap pystr definition_row := definitions (ds_db s).
Definition set_definitions f d := Db (users d) (workspaces d) (memberships d) (groups d) (group_members d) (sources d) (grants d)
  (invitations d) (f (definitions d)) (definition_members d) (agents d) (sessions d) (apps d) (delegations d).
Definition set_ds_db f (s : dstate) : dstate := DState (set_h_db f (ds_hosted s)) (ds_drafts s) (ds_versions s).
Definition set_ds_drafts f (s : dstate) : dstate := DState (ds_hosted s) (f (ds_drafts s)) (ds_versions s).
Definition set_ds_versions f (s : dstate) : dstate := DState (ds_hosted s) (ds_drafts s) (f (ds_versions s)).
Definition set_ds_hosted h (s : dstate) : dstate := DState h (ds_drafts s) (ds_versions s).

Inductive gexn := GRaised (e : exn) | GDelegation (e : dexn) | GPlugin (e : Plugins.pexn).
Definition glift {A} (m : res exn A) : res gexn A := catch m (fun e => Err (GRaised e)).
Definition gplugin {A} (m : res Plugins.pexn A) : res gexn A := catch m (fun e => Err (GPlugin e)).

Definition AVATARS : list pystr := ["centaeris"; "banana"].
Section definitions.
Context {PL : Platform}.

(** *** Saving *)

(** [AgentDefinition.save]: the draft as it is stored *)
Definition clean_draft (d : draft_row) : res gexn draft_row :=
  gplugin (validate_plugin_names (df_plugins d));;
  name ← glift (normalize_agent_name (df_name d));
  description ← glift (normalize_agent_description (df_description d));
  instructions ← glift (normalize_agent_instructions (df_instructions d));
  require (bool_decide (df_avatar d ∈ AVATARS)) (GRaised (ValueError "unsupported AgentDefinition.avatar_kind"));;
  Ok (Draft name description instructions (df_avatar d) (df_plugins d) (df_created_by d) (df_created_at d)).
(** the columns [save(update_fields=...)] writes; [None] writes them all *)
Abbreviation update_fields := (option (list pystr)).
Definition writes (fields : update_fields) (name : pystr) : bool := match fields with Some l => bool_decide (name ∈ l) | None => true end.
Definition stored_draft (fields : update_fields) (old : option draft_row) (d : draft_row) : draft_row :=
  match old with
  | None => d
  | Some o =>
      let col {A} name (get : draft_row -> A) := if writes fields name then get d else get o in
      Draft (col "name" df_name) (col "description" df_description) (col "instructions" df_instructions) (col "avatar_kind" df_avatar)
        (col "plugin_names" df_plugins) (df_created_by o) (df_created_at o)
  end.
(** the columns of the row are those of the stored row but for the ones the caller writes *)
Definition save_definition (id : pystr) (r : definition_row) (d : draft_row) (fields : update_fields) (s : dstate) : res gexn (draft_row * dstate) :=
  d ← clean_draft d;
  require match d_published_version r with
          | Some v => bool_decide (ve_definition ∘ vf_row <$> ds_versions s !! v = Some id)
          | None => true
          end (GRaised (ValueError "AgentDefinition published version binding mismatch"));;
  require match ds_definitions s !! id with Some old => bool_decide (d_workspace old = d_workspace r) | None => true end
    (GRaised (ValueError "AgentDefinition workspace is immutable"));;
  Ok (d, set_ds_drafts <[id := stored_draft fields (ds_drafts s !! id) d]> (set_ds_db (set_definitions <[id := r]>) s)).
Definition create_definition (id : pystr) (r : definition_row) (d : draft_row) (s : dstate) : res gexn (draft_row * dstate) :=
  require (bool_decide (ds_definitions s !! id = None)) (GRaised IntegrityError);;
  save_definition id r d None s.

(** [AgentDefinitionVersion.save] of a new row; stored rows are never written again *)
Definition create_version (id : pystr) (v : version_full) (s : dstate) : res gexn (version_full * dstate) :=
  gplugin (Plugins.plift (validate_plugin_activation (ve_activation (vf_row v))));;
  name ← glift (normalize_agent_name (vf_name v));
  description ← glift (normalize_agent_description (vf_description v));
  instructions ← glift (normalize_agent_instructions (ve_instructions (vf_row v)));
  require (bool_decide (vf_avatar v ∈ AVATARS)) (GRaised (ValueError "unsupported AgentDefinitionVersion.avatar_kind"));;
  require (0 <? vf_number v) (GRaised (ValueError "AgentDefinitionVersion version must be positive"));;
  let v := VersionFull (VersionRow (ve_definition (vf_row v)) instructions (ve_activation (vf_row v))) (vf_number v) name description (vf_avatar v)
    (vf_published_by v) (vf_published_at v) in
  require (bool_decide (ds_versions s !! id = None)
           && negb (qs_exists (fun w => bool_decide (ve_definition (vf_row w) = ve_definition (vf_row v)) && (vf_number w =? vf_number v)) (ds_versions s)))
    (GRaised IntegrityError);;
  Ok (v, set_ds_versions <[id := v]> s).

(** ** Requests *)

Inductive gbody :=
| GError (code : pystr)
| GDefinition (id : pystr) (r : definition_row) (d : draft_row) (members : list pystr)
| GDefinitions (l : list (pystr * (definition_row * draft_row)))
| GVersion (id : pystr) (v : version_full)
| GVersions (l : list (pystr * version_full))
| GAgent (id : pystr) (f : agent_full).
Inductive gresponse := GStatus (code : Z) (body : gbody).
Definition gerror (status : Z) (code : pystr) : gresponse := GStatus status (GError code).
Abbreviation definition_handler := (res gexn (gresponse * dstate)).
Definition gmissing : gresponse := gerror 404 "agent_definition_not_found".

Definition admin_member (s : dstate) (user : Z) (wid : pystr) (lock : bool) : res gexn (option (pystr * membership_row)) :=
  glift (if lock then locked_workspace_membership_for (identity (ds_hosted s)) user wid WORKSPACE_ADMIN_ROLES
         else workspace_membership_for (identity (ds_hosted s)) (Some user) wid WORKSPACE_ADMIN_ROLES).

Definition _admin_definition (s : dstate) (user : Z) (wid id : pystr) (lock : bool) : res gexn (option (definition_row * draft_row)) :=
  membership ← admin_member s user wid lock;
  Ok (membership ≫= fun _ =>
      r ← ds_definitions s !! id;
      d ← ds_drafts s !! id;
      if bool_decide (d_workspace r = wid) then Some (r, d) else None).

Definition member_ids (s : dstate) (id : pystr) : list pystr := merge_sort str_le (map snd (filter (fun p => p.1 = id) (elements (definition_members (ds_db s))))).
Definition definition_body (s : dstate) (id : pystr) (r : definition_row) (d : draft_row) : gbody := GDefinition id r d (member_ids s id).

(** [has_query] tells whether the request has a query string *)
Definition list_agent_definitions (s : dstate) (user : Z) (wid : pystr) (has_query : bool) : definition_handler :=
  membership ← admin_member s user wid false;
  match membership with
  | None => Ok (gerror 404 "workspace_not_found", s)
  | Some _ =>
      if has_query then Ok (gerror 400 "agent_definition_invalid", s)
      else
        let rows := omap (fun x => d ← ds_drafts s !! x.1; Some (x.1, (x.2, d))) (qs_list (fun r => bool_decide (d_workspace r = wid)) (ds_definitions s)) in
        Ok (GStatus 200 (GDefinitions (order_by Z.le (fun x => df_created_at x.2) rows)), s)
  end.

(** [validate_plugins]: the plugin names of a request are sorted when it is parsed *)
Definition validate_plugins (names : list pystr) : res Plugins.pexn (list pystr) :=
  let names := merge_sort str_le names in
  validate_plugin_names names;;
  Ok names.
Definition create_agent_definition (ps : plugin_state) (s : dstate) (user : Z) (wid name description instructions avatar : pystr) (plugins : list pystr)
    (new_id : pystr) (now : Z) : definition_handler :=
  membership ← admin_member s user wid true;
  match membership with
  | None => Ok (gerror 404 "workspace_not_found", s)
  | Some _ =>
      match selected_plugin_activation (ps_root ps) (ps_enabled ps) wid plugins with
      | Err (PValueError _) => Ok (gerror 400 "agent_definition_plugin_not_enabled", s)
      | Err e => Err (GPlugin e)
      | Ok _ =>
          let r := Definition_ wid DefinitionActive AvailableNone None in
          p ← create_definition new_id r (Draft name description instructions avatar plugins user now) s;
          Ok (GStatus 201 (definition_body p.2 new_id r p.1), p.2)
      end
  end.

Definition get_agent_definition (s : dstate) (user : Z) (wid id : pystr) (has_query : bool) : definition_handler :=
  found ← _admin_definition s user wid id false;
  match found with
  | None => Ok (gmissing, s)
  | Some (r, d) => if has_query then Ok (gerror 400 "agent_definition_invalid", s) else Ok (GStatus 200 (definition_body s id r d), s)
  end.

(** A field is absent, or set, possibly to null. *)
Record update_definition_request := UpdateDefinition {
  ud_agent : update_agent_request; ud_status : option (option definition_status); ud_plugins : option (option (list pystr)) }.
Definition ud_fields (p : update_definition_request) : list pystr :=
  let a := ud_agent p in
  let named {A} (name : pystr) (field : option A) := match field with Some _ => [name] | None => [] end in
  named "name" (ua_name a) ++ named "description" (ua_description a) ++ named "instructions" (ua_instructions a) ++ named "avatar_kind" (ua_avatar a)
  ++ named "status" (ud_status p) ++ named "plugin_names" (ud_plugins p).
Definition ud_empty (p : update_definition_request) : bool :=
  bool_decide (ud_fields p = []).
Definition ud_null (p : update_definition_request) : bool :=
  existsb (fun v => bool_decide (v = None)) (ua_values (ud_agent p)) || bool_decide (ud_status p = Some None) || bool_decide (ud_plugins p = Some None).
Definition draft_after (p : update_definition_request) (d : draft_row) : draft_row :=
  let a := ud_agent p in
  Draft (field_after (df_name d) (ua_name a)) (field_after (df_description d) (ua_description a)) (field_after (df_instructions d) (ua_instructions a))
    (field_after (df_avatar d) (ua_avatar a)) (default (df_plugins d) (default None (ud_plugins p))) (df_created_by d) (df_created_at d).

Definition update_agent_definition (ps : plugin_state) (s : dstate) (user : Z) (wid id : pystr) (p : update_definition_request) : definition_handler :=
  if ud_empty p || ud_null p then Ok (gerror 400 "agent_definition_invalid", s)
  else
    found ← _admin_definition s user wid id true;
    match found with
    | None => Ok (gmissing, s)
    | Some (r, d) =>
        let save :=
          let r := Definition_ (d_workspace r) (default (d_status r) (default None (ud_status p))) (d_scope r) (d_published_version r) in
          x ← save_definition id r (draft_after p d) (Some (ud_fields p)) s;
          Ok (GStatus 200 (definition_body x.2 id r x.1), x.2) in
        match ud_plugins p with
        | Some (Some names) =>
            match selected_plugin_activation (ps_root ps) (ps_enabled ps) wid names with
            | Err (PValueError _) => Ok (gerror 400 "agent_definition_plugin_not_enabled", s)
            | Err e => Err (GPlugin e)
            | Ok _ => save
            end
        | _ => save
        end
    end.

Definition versions_of (s : dstate) (id : pystr) : list (pystr * version_full) :=
  qs_list (fun v => bool_decide (ve_definition (vf_row v) = id)) (ds_versions s).
Definition list_agent_definition_versions (s : dstate) (user : Z) (wid id : pystr) (has_query : bool) : definition_handler :=
  found ← _admin_definition s user wid id false;
  match found with
  | None => Ok (gmissing, s)
  | Some _ => if has_query then Ok (gerror 400 "agent_definition_invalid", s) else Ok (GStatus 200 (GVersions (order_by Z.le vf_number (versions_of s id))), s)
  end.

(** [aggregate(Max("version")) or 0] *)
Definition latest_version (s : dstate) (id : pystr) : Z := foldr Z.max 0 (map (vf_number ∘ snd) (versions_of s id)).

Definition publish_agent_definition (ps : plugin_state) (s : dstate) (user : Z) (wid id new_id : pystr) (now : Z) : definition_handler :=
  found ← _admin_definition s user wid id true;
  match found with
  | None => Ok (gmissing, s)
  | Some (r, d) =>
      match selected_plugin_activation (ps_root ps) (ps_enabled ps) wid (df_plugins d) with
      | Err (PValueError _) => Ok (gerror 409 "agent_definition_capability_unavailable", s)
      | Err e => Err (GPlugin e)
      | Ok activation =>
          x ← create_version new_id (VersionFull (VersionRow id (df_instructions d) activation) (latest_version s id + 1) (df_name d) (df_description d)
                (df_avatar d) user now) s;
          y ← save_definition id (Definition_ (d_workspace r) (d_status r) (d_scope r) (Some new_id)) d (Some ["published_version"]) x.2;
          Ok (GStatus 201 (GVersion new_id x.1), y.2)
      end
  end.

(** the request has no duplicates, and member identities only with the scope members *)
Definition validate_scope (scope : availability) (ids : list pystr) : bool :=
  bool_decide (NoDup ids) && (bool_decide (scope = AvailableMembers) || bool_decide (ids = [])).
Definition set_agent_definition_availability (s : dstate) (user : Z) (wid id : pystr) (scope : availability) (ids : list pystr) : definition_handler :=
  found ← _admin_definition s user wid id true;
  match found with
  | None => Ok (gmissing, s)
  | Some (r, d) =>
      if negb (forallb (fun mid => bool_decide (m_workspace <$> memberships (ds_db s) !! mid = Some wid)) ids)
      then Ok (gerror 400 "agent_definition_members_invalid", s)
      else
        let s1 := set_ds_db (set_definition_members (fun t => list_to_set (map (pair id) ids) ∪ filter (fun p => p.1 <> id) t)) s in
        let r := Definition_ (d_workspace r) (d_status r) scope (d_published_version r) in
        x ← save_definition id r d (Some ["availability_scope"]) s1;
        Ok (GStatus 200 (definition_body x.2 id r x.1), x.2)
  end.

(** ** Using a definition *)

(** [available_agent_definitions], ordered, with their published versions *)
Definition available_definitions (s : dstate) (mid : pystr) (m : membership_row) : list (pystr * version_full) :=
  let rows := omap (fun x => d ← ds_drafts s !! x.1; v ← d_published_version x.2; w ← ds_versions s !! v; Some (x.1, (df_created_at d, v, w)))
    (qs_list (fun _ => true) (filter (fun x => definition_available (identity (ds_hosted s)) mid m x.1 = true) (ds_definitions s))) in
  map (fun x => (x.2.1.2, x.2.2)) (order_by Z.le (fun x => x.1.1) rows).

Definition list_available_agent_definitions (s : dstate) (user : Z) (wid : pystr) (grant : app_delegation) (has_query : bool) : definition_handler :=
  membership ← glift (member_of (ds_hosted s) user wid);
  match membership with
  | None => Ok (gerror 404 "workspace_not_found", s)
  | Some (mid, m) =>
      if has_query then Ok (gerror 400 "agent_definition_invalid", s)
      else
        let listed := available_definitions s mid m in
        Ok (GStatus 200 (GVersions match grant with
                                   | Some (_, g) => filter (fun x => ve_definition (vf_row x.2) = dl_definition g) listed
                                   | None => listed
                                   end), s)
  end.

(** the agent the user has from a definition *)
Definition instance_of (h : hosted) (wid : pystr) (user : Z) (id : pystr) : option (pystr * agent_full) :=
  qs_first (fun f => bool_decide (a_workspace (af_row f) = wid) && (a_owner (af_row f) =? user) && bool_decide (a_definition (af_row f) = Some id)) (h_agents h).

Definition use_agent_definition (s : dstate) (user : Z) (wid id : pystr) (grant_id : option pystr) (ids : list pystr) (now : Z) : definition_handler :=
  let h := ds_hosted s in
  membership ← glift (locked_member h user wid);
  match membership with
  | None => Ok (gerror 404 "workspace_not_found", s)
  | Some (mid, m) =>
      catch (require_request_delegation (identity h) grant_id "assistant:use" (Some wid) None None [] true now) (fun e => Err (GDelegation e));;
      if negb (definition_available (identity h) mid m id) then Ok (gerror 404 "agent_definition_not_available", s)
      else
        version ← from_option_res (GRaised DoesNotExist) (r ← ds_definitions s !! id; v ← d_published_version r; ds_versions s !! v);
        match instance_of h wid user id with
        | Some (k, f) =>
            if bool_decide (a_status (af_row f) = Deleted) then Ok (gerror 410 "agent_deleted", s) else Ok (GStatus 200 (GAgent k f), s)
        | None =>
            p ← glift (create_agent_row ids (Agent wid user (Some id) (vf_name version) (vf_description version) (ve_instructions (vf_row version)) Active now)
                         (vf_avatar version) h);
            let '(k, f, h') := p in
            Ok (GStatus 201 (GAgent k f), set_ds_hosted h' s)
        end
  end.
End definitions.
