(* ===== verification/DefinitionsProps.v ===== *)
(** * Correctness of shared agent definitions

    Administrators draft, publish and offer definitions while members use them.  The versions of a definition are
    numbered from one without gaps, never change and the newest one is the published one; the offer a member sees is
    the one an administrator set; a member has at most one agent of a definition and keeps it. *)

From stdpp Require Import base tactics list gmap numbers sorting relations.
From S2P Require Import Prelude PyStr Table Utf8 Sha256 Platform Schema Access AgentIdentity Delegation Lifecycle PyValue Json Contract ContractProps Assets Plugins Hosted Sessions Inputs Messages HostedInv HostedProps Definitions.

Create HintDb defs.

(** ** The newest version *)

Lemma plift_Ok {A} (m : res cexn A) a : Plugins.plift m = Ok a <-> m = Ok a.
Proof. unfold Plugins.plift. destruct m as [|[]]; cbn; naive_solver. Qed.

Section latest.
Implicit Types (s : dstate) (id v : pystr) (w : version_full).

Definition version_of s id v w : Prop := ds_versions s !! v = Some w /\ ve_definition (vf_row w) = id.
Lemma elem_of_versions s id v w : (v, w) ∈ versions_of s id <-> version_of s id v w.
Proof. unfold versions_of, version_of. rewrite elem_of_qs_list. by rewrite bool_decide_eq_true. Qed.

Lemma foldr_max_spec (l : list Z) : 0 <= foldr Z.max 0 l /\ (forall n, n ∈ l -> n <= foldr Z.max 0 l) /\ (foldr Z.max 0 l = 0 \/ foldr Z.max 0 l ∈ l).
Proof.
  induction l as [|x l (IH0 & IH1 & IH2)]; cbn [foldr]; [set_solver by lia|]. split_and!; [lia| |].
  - intros n [->|Hn]%elem_of_cons; [lia|]. specialize (IH1 _ Hn). lia.
  - destruct (Z.max_spec x (foldr Z.max 0 l)) as [[_ ->]|[_ ->]]; set_solver.
Qed.

(** [latest_version] is the largest number in use, or zero. *)
Record is_latest s id (n : Z) : Prop := IsLatest {
  il_nonneg : 0 <= n;
  il_bound : forall v w, version_of s id v w -> vf_number w <= n;
  il_reached : n = 0 \/ exists v w, version_of s id v w /\ vf_number w = n }.
Lemma latest_is_latest s id : is_latest s id (latest_version s id).
Proof.
  unfold latest_version. destruct (foldr_max_spec (map (vf_number ∘ snd) (versions_of s id))) as (H0 & H1 & H2). split; [done| |].
  - intros v w Hw. apply H1. apply list_elem_of_fmap. exists (v, w). by rewrite elem_of_versions.
  - destruct H2 as [H2|([v w] & Hn & Hin)%list_elem_of_fmap]; [by left|]. right. exists v, w. by rewrite <- elem_of_versions.
Qed.
Lemma is_latest_unique s id n m : is_latest s id n -> is_latest s id m -> n = m.
Proof.
  intros [N1 N2 N3] [M1 M2 M3].
  assert (n <= m) by (destruct N3 as [->|(v & w & Hw & <-)]; eauto). assert (m <= n) by (destruct M3 as [->|(v & w & Hw & <-)]; eauto). lia.
Qed.
Lemma latest_frame s s' id : ds_versions s' = ds_versions s -> latest_version s' id = latest_version s id.
Proof. intros E. unfold latest_version, versions_of. by rewrite E. Qed.
Lemma latest_none s id : (forall v w, ~ version_of s id v w) -> latest_version s id = 0.
Proof. intros Hn. apply (is_latest_unique s id); [apply latest_is_latest|]. split; [done| |by left]. intros v w Hw. by destruct (Hn v w). Qed.
(** a new version numbered above the others *)
Lemma latest_insert s s' id v w :
  ds_versions s' = <[v := w]> (ds_versions s) -> ds_versions s !! v = None -> vf_number w = latest_version s (ve_definition (vf_row w)) + 1 ->
  latest_version s' id = if decide (ve_definition (vf_row w) = id) then vf_number w else latest_version s id.
Proof.
  intros E Hv Hn. pose proof (latest_is_latest s id) as [L0 L1 L2]. apply (is_latest_unique s' id); [apply latest_is_latest|].
  assert (Hof : forall v' w', version_of s' id v' w' <-> (v' = v /\ w' = w /\ ve_definition (vf_row w) = id) \/ version_of s id v' w').
  { intros v' w'. unfold version_of. rewrite E, lookup_insert_Some. destruct (decide (v = v')) as [<-|]; naive_solver. }
  case_decide as Hid; split; try done.
  - subst id. lia.
  - intros v' w' [(-> & -> & _)|Hw]%Hof; [done|]. specialize (L1 _ _ Hw). subst id. lia.
  - right. exists v, w. rewrite Hof. eauto.
  - intros v' w' [(_ & _ & ?)|Hw]%Hof; [done|]. eauto.
  - destruct L2 as [L2|(v' & w' & Hw & Hn')]; [by left|]. right. exists v', w'. rewrite Hof. eauto.
Qed.
End latest.
#[global] Hint Resolve latest_is_latest : defs.

(** ** The invariant *)

Section invariant.
Context {PL : Platform}.

Record definitions_inv (s : dstate) : Prop := DefinitionsInv {
  di_drafts : forall id, is_Some (ds_definitions s !! id) <-> is_Some (ds_drafts s !! id);
  di_owner : forall (v : pystr) w, ds_versions s !! v = Some w -> is_Some (ds_definitions s !! ve_definition (vf_row w));
  (** the numbers are 1, 2, ..., [latest_version], each used once *)
  di_numbers : forall id n, 1 <= n <= latest_version s id -> exists v w, version_of s id v w /\ vf_number w = n;
  di_positive : forall (v : pystr) w, ds_versions s !! v = Some w -> 1 <= vf_number w;
  di_unique : forall id v w v' w', version_of s id v w -> version_of s id v' w' -> vf_number w = vf_number w' -> v = v';
  (** what is published is the newest version of the definition *)
  di_published : forall id r, ds_definitions s !! id = Some r ->
    match d_published_version r with
    | Some v => exists w, version_of s id v w /\ vf_number w = latest_version s id
    | None => latest_version s id = 0
    end;
  di_activation : forall (v : pystr) w, ds_versions s !! v = Some w -> validate_plugin_activation (ve_activation (vf_row w)) = Ok tt }.

(** What a request may do to the definitions and the versions. *)
Inductive definitions_change (s s' : dstate) : Prop :=
| dc_same : ds_definitions s' = ds_definitions s -> ds_drafts s' = ds_drafts s -> ds_versions s' = ds_versions s -> definitions_change s s'
| dc_saved id r d old : ds_definitions s !! id = Some old -> d_workspace r = d_workspace old -> d_published_version r = d_published_version old ->
    ds_definitions s' = <[id := r]> (ds_definitions s) -> ds_drafts s' = <[id := d]> (ds_drafts s) -> ds_versions s' = ds_versions s -> definitions_change s s'
| dc_created id r d : ds_definitions s !! id = None -> d_published_version r = None ->
    ds_definitions s' = <[id := r]> (ds_definitions s) -> ds_drafts s' = <[id := d]> (ds_drafts s) -> ds_versions s' = ds_versions s -> definitions_change s s'
| dc_published id r d old v w : ds_definitions s !! id = Some old -> d_workspace r = d_workspace old -> d_published_version r = Some v ->
    ds_definitions s' = <[id := r]> (ds_definitions s) -> ds_drafts s' = <[id := d]> (ds_drafts s) ->
    ds_versions s' = <[v := w]> (ds_versions s) -> ds_versions s !! v = None -> ve_definition (vf_row w) = id -> vf_number w = latest_version s id + 1 ->
    validate_plugin_activation (ve_activation (vf_row w)) = Ok tt -> definitions_change s s'.
#[local] Hint Constructors definitions_change : defs.

Lemma insert_is_Some {A} (m : gmap pystr A) k x k' : is_Some (<[k := x]> m !! k') <-> k' = k \/ is_Some (m !! k').
Proof. rewrite lookup_insert_is_Some. destruct (decide (k = k')); naive_solver. Qed.

Lemma saved_inv s s' id r d :
  definitions_inv s -> ds_definitions s' = <[id := r]> (ds_definitions s) -> ds_drafts s' = <[id := d]> (ds_drafts s) -> ds_versions s' = ds_versions s ->
  match d_published_version r with
  | Some v => exists w, version_of s id v w /\ vf_number w = latest_version s id
  | None => latest_version s id = 0
  end -> definitions_inv s'.
Proof.
  intros [I1 I2 I3 I4 I5 I6 I7] D F V P.
  assert (L : forall i, latest_version s' i = latest_version s i) by (intros; by apply latest_frame).
  assert (O : forall i v w, version_of s' i v w <-> version_of s i v w) by (intros; unfold version_of; by rewrite V).
  constructor; try (setoid_rewrite O; try setoid_rewrite L; done); try (rewrite V; done).
  - intros i. rewrite D, F, !insert_is_Some, I1. done.
  - intros v w. rewrite V, D, insert_is_Some. eauto.
  - intros i r'. rewrite D, lookup_insert_Some, L. intros [[<- <-]|[_ Hi]]; [|specialize (I6 _ _ Hi)];
      destruct (d_published_version _); try done; [destruct P as (w & ? & ?)|destruct I6 as (w & ? & ?)]; exists w; by rewrite O.
Qed.

Lemma published_inv s s' id r d v w :
  definitions_inv s -> is_Some (ds_definitions s !! id) -> d_published_version r = Some v ->
  ds_definitions s' = <[id := r]> (ds_definitions s) -> ds_drafts s' = <[id := d]> (ds_drafts s) ->
  ds_versions s' = <[v := w]> (ds_versions s) -> ds_versions s !! v = None -> ve_definition (vf_row w) = id -> vf_number w = latest_version s id + 1 ->
  validate_plugin_activation (ve_activation (vf_row w)) = Ok tt -> definitions_inv s'.
Proof.
  intros [I1 I2 I3 I4 I5 I6 I7] Hid P D F V Hv Hw Hn Ha.
  assert (L : forall i, latest_version s' i = if decide (id = i) then vf_number w else latest_version s i) by (intros; subst id; by eapply latest_insert).
  assert (O : forall i v' w', version_of s' i v' w' <-> (v' = v /\ w' = w /\ id = i) \/ version_of s i v' w').
  { intros i v' w'. unfold version_of. rewrite V, lookup_insert_Some. destruct (decide (v = v')) as [<-|]; naive_solver. }
  assert (B : forall i v' w', version_of s i v' w' -> vf_number w' <= latest_version s i) by (intros i; apply (il_bound _ _ _ (latest_is_latest s i))).
  pose proof (il_nonneg _ _ _ (latest_is_latest s id)) as H0.
  constructor.
  - intros i. rewrite D, F, !insert_is_Some, I1. done.
  - intros v' w'. rewrite V, D, insert_is_Some, lookup_insert_Some. intros [[<- <-]|[_ Hk]]; eauto.
  - intros i n Hr. rewrite L in Hr. case_decide as Hi; [subst i|].
    + destruct (decide (n = vf_number w)) as [->|]; [exists v, w; rewrite O; eauto|].
      destruct (I3 id n ltac:(lia)) as (v' & w' & Hw' & <-). exists v', w'. rewrite O. eauto.
    + destruct (I3 i n Hr) as (v' & w' & Hw' & <-). exists v', w'. rewrite O. eauto.
  - intros v' w'. rewrite V, lookup_insert_Some. intros [[<- <-]|[_ Hk]]; [lia|eauto].
  - intros i v1 w1 v2 w2 [(-> & -> & <-)|H1]%O [(-> & -> & Hi)|H2]%O E; eauto.
    + specialize (B _ _ _ H2). lia.
    + subst. specialize (B _ _ _ H1). lia.
  - intros i r'. rewrite D, lookup_insert_Some, L. intros [[<- <-]|[Hne Hi]].
    + rewrite P, decide_True by done. exists w. rewrite O. eauto.
    + rewrite decide_False by done. specialize (I6 _ _ Hi). destruct (d_published_version r'); [|done]. destruct I6 as (w' & Hw' & ?). exists w'. rewrite O. eauto.
  - intros v' w'. rewrite V, lookup_insert_Some. intros [[<- <-]|[_ Hk]]; eauto.
Qed.

Lemma change_inv s s' : definitions_inv s -> definitions_change s s' -> definitions_inv s'.
Proof.
  intros Hi [D F V|id r d old Ho Hw Hp D F V|id r d Hn Hp D F V|id r d old v w Ho Hw Hp D F V Hv Hd Hnum Ha].
  - destruct Hi as [I1 I2 I3 I4 I5 I6 I7].
    assert (L : forall i, latest_version s' i = latest_version s i) by (intros; by apply latest_frame).
    constructor; unfold version_of; rewrite ?D, ?F, ?V; try done.
    + intros i n. rewrite L. apply I3.
    + intros i r Hr. rewrite L. exact (I6 i r Hr).
  - eapply saved_inv; try eassumption. rewrite Hp. by apply (di_published _ Hi).
  - eapply saved_inv; try eassumption. rewrite Hp. apply latest_none. intros v w [Hv <-]. apply (di_owner _ Hi) in Hv as [? Hv]. congruence.
  - eapply published_inv; eauto.
Qed.

(** Versions are never changed or removed, and a definition keeps its workspace. *)
Definition definitions_kept (s s' : dstate) : Prop :=
  ds_versions s ⊆ ds_versions s' /\ forall id r, ds_definitions s !! id = Some r -> exists r', ds_definitions s' !! id = Some r' /\ d_workspace r' = d_workspace r.
#[global] Instance definitions_kept_preorder : PreOrder definitions_kept.
Proof.
  split; [intros s; split; eauto|]. intros s1 s2 s3 [V1 D1] [V2 D2]. split; [by etrans|].
  intros id r Hr. destruct (D1 _ _ Hr) as (r2 & Hr2 & E2). destruct (D2 _ _ Hr2) as (r3 & Hr3 & E3). exists r3. split; congruence.
Qed.
Lemma change_kept s s' : definitions_change s s' -> definitions_kept s s'.
Proof.
  assert (Hins : forall id r old, ds_definitions s !! id = Some old -> d_workspace r = d_workspace old -> ds_definitions s' = <[id := r]> (ds_definitions s) ->
    forall i x, ds_definitions s !! i = Some x -> exists x', ds_definitions s' !! i = Some x' /\ d_workspace x' = d_workspace x).
  { intros id r old Ho Hw D i x Hx. rewrite D. destruct (decide (i = id)) as [->|]; [rewrite lookup_insert_eq|rewrite lookup_insert_ne by done]; naive_solver. }
  intros [D F V|id r d old Ho Hw Hp D F V|id r d Hn Hp D F V|id r d old v w Ho Hw Hp D F V Hv Hd Hnum Ha]; split; rewrite ?V; eauto.
  - rewrite D. eauto.
  - intros i x Hx. exists x. rewrite D, lookup_insert_ne by congruence. done.
  - by apply insert_subseteq.
Qed.

(** ** The endpoints *)

Lemma admin_definition_found s user wid id lock r d :
  _admin_definition s user wid id lock = Ok (Some (r, d)) -> ds_definitions s !! id = Some r /\ ds_drafts s !! id = Some d /\ d_workspace r = wid.
Proof.
  unfold _admin_definition. intros H. walk H. destruct x; cbn in H; [|done].
  destruct (ds_definitions s !! id); [|done]. destruct (ds_drafts s !! id); [|done]. cbn in H. case_bool_decide; naive_solver.
Qed.

Lemma save_definition_spec id r d fields s d' s' :
  save_definition id r d fields s = Ok (d', s') ->
  clean_draft d = Ok d' /\ ds_definitions s' = <[id := r]> (ds_definitions s) /\ ds_drafts s' = <[id := stored_draft fields (ds_drafts s !! id) d']> (ds_drafts s) /\
  ds_versions s' = ds_versions s /\ h_agents (ds_hosted s') = h_agents (ds_hosted s) /\
  definition_members (ds_db s') = definition_members (ds_db s) /\ memberships (ds_db s') = memberships (ds_db s).
Proof. unfold save_definition. intros H. walk H. done. Qed.

Lemma create_version_spec id v s v' s' :
  create_version id v s = Ok (v', s') ->
  s' = set_ds_versions <[id := v']> s /\ ds_versions s !! id = None /\ vf_number v' = vf_number v /\ ve_definition (vf_row v') = ve_definition (vf_row v) /\
  ve_activation (vf_row v') = ve_activation (vf_row v) /\ validate_plugin_activation (ve_activation (vf_row v')) = Ok tt /\
  glift (normalize_agent_name (vf_name v)) = Ok (vf_name v') /\ glift (normalize_agent_description (vf_description v)) = Ok (vf_description v') /\
  glift (normalize_agent_instructions (ve_instructions (vf_row v))) = Ok (ve_instructions (vf_row v')) /\ vf_avatar v' = vf_avatar v.
Proof.
  unfold create_version. intros H. walk H. res_inv. bool_inv. cbn. split_and!; try done.
  match goal with H : gplugin _ = Ok ?u |- _ => destruct u; by apply catch_lift_Ok, plift_Ok in H end.
Qed.
Lemma clean_draft_spec d name description instructions d' :
  glift (normalize_agent_name (df_name d)) = Ok name -> glift (normalize_agent_description (df_description d)) = Ok description ->
  glift (normalize_agent_instructions (df_instructions d)) = Ok instructions -> clean_draft d = Ok d' ->
  d' = Draft name description instructions (df_avatar d) (df_plugins d) (df_created_by d) (df_created_at d).
Proof. unfold clean_draft. intros E1 E2 E3 H. rewrite E1, E2, E3 in H. by walk H. Qed.

Lemma create_change ps s user wid name description instructions avatar plugins new_id now resp s' :
  create_agent_definition ps s user wid name description instructions avatar plugins new_id now = Ok (resp, s') -> definitions_change s s'.
Proof.
  unfold create_agent_definition, create_definition. intros H. walk H; eauto with defs. destruct x0 as [d' s1]. res_inv. bool_inv.
  match goal with H : save_definition _ _ _ _ _ = Ok _ |- _ => apply save_definition_spec in H as (_ & D & F & V & _) end.
  eapply dc_created; try exact D; try exact F; eauto.
Qed.
Lemma saved_change s id r d fields s1 old d' s' :
  save_definition id r d fields s1 = Ok (d', s') -> ds_definitions s !! id = Some old -> d_workspace r = d_workspace old -> d_published_version r = d_published_version old ->
  ds_definitions s1 = ds_definitions s -> ds_drafts s1 = ds_drafts s -> ds_versions s1 = ds_versions s -> definitions_change s s'.
Proof.
  intros (_ & D & F & V & _)%save_definition_spec Ho Hw Hp D1 F1 V1. rewrite D1 in D. rewrite F1 in F. rewrite V1 in V. eapply dc_saved; eauto.
Qed.
Lemma update_change ps s user wid id p resp s' : update_agent_definition ps s user wid id p = Ok (resp, s') -> definitions_change s s'.
Proof.
  unfold update_agent_definition. intros H. walk H; eauto with defs.
  all: match goal with H : _admin_definition _ _ _ _ _ = _ |- _ => apply admin_definition_found in H as (Hr & _ & _) end.
  all: match goal with H : save_definition _ _ _ _ _ = Ok ?x |- _ => destruct x; eapply saved_change; try exact H; eauto end.
Qed.
Lemma availability_change s user wid id scope ids resp s' :
  set_agent_definition_availability s user wid id scope ids = Ok (resp, s') -> definitions_change s s'.
Proof.
  unfold set_agent_definition_availability. intros H. walk H; eauto with defs.
  match goal with H : _admin_definition _ _ _ _ _ = _ |- _ => apply admin_definition_found in H as (Hr & _ & _) end.
  match goal with H : save_definition _ _ _ _ _ = Ok ?x |- _ => destruct x; eapply saved_change; try exact H; eauto end.
Qed.

(** Publishing: the draft, cleaned, under the next number. *)
Lemma publish_definition_spec ps s user wid id new_id now resp s' :
  publish_agent_definition ps s user wid id new_id now = Ok (resp, s') ->
  (s' = s /\ exists code e, resp = gerror code e) \/
  exists r d w activation, resp = GStatus 201 (GVersion new_id w) /\ ds_definitions s !! id = Some r /\ ds_drafts s !! id = Some d /\ d_workspace r = wid /\
    selected_plugin_activation (ps_root ps) (ps_enabled ps) wid (df_plugins d) = Ok activation /\
    ds_versions s !! new_id = None /\ ds_versions s' = <[new_id := w]> (ds_versions s) /\
    ds_definitions s' = <[id := Definition_ (d_workspace r) (d_status r) (d_scope r) (Some new_id)]> (ds_definitions s) /\
    ve_definition (vf_row w) = id /\ vf_number w = latest_version s id + 1 /\ ve_activation (vf_row w) = activation /\
    validate_plugin_activation activation = Ok tt /\ clean_draft d = Ok (Draft (vf_name w) (vf_description w) (ve_instructions (vf_row w)) (vf_avatar w) (df_plugins d)
      (df_created_by d) (df_created_at d)) /\ (exists d', ds_drafts s' = <[id := d']> (ds_drafts s)) /\ h_agents (ds_hosted s') = h_agents (ds_hosted s).
Proof.
  unfold publish_agent_definition, gmissing. intros H. walk H; eauto.
  destruct x0 as [w s1], x1 as [d' s2]. right.
  match goal with H : _admin_definition _ _ _ _ _ = _ |- _ => apply admin_definition_found in H as (Hr & Hd & Hw) end.
  match goal with H : create_version _ _ _ = _ |- _ => apply create_version_spec in H as (-> & Hv & Hn & Hdef & Hact & Hok & E1 & E2 & E3 & E4) end.
  match goal with H : save_definition _ _ _ _ _ = _ |- _ => apply save_definition_spec in H as (Hc & D & F & V & A & _) end.
  pose proof (clean_draft_spec _ _ _ _ _ E1 E2 E3 Hc) as ->. cbn in *. eexists _, _, w, _. rewrite E4. rewrite Hact in Hok. subst. split_and!; eauto.
Qed.
Lemma publish_change ps s user wid id new_id now resp s' : publish_agent_definition ps s user wid id new_id now = Ok (resp, s') -> definitions_change s s'.
Proof.
  intros [[-> _]|(r & d & w & a & _ & Hr & _ & _ & _ & Hv & V & D & Hid & Hn & <- & Ha & _ & [d' F] & _)]%publish_definition_spec; [eauto with defs|].
  eapply dc_published; try exact D; eauto.
Qed.

(** ** Agents of a definition *)

Abbreviation same_identity f f' :=
  (a_workspace (af_row f') = a_workspace (af_row f) /\ a_owner (af_row f') = a_owner (af_row f) /\ a_definition (af_row f') = a_definition (af_row f)).
(** a user has at most one agent of a definition in a workspace *)
Definition one_instance (s : dstate) : Prop := forall k k' f f', h_agents (ds_hosted s) !! k = Some f -> h_agents (ds_hosted s) !! k' = Some f' ->
  is_Some (a_definition (af_row f)) -> same_identity f f' -> k = k'.
(** agents stay, and those of a definition are only made by using it *)
Record agents_kept (s s' : dstate) : Prop := AgentsKept {
  ak_kept : forall k f, h_agents (ds_hosted s) !! k = Some f -> exists f', h_agents (ds_hosted s') !! k = Some f' /\ same_identity f f';
  ak_old : forall k f', h_agents (ds_hosted s') !! k = Some f' -> is_Some (a_definition (af_row f')) -> is_Some (h_agents (ds_hosted s) !! k) }.
Lemma agents_same_kept s s' : h_agents (ds_hosted s') = h_agents (ds_hosted s) -> agents_kept s s'.
Proof. intros E. split; rewrite E; eauto. Qed.
Lemma agents_kept_one s s' : one_instance s -> agents_kept s s' -> one_instance s'.
Proof.
  intros H1 [Hk Ho] k k' f f' Hf Hf' Hd (W & O & D). rewrite <- D in Hd. destruct (Ho _ _ Hf' Hd) as [g' Hg']. rewrite D in Hd. destruct (Ho _ _ Hf Hd) as [g Hg].
  destruct (Hk _ _ Hg) as (f1 & Hf1 & W1 & O1 & D1). destruct (Hk _ _ Hg') as (f2 & Hf2 & W2 & O2 & D2). simplify_eq.
  apply (H1 k k' g g' Hg Hg'); [by rewrite <- D1|]. split_and!; congruence.
Qed.

(** What using a definition does: the user's agent of it, or a new one. *)
Definition instance (s : dstate) (wid : pystr) (user : Z) (id k : pystr) (f : agent_full) : Prop :=
  h_agents (ds_hosted s) !! k = Some f /\ a_workspace (af_row f) = wid /\ a_owner (af_row f) = user /\ a_definition (af_row f) = Some id.
Lemma instance_of_Some s wid user id k f : instance_of (ds_hosted s) wid user id = Some (k, f) -> instance s wid user id k f.
Proof. unfold instance_of. intros [Hk Hp]%qs_first_Some. bool_inv. split_and!; try done; lia. Qed.
Lemma instance_of_None s wid user id : instance_of (ds_hosted s) wid user id = None -> forall k f, ~ instance s wid user id k f.
Proof.
  unfold instance_of. rewrite qs_first_None. intros H k f (Hk & Hw & Ho & Hd). specialize (H _ _ Hk). rewrite Hw, Hd, Ho, Z.eqb_refl, !bool_decide_eq_true_2 in H by done. done.
Qed.
Lemma create_agent_row_spec ids r avatar h k f h' :
  create_agent_row ids r avatar h = Ok (k, f, h') ->
  h' = set_h_agents <[k := f]> h /\ h_agents h !! k = None /\ a_workspace (af_row f) = a_workspace r /\ a_owner (af_row f) = a_owner r /\ a_definition (af_row f) = a_definition r.
Proof.
  unfold create_agent_row. intros H. walk H. res_inv. destruct x0 as [k d].
  match goal with H : resource_create _ _ _ = _ |- _ => apply resource_create_frame in H as (r' & -> & Hn & W & O & D & _) end. cbn in *.
  rewrite lookup_insert_eq in *. simplify_eq/=. split_and!; try done.
  destruct (h_agents h !! k) eqn:E; [|done]. unfold identity in Hn. cbn in Hn. rewrite lookup_fmap, E in Hn. done.
Qed.
Lemma use_spec s user wid id grant_id ids now resp s' :
  use_agent_definition s user wid id grant_id ids now = Ok (resp, s') ->
  (s' = s /\ exists code e, resp = gerror code e) \/
  (s' = s /\ exists k f, resp = GStatus 200 (GAgent k f) /\ instance s wid user id k f /\ a_status (af_row f) <> Deleted) \/
  (exists k f, resp = GStatus 201 (GAgent k f) /\ instance s' wid user id k f /\ (forall k' f', ~ instance s wid user id k' f') /\
    h_agents (ds_hosted s) !! k = None /\ s' = set_ds_hosted (set_h_agents <[k := f]> (ds_hosted s)) s).
Proof.
  unfold use_agent_definition. intros H. walk H; eauto.
  - right; left. split; [done|]. eexists _, _. split; [done|]. bool_inv. split; [by apply instance_of_Some|done].
  - right; right. res_inv. match goal with H : glift (create_agent_row _ _ _ _) = Ok (?k, ?f, _) |- _ => apply catch_lift_Ok in H;
      apply create_agent_row_spec in H as (-> & Hn & W & O & D); exists k, f end.
    split_and!; try done; [split_and!; try done; apply lookup_insert_eq|by apply instance_of_None].
Qed.

(** ** Requests in any order *)

Inductive definition_step (s : dstate) : dstate -> Prop :=
| ds_create ps user wid name description instructions avatar plugins new_id now resp s' :
    create_agent_definition ps s user wid name description instructions avatar plugins new_id now = Ok (resp, s') -> definition_step s s'
| ds_update ps user wid id p resp s' : update_agent_definition ps s user wid id p = Ok (resp, s') -> definition_step s s'
| ds_publish ps user wid id new_id now resp s' : publish_agent_definition ps s user wid id new_id now = Ok (resp, s') -> definition_step s s'
| ds_availability user wid id scope ids resp s' : set_agent_definition_availability s user wid id scope ids = Ok (resp, s') -> definition_step s s'
| ds_use user wid id grant_id ids now resp s' : use_agent_definition s user wid id grant_id ids now = Ok (resp, s') -> definition_step s s'
(** any other request of the service: members, sessions, runs, agents of no definition *)
| ds_elsewhere h' : definitions (h_db h') = ds_definitions s -> agents_kept s (set_ds_hosted h' s) -> definition_step s (set_ds_hosted h' s).

Lemma use_change s user wid id grant_id ids now resp s' : use_agent_definition s user wid id grant_id ids now = Ok (resp, s') -> definitions_change s s'.
Proof. intros [[-> _]|[[-> _]|(k & f & _ & _ & _ & _ & ->)]]%use_spec; by apply dc_same. Qed.
#[local] Hint Resolve create_change update_change publish_change availability_change use_change : defs.
Lemma step_change s s' : definition_step s s' -> definitions_change s s'.
Proof. intros []; eauto with defs. Qed.
Lemma steps_inv s s' : definitions_inv s -> rtc definition_step s s' -> definitions_inv s' /\ definitions_kept s s'.
Proof.
  intros Hi Hs. induction Hs as [s|s1 s2 s3 H12 H23 IH]; [done|]. apply step_change in H12.
  destruct (IH (change_inv _ _ Hi H12)) as [Hi3 Hk]. split; [done|]. by etrans; [apply change_kept|].
Qed.

Ltac agents_of_save := match goal with H : save_definition _ _ _ _ _ = Ok ?x |- _ => destruct x; apply save_definition_spec in H as (_ & _ & _ & _ & A & _); exact A end.
Lemma create_agents ps s user wid name description instructions avatar plugins new_id now resp s' :
  create_agent_definition ps s user wid name description instructions avatar plugins new_id now = Ok (resp, s') -> h_agents (ds_hosted s') = h_agents (ds_hosted s).
Proof. unfold create_agent_definition, create_definition. intros H. walk H; try done. res_inv. agents_of_save. Qed.
Lemma update_agents ps s user wid id p resp s' : update_agent_definition ps s user wid id p = Ok (resp, s') -> h_agents (ds_hosted s') = h_agents (ds_hosted s).
Proof. unfold update_agent_definition. intros H. walk H; try done; agents_of_save. Qed.
Lemma availability_agents s user wid id scope ids resp s' :
  set_agent_definition_availability s user wid id scope ids = Ok (resp, s') -> h_agents (ds_hosted s') = h_agents (ds_hosted s).
Proof. unfold set_agent_definition_availability. intros H. walk H; try done; agents_of_save. Qed.
Lemma publish_agents ps s user wid id new_id now resp s' : publish_agent_definition ps s user wid id new_id now = Ok (resp, s') -> h_agents (ds_hosted s') = h_agents (ds_hosted s).
Proof. intros [[-> _]|(r & d & w & a & Hs)]%publish_definition_spec; [done|]. destruct_and! Hs. done. Qed.
#[local] Hint Resolve create_agents update_agents availability_agents publish_agents agents_same_kept : defs.

Lemma step_agents s s' : definition_step s s' -> agents_kept s s' \/
  exists user wid id k f, instance s' wid user id k f /\ (forall k' f', ~ instance s wid user id k' f') /\
    h_agents (ds_hosted s) !! k = None /\ s' = set_ds_hosted (set_h_agents <[k := f]> (ds_hosted s)) s.
Proof.
  intros [| | | |user wid id grant_id ids now resp s1 Hu|]; eauto with defs.
  apply use_spec in Hu as [[-> _]|[[-> _]|(k & f & _ & Hi)]]; [by left; apply agents_same_kept..|]. right. by eexists user, wid, id, k, f.
Qed.
Lemma step_one_instance s s' : one_instance s -> definition_step s s' -> one_instance s'.
Proof.
  intros H1 [Hk|(user & wid & id & k & f & (Hf & W & O & D) & Hnone & Hn & ->)]%step_agents; [by eapply agents_kept_one|].
  cbn in Hf. rewrite lookup_insert_eq in Hf. intros k1 k2 f1 f2. cbn. rewrite !lookup_insert_Some.
  intros [[<- <-]|[N1 E1]] [[<- <-]|[N2 E2]] Hd (W' & O' & D'); [done| | |eapply H1; eauto]; exfalso; [eapply (Hnone k2 f2)|eapply (Hnone k1 f1)]; split_and!; congruence.
Qed.
Lemma step_instance s s' wid user id k f : definition_step s s' -> instance s wid user id k f -> exists f', instance s' wid user id k f'.
Proof.
  intros [[Hk _]|(user' & wid' & id' & k' & f' & _ & _ & Hn & ->)]%step_agents (Hf & W & O & D).
  - destruct (Hk _ _ Hf) as (f' & Hf' & W' & O' & D'). exists f'. split_and!; congruence.
  - exists f. split_and!; try done. cbn. rewrite lookup_insert_ne by congruence. done.
Qed.
Lemma steps_instance s s' wid user id k f : one_instance s -> rtc definition_step s s' -> instance s wid user id k f ->
  one_instance s' /\ exists f', instance s' wid user id k f'.
Proof.
  intros H1 Hs. revert f. induction Hs as [s|s1 s2 s3 H12 H23 IH]; intros f Hf; [eauto|].
  destruct (step_instance _ _ _ _ _ _ _ H12 Hf) as [f' Hf']. eapply IH; eauto using step_one_instance.
Qed.
Lemma instance_unique s wid user id k f k' f' : one_instance s -> instance s wid user id k f -> instance s wid user id k' f' -> k' = k.
Proof. intros H1 (Hf & W & O & D) (Hf' & W' & O' & D'). symmetry. eapply H1; [exact Hf|exact Hf'| |]; [by rewrite D|]. split_and!; congruence. Qed.

(** ** Plugin snapshots *)


Lemma str_ltb_le x y : str_ltb x y = true -> str_le x y.
Proof.
  unfold str_le, str_leb, str_ltb. intros H. apply negb_true_iff. destruct (lex_ltb (code_points y) (code_points x)) eqn:E; [|done].
  pose proof (lex_ltb_trans _ _ _ H E) as Hc. by rewrite lex_ltb_irrefl in Hc.
Qed.
Lemma strictly_sorted_Sorted l : strictly_sorted l = true -> Sorted str_le l.
Proof.
  induction l as [|x [|y l] IH]; intros H; [constructor|by repeat constructor|]. cbn [strictly_sorted] in H. apply andb_prop in H as [H1 H2].
  constructor; [auto|]. constructor. by apply str_ltb_le.
Qed.
Lemma sorted_keys_names keys : sorted_keys keys = true -> Sorted str_le (map fst keys).
Proof.
  induction keys as [|x [|y l] IH]; intros H; [constructor|by repeat constructor|]. cbn [sorted_keys] in H. apply andb_prop in H as [H1 H2].
  constructor; [auto|]. constructor. apply orb_true_iff in H1 as [H1|H1]; [by apply str_ltb_le|]. bool_inv. by rewrite H.
Qed.
Lemma has_key_absent k v : has_key k v = false -> get k v = VNone.
Proof.
  destruct v as [| | | | | |d]; try done. cbn. induction d as [|[k' x] d IH]; [done|]. cbn. intros [H1 H2]%orb_false_elim. by rewrite H1, IH.
Qed.
Lemma package_keys_names packages keys : map_res package_key packages = Ok keys -> Forall (fun p => exists n, get "name" p = VStr n) packages ->
  map fst keys = map package_name packages.
Proof.
  revert keys. induction packages as [|p l IH]; cbn [map_res map]; intros keys H Hn; [by simplify_eq|]. walk H. inversion_clear Hn as [|?? [n Hp] Hl].
  cbn [map]. f_equal; [|by eapply IH]. unfold package_key in Hx. unfold package_name, text_of. rewrite Hp in *.
  destruct (has_key "name" p) eqn:E; [|apply has_key_absent in E; congruence]. destruct p; try done. walk Hx. by simplify_eq/=.
Qed.
Lemma check_packages_names packages names names' : for_each check_package packages names = Ok names' ->
  NoDup (map package_name packages) /\ Forall (fun n => n ∉ names.1) (map package_name packages) /\ Forall (fun p => exists n, get "name" p = VStr n) packages.
Proof.
  revert names. induction packages as [|p l IH]; cbn [for_each map]; intros names H; [repeat constructor|]. walk H. destruct (IH _ H) as (IH1 & IH2 & IH3).
  assert (x.1 = package_name p :: names.1 /\ (package_name p ∉ names.1) /\ (exists n, get "name" p = VStr n)) as (E & Hn & Hs).
  { clear -Hx. unfold check_package in Hx. walk Hx. res_inv. bool_inv.
    match goal with H : _is_lower_kebab (get _ _) = true |- _ => unfold _is_lower_kebab in H; destruct (get "name" p) eqn:En; try done end.
    unfold package_name. rewrite En. eauto. }
  rewrite E in IH2. rewrite Forall_forall in IH2. split_and!.
  - apply NoDup_cons. split; [|done]. intros Hin. apply (IH2 _ Hin). by left.
  - apply Forall_cons. split; [done|]. apply Forall_forall. intros n Hin Hc. apply (IH2 _ Hin). by right.
  - apply Forall_cons. done.
Qed.
Lemma activation_names activation : validate_plugin_activation activation = Ok tt ->
  StronglySorted str_le (map package_name (packages_of activation)) /\ NoDup (map package_name (packages_of activation)).
Proof.
  unfold validate_plugin_activation, require_list. intros H. walk H. res_inv. unfold packages_of.
  match goal with H : as_list _ = Some ?l |- _ => rewrite H; cbn [default from_option] end.
  match goal with H : for_each check_package _ _ = _ |- _ => apply check_packages_names in H as (Hn & _ & Hs) end. split; [|done].
  apply Sorted_StronglySorted; [apply _|]. erewrite <- package_keys_names by eassumption. by apply sorted_keys_names.
Qed.
Lemma activation_of_packages packages activation : activation_of packages = Ok activation -> packages_of activation = packages.
Proof. unfold activation_of. intros H. by walk H. Qed.
Lemma elem_of_list_filter (P : value -> bool) l p : p ∈ List.filter P l <-> p ∈ l /\ P p = true.
Proof. rewrite !list_elem_of_In. apply List.filter_In. Qed.
Lemma filtered_names (P : value -> bool) packages : StronglySorted str_le (map package_name packages) -> NoDup (map package_name packages) ->
  StronglySorted str_le (map package_name (List.filter P packages)) /\ NoDup (map package_name (List.filter P packages)).
Proof.
  assert (Hsub : forall l x, x ∈ map package_name (List.filter P l) -> x ∈ map package_name l).
  { intros l x (p & -> & Hp)%list_elem_of_fmap. apply elem_of_list_filter in Hp as [Hp _]. apply list_elem_of_fmap. eauto. }
  induction packages as [|p l IH]; [repeat constructor|]. cbn [map]. rewrite StronglySorted_cons, NoDup_cons. intros [Hp Hs] [Hni Hn].
  destruct (IH Hs Hn) as [IH1 IH2]. cbn [List.filter]. destruct (P p); [|done]. cbn [map]. rewrite StronglySorted_cons, NoDup_cons.
  rewrite Forall_forall in *. eauto 10.
Qed.
Lemma workspace_activation_valid root en wid v : plugin_activation_for_workspace root en wid = Ok v -> validate_plugin_activation v = Ok tt.
Proof. unfold plugin_activation_for_workspace. intros H. walk H. destruct x2. by apply plift_Ok. Qed.
(** the packages selected by name have those names, in the same order *)
Lemma selected_names root en wid names activation : selected_plugin_activation root en wid names = Ok activation ->
  map package_name (packages_of activation) = names.
Proof.
  unfold selected_plugin_activation, validate_plugin_names. intros H. walk H; bool_inv.
  { subst. by apply activation_of_packages in H as ->. }
  res_inv. apply activation_of_packages in H as ->.
  match goal with H : plugin_activation_for_workspace _ _ _ = Ok _ |- _ => apply workspace_activation_valid, activation_names in H as [Hs Hn] end.
  eapply filtered_names in Hs as [Hs' Hn']; [|exact Hn].
  eapply StronglySorted_unique; [apply _|exact Hs'|by apply Sorted_StronglySorted, strictly_sorted_Sorted; [apply _|]|].
  apply submseteq_length_Permutation.
  - apply NoDup_submseteq; [done|]. intros n (p & -> & Hp)%list_elem_of_fmap. apply elem_of_list_filter in Hp as [_ Hp]. by bool_inv.
  - rewrite length_map. match goal with H : (_ =? _)%nat = true |- _ => apply Nat.eqb_eq in H; rewrite H; done end.
Qed.
Lemma value_eqb_refl v : value_eqb v v = true.
Proof.
  induction v as [|b|z|r|x|l IH|d IH] using value_nested_ind; cbn; rewrite ?Z.eqb_refl, ?bool_decide_eq_true_2; try done; [by destruct b| |].
  - induction IH as [|x l Hx Hl IHl]; [done|]. by rewrite Hx, IHl.
  - induction IH as [|[k x] d Hx Hd IHd]; [done|]. cbn in Hx. by rewrite bool_decide_eq_true_2, Hx, IHd.
Qed.
Lemma selected_is_current root en wid names activation : selected_plugin_activation root en wid names = Ok activation ->
  validate_plugin_activation activation = Ok tt -> require_current_plugin_activation root en wid activation = Ok tt.
Proof.
  intros Hs Hv. unfold require_current_plugin_activation. rewrite Hv. cbn [Plugins.plift catch mbind res_bind]. rewrite (selected_names _ _ _ _ _ Hs), Hs.
  cbn [mbind res_bind]. unfold same_value. by rewrite value_eqb_refl.
Qed.

(** ** The offer *)

Lemma elem_of_available s mid m v w : definitions_inv s ->
  (v, w) ∈ available_definitions s mid m <->
  exists id r, ds_definitions s !! id = Some r /\ definition_available (identity (ds_hosted s)) mid m id = true /\ d_published_version r = Some v /\ ds_versions s !! v = Some w.
Proof.
  intros Hi. unfold available_definitions. split.
  - intros ([id [[c v'] w']] & [= -> ->] & Hin)%list_elem_of_fmap. apply elem_of_order_by, list_elem_of_omap in Hin as ([id' r] & Hin & Hx).
    apply elem_of_qs_list in Hin as [[Hr Ha]%map_lookup_filter_Some _]. cbn in *.
    destruct (ds_drafts s !! id'); [|done]. cbn in Hx. destruct (d_published_version r) as [u|] eqn:Hp; [|done]. cbn in Hx.
    destruct (ds_versions s !! u) eqn:Hu; [|done]. cbn in Hx. simplify_eq. eauto 10.
  - intros (id & r & Hr & Ha & Hp & Hv). destruct (proj1 (di_drafts _ Hi id)) as [d Hd]; [eauto|].
    apply list_elem_of_fmap. exists (id, (df_created_at d, v, w)). split; [done|]. apply elem_of_order_by, list_elem_of_omap. exists (id, r).
    split; [|cbn; by rewrite Hd; cbn; rewrite Hp; cbn; rewrite Hv]. apply elem_of_qs_list. split; [|done]. by apply map_lookup_filter_Some.
Qed.

Lemma member_workspace h user wid mid m : member_of h user wid = Ok (Some (mid, m)) -> m_workspace m = wid.
Proof. unfold member_of. intros (_ & Hw & _)%membership_for_Some. done. Qed.

Lemma definition_available_spec s mid m id : definition_available (identity (ds_hosted s)) mid m id = true <->
  exists r, ds_definitions s !! id = Some r /\ d_workspace r = m_workspace m /\ d_status r = DefinitionActive /\ is_Some (d_published_version r) /\
    (d_scope r = AvailableWorkspace \/ d_scope r = AvailableMembers /\ (id, mid) ∈ definition_members (ds_db s)).
Proof.
  unfold definition_available. change (definitions (identity (ds_hosted s))) with (ds_definitions s). destruct (ds_definitions s !! id) as [r|]; [|by split; [|intros (r & Hr & _)]]. rewrite !andb_true_iff, !bool_decide_eq_true. split.
  - intros [[[Hw Hs] Hp] Hc]. exists r. split_and!; try done. destruct (d_scope r); try done; bool_inv; eauto.
  - intros (r' & [= <-] & Hw & Hs & Hp & Hc). split_and!; try done. destruct Hc as [->|[-> Hc]]; [done|]. by apply bool_decide_eq_true.
Qed.

Lemma availability_spec s user wid id scope ids b s' :
  set_agent_definition_availability s user wid id scope ids = Ok (GStatus 200 b, s') ->
  exists r, ds_definitions s !! id = Some r /\ d_workspace r = wid /\
    ds_definitions s' = <[id := Definition_ (d_workspace r) (d_status r) scope (d_published_version r)]> (ds_definitions s) /\
    definition_members (ds_db s') = list_to_set (map (pair id) ids) ∪ filter (fun p => p.1 <> id) (definition_members (ds_db s)).
Proof.
  unfold set_agent_definition_availability. intros H. walk H. destruct x0 as [d' s1].
  match goal with H : _admin_definition _ _ _ _ _ = _ |- _ => apply admin_definition_found in H as (Hr & _ & Hw) end.
  match goal with H : save_definition _ _ _ _ _ = _ |- _ => apply save_definition_spec in H as (_ & D & _ & _ & _ & M & _) end. eauto.
Qed.

(** Once an administrator's change of availability is accepted, a member of the workspace is offered the
    definition, by its published version, exactly when it is active, published and offered to the workspace or to
    that membership; what is offered of the other definitions does not change for anyone. *)
Theorem offer_is_what_was_set s admin wid id scope ids b s' user mid m :
  definitions_inv s ->
  set_agent_definition_availability s admin wid id scope ids = Ok (GStatus 200 b, s') ->
  member_of (ds_hosted s') user wid = Ok (Some (mid, m)) ->
  (exists l r, list_available_agent_definitions s' user wid None false = Ok (GStatus 200 (GVersions l), s') /\ ds_definitions s' !! id = Some r /\
    forall v w, ((v, w) ∈ l /\ ve_definition (vf_row w) = id) <->
      (d_status r = DefinitionActive /\ d_published_version r = Some v /\ ds_versions s' !! v = Some w /\
       (scope = AvailableWorkspace \/ scope = AvailableMembers /\ mid ∈ ids))) /\
  (forall mid' m' other, other <> id ->
    definition_available (identity (ds_hosted s')) mid' m' other = definition_available (identity (ds_hosted s)) mid' m' other).
Proof.
  intros Hi Hset Hm. pose proof (change_inv _ _ Hi (availability_change _ _ _ _ _ _ _ _ Hset)) as Hi'.
  destruct (availability_spec _ _ _ _ _ _ _ _ Hset) as (r & Hr & Hw & D & M). pose proof (member_workspace _ _ _ _ _ Hm) as Hmw. split.
  - exists (available_definitions s' mid m), (Definition_ (d_workspace r) (d_status r) scope (d_published_version r)).
    split; [unfold list_available_agent_definitions; by rewrite Hm|]. split; [by rewrite D, lookup_insert_eq|]. intros v w.
    rewrite (elem_of_available _ _ _ _ _ Hi'). cbn. split.
    + intros [(id' & r' & Hr' & (r2 & Hr2 & _ & Hst & _ & Hsc)%definition_available_spec & Hp & Hv) Hd].
      simplify_eq.
      pose proof (di_published _ Hi' _ _ Hr') as Hpub. rewrite Hp in Hpub. destruct Hpub as (w' & [Hv' Hd'] & _). simplify_eq.
      rewrite D, lookup_insert_eq in Hr'. injection Hr' as <-. cbn [d_status d_scope d_published_version] in *. split_and!; try done. destruct Hsc as [?|[? Hmem]]; [by left|]. right. split; [done|].
      rewrite M in Hmem.
      apply elem_of_union in Hmem as [Hmem|[]%elem_of_filter]; [|done]. apply elem_of_list_to_set, list_elem_of_fmap in Hmem as (x & [= ->] & Hx). done.
    + intros (Hst & Hp & Hv & Hsc). assert (Hr' : ds_definitions s' !! id = Some (Definition_ (d_workspace r) (d_status r) scope (d_published_version r))) by by rewrite D, lookup_insert_eq.
      split; [|pose proof (di_published _ Hi' _ _ Hr') as Hpub; cbn in Hpub; rewrite Hp in Hpub; destruct Hpub as (w' & [Hv' Hd'] & _); congruence].
      eexists id, _. split; [exact Hr'|]. split; [|done]. apply definition_available_spec. eexists. split; [exact Hr'|]. cbn. rewrite Hp, Hw, Hmw. split_and!; eauto.
      destruct Hsc as [?|[? Hmem]]; [by left|]. right. split; [done|].
      rewrite M. apply elem_of_union_l, elem_of_list_to_set, list_elem_of_fmap. eauto.
  - intros mid' m' other Hne. unfold definition_available. change (definitions (identity (ds_hosted s'))) with (ds_definitions s').
    change (definition_members (identity (ds_hosted s'))) with (definition_members (ds_db s')). rewrite D, M, lookup_insert_ne by done.
    change (definitions (identity (ds_hosted s))) with (ds_definitions s). destruct (ds_definitions s !! other) as [o|]; [|done].
    destruct (d_scope o); try done. f_equal. apply bool_decide_ext. rewrite elem_of_union, elem_of_filter, elem_of_list_to_set. set_solver.
Qed.

(** ** Histories *)

(** a deployment without definitions; its agents are nobody's instances *)
Record no_definitions (s : dstate) : Prop := NoDefinitions {
  nd_definitions : ds_definitions s = ∅; nd_drafts : ds_drafts s = ∅; nd_versions : ds_versions s = ∅;
  nd_agents : map_Forall (fun _ f => a_definition (af_row f) = None) (h_agents (ds_hosted s)) }.
Lemma no_definitions_inv s : no_definitions s -> definitions_inv s.
Proof.
  intros [D F V _]. assert (O : forall i v w, ~ version_of s i v w) by (intros i v w [Hv _]; by rewrite V in Hv).
  constructor; try (intros *; rewrite V, lookup_empty; done).
  - intros id. by rewrite D, F, !lookup_empty.
  - intros id n. rewrite (latest_none s id) by auto. lia.
  - intros id v w v' w' Hw. by apply O in Hw.
  - intros id r. by rewrite D, lookup_empty.
Qed.
Lemma no_definitions_one s : no_definitions s -> one_instance s.
Proof. intros [_ _ _ A] k k' f f' Hf _ [i Hd] _. by rewrite (A _ _ Hf) in Hd. Qed.

(** (C13) In every history of requests, the versions of a definition carry the numbers from one to the newest
    without a gap or a repetition, the published version is the newest one, and nothing that happens later changes
    or removes a version or moves a definition to another workspace. *)
Theorem versions_form_a_history s0 s s' :
  no_definitions s0 -> rtc definition_step s0 s -> rtc definition_step s s' ->
  (forall id n, 1 <= n <= latest_version s id <-> exists v w, version_of s id v w /\ vf_number w = n) /\
  (forall id v w v' w', version_of s id v w -> version_of s id v' w' -> vf_number w = vf_number w' -> v = v' /\ w = w') /\
  (forall id r, ds_definitions s !! id = Some r ->
    match d_published_version r with
    | Some v => exists w, version_of s id v w /\ vf_number w = latest_version s id
    | None => forall v w, ~ version_of s id v w
    end) /\
  ds_versions s ⊆ ds_versions s' /\
  (forall id r, ds_definitions s !! id = Some r -> exists r', ds_definitions s' !! id = Some r' /\ d_workspace r' = d_workspace r).
Proof.
  intros Hn H0 H1. destruct (steps_inv _ _ (no_definitions_inv _ Hn) H0) as [Hi _]. destruct (steps_inv _ _ Hi H1) as [_ [Hv Hd]].
  assert (B : forall id v w, version_of s id v w -> 1 <= vf_number w <= latest_version s id).
  { intros id v w Hw. split; [by eapply (di_positive _ Hi), Hw|]. by eapply (il_bound _ _ _ (latest_is_latest s id)). }
  split_and!; try done.
  - intros id n. split; [apply (di_numbers _ Hi)|]. intros (v & w & Hw & <-). eauto.
  - intros id v w v' w' Hw Hw' E. pose proof (di_unique _ Hi _ _ _ _ _ Hw Hw' E) as ->. destruct Hw, Hw'. split; congruence.
  - intros id r Hr. pose proof (di_published _ Hi _ _ Hr) as Hp. destruct (d_published_version r); [done|]. intros v w Hw. specialize (B _ _ _ Hw). lia.
Qed.

(** (C25) Publishing takes the draft as it is: the new version has its cleaned texts and the snapshot of its
    plugins, and keeps them whatever happens later; a run of an agent of the definition by a member it is offered to is
    admitted with this version, so what was just published can be run with the plugins it was published with. *)
Theorem published_draft_is_runnable ps s user wid id v now w s' s'' :
  publish_agent_definition ps s user wid id v now = Ok (GStatus 201 (GVersion v w), s') -> rtc definition_step s' s'' ->
  (exists d, ds_drafts s !! id = Some d /\
    clean_draft d = Ok (Draft (vf_name w) (vf_description w) (ve_instructions (vf_row w)) (vf_avatar w) (df_plugins d) (df_created_by d) (df_created_at d)) /\
    map package_name (packages_of (ve_activation (vf_row w))) = df_plugins d) /\
  ds_versions s'' !! v = Some w /\
  forall a mid m, a_definition a = Some id -> a_workspace a = wid -> definition_available (identity (ds_hosted s')) mid m id = true ->
    published_version (vf_row <$> ds_versions s') ps (ds_hosted s') a mid m = Ok (Some (v, vf_row w)).
Proof.
  intros Hp Hs. destruct (publish_definition_spec _ _ _ _ _ _ _ _ _ Hp) as [(_ & ? & ? & ?)|(r & d & w' & act & [= <-] & Hr & Hd & Hw & Hsel & Hv & V & D & Hdef & Hn & <- & Hval & Hc & _)]; [done|].
  split_and!.
  - exists d. split_and!; [done|done|]. by eapply selected_names.
  - assert (K : definitions_kept s' s'').
    { clear -Hs. induction Hs as [|x y z Hxy _ IH]; [done|]. etrans; [apply change_kept, step_change, Hxy|done]. }
    destruct K as [K _]. eapply lookup_weaken; [|exact K]. by rewrite V, lookup_insert_eq.
  - intros a mid m Ha Hwid Hav. unfold published_version, published_version_for_agent. rewrite Ha, Hav.
    change (definitions (identity (ds_hosted s'))) with (ds_definitions s'). rewrite D, lookup_insert_eq. cbn [mbind option_bind d_published_version].
    rewrite lookup_fmap, V, lookup_insert_eq. cbn [fmap option_fmap option_map from_option_res mbind res_bind]. rewrite Hwid.
    by rewrite (selected_is_current _ _ _ _ _ Hsel Hval).
Qed.

(** A member who has used a definition keeps the one agent that gave: in every later state, using it again
    answers with the same agent and changes nothing, unless it is refused; and no user ever has two agents of a
    definition in a workspace. *)
Theorem definition_gives_one_agent s0 s user wid id grant_id ids now code k f s1 s2 grant_id' ids' now' resp s3 :
  no_definitions s0 -> rtc definition_step s0 s ->
  use_agent_definition s user wid id grant_id ids now = Ok (GStatus code (GAgent k f), s1) -> rtc definition_step s1 s2 ->
  one_instance s2 /\ (exists f', instance s2 wid user id k f') /\
  (use_agent_definition s2 user wid id grant_id' ids' now' = Ok (resp, s3) ->
    s3 = s2 /\ ((exists f', resp = GStatus 200 (GAgent k f') /\ a_status (af_row f') = Active) \/ exists status e, resp = gerror status e)).
Proof.
  intros Hn H0 Hu H12.
  assert (H1 : one_instance s) by (pose proof (no_definitions_one _ Hn) as H; clear -H H0; induction H0; eauto using step_one_instance).
  assert (H1' : one_instance s1) by (eapply step_one_instance; [exact H1|]; by eapply ds_use).
  assert (Hi : exists f, instance s1 wid user id k f).
  { apply use_spec in Hu as [(_ & ? & ? & ?)|[(-> & k' & f' & [= -> -> ->] & Hi & _)|(k' & f' & [= -> -> ->] & Hi & _)]]; eauto; done. }
  destruct Hi as [f1 Hi]. destruct (steps_instance _ _ _ _ _ _ _ H1' H12 Hi) as [H2 [f2 Hi2]]. split; [done|]. split; [eauto|].
  intros [(-> & ? & ? & ->)|[(-> & k' & f' & -> & Hi' & Ha)|(k' & f' & _ & _ & Hno & _)]]%use_spec; [eauto| |by destruct (Hno _ _ Hi2)].
  split; [done|]. left. pose proof (instance_unique _ _ _ _ _ _ _ _ H2 Hi2 Hi') as ->. exists f'. split; [done|]. by destruct (a_status (af_row f')).
Qed.
End invariant.

(** ** A definition, evaluated *)

#[local] Existing Instance ascii_platform.
Definition owners_db : db :=
  Db {[7 := User "ada" "ada@x" "Ada" "" true]} {["ws-1" := Workspace "team" WorkspaceActive]} {["m-7" := Membership "ws-1" 7 Owner None 0]} ∅ ∅ ∅ ∅ ∅ ∅ ∅ ∅ ∅ ∅ ∅.
Definition undefined : dstate := DState (set_h_db (fun _ => owners_db) quiet) ∅ ∅.
Definition state_after (m : res gexn (gresponse * dstate)) : dstate := match m with Ok (_, s) => s | Err _ => undefined end.
Definition drafted : dstate := state_after (create_agent_definition sample_plugins undefined 7 "ws-1" " Helper " "helps" "Be brief." "banana" [] "def-1" 1).
Definition published : dstate := state_after (publish_agent_definition sample_plugins drafted 7 "ws-1" "def-1" "ver-1" 2).
Definition offered : dstate := state_after (set_agent_definition_availability published 7 "ws-1" "def-1" AvailableMembers ["m-7"]).
Definition in_use : dstate := state_after (use_agent_definition offered 7 "ws-1" "def-1" None ["agent-2"] 3).
Definition republished : dstate := state_after (publish_agent_definition sample_plugins in_use 7 "ws-1" "def-1" "ver-2" 4).
Definition version_at (s : dstate) (v : pystr) : version_full := default (VersionFull (VersionRow "" "" VNone) 0 "" "" "" 0 0) (ds_versions s !! v).
Definition agent_at (s : dstate) (k : pystr) : agent_full := default sample_agent (h_agents (ds_hosted s) !! k).
Definition response_of (m : res gexn (gresponse * dstate)) : gresponse := match m with Ok (r, _) => r | Err _ => gerror 0 "" end.

Lemma evaluated (m : res gexn (gresponse * dstate)) r : is_ok m = true -> response_of m = r -> m = Ok (r, state_after m).
Proof. destruct m as [[r' s]|]; cbn; [|done]. by intros _ ->. Qed.
Lemma step_evaluated s (m : res gexn (gresponse * dstate)) : is_ok m = true -> (forall r s', m = Ok (r, s') -> definition_step s s') -> definition_step s (state_after m).
Proof. destruct m as [[r s']|]; [eauto|done]. Qed.

Lemma undefined_empty : no_definitions undefined.
Proof. constructor; by_decide. Qed.
Lemma drafted_step : definition_step undefined drafted.
Proof. apply step_evaluated; [vm_compute; reflexivity|]. intros. by eapply ds_create. Qed.
Lemma published_step : definition_step drafted published.
Proof. apply step_evaluated; [vm_compute; reflexivity|]. intros. by eapply ds_publish. Qed.
Lemma offered_step : definition_step published offered.
Proof. apply step_evaluated; [vm_compute; reflexivity|]. intros. by eapply ds_availability. Qed.
Lemma in_use_step : definition_step offered in_use.
Proof. apply step_evaluated; [vm_compute; reflexivity|]. intros. by eapply ds_use. Qed.
Lemma republished_step : definition_step in_use republished.
Proof. apply step_evaluated; [vm_compute; reflexivity|]. intros. by eapply ds_publish. Qed.
Lemma offered_reached : rtc definition_step undefined offered.
Proof. eapply rtc_l; [exact drafted_step|]. eapply rtc_l; [exact published_step|]. eapply rtc_l; [exact offered_step|]. apply rtc_refl. Qed.
Lemma republished_reached : rtc definition_step offered republished.
Proof. eapply rtc_l; [exact in_use_step|]. eapply rtc_l; [exact republished_step|]. apply rtc_refl. Qed.
Lemma all_reached : rtc definition_step undefined republished.
Proof. etrans; [exact offered_reached|exact republished_reached]. Qed.
Lemma published_eq : publish_agent_definition sample_plugins drafted 7 "ws-1" "def-1" "ver-1" 2 = Ok (GStatus 201 (GVersion "ver-1" (version_at published "ver-1")), published).
Proof. apply evaluated; vm_compute; reflexivity. Qed.
Lemma offered_eq : exists b, set_agent_definition_availability published 7 "ws-1" "def-1" AvailableMembers ["m-7"] = Ok (GStatus 200 b, offered).
Proof. eexists. apply evaluated; vm_compute; reflexivity. Qed.
Lemma in_use_eq : use_agent_definition offered 7 "ws-1" "def-1" None ["agent-2"] 3 = Ok (GStatus 201 (GAgent "agent-2" (agent_at in_use "agent-2")), in_use).
Proof. apply evaluated; vm_compute; reflexivity. Qed.
Lemma published_valid : definitions_inv published.
Proof.
  eapply change_inv; [|exact (step_change _ _ published_step)]. eapply change_inv; [|exact (step_change _ _ drafted_step)]. exact (no_definitions_inv _ undefined_empty).
Qed.

Lemma versions_form_a_history_witness : latest_version republished "def-1" = 2 /\ exists v w, version_of republished "def-1" v w /\ vf_number w = 1.
Proof.
  split; [vm_compute; reflexivity|].
  apply (proj1 (versions_form_a_history undefined republished republished undefined_empty all_reached (rtc_refl _ _))).
  vm_compute. split; discriminate.
Defined.
Lemma published_draft_is_runnable_witness : exists d, ds_drafts drafted !! "def-1" = Some d /\ df_name d = "Helper" /\ vf_name (version_at published "ver-1") = "Helper" /\
  ds_versions republished !! "ver-1" = Some (version_at published "ver-1").
Proof.
  destruct (published_draft_is_runnable sample_plugins drafted 7 "ws-1" "def-1" "ver-1" 2 (version_at published "ver-1") published republished published_eq
    (rtc_l _ _ _ _ offered_step republished_reached)) as ((d & Hd & Hc & _) & Hv & _).
  exists d. split; [exact Hd|]. split; [|split; [vm_compute; reflexivity|exact Hv]]. vm_compute in Hd. injection Hd as <-. reflexivity.
Defined.
Lemma offer_is_what_was_set_witness : exists l v w, list_available_agent_definitions offered 7 "ws-1" None false = Ok (GStatus 200 (GVersions l), offered) /\ (v, w) ∈ l.
Proof.
  destruct offered_eq as [b Hb].
  destruct (offer_is_what_was_set published 7 "ws-1" "def-1" AvailableMembers ["m-7"] b offered 7 "m-7" (Membership "ws-1" 7 Owner None 0) published_valid Hb) as [(l & r & Hl & Hr & Hiff) _];
    [vm_compute; reflexivity|].
  exists l, "ver-1", (version_at published "ver-1"). split; [exact Hl|]. apply (Hiff "ver-1" (version_at published "ver-1")).
  vm_compute in Hr. injection Hr as <-. split; [reflexivity|]. split; [reflexivity|]. split; [vm_compute; reflexivity|]. right. split; [reflexivity|]. by left.
Defined.
Lemma definition_gives_one_agent_witness : exists f, instance republished "ws-1" 7 "def-1" "agent-2" f.
Proof.
  exact (proj1 (proj2 (definition_gives_one_agent undefined offered 7 "ws-1" "def-1" None ["agent-2"] 3 201 "agent-2" (agent_at in_use "agent-2") in_use republished None [] 5
    gmissing republished undefined_empty offered_reached in_use_eq (rtc_once _ _ republished_step)))).
Defined.
