(* ===== verification/PasswordReset.v ===== *)
(** * Passwords and password reset

    [packages/api/app_core/password_reset.py], the account endpoints of [http/auth.py] and [PasswordResetMail] of
    [models.py]: requests for a reset link, the sender of the mails, and the change of a password.  Times are in
    microseconds. *)

From stdpp Require Import base tactics list gmap numbers.
From S2P Require Import Prelude PyStr Table Utf8 Sha256 Platform Schema PyValue Json Members.

Definition SECOND : Z := 1000000.
Definition EMAIL_RATE_LIMIT_SECONDS : Z := 60.
Definition EMAIL_RATE_LIMIT_PER_HOUR : Z := 5.
Definition IP_RATE_LIMIT_PER_HOUR : Z := 100.

(** ** Rows *)

Inductive mail_status := MailPending | MailSent | MailSuppressed.
#[global] Instance mail_status_eq_dec : EqDecision mail_status.
Proof. solve_decision. Defined.
(** [PasswordResetMail] *)
Record mail_row := Mail {
  ml_user : option Z; ml_email_digest : pystr; ml_ip_digest : pystr; ml_password_digest : pystr; ml_status : mail_status;
  ml_attempts : Z; ml_next_at : Z; ml_last_at : option Z; ml_error : pystr; ml_requested_at : Z; ml_sent_at : option Z }.
(** what [send_mail] is called with *)
Record message := Message { ms_mail : Z; ms_recipient : pystr; ms_validity : pystr; ms_link : pystr }.
Record accounts := Accounts { ac_users : gmap Z user_row; ac_mails : gmap Z mail_row; ac_outbox : list message }.
Definition set_ac_users f a := Accounts (f (ac_users a)) (ac_mails a) (ac_outbox a).
Definition set_ac_mails f a := Accounts (ac_users a) (f (ac_mails a)) (ac_outbox a).
Definition post (m : message) a := Accounts (ac_users a) (ac_mails a) (ac_outbox a ++ [m]).
Definition set_password_of (p : pystr) (u : user_row) : user_row := User (u_username u) (u_email u) (u_first_name u) p (u_active u).
Definition set_ml_status s (m : mail_row) : mail_row := Mail (ml_user m) (ml_email_digest m) (ml_ip_digest m) (ml_password_digest m) s (ml_attempts m) (ml_next_at m)
  (ml_last_at m) (ml_error m) (ml_requested_at m) (ml_sent_at m).

(** the checks of [PasswordResetMail.save] *)
Definition digest_ok (d : pystr) : bool := is_ok (require_sha256 "PasswordResetMail" d).
Definition mail_ok (m : mail_row) : bool :=
  digest_ok (ml_email_digest m) && digest_ok (ml_ip_digest m) && (is_empty (ml_password_digest m) || digest_ok (ml_password_digest m))
  && negb (bool_decide (ml_status m = MailPending)
           && (bool_decide (ml_user m = None) || is_empty (ml_password_digest m) || bool_decide (is_Some (ml_sent_at m))))
  && negb (bool_decide (ml_status m = MailSent) && bool_decide (ml_sent_at m = None)).
(** [unique_pending_password_reset_mail] *)
Definition pending_conflict (m : mail_row) (t : gmap Z mail_row) : bool :=
  bool_decide (ml_status m = MailPending)
  && qs_exists (fun m' => bool_decide (ml_status m' = MailPending) && bool_decide (ml_email_digest m' = ml_email_digest m)) t.
Definition create_mail (id : Z) (m : mail_row) (a : accounts) : res exn accounts :=
  require (mail_ok m) (ValueError "PasswordResetMail");;
  require (bool_decide (ac_mails a !! id = None) && negb (pending_conflict m (ac_mails a))) IntegrityError;;
  Ok (set_ac_mails <[id := m]> a).
Definition save_mail (id : Z) (m : mail_row) (a : accounts) : res exn accounts :=
  require (mail_ok m) (ValueError "PasswordResetMail");;
  Ok (set_ac_mails <[id := m]> a).

Section password_reset.
Context {PL : Platform}
  (* Django: [salted_hmac(salt, value, secret=settings.SECRET_KEY, algorithm="sha256").hexdigest()], the usability
     of a stored password, the token generator, and the encoding of user ids *)
  (salted_hmac_hex : pystr -> pystr -> pystr)
  (has_usable_password : pystr -> bool)
  (make_token : Z -> user_row -> Z -> pystr)
  (check_token : Z -> user_row -> pystr -> Z -> bool)
  (encode_uid : Z -> pystr)
  (decode_uid : pystr -> option Z)
  (* the settings [WEB_ORIGIN] and [PASSWORD_RESET_TIMEOUT] *)
  (web_origin : pystr)
  (reset_timeout : Z).

Definition _digest (kind value : pystr) : pystr := "sha256:" +:+ salted_hmac_hex ("app_core.password_reset." +:+ kind) value.
Definition password_state_digest (u : user_row) : pystr := _digest "password_state" (u_password u).

(** ** Requesting a link *)

Definition since (t : Z) (m : mail_row) : bool := t <=? ml_requested_at m.
Definition for_email (d : pystr) (m : mail_row) : bool := bool_decide (ml_email_digest m = d).
Definition for_ip (d : pystr) (m : mail_row) : bool := bool_decide (ml_ip_digest m = d).
Definition count_mails (p : mail_row -> bool) (t : gmap Z mail_row) : Z := zlen (qs_list p t).

(** the rows the request reads: the row it will create, but for [requested_at], or [None] when it ends here *)
Definition queue_check (a : accounts) (email client_address : pystr) (now : Z) : option mail_row :=
  let normalized_email := str_lower (strip email) in
  if negb (validate_email normalized_email) then None
  else
    let hour_ago := now - 3600 * SECOND in
    let email_digest := _digest "email" normalized_email in
    let ip_digest := _digest "ip" (if is_empty client_address then "unknown" else client_address) in
    let recent p := fun m => since hour_ago m && p m in
    if qs_exists (recent (fun m => for_email email_digest m && since (now - EMAIL_RATE_LIMIT_SECONDS * SECOND) m)) (ac_mails a)
       || (EMAIL_RATE_LIMIT_PER_HOUR <=? count_mails (recent (for_email email_digest)) (ac_mails a))
       || (IP_RATE_LIMIT_PER_HOUR <=? count_mails (recent (for_ip ip_digest)) (ac_mails a))
    then None
    else
      match qs_first (fun u => username_iexact (u_username u) normalized_email) (ac_users a) with
      | Some (id, u) =>
          if u_active u && has_usable_password (u_password u)
          then Some (Mail (Some id) email_digest ip_digest (password_state_digest u) MailPending 0 now None "" 0 None)
          else Some (Mail None email_digest ip_digest "" MailSuppressed 0 now None "" 0 None)
      | None => Some (Mail None email_digest ip_digest "" MailSuppressed 0 now None "" 0 None)
      end.

Definition set_requested_at (t : Z) (m : mail_row) : mail_row := Mail (ml_user m) (ml_email_digest m) (ml_ip_digest m) (ml_password_digest m) (ml_status m) (ml_attempts m)
  (ml_next_at m) (ml_last_at m) (ml_error m) t (ml_sent_at m).
(** the row is created, at [created_at]; a pending row that is refused by the database is not an error *)
Definition queue_create (a : accounts) (id : Z) (m : mail_row) (created_at : Z) : res exn accounts :=
  match create_mail id (set_requested_at created_at m) a with
  | Err IntegrityError => if bool_decide (ml_status m = MailPending) then Ok a else Err IntegrityError
  | r => r
  end.
(** a request that no other one overtakes between its two statements *)
Definition queue_password_reset (a : accounts) (email client_address : pystr) (now : Z) (id created_at : Z) : res exn accounts :=
  match queue_check a email client_address now with
  | None => Ok a
  | Some m => queue_create a id m created_at
  end.

(** ** Sending *)

Definition unreserved (c : Z) : bool := is_ascii_alnum c || existsb (Z.eqb c) [95; 46; 45; 126].
Definition upper_hex (n : Z) : Z := if n <? 10 then 48 + n else 55 + n.
(** [urllib.parse.quote_plus]; the values are ASCII *)
Definition quote_plus (s : pystr) : pystr :=
  PyStr (concat (map (fun c => if unreserved c then [c] else if c =? 32 then [43] else [37; upper_hex (c / 16); upper_hex (c mod 16)]) (code_points s))).

Definition _password_reset_link (id : Z) (u : user_row) (now : Z) : pystr :=
  rstrip_slash web_origin +:+ "/reset-password#" +:+ "uid=" +:+ quote_plus (encode_uid id) +:+ "&token=" +:+ quote_plus (make_token id u now).
(** "hours" and "minutes" *)
Definition _password_reset_validity_label : pystr :=
  if reset_timeout mod 3600 =? 0 then int_str (reset_timeout / 3600) +:+ " " +:+ PyStr [23567; 26102]
  else int_str (reset_timeout / 60) +:+ " " +:+ PyStr [20998; 38047].

Definition retry_seconds (attempts : Z) : Z := Z.min (60 * 2 ^ Z.min (attempts - 1) 6) 3600.
(** the first 160 characters *)
Definition error_kind (name : pystr) : pystr := PyStr (take 160 (code_points name)).

(** [now] is the time at which the mail is selected and [attempt_at] the later one of the attempt; [locked] are the
    rows other senders hold; [failure] is the name of the exception [send_mail] raises. *)
Definition process_next_password_reset_mail (a : accounts) (now attempt_at : Z) (locked : gset Z) (failure : option pystr) : res exn (bool * accounts) :=
  match head (order_by Z.le ml_next_at (List.filter (fun r => bool_decide (r.1 ∉ locked))
                (qs_list (fun m => bool_decide (ml_status m = MailPending) && (ml_next_at m <=? now)) (ac_mails a)))) with
  | None => Ok (false, a)
  | Some (id, mail) =>
      let user := uid ← ml_user mail; u ← ac_users a !! uid; Some (uid, u) in
      let recipient := match user with Some (_, u) => strip (if is_empty (u_email u) then u_username u else u_email u) | None => "" end in
      let recipient := if validate_email recipient then recipient else "" in
      let suppress := a' ← save_mail id (set_ml_status MailSuppressed mail) a; Ok (true, a') in
      match user with
      | None => suppress
      | Some (uid, u) =>
          if negb (u_active u) || negb (has_usable_password (u_password u)) || is_empty recipient
             || negb (bool_decide (ml_password_digest mail = password_state_digest u))
          then suppress
          else
            let attempts := ml_attempts mail + 1 in
            let sent := post (Message id recipient _password_reset_validity_label (_password_reset_link uid u attempt_at)) a in
            match failure with
            | Some name =>
                a' ← save_mail id (Mail (ml_user mail) (ml_email_digest mail) (ml_ip_digest mail) (ml_password_digest mail) (ml_status mail) attempts
                  (attempt_at + retry_seconds attempts * SECOND) (Some attempt_at) (error_kind name) (ml_requested_at mail) (ml_sent_at mail)) sent;
                Ok (true, a')
            | None =>
                a' ← save_mail id (Mail (ml_user mail) (ml_email_digest mail) (ml_ip_digest mail) (ml_password_digest mail) MailSent attempts
                  (ml_next_at mail) (Some attempt_at) "" (ml_requested_at mail) (Some attempt_at)) sent;
                Ok (true, a')
            end
      end
  end.

(** ** Changing a password *)

Definition with_password (id : Z) (password : pystr) (a : accounts) : accounts := set_ac_users (alter (set_password_of (make_password password)) id) a.

Definition reset_password (a : accounts) (uid token new_password : pystr) (now : Z) : option pystr * accounts :=
  match (id ← decode_uid uid; u ← ac_users a !! id; if u_active u then Some (id, u) else None) with
  | None => (Some "account_password_reset_invalid", a)
  | Some (id, u) =>
      if negb (check_token id u token now) then (Some "account_password_reset_invalid", a)
      else if check_password new_password (u_password u) then (Some "account_password_unchanged", a)
      else if negb (validate_password new_password (u_username u) (u_first_name u)) then (Some "account_password_invalid", a)
      else (None, set_ac_mails (qs_update (fun m => bool_decide (ml_user m = Some id) && bool_decide (ml_status m = MailPending)) (set_ml_status MailSuppressed))
                    (with_password id new_password a))
  end.

Inductive account_response := AccountOk (status : Z) | AccountError (status : Z) (code : pystr).
Definition change_password (a : accounts) (user : Z) (current_password new_password : pystr) : account_response * accounts :=
  match (u ← ac_users a !! user; if u_active u then Some u else None) with
  | None => (AccountError 403 "account_current_password_invalid", a)
  | Some u =>
      if negb (check_password current_password (u_password u)) then (AccountError 403 "account_current_password_invalid", a)
      else if check_password new_password (u_password u) then (AccountError 409 "account_password_unchanged", a)
      else if negb (validate_password new_password (u_username u) (u_first_name u)) then (AccountError 400 "account_password_invalid", a)
      else (AccountOk 200, with_password user new_password a)
  end.
(** [enabled] is the setting [PASSWORD_RESET_ENABLED] *)
Definition request_password_reset (enabled : bool) (a : accounts) (email client_address : pystr) (now id created_at : Z) : res exn (account_response * accounts) :=
  if negb enabled then Ok (AccountError 503 "account_password_reset_unavailable", a)
  else
    a' ← queue_password_reset a email client_address now id created_at;
    Ok (AccountOk 202, a').
Definition confirm_password_reset (enabled : bool) (a : accounts) (uid token new_password : pystr) (now : Z) : account_response * accounts :=
  if negb enabled then (AccountError 503 "account_password_reset_unavailable", a)
  else
    match reset_password a uid token new_password now with
    | (Some code, a') => (AccountError (if bool_decide (code = "account_password_unchanged") then 409 else 400) code, a')
    | (None, a') => (AccountOk 200, a')
    end.
End password_reset.
