(* ===== verification/PasswordResetProps.v ===== *)
(** * Correctness of password reset

    However requests, senders and password changes follow each other: reset mails are limited per address and per
    client, a mailed link sets the password of the account it was requested for, and once a password has been reset no
    mail requested before is sent. *)

From stdpp Require Import base tactics list gmap numbers sorting relations.
From S2P Require Import Prelude PyStr Table Utf8 Sha256 Platform Schema PyValue Json Members PasswordReset.

Create HintDb mail.

Section password_reset.
Context {PL : Platform}
  (salted_hmac_hex : pystr -> pystr -> pystr) (has_usable_password : pystr -> bool)
  (make_token : Z -> user_row -> Z -> pystr) (check_token : Z -> user_row -> pystr -> Z -> bool)
  (encode_uid : Z -> pystr) (decode_uid : pystr -> option Z) (web_origin : pystr) (reset_timeout : Z).
Local Abbreviation request := (queue_password_reset salted_hmac_hex has_usable_password).
Local Abbreviation check_request := (queue_check salted_hmac_hex has_usable_password).
Local Abbreviation process := (process_next_password_reset_mail salted_hmac_hex has_usable_password make_token encode_uid web_origin reset_timeout).
Local Abbreviation reset := (reset_password check_token decode_uid).
Local Abbreviation link := (_password_reset_link make_token encode_uid web_origin).

(** ** Requests, in any order, on a clock that does not go back *)

Inductive account_step : Z * accounts -> Z * accounts -> Prop :=
| as_request c a email address now id created_at a' : c <= now <= created_at ->
    request a email address now id created_at = Ok a' -> account_step (c, a) (created_at, a')
| as_process c a now attempt_at locked failure b a' : c <= now <= attempt_at ->
    process a now attempt_at locked failure = Ok (b, a') -> account_step (c, a) (attempt_at, a')
| as_reset c a uid token password now r a' : c <= now -> reset a uid token password now = (r, a') -> account_step (c, a) (now, a')
| as_change c a user current password r a' : change_password a user current password = (r, a') -> account_step (c, a) (c, a')
(** accounts are created, renamed or deactivated *)
| as_accounts c a users : account_step (c, a) (c, set_ac_users (fun _ => users) a).

(** What a step may do to the mails: rows are added, keep their owner, digests and time, and do not become pending again. *)
Definition same_request (m m' : mail_row) : Prop :=
  ml_user m' = ml_user m /\ ml_email_digest m' = ml_email_digest m /\ ml_ip_digest m' = ml_ip_digest m /\ ml_requested_at m' = ml_requested_at m /\
  (ml_status m' = MailPending -> ml_status m = MailPending).
#[local] Instance same_request_preorder : PreOrder same_request.
Proof. split; [by intros m|]. intros x y z (A1 & B1 & C1 & D1 & E1) (A2 & B2 & C2 & D2 & E2). split_and!; try congruence. auto. Qed.
Definition mails_kept (t t' : gmap Z mail_row) : Prop := forall i m, t !! i = Some m -> exists m', t' !! i = Some m' /\ same_request m m'.
#[local] Instance mails_kept_preorder : PreOrder mails_kept.
Proof.
  split; [intros t i m Hm; by exists m|]. intros t1 t2 t3 H1 H2 i m Hm. destruct (H1 _ _ Hm) as (m2 & Hm2 & S2). destruct (H2 _ _ Hm2) as (m3 & Hm3 & S3).
  exists m3. split; [done|by etrans].
Qed.
Definition mails_old (t t' : gmap Z mail_row) : Prop := forall i m', t' !! i = Some m' -> exists m, t !! i = Some m /\ same_request m m'.

Lemma save_mail_spec id m m' a a' : ac_mails a !! id = Some m -> same_request m m' -> save_mail id m' a = Ok a' ->
  ac_users a' = ac_users a /\ ac_outbox a' = ac_outbox a /\ ac_mails a' = <[id := m']> (ac_mails a) /\ mails_kept (ac_mails a) (ac_mails a') /\ mails_old (ac_mails a) (ac_mails a').
Proof.
  intros Hm Hs H. unfold save_mail in H. walk H. cbn. split_and!; try done.
  - intros i y Hy. destruct (decide (i = id)) as [->|]; [|exists y; by rewrite lookup_insert_ne]. exists m'. rewrite lookup_insert_eq. by simplify_eq.
  - intros i y [[<- <-]|[_ Hy]]%lookup_insert_Some; [by exists m|by exists y].
Qed.

Lemma due_mail a now (locked : gset Z) id m :
  head (order_by Z.le ml_next_at (List.filter (fun r => bool_decide (r.1 ∉ locked))
    (qs_list (fun m => bool_decide (ml_status m = MailPending) && (ml_next_at m <=? now)) (ac_mails a)))) = Some (id, m) ->
  ac_mails a !! id = Some m /\ ml_status m = MailPending.
Proof.
  destruct (order_by _ _ _) as [|x l] eqn:E; [done|]. intros [= ->]. assert (Hl : (id, m) ∈ (id, m) :: l) by by left. rewrite <- E in Hl.
  apply elem_of_order_by, list_elem_of_In, List.filter_In in Hl as [Hl _]. apply list_elem_of_In, elem_of_qs_list in Hl as [Hm Hp]. by bool_inv.
Qed.

(** Processing: nothing, or one pending mail is suppressed or attempted. *)
Lemma process_spec a now attempt_at locked failure b a' : process a now attempt_at locked failure = Ok (b, a') ->
  mails_kept (ac_mails a) (ac_mails a') /\ mails_old (ac_mails a) (ac_mails a') /\ ac_users a' = ac_users a /\
  (ac_outbox a' = ac_outbox a \/ exists ms m, ac_outbox a' = ac_outbox a ++ [ms] /\ ac_mails a !! ms_mail ms = Some m /\ ml_status m = MailPending).
Proof.
  unfold process_next_password_reset_mail. destruct (head _) as [[id m]|] eqn:Eh; [|intros [= <- <-]; split_and!; try done; [intros i y Hy; by exists y|by left]].
  apply due_mail in Eh as [Hm Hpend]. intros H.
  walk H; match goal with Hx : save_mail _ _ _ = Ok _ |- _ => eapply save_mail_spec in Hx as (U & O & _ & K1 & K2); [|exact Hm|by split_and!] end;
    split_and!; try done; rewrite O; try (by left); right; eexists _, m; by split_and!.
Qed.

(** A request: nothing, or a new row. *)
Lemma request_spec a email address now id created_at a' : request a email address now id created_at = Ok a' ->
  a' = a \/ exists m, check_request a email address now = Some m /\ ac_mails a !! id = None /\ a' = set_ac_mails <[id := set_requested_at created_at m]> a /\
    pending_conflict (set_requested_at created_at m) (ac_mails a) = false.
Proof.
  unfold queue_password_reset, queue_create, create_mail. destruct (check_request a email address now) as [m|]; [|intros [= ->]; by left].
  destruct (mail_ok _); [|done]. cbn [require mbind res_bind]. destruct (bool_decide (ac_mails a !! id = None) && negb _) eqn:E; cbn [require mbind res_bind].
  - intros [= <-]. bool_inv. right. by exists m.
  - destruct (bool_decide (ml_status m = MailPending)); [intros [= ->]; by left|done].
Qed.

Lemma reset_spec a uid token password now r a' : reset a uid token password now = (r, a') ->
  (a' = a /\ exists code, r = Some code) \/ exists id u, r = None /\ decode_uid uid = Some id /\ ac_users a !! id = Some u /\ check_token id u token now = true /\ check_password password (u_password u) = false /\
    ac_users a' = <[id := set_password_of (make_password password) u]> (ac_users a) /\ ac_outbox a' = ac_outbox a /\
    ac_mails a' = qs_update (fun m => bool_decide (ml_user m = Some id) && bool_decide (ml_status m = MailPending)) (set_ml_status MailSuppressed) (ac_mails a).
Proof.
  unfold reset_password. destruct (decode_uid uid) as [id|]; cbn; [|intros [= <- <-]; by eauto]. destruct (ac_users a !! id) as [u|] eqn:Hu; cbn; [|intros [= <- <-]; by eauto].
  destruct (u_active u); [|intros [= <- <-]; by eauto]. destruct (check_token id u token now) eqn:Ht; cbn; [|intros [= <- <-]; by eauto].
  destruct (check_password password (u_password u)) eqn:Hc; [intros [= <- <-]; by eauto|].
  destruct (validate_password _ _ _); cbn; [|intros [= <- <-]; by eauto]. intros [= <- <-]. right. exists id, u. split_and!; try done.
  cbn. apply map_eq. intros i. destruct (decide (i = id)) as [->|]; [by rewrite lookup_alter_eq, Hu, lookup_insert_eq|by rewrite lookup_alter_ne, lookup_insert_ne by done].
Qed.

Lemma suppress_spec p t : mails_kept t (qs_update p (set_ml_status MailSuppressed) t) /\ mails_old t (qs_update p (set_ml_status MailSuppressed) t).
Proof.
  split.
  - intros i m Hm. unfold qs_update. rewrite lookup_fmap, Hm. cbn. eexists. split; [done|]. destruct (p m); by split_and!.
  - intros i m'. unfold qs_update. rewrite lookup_fmap, fmap_Some. intros (m & Hm & ->). exists m. split; [done|]. destruct (p m); by split_and!.
Qed.

Lemma change_spec a user current password r a' : change_password a user current password = (r, a') -> ac_mails a' = ac_mails a /\ ac_outbox a' = ac_outbox a.
Proof. unfold change_password. intros H. by repeat (case_match; simplify_eq/=). Qed.

(** Every step keeps the mails; all but an accepted request only keep them. *)
Lemma step_mails c a c' a' : account_step (c, a) (c', a') -> mails_kept (ac_mails a) (ac_mails a') /\
  (mails_old (ac_mails a) (ac_mails a') /\ (c <= c')%Z \/
   exists email address now id m, c <= now <= c' /\ check_request a email address now = Some m /\ ac_mails a !! id = None /\ a' = set_ac_mails <[id := set_requested_at c' m]> a /\
     pending_conflict (set_requested_at c' m) (ac_mails a) = false).
Proof.
  assert (Hrefl : forall t, mails_old t t) by (intros t i m Hm; by exists m).
  intros H. inversion H as [? ? email address now id ? ? Hc Hr|? ? ? ? ? ? ? ? Hc Hp|? ? ? ? ? ? ? ? Hc Hr|? ? ? ? ? ? ? Hr|]; subst.
  - apply request_spec in Hr as [->|(m & Hq & Hn & -> & Hpc)]; [split; [done|]; left; split; [done|lia]|]. split; [|right; by exists email, address, now, id, m].
    intros i y Hy. exists y. cbn. rewrite lookup_insert_ne by congruence. done.
  - apply process_spec in Hp as (K1 & K2 & _ & _). split; [done|]. left. split; [done|lia].
  - apply reset_spec in Hr as [[-> _]|(id & u & _ & _ & _ & _ & _ & _ & _ & ->)]; [split; [done|]; left; split; [done|lia]|].
    split; [apply suppress_spec|]. left. split; [apply suppress_spec|lia].
  - apply change_spec in Hr as [-> _]. split; [done|]. left. split; [done|lia].
  - split; [done|]. left. split; [done|lia].
Qed.

(** ** Limits *)

Definition in_hour (t : Z) (m : mail_row) : bool := since t m && (ml_requested_at m <=? t + 3600 * SECOND).
Record limited (c : Z) (t : gmap Z mail_row) : Prop := Limited {
  li_clock : forall i m, t !! i = Some m -> ml_requested_at m <= c;
  li_email : forall e start, count_mails (fun m => for_email e m && in_hour start m) t <= EMAIL_RATE_LIMIT_PER_HOUR;
  li_ip : forall ip start, count_mails (fun m => for_ip ip m && in_hour start m) t <= IP_RATE_LIMIT_PER_HOUR;
  li_apart : forall i j m m', t !! i = Some m -> t !! j = Some m' -> i <> j -> ml_email_digest m = ml_email_digest m' ->
    EMAIL_RATE_LIMIT_SECONDS * SECOND < Z.abs (ml_requested_at m - ml_requested_at m');
  li_pending : forall i j m m', t !! i = Some m -> t !! j = Some m' -> ml_status m = MailPending -> ml_status m' = MailPending ->
    ml_email_digest m = ml_email_digest m' -> i = j }.

Lemma kept_limited c c' t t' : c <= c' -> mails_old t t' -> limited c t -> limited c' t'.
Proof.
  intros Hc Ho [L1 L2 L3 L4 L5]. split.
  - intros i m' Hm. destruct (Ho _ _ Hm) as (m & Hm' & _ & _ & _ & R & _). specialize (L1 _ _ Hm'). lia.
  - intros e start. etrans; [|exact (L2 e start)]. apply qs_count_mono. intros i m' Hm Hp. destruct (Ho _ _ Hm) as (m & Hm' & _ & E & _ & R & _).
    exists m. split; [done|]. unfold for_email, in_hour, since in *. by rewrite <- E, <- R.
  - intros ip start. etrans; [|exact (L3 ip start)]. apply qs_count_mono. intros i m' Hm Hp. destruct (Ho _ _ Hm) as (m & Hm' & _ & _ & E & R & _).
    exists m. split; [done|]. unfold for_ip, in_hour, since in *. by rewrite <- E, <- R.
  - intros i j m m' Hi Hj. destruct (Ho _ _ Hi) as (x & Hx & _ & Ex & _ & Rx & _), (Ho _ _ Hj) as (y & Hy & _ & Ey & _ & Ry & _). rewrite Ex, Ey, Rx, Ry. eauto.
  - intros i j m m' Hi Hj Pi Pj. destruct (Ho _ _ Hi) as (x & Hx & _ & Ex & _ & _ & Sx), (Ho _ _ Hj) as (y & Hy & _ & Ey & _ & _ & Sy). rewrite Ex, Ey. eauto.
Qed.

Lemma check_request_limits a email address now m : check_request a email address now = Some m ->
  (forall i x, ac_mails a !! i = Some x -> ml_email_digest x = ml_email_digest m -> ml_requested_at x < now - EMAIL_RATE_LIMIT_SECONDS * SECOND) /\
  count_mails (fun x => since (now - 3600 * SECOND) x && for_email (ml_email_digest m) x) (ac_mails a) < EMAIL_RATE_LIMIT_PER_HOUR /\
  count_mails (fun x => since (now - 3600 * SECOND) x && for_ip (ml_ip_digest m) x) (ac_mails a) < IP_RATE_LIMIT_PER_HOUR.
Proof.
  unfold queue_check. destruct (negb _); [done|]. destruct (_ || _ || _) eqn:E; [done|]. intros H. bool_inv.
  assert (Hd : ml_email_digest m = _digest salted_hmac_hex "email" (str_lower (strip email)) /\
               ml_ip_digest m = _digest salted_hmac_hex "ip" (if is_empty address then "unknown" else address)).
  { destruct (qs_first _ _) as [[id u]|]; [|by injection H as <-]. by destruct (_ && _); injection H as <-. }
  destruct Hd as [-> ->]. split_and!; [|lia|lia]. intros i x Hx Ex.
  match goal with H : qs_exists _ _ = false |- _ => rewrite qs_exists_false in H; specialize (H _ _ Hx) end.
  unfold for_email, since in *. rewrite bool_decide_eq_true_2 in * by done.
  match goal with H : _ && _ = false |- _ => apply andb_false_iff in H as [H|H] end; unfold SECOND, EMAIL_RATE_LIMIT_SECONDS in *; cbn in *; lia.
Qed.

(** a row is counted in an hour only if it is recent when the request is checked *)
Lemma window_insert (q : mail_row -> bool) t id m now c' start limit : now <= c' -> ml_requested_at m = c' ->
  count_mails (fun x => q x && in_hour start x) t <= limit -> (q m = true -> count_mails (fun x => since (now - 3600 * SECOND) x && q x) t < limit) ->
  count_mails (fun x => q x && in_hour start x) (<[id := m]> t) <= limit.
Proof.
  intros Hc Hr Hold Hnew. destruct (q m && in_hour start m) eqn:E.
  - apply andb_prop in E as [Hq Hh]. specialize (Hnew Hq). unfold in_hour, since in Hh. apply andb_prop in Hh as [H1 H2].
    pose proof (qs_count_insert (fun x => q x && in_hour start x) t id m) as Hi. unfold count_mails in *.
    assert (Hle : zlen (qs_list (fun x => q x && in_hour start x) t) <= zlen (qs_list (fun x => since (now - 3600 * SECOND) x && q x) t)); [|lia].
    apply qs_count_mono. intros k x Hx Hp. exists x. split; [done|]. unfold in_hour, since in *. bool_inv. apply andb_true_intro. split; [lia|done].
  - etrans; [|exact Hold]. apply qs_count_mono. intros k x [[<- <-]|[_ Hx]]%lookup_insert_Some Hp; [congruence|]. eauto.
Qed.

Lemma step_limited c a c' a' : account_step (c, a) (c', a') -> limited c (ac_mails a) -> limited c' (ac_mails a').
Proof.
  intros [_ [[Ho Hc]|(email & address & now & id & m & Hc & Hq & Hn & -> & Hpc)]]%step_mails Hl; [by eapply kept_limited|].
  destruct Hl as [L1 L2 L3 L4 L5]. apply check_request_limits in Hq as (Q1 & Q2 & Q3). cbn [ac_mails set_ac_mails]. set (m' := set_requested_at c' m) in *.
  assert (Hapart : forall j x, ac_mails a !! j = Some x -> ml_email_digest x = ml_email_digest m' -> EMAIL_RATE_LIMIT_SECONDS * SECOND < c' - ml_requested_at x).
  { intros j x Hx Ex. specialize (Q1 _ _ Hx Ex). lia. }
  split.
  - intros i x [[<- <-]|[_ Hx]]%lookup_insert_Some; [done|]. specialize (L1 _ _ Hx). lia.
  - intros e start. eapply (window_insert (for_email e)); [apply Hc|done|apply L2|]. unfold for_email. intros Hb. bool_inv. by subst e.
  - intros ip start. eapply (window_insert (for_ip ip)); [apply Hc|done|apply L3|]. unfold for_ip. intros Hb. bool_inv. by subst ip.
  - intros i j x y [[<- <-]|[Ni Hx]]%lookup_insert_Some [[<- <-]|[Nj Hy]]%lookup_insert_Some Hne E; [done| | |by eapply L4].
    + specialize (Hapart _ _ Hy (eq_sym E)). cbn. lia.
    + specialize (Hapart _ _ Hx E). cbn. lia.
  - unfold pending_conflict in Hpc. intros i j x y [[<- <-]|[Ni Hx]]%lookup_insert_Some [[<- <-]|[Nj Hy]]%lookup_insert_Some Px Py E; [done| | |by eapply L5];
      exfalso; [rewrite (bool_decide_eq_true_2 _ Px) in Hpc|rewrite (bool_decide_eq_true_2 _ Py) in Hpc]; cbn [andb] in Hpc; rewrite qs_exists_false in Hpc;
      [specialize (Hpc _ _ Hy)|specialize (Hpc _ _ Hx)]; rewrite !bool_decide_eq_true_2 in Hpc; done.
Qed.

(** (C30) Whatever the order of requests, deliveries, resets and password changes on a clock that does not go back,
    and as long as no request is overtaken by another one between its two statements: within any hour there are at
    most five requests recorded for an address and at most a hundred for a client, two requests for an address are
    more than a minute apart, and at most one mail of an address is waiting. *)
Theorem reset_requests_are_limited c0 a0 c a :
  ac_mails a0 = ∅ -> rtc account_step (c0, a0) (c, a) ->
  (forall e start, count_mails (fun m => for_email e m && in_hour start m) (ac_mails a) <= 5) /\
  (forall ip start, count_mails (fun m => for_ip ip m && in_hour start m) (ac_mails a) <= 100) /\
  (forall i j m m', ac_mails a !! i = Some m -> ac_mails a !! j = Some m' -> i <> j -> ml_email_digest m = ml_email_digest m' ->
    60 * SECOND < Z.abs (ml_requested_at m - ml_requested_at m') /\ ~ (ml_status m = MailPending /\ ml_status m' = MailPending)).
Proof.
  intros He Hs. assert (L0 : limited c0 (ac_mails a0)) by (rewrite He; split; intros *; rewrite ?lookup_empty; done).
  assert (L : limited c (ac_mails a)).
  { clear He. remember (c0, a0) as x eqn:Ex. remember (c, a) as y eqn:Ey. revert c0 a0 Ex L0.
    induction Hs as [|x [c1 a1] z H1 _ IH]; intros c0 a0 -> L0; [by simplify_eq|]. eapply IH; eauto using step_limited. }
  destruct L as [_ L2 L3 L4 L5]. split_and!; [exact L2|exact L3|]. intros i j m m' Hi Hj Hne E. split; [by eapply L4|]. intros [Pi Pj]. eauto.
Qed.

(** ** After a reset *)

Lemma step_outbox c a c' a' : account_step (c, a) (c', a') ->
  exists sent, ac_outbox a' = ac_outbox a ++ sent /\ forall ms, ms ∈ sent -> exists m, ac_mails a !! ms_mail ms = Some m /\ ml_status m = MailPending.
Proof.
  assert (Hnil : forall a', ac_outbox a' = ac_outbox a -> exists sent, ac_outbox a' = ac_outbox a ++ sent /\ forall ms, ms ∈ sent -> exists m, ac_mails a !! ms_mail ms = Some m /\ ml_status m = MailPending).
  { intros x ->. exists []. rewrite app_nil_r. split; [done|]. intros ms Hin; by apply not_elem_of_nil in Hin. }
  intros H. inversion H as [? ? ? ? ? ? ? ? Hc Hr|? ? ? ? ? ? ? ? Hc Hp|? ? ? ? ? ? ? ? Hc Hr|? ? ? ? ? ? ? Hr|]; subst.
  - apply request_spec in Hr as [->|(m & _ & _ & -> & _)]; by apply Hnil.
  - apply process_spec in Hp as (_ & _ & _ & [Ho|(ms & m & Ho & Hm & Hs)]); [by apply Hnil|]. exists [ms]. split; [done|]. intros x ->%list_elem_of_singleton. eauto.
  - apply reset_spec in Hr as [[-> _]|(id & u & _ & _ & _ & _ & _ & _ & Ho & _)]; by apply Hnil.
  - apply change_spec in Hr as [_ Ho]. by apply Hnil.
  - by apply Hnil.
Qed.
(** Mails that are not pending are never sent. *)
Lemma steps_outbox (P : Z -> Prop) x y : rtc account_step x y ->
  (forall i, P i -> exists m, ac_mails x.2 !! i = Some m /\ ml_status m <> MailPending) ->
  exists sent, ac_outbox y.2 = ac_outbox x.2 ++ sent /\ forall ms, ms ∈ sent -> ~ P (ms_mail ms).
Proof.
  intros Hs. induction Hs as [x|[c a] [c1 a1] z H1 _ IH]; intros HP; [exists []; rewrite app_nil_r; split; [done|]; intros ms Hin; by apply not_elem_of_nil in Hin|]. cbn in *.
  destruct (step_outbox _ _ _ _ H1) as (s1 & O1 & S1). destruct (step_mails _ _ _ _ H1) as [K _]. destruct IH as (s2 & O2 & S2).
  { intros i Hi. destruct (HP _ Hi) as (m & Hm & Hp). destruct (K _ _ Hm) as (m' & Hm' & _ & _ & _ & _ & Hs'). exists m'. split; [done|]. auto. }
  exists (s1 ++ s2). rewrite O2, O1, app_assoc. split; [done|]. intros ms [Hin|Hin]%elem_of_app Hi; [|by eapply S2].
  destruct (S1 _ Hin) as (m & Hm & Hp). destruct (HP _ Hi) as (m' & Hm' & Hp'). simplify_eq.
Qed.

(** (C28) Once a password has been reset through a link, the account has the new password, stored differently from the one
    the link was made for, and no mail that was requested for the account before the reset is sent any more, whatever
    requests, senders, resets, password changes and changes of accounts follow. *)
Theorem reset_cancels_requested_mails a uid token password now a' c2 a2 :
  reset a uid token password now = (None, a') -> rtc account_step (now, a') (c2, a2) ->
  exists id u u', decode_uid uid = Some id /\ ac_users a !! id = Some u /\ ac_users a' !! id = Some u' /\
    check_password password (u_password u') = true /\ u_password u' <> u_password u /\
    exists sent, ac_outbox a2 = ac_outbox a ++ sent /\
      forall ms m, ms ∈ sent -> ac_mails a !! ms_mail ms = Some m -> ml_user m <> Some id.
Proof.
  intros Hr Hs. destruct (reset_spec _ _ _ _ _ _ _ Hr) as [[_ [code ?]]|(id & u & _ & Hd & Hu & Ht & Hc & U & O & M)]; [done|].
  exists id, u, (set_password_of (make_password password) u). rewrite U, lookup_insert_eq. cbn [u_password set_password_of].
  split_and!; try done; [apply check_make_password| |].
  - intros E. rewrite <- E, check_make_password in Hc. done.
  - rewrite <- O. destruct (steps_outbox (fun i => exists m, ac_mails a !! i = Some m /\ ml_user m = Some id) _ _ Hs) as (sent & Ho & Hsent).
    + intros i (m & Hm & Hmu). cbn [snd]. rewrite M. unfold qs_update. rewrite lookup_fmap, Hm. cbn. eexists. split; [done|].
      rewrite (bool_decide_eq_true_2 _ Hmu). destruct (decide (ml_status m = MailPending)) as [Hp|Hp]; [by rewrite (bool_decide_eq_true_2 _ Hp)|].
      by rewrite (bool_decide_eq_false_2 _ Hp).
    + exists sent. split; [done|]. intros ms m Hin Hm Hmu. apply (Hsent _ Hin). eauto.
Qed.

(** ** The way of a request *)

Lemma check_request_pending a email address now m : check_request a email address now = Some m -> ml_status m = MailPending ->
  exists uid u e ip, ac_users a !! uid = Some u /\ username_iexact (u_username u) (str_lower (strip email)) = true /\ u_active u = true /\ has_usable_password (u_password u) = true /\
    m = Mail (Some uid) e ip (password_state_digest salted_hmac_hex u) MailPending 0 now None "" 0 None.
Proof.
  unfold queue_check. destruct (negb _); [done|]. destruct (_ || _ || _); [done|]. intros H Hp.
  destruct (qs_first _ _) as [[uid u]|] eqn:E; [|injection H as <-; done]. apply qs_first_Some in E as [Hu Hname].
  destruct (u_active u && _) eqn:Ea; injection H as <-; [|done]. apply andb_prop in Ea as [Ha Hh]. by eexists uid, u, _, _.
Qed.
Lemma only_pending a now (locked : gset Z) id m : ac_mails a !! id = Some m -> ml_status m = MailPending -> ml_next_at m <= now -> id ∉ locked ->
  (forall i x, ac_mails a !! i = Some x -> ml_status x = MailPending -> i = id) ->
  head (order_by Z.le ml_next_at (List.filter (fun r => bool_decide (r.1 ∉ locked))
    (qs_list (fun m => bool_decide (ml_status m = MailPending) && (ml_next_at m <=? now)) (ac_mails a)))) = Some (id, m).
Proof.
  intros Hm Hp Hn Hl Hu. destruct (head _) as [[i x]|] eqn:E.
  - apply due_mail in E as [Hx Px]. pose proof (Hu _ _ Hx Px) as ->. congruence.
  - exfalso. assert (Hin : (id, m) ∈ order_by Z.le ml_next_at (List.filter (fun r => bool_decide (r.1 ∉ locked))
      (qs_list (fun m => bool_decide (ml_status m = MailPending) && (ml_next_at m <=? now)) (ac_mails a)))).
    { apply elem_of_order_by, list_elem_of_In, List.filter_In. split; [|by apply bool_decide_eq_true]. apply list_elem_of_In, elem_of_qs_list. split; [done|].
      rewrite bool_decide_eq_true_2 by done. cbn. lia. }
    destruct (order_by _ _ _); [by apply not_elem_of_nil in Hin|done].
Qed.
Lemma sent_ok u e ip d n t created t' : mail_ok (Mail (Some u) e ip d MailPending n t None "" created None) = true ->
  mail_ok (Mail (Some u) e ip d MailSent (n + 1) t (Some t') "" created (Some t')) = true.
Proof. unfold mail_ok. cbn. rewrite !andb_true_r, !andb_true_iff. intros [[[? ?] ?] ?]. done. Qed.

Definition recipient_of (u : user_row) : pystr := strip (if is_empty (u_email u) then u_username u else u_email u).

(** (C38) A request for an active account, when no other mail waits, is sent with the next delivery to the address of
    the account that has the requested address as its name, and the link in it sets any new password of that account
    that is acceptable, within the time a link is valid. *)
Theorem requested_link_resets_password a email address now m id created_at a1 due attempt_at :
  (forall i, decode_uid (encode_uid i) = Some i) ->
  (forall i u t t', t <= t' <= t + reset_timeout * SECOND -> check_token i u (make_token i u t) t' = true) ->
  (forall i x, ac_mails a !! i = Some x -> ml_status x <> MailPending) ->
  check_request a email address now = Some m -> ml_status m = MailPending -> request a email address now id created_at = Ok a1 ->
  ac_mails a !! id = None -> now <= due ->
  (forall u i, ml_user m = Some i -> ac_users a !! i = Some u -> validate_email (recipient_of u) = true /\ is_empty (recipient_of u) = false) ->
  exists uid u a2, ml_user m = Some uid /\ ac_users a !! uid = Some u /\ username_iexact (u_username u) (str_lower (strip email)) = true /\
    process a1 due attempt_at ∅ None = Ok (true, a2) /\
    ac_outbox a2 = ac_outbox a ++ [Message id (recipient_of u) (_password_reset_validity_label reset_timeout) (link uid u attempt_at)] /\
    forall password t, attempt_at <= t <= attempt_at + reset_timeout * SECOND ->
      check_password password (u_password u) = false -> validate_password password (u_username u) (u_first_name u) = true ->
      exists a3 u3, reset a2 (encode_uid uid) (make_token uid u attempt_at) password t = (None, a3) /\
        ac_users a3 !! uid = Some u3 /\ check_password password (u_password u3) = true.
Proof.
  intros Huid Htok Hnone Hq Hp Hr Hn Hdue Hrec. destruct (check_request_pending _ _ _ _ _ Hq Hp) as (uid & u & e & ip & Hu & Hname & Ha & Hh & ->).
  destruct (Hrec u uid eq_refl Hu) as [Hv Hne]. cbn [ml_user] in *.
  assert (Hc : pending_conflict (set_requested_at created_at (Mail (Some uid) e ip (password_state_digest salted_hmac_hex u) MailPending 0 now None "" 0 None)) (ac_mails a) = false).
  { unfold pending_conflict. apply andb_false_iff. right. apply qs_exists_false. intros i x Hx. rewrite bool_decide_eq_false_2 by eauto. done. }
  unfold queue_password_reset, queue_create, create_mail in Hr. rewrite Hq, Hc, (bool_decide_eq_true_2 _ Hn) in Hr. cbn [andb negb require mbind res_bind] in Hr.
  destruct (mail_ok _) eqn:Hok; [|done]. injection Hr as <-. unfold set_requested_at in *. cbn [ml_user ml_email_digest ml_ip_digest ml_password_digest ml_status ml_attempts ml_next_at ml_last_at ml_error ml_sent_at] in *.
  exists uid, u. eexists. split; [done|]. split; [done|]. split; [exact Hname|]. split; [|split].
  - unfold process_next_password_reset_mail. erewrite only_pending; [|apply lookup_insert_eq|done|done|apply not_elem_of_empty|].
    2:{ cbn. intros i x [[<- _]|[_ Hx]]%lookup_insert_Some Px; [done|]. by destruct (Hnone _ _ Hx). }
    cbn [ml_user]. cbn [mbind option_bind]. change (ac_users (set_ac_mails _ a)) with (ac_users a). rewrite Hu. cbn [mbind option_bind].
    change (strip (if is_empty (u_email u) then u_username u else u_email u)) with (recipient_of u). rewrite Hv, Ha, Hh, Hne. cbn [ml_password_digest]. rewrite bool_decide_eq_true_2 by done.
    cbn [negb orb]. unfold save_mail. rewrite sent_ok by exact Hok. cbn [require mbind res_bind]. reflexivity.
  - done.
  - intros password t Ht Hpw Hval. cbn. unfold reset_password. rewrite Huid. cbn. rewrite Hu. cbn. rewrite Ha, Htok by lia. cbn. rewrite Hpw, Hval. cbn.
    eexists _, (set_password_of (make_password password) u). split; [done|]. cbn. rewrite lookup_alter_eq, Hu. split; [done|]. apply check_make_password.
Qed.
End password_reset.

(** ** A reset, evaluated *)

#[local] Existing Instance ascii_platform.
Definition plain_hmac (salt value : pystr) : pystr := sha256_hex (code_points (salt +:+ value)).
Definition usable (_ : pystr) : bool := true.
Definition plain_token (_ : Z) (u : user_row) (_ : Z) : pystr := u_password u.
Definition token_ok (_ : Z) (u : user_row) (token : pystr) (_ : Z) : bool := bool_decide (token = u_password u).
Definition plain_uid (id : Z) : pystr := PyStr [id].
Definition read_uid (s : pystr) : option Z := match code_points s with [id] => Some id | _ => None end.
Definition one_account : accounts := Accounts {[7 := User "ada@x.org" "ada@x.org" "Ada" (make_password "old secret") true]} ∅ [].
Definition account_after (m : res exn accounts) : accounts := match m with Ok a => a | Err _ => one_account end.
Local Abbreviation sample_request a now id := (queue_password_reset plain_hmac usable a " Ada@x.org " "10.0.0.1" now id (now + 1)).
Local Abbreviation sample_process a now := (process_next_password_reset_mail plain_hmac usable plain_token plain_uid "https://web/" 3600 a now (now + 1) ∅ None).
Local Abbreviation sample_reset a password now := (reset_password token_ok read_uid a (plain_uid 7) (make_password "old secret") password now).
Local Abbreviation sample_step := (account_step plain_hmac usable plain_token token_ok plain_uid read_uid "https://web/" 3600).
Definition asked : accounts := account_after (sample_request one_account 10 1).
Definition asked_again : accounts := account_after (sample_request asked 20 2).
Definition after_reset : accounts := (sample_reset asked "new secret" 30).2.
Definition mail_of (a : accounts) (i : Z) : mail_row := default (Mail None "" "" "" MailSuppressed 0 0 None "" 0 None) (ac_mails a !! i).

Lemma asked_eq : sample_request one_account 10 1 = Ok asked.
Proof. vm_compute. reflexivity. Qed.
Lemma asked_again_eq : sample_request asked 20 2 = Ok asked_again.
Proof. vm_compute. reflexivity. Qed.
Lemma after_reset_eq : sample_reset asked "new secret" 30 = (None, after_reset).
Proof. vm_compute. reflexivity. Qed.
Lemma sample_steps : rtc sample_step (0, one_account) (21, asked_again).
Proof.
  eapply rtc_l; [eapply as_request; [|exact asked_eq]; lia|]. eapply rtc_l; [eapply as_request; [|exact asked_again_eq]; lia|]. apply rtc_refl.
Qed.

(** the second request, ten microseconds after the first, is not recorded *)
Lemma reset_requests_are_limited_witness :
  size (ac_mails asked_again) = 1%nat /\ count_mails (fun m => for_email (ml_email_digest (mail_of asked 1)) m && in_hour 0 m) (ac_mails asked_again) <= 5.
Proof.
  split; [vm_compute; reflexivity|].
  exact (proj1 (reset_requests_are_limited plain_hmac usable plain_token token_ok plain_uid read_uid "https://web/" 3600 0 one_account 21 asked_again eq_refl sample_steps) _ 0).
Defined.
Definition after_delivery : accounts := match sample_process after_reset 40 with Ok (_, a) => a | Err _ => one_account end.
Lemma delivery_step : sample_step (30, after_reset) (41, after_delivery).
Proof. eapply (as_process _ _ _ _ _ _ _ _ 30 after_reset 40 41 ∅ None); [lia|]. vm_compute. reflexivity. Qed.
(** the mail that was asked for before the reset stays unsent *)
Lemma reset_cancels_requested_mails_witness : exists id u' sent, ac_users after_reset !! id = Some u' /\ check_password "new secret" (u_password u') = true /\
  ac_outbox after_delivery = ac_outbox asked ++ sent /\ forall ms m, ms ∈ sent -> ac_mails asked !! ms_mail ms = Some m -> ml_user m <> Some id.
Proof.
  destruct (reset_cancels_requested_mails plain_hmac usable plain_token token_ok plain_uid read_uid "https://web/" 3600 asked (plain_uid 7) (make_password "old secret") "new secret" 30
    after_reset 41 after_delivery after_reset_eq (rtc_once _ _ delivery_step)) as (id & u & u' & _ & _ & Hu' & Hc & _ & sent & Ho & Hsent).
  exists id, u', sent. split; [exact Hu'|]. split; [exact Hc|]. split; [exact Ho|exact Hsent].
Defined.
Lemma requested_link_resets_password_witness : exists a2, sample_process asked 40 = Ok (true, a2) /\ exists ms, ac_outbox a2 = [ms] /\ ms_recipient ms = "ada@x.org".
Proof.
  destruct (requested_link_resets_password plain_hmac usable plain_token token_ok plain_uid read_uid "https://web/" 3600 one_account " Ada@x.org " "10.0.0.1" 10
    (match queue_check plain_hmac usable one_account " Ada@x.org " "10.0.0.1" 10 with Some m => m | None => mail_of one_account 1 end) 1 11 asked 40 41)
    as (uid & u & a2 & Hu & Hl & Hname & Hp & Ho & _).
  - reflexivity.
  - intros i u t t' _. unfold token_ok, plain_token. by rewrite bool_decide_eq_true_2.
  - intros i x Hx. change (ac_mails one_account) with (∅ : gmap Z mail_row) in Hx. by rewrite lookup_empty in Hx.
  - vm_compute. reflexivity.
  - vm_compute. reflexivity.
  - exact asked_eq.
  - reflexivity.
  - lia.
  - intros u i Hi Hu. vm_compute in Hi. injection Hi as <-. vm_compute in Hu. injection Hu as <-. vm_compute. done.
  - exists a2. split; [exact Hp|]. eexists. split; [exact Ho|]. vm_compute in Hu. injection Hu as <-. vm_compute in Hl. injection Hl as <-. vm_compute. reflexivity.
Defined.

(** Two requests that both check before either is recorded: the first mail is sent, and the second one follows it at
    once. *)
Example overlapping_requests_are_not_limited :
  let m1 := queue_check plain_hmac usable one_account "ada@x.org" "10.0.0.1" 10 in
  let m2 := queue_check plain_hmac usable one_account "ada@x.org" "10.0.0.1" 11 in
  match m1, m2 with
  | Some m1, Some m2 =>
      let a1 := account_after (queue_create one_account 1 m1 12) in
      let a2 := match sample_process a1 13 with Ok (_, a) => a | Err _ => a1 end in
      let a3 := account_after (queue_create a2 2 m2 15) in
      let a4 := match sample_process a3 16 with Ok (_, a) => a | Err _ => a3 end in
      map ms_mail (ac_outbox a4) = [1; 2]
  | _, _ => False
  end.
Proof. vm_compute. reflexivity. Qed.
