(* ===== verification/MaterialManifest.v ===== *)
(** * Processed documents: identities, manifests and segments

    The pure part of [packages/api/app_core/material_commit.py] with [material_identity.py] and
    [material_contract.py]: the identity of a representation, the validation of what a processor produced, and the cut
    of its text into segments. *)

From stdpp Require Import base tactics list numbers.
From S2P Require Import Prelude PyStr Utf8 Sha256 Platform PyValue Json Contract RuntimeReplies.

(** [KnowledgeError] with its code and status; [require_sha256] and Python raise the others *)
Inductive kexn := KnowledgeError (code : pystr) (status : Z) | KContract (e : cexn) | KTypeError | KAttributeError | KValueError | KKeyError | KUnicodeEncodeError.
Abbreviation K A := (res kexn A).
Definition klift {A} (m : res cexn A) : K A := catch m (fun e => Err (KContract e)).
Definition invalid (code : pystr) : kexn := KnowledgeError code 400.

Definition DET_MODEL : pystr := "PP-OCRv6_small_det".
Definition REC_MODEL : pystr := "PP-OCRv6_small_rec".
Definition MAX_OUTPUT_BYTES : Z := 256 * 1024 * 1024.
Definition MAX_SEGMENT_BYTES : Z := 32 * 1024.

(** ** Identities *)

Definition canonical_json (v : value) : K bytes := from_option_res KUnicodeEncodeError (utf8_encode (json_dumps (sort_keys v))).

(** [v in {"a", ...}]: an unhashable value raises *)
Definition kmember (ss : list pystr) (v : value) : K bool := match v with VList _ | VDict _ => Err KTypeError | _ => Ok (str_in ss v) end.
Definition is_int (z : Z) (v : value) : bool := py_eq v (VInt z).

Definition EXPECTED_OPTIONS : list (pystr * Z) :=
  [("renderDpi", 220); ("maxInputBytes", 64 * 1024 * 1024); ("maxRenderedPixelsPerPage", 16000000); ("maxOutputBytes", MAX_OUTPUT_BYTES)].
Definition SPECIFICATION_FIELDS : list pystr := ["schema"; "processorId"; "processorVersion"; "executionImageDigest"; "modelDigests"; "options"].
Definition validate_processing_specification (v : value) : K unit :=
  require (keys_are SPECIFICATION_FIELDS v && is_str "knowledge.processing_specification.v1" (get "schema" v)) (invalid "knowledge_specification_invalid");;
  known ← kmember ["centaeris.document.cpu"; "centaeris.document.cuda.gpu0"] (get "processorId" v);
  require (known && is_str "1.0.0" (get "processorVersion" v)) (invalid "knowledge_processor_identity_unsupported");;
  klift (require_sha256 "executionImageDigest" (get "executionImageDigest" v));;
  let models := get "modelDigests" v in
  require (keys_are [DET_MODEL; REC_MODEL] models) (invalid "knowledge_model_identity_invalid");;
  for_each (fun _ kv => klift (require_sha256 "modelDigest" kv.2)) (default [] (as_dict models)) tt;;
  require (keys_are (map fst EXPECTED_OPTIONS) (get "options" v) && forallb (fun kv => is_int kv.2 (get kv.1 (get "options" v))) EXPECTED_OPTIONS)
    (invalid "knowledge_processing_options_unsupported").
Definition processing_spec_digest (specification : value) : K pystr :=
  validate_processing_specification specification;;
  sha256_tag <$> canonical_json specification.

Definition _validate_input_identity (v : value) : K unit :=
  let bad := invalid "knowledge_input_identity_invalid" in
  require (keys_are ["ownerKind"; "ownerId"; "generation"; "sha256"] v) bad;;
  known ← kmember ["sourceObject"; "userLibraryObject"; "artifact"] (get "ownerKind" v);
  require known (invalid "knowledge_owner_kind_unsupported");;
  require match get "ownerId" v with VStr s => negb (is_empty s) | _ => false end bad;;
  require (int_where (Z.leb 0) (get "generation" v)) bad;;
  klift (require_sha256 "inputIdentity.sha256" (get "sha256" v)).

Definition representation_id (input_identity : value) (spec_digest : pystr) : K pystr :=
  _validate_input_identity input_identity;;
  klift (require_sha256 "specDigest" (VStr spec_digest));;
  data ← canonical_json (VDict [("inputIdentity", input_identity); ("specDigest", VStr spec_digest)]);
  Ok ("representation:sha256:" +:+ sha256_hex data).

(** ** What a processor announces *)

Record processing_output := ProcessingOutput {
  po_representation : pystr; po_canonical_size : value; po_canonical_sha256 : value; po_preview_size : value; po_preview_sha256 : value;
  po_manifest : value; po_workbook_size : value; po_workbook_sha256 : value }.
Definition size_ok (v : value) : bool := int_where (Z.leb 0) v.
(** a part is there with its digest, or absent without one *)
Definition part_ok (name code : pystr) (size digest : value) : K unit :=
  if 0 <? int_of size then klift (require_sha256 name digest) else require (is_none digest) (invalid code).
Definition validate_commit (c : processing_output) : K unit :=
  let bad := invalid "knowledge_commit_size_invalid" in
  require (size_ok (po_canonical_size c)) bad;;
  require (size_ok (po_preview_size c)) bad;;
  require (size_ok (po_workbook_size c)) bad;;
  require ((0 <? int_of (po_canonical_size c))
           && (int_of (po_canonical_size c) + int_of (po_preview_size c) + int_of (po_workbook_size c) <=? MAX_OUTPUT_BYTES)) bad;;
  klift (require_sha256 "canonicalSha256" (po_canonical_sha256 c));;
  part_ok "previewSha256" "knowledge_commit_preview_identity_invalid" (po_preview_size c) (po_preview_sha256 c);;
  part_ok "workbookSha256" "knowledge_commit_workbook_identity_invalid" (po_workbook_size c) (po_workbook_sha256 c).

(** ** The manifest *)

Definition _positive_int (maximum : Z) (v : value) : bool := int_where (fun z => (0 <? z) && (z <=? maximum)) v.

Definition _valid_page_text_span (span : value) : bool :=
  (keys_are ["text"; "bbox"] span || keys_are ["text"; "bbox"; "confidenceMilli"] span)
  && match get "text" span with VStr s => negb (is_empty s) | _ => false end
  && match get "bbox" span with
     | VList [VInt x0; VInt y0; VInt x1; VInt y1] => (0 <=? x0) && (x0 <? x1) && (x1 <=? 10000) && (0 <=? y0) && (y0 <? y1) && (y1 <=? 10000)
     | _ => false
     end
  && (is_none (get "confidenceMilli" span) || int_where (fun z => (0 <=? z) && (z <=? 1000)) (get "confidenceMilli" span)).

Definition count_newlines (b : bytes) : Z := zlen (filter (fun c => c = 10) b).
(** [b[start:end]] for [0 <= start] *)
Definition byte_slice (start end_ : Z) (b : bytes) : bytes := take (Z.to_nat (end_ - start)) (drop (Z.to_nat start) b).
(** ["\n".join(l)] *)
Fixpoint join_lines (l : list pystr) : pystr :=
  match l with
  | [] => ""
  | [s] => s
  | s :: l => s +:+ PyStr [10] +:+ join_lines l
  end.

Definition PAGE_FIELDS : list pystr := ["pageText"; "canonicalStartByte"; "canonicalEndByte"; "canonicalStartLine"; "canonicalEndLine"].
Definition PAGE_TEXT_FIELDS : list pystr := ["schema"; "page"; "route"; "widthMillipoints"; "heightMillipoints"; "text"; "textSha256"; "spans"].

Definition no_items {A} (l : list A) : bool := match l with [] => true | _ => false end.
(** One page: the end of its text and the line it ends on.  A text that is not a string is read as the empty one. *)
Definition validate_page (canonical : bytes) (expected_page previous_end previous_end_line : Z) (page : value) : K (Z * Z) :=
  require (keys_are PAGE_FIELDS page) (invalid "knowledge_manifest_page_invalid");;
  let text := get "pageText" page in
  require (keys_are PAGE_TEXT_FIELDS text) (invalid "knowledge_page_text_invalid");;
  encoded ← match get "text" text with VStr s => from_option_res KUnicodeEncodeError (utf8_encode s) | _ => Ok [] end;
  let bad := invalid "knowledge_page_text_identity_invalid" in
  match get "canonicalStartByte" page, get "canonicalEndByte" page, get "canonicalStartLine" page, get "canonicalEndLine" page with
  | VInt start_byte, VInt end_byte, VInt start_line, VInt end_line =>
      require (is_str "knowledge.page_text.v1" (get "schema" text) && int_where (Z.eqb expected_page) (get "page" text)) bad;;
      route ← kmember ["nativeText"; "pdfNative"; "ppOcrV6Small"; "empty"] (get "route" text);
      require (route && _positive_int 4294967295 (get "widthMillipoints" text) && _positive_int 4294967295 (get "heightMillipoints" text)
               && (zlen encoded <=? 4 * 1024 * 1024) && is_str (sha256_tag encoded) (get "textSha256" text)
               && (previous_end <=? start_byte) && (0 <=? start_byte) && (end_byte =? start_byte + zlen encoded) && (end_byte <=? zlen canonical)
               && bool_decide (byte_slice start_byte end_byte canonical = encoded)
               && (start_line =? previous_end_line + count_newlines (byte_slice previous_end start_byte canonical))
               && (end_line =? start_line + count_newlines encoded)) bad;;
      let bad := invalid "knowledge_page_text_spans_invalid" in
      spans ← from_option_res bad (as_list (get "spans" text));
      let empty_text := bool_decide (encoded = []) in
      let no_spans := no_items spans in
      require ((zlen spans <=? 200000) && forallb _valid_page_text_span spans
               && negb (is_str "empty" (get "route" text) && negb (empty_text && no_spans))
               && (no_spans || is_str (join_lines (map (fun s => text_of (get "text" s)) spans)) (get "text" text))
               && (empty_text || negb no_spans)) bad;;
      Ok (end_byte, end_line)
  | _, _, _, _ => Err bad
  end.
Fixpoint validate_pages (canonical : bytes) (expected_page previous_end previous_end_line : Z) (pages : list value) : K unit :=
  match pages with
  | [] => Ok tt
  | page :: pages =>
      p ← validate_page canonical expected_page previous_end previous_end_line page;
      validate_pages canonical (expected_page + 1) p.1 p.2 pages
  end.
Definition _validate_manifest (manifest : value) (canonical : bytes) : K unit :=
  require (bool_decide (is_Some (utf8_decode canonical))) (invalid "knowledge_canonical_utf8_invalid");;
  require (keys_are ["schema"; "pageCount"; "pages"] manifest && is_str "knowledge.derived_manifest.v1" (get "schema" manifest))
    (invalid "knowledge_manifest_invalid");;
  let bad := invalid "knowledge_manifest_page_count_invalid" in
  pages ← from_option_res bad (as_list (get "pages" manifest));
  require (int_where (Z.eqb (zlen pages)) (get "pageCount" manifest) && negb (no_items pages)) bad;;
  validate_pages canonical 1 0 1 pages.

(** ** The workbook preview *)

(** [a and b] where the operands may raise *)
Definition kand (a b : K bool) : K bool := x ← a; if (x : bool) then b else Ok false.
Infix "&?" := kand (at level 40, left associativity).
Fixpoint kall {A} (p : A -> K bool) (l : list A) : K bool := match l with [] => Ok true | x :: l => p x &? kall p l end.

Definition is_upper_hex (c : Z) : bool := ((48 <=? c) && (c <=? 57)) || ((65 <=? c) && (c <=? 70)).
Definition _valid_color (v : value) : bool :=
  match v with
  | VNone => true
  | VStr s => match code_points s with 35 :: l => (length l =? 6)%nat && forallb is_upper_hex l | _ => false end
  | _ => false
  end.
Definition is_upper (c : Z) : bool := (65 <=? c) && (c <=? 90).
(** [[A-Z]{1,3}[1-9][0-9]{0,6}] *)
Fixpoint cell_reference (letters : nat) (l : list Z) : bool :=
  match l with
  | c :: l' =>
      if is_upper c then match letters with O => false | S n => cell_reference n l' end
      else (letters <? 3)%nat && is_digit c && negb (c =? 48) && (length l' <=? 6)%nat && forallb is_digit l'
  | [] => false
  end.
Definition frozen_pane_ok (v : value) : bool := match v with VNone => true | VStr s => cell_reference 3 (code_points s) | _ => false end.
Definition is_bool (v : value) : bool := match v with VBool _ => true | _ => false end.
Definition is_text (v : value) : bool := match v with VStr _ => true | _ => false end.
(** [v is None or v in {...}] *)
Definition none_or_member (ss : list pystr) (v : value) : K bool := if is_none v then Ok true else kmember ss v.
Definition none_or_positive (maximum : Z) (v : value) : bool := is_none v || _positive_int maximum v.

Definition border_ok (v : value) : bool := keys_are ["style"; "color"] v && is_text (get "style" v) && _valid_color (get "color" v).
Definition _valid_workbook_style (style : value) : K bool :=
  let font := get "font" style in
  let borders := get "borders" style in
  Ok (keys_are ["font"; "fill"; "horizontal"; "vertical"; "wrapText"; "borders"] style
      && keys_are ["bold"; "italic"; "color"] font && is_bool (get "bold" font) && is_bool (get "italic" font)
      && _valid_color (get "color" font) && _valid_color (get "fill" style))
  &? none_or_member ["left"; "center"; "right"; "general"; "fill"; "justify"; "centerContinuous"; "distributed"] (get "horizontal" style)
  &? none_or_member ["top"; "center"; "bottom"; "justify"; "distributed"] (get "vertical" style)
  &? Ok (is_bool (get "wrapText" style)
         && match borders with
            | VDict d => forallb (fun kv => bool_decide (kv.1 ∈ (["top"; "right"; "bottom"; "left"] : list pystr)) && border_ok kv.2) d
            | _ => false
            end).

Definition _valid_workbook_column (maximum : Z) (column : value) : bool :=
  keys_are ["index"; "widthPx"; "hidden"] column && _positive_int maximum (get "index" column)
  && none_or_positive 10000 (get "widthPx" column) && is_bool (get "hidden" column).
Definition valid_cell (maximum_column style_count : Z) (cell : value) : K bool :=
  Ok (keys_are ["column"; "displayValue"; "kind"; "formula"; "numberFormat"; "styleId"] cell && _positive_int maximum_column (get "column" cell))
  &? match get "displayValue" cell with
     | VStr s => data ← from_option_res KUnicodeEncodeError (utf8_encode s); Ok (zlen data <=? 4 * 1024 * 1024)
     | _ => Ok false
     end
  &? kmember ["text"; "number"; "date"; "boolean"; "formula"; "blank"] (get "kind" cell)
  &? Ok ((is_none (get "formula" cell) || is_text (get "formula" cell)) && is_text (get "numberFormat" cell)
         && int_where (fun z => (0 <=? z) && (z <? style_count)) (get "styleId" cell)).
Definition _valid_workbook_row (maximum_row maximum_column style_count : Z) (row : value) : K bool :=
  match get "cells" row with
  | VList cells =>
      if keys_are ["index"; "heightPx"; "hidden"; "cells"] row && _positive_int maximum_row (get "index" row)
         && none_or_positive 10000 (get "heightPx" row) && is_bool (get "hidden" row)
      then kall (valid_cell maximum_column style_count) cells else Ok false
  | _ => Ok false
  end.
Definition _valid_workbook_merge (maximum_row maximum_column : Z) (merge : value) : bool :=
  keys_are ["startRow"; "startColumn"; "endRow"; "endColumn"] merge
  && _positive_int maximum_row (get "startRow" merge) && _positive_int maximum_row (get "endRow" merge)
  && _positive_int maximum_column (get "startColumn" merge) && _positive_int maximum_column (get "endColumn" merge)
  && (int_of (get "startRow" merge) <=? int_of (get "endRow" merge)) && (int_of (get "startColumn" merge) <=? int_of (get "endColumn" merge)).

Definition SHEET_FIELDS : list pystr := ["name"; "state"; "maxRow"; "maxColumn"; "frozenPane"; "columns"; "rows"; "merges"].
Definition sheet_ok (style_count : Z) (sheet : value) : K bool :=
  let max_row := int_of (get "maxRow" sheet) in
  let max_column := int_of (get "maxColumn" sheet) in
  Ok (keys_are SHEET_FIELDS sheet && match get "name" sheet with VStr s => negb (is_empty s) | _ => false end)
  &? kmember ["visible"; "hidden"; "veryHidden"] (get "state" sheet)
  &? Ok (_positive_int 1048576 (get "maxRow" sheet) && _positive_int 16384 (get "maxColumn" sheet) && (max_row * max_column <=? 100000)
         && frozen_pane_ok (get "frozenPane" sheet))
  &? match get "columns" sheet, get "rows" sheet, get "merges" sheet with
     | VList columns, VList rows, VList merges =>
         Ok (forallb (_valid_workbook_column max_column) columns)
         &? kall (_valid_workbook_row max_row max_column style_count) rows
         &? Ok (forallb (_valid_workbook_merge max_row max_column) merges)
     | _, _, _ => Ok false
     end.
Definition _validate_workbook_preview (payload : bytes) : K unit :=
  let bad := invalid "knowledge_workbook_preview_invalid" in
  text ← from_option_res bad (utf8_decode payload);
  workbook ← catch (json_loads text) (fun e => Err match e with IntTooLong => KValueError | _ => bad end);
  require (keys_are ["schema"; "styles"; "sheets"] workbook && is_str "knowledge.workbook_preview.v1" (get "schema" workbook)) bad;;
  styles ← from_option_res bad (as_list (get "styles" workbook));
  sheets ← from_option_res bad (as_list (get "sheets" workbook));
  require (negb (no_items sheets) && (zlen sheets <=? 100)) bad;;
  styles_ok ← kall _valid_workbook_style styles;
  require styles_ok bad;;
  sheets_ok ← kall (sheet_ok (zlen styles)) sheets;
  require sheets_ok bad.

(** ** Segments *)

Record segment := Segment {
  sg_id : pystr; sg_ordinal : Z; sg_text : pystr; sg_sha256 : pystr;
  (** the locator: the page, and the bytes and lines of the canonical text *)
  sg_page : Z; sg_start : Z; sg_end : Z; sg_start_line : Z; sg_end_line : Z }.

(** the longest beginning of at most [n] bytes that is UTF-8 *)
Fixpoint longest_decodable (n : nat) (rest : bytes) : option (nat * pystr) :=
  match n with
  | O => None
  | S n' => match utf8_decode (take n rest) with Some s => Some (n, s) | None => longest_decodable n' rest end
  end.

(** The bytes [rest] of a page from [start] on, which begin on [line]; every iteration takes one byte or more. *)
Fixpoint page_segments (fuel : nat) (representation : pystr) (page page_start start line ordinal : Z) (rest : bytes) : K (list segment * Z) :=
  match fuel, rest with
  | _, [] => Ok ([], ordinal)
  | O, _ => Ok ([], ordinal)
  | S fuel, _ =>
      match longest_decodable (Z.to_nat (Z.min (zlen rest) MAX_SEGMENT_BYTES)) rest with
      | None => Err (KnowledgeError "knowledge_segment_utf8_boundary_invalid" 409)
      | Some (n, bounded) =>
          let end_ := start + Z.of_nat n in
          let newlines := zlen (filter (fun c => c = 10) (code_points bounded)) in
          let go ordinal := page_segments fuel representation page page_start end_ (line + newlines) ordinal (drop n rest) in
          if is_empty (strip bounded) then go ordinal
          else
            data ← from_option_res KUnicodeEncodeError (utf8_encode bounded);
            let text_hash := sha256_tag data in
            identity ← canonical_json (VList [VStr representation; VInt ordinal; VStr text_hash]);
            r ← go (ordinal + 1);
            Ok (Segment ("segment:sha256:" +:+ sha256_hex identity) ordinal bounded text_hash page (page_start + start) (page_start + end_) line (line + newlines) :: r.1, r.2)
      end
  end.
Fixpoint segments_loop (representation : pystr) (ordinal : Z) (pages : list value) : K (list segment) :=
  match pages with
  | [] => Ok []
  | page :: pages =>
      let text := get "pageText" page in
      s ← from_option_res KAttributeError (as_str (get "text" text));
      encoded ← from_option_res KUnicodeEncodeError (utf8_encode s);
      r ← page_segments (length encoded) representation (int_of (get "page" text)) (int_of (get "canonicalStartByte" page)) 0
            (int_of (get "canonicalStartLine" page)) ordinal encoded;
      rest ← segments_loop representation r.2 pages;
      Ok (r.1 ++ rest)
  end.
Definition _segments (representation : pystr) (manifest : value) : K (list segment) :=
  segments_loop representation 0 (default [] (as_list (get "pages" manifest))).
