(* ===== verification/MaterialManifestProps.v ===== *)
(** * Correctness of manifests and segments

    The segments of an accepted manifest are exactly its pages, cut into pieces of bounded size without their blank
    pieces, and each is found in the stored text by its bytes, its lines and its digest; a representation is named after
    its input and its specification. *)

From stdpp Require Import base tactics list numbers sorting.
From S2P Require Import Prelude PyStr Utf8 Sha256 Platform PyValue Json Cursor Contract RuntimeReplies Transcript TranscriptProps MaterialManifest.

(** ** Bytes *)

Lemma encode_newlines l : count_newlines (encode_cps l) = zlen (filter (fun c => c = 10) l).
Proof.
  unfold count_newlines, zlen. induction l as [|c l IH]; [done|]. rewrite encode_cps_cons, filter_app, length_app.
  assert (E : filter (fun b => b = 10) (encode_cp c) = if decide (c = 10) then [10] else []).
  { unfold encode_cp. repeat match goal with |- context [if c <? ?n then _ else _] => destruct (Z.ltb_spec c n) end;
      rewrite ?filter_cons, ?filter_nil; repeat case_decide; subst; try done; exfalso; Z.to_euclidean_division_equations; lia. }
  rewrite E, filter_cons. case_decide; cbn [length]; lia.
Qed.
Lemma count_newlines_app b1 b2 : count_newlines (b1 ++ b2) = count_newlines b1 + count_newlines b2.
Proof. unfold count_newlines, zlen. rewrite filter_app, length_app. lia. Qed.

(** the beginning that is decoded is the longest one that does not cut a code point *)
Lemma longest_decodable_cut l p k : forallb is_scalar l = true -> l <> [] -> fragment p -> (k <= length p)%nat -> forall tail,
  longest_decodable (length (encode_cps l) + k) (encode_cps l ++ p ++ tail) = Some (length (encode_cps l), PyStr l).
Proof.
  intros Hl Hne Hp Hk tail. induction k as [|k IH].
  - rewrite Nat.add_0_r. destruct (length (encode_cps l)) as [|n] eqn:E.
    { apply length_zero_iff_nil, encode_cps_nil in E. done. }
    cbn [longest_decodable]. rewrite <- E, take_app_length, decode_encoding by done. done.
  - rewrite Nat.add_succ_r. cbn [longest_decodable]. rewrite <- Nat.add_succ_r.
    rewrite take_app_add, take_app_le by lia. rewrite decode_cut; [apply IH; lia|done|by apply fragment_take|].
    intros E. apply (f_equal length) in E. rewrite length_take in E. cbn [length] in E. lia.
Qed.
Lemma longest_decodable_spec l : forallb is_scalar l = true -> l <> [] ->
  exists l1 l2, l = l1 ++ l2 /\ l1 <> [] /\ zlen (encode_cps l1) <= MAX_SEGMENT_BYTES /\
    longest_decodable (Z.to_nat (Z.min (zlen (encode_cps l)) MAX_SEGMENT_BYTES)) (encode_cps l) = Some (length (encode_cps l1), PyStr l1).
Proof.
  intros Hl Hne. set (n := Z.to_nat (Z.min (zlen (encode_cps l)) MAX_SEGMENT_BYTES)).
  destruct (decide (length (encode_cps l) <= Z.to_nat MAX_SEGMENT_BYTES)%nat) as [Hs|Hs].
  - exists l, []. rewrite app_nil_r. split_and!; try done; [unfold zlen, MAX_SEGMENT_BYTES in *; lia|].
    assert (n = length (encode_cps l) + 0)%nat as -> by (unfold n, zlen, MAX_SEGMENT_BYTES in *; lia).
    pose proof (longest_decodable_cut l [] 0 Hl Hne (whole) ltac:(cbn; lia) []) as H. by rewrite !app_nil_r in H.
  - assert (n = Z.to_nat MAX_SEGMENT_BYTES) as Hn by (unfold n, zlen, MAX_SEGMENT_BYTES in *; lia).
    destruct (cut_encoding l n Hl) as (l1 & l2 & p & -> & Ht & Hp & H4 & _). rewrite forallb_app in Hl. apply andb_prop in Hl as [Hl1 Hl2].
    assert (l1 <> []) as Hne1 by (apply H4; [done|unfold MAX_SEGMENT_BYTES in *; lia]).
    assert (Hlen : (length (encode_cps l1) + length p = n)%nat).
    { rewrite <- length_app, <- Ht, length_take. unfold MAX_SEGMENT_BYTES in *. lia. }
    exists l1, l2. split_and!; try done; [unfold zlen, MAX_SEGMENT_BYTES in *; lia|].
    rewrite <- (take_drop n (encode_cps (l1 ++ l2))), Ht, <- Hlen, <- app_assoc. apply longest_decodable_cut; [done|done|done|lia].
Qed.

(** ** Identifiers of segments *)

Lemma ascii_escapes l : Forall (fun c => 0 <= c < 128) l -> Forall (fun c => 0 <= c < 128) (concat (map escape_char l)).
Proof.
  induction 1 as [|c l Hc _ IH]; [constructor|]. cbn [map concat]. apply Forall_app. split; [|done]. unfold escape_char, hex_char.
  repeat case_match; bool_inv; repeat (apply List.Forall_cons; [Z.to_euclidean_division_equations; lia|]); try apply List.Forall_nil; lia.
Qed.
Lemma int_chars_ascii n : Forall (fun c => 0 <= c < 128) (int_chars n).
Proof. unfold int_chars. case_match; [apply List.Forall_cons; [lia|]|]; apply digits_range; lia. Qed.
Definition ascii_text (s : pystr) : Prop := Forall (fun c => 0 <= c < 128) (code_points s).
Lemma dump_str_ascii s : ascii_text s -> Forall (fun c => 0 <= c < 128) (dump_str s).
Proof. intros H. apply List.Forall_cons; [lia|]. apply Forall_app. split; [by apply ascii_escapes|]. by repeat constructor. Qed.
Lemma sha256_tag_ascii data : ascii_text (sha256_tag data).
Proof.
  unfold ascii_text, sha256_tag. rewrite code_points_app. apply Forall_app. split; [by_decide|]. destruct (sha256_hex_wf data) as [_ H].
  unfold chars_all in H. apply forallb_Forall in H. eapply Forall_impl; [exact H|]. intros c. cbn. unfold is_lower_hex. lia.
Qed.
Lemma segment_identity_ok representation ordinal data : ascii_text representation ->
  exists b, canonical_json (VList [VStr representation; VInt ordinal; VStr (sha256_tag data)]) = Ok b.
Proof.
  intros Hr. unfold canonical_json. cbn [sort_keys map]. unfold json_dumps. cbn [dump].
  rewrite utf8_encode_ascii; [by eexists|]. pose proof (dump_str_ascii _ Hr) as H1. pose proof (int_chars_ascii ordinal) as H2.
  pose proof (dump_str_ascii _ (sha256_tag_ascii data)) as H3.
  repeat first [exact H1|exact H2|exact H3|apply Forall_app; split|apply List.Forall_cons; [lia|]|apply List.Forall_nil].
Qed.

(** ** Pages *)

(** A segment is found in the text by what it says. *)
Record well_placed (canonical : bytes) (sg : segment) : Prop := WellPlaced {
  wp_range : 0 <= sg_start sg < sg_end sg /\ sg_end sg <= zlen canonical;
  wp_size : sg_end sg - sg_start sg <= MAX_SEGMENT_BYTES;
  wp_text : utf8_encode (sg_text sg) = Some (byte_slice (sg_start sg) (sg_end sg) canonical);
  wp_digest : sg_sha256 sg = sha256_tag (byte_slice (sg_start sg) (sg_end sg) canonical);
  wp_lines : sg_start_line sg = 1 + count_newlines (byte_slice 0 (sg_start sg) canonical) /\
             sg_end_line sg = 1 + count_newlines (byte_slice 0 (sg_end sg) canonical) }.
(** the segments lie between two positions, one after the other *)
Fixpoint in_order (from to : Z) (segs : list segment) : Prop :=
  match segs with
  | [] => from <= to
  | sg :: segs => from <= sg_start sg /\ in_order (sg_end sg) to segs
  end.
Lemma in_order_weaken from from' to segs : from' <= from -> in_order from to segs -> in_order from' to segs.
Proof. destruct segs as [|sg segs]; cbn; [lia|]. intros ? [? ?]. split; [lia|done]. Qed.
Lemma in_order_app from mid to segs segs' : in_order from mid segs -> in_order mid to segs' -> in_order from to (segs ++ segs').
Proof. revert from. induction segs as [|sg segs IH]; intros from; cbn; [intros; by eapply in_order_weaken|]. intros [? ?] ?. eauto. Qed.

Definition nonblank_text (s : pystr) : Prop := is_empty (strip s) = false.
#[local] Instance nonblank_dec s : Decision (nonblank_text s).
Proof. unfold nonblank_text. apply _. Defined.

Lemma slice_middle (pre mid post : bytes) : byte_slice (zlen pre) (zlen pre + zlen mid) (pre ++ mid ++ post) = mid.
Proof. unfold byte_slice, zlen. rewrite Nat2Z.id, drop_app_length, take_app_length' by lia. done. Qed.
Lemma slice_front (pre post : bytes) : byte_slice 0 (zlen pre) (pre ++ post) = pre.
Proof. unfold byte_slice, zlen. rewrite drop_0, take_app_length' by lia. done. Qed.

(** What the cut of a text at [pre], up to the end of [text], must be. *)
Record cut_of (canonical : bytes) (page from to ordinal : Z) (text : list Z) (segs : list segment) (pieces : list (list Z)) : Prop := CutOf {
  co_all : concat pieces = text;
  co_texts : map sg_text segs = filter nonblank_text (map PyStr pieces);
  co_placed : Forall (well_placed canonical) segs;
  co_order : in_order from to segs;
  co_page : Forall (fun sg => sg_page sg = page) segs;
  co_ordinals : map sg_ordinal segs = seqZ ordinal (zlen segs) }.

Lemma cut_nil canonical page from ordinal : cut_of canonical page from (from + zlen (encode_cps [])) ordinal [] [] [].
Proof. constructor; try done; try constructor. cbn. unfold zlen. cbn. lia. Qed.
Lemma cut_blank canonical page from mid to ordinal l1 l2 segs pieces : is_empty (strip (PyStr l1)) = true -> from <= mid ->
  cut_of canonical page mid to ordinal l2 segs pieces -> cut_of canonical page from to ordinal (l1 ++ l2) segs (l1 :: pieces).
Proof.
  intros Hb Hle [C1 C2 C3 C4 C5 C6]. split; try done; [cbn; by rewrite C1| |by eapply in_order_weaken].
  cbn [map]. rewrite filter_cons_False; [done|]. unfold nonblank_text. by rewrite Hb.
Qed.
Lemma cut_piece canonical page to ordinal l1 l2 sg segs pieces : is_empty (strip (PyStr l1)) = false ->
  well_placed canonical sg -> sg_text sg = PyStr l1 -> sg_page sg = page -> sg_ordinal sg = ordinal ->
  cut_of canonical page (sg_end sg) to (ordinal + 1) l2 segs pieces -> cut_of canonical page (sg_start sg) to ordinal (l1 ++ l2) (sg :: segs) (l1 :: pieces).
Proof.
  intros Hb Hw Ht Hp Ho [C1 C2 C3 C4 C5 C6]. split.
  - cbn. by rewrite C1.
  - cbn [map]. rewrite filter_cons_True by done. by rewrite Ht, C2.
  - by constructor.
  - split; [lia|done].
  - by constructor.
  - cbn [map]. rewrite Ho, C6, zlen_cons, (seqZ_cons ordinal) by (pose proof (zlen_nonneg segs); lia).
    f_equal. f_equal; lia.
Qed.

Lemma placed_piece (pre post : bytes) l1 id ordinal page : forallb is_scalar l1 = true -> l1 <> [] -> zlen (encode_cps l1) <= MAX_SEGMENT_BYTES ->
  well_placed (pre ++ encode_cps l1 ++ post)
    (Segment id ordinal (PyStr l1) (sha256_tag (encode_cps l1)) page (zlen pre) (zlen pre + zlen (encode_cps l1)) (1 + count_newlines pre)
       (1 + count_newlines pre + zlen (filter (fun c => c = 10) l1))).
Proof.
  intros Hs Hne Hmax. assert (0 < zlen (encode_cps l1)).
  { unfold zlen. destruct (encode_cps l1) eqn:E; [by apply encode_cps_nil in E|]. cbn [length]. lia. }
  pose proof (zlen_nonneg pre). pose proof (zlen_nonneg post). split; cbn [sg_start sg_end sg_text sg_sha256 sg_start_line sg_end_line].
  - rewrite !zlen_app. lia.
  - lia.
  - rewrite slice_middle. unfold utf8_encode. cbn [code_points]. by rewrite Hs.
  - by rewrite slice_middle.
  - rewrite slice_front. split; [done|]. rewrite <- zlen_app, app_assoc, slice_front, count_newlines_app, encode_newlines. lia.
Qed.

Lemma page_segments_spec representation page page_start : ascii_text representation ->
  forall fuel text pre post start line ordinal, forallb is_scalar text = true -> (length (encode_cps text) <= fuel)%nat ->
  zlen pre = page_start + start -> line = 1 + count_newlines pre ->
  exists segs pieces, page_segments fuel representation page page_start start line ordinal (encode_cps text) = Ok (segs, ordinal + zlen segs) /\
    cut_of (pre ++ encode_cps text ++ post) page (zlen pre) (zlen pre + zlen (encode_cps text)) ordinal text segs pieces.
Proof.
  intros Hrep fuel. induction fuel as [|fuel IH]; intros text pre post start line ordinal Hs Hf Hpre Hline.
  { assert (text = []) as -> by (apply encode_cps_nil, length_zero_iff_nil; lia). exists [], []. split; [|apply cut_nil]. cbn. do 2 f_equal. unfold zlen. cbn. lia. }
  destruct (decide (text = [])) as [->|Hne].
  { exists [], []. split; [|apply cut_nil]. cbn. do 2 f_equal. unfold zlen. cbn. lia. }
  destruct (longest_decodable_spec text Hs Hne) as (l1 & l2 & -> & Hne1 & Hmax & Hlong).
  rewrite forallb_app in Hs. apply andb_prop in Hs as [Hs1 Hs2]. rewrite encode_cps_app in *. rewrite length_app in Hf.
  assert (Hpos : (0 < length (encode_cps l1))%nat) by (destruct (encode_cps l1) eqn:E; [by apply encode_cps_nil in E|cbn; lia]).
  cbn [page_segments]. destruct (encode_cps l1 ++ encode_cps l2) as [|b r] eqn:Er; [apply app_eq_nil in Er as [E _]; rewrite E in Hpos; cbn in Hpos; lia|]. rewrite <- Er in *. clear b r Er.
  rewrite Hlong. cbv zeta. rewrite drop_app_length. cbn [code_points].
  set (ordinal' := if is_empty (strip (PyStr l1)) then ordinal else ordinal + 1).
  destruct (IH l2 (pre ++ encode_cps l1) post (start + Z.of_nat (length (encode_cps l1))) (line + zlen (filter (fun c => c = 10) l1)) ordinal') as (segs & pieces & Hgo & Hcut);
    [done|lia|unfold zlen in *; rewrite length_app; lia|rewrite count_newlines_app, encode_newlines; lia|].
  rewrite zlen_app in Hcut. rewrite <- app_assoc in Hcut. rewrite zlen_app, (Z.add_assoc (zlen pre)), <- app_assoc. destruct (is_empty (strip (PyStr l1))) eqn:Hb; subst ordinal'.
  - exists segs, (l1 :: pieces). split; [exact Hgo|]. eapply cut_blank; [done| |exact Hcut]. pose proof (zlen_nonneg (encode_cps l1)). lia.
  - assert (He : utf8_encode (PyStr l1) = Some (encode_cps l1)) by (unfold utf8_encode; cbn [code_points]; by rewrite Hs1).
    destruct (segment_identity_ok representation ordinal (encode_cps l1) Hrep) as [identity Hid]. rewrite He. cbn [from_option_res mbind res_bind]. rewrite Hid. cbn [mbind res_bind].
    rewrite Hgo. cbn [mbind res_bind fst snd]. eexists _, (l1 :: pieces). split; [rewrite zlen_cons; do 2 f_equal; lia|].
    rewrite (Z.add_assoc page_start), <- Hpre. change (Z.of_nat (length (encode_cps l1))) with (zlen (encode_cps l1)). rewrite Hline.
    eapply (cut_piece _ _ _ _ _ _ (Segment _ _ _ _ _ _ _ _ _)); [done|by apply placed_piece|done|done|done|exact Hcut].
Qed.

(** ** Manifests *)

Definition page_text (page : value) : value := get "text" (get "pageText" page).
Lemma validate_page_spec canonical k pe pl page s e el : page_text page = VStr s ->
  validate_page canonical k pe pl page = Ok (e, el) ->
  exists start encoded, utf8_encode s = Some encoded /\ get "canonicalStartByte" page = VInt start /\ pe <= start /\ 0 <= start /\
    e = start + zlen encoded /\ e <= zlen canonical /\ byte_slice start e canonical = encoded /\
    get "canonicalStartLine" page = VInt (pl + count_newlines (byte_slice pe start canonical)) /\
    el = pl + count_newlines (byte_slice pe start canonical) + count_newlines encoded /\ get "page" (get "pageText" page) = VInt k.
Proof.
  unfold validate_page, page_text. intros Ht H. rewrite Ht in H. walk H. res_inv. bool_inv. subst.
  match goal with H : int_where _ _ = true |- _ => unfold int_where in H; destruct (as_int _) eqn:Ek in H; [|done]; apply as_int_Some in Ek end.
  match goal with H : (_ =? _) = true |- _ => apply Z.eqb_eq in H; subst end.
  eexists _, _. split_and!; try eassumption; try lia; try done; f_equal; lia.
Qed.

Lemma split_at_slice (b encoded : bytes) start : 0 <= start -> start + zlen encoded <= zlen b -> byte_slice start (start + zlen encoded) b = encoded ->
  exists pre post, b = pre ++ encoded ++ post /\ zlen pre = start.
Proof.
  intros H0 Hle Hs. exists (take (Z.to_nat start) b), (drop (Z.to_nat (zlen encoded)) (drop (Z.to_nat start) b)). split.
  - rewrite <- (take_drop (Z.to_nat start) b) at 1. f_equal. unfold byte_slice in Hs. replace (start + zlen encoded - start) with (zlen encoded) in Hs by lia.
    rewrite <- Hs at 1. symmetry. apply take_drop.
  - unfold zlen in *. rewrite length_take. lia.
Qed.
Lemma newlines_split (b : bytes) i j : 0 <= i <= j -> count_newlines (byte_slice 0 j b) = count_newlines (byte_slice 0 i b) + count_newlines (byte_slice i j b).
Proof.
  intros H. rewrite <- count_newlines_app. f_equal. unfold byte_slice. rewrite drop_0, !Z.sub_0_r. replace (Z.to_nat j) with (Z.to_nat i + Z.to_nat (j - i))%nat by lia.
  symmetry. apply take_take_drop.
Qed.

Record manifest_cut (canonical : bytes) (from ordinal : Z) (pages : list value) (segs : list segment) (pieces : list (list pystr)) : Prop := ManifestCut {
  mc_placed : Forall (well_placed canonical) segs;
  mc_order : in_order from (zlen canonical) segs;
  mc_ordinals : map sg_ordinal segs = seqZ ordinal (zlen segs);
  mc_pages : Forall2 (fun page cut => page_text page = VStr (PyStr (concat (map code_points cut)))) pages pieces;
  mc_texts : map sg_text segs = filter nonblank_text (concat pieces) }.

Lemma segments_loop_spec representation canonical pages : ascii_text representation -> forall k pe pl ordinal,
  Forall (fun page => exists s, page_text page = VStr s) pages -> 0 <= pe <= zlen canonical -> pl = 1 + count_newlines (byte_slice 0 pe canonical) ->
  validate_pages canonical k pe pl pages = Ok tt ->
  exists segs pieces, segments_loop representation ordinal pages = Ok segs /\ manifest_cut canonical pe ordinal pages segs pieces.
Proof.
  intros Hrep. induction pages as [|page pages IH]; intros k pe pl ordinal Ht Hpe Hpl H.
  { exists [], []. split; [done|]. split; try done; try constructor. cbn. lia. }
  inversion_clear Ht as [|?? [s Hs] Ht']. cbn [validate_pages] in H. apply bind_Ok in H as ([e el] & Hv & H).
  destruct (validate_page_spec _ _ _ _ _ _ _ _ Hs Hv) as (start & encoded & He & Hsb & Hle & H0 & -> & Hend & Hslice & Hsl & -> & Hpage).
  assert (Henc : encoded = encode_cps (code_points s) /\ forallb is_scalar (code_points s) = true) by (unfold utf8_encode in He; case_match; naive_solver).
  destruct Henc as [-> Hsc]. destruct (split_at_slice _ _ _ H0 Hend Hslice) as (pre & post & Hcan & Hpre).
  assert (Hline : pl + count_newlines (byte_slice pe start canonical) = 1 + count_newlines pre).
  { rewrite Hpl, <- Z.add_assoc, <- newlines_split by lia. rewrite Hcan, <- Hpre, slice_front. done. }
  destruct (page_segments_spec representation k start Hrep (length (encode_cps (code_points s))) (code_points s) pre post 0 (pl + count_newlines (byte_slice pe start canonical)) ordinal)
    as (segs1 & pieces1 & Hseg & [C1 C2 C3 C4 C5 C6]); [done|lia|lia|done|]. rewrite <- Hcan in C3. rewrite Hpre in C4.
  destruct (IH (k + 1) (start + zlen (encode_cps (code_points s))) (pl + count_newlines (byte_slice pe start canonical) + count_newlines (encode_cps (code_points s))) (ordinal + zlen segs1) Ht')
    as (segs2 & pieces2 & Hloop & [M1 M2 M3 M4 M5]); [pose proof (zlen_nonneg (encode_cps (code_points s))); lia| |done|].
  { rewrite Hline, <- Z.add_assoc, <- count_newlines_app, <- Hpre, <- zlen_app, Hcan, app_assoc, slice_front. done. }
  exists (segs1 ++ segs2), (map PyStr pieces1 :: pieces2). unfold page_text in Hs. split.
  { cbn [segments_loop]. rewrite Hs. cbn [as_str from_option_res mbind res_bind]. rewrite He. cbn [from_option_res mbind res_bind]. rewrite Hpage, Hsb, Hsl. unfold int_of. cbn [as_int default from_option]. unfold id.
    rewrite Hseg. cbn [mbind res_bind fst snd]. by rewrite Hloop. }
  split.
  - by apply Forall_app.
  - eapply in_order_app; [eapply in_order_weaken; [exact Hle|exact C4]|exact M2].
  - rewrite map_app, C6, M3, zlen_app, <- seqZ_app; [done|apply zlen_nonneg..].
  - constructor; [|done]. unfold page_text. rewrite Hs, map_map. cbn [code_points]. rewrite map_id, C1. by destruct s.
  - cbn [concat]. by rewrite map_app, filter_app, C2, M5.
Qed.

(** The segments of an accepted manifest whose page texts are strings: cutting never fails; the pieces of each
    page are its text; the segments are the pieces that are not blank, numbered from zero and in the order of the
    stored text; and each has at most 32 KiB, is the text at the bytes it names, begins and ends on the lines it names
    and has the digest of those bytes. *)
Theorem segments_are_the_text representation manifest canonical pages :
  ascii_text representation -> get "pages" manifest = VList pages -> Forall (fun page => exists s, page_text page = VStr s) pages ->
  _validate_manifest manifest canonical = Ok tt ->
  exists segs pieces, _segments representation manifest = Ok segs /\
    Forall2 (fun page cut => page_text page = VStr (PyStr (concat (map code_points cut)))) pages pieces /\
    map sg_text segs = filter nonblank_text (concat pieces) /\ map sg_ordinal segs = seqZ 0 (zlen segs) /\
    in_order 0 (zlen canonical) segs /\ Forall (well_placed canonical) segs.
Proof.
  intros Hrep Hp Ht H. unfold _validate_manifest in H. walk H. rewrite Hp in *. cbn [as_list] in *.
  match goal with Hx : from_option_res _ (Some pages) = Ok _ |- _ => injection Hx as <- end.
  destruct (segments_loop_spec representation canonical pages Hrep 1 0 1 0 Ht) as (segs & pieces & Hs & [M1 M2 M3 M4 M5]); [pose proof (zlen_nonneg canonical); lia|done|done|].
  exists segs, pieces. unfold _segments. rewrite Hp. done.
Qed.

(** ** A manifest, evaluated *)

Definition sample_span (text : pystr) : value := VDict [("text", VStr text); ("bbox", VList [VInt 0; VInt 0; VInt 10; VInt 10])].
Definition sample_page (number start end_ start_line end_line : Z) (route : pystr) (text : value) (encoded : bytes) (spans : list value) : value :=
  VDict [("pageText", VDict [("schema", VStr "knowledge.page_text.v1"); ("page", VInt number); ("route", VStr route); ("widthMillipoints", VInt 595000);
                             ("heightMillipoints", VInt 842000); ("text", text); ("textSha256", VStr (sha256_tag encoded)); ("spans", VList spans)]);
         ("canonicalStartByte", VInt start); ("canonicalEndByte", VInt end_); ("canonicalStartLine", VInt start_line); ("canonicalEndLine", VInt end_line)].
Definition manifest_of (pages : list value) : value :=
  VDict [("schema", VStr "knowledge.derived_manifest.v1"); ("pageCount", VInt (zlen pages)); ("pages", VList pages)].
(** a page of two lines, and a blank one *)
Definition sample_text : pystr := PyStr [233; 10; 120].
Definition sample_pages : list value :=
  [sample_page 1 0 4 1 2 "pdfNative" (VStr sample_text) [195; 169; 10; 120] [sample_span (PyStr [233]); sample_span "x"];
   sample_page 2 5 6 3 3 "nativeText" (VStr " ") [32] [sample_span " "]].
Definition sample_canonical : bytes := [195; 169; 10; 120; 10; 32].

Lemma sample_manifest_valid : _validate_manifest (manifest_of sample_pages) sample_canonical = Ok tt.
Proof. vm_compute. reflexivity. Qed.
Lemma segments_are_the_text_witness : exists segs, _segments "representation:1" (manifest_of sample_pages) = Ok segs /\ map sg_text segs = [sample_text] /\
  Forall (well_placed sample_canonical) segs.
Proof.
  destruct (segments_are_the_text "representation:1" (manifest_of sample_pages) sample_canonical sample_pages) as (segs & pieces & Hs & _ & _ & _ & _ & Hw);
    [by_decide|reflexivity|repeat constructor; by eexists|exact sample_manifest_valid|].
  exists segs. split; [exact Hs|]. split; [|exact Hw]. vm_compute in Hs. injection Hs as <-. reflexivity.
Defined.

(** A page whose text is null passes the validation; cutting it fails. *)
Example null_text_is_accepted : let manifest := manifest_of [sample_page 1 0 0 1 1 "empty" VNone [] []] in
  _validate_manifest manifest [10] = Ok tt /\ _segments "representation:1" manifest = Err KAttributeError.
Proof. vm_compute. split; reflexivity. Qed.
