(* ===== verification/Materials.v ===== *)
(** * Processing of documents: leases, staged bytes and the commit of a result

    [packages/api/app_core/material_leases.py], [material_task_source.py], [material_storage.py], [material_staging.py],
    the stateful part of [material_commit.py], [platform_material_commit.py], and what [material_processor.py] does to the
    tables.  A worker claims a task for a while, stages the objects it is going to write, and publishes them with the
    representation in one transaction.  A transaction that raises undoes the tables, not the object store. *)

From stdpp Require Import base tactics list gmap numbers sorting.
From S2P Require Import Prelude PyStr Table Utf8 Sha256 Platform Schema PyValue Json Contract Plugins Assets Sources ResourceGc Artifacts RuntimeReplies MaterialManifest.

(** ** Rows *)

Inductive task_status := TPending | TRunning | TCompleted | TFailed.
#[global] Instance task_status_eq_dec : EqDecision task_status.
Proof. solve_decision. Defined.
(** [MaterialProcessingTask], by its representation *)
Record task_row := Task {
  tk_spec : value; tk_payload : value; tk_status : task_status; tk_error : pystr; tk_backend : pystr;
  tk_owner : pystr; tk_expires : option Z; tk_epoch : Z; tk_attempts : Z }.
(** [MaterialStagedObject], by its storage key *)
Record staged_row := Staged { sd_task : pystr; sd_size : Z; sd_sha256 : pystr }.
(** a stored part of a representation: key, size and digest *)
Record part := Part { pt_key : pystr; pt_size : Z; pt_sha256 : pystr }.
#[global] Instance part_eq_dec : EqDecision part.
Proof. solve_decision. Defined.
(** [DerivedRepresentation]; the key of a part that is absent is empty *)
Record rep_row := Representation {
  rp_owner_kind : pystr; rp_owner_id : pystr; rp_generation : Z; rp_owner_sha256 : pystr; rp_spec : pystr; rp_pages : Z;
  rp_text : part; rp_preview : part; rp_workbook : part; rp_manifest : value }.

Record mstate := MState {
  ms_store : store; ms_sources : gmap pystr source_state; ms_tasks : gmap pystr task_row; ms_staged : gmap pystr staged_row;
  (** [ProcessingSpecification], by its digest *)
  ms_specs : gmap pystr value;
  ms_reps : gmap pystr rep_row;
  (** [KnowledgeSegment] *)
  ms_segments : gmap pystr (pystr * segment) }.
Definition set_ms_store f m := MState (f (ms_store m)) (ms_sources m) (ms_tasks m) (ms_staged m) (ms_specs m) (ms_reps m) (ms_segments m).
Definition set_ms_tasks f m := MState (ms_store m) (ms_sources m) (f (ms_tasks m)) (ms_staged m) (ms_specs m) (ms_reps m) (ms_segments m).
Definition set_ms_staged f m := MState (ms_store m) (ms_sources m) (ms_tasks m) (f (ms_staged m)) (ms_specs m) (ms_reps m) (ms_segments m).
Definition set_ms_specs f m := MState (ms_store m) (ms_sources m) (ms_tasks m) (ms_staged m) (f (ms_specs m)) (ms_reps m) (ms_segments m).
Definition set_ms_reps f m := MState (ms_store m) (ms_sources m) (ms_tasks m) (ms_staged m) (ms_specs m) (f (ms_reps m)) (ms_segments m).
Definition set_ms_segments f m := MState (ms_store m) (ms_sources m) (ms_tasks m) (ms_staged m) (ms_specs m) (ms_reps m) (f (ms_segments m)).

(** ** Effects *)

Inductive mexn := MKnowledge (e : kexn) | MLeaseLost | MValueError (code : pystr) | MTaskMissing | MDatabase (e : exn).
Definition MM (A : Type) : Type := mstate -> res mexn A * mstate.
#[global] Instance MM_ret : MRet MM := fun A a m => (Ok a, m).
#[global] Instance MM_bind : MBind MM := fun A B f c m =>
  match c m with (Ok a, m') => f a m' | (Err e, m') => (Err e, m') end.
Definition mget : MM mstate := fun m => (Ok m, m).
Definition mput (f : mstate -> mstate) : MM unit := fun m => (Ok tt, f m).
Definition mres {A} (r : res mexn A) : MM A := fun m => (r, m).
Definition mlift {A} (r : K A) : MM A := mres (catch r (fun e => Err (MKnowledge e))).
Definition mstore (f : store -> res exn store) : MM unit := fun m =>
  match f (ms_store m) with Ok st => (Ok tt, set_ms_store (fun _ => st) m) | Err e => (Err (MDatabase e), m) end.
Definition mfail (code : pystr) : mexn := MKnowledge (KnowledgeError code 409).
(** [transaction.atomic] *)
Definition atomic {A} (c : MM A) : MM A := fun m =>
  match c m with (Ok a, m') => (Ok a, m') | (Err e, m') => (Err e, set_ms_store (fun st => rollback st (ms_store m')) m) end.
Fixpoint mfor {A} (f : A -> MM unit) (l : list A) : MM unit :=
  match l with [] => mret tt | a :: l => f a ≫= fun _ => mfor f l end.

(** ** Leases *)

Definition MAX_ATTEMPTS : Z := 3.
Record lease := Lease { ml_representation : pystr; ml_owner : pystr; ml_epoch : Z }.

(** owners are strings and durations integers *)
Definition _validate (owner : pystr) (seconds : Z) : res mexn unit :=
  require (negb (is_empty (strip owner)) && (str_len owner <=? 128)) (MValueError "material_lease_owner_invalid");;
  require ((1 <=? seconds) && (seconds <=? 300)) (MValueError "material_lease_duration_invalid").

(** [_locked]; the clock of the database is an argument of the operations *)
Definition _locked (identity : pystr) : MM task_row := fun m => (from_option_res MTaskMissing (ms_tasks m !! identity), m).
Definition save_task (identity : pystr) (t : task_row) : MM unit := mput (set_ms_tasks <[identity := t]>).

Definition set_task (status : task_status) (error owner : pystr) (expires : option Z) (epoch attempts : Z) (t : task_row) : task_row :=
  Task (tk_spec t) (tk_payload t) status error (tk_backend t) owner expires epoch attempts.
Definition task_active (s : task_status) : bool := bool_decide (s = TPending) || bool_decide (s = TRunning).
Definition unexpired (t : task_row) (now : Z) : bool := match tk_expires t with Some e => now <? e | None => false end.

Definition claim (identity owner : pystr) (seconds now : Z) : MM (option lease) :=
  mres (_validate owner seconds) ≫= fun _ =>
  atomic (
    t ← _locked identity;
    if negb (bool_decide (tk_backend t = "platform") && task_active (tk_status t)) then mret None
    else if unexpired t now then mret None
    else if MAX_ATTEMPTS <=? tk_attempts t then
      save_task identity (set_task TFailed "material_processing_attempts_exhausted" "" None (tk_epoch t) (tk_attempts t) t) ≫= fun _ => mret None
    else
      save_task identity (set_task TRunning "" owner (Some (now + seconds * 1000000)) (tk_epoch t + 1) (tk_attempts t + 1) t) ≫= fun _ =>
      mret (Some (Lease identity owner (tk_epoch t + 1)))).

Definition _check (t : task_row) (now : Z) (l : lease) (completed_replay : bool) : res mexn unit :=
  require (bool_decide (tk_backend t = "platform") && bool_decide (tk_owner t = ml_owner l) && (tk_epoch t =? ml_epoch l)) MLeaseLost;;
  if completed_replay && bool_decide (tk_status t = TCompleted) then Ok tt
  else require (bool_decide (tk_status t = TRunning) && unexpired t now) MLeaseLost.

Definition fenced_task {A} (l : lease) (completed_replay : bool) (now : Z) (body : task_row -> MM A) : MM A :=
  atomic (t ← _locked (ml_representation l); mres (_check t now l completed_replay) ≫= fun _ => body t).

Definition renew (l : lease) (seconds now : Z) : MM unit :=
  mres (_validate (ml_owner l) seconds) ≫= fun _ =>
  atomic (
    t ← _locked (ml_representation l);
    mres (_check t now l false) ≫= fun _ =>
    save_task (ml_representation l) (set_task (tk_status t) (tk_error t) (tk_owner t) (Some (now + seconds * 1000000)) (tk_epoch t) (tk_attempts t) t)).

(** the handler of [MaterialWorker.run_once] for an attempt that raised *)
Definition attempt_failed (l : lease) (now : Z) : MM unit :=
  fenced_task l false now (fun t =>
    save_task (ml_representation l) (set_task TPending "material_processor_attempt_failed" "" None (tk_epoch t) (tk_attempts t) t)).

(** ** The source of a task *)

Record processing_source := ProcessingSource { ps_owner : owner; ps_key : pystr; ps_identity : value; ps_size : Z }.
Definition PAYLOAD_FIELDS : list pystr := ["schema"; "inputIdentity"; "specDigest"; "sizeBytes"].

Definition task_owner (m : mstate) (kind id : pystr) : option owner :=
  let st := ms_store m in
  if bool_decide (kind = "userLibraryObject") then OwnLibrary id <$> library st !! id
  else if bool_decide (kind = "sourceObject") then OwnSource id <$> source_objects st !! id
  else OwnArtifact id <$> artifacts st !! id.
Definition owner_ready (o : owner) : bool :=
  match o with
  | OwnArtifact _ r => bool_decide (ar_status r = APublished)
  | OwnSource _ r => bool_decide (so_status r = OReady)
  | OwnLibrary _ r => bool_decide (lb_status r = OReady)
  end && bool_decide (o_deleted_at o = None).
(** a file of a source that is ready, or no folder of the library *)
Definition owner_processable (m : mstate) (o : owner) : res mexn bool :=
  match o with
  | OwnSource _ r =>
      src ← from_option_res MTaskMissing (ms_sources m !! so_source r);
      Ok (bool_decide (sc_status src = OReady) && negb (so_directory r))
  | OwnLibrary _ r => Ok (negb (bool_decide (lb_kind r = LFolder)))
  | OwnArtifact _ _ => Ok true
  end.
(** the source row is locked before its object: it has to exist *)
Definition source_locked (m : mstate) (o : owner) : bool :=
  match o with OwnSource _ r => bool_decide (is_Some (ms_sources m !! so_source r)) | _ => true end.

Definition resolve_task_source (m : mstate) (id : pystr) (t : task_row) (lock : bool) : res mexn processing_source :=
  let payload := tk_payload t in
  let unavailable := MKnowledge (KnowledgeError "material_source_unavailable" 404) in
  require (bool_decide (tk_backend t = "platform") && keys_are PAYLOAD_FIELDS payload
           && is_str "workspace.material.processing.v1" (get "schema" payload) && int_where (Z.leb 0) (get "sizeBytes" payload))
    (mfail "material_task_payload_invalid");;
  digest ← catch (processing_spec_digest (tk_spec t)) (fun e => Err (MKnowledge e));
  let identity := get "inputIdentity" payload in
  require (is_str digest (get "specDigest" payload)) (mfail "material_task_identity_mismatch");;
  rid ← catch (representation_id identity digest) (fun e => Err (MKnowledge e));
  require (bool_decide (rid = id)) (mfail "material_task_identity_mismatch");;
  require (int_of (get "sizeBytes" payload) <=? int_of (get "maxInputBytes" (get "options" (tk_spec t)))) (mfail "material_task_payload_invalid");;
  o ← from_option_res unavailable (task_owner m (text_of (get "ownerKind" identity)) (text_of (get "ownerId" identity)));
  require (negb lock || source_locked m o) unavailable;;
  require (owner_ready o) unavailable;;
  processable ← owner_processable m o;
  require processable unavailable;;
  require ((o_content_generation o =? int_of (get "generation" identity)) && bool_decide (o_sha256 o = text_of (get "sha256" identity))
           && bool_decide (o_size o = Some (int_of (get "sizeBytes" payload)))) (mfail "material_source_identity_changed");;
  require (negb (is_empty (o_storage_key o)) && storage_exists (o_storage_key o) (ms_store m)) unavailable;;
  Ok (ProcessingSource o (o_storage_key o) identity (int_of (get "sizeBytes" payload))).

(** [bind_inputs] has resolved the input of a run: its identity, its size and its representation. *)
Definition admit_task (rid : pystr) (specification identity : value) (spec_digest : pystr) (size : value) : MM pystr :=
  let payload := VDict [("schema", VStr "workspace.material.processing.v1"); ("inputIdentity", identity); ("specDigest", VStr spec_digest); ("sizeBytes", size)] in
  atomic (
    m ← mget;
    t ← match ms_tasks m !! rid with
        | Some t => mret t
        | None =>
            let t := Task specification payload TPending "" "platform" "" None 0 0 in
            save_task rid t ≫= fun _ => mret t
        end;
    mres (require (bool_decide (tk_backend t = "platform")) (mfail "material_task_backend_conflict")) ≫= fun _ =>
    mres (require (same_value (tk_payload t) payload && same_value (tk_spec t) specification) (mfail "material_task_identity_mismatch")) ≫= fun _ =>
    m' ← mget;
    mres (resolve_task_source m' rid t false) ≫= fun _ => mret rid).

(** [_preview_selection] of [http/office_preview.py], once the item, the processor and its specification are known: the
    task of a preview that has not been published yet.  An error is returned, not raised: the transaction commits.
    [None]: the page that waits. *)
Definition preview_task (rid : pystr) (specification identity : value) (spec_digest : pystr) (size : value) : MM (option (pystr * Z)) :=
  let payload := VDict [("schema", VStr "workspace.material.processing.v1"); ("inputIdentity", identity); ("specDigest", VStr spec_digest); ("sizeBytes", size)] in
  atomic (
    m ← mget;
    t ← match ms_tasks m !! rid with
        | Some t => mret t
        | None =>
            let t := Task specification payload TPending "" "platform" "" None 0 0 in
            save_task rid t ≫= fun _ => mret t
        end;
    if negb (bool_decide (tk_backend t = "platform") && same_value (tk_spec t) specification && same_value (tk_payload t) payload)
    then mret (Some ("office_preview_task_conflict", 409))
    else
      m' ← mget;
      match resolve_task_source m' rid t false with
      | Err (MKnowledge (KnowledgeError code status)) => mret (Some (code, status))
      | Err e => mres (Err e)
      | Ok _ =>
          if bool_decide (tk_status t = TCompleted) then mret (Some ("office_preview_result_missing", 503))
          else if negb (task_active (tk_status t)) then mret (Some ("office_preview_task_invalid", 503))
          else mret None
      end).

(** ** Stored bytes *)

Definition kread (size : Z) (r : hashing_reader) : K (bytes * hashing_reader) :=
  if hr_remaining r =? 0 then Ok ([], r)
  else
    let requested := if size <? 0 then hr_remaining r else Z.min size (hr_remaining r) in
    let '(chunk, source) := stream_read requested (hr_source r) in
    require (negb (bool_decide (chunk = []))) (invalid "knowledge_commit_body_truncated");;
    Ok (chunk, HashingReader source (hr_remaining r - zlen chunk) (hr_data r ++ chunk)).
Definition kcomplete (r : hashing_reader) (expected_hash : pystr) : K unit :=
  require ((hr_remaining r =? 0) && bool_decide (sha256_tag (hr_data r) = expected_hash)) (KnowledgeError "knowledge_commit_integrity_mismatch" 409).
(** The loop of [default_storage.save] and of [_discard_exact]: what was read, and the reader or the exception.  One
    iteration per byte and one for the end are enough. *)
Fixpoint kchunks (fuel : nat) (r : hashing_reader) (written : bytes) : bytes * K hashing_reader :=
  match fuel with
  | O => (written, Ok r)
  | S fuel =>
      match kread (64 * 1024) r with
      | Err e => (written, Err e)
      | Ok ([], r') => (written, Ok r')
      | Ok (chunk, r') => kchunks fuel r' (written ++ chunk)
      end
  end.
Definition read_all (s : stream) (size : Z) : bytes * K hashing_reader := kchunks (S (Z.to_nat size)) (HashingReader s size []) [].

Definition integrity (content : bytes) (size : Z) (hash : pystr) : bool := (zlen content =? size) && bool_decide (sha256_tag content = hash).
Definition _validate_stored (st : store) (key : pystr) (size : Z) (expected_hash : pystr) : K unit :=
  match files st !! key with
  | None => Err (KnowledgeError "knowledge_storage_missing" 409)
  | Some (content, _) => require (integrity content size expected_hash) (KnowledgeError "knowledge_storage_integrity_mismatch" 409)
  end.
Definition read_stored (st : store) (key : pystr) (size : Z) (expected_hash : pystr) : K bytes :=
  match files st !! key with
  | None => Err (KnowledgeError "knowledge_storage_missing" 409)
  | Some (content, _) =>
      let content := take (Z.to_nat (size + 1)) content in
      require (integrity content size expected_hash) (KnowledgeError "knowledge_storage_integrity_mismatch" 409);; Ok content
  end.
Definition _discard_exact (s : stream) (size : Z) (expected_hash : pystr) : K stream :=
  r ← (read_all s size).2;
  kcomplete r expected_hash;;
  Ok (hr_source r).

Section materials.
Context {PL : Platform} (available_name : files_t -> pystr -> pystr).

(** whether the object is new, and the rest of the stream; [keep] tells whether a save that raises leaves what it has written *)
Definition store_stream (s : stream) (p : part) (keep : bool) (now : Z) : MM (bool * stream) := fun m =>
  let st := ms_store m in
  if storage_exists (pt_key p) st then
    mlift (_validate_stored st (pt_key p) (pt_size p) (pt_sha256 p);; s' ← _discard_exact s (pt_size p) (pt_sha256 p); Ok (false, s')) m
  else
    let stored := available_name (files st) (pt_key p) in
    let '(written, outcome) := read_all s (pt_size p) in
    let m' := set_ms_store (set_files <[stored := (written, now)]>) m in
    match outcome with
    | Err e => (Err (MKnowledge e), if keep then m' else m)
    | Ok reader =>
        if negb (bool_decide (stored = pt_key p)) then (Err (mfail "knowledge_storage_key_conflict"), set_ms_store (delete_stored_object stored) m')
        else
          match (kcomplete reader (pt_sha256 p);; _validate_stored (ms_store m') (pt_key p) (pt_size p) (pt_sha256 p)) with
          | Ok _ => (Ok (true, hr_source reader), m')
          | Err e => (Err (MKnowledge e), set_ms_store (delete_stored_object (pt_key p)) m')
          end
    end.

(** ** Staged objects *)

Definition staging_prefix (representation : pystr) : pystr := "materials/" +:+ default "" (last (str_split 58 representation)) +:+ "/".
Definition staging_key (representation sha256 name : pystr) : pystr := staging_prefix representation +:+ str_drop 7 sha256 +:+ "/" +:+ name.
Definition canonical_part (representation : pystr) (o : processing_output) : part :=
  Part (staging_key representation (text_of (po_canonical_sha256 o)) "canonical.md") (int_of (po_canonical_size o)) (text_of (po_canonical_sha256 o)).
Definition preview_part (representation : pystr) (o : processing_output) : part :=
  Part (staging_key representation (text_of (po_preview_sha256 o)) "preview.pdf") (int_of (po_preview_size o)) (text_of (po_preview_sha256 o)).
Definition workbook_part (representation : pystr) (o : processing_output) : part :=
  Part (staging_key representation (text_of (po_workbook_sha256 o)) "workbook.json") (int_of (po_workbook_size o)) (text_of (po_workbook_sha256 o)).
Definition staging_entries (representation : pystr) (o : processing_output) : list part :=
  [canonical_part representation o]
  ++ (if int_of (po_preview_size o) =? 0 then [] else [preview_part representation o])
  ++ (if int_of (po_workbook_size o) =? 0 then [] else [workbook_part representation o]).
(** [by_name.get(name, "")]: the last of the keys that end in the name *)
Definition by_name (name : pystr) (entries : list part) : pystr :=
  default "" (assoc_first name (reverse (map (fun p => (base_name (pt_key p), pt_key p)) entries))).
Definition storage_keys (representation : pystr) (o : processing_output) : pystr * pystr * pystr :=
  let entries := staging_entries representation o in
  (pt_key (canonical_part representation o), by_name "preview.pdf" entries, by_name "workbook.json" entries).

(** [get_or_create] of a staged object and the check of its identity *)
Definition stage_part (representation : pystr) (p : part) : MM unit :=
  m ← mget;
  row ← match ms_staged m !! pt_key p with
        | Some row => mret row
        | None =>
            let row := Staged representation (pt_size p) (pt_sha256 p) in
            mput (set_ms_staged <[pt_key p := row]>) ≫= fun _ => mret row
        end;
  mres (require (bool_decide (sd_task row = representation) && (sd_size row =? pt_size p) && bool_decide (sd_sha256 row = pt_sha256 p))
          (mfail "material_staging_identity_conflict")).
Definition prepare_staging (l : lease) (o : processing_output) (now : Z) : MM (pystr * pystr * pystr) :=
  atomic (fenced_task l true now (fun _ => mfor (stage_part (ml_representation l)) (staging_entries (ml_representation l) o))) ≫= fun _ =>
  mret (storage_keys (ml_representation l) o).

Definition rep_keys (r : rep_row) : list pystr := [pt_key (rp_text r); pt_key (rp_preview r); pt_key (rp_workbook r)].
Definition published (m : mstate) (key : pystr) : bool := qs_exists (fun r => bool_decide (key ∈ rep_keys r)) (ms_reps m).
Definition registered (m : mstate) (key : pystr) : bool := qs_exists (fun r => bool_decide (dr_resource_key r = key)) (resources (ms_store m)).
Definition staging_names (representation sha256 : pystr) : list pystr :=
  [staging_key representation sha256 "canonical.md"; staging_key representation sha256 "preview.pdf"; staging_key representation sha256 "workbook.json"].
Definition drop_object (key : pystr) : MM unit := mput (set_ms_store (delete_stored_object key)).
Definition drop_stage (key : pystr) : MM unit := mput (set_ms_staged (delete key)).

Definition recover_stage (representation : pystr) (discard : bool) (stage : pystr * staged_row) : MM unit :=
  let '(key, row) := stage in
  mres (require (bool_decide (key ∈ staging_names representation (sd_sha256 row))) (mfail "material_staging_identity_conflict")) ≫= fun _ =>
  m ← mget;
  if published m key || registered m key then drop_stage key
  else
    (if storage_exists key (ms_store m)
     then if is_ok (_validate_stored (ms_store m) key (sd_size row) (sd_sha256 row))
          then if discard then drop_object key else mret tt
          else drop_object key
     else mret tt) ≫= fun _ =>
    if discard then drop_stage key else mret tt.
Definition recover_staging (representation : pystr) (discard : bool) : MM unit :=
  m ← mget;
  mfor (recover_stage representation discard) (qs_list (fun s => bool_decide (sd_task s = representation)) (ms_staged m)).

(** The first transaction of [cleanup_expired]: one row per staged object, by the key of its task; [locked] are the
    tasks other transactions hold. *)
Definition discardable (m : mstate) (locked : gset pystr) (now : Z) : list pystr :=
  let wanted (s : pystr * staged_row) :=
    bool_decide (sd_task s.2 ∉ locked) &&
    match ms_tasks m !! sd_task s.2 with
    | Some t => bool_decide (tk_backend t = "platform") && negb (bool_decide (tk_status t = TRunning) && unexpired t now)
    | None => false
    end in
  take 10 (merge_sort str_le (map (fun s => sd_task s.2) (filter (fun s => wanted s = true) (map_to_list (ms_staged m))))).
Definition cleanup_expired (locked : gset pystr) (now : Z) : MM unit :=
  atomic (m ← mget; mfor (fun id => recover_staging id true) (discardable m locked now)).

(** [deleted_resource_gc.py]: once every resource of an owner's content is cleaned, its representations go, and their
    segments with them. *)
Definition of_content (r : resource_row) (p : rep_row) : bool :=
  bool_decide (rp_owner_kind p = owner_kind_str (dr_owner_kind r)) && bool_decide (rp_owner_id p = dr_owner_id r) && (rp_generation p =? dr_content_generation r).
Definition _delete_stale_representation_if_fully_cleaned (r : resource_row) (m : mstate) : mstate :=
  if qs_exists (fun r' => owned_by (dr_owner_kind r) (dr_owner_id r) r' && (dr_content_generation r' =? dr_content_generation r)
                          && negb (bool_decide (dr_state r' = RCleaned))) (resources (ms_store m))
  then m
  else
    let kept : gmap pystr rep_row := filter (fun p => of_content r p.2 = false) (ms_reps m) in
    set_ms_segments (filter (fun s => bool_decide (is_Some (kept !! s.2.1)) = true)) (set_ms_reps (fun _ => kept) m).

(** ** The commit of a result *)

(** [BoundInput], as far as the commit reads it *)
Record bound_input := BoundInput { bd_owner : owner; bd_identity : value; bd_representation : pystr }.

Definition knowledge_key (representation name : pystr) : pystr := "knowledge/" +:+ removeprefix representation "representation:sha256:" +:+ "/" +:+ name.
Definition _canonical_key (representation : pystr) : pystr := knowledge_key representation "canonical.md".
Definition _preview_key (representation : pystr) : pystr := knowledge_key representation "preview.pdf".
Definition _workbook_key (representation : pystr) : pystr := knowledge_key representation "workbook.json".
Definition commit_keys (representation : pystr) (c : processing_output) (keys : option (pystr * pystr * pystr)) : pystr * pystr * pystr :=
  default (_canonical_key representation,
           if int_of (po_preview_size c) =? 0 then "" else _preview_key representation,
           if int_of (po_workbook_size c) =? 0 then "" else _workbook_key representation) keys.

Definition require_representation_input (r : rep_row) (b : bound_input) : K unit :=
  require (is_str (rp_owner_kind r) (get "ownerKind" (bd_identity b)) && is_str (rp_owner_id r) (get "ownerId" (bd_identity b))
           && is_int (rp_generation r) (get "generation" (bd_identity b)) && is_str (rp_owner_sha256 r) (get "sha256" (bd_identity b)))
    (KnowledgeError "knowledge_representation_identity_conflict" 409).
Definition new_representation (b : bound_input) (spec_digest : pystr) (c : processing_output) (keys : pystr * pystr * pystr) : rep_row :=
  Representation (text_of (get "ownerKind" (bd_identity b))) (text_of (get "ownerId" (bd_identity b))) (int_of (get "generation" (bd_identity b)))
    (text_of (get "sha256" (bd_identity b))) spec_digest (int_of (get "pageCount" (po_manifest c)))
    (Part keys.1.1 (int_of (po_canonical_size c)) (text_of (po_canonical_sha256 c)))
    (Part keys.1.2 (int_of (po_preview_size c)) (text_of (po_preview_sha256 c)))
    (Part keys.2 (int_of (po_workbook_size c)) (text_of (po_workbook_sha256 c)))
    (po_manifest c).
Definition _require_existing_representation (r : rep_row) (b : bound_input) (c : processing_output) (spec_digest : pystr) (keys : pystr * pystr * pystr) : K unit :=
  require_representation_input r b;;
  let wanted := new_representation b spec_digest c keys in
  require (bool_decide (rp_spec r = spec_digest) && bool_decide (rp_text r = rp_text wanted) && bool_decide (rp_preview r = rp_preview wanted)
           && bool_decide (rp_workbook r = rp_workbook wanted) && same_value (rp_manifest r) (po_manifest c))
    (KnowledgeError "knowledge_representation_identity_conflict" 409).
Definition _commit_response (representation : pystr) (r : rep_row) : value :=
  VDict [("representationId", VStr representation); ("specDigest", VStr (rp_spec r)); ("pageCount", VInt (rp_pages r))].

(** the parts of a commit: the canonical text, and what else has a key *)
Definition commit_parts (r : rep_row) : list part :=
  [rp_text r] ++ (if is_empty (pt_key (rp_preview r)) then [] else [rp_preview r])
  ++ (if is_empty (pt_key (rp_workbook r)) then [] else [rp_workbook r]).
(** what is left of the stream, and the keys that were created *)
Fixpoint store_parts (parts : list part) (s : stream) (created : list pystr) (keep : bool) (now : Z) (m : mstate) : res mexn stream * list pystr * mstate :=
  match parts with
  | [] => (Ok s, created, m)
  | p :: parts =>
      match store_stream s p keep now m with
      | (Err e, m') => (Err e, created, m')
      | (Ok (new, s'), m') => store_parts parts s' (if new then created ++ [pt_key p] else created) keep now m'
      end
  end.

Definition same_input (r r' : rep_row) : bool :=
  bool_decide (rp_owner_kind r = rp_owner_kind r') && bool_decide (rp_owner_id r = rp_owner_id r') && (rp_generation r =? rp_generation r')
  && bool_decide (rp_owner_sha256 r = rp_owner_sha256 r') && bool_decide (rp_spec r = rp_spec r').
(** [DerivedRepresentation.objects.create] with [unique_representation_input_spec] *)
Definition create_representation (id : pystr) (r : rep_row) : MM unit :=
  m ← mget;
  mres (require (bool_decide (ms_reps m !! id = None) && negb (qs_exists (same_input r) (ms_reps m))) (MDatabase IntegrityError)) ≫= fun _ =>
  mput (set_ms_reps <[id := r]>).
(** PostgreSQL refuses a text that contains NUL *)
Definition storable_text (s : pystr) : bool := forallb (fun c => negb (c =? 0)) (code_points s).
(** [KnowledgeSegment.objects.bulk_create] *)
Definition create_segment (id : pystr) (s : segment) : MM unit :=
  m ← mget;
  mres (require (storable_text (sg_text s)) (MDatabase (ValueError "A string literal cannot contain NUL (0x00) characters."))) ≫= fun _ =>
  mres (require (bool_decide (ms_segments m !! sg_id s = None)) (MDatabase IntegrityError)) ≫= fun _ =>
  mput (set_ms_segments <[sg_id s := (id, s)]>).
Definition get_specification (digest : pystr) (specification : value) : MM unit :=
  m ← mget;
  match ms_specs m !! digest with
  | None => mput (set_ms_specs <[digest := specification]>)
  | Some payload => mres (require (same_value payload specification) (mfail "knowledge_specification_identity_conflict"))
  end.
Definition register_parts (o : owner) (parts : list part) (new_id : nat -> pystr) : MM unit :=
  mfor (fun ip => mstore (register_derived_resource o "storageObject" (pt_key ip.2) (new_id ip.1))) (imap pair parts).

(** the checks of the stored bytes, and the rows *)
Definition commit_rows (b : bound_input) (specification : value) (spec_digest : pystr) (c : processing_output) (existing : option rep_row)
    (keys : pystr * pystr * pystr) (callback : option (MM unit)) (new_id : nat -> pystr) : MM value :=
  let rid := bd_representation b in
  let wanted := new_representation b spec_digest c keys in
  let complete := default (mret tt) callback in
  m ← mget;
  canonical ← mlift (read_stored (ms_store m) (pt_key (rp_text wanted)) (pt_size (rp_text wanted)) (pt_sha256 (rp_text wanted)));
  (if is_empty (pt_key (rp_workbook wanted)) then mret tt
   else
     workbook ← mlift (read_stored (ms_store m) (pt_key (rp_workbook wanted)) (pt_size (rp_workbook wanted)) (pt_sha256 (rp_workbook wanted)));
     mlift (_validate_workbook_preview workbook)) ≫= fun _ =>
  mlift (_validate_manifest (po_manifest c) canonical) ≫= fun _ =>
  match existing with
  | Some r =>
      mlift (_require_existing_representation r b c spec_digest keys) ≫= fun _ =>
      atomic complete ≫= fun _ => mret (_commit_response rid r)
  | None =>
      segments ← mlift (_segments rid (po_manifest c));
      atomic (
        get_specification spec_digest specification ≫= fun _ =>
        create_representation rid wanted ≫= fun _ =>
        mfor (create_segment rid) segments ≫= fun _ =>
        register_parts (bd_owner b) (commit_parts wanted) new_id ≫= fun _ =>
        complete) ≫= fun _ =>
      mret (_commit_response rid wanted)
  end.

(** the bytes, then the rows; what was created is removed when something raises *)
Definition store_and_commit (b : bound_input) (specification : value) (spec_digest : pystr) (c : processing_output) (s : stream)
    (callback : option (MM unit)) (keys : pystr * pystr * pystr) (keep : bool) (now : Z) (new_id : nat -> pystr) : MM value := fun m =>
  let existing := ms_reps m !! bd_representation b in
  let '(stored, created, m1) := store_parts (commit_parts (new_representation b spec_digest c keys)) s [] keep now m in
  let '(outcome, m2) :=
    (rest ← mres stored;
     mlift (require (bool_decide ((stream_read 1 rest).1 = [])) (invalid "knowledge_commit_body_has_trailing_bytes")) ≫= fun _ =>
     commit_rows b specification spec_digest c existing keys callback new_id) m1 in
  match outcome with
  | Ok response => (Ok response, m2)
  | Err e => (Err e, set_ms_store (fun st => fold_left (fun st key => delete_stored_object key st) created st) m2)
  end.
Definition commit_bound_material (b : bound_input) (specification : value) (spec_digest : pystr) (c : processing_output) (s : stream)
    (callback : option (MM unit)) (keys : option (pystr * pystr * pystr)) (keep : bool) (now : Z) (new_id : nat -> pystr) : MM value :=
  mlift (validate_commit c) ≫= fun _ =>
  mres (require (bool_decide (po_representation c = bd_representation b)) (mfail "material_task_identity_mismatch")) ≫= fun _ =>
  store_and_commit b specification spec_digest c s callback (commit_keys (bd_representation b) c keys) keep now new_id.

(** ** Publication *)

(** [complete], under the clock after the bytes were received *)
Definition complete_task (l : lease) (keys : pystr * pystr * pystr) (now : Z) : MM unit :=
  fenced_task l true now (fun t =>
    (if bool_decide (tk_status t = TCompleted) then mret tt
     else save_task (ml_representation l) (set_task TCompleted "" (tk_owner t) (tk_expires t) (tk_epoch t) (tk_attempts t) t)) ≫= fun _ =>
    mput (set_ms_staged (fun staged =>
      filter (fun s => ~ (sd_task s.2 = ml_representation l /\ s.1 ∈ [keys.1.1; keys.1.2; keys.2])) staged))).

(** the second transaction of [commit_processing_output] *)
Definition publish_output (l : lease) (o : processing_output) (s : stream) (keys : pystr * pystr * pystr) (keep : bool) (now received : Z)
    (new_id : nat -> pystr) : MM value :=
  atomic (fenced_task l true now (fun t =>
    m ← mget;
    source ← mres (resolve_task_source m (ml_representation l) t true);
    mres (require (negb (bool_decide (tk_status t = TCompleted) && bool_decide (ms_reps m !! ml_representation l = None)))
            (mfail "material_processing_result_missing")) ≫= fun _ =>
    recover_staging (ml_representation l) false ≫= fun _ =>
    commit_bound_material (BoundInput (ps_owner source) (ps_identity source) (ml_representation l)) (tk_spec t)
      (text_of (get "specDigest" (tk_payload t))) o s (Some (complete_task l keys received)) (Some keys) keep now new_id)).
(** Other requests may run between the transactions. *)
Definition commit_processing_output (l : lease) (o : processing_output) (s : stream) (others : mstate -> mstate) (keep : bool)
    (prepared now received : Z) (new_id : nat -> pystr) : MM value :=
  mlift (validate_commit o) ≫= fun _ =>
  mres (require (bool_decide (po_representation o = ml_representation l)) (mfail "material_task_identity_mismatch")) ≫= fun _ =>
  keys ← prepare_staging l o prepared;
  mput others ≫= fun _ =>
  publish_output l o s keys keep now received new_id.

(** [MaterialWorker.publish] reads the files of a finished container *)
Definition finished_output (representation : pystr) (canonical preview workbook : bytes) (manifest : value) : processing_output :=
  let digest (b : bytes) := match b with [] => VNone | _ => VStr (sha256_tag b) end in
  ProcessingOutput representation (VInt (zlen canonical)) (VStr (sha256_tag canonical)) (VInt (zlen preview)) (digest preview) manifest
    (VInt (zlen workbook)) (digest workbook).
End materials.
