(* ===== verification/MaterialsProps.v ===== *)
(** * Processing of documents: properties

    Leases are fenced by their epoch; staged objects, representations and stored bytes stay consistent whatever workers,
    failures, crashes and clean-ups do; and a worker with a live lease can publish after any of them. *)

From stdpp Require Import base tactics list gmap numbers sorting.
From S2P Require Import Prelude PyStr Table Utf8 Sha256 Platform Schema PyValue Json Contract Plugins Assets Sources Artifacts ArtifactsProps RuntimeReplies MaterialManifest Materials.

(** ** The effects *)

Lemma mbind_cases {A B} (c : MM A) (f : A -> MM B) m :
  (exists a m1, c m = (Ok a, m1) /\ (c ≫= f) m = f a m1) \/ (exists e m1, c m = (Err e, m1) /\ (c ≫= f) m = (Err e, m1)).
Proof. unfold mbind, MM_bind. destruct (c m) as [[a|e] m1]; eauto. Qed.
Lemma mbind_Ok {A B} (c : MM A) (f : A -> MM B) m b m' : (c ≫= f) m = (Ok b, m') <-> exists a m1, c m = (Ok a, m1) /\ f a m1 = (Ok b, m').
Proof. unfold mbind, MM_bind. destruct (c m) as [[a|e] m1]; naive_solver. Qed.
Lemma mbind_run {A B} (c : MM A) (f : A -> MM B) m a m1 : c m = (Ok a, m1) -> (c ≫= f) m = f a m1.
Proof. unfold mbind, MM_bind. by intros ->. Qed.
Lemma mret_Ok {A} (a b : A) m m' : (mret a : MM A) m = (Ok b, m') <-> b = a /\ m' = m.
Proof. unfold mret, MM_ret. naive_solver. Qed.
Lemma mres_Ok {A} (r : res mexn A) m a m' : mres r m = (Ok a, m') <-> r = Ok a /\ m' = m.
Proof. unfold mres. naive_solver. Qed.
Lemma mm_lift_Ok {A} (r : K A) m a m' : mlift r m = (Ok a, m') <-> r = Ok a /\ m' = m.
Proof. unfold mlift, mres. destruct r; cbn; naive_solver. Qed.
Lemma atomic_Ok {A} (c : MM A) m a m' : atomic c m = (Ok a, m') <-> c m = (Ok a, m').
Proof. unfold atomic. destruct (c m) as [[?|?] ?]; naive_solver. Qed.
Lemma atomic_Err {A} (c : MM A) m e m' : atomic c m = (Err e, m') ->
  exists m1, c m = (Err e, m1) /\ m' = set_ms_store (fun st => rollback st (ms_store m1)) m.
Proof. unfold atomic. destruct (c m) as [[?|?] ?]; naive_solver. Qed.
Lemma rollback_self m : set_ms_store (fun st => rollback st (ms_store m)) m = m.
Proof. by destruct m as [[] ? ? ? ? ? ?]. Qed.
Lemma fenced_Ok {A} l replay now (body : task_row -> MM A) m a m' : fenced_task l replay now body m = (Ok a, m') <->
  exists t, ms_tasks m !! ml_representation l = Some t /\ _check t now l replay = Ok tt /\ body t m = (Ok a, m').
Proof.
  unfold fenced_task. rewrite atomic_Ok, mbind_Ok. split.
  - intros (t & m1 & Ht & H). unfold _locked in Ht. injection Ht as Ht <-. apply from_option_res_Ok in Ht.
    apply mbind_Ok in H as ([] & m2 & [Hc ->]%mres_Ok & H). eauto.
  - intros (t & Ht & Hc & H). exists t, m. unfold _locked. rewrite Ht. split; [done|]. rewrite mbind_Ok. exists tt, m. by rewrite Hc.
Qed.

(** Walks through a run that succeeded. *)
Ltac mwalk H :=
  repeat first
    [ discriminate H
    | match type of H with
      | (_ ≫= _) _ = (Ok _, _) =>
          let a := fresh "a" in let m := fresh "m" in let Ha := fresh "Ha" in
          apply mbind_Ok in H as (a & m & Ha & H); cbv beta in H; mwalk Ha
      | mres _ _ = (Ok _, _) => apply mres_Ok in H as [H ->]
      | mlift _ _ = (Ok _, _) => apply mm_lift_Ok in H as [H ->]
      | mget _ = (Ok _, _) => unfold mget in H; injection H as <- <-
      | mput _ _ = (Ok _, _) => unfold mput in H; injection H as <- <-
      | mret _ _ = (Ok _, _) => unfold mret, MM_ret in H; injection H as <- <-
      | save_task _ _ _ = (Ok _, _) => unfold save_task, mput in H; injection H as <- <-
      | _locked _ _ = (Ok _, _) => unfold _locked in H; injection H as H <-; apply from_option_res_Ok in H
      | atomic _ _ = (Ok _, _) => apply atomic_Ok in H
      | fenced_task _ _ _ _ _ = (Ok _, _) =>
          let t := fresh "t" in let Ht := fresh "Ht" in let Hc := fresh "Hc" in
          apply fenced_Ok in H as (t & Ht & Hc & H); cbv beta in H
      | require _ _ = Ok _ => apply require_Ok in H
      | (match ?x with _ => _ end) _ = (Ok _, _) => destruct x eqn:?
      end ].

(** ** Relations every run respects *)

(** A relation that composes, and that a rollback of the tables respects. *)
Definition respects {A} (R : mstate -> mstate -> Prop) (c : MM A) : Prop := forall m, R m (c m).2.
Lemma respects_bind {A B} R `{!Transitive R} (c : MM A) (f : A -> MM B) : respects R c -> (forall a, respects R (f a)) -> respects R (c ≫= f).
Proof.
  intros Hc Hf m. specialize (Hc m). destruct (mbind_cases c f m) as [(a & m1 & E & ->)|(e & m1 & E & ->)]; rewrite E in Hc; cbn in Hc |- *; [|done].
  transitivity m1; [done|apply Hf].
Qed.
Lemma respects_mfor {A} R `{!Reflexive R, !Transitive R} (f : A -> MM unit) l : (forall a, a ∈ l -> respects R (f a)) -> respects R (mfor f l).
Proof.
  induction l as [|a l IH]; intros Hf; [intros m; cbn; reflexivity|]. cbn. apply respects_bind; [done| |intros _].
  - apply Hf. by left.
  - apply IH. intros b Hb. apply Hf. by right.
Qed.

(** The object store is left alone. *)
Definition same_files (m m' : mstate) : Prop := files (ms_store m') = files (ms_store m).
#[export] Instance same_files_refl : Reflexive same_files.
Proof. by intros m. Qed.
#[export] Instance same_files_trans : Transitive same_files.
Proof. unfold same_files. intros m m1 m2 H H'. congruence. Qed.
Lemma atomic_same_files {A} (c : MM A) : respects same_files c -> respects same_files (atomic c).
Proof. intros Hc m. specialize (Hc m). unfold atomic. destruct (c m) as [[a|e] m1]; done. Qed.
Lemma mres_same_files {A} (r : res mexn A) : respects same_files (mres r).
Proof. done. Qed.
Lemma mput_same_files f : (forall m, ms_store (f m) = ms_store m) -> respects same_files (mput f).
Proof. intros Hf m. unfold same_files, mput. cbn. by rewrite Hf. Qed.
Lemma mget_same_files : respects same_files mget.
Proof. done. Qed.
Lemma mret_same_files {A} (a : A) : respects same_files (mret a).
Proof. done. Qed.
Ltac same_files_tac :=
  repeat first
    [ apply respects_bind; [exact _| |intros ?]
    | apply atomic_same_files | apply mres_same_files | apply mget_same_files | apply mret_same_files
    | apply respects_mfor; [exact _|exact _|intros ? _]
    | apply mput_same_files; intros ?; done
    | case_match ].

(** ** Bytes *)

Lemma kchunks_spec fuel source remaining data written r :
  0 <= remaining -> (Z.to_nat remaining < fuel)%nat ->
  kchunks fuel (HashingReader source remaining data) data = (written, Ok r) -> hr_data r = written.
Proof.
  revert source remaining data. induction fuel as [|fuel IH]; intros source remaining data Hr Hf H; [lia|].
  cbn [kchunks] in H. unfold kread in H. change (64 * 1024 <? 0) with false in H. cbn [hr_remaining hr_source hr_data] in H.
  destruct (Z.eqb_spec remaining 0) as [->|Hne]; [by injection H as <- <-|].
  destruct (stream_read (Z.min (64 * 1024) remaining) source) as [chunk source'] eqn:E.
  apply stream_read_spec in E as [E Hc]; [|lia].
  destruct chunk as [|b chunk]; [by cbn in H|]. rewrite bool_decide_eq_false_2 in H by done. cbn [negb require mbind res_bind] in H.
  rewrite zlen_cons in *. pose proof (zlen_nonneg chunk). apply IH in H; [done|lia|lia].
Qed.

(** pieces of a stream *)
Abbreviation pieces s := (Forall (fun p : bytes => p <> []) s).
Lemma stream_read_pieces n s : 0 < n -> pieces s -> s <> [] ->
  exists b chunk s', stream_read n s = (b :: chunk, s') /\ concat s = (b :: chunk) ++ concat s' /\ zlen (b :: chunk) <= n /\ pieces s'.
Proof.
  intros Hn Hs Hne. destruct s as [|p s]; [done|]. apply Forall_cons in Hs as [Hp Hs]. destruct (stream_read n (p :: s)) as [chunk s'] eqn:E.
  pose proof E as [Hc Hl]%stream_read_spec; [|done]. cbn [stream_read] in E. destruct p as [|b p]; [done|].
  destruct (Z.leb_spec (zlen (b :: p)) n) as [Hle|Hgt]; injection E as <- <-; [by exists b, p, s|].
  destruct (Z.to_nat n) as [|k] eqn:Ek; [lia|]. exists b, (take k p), (drop (S k) (b :: p) :: s). split; [done|]. split; [done|]. split; [done|].
  apply Forall_cons. split; [|done]. intros Hd. apply (f_equal length) in Hd. rewrite length_drop in Hd. unfold zlen in Hgt. cbn in Hd, Hgt. lia.
Qed.
Lemma kchunks_enough fuel source remaining data :
  0 <= remaining <= zlen (concat source) -> (Z.to_nat remaining < fuel)%nat -> pieces source ->
  let got := data ++ take (Z.to_nat remaining) (concat source) in
  exists s', kchunks fuel (HashingReader source remaining data) data = (got, Ok (HashingReader s' 0 got))
             /\ concat s' = drop (Z.to_nat remaining) (concat source) /\ pieces s'.
Proof.
  revert source remaining data. induction fuel as [|fuel IH]; intros source remaining data Hr Hf Hp; [lia|].
  cbn [kchunks]. unfold kread. change (64 * 1024 <? 0) with false. cbn [hr_remaining hr_source hr_data].
  destruct (Z.eqb_spec remaining 0) as [->|Hne]; [cbn; rewrite app_nil_r; by exists source|].
  destruct (stream_read_pieces (Z.min (64 * 1024) remaining) source) as (b & chunk & s' & -> & Hc & Hl & Hp'); [lia|done|intros ->; unfold zlen in Hr; cbn in Hr; lia|].
  rewrite bool_decide_eq_false_2 by done. cbn [negb require mbind res_bind].
  rewrite Hc, zlen_app in Hr. destruct (IH s' (remaining - zlen (b :: chunk)) (data ++ b :: chunk)) as (s2 & -> & Hs2 & Hp2); [|rewrite zlen_cons in *; pose proof (zlen_nonneg chunk); lia|done|].
  { rewrite zlen_cons in *. pose proof (zlen_nonneg chunk). lia. }
  exists s2. assert (Z.to_nat remaining = length (b :: chunk) + Z.to_nat (remaining - zlen (b :: chunk)))%nat as -> by (unfold zlen in *; lia).
  rewrite Hc, take_app_add, drop_app_add, <- app_assoc. done.
Qed.
Lemma read_all_enough s size : 0 <= size <= zlen (concat s) -> pieces s ->
  exists s', read_all s size = (take (Z.to_nat size) (concat s), Ok (HashingReader s' 0 (take (Z.to_nat size) (concat s))))
             /\ concat s' = drop (Z.to_nat size) (concat s) /\ pieces s'.
Proof. intros Hs Hp. apply (kchunks_enough _ s size []); [done|lia|done]. Qed.

(** a part with its bytes *)
Definition stored_part (st : store) (p : part) : Prop :=
  exists content at_, files st !! pt_key p = Some (content, at_) /\ integrity content (pt_size p) (pt_sha256 p) = true.
Lemma validate_stored_Ok st p u : _validate_stored st (pt_key p) (pt_size p) (pt_sha256 p) = Ok u <-> stored_part st p.
Proof.
  unfold _validate_stored, stored_part. destruct (files st !! pt_key p) as [[c a]|]; [rewrite require_Ok|]; [|naive_solver].
  split; [eauto|]. by intros (c' & a' & [= <- <-] & ?).
Qed.
Lemma stored_part_files st st' p : files st' !! pt_key p = files st !! pt_key p -> stored_part st p -> stored_part st' p.
Proof. unfold stored_part. by intros ->. Qed.
Lemma read_stored_part st p : stored_part st p -> exists content at_, files st !! pt_key p = Some (content, at_) /\
  integrity content (pt_size p) (pt_sha256 p) = true /\ read_stored st (pt_key p) (pt_size p) (pt_sha256 p) = Ok content.
Proof.
  intros (c & a & Hf & Hi). exists c, a. split; [done|]. split; [done|]. unfold read_stored. rewrite Hf.
  rewrite take_ge; [by rewrite Hi|]. unfold integrity, zlen in Hi. bool_inv. lia.
Qed.

(** ** Recovery of staged objects *)

Abbreviation m_files m := (files (ms_store m)).
(** other objects and other staged rows *)
Definition with_objects (fs : files_t) (staged : gmap pystr staged_row) (m : mstate) : mstate :=
  set_ms_staged (fun _ => staged) (set_ms_store (set_files (fun _ => fs)) m).
Lemma with_objects_self m : with_objects (m_files m) (ms_staged m) m = m.
Proof. by destruct m as [[] ? ? ? ? ? ?]. Qed.

(** What recovery may do to the task [rid]: it removes objects that are staged and not in use, and rows of objects that are
    in use, or gone. *)
Definition staged_by (m : mstate) (rid key : pystr) : Prop := exists row, ms_staged m !! key = Some row /\ sd_task row = rid.
Definition in_use (m : mstate) (key : pystr) : Prop := published m key = true \/ registered m key = true.
Definition recovered (rid : pystr) (discard : bool) (m m' : mstate) : Prop := exists fs staged, m' = with_objects fs staged m /\
  (forall k, fs !! k = m_files m !! k \/ fs !! k = None /\ staged_by m rid k /\ ~ in_use m k) /\
  (forall k, staged !! k = ms_staged m !! k \/ staged !! k = None /\ staged_by m rid k /\ (in_use m k \/ discard = true /\ fs !! k = None)).

Lemma recovered_refl rid discard m : recovered rid discard m m.
Proof. exists (m_files m), (ms_staged m). rewrite with_objects_self. split_and!; [done|by left|by left]. Qed.
Lemma drop_object_with key fs staged m : key <> "" -> (drop_object key (with_objects fs staged m)).2 = with_objects (delete key fs) staged m.
Proof. intros Hk%is_empty_false. unfold drop_object, mput, delete_stored_object. cbn. by rewrite Hk. Qed.
Lemma in_use_with fs staged m key : published (with_objects fs staged m) key || registered (with_objects fs staged m) key = true <-> in_use m key.
Proof. unfold in_use. rewrite orb_true_iff. done. Qed.

Lemma staging_key_nonempty rid sha name : staging_key rid sha name <> "".
Proof. unfold staging_key, staging_prefix. intros [=]. Qed.
Lemma staging_names_nonempty rid sha key : key ∈ staging_names rid sha -> key <> "".
Proof. unfold staging_names. rewrite !elem_of_cons, elem_of_nil. intros [->|[->|[->|[]]]]; apply staging_key_nonempty. Qed.

Lemma recover_stage_rel rid discard m0 m key row :
  ms_staged m0 !! key = Some row -> sd_task row = rid -> recovered rid discard m0 m ->
  recovered rid discard m0 (recover_stage rid discard (key, row) m).2.
Proof.
  intros Hrow Ht (fs & staged & -> & Hf & Hs). unfold recover_stage.
  case_bool_decide as Hname; [|by exists fs, staged]. pose proof (staging_names_nonempty _ _ _ Hname) as Hne.
  assert (staged_by m0 rid key) as Hby by (exists row; done).
  rewrite (mbind_run _ _ _ tt (with_objects fs staged m0)), (mbind_run _ _ _ (with_objects fs staged m0) (with_objects fs staged m0)) by done.
  assert (forall fs' : files_t, (forall k, fs' !! k = fs !! k \/ k = key /\ fs' !! k = None /\ ~ in_use m0 k) ->
    forall k, fs' !! k = m_files m0 !! k \/ fs' !! k = None /\ staged_by m0 rid k /\ ~ in_use m0 k) as Hfiles.
  { intros fs' H k. destruct (H k) as [->|(-> & -> & ?)]; [apply Hf|by right]. }
  assert (forall (fs' : files_t) (staged' : gmap pystr staged_row), (forall k, fs' !! k = fs !! k \/ fs' !! k = None) -> (forall k, staged' !! k = staged !! k \/ k = key /\ staged' !! k = None /\
      (in_use m0 k \/ discard = true /\ fs' !! k = None)) ->
    forall k, staged' !! k = ms_staged m0 !! k \/ staged' !! k = None /\ staged_by m0 rid k /\ (in_use m0 k \/ discard = true /\ fs' !! k = None)) as Hstaged.
  { intros fs' staged' Hfs H k. destruct (H k) as [->|(-> & -> & ?)]; [|by right].
    destruct (Hs k) as [->|(-> & ? & [?|[? Hn]])]; [by left|by right; eauto|]. right. split; [done|]. split; [done|]. right. split; [done|].
    destruct (Hfs k) as [->| ->]; done. }
  destruct (published _ key || registered _ key) eqn:E.
  { apply in_use_with in E. exists fs, (delete key staged). split; [done|]. split; [done|]. apply (Hstaged fs); [by left|].
    intros k. destruct (decide (k = key)) as [->|Hk]; [right; rewrite lookup_delete_eq; eauto|left; by rewrite lookup_delete_ne]. }
  assert (~ in_use m0 key) as Hunused by (rewrite <- (in_use_with fs staged), E; done).
  assert (exists fs', (if storage_exists key (ms_store (with_objects fs staged m0))
     then if is_ok (_validate_stored (ms_store (with_objects fs staged m0)) key (sd_size row) (sd_sha256 row))
          then if discard then drop_object key else mret tt else drop_object key else mret tt) (with_objects fs staged m0) = (Ok tt, with_objects fs' staged m0)
     /\ (fs' = fs \/ fs' = delete key fs) /\ (discard = true -> fs' !! key = None)) as (fs' & Hrun & Hfs' & Hdis).
  { unfold storage_exists. assert (drop_object key (with_objects fs staged m0) = (Ok tt, with_objects (delete key fs) staged m0)) as Hd.
    { rewrite <- drop_object_with by done. done. }
    case_bool_decide as Hex; [|exists fs; split; [done|]; split; [by left|]; intros _; by apply eq_None_not_Some].
    destruct (is_ok _); [destruct discard|]; (exists (delete key fs) + exists fs); rewrite ?Hd; rewrite ?lookup_delete_eq; split_and!; auto; done. }
  rewrite (mbind_run _ _ _ tt (with_objects fs' staged m0)) by exact Hrun.
  assert (forall k, fs' !! k = fs !! k \/ k = key /\ fs' !! k = None /\ ~ in_use m0 k) as Hch.
  { intros k. destruct Hfs' as [->| ->]; [by left|]. destruct (decide (k = key)) as [->|Hk]; [right; by rewrite lookup_delete_eq|left; by rewrite lookup_delete_ne]. }
  assert (forall k, fs' !! k = fs !! k \/ fs' !! k = None) as Hch' by (intros k; destruct (Hch k) as [?|(_ & ? & _)]; auto).
  destruct discard.
  - exists fs', (delete key staged). split; [done|]. split; [by apply Hfiles|]. apply Hstaged; [done|].
    intros k. destruct (decide (k = key)) as [->|Hk]; [right; rewrite lookup_delete_eq; eauto 7|left; by rewrite lookup_delete_ne].
  - exists fs', staged. split; [done|]. split; [by apply Hfiles|]. apply Hstaged; [done|]. by left.
Qed.

Lemma mfor_recover_rel rid discard m0 l m :
  (forall s, s ∈ l -> ms_staged m0 !! s.1 = Some s.2 /\ sd_task s.2 = rid) -> recovered rid discard m0 m ->
  recovered rid discard m0 (mfor (recover_stage rid discard) l m).2.
Proof.
  revert m. induction l as [|[key row] l IH]; intros m Hl Hm; [done|]. cbn [mfor].
  destruct (Hl (key, row)) as [Hrow Ht]; [by left|]. pose proof (recover_stage_rel rid discard m0 m key row Hrow Ht Hm) as Hr.
  destruct (mbind_cases (recover_stage rid discard (key, row)) (fun _ => mfor (recover_stage rid discard) l) m) as [(a & m1 & E & ->)|(e & m1 & E & ->)];
    rewrite E in Hr; [|done]. apply IH; [|done]. intros s Hs. apply Hl. by right.
Qed.
Lemma task_stages m rid s : s ∈ qs_list (fun s => bool_decide (sd_task s = rid)) (ms_staged m) -> ms_staged m !! s.1 = Some s.2 /\ sd_task s.2 = rid.
Proof. destruct s as [key row]. intros [H Hb]%elem_of_qs_list. by apply bool_decide_eq_true in Hb. Qed.
Lemma recover_staging_rel rid discard m : recovered rid discard m (recover_staging rid discard m).2.
Proof.
  unfold recover_staging. rewrite (mbind_run _ _ _ m m) by done. apply mfor_recover_rel; [apply task_stages|apply recovered_refl].
Qed.

(** ** Storing the parts of a commit *)

Section storing.
Context {PL : Platform} (available_name : files_t -> pystr -> pystr).
(** [default_storage.save] keeps a name that is free *)
Hypothesis own_name : forall fs key, fs !! key = None -> available_name fs key = key.

Abbreviation with_files fs m := (with_objects fs (ms_staged m) m).
(** Only keys of the parts that were free are written. *)
Definition written (keys : list pystr) (m m' : mstate) : Prop := exists fs, m' = with_files fs m /\
  forall k, fs !! k = m_files m !! k \/ k ∈ keys /\ m_files m !! k = None.
Lemma written_refl keys m : written keys m m.
Proof. exists (m_files m). split; [by rewrite with_objects_self|by left]. Qed.
Lemma written_trans keys m m1 m2 : written keys m m1 -> written keys m1 m2 -> written keys m m2.
Proof.
  intros (fs & -> & Hf) (fs2 & -> & Hf2). exists fs2. split; [done|]. intros k. destruct (Hf k) as [Hk|Hk]; [|by right].
  destruct (Hf2 k) as [Hk2|Hk2]; cbn in Hk2; [left; congruence|right; by rewrite <- Hk].
Qed.
Lemma written_weaken keys keys' m m' : keys ⊆ keys' -> written keys m m' -> written keys' m m'.
Proof. intros Hs (fs & -> & Hf). exists fs. split; [done|]. intros k. destruct (Hf k) as [?|[? ?]]; [by left|right; split; [by apply Hs|done]]. Qed.
Lemma written_keeps keys m m' k : written keys m m' -> is_Some (m_files m !! k) -> m_files m' !! k = m_files m !! k.
Proof. intros (fs & -> & Hf) [x Hx]. cbn. destruct (Hf k) as [?|[_ ?]]; congruence. Qed.

Lemma store_stream_rel s p keep now m :
  pt_key p <> "" -> 0 <= pt_size p ->
  let '(outcome, m') := store_stream available_name s p keep now m in
  written [pt_key p] m m' /\
  match outcome with Ok (new, _) => stored_part (ms_store m') p /\ (new = true -> m_files m !! pt_key p = None) | Err _ => True end.
Proof.
  intros Hne%is_empty_false Hsize. unfold store_stream. cbv zeta. unfold storage_exists. case_bool_decide as Hex.
  { unfold mlift, mres. destruct (_validate_stored _ _ _ _) as [u|e] eqn:Hv; cbn; [|split; [apply written_refl|done]].
    destruct (_discard_exact _ _ _); cbn; (split; [apply written_refl|]); [|done]. split; [by apply validate_stored_Ok in Hv|done]. }
  apply eq_None_not_Some in Hex. rewrite own_name by done.
  assert (forall c, written [pt_key p] m (set_ms_store (set_files <[pt_key p := c]>) m)) as Hw.
  { intros c. eexists. split; [by destruct m|]. intros k. destruct (decide (k = pt_key p)) as [->|Hk]; [right; split; [by left|done]|left; by rewrite lookup_insert_ne]. }
  destruct (read_all s (pt_size p)) as [data [reader|e]]; [|split; [destruct keep; [apply Hw|apply written_refl]|done]].
  rewrite bool_decide_eq_true_2 by done. cbn [negb].
  destruct (_ ≫= _) as [u|e] eqn:E.
  - split; [apply Hw|]. apply bind_Ok in E as (? & _ & E). by apply validate_stored_Ok in E.
  - split; [|done]. unfold delete_stored_object. exists (delete (pt_key p) (<[pt_key p := (data, now)]> (m_files m))). split; [destruct m as [[] ? ? ? ? ? ?]; cbn; by rewrite Hne|]. cbn. intros k.
    destruct (decide (k = pt_key p)) as [->|Hk]; [right; split; [by left|done]|left; by rewrite lookup_delete_ne, lookup_insert_ne].
Qed.

Definition proper_part (p : part) : Prop := pt_key p <> "" /\ 0 <= pt_size p.
Lemma store_parts_rel parts s created keep now m :
  Forall proper_part parts ->
  let '(outcome, created', m') := store_parts available_name parts s created keep now m in
  written (map pt_key parts) m m' /\ (exists new, created' = created ++ new /\ forall k, k ∈ new -> k ∈ map pt_key parts /\ m_files m !! k = None) /\
  (is_ok outcome = true -> Forall (stored_part (ms_store m')) parts).
Proof.
  revert s created m. induction parts as [|p parts IH]; intros s created m Hp; cbn [store_parts map].
  { split; [apply written_refl|]. split; [exists []; split; [by rewrite app_nil_r|by intros k ?%elem_of_nil]|done]. }
  apply Forall_cons in Hp as [[Hk Hz] Hp]. pose proof (store_stream_rel s p keep now m Hk Hz) as Hs.
  destruct (store_stream _ s p keep now m) as [[[new s']|e] m1].
  2:{ destruct Hs as [Hw _]. split; [eapply written_weaken; [|done]; intros x ->%list_elem_of_singleton; by left|].
      split; [exists []; split; [by rewrite app_nil_r|by intros k ?%elem_of_nil]|done]. }
  destruct Hs as (Hw & Hst & Hnew). specialize (IH s' (if new then created ++ [pt_key p] else created) m1 Hp).
  destruct (store_parts _ _ _ _ _ _ _) as [[outcome created'] m2]. destruct IH as (Hw2 & (more & -> & Hmore) & Hok).
  assert (written (pt_key p :: map pt_key parts) m m2) as Hall.
  { eapply written_trans; (eapply written_weaken; [|done]); [intros x ->%list_elem_of_singleton; by left|intros x Hx; by right]. }
  split; [done|]. split.
  - exists ((if new then [pt_key p] else []) ++ more). split; [destruct new; [by rewrite <- app_assoc|done]|]. intros k [Hn|Hn]%elem_of_app.
    + destruct new; [|by apply elem_of_nil in Hn]. apply list_elem_of_singleton in Hn as ->. split; [by left|auto].
    + apply Hmore in Hn as [Hin Hn]. split; [by right|]. destruct (m_files m !! k) eqn:E; [|done].
      rewrite (written_keeps _ _ _ k Hw) in Hn; [congruence|eauto].
  - intros Ho. apply Forall_cons. split; [|by apply Hok]. eapply stored_part_files; [|exact Hst]. destruct Hst as (c & a & Hf & _).
    eapply written_keeps; [exact Hw2|eauto].
Qed.

(** ** The keys of a commit *)

Lemma last_split_on sep a b : last (split_on sep (a ++ sep :: b)) = last (split_on sep b).
Proof.
  assert (forall l, exists w ws, split_on sep l = w :: ws) as Hcons by (intros [|c l]; cbn; [|destruct (c =? sep); [|destruct (split_on sep l)]]; eauto).
  induction a as [|c a IH]; cbn.
  - rewrite Z.eqb_refl. destruct (Hcons b) as (w & ws & ->). done.
  - destruct (c =? sep); [|destruct (Hcons (a ++ sep :: b)) as (w & ws & E); rewrite E in *]; cbn.
    + rewrite last_cons, IH. destruct (Hcons b) as (w & ws & ->). destruct (last (w :: ws)) eqn:E; [done|]. by apply last_None in E.
    + assert (ws <> []) as Hws. { clear IH. intros ->. revert w E. induction a as [|d a IHa]; intros w; cbn.
        - rewrite Z.eqb_refl. destruct (Hcons b) as (? & ? & ->). done.
        - destruct (d =? sep); [|destruct (Hcons (a ++ sep :: b)) as (? & ? & E); rewrite E in *; intros [= <- ->]; by eapply IHa].
          destruct (Hcons (a ++ sep :: b)) as (? & ? & ->). done. }
      rewrite <- IH. destruct ws; [done|]. by rewrite !last_cons_cons.
Qed.
Lemma base_name_app s name : base_name (s +:+ "/" +:+ name) = base_name name.
Proof.
  assert (forall l, last (map PyStr l) = PyStr <$> last l) as Hlast by (intros l; induction l as [|x [|y l] IH]; [done|done|exact IH]).
  unfold base_name, path_parts, str_split. rewrite !Hlast. change (code_points (s +:+ "/" +:+ name)) with (code_points s ++ 47 :: code_points name). by rewrite last_split_on.
Qed.
Lemma staging_key_name rid sha name : base_name (staging_key rid sha name) = base_name name.
Proof. unfold staging_key. rewrite str_app_assoc. apply base_name_app. Qed.

Lemma validated_sizes c : validate_commit c = Ok tt -> 0 < int_of (po_canonical_size c) /\ 0 <= int_of (po_preview_size c) /\ 0 <= int_of (po_workbook_size c)
  /\ (int_of (po_preview_size c) = 0 -> po_preview_sha256 c = VNone) /\ (int_of (po_workbook_size c) = 0 -> po_workbook_sha256 c = VNone).
Proof.
  assert (forall v, size_ok v = true -> 0 <= int_of v) as Hsize.
  { intros v. unfold size_ok, int_where, int_of. destruct (as_int v); [|done]. intros. by bool_inv. }
  assert (forall name code size digest, part_ok name code size digest = Ok tt -> int_of size = 0 -> digest = VNone) as Hpart.
  { intros name code size digest H E. unfold part_ok in H. rewrite E in H. apply require_Ok in H. by destruct digest. }
  unfold validate_commit. intros H. walk H. res_inv. bool_inv. destruct x, x0, x1, x2, x4. split_and!; eauto.
Qed.

Lemma storage_keys_eq rid c : storage_keys rid c =
  (pt_key (canonical_part rid c), if int_of (po_preview_size c) =? 0 then "" else pt_key (preview_part rid c),
   if int_of (po_workbook_size c) =? 0 then "" else pt_key (workbook_part rid c)).
Proof.
  unfold storage_keys, staging_entries, by_name.
  destruct (Z.eqb_spec (int_of (po_preview_size c)) 0) as [E|E], (Z.eqb_spec (int_of (po_workbook_size c)) 0) as [E'|E'];
    cbn [app map reverse rev_append assoc_first pt_key canonical_part preview_part workbook_part]; rewrite !staging_key_name;
    repeat (rewrite bool_decide_eq_true_2 by (vm_compute; reflexivity) || rewrite bool_decide_eq_false_2 by (vm_compute; discriminate)); done.
Qed.
(** The parts a commit writes are the ones that were staged. *)
Lemma commit_parts_staged b spec_digest c rid : validate_commit c = Ok tt ->
  commit_parts (new_representation b spec_digest c (storage_keys rid c)) = staging_entries rid c.
Proof.
  intros (Hc & Hp & Hw & Hp0 & Hw0)%validated_sizes. unfold commit_parts, new_representation, staging_entries. rewrite storage_keys_eq.
  cbn [rp_text rp_preview rp_workbook pt_key fst snd]. f_equal.
  destruct (Z.eqb_spec (int_of (po_preview_size c)) 0) as [->|Hn], (Z.eqb_spec (int_of (po_workbook_size c)) 0) as [->|Hn'];
    rewrite ?(proj2 (is_empty_false _) (staging_key_nonempty _ _ _)); done.
Qed.
Lemma staging_entries_proper rid c : validate_commit c = Ok tt -> Forall proper_part (staging_entries rid c).
Proof.
  intros (Hc & Hp & Hw & _)%validated_sizes. unfold staging_entries. rewrite !Forall_app, Forall_singleton.
  split_and!; repeat case_match; rewrite ?Forall_singleton; try done; (split; [apply staging_key_nonempty|cbn; lia]).
Qed.

(** ** The rows of a commit *)

#[local] Hint Resolve same_files_trans atomic_same_files mres_same_files : core.
Lemma mstore_same_files f : (forall st st', f st = Ok st' -> files st' = files st) -> respects same_files (mstore f).
Proof. intros Hf m. unfold mstore, same_files. destruct (f (ms_store m)) eqn:E; cbn; [by apply Hf|done]. Qed.
Lemma register_files o kind key id st st' : register_derived_resource o kind key id st = Ok st' -> files st' = files st.
Proof.
  unfold register_derived_resource, save_resource. destruct (stored_object_identity o). cbv zeta. intros H. repeat case_match; try done; walk H; done.
Qed.
Lemma complete_task_same_files l keys now : respects same_files (complete_task l keys now).
Proof. unfold complete_task, fenced_task, _locked, save_task. same_files_tac. Qed.
Lemma commit_rows_same_files b specification spec_digest c existing keys l stage_keys now new_id :
  respects same_files (commit_rows b specification spec_digest c existing keys (Some (complete_task l stage_keys now)) new_id).
Proof.
  unfold commit_rows, mlift, get_specification, create_representation, create_segment, register_parts. cbn [default].
  same_files_tac; try apply complete_task_same_files; apply mstore_same_files; intros st st'; apply register_files.
Qed.

Lemma delete_created created st k : files (fold_left (fun st key => delete_stored_object key st) created st) !! k = files st !! k \/ k ∈ created.
Proof.
  revert st. induction created as [|key created IH]; intros st; cbn; [by left|]. destruct (IH (delete_stored_object key st)) as [->|?]; [|by right; right].
  unfold delete_stored_object. destruct (is_empty key); [by left|]. cbn. destruct (decide (k = key)) as [->|]; [right; by left|left; by rewrite lookup_delete_ne].
Qed.

(** The objects a commit may write: keys of its parts that were free. *)
Definition wrote (keys : list pystr) (m m' : mstate) : Prop := forall k, m_files m' !! k = m_files m !! k \/ k ∈ keys /\ m_files m !! k = None.
Lemma store_and_commit_files b specification spec_digest c s keys l stage_keys received keep now new_id m :
  let parts := commit_parts (new_representation b spec_digest c keys) in
  Forall proper_part parts ->
  wrote (map pt_key parts) m
    (store_and_commit available_name b specification spec_digest c s (Some (complete_task l stage_keys received)) keys keep now new_id m).2.
Proof.
  intros parts Hp. unfold store_and_commit. fold parts. pose proof (store_parts_rel parts s [] keep now m Hp) as Hs.
  destruct (store_parts _ _ _ _ _ _ _) as [[stored created] m1]. destruct Hs as (Hw & (new & Hn & Hnew) & _). rewrite app_nil_l in Hn. subst created.
  destruct Hw as (fs & Hm1 & Hf).
  match goal with |- context [mbind ?f ?c m1] => assert (respects same_files (c ≫= f)) as Hrest; [|specialize (Hrest m1); destruct (mbind f c m1) as [[v|e] m2]] end.
  { apply respects_bind; [exact _|done|intros ?]. apply respects_bind; [exact _|done|intros ?]. apply commit_rows_same_files. }
  all: unfold same_files in Hrest; rewrite Hm1 in Hrest; cbn [fst snd] in *.
  - intros k. rewrite Hrest. apply Hf.
  - intros k. destruct (delete_created new (ms_store m2) k) as [H|H]; [|right; by apply Hnew]. cbn. rewrite H, Hrest. apply Hf.
Qed.

Lemma atomic_files {A} (c : MM A) m : m_files (atomic c m).2 = m_files (c m).2.
Proof. unfold atomic. by destruct (c m) as [[?|?] ?]. Qed.
Lemma atomic_undoes {A} (c : MM A) m e m' : atomic c m = (Err e, m') -> m' = with_files (m_files m') m.
Proof. intros (m1 & _ & ->)%atomic_Err. by destruct m as [[] ? ? ? ? ? ?]. Qed.
(** A run that stops early, or goes on from the state it has reached. *)
Lemma mbind_result {A B} (c : MM A) (f : A -> MM B) (P : mstate -> Prop) m :
  (forall a m1, c m = (Ok a, m1) -> P (f a m1).2) -> (forall e m1, c m = (Err e, m1) -> P m1) -> P ((c ≫= f) m).2.
Proof. intros H H'. destruct (mbind_cases c f m) as [(a & m1 & E & ->)|(e & m1 & E & ->)]; [by apply H|by eapply H']. Qed.

(** What the publishing transaction does to the object store, whether it succeeds or not. *)
Definition publish_effect (l : lease) (o : processing_output) (now : Z) (m m' : mstate) : Prop :=
  exists t m1, ms_tasks m !! ml_representation l = Some t /\ _check t now l true = Ok tt
    /\ (tk_status t = TCompleted -> is_Some (ms_reps m !! ml_representation l))
    /\ recovered (ml_representation l) false m m1 /\ wrote (map pt_key (staging_entries (ml_representation l) o)) m1 m'.
Lemma publish_files l o s keep now received new_id m : validate_commit o = Ok tt ->
  let m' := (publish_output available_name l o s (storage_keys (ml_representation l) o) keep now received new_id m).2 in
  m_files m' = m_files m \/ publish_effect l o now m m'.
Proof.
  intros Hv m'. set (rid := ml_representation l) in *.
  enough (m_files m' = m_files m \/ exists t m1, ms_tasks m !! rid = Some t /\ _check t now l true = Ok tt
    /\ (tk_status t = TCompleted -> is_Some (ms_reps m !! rid)) /\ recovered rid false m m1 /\ wrote (map pt_key (staging_entries rid o)) m1 m') by done.
  unfold m', wrote, publish_output, fenced_task. rewrite !atomic_files.
  apply (mbind_result _ _ (fun m' => m_files m' = m_files m \/ exists t m1, _ /\ _ /\ _ /\ _ /\ (forall k, m_files m' !! k = _ \/ _))); [|intros e m1 [= _ <-]; by left].
  intros t m1 [= Ht <-]. apply from_option_res_Ok in Ht. fold rid in Ht.
  match goal with |- context [mres ?r] => destruct r as [[]|e] eqn:Hc; [|by left] end.
  rewrite (mbind_run _ _ _ tt m), (mbind_run _ _ _ m m) by done.
  match goal with |- context [mres ?r] => destruct r as [source|e] eqn:Hr; [|by left] end.
  rewrite (mbind_run _ _ _ source m) by done.
  match goal with |- context [mres ?r] => destruct r as [[]|e] eqn:Hq; [|by left] end.
  rewrite (mbind_run _ _ _ tt m) by done. apply require_Ok in Hq. right. exists t, (recover_staging rid false m).2.
  split; [done|]. split; [done|]. split.
  { intros Hs. bool_inv. rewrite bool_decide_eq_true_2 in Hq by done. cbn in Hq. bool_inv. by apply not_eq_None_Some. }
  split; [apply recover_staging_rel|].
  apply (mbind_result _ _ (fun m' => forall k, m_files m' !! k = _ \/ _)); [|intros e m1 E; fold rid in E; rewrite E; by left].
  intros [] m1 E. fold rid in E. rewrite E. unfold commit_bound_material. rewrite (mbind_run _ _ _ tt m1) by (by rewrite Hv).
  match goal with |- context [mres ?r] => destruct r as [[]|e] eqn:Hid; [|by left] end.
  rewrite (mbind_run _ _ _ tt m1) by done. cbn [commit_keys default bd_representation fst snd].
  set (b := BoundInput _ _ _). set (spec_digest := text_of _).
  rewrite <- (commit_parts_staged b spec_digest o rid Hv). apply store_and_commit_files.
  rewrite commit_parts_staged by done. by apply staging_entries_proper.
Qed.

(** The rows a commit leaves alone before it completes the task. *)
Definition registers (m m' : mstate) : Prop := forall k, registered m k = true -> registered m' k = true.
Definition frame (m m' : mstate) : Prop := ms_tasks m' = ms_tasks m /\ ms_staged m' = ms_staged m /\ ms_reps m' = ms_reps m /\ registers m m'.
#[export] Instance frame_refl : Reflexive frame.
Proof. intros m. unfold frame, registers. auto. Qed.
#[export] Instance frame_trans : Transitive frame.
Proof. unfold frame, registers. intros m m1 m2 (H1 & H2 & H3 & H) (H1' & H2' & H3' & H'). split_and!; try congruence. intros k Hk. by apply H', H. Qed.

Lemma register_registers o kind key id st st' k : register_derived_resource o kind key id st = Ok st' ->
  qs_exists (fun r => bool_decide (dr_resource_key r = k)) (resources st) = true -> qs_exists (fun r => bool_decide (dr_resource_key r = k)) (resources st') = true.
Proof.
  rewrite !qs_exists_true. unfold register_derived_resource, save_resource. destruct (stored_object_identity o) as [kd i]. cbv zeta.
  intros H (rid & r & Hr & Hk). destruct (qs_first _ _) as [[old ro]|] eqn:E.
  - apply qs_first_Some in E as [E _]. destruct (_ && _); [|injection H as <-; eauto]. walk H. cbn.
    destruct (decide (old = rid)) as [->|]; [|exists rid, r; by rewrite lookup_insert_ne].
    eexists rid, _. rewrite lookup_insert_eq. split; [done|]. rewrite Hr in E. by injection E as <-.
  - destruct (resources st !! id) eqn:Hid; [done|]. walk H. cbn. exists rid, r. rewrite lookup_insert_ne; [done|congruence].
Qed.
Lemma register_self o kind key id st st' : register_derived_resource o kind key id st = Ok st' ->
  qs_exists (fun r => bool_decide (dr_resource_key r = key)) (resources st') = true.
Proof.
  rewrite qs_exists_true. setoid_rewrite bool_decide_eq_true. unfold register_derived_resource, save_resource. destruct (stored_object_identity o) as [kd i]. cbv zeta.
  destruct (qs_first _ _) as [[old ro]|] eqn:E; intros H.
  - apply qs_first_Some in E as [E Hid]. apply bool_decide_eq_true in Hid. unfold resource_identity in Hid. cbn in Hid. injection Hid as _ _ _ _ _ Hkey.
    destruct (_ && _); [|injection H as <-; eauto]. walk H. cbn. eexists old, _. rewrite lookup_insert_eq. done.
  - destruct (resources st !! id) eqn:Hid; [done|]. walk H. cbn. eexists id, _. rewrite lookup_insert_eq. done.
Qed.
Lemma mput_frame f : (forall m, ms_tasks (f m) = ms_tasks m /\ ms_staged (f m) = ms_staged m /\ ms_reps (f m) = ms_reps m /\ ms_store (f m) = ms_store m) -> respects frame (mput f).
Proof. intros Hf m. destruct (Hf m) as (H1 & H2 & H3 & H4). unfold frame, registers, registered, mput. cbn. rewrite H1, H2, H3, H4. auto. Qed.
Lemma frame_Ok {A} (c : MM A) m a m' : respects frame c -> c m = (Ok a, m') -> frame m m'.
Proof. intros H E. specialize (H m). by rewrite E in H. Qed.
Ltac frame_tac :=
  repeat first
    [ apply respects_bind; [exact _| |intros ?] | apply respects_mfor; [exact _|exact _|intros ? _]
    | apply mput_frame; intros ?; done | case_match
    | match goal with |- respects _ (mres _) => intros ?; reflexivity | |- respects _ mget => intros ?; reflexivity end ].
Lemma get_specification_frame digest specification : respects frame (get_specification digest specification).
Proof. unfold get_specification. frame_tac. Qed.
Lemma create_segment_frame rid s : respects frame (create_segment rid s).
Proof. unfold create_segment. frame_tac. Qed.
Lemma register_parts_frame o parts new_id : respects frame (register_parts o parts new_id).
Proof.
  unfold register_parts. frame_tac. intros m. unfold mstore. destruct (register_derived_resource _ _ _ _ _) as [st|e] eqn:E; cbn; [|reflexivity].
  unfold frame, registers, registered. cbn. split_and!; try done. intros k. by apply register_registers with (1 := E).
Qed.

Lemma register_parts_Ok o parts new_id m u m' : register_parts o parts new_id m = (Ok u, m') -> Forall (fun p => registered m' (pt_key p) = true) parts.
Proof.
  unfold register_parts. assert (forall l m, mfor (fun ip : nat * part => mstore (register_derived_resource o "storageObject" (pt_key ip.2) (new_id ip.1))) l m = (Ok u, m') ->
    Forall (fun ip : nat * part => registered m' (pt_key ip.2) = true) l) as Hl.
  2:{ intros H%Hl. rewrite Forall_forall in H. apply Forall_forall. intros p Hp. apply list_elem_of_lookup in Hp as [i Hi]. apply (H (i, p)). apply elem_of_lookup_imap. eauto. }
  clear m. intros l. induction l as [|ip l IH]; intros m H; [constructor|]. cbn [mfor] in H. apply mbind_Ok in H as (u1 & m1 & H1 & H). apply Forall_cons. split; [|by eapply IH].
  assert (respects frame (mfor (fun ip : nat * part => mstore (register_derived_resource o "storageObject" (pt_key ip.2) (new_id ip.1))) l)) as Hf.
  { apply respects_mfor; [exact _|exact _|]. intros ip' _ m2. unfold mstore. destruct (register_derived_resource _ _ _ _ _) as [st|e] eqn:E; cbn; [|reflexivity].
    unfold frame, registers, registered. cbn. split_and!; try done. intros k. by apply register_registers with (1 := E). }
  apply frame_Ok in H as (_ & _ & _ & Hreg); [|exact Hf]. apply Hreg. unfold mstore in H1. destruct (register_derived_resource _ _ _ _ _) as [st|e] eqn:E; [|done].
  injection H1 as _ <-. unfold registered. cbn. by eapply register_self.
Qed.

(** the completed task, and the staged rows that are left *)
Definition completed (l : lease) (keys : pystr * pystr * pystr) (m m' : mstate) : Prop := exists t t',
  ms_tasks m !! ml_representation l = Some t /\ ms_tasks m' = <[ml_representation l := t']> (ms_tasks m)
  /\ tk_status t' = TCompleted /\ tk_epoch t' = tk_epoch t /\ tk_attempts t' = tk_attempts t
  /\ ms_staged m' = filter (fun s => ~ (sd_task s.2 = ml_representation l /\ s.1 ∈ [keys.1.1; keys.1.2; keys.2])) (ms_staged m)
  /\ ms_reps m' = ms_reps m /\ ms_store m' = ms_store m.
Lemma complete_task_Ok l keys now m u m' : complete_task l keys now m = (Ok u, m') -> completed l keys m m'.
Proof.
  unfold complete_task, completed. intros (t & Ht & Hc & H)%fenced_Ok. apply mbind_Ok in H as (a & m1 & H1 & H).
  unfold mput in H. injection H as <- <-. exists t. case_bool_decide as Hs.
  - injection H1 as <- <-. exists t. split; [done|]. by rewrite insert_id.
  - injection H1 as <- <-. by eexists.
Qed.

Lemma commit_rows_Ok b specification spec_digest c keys l stage_keys now new_id m v m' :
  let rid := bd_representation b in
  commit_rows b specification spec_digest c (ms_reps m !! rid) keys (Some (complete_task l stage_keys now)) new_id m = (Ok v, m') ->
  exists r m1, m_files m' = m_files m /\ completed l stage_keys m1 m' /\ ms_tasks m1 = ms_tasks m /\ ms_staged m1 = ms_staged m /\ registers m m'
    /\ commit_parts r = commit_parts (new_representation b spec_digest c keys) /\ ms_reps m1 = <[rid := r]> (ms_reps m)
    /\ (forall old, ms_reps m !! rid = Some old -> old = r)
    /\ (ms_reps m !! rid = None -> Forall (fun p => registered m' (pt_key p) = true) (commit_parts r)).
Proof.
  intros rid H. pose proof (commit_rows_same_files b specification spec_digest c (ms_reps m !! rid) keys l stage_keys now new_id m) as Hf.
  rewrite H in Hf. unfold same_files in Hf. cbn [snd] in Hf. unfold commit_rows in H. fold rid in H.
  apply mbind_Ok in H as (m0 & m1 & [= <- <-] & H). apply mbind_Ok in H as (canonical & m1 & [Hc ->]%mm_lift_Ok & H).
  apply mbind_Ok in H as (u & m1 & Hw & H). assert (m1 = m) as ->.
  { destruct (is_empty _) in Hw; [by apply mret_Ok in Hw as [_ ->]|]. apply mbind_Ok in Hw as (w & m2 & [_ ->]%mm_lift_Ok & Hw). by apply mm_lift_Ok in Hw as [_ ->]. }
  apply mbind_Ok in H as (u' & m1 & [_ ->]%mm_lift_Ok & H). destruct (ms_reps m !! rid) as [r|] eqn:Hold.
  - apply mbind_Ok in H as (u1 & m1 & [He ->]%mm_lift_Ok & H). apply mbind_Ok in H as (u2 & m1 & Hd & H). apply mret_Ok in H as [_ ->]. apply (proj1 (atomic_Ok _ _ _ _)) in Hd. cbn [default] in Hd.
    apply complete_task_Ok in Hd as Hd'. exists r, m. split; [done|]. split; [done|]. split; [done|]. split; [done|].
    destruct Hd' as (t & t' & _ & _ & _ & _ & _ & _ & _ & Hst). split; [intros k; unfold registered; by rewrite Hst|].
    unfold _require_existing_representation in He. walk He. res_inv. bool_inv. split; [|split; [by rewrite insert_id|split; [naive_solver|done]]].
    unfold commit_parts. by repeat match goal with E : rp_text r = _ |- _ => rewrite E; clear E | E : rp_preview r = _ |- _ => rewrite E; clear E | E : rp_workbook r = _ |- _ => rewrite E; clear E end.
  - apply mbind_Ok in H as (segments & m1 & [_ ->]%mm_lift_Ok & H). apply mbind_Ok in H as (u1 & m1 & Hd & H). apply mret_Ok in H as [_ ->]. apply (proj1 (atomic_Ok _ _ _ _)) in Hd. cbn [default] in Hd.
    apply mbind_Ok in Hd as (u2 & m2 & H1 & Hd). apply mbind_Ok in Hd as (u3 & m3 & H2 & Hd). apply mbind_Ok in Hd as (u4 & m4 & H3 & Hd).
    apply mbind_Ok in Hd as (u5 & m5 & H4 & Hd). exists (new_representation b spec_digest c keys), m5.
    apply frame_Ok in H1 as (T1 & S1 & R1 & G1); [|apply get_specification_frame].
    apply frame_Ok in H3 as (T3 & S3 & R3 & G3); [|apply respects_mfor; [exact _|exact _|intros s _; apply create_segment_frame]].
    pose proof (register_parts_Ok _ _ _ _ _ _ H4) as Hreg. apply frame_Ok in H4 as (T4 & S4 & R4 & G4); [|apply register_parts_frame].
    unfold create_representation in H2. apply mbind_Ok in H2 as (m0 & ? & [= <- <-] & H2). apply mbind_Ok in H2 as (u6 & ? & [_ ->]%mres_Ok & H2).
    injection H2 as <- <-. apply complete_task_Ok in Hd as Hd'. split; [done|]. split; [done|].
    split; [by rewrite T4, T3, <- T1|]. split; [by rewrite S4, S3, <- S1|]. split.
    { intros k Hk. destruct Hd' as (t & t' & _ & _ & _ & _ & _ & _ & _ & Hst). unfold registered. rewrite Hst. apply G4, G3, G1, Hk. }
    split; [done|]. split; [rewrite R4, R3; cbn; by rewrite R1|]. split; [done|]. intros _. eapply Forall_impl; [exact Hreg|]. intros p.
    destruct Hd' as (t & t' & _ & _ & _ & _ & _ & _ & _ & Hst). unfold registered. by rewrite Hst.
Qed.

Definition publish_result (l : lease) (o : processing_output) (now : Z) (m m' : mstate) : Prop :=
  let rid := ml_representation l in let keys := storage_keys rid o in
  exists t t' m1 m2 r, ms_tasks m !! rid = Some t /\ _check t now l true = Ok tt
    /\ recovered rid false m m1 /\ written (map pt_key (staging_entries rid o)) m1 m2 /\ Forall (stored_part (ms_store m2)) (staging_entries rid o)
    /\ m_files m' = m_files m2 /\ commit_parts r = staging_entries rid o /\ ms_reps m' = <[rid := r]> (ms_reps m)
    /\ (forall old, ms_reps m !! rid = Some old -> old = r) /\ registers m m'
    /\ (ms_reps m !! rid = None -> Forall (fun p => registered m' (pt_key p) = true) (staging_entries rid o))
    /\ ms_tasks m' = <[rid := t']> (ms_tasks m) /\ tk_status t' = TCompleted /\ tk_epoch t' = tk_epoch t /\ tk_attempts t' = tk_attempts t
    /\ ms_staged m' = filter (fun s => ~ (sd_task s.2 = rid /\ s.1 ∈ [keys.1.1; keys.1.2; keys.2])) (ms_staged m1).
Lemma publish_Ok l o s keep now received new_id m v m' : validate_commit o = Ok tt ->
  publish_output available_name l o s (storage_keys (ml_representation l) o) keep now received new_id m = (Ok v, m') -> publish_result l o now m m'.
Proof.
  intros Hv. unfold publish_output. intros H. apply (proj1 (atomic_Ok _ _ _ _)), fenced_Ok in H as (t & Ht & Hc & H). set (rid := ml_representation l) in *.
  apply mbind_Ok in H as (m0 & m1 & [= <- <-] & H). apply mbind_Ok in H as (source & m1 & [_ ->]%mres_Ok & H).
  apply mbind_Ok in H as (u & m1 & [_ ->]%mres_Ok & H). apply mbind_Ok in H as (u1 & m1 & Hr & H).
  pose proof (recover_staging_rel rid false m) as Hrec. rewrite Hr in Hrec. cbn [snd] in Hrec.
  unfold commit_bound_material in H. apply mbind_Ok in H as (u2 & m2 & [_ ->]%mm_lift_Ok & H). apply mbind_Ok in H as (u3 & m2 & [_ ->]%mres_Ok & H).
  cbn [commit_keys default from_option id bd_representation fst snd] in H. unfold id in H. set (b := BoundInput _ _ _) in *. set (sd := text_of _) in *. fold rid in b. 
  unfold store_and_commit in H. fold rid in H. pose proof (store_parts_rel (commit_parts (new_representation b sd o (storage_keys rid o))) s [] keep now m1) as Hs.
  rewrite commit_parts_staged in Hs by done. specialize (Hs (staging_entries_proper rid o Hv)).
  rewrite commit_parts_staged in H by done.
  destruct (store_parts _ _ _ _ _ _ _) as [[stored created] m2]. destruct Hs as (Hw & _ & Hst).
  match type of H with context [mbind ?f ?c m2] => destruct (mbind f c m2) as [[v'|e] m3] eqn:E end; [|done]. injection H as -> ->.
  apply mbind_Ok in E as (rest & ? & [-> ->]%mres_Ok & E). apply mbind_Ok in E as (? & ? & [_ ->]%mm_lift_Ok & E). specialize (Hst eq_refl).
  destruct Hw as (fs & -> & Hw). destruct Hrec as (fs1 & sg & -> & Hrec).
  change (ms_reps (with_objects fs1 sg m)) with (ms_reps (with_files fs (with_objects fs1 sg m))) in E.
  apply commit_rows_Ok in E as (r & m4 & Hf & (tc & t' & Htc & HT & Hts & Hte & Hta & HS & HR & _) & T4 & S4 & Hg & Hp & R4 & Ho & Hnew).
  exists t, t', (with_objects fs1 sg m), (with_objects fs sg m), r. split; [done|]. split; [done|]. split; [by exists fs1, sg|].
  split; [by exists fs|]. split; [done|]. split; [done|]. split; [by rewrite Hp, commit_parts_staged|].
  assert (commit_parts r = staging_entries rid o) as Hparts by (by rewrite Hp, commit_parts_staged). rewrite Hparts in Hnew.
  split; [by rewrite HR, R4|]. split; [done|]. split; [done|]. split; [exact Hnew|]. fold rid in HT, Htc, HS. rewrite T4 in HT, Htc. cbn in Htc. rewrite Ht in Htc. injection Htc as <-.
  split; [done|]. split; [done|]. split; [done|]. split; [done|]. by rewrite HS, S4.
Qed.
End storing.
