(* ===== verification/MaterialSystem.v ===== *)
(** * Processing of documents: the system

    Workers claim, renew, stage, publish, fail and crash, clean-ups recover staged objects, previews ask for tasks, the
    collector of deleted resources reclaims objects and representations, and other requests run, in any order.  The invariant of the reachable states gives the properties of leases, staged objects and representations. *)

From stdpp Require Import base tactics list gmap numbers sorting relations.
From S2P Require Import Prelude PyStr Table Utf8 Sha256 Platform Schema PyValue Json Contract Plugins Assets Sources ResourceGc Artifacts ArtifactsProps RuntimeReplies MaterialManifest Materials MaterialsProps.

Section system.
Context {PL : Platform} (available_name : files_t -> pystr -> pystr).
(** [default_storage.save] keeps a name that is free *)
Hypothesis own_name : forall fs key, fs !! key = None -> available_name fs key = key.

(** ** Steps *)

(** the tables and objects, the clock of the database, the commits whose staging has succeeded, and the resources the
    collector has verified to be reclaimable *)
Record system := System { sy_state : mstate; sy_clock : Z; sy_flights : list (lease * processing_output); sy_collecting : list resource_row }.

Definition material_key (k : pystr) : bool := startswith k "materials/".
(** the collector deletes the object *)
Definition given_up (coll : list resource_row) (k : pystr) : Prop := exists r, r ∈ coll /\ dr_resource_key r = k.
(** Other requests own neither the tables of the platform worker nor its objects. *)
Definition elsewhere (m m' : mstate) : Prop :=
  ms_tasks m' = ms_tasks m /\ ms_staged m' = ms_staged m /\ ms_reps m' = ms_reps m /\ registers m m'
  /\ forall k, material_key k = true -> m_files m' !! k = m_files m !! k.
(** A worker that dies while it publishes may leave anything under the keys its task has staged, unless they are in use
    and there. *)
Definition crashed (l : lease) (now : Z) (m : mstate) (fs : files_t) : Prop :=
  (exists t, ms_tasks m !! ml_representation l = Some t /\ _check t now l true = Ok tt)
  /\ forall k, fs !! k = m_files m !! k \/ staged_by m (ml_representation l) k /\ (~ in_use m k \/ m_files m !! k = None).
(** A commit that is repeated after the task was completed announces what was published. *)
Definition repeats (l : lease) (o : processing_output) (m : mstate) : Prop := forall t r,
  ms_tasks m !! ml_representation l = Some t -> tk_status t = TCompleted -> ms_reps m !! ml_representation l = Some r ->
  commit_parts r = staging_entries (ml_representation l) o.

Inductive step : system -> system -> Prop :=
| step_clock m now flights coll later : now <= later -> step (System m now flights coll) (System m later flights coll)
| step_admit m now flights coll rid specification identity spec_digest size r m' :
    admit_task rid specification identity spec_digest size m = (r, m') -> step (System m now flights coll) (System m' now flights coll)
| step_claim m now flights coll id owner seconds r m' : claim id owner seconds now m = (r, m') -> step (System m now flights coll) (System m' now flights coll)
| step_renew m now flights coll l seconds r m' : renew l seconds now m = (r, m') -> step (System m now flights coll) (System m' now flights coll)
| step_failed m now flights coll l r m' : attempt_failed l now m = (r, m') -> step (System m now flights coll) (System m' now flights coll)
| step_cleanup m now flights coll locked r m' : cleanup_expired locked now m = (r, m') -> step (System m now flights coll) (System m' now flights coll)
| step_prepare m now flights coll l o r m' : validate_commit o = Ok tt -> prepare_staging l o now m = (r, m') ->
    step (System m now flights coll) (System m' now (match r with Ok _ => (l, o) :: flights | Err _ => flights end) coll)
| step_publish m now flights coll l o s keep received new_id r m' : (l, o) ∈ flights -> now <= received -> repeats l o m ->
    publish_output available_name l o s (storage_keys (ml_representation l) o) keep now received new_id m = (r, m') ->
    step (System m now flights coll) (System m' received flights coll)
| step_crash m now flights coll l o fs : (l, o) ∈ flights -> crashed l now m fs -> step (System m now flights coll) (System (with_objects fs (ms_staged m) m) now flights coll)
| step_other m now flights coll m' : elsewhere m m' -> step (System m now flights coll) (System m' now flights coll)
(** a preview asks for its task *)
| step_preview m now flights coll rid specification identity spec_digest size r m' :
    preview_task rid specification identity spec_digest size m = (r, m') -> step (System m now flights coll) (System m' now flights coll)
(** The collector verifies the owner of a resource it has claimed, deletes the object, and removes the representations of
    contents that are cleaned. *)
| step_verify m now flights coll r : _verify_deleted_owner (ms_store m) r = Ok tt -> step (System m now flights coll) (System m now flights (r :: coll))
| step_clean m now flights coll r storage_ok st : r ∈ coll -> _clean_resource (ms_store m) r storage_ok = Ok st ->
    step (System m now flights coll) (System (set_ms_store (fun _ => st) m) now flights coll)
| step_delete m now flights coll r : r ∈ coll ->
    step (System m now flights coll) (System (_delete_stale_representation_if_fully_cleaned r m) now flights coll).
Abbreviation steps := (rtc step).

(** nothing has been processed yet *)
Definition initial (y : system) : Prop :=
  ms_tasks (sy_state y) = ∅ /\ ms_staged (sy_state y) = ∅ /\ ms_reps (sy_state y) = ∅ /\ sy_flights y = [] /\ sy_collecting y = []
  /\ forall k, material_key k = true -> m_files (sy_state y) !! k = None.

(** ** The invariant *)

Definition staged_as (m : mstate) (rid : pystr) (p : part) : Prop := ms_staged m !! pt_key p = Some (Staged rid (pt_size p) (pt_sha256 p)).
(** the objects of a commit are staged for as long as its lease is live *)
Definition flight_ok (m : mstate) (now : Z) (f : lease * processing_output) : Prop :=
  validate_commit f.2 = Ok tt /\ exists t, ms_tasks m !! ml_representation f.1 = Some t /\ ml_epoch f.1 <= tk_epoch t
  /\ (_check t now f.1 false = Ok tt -> Forall (staged_as m (ml_representation f.1)) (staging_entries (ml_representation f.1) f.2)).
Definition task_ok (t : task_row) : Prop := 0 <= tk_attempts t <= MAX_ATTEMPTS /\ tk_epoch t = tk_attempts t.
Definition stage_ok (m : mstate) (key : pystr) (row : staged_row) : Prop :=
  is_Some (ms_tasks m !! sd_task row) /\ key ∈ staging_names (sd_task row) (sd_sha256 row).
Definition rep_ok (m : mstate) (coll : list resource_row) (r : rep_row) : Prop :=
  Forall (fun p => (stored_part (ms_store m) p \/ given_up coll (pt_key p)) /\ material_key (pt_key p) = true /\ registered m (pt_key p) = true) (commit_parts r).
Definition kept (m : mstate) (k : pystr) : Prop := is_Some (ms_staged m !! k) \/ in_use m k.

Record inv (m : mstate) (now : Z) (flights : list (lease * processing_output)) (coll : list resource_row) : Prop := Inv {
  inv_tasks : forall id t, ms_tasks m !! id = Some t -> task_ok t;
  inv_staged : forall k row, ms_staged m !! k = Some row -> stage_ok m k row;
  inv_reps : forall id r, ms_reps m !! id = Some r -> rep_ok m coll r;
  inv_objects : forall k, material_key k = true -> is_Some (m_files m !! k) -> kept m k;
  inv_flights : Forall (flight_ok m now) flights }.

Lemma staging_key_material rid sha name : material_key (staging_key rid sha name) = true.
Proof. reflexivity. Qed.
Lemma material_nonempty k : material_key k = true -> k <> "".
Proof. by intros H ->. Qed.
Lemma staging_entries_material rid o p : p ∈ staging_entries rid o -> material_key (pt_key p) = true.
Proof.
  unfold staging_entries. rewrite !elem_of_app, list_elem_of_singleton. intros [->|[H|H]]; [apply staging_key_material| |];
    (case_match; [by apply elem_of_nil in H|apply list_elem_of_singleton in H as ->; apply staging_key_material]).
Qed.
Lemma rep_keys_parts r k : k <> "" -> k ∈ rep_keys r <-> k ∈ map pt_key (commit_parts r).
Proof.
  intros Hk. unfold rep_keys, commit_parts. rewrite !map_app, !elem_of_app, !elem_of_cons, elem_of_nil. cbn [map]. rewrite list_elem_of_singleton.
  assert (forall p, k ∈ map pt_key (if is_empty (pt_key p) then [] else [p]) <-> k = pt_key p) as H; [|rewrite !H; naive_solver].
  intros p. destruct (is_empty (pt_key p)) eqn:E; cbn; [apply is_empty_true in E; rewrite E, elem_of_nil; naive_solver|apply list_elem_of_singleton].
Qed.
Lemma published_iff m k : published m k = true <-> exists id r, ms_reps m !! id = Some r /\ k ∈ rep_keys r.
Proof. unfold published. rewrite qs_exists_true. setoid_rewrite bool_decide_eq_true. done. Qed.
Lemma part_published m id r p : ms_reps m !! id = Some r -> p ∈ commit_parts r -> pt_key p <> "" -> published m (pt_key p) = true.
Proof. intros Hr Hp Hk. apply published_iff. exists id, r. split; [done|]. apply rep_keys_parts; [done|]. by apply list_elem_of_fmap_2. Qed.
Lemma published_stored m now flights coll k : inv m now flights coll -> published m k = true -> k <> "" -> is_Some (m_files m !! k) \/ given_up coll k.
Proof.
  intros Hi (id & r & Hr & Hk)%published_iff Hne. apply rep_keys_parts, list_elem_of_fmap in Hk as (p & -> & Hp); [|done].
  pose proof (inv_reps _ _ _ _ Hi _ _ Hr) as Hrep. unfold rep_ok in Hrep. rewrite Forall_forall in Hrep. destruct (Hrep p Hp) as [[(c & a & -> & _)|?] _]; eauto.
Qed.
Lemma rep_ok_files m m' coll r : registers m m' -> (forall p, p ∈ commit_parts r -> material_key (pt_key p) = true -> m_files m' !! pt_key p = m_files m !! pt_key p \/ given_up coll (pt_key p)) ->
  rep_ok m coll r -> rep_ok m' coll r.
Proof.
  unfold rep_ok. rewrite !Forall_forall. intros Hreg Hf Hr p Hp. destruct (Hr p Hp) as (Hs & Hm & Hg). split; [|auto]. destruct (Hf p Hp Hm) as [E|?]; [|by right].
  destruct Hs as [Hs|?]; [left|by right]. by eapply stored_part_files.
Qed.

(** ** Every step keeps the invariant *)

Lemma check_iff t now l : _check t now l false = Ok tt <->
  tk_backend t = "platform" /\ tk_owner t = ml_owner l /\ tk_epoch t = ml_epoch l /\ tk_status t = TRunning /\ unexpired t now = true.
Proof.
  unfold _check. cbn [andb]. rewrite bind_Ok. split.
  - intros (u & H & H'). apply require_Ok in H, H'. bool_inv. split_and!; try done; lia.
  - intros (H1 & H2 & H3 & H4 & H5). exists tt. rewrite !require_Ok, H5. rewrite !bool_decide_eq_true_2, (proj2 (Z.eqb_eq _ _)) by done. done.
Qed.
Lemma unexpired_later t now later : now <= later -> unexpired t later = true -> unexpired t now = true.
Proof. unfold unexpired. destruct (tk_expires t); [|done]. rewrite !Z.ltb_lt. lia. Qed.
Lemma check_later t now later l : now <= later -> _check t later l false = Ok tt -> _check t now l false = Ok tt.
Proof. rewrite !check_iff. intros Hl (? & ? & ? & ? & ?%(unexpired_later t now later Hl)). done. Qed.
Lemma check_true t now l : _check t now l true = Ok tt -> tk_status t = TCompleted \/ _check t now l false = Ok tt.
Proof.
  unfold _check. intros (u & Hr & H)%bind_Ok. cbn [andb] in *. case_bool_decide as E; [by left|right]. rewrite bind_Ok. by exists u.
Qed.
Lemma flights_later m now later flights : now <= later -> Forall (flight_ok m now) flights -> Forall (flight_ok m later) flights.
Proof.
  intros Hl HF. eapply Forall_impl; [exact HF|]. intros [l o] (Hv & t & Ht & He & Hs). split; [done|]. exists t. split_and!; [done|done|].
  intros Hc. apply Hs. by eapply check_later.
Qed.
Lemma inv_later m now later flights coll : now <= later -> inv m now flights coll -> inv m later flights coll.
Proof. intros Hl [H1 H2 H3 H4 H5]. constructor; try done. by eapply flights_later. Qed.

(** a task changes, in a way that makes no older lease live *)
Lemma inv_task m now flights coll id t t' : inv m now flights coll -> ms_tasks m !! id = Some t -> task_ok t' -> tk_epoch t <= tk_epoch t' ->
  (forall l, ml_epoch l <= tk_epoch t -> _check t' now l false = Ok tt -> _check t now l false = Ok tt) ->
  inv (set_ms_tasks <[id := t']> m) now flights coll.
Proof.
  intros [H1 H2 H3 H4 H5] Ht Hok He Hc. constructor; cbn; try done.
  - intros id' x [[-> <-]|[_ Hx]]%lookup_insert_Some; [done|by eapply H1].
  - intros k row Hk. destruct (H2 k row Hk) as [Hs Hn]. split; [|done]. cbn. by apply lookup_insert_is_Some'; right.
  - eapply Forall_impl; [exact H5|]. intros [l o] (Hv & x & Hx & Hle & Hs). split; [done|]. cbn in *. destruct (decide (ml_representation l = id)) as [E|Hne].
    + rewrite E in *. rewrite Ht in Hx. injection Hx as <-. exists t'. rewrite lookup_insert_eq. split; [done|]. split; [lia|]. intros Hl. by apply Hs, Hc.
    + exists x. by rewrite lookup_insert_ne.
Qed.
(** a new task *)
Lemma inv_new_task m now flights coll id t : inv m now flights coll -> ms_tasks m !! id = None -> task_ok t -> inv (set_ms_tasks <[id := t]> m) now flights coll.
Proof.
  intros [H1 H2 H3 H4 H5] Hn Hok. constructor; cbn; try done.
  - intros id' x [[-> <-]|[_ Hx]]%lookup_insert_Some; [done|by eapply H1].
  - intros k row Hk. destruct (H2 k row Hk) as [Hs Hnm]. split; [|done]. cbn. by apply lookup_insert_is_Some'; right.
  - eapply Forall_impl; [exact H5|]. intros [l o] (Hv & x & Hx & Hle & Hs). split; [done|]. exists x. cbn in *. rewrite lookup_insert_ne; [done|congruence].
Qed.

(** objects that are staged and belong to no representation change *)
Lemma inv_changed m now flights coll fs : inv m now flights coll ->
  (forall k, fs !! k = m_files m !! k \/ is_Some (ms_staged m !! k) /\ published m k = false \/ in_use m k /\ (published m k = true -> given_up coll k)) -> inv (with_objects fs (ms_staged m) m) now flights coll.
Proof.
  intros Hi Hf. pose proof Hi as [H1 H2 H3 H4 H5]. constructor; cbn; try done.
  - intros id r Hr. apply (rep_ok_files m); [by intros ?| |exact (H3 id r Hr)]. intros p Hp Hm. cbn.
    pose proof (part_published m id r p Hr Hp (material_nonempty _ Hm)) as Hpub. destruct (Hf (pt_key p)) as [?|[[_ Hp']|[_ Hg]]]; [by left|congruence|auto].
  - intros k Hk Hs. destruct (Hf k) as [E|[[E _]|[E _]]]; [rewrite E in Hs; by apply H4|by left|by right].
Qed.

(** recovery of the staged objects of a task *)
Lemma in_use_objects fs staged m k : in_use (with_objects fs staged m) k <-> in_use m k.
Proof. done. Qed.
Lemma recovered_keeps rid discard m m' k : recovered rid discard m m' -> published m k = true -> m_files m' !! k = m_files m !! k.
Proof. intros (fs & staged & -> & Hf & _) Hk. cbn. destruct (Hf k) as [?|(_ & _ & Hn)]; [done|]. exfalso. apply Hn. by left. Qed.
Lemma inv_recovered rid discard m m' now flights coll : inv m now flights coll ->
  (forall t l, ms_tasks m !! rid = Some t -> _check t now l false <> Ok tt) -> recovered rid discard m m' -> inv m' now flights coll.
Proof.
  intros Hi Hdead Hrec. pose proof Hi as [H1 H2 H3 H4 H5]. pose proof Hrec as (fs & staged & -> & Hf & Hs). constructor; cbn; try done.
  - intros k row Hk. destruct (Hs k) as [E|(E & _)]; rewrite E in Hk; [|done]. by destruct (H2 k row Hk).
  - intros id r Hr. apply (rep_ok_files m); [by intros ?| |exact (H3 id r Hr)]. intros p Hp Hm. left. eapply recovered_keeps; [exact Hrec|].
    eapply part_published; [done|done|by apply material_nonempty].
  - intros k Hk Hx. destruct (Hf k) as [E|(E & _)]; rewrite E in Hx; [|by destruct Hx]. destruct (H4 k Hk Hx) as [Hst|Hu]; [|by right].
    destruct (Hs k) as [E'|(_ & _ & [Hu|[_ Hn]])]; [left; cbn; by rewrite E'|by right|]. rewrite E in Hn. rewrite Hn in Hx. by destruct Hx.
  - eapply Forall_impl; [exact H5|]. intros [l o] (Hv & t & Ht & Hle & Hst). split; [done|]. exists t. split; [done|]. split; [done|]. intros Hc.
    specialize (Hst Hc). eapply Forall_impl; [exact Hst|]. unfold staged_as. cbn. intros p Hp. destruct (Hs (pt_key p)) as [->|(_ & (row & Hrow & Htask) & _)]; [done|].
    rewrite Hp in Hrow. injection Hrow as <-. cbn in Htask. subst rid. by apply Hdead in Hc.
Qed.

(** *** Operations on tasks *)

Lemma atomic_tables {A} (c : MM A) m e m' : respects same_files c -> atomic c m = (Err e, m') -> m' = m.
Proof.
  intros Hc H. apply atomic_Err in H as (m1 & E & ->). specialize (Hc m). rewrite E in Hc. unfold same_files in Hc. cbn in Hc.
  unfold rollback. rewrite Hc. by destruct m as [[] ? ? ? ? ? ?].
Qed.
Ltac tables := unfold _locked, save_task; same_files_tac; try (intros ?; reflexivity).

Lemma admit_cases rid specification identity spec_digest size m r m' : admit_task rid specification identity spec_digest size m = (r, m') ->
  m' = m \/ exists t, ms_tasks m !! rid = None /\ task_ok t /\ m' = set_ms_tasks <[rid := t]> m.
Proof.
  unfold admit_task. destruct r as [u|e]; [|intros H%atomic_tables; [by left|tables]].
  intros H. apply (proj1 (atomic_Ok _ _ _ _)) in H. apply mbind_Ok in H as (m0 & m1 & [= <- <-] & H). apply mbind_Ok in H as (t & m1 & Ht & H).
  assert (m' = m1) as ->.
  { do 2 (apply mbind_Ok in H as (? & ? & [_ ->]%mres_Ok & H)). apply mbind_Ok in H as (? & ? & [= <- <-] & H).
    apply mbind_Ok in H as (? & ? & [_ ->]%mres_Ok & H). by apply mret_Ok in H as [_ ->]. }
  destruct (ms_tasks m !! rid) eqn:E; [apply mret_Ok in Ht as [_ ->]; by left|].
  apply mbind_Ok in Ht as (? & ? & [= <- <-] & Ht). apply mret_Ok in Ht as [_ ->]. right. eexists. split; [done|]. split; [|done]. unfold task_ok, MAX_ATTEMPTS. cbn. lia.
Qed.

Lemma preview_cases rid specification identity spec_digest size m r m' : preview_task rid specification identity spec_digest size m = (r, m') ->
  m' = m \/ exists t, ms_tasks m !! rid = None /\ task_ok t /\ m' = set_ms_tasks <[rid := t]> m.
Proof.
  unfold preview_task. destruct r as [u|e]; [|intros H%atomic_tables; [by left|tables]].
  intros H. apply (proj1 (atomic_Ok _ _ _ _)) in H. apply mbind_Ok in H as (m0 & m1 & [= <- <-] & H). apply mbind_Ok in H as (t & m1 & Ht & H).
  assert (m' = m1) as ->.
  { destruct (negb _) in H; [by apply mret_Ok in H as [_ ->]|]. apply mbind_Ok in H as (? & ? & [= <- <-] & H).
    repeat case_match; try (by apply mret_Ok in H as [_ ->]); by apply mres_Ok in H as [? ->]. }
  destruct (ms_tasks m !! rid) eqn:E; [apply mret_Ok in Ht as [_ ->]; by left|].
  apply mbind_Ok in Ht as (? & ? & [= <- <-] & Ht). apply mret_Ok in Ht as [_ ->]. right. eexists. split; [done|]. split; [|done]. unfold task_ok, MAX_ATTEMPTS. cbn. lia.
Qed.

Definition claimed (owner : pystr) (seconds now : Z) (t : task_row) : task_row :=
  set_task TRunning "" owner (Some (now + seconds * 1000000)) (tk_epoch t + 1) (tk_attempts t + 1) t.
Lemma claim_cases id owner seconds now m r m' : claim id owner seconds now m = (r, m') ->
  m' = m /\ (forall l, r <> Ok (Some l)) \/ exists t, ms_tasks m !! id = Some t /\
  (r = Ok None /\ m' = set_ms_tasks <[id := set_task TFailed "material_processing_attempts_exhausted" "" None (tk_epoch t) (tk_attempts t) t]> m
   \/ tk_attempts t < MAX_ATTEMPTS /\ r = Ok (Some (Lease id owner (tk_epoch t + 1))) /\ m' = set_ms_tasks <[id := claimed owner seconds now t]> m).
Proof.
  unfold claim. destruct (_validate owner seconds) as [u|e]; [|intros [= <- <-]; by left]. rewrite (mbind_run _ _ _ u m) by done.
  destruct r as [r|e]; [|intros H%atomic_tables; [by left|tables]].
  intros H. apply (proj1 (atomic_Ok _ _ _ _)) in H. apply mbind_Ok in H as (t & m1 & Ht & H). unfold _locked in Ht. injection Ht as Ht <-.
  apply from_option_res_Ok in Ht. destruct (negb _); [apply mret_Ok in H as [-> ->]; by left|].
  destruct (unexpired t now); [apply mret_Ok in H as [-> ->]; by left|]. destruct (Z.leb_spec MAX_ATTEMPTS (tk_attempts t)) as [Hm|Hm].
  - apply mbind_Ok in H as (? & ? & [= <- <-] & H). apply mret_Ok in H as [-> ->]. right. exists t. split; [done|]. by left.
  - apply mbind_Ok in H as (? & ? & [= <- <-] & H). apply mret_Ok in H as [-> ->]. right. exists t. split; [done|]. by right.
Qed.

Definition renewed (seconds now : Z) (t : task_row) : task_row :=
  set_task (tk_status t) (tk_error t) (tk_owner t) (Some (now + seconds * 1000000)) (tk_epoch t) (tk_attempts t) t.
Lemma renew_cases l seconds now m r m' : renew l seconds now m = (r, m') -> m' = m /\ is_ok r = false \/
  exists t, ms_tasks m !! ml_representation l = Some t /\ _check t now l false = Ok tt /\ m' = set_ms_tasks <[ml_representation l := renewed seconds now t]> m.
Proof.
  unfold renew. destruct (_validate _ seconds) as [u|e]; [|intros [= <- <-]; by left]. rewrite (mbind_run _ _ _ u m) by done.
  destruct r as [r|e]; [|intros H%atomic_tables; [by left|tables]].
  intros H. apply (proj1 (atomic_Ok _ _ _ _)) in H. apply mbind_Ok in H as (t & m1 & Ht & H). unfold _locked in Ht. injection Ht as Ht <-.
  apply from_option_res_Ok in Ht. apply mbind_Ok in H as ([] & ? & [Hc ->]%mres_Ok & H). injection H as <- <-. right. by exists t.
Qed.
Lemma failed_cases l now m r m' : attempt_failed l now m = (r, m') -> m' = m /\ is_ok r = false \/
  exists t, ms_tasks m !! ml_representation l = Some t /\ _check t now l false = Ok tt
    /\ m' = set_ms_tasks <[ml_representation l := set_task TPending "material_processor_attempt_failed" "" None (tk_epoch t) (tk_attempts t) t]> m.
Proof.
  unfold attempt_failed. destruct r as [r|e]; [|intros H%atomic_tables; [by left|unfold fenced_task; tables]].
  intros (t & Ht & Hc & H)%fenced_Ok. injection H as <- <-. right. by exists t.
Qed.

(** *** Staging *)

Lemma stage_part_Ok rid p m u m' : stage_part rid p m = (Ok u, m') ->
  exists staged, m' = with_objects (m_files m) staged m /\ staged !! pt_key p = Some (Staged rid (pt_size p) (pt_sha256 p)) /\
  forall k, staged !! k = ms_staged m !! k \/ k = pt_key p /\ ms_staged m !! k = None.
Proof.
  unfold stage_part. intros H. apply mbind_Ok in H as (m0 & ? & [= <- <-] & H). apply mbind_Ok in H as (row & m1 & Hrow & H).
  apply mres_Ok in H as [H ->]. apply require_Ok in H. bool_inv. destruct row as [task size sha]; cbn in *. subst task sha. destruct (ms_staged m !! pt_key p) as [old|] eqn:E.
  - apply mret_Ok in Hrow as [<- ->]. exists (ms_staged m). rewrite with_objects_self. split; [done|]. split; [|by left]. rewrite E. repeat f_equal. lia.
  - apply mbind_Ok in Hrow as (? & ? & [= <- <-] & Hrow). apply mret_Ok in Hrow as [Hrow ->]. eexists. split; [by destruct m as [[] ? ? ? ? ? ?]|]. split; [by rewrite lookup_insert_eq|].
    intros k. destruct (decide (k = pt_key p)) as [->|]; [by right|left; by rewrite lookup_insert_ne].
Qed.
Lemma stage_parts_Ok rid parts m u m' : mfor (stage_part rid) parts m = (Ok u, m') ->
  exists staged, m' = with_objects (m_files m) staged m /\ Forall (fun p => staged !! pt_key p = Some (Staged rid (pt_size p) (pt_sha256 p))) parts /\
  forall k, staged !! k = ms_staged m !! k \/ k ∈ map pt_key parts /\ ms_staged m !! k = None.
Proof.
  revert m. induction parts as [|p parts IH]; intros m H; cbn [mfor] in H.
  { apply mret_Ok in H as [_ ->]. exists (ms_staged m). rewrite with_objects_self. split; [done|]. split; [constructor|by left]. }
  apply mbind_Ok in H as (u1 & m1 & (staged & -> & Hp & Hs)%stage_part_Ok & (staged' & -> & Hps & Hs')%IH). exists staged'. split; [done|]. cbn in Hs'. split.
  - apply Forall_cons. split; [|done]. destruct (Hs' (pt_key p)) as [->|[_ Hn]]; [done|congruence].
  - intros k. cbn [map]. rewrite elem_of_cons. destruct (Hs' k) as [->|[? Hn]].
    + destruct (Hs k) as [?|[? ?]]; [by left|right; auto].
    + destruct (Hs k) as [E|[? ?]]; [right; rewrite <- E; auto|right; auto].
Qed.

Lemma staging_entries_named rid o p : p ∈ staging_entries rid o -> pt_key p ∈ staging_names rid (pt_sha256 p).
Proof.
  unfold staging_entries. rewrite !elem_of_app, list_elem_of_singleton. unfold staging_names. rewrite !elem_of_cons.
  intros [->|[H|H]]; [by left| |]; (case_match; [by apply elem_of_nil in H|apply list_elem_of_singleton in H as ->]); cbn; auto.
Qed.
Lemma prepare_cases l o now m r m' : prepare_staging l o now m = (r, m') -> m' = m /\ is_ok r = false \/
  exists t staged, ms_tasks m !! ml_representation l = Some t /\ _check t now l true = Ok tt /\ m' = with_objects (m_files m) staged m /\ r = Ok (storage_keys (ml_representation l) o)
    /\ Forall (fun p => staged !! pt_key p = Some (Staged (ml_representation l) (pt_size p) (pt_sha256 p))) (staging_entries (ml_representation l) o)
    /\ forall k, staged !! k = ms_staged m !! k \/ k ∈ map pt_key (staging_entries (ml_representation l) o) /\ ms_staged m !! k = None.
Proof.
  unfold prepare_staging. match goal with |- (?c ≫= ?f) m = _ -> _ => destruct (mbind_cases c f m) as [(u & m1 & E & ->)|(e & m1 & E & ->)] end.
  - intros [= <- <-]. right. apply (proj1 (atomic_Ok _ _ _ _)), fenced_Ok in E as (t & Ht & Hc & (staged & -> & Hp & Hs)%stage_parts_Ok). by exists t, staged.
  - intros [= <- <-]. left. split; [|done]. eapply atomic_tables; [|exact E]. apply atomic_same_files. unfold stage_part. tables.
Qed.
Lemma inv_prepare m now flights coll l o r m' : inv m now flights coll -> validate_commit o = Ok tt -> prepare_staging l o now m = (r, m') ->
  inv m' now (match r with Ok _ => (l, o) :: flights | Err _ => flights end) coll.
Proof.
  intros Hi Hv [[-> Hr]|(t & staged & Ht & Hc & -> & -> & Hp & Hs)]%prepare_cases; [by destruct r|]. pose proof Hi as [H1 H2 H3 H4 H5].
  assert (forall k row, ms_staged m !! k = Some row -> staged !! k = Some row) as Hkeep. { intros k row Hk. destruct (Hs k) as [->|[_ ?]]; [done|congruence]. }
  constructor; cbn; try done.
  - intros k row Hk. destruct (Hs k) as [E|[Hin _]]; [rewrite E in Hk; by destruct (H2 k row Hk)|]. apply list_elem_of_fmap in Hin as (p & -> & Hin).
    rewrite Forall_forall in Hp. rewrite (Hp p Hin) in Hk. injection Hk as <-. split; [by eexists|]. by apply staging_entries_named with (o := o).
  - intros k Hk Hx. destruct (H4 k Hk Hx) as [[row Hrow]|Hu]; [left; cbn; rewrite (Hkeep k row Hrow); eauto|by right].
  - apply Forall_cons. split.
    + split; [done|]. exists t. split; [done|]. split; [|by intros _]. apply check_true in Hc as Hc'. unfold _check in Hc. apply bind_Ok in Hc as (u & Hc & _). apply require_Ok in Hc. bool_inv. cbn. lia.
    + eapply Forall_impl; [exact H5|]. intros [l' o'] (Hv' & t' & Ht' & Hle & Hst). split; [done|]. exists t'. split; [done|]. split; [done|]. intros Hc'.
      eapply Forall_impl; [exact (Hst Hc')|]. intros p. apply Hkeep.
Qed.

(** *** Clean-up *)

Lemma recover_stage_Ok rid discard key row m : key ∈ staging_names rid (sd_sha256 row) -> exists m', recover_stage rid discard (key, row) m = (Ok tt, m').
Proof.
  intros Hk. unfold recover_stage. rewrite bool_decide_eq_true_2 by done. rewrite (mbind_run _ _ _ tt m), (mbind_run _ _ _ m m) by done.
  destruct (_ || _); [by eexists|]. unfold mbind, MM_bind. repeat case_match; simplify_eq; by eexists.
Qed.
Lemma recover_staging_Ok rid discard m : (forall k row, ms_staged m !! k = Some row -> stage_ok m k row) -> exists m', recover_staging rid discard m = (Ok tt, m').
Proof.
  intros Hs. unfold recover_staging. rewrite (mbind_run _ _ _ m m) by done.
  assert (forall s, s ∈ qs_list (fun s => bool_decide (sd_task s = rid)) (ms_staged m) -> s.1 ∈ staging_names rid (sd_sha256 s.2)) as Hl.
  { intros [k row] [Hk <-]%task_stages. by destruct (Hs k row Hk). }
  revert Hl. generalize (qs_list (fun s => bool_decide (sd_task s = rid)) (ms_staged m)). intros l. clear Hs. revert m. induction l as [|[key row] l IH]; intros m0 Hl; [by eexists|]. cbn [mfor].
  destruct (recover_stage_Ok rid discard key row m0) as [m1 H1]; [apply (Hl (key, row)); by left|]. rewrite (mbind_run _ _ _ tt m1) by done.
  apply IH. intros s Hin. apply Hl. by right.
Qed.
Definition dead (m : mstate) (now : Z) (id : pystr) : Prop := forall t l, ms_tasks m !! id = Some t -> _check t now l false <> Ok tt.
Lemma inv_cleanup m now flights coll ids : inv m now flights coll -> Forall (dead m now) ids ->
  exists m', mfor (fun id => recover_staging id true) ids m = (Ok tt, m') /\ inv m' now flights coll.
Proof.
  revert m. induction ids as [|id ids IH]; intros m Hi Hd; [by exists m|]. apply Forall_cons in Hd as [Hd Hds]. cbn [mfor].
  destruct (recover_staging_Ok id true m (inv_staged _ _ _ _ Hi)) as [m1 H1]. rewrite (mbind_run _ _ _ tt m1) by done.
  pose proof (recover_staging_rel id true m) as Hrec. rewrite H1 in Hrec. cbn in Hrec. apply IH; [by eapply inv_recovered|].
  destruct Hrec as (fs & staged & -> & _). done.
Qed.
Lemma discardable_dead m locked now : Forall (dead m now) (discardable m locked now).
Proof.
  apply Forall_forall. intros id Hid. unfold discardable in Hid. cbv zeta in Hid. match type of Hid with _ ∈ take _ ?l => assert (id ∈ l) as H by (rewrite <- (take_drop 10 l); apply elem_of_app; by left); clear Hid; rename H into Hid end.
  rewrite merge_sort_Permutation in Hid. apply list_elem_of_fmap in Hid as (s & -> & [Hw _]%list_elem_of_filter). intros t l Ht. rewrite Ht in Hw. bool_inv.
  rewrite check_iff. intros (_ & _ & _ & Hr & Hu). rewrite Hr, Hu in *. done.
Qed.

(** *** Publication *)

(** A commit whose lease is accepted writes only what it has staged. *)
Lemma writes_staged m now flights coll l o t m1 k : inv m now flights coll -> (l, o) ∈ flights -> repeats l o m ->
  ms_tasks m !! ml_representation l = Some t -> _check t now l true = Ok tt -> (tk_status t = TCompleted -> is_Some (ms_reps m !! ml_representation l)) ->
  recovered (ml_representation l) false m m1 -> k ∈ map pt_key (staging_entries (ml_representation l) o) -> m_files m1 !! k = None ->
  is_Some (ms_staged m !! k) /\ published m k = false \/ published m k = true /\ given_up coll k.
Proof.
  intros Hi Hin Hrep Ht Hc Hdone Hrec Hk Hn.
  assert (material_key k = true) as Hm by (apply list_elem_of_fmap in Hk as (p & -> & Hp); by eapply staging_entries_material).
  destruct (published m k) eqn:Hp.
  { right. split; [done|]. destruct (published_stored _ _ _ _ _ Hi Hp (material_nonempty _ Hm)) as [Hs|?]; [|done].
    rewrite <- (recovered_keeps _ _ _ _ _ Hrec Hp), Hn in Hs. by destruct Hs. }
  left. split; [|done]. apply list_elem_of_fmap in Hk as (p & -> & Hpart). destruct (check_true _ _ _ Hc) as [Hs|Hc'].
  - destruct (Hdone Hs) as [r Hr]. pose proof (Hrep t r Ht Hs Hr) as Hparts. rewrite <- Hparts in Hpart.
    by rewrite (part_published m _ r p Hr Hpart (material_nonempty _ Hm)) in Hp.
  - pose proof (inv_flights _ _ _ _ Hi) as Hf. rewrite Forall_forall in Hf. destruct (Hf _ Hin) as (_ & t' & Ht' & _ & Hst). cbn in *. rewrite Ht in Ht'. injection Ht' as <-.
    specialize (Hst Hc'). rewrite Forall_forall in Hst. rewrite (Hst p Hpart). eauto.
Qed.

Lemma inv_publish_failed m now flights coll l o s keep received new_id e m' : inv m now flights coll -> (l, o) ∈ flights -> repeats l o m ->
  publish_output available_name l o s (storage_keys (ml_representation l) o) keep now received new_id m = (Err e, m') -> inv m' now flights coll.
Proof.
  intros Hi Hin Hrep H. pose proof (inv_flights _ _ _ _ Hi) as Hf. rewrite Forall_forall in Hf. destruct (Hf _ Hin) as (Hv & _).
  pose proof (publish_files available_name own_name l o s keep now received new_id m Hv) as Hfiles. rewrite H in Hfiles. cbn [snd] in Hfiles.
  rewrite (atomic_undoes _ _ _ _ H). apply inv_changed; [done|]. intros k. destruct Hfiles as [->|(t & m1 & Ht & Hc & Hdone & Hrec & Hw)]; [by left|].
  destruct (Hw k) as [->|[Hk Hn]].
  2:{ right. destruct (writes_staged m now flights coll l o t m1 k) as [?|[? ?]]; try done; [by left|right]. split; [by left|done]. }
  destruct Hrec as (fs & staged & -> & Hfs & _). cbn. destruct (Hfs k) as [?|(_ & (row & Hrow & _) & Hu)]; [by left|right; left]. split; [eauto|].
  destruct (published m k) eqn:E; [|done]. exfalso. apply Hu. by left.
Qed.

Lemma three_keys rid o k : validate_commit o = Ok tt -> k <> "" ->
  k ∈ [(storage_keys rid o).1.1; (storage_keys rid o).1.2; (storage_keys rid o).2] -> k ∈ map pt_key (staging_entries rid o).
Proof.
  set (b := BoundInput (OwnSource "" (SourceObject "" "" false "" "" "" None "" "" "" 0 OReady "" None 0)) VNone "").
  intros Hv Hk H. rewrite <- (commit_parts_staged b "" o rid Hv). by apply rep_keys_parts.
Qed.

Lemma published_after m m' rid r k : ms_reps m' = <[rid := r]> (ms_reps m) -> (forall old, ms_reps m !! rid = Some old -> old = r) ->
  published m k = true -> published m' k = true.
Proof.
  intros HR Ho (id & r' & Hr & Hk)%published_iff. apply published_iff. rewrite HR. exists id, r'. split; [|done].
  destruct (decide (id = rid)) as [->|]; [rewrite lookup_insert_eq; f_equal; symmetry; by apply Ho|by rewrite lookup_insert_ne].
Qed.

Lemma inv_publish_ok m now flights coll l o s keep received new_id v m' : inv m now flights coll -> (l, o) ∈ flights -> repeats l o m ->
  publish_output available_name l o s (storage_keys (ml_representation l) o) keep now received new_id m = (Ok v, m') -> inv m' now flights coll.
Proof.
  intros Hi Hin Hrep H. pose proof Hi as [H1 H2 H3 H4 H5]. rewrite Forall_forall in H5. destruct (H5 _ Hin) as (Hv & _).
  apply publish_Ok in H as (t & t' & m1 & m2 & r & Ht & Hc & Hrec & Hw & Hstored & Hfs & Hparts & HR & Hold & Hreg & Hregd & HT & Hdone & He & Ha & HS); [|done|done].
  set (rid := ml_representation l) in *. pose proof Hrec as (fs1 & sg & -> & Hf1 & Hs1). destruct Hw as (fs2 & -> & Hw). cbn [with_objects set_ms_staged set_ms_store set_files ms_store files ms_staged] in Hfs, Hw, HS.
  assert (forall id r', ms_reps m !! id = Some r' -> Forall (fun p => fs2 !! pt_key p = m_files m !! pt_key p \/ given_up coll (pt_key p)) (commit_parts r')) as Hothers.
  { intros id r' Hr. apply Forall_forall. intros p Hp. pose proof (H3 id r' Hr) as Hok. unfold rep_ok in Hok. rewrite Forall_forall in Hok. destruct (Hok p Hp) as (_ & Hm & _).
    pose proof (part_published m id r' p Hr Hp (material_nonempty _ Hm)) as Hpub. pose proof (recovered_keeps _ _ _ _ _ Hrec Hpub) as Hk. cbn in Hk.
    destruct (published_stored _ _ _ _ _ Hi Hpub (material_nonempty _ Hm)) as [Hs|?]; [left|by right]. rewrite <- Hk in Hs. destruct (Hw (pt_key p)) as [->|[_ Hn]]; [done|]. rewrite Hn in Hs. by destruct Hs. }
  assert (forall p, p ∈ staging_entries rid o -> published m' (pt_key p) = true) as Hnew.
  { intros p Hp. apply (part_published m' rid r); [by rewrite HR, lookup_insert_eq|by rewrite Hparts|by eapply material_nonempty, staging_entries_material]. }
  constructor.
  - rewrite HT. intros id x [[<- <-]|[_ Hx]]%lookup_insert_Some; [|by eapply H1]. destruct (H1 rid t Ht) as [? ?]. unfold task_ok. by rewrite He, Ha.
  - rewrite HS. intros k row [Hk _]%map_lookup_filter_Some. destruct (Hs1 k) as [E|(E & _)]; rewrite E in Hk; [|done]. destruct (H2 k row Hk) as [Hx Hn].
    split; [|done]. rewrite HT. by apply lookup_insert_is_Some'; right.
  - rewrite HR. intros id x [[<- <-]|[Hne Hx]]%lookup_insert_Some.
    + unfold rep_ok. rewrite Hparts. apply Forall_forall. intros p Hp. rewrite Forall_forall in Hstored. split; [left; eapply stored_part_files; [|by apply Hstored]; by rewrite Hfs|]. split; [by eapply staging_entries_material|].
      destruct (ms_reps m !! rid) as [old|] eqn:Eold; [|specialize (Hregd eq_refl); rewrite Forall_forall in Hregd; by apply Hregd].
      pose proof (H3 _ _ Eold) as Hok. unfold rep_ok in Hok. rewrite (Hold _ eq_refl), Hparts, Forall_forall in Hok. apply Hreg. by apply Hok.
    + eapply rep_ok_files; [exact Hreg| |by eapply H3]. intros p Hp _. rewrite Hfs. pose proof (Hothers id x Hx) as Ho. rewrite Forall_forall in Ho. by apply Ho.
  - intros k Hk Hx. rewrite Hfs in Hx. destruct (Hw k) as [E|[Hkey _]]; [|apply list_elem_of_fmap in Hkey as (p & -> & Hp); right; left; by apply Hnew].
    rewrite E in Hx. destruct (Hf1 k) as [E1|(E1 & _)]; rewrite E1 in Hx; [|by destruct Hx]. assert (in_use m k -> kept m' k) as Huse.
    { intros [Hu|Hu]; right; [left; by eapply published_after|right; by apply Hreg]. }
    destruct (H4 k Hk Hx) as [[row Hrow]|Hu]; [|by apply Huse]. destruct (Hs1 k) as [E2|(_ & _ & [Hu|[? _]])]; [|by apply Huse|done].
    destruct (decide (sd_task row = rid /\ k ∈ [(storage_keys rid o).1.1; (storage_keys rid o).1.2; (storage_keys rid o).2])) as [[_ Hd]|Hd].
    + apply three_keys in Hd; [|done|by apply material_nonempty].
      apply list_elem_of_fmap in Hd as (p & -> & Hp). right. left. by apply Hnew.
    + left. rewrite HS. exists row. apply map_lookup_filter_Some. by rewrite E2.
  - apply Forall_forall. intros [l' o'] Hin'. destruct (H5 _ Hin') as (Hv' & x & Hx & Hle & Hst). split; [done|]. cbn in *. rewrite HT.
    destruct (decide (ml_representation l' = rid)) as [E|Hne].
    + rewrite E in *. rewrite Ht in Hx. injection Hx as <-. exists t'. rewrite lookup_insert_eq. split; [done|]. split; [lia|].
      rewrite check_iff. intros (_ & _ & _ & Hr & _). congruence.
    + exists x. rewrite lookup_insert_ne by done. split; [done|]. split; [done|]. intros Hc'. eapply Forall_impl; [exact (Hst Hc')|]. unfold staged_as. rewrite HS. intros p Hp.
      apply map_lookup_filter_Some. cbn. split; [|naive_solver]. destruct (Hs1 (pt_key p)) as [->|(_ & (row & Hrow & Htask) & _)]; [done|]. rewrite Hp in Hrow. by injection Hrow as <-.
Qed.

(** *** The collector *)

Lemma inv_collecting m now flights coll r : inv m now flights coll -> inv m now flights (r :: coll).
Proof.
  intros [H1 H2 H3 H4 H5]. constructor; try done. intros id x Hx. eapply Forall_impl; [exact (H3 id x Hx)|]. intros p ([?|(r0 & ? & ?)] & ? & ?); split; auto.
  right. exists r0. split; [by right|done].
Qed.
Lemma clean_files m r storage_ok st : _clean_resource (ms_store m) r storage_ok = Ok st ->
  set_ms_store (fun _ => st) m = with_objects (delete (dr_resource_key r) (m_files m)) (ms_staged m) m.
Proof. unfold _clean_resource. intros H. walk H. unfold storage_delete. by destruct m as [[] ? ? ? ? ? ?]. Qed.
Lemma inv_clean m now flights coll r : inv m now flights coll -> r ∈ coll -> inv (with_objects (delete (dr_resource_key r) (m_files m)) (ms_staged m) m) now flights coll.
Proof.
  intros [H1 H2 H3 H4 H5] Hr. constructor; cbn; try done.
  - intros id x Hx. apply (rep_ok_files m); [by intros ?| |exact (H3 id x Hx)]. intros p Hp _. cbn.
    destruct (decide (pt_key p = dr_resource_key r)) as [E|E]; [right; by exists r|left; by apply lookup_delete_ne].
  - intros k Hk [x [_ Hx]%lookup_delete_Some]. apply H4; [done|by eexists].
Qed.
Lemma inv_delete m now flights coll r : inv m now flights coll -> inv (_delete_stale_representation_if_fully_cleaned r m) now flights coll.
Proof.
  intros Hi. unfold _delete_stale_representation_if_fully_cleaned. case_match; [done|]. destruct Hi as [H1 H2 H3 H4 H5]. constructor; cbn; try done.
  - intros id x [Hx _]%map_lookup_filter_Some. eapply Forall_impl; [exact (H3 id x Hx)|]. done.
  - intros k Hk Hs. destruct (H4 k Hk Hs) as [?|[Hp|?]]; [by left| |by right; right]. right. right.
    apply published_iff in Hp as (id & x & Hx & Hin). apply rep_keys_parts, list_elem_of_fmap in Hin as (p & -> & Hp); [|by apply material_nonempty].
    pose proof (H3 id x Hx) as Hok. unfold rep_ok in Hok. rewrite Forall_forall in Hok. by apply (Hok p Hp).
Qed.

Lemma processing_step_inv y y' : step y y' -> inv (sy_state y) (sy_clock y) (sy_flights y) (sy_collecting y) -> inv (sy_state y') (sy_clock y') (sy_flights y') (sy_collecting y').
Proof.
  intros [] Hi; cbn [sy_state sy_clock sy_flights sy_collecting] in *.
  - by eapply inv_later.
  - apply admit_cases in H as [->|(t & Hn & Hok & ->)]; [done|by apply inv_new_task].
  - apply claim_cases in H as [[-> _]|(t & Ht & Hcases)]; [done|]. pose proof (inv_tasks _ _ _ _ Hi _ _ Ht) as [Ha He].
    destruct Hcases as [[_ ->]|(Hlt & _ & ->)]; (apply (inv_task _ _ _ _ id t); [done|done| |cbn; lia|]).
    + by split.
    + intros l _. rewrite check_iff. cbn. by intros (_ & _ & _ & ? & _).
    + unfold claimed, task_ok. cbn. lia.
    + intros l Hl. rewrite check_iff. cbn. intros (_ & _ & ? & _). lia.
  - apply renew_cases in H as [[-> _]|(t & Ht & Hc & ->)]; [done|]. pose proof (inv_tasks _ _ _ _ Hi _ _ Ht) as Hok.
    apply (inv_task _ _ _ _ _ t); [done|done|done|cbn; lia|]. intros l' _. rewrite !check_iff in *. cbn. naive_solver.
  - apply failed_cases in H as [[-> _]|(t & Ht & Hc & ->)]; [done|]. pose proof (inv_tasks _ _ _ _ Hi _ _ Ht) as Hok.
    apply (inv_task _ _ _ _ _ t); [done|done|done|cbn; lia|]. intros l' _. rewrite check_iff. cbn. by intros (_ & _ & _ & ? & _).
  - unfold cleanup_expired in H. destruct (inv_cleanup m now flights coll (discardable m locked now) Hi (discardable_dead m locked now)) as (m1 & E & Hi').
    assert (atomic (m0 ← mget; mfor (fun id => recover_staging id true) (discardable m0 locked now)) m = (Ok tt, m1)) as E'; [|rewrite E' in H; by injection H as _ <-].
    apply atomic_Ok. by rewrite (mbind_run _ _ _ m m) by done.
  - by eapply inv_prepare.
  - eapply inv_later; [done|]. destruct r as [v|e]; [by eapply inv_publish_ok|by eapply inv_publish_failed].
  - destruct H0 as [_ Hf]. apply inv_changed; [done|]. intros k. destruct (Hf k) as [?|[(row & Hrow & _) Hu]]; [by left|right].
    assert (is_Some (ms_staged m !! k)) as Hst by eauto. destruct (published m k) eqn:E; [right|by left]. split; [by left|]. intros _.
    destruct Hu as [Hu|Hu]; [destruct Hu; by left|]. assert (k <> "") as Hk.
    { intros ->. destruct (inv_staged _ _ _ _ Hi _ _ Hrow) as [_ Hn]. unfold staging_names in Hn. rewrite !elem_of_cons, elem_of_nil in Hn. by destruct Hn as [?|[?|[?|?]]]. }
    destruct (published_stored _ _ _ _ _ Hi E Hk) as [Hs|?]; [rewrite Hu in Hs; by destruct Hs|done].
  - destruct H as (HT & HS & HR & Hreg & Hf). destruct Hi as [H1 H2 H3 H4 H5]. constructor.
    + by rewrite HT.
    + intros k row. rewrite HS. intros Hk. destruct (H2 k row Hk) as [? ?]. split; [by rewrite HT|done].
    + intros id r. rewrite HR. intros Hr. eapply rep_ok_files; [exact Hreg| |exact (H3 id r Hr)]. intros p Hp Hm. left. by apply Hf.
    + intros k Hk. rewrite Hf by done. intros Hx. destruct (H4 k Hk Hx) as [?|[?|?]]; [left; by rewrite HS|right; left; unfold published; by rewrite HR|right; right; by apply Hreg].
    + eapply Forall_impl; [exact H5|]. intros [l o] (Hv & t & Ht & Hle & Hst). split; [done|]. exists t. rewrite HT. split; [done|]. split; [done|].
      unfold staged_as. by rewrite HS.
  - apply preview_cases in H as [->|(t & Hn & Hok & ->)]; [done|by apply inv_new_task].
  - by apply inv_collecting.
  - rewrite (clean_files _ _ _ _ H0). by apply inv_clean.
  - by apply inv_delete.
Qed.
Lemma initial_inv y : initial y -> inv (sy_state y) (sy_clock y) (sy_flights y) (sy_collecting y).
Proof.
  intros (HT & HS & HR & HF & _ & Hf). constructor.
  - by rewrite HT.
  - by rewrite HS.
  - by rewrite HR.
  - intros k Hk [x Hx]. by rewrite Hf in Hx.
  - rewrite HF. constructor.
Qed.
Lemma reachable_inv y0 y : initial y0 -> steps y0 y -> inv (sy_state y) (sy_clock y) (sy_flights y) (sy_collecting y).
Proof. intros Hi%initial_inv H. revert Hi. induction H; [done|]. intros Hi. by apply IHrtc, (processing_step_inv x). Qed.

(** ** Leases *)

Lemma step_epoch y y' id t : step y y' -> ms_tasks (sy_state y) !! id = Some t -> exists t', ms_tasks (sy_state y') !! id = Some t' /\ tk_epoch t <= tk_epoch t'.
Proof.
  assert (forall m id' x t', ms_tasks m !! id = Some t -> ms_tasks m !! id' = Some x -> tk_epoch x <= tk_epoch t' ->
    exists t'', ms_tasks (set_ms_tasks <[id' := t']> m) !! id = Some t'' /\ tk_epoch t <= tk_epoch t'') as Hins.
  { intros m id' x t' Ht Hx Hle. cbn. destruct (decide (id' = id)) as [->|]; [rewrite lookup_insert_eq; rewrite Ht in Hx; injection Hx as <-; eauto|rewrite lookup_insert_ne by done; eauto with lia]. }
  intros [] Ht; cbn [sy_state] in *.
  - exists t. split; [done|lia].
  - apply admit_cases in H as [->|(t' & Hn & _ & ->)]; [exists t; split; [done|lia]|]. exists t. cbn. rewrite lookup_insert_ne by congruence. split; [done|lia].
  - apply claim_cases in H as [[-> _]|(t' & Ht' & [[_ ->]|(_ & _ & ->)])]; [exists t; split; [done|lia]| |]; (eapply Hins; [done|done|cbn; lia]).
  - apply renew_cases in H as [[-> _]|(t' & Ht' & _ & ->)]; [exists t; split; [done|lia]|]. eapply Hins; [done|done|cbn; lia].
  - apply failed_cases in H as [[-> _]|(t' & Ht' & _ & ->)]; [exists t; split; [done|lia]|]. eapply Hins; [done|done|cbn; lia].
  - assert (ms_tasks m' = ms_tasks m) as ->; [|exists t; split; [done|lia]]. unfold cleanup_expired in H. destruct r as [r|e]; [|by apply atomic_undoes in H as ->].
    apply (proj1 (atomic_Ok _ _ _ _)) in H. apply mbind_Ok in H as (m0 & ? & [= <- <-] & H).
    assert (respects (fun m m' => ms_tasks m' = ms_tasks m) (mfor (fun id => recover_staging id true) (discardable m locked now))) as Hr; [|specialize (Hr m); by rewrite H in Hr].
    apply respects_mfor; [by intros ?|intros a b c E E'; congruence|]. intros id' _ m1. by destruct (recover_staging_rel id' true m1) as (fs & sg & -> & _).
  - apply prepare_cases in H0 as [[-> _]|(t' & sg & _ & _ & -> & _)]; exists t; (split; [done|lia]).
  - destruct r as [v|e]; [|apply atomic_undoes in H2; rewrite H2; exists t; split; [done|lia]].
    destruct (validate_commit o) as [[]|e] eqn:Hv.
    2:{ unfold publish_output in H2. apply (proj1 (atomic_Ok _ _ _ _)), fenced_Ok in H2 as (t0 & _ & _ & H2). do 4 (apply mbind_Ok in H2 as (? & ? & ? & H2)).
        unfold commit_bound_material in H2. apply mbind_Ok in H2 as (? & ? & [H2' _]%mm_lift_Ok & H2). congruence. }
    apply publish_Ok in H2 as (x & t' & m1 & m2 & rr & Hx & _ & _ & _ & _ & _ & _ & _ & _ & _ & _ & HT & _ & He & _); [|done|done].
    rewrite HT. destruct (decide (ml_representation l = id)) as [E|Hne]; [rewrite E in *; rewrite lookup_insert_eq; exists t'; split; [done|]; rewrite Ht in Hx; injection Hx as <-; lia|].
    rewrite lookup_insert_ne by done. exists t. split; [done|lia].
  - exists t. split; [done|lia].
  - destruct H as (-> & _). exists t. split; [done|lia].
  - apply preview_cases in H as [->|(t' & Hn & _ & ->)]; [exists t; split; [done|lia]|]. exists t. cbn. rewrite lookup_insert_ne by congruence. split; [done|lia].
  - exists t. split; [done|lia].
  - exists t. split; [done|lia].
  - exists t. unfold _delete_stale_representation_if_fully_cleaned. case_match; (split; [done|lia]).
Qed.
Lemma steps_epoch y y' id t : steps y y' -> ms_tasks (sy_state y) !! id = Some t -> exists t', ms_tasks (sy_state y') !! id = Some t' /\ tk_epoch t <= tk_epoch t'.
Proof.
  intros H. revert t. induction H as [y|y y1 y2 H1 _ IH]; intros t Ht; [exists t; split; [done|lia]|].
  destruct (step_epoch _ _ _ _ H1 Ht) as (t1 & Ht1 & Hle). destruct (IH t1 Ht1) as (t2 & Ht2 & Hle2). exists t2. split; [done|lia].
Qed.

Lemma stale_check t now l replay : ml_epoch l < tk_epoch t -> _check t now l replay = Err MLeaseLost.
Proof. intros H. unfold _check. rewrite (proj2 (Z.eqb_neq _ _)) by lia. by rewrite andb_false_r. Qed.
Lemma atomic_stop {A} (c : MM A) m e : c m = (Err e, m) -> atomic c m = (Err e, m).
Proof. unfold atomic. intros ->. by rewrite rollback_self. Qed.
Lemma mbind_stop {A B} (c : MM A) (f : A -> MM B) m e : c m = (Err e, m) -> (c ≫= f) m = (Err e, m).
Proof. unfold mbind, MM_bind. by intros ->. Qed.
Lemma fenced_stale {A} l replay now (body : task_row -> MM A) m t : ms_tasks m !! ml_representation l = Some t -> ml_epoch l < tk_epoch t ->
  fenced_task l replay now body m = (Err MLeaseLost, m).
Proof.
  intros Ht Hl. unfold fenced_task. apply atomic_stop. rewrite (mbind_run _ _ _ t m) by (unfold _locked; by rewrite Ht). apply mbind_stop. by rewrite stale_check.
Qed.

(** Nothing a lease allows still works. *)
Definition fenced_off (m : mstate) (l : lease) : Prop :=
  (forall seconds now, exists e, renew l seconds now m = (Err e, m))
  /\ (forall now, attempt_failed l now m = (Err MLeaseLost, m))
  /\ (forall o now, prepare_staging l o now m = (Err MLeaseLost, m))
  /\ (forall o s keys keep now received new_id, publish_output available_name l o s keys keep now received new_id m = (Err MLeaseLost, m))
  /\ forall o s others keep prepared now received new_id, exists e, commit_processing_output available_name l o s others keep prepared now received new_id m = (Err e, m).
Lemma stale_fenced_off m l t : ms_tasks m !! ml_representation l = Some t -> ml_epoch l < tk_epoch t -> fenced_off m l.
Proof.
  intros Ht Hl.
  assert (forall o now, prepare_staging l o now m = (Err MLeaseLost, m)) as Hp.
  { intros o now. unfold prepare_staging. by eapply mbind_stop, atomic_stop, fenced_stale. }
  split_and!; [| | done | |].
  - intros seconds now. unfold renew. destruct (_validate _ seconds) as [u|e]; [|by exists e]. rewrite (mbind_run _ _ _ u m) by done. exists MLeaseLost.
    apply atomic_stop. rewrite (mbind_run _ _ _ t m) by (unfold _locked; by rewrite Ht). apply mbind_stop. by rewrite stale_check.
  - intros now. by apply (fenced_stale _ _ _ _ _ t).
  - intros o s keys keep now received new_id. unfold publish_output. by eapply atomic_stop, fenced_stale.
  - intros o s others keep prepared now received new_id. unfold commit_processing_output. destruct (validate_commit o) as [[]|e]; [|by eexists].
    rewrite (mbind_run _ _ _ tt m) by done. destruct (require _ _) as [[]|e]; [|by eexists]. rewrite (mbind_run _ _ _ tt m) by done.
    eexists. apply mbind_stop, Hp.
Qed.

(** (C9) Leases are fenced: of two leases of a task, the later one has the larger epoch and there are at most three of them, and
    from the moment the later one is given out the earlier one can neither be renewed, nor stage, publish, or report a failure;
    whatever happens in between, these attempts raise and change nothing. *)
Theorem stale_lease_is_fenced y0 y1 y2 y3 id owner1 owner2 seconds1 seconds2 l1 l2 m1 m2 :
  initial y0 -> steps y0 y1 ->
  claim id owner1 seconds1 (sy_clock y1) (sy_state y1) = (Ok (Some l1), m1) -> steps (System m1 (sy_clock y1) (sy_flights y1) (sy_collecting y1)) y2 ->
  claim id owner2 seconds2 (sy_clock y2) (sy_state y2) = (Ok (Some l2), m2) -> steps (System m2 (sy_clock y2) (sy_flights y2) (sy_collecting y2)) y3 ->
  1 <= ml_epoch l1 < ml_epoch l2 /\ ml_epoch l2 <= MAX_ATTEMPTS /\ fenced_off (sy_state y3) l1.
Proof.
  intros Hi H1 Hc1 H2 Hc2 H3. pose proof (reachable_inv _ _ Hi H1) as I1.
  assert (steps y1 (System m1 (sy_clock y1) (sy_flights y1) (sy_collecting y1))) as S1 by (destruct y1; apply rtc_once; by eapply step_claim).
  assert (steps y2 (System m2 (sy_clock y2) (sy_flights y2) (sy_collecting y2))) as S2 by (destruct y2; apply rtc_once; by eapply step_claim).
  assert (steps y0 y2) as H02 by (etrans; [exact H1|]; etrans; [exact S1|exact H2]). pose proof (reachable_inv _ _ Hi H02) as I2.
  apply claim_cases in Hc1 as [[_ ?]|(t1 & Ht1 & [[? _]|(Hm1 & [= ->] & ->)])]; [naive_solver|done|].
  apply claim_cases in Hc2 as [[_ ?]|(t2 & Ht2 & [[? _]|(Hm2 & [= ->] & ->)])]; [naive_solver|done|].
  destruct (steps_epoch _ _ id (claimed owner1 seconds1 (sy_clock y1) t1) H2) as (t2' & Ht2' & Hle); [cbn; by rewrite lookup_insert_eq|]. rewrite Ht2 in Ht2'. injection Ht2' as <-.
  destruct (steps_epoch _ _ id (claimed owner2 seconds2 (sy_clock y2) t2) H3) as (t3 & Ht3 & Hle3); [cbn; by rewrite lookup_insert_eq|].
  destruct (inv_tasks _ _ _ _ I1 _ _ Ht1) as [Ha1 He1]. destruct (inv_tasks _ _ _ _ I2 _ _ Ht2) as [Ha2 He2]. cbn in *.
  split; [lia|]. split; [lia|]. apply (stale_fenced_off _ _ t3); [done|cbn; lia].
Qed.

(** What the collector deletes it has verified before: the owner was deleted, or had newer content. *)
Lemma collecting_verified y0 y r : steps y0 y -> sy_collecting y0 = [] -> r ∈ sy_collecting y ->
  exists y1, steps y0 y1 /\ steps y1 y /\ _verify_deleted_owner (ms_store (sy_state y1)) r = Ok tt.
Proof.
  intros Hs H0. revert y Hs. apply (rtc_ind_r (fun y => r ∈ sy_collecting y -> exists y1, steps y0 y1 /\ steps y1 y /\ _verify_deleted_owner (ms_store (sy_state y1)) r = Ok tt) y0).
  { rewrite H0. by intros ?%elem_of_nil. }
  intros y1 y2 Hs H IH.
  assert (r ∈ sy_collecting y1 -> exists y, steps y0 y /\ steps y y2 /\ _verify_deleted_owner (ms_store (sy_state y)) r = Ok tt) as Hold.
  { intros Hr. destruct (IH Hr) as (y & ? & ? & ?). exists y. split_and!; [done|by eapply rtc_r|done]. }
  destruct H as [| | | | | | | | | | |m now flights coll r0 Hv| |]; try exact Hold. cbn [sy_collecting] in *.
  intros [->|Hr]%elem_of_cons; [|by apply Hold]. exists (System m now flights coll). split_and!; [done|apply rtc_once; by apply step_verify|done].
Qed.

End system.
