(* ===== verification/MaterialRecovery.v ===== *)
(** * Processing of documents: publishing after a crash

    Whatever earlier attempts have left under the staged keys of a task, a worker that holds a live lease and has the bytes
    it announced publishes its result. *)

From stdpp Require Import base tactics list gmap numbers sorting relations.
From S2P Require Import Prelude PyStr Table Utf8 Sha256 Platform Schema PyValue Json Contract Plugins Assets Sources ResourceGc Artifacts ArtifactsProps RuntimeReplies MaterialManifest MaterialManifestProps Materials MaterialsProps MaterialSystem.

(** ** Recovery *)

Definition shrinks (m m' : mstate) : Prop := exists fs staged, m' = with_objects fs staged m /\ forall k, fs !! k = m_files m !! k \/ fs !! k = None.
#[export] Instance shrinks_refl : Reflexive shrinks.
Proof. intros m. exists (m_files m), (ms_staged m). rewrite with_objects_self. split; [done|by left]. Qed.
#[export] Instance shrinks_trans : Transitive shrinks.
Proof.
  intros m m1 m2 (fs & sg & -> & Hf) (fs' & sg' & -> & Hf'). exists fs', sg'. split; [done|]. intros k. destruct (Hf' k) as [->|?]; [apply Hf|by right].
Qed.
Lemma drop_object_shrinks key : respects shrinks (drop_object key).
Proof.
  intros m. unfold drop_object, mput, delete_stored_object. cbn [snd]. destruct (is_empty key) eqn:E.
  - exists (m_files m), (ms_staged m). split; [by destruct m as [[] ? ? ? ? ? ?]|by left].
  - exists (delete key (m_files m)), (ms_staged m). split; [by destruct m as [[] ? ? ? ? ? ?]|].
    intros k. destruct (decide (k = key)) as [->|]; [right; apply lookup_delete_eq|left; by apply lookup_delete_ne].
Qed.
Lemma drop_stage_shrinks key : respects shrinks (drop_stage key).
Proof. intros m. exists (m_files m), (delete key (ms_staged m)). split; [by destruct m as [[] ? ? ? ? ? ?]|by left]. Qed.
Lemma recover_stage_shrinks rid discard s : respects shrinks (recover_stage rid discard s).
Proof.
  destruct s as [key row]. unfold recover_stage. apply respects_bind; [exact _|intros m; reflexivity|intros []]. apply respects_bind; [exact _|intros m; reflexivity|intros m].
  destruct (_ || _); [apply drop_stage_shrinks|]. apply respects_bind; [exact _| |intros []].
  - repeat case_match; first [apply drop_object_shrinks|intros m'; reflexivity].
  - destruct discard; [apply drop_stage_shrinks|intros m'; reflexivity].
Qed.

(** what is left under a staged key is nothing, or what was staged *)
Definition absent_or_valid (m : mstate) (p : part) : Prop := m_files m !! pt_key p = None \/ stored_part (ms_store m) p.
Lemma shrinks_valid m m' p : shrinks m m' -> absent_or_valid m p -> absent_or_valid m' p.
Proof.
  intros (fs & sg & -> & Hf) Hv. destruct (Hf (pt_key p)) as [E|E]; [|by left]. destruct Hv as [Hn|Hs]; [left; cbn; congruence|].
  right. eapply stored_part_files; [exact E|exact Hs].
Qed.
Lemma shrinks_in_use m m' k : shrinks m m' -> in_use m' k <-> in_use m k.
Proof. by intros (fs & sg & -> & _). Qed.
Lemma recover_stage_valid rid p row m : pt_key p <> "" -> row = Staged rid (pt_size p) (pt_sha256 p) -> ~ in_use m (pt_key p) ->
  pt_key p ∈ staging_names rid (pt_sha256 p) -> absent_or_valid (recover_stage rid false (pt_key p, row) m).2 p.
Proof.
  intros Hne%is_empty_false -> Hu Hk. unfold recover_stage. cbn [sd_sha256 sd_size]. rewrite bool_decide_eq_true_2 by done.
  rewrite (mbind_run _ _ _ tt m), (mbind_run _ _ _ m m) by done. destruct (_ || _) eqn:E; [apply orb_true_iff in E; by destruct Hu|].
  unfold storage_exists. case_bool_decide as Hex.
  - destruct (_validate_stored _ _ _ _) eqn:Hv; cbn [is_ok].
    + right. by apply validate_stored_Ok in Hv.
    + left. unfold drop_object, mput, delete_stored_object. cbn. rewrite Hne. cbn. apply lookup_delete_eq.
  - left. by apply eq_None_not_Some.
Qed.
Lemma recover_leaves_valid rid m p : (forall k row, ms_staged m !! k = Some row -> stage_ok m k row) -> staged_as m rid p -> ~ in_use m (pt_key p) ->
  exists m1, recover_staging rid false m = (Ok tt, m1) /\ shrinks m m1 /\ absent_or_valid m1 p.
Proof.
  intros Hs Hp Hu. destruct (recover_staging_Ok rid false m Hs) as [m1 H1]. exists m1. split; [done|]. unfold recover_staging in H1. rewrite (mbind_run _ _ _ m m) in H1 by done.
  assert (forall l m m1, mfor (recover_stage rid false) l m = (Ok tt, m1) -> shrinks m m1 /\
    ((pt_key p, Staged rid (pt_size p) (pt_sha256 p)) ∈ l -> ~ in_use m (pt_key p) -> pt_key p ∈ staging_names rid (pt_sha256 p) -> absent_or_valid m1 p)) as Hl.
  { clear. intros l. induction l as [|s l IH]; intros m m1 H; cbn [mfor] in H; [apply mret_Ok in H as [_ ->]; split; [reflexivity|by intros ?%elem_of_nil]|].
    apply mbind_Ok in H as ([] & m2 & H1 & H). pose proof (recover_stage_shrinks rid false s m) as Hs. rewrite H1 in Hs. cbn in Hs. apply IH in H as [Hs' Hv].
    split; [by etrans|]. intros [<-|Hin]%elem_of_cons Hu Hk; [|apply Hv; [done|by rewrite (shrinks_in_use m)|done]].
    eapply shrinks_valid; [exact Hs'|]. pose proof (recover_stage_valid rid p (Staged rid (pt_size p) (pt_sha256 p)) m) as Hr. rewrite H1 in Hr. cbn in Hr.
    apply Hr; try done. by eapply staging_names_nonempty. }
  destruct (Hl _ _ _ H1) as [Hsh Hv]. split; [done|]. destruct (Hs _ _ Hp) as [_ Hk]. apply Hv; [|done|done]. apply elem_of_qs_list. split; [done|]. by apply bool_decide_eq_true.
Qed.

(** ** Storing *)

Section recovery.
Context {PL : Platform} (available_name : files_t -> pystr -> pystr).
(** [default_storage.save] keeps a name that is free *)
Hypothesis own_name : forall fs key, fs !! key = None -> available_name fs key = key.

Definition content_of (p : part) (c : bytes) : Prop := pt_key p <> "" /\ integrity c (pt_size p) (pt_sha256 p) = true.
(** what is stored in the end is what was sent, or was there before *)
Definition comes_from (m m' : mstate) (p : part) (c : bytes) : Prop :=
  exists c' at_, m_files m' !! pt_key p = Some (c', at_) /\ (c' = c \/ m_files m !! pt_key p = Some (c', at_)).
Lemma store_stream_run s p c tail keep now m : content_of p c -> absent_or_valid m p -> pieces s -> concat s = c ++ tail ->
  exists new s' m', store_stream available_name s p keep now m = (Ok (new, s'), m') /\ concat s' = tail /\ pieces s' /\ comes_from m m' p c.
Proof.
  intros [Hne Hint] Hv Hp Hc. unfold integrity in Hint. bool_inv.
  destruct (read_all_enough s (pt_size p)) as (s' & Hread & Hs' & Hp'); [rewrite Hc, zlen_app; pose proof (zlen_nonneg c); pose proof (zlen_nonneg tail); lia|done|].
  assert (Z.to_nat (pt_size p) = length c) as Hlen by (unfold zlen in *; lia). rewrite Hc, Hlen, take_app_length in Hread. rewrite Hc, Hlen, drop_app_length in Hs'.
  assert (kcomplete (HashingReader s' 0 c) (pt_sha256 p) = Ok tt) as Hk by (unfold kcomplete; cbn; by rewrite bool_decide_eq_true_2).
  unfold store_stream. cbv zeta. unfold storage_exists. case_bool_decide as Hex.
  - destruct Hv as [Hn|Hst]; [rewrite Hn in Hex; by destruct Hex|]. apply (validate_stored_Ok _ _ tt) in Hst.
    exists false, s', m. split; [|split; [done|split; [done|destruct Hex as [[c' a] Hf]; exists c', a; auto]]]. unfold mlift, mres, _discard_exact. rewrite Hst, Hread. cbn. by rewrite Hk.
  - apply eq_None_not_Some in Hex. rewrite own_name, Hread, bool_decide_eq_true_2 by done. cbn [negb]. rewrite Hk.
    set (m' := set_ms_store _ m). assert (stored_part (ms_store m') p) as Hst.
    { exists c, now. split; [cbn; by rewrite lookup_insert_eq|]. unfold integrity. rewrite bool_decide_eq_true_2, (proj2 (Z.eqb_eq _ _)) by done. done. }
    apply (validate_stored_Ok _ _ tt) in Hst. cbn [mbind res_bind]. rewrite Hst. exists true, s', m'. split; [done|]. split; [done|]. split; [done|]. exists c, now. split; [cbn; by rewrite lookup_insert_eq|by left].
Qed.
Lemma written_valid keys m m' p : written keys m m' -> pt_key p ∉ keys -> absent_or_valid m p -> absent_or_valid m' p.
Proof.
  intros (fs & -> & Hf) Hk Hv. destruct (Hf (pt_key p)) as [E|[? _]]; [|done]. destruct Hv as [?|?]; [left; cbn; congruence|].
  right. by eapply stored_part_files.
Qed.
Lemma store_parts_run parts contents s created tail keep now m :
  Forall2 content_of parts contents -> NoDup (map pt_key parts) -> Forall (absent_or_valid m) parts -> Forall (fun p => 0 <= pt_size p) parts ->
  pieces s -> concat s = concat contents ++ tail ->
  exists s' created' m', store_parts available_name parts s created keep now m = (Ok s', created', m') /\ concat s' = tail /\ pieces s'
    /\ Forall2 (comes_from m m') parts contents.
Proof.
  intros Hc. revert s created m. induction Hc as [|p c parts contents Hpc Hc IH]; intros s created m Hnd Hv Hz Hp Hs; cbn [store_parts]; [by exists s, created, m|].
  cbn [map] in Hnd. apply NoDup_cons in Hnd as [Hni Hnd]. apply Forall_cons in Hv as [Hv Hvs]. apply Forall_cons in Hz as [Hz Hzs]. cbn [concat] in Hs. rewrite <- app_assoc in Hs.
  destruct (store_stream_run s p c (concat contents ++ tail) keep now m Hpc Hv Hp Hs) as (new & s1 & m1 & Hst & Hs1 & Hp1 & Hfrom).
  pose proof (store_stream_rel available_name own_name s p keep now m (proj1 Hpc) Hz) as Hrel. rewrite Hst in Hrel |- *. destruct Hrel as [Hw _].
  assert (forall q, q ∈ parts -> pt_key q <> pt_key p) as Hother by (intros q Hq E; apply Hni; rewrite <- E; by apply list_elem_of_fmap_2).
  destruct (IH s1 (if new then created ++ [pt_key p] else created) m1) as (s2 & cr & m2 & H2 & Hs2 & Hp2 & Hall); try done.
  { apply Forall_forall. intros q Hq. rewrite Forall_forall in Hvs. eapply written_valid; [exact Hw| |by apply Hvs]. intros E%list_elem_of_singleton. by apply (Hother q). }
  exists s2, cr, m2. split; [done|]. split; [done|]. split; [done|]. constructor.
  - destruct Hfrom as (c' & a & Hf & Ho). exists c', a. split; [|done]. rewrite <- Hf.
    pose proof (store_parts_rel available_name own_name parts s1 (if new then created ++ [pt_key p] else created) keep now m1) as Hrel. rewrite H2 in Hrel.
    destruct Hrel as [Hw2 _]; [|eapply written_keeps; [exact Hw2|eauto]]. apply Forall_forall. intros q Hq. split; [|rewrite Forall_forall in Hzs; by apply Hzs].
    apply list_elem_of_lookup in Hq as [i Hi]. destruct (Forall2_lookup_l _ _ _ _ _ Hc Hi) as (x & _ & [? _]). done.
  - apply Forall2_same_length_lookup in Hall as [Hlen Hall]. apply Forall2_same_length_lookup. split; [done|]. intros i q x Hq Hx.
    destruct (Hall i q x Hq Hx) as (c' & a & Hf & Ho). exists c', a. split; [done|]. destruct Ho as [?|Ho]; [by left|right]. destruct Hw as (fs & -> & Hf1). cbn in Ho.
    destruct (Hf1 (pt_key q)) as [<-|[E%list_elem_of_singleton _]]; [done|]. apply list_elem_of_lookup_2 in Hq. by apply Hother in Hq.
Qed.

(** ** Rows *)

Lemma register_run o key id st : resources_unique (resources st) = true -> o_deleted o = false -> resources st !! id = None ->
  exists t, register_derived_resource o "storageObject" key id st = Ok (set_resources (fun _ => t) st) /\ resources_unique t = true
    /\ forall id', id' <> id -> t !! id' = resources st !! id'.
Proof.
  intros Hu Hd Hid. unfold register_derived_resource. destruct (stored_object_identity o) as [kind oid]. cbv zeta. rewrite Hd.
  set (wanted := Resource _ _ _ _ _ _ _ _ _ _ _ _ _). destruct (qs_first _ _) as [[rid r]|] eqn:E.
  { rewrite andb_false_r. exists (resources st). by destruct st. }
  rewrite Hid. unfold save_resource. assert (bool_decide (dr_resource_kind wanted = "storageObject") = true) as -> by (by apply bool_decide_eq_true_2).
  exists (<[id := wanted]> (resources st)). assert (resources_unique (<[id := wanted]> (resources st)) = true) as Hun.
  { unfold resources_unique in *. apply bool_decide_eq_true. apply bool_decide_eq_true in Hu. rewrite qs_first_None in E.
    assert (forall k r, resources st !! k = Some r -> resource_identity r <> resource_identity wanted) as Hfree by (intros k r Hk; apply E in Hk; by apply bool_decide_eq_false in Hk).
    intros k r [[<- <-]|[Hk Hr]]%lookup_insert_Some k' r' [[<- <-]|[Hk' Hr']]%lookup_insert_Some; [by left|right; intros H; by eapply Hfree|right; by eapply Hfree|by eapply (Hu k r)]. }
  split; [|split; [done|intros id' Hne; by rewrite lookup_insert_ne]]. cbn. by rewrite Hun.
Qed.
Lemma register_parts_run o parts new_id m : resources_unique (resources (ms_store m)) = true -> o_deleted o = false ->
  (forall i, resources (ms_store m) !! new_id i = None) -> (forall i j, new_id i = new_id j -> i = j) ->
  exists t, register_parts o parts new_id m = (Ok tt, set_ms_store (set_resources (fun _ => t)) m).
Proof.
  intros Hu Hd Hfree Hinj. unfold register_parts.
  assert (forall l m, NoDup (map fst l) -> resources_unique (resources (ms_store m)) = true -> (forall ip, ip ∈ l -> resources (ms_store m) !! new_id ip.1 = None) ->
    exists t, mfor (fun ip : nat * part => mstore (register_derived_resource o "storageObject" (pt_key ip.2) (new_id ip.1))) l m = (Ok tt, set_ms_store (set_resources (fun _ => t)) m)) as Hl.
  { clear m Hu Hfree. intros l. induction l as [|ip l IH]; intros m Hnd Hu Hfree; [exists (resources (ms_store m)); by destruct m as [[] ? ? ? ? ? ?]|]. cbn [mfor].
    cbn [map] in Hnd. apply NoDup_cons in Hnd as [Hni Hnd]. destruct (register_run o (pt_key ip.2) (new_id ip.1) (ms_store m) Hu Hd) as (t & Hr & Hu' & Hother); [apply Hfree; by left|].
    rewrite (mbind_run _ _ _ tt (set_ms_store (set_resources (fun _ => t)) m)) by (unfold mstore; rewrite Hr; by destruct m).
    destruct (IH (set_ms_store (set_resources (fun _ => t)) m)) as [t' H']; [done|done| |exists t'; rewrite H'; by destruct m].
    intros iq Hin. cbn. rewrite Hother; [apply Hfree; by right|]. intros E%Hinj. apply Hni. rewrite <- E. by apply list_elem_of_fmap_2. }
  apply Hl; [|done|done]. assert (map fst (imap pair parts) = seq 0 (length parts)) as ->; [|apply NoDup_seq].
  clear.
  assert (forall n, map fst (imap (fun i => pair (n + i)%nat) parts) = seq n (length parts)) as H; [|exact (H 0%nat)].
  induction parts as [|p parts IH]; intros n; [done|]. cbn. f_equal; [lia|]. rewrite <- (IH (S n)). f_equal. apply imap_ext. intros i x _. cbn. f_equal. lia.
Qed.

(** ** What a finished container announces *)

Definition contents (canonical preview workbook : bytes) : list bytes :=
  [canonical] ++ (if zlen preview =? 0 then [] else [preview]) ++ (if zlen workbook =? 0 then [] else [workbook]).
Lemma contents_concat canonical preview workbook : concat (contents canonical preview workbook) = canonical ++ preview ++ workbook.
Proof.
  assert (forall b : bytes, concat (if zlen b =? 0 then [] else [b]) = b) as H by (intros [|x b]; [done|rewrite zlen_cons, (proj2 (Z.eqb_neq _ _)); [apply app_nil_r|pose proof (zlen_nonneg b); lia]]).
  unfold contents. cbn. by rewrite concat_app, !H.
Qed.
Lemma integrity_self (b : bytes) : integrity b (zlen b) (sha256_tag b) = true.
Proof. unfold integrity. by rewrite Z.eqb_refl, bool_decide_eq_true_2. Qed.
Lemma finished_contents rid canonical preview workbook manifest :
  Forall2 content_of (staging_entries rid (finished_output rid canonical preview workbook manifest)) (contents canonical preview workbook).
Proof.
  assert (forall b name, (zlen b =? 0) = false ->
    content_of (Part (staging_key rid (text_of (match b with [] => VNone | _ => VStr (sha256_tag b) end)) name) (int_of (VInt (zlen b))) (text_of (match b with [] => VNone | _ => VStr (sha256_tag b) end))) b) as H.
  { intros [|x b] name Hn; [done|]. split; [apply staging_key_nonempty|apply integrity_self]. }
  unfold staging_entries, contents. apply Forall2_app; [constructor; [split; [apply staging_key_nonempty|apply integrity_self]|constructor]|].
  cbn [finished_output po_preview_size po_workbook_size int_of as_int default from_option].
  apply Forall2_app; unfold id; destruct (_ =? 0) eqn:E; repeat constructor; apply H; exact E.
Qed.
Lemma staging_entries_nodup rid o : NoDup (map pt_key (staging_entries rid o)).
Proof.
  apply (NoDup_fmap_1 base_name). change (fmap base_name (map pt_key (staging_entries rid o))) with (map base_name (map pt_key (staging_entries rid o))).
  unfold staging_entries. destruct (_ =? 0), (int_of (po_workbook_size o) =? 0); cbn [app map pt_key canonical_part preview_part workbook_part]; rewrite !staging_key_name;
    apply (bool_decide_unpack _); vm_compute; exact I.
Qed.

(** ** Publishing *)

Lemma resolve_ready m id t lock source : resolve_task_source m id t lock = Ok source -> o_deleted (ps_owner source) = false.
Proof.
  assert (forall o, owner_ready o = true -> o_deleted o = false) as Hready.
  { intros [id' r|id' r|id' r]; unfold owner_ready, o_deleted; intros H; bool_inv; apply bool_decide_eq_false_2; congruence. }
  unfold resolve_task_source. intros H. walk H. res_inv. by apply Hready.
Qed.
Lemma create_segments_run rid segments m : NoDup (map sg_id segments) -> Forall (fun s => storable_text (sg_text s) = true /\ ms_segments m !! sg_id s = None) segments ->
  exists t, mfor (create_segment rid) segments m = (Ok tt, set_ms_segments (fun _ => t) m).
Proof.
  revert m. induction segments as [|s segments IH]; intros m Hnd Hf; [exists (ms_segments m); by destruct m|]. cbn [mfor map] in *.
  apply NoDup_cons in Hnd as [Hni Hnd]. apply Forall_cons in Hf as [[Hs Hn] Hf].
  assert (create_segment rid s m = (Ok tt, set_ms_segments <[sg_id s := (rid, s)]> m)) as H1.
  { unfold create_segment. rewrite (mbind_run _ _ _ m m) by done. rewrite (mbind_run _ _ _ tt m) by (by rewrite Hs). rewrite (mbind_run _ _ _ tt m) by (by rewrite bool_decide_eq_true_2). done. }
  rewrite (mbind_run _ _ _ tt _ H1). destruct (IH (set_ms_segments <[sg_id s := (rid, s)]> m) Hnd) as [t Ht]; [|exists t; rewrite Ht; by destruct m].
  apply Forall_forall. intros x Hx. rewrite Forall_forall in Hf. destruct (Hf x Hx) as [? ?]. split; [done|]. cbn. rewrite lookup_insert_ne; [done|].
  intros E. apply Hni. rewrite E. by apply list_elem_of_fmap_2.
Qed.
Lemma check_replay t now l : _check t now l false = Ok tt -> _check t now l true = Ok tt.
Proof. unfold _check. intros (u & -> & Hc)%bind_Ok. cbn. case_bool_decide; [done|exact Hc]. Qed.
Lemma complete_task_run l keys received m t : ms_tasks m !! ml_representation l = Some t -> _check t received l false = Ok tt -> exists m', complete_task l keys received m = (Ok tt, m').
Proof.
  intros Ht Hc. unfold complete_task. eexists. apply fenced_Ok. exists t. split; [done|]. apply check_iff in Hc as Hr. destruct Hr as (H1 & H2 & H3 & H4 & H5). split; [by apply check_replay|].
  rewrite bool_decide_eq_false_2 by congruence. reflexivity.
Qed.

Section publishing.
Context (l : lease) (t : task_row) (source : processing_source) (canonical preview workbook : bytes) (manifest : value) (new_id : nat -> pystr).
Let rid := ml_representation l.
Let o := finished_output rid canonical preview workbook manifest.
Let b := BoundInput (ps_owner source) (ps_identity source) rid.
Let digest := text_of (get "specDigest" (tk_payload t)).
Let wanted := new_representation b digest o (storage_keys rid o).

(** The source is there, the output is valid, nothing was published for it, and no row or object stands in its way. *)
Record publishable (m : mstate) : Prop := Publishable {
  pu_source : resolve_task_source m rid t true = Ok source;
  pu_new : ms_reps m !! rid = None;
  pu_input : qs_exists (same_input wanted) (ms_reps m) = false;
  pu_spec : forall payload, ms_specs m !! digest = Some payload -> same_value payload (tk_spec t) = true;
  pu_unused : forall p, p ∈ staging_entries rid o -> ~ in_use m (pt_key p);
  pu_leftovers : Forall2 (fun p c => forall c' at_, m_files m !! pt_key p = Some (c', at_) -> integrity c' (pt_size p) (pt_sha256 p) = true -> c' = c)
    (staging_entries rid o) (contents canonical preview workbook);
  pu_manifest : _validate_manifest manifest canonical = Ok tt;
  pu_workbook : workbook <> [] -> _validate_workbook_preview workbook = Ok tt;
  pu_segments : exists segments, _segments rid manifest = Ok segments /\ NoDup (map sg_id segments)
    /\ Forall (fun s => storable_text (sg_text s) = true /\ ms_segments m !! sg_id s = None) segments;
  pu_resources : resources_unique (resources (ms_store m)) = true /\ (forall i, resources (ms_store m) !! new_id i = None) /\ forall i j, new_id i = new_id j -> i = j }.

(** the tables a commit reads are those of [m]; the objects are the ones that were sent *)
Lemma commit_rows_run m fs staged received : publishable m -> validate_commit o = Ok tt -> ms_tasks m !! rid = Some t -> _check t received l false = Ok tt ->
  let m2 := with_objects fs staged m in
  Forall2 (fun p c => exists at_, fs !! pt_key p = Some (c, at_)) (staging_entries rid o) (contents canonical preview workbook) ->
  exists v m', commit_rows b (tk_spec t) digest o None (storage_keys rid o) (Some (complete_task l (storage_keys rid o) received)) new_id m2 = (Ok v, m').
Proof.
  intros [Hsrc Hnew Hinput Hspec Hunused _ Hman Hwb (segments & Hseg & Hnd & Hfree) (Hu & Hids & Hinj)] Hv Ht Hc m2 Hfiles.
  unfold commit_rows. cbv zeta. fold wanted. cbn [default]. change (bd_representation b) with rid. rewrite (mbind_run _ _ _ m2 m2) by done.
  pose proof (finished_contents rid canonical preview workbook manifest) as Hcont. fold o in Hcont.
  assert (forall p c, content_of p c -> (exists at_, fs !! pt_key p = Some (c, at_)) -> read_stored (ms_store m2) (pt_key p) (pt_size p) (pt_sha256 p) = Ok c) as Hread.
  { intros p c [_ Hi] (a & Hf). destruct (read_stored_part (ms_store m2) p) as (c' & a' & Hf' & _ & Hr); [by exists c, a|]. change (m_files m2) with fs in Hf'. rewrite Hf in Hf'. by injection Hf' as <- <-. }
  assert (read_stored (ms_store m2) (pt_key (rp_text wanted)) (pt_size (rp_text wanted)) (pt_sha256 (rp_text wanted)) = Ok canonical) as Hr1.
  { unfold wanted, new_representation. rewrite storage_keys_eq. unfold staging_entries, contents in Hfiles, Hcont.
    apply Forall2_cons in Hfiles as [Hf _]. apply Forall2_cons in Hcont as [Hi _]. by apply (Hread (canonical_part rid o)). }
  rewrite (mbind_run _ _ _ canonical m2) by (by rewrite Hr1).
  match goal with |- context [if ?x then mret tt else ?y] => assert ((if x then mret tt else y) m2 = (Ok tt, m2)) as Hw end.
  { destruct (is_empty _) eqn:E; [done|]. unfold wanted, new_representation in E |- *. rewrite storage_keys_eq in E |- *. cbn [rp_workbook pt_key pt_size pt_sha256 snd] in E |- *.
    change (int_of (po_workbook_size o)) with (zlen workbook) in E |- *. unfold staging_entries, contents in Hfiles, Hcont.
    change (int_of (po_workbook_size o)) with (zlen workbook) in Hfiles, Hcont. change (int_of (po_preview_size o)) with (zlen preview) in Hfiles, Hcont.
    destruct (Z.eqb_spec (zlen workbook) 0) as [Hz|Hz]; [done|]. rewrite !app_assoc in Hfiles, Hcont. apply Forall2_app_inv in Hfiles as [_ Hf]; [|by destruct (zlen preview =? 0)].
    apply Forall2_app_inv in Hcont as [_ Hi]; [|by destruct (zlen preview =? 0)]. apply Forall2_cons in Hf as [Hf _]. apply Forall2_cons in Hi as [Hi _].
    pose proof (Hread _ _ Hi Hf) as Hr. rewrite (mbind_run _ _ _ workbook m2) by (apply mm_lift_Ok; split; [exact Hr|done]). rewrite Hwb by (intros ->; done). done. }
  rewrite (mbind_run _ _ _ tt m2 Hw). rewrite (mbind_run _ _ _ tt m2) by (change (po_manifest o) with manifest; by rewrite Hman).
  rewrite (mbind_run _ _ _ segments m2) by (change (po_manifest o) with manifest; by rewrite Hseg).
  set (complete := complete_task l (storage_keys rid o) received).
  assert (exists sp, get_specification digest (tk_spec t) m2 = (Ok tt, set_ms_specs (fun _ => sp) m2)) as [sp H1].
  { unfold get_specification. rewrite (mbind_run _ _ _ m2 m2) by done. change (ms_specs m2) with (ms_specs m). destruct (ms_specs m !! digest) as [payload|] eqn:E; [|by eexists].
    exists (ms_specs m). by rewrite (Hspec payload eq_refl). }
  set (m3 := set_ms_specs (fun _ => sp) m2) in *.
  assert (create_representation rid wanted m3 = (Ok tt, set_ms_reps <[rid := wanted]> m3)) as H2.
  { unfold create_representation. rewrite (mbind_run _ _ _ m3 m3) by done. change (ms_reps m3) with (ms_reps m). rewrite Hinput, bool_decide_eq_true_2 by done. done. }
  set (m4 := set_ms_reps <[rid := wanted]> m3) in *. destruct (create_segments_run rid segments m4 Hnd Hfree) as [sg H3]. set (m5 := set_ms_segments (fun _ => sg) m4) in *.
  destruct (register_parts_run (bd_owner b) (commit_parts wanted) new_id m5 Hu (resolve_ready _ _ _ _ _ Hsrc) Hids Hinj) as [rs H4]. set (m6 := set_ms_store (set_resources (fun _ => rs)) m5) in *.
  destruct (complete_task_run l (storage_keys rid o) received m6 t Ht Hc) as [m7 H5]. fold complete in H5.
  exists (_commit_response rid wanted), m7. rewrite (mbind_run _ _ _ tt m7); [done|]. apply atomic_Ok.
  rewrite (mbind_run _ _ _ tt m3 H1), (mbind_run _ _ _ tt m4 H2), (mbind_run _ _ _ tt m5 H3), (mbind_run _ _ _ tt m6 H4). exact H5.
Qed.

(** the transaction, from its parts *)
Lemma publish_run m s keep now received m1 created m2 v m' : publishable m -> validate_commit o = Ok tt -> ms_tasks m !! rid = Some t -> _check t now l false = Ok tt ->
  recover_staging rid false m = (Ok tt, m1) -> ms_reps m1 = ms_reps m ->
  store_parts available_name (staging_entries rid o) s [] keep now m1 = (Ok [], created, m2) ->
  commit_rows b (tk_spec t) digest o None (storage_keys rid o) (Some (complete_task l (storage_keys rid o) received)) new_id m2 = (Ok v, m') ->
  publish_output available_name l o s (storage_keys rid o) keep now received new_id m = (Ok v, m').
Proof.
  intros Hpub Hv Ht Hc H1 HR H2 H3. unfold publish_output. apply atomic_Ok, fenced_Ok. exists t. split; [done|]. split; [by apply check_replay|]. fold rid.
  rewrite (mbind_run _ _ _ m m) by done. rewrite (mbind_run _ _ _ source m) by (by rewrite (pu_source _ Hpub)).
  apply check_iff in Hc as (_ & _ & _ & Hrun & _). rewrite (bool_decide_eq_false_2 (tk_status t = TCompleted)) by congruence.
  rewrite (mbind_run _ _ _ tt m) by done. rewrite (mbind_run _ _ _ tt m1 H1). fold b digest. unfold commit_bound_material.
  rewrite (mbind_run _ _ _ tt m1) by (by rewrite Hv). rewrite (mbind_run _ _ _ tt m1) by (by rewrite bool_decide_eq_true_2).
  unfold store_and_commit. cbn [commit_keys default from_option]. unfold id. change (bd_representation b) with rid. rewrite commit_parts_staged, H2, HR, (pu_new _ Hpub) by done.
  rewrite (mbind_run _ _ _ [] m2) by done. rewrite (mbind_run _ _ _ tt m2) by done. by rewrite H3.
Qed.

(** recovery, then the bytes: every object is the one that was sent *)
Lemma bytes_run m s keep now : publishable m -> validate_commit o = Ok tt -> (forall k row, ms_staged m !! k = Some row -> stage_ok m k row) ->
  (forall p, p ∈ staging_entries rid o -> staged_as m rid p) -> pieces s -> concat s = canonical ++ preview ++ workbook ->
  exists m1 created fs staged, recover_staging rid false m = (Ok tt, m1) /\ ms_reps m1 = ms_reps m
    /\ store_parts available_name (staging_entries rid o) s [] keep now m1 = (Ok [], created, with_objects fs staged m)
    /\ Forall2 (fun p c => exists at_, fs !! pt_key p = Some (c, at_)) (staging_entries rid o) (contents canonical preview workbook).
Proof.
  intros Hpub Hv Hst Hstaged Hp Hs. destruct (recover_staging_Ok rid false m Hst) as [m1 H1].
  assert (forall p, p ∈ staging_entries rid o -> shrinks m m1 /\ absent_or_valid m1 p) as Hav.
  { intros p Hin'. destruct (recover_leaves_valid rid m p Hst (Hstaged p Hin') (pu_unused _ Hpub p Hin')) as (m1' & E & ? & ?). rewrite H1 in E. by injection E as <-. }
  assert (shrinks m m1) as (fs1 & sg1 & -> & Hf1) by (apply (Hav (canonical_part rid o)); unfold staging_entries; by left).
  pose proof (finished_contents rid canonical preview workbook manifest) as Hcont. fold o in Hcont.
  destruct (store_parts_run (staging_entries rid o) (contents canonical preview workbook) s [] [] keep now (with_objects fs1 sg1 m)) as (s' & created & m2 & H2 & Hs' & Hp' & Hfrom); try done.
  { apply staging_entries_nodup. }
  { apply Forall_forall. intros p Hin'. by apply Hav. }
  { eapply Forall_impl; [by apply staging_entries_proper|]. by intros p [_ ?]. }
  { by rewrite Hs, contents_concat, app_nil_r. }
  pose proof (store_parts_rel available_name own_name (staging_entries rid o) s [] keep now (with_objects fs1 sg1 m) (staging_entries_proper rid o Hv)) as Hrel.
  rewrite H2 in Hrel. destruct Hrel as ((fs2 & -> & _) & _ & Hstored). specialize (Hstored eq_refl).
  assert (s' = []) as -> by (destruct s' as [|x s']; [done|]; apply Forall_cons in Hp' as [Hx _]; by destruct x).
  exists (with_objects fs1 sg1 m), created, fs2, sg1. split; [done|]. split; [done|]. split; [exact H2|].
  pose proof (pu_leftovers _ Hpub) as Hleft. apply Forall2_same_length_lookup in Hfrom as [Hlen Hfrom], Hleft as [_ Hleft]. apply Forall2_same_length_lookup. split; [done|].
  intros i p c Hpi Hci. destruct (Hfrom i p c Hpi Hci) as (c' & a & Hf & [->|Ho]); [by exists a|]. exists a. rewrite <- (Hleft i p c Hpi Hci c' a); [exact Hf| |].
  - cbn in Ho. destruct (Hf1 (pt_key p)) as [E|E]; rewrite E in Ho; done.
  - apply list_elem_of_lookup_2 in Hpi. rewrite Forall_forall in Hstored. destruct (Hstored p Hpi) as (x & y' & Hxy & Hint). cbn in Hf, Hxy. rewrite Hf in Hxy. by injection Hxy as <- <-.
Qed.

(** the state after a publication that succeeded *)
Definition published_state (m' : mstate) : Prop :=
  (exists t', ms_tasks m' !! rid = Some t' /\ tk_status t' = TCompleted)
  /\ (exists r, ms_reps m' !! rid = Some r /\ commit_parts r = staging_entries rid o /\ Forall (stored_part (ms_store m')) (commit_parts r))
  /\ forall p, p ∈ staging_entries rid o -> ms_staged m' !! pt_key p = None.
Lemma published_Ok m s keep now received v m' : validate_commit o = Ok tt -> (forall p, p ∈ staging_entries rid o -> staged_as m rid p) ->
  publish_output available_name l o s (storage_keys rid o) keep now received new_id m = (Ok v, m') -> published_state m'.
Proof.
  intros Hv Hstaged H. apply publish_Ok in H as (t1 & t' & m3 & m4 & r & _ & _ & Hrec & Hw & Hstored & Hfs & Hparts & HR & _ & _ & _ & HT & Hdone & _ & _ & HS); [|done|done].
  fold rid in HT, HR, HS, Hparts, Hrec, Hstored. split; [exists t'; by rewrite HT, lookup_insert_eq|]. split.
  - exists r. rewrite HR, lookup_insert_eq. split; [done|]. split; [done|]. rewrite Hparts. eapply Forall_impl; [exact Hstored|]. intros p Hp1. eapply stored_part_files; [|exact Hp1]. by rewrite Hfs.
  - intros p Hin'. rewrite HS. apply map_lookup_filter_None. right. intros row Hrow Hn. apply Hn. cbn [fst snd]. split.
    + destruct Hrec as (fs3 & sg3 & -> & _ & Hs3). cbn in Hrow. destruct (Hs3 (pt_key p)) as [E|(E & _)]; rewrite E in Hrow; [|done].
      pose proof (Hstaged p Hin') as E'. unfold staged_as in E'. rewrite E' in Hrow. by injection Hrow as <-.
    + apply (rep_keys_parts wanted); [by eapply material_nonempty, staging_entries_material|]. unfold wanted. rewrite commit_parts_staged by done. by apply list_elem_of_fmap_2.
Qed.

(** (C18) Whatever crashes and failed attempts have left behind, in every reachable state a worker whose lease stays live until
    the bytes are received publishes its output, when the output is valid, the source of the task is still there
    unchanged, and neither a representation nor a registered resource has taken the keys or the input: the task is
    completed, the representation is recorded with every part stored, and no object of this output is staged any more
    (what other attempts have staged is left to the clean-up). *)
Theorem live_worker_publishes y0 y s keep received : initial y0 -> rtc (step available_name) y0 y ->
  (l, o) ∈ sy_flights y -> ms_tasks (sy_state y) !! rid = Some t -> sy_clock y <= received -> _check t received l false = Ok tt ->
  publishable (sy_state y) -> pieces s -> concat s = canonical ++ preview ++ workbook ->
  exists v m', publish_output available_name l o s (storage_keys rid o) keep (sy_clock y) received new_id (sy_state y) = (Ok v, m') /\ published_state m'.
Proof.
  intros H0 Hsteps Hin Ht Hle Hc Hpub Hp Hs. pose proof (reachable_inv available_name own_name _ _ H0 Hsteps) as [_ Hst _ _ Hfl].
  rewrite Forall_forall in Hfl. destruct (Hfl _ Hin) as (Hv & t0 & Ht0 & _ & Hstaged). cbn [fst snd] in *. fold rid in Ht0, Hstaged. rewrite Ht in Ht0. injection Ht0 as <-.
  specialize (Hstaged (check_later _ _ _ _ Hle Hc)). rewrite Forall_forall in Hstaged.
  destruct (bytes_run (sy_state y) s keep (sy_clock y) Hpub Hv Hst Hstaged Hp Hs) as (m1 & created & fs & staged & H1 & HR & H2 & Hfiles).
  destruct (commit_rows_run (sy_state y) fs staged received Hpub Hv Ht Hc Hfiles) as (v & m' & H3).
  assert (publish_output available_name l o s (storage_keys rid o) keep (sy_clock y) received new_id (sy_state y) = (Ok v, m')) as Hpublish.
  { eapply publish_run; [done|done|done|by eapply check_later|exact H1|done|exact H2|exact H3]. }
  exists v, m'. split; [done|]. by eapply published_Ok.
Qed.
End publishing.
End recovery.

(** ** A history, evaluated *)

Definition keep_name : files_t -> pystr -> pystr := fun _ key => key.
Lemma keep_name_own : forall fs key, fs !! key = None -> keep_name fs key = key.
Proof. done. Qed.
Definition a_digest : pystr := sha256_tag [1].
Definition a_specification : value :=
  VDict [("schema", VStr "knowledge.processing_specification.v1"); ("processorId", VStr "centaeris.document.cpu"); ("processorVersion", VStr "1.0.0");
         ("executionImageDigest", VStr a_digest); ("modelDigests", VDict [(DET_MODEL, VStr a_digest); (REC_MODEL, VStr a_digest)]);
         ("options", VDict (map (fun kv => (kv.1, VInt kv.2)) EXPECTED_OPTIONS))].
Definition an_input : bytes := [104; 105].
Definition an_identity : value := VDict [("ownerKind", VStr "userLibraryObject"); ("ownerId", VStr "object:1"); ("generation", VInt 1); ("sha256", VStr (sha256_tag an_input))].
Definition a_spec_digest : pystr := Eval vm_compute in ok_or "" (processing_spec_digest a_specification).
Definition a_representation : pystr := Eval vm_compute in ok_or "" (representation_id an_identity a_spec_digest).
(** a library object whose bytes are stored *)
Definition a_store : store :=
  Store {[ ("object:1" : pystr) := LibraryObject 1 "a.txt" LFile "text/plain" (Some 2) (sha256_tag an_input) "library/1/a" None OReady "" None None None None 0 1 0 ]} ∅ ∅ ∅ ∅
    {[ ("library/1/a" : pystr) := (an_input, 0) ]}.
Definition an_output : processing_output := finished_output a_representation sample_canonical [] [] (manifest_of sample_pages).
Definition a_lease : lease := Lease a_representation "worker:1" 1.
Definition some_id (i : nat) : pystr := PyStr (replicate i 97).

Definition y_start : system := System (MState a_store ∅ ∅ ∅ ∅ ∅ ∅) 0 [] [].
Definition y_admitted : system := System (admit_task a_representation a_specification an_identity a_spec_digest (VInt 2) (sy_state y_start)).2 0 [] [].
Definition y_claimed : system := System (claim a_representation "worker:1" 300 0 (sy_state y_admitted)).2 0 [] [].
Definition y_staged : system := System (prepare_staging a_lease an_output 0 (sy_state y_claimed)).2 0 [(a_lease, an_output)] [].
(** the worker dies after two bytes *)
Definition a_key : pystr := pt_key (canonical_part a_representation an_output).
Definition y_crashed : system :=
  System (with_objects (<[a_key := ([195; 169], 5)]> (m_files (sy_state y_staged))) (ms_staged (sy_state y_staged)) (sy_state y_staged)) 0 [(a_lease, an_output)] [].
Definition y_published : system :=
  System (publish_output keep_name a_lease an_output [sample_canonical] (storage_keys a_representation an_output) true 0 7 some_id (sy_state y_crashed)).2 7 [(a_lease, an_output)] [].

Lemma start_initial : initial y_start.
Proof.
  unfold initial. split_and!; try done. intros k Hk. cbn. apply lookup_singleton_ne. intros <-. done.
Qed.
Lemma claimed_first : claim a_representation "worker:1" 300 0 (sy_state y_admitted) = (Ok (Some a_lease), sy_state y_claimed).
Proof. rewrite (surjective_pairing (claim _ _ _ _ _)). apply (f_equal2 pair); [vm_compute; reflexivity|reflexivity]. Qed.
Lemma staged_first : prepare_staging a_lease an_output 0 (sy_state y_claimed) = (Ok (storage_keys a_representation an_output), sy_state y_staged).
Proof. rewrite (surjective_pairing (prepare_staging _ _ _ _)). apply (f_equal2 pair); [vm_compute; reflexivity|reflexivity]. Qed.
Lemma output_valid : validate_commit an_output = Ok tt.
Proof. vm_compute. reflexivity. Qed.
Lemma steps_admitted : rtc (step keep_name) y_start y_admitted.
Proof. apply rtc_once. eapply step_admit. apply surjective_pairing. Qed.
Lemma steps_claimed : rtc (step keep_name) y_admitted y_claimed.
Proof. apply rtc_once. eapply step_claim. apply claimed_first. Qed.
Lemma steps_staged : rtc (step keep_name) y_claimed y_staged.
Proof. apply rtc_once. pose proof (step_prepare keep_name _ 0 [] [] _ _ _ _ output_valid staged_first) as H. exact H. Qed.
Lemma crash_unused : published (sy_state y_staged) a_key = false /\ registered (sy_state y_staged) a_key = false.
Proof. vm_compute. split; reflexivity. Qed.
Lemma a_key_staged : ms_staged (sy_state y_staged) !! a_key = Some (Staged a_representation 6 (sha256_tag sample_canonical)).
Proof. vm_compute. reflexivity. Qed.
Definition a_task : task_row := Task a_specification (VDict [("schema", VStr "workspace.material.processing.v1"); ("inputIdentity", an_identity); ("specDigest", VStr a_spec_digest); ("sizeBytes", VInt 2)])
  TRunning "" "platform" "worker:1" (Some 300000000) 1 1.
Lemma a_task_running : ms_tasks (sy_state y_staged) !! a_representation = Some a_task.
Proof. vm_compute. reflexivity. Qed.
Lemma a_task_live now replay : now < 300000000 -> _check a_task now a_lease replay = Ok tt.
Proof.
  intros H. assert (_check a_task now a_lease false = Ok tt) as Hc; [|destruct replay; [by apply check_replay|done]].
  apply check_iff. split_and!; try done. cbn. by apply Z.ltb_lt.
Qed.
Lemma steps_crashed : rtc (step keep_name) y_staged y_crashed.
Proof.
  apply rtc_once. apply (step_crash keep_name (sy_state y_staged) 0 [(a_lease, an_output)] [] a_lease an_output); [by left|]. split.
  - exists a_task. split; [exact a_task_running|]. by apply a_task_live.
  - intros k. destruct (decide (k = a_key)) as [->|Hk]; [right|left; by rewrite lookup_insert_ne]. split; [eexists; split; [exact a_key_staged|done]|].
    left. destruct crash_unused as [Hp Hr]. intros [H|H]; congruence.
Qed.
Lemma steps_to_crash : rtc (step keep_name) y_start y_crashed.
Proof. transitivity y_admitted; [exact steps_admitted|]. transitivity y_claimed; [exact steps_claimed|]. transitivity y_staged; [exact steps_staged|exact steps_crashed]. Qed.

Lemma entries_one : staging_entries a_representation an_output = [canonical_part a_representation an_output].
Proof. reflexivity. Qed.
Definition a_source : processing_source :=
  ProcessingSource (OwnLibrary "object:1" (LibraryObject 1 "a.txt" LFile "text/plain" (Some 2) (sha256_tag an_input) "library/1/a" None OReady "" None None None None 0 1 0))
    "library/1/a" an_identity 2.
Lemma crashed_source : resolve_task_source (sy_state y_crashed) a_representation a_task true = Ok a_source.
Proof. vm_compute. reflexivity. Qed.
Lemma crashed_tables : ms_tasks (sy_state y_crashed) !! a_representation = Some a_task /\ ms_reps (sy_state y_crashed) = ∅ /\ ms_specs (sy_state y_crashed) = ∅
  /\ ms_segments (sy_state y_crashed) = ∅ /\ resources (ms_store (sy_state y_crashed)) = ∅ /\ m_files (sy_state y_crashed) !! a_key = Some ([195; 169], 5).
Proof. vm_compute. repeat split. Qed.
Definition a_segment : list segment := Eval vm_compute in ok_or [] (_segments a_representation (manifest_of sample_pages)).
Lemma a_segment_eq : _segments a_representation (manifest_of sample_pages) = Ok a_segment.
Proof. vm_compute. reflexivity. Qed.
Lemma crash_publishable : publishable a_lease a_task a_source sample_canonical [] [] (manifest_of sample_pages) some_id (sy_state y_crashed).
Proof.
  destruct crashed_tables as (_ & HR & HP & HG & HD & HF). constructor.
  - exact crashed_source.
  - by rewrite HR.
  - by rewrite HR.
  - by rewrite HP.
  - intros p Hp. change (staging_entries _ _) with [canonical_part a_representation an_output] in Hp. apply list_elem_of_singleton in Hp as ->.
    intros [H|H]; [unfold published in H; by rewrite HR in H|unfold registered in H; by rewrite HD in H].
  - change (staging_entries _ _) with [canonical_part a_representation an_output]. constructor; [|constructor]. intros c' at_. fold a_key. rewrite HF. intros [= <- <-] H. vm_compute in H. discriminate H.
  - exact sample_manifest_valid.
  - intros H. by destruct H.
  - exists a_segment. split; [exact a_segment_eq|]. rewrite HG. split; [apply (bool_decide_unpack _); vm_compute; exact I|]. repeat constructor.
  - rewrite HD. split; [done|]. split; [intros i; apply lookup_empty|]. unfold some_id. intros i j [= E]. apply (f_equal length) in E. by rewrite !length_replicate in E.
Qed.

Lemma crashed_flight : (a_lease, an_output) ∈ sy_flights y_crashed.
Proof. unfold y_crashed. cbn [sy_flights]. by left. Qed.

(** The worker died after two bytes of six; repeating the publication succeeds. *)
Lemma live_worker_publishes_witness : exists v m',
  publish_output keep_name a_lease an_output [sample_canonical] (storage_keys a_representation an_output) true 0 7 some_id (sy_state y_crashed) = (Ok v, m')
  /\ published_state a_lease sample_canonical [] [] (manifest_of sample_pages) m'.
Proof.
  apply (live_worker_publishes keep_name keep_name_own a_lease a_task a_source sample_canonical [] [] (manifest_of sample_pages) some_id y_start y_crashed [sample_canonical] true 7).
  - exact start_initial.
  - exact steps_to_crash.
  - exact crashed_flight.
  - exact (proj1 crashed_tables).
  - cbn. lia.
  - apply a_task_live. lia.
  - exact crash_publishable.
  - by repeat constructor.
  - reflexivity.
Defined.

Lemma steps_published : rtc (step keep_name) y_crashed y_published.
Proof.
  apply rtc_once. eapply (step_publish keep_name (sy_state y_crashed) 0 [(a_lease, an_output)] [] a_lease an_output); [by left|lia| |apply surjective_pairing].
  intros t r Ht Hs Hr. destruct crashed_tables as (_ & HR & _). rewrite HR, lookup_empty in Hr. discriminate Hr.
Qed.
Lemma steps_to_published : rtc (step keep_name) y_start y_published.
Proof. transitivity y_crashed; [exact steps_to_crash|exact steps_published]. Qed.
Lemma published_some : bool_decide (is_Some (ms_reps (sy_state y_published) !! a_representation)) = true.
Proof. vm_compute. reflexivity. Qed.
Lemma text_part r : rp_text r ∈ commit_parts r.
Proof. unfold commit_parts. apply elem_of_app. left. by apply list_elem_of_singleton. Qed.

(** The first worker does not return; the second one takes over after the lease has expired. *)
Definition y_expired : system := System (sy_state y_claimed) 300000001 [] [].
Definition y_reclaimed : system := System (claim a_representation "worker:2" 300 300000001 (sy_state y_expired)).2 300000001 [] [].
Lemma claimed_second : claim a_representation "worker:2" 300 300000001 (sy_state y_expired) = (Ok (Some (Lease a_representation "worker:2" 2)), sy_state y_reclaimed).
Proof. rewrite (surjective_pairing (claim _ _ _ _ _)). apply (f_equal2 pair); [vm_compute; reflexivity|reflexivity]. Qed.
Lemma stale_lease_is_fenced_witness : fenced_off keep_name (sy_state y_reclaimed) a_lease.
Proof.
  apply (stale_lease_is_fenced keep_name keep_name_own y_start y_admitted y_expired y_reclaimed a_representation "worker:1" "worker:2" 300 300
    a_lease (Lease a_representation "worker:2" 2) (sy_state y_claimed) (sy_state y_reclaimed)).
  - exact start_initial.
  - exact steps_admitted.
  - exact claimed_first.
  - apply rtc_once. apply step_clock. cbn. lia.
  - exact claimed_second.
  - apply rtc_refl.
Defined.

(** A text with a NUL character passes the validation of the manifest, but its segments cannot be stored. *)
Definition nul_pages : list value := [sample_page 1 0 1 1 1 "nativeText" (VStr (PyStr [0])) [0] [sample_span (PyStr [0])]].
Example nul_text_cannot_be_stored : exists segments e, _validate_manifest (manifest_of nul_pages) [0] = Ok tt /\
  _segments a_representation (manifest_of nul_pages) = Ok segments /\ (mfor (create_segment a_representation) segments (sy_state y_crashed)).1 = Err (MDatabase e).
Proof. eexists _, _. split; [vm_compute; reflexivity|]. split; vm_compute; reflexivity. Qed.
