(* ===== verification/MaterialDelivery.v ===== *)
(** * Reading processed documents

    [packages/api/app_core/material_evidence.py] and the pages of [material_delivery.py]: the evidence a read or a search
    returns, and how a saved result is handed to a model in pages of bounded size. *)

From stdpp Require Import base tactics list gmap numbers sorting.
From S2P Require Import Prelude PyStr Utf8 Sha256 Platform PyValue Json Contract Plugins Assets Sources RuntimeReplies MaterialManifest Materials.

Definition MAX_READ_BYTES : Z := 50 * 1024.
Definition MAX_READ_LINES : Z := 2000.
Definition MAX_SEARCH_SNIPPET_BYTES : Z := 8 * 1024.
Definition PAGE_BUDGET : Z := 48 * 1024.

(** ** Python *)

Definition encode (s : pystr) : K bytes := from_option_res KUnicodeEncodeError (utf8_encode s).
(** [v[k]] *)
Definition need (k : pystr) (v : value) : K value :=
  match v with VDict _ => if has_key k v then Ok (get k v) else Err KKeyError | _ => Err KTypeError end.
Definition need_int (k : pystr) (v : value) : K Z := x ← need k v; from_option_res KTypeError (as_int x).
Definition need_str (k : pystr) (v : value) : K pystr := x ← need k v; from_option_res KAttributeError (as_str x).
(** [v[k] = x] and [v.update(...)] *)
Definition dict_set (k : pystr) (x v : value) : value := match v with VDict d => VDict (assoc_set k x d) | _ => v end.
Definition dict_update (l : list (pystr * value)) (v : value) : value := fold_left (fun v kx => dict_set kx.1 kx.2 v) l v.
(** [bool(v)] *)
Definition truthy (v : value) : bool :=
  match v with
  | VNone => false | VBool b => b | VInt z => negb (z =? 0) | VFloat repr => negb (bool_decide (repr ∈ ["0.0"; "-0.0"]))
  | VStr s => negb (is_empty s) | VList l => negb (bool_decide (length l = 0%nat)) | VDict d => negb (bool_decide (length d = 0%nat))
  end.

(** [json.dumps(v, ensure_ascii=False)] with its default separators *)
Fixpoint dump_spaced (v : value) : list Z :=
  match v with
  | VList l =>
      91 :: (fix items (l : list value) : list Z :=
               match l with
               | [] => [93]
               | [v] => dump_spaced v ++ [93]
               | v :: l => dump_spaced v ++ 44 :: 32 :: items l
               end) l
  | VDict d =>
      123 :: (fix members (d : list (pystr * value)) : list Z :=
               match d with
               | [] => [125]
               | [(k, v)] => dump_str k ++ 58 :: 32 :: dump_spaced v ++ [125]
               | (k, v) :: d => dump_str k ++ 58 :: 32 :: dump_spaced v ++ 44 :: 32 :: members d
               end) d
  | _ => dump v
  end.
Definition dumped_spaced (v : value) : pystr := PyStr (dump_spaced v).
Definition json_size (v : value) : K Z := data ← encode (dumped_spaced v); Ok (zlen data).

(** [s.splitlines(keepends=True)]; a carriage return and the newline after it end one line *)
Definition line_end (c : Z) : bool := existsb (Z.eqb c) [10; 11; 12; 13; 28; 29; 30; 133; 8232; 8233].
Fixpoint split_lines (line : list Z) (l : list Z) : list (list Z) :=
  match l with
  | [] => match line with [] => [] | _ => [line] end
  | c :: l' =>
      if line_end c then
        match l' with
        | d :: l'' => if (c =? 13) && (d =? 10) then (line ++ [c; d]) :: split_lines [] l'' else (line ++ [c]) :: split_lines [] l'
        | [] => [line ++ [c]]
        end
      else split_lines (line ++ [c]) l'
  end.
Definition strip_end (line : list Z) : list Z :=
  match reverse line with
  | c :: d :: rest => if (c =? 10) && (d =? 13) then reverse rest else if line_end c then reverse (d :: rest) else line
  | [c] => if line_end c then [] else line
  | [] => []
  end.
Definition splitlines (keepends : bool) (s : pystr) : list pystr :=
  map (fun line => PyStr (if keepends then line else strip_end line)) (split_lines [] (code_points s)).
Definition str_concat (l : list pystr) : pystr := PyStr (concat (map code_points l)).
Definition count_char (c : Z) (s : pystr) : Z := zlen (filter (fun x => x = c) (code_points s)).
Definition ends_with_newline (s : pystr) : bool := bool_decide (last (code_points s) = Some 10).

(** ** Evidence *)

Definition optional_int (o : option Z) : value := match o with Some z => VInt z | None => VNone end.
Definition optional_str (o : option pystr) : value := match o with Some s => VStr s | None => VNone end.
(** [min(l)] and [max(l)] of a list that is not empty *)
Definition list_min (l : list Z) : option Z := match l with [] => None | z :: l => Some (fold_left Z.min l z) end.
Definition list_max (l : list Z) : option Z := match l with [] => None | z :: l => Some (fold_left Z.max l z) end.

Record locator := Locator { lo_page_start : option Z; lo_page_end : option Z; lo_start : Z; lo_end : Z; lo_start_line : Z; lo_end_line : Z }.
Definition locator_value (l : locator) : value :=
  VDict [("kind", VStr "textSpan"); ("pageStart", optional_int (lo_page_start l)); ("pageEnd", optional_int (lo_page_end l)); ("startByte", VInt (lo_start l));
         ("endByte", VInt (lo_end l)); ("startLine", VInt (lo_start_line l)); ("endLine", VInt (lo_end_line l))].
Definition _line_locator (content : pystr) (start_line end_line : Z) : K locator :=
  require (start_line <=? end_line) (KnowledgeError "knowledge_read_locator_invalid" 409);;
  let lines := splitlines true content in
  before ← encode (str_concat (take (Z.to_nat (start_line - 1)) lines));
  upto ← encode (str_concat (take (Z.to_nat end_line) lines));
  Ok (Locator None None (zlen before) (Z.max (zlen before + 1) (zlen upto)) start_line end_line).

(** the pages that overlap the bytes from [start] to [end_] *)
Fixpoint overlapping (start end_ : Z) (pages : list value) : K (list Z) :=
  match pages with
  | [] => Ok []
  | page :: pages =>
      from ← need_int "canonicalStartByte" page;
      upto ← need_int "canonicalEndByte" page;
      rest ← overlapping start end_ pages;
      if (from <? end_) && (start <? upto) then
        text ← need "pageText" page; number ← need_int "page" text; Ok (number :: rest)
      else Ok rest
  end.
Definition manifest_pages (manifest : value) : K (list value) := pages ← need "pages" manifest; from_option_res KTypeError (as_list pages).
Definition _locator_pages (manifest : value) (l : locator) : K (option Z * option Z) :=
  pages ← manifest_pages manifest;
  numbers ← overlapping (lo_start l) (lo_end l) pages;
  Ok (list_min numbers, list_max numbers).
Definition used_ocr (manifest : value) : K bool :=
  pages ← manifest_pages manifest;
  for_each (fun (found : bool) page => if found then Ok true else text ← need "pageText" page; route ← need "route" text; Ok (is_str "ppOcrV6Small" route)) pages false.

(** the lines that are selected, why the selection stopped, and whether the first line was too long *)
Fixpoint select_lines (full_window : bool) (limit : Z) (selected : list pystr) (output_bytes : Z) (lines : list pystr) : K (list pystr * option pystr * bool) :=
  match lines with
  | [] => Ok (selected, None, false)
  | line :: lines =>
      if zlen selected =? limit then Ok (selected, Some ("lines" : pystr), false)
      else
        encoded ← encode line;
        let next_bytes := output_bytes + (if bool_decide (selected = []) then 0 else 1) + zlen encoded in
        if negb full_window && (MAX_READ_BYTES <? next_bytes) then Ok (selected, Some ("bytes" : pystr), bool_decide (selected = []))
        else select_lines full_window limit (selected ++ [line]) next_bytes lines
  end.

(** [bound.resolved] is the input as it was resolved; the fields of the answer that describe the owner come from it *)
Definition read_evidence (content : pystr) (resolved identity : value) (rid : pystr) (r : rep_row) (offset limit : Z) (full_window : bool) : K value :=
  let lines := splitlines full_window content in
  require (offset <=? zlen lines) (invalid "knowledge_read_offset_exceeds_content");;
  s ← select_lines full_window limit [] 0 (drop (Z.to_nat offset) lines);
  let '(selected, truncated_by, first_line) := s in
  let end_offset := offset + zlen selected in
  let truncated := end_offset <? zlen lines in
  let truncated_by := if truncated then truncated_by else None in
  let first_line := truncated && first_line in
  let text := if full_window then str_concat selected else join_lines selected in
  output ← encode text;
  loc ← (if is_empty text then Ok None
         else
           l ← _line_locator content (offset + 1) end_offset;
           pages ← _locator_pages (rp_manifest r) l;
           Ok (Some (Locator pages.1 pages.2 (lo_start l) (lo_end l) (lo_start_line l) (lo_end_line l))));
  total ← encode content;
  path ← need "virtualPath" resolved; input_ref ← need "inputRef" resolved; display ← need "displayName" resolved; object_ref ← need "objectRef" resolved;
  owner_kind ← need "ownerKind" resolved; kind ← need "evidenceKind" resolved; sha ← need "sha256" resolved; generation ← need "generation" identity;
  allowed ← need "citationAllowed" resolved; ocr ← used_ocr (rp_manifest r);
  let page f := match loc with Some l => optional_int (f l) | None => VNone end in
  Ok (VDict [("schema", VStr "file_read_result.v1"); ("path", path); ("startLine", VInt (offset + 1)); ("endLine", VInt end_offset); ("totalLines", VInt (zlen lines));
             ("totalBytes", VInt (zlen total)); ("outputBytes", VInt (zlen output)); ("maxLines", VInt limit); ("maxBytes", VInt MAX_READ_BYTES); ("truncated", VBool truncated);
             ("truncatedBy", optional_str truncated_by); ("firstLineExceedsLimit", VBool first_line);
             ("nextOffset", if truncated && negb first_line then VInt end_offset else VNone); ("fileHash", VStr (pt_sha256 (rp_text r))); ("content", VStr text);
             ("inputRef", input_ref); ("displayName", display); ("ownerRef", object_ref); ("ownerKind", owner_kind); ("evidenceKind", kind); ("ownerSha256", sha);
             ("ownerGeneration", generation); ("representationId", VStr rid); ("specDigest", VStr (rp_spec r));
             ("locator", match loc with Some l => locator_value l | None => VNone end); ("evidenceSha256", VStr (sha256_tag output));
             ("citationAllowed", if truthy allowed then VBool (negb (is_empty text)) else allowed);
             ("pageStart", page lo_page_start); ("pageEnd", page lo_page_end); ("documentRoute", VStr "knowledgeDerived"); ("documentUsedOcr", VBool ocr)]).

Definition continuation_byte (b : Z) : bool := Z.land b 192 =? 128.
(** the last byte at or before [n] that begins a character, or the end *)
Fixpoint back_to_start (n : nat) (encoded : bytes) : nat :=
  match n with
  | O => O
  | S n' => match encoded !! n with Some b => if continuation_byte b then back_to_start n' encoded else n | None => n end
  end.
Definition _bounded_utf8_prefix (s : pystr) (maximum : Z) : K pystr :=
  encoded ← encode s;
  if zlen encoded <=? maximum then Ok s
  else from_option_res KValueError (utf8_decode (take (back_to_start (Z.to_nat maximum) encoded) encoded)).

(** [updated_at] is the time of the last change of the owner as text *)
Definition search_evidence (sg : segment) (rid spec_digest : pystr) (resolved identity : value) (score : Z) (updated_at : pystr) (full_window : bool) : K value :=
  content ← (if full_window then Ok (sg_text sg) else _bounded_utf8_prefix (sg_text sg) MAX_SEARCH_SNIPPET_BYTES);
  data ← encode content;
  let loc := Locator (Some (sg_page sg)) (Some (sg_page sg)) (sg_start sg) (sg_start sg + zlen data) (sg_start_line sg) (sg_start_line sg + count_char 10 content) in
  input_ref ← need "inputRef" resolved; display ← need "displayName" resolved; object_ref ← need "objectRef" resolved; owner_kind ← need "ownerKind" resolved;
  kind ← need "evidenceKind" resolved; sha ← need "sha256" resolved; generation ← need "generation" identity; allowed ← need "citationAllowed" resolved;
  Ok (VDict [("segmentId", VStr (sg_id sg)); ("inputRef", input_ref); ("displayName", display); ("ownerRef", object_ref); ("ownerKind", owner_kind); ("evidenceKind", kind);
             ("ownerSha256", sha); ("ownerGeneration", generation); ("representationId", VStr rid); ("specDigest", VStr spec_digest); ("locator", locator_value loc);
             ("evidenceSha256", VStr (sha256_tag data)); ("citationAllowed", allowed); ("score", VInt score); ("content", VStr content); ("updatedAt", VStr updated_at)]).

(** ** Pages of a saved result *)

Definition digits_of (n : Z) (l : list Z) : bool := (1 <=? zlen l) && (zlen l <=? n) && forallb is_digit l.
(** [re.fullmatch(r"[0-9]{1,10}:[0-9]{1,12}", cursor)] and its numbers *)
Definition parse_cursor (cursor : value) : option (Z * Z) :=
  match cursor with
  | VStr s => match split_on 58 (code_points s) with [a; b] => if digits_of 10 a && digits_of 12 b then Some (digits_value a, digits_value b) else None | _ => None end
  | _ => None
  end.
Definition cursor_str (index offset : Z) : pystr := int_str index +:+ ":" +:+ int_str offset.
Definition invalid_cursor : kexn := invalid "material_result_cursor_invalid".
Definition over_budget : kexn := KnowledgeError "material_result_metadata_exceeds_budget" 409.
Definition dash : pystr := PyStr [8211].

(** the key of the results, and the results *)
Definition result_key (snapshot : value) : pystr := if has_key "items" snapshot then "items" else "hits".
Definition result_values (snapshot : value) : K (list value) := v ← need (result_key snapshot) snapshot; from_option_res KTypeError (as_list v).

(** [page for start, stop, page in ranges if start < end and stop > begin] *)
Fixpoint range_pages (begin end_ : Z) (ranges : list value) : K (list Z) :=
  match ranges with
  | [] => Ok []
  | VList [VInt start; VInt stop; VInt page] :: ranges =>
      rest ← range_pages begin end_ ranges; Ok (if (start <? end_) && (begin <? stop) then page :: rest else rest)
  | _ :: _ => Err KTypeError
  end.
Definition page_ranges (snapshot original : value) : K (list value) :=
  match get "representationId" original with
  | VStr rid => match get rid (get "_pageRanges" snapshot) with VNone => Ok [] | v => from_option_res KTypeError (as_list v) end
  | _ => Ok []
  end.

(** the locator of the part [text] of a result, which begins at [offset] after [prefix] *)
Definition located (snapshot original : value) (offset : Z) (prefix text : pystr) : K value :=
  let l := get "locator" original in
  if is_none l || is_empty text then Ok l
  else
    start ← need_int "startByte" l; data ← encode text; line ← need_int "startLine" l;
    let start := start + offset in let line := line + count_char 10 prefix in
    let end_ := start + zlen data in
    let l := dict_update [("startByte", VInt start); ("endByte", VInt end_); ("startLine", VInt line);
                          ("endLine", VInt (line + count_char 10 text - (if ends_with_newline text then 1 else 0)))] l in
    ranges ← page_ranges snapshot original;
    match ranges with
    | [] => Ok l
    | _ => pages ← range_pages start end_ ranges; Ok (dict_update [("pageStart", optional_int (list_min pages)); ("pageEnd", optional_int (list_max pages))] l)
    end.

Definition cursor_call (result_ref cursor : pystr) : value :=
  VDict [("tool", VStr "read_material_result"); ("arguments", VDict [("result_ref", VStr result_ref); ("cursor", VStr cursor)])].

(** [candidate(count)]: the page that shows [text] of the result [index] of [count] *)
Definition candidate_page (snapshot : value) (result_ref : pystr) (count index offset : Z) (original : value) (raw : bytes) (prefix text : pystr) : K value :=
  let key := result_key snapshot in
  let items := bool_decide (key = "items") in
  data ← encode text;
  let end_ := offset + zlen data in
  l ← located snapshot original offset prefix text;
  let item := dict_update [("content", VStr text); ("evidenceSha256", VStr (sha256_tag data));
                           ("citationAllowed", if is_empty text then VBool false else if has_key "citationAllowed" original then get "citationAllowed" original else VBool false);
                           ("locator", if is_empty text then VNone else l)] original in
  start_line ← (if items then if truthy l then need "startLine" l else need "startLine" original else Ok VNone);
  end_line ← (if items then if truthy l then need "endLine" l else need "endLine" original else Ok VNone);
  let page k := if truthy l then get k l else VNone in
  let item := if items then dict_update [("outputBytes", VInt (zlen data)); ("startLine", start_line); ("endLine", end_line); ("pageStart", page "pageStart"); ("pageEnd", page "pageEnd")] item
              else item in
  let next_cursor := if end_ <? zlen raw then Some (cursor_str index end_) else if index + 1 <? count then Some (cursor_str (index + 1) 0) else None in
  continuation ← match next_cursor with
                 | Some c => Ok (cursor_call result_ref c)
                 | None =>
                     if items && negb (is_none (get "nextOffset" original)) then
                       input_ref ← need "inputRef" original;
                       Ok (VDict [("tool", VStr "read_material");
                                  ("arguments", VDict [("input_ref", input_ref); ("offset", get "nextOffset" original);
                                                       ("limit", if has_key "maxLines" original then get "maxLines" original else VInt 2000)])])
                     else Ok VNone
                 end;
  let item := if items then dict_update [("nextOffset", match next_cursor with Some _ => VNone | None => get "nextOffset" original end); ("truncated", VBool (negb (is_none continuation)));
                                         ("firstLineExceedsLimit", VBool false); ("truncatedBy", match next_cursor with Some _ => VStr "bytes" | None => get "truncatedBy" original end)] item
              else item in
  line_range ← (if truthy l then a ← need_int "startLine" l; b ← need_int "endLine" l; Ok ("lines " +:+ int_str a +:+ dash +:+ int_str b) else Ok ("empty content" : pystr));
  total ← (if has_key "totalLines" original then n ← need_int "totalLines" original; Ok (" of " +:+ int_str n) else Ok ("" : pystr));
  let message := "Showing result " +:+ int_str (index + 1) +:+ " of " +:+ int_str count +:+ ", " +:+ line_range +:+ total +:+ "; content bytes " +:+ int_str offset +:+ dash
                 +:+ int_str end_ +:+ " of " +:+ int_str (zlen raw) +:+ " (end exclusive). The complete result is preserved. "
                 +:+ (if is_none continuation then "This result has been fully returned." else "More content is available. Continue with " +:+ dumped_spaced continuation) in
  Ok (VDict [("message", VStr message); ("disposition", VStr "ready"); ("resultRef", VStr result_ref); ("completeResultSaved", VBool true); ("resultSha256", get "_digest" snapshot);
             ("continuation", continuation); (key, VList [item])]).

(** The binary search between [low] and [high] for a count whose page fits; the interval shrinks at every iteration, so that
    its length is enough. *)
Fixpoint search_count (fuel : nat) (fits : Z -> K bool) (low high : Z) : K Z :=
  match fuel with
  | O => Ok low
  | S fuel =>
      if low <? high then
        let middle := (low + high + 1) / 2 in
        fits middle ≫= fun ok : bool => if ok then search_count fuel fits middle high else search_count fuel fits low (middle - 1)
      else Ok low
  end.
Definition str_take (n : Z) (s : pystr) : pystr := PyStr (take (Z.to_nat n) (code_points s)).
Definition within_budget (page : value) : K bool := size ← json_size page; Ok (size <=? PAGE_BUDGET).

(** the part of a result that a cursor points to *)
Definition rest_of (original : value) (offset : Z) : K (bytes * pystr * pystr) :=
  content ← need_str "content" original;
  raw ← encode content;
  require (negb ((zlen raw <? offset) || match raw !! Z.to_nat offset with Some b => continuation_byte b | None => false end)) invalid_cursor;;
  prefix ← from_option_res KValueError (utf8_decode (take (Z.to_nat offset) raw));
  remaining ← from_option_res KValueError (utf8_decode (drop (Z.to_nat offset) raw));
  Ok (raw, prefix, remaining).
Definition no_results (key result_ref : pystr) : value :=
  VDict [("disposition", VStr "ready"); (key, VList []); ("resultRef", VStr result_ref); ("completeResultSaved", VBool true); ("continuation", VNone);
         ("message", VStr "No matching content. The complete result is preserved.")].

Definition _single_page (snapshot : value) (result_ref : pystr) (cursor : value) : K value :=
  at_ ← from_option_res invalid_cursor (parse_cursor cursor);
  let '(index, offset) := at_ in
  values ← result_values snapshot;
  match values with
  | [] => require ((index =? 0) && (offset =? 0)) invalid_cursor;; Ok (no_results (result_key snapshot) result_ref)
  | _ =>
      original ← from_option_res invalid_cursor (values !! Z.to_nat index);
      r ← rest_of original offset;
      let '(raw, prefix, remaining) := r in
      let page count := candidate_page snapshot result_ref (zlen values) index offset original raw prefix (str_take count remaining) in
      let length := str_len remaining in
      low ← search_count (Z.to_nat length) (fun count => p ← page count; within_budget p) 0 length;
      require (negb (negb (is_empty remaining) && (low =? 0))) over_budget;;
      result ← page low;
      ok ← within_budget result;
      require ok over_budget;;
      Ok result
  end.

(** the cursor a page continues with, unless it continues with another tool *)
Definition next_cursor (page : value) : option pystr :=
  let continuation := get "continuation" page in
  if is_str "read_material_result" (get "tool" continuation) then as_str (get "cursor" (get "arguments" continuation)) else None.
Definition joined_page (snapshot page following : value) (start_index index : Z) (hits : list value) : value :=
  let continuation := get "continuation" following in
  dict_update [("hits", VList (default [] (as_list (get "hits" page)) ++ default [] (as_list (get "hits" following)))); ("continuation", continuation);
    ("message", VStr ("Showing results " +:+ int_str (start_index + 1) +:+ dash +:+ int_str (index + 1) +:+ " of " +:+ int_str (zlen hits)
       +:+ ". Each hit includes the exact returned line and byte range. The complete result is preserved. "
       +:+ (if is_none continuation then "This result has been fully returned." else "More content is available. Continue with " +:+ dumped_spaced continuation)))] page.
(** Results that begin with their first byte are added as long as the page fits; every iteration adds one. *)
Fixpoint join_pages (fuel : nat) (snapshot : value) (result_ref : pystr) (start_index : Z) (hits : list value) (page : value) : K value :=
  match fuel with
  | O => Ok page
  | S fuel =>
      match next_cursor page with
      | None => Ok page
      | Some c =>
          match parse_cursor (VStr c) with
          | Some (index, 0) =>
              following ← _single_page snapshot result_ref (VStr c);
              let joined := joined_page snapshot page following start_index index hits in
              within_budget joined ≫= fun ok : bool => if ok then join_pages fuel snapshot result_ref start_index hits joined else Ok page
          | _ => Ok page
          end
      end
  end.
Definition render_page (snapshot : value) (result_ref : pystr) (cursor : value) : K value :=
  page ← _single_page snapshot result_ref cursor;
  if negb (has_key "hits" page) then Ok page
  else
    at_ ← from_option_res invalid_cursor (parse_cursor cursor);
    hits ← result_values snapshot;
    join_pages (length hits) snapshot result_ref at_.1 hits page.

(** A client that follows the cursors of a result; what it has been shown. *)
Definition shown_items (page : value) : list value := default [] (as_list (get (result_key page) page)).
Fixpoint read_pages (fuel : nat) (snapshot : value) (result_ref cursor : pystr) : K (list value) :=
  match fuel with
  | O => Ok []
  | S fuel =>
      page ← render_page snapshot result_ref (VStr cursor);
      match next_cursor page with
      | None => Ok [page]
      | Some c => rest ← read_pages fuel snapshot result_ref c; Ok (page :: rest)
      end
  end.
