(* ===== verification/MaterialDeliveryProps.v ===== *)
(** * Reading processed documents: properties

    A client that follows the cursors of a saved result is shown all of it, in order and once, in pages that fit; and every
    page names the bytes it shows. *)

From stdpp Require Import base tactics list gmap numbers sorting.
From S2P Require Import Prelude PyStr Utf8 Sha256 Platform PyValue Json Contract Plugins Assets Sources RuntimeReplies MaterialManifest TranscriptProps MaterialManifestProps Materials MaterialDelivery.

(** ** Dictionaries *)

Definition is_dict (v : value) : bool := match v with VDict _ => true | _ => false end.
Lemma assoc_set_get k x d : dict_get k (assoc_set k x d) = x.
Proof. induction d as [|[k' y] d IH]; cbn; [by rewrite bool_decide_eq_true_2|]. case_bool_decide as E; cbn; [by rewrite bool_decide_eq_true_2|]. by rewrite bool_decide_eq_false_2 by congruence. Qed.
Lemma assoc_set_get_ne k k' x d : k' <> k -> dict_get k' (assoc_set k x d) = dict_get k' d.
Proof.
  intros Hk. induction d as [|[k0 y] d IH]; cbn; [by rewrite bool_decide_eq_false_2|]. case_bool_decide as E; cbn; [subst k0; by rewrite !bool_decide_eq_false_2|].
  by case_bool_decide.
Qed.
Lemma get_dict_set k k' x v : is_dict v = true -> get k' (dict_set k x v) = if bool_decide (k' = k) then x else get k' v.
Proof. destruct v; try done. intros _. cbn. case_bool_decide as E; [subst; apply assoc_set_get|by apply assoc_set_get_ne]. Qed.
Lemma dict_set_dict k x v : is_dict (dict_set k x v) = is_dict v.
Proof. by destruct v. Qed.
Lemma dict_update_dict l v : is_dict (dict_update l v) = is_dict v.
Proof. revert v. induction l as [|kx l IH]; intros v; [done|]. cbn. by rewrite IH, dict_set_dict. Qed.
(** the last assignment of a key counts *)
Fixpoint assigned (k : pystr) (l : list (pystr * value)) : option value :=
  match l with [] => None | kx :: l => match assigned k l with Some x => Some x | None => if bool_decide (k = kx.1) then Some kx.2 else None end end.
Lemma get_dict_update k l v : is_dict v = true -> get k (dict_update l v) = default (get k v) (assigned k l).
Proof.
  revert v. induction l as [|[k' x] l IH]; intros v Hv; [done|]. cbn [dict_update fold_left fst snd]. change (fold_left _ l ?w) with (dict_update l w).
  rewrite IH by (by rewrite dict_set_dict). cbn [assigned fst snd]. destruct (assigned k l); [done|]. cbn [default]. rewrite get_dict_set by done. by case_bool_decide.
Qed.
Lemma has_key_assoc_set k k' x d : has_key k' (VDict (assoc_set k x d)) = bool_decide (k' = k) || has_key k' (VDict d).
Proof.
  unfold has_key. induction d as [|[k0 y] d IH]; cbn in *; [by rewrite orb_false_r|]. destruct (bool_decide (k0 = k)) eqn:E; cbn.
  - apply bool_decide_eq_true in E as ->. by destruct (bool_decide (k' = k)).
  - rewrite IH. by destruct (bool_decide (k' = k0)), (bool_decide (k' = k)).
Qed.

(** ** Values that can be written *)

Definition scalars (s : pystr) : bool := forallb is_scalar (code_points s).
Fixpoint clean (v : value) : bool :=
  match v with
  | VStr s | VFloat s => scalars s
  | VList l => forallb clean l
  | VDict d => forallb (fun kx => scalars kx.1 && clean kx.2) d
  | _ => true
  end.
Lemma scalars_app s t : scalars (s +:+ t) = scalars s && scalars t.
Proof. unfold scalars. cbn. apply forallb_app. Qed.
Lemma scalar_digits l : forallb is_digit l = true -> forallb is_scalar l = true.
Proof. rewrite !forallb_forall. intros H x Hx. apply H in Hx. unfold is_digit, is_scalar in *. bool_inv. apply orb_true_iff. left. apply andb_true_iff. split; lia. Qed.
Lemma int_chars_scalar z : forallb is_scalar (int_chars z) = true.
Proof.
  unfold int_chars. destruct (z <? 0) eqn:E; [|apply Z.ltb_ge in E].
  - apply Z.ltb_lt in E. destruct (digits_spec (- z)) as (c & ds & -> & Hd & _); [lia|]. change (forallb is_scalar (45 :: c :: ds)) with (forallb is_scalar (c :: ds)). by apply scalar_digits.
  - destruct (digits_spec z) as (c & ds & -> & Hd & _); [lia|]. by apply scalar_digits.
Qed.
Lemma int_str_scalars z : scalars (int_str z) = true.
Proof. apply int_chars_scalar. Qed.
Lemma dump_str_scalar s : scalars s = true -> forallb is_scalar (dump_str s) = true.
Proof.
  unfold scalars, dump_str. intros H. cbn [forallb]. rewrite forallb_app. cbn. rewrite andb_true_r. revert H. induction (code_points s) as [|c l IH]; [done|]. cbn [forallb map concat].
  rewrite forallb_app. intros [Hc Hl]%andb_prop. rewrite IH by done. rewrite andb_true_r. unfold escape_char. repeat case_match; cbn; rewrite ?Hc; try done.
  assert (32 > c) as Hlt by (match goal with H : (c <? 32) = true |- _ => apply Z.ltb_lt in H; lia end). unfold is_scalar in Hc. bool_inv.
  assert (0 <= c) by (apply orb_prop in Hc as [?|?]; bool_inv; lia). unfold is_scalar, hex_char.
  assert (forall d, 0 <= d < 16 -> is_scalar (if d <? 10 then 48 + d else 87 + d) = true) as Hh.
  { intros d Hd. unfold is_scalar. destruct (d <? 10) eqn:E; apply orb_true_iff; left; apply andb_true_iff; split; lia. }
  rewrite !andb_true_r. apply andb_true_iff. split; [apply (Hh (c / 16))|apply (Hh (c mod 16))]; Z.to_euclidean_division_equations; lia.
Qed.
Lemma dump_scalar_leaf v : match v with VList _ | VDict _ => True | _ => clean v = true -> forallb is_scalar (dump v) = true end.
Proof. destruct v as [|[]|z|s|s| |]; try done; cbn [dump clean]; intros H; [apply int_chars_scalar|by apply dump_str_scalar]. Qed.
Lemma dump_spaced_scalar v : clean v = true -> forallb is_scalar (dump_spaced v) = true.
Proof.
  induction v as [|b|z|r|s|l IH|d IH] using value_nested_ind; intros H.
  1-5: match goal with |- forallb _ (dump_spaced ?v) = _ => exact (dump_scalar_leaf v H) end.
  - cbn [dump_spaced forallb]. cbn [clean] in H. change (is_scalar 91) with true. cbn [andb]. revert H. induction IH as [|v l Hv Hl IHl]; [done|]. cbn [forallb]. intros [Hc Hcl]%andb_prop.
    specialize (IHl Hcl). destruct l as [|w l]; rewrite forallb_app, Hv by done; [done|]. cbn [andb forallb]. exact IHl.
  - cbn [dump_spaced forallb]. cbn [clean] in H. change (is_scalar 123) with true. cbn [andb]. revert H. induction IH as [|[k v] d Hv Hd IHd]; [done|]. cbn [forallb fst snd] in *.
    intros [[Hk Hc]%andb_prop Hcd]%andb_prop. specialize (IHd Hcd). pose proof (dump_str_scalar k Hk) as Hks.
    destruct d as [|[k' v'] d]; rewrite forallb_app, Hks; cbn [andb forallb]; change (is_scalar 58) with true; change (is_scalar 32) with true; cbn [andb]; rewrite forallb_app, Hv by done; [done|].
    cbn [andb forallb]. exact IHd.
Qed.
Lemma json_size_Ok v : clean v = true -> exists size, json_size v = Ok size.
Proof. intros H. unfold json_size, encode, utf8_encode, dumped_spaced. cbn [code_points]. rewrite dump_spaced_scalar by done. by eexists. Qed.
Lemma clean_get k v : clean v = true -> clean (get k v) = true.
Proof.
  destruct v; try done. cbn [get clean]. induction d as [|[k' x] d IH]; [done|]. cbn [forallb dict_get fst snd]. intros [[_ Hx]%andb_prop Hd]%andb_prop. case_bool_decide; auto.
Qed.
Lemma clean_set k x v : scalars k = true -> clean x = true -> clean v = true -> clean (dict_set k x v) = true.
Proof.
  intros Hk Hx. destruct v; try done. cbn [dict_set clean]. induction d as [|[k' y] d IH]; [cbn; by rewrite Hk, Hx|]. cbn [forallb assoc_set fst snd].
  intros [[Hk' Hy]%andb_prop Hd]%andb_prop. case_bool_decide; cbn [forallb fst snd]; [by rewrite Hk, Hx, Hd|]. by rewrite Hk', Hy, IH.
Qed.
Lemma clean_update l v : forallb (fun kx => scalars kx.1 && clean kx.2) l = true -> clean v = true -> clean (dict_update l v) = true.
Proof.
  revert v. induction l as [|[k x] l IH]; intros v; [done|]. cbn [forallb fst snd]. intros [[Hk Hx]%andb_prop Hl]%andb_prop Hv. apply IH; [done|]. by apply clean_set.
Qed.

(** ** One page *)

Lemma encode_Ok s : scalars s = true -> encode s = Ok (encode_cps (code_points s)).
Proof. unfold encode, utf8_encode, scalars. by intros ->. Qed.
Definition is_vint (v : value) : bool := match v with VInt _ => true | _ => false end.
Lemma get_has_key k v : get k v <> VNone -> has_key k v = true.
Proof.
  destruct v; try done. cbn [get has_key]. induction d as [|[k' x] d IH]; [done|]. cbn [dict_get existsb fst]. case_bool_decide; [done|]. intros Hx. by rewrite IH.
Qed.
Lemma need_get k v x : get k v = x -> x <> VNone -> need k v = Ok x.
Proof. intros <- Hx. unfold need. rewrite get_has_key by done. by destruct v. Qed.
Lemma need_int_get k v z : get k v = VInt z -> need_int k v = Ok z.
Proof. intros H. unfold need_int. by rewrite (need_get k v _ H). Qed.

Definition locator_ok (l : value) : bool := is_none l || (is_dict l && is_vint (get "startByte" l) && is_vint (get "startLine" l) && is_vint (get "endLine" l)).
Definition range_ok (v : value) : bool := match v with VList [VInt _; VInt _; VInt _] => true | _ => false end.
(** a result as [read_evidence] and [search_evidence] make it *)
Definition item_ok (snapshot original : value) : bool :=
  is_dict original && clean original && locator_ok (get "locator" original) && match get "content" original with VStr _ => true | _ => false end
  && (negb (has_key "totalLines" original) || is_vint (get "totalLines" original))
  && (bool_decide (result_key snapshot = "hits")
      || (is_vint (get "startLine" original) && is_vint (get "endLine" original) && (is_none (get "nextOffset" original) || negb (is_none (get "inputRef" original)))))
  && match page_ranges snapshot original with Ok ranges => forallb range_ok ranges | Err _ => false end.

Lemma range_pages_Ok begin end_ ranges : forallb range_ok ranges = true -> exists pages, range_pages begin end_ ranges = Ok pages.
Proof.
  induction ranges as [|v ranges IH]; [by eexists|]. cbn [forallb]. intros [Hv Hr]%andb_prop. destruct (IH Hr) as [pages Hp].
  destruct v as [| | | | |[|[| |a| | | |] [|[| |b| | | |] [|[| |p| | | |] [|]]]]|]; try done. cbn [range_pages]. rewrite Hp. by eexists.
Qed.
Lemma optional_int_clean o : clean (optional_int o) = true.
Proof. by destruct o. Qed.

(** the locator of a part *)
Definition shifted (l l' : value) (offset size : Z) : Prop :=
  exists start, get "startByte" l = VInt start /\ get "startByte" l' = VInt (start + offset) /\ get "endByte" l' = VInt (start + offset + size).
Lemma located_Ok snapshot original offset prefix text : item_ok snapshot original = true -> scalars text = true ->
  exists l, located snapshot original offset prefix text = Ok l /\ clean l = true /\ (l = VNone \/ is_dict l = true /\ (exists a b, get "startLine" l = VInt a /\ get "endLine" l = VInt b))
    /\ (get "locator" original = VNone -> l = VNone)
    /\ (get "locator" original <> VNone -> text <> "" -> shifted (get "locator" original) l offset (zlen (encode_cps (code_points text)))).
Proof.
  intros Hok Ht. unfold item_ok in Hok. bool_inv. set (l := get "locator" original) in *. assert (clean l = true) as Hcl by (by apply clean_get). unfold located. fold l.
  match goal with H : locator_ok l = true |- _ => unfold locator_ok in H; apply orb_prop in H as [Hn|Hl] end.
  { destruct l; try done. exists VNone. by split_and!; [|done|left|..]. }
  bool_inv. destruct (get "startByte" l) as [| |start| | | |] eqn:Es; try done. destruct (get "startLine" l) as [| |line| | | |] eqn:El; try done. destruct (get "endLine" l) as [| |eline| | | |] eqn:Ee; try done.
  assert (is_none l = false) as Hn by (by destruct l). rewrite Hn. cbn [orb]. destruct (is_empty text) eqn:Et.
  { exists l. split_and!; [done|done|right; split; [done|eauto]|by intros E; rewrite E in Hn|]. intros _ Hne. apply is_empty_true in Et. done. }
  rewrite (need_int_get _ _ _ Es), (encode_Ok _ Ht), (need_int_get _ _ _ El). cbn [mbind res_bind]. set (data := encode_cps _).
  destruct (page_ranges snapshot original) as [ranges|e]; [|done]. cbn [mbind res_bind].
  match goal with |- context [dict_update ?u l] => set (upd := u); set (l1 := dict_update upd l) end.
  assert (clean l1 = true) as Hc1 by (apply clean_update; done). assert (is_dict l1 = true) as Hd1 by (unfold l1; by rewrite dict_update_dict).
  assert (get "startByte" l1 = VInt (start + offset) /\ get "endByte" l1 = VInt (start + offset + zlen data)
    /\ exists a b, get "startLine" l1 = VInt a /\ get "endLine" l1 = VInt b) as (G1 & G2 & a & b & G3 & G4).
  { unfold l1. rewrite !get_dict_update by done. split; [reflexivity|]. split; [reflexivity|]. by do 2 eexists. }
  destruct ranges as [|r0 ranges]; [exists l1; split_and!; [done|done|right; eauto|by intros E; rewrite E in Hn|intros _ _; by exists start]|].
  destruct (range_pages_Ok (start + offset) (start + offset + zlen data) (r0 :: ranges)) as [pages ->]; [done|]. cbn [mbind res_bind]. eexists. split; [done|].
  split; [apply clean_update; [cbn; by rewrite !optional_int_clean|done]|]. split; [right; rewrite dict_update_dict; split; [done|]; exists a, b; by rewrite !get_dict_update|].
  split; [by intros E; rewrite E in Hn|]. intros _ _. exists start. rewrite !get_dict_update by done. done.
Qed.

(** the cursor after a part that ends at [end_] *)
Definition cursor_after (count index size end_ : Z) : option pystr :=
  if end_ <? size then Some (cursor_str index end_) else if index + 1 <? count then Some (cursor_str (index + 1) 0) else None.
(** [item] is the part [text] of [original], which begins at [offset] *)
Definition part_of (original item : value) (offset : Z) (text : pystr) : Prop :=
  get "content" item = VStr text /\ get "evidenceSha256" item = VStr (sha256_tag (encode_cps (code_points text)))
  /\ get "representationId" item = get "representationId" original /\ get "inputRef" item = get "inputRef" original
  /\ (text = "" -> get "locator" item = VNone /\ get "citationAllowed" item = VBool false)
  /\ (get "locator" original <> VNone -> text <> "" -> shifted (get "locator" original) (get "locator" item) offset (zlen (encode_cps (code_points text)))).
(** the pages that [candidate_page] makes *)
Definition page_of (snapshot page : value) (items : list value) (next : option pystr) : Prop :=
  clean page = true /\ is_dict page = true /\ result_key page = result_key snapshot /\ has_key "hits" page = bool_decide (result_key snapshot = "hits")
  /\ get (result_key snapshot) page = VList items /\ next_cursor page = next.
Lemma result_key_cases snapshot : result_key snapshot = "items" \/ result_key snapshot = "hits".
Proof. unfold result_key. case_match; auto. Qed.
Lemma cursor_str_scalars i e : scalars (cursor_str i e) = true.
Proof. unfold cursor_str. by rewrite !scalars_app, !int_str_scalars. Qed.
Lemma cursor_after_clean count index size end_ c : cursor_after count index size end_ = Some c -> scalars c = true.
Proof. unfold cursor_after. repeat case_match; intros [= <-]; apply cursor_str_scalars. Qed.
Lemma sha256_tag_scalars b : scalars (sha256_tag b) = true.
Proof.
  unfold sha256_tag. rewrite scalars_app. cbn [andb]. unfold scalars. change (forallb is_scalar (code_points "sha256:")) with true. cbn [andb].
  destruct (sha256_hex_wf b) as [_ H]. unfold chars_all in H. rewrite forallb_forall in *. intros x Hx. apply H in Hx. unfold is_lower_hex, is_scalar in *.
  apply orb_true_iff. left. apply orb_prop in Hx as [Hx|Hx]; bool_inv; apply andb_true_iff; split; lia.
Qed.
Lemma dumped_spaced_scalars v : clean v = true -> scalars (dumped_spaced v) = true.
Proof. apply dump_spaced_scalar. Qed.
Lemma truthy_dict k v z : get k v = VInt z -> truthy v = true.
Proof. by destruct v as [| | | | | |[|]]. Qed.

Definition lines_ok (l : value) : Prop := l = VNone \/ is_dict l = true /\ exists a b, get "startLine" l = VInt a /\ get "endLine" l = VInt b.
Lemma line_Ok (items : bool) k l original : k = "startLine" \/ k = "endLine" -> lines_ok l -> items = false \/ is_vint (get k original) = true ->
  exists v, (if items then if truthy l then need k l else need k original else Ok VNone) = Ok v /\ clean v = true.
Proof.
  intros Hk Hl Ho. destruct items; [|by eexists]. destruct Ho as [|Ho]; [done|]. destruct Hl as [->|(_ & a & b & Ha & Hb)].
  - cbn [truthy]. exists (get k original). rewrite (need_get k original (get k original) eq_refl) by (by destruct (get k original)). split; [done|]. by destruct (get k original).
  - rewrite (truthy_dict _ _ _ Ha). destruct Hk as [->| ->]; eexists; (split; [by apply need_get|done]).
Qed.
Lemma line_range_Ok l : lines_ok l -> exists s, (if truthy l then a ← need_int "startLine" l; b ← need_int "endLine" l; Ok ("lines " +:+ int_str a +:+ dash +:+ int_str b)
  else Ok ("empty content" : pystr)) = Ok s /\ scalars s = true.
Proof.
  intros [->|(_ & a & b & Ha & Hb)]; [by eexists|]. rewrite (truthy_dict _ _ _ Ha), (need_int_get _ _ _ Ha), (need_int_get _ _ _ Hb). cbn [mbind res_bind]. eexists. split; [done|].
  by rewrite !scalars_app, !int_str_scalars.
Qed.
Lemma total_Ok original : negb (has_key "totalLines" original) || is_vint (get "totalLines" original) = true ->
  exists s, (if has_key "totalLines" original then n ← need_int "totalLines" original; Ok (" of " +:+ int_str n) else Ok ("" : pystr)) = Ok s /\ scalars s = true.
Proof.
  intros H. destruct (has_key "totalLines" original); [|by eexists]. cbn in H. destruct (get "totalLines" original) as [| |z| | | |] eqn:E; try done. rewrite (need_int_get _ _ _ E).
  eexists. split; [done|]. by rewrite scalars_app, int_str_scalars.
Qed.
(** the cursor of a continuation *)
Definition continues (continuation : value) (next : option pystr) : Prop :=
  clean continuation = true /\ (if is_str "read_material_result" (get "tool" continuation) then as_str (get "cursor" (get "arguments" continuation)) else None) = next.
Lemma continuation_Ok (items : bool) ref next original : scalars ref = true -> (forall c, next = Some c -> scalars c = true) -> clean original = true ->
  items = false \/ is_none (get "nextOffset" original) || negb (is_none (get "inputRef" original)) = true ->
  exists v, match next with
    | Some c => Ok (cursor_call ref c)
    | None =>
        if items && negb (is_none (get "nextOffset" original)) then
          input_ref ← need "inputRef" original;
          Ok (VDict [("tool", VStr "read_material");
                     ("arguments", VDict [("input_ref", input_ref); ("offset", get "nextOffset" original);
                                          ("limit", if has_key "maxLines" original then get "maxLines" original else VInt 2000)])])
        else Ok VNone
    end = Ok v /\ continues v next.
Proof.
  intros Hr Hc Ho Hi. destruct next as [c|].
  - eexists. split; [done|]. unfold continues, cursor_call. cbn. by rewrite Hr, Hc.
  - destruct (items && negb (is_none (get "nextOffset" original))) eqn:E; [|by eexists]. bool_inv. subst items. destruct Hi as [|Hi]; [done|].
    destruct (is_none (get "nextOffset" original)); [done|]. cbn in Hi. rewrite (need_get "inputRef" original _ eq_refl) by (by destruct (get "inputRef" original)). cbn [mbind res_bind].
    eexists. split; [done|]. split; [|done]. cbn. rewrite !clean_get by done. by case_match; [rewrite clean_get|].
Qed.

Lemma page_shape snapshot message ref continuation next item : clean snapshot = true -> scalars message = true -> scalars ref = true -> continues continuation next -> clean item = true ->
  page_of snapshot (VDict [("message", VStr message); ("disposition", VStr "ready"); ("resultRef", VStr ref); ("completeResultSaved", VBool true); ("resultSha256", get "_digest" snapshot);
    ("continuation", continuation); (result_key snapshot, VList [item])]) [item] next.
Proof.
  intros Hs Hm Hr [Hc Hn] Hi. unfold page_of. destruct (result_key_cases snapshot) as [->| ->]; (split; [cbn; by rewrite Hm, Hr, clean_get, Hc, Hi|]); split_and!; done.
Qed.
(** the later assignments leave what makes the part *)
Lemma part_kept original offset text (items : bool) cited l v1 v2 v3 v4 v5 v6 v7 v8 v9 :
  is_dict original = true -> (get "locator" original <> VNone -> text <> "" -> shifted (get "locator" original) l offset (zlen (encode_cps (code_points text)))) ->
  let item := dict_update [("content", VStr text); ("evidenceSha256", VStr (sha256_tag (encode_cps (code_points text))));
                           ("citationAllowed", if is_empty text then VBool false else cited); ("locator", if is_empty text then VNone else l)] original in
  let item := if items then dict_update [("outputBytes", v1); ("startLine", v2); ("endLine", v3); ("pageStart", v4); ("pageEnd", v5)] item else item in
  part_of original (if items then dict_update [("nextOffset", v6); ("truncated", v7); ("firstLineExceedsLimit", v8); ("truncatedBy", v9)] item else item) offset text.
Proof.
  intros Hd Hp. cbn zeta. set (item := dict_update _ original). assert (is_dict item = true) as Hi by (unfold item; by rewrite dict_update_dict).
  unfold part_of. assert (forall k, k ∈ ["content"; "evidenceSha256"; "representationId"; "inputRef"; "locator"; "citationAllowed"] ->
    get k (if items then dict_update [("nextOffset", v6); ("truncated", v7); ("firstLineExceedsLimit", v8); ("truncatedBy", v9)]
      (if items then dict_update [("outputBytes", v1); ("startLine", v2); ("endLine", v3); ("pageStart", v4); ("pageEnd", v5)] item else item)
      else (if items then dict_update [("outputBytes", v1); ("startLine", v2); ("endLine", v3); ("pageStart", v4); ("pageEnd", v5)] item else item)) = get k item) as Hg.
  { intros k Hk. destruct items; [|done]. rewrite !get_dict_update by (by rewrite ?dict_update_dict). rewrite !elem_of_cons, elem_of_nil in Hk. by destruct_or! Hk; subst k. }
  rewrite !Hg by (rewrite !elem_of_cons; tauto). unfold item. rewrite !get_dict_update by done. cbn [assigned]. split_and!; try reflexivity; intros H.
  - by rewrite H.
  - intros Hne. destruct (is_empty text) eqn:E; [by apply is_empty_true in E|]. by apply Hp.
Qed.
Lemma candidate_Ok snapshot ref count index offset original raw prefix text :
  item_ok snapshot original = true -> clean snapshot = true -> scalars ref = true -> scalars text = true ->
  exists page item, candidate_page snapshot ref count index offset original raw prefix text = Ok page
    /\ page_of snapshot page [item] (cursor_after count index (zlen raw) (offset + zlen (encode_cps (code_points text)))) /\ part_of original item offset text.
Proof.
  intros Hok Hs Hr Ht. destruct (located_Ok snapshot original offset prefix text Hok Ht) as (l & Hl & Hcl & Hsh & Hn & Hp). unfold item_ok in Hok. bool_inv.
  unfold candidate_page. rewrite (encode_Ok _ Ht), Hl. cbn [mbind res_bind]. set (data := encode_cps _) in *. set (end_ := offset + zlen data).
  fold (cursor_after count index (zlen raw) end_). set (next := cursor_after count index (zlen raw) end_). set (items := bool_decide (result_key snapshot = "items")).
  assert (items = false \/ is_vint (get "startLine" original) = true /\ is_vint (get "endLine" original) = true /\ is_none (get "nextOffset" original) || negb (is_none (get "inputRef" original)) = true) as Hi.
  { unfold items. destruct (result_key_cases snapshot) as [E|E]; rewrite E in *; [right|by left]. match goal with H : bool_decide ("items" = "hits") || _ = true |- _ => change (bool_decide (("items" : pystr) = "hits")) with false in H; cbn [orb] in H end. bool_inv. done. }
  destruct (line_Ok items "startLine" l original (or_introl eq_refl) Hsh) as (v1 & E1 & Hv1); [tauto|]. destruct (line_Ok items "endLine" l original (or_intror eq_refl) Hsh) as (v2 & E2 & Hv2); [tauto|].
  destruct (line_range_Ok l Hsh) as (lr & E3 & Hlr). destruct (total_Ok original) as (tot & E4 & Htot); [done|].
  destruct (continuation_Ok items ref next original Hr (cursor_after_clean _ _ _ _) ltac:(done)) as (k & E5 & Hk); [tauto|].
  rewrite E1, E2, E5, E3, E4. cbn [mbind res_bind].
  match goal with |- context [dict_update ?u original] => set (upd := u); set (item0 := dict_update upd original) end.
  match goal with |- context [(result_key snapshot, VList [?i])] => set (item := i) end.
  match goal with |- context [("message", VStr ?m)] => set (message := m) end.
  assert (clean (get "locator" original) = true) as Hcl0 by (by apply clean_get).
  assert (clean item0 = true) as Hc0.
  { apply clean_update; [|assumption]. unfold upd. cbn [forallb fst snd clean]. rewrite Ht, sha256_tag_scalars.
    destruct (is_empty text), (has_key "citationAllowed" original); rewrite ?Hcl, ?clean_get by assumption; reflexivity. }
  assert (clean item = true) as Hc1.
  { unfold item. destruct items; [|exact Hc0]. clearbody item0. apply clean_update; [|apply clean_update; [|exact Hc0]]; cbn [forallb fst snd clean]; rewrite ?Hv1, ?Hv2.
    - destruct next; cbn [clean]; rewrite ?clean_get by assumption; reflexivity.
    - destruct (truthy l); rewrite ?clean_get by assumption; reflexivity. }
  assert (scalars message = true) as Hm.
  { unfold message. rewrite !scalars_app, !int_str_scalars, Hlr, Htot. destruct (is_none k); [reflexivity|]. rewrite scalars_app, (dumped_spaced_scalars k (proj1 Hk)). reflexivity. }
  eexists _, item. split; [reflexivity|]. split; [by apply page_shape|]. apply part_kept; [done..|by intros ? ?%Hp].
Qed.

(** ** Cursors *)

Lemma split_on_none sep l : forallb (fun c => negb (c =? sep)) l = true -> split_on sep l = [l].
Proof. induction l as [|c l IH]; [done|]. cbn. intros [Hc Hl]%andb_prop. apply negb_true_iff in Hc. by rewrite Hc, IH. Qed.
Lemma split_on_two sep a b : forallb (fun c => negb (c =? sep)) a = true -> forallb (fun c => negb (c =? sep)) b = true -> split_on sep (a ++ sep :: b) = [a; b].
Proof.
  intros Ha Hb. induction a as [|c a IH]; cbn.
  - rewrite Z.eqb_refl. by rewrite split_on_none.
  - cbn in Ha. apply andb_prop in Ha as [Hc Ha]. apply negb_true_iff in Hc. by rewrite Hc, IH.
Qed.
Lemma digits_no_colon l : forallb is_digit l = true -> forallb (fun c => negb (c =? 58)) l = true.
Proof. rewrite !forallb_forall. intros H x Hx. apply H in Hx. unfold is_digit in Hx. bool_inv. apply negb_true_iff. lia. Qed.
Lemma digits_of_int n z : 0 <= z < 10 ^ n -> 1 <= n -> digits_of n (int_chars z) = true /\ digits_value (int_chars z) = z.
Proof.
  intros [Hz Hlt] Hn. unfold int_chars. replace (z <? 0) with false by lia. destruct (digits_spec z Hz) as (c & ds & -> & Hd & Hv & H0). split; [|done].
  unfold digits_of. rewrite Hd, andb_true_r. pose proof (zlen_nonneg ds). rewrite zlen_cons. apply andb_true_iff. split; [lia|]. apply Z.leb_le.
  destruct (decide (c = 48)) as [->|Hc]; [destruct (H0 eq_refl) as [_ ->]; rewrite zlen_nil; lia|].
  assert (10 ^ (zlen (c :: ds) - 1) <= z) as Hl.
  { rewrite <- Hv. apply digits_value_lower; [|done|done]. rewrite Forall_forall. intros x Hx. rewrite forallb_forall in Hd. apply Hd. by apply list_elem_of_In. }
  rewrite zlen_cons in Hl. assert (1 + zlen ds - 1 < n); [|lia]. apply (Z.pow_lt_mono_r_iff 10); lia.
Qed.
(** A cursor is read as it was written. *)
Lemma parse_cursor_str i e : 0 <= i < 10 ^ 10 -> 0 <= e < 10 ^ 12 -> parse_cursor (VStr (cursor_str i e)) = Some (i, e).
Proof.
  intros Hi He. destruct (digits_of_int 10 i Hi) as [Di Vi]; [lia|]. destruct (digits_of_int 12 e He) as [De Ve]; [lia|].
  unfold parse_cursor, cursor_str. change (code_points (int_str i +:+ ":" +:+ int_str e)) with (int_chars i ++ 58 :: int_chars e).
  rewrite split_on_two by (apply digits_no_colon; unfold digits_of in *; bool_inv; assumption). by rewrite Di, De, Vi, Ve.
Qed.

(** The part of a text after its first characters. *)
Lemma continuation_byte_range b : 0 <= b < 256 -> continuation_byte b = is_cont b.
Proof.
  intros Hb. assert (forallb (fun n => Bool.eqb (continuation_byte (Z.of_nat n)) (is_cont (Z.of_nat n))) (seq 0 256) = true) as H by (vm_compute; reflexivity).
  rewrite forallb_forall in H. specialize (H (Z.to_nat b)). rewrite Z2Nat.id in H by lia. apply eqb_prop, H, in_seq. lia.
Qed.
Lemma first_byte c l : is_scalar c = true -> exists b r, encode_cps (c :: l) = b :: r /\ continuation_byte b = false.
Proof.
  intros Hc. pose proof (encode_cp_bytes c Hc) as Hb. change (encode_cps (c :: l)) with (encode_cp c ++ encode_cps l). unfold is_scalar in Hc. unfold encode_cp in *.
  assert (0 <= c < 1114112) by (apply orb_prop in Hc as [?|?]; bool_inv; lia).
  repeat case_match; cbn [app]; do 2 eexists; (split; [reflexivity|]); apply Forall_cons_1 in Hb as [Hb _]; rewrite continuation_byte_range by done; unfold is_cont; bool_inv;
    apply andb_false_iff; first [left; lia|right; lia|right; apply Z.ltb_ge; Z.to_euclidean_division_equations; lia].
Qed.
(** the content of a result is [p] followed by [r] *)
Definition split_content (original : value) (p r : list Z) : Prop := get "content" original = VStr (PyStr (p ++ r)) /\ forallb is_scalar (p ++ r) = true.
Lemma decode_encoded l : forallb is_scalar l = true -> utf8_decode (encode_cps l) = Some (PyStr l).
Proof. intros H. apply utf8_decode_encode. unfold utf8_encode. cbn [code_points]. by rewrite H. Qed.
Lemma list_lookup_middle_at {A} (l k : list A) : (l ++ k) !! length l = k !! 0%nat.
Proof. rewrite lookup_app_r by lia. by rewrite Nat.sub_diag. Qed.
Lemma rest_of_split original p r : split_content original p r -> rest_of original (zlen (encode_cps p)) = Ok (encode_cps (p ++ r), PyStr p, PyStr r).
Proof.
  intros [Hc Hs]. rewrite forallb_app in Hs. apply andb_prop in Hs as [Hp Hr]. unfold rest_of, need_str. rewrite (need_get _ _ _ Hc) by done. cbn [mbind res_bind as_str from_option_res].
  rewrite encode_Ok by (unfold scalars; cbn [code_points]; by rewrite forallb_app, Hp, Hr). cbn [mbind res_bind code_points]. rewrite encode_cps_app, zlen_app. pose proof (zlen_nonneg (encode_cps r)).
  replace (zlen (encode_cps p) + zlen (encode_cps r) <? zlen (encode_cps p)) with false by lia. cbn [orb].
  assert (Z.to_nat (zlen (encode_cps p)) = length (encode_cps p)) as -> by (unfold zlen; lia). rewrite (list_lookup_middle_at (encode_cps p)).
  assert (match encode_cps r !! 0%nat with Some b => continuation_byte b | None => false end = false) as ->.
  { destruct r as [|c r]; [done|]. cbn in Hr. apply andb_prop in Hr as [Hrc _]. destruct (first_byte c r Hrc) as (b & rest & -> & Hb). done. }
  cbn [negb require mbind res_bind]. rewrite take_app_length, drop_app_length, !decode_encoded by done. done.
Qed.

(** ** The search for the longest part *)

Lemma search_count_spec fits low high fuel : 0 <= low <= high -> high - low <= Z.of_nat fuel -> (forall n, low <= n <= high -> exists b, fits n = Ok b) ->
  exists n, search_count fuel fits low high = Ok n /\ low <= n <= high /\ (n = low \/ fits n = Ok true) /\ (fits 1 = Ok true -> 1 <= high -> 1 <= n).
Proof.
  revert low high. induction fuel as [|fuel IH]; intros low high Hlh Hf Hall; cbn [search_count].
  { exists low. split_and!; [done|lia|lia|by left|lia]. }
  destruct (Z.ltb_spec low high) as [Hlt|Hge]; [|exists low; split_and!; [done|lia|lia|by left|lia]].
  set (middle := (low + high + 1) / 2). assert (low < middle <= high) as Hm by (unfold middle; Z.to_euclidean_division_equations; lia).
  destruct (Hall middle ltac:(lia)) as [[] Em]; rewrite Em; cbn [mbind res_bind].
  - destruct (IH middle high) as (n & -> & Hn & Hor & H1); [lia|lia|intros; apply Hall; lia|]. exists n. split_and!; [done|lia|lia| |lia]. destruct Hor as [->|]; by right.
  - destruct (IH low (middle - 1)) as (n & -> & Hn & Hor & H1); [lia|lia|intros; apply Hall; lia|]. exists n. split_and!; [done|lia|lia|done|]. intros Hf1 _. apply H1; [done|].
    destruct (decide (middle = 1)) as [E|]; [rewrite E in Em; congruence|lia].
Qed.

(** ** What a client has been shown *)

Definition content_of (v : value) : list Z := match get "content" v with VStr s => code_points s | _ => [] end.
(** a position: the number of a result, and how many of its characters came before *)
Definition position : Type := nat * nat.
Definition offset_at (original : value) (k : nat) : Z := zlen (encode_cps (take k (content_of original))).
Definition next_position (values : list value) (i k size : nat) : option position :=
  if Nat.ltb k size then Some (i, k) else if Nat.ltb (S i) (length values) then Some (S i, 0%nat) else None.
(** [item] shows a part of the result at a position, which is not empty unless the result ends there; the next position follows it *)
Definition part_step (values : list value) (at_ : position) (item : value) (next : option position) : Prop :=
  let '(i, k) := at_ in
  exists original m, values !! i = Some original /\ part_of original item (offset_at original k) (PyStr (take m (drop k (content_of original))))
    /\ (k + m <= length (content_of original))%nat /\ (k < length (content_of original) -> 1 <= m)%nat /\ next = next_position values i (k + m) (length (content_of original)).
(** items that show the results from a position on, without gaps and without overlaps *)
Inductive parts (values : list value) : position -> list value -> option position -> Prop :=
  | parts_one at_ item next : part_step values at_ item next -> parts values at_ [item] next
  | parts_more at_ item at' items next : part_step values at_ item (Some at') -> parts values at' items next -> parts values at_ (item :: items) next.
Lemma parts_app values at_ items at' items' next : parts values at_ items (Some at') -> parts values at' items' next -> parts values at_ (items ++ items') next.
Proof. intros H. remember (Some at') as next' eqn:E. revert E. induction H; intros E Hp; subst; cbn; econstructor; eauto. Qed.

(** the page of a result with its first character *)
Definition smallest_page_fits (snapshot : value) (ref : pystr) (values : list value) (i k : nat) : bool :=
  match values !! i with
  | Some original =>
      let p := take k (content_of original) in let r := drop k (content_of original) in
      match candidate_page snapshot ref (zlen values) (Z.of_nat i) (zlen (encode_cps p)) original (encode_cps (p ++ r)) (PyStr p) (str_take 1 (PyStr r)) ≫= within_budget with
      | Ok fits => fits
      | Err _ => false
      end
  | None => false
  end.
(** A saved result that can be delivered: its results are as [read_evidence] and [search_evidence] make them, their number and
    their sizes fit a cursor, and no metadata is so long that not even one character fits a page. *)
Definition deliverable (snapshot : value) (ref : pystr) (values : list value) : bool :=
  clean snapshot && scalars ref && forallb (item_ok snapshot) values
  && (zlen values <=? 10 ^ 10) && forallb (fun v => zlen (encode_cps (content_of v)) <=? 10 ^ 12) values
  && forallb (fun i => match values !! i with Some v => forallb (smallest_page_fits snapshot ref values i) (seq 0 (S (length (content_of v)))) | None => true end) (seq 0 (length values)).

Lemma match_nonempty {A B} (l : list A) (x y : B) : l <> [] -> match l with [] => x | _ => y end = y.
Proof. by destruct l. Qed.

Section Delivery.
Context (snapshot : value) (ref : pystr) (values : list value) (Hvalues : result_values snapshot = Ok values) (Hd : deliverable snapshot ref values = true).

Lemma deliverable_facts : clean snapshot = true /\ scalars ref = true /\ zlen values <= 10 ^ 10.
Proof. unfold deliverable in Hd. bool_inv. split_and!; try done; lia. Qed.
Lemma deliverable_item i original : values !! i = Some original -> item_ok snapshot original = true /\ zlen (encode_cps (content_of original)) <= 10 ^ 12
  /\ forall k, (k <= length (content_of original))%nat -> smallest_page_fits snapshot ref values i k = true.
Proof.
  intros Hi. pose proof (lookup_lt_Some _ _ _ Hi) as Hlt. pose proof (list_elem_of_lookup_2 _ _ _ Hi) as Hin%list_elem_of_In. unfold deliverable in Hd. bool_inv.
  repeat match goal with H : forallb _ _ = true |- _ => rewrite forallb_forall in H end. split_and!.
  - by auto.
  - match goal with H : forall x, In x values -> (_ <=? _) = true |- _ => apply H in Hin; lia end.
  - intros k Hk. match goal with H : forall x, In x (seq 0 (length values)) -> _ |- _ => specialize (H i); rewrite Hi in H; rewrite forallb_forall in H; apply H; rewrite in_seq; lia end.
Qed.
Lemma item_content i original : values !! i = Some original -> forall k, split_content original (take k (content_of original)) (drop k (content_of original)).
Proof.
  intros Hi k. destruct (deliverable_item i original Hi) as [Hok _]. unfold item_ok in Hok. bool_inv. unfold split_content, content_of. rewrite take_drop.
  destruct (get "content" original) as [| | | |s| |] eqn:E; try done. split; [by destruct s|]. pose proof (clean_get "content" original ltac:(done)) as Hc. rewrite E in Hc. exact Hc.
Qed.

Definition cursor_at (at_ : position) : pystr :=
  cursor_str (Z.of_nat at_.1) (match values !! at_.1 with Some original => offset_at original at_.2 | None => 0 end).
(** a position in the results *)
Definition inside (at_ : position) : Prop := exists original, values !! at_.1 = Some original /\ (at_.2 < length (content_of original) \/ at_.2 = 0)%nat.
Lemma encode_cps_split (l : list Z) k m : (k + m <= length l)%nat -> zlen (encode_cps (take k l)) + zlen (encode_cps (take m (drop k l))) = zlen (encode_cps (take (k + m) l)).
Proof. intros H. rewrite <- zlen_app, <- encode_cps_app. f_equal. f_equal. by rewrite take_take_drop. Qed.
Lemma encoded_prefix (l : list Z) k : (k <= length l)%nat -> zlen (encode_cps (take k l)) <= zlen (encode_cps l) /\ ((k < length l)%nat <-> zlen (encode_cps (take k l)) < zlen (encode_cps l)).
Proof.
  intros H. assert (zlen (encode_cps l) = zlen (encode_cps (take k l)) + zlen (encode_cps (drop k l))) as -> by (rewrite <- zlen_app, <- encode_cps_app; by rewrite take_drop). pose proof (zlen_nonneg (encode_cps (drop k l))). pose proof (encode_cps_length (drop k l)) as Hl.
  rewrite length_drop in Hl. split; [lia|]. split; intros Hk; [unfold zlen in *; lia|]. destruct (decide (k = length l)) as [->|]; [|lia]. rewrite drop_all in Hk. cbn in Hk. unfold zlen in Hk. cbn in Hk. lia.
Qed.
Lemma cursor_after_position i original k : values !! i = Some original -> (k <= length (content_of original))%nat ->
  cursor_after (zlen values) (Z.of_nat i) (zlen (encode_cps (content_of original))) (offset_at original k) = cursor_at <$> next_position values i k (length (content_of original)).
Proof.
  intros Hi Hk. unfold cursor_after, next_position, offset_at. destruct (encoded_prefix (content_of original) k Hk) as [_ Hp].
  destruct (Nat.ltb_spec k (length (content_of original))) as [Hlt|Hge].
  - replace (_ <? _) with true by (symmetry; apply Z.ltb_lt, Hp; lia). cbn. unfold cursor_at. cbn. by rewrite Hi.
  - replace (_ <? _) with false by (symmetry; apply Z.ltb_ge; apply Z.nlt_ge; intros ?%Hp; lia). unfold zlen.
    destruct (Nat.ltb_spec (S i) (length values)) as [Hs|Hs].
    + replace (Z.of_nat i + 1 <? Z.of_nat (length values)) with true by lia. cbn. unfold cursor_at. cbn [fst snd]. destruct (lookup_lt_is_Some_2 values (S i) Hs) as [o ->].
      unfold offset_at. rewrite take_0. f_equal. by rewrite Nat2Z.inj_succ.
    + by replace (Z.of_nat i + 1 <? Z.of_nat (length values)) with false by lia.
Qed.
Lemma next_inside i k size at_ original : values !! i = Some original -> size = length (content_of original) -> next_position values i k size = Some at_ -> inside at_.
Proof.
  intros Hi -> H. unfold next_position in H. destruct (Nat.ltb_spec k (length (content_of original))); simplify_eq; [by exists original; split; [|left]|].
  destruct (Nat.ltb_spec (S i) (length values)); simplify_eq. destruct (lookup_lt_is_Some_2 values (S i)) as [o Ho]; [done|]. exists o. split; [done|by right].
Qed.
Lemma parse_cursor_at at_ : inside at_ -> exists original, values !! at_.1 = Some original /\ (at_.2 <= length (content_of original))%nat
  /\ parse_cursor (VStr (cursor_at at_)) = Some (Z.of_nat at_.1, offset_at original at_.2).
Proof.
  intros (original & Hi & Hk). exists original. split; [done|]. split; [lia|]. unfold cursor_at. rewrite Hi. destruct deliverable_facts as (_ & _ & Hc). pose proof (lookup_lt_Some _ _ _ Hi) as Hlt.
  destruct (deliverable_item _ _ Hi) as (_ & Hs & _). unfold offset_at. unfold zlen at 1 in Hc. apply parse_cursor_str; [lia|]. split; [apply zlen_nonneg|].
  destruct Hk as [Hk| ->]; [|rewrite take_0; change (0 < 10 ^ 12); lia]. destruct (encoded_prefix (content_of original) at_.2) as [_ Hp]; [lia|]. apply Hp in Hk. lia.
Qed.

Lemma part_Ok i original k m : values !! i = Some original -> (k + m <= length (content_of original))%nat ->
  exists page item, candidate_page snapshot ref (zlen values) (Z.of_nat i) (offset_at original k) original (encode_cps (content_of original)) (PyStr (take k (content_of original)))
      (PyStr (take m (drop k (content_of original)))) = Ok page
    /\ page_of snapshot page [item] (cursor_at <$> next_position values i (k + m) (length (content_of original)))
    /\ part_of original item (offset_at original k) (PyStr (take m (drop k (content_of original)))) /\ exists b, within_budget page = Ok b.
Proof.
  intros Hi Hm. destruct deliverable_facts as (Hcs & Hr & _). destruct (deliverable_item i original Hi) as (Hok & _ & _). destruct (item_content i original Hi k) as [_ Hsc].
  assert (scalars (PyStr (take m (drop k (content_of original)))) = true) as Ht.
  { unfold scalars. cbn [code_points]. rewrite <- (take_drop m (drop k _)) in Hsc. rewrite !forallb_app in Hsc. bool_inv. done. }
  destruct (candidate_Ok snapshot ref (zlen values) (Z.of_nat i) (offset_at original k) original (encode_cps (content_of original)) (PyStr (take k (content_of original))) _ Hok Hcs Hr Ht)
    as (page & item & Hc & Hp & Hpart). exists page, item. split; [done|].
  cbn [code_points] in Hp. unfold offset_at in Hp at 1. rewrite encode_cps_split in Hp by done. change (zlen (encode_cps (take (k + m) ?l))) with (offset_at original (k + m)) in Hp.
  rewrite (cursor_after_position i original) in Hp by done. split; [done|]. split; [done|]. unfold within_budget. destruct (json_size_Ok page) as [size ->]; [apply Hp|]. by eexists.
Qed.
(** The search finds a part that fits, which is not empty unless nothing remains. *)
Lemma longest_part i original k : values !! i = Some original -> (k <= length (content_of original))%nat ->
  let r := drop k (content_of original) in
  let page_at count := candidate_page snapshot ref (zlen values) (Z.of_nat i) (offset_at original k) original (encode_cps (content_of original)) (PyStr (take k (content_of original)))
    (str_take count (PyStr r)) in
  exists n page item, search_count (Z.to_nat (str_len (PyStr r))) (fun count => page_at count ≫= fun p => within_budget p) 0 (str_len (PyStr r)) = Ok n
    /\ 0 <= n <= zlen r /\ (r <> [] -> 1 <= n) /\ page_at n = Ok page /\ within_budget page = Ok true
    /\ page_of snapshot page [item] (cursor_at <$> next_position values i (k + Z.to_nat n) (length (content_of original)))
    /\ part_of original item (offset_at original k) (PyStr (take (Z.to_nat n) r)).
Proof.
  intros Hi Hk r page_at. assert (length r = length (content_of original) - k)%nat as Hr by apply length_drop. change (str_len (PyStr r)) with (zlen r).
  assert (forall n, 0 <= n <= zlen r -> exists page item, page_at n = Ok page
    /\ page_of snapshot page [item] (cursor_at <$> next_position values i (k + Z.to_nat n) (length (content_of original)))
    /\ part_of original item (offset_at original k) (PyStr (take (Z.to_nat n) r)) /\ exists b, within_budget page = Ok b) as Hpage.
  { intros n Hn. unfold zlen in Hn. apply part_Ok; [done|lia]. }
  assert ((page_at 1 ≫= within_budget) = Ok true) as Hone.
  { destruct (deliverable_item i original Hi) as (_ & _ & Hs). specialize (Hs k Hk). unfold smallest_page_fits in Hs. rewrite Hi, take_drop in Hs. unfold page_at.
    by destruct (candidate_page _ _ _ _ _ _ _ _ _ ≫= within_budget) as [[]|]. }
  pose proof (zlen_nonneg r).
  destruct (search_count_spec (fun count => page_at count ≫= fun p => within_budget p) 0 (zlen r) (Z.to_nat (zlen r))) as (n & Hsearch & Hn & Hor & H1); [lia|lia| |].
  { intros n Hn. destruct (Hpage n Hn) as (page & _ & -> & _ & _ & b & Hb). exists b. exact Hb. }
  specialize (H1 Hone). destruct (Hpage n Hn) as (page & item & Hpn & Hpo & Hpart & b & Hb). exists n, page, item.
  assert (b = true /\ (r <> [] -> 1 <= n)) as [-> Hne]; [|done].
  destruct (decide (r = [])) as [E|E].
  - split; [|done]. assert (page_at n = page_at 1) as Hsame by (unfold page_at, str_take; cbn [code_points]; by rewrite E, !take_nil). rewrite <- Hsame, Hpn in Hone. cbn in Hone. congruence.
  - assert (1 <= n) as Hge by (apply H1; destruct r; [done|rewrite zlen_cons; pose proof (zlen_nonneg r); lia]). split; [|done]. destruct Hor as [|Hor]; [lia|]. rewrite Hpn in Hor. cbn in Hor. congruence.
Qed.
(** A page of one result is a part of it, and fits. *)
Lemma single_page at_ : inside at_ -> exists page item next, _single_page snapshot ref (VStr (cursor_at at_)) = Ok page /\ page_of snapshot page [item] (cursor_at <$> next)
  /\ part_step values at_ item next /\ within_budget page = Ok true.
Proof.
  intros Hin. destruct (parse_cursor_at at_ Hin) as (original & Hi & Hk & Hc). destruct at_ as [i k]. cbn [fst snd] in *. unfold _single_page. rewrite Hc. cbn [mbind res_bind from_option_res].
  rewrite Hvalues. cbn [mbind res_bind]. rewrite match_nonempty by (intros E; by rewrite E in Hi). rewrite Nat2Z.id, Hi. cbn [mbind res_bind from_option_res].
  pose proof (rest_of_split original _ _ (item_content i original Hi k)) as Hrest. rewrite take_drop in Hrest. fold (offset_at original k) in Hrest. rewrite Hrest. cbn [mbind res_bind].
  destruct (longest_part i original k Hi Hk) as (n & page & item & Hs & Hn & Hne & Hpn & Hb & Hpo & Hpart). rewrite Hs. cbn [mbind res_bind]. set (r := drop k (content_of original)) in *.
  assert (negb (negb (is_empty (PyStr r)) && (n =? 0)) = true) as ->.
  { destruct (decide (r = [])) as [->|E]; [done|]. specialize (Hne E). replace (n =? 0) with false by lia. by rewrite andb_false_r. }
  cbn [require mbind res_bind]. rewrite Hpn. cbn [mbind res_bind]. rewrite Hb. cbn [require mbind res_bind]. exists page, item. eexists. split; [done|]. split; [exact Hpo|]. split; [|done].
  assert (length r = length (content_of original) - k)%nat as Hr by apply length_drop. unfold zlen in Hn. exists original, (Z.to_nat n). split_and!; [done|done|lia| |done].
  intros Hlt. assert (r <> []) as Hr' by (intros E; rewrite E in Hr; cbn in Hr; lia). specialize (Hne Hr'). lia.
Qed.

(** ** Joined pages *)

Lemma part_step_inside at_ item at' : part_step values at_ item (Some at') -> inside at'.
Proof. destruct at_ as [i k]. intros (original & m & Hi & _ & _ & _ & Hn). by eapply next_inside. Qed.
Lemma has_key_update k l v : is_dict v = true -> has_key k (dict_update l v) = existsb (fun kx => bool_decide (k = kx.1)) l || has_key k v.
Proof.
  revert v. induction l as [|[k' x] l IH]; intros v Hv; [done|]. cbn [dict_update fold_left]. change (fold_left _ l ?w) with (dict_update l w). rewrite IH by (by rewrite dict_set_dict).
  destruct v; try done. cbn [dict_set fst snd]. rewrite has_key_assoc_set. cbn [existsb fst]. by destruct (existsb _ l), (bool_decide (k = k')).
Qed.
Lemma joined_page_of page items next following items' next' start index : result_key snapshot = "hits" -> page_of snapshot page items next -> page_of snapshot following items' next' ->
  page_of snapshot (joined_page snapshot page following start index values) (items ++ items') next'.
Proof.
  intros Hk (Hc & Hdict & Hrk & Hh & Hg & _) (Hc' & _ & _ & _ & Hg' & Hn'). unfold page_of. rewrite Hk in *. unfold joined_page. set (cont := get "continuation" following).
  assert (clean cont = true) as Hcc by (by apply clean_get). assert (forallb clean (items ++ items') = true) as Hci.
  { pose proof (clean_get "hits" _ Hc) as H1. pose proof (clean_get "hits" _ Hc') as H2. rewrite Hg in H1. rewrite Hg' in H2. cbn [clean] in H1, H2. by rewrite forallb_app, H1, H2. }
  rewrite Hg, Hg'. cbn [as_list default]. unfold id. split_and!.
  - apply clean_update; [|done]. cbn [forallb fst snd]. change (clean (VList ?l)) with (forallb clean l). change (clean (VStr ?s)) with (scalars s).
    rewrite Hci, Hcc, !scalars_app, !int_str_scalars. destruct (is_none cont); [reflexivity|]. by rewrite scalars_app, (dumped_spaced_scalars _ Hcc).
  - by rewrite dict_update_dict.
  - revert Hrk. unfold result_key. rewrite has_key_update by done. cbn. by destruct (has_key "items" page).
  - by rewrite has_key_update.
  - by rewrite get_dict_update.
  - rewrite <- Hn'. unfold next_cursor. rewrite get_dict_update by done. done.
Qed.

(** Joining keeps that a page shows consecutive parts and fits. *)
Lemma join_pages_parts fuel start at_ page items next : result_key snapshot = "hits" -> page_of snapshot page items (cursor_at <$> next) -> parts values at_ items next ->
  (forall at', next = Some at' -> inside at') -> within_budget page = Ok true ->
  exists page' items' next', join_pages fuel snapshot ref start values page = Ok page' /\ page_of snapshot page' items' (cursor_at <$> next') /\ parts values at_ items' next'
    /\ (forall at', next' = Some at' -> inside at') /\ within_budget page' = Ok true.
Proof.
  intros Hk. revert page items next. induction fuel as [|fuel IH]; intros page items next Hp Hparts Hin Hb; cbn [join_pages]; [by exists page, items, next|].
  assert (next_cursor page = cursor_at <$> next) as -> by apply Hp. destruct next as [at'|]; cbn [fmap option_fmap option_map]; [|by exists page, items, None].
  destruct (parse_cursor_at at' (Hin at' eq_refl)) as (original & _ & _ & ->). destruct (offset_at original at'.2); [|by exists page, items, (Some at')..].
  destruct (single_page at' (Hin at' eq_refl)) as (following & item & next' & -> & Hf & Hstep & _). cbn [mbind res_bind].
  pose proof (joined_page_of page items _ following [item] _ start (Z.of_nat at'.1) Hk Hp Hf) as Hj. set (joined := joined_page _ _ _ _ _ _) in *.
  unfold within_budget at 1. destruct (json_size_Ok joined) as [size Hsize]; [apply Hj|]. rewrite Hsize. cbn [mbind res_bind]. destruct (size <=? PAGE_BUDGET) eqn:Ebudget.
  - apply (IH joined (items ++ [item]) next'); [done|by eapply parts_app, parts_one| |by unfold within_budget; rewrite Hsize; cbn; rewrite Ebudget]. intros at2 ->. by eapply part_step_inside.
  - by exists page, items, (Some at').
Qed.
(** The number of the results that remain is enough fuel for the loop that joins them. *)
Definition joins_within (fuel : nat) (next : option position) : Prop := match next with Some (i, k) => (k <> 0 \/ length values - i <= fuel)%nat | None => True end.
Lemma join_pages_enough fuel start page items next : result_key snapshot = "hits" -> page_of snapshot page items (cursor_at <$> next) -> (forall at', next = Some at' -> inside at') ->
  joins_within fuel next -> join_pages (S fuel) snapshot ref start values page = join_pages fuel snapshot ref start values page.
Proof.
  intros Hk. revert page items next. induction fuel as [|fuel IH]; intros page items next Hp Hin Hf.
  all: cbn [join_pages]; assert (next_cursor page = cursor_at <$> next) as -> by apply Hp; destruct next as [[i k]|]; cbn [fmap option_fmap option_map]; [|done].
  all: pose proof (Hin _ eq_refl) as Hi; destruct (parse_cursor_at _ Hi) as (original & Ho & Hle & ->); cbn [fst snd] in *; unfold offset_at.
  all: assert (k <> 0%nat -> 0 < zlen (encode_cps (take k (content_of original)))) as Hpos
    by (intros Hk0; pose proof (encode_cps_length (take k (content_of original))) as Hl; rewrite length_take in Hl; unfold zlen; lia).
  - destruct Hf as [Hk0|Hf]; [specialize (Hpos Hk0); by destruct (zlen _)|]. apply lookup_lt_Some in Ho. lia.
  - destruct (zlen (encode_cps (take k _))) eqn:Ez; [|done..]. destruct Hf as [Hk0|Hf]; [specialize (Hpos Hk0); lia|]. assert (k = 0%nat) as -> by (destruct k; [done|lia]).
    destruct (single_page _ Hi) as (following & item & next' & -> & Hfo & Hstep & _). cbn [mbind res_bind].
    pose proof (joined_page_of page items _ following [item] _ start (Z.of_nat i) Hk Hp Hfo) as Hj. unfold within_budget. destruct (json_size_Ok _ (proj1 Hj)) as [size ->]. cbn [mbind res_bind].
    case_match; [|done]. apply (IH _ (items ++ [item]) next'); [done|intros at2 ->; by eapply part_step_inside|]. destruct Hstep as (o & m & Ho' & _ & Hm & Hlt & ->).
    unfold next_position. destruct (Nat.ltb_spec (0 + m) (length (content_of o))); [left; lia|]. destruct (Nat.ltb_spec (S i) (length values)); [right; lia|done].
Qed.
Lemma render_page_parts at_ : inside at_ ->
  exists page items next, render_page snapshot ref (VStr (cursor_at at_)) = Ok page /\ page_of snapshot page items (cursor_at <$> next) /\ parts values at_ items next
    /\ (forall at', next = Some at' -> inside at') /\ within_budget page = Ok true.
Proof.
  intros Hin. destruct (single_page at_ Hin) as (page & item & next & Hs & Hp & Hstep & Hb). unfold render_page. rewrite Hs. cbn [mbind res_bind].
  assert (parts values at_ [item] next) as Hparts by (by apply parts_one). assert (forall at', next = Some at' -> inside at') as Hni by (intros at' ->; by eapply part_step_inside).
  assert (has_key "hits" page = bool_decide (result_key snapshot = "hits")) as -> by apply Hp. case_bool_decide as Hk; cbn [negb]; [|by exists page, [item], next].
  destruct (parse_cursor_at at_ Hin) as (original & _ & _ & ->). cbn [from_option_res mbind res_bind]. rewrite Hvalues. cbn [mbind res_bind]. by eapply join_pages_parts.
Qed.

(** ** All the pages *)

(** how many characters and results remain *)
Definition content_weight (l : list value) : nat := sum_list_with (fun v => S (length (content_of v))) l.
Definition weight (at_ : position) : nat := content_weight (drop at_.1 values) - at_.2.
Lemma weight_at i original : values !! i = Some original -> content_weight (drop i values) = (S (length (content_of original)) + content_weight (drop (S i) values))%nat.
Proof. intros Hi. by rewrite (drop_S _ _ _ Hi). Qed.
Lemma part_step_weight at_ item at' : inside at_ -> part_step values at_ item (Some at') -> (weight at' < weight at_)%nat.
Proof.
  destruct at_ as [i k]. intros (o & Ho & Hk) (original & m & Hi & _ & Hm & Hpos & Hn). cbn [fst snd] in *. rewrite Hi in Ho. simplify_eq. unfold weight. cbn [fst snd].
  rewrite (weight_at i o Hi). unfold next_position in Hn. destruct (Nat.ltb_spec (k + m) (length (content_of o))) as [Hlt|Hge]; simplify_eq; cbn [fst snd].
  - rewrite (weight_at i o Hi). lia.
  - destruct (Nat.ltb_spec (S i) (length values)); simplify_eq. cbn [fst snd]. lia.
Qed.
Lemma parts_weight at_ items at' : inside at_ -> parts values at_ items (Some at') -> (weight at' < weight at_)%nat.
Proof.
  intros Hin H. remember (Some at') as next eqn:E. revert Hin E. induction H as [at_ item next Hs|at_ item at1 items next Hs Hp IH]; intros Hin E; subst; [by eapply part_step_weight|].
  pose proof (part_step_weight _ _ _ Hin Hs). specialize (IH (part_step_inside _ _ _ Hs) eq_refl). lia.
Qed.
Lemma read_pages_parts fuel at_ : inside at_ -> (weight at_ < fuel)%nat ->
  exists pages, read_pages fuel snapshot ref (cursor_at at_) = Ok pages /\ Forall (fun page => within_budget page = Ok true) pages /\ parts values at_ (concat (map shown_items pages)) None.
Proof.
  revert at_. induction fuel as [|fuel IH]; intros at_ Hin Hw; [lia|]. cbn [read_pages].
  destruct (render_page_parts at_ Hin) as (page & items & next & -> & Hp & Hparts & Hnext & Hb). cbn [mbind res_bind]. assert (next_cursor page = cursor_at <$> next) as -> by apply Hp.
  assert (shown_items page = items) as Hs by (unfold shown_items; destruct Hp as (_ & _ & -> & _ & -> & _); done). destruct next as [at'|]; cbn [fmap option_fmap option_map].
  - destruct (IH at' (Hnext at' eq_refl)) as (pages & -> & Hpages & Hrest); [pose proof (parts_weight _ _ _ Hin Hparts); lia|]. exists (page :: pages). split; [done|].
    split; [by constructor|]. cbn. rewrite Hs. by eapply parts_app.
  - exists [page]. split; [done|]. split; [by constructor|]. cbn. by rewrite app_nil_r, Hs.
Qed.
End Delivery.

(** ** The texts of consecutive parts *)

Definition text_from (values : list value) (at_ : option position) : list Z :=
  match at_ with
  | Some (i, k) => match values !! i with Some original => drop k (content_of original) | None => [] end ++ concat (map content_of (drop (S i) values))
  | None => []
  end.
Lemma part_content original item offset text : part_of original item offset text -> content_of item = code_points text.
Proof. intros [H _]. unfold content_of. by rewrite H. Qed.
Lemma part_step_text values at_ item next : part_step values at_ item next -> text_from values (Some at_) = content_of item ++ text_from values next.
Proof.
  destruct at_ as [i k]. intros (original & m & Hi & Hp & Hm & _ & ->). rewrite (part_content _ _ _ _ Hp). cbn [code_points text_from]. rewrite Hi. unfold next_position.
  destruct (Nat.ltb_spec (k + m) (length (content_of original))) as [Hlt|Hge]; cbn [text_from].
  - rewrite Hi, app_assoc. f_equal. by rewrite <- drop_drop, take_drop.
  - rewrite (take_ge (drop k _) m) by (rewrite length_drop; lia). f_equal. destruct (Nat.ltb_spec (S i) (length values)) as [Hs|Hs]; cbn [text_from].
    + destruct (lookup_lt_is_Some_2 values (S i) Hs) as [o Ho]. rewrite Ho, drop_0. by rewrite (drop_S _ _ _ Ho).
    + by rewrite drop_ge by lia.
Qed.
Lemma parts_text values at_ items next : parts values at_ items next -> text_from values (Some at_) = concat (map content_of items) ++ text_from values next.
Proof.
  induction 1 as [at_ item next Hs|at_ item at' items next Hs _ IH]; cbn [map concat]; rewrite (part_step_text _ _ _ _ Hs); [by rewrite app_nil_r|]. by rewrite IH, app_assoc.
Qed.
Lemma text_from_start values : values <> [] -> text_from values (Some (0, 0)%nat) = concat (map content_of values).
Proof. destruct values as [|v values]; [done|]. intros _. cbn. by rewrite drop_0. Qed.
Lemma cursor_start values : cursor_at values (0, 0)%nat = "0:0".
Proof. unfold cursor_at. cbn [fst snd]. destruct (values !! 0%nat); [|reflexivity]. unfold offset_at. by rewrite take_0. Qed.

(** What a client has been shown at the end. *)
Lemma deliver snapshot ref values : result_values snapshot = Ok values -> deliverable snapshot ref values = true ->
  exists pages, read_pages (S (content_weight values)) snapshot ref "0:0" = Ok pages /\ (values = [] -> concat (map shown_items pages) = [])
    /\ (values <> [] -> parts values (0, 0)%nat (concat (map shown_items pages)) None /\ Forall (fun page => exists size, json_size page = Ok size /\ size <= PAGE_BUDGET) pages).
Proof.
  intros Hv Hd. destruct values as [|v vs].
  - exists [no_results (result_key snapshot) ref]. cbn [content_weight sum_list_with read_pages]. unfold render_page, _single_page. change (parse_cursor (VStr "0:0")) with (Some (0, 0)).
    cbn [from_option_res mbind res_bind]. rewrite Hv. cbn [mbind res_bind Z.eqb andb require]. by destruct (result_key_cases snapshot) as [->| ->].
  - destruct (read_pages_parts snapshot ref (v :: vs) Hv Hd (S (content_weight (v :: vs))) (0, 0)%nat) as (pages & Hr & Hb & Hp).
    { exists v. split; [done|by right]. }
    { unfold weight. cbn [fst snd]. rewrite drop_0. lia. }
    rewrite cursor_start in Hr. exists pages. split; [done|]. split; [done|]. intros _. split; [done|].
    eapply Forall_impl; [exact Hb|]. intros page Hpage. unfold within_budget in Hpage. destruct (json_size page) as [size|]; [|done]. cbn in Hpage. exists size. split; [done|]. injection Hpage. lia.
Qed.

(** (C7) A client that reads a saved result and follows the cursors comes to the end after finitely many pages, each
    within the budget, and has been shown all of it: consecutive parts of the results, without gaps and without overlaps, whose
    texts are the texts of the results. *)
Theorem cursors_deliver_everything snapshot ref values : result_values snapshot = Ok values -> deliverable snapshot ref values = true ->
  exists pages, read_pages (S (content_weight values)) snapshot ref "0:0" = Ok pages
    /\ concat (map content_of (concat (map shown_items pages))) = concat (map content_of values)
    /\ (values <> [] -> parts values (0, 0)%nat (concat (map shown_items pages)) None /\ Forall (fun page => exists size, json_size page = Ok size /\ size <= PAGE_BUDGET) pages).
Proof.
  intros Hv Hd. destruct (deliver snapshot ref values Hv Hd) as (pages & Hp & He & Hparts). exists pages. split; [done|]. split; [|done].
  destruct (decide (values = [])) as [E|Hne]; [by rewrite (He E), E|]. pose proof (parts_text _ _ _ _ (proj1 (Hparts Hne))) as Ht. by rewrite text_from_start, app_nil_r in Ht.
Qed.

(** ** Evidence names the bytes it shows *)

(** The content of a result is what the canonical text has at its locator, and [evidenceSha256] is the hash of these bytes; a
    result without a locator is empty. *)
Definition evidence (canonical : pystr -> option bytes) (v : value) : Prop :=
  exists rid text b, get "representationId" v = VStr rid /\ canonical rid = Some b /\ get "content" v = VStr text /\ scalars text = true
    /\ get "evidenceSha256" v = VStr (sha256_tag (encode_cps (code_points text)))
    /\ (get "locator" v = VNone /\ text = "" \/ exists start, get "startByte" (get "locator" v) = VInt start /\ get "endByte" (get "locator" v) = VInt (start + zlen (encode_cps (code_points text)))
         /\ 0 <= start /\ start + zlen (encode_cps (code_points text)) <= zlen b /\ byte_slice start (start + zlen (encode_cps (code_points text))) b = encode_cps (code_points text)).

Lemma slice_part (b x y z : bytes) start : 0 <= start -> start + zlen (x ++ y ++ z) <= zlen b -> byte_slice start (start + zlen (x ++ y ++ z)) b = x ++ y ++ z ->
  byte_slice (start + zlen x) (start + zlen x + zlen y) b = y.
Proof.
  intros H0 Hlen Hs. destruct (split_at_slice b (x ++ y ++ z) start H0 Hlen Hs) as (pre & post & -> & <-).
  replace (pre ++ (x ++ y ++ z) ++ post) with ((pre ++ x) ++ y ++ (z ++ post)) by (by rewrite <- !app_assoc). rewrite <- zlen_app. apply slice_middle.
Qed.
(** A part of evidence is evidence. *)
Lemma part_of_evidence canonical original item k m : evidence canonical original -> part_of original item (offset_at original k) (PyStr (take m (drop k (content_of original)))) ->
  evidence canonical item.
Proof.
  intros (rid & text & b & Hrid & Hb & Hc & Hsc & _ & Hloc) Hp.
  assert (content_of original = code_points text) as Ec by (unfold content_of; by rewrite Hc). rewrite Ec in *. set (x := take k (code_points text)). set (y := take m (drop k (code_points text))) in *.
  set (z := drop m (drop k (code_points text))). assert (code_points text = x ++ y ++ z) as Et by (unfold x, y, z; by rewrite !take_drop).
  assert (scalars (PyStr y) = true) as Hy by (unfold scalars in *; cbn [code_points]; rewrite Et, !forallb_app in Hsc; bool_inv; done).
  destruct Hp as (P1 & P2 & P3 & _ & P5 & P6). exists rid, (PyStr y), b. rewrite P3. split_and!; try done. destruct (decide (PyStr y = "")) as [E|E]; [left; split; [by apply P5|done]|right].
  destruct Hloc as [[Hn ->]|(start & Hs & _ & H0 & Hlen & Hsl)]; [destruct E; unfold y; change (code_points "") with (@nil Z); by rewrite drop_nil, take_nil|].
  destruct P6 as (start' & S1 & S2 & S3); [by destruct (get "locator" original)|done|]. rewrite Hs in S1. injection S1 as <-. cbn [code_points] in *. unfold offset_at in *. rewrite Ec in *. fold x in S2, S3.
  rewrite Et, !encode_cps_app in Hlen, Hsl. exists (start + zlen (encode_cps x)). pose proof (zlen_nonneg (encode_cps x)). pose proof (zlen_nonneg (encode_cps z)). rewrite !zlen_app in Hlen.
  split_and!; [done|done|lia|lia|]. eapply slice_part; [done| |exact Hsl]. rewrite !zlen_app. lia.
Qed.
Lemma part_evidence canonical values at_ item next : Forall (evidence canonical) values -> part_step values at_ item next -> evidence canonical item.
Proof.
  destruct at_ as [i k]. intros Hv (original & m & Hi & Hp & _). rewrite Forall_lookup in Hv. by eapply part_of_evidence; [eapply Hv|].
Qed.
Lemma parts_evidence canonical values at_ items next : Forall (evidence canonical) values -> parts values at_ items next -> Forall (evidence canonical) items.
Proof. intros Hv. induction 1; repeat constructor; eauto using part_evidence. Qed.

(** the lines of a text are all of it *)
Lemma split_lines_concat l line : concat (split_lines line l) = line ++ l.
Proof.
  revert line. induction l as [l IH] using (induction_ltof1 _ (@length Z)); unfold ltof in IH; intros line. destruct l as [|c l]; cbn [split_lines]; [destruct line; cbn; by rewrite ?app_nil_r|].
  destruct (line_end c); [|rewrite IH by (cbn; lia); by rewrite <- app_assoc]. destruct l as [|d l]; [cbn; by rewrite app_nil_r|].
  destruct ((c =? 13) && (d =? 10)); cbn [concat]; rewrite IH by (cbn; lia); cbn; by rewrite <- app_assoc.
Qed.
Lemma lines_concat s : str_concat (splitlines true s) = s.
Proof.
  unfold str_concat, splitlines. rewrite map_map. cbn [code_points]. rewrite map_id, split_lines_concat. by destruct s.
Qed.
Lemma str_concat_app a b : code_points (str_concat (a ++ b)) = code_points (str_concat a) ++ code_points (str_concat b).
Proof. unfold str_concat. cbn [code_points]. by rewrite map_app, concat_app. Qed.
Lemma select_lines_full limit selected size lines r : select_lines true limit selected size lines = Ok r -> exists n, r.1.1 = selected ++ take n lines.
Proof.
  revert selected size. induction lines as [|line lines IH]; intros selected size; cbn [select_lines].
  - intros [= <-]. exists 0%nat. by rewrite app_nil_r.
  - destruct (zlen selected =? limit); [intros [= <-]; exists 0%nat; by rewrite app_nil_r|]. destruct (encode line); [|done]. cbn [mbind res_bind negb andb].
    intros (n & ->)%IH. exists (S n). by rewrite <- app_assoc.
Qed.
Lemma encode_Ok_inv s b : encode s = Ok b -> scalars s = true /\ b = encode_cps (code_points s).
Proof. unfold encode, utf8_encode, scalars. case_match; [|done]. by intros [= <-]. Qed.
Ltac binds H := repeat match type of H with
  | (?m ≫= _) = Ok _ => let x := fresh "x" in let E := fresh "E" in destruct m as [x|] eqn:E; cbn [mbind res_bind] in H; [|discriminate H]
  end.
Lemma take_length_take {A} n (l : list A) : take (length (take n l)) l = take n l.
Proof. rewrite length_take. destruct (Nat.le_ge_cases n (length l)); [by rewrite Nat.min_l|by rewrite Nat.min_r, !take_ge by lia]. Qed.
(** the bytes of the lines that were selected *)
Lemma line_locator_exact content o n selected l : scalars content = true -> (o <= length (splitlines true content))%nat -> selected = take n (drop o (splitlines true content)) ->
  code_points (str_concat selected) <> [] -> _line_locator content (Z.of_nat o + 1) (Z.of_nat o + zlen selected) = Ok l ->
  let data := encode_cps (code_points (str_concat selected)) in let b := encode_cps (code_points content) in
  lo_end l = lo_start l + zlen data /\ 0 <= lo_start l /\ lo_start l + zlen data <= zlen b /\ byte_slice (lo_start l) (lo_start l + zlen data) b = data.
Proof.
  intros Hsc Ho Hsel Hne H. set (lines := splitlines true content) in *. unfold _line_locator in H. fold lines in H. binds H. injection H as <-. cbn [lo_start lo_end]. cbn zeta.
  replace (Z.to_nat (Z.of_nat o + 1 - 1)) with o in * by lia.
  assert (code_points content = code_points (str_concat (take o lines)) ++ code_points (str_concat selected) ++ code_points (str_concat (drop n (drop o lines)))) as Hall.
  { rewrite <- !str_concat_app, Hsel, !take_drop. unfold lines. by rewrite lines_concat. }
  assert (take (Z.to_nat (Z.of_nat o + zlen selected)) lines = take o lines ++ selected) as Htake.
  { rewrite <- (take_drop o lines) at 1. rewrite take_app, length_take, Nat.min_l by done. unfold zlen. rewrite (take_ge (take o lines)) by (rewrite length_take; lia).
    replace (Z.to_nat (Z.of_nat o + Z.of_nat (length selected)) - o)%nat with (length selected) by lia. f_equal. rewrite Hsel. apply take_length_take. }
  match goal with E : encode (str_concat (take (Z.to_nat (_ + zlen selected)) lines)) = Ok _ |- _ => rewrite Htake in E; apply encode_Ok_inv in E as [_ ->]; rewrite str_concat_app, encode_cps_app, zlen_app end.
  match goal with E : encode _ = Ok _ |- _ => apply encode_Ok_inv in E as [_ ->] end.
  set (pre := encode_cps (code_points (str_concat (take o lines)))). set (data := encode_cps _).
  assert (1 <= zlen data) as Hd by (pose proof (encode_cps_length (code_points (str_concat selected))) as Hl; unfold data, zlen; destruct (code_points (str_concat selected)); [done|cbn [length] in Hl; lia]).
  rewrite Z.max_r by lia. pose proof (zlen_nonneg pre). rewrite Hall, !encode_cps_app. fold pre data. rewrite !zlen_app. pose proof (zlen_nonneg (encode_cps (code_points (str_concat (drop n (drop o lines)))))).
  split_and!; [done|lia|lia|]. apply slice_middle.
Qed.
(** What a read of a whole window returns is the canonical text at its locator. *)
Lemma read_evidence_exact canonical content resolved identity rid r offset limit v : 0 <= offset -> canonical rid = utf8_encode content ->
  read_evidence content resolved identity rid r offset limit true = Ok v -> evidence canonical v.
Proof.
  intros H0 Hcan H. unfold read_evidence in H. binds H. destruct x0 as [[selected by_] first]. binds H. injection H as <-.
  match goal with E : encode content = Ok _ |- _ => apply encode_Ok_inv in E as [Hsc ->] end. apply encode_Ok_inv in E1 as [Hss ->].
  assert (canonical rid = Some (encode_cps (code_points content))) as Hb by (rewrite Hcan; unfold utf8_encode; unfold scalars in Hsc; by rewrite Hsc).
  exists rid, (str_concat selected), (encode_cps (code_points content)). do 5 (split; [done|]).
  destruct (is_empty (str_concat selected)) eqn:Ee; [injection E2 as <-; left; split; [done|by apply is_empty_true]|right]. binds E2. injection E2 as <-.
  destruct (select_lines_full _ _ _ _ _ E0) as [n Hsel]. cbn [fst app] in Hsel. match goal with E : _line_locator _ _ _ = Ok ?l |- _ => rename l into loc, E into El end.
  replace (offset + 1) with (Z.of_nat (Z.to_nat offset) + 1) in El by lia. replace (offset + zlen selected) with (Z.of_nat (Z.to_nat offset) + zlen selected) in El by lia.
  assert (code_points (str_concat selected) <> []) as Hne by (intros Hx; unfold is_empty in Ee; by rewrite Hx in Ee).
  destruct (line_locator_exact content (Z.to_nat offset) n selected loc Hsc) as (L1 & L2 & L3 & L4); [|done..|].
  { destruct (Z.leb_spec offset (zlen (splitlines true content))) as [Hle|]; [|done]. unfold zlen in Hle. lia. }
  exists (lo_start loc). split; [done|]. split; [|done]. rewrite <- L1. done.
Qed.
Lemma bounded_prefix s maximum t : _bounded_utf8_prefix s maximum = Ok t -> exists rest, encode_cps (code_points s) = encode_cps (code_points t) ++ rest /\ scalars t = true.
Proof.
  unfold _bounded_utf8_prefix. destruct (encode s) as [encoded|] eqn:E; [|done]. apply encode_Ok_inv in E as [Hs ->]. cbn [mbind res_bind].
  case_match; [intros [= <-]; exists []; by rewrite app_nil_r|]. set (n := back_to_start _ _). destruct (utf8_decode _) as [t'|] eqn:Ed; [|done]. intros [= <-].
  apply utf8_encode_decode in Ed. unfold utf8_encode in Ed. unfold scalars. case_match; [|done]. injection Ed as Ed. eexists. split; [|done]. rewrite Ed. symmetry. apply take_drop.
Qed.
(** What a search returns is the canonical text at its locator. *)
Lemma search_evidence_exact canonical b sg rid spec resolved identity score at_ full v : canonical rid = Some b -> well_placed b sg ->
  search_evidence sg rid spec resolved identity score at_ full = Ok v -> evidence canonical v.
Proof.
  intros Hb Hw H. unfold search_evidence in H. binds H. injection H as <-. apply encode_Ok_inv in E0 as [Hs ->]. destruct (wp_range _ _ Hw) as [Hr Hend]. pose proof (wp_text _ _ Hw) as Htext.
  assert (exists rest, byte_slice (sg_start sg) (sg_end sg) b = encode_cps (code_points x) ++ rest) as [rest Hrest].
  { unfold utf8_encode in Htext. case_match; [|done]. injection Htext as <-. destruct full; [injection E as <-; exists []; by rewrite app_nil_r|]. apply bounded_prefix in E as (rest & -> & _). by exists rest. }
  exists rid, x, b. do 5 (split; [done|]). right. exists (sg_start sg). split; [done|]. split; [done|]. set (data := encode_cps _) in *.
  assert (zlen (data ++ rest) = sg_end sg - sg_start sg) as Hlen by (rewrite <- Hrest; unfold byte_slice, zlen in *; rewrite length_take, length_drop; lia).
  rewrite zlen_app in Hlen. pose proof (zlen_nonneg rest). split; [lia|]. split; [lia|]. 
  pose proof (slice_part b [] data rest (sg_start sg)) as Hp. change (zlen []) with 0 in Hp. rewrite Z.add_0_r in Hp. apply Hp; [lia|change ([] ++ data ++ rest) with (data ++ rest); rewrite zlen_app; lia|].
  change ([] ++ data ++ rest) with (data ++ rest). rewrite <- Hrest. f_equal. rewrite Hrest, zlen_app. lia.
Qed.

(** A result that a read or a search of processed documents has found; [canonical] has the stored text of each representation. *)
Inductive retrieved (canonical : pystr -> option bytes) (v : value) : Prop :=
  | by_read content resolved identity rid r offset limit : 0 <= offset -> canonical rid = utf8_encode content ->
      read_evidence content resolved identity rid r offset limit true = Ok v -> retrieved canonical v
  | by_search b sg rid spec resolved identity score at_ full : canonical rid = Some b -> well_placed b sg ->
      search_evidence sg rid spec resolved identity score at_ full = Ok v -> retrieved canonical v.
Lemma retrieved_evidence canonical v : retrieved canonical v -> evidence canonical v.
Proof. destruct 1; eauto using read_evidence_exact, search_evidence_exact. Qed.

(** (C24) Every item that a client is shown while it follows the cursors of a saved read or search is exact evidence: its
    content is what the stored text of its representation has at the bytes its locator names, and its hash is the hash of these
    bytes. *)
Theorem delivered_evidence_is_exact canonical snapshot ref values : result_values snapshot = Ok values -> deliverable snapshot ref values = true -> Forall (retrieved canonical) values ->
  exists pages, read_pages (S (content_weight values)) snapshot ref "0:0" = Ok pages /\ Forall (evidence canonical) (concat (map shown_items pages)).
Proof.
  intros Hv Hd Hr. destruct (deliver snapshot ref values Hv Hd) as (pages & Hp & He & Hparts). exists pages. split; [done|].
  assert (Forall (evidence canonical) values) as Hev by (eapply Forall_impl; [exact Hr|]; apply retrieved_evidence).
  destruct (decide (values = [])) as [E|Hne]; [rewrite (He E); constructor|]. eapply parts_evidence; [done|by apply Hparts].
Qed.

(** ** A result, evaluated *)

Definition ok_value {E} (r : res E value) : value := match r with Ok v => v | Err _ => VNone end.
Definition sample_row : rep_row :=
  Representation "source" "source:1" 1 "sha256:1" "spec:1" 2 (Part "key" 6 (sha256_tag sample_canonical)) (Part "" 0 "") (Part "" 0 "") (manifest_of sample_pages).
Definition sample_resolved (display : pystr) : value :=
  VDict [("virtualPath", VStr "/a.pdf"); ("inputRef", VStr "input:1"); ("displayName", VStr display); ("objectRef", VStr "source:1"); ("ownerKind", VStr "source");
         ("evidenceKind", VStr "source"); ("sha256", VStr "sha256:1"); ("citationAllowed", VBool true)].
Definition sample_identity : value := VDict [("generation", VInt 1)].
Definition sample_store (rid : pystr) : option bytes := if bool_decide (rid = "representation:1") then Some sample_canonical else None.
Definition sample_canonical_text : pystr := PyStr [233; 10; 120; 10; 32].
Definition sample_read : value := Eval vm_compute in ok_value (read_evidence sample_canonical_text (sample_resolved "a") sample_identity "representation:1" sample_row 1 1 true).
(** the second line of the text *)
Example sample_read_is : get "content" sample_read = VStr (PyStr [120; 10]) /\ get "nextOffset" sample_read = VInt 2 /\
  get "locator" sample_read = locator_value (Locator (Some 1) (Some 1) 3 5 2 2).
Proof. repeat split. Qed.
Definition sample_ranges : value := VDict [("representation:1", VList [VList [VInt 0; VInt 4; VInt 1]; VList [VInt 5; VInt 6; VInt 2]])].
Definition saved_read : value := VDict [("items", VList [sample_read]); ("_pageRanges", sample_ranges); ("_digest", VStr "sha256:2")].

(** two results with names so long that a page has room for few characters *)
Definition long_name : pystr := PyStr (replicate (Z.to_nat 48060) 120).
Definition sample_segment : segment := Segment "segment:1" 0 sample_text (sha256_tag [195; 169; 10; 120]) 1 0 4 1 2.
Definition sample_hit : value := Eval vm_compute in
  ok_value (search_evidence sample_segment "representation:1" "spec:1" (sample_resolved "") sample_identity 1 "2025-01-01T00:00:00+00:00" true).
Definition long_hit : value := dict_set "displayName" (VStr long_name) sample_hit.
Definition search_snapshot : value := VDict [("hits", VList [long_hit; sample_hit]); ("_pageRanges", sample_ranges); ("_digest", VStr "sha256:2")].
Definition long_ref : pystr := "material.result:1".
Example three_pages : match read_pages 9 search_snapshot long_ref "0:0" with
  | Ok pages => map (fun page => (map content_of (shown_items page), json_size page)) pages =
      [([[233]], Ok 49151); ([[10; 120]], Ok 49152); ([[233; 10; 120]], Ok 881)]
  | Err _ => False end.
Proof. vm_compute. reflexivity. Qed.
Lemma cursors_deliver_everything_witness : exists pages, read_pages 9 search_snapshot long_ref "0:0" = Ok pages
  /\ concat (map content_of (concat (map shown_items pages))) = [233; 10; 120; 233; 10; 120].
Proof.
  destruct (cursors_deliver_everything search_snapshot long_ref [long_hit; sample_hit]) as (pages & Hp & Ht & _); [reflexivity|vm_compute; reflexivity|].
  exists pages. split; [exact Hp|exact Ht].
Defined.
Lemma delivered_evidence_is_exact_witness : exists pages, read_pages 4 saved_read long_ref "0:0" = Ok pages /\ Forall (evidence sample_store) (concat (map shown_items pages)).
Proof.
  destruct (delivered_evidence_is_exact sample_store saved_read long_ref [sample_read]) as (pages & Hp & He); [reflexivity|vm_compute; reflexivity| |exists pages; exact (conj Hp He)].
  constructor; [|constructor]. apply (by_read _ _ sample_canonical_text (sample_resolved "a") sample_identity "representation:1" sample_row 1 1); [lia|reflexivity|vm_compute; reflexivity].
Defined.

(** A read ends lines where Python does, also at U+2028; the pages of the result count newlines only. The same three characters
    and two line ends are the lines 1 to 3 of the result that was read, and the lines 1 to 2 of the page that shows it. *)
Definition separated_text : pystr := PyStr [97; 8232; 98; 10; 99].
Definition separated_read : value := Eval vm_compute in ok_value (read_evidence separated_text (sample_resolved "a") sample_identity "representation:1" sample_row 0 10 true).
Definition separated_page : value := Eval vm_compute in
  ok_value (render_page (VDict [("items", VList [separated_read]); ("_digest", VStr "sha256:2")]) long_ref (VStr "0:0")).
Example lines_are_counted_twice :
  map (fun v => (content_of v, get "startLine" v, get "endLine" v)) (separated_read :: shown_items separated_page) =
    [(code_points separated_text, VInt 1, VInt 3); (code_points separated_text, VInt 1, VInt 2)].
Proof. vm_compute. reflexivity. Qed.
