(* ===== verification/MaterialTools.v ===== *)
(** * Platform tools over processed documents

    [packages/api/app_core/platform_mcp.py], [platform_mcp_auth.py], [material_access.py], [material_reads.py],
    [material_operations.py], [material_receipts.py] and the saved results of [material_delivery.py]: the credentials of the
    tools, the inputs of a run as they are now, reads and searches, the operations that wait for processing, saved results, and
    the receipts that citations are made from. *)

From stdpp Require Import base tactics list gmap numbers sorting.
From S2P Require Import Prelude PyStr Table Utf8 Sha256 Platform Schema Access AgentIdentity Delegation PyValue Json Lifecycle Contract Snapshot WorkspaceCommit Assets Library Sources ResourceGc Plugins Hosted Inputs RuntimeReplies MaterialManifest Materials MaterialDelivery.

(** ** State *)

(** [SessionEvent], by its id *)
Record tool_event := ToolEvent { te_workspace : pystr; te_session : pystr; te_run : pystr; te_sequence : Z; te_run_sequence : option Z; te_payload : value }.
(** [MaterialResultSnapshot], by its call *)
Record result_row := ResultSnapshot { rs_id : pystr; rs_payload : value; rs_sha256 : pystr }.
(** [MaterialEvidenceReceipt], by its call *)
Record evidence_receipt := EvidenceReceipt { mr_id : pystr; mr_authorization : pystr; mr_response : pystr; mr_projection : value; mr_evidence : list value }.
(** [MaterialOperation], by its id *)
Record operation_row := Operation { mo_run : pystr; mo_task : pystr; mo_input_ref : pystr; mo_cancelled_at : option Z }.

Record tools := Tools {
  tl_hosted : hosted; tl_materials : mstate; tl_events : gmap pystr tool_event; tl_results : gmap pystr result_row; tl_receipts : gmap pystr evidence_receipt;
  tl_operations : gmap pystr operation_row }.
(** the tables of runs, with the objects and the sources as the processing sees them *)
Definition tables (s : tools) : hosted :=
  let h := tl_hosted s in let m := tl_materials s in
  Hosted (h_db h) (h_agents h) (h_sessions h) (h_projects h) (h_runs h) (h_events h) (h_unread h) (h_citations h) (h_receipts h) (h_authorizations h) (h_links h) (h_captures h)
    (ms_sources m) (ms_store m).
Definition set_tl_materials f s := Tools (tl_hosted s) (f (tl_materials s)) (tl_events s) (tl_results s) (tl_receipts s) (tl_operations s).
Definition set_tl_results f s := Tools (tl_hosted s) (tl_materials s) (tl_events s) (f (tl_results s)) (tl_receipts s) (tl_operations s).
Definition set_tl_receipts f s := Tools (tl_hosted s) (tl_materials s) (tl_events s) (tl_results s) (f (tl_receipts s)) (tl_operations s).
Definition set_tl_operations f s := Tools (tl_hosted s) (tl_materials s) (tl_events s) (tl_results s) (tl_receipts s) (f (tl_operations s)).

(** [CredentialRejected], [KnowledgeError] and Python's own, [ValueError], and what processing and inputs raise *)
Inductive texn := CredentialRejected | TKnowledge (e : kexn) | TValueError (code : pystr) | TMaterial (e : mexn) | TInput (e : hexn) | TDoesNotExist | TIntegrity | TDataError.
Definition TM (A : Type) : Type := tools -> res texn A * tools.
#[global] Instance TM_ret : MRet TM := fun A a s => (Ok a, s).
#[global] Instance TM_bind : MBind TM := fun A B f c s => match c s with (Ok a, s') => f a s' | (Err e, s') => (Err e, s') end.
Definition tget : TM tools := fun s => (Ok s, s).
Definition tput (f : tools -> tools) : TM unit := fun s => (Ok tt, f s).
Definition tres {A} (r : res texn A) : TM A := fun s => (r, s).
Definition tlift {A} (r : K A) : TM A := tres (catch r (fun e => Err (TKnowledge e))).
Definition tmaterial {A} (c : MM A) : TM A := fun s =>
  let '(r, m) := c (tl_materials s) in (catch r (fun e => Err (match e with MKnowledge e => TKnowledge e | e => TMaterial e end)), set_tl_materials (fun _ => m) s).
(** [transaction.atomic]; what runs inside writes no objects *)
Definition tatomic {A} (c : TM A) : TM A := fun s => match c s with (Ok a, s') => (Ok a, s') | (Err e, _) => (Err e, s) end.
Fixpoint tmap {A B} (f : A -> TM B) (l : list A) : TM (list B) :=
  match l with [] => mret [] | a :: l => f a ≫= fun b => tmap f l ≫= fun bs => mret (b :: bs) end.
Definition refused (code : pystr) : kexn := KnowledgeError code 409.
Definition forbidden (code : pystr) : kexn := KnowledgeError code 403.

(** [x == y] of values as JSON has them: a [bool] is an [int], the order of keys does not matter; floats are compared as written *)
Fixpoint bools_as_ints (v : value) : value :=
  match v with
  | VBool b => VInt (if b then 1 else 0)
  | VList l => VList (map bools_as_ints l)
  | VDict d => VDict (map (fun kx => (kx.1, bools_as_ints kx.2)) d)
  | v => v
  end.
Definition equal_values (x y : value) : bool := same_value (bools_as_ints x) (bools_as_ints y).
Definition equal_proofs (p q : proof) : bool :=
  let '(pa, da, sa, ka, ea) := p in let '(pb, db, sb, kb, eb) := q in
  equal_values pa pb && bool_decide (da = db) && bool_decide (sa = sb) && bool_decide (ka = kb) && bool_decide (ea = eb).

(** [MaterialAccessContext] and [MaterialAccess] *)
Record access_context := AccessContext { ac_run : pystr; ac_authorization : value; ac_specification : value; ac_spec_digest : value }.
Record material_access := MaterialAccess { ma_run : pystr; ma_row : run_full; ma_payload : value; ma_specification : value; ma_spec_digest : pystr; ma_authorization : pystr }.
(** [BoundInput] with all its fields *)
Record tool_input := ToolInput { bi_resolved : value; bi_key : pystr; bi_owner : owner; bi_identity : value; bi_representation : pystr }.

Definition owner_key (o : owner) : pystr := match o with OwnSource id _ | OwnLibrary id _ | OwnArtifact id _ => id end.

Section platform.
Context {PL : Platform} (signing_key : pystr).

(** ** Access *)

(** the first half of [authorize_context]: [authorize_material_access] *)
Definition authorize_material_access (s : tools) (context : access_context) : res texn (material_access * authorization) :=
  let h := tables s in
  f ← from_option_res (TKnowledge (KnowledgeError "knowledge_agent_run_not_found" 404)) (h_runs h !! ac_run context);
  let mismatch := TKnowledge (forbidden "knowledge_authorization_mismatch") in
  require (agent_run_membership_is_current (identity h) (rf_membership f) (r_workspace (rf_life f)) (ri_user (rf_identity f))) mismatch;;
  au ← from_option_res TDoesNotExist (h_authorizations h !! ac_run context);
  digest ← catch (authorization_digest (au_payload au)) (fun e => Err (TKnowledge (KContract e)));
  require (bool_decide (digest = au_digest au) && is_str (au_digest au) (ac_authorization context)) mismatch;;
  spec_digest ← catch (processing_spec_digest (ac_specification context)) (fun e => Err (TKnowledge e));
  require (is_str spec_digest (ac_spec_digest context)) (TKnowledge (refused "knowledge_specification_digest_mismatch"));;
  Ok (MaterialAccess (ac_run context) f (au_payload au) (ac_specification context) spec_digest (au_digest au), au).

(** what [except (KnowledgeError, ObjectDoesNotExist, ValueError, TypeError, KeyError)] does not catch *)
Definition uncaught (e : texn) : bool :=
  match e with TKnowledge (KAttributeError | KContract CAttributeError) | TMaterial _ | TInput _ | TIntegrity | TDataError => true | _ => false end.
Definition authorize_context (s : tools) (context : access_context) : res texn material_access :=
  catch
    (a ← authorize_material_access s context;
     let '(access, au) := a in
     catch (_verify_authorization_digest_signature (ma_authorization access) signing_key (au_signature au)) (fun e => Err (TKnowledge (KContract e)));;
     session ← from_option_res TDoesNotExist (h_sessions (tables s) !! r_session (rf_life (ma_row access)));
     require (agent_run_binding_matches (ma_payload access) (ma_run access) (bound_run (ma_row access)) (se_agent (sf_row session))) CredentialRejected;;
     Ok access)
    (fun e => Err (if uncaught e then e else CredentialRejected)).

(** the inputs the authorization declares, by reference *)
Definition declared_by_ref (payload : value) : list (pystr * value) :=
  fold_left (fun d item => assoc_set (text_of (get "inputRef" item)) item d) (asset_refs_of payload) [].
Definition declared_input_of (payload : value) (ref : pystr) : option value := assoc_first ref (declared_by_ref payload).

Definition _input_owner (h : hosted) (access : material_access) (ref : pystr) (resolved : value) : K owner :=
  let unauthorized := forbidden "knowledge_input_not_authorized" in
  l ← from_option_res unauthorized (h_links h !! ref);
  require (bool_decide (al_session l = r_session (rf_life (ma_row access))) && bool_decide (al_workspace l = r_workspace (rf_life (ma_row access)))) unauthorized;;
  o ← from_option_res (refused "knowledge_input_binding_invalid") (find_owner (h_store h) (al_owner_kind l) (al_owner_id l));
  require (is_str (owner_key o) (get "objectRef" resolved)) (refused "knowledge_input_binding_invalid");;
  Ok o.

Definition valid_request (request : value) : bool :=
  keys_are ["inputRef"; "representationId"] request && match get "inputRef" request with VStr s => negb (is_empty (strip s)) | _ => false end.
Definition input_exception (e : input_error) : texn :=
  match e with
  | DeferredInputResolutionError code => TKnowledge (refused code)
  | DeferredInputBindingError _ => TKnowledge (refused "knowledge_input_binding_invalid")
  | InputRaised e => TInput e
  end.
(** the loop of [bind_inputs]; [verified] is the cache of its resolver *)
Fixpoint bind_loop (h : hosted) (access : material_access) (digest spec_digest : pystr) (verified : option proof) (requests : list value) : res texn (list tool_input) :=
  match requests with
  | [] => Ok []
  | request :: requests =>
      let ref := text_of (get "inputRef" request) in
      declared ← from_option_res (TKnowledge (forbidden "knowledge_input_not_authorized")) (declared_input_of (ma_payload access) ref);
      let identity := get "inputIdentity" declared in
      expected ← catch (representation_id identity spec_digest) (fun e => Err (TKnowledge e));
      require (is_str expected (get "representationId" request)) (TKnowledge (refused "knowledge_representation_binding_mismatch"));;
      let '(r, cache) := _current_input signing_key equal_proofs h (ma_run access) (ma_row access) ref digest (Some verified) in
      resolved ← catch r (fun e => Err (input_exception e));
      o ← catch (_input_owner h access ref resolved.1) (fun e => Err (TKnowledge e));
      rest ← bind_loop h access digest spec_digest (default verified cache) requests;
      Ok (ToolInput resolved.1 resolved.2 o identity expected :: rest)
  end.
Definition bind_inputs (s : tools) (access : material_access) (requests : value) : res texn (list tool_input) :=
  l ← from_option_res (TKnowledge (invalid "knowledge_inputs_invalid")) (as_list requests);
  require (forallb valid_request l) (TKnowledge (invalid "knowledge_input_fields_invalid"));;
  require (bool_decide (NoDup (map (fun request => text_of (get "inputRef" request)) l))) (TKnowledge (invalid "knowledge_inputs_invalid"));;
  bind_loop (tables s) access (ma_authorization access) (ma_spec_digest access) None l.

(** ** Reads and searches *)

Definition MAX_SEARCH_CANDIDATES : Z := 10000.
Definition committed_input (item : tool_input) : bound_input := BoundInput (bi_owner item) (bi_identity item) (bi_representation item).
(** the inputs with their representations, and the inputs that have none yet *)
Fixpoint _representations (m : mstate) (inputs : list tool_input) : K (list (tool_input * rep_row) * list value) :=
  match inputs with
  | [] => Ok ([], [])
  | item :: inputs =>
      match ms_reps m !! bi_representation item with
      | None =>
          rest ← _representations m inputs;
          Ok (rest.1, VDict [("inputRef", get "inputRef" (bi_resolved item)); ("representationId", VStr (bi_representation item))] :: rest.2)
      | Some r =>
          require_representation_input r (committed_input item);;
          rest ← _representations m inputs;
          Ok ((item, r) :: rest.1, rest.2)
      end
  end.
Definition pending (missing : list value) : value := VDict [("disposition", VStr "pending"); ("missing", VList missing)].
Definition _read_representation (m : mstate) (item : tool_input) (r : rep_row) (offset limit : Z) (full_window : bool) : K value :=
  let p := rp_text r in
  data ← read_stored (ms_store m) (pt_key p) (pt_size p) (pt_sha256 p);
  content ← from_option_res KValueError (utf8_decode data);
  read_evidence content (bi_resolved item) (bi_identity item) (bi_representation item) r offset limit full_window.
Fixpoint read_each (m : mstate) (offset limit : Z) (full_window : bool) (l : list (tool_input * rep_row)) : K (list value) :=
  match l with
  | [] => Ok []
  | (item, r) :: l => v ← _read_representation m item r offset limit full_window; rest ← read_each m offset limit full_window l; Ok (v :: rest)
  end.
Definition int_or_none (p : Z -> bool) (v : value) : bool := is_none v || int_where p v.
Definition read_materials (s : tools) (access : material_access) (bindings offset limit : value) (full_window : bool) : res texn value :=
  inputs ← bind_inputs s access bindings;
  let fail code := TKnowledge (invalid code) in
  require ((1 <=? zlen inputs) && (zlen inputs <=? 4)) (fail "knowledge_read_inputs_invalid");;
  require (negb ((1 <? zlen inputs) && negb (is_none offset && is_none limit))) (fail "knowledge_read_batch_pagination_invalid");;
  require (int_or_none (Z.leb 0) offset) (fail "knowledge_read_offset_invalid");;
  require (int_or_none (fun z => (1 <=? z) && (z <=? MAX_READ_LINES)) limit) (fail "knowledge_read_limit_invalid");;
  catch
    (found ← _representations (tl_materials s) inputs;
     match found.2 with
     | [] =>
         items ← read_each (tl_materials s) (int_of offset) (default MAX_READ_LINES (as_int limit)) full_window found.1;
         Ok (VDict [("disposition", VStr "ready"); ("items", VList items); ("processingSpecification", ma_specification access)])
     | missing => Ok (pending missing)
     end) (fun e => Err (TKnowledge e)).

(** [re.findall(r"\w+", s)] *)
Fixpoint find_words (word : list Z) (l : list Z) : list pystr :=
  match l with
  | [] => match word with [] => [] | _ => [PyStr word] end
  | c :: l => if word_char c then find_words (word ++ [c]) l else match word with [] => find_words [] l | _ => PyStr word :: find_words [] l end
  end.
(** [list(dict.fromkeys(l))] *)
Fixpoint first_of_each (seen l : list pystr) : list pystr :=
  match l with [] => [] | x :: l => if bool_decide (x ∈ seen) then first_of_each seen l else x :: first_of_each (seen ++ [x]) l end.
Definition search_terms (query : pystr) : list pystr :=
  match first_of_each [] (find_words [] (code_points (str_casefold query))) with [] => [str_casefold query] | terms => terms end.
(** [s.count(sub)]; every iteration drops a character *)
Fixpoint count_in (fuel : nat) (sub l : list Z) : Z :=
  match fuel with
  | O => 0
  | S fuel =>
      match l with
      | [] => 0
      | _ :: l' => if prefixb sub l then 1 + count_in fuel sub (drop (length sub) l) else count_in fuel sub l'
      end
  end.
Definition str_count (s sub : pystr) : Z := if is_empty sub then str_len s + 1 else count_in (length (code_points s)) (code_points sub) (code_points s).
Definition match_score (query text : pystr) : Z :=
  let folded := str_casefold text in
  let score := foldr Z.add 0 (map (str_count folded) (search_terms query)) in
  if score =? 0 then 0 else if str_contains folded (str_casefold query) then score + 2 else score.

(** a segment that matches, with its score and the time its owner changed *)
Record found := Found { fd_score : Z; fd_time : Z; fd_segment : segment; fd_input : tool_input; fd_rep : rep_row }.
Definition found_key (recent : bool) (x : found) : Z * Z := if recent then (- fd_time x, - fd_score x) else (- fd_score x, - fd_time x).
Definition found_le (recent : bool) (x y : found) : Prop :=
  let (a, b) := found_key recent x in let (c, d) := found_key recent y in a < c \/ a = c /\ (b < d \/ b = d /\ str_le (sg_id (fd_segment x)) (sg_id (fd_segment y))).
#[global] Instance found_le_dec recent : RelDecision (found_le recent).
Proof. intros x y. unfold found_le. destruct (found_key recent x), (found_key recent y). apply _. Defined.

(** The columns [updatedAt], [publishedAt] and [createdAt] of an owner as microseconds, which the rows of the model leave out. *)
Record owner_times := OwnerTimes { ot_updated : owner -> option Z; ot_published : owner -> option Z; ot_created : owner -> Z }.
Definition owner_updated_at (times : owner_times) (o : owner) : Z :=
  match ot_updated times o with Some t => t | None => match ot_published times o with Some t => t | None => ot_created times o end end.
(** Django's [parse_datetime]: an exception, no date, a date without a time zone, or an instant; and [isoformat] of an instant. *)
Inductive parsed_date := BadDate | NoDate | NaiveDate | Instant (at_ : Z).
Context (times : owner_times) (parse_datetime : pystr -> parsed_date) (isoformat : Z -> pystr).

Definition date_bound (raw : value) : K (option Z) :=
  let fail := invalid "knowledge_search_date_range_invalid" in
  match raw with
  | VNone => Ok None
  | VStr text => match parse_datetime text with BadDate => Err KValueError | Instant at_ => Ok (Some at_) | _ => Err fail end
  | _ => Err fail
  end.
Definition _date_range (v : value) : K (option Z * option Z) :=
  let fail := invalid "knowledge_search_date_range_invalid" in
  if is_none v then Ok (None, None)
  else
    require (keys_are ["updatedFrom"; "updatedTo"] v) fail;;
    from ← date_bound (get "updatedFrom" v); to ← date_bound (get "updatedTo" v);
    require match from, to with Some a, Some b => a <=? b | _, _ => true end fail;;
    Ok (from, to).
Definition _within_date_range (t : Z) (range : option Z * option Z) : bool :=
  match range.1 with Some a => a <=? t | None => true end && match range.2 with Some b => t <=? b | None => true end.

(** the last input with a representation counts *)
Definition input_with (rid : pystr) (l : list (tool_input * rep_row)) : option (tool_input * rep_row) :=
  last (filter (fun x => bi_representation x.1 = rid) l).
Definition candidates (m : mstate) (l : list (tool_input * rep_row)) : list (pystr * segment) :=
  map snd (qs_list (fun row => bool_decide (row.1 ∈ map (fun x => bi_representation x.1) l)) (ms_segments m)).
Definition segment_match (query : pystr) (l : list (tool_input * rep_row)) (row : pystr * segment) : option found :=
  let score := match_score query (sg_text row.2) in
  if score =? 0 then None
  else '(item, r) ← input_with row.1 l; Some (Found score (owner_updated_at times (bi_owner item)) row.2 item r).
Definition found_evidence (full_window : bool) (x : found) : K value :=
  search_evidence (fd_segment x) (bi_representation (fd_input x)) (rp_spec (fd_rep x)) (bi_resolved (fd_input x)) (bi_identity (fd_input x)) (fd_score x) (isoformat (fd_time x)) full_window.
Fixpoint each_evidence (full_window : bool) (l : list found) : K (list value) :=
  match l with [] => Ok [] | x :: l => v ← found_evidence full_window x; rest ← each_evidence full_window l; Ok (v :: rest) end.

(** The candidates are sorted by their matches, the last key being the id of the segment: their own order does not matter. *)
Definition search_materials (s : tools) (access : material_access) (bindings query ranking date_range limit : value) (full_window : bool) : res texn value :=
  let fail := TKnowledge (invalid "knowledge_search_arguments_invalid") in
  text ← from_option_res fail (as_str query);
  require (negb (is_empty (strip text))) fail;;
  data ← catch (encode text) (fun e => Err (TKnowledge e));
  require ((zlen data <=? 2048) && str_in ["relevance"; "recent"] ranking && int_where (fun z => (1 <=? z) && (z <=? 20)) limit) fail;;
  inputs ← bind_inputs s access bindings;
  require (zlen inputs <=? 128) (TKnowledge (invalid "knowledge_search_inputs_invalid"));;
  catch
    (range ← _date_range date_range;
     let inputs := List.filter (fun item => _within_date_range (owner_updated_at times (bi_owner item)) range) inputs in
     reps ← _representations (tl_materials s) inputs;
     match reps.2 with
     | [] =>
         let rows := candidates (tl_materials s) reps.1 in
         require (zlen rows <=? MAX_SEARCH_CANDIDATES) (refused "knowledge_search_candidate_limit_exceeded");;
         let matches := omap (segment_match text reps.1) rows in
         let best := take (Z.to_nat (int_of limit)) (merge_sort (found_le (is_str "recent" ranking)) matches) in
         hits ← each_evidence full_window best;
         Ok (VDict [("disposition", VStr "ready"); ("query", query); ("ranking", ranking); ("hits", VList hits); ("processingSpecification", ma_specification access)])
     | missing => Ok (pending missing)
     end) (fun e => Err (TKnowledge e)).

(** ** Operations *)

Definition task_status_str (t : task_status) : pystr :=
  match t with TPending => "pending" | TRunning => "running" | TCompleted => "completed" | TFailed => "failed" end.
Definition _result (id : pystr) (o : operation_row) (t : task_row) : value :=
  let status := match mo_cancelled_at o with Some _ => "cancelled" | None => task_status_str (tk_status t) end in
  VDict [("operationId", VStr id); ("inputRef", VStr (mo_input_ref o)); ("status", VStr status);
         ("errorCode", if bool_decide (status = "failed") then VStr (tk_error t) else VNone)].
Definition operation_id (run task : pystr) : K pystr :=
  data ← encode (json_dumps_ascii (VList [VStr run; VStr task])); Ok ("material.operation:" +:+ str_drop 7 (sha256_tag data)).
(** [MaterialOperation.objects.get_or_create(agent_run=..., task=...)] *)
Definition operation_get_or_create (run task ref : pystr) : TM (pystr * operation_row) := fun s =>
  match qs_first (fun o => bool_decide (mo_run o = run) && bool_decide (mo_task o = task)) (tl_operations s) with
  | Some row => (Ok row, s)
  | None =>
      match operation_id run task with
      | Err e => (Err (TKnowledge e), s)
      | Ok id =>
          match tl_operations s !! id with
          | Some _ => (Err TIntegrity, s)
          | None => let o := Operation run task ref None in (Ok (id, o), set_tl_operations <[id := o]> s)
          end
      end
  end.
Definition create_operation (access : material_access) (item : tool_input) : TM value :=
  let ref := text_of (get "inputRef" (bi_resolved item)) in
  s ← tget;
  (** [admit_task] binds the input again *)
  again ← tres (bind_inputs s access (VList [VDict [("inputRef", VStr ref); ("representationId", VStr (bi_representation item))]]));
  b ← tres (from_option_res (TKnowledge KTypeError) (head again));
  rid ← tmaterial (admit_task (bi_representation b) (ma_specification access) (bi_identity b) (ma_spec_digest access) (get "sizeBytes" (bi_resolved b)));
  row ← operation_get_or_create (ma_run access) rid ref;
  s ← tget;
  t ← tres (from_option_res TDoesNotExist (ms_tasks (tl_materials s) !! mo_task row.2));
  mret (_result row.1 row.2 t).
Definition create_operations (access : material_access) (missing : value) : TM (list value) :=
  s ← tget;
  bound ← tres (bind_inputs s access missing);
  tatomic (tmap (create_operation access) bound).

(** [now] is the time of the call *)
Definition operation_result (access : material_access) (id : pystr) (cancel : bool) (now : Z) : TM value :=
  tatomic (
    s ← tget;
    let missing := TKnowledge (KnowledgeError "material_operation_not_found" 404) in
    o ← tres (from_option_res missing (tl_operations s !! id));
    t ← tres (from_option_res missing (ms_tasks (tl_materials s) !! mo_task o));
    tres (require (bool_decide (mo_run o = ma_run access) && is_str (ma_spec_digest access) (get "specDigest" (tk_payload t))) missing) ≫= fun _ =>
    if cancel then
      if bool_decide (mo_cancelled_at o = None) && task_active (tk_status t) then
        let o := Operation (mo_run o) (mo_task o) (mo_input_ref o) (Some now) in
        tput (set_tl_operations <[id := o]>) ≫= fun _ => mret (_result id o t)
      else mret (_result id o t)
    else
      tres (bind_inputs s access (VList [VDict [("inputRef", VStr (mo_input_ref o)); ("representationId", VStr (mo_task o))]])) ≫= fun _ =>
      mret (_result id o t)).

(** ** Saved results *)

(** PostgreSQL refuses a document with a NUL character; the order of its keys does not matter to what reads it *)
Fixpoint storable_json (v : value) : bool :=
  match v with
  | VStr s => storable_text s
  | VList l => forallb storable_json l
  | VDict d => forallb (fun kx => storable_text kx.1 && storable_json kx.2) d
  | _ => true
  end.
Definition hex_of_call (call : pystr) : K pystr := data ← encode call; Ok (sha256_hex data).
Fixpoint ranges_of (pages : list value) : K (list value) :=
  match pages with
  | [] => Ok []
  | page :: pages =>
      start ← need "canonicalStartByte" page; stop ← need "canonicalEndByte" page; text ← need "pageText" page; number ← need "page" text;
      rest ← ranges_of pages;
      Ok (VList [start; stop; number] :: rest)
  end.
Fixpoint page_ranges_of (rows : list (pystr * rep_row)) : K (list (pystr * value)) :=
  match rows with
  | [] => Ok []
  | (rid, r) :: rows => pages ← manifest_pages (rp_manifest r); ranges ← ranges_of pages; rest ← page_ranges_of rows; Ok ((rid, VList ranges) :: rest)
  end.
Fixpoint representations_of (items : list value) : K (list value) :=
  match items with [] => Ok [] | item :: items => rid ← need "representationId" item; rest ← representations_of items; Ok (rid :: rest) end.
Definition saved_payload (m : mstate) (result : value) : K value :=
  items ← result_values result;
  ids ← representations_of items;
  ranges ← page_ranges_of (List.filter (fun row => existsb (is_str row.1) ids) (qs_list (fun _ => true) (ms_reps m)));
  Ok (dict_set "_pageRanges" (VDict ranges) result).
Definition snapshot_digest (payload : value) : K pystr := data ← encode (dumped_spaced (sort_keys payload)); Ok (sha256_tag data).
(** [MaterialResultSnapshot.objects.get_or_create(call=call)] *)
Definition result_get_or_create (call id : pystr) (payload : value) (digest : pystr) : TM result_row := fun s =>
  match tl_results s !! call with
  | Some row => (Ok row, s)
  | None =>
      if negb (storable_json payload) then (Err TDataError, s)
      else if qs_exists (fun r => bool_decide (rs_id r = id)) (tl_results s) then (Err TIntegrity, s)
      else let row := ResultSnapshot id payload digest in (Ok row, set_tl_results <[call := row]> s)
  end.
Definition save_result (call : pystr) (result : value) : TM value :=
  s ← tget;
  payload ← tlift (saved_payload (tl_materials s) result);
  digest ← tlift (snapshot_digest payload);
  hex ← tlift (hex_of_call call);
  row ← result_get_or_create call ("material.result:" +:+ hex) payload digest;
  tlift (require (bool_decide (rs_sha256 row = digest) && equal_values (rs_payload row) payload) (refused "material_result_replay_conflict")) ≫= fun _ =>
  tlift (render_page (dict_set "_digest" (VStr digest) payload) (rs_id row) (VStr "0:0")).

(** the bindings of the results, by input *)
Fixpoint result_bindings (items : list value) (d : list (pystr * value)) : K (list (pystr * value)) :=
  match items with
  | [] => Ok d
  | item :: items =>
      ref ← need_str "inputRef" item; rid ← need "representationId" item;
      result_bindings items (assoc_set ref (VDict [("inputRef", VStr ref); ("representationId", rid)]) d)
  end.
Definition in_scope (access : material_access) (e : tool_event) : bool :=
  bool_decide (te_session e = r_session (rf_life (ma_row access))) && bool_decide (te_workspace e = r_workspace (rf_life (ma_row access))).
(** a saved result that a call of the session of the run made *)
Definition find_result (s : tools) (access : material_access) (ref : pystr) : option (pystr * result_row) :=
  List.find (fun cr => bool_decide (rs_id cr.2 = ref) && match tl_events s !! cr.1 with Some e => in_scope access e | None => false end) (map_to_list (tl_results s)).
Definition read_result (s : tools) (access : material_access) (ref : pystr) (cursor : value) : res texn value :=
  row ← from_option_res (TKnowledge (forbidden "material_result_not_authorized")) (find_result s access ref);
  let payload := rs_payload row.2 in
  catch
    (digest ← snapshot_digest payload;
     require (bool_decide (digest = rs_sha256 row.2)) (refused "material_result_integrity_failed");;
     items ← result_values payload;
     result_bindings items []) (fun e => Err (TKnowledge e))
  ≫= fun bindings =>
  bind_inputs s access (VList (map snd bindings));;
  catch (render_page (dict_set "_digest" (VStr (rs_sha256 row.2)) payload) (rs_id row.2) cursor) (fun e => Err (TKnowledge e)).

(** ** Receipts *)

Definition PROVIDER_ID : pystr := "workspace.materials".
Definition CITABLE_TOOLS : list pystr := ["read_material"; "search_materials"; "read_material_result"].
Definition EVIDENCE_FIELDS : list pystr :=
  ["inputRef"; "ownerRef"; "ownerKind"; "displayName"; "evidenceKind"; "ownerSha256"; "ownerGeneration"; "representationId"; "specDigest"; "evidenceSha256"; "locator"].
Definition _identity (prefix text : pystr) : K pystr := data ← encode text; Ok (prefix +:+ sha256_hex data).

(** the events of a run with a type and a call *)
Definition call_events (s : tools) (run type : pystr) (call_id : value) (through : option Z) : list (pystr * tool_event) :=
  qs_list (fun e => bool_decide (te_run e = run) && is_str type (get "type" (te_payload e)) && equal_values (get "callId" (get "payload" (te_payload e))) call_id
                    && match through with Some n => te_sequence e <=? n | None => true end) (tl_events s).
Definition authorize_call (s : tools) (access : material_access) (call_id name : pystr) (arguments : value) : res texn (pystr * tool_event) :=
  let fail := TValueError "material_call_binding_invalid" in
  require ((0 <? str_len call_id) && (str_len call_id <=? 160)) fail;;
  match call_events s (ma_run access) "tool_call" (VStr call_id) None with
  | [call] =>
      let payload := get "payload" (te_payload call.2) in
      require (in_scope access call.2 && is_str PROVIDER_ID (get "providerId" payload) && is_str name (get "toolName" payload) && equal_values (get "normalizedInput" payload) arguments) fail;;
      Ok call
  | _ => Err fail
  end.

Fixpoint take_fields (fields : list pystr) (item : value) : K (list (pystr * value)) :=
  match fields with [] => Ok [] | f :: fields => x ← need f item; rest ← take_fields fields item; Ok ((f, x) :: rest) end.
Definition citable (item : value) : bool := match get "citationAllowed" item with VBool true => truthy (get "content" item) && truthy (get "locator" item) | _ => false end.
Fixpoint evidence_of (items : list value) : K (list value) :=
  match items with
  | [] => Ok []
  | item :: items =>
      if citable item then d ← take_fields EVIDENCE_FIELDS item; rest ← evidence_of items; Ok (VDict d :: rest) else evidence_of items
  end.
Fixpoint citation_ids (identity : pystr) (index : Z) (n : nat) : K (list value) :=
  match n with O => Ok [] | S n => id ← _identity "citation:" (identity +:+ ":" +:+ int_str index); rest ← citation_ids identity (index + 1) n; Ok (VStr id :: rest) end.
(** [MaterialEvidenceReceipt.objects.get_or_create(call=call)] *)
Definition receipt_get_or_create (call : pystr) (r : evidence_receipt) : TM evidence_receipt := fun s =>
  match tl_receipts s !! call with
  | Some row => (Ok row, s)
  | None =>
      if negb (storable_json (mr_projection r) && forallb storable_json (mr_evidence r)) then (Err TDataError, s)
      else if qs_exists (fun row => bool_decide (mr_id row = mr_id r)) (tl_receipts s) then (Err TIntegrity, s)
      else (Ok r, set_tl_receipts <[call := r]> s)
  end.
Definition json_value (text : pystr) : K value := match json_loads text with Ok v => Ok v | Err _ => Err KValueError end.
Definition persist_receipt (access : material_access) (call name : pystr) (result : value) : TM value :=
  if negb (bool_decide (name ∈ CITABLE_TOOLS) && is_str "ready" (get "disposition" result)) then mret result
  else
    items ← tlift (result_values result);
    evidence ← tlift (evidence_of items);
    match evidence with
    | [] => mret result
    | _ =>
        identity ← tlift (_identity "material.receipt:" call);
        ids ← tlift (citation_ids identity 0 (length evidence));
        let output := dict_update [("receiptId", VStr identity); ("citationIds", VList ids)] result in
        tatomic (
          row ← receipt_get_or_create call (EvidenceReceipt identity (ma_authorization access) (dumped_spaced output) output evidence);
          let fail := TValueError "material_receipt_replay_conflict" in
          tres (require (bool_decide (mr_authorization row = ma_authorization access) && equal_values (VList (mr_evidence row)) (VList evidence)) fail) ≫= fun _ =>
          answer ← tlift (json_value (mr_response row));
          tres (require (equal_values answer output) fail) ≫= fun _ =>
          mret answer)
    end.

(** A citation of a run: its id, the event of its result, the tool, the call and the evidence. *)
Record material_citation := MaterialCitation { mc_id : value; mc_sequence : Z; mc_tool : value; mc_call : value; mc_evidence : value }.
(** the result of a call was committed, and is what the receipt says; numbers that are missing cannot be compared *)
Definition committed_result (r : evidence_receipt) (call result : tool_event) : K bool :=
  let payload := get "payload" (te_payload call) in let body := get "payload" (te_payload result) in
  if negb (is_str PROVIDER_ID (get "providerId" payload) && str_in CITABLE_TOOLS (get "toolName" payload)
           && bool_decide (te_session result = te_session call) && bool_decide (te_workspace result = te_workspace call)) then Ok false
  else
  call_number ← from_option_res KTypeError (te_run_sequence call);
  result_number ← from_option_res KTypeError (te_run_sequence result);
  Ok ((call_number <? result_number) && equal_values (get "turnId" (te_payload result)) (get "turnId" (te_payload call))
  && equal_values (get "toolName" body) (get "toolName" payload) && is_str "successWithOutput" (get "resultState" body)
  && match get "outputComplete" body with VBool true => true | _ => false end
  && match get "modelContent" body with
     | VStr text => match json_loads text with Ok actual => equal_values actual (mr_projection r) | Err _ => false end
     | _ => false
     end).
Fixpoint number_citations (ids : value) (index : nat) (sequence : Z) (tool call : value) (evidence : list value) : K (list material_citation) :=
  match evidence with
  | [] => Ok []
  | e :: evidence =>
      l ← from_option_res KTypeError (as_list ids);
      id ← from_option_res KKeyError (l !! index);
      rest ← number_citations ids (S index) sequence tool call evidence;
      Ok (MaterialCitation id sequence tool call e :: rest)
  end.
(** the citations of one receipt *)
Definition receipt_citations (s : tools) (run : pystr) (through : option Z) (call : tool_event) (r : evidence_receipt) : K (list material_citation) :=
  let payload := get "payload" (te_payload call) in
  match call_events s run "tool_result" (get "callId" payload) through with
  | [(_, result)] =>
      committed ← committed_result r call result;
      if (committed : bool) then
        match json_loads (mr_response r) with
        | Err _ => Ok []
        | Ok output => number_citations (get "citationIds" output) 0 (te_sequence result) (get "toolName" payload) (get "callId" payload) (mr_evidence r)
        end
      else Ok []
  | _ => Ok []
  end.
Fixpoint each_receipt (s : tools) (run : pystr) (through : option Z) (rows : list (pystr * evidence_receipt)) : K (list material_citation) :=
  match rows with
  | [] => Ok []
  | (call, r) :: rows =>
      match tl_events s !! call with
      | Some e =>
          if bool_decide (te_run e = run) then
            l ← receipt_citations s run through e r; rest ← each_receipt s run through rows; Ok (l ++ rest)
          else each_receipt s run through rows
      | None => each_receipt s run through rows
      end
  end.
Definition citation_projections (s : tools) (run : pystr) (through : option Z) : K (list material_citation) := each_receipt s run through (map_to_list (tl_receipts s)).

(** ** The tools *)

Definition string_schema (extra : list (pystr * value)) : value := VDict (("type", VStr "string") :: ("minLength", VInt 1) :: extra).
Definition _schema (properties : list (pystr * value)) (required : list pystr) : value :=
  VDict [("type", VStr "object"); ("properties", VDict properties); ("required", VList (map VStr required)); ("additionalProperties", VBool false)].
(** the tools with the schemas of their arguments *)
Definition TOOLS : list (pystr * value) :=
  [("list_materials", _schema [] []);
   ("read_material", _schema [("input_ref", string_schema []); ("offset", VDict [("type", VStr "integer"); ("minimum", VInt 0)]);
                              ("limit", VDict [("type", VStr "integer"); ("minimum", VInt 1); ("maximum", VInt 2000)])] ["input_ref"]);
   ("search_materials", _schema [("query", string_schema []);
                                 ("input_refs", VDict [("type", VStr "array"); ("items", string_schema []); ("uniqueItems", VBool true); ("maxItems", VInt 128)]);
                                 ("ranking", VDict [("enum", VList [VStr "relevance"; VStr "recent"])]);
                                 ("limit", VDict [("type", VStr "integer"); ("minimum", VInt 1); ("maximum", VInt 20)])] ["query"]);
   ("read_material_result", _schema [("result_ref", string_schema [("maxLength", VInt 96)]);
                                     ("cursor", VDict [("type", VStr "string"); ("pattern", VStr "^[0-9]{1,10}:[0-9]{1,12}$")])] ["result_ref"; "cursor"]);
   ("get_operation", _schema [("operation_id", string_schema [("maxLength", VInt 96)])] ["operation_id"]);
   ("cancel_operation", _schema [("operation_id", string_schema [("maxLength", VInt 96)])] ["operation_id"])].

(** the references a tool is called with: those it names, or all that are declared *)
Definition requested_refs (name : pystr) (arguments : value) (declared : list (pystr * value)) : K (list value) :=
  if bool_decide (name = "read_material") then ref ← need "input_ref" arguments; Ok [ref]
  else if has_key "input_refs" arguments then from_option_res KTypeError (as_list (get "input_refs" arguments))
  else Ok (map (fun d => VStr d.1) declared).
Fixpoint bindings_of (spec_digest : pystr) (declared : list (pystr * value)) (refs : list value) : K (list value) :=
  match refs with
  | [] => Ok []
  | ref :: refs =>
      rid ← representation_id (get "inputIdentity" (default VNone (assoc_first (text_of ref) declared))) spec_digest;
      rest ← bindings_of spec_digest declared refs;
      Ok (VDict [("inputRef", ref); ("representationId", VStr rid)] :: rest)
  end.
Definition is_declared (declared : list (pystr * value)) (ref : value) : bool :=
  match ref with VStr r => bool_decide (is_Some (assoc_first r declared)) | _ => false end.
Definition listed (declared : list (pystr * value)) (ref : value) : value :=
  let item := default VNone (assoc_first (text_of ref) declared) in
  VDict [("inputRef", ref); ("displayName", get "displayName" item); ("contentType", get "contentType" item); ("sizeBytes", get "sizeBytes" item)].

(** [call_id] is the header of the request; [now] the time *)
Definition execute_tool (context : access_context) (call_id : option pystr) (name : pystr) (arguments : value) (now : Z) : TM value :=
  s ← tget;
  access ← tres (authorize_context s context);
  call ← tres match call_id with
              | Some id => c ← authorize_call s access id name arguments; Ok (Some c.1)
              | None => Ok None
              end;
  let receipt result := match call with Some call => persist_receipt access call name result | None => mret result end in
  if bool_decide (name ∈ ["get_operation"; "cancel_operation"]) then
    id ← tlift (need_str "operation_id" arguments);
    operation_result access id (bool_decide (name = "cancel_operation")) now
  else if bool_decide (name = "read_material_result") then
    ref ← tlift (need_str "result_ref" arguments);
    cursor ← tlift (need "cursor" arguments);
    result ← tres (read_result s access ref cursor);
    receipt result
  else
    let declared := declared_by_ref (ma_payload access) in
    refs ← tlift (requested_refs name arguments declared);
    tlift (require (forallb (is_declared declared) refs) (forbidden "knowledge_input_not_authorized")) ≫= fun _ =>
    bindings ← tlift (bindings_of (ma_spec_digest access) declared refs);
    if bool_decide (name = "list_materials") then
      tres (bind_inputs s access (VList bindings)) ≫= fun _ => mret (VDict [("items", VList (map (listed declared) refs))])
    else
      result ← (if bool_decide (name = "read_material") then tres (read_materials s access (VList bindings) (get "offset" arguments) (get "limit" arguments) true)
                else if bool_decide (name = "search_materials") then
                  query ← tlift (need "query" arguments);
                  tres (search_materials s access (VList bindings) query (if has_key "ranking" arguments then get "ranking" arguments else VStr "relevance") VNone
                          (if has_key "limit" arguments then get "limit" arguments else VInt 10) true)
                else tres (Err (TValueError "unknown_tool")));
      if is_str "pending" (get "disposition" result) then
        operations ← create_operations access (get "missing" result);
        receipt (dict_set "operations" (VList operations) result)
      else
        result ← match call with Some call => if is_str "ready" (get "disposition" result) then save_result call result else mret result | None => mret result end;
        receipt result.

(** [CallToolResult] *)
Inductive tool_reply := Structured (v : value) | ToolError (code : pystr).
(** the code a client sees; other exceptions are not caught *)
Definition error_code (e : texn) : option pystr :=
  match e with
  | TKnowledge (KnowledgeError code _) => Some code
  | CredentialRejected | TValueError _ | TKnowledge (KValueError | KUnicodeEncodeError | KContract (CValueError _ | CUnicodeEncodeError)) | TMaterial (MValueError _) =>
      Some ("platform_mcp_tool_rejected" : pystr)
  | _ => None
  end.
(** [Draft202012Validator(schema).is_valid(arguments)] of the package jsonschema *)
Context (is_valid : value -> value -> bool).
Definition _call_tool (context : option access_context) (call_id : option pystr) (name : pystr) (arguments : value) (now : Z) (s : tools) : res texn tool_reply * tools :=
  let rejected := (Ok (ToolError "platform_mcp_tool_rejected"), s) in
  match assoc_first name TOOLS with
  | None => rejected
  | Some schema =>
      let arguments := if is_none arguments then VDict [] else arguments in
      if negb (is_valid schema arguments) then rejected
      else
        match context with
        | None => rejected
        | Some context =>
            match execute_tool context call_id name arguments now s with
            | (Ok v, s') => (Ok (Structured v), s')
            | (Err e, s') => match error_code e with Some code => (Ok (ToolError code), s') | None => (Err e, s') end
            end
        end
  end.

(** ** Credentials *)

Definition TTL_SECONDS : Z := 300.
Definition MAX_TOKEN_BYTES : Z := 16 * 1024.
Definition CLAIM_FIELDS : list pystr := ["schema"; "agentRunId"; "authorizationDigest"; "processingSpecification"; "specDigest"; "issuedAt"; "expiresAt"].
(** Django's [signing.dumps] and [signing.loads] with the key and the salt of these credentials; [None] for a bad signature *)
Context (sign : value -> pystr) (unsign : pystr -> option value).

Definition claims_of (context : access_context) (seconds : Z) : value :=
  VDict [("schema", VStr "workspace.mcp.credential.v1"); ("agentRunId", VStr (ac_run context)); ("authorizationDigest", ac_authorization context);
         ("processingSpecification", ac_specification context); ("specDigest", ac_spec_digest context); ("issuedAt", VInt seconds); ("expiresAt", VInt (seconds + TTL_SECONDS))].
(** [now] in microseconds *)
Definition issue_credential (s : tools) (context : access_context) (now : Z) : res texn value :=
  authorize_context s context;;
  let seconds := now / 1000000 in
  let token := sign (claims_of context seconds) in
  require (str_len token <=? MAX_TOKEN_BYTES) CredentialRejected;;
  Ok (VDict [("schema", VStr "workspace.mcp.credential.result.v1"); ("accessToken", VStr token); ("expiresAt", VInt (seconds + TTL_SECONDS))]).
Definition verify_credential (s : tools) (token : pystr) (now : Z) : res texn access_context :=
  require ((0 <? str_len token) && (str_len token <=? MAX_TOKEN_BYTES)) CredentialRejected;;
  claims ← from_option_res CredentialRejected (unsign token);
  require (keys_are CLAIM_FIELDS claims && is_str "workspace.mcp.credential.v1" (get "schema" claims)) CredentialRejected;;
  issued ← from_option_res CredentialRejected (as_int (get "issuedAt" claims));
  expires ← from_option_res CredentialRejected (as_int (get "expiresAt" claims));
  require ((expires - issued =? TTL_SECONDS) && (issued * 1000000 <=? now) && (now <? expires * 1000000)) CredentialRejected;;
  run ← from_option_res CredentialRejected (as_str (get "agentRunId" claims));
  let context := AccessContext run (get "authorizationDigest" claims) (get "processingSpecification" claims) (get "specDigest" claims) in
  authorize_context s context;;
  Ok context.

(** [key.lower()] of bytes, [b.decode("ascii")] *)
Definition lower_bytes (b : bytes) : bytes := map lower_char b.
Definition header_values (name : pystr) (headers : list (bytes * bytes)) : list bytes :=
  map snd (List.filter (fun h => bool_decide (lower_bytes h.1 = code_points name)) headers).
Definition decode_ascii (b : bytes) : option pystr := if forallb is_ascii b then Some (PyStr b) else None.
Definition bearer : bytes := code_points "Bearer ".
(** [ScopedAuthentication]: the context and the call of a request, or a response with the status 401 *)
Definition scoped_authentication (s : tools) (headers : list (bytes * bytes)) (now : Z) : res texn (access_context * option pystr) :=
  let call_ids := header_values "x-workspace-tool-call-id" headers in
  call_id ← match call_ids with
            | [] => Ok None
            | [id] => require ((0 <? zlen id) && (zlen id <=? 160)) CredentialRejected;; text ← from_option_res CredentialRejected (decode_ascii id); Ok (Some text)
            | _ => Err CredentialRejected
            end;
  match header_values "authorization" headers with
  | [token] =>
      require (bool_decide (header_values "origin" headers = []) && prefixb bearer token) CredentialRejected;;
      text ← from_option_res CredentialRejected (decode_ascii (drop 7 token));
      context ← verify_credential s text now;
      Ok (context, call_id)
  | _ => Err CredentialRejected
  end.
End platform.
