(* ===== verification/MaterialToolsProps.v ===== *)
(** * Platform tools over processed documents: properties

    What a tool shows and what a citation names: the bytes of a stored text, by their hash; and that a tool answers only a run
    whose authorization is current. *)

From stdpp Require Import base tactics list gmap numbers sorting.
From S2P Require Import Prelude PyStr Table Utf8 Sha256 Platform Schema Access AgentIdentity Delegation PyValue Json Lifecycle Contract Snapshot WorkspaceCommit Assets Library Sources ResourceGc Plugins Hosted Inputs InputsProps RuntimeReplies TranscriptProps MaterialManifest MaterialManifestProps Materials MaterialRecovery MaterialDelivery MaterialDeliveryProps MaterialTools.

(** ** Pages, whatever they are made of *)

Lemma need_inv k v x : need k v = Ok x -> is_dict v = true /\ get k v = x.
Proof. unfold need. destruct v; try done. case_match; [|done]. by intros [= <-]. Qed.
Lemma need_int_inv k v z : need_int k v = Ok z -> is_dict v = true /\ get k v = VInt z.
Proof. unfold need_int. destruct (need k v) as [x|] eqn:E; [|done]. apply need_inv in E as [? ?]. cbn. destruct x; try done. intros [= <-]. done. Qed.
Lemma located_inv snapshot original offset prefix text l : located snapshot original offset prefix text = Ok l ->
  get "locator" original <> VNone -> text <> "" -> shifted (get "locator" original) l offset (zlen (encode_cps (code_points text))).
Proof.
  intros H Hn Ht. unfold located in H. replace (is_none (get "locator" original)) with false in H by (by destruct (get "locator" original)).
  destruct (is_empty text) eqn:Ee; [by apply is_empty_true in Ee|]. cbn [orb] in H. binds H.
  match goal with E : need_int "startByte" _ = Ok ?z |- _ => apply need_int_inv in E as [Hd Hs]; rename z into start end. match goal with E : encode text = Ok _ |- _ => apply encode_Ok_inv in E as [_ ->] end.
  exists start. split; [done|]. match type of H with context [dict_update ?u (get "locator" original)] => set (upd := u) in * end.
  match goal with E : page_ranges _ _ = Ok ?r |- _ => destruct r as [|r0 rs] end.
  - match type of H with Ok ?w = _ => assert (l = w) as -> by congruence end. rewrite !get_dict_update by done. split; reflexivity.
  - binds H. match type of H with Ok ?w = _ => assert (l = w) as -> by congruence end. rewrite !get_dict_update by (by rewrite ?dict_update_dict). cbn [assigned fst snd]. split; reflexivity.
Qed.
Lemma page_values snapshot message ref digest continuation item :
  let page := VDict [("message", message); ("disposition", VStr "ready"); ("resultRef", ref); ("completeResultSaved", VBool true); ("resultSha256", digest); ("continuation", continuation);
    (result_key snapshot, VList [item])] in
  result_values page = Ok [item] /\ result_key page = result_key snapshot /\ is_dict page = true.
Proof. destruct (result_key_cases snapshot) as [->| ->]; done. Qed.
Lemma candidate_inv snapshot ref count index offset original raw prefix text page : is_dict original = true ->
  candidate_page snapshot ref count index offset original raw prefix text = Ok page ->
  exists item, part_of original item offset text /\ result_values page = Ok [item] /\ result_key page = result_key snapshot /\ is_dict page = true.
Proof.
  intros Hd H. unfold candidate_page in H. binds H. match goal with E : encode text = Ok _ |- _ => apply encode_Ok_inv in E as [_ ->] end.
  match goal with E : located _ _ _ _ _ = Ok ?l |- _ => rename l into loc; pose proof (located_inv _ _ _ _ _ _ E) as Hl end.
  match type of H with Ok ?w = _ => assert (page = w) as -> by congruence end. eexists. split; [apply part_kept; [exact Hd|exact Hl]|]. apply page_values.
Qed.
Lemma rest_of_inv original offset raw prefix remaining : 0 <= offset -> rest_of original offset = Ok (raw, prefix, remaining) ->
  exists k, content_of original = code_points prefix ++ code_points remaining /\ offset = offset_at original k /\ code_points remaining = drop k (content_of original) /\ is_dict original = true.
Proof.
  intros H0 H. unfold rest_of in H. binds H. injection H as <- <- <-.
  match goal with E : need_str "content" original = Ok ?s |- _ => rename s into content; unfold need_str in E; destruct (need "content" original) as [w|] eqn:En; [|done] end.
  cbn [mbind res_bind] in E. destruct w; try done. injection E as ->. apply need_inv in En as [Hd Hg]. assert (content_of original = code_points content) as Hc by (unfold content_of; by rewrite Hg).
  destruct (utf8_decode (take (Z.to_nat offset) x0)) eqn:D1; [|done]. destruct (utf8_decode (drop (Z.to_nat offset) x0)) eqn:D2; [|done]. injection E2 as ->. injection E3 as ->.
  apply utf8_encode_decode in D1, D2. pose proof (utf8_encode_app _ _ _ _ D1 D2) as D. rewrite take_drop in D. unfold encode in E0. destruct (utf8_encode content) eqn:Ee; [|done]. injection E0 as ->.
  pose proof (utf8_encode_inj _ _ _ Ee D) as ->. exists (length (code_points x2)). rewrite Hc. unfold offset_at. rewrite Hc.
  change (code_points (x2 +:+ x3)) with (code_points x2 ++ code_points x3). rewrite take_app_length, drop_app_length. split_and!; [done| |done|done].
  unfold utf8_encode in D1. case_match; [|done]. injection D1 as ->. unfold zlen. rewrite length_take. destruct (Z.ltb_spec (zlen x0) offset) as [Hlt|Hle]; [done|]. unfold zlen in Hle. lia.
Qed.
(** [v] has a part of the results, or nothing of no results *)
Definition part_among (values : list value) (item : value) : Prop :=
  exists i original k m, values !! i = Some original /\ part_of original item (offset_at original k) (PyStr (take m (drop k (content_of original)))).
Lemma parse_cursor_nonneg cursor index offset : parse_cursor cursor = Some (index, offset) -> 0 <= index /\ 0 <= offset.
Proof.
  unfold parse_cursor. destruct cursor; try done. destruct (split_on 58 (code_points s)) as [|a [|b [|]]]; try done. destruct (digits_of 10 a && digits_of 12 b) eqn:E; [|done].
  intros [= <- <-]. unfold digits_of in E. bool_inv. split; apply digits_value_nonneg; apply Forall_forall; intros x Hx; apply list_elem_of_In in Hx;
    repeat match goal with H : forallb is_digit _ = true |- _ => rewrite forallb_forall in H; try (by apply H) end.
Qed.
Lemma single_page_inv snapshot ref cursor page values : result_values snapshot = Ok values -> _single_page snapshot ref cursor = Ok page ->
  exists items, result_values page = Ok items /\ Forall (part_among values) items /\ result_key page = result_key snapshot /\ is_dict page = true.
Proof.
  intros Hv H. unfold _single_page in H. binds H. destruct x as [index offset]. rewrite Hv in H. cbn [mbind res_bind] in H.
  match goal with E : from_option_res _ (parse_cursor cursor) = Ok _ |- _ => destruct (parse_cursor cursor) as [[]|] eqn:Ec; [|done]; injection E as -> -> end.
  apply parse_cursor_nonneg in Ec as [Hi Ho]. destruct values as [|v0 vs].
  { binds H. injection H as <-. exists []. by destruct (result_key_cases snapshot) as [->| ->]. }
  binds H. destruct x0 as [[raw prefix] remaining]. binds H. injection H as <-.
  match goal with E : from_option_res _ (_ !! _) = Ok ?o |- _ => destruct (_ !! Z.to_nat index) as [o'|] eqn:El; [|done]; injection E as -> end.
  match goal with E : rest_of _ _ = Ok _ |- _ => apply rest_of_inv in E as (k & Hc & -> & Hrem & Hd); [|done] end.
  match goal with E : candidate_page _ _ _ _ _ _ _ _ _ = Ok _ |- _ => apply candidate_inv in E as (item & Hp & Hvals & Hk & Hdp); [|done] end.
  exists [item]. split; [done|]. split; [|done]. constructor; [|constructor]. eexists _, _, k, _. split; [exact El|]. unfold str_take in Hp. rewrite Hrem in Hp. exact Hp.
Qed.
Definition shows_parts (snapshot : value) (values : list value) (page : value) : Prop :=
  exists items, result_values page = Ok items /\ Forall (part_among values) items /\ result_key page = result_key snapshot /\ is_dict page = true.
Lemma result_values_inv v l : result_values v = Ok l -> get (result_key v) v = VList l.
Proof. unfold result_values. destruct (need _ v) as [x|] eqn:E; [|done]. apply need_inv in E as [_ ->]. cbn. destruct x; try done. by intros [= ->]. Qed.
Lemma result_values_get v l : get (result_key v) v = VList l -> result_values v = Ok l.
Proof. intros H. unfold result_values. by rewrite (need_get _ _ _ H). Qed.
Lemma joined_shows snapshot values page following start index : shows_parts snapshot values page -> shows_parts snapshot values following ->
  shows_parts snapshot values (joined_page snapshot page following start index values).
Proof.
  intros (items & Hv & Hp & Hk & Hd) (items' & Hv' & Hp' & Hk' & Hd'). apply result_values_inv in Hv, Hv'. rewrite Hk in Hv. rewrite Hk' in Hv'.
  assert (result_key (joined_page snapshot page following start index values) = result_key snapshot) as Hj.
  { rewrite <- Hk. unfold result_key, joined_page. rewrite has_key_update by done. cbn. by destruct (has_key "items" page). }
  unfold shows_parts. destruct (result_key_cases snapshot) as [Es|Es]; rewrite Es in *.
  - exists items. split; [|split; [done|split; [done|by unfold joined_page; rewrite dict_update_dict]]]. apply result_values_get. rewrite Hj. unfold joined_page. by rewrite get_dict_update.
  - exists (items ++ items'). split; [|split; [by apply Forall_app|split; [done|by unfold joined_page; rewrite dict_update_dict]]].
    apply result_values_get. rewrite Hj. unfold joined_page. rewrite get_dict_update by done. cbn [assigned fst snd default]. rewrite Hv, Hv'. done.
Qed.
Lemma join_pages_inv snapshot ref start values fuel page page' : result_values snapshot = Ok values -> shows_parts snapshot values page ->
  join_pages fuel snapshot ref start values page = Ok page' -> shows_parts snapshot values page'.
Proof.
  intros Hv. revert page. induction fuel as [|fuel IH]; intros page Hs H; cbn [join_pages] in H; [by injection H as <-|].
  destruct (next_cursor page) as [c|]; [|by injection H as <-]. destruct (parse_cursor (VStr c)) as [[index offset]|]; [|by injection H as <-].
  destruct offset; [|by injection H as <-..]. binds H. match goal with E : _single_page _ _ _ = Ok ?f |- _ => pose proof (single_page_inv _ _ _ _ _ Hv E) as Hf end.
  match type of H with (if ?b then _ else _) = _ => destruct b end; [|by injection H as <-]. eapply IH; [|exact H]. by apply joined_shows.
Qed.
(** Every item of a page is a part of one of the results. *)
Lemma render_page_inv snapshot ref cursor page values : result_values snapshot = Ok values -> render_page snapshot ref cursor = Ok page -> shows_parts snapshot values page.
Proof.
  intros Hv H. unfold render_page in H. binds H. match goal with E : _single_page _ _ _ = Ok ?p |- _ => pose proof (single_page_inv _ _ _ _ _ Hv E) as Hs end.
  match type of H with (if ?b then _ else _) = _ => destruct b end; [by injection H as <-|]. rewrite Hv in H. binds H.
  eapply join_pages_inv; [done|exact Hs|exact H].
Qed.
Lemma shown_evidence canonical snapshot values page : shows_parts snapshot values page -> Forall (evidence canonical) values -> exists items, result_values page = Ok items /\ Forall (evidence canonical) items.
Proof.
  intros (items & Hv & Hp & _) He. exists items. split; [done|]. eapply Forall_impl; [exact Hp|]. intros item (i & original & k & m & Hi & Hpart).
  eapply part_of_evidence; [|exact Hpart]. by eapply Forall_lookup_1.
Qed.

(** ** What reads and searches return *)

(** The stored texts are those of [archive], which has the text of every representation there has been, and so are the segments. *)
Definition texts_in (archive : pystr -> option bytes) (m : mstate) : Prop :=
  (forall rid r b, ms_reps m !! rid = Some r -> read_stored (ms_store m) (pt_key (rp_text r)) (pt_size (rp_text r)) (pt_sha256 (rp_text r)) = Ok b -> archive rid = Some b) /\
  (forall id rid sg, ms_segments m !! id = Some (rid, sg) -> exists b, archive rid = Some b /\ well_placed b sg).
(** an answer that is ready has exact evidence *)
Definition exact_answer (archive : pystr -> option bytes) (v : value) : Prop :=
  is_str "ready" (get "disposition" v) = true -> exists items, result_values v = Ok items /\ Forall (evidence archive) items.
(** a citation names bytes of a text by their hash *)
Definition exact_citation (archive : pystr -> option bytes) (e : value) : Prop :=
  exists rid b start stop, get "representationId" e = VStr rid /\ archive rid = Some b /\ get "startByte" (get "locator" e) = VInt start /\ get "endByte" (get "locator" e) = VInt stop
    /\ 0 <= start < stop /\ stop <= zlen b /\ get "evidenceSha256" e = VStr (sha256_tag (byte_slice start stop b)).

Lemma pending_exact archive missing : exact_answer archive (pending missing).
Proof. done. Qed.
Lemma representations_found m inputs l : _representations m inputs = Ok l -> Forall (fun x => ms_reps m !! bi_representation x.1 = Some x.2) l.1.
Proof.
  revert l. induction inputs as [|item inputs IH]; intros l H; cbn in H; [by injection H as <-|]. destruct (ms_reps m !! bi_representation item) as [r|] eqn:E.
  - binds H. injection H as <-. cbn [fst]. constructor; [done|]. apply IH. reflexivity.
  - binds H. injection H as <-. cbn [fst]. apply IH. reflexivity.
Qed.
Lemma read_each_exact archive m offset limit l items : texts_in archive m -> 0 <= offset -> Forall (fun x => ms_reps m !! bi_representation x.1 = Some x.2) l ->
  read_each m offset limit true l = Ok items -> Forall (evidence archive) items.
Proof.
  intros [Ht _] H0. revert items. induction l as [|[item r] l IH]; intros items Hl H; cbn in H; [by injection H as <-|]. inversion_clear Hl as [|?? Hr Hl']. binds H. injection H as <-.
  constructor; [|by apply IH]. match goal with E : _read_representation _ _ _ _ _ _ = Ok _ |- _ => unfold _read_representation in E; binds E end.
  match goal with E : from_option_res _ (utf8_decode ?d) = Ok _ |- _ => destruct (utf8_decode d) eqn:Ed; [|done]; injection E as -> end. cbn [fst snd] in *.
  eapply read_evidence_exact; [done| |eassumption]. rewrite (utf8_encode_decode _ _ Ed). by eapply Ht.
Qed.
Lemma assoc_set_elem {A} k (x : A) d k' y : (k', y) ∈ assoc_set k x d -> (k', y) = (k, x) \/ (k', y) ∈ d.
Proof.
  induction d as [|[k0 z] d IH]; cbn [assoc_set]; [rewrite list_elem_of_singleton; auto|]. case_bool_decide as E; rewrite !elem_of_cons; [tauto|]. intros [|H]; [auto|]. destruct (IH H); auto.
Qed.
Lemma assoc_set_key {A} k (x : A) d k' : k' = k \/ k' ∈ map fst d -> k' ∈ map fst (assoc_set k x d).
Proof.
  induction d as [|[k0 z] d IH]; cbn [assoc_set map fst]; [intros [->|H%not_elem_of_nil]; [by apply list_elem_of_singleton|done]|].
  case_bool_decide as E; cbn [map fst]; rewrite !elem_of_cons; [subst; tauto|]. tauto.
Qed.
(** [asked] names a representation of the input *)
Definition named (asked : list value) (ref : pystr) (rid : value) : Prop := exists a, a ∈ asked /\ get "inputRef" a = VStr ref /\ get "representationId" a = rid.
Lemma result_bindings_spec items d d' : result_bindings items d = Ok d' -> (forall k v, (k, v) ∈ d -> get "inputRef" v = VStr k) ->
  (forall k v, (k, v) ∈ d' -> get "inputRef" v = VStr k /\ ((k, v) ∈ d \/ named items k (get "representationId" v)))
  /\ (forall k, k ∈ map fst d -> k ∈ map fst d') /\ Forall (fun item => exists ref, get "inputRef" item = VStr ref /\ ref ∈ map fst d') items.
Proof.
  revert d. induction items as [|item items IH]; intros d H Hd; cbn [result_bindings] in H; [injection H as <-; split_and!; auto|]. binds H. unfold need_str in E. destruct (need "inputRef" item) as [w|] eqn:En; [|done].
  cbn [mbind res_bind] in E. destruct w; try done. injection E as ->. apply need_inv in En as [_ Href].
  match goal with Hr : need "representationId" item = Ok ?r |- _ => apply need_inv in Hr as [_ Hrid] end. apply IH in H as (H1 & H2 & H3).
  - split_and!.
    + intros k v Hkv. destruct (H1 k v Hkv) as [Hk [Hin|(a & Ha & Ha1 & Ha2)]]; (split; [done|]); [|right; exists a; split; [by right|done]].
      apply assoc_set_elem in Hin as [[= -> ->]|]; [|by left]. right. exists item. split; [by left|]. split; [done|]. by rewrite Hrid.
    + intros k Hk. apply H2, assoc_set_key. by right.
    + constructor; [|done]. exists x. split; [done|]. apply H2, assoc_set_key. by left.
  - intros k v Hkv. apply assoc_set_elem in Hkv as [[= -> ->]|]; [done|by apply Hd].
Qed.
Section tools.
Context {PL : Platform} (signing_key : pystr) (times : owner_times) (parse_datetime : pystr -> parsed_date) (isoformat : Z -> pystr) (archive : pystr -> option bytes).

Lemma catch_Ok_inv {E F A} (m : res E A) (h : E -> res F A) a : (forall e, exists e', h e = Err e') -> catch m h = Ok a -> m = Ok a.
Proof. intros Hh. destruct m as [x|e]; cbn; [by intros [= ->]|]. destruct (Hh e) as [e' ->]. done. Qed.
Lemma read_materials_exact s access bindings offset limit v : texts_in archive (tl_materials s) -> read_materials signing_key s access bindings offset limit true = Ok v -> exact_answer archive v.
Proof.
  intros Ht H. unfold read_materials in H. binds H. apply catch_Ok_inv in H; [|by eexists]. binds H. match goal with E : _representations _ _ = Ok ?f |- _ => rename f into found0; pose proof (representations_found _ _ _ E) as Hf end.
  destruct found0 as [fs missing]. cbn [fst snd] in *. destruct missing; [|injection H as <-; apply pending_exact]. binds H. injection H as <-. intros _. eexists. split; [reflexivity|].
  eapply read_each_exact; [done| |exact Hf|eassumption]. match goal with E : require (int_or_none _ offset) _ = Ok _ |- _ => destruct (int_or_none (Z.leb 0) offset) eqn:Eo; [|done] end.
  unfold int_or_none, int_where in Eo. unfold int_of. destruct offset; cbn in *; try lia.
Qed.
Lemma each_evidence_exact m l items : texts_in archive m ->
  Forall (fun x => exists id, ms_segments m !! id = Some (bi_representation (fd_input x), fd_segment x)) l -> each_evidence isoformat true l = Ok items -> Forall (evidence archive) items.
Proof.
  intros [_ Ht]. revert items. induction l as [|x l IH]; intros items Hl H; cbn [each_evidence] in H; [by injection H as <-|]. inversion_clear Hl as [|?? [id Hx] Hl']. binds H. injection H as <-.
  constructor; [|by apply IH]. unfold found_evidence in *. destruct (Ht _ _ _ Hx) as (b & Hb & Hw). eapply search_evidence_exact; [exact Hb|exact Hw|eassumption].
Qed.
Lemma segment_match_inv query l row x : segment_match times query l row = Some x -> fd_segment x = row.2 /\ bi_representation (fd_input x) = row.1.
Proof.
  unfold segment_match. case_match; [done|]. intros ([item r] & Hi & [= <-])%bind_Some. cbn. split; [done|]. unfold input_with in Hi.
  apply last_Some_elem_of in Hi. apply list_elem_of_filter in Hi as [Hi _]. exact Hi.
Qed.
Lemma best_matches {A} (f : A -> option found) recent n rows x : x ∈ take n (merge_sort (found_le recent) (omap f rows)) -> exists row, row ∈ rows /\ f row = Some x.
Proof.
  intros H. apply list_elem_of_lookup in H as [i Hi]. apply lookup_take_Some in Hi as [Hi _]. apply list_elem_of_lookup_2 in Hi. rewrite merge_sort_Permutation in Hi.
  by apply list_elem_of_omap in Hi.
Qed.
Lemma search_materials_exact s access bindings query ranking range limit v : texts_in archive (tl_materials s) ->
  search_materials signing_key times parse_datetime isoformat s access bindings query ranking range limit true = Ok v -> exact_answer archive v.
Proof.
  intros Ht H. unfold search_materials in H. binds H. apply catch_Ok_inv in H; [|by eexists]. binds H. match goal with E : _representations _ _ = Ok ?f |- _ => destruct f as [fs missing] end.
  cbn [fst snd] in *. destruct missing; [|injection H as <-; apply pending_exact]. binds H. injection H as <-. intros _. eexists. split; [reflexivity|].
  eapply each_evidence_exact; [exact Ht| |eassumption]. apply Forall_forall. intros y Hy.
  apply best_matches in Hy as (row & Hrow & Hy'). apply segment_match_inv in Hy' as [-> ->]. unfold candidates in Hrow. apply list_elem_of_fmap in Hrow as ([id row'] & -> & Hr).
  apply elem_of_qs_list in Hr as [Hr _]. exists id. by destruct row'.
Qed.

(** ** The tables of results and receipts *)

(** what is saved is exact evidence, and receipts are of such evidence *)
Definition exact (s : tools) : Prop :=
  (forall call row, tl_results s !! call = Some row -> exists items, result_values (rs_payload row) = Ok items /\ Forall (evidence archive) items) /\
  (forall call r, tl_receipts s !! call = Some r -> Forall (exact_citation archive) (mr_evidence r)).
(** a computation keeps the tables exact, and its result satisfies [Q] *)
Definition keeps {A} (c : TM A) (Q : A -> Prop) : Prop :=
  forall s, exact s -> exact (c s).2 /\ match (c s).1 with Ok a => Q a | Err _ => True end.
Lemma keeps_weaken {A} (c : TM A) (Q R : A -> Prop) : keeps c Q -> (forall a, Q a -> R a) -> keeps c R.
Proof. intros Hc Hq s Hs. destruct (Hc s Hs) as [He H]. split; [done|]. destruct (c s) as [[a|] s']; cbn in *; auto. Qed.
Lemma exact_bind {A B} (c : TM A) (f : A -> TM B) Q R : keeps c Q -> (forall a, Q a -> keeps (f a) R) -> keeps (c ≫= f) R.
Proof.
  intros Hc Hf s Hs. destruct (Hc s Hs) as [He Hq]. unfold mbind, TM_bind. destruct (c s) as [[a|e] s'] eqn:E; cbn in *; [by apply Hf|done].
Qed.
Lemma exact_ret {A} (a : A) (Q : A -> Prop) : Q a -> keeps (mret a) Q.
Proof. by intros Ha s Hs. Qed.
Lemma keeps_tget : keeps tget (fun _ => True).
Proof. by intros s Hs. Qed.
Lemma keeps_tres {A} (r : res texn A) Q : (forall a, r = Ok a -> Q a) -> keeps (tres r) Q.
Proof. intros H s Hs. split; [done|]. cbn. destruct r; auto. Qed.
Lemma keeps_tlift {A} (r : K A) Q : (forall a, r = Ok a -> Q a) -> keeps (tlift r) Q.
Proof. intros H. apply keeps_tres. intros a Ha. apply H. by apply catch_Ok_inv in Ha; [|by eexists]. Qed.
Lemma keeps_tatomic {A} (c : TM A) Q : keeps c Q -> keeps (tatomic c) Q.
Proof. intros H s Hs. destruct (H s Hs) as [He Hq]. unfold tatomic. destruct (c s) as [[a|e] s']; done. Qed.
Lemma keeps_same {A} (c : TM A) : (forall s, tl_results (c s).2 = tl_results s /\ tl_receipts (c s).2 = tl_receipts s) -> keeps c (fun _ => True).
Proof. intros H s [Hs Hr]. destruct (H s) as [E1 E2]. split; [|by case_match]. unfold exact. by rewrite E1, E2. Qed.
Lemma keeps_tmaterial {A} (c : MM A) : keeps (tmaterial c) (fun _ => True).
Proof. apply keeps_same. intros s. unfold tmaterial. by destruct (c (tl_materials s)) as [r m]. Qed.
Lemma keeps_tmap {A B} (f : A -> TM B) l : (forall a, keeps (f a) (fun _ => True)) -> keeps (tmap f l) (fun _ => True).
Proof.
  intros H. induction l as [|a l IH]; cbn; [by apply exact_ret|]. eapply exact_bind; [apply H|]. intros b _. eapply exact_bind; [exact IH|]. intros bs _. by apply exact_ret.
Qed.
(** the steps of a computation that says nothing about its result *)
Ltac keep_going := repeat first
  [ progress intros | apply keeps_tget | apply keeps_tmaterial | by apply exact_ret | by apply keeps_tres | by apply keeps_tlift | apply keeps_tatomic
  | eapply (exact_bind _ _ (fun _ => True)) ].

Lemma operation_get_keeps run task ref : keeps (operation_get_or_create run task ref) (fun _ => True).
Proof. apply keeps_same. intros s. unfold operation_get_or_create. by repeat case_match. Qed.
Lemma create_operations_keeps access missing : keeps (create_operations signing_key access missing) (fun _ => True).
Proof.
  unfold create_operations. keep_going. apply keeps_tmap. intros item. unfold create_operation. keep_going. apply operation_get_keeps.
Qed.
Lemma operation_result_keeps access id cancel now : keeps (operation_result signing_key access id cancel now) (fun _ => True).
Proof.
  unfold operation_result. keep_going. destruct cancel; [|keep_going]. case_match; keep_going.
Qed.

Lemma result_values_set k x v : is_dict v = true -> k <> "items" -> k <> "hits" -> result_values (dict_set k x v) = result_values v.
Proof.
  intros Hd H1 H2. destruct v as [| | | | | |d]; try done. unfold result_values, result_key, dict_set. rewrite !has_key_assoc_set, (bool_decide_eq_false_2 ("items" = k)) by congruence. cbn [orb].
  unfold need. destruct (has_key "items" (VDict d)) eqn:E; cbn [get]; rewrite !has_key_assoc_set, assoc_set_get_ne by congruence; rewrite bool_decide_eq_false_2 by congruence; done.
Qed.
Lemma result_values_dict v l : result_values v = Ok l -> is_dict v = true.
Proof. unfold result_values. destruct (need _ v) eqn:E; [|done]. intros _. by apply need_inv in E as [? _]. Qed.
Definition exact_results (v : value) : Prop := exists items, result_values v = Ok items /\ Forall (evidence archive) items.
Lemma exact_results_set k x v : exact_results v -> k <> "items" -> k <> "hits" -> exact_results (dict_set k x v).
Proof. intros (items & Hv & He) H1 H2. exists items. split; [|done]. rewrite result_values_set; [done|by eapply result_values_dict|done|done]. Qed.
Lemma render_exact v ref cursor page : exact_results v -> render_page v ref cursor = Ok page -> exact_results page.
Proof. intros (items & Hv & He) H. eapply shown_evidence; [by eapply render_page_inv|done]. Qed.
Lemma result_get_keeps call id payload digest : exact_results payload -> keeps (result_get_or_create call id payload digest) (fun _ => True).
Proof.
  intros Hp s [Hs Hr]. unfold result_get_or_create. destruct (tl_results s !! call) as [row|]; [by split|]. case_match; [by split|]. case_match; [by split|]. split; [|done]. split; [|exact Hr].
  intros c row. cbn. intros [[_ <-]|[_ Hrow]]%lookup_insert_Some; [exact Hp|by eapply Hs].
Qed.
Lemma save_result_keeps call result : exact_results result -> keeps (save_result call result) exact_results.
Proof.
  intros Hr. unfold save_result. eapply exact_bind; [apply keeps_tget|]. intros s _. eapply (exact_bind _ _ exact_results).
  { apply keeps_tlift. intros payload Hp. unfold saved_payload in Hp. binds Hp. injection Hp as <-. by apply exact_results_set. }
  intros payload Hp. do 2 (eapply (exact_bind _ _ (fun _ => True)); [by apply keeps_tlift|intros ? _]). eapply (exact_bind _ _ (fun _ => True)); [by apply result_get_keeps|]. intros row _.
  eapply (exact_bind _ _ (fun _ => True)); [by apply keeps_tlift|]. intros ? _. apply keeps_tlift. intros page. apply render_exact. by apply exact_results_set.
Qed.
Lemma read_result_exact s access ref cursor v : exact s -> read_result signing_key s access ref cursor = Ok v -> exact_results v.
Proof.
  intros [Hs _] H. unfold read_result in H. binds H. match goal with E : from_option_res _ (find_result s access ref) = Ok ?r |- _ => destruct (find_result s access ref) as [[c row]|] eqn:Ef; [|done]; injection E as <- end.
  cbn [snd] in *. apply catch_Ok_inv in H; [|by eexists]. unfold find_result in Ef. apply List.find_some in Ef as [Ef _]. apply list_elem_of_In, elem_of_map_to_list in Ef.
  eapply render_exact; [|exact H]. apply exact_results_set; [|done|done]. by eapply Hs.
Qed.

Lemma take_fields_get fields item d f : take_fields fields item = Ok d -> f ∈ fields -> get f (VDict d) = get f item.
Proof.
  revert d. induction fields as [|f0 fields IH]; intros d H Hf; [by apply not_elem_of_nil in Hf|]. cbn [take_fields] in H. binds H. injection H as <-. apply need_inv in E as [_ <-]. cbn [get dict_get].
  case_bool_decide as Ef; [by subst|]. apply elem_of_cons in Hf as [|Hf]; [done|]. by apply (IH x0).
Qed.
Lemma citable_citation item d : citable item = true -> evidence archive item -> take_fields EVIDENCE_FIELDS item = Ok d -> exact_citation archive (VDict d).
Proof.
  intros Hc (rid & text & b & Hrid & Hb & Ht & Hsc & Hsha & Hloc) H. unfold citable in Hc. repeat case_match; try done. rewrite Ht in Hc. cbn [truthy] in Hc. bool_inv.
  destruct Hloc as [[_ ->]|(start & Hs & He & Hge & Hle & Hsl)]; [done|]. unfold exact_citation. rewrite !(take_fields_get _ _ _ _ H) by (unfold EVIDENCE_FIELDS; by_decide).
  exists rid, b, start, (start + zlen (encode_cps (code_points text))). rewrite Hsl. pose proof (encode_cps_length (code_points text)) as Hl.
  assert (code_points text <> []) as Hne by (intros E; match goal with H : is_empty text = false |- _ => unfold is_empty in H; by rewrite E in H end).
  assert (0 < zlen (encode_cps (code_points text))) by (unfold zlen; destruct (code_points text); [done|cbn [length] in Hl; lia]). split_and!; try done; lia.
Qed.
Lemma evidence_of_exact items l : Forall (evidence archive) items -> evidence_of items = Ok l -> Forall (exact_citation archive) l.
Proof.
  intros He. revert l. induction He as [|item items Hi He IH]; intros l H; cbn [evidence_of] in H; [by injection H as <-|]. destruct (citable item) eqn:Ec; [|by apply IH]. binds H. injection H as <-.
  constructor; [by eapply citable_citation|by apply IH].
Qed.
Lemma receipt_get_keeps call r : Forall (exact_citation archive) (mr_evidence r) -> keeps (receipt_get_or_create call r) (fun _ => True).
Proof.
  intros Hp s [Hs Hr]. unfold receipt_get_or_create. destruct (tl_receipts s !! call) as [row|]; [by split|]. case_match; [by split|]. case_match; [by split|]. split; [|done]. split; [exact Hs|].
  intros c row. cbn. intros [[_ <-]|[_ Hrow]]%lookup_insert_Some; [exact Hp|by eapply Hr].
Qed.
Lemma persist_receipt_keeps access call name result : exact_answer archive result -> keeps (persist_receipt access call name result) (fun _ => True).
Proof.
  intros Hr. unfold persist_receipt. case_match eqn:Ec; [by apply exact_ret|]. apply negb_false_iff in Ec. apply andb_prop in Ec as [_ Hready]. destruct (Hr Hready) as (items & Hv & He).
  eapply (exact_bind _ _ (Forall (evidence archive))). { apply keeps_tlift. intros l Hl. rewrite Hv in Hl. by injection Hl as <-. }
  intros items' He'. eapply (exact_bind _ _ (Forall (exact_citation archive))). { apply keeps_tlift. intros l. by apply evidence_of_exact. }
  intros [|e es] Hes; [by apply exact_ret|]. do 2 (eapply (exact_bind _ _ (fun _ => True)); [by apply keeps_tlift|intros ? _]). apply keeps_tatomic.
  eapply (exact_bind _ _ (fun _ => True)); [by apply receipt_get_keeps|]. keep_going.
Qed.

(** A call of a tool keeps the tables exact. *)
Lemma execute_tool_exact s context call_id name arguments now : texts_in archive (tl_materials s) -> exact s ->
  exact (execute_tool signing_key times parse_datetime isoformat context call_id name arguments now s).2.
Proof.
  intros Ht Hs. unfold execute_tool. unfold mbind at 1, TM_bind at 1. cbn [tget].
  match goal with |- exact (?c s).2 => assert (keeps c (fun _ => True)) as Hk; [|exact (proj1 (Hk s Hs))] end.
  eapply (exact_bind _ _ (fun _ => True)); [by apply keeps_tres|]. intros access _. eapply (exact_bind _ _ (fun _ => True)); [by apply keeps_tres|]. intros call _.
  assert (forall result, exact_answer archive result -> keeps (match call with Some call => persist_receipt access call name result | None => mret result end) (fun _ => True)) as Hrec.
  { intros result Hr. destruct call; [by apply persist_receipt_keeps|by apply exact_ret]. }
  assert (forall v, exact_results v -> exact_answer archive v) as Hres by (by intros v Hv _).
  case_bool_decide; [|case_bool_decide]; [eapply (exact_bind _ _ (fun _ => True)); [by apply keeps_tlift|]; intros; apply operation_result_keeps|..].
  { do 2 (eapply (exact_bind _ _ (fun _ => True)); [by apply keeps_tlift|intros ? _]). eapply (exact_bind _ _ exact_results); [apply keeps_tres; intros v; by apply read_result_exact|]. auto. }
  do 3 (eapply (exact_bind _ _ (fun _ => True)); [by apply keeps_tlift|intros ? _]). case_bool_decide; [eapply (exact_bind _ _ (fun _ => True)); [by apply keeps_tres|]; intros; by apply exact_ret|].
  eapply (exact_bind _ _ (exact_answer archive)).
  { case_bool_decide; [apply keeps_tres; intros v; by apply read_materials_exact|]. case_bool_decide; [|by apply keeps_tres].
    eapply (exact_bind _ _ (fun _ => True)); [by apply keeps_tlift|]. intros query _. apply keeps_tres. intros v. by apply search_materials_exact. }
  intros result Hr. destruct (is_str "pending" (get "disposition" result)) eqn:Epend.
  { eapply (exact_bind _ _ (fun _ => True)); [apply create_operations_keeps|]. intros ops _. apply Hrec. intros Hready. exfalso. apply is_str_spec in Epend.
    destruct result as [| | | | | |d]; try done. rewrite get_dict_set in Hready by done. change (bool_decide (("disposition" : pystr) = "operations")) with false in Hready. cbv iota in Hready. by rewrite Epend in Hready. }
  eapply (exact_bind _ _ (exact_answer archive)); [|auto]. destruct call; [|by apply exact_ret]. destruct (is_str "ready" (get "disposition" result)) eqn:Eready; [|by apply exact_ret].
  eapply keeps_weaken; [apply save_result_keeps; by apply Hr|auto].
Qed.

(** ** Citations *)

Context (is_valid : value -> value -> bool).
(** A tool is called, while the stored texts are those of the archive; or other code runs, which writes no results and no
    receipts but may delete them. *)
Inductive tool_step : tools -> tools -> Prop :=
  | tool_called s context call_id name arguments now : texts_in archive (tl_materials s) ->
      tool_step s (_call_tool signing_key times parse_datetime isoformat is_valid context call_id name arguments now s).2
  | others_run s s' : tl_results s' ⊆ tl_results s -> tl_receipts s' ⊆ tl_receipts s -> tool_step s s'.
Lemma call_tool_exact s context call_id name arguments now : texts_in archive (tl_materials s) -> exact s ->
  exact (_call_tool signing_key times parse_datetime isoformat is_valid context call_id name arguments now s).2.
Proof.
  intros Ht Hs. unfold _call_tool. destruct (assoc_first name TOOLS); [|done]. case_match; [done|]. destruct context as [context|]; [|done].
  match goal with |- context [execute_tool signing_key times parse_datetime isoformat context call_id name ?a now s] =>
    pose proof (execute_tool_exact s context call_id name a now Ht Hs) as He; destruct (execute_tool signing_key times parse_datetime isoformat context call_id name a now s) as [[answer|e] s'] end;
    [done|]. by destruct (error_code e).
Qed.
Lemma step_exact s s' : tool_step s s' -> exact s -> exact s'.
Proof.
  destruct 1 as [|s s' Hr Hc]; intros Hs; [by apply call_tool_exact|]. destruct Hs as [H1 H2]. split; intros c row Hrow; [eapply H1|eapply H2]; by eapply lookup_weaken.
Qed.
Lemma reachable_exact s s' : rtc tool_step s s' -> exact s -> exact s'.
Proof. induction 1; eauto using step_exact. Qed.

(** a citation was made by a call of the run whose result, a later event of the run, was committed as the receipt has it *)
Definition made_by_result (s : tools) (run : pystr) (through : option Z) (c : material_citation) : Prop :=
  exists call e r id result, tl_events s !! call = Some e /\ te_run e = run /\ tl_receipts s !! call = Some r /\ mc_evidence c ∈ mr_evidence r
    /\ tl_events s !! id = Some result /\ te_run result = run /\ te_sequence result = mc_sequence c /\ match through with Some n => mc_sequence c <= n | None => True end
    /\ te_session result = te_session e /\ default 0 (te_run_sequence e) < default 0 (te_run_sequence result)
    /\ get "resultState" (get "payload" (te_payload result)) = VStr "successWithOutput"
    /\ exists text actual, get "modelContent" (get "payload" (te_payload result)) = VStr text /\ json_loads text = Ok actual /\ equal_values actual (mr_projection r) = true.
Lemma number_citations_inv ids index sequence tool call evidence l c : number_citations ids index sequence tool call evidence = Ok l -> c ∈ l -> mc_sequence c = sequence /\ mc_evidence c ∈ evidence.
Proof.
  revert index l. induction evidence as [|e evidence IH]; intros index l H Hc; cbn [number_citations] in H; [injection H as <-; by apply not_elem_of_nil in Hc|]. binds H. injection H as <-.
  apply elem_of_cons in Hc as [->|Hc]; [split; [done|apply elem_of_cons; by left]|]. match goal with E : number_citations _ _ _ _ _ _ = Ok _ |- _ => destruct (IH _ _ E Hc) as [-> Hin] end.
  split; [done|apply elem_of_cons; by right].
Qed.
Lemma receipt_citations_made s run through call e r l c : tl_events s !! call = Some e -> te_run e = run -> tl_receipts s !! call = Some r ->
  receipt_citations s run through e r = Ok l -> c ∈ l -> made_by_result s run through c.
Proof.
  intros He Hrun Hr H Hc. unfold receipt_citations in H. destruct (call_events s run "tool_result" _ through) as [|[id result] [|]] eqn:Ee; try (injection H as <-; by apply not_elem_of_nil in Hc).
  destruct (committed_result r e result) as [[]|] eqn:Ecom; cbn [mbind res_bind] in H; [|injection H as <-; by apply not_elem_of_nil in Hc|done]. destruct (json_loads (mr_response r)); [|injection H as <-; by apply not_elem_of_nil in Hc].
  destruct (number_citations_inv _ _ _ _ _ _ _ _ H Hc) as [Hseq Hin]. assert ((id, result) ∈ call_events s run "tool_result" (get "callId" (get "payload" (te_payload e))) through) as Hres
    by (rewrite Ee; apply elem_of_cons; by left).
  unfold call_events in Hres. apply elem_of_qs_list in Hres as [Hev Hp]. bool_inv. unfold committed_result in Ecom. destruct (negb _) eqn:Eg in Ecom; [done|]. binds Ecom. injection Ecom as Ecom. bool_inv.
  match goal with E : from_option_res _ (te_run_sequence e) = Ok _, E' : from_option_res _ (te_run_sequence result) = Ok _ |- _ => apply from_option_res_Ok in E, E'; rename E into Ne, E' into Nr end.
  exists call, e, r, id, result. rewrite Ne, Nr. split_and!; try done.
  - rewrite Hseq. destruct through; [lia|done].
  - by apply is_str_spec.
  - destruct (get "modelContent" _) as [| | | |text| |]; try done. destruct (json_loads text) as [actual|] eqn:Ej; [|done]. eauto.
Qed.
Lemma each_receipt_made s run through rows l c : Forall (fun row => tl_receipts s !! row.1 = Some row.2) rows -> each_receipt s run through rows = Ok l -> c ∈ l -> made_by_result s run through c.
Proof.
  intros Hrows. revert l. induction Hrows as [|[call r] rows Hr Hrows IH]; intros l H Hc; cbn [each_receipt] in H; [injection H as <-; by apply not_elem_of_nil in Hc|].
  destruct (tl_events s !! call) as [e|] eqn:Ee; [|by eapply IH]. destruct (bool_decide (te_run e = run)) eqn:Erun; [|by eapply IH]. apply bool_decide_eq_true in Erun. binds H. injection H as <-.
  apply elem_of_app in Hc as [Hc|Hc]; [by eapply receipt_citations_made|by eapply IH].
Qed.

(** (C6) Whatever tools are called and whatever else happens, every citation of a run was made by a call whose result, a
    later event of the run, was committed as successful and is what the receipt of the call says; and it names a representation
    and a range of bytes of its text whose hash is the hash of the citation. *)
Theorem citations_are_exact_and_committed s0 s run through l : tl_results s0 = ∅ -> tl_receipts s0 = ∅ -> rtc tool_step s0 s -> citation_projections s run through = Ok l ->
  Forall (fun c => exact_citation archive (mc_evidence c) /\ made_by_result s run through c) l.
Proof.
  intros H1 H2 Hs H. assert (exact s) as [_ Hrec]. { eapply reachable_exact; [exact Hs|]. split; intros c row; [rewrite H1|rewrite H2]; by rewrite lookup_empty. }
  apply Forall_forall. intros c Hc. assert (made_by_result s run through c) as Hm.
  { eapply each_receipt_made; [|exact H|exact Hc]. apply Forall_forall. intros [k r] Hkr. by apply elem_of_map_to_list in Hkr. }
  split; [|done]. destruct Hm as (call & e & r & _ & _ & _ & _ & Hr & Hin & _). specialize (Hrec call r Hr). rewrite Forall_forall in Hrec. by apply Hrec.
Qed.

(** ** Inputs are current *)

(** The run's signed authorization declares the input, and with the processing that is asked for its representation is [rid];
    the membership is current, and the object that is linked is one the user may read now. *)
Definition input_is_current (s : tools) (access : material_access) (ref rid : pystr) : Prop :=
  let h := tables s in let f := ma_row access in
  agent_run_membership_is_current (identity h) (rf_membership f) (r_workspace (rf_life f)) (ri_user (rf_identity f)) = true /\
  exists au declared l o, h_authorizations h !! ma_run access = Some au /\ verify_authorization signing_key au (ma_authorization access) = Ok tt /\
    declared_input_of (au_payload au) ref = Some declared /\ representation_id (get "inputIdentity" declared) (ma_spec_digest access) = Ok rid /\
    h_links h !! ref = Some l /\ al_session l = r_session (rf_life f) /\ al_attached_by l = ri_user (rf_identity f) /\
    find_owner (h_store h) (al_owner_kind l) (al_owner_id l) = Some o /\ InputsProps.readable h (ri_user (rf_identity f)) (r_session (rf_life f)) o.
(** The row was made from the input the authorization declares. *)
Definition made_from (r : rep_row) (identity : value) : Prop :=
  get "ownerKind" identity = VStr (rp_owner_kind r) /\ get "ownerId" identity = VStr (rp_owner_id r) /\
  is_int (rp_generation r) (get "generation" identity) = true /\ get "sha256" identity = VStr (rp_owner_sha256 r).

(** the access has the payload of the authorization that is stored *)
Definition carries (s : tools) (access : material_access) : Prop := forall au, h_authorizations (tables s) !! ma_run access = Some au -> au_payload au = ma_payload access.
Lemma authorized_carries s0 s context access : authorize_context signing_key s0 context = Ok access ->
  h_authorizations (tables s) !! ac_run context = h_authorizations (tables s0) !! ac_run context -> carries s access.
Proof.
  intros H Hau au Hs. unfold authorize_context in H. apply catch_Ok_inv in H; [|by eexists]. binds H. destruct x as [a au0]. binds H. injection H as <-.
  unfold authorize_material_access in E. binds E. injection E as <- <-. cbn in *. rewrite Hau in Hs.
  match goal with E : from_option_res _ (h_authorizations _ !! _) = Ok _ |- _ => rewrite Hs in E; injection E as -> end. done.
Qed.

(** what the cache of a resolver says of the authorization the run has *)
Definition cache_of (h : hosted) (run digest : pystr) (verified : option proof) : Prop :=
  forall p au, verified = Some p -> h_authorizations h !! run = Some au -> verify_authorization signing_key au digest = Ok tt.
Lemma resolved_ref h user sid ref l path x : resolved_input_for_link h user sid ref l path = Ok x -> get "inputRef" x.1 = VStr ref.
Proof. intros H. unfold resolved_input_for_link in H. walk H; res_inv; done. Qed.
Lemma current_input_inv h run f ref digest verified resolved cache : cache_of h run digest verified ->
  _current_input signing_key equal_proofs h run f ref digest (Some verified) = (Ok resolved, cache) ->
  cache_of h run digest (default verified cache) /\ get "inputRef" resolved.1 = VStr ref /\
  agent_run_membership_is_current (identity h) (rf_membership f) (r_workspace (rf_life f)) (ri_user (rf_identity f)) = true /\
  exists au l o, h_authorizations h !! run = Some au /\ verify_authorization signing_key au digest = Ok tt /\
    h_links h !! ref = Some l /\ al_session l = r_session (rf_life f) /\ al_attached_by l = ri_user (rf_identity f) /\
    find_owner (h_store h) (al_owner_kind l) (al_owner_id l) = Some o /\ InputsProps.readable h (ri_user (rf_identity f)) (r_session (rf_life f)) o.
Proof.
  intros Hc H. unfold _current_input in H. destruct (au ← current_authorization h run f; _) as [[au cache']|e] eqn:E in H; [|done]. injection H as H <-.
  unfold current_authorization in E. walk E. res_inv.
  assert (verify_authorization signing_key au digest = Ok tt) as Hv.
  { unfold cached_verify in *. destruct verified as [p|]; [match goal with Hx : (if ?b then _ else _) = Ok _ |- _ => destruct b; [by eapply Hc|] end|];
      destruct (verify_authorization signing_key au digest) as [[]|]; done. }
  split; [intros p au' _ Hau'; congruence|]. unfold current_resolution in H. walk H. res_inv. bool_inv.
  match goal with Hr : resolved_input_for_link _ _ _ _ ?l _ = Ok ?x |- _ => pose proof (resolved_ref _ _ _ _ _ _ _ Hr) as Href; apply resolved_link_ok in Hr as (Ho & _ & Hrd); split; [exact Href|];
    split; [done|]; exists au, l, x.2 end. split_and!; done.
Qed.

(** an input that was bound, and the request for it *)
Definition request_current (s : tools) (access : material_access) (request : value) : Prop :=
  exists ref rid, get "inputRef" request = VStr ref /\ get "representationId" request = VStr rid /\ input_is_current s access ref rid.
Definition bound_current (s : tools) (access : material_access) (requests : list value) (b : tool_input) : Prop :=
  exists ref, get "inputRef" (bi_resolved b) = VStr ref /\ input_is_current s access ref (bi_representation b) /\ named requests ref (VStr (bi_representation b))
    /\ exists declared, declared_input_of (ma_payload access) ref = Some declared /\ bi_identity b = get "inputIdentity" declared.
Lemma named_more request requests ref rid : named requests ref rid -> named (request :: requests) ref rid.
Proof. intros (a & ? & ?). exists a. split; [by right|done]. Qed.
Lemma bind_loop_current s access verified requests bound : carries s access -> cache_of (tables s) (ma_run access) (ma_authorization access) verified -> forallb valid_request requests = true ->
  bind_loop signing_key (tables s) access (ma_authorization access) (ma_spec_digest access) verified requests = Ok bound ->
  Forall (request_current s access) requests /\ Forall (bound_current s access requests) bound.
Proof.
  intros Hp. revert verified bound. induction requests as [|request requests IH]; intros verified bound Hc Hv H; cbn [bind_loop] in H; [by injection H as <-|]. cbn [forallb] in Hv. apply andb_prop in Hv as [Hr Hv].
  unfold valid_request in Hr. apply andb_prop in Hr as [_ Hr]. destruct (get "inputRef" request) as [| | | |ref| |] eqn:Eref; try done. cbn [text_of as_str default] in H. unfold id in H.
  binds H. destruct (_current_input signing_key equal_proofs _ _ _ _ _ _) as [r cache] eqn:Ec. binds H. injection H as <-.
  match goal with E : catch r _ = Ok _ |- _ => apply catch_Ok_inv in E; [|by eexists] end. subst r. destruct (current_input_inv _ _ _ _ _ _ _ _ Hc Ec) as (Hc' & Href & Hm & au & l & o & Hau & Hver & Hl).
  match goal with E : from_option_res _ (declared_input_of _ _) = Ok ?d |- _ => apply from_option_res_Ok in E; rename d into declared, E into Hd end.
  match goal with E : catch (representation_id _ _) _ = Ok ?x |- _ => apply catch_Ok_inv in E; [|by eexists]; rename x into rid, E into Hrid end.
  match goal with E : require (is_str rid _) _ = Ok _ |- _ => apply require_Ok, is_str_spec in E; rename E into Hask end.
  assert (input_is_current s access ref rid) as Hin by (split; [done|]; exists au, declared, l, o; rewrite (Hp _ Hau); done).
  match goal with E : bind_loop _ _ _ _ _ _ _ = Ok _ |- _ => destruct (IH _ _ Hc' Hv E) as [H1 H2] end. split; constructor; [by exists ref, rid|done| |].
  - exists ref. split; [done|]. split; [done|]. split; [exists request; split; [by left|done]|by exists declared].
  - eapply Forall_impl; [exact H2|]. intros b (ref' & ? & ? & ?%(named_more request) & ?). by exists ref'.
Qed.
Lemma bind_inputs_current s access requests bound : carries s access -> bind_inputs signing_key s access requests = Ok bound ->
  exists l, requests = VList l /\ Forall (request_current s access) l /\ Forall (bound_current s access l) bound.
Proof.
  intros Hp H. unfold bind_inputs in H. binds H. match goal with E : require (forallb valid_request ?l) _ = Ok _ |- _ => destruct (forallb valid_request l) eqn:Ev; [|done]; rename l into reqs end.
  apply bind_loop_current in H as [H1 H2]; [|done|by intros ? ?|done]. exists reqs. split; [|done]. match goal with E : from_option_res _ (as_list requests) = Ok _ |- _ => apply from_option_res_Ok in E; by destruct requests; simplify_eq/= end.
Qed.

(** An item of an answer names a representation that was asked for, of an input that is current; and one that was just read is the
    text of that representation, which was made from that input. *)
Definition shown_current (s : tools) (access : material_access) (asked : list value) (item : value) : Prop :=
  exists ref rid, get "inputRef" item = VStr ref /\ named asked ref (VStr rid) /\ input_is_current s access ref rid.
Definition shown_representation (s : tools) (access : material_access) (item : value) : Prop :=
  exists ref rid r declared, get "inputRef" item = VStr ref /\ get "representationId" item = VStr rid /\ get "specDigest" item = VStr (rp_spec r)
    /\ input_is_current s access ref rid /\ ms_reps (tl_materials s) !! rid = Some r
    /\ declared_input_of (ma_payload access) ref = Some declared /\ made_from r (get "inputIdentity" declared).
Definition fresh_item (s : tools) (access : material_access) (asked : list value) (item : value) : Prop := shown_current s access asked item /\ shown_representation s access item.

(** an input with the row of its representation *)
Definition row_current (s : tools) (access : material_access) (asked : list value) (item : tool_input) (r : rep_row) : Prop :=
  bound_current s access asked item /\ ms_reps (tl_materials s) !! bi_representation item = Some r /\ made_from r (bi_identity item).
Lemma row_item s access asked item r v : row_current s access asked item r ->
  get "inputRef" v = get "inputRef" (bi_resolved item) -> get "representationId" v = VStr (bi_representation item) -> get "specDigest" v = VStr (rp_spec r) -> fresh_item s access asked v.
Proof.
  intros ((ref & Href & Hcur & Hn & declared & Hd & Hid) & Hr & Hm) H1 H2 H3. rewrite Href in H1. rewrite Hid in Hm. split; [by exists ref, (bi_representation item)|].
  by exists ref, (bi_representation item), r, declared.
Qed.
Lemma read_evidence_names content resolved identity rid r offset limit full v : read_evidence content resolved identity rid r offset limit full = Ok v ->
  get "inputRef" v = get "inputRef" resolved /\ get "representationId" v = VStr rid /\ get "specDigest" v = VStr (rp_spec r).
Proof.
  intros H. unfold read_evidence in H. binds H. destruct x0 as [[selected by_] first]. binds H. injection H as <-. match goal with E : need "inputRef" resolved = Ok _ |- _ => by apply need_inv in E as [_ ->] end.
Qed.
Lemma search_evidence_names sg rid spec resolved identity score at_ full v : search_evidence sg rid spec resolved identity score at_ full = Ok v ->
  get "inputRef" v = get "inputRef" resolved /\ get "representationId" v = VStr rid /\ get "specDigest" v = VStr spec.
Proof. intros H. unfold search_evidence in H. binds H. injection H as <-. match goal with E : need "inputRef" resolved = Ok _ |- _ => by apply need_inv in E as [_ ->] end. Qed.
Lemma representations_rows s access asked inputs l : Forall (bound_current s access asked) inputs -> _representations (tl_materials s) inputs = Ok l ->
  Forall (fun x => row_current s access asked x.1 x.2) l.1.
Proof.
  intros HP. revert l. induction HP as [|item inputs Hi HP IH]; intros l H; cbn [_representations] in H; [by injection H as <-|]. destruct (ms_reps (tl_materials s) !! bi_representation item) as [r|] eqn:Er.
  - binds H. injection H as <-. cbn [fst]. constructor; [|apply IH; reflexivity]. split; [done|]. split; [done|]. unfold require_representation_input in E. apply require_Ok in E.
    apply andb_prop in E as [E E4%is_str_spec]. apply andb_prop in E as [E E3]. apply andb_prop in E as [E1%is_str_spec E2%is_str_spec]. done.
  - binds H. injection H as <-. cbn [fst]. apply IH. reflexivity.
Qed.
Lemma read_each_current s access asked offset limit full l items : Forall (fun x => row_current s access asked x.1 x.2) l -> read_each (tl_materials s) offset limit full l = Ok items ->
  Forall (fresh_item s access asked) items.
Proof.
  intros Hl. revert items. induction Hl as [|[item r] l Hi Hl IH]; intros items H; cbn [read_each] in H; [by injection H as <-|]. binds H. injection H as <-. constructor; [|by apply IH].
  match goal with E : _read_representation _ _ _ _ _ _ = Ok _ |- _ => unfold _read_representation in E; binds E; apply read_evidence_names in E as (? & ? & ?) end. by eapply row_item.
Qed.
Lemma each_evidence_current s access asked full l items : Forall (fun x => row_current s access asked (fd_input x) (fd_rep x)) l -> each_evidence isoformat full l = Ok items ->
  Forall (fresh_item s access asked) items.
Proof.
  intros Hl. revert items. induction Hl as [|x l Hi Hl IH]; intros items H; cbn [each_evidence] in H; [by injection H as <-|]. binds H. injection H as <-. constructor; [|by apply IH].
  match goal with E : found_evidence _ _ _ = Ok _ |- _ => unfold found_evidence in E; apply search_evidence_names in E as (? & ? & ?) end. by eapply row_item.
Qed.
Lemma segment_match_input query l row x : segment_match times query l row = Some x -> (fd_input x, fd_rep x) ∈ l.
Proof.
  unfold segment_match. case_match; [done|]. intros ([item r] & Hi & [= <-])%bind_Some. cbn. unfold input_with in Hi. apply last_Some_elem_of in Hi. by apply list_elem_of_filter in Hi as [_ Hi].
Qed.

(** the requests of an answer, and the answer *)
Inductive reads (s : tools) (access : material_access) (asked : list value) (v : value) : Prop :=
  | by_reading offset limit full : read_materials signing_key s access (VList asked) offset limit full = Ok v -> reads s access asked v
  | by_searching query ranking range limit full :
      search_materials signing_key times parse_datetime isoformat s access (VList asked) query ranking range limit full = Ok v -> reads s access asked v.
(** what the tools show before a receipt is added; a result that was saved names the representations it was made from *)
Inductive shows (s : tools) (access : material_access) : list value -> value -> Prop :=
  | by_request asked v : reads s access asked v -> shows s access asked v
  | by_continuing ref cursor v call row saved : read_result signing_key s access ref cursor = Ok v -> find_result s access ref = Some (call, row) ->
      result_values (rs_payload row) = Ok saved -> shows s access saved v.

Lemma reads_current s access asked v items : carries s access -> reads s access asked v -> result_values v = Ok items -> Forall (fresh_item s access asked) items.
Proof.
  intros Hp [offset limit full H|query ranking range limit full H] Hv.
  - unfold read_materials in H. binds H. match goal with E : bind_inputs _ _ _ _ = Ok _ |- _ => apply bind_inputs_current in E as (l & [= <-] & _ & Hb); [|done] end.
    apply catch_Ok_inv in H; [|by eexists]. binds H. match goal with E : _representations _ _ = Ok ?f |- _ => pose proof (representations_rows _ _ _ _ _ Hb E) as Hf; destruct f as [fs missing] end.
    cbn [fst snd] in *. destruct missing; [|injection H as <-; done]. binds H. injection H as <-. injection Hv as <-. by eapply read_each_current.
  - unfold search_materials in H. binds H. match goal with E : bind_inputs _ _ _ _ = Ok _ |- _ => apply bind_inputs_current in E as (l & [= <-] & _ & Hb); [|done] end.
    apply catch_Ok_inv in H; [|by eexists]. binds H. match goal with E : _representations _ (List.filter ?g ?l) = Ok ?f |- _ => assert (Forall (bound_current s access asked) (List.filter g l)) as Hb'
      by (apply List.Forall_forall; intros b [Hin _]%filter_In; rewrite List.Forall_forall in Hb; by apply Hb); pose proof (representations_rows _ _ _ _ _ Hb' E) as Hf; destruct f as [fs missing] end.
    cbn [fst snd] in *. destruct missing; [|injection H as <-; done]. binds H. injection H as <-. injection Hv as <-. eapply each_evidence_current; [|eassumption]. apply Forall_forall. intros y Hy.
    apply best_matches in Hy as (row & _ & Hr%segment_match_input). rewrite Forall_forall in Hf. exact (Hf _ Hr).
Qed.
Lemma read_result_current s access ref cursor v items call row saved : carries s access -> read_result signing_key s access ref cursor = Ok v ->
  find_result s access ref = Some (call, row) -> result_values (rs_payload row) = Ok saved -> result_values v = Ok items -> Forall (shown_current s access saved) items.
Proof.
  intros Hp H Hfind Hsaved Hv. unfold read_result in H. rewrite Hfind in H. cbn [from_option_res mbind res_bind snd] in H. binds H.
  apply catch_Ok_inv in H; [|by eexists]. match goal with E : catch _ _ = Ok ?d |- _ => apply catch_Ok_inv in E; [|by eexists]; rename d into bindings; binds E; rewrite Hsaved in *; simplify_eq;
    apply result_bindings_spec in E as (B1 & _ & B3); [|by intros ? ? ?%not_elem_of_nil] end.
  match goal with E : bind_inputs _ _ _ _ = Ok _ |- _ => apply bind_inputs_current in E as (l & [= <-] & Hb & _); [|done] end.
  assert (result_values (dict_set "_digest" (VStr (rs_sha256 row)) (rs_payload row)) = Ok saved) as Hl by (rewrite result_values_set; [done|by eapply result_values_dict|done|done]).
  destruct (render_page_inv _ _ _ _ _ Hl H) as (items' & Hi' & Hparts & _). rewrite Hv in Hi'. injection Hi' as <-. eapply Forall_impl; [exact Hparts|].
  intros item (i & original & k & m & Ho & (_ & _ & _ & Href & _)). rewrite Forall_lookup in B3. destruct (B3 _ _ Ho) as (r & Hr & Hin).
  apply list_elem_of_fmap in Hin as ([k' b] & -> & Hkb). rewrite Forall_forall in Hb. destruct (Hb b) as (r' & rid & Hr' & Hrid & Hcur); [apply list_elem_of_fmap; by exists (k', b)|].
  destruct (B1 _ _ Hkb) as [Hk [Hnil|Hn]]; [by apply not_elem_of_nil in Hnil|]. rewrite Hk in Hr'. injection Hr' as <-. exists k', rid. cbn in Hr. split; [by rewrite Href|]. by rewrite <- Hrid.
Qed.

(** (C16) For a caller whose access was authorized in this request, with the immutable authorization of its run: a read, a search, or
    a page of a result that was saved earlier shows only documents that the run's signed authorization declares and that
    its user may read at that moment, with a current membership, and that were asked for, or saved, under the identity of
    the representation the declared input has now.  What is read or found anew comes from a representation that is stored
    under exactly that identity, and was made from the declared input: same owner, generation and digest. *)
Theorem shown_documents_are_current s0 s context access asked v items : authorize_context signing_key s0 context = Ok access ->
  h_authorizations (tables s) !! ac_run context = h_authorizations (tables s0) !! ac_run context ->
  shows s access asked v -> result_values v = Ok items ->
  Forall (shown_current s access asked) items /\ (reads s access asked v -> Forall (shown_representation s access) items).
Proof.
  intros Ha Hau Hs Hv. pose proof (authorized_carries _ _ _ _ Ha Hau) as Hp.
  assert (reads s access asked v -> Forall (fresh_item s access asked) items) as Hr by (intros H; by eapply reads_current). split.
  - destruct Hs as [asked v H|ref cursor v call row saved H Hf Hsv]; [|by eapply read_result_current]. eapply Forall_impl; [by apply Hr|]. by intros item [? _].
  - intros H. eapply Forall_impl; [by apply Hr|]. by intros item [_ ?].
Qed.

End tools.

(** ** Credentials *)

Section credentials.
Context {PL : Platform} (signing_key : pystr) (sign : value -> pystr) (unsign : pystr -> option value).
(** (C37) A credential that was issued for a run is accepted later exactly as long as it has not expired and the
    authorization of the run is still current at that time. *)
Theorem credential_is_accepted_while_current s s' context now later answer token :
  let claims := claims_of context (now / 1000000) in unsign (sign claims) = Some claims -> 0 < str_len (sign claims) ->
  issue_credential signing_key sign s context now = Ok answer -> get "accessToken" answer = VStr token -> now <= later ->
  verify_credential signing_key unsign s' token later = Ok context <->
    (exists access, authorize_context signing_key s' context = Ok access) /\ later < (now / 1000000 + TTL_SECONDS) * 1000000.
Proof.
  intros claims Hu Hn H Ht Hl. unfold issue_credential in H. fold claims in H. binds H. injection H as <-. injection Ht as <-.
  match goal with E : require (str_len _ <=? MAX_TOKEN_BYTES) _ = Ok _ |- _ => destruct (str_len (sign claims) <=? MAX_TOKEN_BYTES) eqn:El; [|done] end.
  unfold verify_credential. rewrite El, Hu. replace (0 <? str_len (sign claims)) with true by (symmetry; by apply Z.ltb_lt). cbn [andb require from_option_res mbind res_bind].
  change (keys_are CLAIM_FIELDS claims) with true. cbn [andb]. change (is_str _ (get "schema" claims)) with true. cbn [require mbind res_bind].
  change (get "issuedAt" claims) with (VInt (now / 1000000)). change (get "expiresAt" claims) with (VInt (now / 1000000 + TTL_SECONDS)). cbn [as_int from_option_res mbind res_bind].
  change (get "agentRunId" claims) with (VStr (ac_run context)). cbn [as_str].
  replace (now / 1000000 + TTL_SECONDS - now / 1000000 =? TTL_SECONDS) with true by lia. replace (now / 1000000 * 1000000 <=? later) with true by (Z.to_euclidean_division_equations; lia). cbn [andb]. cbv zeta.
  destruct (Z.ltb_spec later ((now / 1000000 + TTL_SECONDS) * 1000000)) as [Hlt|Hge]; cbn [require from_option_res mbind res_bind]; cbv beta zeta.
  - change (get "authorizationDigest" claims) with (ac_authorization context). change (get "processingSpecification" claims) with (ac_specification context).
    change (get "specDigest" claims) with (ac_spec_digest context).
    assert (AccessContext (ac_run context) (ac_authorization context) (ac_specification context) (ac_spec_digest context) = context) as -> by (by destruct context).
    destruct (authorize_context signing_key s' context) as [access|e]; cbn [mbind res_bind]; split; try done; [eauto|by intros [[? ?] _]].
  - split; [done|]. intros [_ ?]. lia.
Qed.
End credentials.

(** ** A citation, from the credential to the projection *)

#[local] Existing Instance ascii_platform.
Definition the_identity : value :=
  VDict [("ownerKind", VStr "userLibraryObject"); ("ownerId", VStr "object-1"); ("generation", VInt 1); ("sha256", VStr (sha256_tag [104; 105]))].
Definition the_rid : pystr := Eval vm_compute in ok_or "" (representation_id the_identity a_spec_digest).
Definition the_row : rep_row :=
  Representation "userLibraryObject" "object-1" 1 (sha256_tag [104; 105]) a_spec_digest 2 (Part "text/1" 6 (sha256_tag sample_canonical)) (Part "" 0 "") (Part "" 0 "") (manifest_of sample_pages).
Definition the_segment : segment := Segment "segment:1" 0 sample_text (sha256_tag [195; 169; 10; 120]) 1 0 4 1 2.
Definition the_store : store := set_files <["text/1" := (sample_canonical, 0)]> (h_store reading).
Definition the_materials : mstate := MState the_store (h_sources reading) ∅ ∅ ∅ {[ the_rid := the_row ]} {[ ("segment:1" : pystr) := (the_rid, the_segment) ]}.
Definition the_arguments : value := VDict [("input_ref", VStr "asset-1")].
Definition tool_payload (type : pystr) (body : list (pystr * value)) : value := VDict [("type", VStr type); ("turnId", VStr "turn-1"); ("payload", VDict (("callId", VStr "call-1") :: body))].
Definition the_call : tool_event := ToolEvent "ws-1" "session-1" "run-1" 5 (Some 5)
  (tool_payload "tool_call" [("providerId", VStr PROVIDER_ID); ("toolName", VStr "read_material"); ("normalizedInput", the_arguments)]).
Definition t_start : tools := Tools reading the_materials {[ ("event-5" : pystr) := the_call ]} ∅ ∅ ∅.
Definition the_context : access_context := AccessContext "run-1" (VStr reading_digest) a_specification (VStr a_spec_digest).
Definition no_times : owner_times := OwnerTimes (fun _ => None) (fun _ => None) (fun _ => 0).
Definition no_dates (_ : pystr) : parsed_date := NoDate.
Definition accept_all (_ _ : value) : bool := true.
Local Abbreviation the_reply := (_call_tool "key" no_times no_dates int_str accept_all (Some the_context) (Some "call-1") "read_material" the_arguments 0 t_start).
Definition the_answer : value := Eval vm_compute in match the_reply.1 with Ok (Structured v) => v | _ => VNone end.
Definition t_read : tools := the_reply.2.
Definition the_result : tool_event := ToolEvent "ws-1" "session-1" "run-1" 6 (Some 6)
  (tool_payload "tool_result" [("toolName", VStr "read_material"); ("resultState", VStr "successWithOutput"); ("outputComplete", VBool true); ("modelContent", VStr (json_dumps the_answer))]).
Definition the_archive (rid : pystr) : option bytes := if bool_decide (rid = the_rid) then Some sample_canonical else None.
(** the result is committed *)
Definition commit_result (s : tools) : tools := Tools (tl_hosted s) (tl_materials s) (<["event-6" := the_result]> (tl_events s)) (tl_results s) (tl_receipts s) (tl_operations s).
Lemma commit_result_step s : tool_step "key" no_times no_dates int_str the_archive accept_all s (commit_result s).
Proof. by apply others_run. Qed.
Definition t_done : tools := commit_result t_read.
Lemma the_texts : texts_in the_archive the_materials.
Proof.
  split.
  - intros rid r b Hr Hb. change (ms_reps the_materials) with ({[ the_rid := the_row ]} : gmap pystr rep_row) in Hr. apply lookup_singleton_Some in Hr as [<- <-]. vm_compute in Hb. injection Hb as <-. reflexivity.
  - intros id rid sg Hs. change (ms_segments the_materials) with ({[ ("segment:1" : pystr) := (the_rid, the_segment) ]} : gmap pystr (pystr * segment)) in Hs. apply lookup_singleton_Some in Hs as [_ Hs]. injection Hs as <- <-. exists sample_canonical. split; [reflexivity|]. split; [change (0 <= 0 < 4 /\ 4 <= 6); lia|vm_compute; discriminate|..]; by vm_compute.
Qed.
(** nothing is cited before the result is committed, and one part of the text after *)
Example cited_after_commit : citation_projections t_read "run-1" None = Ok [] /\
  (l ← citation_projections t_done "run-1" None; Ok (map (fun c => (mc_sequence c, get "evidenceSha256" (mc_evidence c))) l)) = Ok [(6, VStr (sha256_tag sample_canonical))].
Proof. split; vm_compute; reflexivity. Qed.
Definition the_citations : list material_citation := Eval vm_compute in ok_or [] (citation_projections t_done "run-1" None).
Lemma citations_are_exact_and_committed_witness : length the_citations = 1%nat /\
  Forall (fun c => exact_citation the_archive (mc_evidence c) /\ made_by_result t_done "run-1" None c) the_citations.
Proof.
  split; [reflexivity|]. eapply (citations_are_exact_and_committed "key" no_times no_dates int_str the_archive accept_all t_start t_done "run-1" None the_citations); [reflexivity|reflexivity| |vm_compute; reflexivity].
  exact (rtc_l _ _ _ _ (tool_called "key" no_times no_dates int_str the_archive accept_all t_start (Some the_context) (Some "call-1") "read_material" the_arguments 0 the_texts)
    (rtc_once _ _ (commit_result_step t_read))).
Defined.

Definition the_access : material_access := MaterialAccess "run-1" reading_run (default VNone (au_payload <$> h_authorizations reading !! ("run-1" : pystr))) a_specification a_spec_digest reading_digest.
Definition the_ref : pystr := Eval vm_compute in text_of (get "resultRef" the_answer).
Definition the_page : value := Eval vm_compute in ok_value (read_result "key" t_read the_access the_ref (VStr "0:0")).
Lemma the_access_authorized : authorize_context "key" t_start the_context = Ok the_access.
Proof. vm_compute. reflexivity. Qed.
Definition the_saved : list value := Eval vm_compute in default [] ((fun cr => ok_or [] (result_values (rs_payload cr.2))) <$> find_result t_read the_access the_ref).
Definition the_requests : list value := [VDict [("inputRef", VStr "asset-1"); ("representationId", VStr the_rid)]].
Definition the_read : value := Eval vm_compute in ok_value (read_materials "key" t_start the_access (VList the_requests) VNone VNone true).
Lemma authorization_unchanged : h_authorizations (tables t_read) !! ac_run the_context = h_authorizations (tables t_start) !! ac_run the_context.
Proof. vm_compute. reflexivity. Qed.
(** the page of the result that was saved, and the document read again *)
Lemma shown_documents_are_current_witness :
  (exists item, result_values the_page = Ok [item] /\ shown_current "key" t_read the_access the_saved item)
  /\ exists item, result_values the_read = Ok [item] /\ shown_representation "key" t_start the_access item.
Proof.
  split; (eexists; split; [reflexivity|]).
  - assert (shows "key" no_times no_dates int_str t_read the_access the_saved the_page) as Hs
      by (eapply (by_continuing _ _ _ _ _ _ the_ref (VStr "0:0")); vm_compute; reflexivity).
    exact (proj1 (proj1 (Forall_cons _ _ _) (proj1 (shown_documents_are_current "key" no_times no_dates int_str t_start t_read the_context the_access the_saved the_page _ the_access_authorized authorization_unchanged Hs eq_refl)))).
  - assert (reads "key" no_times no_dates int_str t_start the_access the_requests the_read) as Hr by (apply (by_reading _ _ _ _ _ _ _ _ VNone VNone true); vm_compute; reflexivity).
    exact (proj1 (proj1 (Forall_cons _ _ _) (proj2 (shown_documents_are_current "key" no_times no_dates int_str t_start t_start the_context the_access the_requests the_read _ the_access_authorized eq_refl
      (by_request _ _ _ _ _ _ _ _ Hr) eq_refl) Hr))).
Defined.

Definition sample_unsign (token : pystr) : option value := match json_loads token with Ok v => Some v | Err _ => None end.
Definition the_credential : value := Eval vm_compute in ok_value (issue_credential "key" json_dumps t_start the_context 1000000000).
Lemma credential_is_accepted_while_current_witness :
  verify_credential "key" sample_unsign t_read (text_of (get "accessToken" the_credential)) 1299999999 = Ok the_context /\
  ~ verify_credential "key" sample_unsign t_read (text_of (get "accessToken" the_credential)) 1300000000 = Ok the_context.
Proof.
  split.
  - apply (credential_is_accepted_while_current "key" json_dumps sample_unsign t_start t_read the_context 1000000000 1299999999 the_credential);
      [vm_compute; reflexivity|vm_compute; reflexivity|vm_compute; reflexivity|reflexivity|lia|]. split; [|vm_compute; reflexivity].
    exists the_access. vm_compute. reflexivity.
  - intros H. apply (credential_is_accepted_while_current "key" json_dumps sample_unsign t_start t_read the_context 1000000000 1300000000 the_credential) in H;
      [|vm_compute; reflexivity|vm_compute; reflexivity|vm_compute; reflexivity|reflexivity|lia]. destruct H as [_ H]. vm_compute in H. discriminate H.
Defined.
