(* ===== verification/SnapshotGc.v ===== *)
(** * Collecting the workspace files of deleted sessions

    [packages/api/app_core/workspace_snapshot_gc.py]: the files of a local storage are a map from absolute paths
    to nodes, the rows the collector reads are three tables.  [others] is what other requests do before each
    step of the collector: before each directory it lists, each query and each transaction.  A generator is
    run with its consumer, so that keys are deleted before the directories after them are listed. *)

From stdpp Require Import base tactics list gmap numbers sorting.
From S2P Require Import Prelude PyStr Table Schema Lifecycle ResourceGc.

(** ** The file system *)

Abbreviation path := (list pystr).
(** what [lstat] says of a path: [NLink] is a symbolic link or a reparse point, [NUnreadable] an [OSError] with
    its text; times are in the unit of the cutoff *)
Inductive node := NDir | NFile (mtime : Z) | NLink | NOther | NUnreadable (error : pystr).
Abbreviation fsys := (gmap path node).

Inductive snapshot_exn :=
| FileNotFoundError
| OsError (text : pystr)
| WorkspaceSnapshotGcError (text : pystr).
(** [str(error)]; a missing file is never printed *)
Definition exn_text (e : snapshot_exn) : pystr :=
  match e with FileNotFoundError => "" | OsError t => t | WorkspaceSnapshotGcError t => t end.

Definition lstat (fs : fsys) (p : path) : res snapshot_exn node :=
  match fs !! p with
  | None => Err FileNotFoundError
  | Some (NUnreadable e) => Err (OsError e)
  | Some m => Ok m
  end.
Definition _is_link (m : node) : bool := match m with NLink => true | _ => false end.
Definition is_dir (m : node) : bool := match m with NDir => true | _ => false end.
Definition is_file (m : node) : bool := match m with NFile _ => true | _ => false end.

(** A file name has no slash. *)
Definition no_slash (s : pystr) : bool := forallb (fun c => negb (c =? 47)) (code_points s).
Definition entry_of (dir q : path) : option pystr :=
  if bool_decide (removelast q = dir) then n ← last q; if no_slash n then Some n else None else None.
Definition scandir (fs : fsys) (dir : path) : list pystr := omap (fun qm => entry_of dir qm.1) (map_to_list fs).

(** ** Names the collector owns *)

Definition ascii_digit (c : Z) : bool := (48 <=? c) && (c <=? 57).
Definition _GENERATION (s : pystr) : bool :=
  match code_points s with c :: l => (49 <=? c) && (c <=? 57) && forallb ascii_digit l | [] => false end.
Definition _DIGEST (s : pystr) : bool := (str_len s =? 64) && chars_all is_lower_hex s.
Definition _SNAPSHOT_FILE (s : pystr) : bool :=
  _DIGEST (PyStr (take 64 (code_points s))) && bool_decide (str_drop 64 s = ".snapshot").
Definition temporary_char (c : Z) : bool := ((97 <=? c) && (c <=? 122)) || ascii_digit c || (c =? 95).
Definition _TEMPORARY_FILE (s : pystr) : bool :=
  startswith s ".centaeris-immutable-" &&
  (let rest := str_drop 21 s in
   let middle := take 8 (code_points rest) in
   (zlen middle =? 8) && forallb temporary_char middle && bool_decide (str_drop 8 rest = ".tmp")).

Definition _safe_component (s : pystr) : bool :=
  negb (is_empty s) && negb (bool_decide (s = ".")) && negb (bool_decide (s = ".."))
  && forallb (fun c => negb (c =? 47)) (code_points s) && forallb (fun c => negb (c =? 92)) (code_points s)
  && forallb (fun c => negb (c =? 58)) (code_points s) && forallb (fun c => negb (c =? 0)) (code_points s).

(** ** Paths *)

Fixpoint check_parts (fs : fsys) (current : path) (parts : list pystr) (directory : bool) : res snapshot_exn path :=
  match parts with
  | [] => Ok current
  | part :: rest =>
      let current := current ++ [part] in
      m ← lstat fs current;
      require (negb (_is_link m)) (WorkspaceSnapshotGcError "workspace_snapshot_path_symlink");;
      require (if negb (bool_decide (rest = [])) || directory then is_dir m else is_file m)
        (WorkspaceSnapshotGcError "workspace_snapshot_path_kind_invalid");;
      check_parts fs current rest directory
  end.
Definition _checked_path (fs : fsys) (root : path) (key : pystr) (directory : bool) : res snapshot_exn path :=
  let parts := str_split 47 key in
  require (forallb _safe_component parts) (WorkspaceSnapshotGcError "workspace_snapshot_gc_key_invalid");;
  check_parts fs root parts directory.

Fixpoint check_root (fs : fsys) (current : path) (parts : list pystr) : res snapshot_exn unit :=
  match parts with
  | [] => Ok tt
  | part :: rest =>
      let current := current ++ [part] in
      m ← lstat fs current;
      require (negb (_is_link m) && is_dir m) (WorkspaceSnapshotGcError "workspace_snapshot_storage_root_invalid");;
      check_root fs current rest
  end.
(** [location]: the parts of [default_storage.path("")]; [None]: the storage has no local path *)
Definition _local_storage_root (location : option path) (fs : fsys) : res snapshot_exn (option path) :=
  match location with
  | None => Err (WorkspaceSnapshotGcError "workspace_snapshot_gc_requires_local_storage")
  | Some root =>
      match check_root fs [] root with
      | Ok _ => Ok (Some root)
      | Err FileNotFoundError => Ok None
      | Err (OsError _) => Err (WorkspaceSnapshotGcError "workspace_snapshot_storage_root_unavailable")
      | Err e => Err e
      end
  end.

(** ** Rows and the state of a pass *)

Record owner_agent := OwnerAgent { oa_workspace : pystr; oa_status : pystr; oa_purged_at : option Z }.
Record owner_session := OwnerSession { os_workspace : pystr; os_agent : pystr; os_status : pystr; os_purged_at : option Z }.
Record owner_run := OwnerRun { or_session : pystr; or_status : run_status }.
Record snapshot_world := SnapshotWorld {
  sw_agents : gmap pystr owner_agent; sw_sessions : gmap pystr owner_session; sw_runs : gmap pystr owner_run; sw_fs : fsys }.
Definition set_fs (f : fsys -> fsys) (w : snapshot_world) : snapshot_world :=
  SnapshotWorld (sw_agents w) (sw_sessions w) (sw_runs w) (f (sw_fs w)).

(** [p_clock] counts the steps of the collector *)
Record pass := Pass { p_world : snapshot_world; p_report : gc_report; p_clock : nat }.
Definition add_planned (k : pystr) (r : gc_report) : gc_report := GcReport (gr_planned r ++ [k]) (gr_cleaned r) (gr_blocked r) (gr_failures r).
Definition add_cleaned (k : pystr) (r : gc_report) : gc_report := GcReport (gr_planned r) (gr_cleaned r ++ [k]) (gr_blocked r) (gr_failures r).
Definition add_blocked (k : pystr) (r : gc_report) : gc_report := GcReport (gr_planned r) (gr_cleaned r) (gr_blocked r ++ [k]) (gr_failures r).
Definition add_failure (k : pystr) (r : gc_report) : gc_report := GcReport (gr_planned r) (gr_cleaned r) (gr_blocked r) (gr_failures r ++ [k]).
Definition report (f : gc_report -> gc_report) (p : pass) : pass := Pass (p_world p) (f (p_report p)) (p_clock p).

Definition purged_before (cutoff : Z) (status : pystr) (purged_at : option Z) : bool :=
  bool_decide (status = "deleted") && match purged_at with Some t => t <=? cutoff | None => false end.
Definition session_purged (cutoff : Z) (s : owner_session) : bool := purged_before cutoff (os_status s) (os_purged_at s).
Definition agent_purged (cutoff : Z) (a : owner_agent) : bool := purged_before cutoff (oa_status a) (oa_purged_at a).
Definition has_active_run (sid : pystr) (w : snapshot_world) : bool :=
  qs_exists (fun r => bool_decide (or_session r = sid) && bool_decide (or_status r ∈ [Queued; Running])) (sw_runs w).
Definition known_run (sid : pystr) (w : snapshot_world) (id : pystr) : bool :=
  match sw_runs w !! id with Some r => bool_decide (or_session r = sid) | None => false end.

Section collector.
(** what other requests do before a step; the error of the file system when a file cannot be removed *)
Context (others : nat -> snapshot_world -> snapshot_world) (remove_error : pystr -> option pystr).

Definition meanwhile (p : pass) : pass := Pass (others (p_clock p) (p_world p)) (p_report p) (S (p_clock p)).

(** ** Enumeration *)

Definition _children (root : path) (prefix : pystr) (p : pass) : list pystr * pass :=
  let p := meanwhile p in
  let fs := sw_fs (p_world p) in
  match _checked_path fs root prefix true with
  | Ok dir => (merge_sort str_le (scandir fs dir), p)
  | Err FileNotFoundError => ([], p)
  | Err e => ([], report (add_failure (prefix +:+ ": " +:+ exn_text e)) p)
  end.

Definition _directory_files (root : path) (prefix : pystr) (consume : pass -> pystr -> pass) (p : pass) : pass :=
  let '(names, p) := _children root prefix p in
  foldl (fun p name => if _SNAPSHOT_FILE name || _TEMPORARY_FILE name then consume p (prefix +:+ "/" +:+ name) else p) p names.

Definition unknown_run (root : path) (key : pystr) (p : pass) : pass :=
  let p := meanwhile p in
  match _checked_path (sw_fs (p_world p)) root key true with
  | Ok _ => report (add_blocked key) p
  | Err FileNotFoundError => p
  | Err e => report (add_failure (key +:+ ": " +:+ exn_text e)) p
  end.

Definition run_files (root : path) (checkpoints : pystr) (consume : pass -> pystr -> pass) (p : pass) : pass :=
  let '(digests, p) := _children root checkpoints p in
  foldl (fun p digest => if _DIGEST digest then _directory_files root (checkpoints +:+ "/" +:+ digest) consume p else p) p digests.

Definition generation_files (root : path) (snapshots : pystr) (consume : pass -> pystr -> pass) (p : pass) : pass :=
  let '(generations, p) := _children root snapshots p in
  foldl (fun p generation => if _GENERATION generation then _directory_files root (snapshots +:+ "/" +:+ generation) consume p else p)
    p generations.

Definition checkpoint_files (root : path) (run_prefix sid : pystr) (consume : pass -> pystr -> pass) (p : pass) : pass :=
  let p := meanwhile p in
  let known := known_run sid (p_world p) in
  let '(run_ids, p) := _children root run_prefix p in
  foldl (fun p run_id =>
           if known run_id then run_files root (run_prefix +:+ "/" +:+ run_id +:+ "/execution-checkpoints") consume p
           else unknown_run root (run_prefix +:+ "/" +:+ run_id) p) p run_ids.

Definition _snapshot_keys (root : path) (prefix sid : pystr) (consume : pass -> pystr -> pass) (p : pass) : pass :=
  let p := generation_files root (prefix +:+ "/snapshots") consume p in
  checkpoint_files root (prefix +:+ "/agent-runs") sid consume p.

(** ** One key *)

(** [delete_stored_object_for_gc] on the local storage; the key is a checked file *)
Definition remove_file (key : pystr) (file : path) (w : snapshot_world) : res snapshot_exn snapshot_world :=
  match remove_error key with Some e => Err (OsError e) | None => Ok (set_fs (delete file) w) end.

Inductive outcome := Skipped | Blocked | Planned | Cleaned (w : snapshot_world).
(** the transaction, under the locks of the agent and the session; [listed] is the row as it was listed *)
Definition key_transaction (cutoff : Z) (dry_run : bool) (root : path) (sid : pystr) (listed : owner_session) (key : pystr)
    (w : snapshot_world) : res snapshot_exn outcome :=
  agent ← from_option_res (OsError "Agent matching query does not exist.") (sw_agents w !! os_agent listed);
  owner ← from_option_res (OsError "Session matching query does not exist.") (sw_sessions w !! sid);
  if negb (bool_decide (os_workspace owner = os_workspace listed)) || negb (bool_decide (os_agent owner = os_agent listed))
     || negb (bool_decide (oa_workspace agent = os_workspace owner))
     || negb (session_purged cutoff owner || (agent_purged cutoff agent && negb (has_active_run sid w)))
  then Ok Blocked
  else
    match _checked_path (sw_fs w) root key false with
    | Err FileNotFoundError => Ok Skipped
    | Err e => Err e
    | Ok file =>
        m ← lstat (sw_fs w) file;
        match m with
        | NFile mtime =>
            if cutoff <? mtime then Ok Blocked
            else if dry_run then Ok Planned
            else Cleaned <$> remove_file key file w
        | _ => Ok Skipped
        end
    end.
Definition collect_key (cutoff : Z) (dry_run : bool) (root : path) (sid : pystr) (listed : owner_session) (p : pass) (key : pystr) : pass :=
  let p := meanwhile p in
  match key_transaction cutoff dry_run root sid listed key (p_world p) with
  | Ok Skipped | Err FileNotFoundError => p
  | Ok Blocked => report (add_blocked key) p
  | Ok Planned => report (add_planned key) p
  | Ok (Cleaned w) => Pass w (add_cleaned key (p_report p)) (p_clock p)
  | Err e => report (add_failure (key +:+ ": " +:+ exn_text e)) p
  end.

(** ** A pass *)

Definition _session_prefix (sid : pystr) (s : owner_session) : res snapshot_exn pystr :=
  require (_safe_component (os_workspace s) && _safe_component sid) (WorkspaceSnapshotGcError "workspace_snapshot_owner_path_invalid");;
  Ok ("workspaces/" +:+ os_workspace s +:+ "/sessions/" +:+ sid).
Definition collect_session (cutoff : Z) (dry_run : bool) (root : path) (p : pass) (listed : pystr * owner_session) : pass :=
  let '(sid, s) := listed in
  match _session_prefix sid s with
  | Err e => report (add_failure ("session:" +:+ sid +:+ ": " +:+ exn_text e)) p
  | Ok prefix => _snapshot_keys root prefix sid (collect_key cutoff dry_run root sid s) p
  end.
Definition listed_session (cutoff : Z) (w : snapshot_world) (s : owner_session) : bool :=
  session_purged cutoff s || match sw_agents w !! os_agent s with Some a => agent_purged cutoff a | None => false end.
Definition collect_workspace_snapshot_gc (location : option path) (cutoff : Z) (dry_run : bool) (w : snapshot_world) : res snapshot_exn pass :=
  root ← _local_storage_root location (sw_fs w);
  match root with
  | None => Ok (Pass w empty_report 0)
  | Some root =>
      let p := meanwhile (Pass w empty_report 0) in
      Ok (foldl (collect_session cutoff dry_run root) p (qs_list (listed_session cutoff (p_world p)) (sw_sessions (p_world p))))
  end.
End collector.
