(* ===== verification/SnapshotGcProps.v ===== *)
(** * What a pass over workspace files deletes

    Whatever other requests do between its steps, a pass of the collector deletes only files that are collectable;
    an undisturbed pass deletes all of them, and they are what a dry run plans. *)

From stdpp Require Import base tactics list gmap numbers sorting.
From S2P Require Import Prelude PyStr Table Schema Lifecycle ResourceGc SnapshotGc.

(** ** What may be deleted *)

(** the place of a file below the directory of its session *)
Definition owned_name (n : pystr) : bool := _SNAPSHOT_FILE n || _TEMPORARY_FILE n.
Inductive family (known : pystr -> bool) : path -> Prop :=
| family_snapshot generation name :
    _GENERATION generation = true -> owned_name name = true -> family known ["snapshots"; generation; name]
| family_checkpoint run digest name :
    known run = true -> _DIGEST digest = true -> owned_name name = true ->
    family known ["agent-runs"; run; "execution-checkpoints"; digest; name].

(** the session, or its agent while no run of the session is active, was deleted for good before the cutoff *)
Definition reclaimable_session (cutoff : Z) (w : snapshot_world) (sid : pystr) (s : owner_session) : Prop :=
  sw_sessions w !! sid = Some s /\
  exists a, sw_agents w !! os_agent s = Some a /\ oa_workspace a = os_workspace s /\
    (session_purged cutoff s = true \/ (agent_purged cutoff a = true /\ has_active_run sid w = false)).

(** [parts] leads from [root] through real directories *)
Definition plain_path (fs : fsys) (root parts : path) : Prop :=
  forall front next rest, parts = front ++ next :: rest -> front <> [] -> fs !! (root ++ front) = Some NDir.

Definition session_parts (sid : pystr) (s : owner_session) : path := ["workspaces"; os_workspace s; "sessions"; sid].
Record collectable (cutoff : Z) (root : path) (w : snapshot_world) (file : path) : Prop := Collectable {
  co_owner : exists sid s rest, reclaimable_session cutoff w sid s /\ family (known_run sid w) rest /\
    forallb _safe_component (session_parts sid s ++ rest) = true /\ file = root ++ session_parts sid s ++ rest /\
    plain_path (sw_fs w) root (session_parts sid s ++ rest);
  co_old : exists mtime, sw_fs w !! file = Some (NFile mtime) /\ mtime <= cutoff }.

(** ** Names and paths *)

Lemma split_on_nonempty sep l : split_on sep l <> [].
Proof. destruct l as [|c l]; cbn; [done|]. destruct (c =? sep); [done|]. by destruct (split_on sep l). Qed.
Lemma split_on_app sep a b : split_on sep (a ++ sep :: b) = split_on sep a ++ split_on sep b.
Proof.
  induction a as [|c a IH]; cbn.
  - by rewrite Z.eqb_refl.
  - destruct (c =? sep); [by rewrite IH|]. rewrite IH. pose proof (split_on_nonempty sep a). by destruct (split_on sep a).
Qed.
Lemma str_split_app a b : str_split 47 (a +:+ "/" +:+ b) = str_split 47 a ++ str_split 47 b.
Proof. unfold str_split. rewrite <- map_app, <- split_on_app. reflexivity. Qed.
Lemma str_split_name n : no_slash n = true -> str_split 47 n = [n].
Proof.
  unfold no_slash, str_split. destruct n as [l]. cbn. intros H.
  assert (split_on 47 l = [l]) as ->; [|done]. induction l as [|c l IH]; [done|]. cbn in *. apply andb_prop in H as [Hc Hl].
  apply negb_true_iff in Hc. by rewrite Hc, IH.
Qed.

Lemma safe_no_slash n : _safe_component n = true -> no_slash n = true.
Proof. unfold _safe_component, no_slash. rewrite !andb_true_iff. tauto. Qed.

(** A character class that no name of the collector leaves. *)
Definition name_char (c : Z) : bool := is_lower_hex c || temporary_char c || (c =? 46) || (c =? 45).
Lemma name_char_safe s :
  chars_all name_char s = true -> s <> "" -> s <> "." -> s <> ".." -> _safe_component s = true.
Proof.
  intros H H1 H2 H3. unfold _safe_component. rewrite (proj2 (is_empty_false _) H1). rewrite !bool_decide_eq_false_2 by done. cbn.
  assert (forall x, name_char x = false -> forallb (fun c => negb (c =? x)) (code_points s) = true) as Hx.
  { intros x Hx. apply forallb_forall. intros c Hc. unfold chars_all in H. rewrite forallb_forall in H. apply negb_true_iff, Z.eqb_neq.
    intros ->. rewrite (H _ Hc) in Hx. done. }
  by rewrite !Hx.
Qed.
Lemma name_chars_impl (p : Z -> bool) s : (forall c, p c = true -> name_char c = true) -> chars_all p s = true -> chars_all name_char s = true.
Proof. unfold chars_all. rewrite !forallb_forall. eauto. Qed.
Lemma hex_name_char c : is_lower_hex c = true -> name_char c = true.
Proof. unfold name_char. by intros ->. Qed.
Lemma long_name s : 2 < str_len s -> s <> "" /\ s <> "." /\ s <> "..".
Proof. intros H. repeat split; intros ->; done. Qed.

Lemma generation_safe s : _GENERATION s = true -> _safe_component s = true.
Proof.
  destruct s as [[|c l]]; [done|]. cbn. intros H. apply andb_prop in H as [Hc Hl].
  apply name_char_safe.
  - cbn. unfold chars_all. apply andb_true_intro. split.
    + unfold name_char, is_lower_hex, temporary_char. lia.
    + apply forallb_forall. rewrite forallb_forall in Hl. intros d Hd. specialize (Hl d Hd). unfold ascii_digit, name_char, is_lower_hex in *. lia.
  - done.
  - intros [= -> ->]. done.
  - intros [= -> ->]. done.
Qed.
Lemma digest_chars s : _DIGEST s = true -> chars_all name_char s = true /\ str_len s = 64.
Proof.
  unfold _DIGEST. intros [Hl Hc]%andb_prop. split; [|by apply Z.eqb_eq]. eapply name_chars_impl; [apply hex_name_char|done].
Qed.
Lemma digest_safe s : _DIGEST s = true -> _safe_component s = true.
Proof.
  intros [Hc Hl]%digest_chars. assert (2 < str_len s) as (? & ? & ?)%long_name by lia. by apply name_char_safe.
Qed.
Lemma chars_all_split n s p : chars_all p (PyStr (take n (code_points s))) = true -> chars_all p (str_drop n s) = true -> chars_all p s = true.
Proof. unfold chars_all, str_drop. cbn. intros H1 H2. rewrite <- (take_drop n (code_points s)), forallb_app. by rewrite H1, H2. Qed.
Lemma drop_long n s t : str_drop n s = t -> 2 < str_len t -> 2 < str_len s.
Proof. unfold str_len, zlen, str_drop. intros <-. cbn. rewrite length_drop. lia. Qed.
Lemma owned_safe s : owned_name s = true -> _safe_component s = true.
Proof.
  intros H. assert (chars_all name_char s = true /\ 2 < str_len s) as (Hc & (? & ? & ?)%long_name); [|by apply name_char_safe].
  apply orb_prop in H as [H|H].
  - unfold _SNAPSHOT_FILE in H. apply andb_prop in H as [[Hc _]%digest_chars Hd]. apply bool_decide_eq_true in Hd. split.
    + eapply chars_all_split; [exact Hc|]. by rewrite Hd.
    + by eapply drop_long.
  - unfold _TEMPORARY_FILE in H. cbv zeta in H. apply andb_prop in H as [Hs H]. apply andb_prop in H as [[_ Hm]%andb_prop Hd].
    apply startswith_spec in Hs as (t & ->). apply bool_decide_eq_true in Hd. change 21%nat with (length (code_points ".centaeris-immutable-")) in *.
    rewrite str_drop_app in *. split; [|rewrite str_len_app; change (str_len ".centaeris-immutable-") with 21; unfold str_len, zlen; lia].
    unfold chars_all. rewrite code_points_app, forallb_app. apply andb_true_intro. split; [done|].
    eapply (chars_all_split 8); [|by rewrite Hd]. eapply name_chars_impl; [|exact Hm]. unfold name_char. intros c ->. by rewrite orb_true_r.
Qed.

(** ** Checked paths *)

Lemma plain_path_cons fs root x y l :
  plain_path fs root (x :: y :: l) <-> fs !! (root ++ [x]) = Some NDir /\ plain_path fs (root ++ [x]) (y :: l).
Proof.
  split.
  - intros H. split; [by apply (H [x] y l)|]. intros front next rest E Hf. rewrite <- app_assoc. apply (H ([x] ++ front) next rest); [|done].
    cbn. by rewrite E.
  - intros [Hx H] front next rest E Hf. destruct front as [|z front]; [done|]. injection E as <- E.
    destruct front as [|z' front]; [done|]. specialize (H (z' :: front) next rest). rewrite <- app_assoc in H. by apply H.
Qed.
Lemma plain_path_one fs root x : plain_path fs root [x].
Proof. intros [|? [|]] ? ? E ?; done. Qed.
Lemma plain_path_mono fs fs' root parts :
  (forall q, fs !! q = Some NDir -> fs' !! q = Some NDir) -> plain_path fs root parts -> plain_path fs' root parts.
Proof. intros Hm H front next rest E Hf. eauto. Qed.
Lemma plain_path_front fs root front rest : plain_path fs root (front ++ rest) -> plain_path fs root front.
Proof. intros H f n r -> Hf. apply (H f n (r ++ rest)); [|done]. by rewrite <- app_assoc. Qed.

Lemma check_parts_cons fs root x l directory :
  check_parts fs root (x :: l) directory =
  (m ← lstat fs (root ++ [x]);
   require (negb (_is_link m)) (WorkspaceSnapshotGcError "workspace_snapshot_path_symlink");;
   require (if negb (bool_decide (l = [])) || directory then is_dir m else is_file m) (WorkspaceSnapshotGcError "workspace_snapshot_path_kind_invalid");;
   check_parts fs (root ++ [x]) l directory).
Proof. reflexivity. Qed.
Lemma lstat_Ok fs q m : lstat fs q = Ok m -> fs !! q = Some m.
Proof. unfold lstat. destruct (fs !! q) as [[]|]; naive_solver. Qed.

Lemma check_parts_Ok fs root parts directory q : check_parts fs root parts directory = Ok q -> q = root ++ parts.
Proof.
  revert root. induction parts as [|x l IH]; intros root; [cbn; intros [= <-]; by rewrite app_nil_r|].
  rewrite check_parts_cons. intros H. apply bind_Ok in H as (m & _ & H). apply bind_Ok in H as (? & _ & H). apply bind_Ok in H as (? & _ & H).
  rewrite (IH _ H), <- app_assoc. done.
Qed.
Lemma check_parts_file fs root x l q : check_parts fs root (x :: l) false = Ok q ->
  plain_path fs root (x :: l) /\ exists mtime, fs !! (root ++ x :: l) = Some (NFile mtime).
Proof.
  revert root x. induction l as [|y l IH]; intros root x; rewrite check_parts_cons; intros H;
    apply bind_Ok in H as (m & Hm%lstat_Ok & H); apply bind_Ok in H as (? & _ & H); apply bind_Ok in H as (? & Hk%require_Ok & H).
  - split; [apply plain_path_one|]. destruct m; try done. eauto.
  - destruct m; try done. apply IH in H as [Hp [mt Hf]]. rewrite <- app_assoc in Hf. split; [|eauto]. by apply plain_path_cons.
Qed.
Lemma check_parts_file_ok fs root x l mtime : plain_path fs root (x :: l) -> fs !! (root ++ x :: l) = Some (NFile mtime) ->
  check_parts fs root (x :: l) false = Ok (root ++ x :: l).
Proof.
  revert root x. induction l as [|y l IH]; intros root x Hp Hf; rewrite check_parts_cons; unfold lstat.
  - rewrite Hf. reflexivity.
  - apply plain_path_cons in Hp as [Hx Hp]. rewrite Hx. specialize (IH (root ++ [x]) y Hp). rewrite <- !app_assoc in IH. by apply IH.
Qed.
(** a proper beginning of a plain path is a directory that can be listed *)
Lemma check_parts_dir_ok fs root front next rest : plain_path fs root (front ++ next :: rest) -> check_parts fs root front true = Ok (root ++ front).
Proof.
  revert root. induction front as [|x l IH]; intros root H; [by rewrite app_nil_r|]. rewrite check_parts_cons. unfold lstat.
  assert (fs !! (root ++ [x]) = Some NDir) as ->.
  { destruct l; by apply plain_path_cons in H as [H _]. }
  specialize (IH (root ++ [x])). rewrite <- !app_assoc in IH. cbn [mbind res_bind]. cbn. rewrite orb_true_r. cbn. apply IH.
  destruct l; by apply plain_path_cons in H as [_ H].
Qed.

(** ** The transaction on one key *)

Definition key_of (sid : pystr) (s : owner_session) (rest : path) (key : pystr) : Prop := str_split 47 key = session_parts sid s ++ rest.

Lemma key_transaction_sound re cutoff dry root sid s key w o rest :
  key_of sid s rest key -> family (known_run sid w) rest ->
  key_transaction re cutoff dry root sid s key w = Ok o ->
  match o with
  | Skipped | Blocked => True
  | Planned => dry = true /\ collectable cutoff root w (root ++ session_parts sid s ++ rest)
  | Cleaned w' => dry = false /\ collectable cutoff root w (root ++ session_parts sid s ++ rest) /\
                  w' = set_fs (delete (root ++ session_parts sid s ++ rest)) w
  end.
Proof.
  intros Hkey Hfam H. unfold key_transaction in H.
  apply bind_Ok in H as (a & Ha%from_option_res_Ok & H). apply bind_Ok in H as (ow & Ho%from_option_res_Ok & H).
  destruct (_ || _ || _ || _) eqn:Eg in H; [by injection H as <-|]. rewrite !orb_false_iff, !negb_false_iff, !bool_decide_eq_true in Eg.
  destruct Eg as [[[Ew Ea] Eaw] Ep]. unfold _checked_path in H. cbv zeta in H. unfold key_of in Hkey. rewrite Hkey in H.
  destruct (forallb _ _) eqn:Hs in H; cbn [require mbind res_bind] in H; [|done].
  destruct (check_parts _ _ _ _) as [file|[]] eqn:Hc in H; try done; [|by injection H as <-].
  pose proof (check_parts_Ok _ _ _ _ _ Hc) as ->. apply check_parts_file in Hc as [Hp [mt Hf]].
  apply bind_Ok in H as (m & Hm%lstat_Ok & H). change (sw_fs w !! (root ++ session_parts sid s ++ rest) = Some (NFile mt)) in Hf. rewrite Hf in Hm. injection Hm as <-. destruct (cutoff <? mt) eqn:Et; [by injection H as <-|].
  assert (collectable cutoff root w (root ++ session_parts sid s ++ rest)) as Hcol.
  { split; [|exists mt; split; [done|lia]]. exists sid, ow, rest. unfold session_parts in *. rewrite Ew. split; [|by repeat split].
    split; [done|]. exists a. rewrite Ea. split; [done|]. split; [done|]. apply orb_prop in Ep as [Ep|[Ep1 Ep2%negb_true_iff]%andb_prop]; auto. }
  destruct dry; [by injection H as <-|]. apply fmap_Ok in H as (w' & H & ->). unfold remove_file in H. destruct (re key); [done|]. by injection H as <-.
Qed.

Lemma key_transaction_complete re cutoff dry root sid s key w rest :
  (forall k, re k = None) -> key_of sid s rest key -> reclaimable_session cutoff w sid s ->
  forallb _safe_component (session_parts sid s ++ rest) = true -> plain_path (sw_fs w) root (session_parts sid s ++ rest) ->
  (exists mtime, sw_fs w !! (root ++ session_parts sid s ++ rest) = Some (NFile mtime) /\ mtime <= cutoff) ->
  key_transaction re cutoff dry root sid s key w =
  Ok (if dry then Planned else Cleaned (set_fs (delete (root ++ session_parts sid s ++ rest)) w)).
Proof.
  intros Hre Hkey (Hs & a & Ha & Eaw & Ep) Hsafe Hp (mt & Hf & Hle). unfold key_transaction. rewrite Ha, Hs. cbn [from_option_res mbind res_bind].
  rewrite !bool_decide_eq_true_2 by done. replace (session_purged _ _ || _) with true.
  2: { symmetry. destruct Ep as [->|[-> ->]]; [done|by rewrite orb_true_r]. }
  cbn [negb orb]. unfold _checked_path, key_of in *. cbv zeta. rewrite Hkey, Hsafe. cbn [require mbind res_bind].
  assert (check_parts (sw_fs w) root (session_parts sid s ++ rest) false = Ok (root ++ session_parts sid s ++ rest)) as -> by by eapply check_parts_file_ok.
  unfold lstat. rewrite Hf. cbn [mbind res_bind]. assert ((cutoff <? mt) = false) as -> by lia. destruct dry; [done|]. unfold remove_file. by rewrite Hre.
Qed.

(** ** Enumeration *)

Lemma elem_of_scandir fs dir n : n ∈ scandir fs dir <-> is_Some (fs !! (dir ++ [n])) /\ no_slash n = true.
Proof.
  unfold scandir. rewrite list_elem_of_omap. split.
  - intros ([q m] & Hq%elem_of_map_to_list & He). unfold entry_of in He. cbn in He. case_bool_decide as Hd; [|done].
    destruct (last q) as [n'|] eqn:Hl; [|done]. cbn in He. destruct (no_slash n') eqn:Hn; [|done]. injection He as ->. split; [|done].
    apply last_Some in Hl as [l' ->]. rewrite removelast_last in Hd. subst l'. by rewrite Hq.
  - intros [[m Hm] Hn]. exists (dir ++ [n], m). split; [by apply elem_of_map_to_list|]. unfold entry_of. cbn.
    rewrite removelast_last, bool_decide_eq_true_2 by done. rewrite last_snoc. cbn. by rewrite Hn.
Qed.

Lemma foldl_inv_in {A B} (J : A -> Prop) (f : A -> B -> A) l a :
  (forall a x, x ∈ l -> J a -> J (f a x)) -> J a -> J (foldl f a l).
Proof.
  revert a. induction l as [|x l IH]; intros a Hf Ha; cbn; [done|]. apply IH; [|apply Hf; [by left|done]].
  intros b y Hy. apply Hf. by right.
Qed.
(** a step that establishes what all steps keep *)
Lemma foldl_reach {A B} (J Q : A -> Prop) (f : A -> B -> A) l a x :
  (forall a y, y ∈ l -> J a -> J (f a y) /\ (Q a -> Q (f a y))) -> (forall a, J a -> Q (f a x)) -> x ∈ l -> J a -> Q (foldl f a l).
Proof.
  revert a. induction l as [|y l IH]; intros a Hf Hx Hin Ha; [by apply not_elem_of_nil in Hin|]. cbn.
  assert (forall a z, z ∈ l -> J a -> J (f a z) /\ (Q a -> Q (f a z))) as Hf' by (intros b z Hz; apply Hf; by right).
  destruct (Hf a y ltac:(by left) Ha) as [Hy _]. apply elem_of_cons in Hin as [->|Hin]; [|by apply IH].
  apply (foldl_inv_in (fun a => J a /\ Q a)); [|auto]. intros b z Hz [Hb Hq]. destruct (Hf' b z Hz Hb). auto.
Qed.

Section enumeration.
Context (others : nat -> snapshot_world -> snapshot_world) (root : path).
(** an invariant that neither the other requests nor the report disturb *)
Context (J : pass -> Prop).
Hypothesis J_meanwhile : forall p, J p -> J (meanwhile others p).
Hypothesis J_blocked : forall k p, J p -> J (report (add_blocked k) p).
Hypothesis J_failure : forall k p, J p -> J (report (add_failure k) p).

Lemma children_inv prefix p : J p -> J (_children others root prefix p).2.
Proof. intros H. unfold _children. cbv zeta. destruct (_checked_path _ _ _ _) as [|[]]; cbn; auto. Qed.
Lemma children_name prefix p n : n ∈ (_children others root prefix p).1 -> no_slash n = true.
Proof.
  unfold _children. cbv zeta. destruct (_checked_path _ _ _ _) as [|[]]; cbn; try by intros ?%not_elem_of_nil.
  rewrite merge_sort_Permutation. by intros [_ ?]%elem_of_scandir.
Qed.

Section consumer.
Context (consume : pass -> pystr -> pass).

Lemma directory_files_inv prefix p :
  (forall p key n, J p -> owned_name n = true -> str_split 47 key = str_split 47 prefix ++ [n] -> J (consume p key)) ->
  J p -> J (_directory_files others root prefix consume p).
Proof.
  intros Hc H. unfold _directory_files. pose proof (children_inv prefix p H) as Hp. pose proof (children_name prefix p) as Hn.
  destruct (_children _ _ _ _) as [names p']. cbn in *. apply foldl_inv_in; [|done]. intros q n Hin Hq.
  destruct (_ || _) eqn:E; [|done]. eapply Hc; [done|exact E|]. by rewrite str_split_app, (str_split_name n) by eauto.
Qed.
(** the two loops over subdirectories *)
Lemma subdirectories_inv (accept : pystr -> bool) prefix p :
  (forall s, accept s = true -> _safe_component s = true) ->
  (forall p key d n, J p -> accept d = true -> owned_name n = true -> str_split 47 key = str_split 47 prefix ++ [d; n] -> J (consume p key)) ->
  J p -> J (let '(names, p) := _children others root prefix p in
            foldl (fun p d => if accept d then _directory_files others root (prefix +:+ "/" +:+ d) consume p else p) p names).
Proof.
  intros Ha Hc H. pose proof (children_inv prefix p H) as Hp. destruct (_children _ _ _ _) as [names p']. cbn in *. apply foldl_inv_in; [|done].
  intros q d Hin Hq. destruct (accept d) eqn:E; [|done]. apply directory_files_inv; [|done]. intros q' key n Hq' Hn Hk.
  eapply Hc; [done|exact E|exact Hn|]. rewrite Hk, str_split_app, (str_split_name d) by by apply safe_no_slash, Ha. by rewrite <- app_assoc.
Qed.
Lemma unknown_run_inv key p : J p -> J (unknown_run others root key p).
Proof. intros H. unfold unknown_run. cbv zeta. destruct (_checked_path _ _ _ _) as [|[]]; auto. Qed.
End consumer.
End enumeration.

Lemma family_mono (k k' : pystr -> bool) rest : (forall id, k id = true -> k' id = true) -> family k rest -> family k' rest.
Proof. intros H [|]; constructor; auto. Qed.
Lemma family_cases known rest : family known rest ->
  (exists g n, rest = ["snapshots"; g; n] /\ _GENERATION g = true /\ owned_name n = true) \/
  (exists run d n, rest = ["agent-runs"; run; "execution-checkpoints"; d; n] /\ known run = true /\ _DIGEST d = true /\ owned_name n = true).
Proof. intros [g n|run d n]; [left; by exists g, n|right; by exists run, d, n]. Qed.
Lemma run_key_split run_prefix run : no_slash run = true ->
  str_split 47 (run_prefix +:+ "/" +:+ run +:+ "/execution-checkpoints") = str_split 47 run_prefix ++ [run; "execution-checkpoints"].
Proof.
  intros Hr. change (run +:+ "/execution-checkpoints") with (run +:+ "/" +:+ "execution-checkpoints").
  by rewrite !str_split_app, (str_split_name run).
Qed.
Lemma prefix_split prefix (last : pystr) : no_slash last = true -> str_split 47 (prefix +:+ "/" +:+ last) = str_split 47 prefix ++ [last].
Proof. intros H. by rewrite str_split_app, (str_split_name last). Qed.
Lemma session_prefix_split sid s prefix : _session_prefix sid s = Ok prefix -> str_split 47 prefix = session_parts sid s.
Proof.
  unfold _session_prefix. intros H. apply bind_Ok in H as (? & [H1 H2]%require_Ok%andb_prop & [= <-]).
  change (str_split 47 ("workspaces" +:+ "/" +:+ (os_workspace s +:+ "/" +:+ ("sessions" +:+ "/" +:+ sid))) = session_parts sid s).
  rewrite !str_split_app, !(str_split_name (os_workspace s)), (str_split_name sid) by by apply safe_no_slash. reflexivity.
Qed.

(** Every key of a session is consumed in a state in which it belongs to the session. *)
Section session_keys.
Context (others : nat -> snapshot_world -> snapshot_world) (root : path) (J : pass -> Prop) (consume : pass -> pystr -> pass) (prefix sid : pystr).
Hypothesis J_meanwhile : forall p, J p -> J (meanwhile others p).
Hypothesis J_blocked : forall k p, J p -> J (report (add_blocked k) p).
Hypothesis J_failure : forall k p, J p -> J (report (add_failure k) p).
Hypothesis runs_stay : forall n w id, known_run sid w id = true -> known_run sid (others n w) id = true.
Hypothesis consume_runs : forall p key id, known_run sid (p_world p) id = true -> known_run sid (p_world (consume p key)) id = true.
Hypothesis J_consume : forall p key rest,
  J p -> family (known_run sid (p_world p)) rest -> str_split 47 key = str_split 47 prefix ++ rest -> J (consume p key).

Lemma generation_files_inv p : J p -> J (generation_files others root (prefix +:+ "/snapshots") consume p).
Proof.
  apply (subdirectories_inv others root J J_meanwhile J_failure consume _GENERATION (prefix +:+ "/snapshots") p generation_safe).
  intros q key d n Hq Hd Hn Hk. apply (J_consume _ _ ["snapshots"; d; n]); [done|by constructor|]. rewrite Hk.
  change "/snapshots"%py with ("/" +:+ "snapshots"). by rewrite prefix_split, <- app_assoc.
Qed.
Lemma checkpoint_files_inv p : J p -> J (checkpoint_files others root (prefix +:+ "/agent-runs") sid consume p).
Proof.
  intros Hg. unfold checkpoint_files. apply J_meanwhile in Hg. set (p2 := meanwhile others p) in *. cbv zeta.
  set (known := known_run sid (p_world p2)).
  pose (J' := fun p => J p /\ forall id, known id = true -> known_run sid (p_world p) id = true).
  assert (forall p, J' p -> J' (meanwhile others p)) as Hm' by (intros q [? ?]; split; [auto|intros; cbn; auto]).
  assert (forall k p, J' p -> J' (report (add_blocked k) p)) as Hb' by (intros k q [? ?]; split; auto).
  assert (forall k p, J' p -> J' (report (add_failure k) p)) as Hf' by (intros k q [? ?]; split; auto).
  assert (J' p2) as H2 by (split; auto).
  pose proof (children_inv others root J' Hm' Hf' (prefix +:+ "/agent-runs") p2 H2) as H3.
  pose proof (children_name others root (prefix +:+ "/agent-runs") p2) as Hn. destruct (_children _ _ _ _) as [ids p3]. cbn [fst snd] in *.
  enough (forall f, (forall a x, x ∈ ids -> J' a -> J' (f a x)) -> J (foldl f p3 ids)) as Hloop; [apply Hloop|by intros f Hstep; apply (foldl_inv_in J' f ids p3)].
  intros q id Hid Hq. destruct (known id) eqn:Ek; [|by apply unknown_run_inv].
  apply (subdirectories_inv others root J' Hm' Hf' consume _DIGEST _ q digest_safe); [|done]. intros q' key d n [Hq1 Hq2] Hd Hn' Hk.
  rewrite (run_key_split _ _ (Hn _ Hid)) in Hk. change "/agent-runs"%py with ("/" +:+ "agent-runs") in Hk. rewrite prefix_split, <- !app_assoc in Hk by done.
  split; [|auto]. apply (J_consume _ _ ["agent-runs"; id; "execution-checkpoints"; d; n]); [done|constructor; auto|done].
Qed.
Lemma snapshot_keys_inv p : J p -> J (_snapshot_keys others root prefix sid consume p).
Proof. intros H. by apply checkpoint_files_inv, generation_files_inv. Qed.
End session_keys.

(** ** Invariants of a pass *)

Lemma cleaned_changes_files re cutoff dry root sid s key w w' :
  key_transaction re cutoff dry root sid s key w = Ok (Cleaned w') -> exists f, w' = set_fs f w.
Proof.
  unfold key_transaction. intros H. apply bind_Ok in H as (a & _ & H). apply bind_Ok in H as (o & _ & H). case_match; [done|].
  destruct (_checked_path _ _ _ _) as [file|[]]; try done. apply bind_Ok in H as (m & _ & H). destruct m; try done. case_match; [done|].
  destruct dry; [done|]. apply fmap_Ok in H as (w1 & H & [= <-]). unfold remove_file in H. destruct (re key); [done|]. injection H as <-. eauto.
Qed.

Definition start (others : nat -> snapshot_world -> snapshot_world) (w : snapshot_world) : pass := meanwhile others (Pass w empty_report 0).

Section passes.
Context (others : nat -> snapshot_world -> snapshot_world) (remove_error : pystr -> option pystr) (cutoff : Z) (dry_run : bool) (root : path).
Context (J : pass -> Prop).
Hypothesis runs_stay : forall sid n w id, known_run sid w id = true -> known_run sid (others n w) id = true.
Hypothesis J_meanwhile : forall p, J p -> J (meanwhile others p).
Hypothesis J_blocked : forall k p, J p -> J (report (add_blocked k) p).
Hypothesis J_failure : forall k p, J p -> J (report (add_failure k) p).
Hypothesis J_planned : forall k p, J p -> dry_run = true -> collectable cutoff root (p_world p) (root ++ str_split 47 k) -> J (report (add_planned k) p).
Hypothesis J_cleaned : forall k p, J p -> dry_run = false -> collectable cutoff root (p_world p) (root ++ str_split 47 k) ->
  J (Pass (set_fs (delete (root ++ str_split 47 k)) (p_world p)) (add_cleaned k (p_report p)) (p_clock p)).

Lemma collect_key_inv sid s p key rest :
  key_of sid s rest key -> family (known_run sid (p_world p)) rest -> J p -> J (collect_key others remove_error cutoff dry_run root sid s p key).
Proof.
  intros Hk Hf Hp. apply J_meanwhile in Hp. unfold collect_key. cbv zeta.
  assert (family (known_run sid (p_world (meanwhile others p))) rest) as Hf' by (eapply family_mono; [|exact Hf]; intros id Hid; cbn; by apply runs_stay).
  destruct (key_transaction _ _ _ _ _ _ _ _) as [o|e] eqn:Ht.
  - pose proof (key_transaction_sound _ _ _ _ _ _ _ _ _ _ Hk Hf' Ht) as Hs. rewrite <- Hk in Hs.
    destruct o; [done|by apply J_blocked|destruct Hs; by apply J_planned|destruct Hs as (? & ? & ->); by apply J_cleaned].
  - destruct e; [done|by apply J_failure..].
Qed.
Lemma collect_key_runs sid s p key id :
  known_run sid (p_world p) id = true -> known_run sid (p_world (collect_key others remove_error cutoff dry_run root sid s p key)) id = true.
Proof.
  intros H. apply (runs_stay sid (p_clock p)) in H. unfold collect_key. cbv zeta.
  destruct (key_transaction _ _ _ _ _ _ _ _) as [[]|[]] eqn:Ht; cbn; try done. by apply cleaned_changes_files in Ht as [f ->].
Qed.
Lemma collect_session_inv p listed : J p -> J (collect_session others remove_error cutoff dry_run root p listed).
Proof.
  destruct listed as [sid s]. intros H. unfold collect_session. destruct (_session_prefix sid s) as [prefix|e] eqn:E; [|by apply J_failure].
  apply session_prefix_split in E. apply snapshot_keys_inv; try done; [apply runs_stay|intros; by apply collect_key_runs|].
  intros q key rest Hq Hf Hk. eapply collect_key_inv; [|done..]. unfold key_of. by rewrite Hk, E.
Qed.
Lemma collect_sessions_inv p l : J p -> J (foldl (collect_session others remove_error cutoff dry_run root) p l).
Proof. intros H. apply foldl_inv_in; [|done]. intros q x _. apply collect_session_inv. Qed.
End passes.

Lemma set_fs_less cutoff root (w : snapshot_world) q file :
  collectable cutoff root (set_fs (delete q) w) file -> collectable cutoff root w file.
Proof.
  assert (forall r m, sw_fs (set_fs (delete q) w) !! r = Some m -> sw_fs w !! r = Some m) as Hl by (intros r m; cbn; by intros [_ ?]%lookup_delete_Some).
  intros [(sid & s & rest & Hr & Hf & Hs & He & Hp) (mt & Hm & Hle)]. split; [|eauto]. exists sid, s, rest. repeat split; try done; [apply Hr..|].
  eapply plain_path_mono; [|exact Hp]. intros; by apply Hl.
Qed.

(** ** Whatever else happens, only collectable files go *)

Definition kept_file (cutoff : Z) (root file : path) (w : snapshot_world) : Prop :=
  is_Some (sw_fs w !! file) /\ ~ collectable cutoff root w file.

(** Whatever other requests do between the steps of a pass, a file that is not collectable, and that no other
    request removes or makes collectable, is kept (C17): files of live sessions, of sessions that can still be
    restored, of unknown runs, recent files, files behind links and files of others.  The one thing required of the
    other requests besides is that they do not take a run away from its session. *)
Theorem uncollectable_files_are_kept others remove_error cutoff dry_run root file w p :
  (forall sid n w id, known_run sid w id = true -> known_run sid (others n w) id = true) ->
  (forall n w, kept_file cutoff root file w -> kept_file cutoff root file (others n w)) ->
  kept_file cutoff root file w ->
  collect_workspace_snapshot_gc others remove_error (Some root) cutoff dry_run w = Ok p ->
  kept_file cutoff root file (p_world p).
Proof.
  intros Hr Ho Hk H. unfold collect_workspace_snapshot_gc in H. apply bind_Ok in H as (r & Hroot & H).
  destruct r as [r|]; [|by injection H as <-].
  assert (r = root) as -> by (unfold _local_storage_root in Hroot; destruct (check_root _ _ _) as [|[]]; naive_solver).
  injection H as <-. apply (collect_sessions_inv others remove_error cutoff dry_run root (fun p => kept_file cutoff root file (p_world p))); cbn; auto.
  intros k q [Hq1 Hq2] _ Hc. split; cbn.
  - rewrite lookup_delete_ne; [done|]. intros <-. done.
  - intros H%set_fs_less. done.
Qed.

(** ** An undisturbed pass *)

Definition quiet (_ : nat) (w : snapshot_world) : snapshot_world := w.
Definition key_path (root : path) (key : pystr) : path := root ++ str_split 47 key.

Section quiet_pass.
Context (remove_error : pystr -> option pystr) (removable : forall k, remove_error k = None).
Context (cutoff : Z) (dry_run : bool) (root : path) (w : snapshot_world).

(** the rows are as at the start; a file is as at the start, unless it was collectable and was deleted *)
Record so_far (p : pass) : Prop := SoFar {
  sf_agents : sw_agents (p_world p) = sw_agents w;
  sf_sessions : sw_sessions (p_world p) = sw_sessions w;
  sf_runs : sw_runs (p_world p) = sw_runs w;
  sf_files : forall q, sw_fs (p_world p) !! q = sw_fs w !! q \/ (dry_run = false /\ sw_fs (p_world p) !! q = None /\ collectable cutoff root w q);
  sf_planned : forall k, k ∈ gr_planned (p_report p) -> collectable cutoff root w (key_path root k) }.

Lemma so_far_less p q m : so_far p -> sw_fs (p_world p) !! q = Some m -> sw_fs w !! q = Some m.
Proof. intros H Hq. destruct (sf_files p H q) as [E|(_ & E & _)]; congruence. Qed.
Lemma so_far_dir p q : so_far p -> sw_fs w !! q = Some NDir -> sw_fs (p_world p) !! q = Some NDir.
Proof. intros H Hq. destruct (sf_files p H q) as [E|(_ & _ & [_ (mt & E & _)])]; congruence. Qed.
Lemma so_far_known p sid : so_far p -> known_run sid (p_world p) = known_run sid w.
Proof. intros H. unfold known_run. by rewrite (sf_runs p H). Qed.
Lemma so_far_reclaimable p sid s : so_far p -> reclaimable_session cutoff (p_world p) sid s <-> reclaimable_session cutoff w sid s.
Proof.
  intros H. unfold reclaimable_session, has_active_run. by rewrite (sf_runs p H), (sf_sessions p H), (sf_agents p H).
Qed.
Lemma so_far_collectable p file : so_far p -> collectable cutoff root (p_world p) file -> collectable cutoff root w file.
Proof.
  intros H [(sid & s & rest & Hr & Hf & Hs & He & Hp) (mt & Hm & Hle)]. split; [|eauto using so_far_less]. exists sid, s, rest.
  apply (so_far_reclaimable p) in Hr; [|done]. rewrite (so_far_known p) in Hf by done. repeat split; try done; [apply Hr..|].
  eapply plain_path_mono; [|exact Hp]. intros q. by apply so_far_less.
Qed.

Lemma so_far_meanwhile p : so_far p -> so_far (meanwhile quiet p).
Proof. by intros []. Qed.
Lemma so_far_blocked k p : so_far p -> so_far (report (add_blocked k) p).
Proof. by intros []. Qed.
Lemma so_far_failure k p : so_far p -> so_far (report (add_failure k) p).
Proof. by intros []. Qed.
Lemma so_far_add k p : so_far p -> collectable cutoff root (p_world p) (root ++ str_split 47 k) -> so_far (report (add_planned k) p).
Proof.
  intros H Hc%(so_far_collectable p); [|done]. destruct H. constructor; try done. intros k'. cbn. rewrite elem_of_app, list_elem_of_singleton.
  intros [?| ->]; [auto|done].
Qed.
Lemma so_far_delete k p : so_far p -> dry_run = false -> collectable cutoff root (p_world p) (root ++ str_split 47 k) ->
  so_far (Pass (set_fs (delete (root ++ str_split 47 k)) (p_world p)) (add_cleaned k (p_report p)) (p_clock p)).
Proof.
  intros H Hd Hc%(so_far_collectable p); [|done]. destruct H as [H1 H2 H3 H4 H5]. constructor; try done. cbn. intros q.
  destruct (decide (q = root ++ str_split 47 k)) as [->|Hne]; [right; by rewrite lookup_delete_eq|]. by rewrite lookup_delete_ne.
Qed.

(** what the pass owes for a collectable file *)
Definition settled (file : path) (p : pass) : Prop :=
  if dry_run then exists k, k ∈ gr_planned (p_report p) /\ key_path root k = file else sw_fs (p_world p) !! file = None.
Definition on_track (file : path) (p : pass) : Prop := so_far p /\ settled file p.

Lemma track_meanwhile file p : on_track file p -> on_track file (meanwhile quiet p).
Proof. intros [H1 H2]. split; [by apply so_far_meanwhile|done]. Qed.
Lemma track_blocked file k p : on_track file p -> on_track file (report (add_blocked k) p).
Proof. intros [H1 H2]. split; [by apply so_far_blocked|done]. Qed.
Lemma track_failure file k p : on_track file p -> on_track file (report (add_failure k) p).
Proof. intros [H1 H2]. split; [by apply so_far_failure|done]. Qed.
Lemma track_planned file k p : on_track file p -> dry_run = true -> collectable cutoff root (p_world p) (root ++ str_split 47 k) ->
  on_track file (report (add_planned k) p).
Proof.
  intros [H1 H2] Hd Hc. split; [by apply so_far_add|]. unfold settled in *. rewrite Hd in *. destruct H2 as (k' & Hk & E). exists k'. split; [|done].
  cbn. apply elem_of_app. by left.
Qed.
Lemma track_cleaned file k p : on_track file p -> dry_run = false -> collectable cutoff root (p_world p) (root ++ str_split 47 k) ->
  on_track file (Pass (set_fs (delete (root ++ str_split 47 k)) (p_world p)) (add_cleaned k (p_report p)) (p_clock p)).
Proof.
  intros [H1 H2] Hd Hc. split; [by apply so_far_delete|]. unfold settled in *. rewrite Hd in *. cbn. apply lookup_delete_None. by right.
Qed.

(** ** Every collectable file is reached *)

(** an invariant that survives every step of the collector *)
Record good (J : pass -> Prop) : Prop := Good {
  good_so_far : forall p, J p -> so_far p;
  good_meanwhile : forall p, J p -> J (meanwhile quiet p);
  good_blocked : forall k p, J p -> J (report (add_blocked k) p);
  good_failure : forall k p, J p -> J (report (add_failure k) p);
  good_planned : forall k p, J p -> dry_run = true -> collectable cutoff root (p_world p) (root ++ str_split 47 k) -> J (report (add_planned k) p);
  good_cleaned : forall k p, J p -> dry_run = false -> collectable cutoff root (p_world p) (root ++ str_split 47 k) ->
    J (Pass (set_fs (delete (root ++ str_split 47 k)) (p_world p)) (add_cleaned k (p_report p)) (p_clock p)) }.
Lemma so_far_good : good so_far.
Proof. split; eauto using so_far_meanwhile, so_far_blocked, so_far_failure, so_far_delete, so_far_add. Qed.
Lemma track_good file : good (on_track file).
Proof. split; eauto using track_meanwhile, track_blocked, track_failure, track_planned, track_cleaned. by intros p []. Qed.
(** a step that keeps every good invariant keeps what is settled *)
Lemma good_step (f : pass -> pass) file p :
  (forall J, good J -> forall p, J p -> J (f p)) -> so_far p -> so_far (f p) /\ (settled file p -> settled file (f p)).
Proof.
  intros Hf Hp. split; [by apply (Hf _ so_far_good)|]. intros Hs. by destruct (Hf _ (track_good file) p (conj Hp Hs)).
Qed.

Section target.
Context (sid : pystr) (s : owner_session) (rest : path) (mtime : Z).
Hypothesis owner_reclaimable : reclaimable_session cutoff w sid s.
Hypothesis parts_safe : forallb _safe_component (session_parts sid s ++ rest) = true.
Hypothesis parts_plain : plain_path (sw_fs w) root (session_parts sid s ++ rest).
Hypothesis file_old : sw_fs w !! (root ++ session_parts sid s ++ rest) = Some (NFile mtime) /\ mtime <= cutoff.
Abbreviation file := (root ++ session_parts sid s ++ rest).
Abbreviation consume := (collect_key quiet remove_error cutoff dry_run root sid s).

Lemma consume_good J p key rest' :
  good J -> key_of sid s rest' key -> family (known_run sid w) rest' -> J p -> J (consume p key).
Proof.
  intros HJ Hk Hf Hp. eapply collect_key_inv; [done|apply HJ..|exact Hk| |done]. by rewrite (so_far_known p) by by apply HJ.
Qed.
Lemma present_or_settled p : so_far p -> sw_fs (p_world p) !! file = Some (NFile mtime) \/ on_track file p.
Proof.
  intros H. destruct (sf_files p H file) as [E|(Hd & E & _)]; [left; rewrite E; apply file_old|right]. split; [done|]. unfold settled. by rewrite Hd.
Qed.
Lemma consume_settles p key : key_of sid s rest key -> family (known_run sid w) rest -> so_far p -> settled file (consume p key).
Proof.
  intros Hk Hf Hp. destruct (present_or_settled p Hp) as [Hfile|Ht]; [|by apply (consume_good _ p key rest (track_good file))].
  unfold collect_key. cbv zeta. rewrite (key_transaction_complete _ _ _ _ _ _ _ _ rest); try done.
  - unfold settled. destruct dry_run eqn:E; cbn; [|by rewrite lookup_delete_eq]. exists key. split; [apply elem_of_app; right; by apply list_elem_of_singleton|].
    unfold key_path. by rewrite Hk.
  - by apply (so_far_reclaimable p).
  - eapply plain_path_mono; [|exact parts_plain]. intros q. by apply (so_far_dir p).
  - exists mtime. split; [done|apply file_old].
Qed.

Lemma listing p prefix next rest' :
  session_parts sid s ++ rest = str_split 47 prefix ++ next :: rest' -> so_far p ->
  _children quiet root prefix p = (merge_sort str_le (scandir (sw_fs (p_world p)) (root ++ str_split 47 prefix)), meanwhile quiet p).
Proof.
  intros E Hp. unfold _children, _checked_path. cbv zeta.
  assert (forallb _safe_component (str_split 47 prefix) = true) as ->.
  { generalize parts_safe. rewrite E, forallb_app. by intros [-> _]%andb_prop. }
  cbn [require mbind res_bind]. erewrite (check_parts_dir_ok _ _ _ next rest'); [done|]. rewrite <- E.
  eapply plain_path_mono; [|exact parts_plain]. intros q. by apply (so_far_dir p).
Qed.
Lemma part_safe front next rest' : session_parts sid s ++ rest = front ++ next :: rest' -> no_slash next = true.
Proof. intros E. apply safe_no_slash. generalize parts_safe. rewrite E, forallb_app. cbn. by intros [_ [? _]%andb_prop]%andb_prop. Qed.
Lemma listed_directory p prefix next x rest' :
  session_parts sid s ++ rest = str_split 47 prefix ++ next :: x :: rest' -> so_far p -> next ∈ (_children quiet root prefix p).1.
Proof.
  intros E Hp. rewrite (listing p prefix next (x :: rest')) by done. cbn. rewrite merge_sort_Permutation, elem_of_scandir.
  split; [|by eapply part_safe]. exists NDir. rewrite <- app_assoc. apply so_far_dir; [done|]. apply (parts_plain (str_split 47 prefix ++ [next]) x rest').
  - by rewrite E, <- app_assoc.
  - by destruct (str_split 47 prefix).
Qed.

Lemma directory_good J prefix p :
  good J -> (forall n, owned_name n = true -> exists rest', str_split 47 prefix ++ [n] = session_parts sid s ++ rest' /\ family (known_run sid w) rest') ->
  J p -> J (_directory_files quiet root prefix consume p).
Proof.
  intros HJ Hf. apply directory_files_inv; [apply HJ..|]. intros q key n Hq Hn Hk. destruct (Hf n Hn) as (rest' & E & Hr).
  eapply consume_good; [done| |exact Hr|done]. unfold key_of. by rewrite Hk.
Qed.
Lemma directory_settles prefix n p :
  str_split 47 prefix ++ [n] = session_parts sid s ++ rest ->
  (forall n, owned_name n = true -> exists rest', str_split 47 prefix ++ [n] = session_parts sid s ++ rest' /\ family (known_run sid w) rest') ->
  owned_name n = true -> so_far p -> settled file (_directory_files quiet root prefix consume p).
Proof.
  intros E Hf Hn Hp. destruct (present_or_settled p Hp) as [Hfile|Ht].
  2: { by apply (directory_good (on_track file) prefix p (track_good file)). }
  unfold _directory_files. rewrite (listing p prefix n []) by done. cbv beta iota.
  assert (forall n', owned_name n' = true -> forall J, good J -> forall q, J q -> J (consume q (prefix +:+ "/" +:+ n'))) as Hkey.
  { intros n' Hn' J HJ q Hq. destruct (Hf n' Hn') as (rest' & E' & Hr). eapply consume_good; [done| |exact Hr|done].
    unfold key_of. by rewrite prefix_split by by apply safe_no_slash, owned_safe. }
  apply (foldl_reach so_far (settled file) _ _ _ n).
  - intros q n' _ Hq. fold (owned_name n'). destruct (owned_name n') eqn:En; [|done]. apply (good_step (fun q => consume q _)); [|done]. by apply Hkey.
  - intros q Hq. fold (owned_name n). rewrite Hn. destruct (Hf n Hn) as (rest' & E' & Hr). rewrite E in E'. apply app_inv_head in E' as <-.
    apply consume_settles; [|done..]. unfold key_of. by rewrite prefix_split by by apply safe_no_slash, owned_safe.
  - rewrite merge_sort_Permutation, elem_of_scandir. split; [|by apply safe_no_slash, owned_safe]. rewrite <- app_assoc, E. by rewrite Hfile.
  - by apply so_far_meanwhile.
Qed.

(** the loops over generations and over digests *)
Lemma subdirectory_settles (accept : pystr -> bool) prefix d n p :
  (forall x, accept x = true -> _safe_component x = true) -> accept d = true -> owned_name n = true ->
  str_split 47 prefix ++ [d; n] = session_parts sid s ++ rest ->
  (forall d n, accept d = true -> owned_name n = true ->
     exists rest', str_split 47 prefix ++ [d; n] = session_parts sid s ++ rest' /\ family (known_run sid w) rest') ->
  so_far p ->
  settled file (let '(names, p) := _children quiet root prefix p in
                foldl (fun p d => if accept d then _directory_files quiet root (prefix +:+ "/" +:+ d) consume p else p) p names).
Proof.
  intros Ha Hd Hn E Hf Hp. pose proof (listed_directory p prefix d n [] (eq_sym E) Hp) as Hin. pose proof (children_inv quiet root so_far so_far_meanwhile so_far_failure prefix p Hp) as Hp'.
  destruct (_children quiet root prefix p) as [names p']. cbn [fst snd] in *.
  assert (forall d', accept d' = true -> str_split 47 (prefix +:+ "/" +:+ d') = str_split 47 prefix ++ [d']) as Hsplit.
  { intros d' Hd'. by rewrite prefix_split by by apply safe_no_slash, Ha. }
  assert (forall d', accept d' = true -> forall n, owned_name n = true ->
    exists rest', str_split 47 (prefix +:+ "/" +:+ d') ++ [n] = session_parts sid s ++ rest' /\ family (known_run sid w) rest') as Hf'.
  { intros d' Hd' n' Hn'. rewrite Hsplit, <- app_assoc by done. by apply Hf. }
  apply (foldl_reach so_far (settled file) _ _ _ d); [| |done|done].
  - intros q d' _ Hq. destruct (accept d') eqn:Ed; [|done]. apply (good_step (fun q => _directory_files _ _ _ _ q)); [|done].
    intros J HJ r Hr. apply directory_good; auto.
  - intros q Hq. rewrite Hd. apply (directory_settles _ n); auto. by rewrite Hsplit, <- app_assoc.
Qed.

Section session.
Context (prefix : pystr) (prefix_parts : str_split 47 prefix = session_parts sid s).

Lemma consume_key_good J : good J -> forall p key rest', J p -> family (known_run sid (p_world p)) rest' ->
  str_split 47 key = str_split 47 prefix ++ rest' -> J (consume p key).
Proof.
  intros HJ q key rest' Hq Hf Hk. eapply consume_good; [done| | |done].
  - unfold key_of. by rewrite Hk, prefix_parts.
  - rewrite (so_far_known q) in Hf; [done|by apply HJ].
Qed.
Lemma generations_good J p : good J -> J p -> J (generation_files quiet root (prefix +:+ "/snapshots") consume p).
Proof. intros HJ. apply (generation_files_inv quiet root J consume prefix sid); [apply HJ..|]. by apply consume_key_good. Qed.
Lemma checkpoints_good J p : good J -> J p -> J (checkpoint_files quiet root (prefix +:+ "/agent-runs") sid consume p).
Proof.
  intros HJ. apply (checkpoint_files_inv quiet root J consume prefix sid); [apply HJ..|done| |by apply consume_key_good].
  intros. by apply collect_key_runs.
Qed.

Lemma snapshot_settles g n p : rest = ["snapshots"; g; n] -> _GENERATION g = true -> owned_name n = true -> so_far p ->
  settled file (generation_files quiet root (prefix +:+ "/snapshots") consume p).
Proof.
  intros E Hg Hn Hp. assert (str_split 47 (prefix +:+ "/snapshots") = session_parts sid s ++ ["snapshots"]) as Es.
  { change "/snapshots"%py with ("/" +:+ "snapshots"). by rewrite prefix_split, prefix_parts. }
  apply (subdirectory_settles _GENERATION _ g n); [apply generation_safe|done|done| | |done]; rewrite Es, ?E, <- ?app_assoc; [done|].
  intros g' n' ? ?. exists ["snapshots"; g'; n']. rewrite <- app_assoc. split; [done|by constructor].
Qed.
Lemma checkpoint_settles run d n p : rest = ["agent-runs"; run; "execution-checkpoints"; d; n] ->
  known_run sid w run = true -> _DIGEST d = true -> owned_name n = true -> so_far p ->
  settled file (checkpoint_files quiet root (prefix +:+ "/agent-runs") sid consume p).
Proof.
  intros E Hr Hd Hn Hp. assert (str_split 47 (prefix +:+ "/agent-runs") = session_parts sid s ++ ["agent-runs"]) as Es.
  { change "/agent-runs"%py with ("/" +:+ "agent-runs"). by rewrite prefix_split, prefix_parts. }
  assert (session_parts sid s ++ rest = str_split 47 (prefix +:+ "/agent-runs") ++ run :: "execution-checkpoints" :: [d; n]) as Ep by by rewrite Es, E, <- app_assoc.
  unfold checkpoint_files. cbv zeta. pose proof (so_far_meanwhile _ Hp) as Hp1. rewrite (so_far_known (meanwhile quiet p)) by done.
  pose proof (listed_directory _ _ _ _ _ Ep Hp1) as Hin. pose proof (children_inv quiet root so_far so_far_meanwhile so_far_failure (prefix +:+ "/agent-runs") _ Hp1) as Hp2.
  pose proof (children_name quiet root (prefix +:+ "/agent-runs") (meanwhile quiet p)) as Hname.
  destruct (_children quiet root (prefix +:+ "/agent-runs") _) as [ids p2]. cbn [fst snd] in *.
  assert (forall id, no_slash id = true -> str_split 47 ((prefix +:+ "/agent-runs") +:+ "/" +:+ id +:+ "/execution-checkpoints")
            = session_parts sid s ++ ["agent-runs"; id; "execution-checkpoints"]) as Hk by (intros id Hid; by rewrite run_key_split, Es, <- app_assoc by done).
  apply (foldl_reach so_far (settled file) _ _ _ run); [| |done|done].
  - intros q id Hid Hq. destruct (known_run sid w id) eqn:Ei.
    + apply (good_step (fun q => run_files _ _ _ _ q)); [|done]. intros J HJ r.
      apply (subdirectories_inv quiet root J (good_meanwhile J HJ) (good_failure J HJ) consume _DIGEST _ r digest_safe).
      intros q' key d' n' Hq' Hd' Hn' Hkey. apply (consume_good J q' key ["agent-runs"; id; "execution-checkpoints"; d'; n'] HJ); [|by constructor|done].
      unfold key_of. by rewrite Hkey, Hk, <- app_assoc by eauto.
    + apply (good_step (fun q => unknown_run _ _ _ q)); [|done]. intros J HJ r Hr'. apply unknown_run_inv; [apply HJ..|done].
  - intros q Hq. rewrite Hr. pose proof (Hk run (Hname _ Hin)) as Hrun.
    apply (subdirectory_settles _DIGEST _ d n); [apply digest_safe|done|done| | |done]; rewrite Hrun, ?E, <- ?app_assoc; [done|].
    intros d' n' ? ?. exists ["agent-runs"; run; "execution-checkpoints"; d'; n']. rewrite <- app_assoc. split; [done|by constructor].
Qed.
End session.

Lemma session_settles p : family (known_run sid w) rest -> so_far p -> settled file (collect_session quiet remove_error cutoff dry_run root p (sid, s)).
Proof.
  intros Hf Hp. unfold collect_session. assert (exists prefix, _session_prefix sid s = Ok prefix) as [prefix Epre].
  { unfold _session_prefix. generalize parts_safe. cbn. rewrite !andb_true_iff. intros (_ & -> & _ & -> & _). cbn. eauto. }
  rewrite Epre. apply session_prefix_split in Epre. unfold _snapshot_keys. cbv zeta. destruct (family_cases _ _ Hf) as [(g & n & E & Hg & Hn)|(run & d & n & E & Hr & Hd & Hn)].
  - apply (checkpoints_good prefix Epre (on_track file)); [apply track_good|]. split; [apply (generations_good prefix Epre so_far); [apply so_far_good|done]|].
    by apply (snapshot_settles prefix Epre g n p E).
  - apply (checkpoint_settles prefix Epre run d n _ E); try done. apply (generations_good prefix Epre so_far); [apply so_far_good|done].
Qed.
End target.

Lemma so_far_start : so_far (Pass w empty_report 1).
Proof. split; auto. cbn. by intros k ?%not_elem_of_nil. Qed.
(** the end of an undisturbed pass *)
Lemma quiet_pass_ends : check_root (sw_fs w) [] root = Ok tt ->
  exists p, collect_workspace_snapshot_gc quiet remove_error (Some root) cutoff dry_run w = Ok p /\ so_far p /\
    forall file, collectable cutoff root w file -> settled file p.
Proof.
  intros Hroot. unfold collect_workspace_snapshot_gc, _local_storage_root. rewrite Hroot. eexists. split; [reflexivity|].
  assert (forall J, good J -> forall p l, J p -> J (foldl (collect_session quiet remove_error cutoff dry_run root) p l)) as Hall.
  { intros J HJ p l. apply collect_sessions_inv; [done|apply HJ..]. }
  cbn [p_world meanwhile quiet p_clock p_report]. split; [apply (Hall _ so_far_good), so_far_start|].
  intros file [(sid & s & rest & Hr & Hf & Hs & -> & Hp) (mt & Hm & Hle)].
  apply (foldl_reach so_far (settled _) _ _ _ (sid, s)); [| | |apply so_far_start].
  - intros q x _ Hq. apply (good_step (fun q => collect_session _ _ _ _ _ q x)); [|done]. intros J HJ r. apply (Hall J HJ r [x]).
  - intros q Hq. by eapply session_settles.
  - apply elem_of_qs_list. destruct Hr as (Hsid & a & Ha & _ & Hpur). split; [done|]. unfold listed_session. cbn. rewrite Ha.
    apply orb_true_iff. destruct Hpur as [?|[? _]]; auto.
Qed.
End quiet_pass.

(** On a storage whose files can be removed, an undisturbed pass changes nothing but to delete exactly the
    files that a dry run plans, and these are exactly the collectable files (C21): snapshots and checkpoints of
    sessions deleted for good, in directories that are reached without links, old enough. *)
Theorem dry_run_plans_what_a_pass_deletes remove_error cutoff root w :
  (forall k, remove_error k = None) -> check_root (sw_fs w) [] root = Ok tt ->
  exists plan pass,
    collect_workspace_snapshot_gc quiet remove_error (Some root) cutoff true w = Ok plan /\
    collect_workspace_snapshot_gc quiet remove_error (Some root) cutoff false w = Ok pass /\
    p_world plan = w /\
    p_world pass = set_fs (filter (fun fm => fm.1 ∉ map (key_path root) (gr_planned (p_report plan)))) w /\
    forall file, file ∈ map (key_path root) (gr_planned (p_report plan)) <-> collectable cutoff root w file.
Proof.
  intros Hre Hroot. destruct (quiet_pass_ends remove_error Hre cutoff true root w Hroot) as (plan & Hplan & Hs & Hall).
  destruct (quiet_pass_ends remove_error Hre cutoff false root w Hroot) as (p & Hp & Hs' & Hall'). exists plan, p. split; [done|]. split; [done|].
  assert (forall file, file ∈ map (key_path root) (gr_planned (p_report plan)) <-> collectable cutoff root w file) as Hiff.
  { intros file. change (map (key_path root)) with (fmap (M:=list) (key_path root)). rewrite list_elem_of_fmap. split.
    - intros (k & -> & Hk). by apply (sf_planned _ _ _ _ _ Hs).
    - intros (k & Hk & E)%Hall. eauto. }
  split; [|split; [|done]].
  - destruct Hs as [H1 H2 H3 H4 _]. destruct (p_world plan) as [a b c d], w; cbn in *. subst. f_equal. apply map_eq. intros q. by destruct (H4 q) as [?|[? _]].
  - pose proof Hs' as [H1 H2 H3 H4 _]. destruct (p_world p) as [a b c d] eqn:Ew. destruct w as [a' b' c' d']. cbn in *. subst. unfold set_fs. cbn. f_equal.
    apply map_eq. intros q. destruct (decide (q ∈ map (key_path root) (gr_planned (p_report plan)))) as [Hin|Hn].
    + apply Hiff in Hin as Hc. apply Hall' in Hc. unfold settled in Hc. rewrite Ew in Hc. cbn in Hc. rewrite Hc. symmetry. apply map_lookup_filter_None. right.
      intros m _ Hne. by apply Hne.
    + destruct (H4 q) as [E|(_ & _ & Hc)]; [|by apply Hiff in Hc]. rewrite E. destruct (d' !! q) as [m|] eqn:Em; symmetry.
      * by apply map_lookup_filter_Some.
      * apply map_lookup_filter_None. by left.
Qed.

(** ** A concrete storage *)

Definition hex64 : pystr := PyStr (replicate 64 97).
Definition snapshot_name : pystr := hex64 +:+ ".snapshot".
Definition demo_dir (sid : pystr) (below : path) : path := ["srv"; "workspaces"; "w1"; "sessions"; sid] ++ below.
Definition demo_dirs (sid run : pystr) : list (path * node) :=
  map (fun below => (demo_dir sid below, NDir))
    [[]; ["snapshots"]; ["snapshots"; "7"]; ["agent-runs"]; ["agent-runs"; run]; ["agent-runs"; run; "execution-checkpoints"];
     ["agent-runs"; run; "execution-checkpoints"; hex64]]
  ++ [(demo_dir sid ["snapshots"; "7"; snapshot_name], NFile 50); (demo_dir sid ["snapshots"; "7"; "notes.txt"], NFile 50);
      (demo_dir sid ["agent-runs"; run; "execution-checkpoints"; hex64; ".centaeris-immutable-abcd_123.tmp"], NFile 200);
      (demo_dir sid ["agent-runs"; run; "execution-checkpoints"; hex64; snapshot_name], NFile 60)].
Definition demo_fs : fsys :=
  list_to_map ([(["srv"], NDir); (["srv"; "workspaces"], NDir); (["srv"; "workspaces"; "w1"], NDir); (["srv"; "workspaces"; "w1"; "sessions"], NDir)]
               ++ demo_dirs "s1" "r1" ++ demo_dirs "s2" "r2" ++ [(demo_dir "s1" ["agent-runs"; "stray"], NDir)]).
(** [s1] was deleted for good at time 40, [s2] is live *)
Definition demo_world : snapshot_world :=
  SnapshotWorld {["a1" := OwnerAgent "w1" "active" None]}
    {["s1" := OwnerSession "w1" "a1" "deleted" (Some 40); "s2" := OwnerSession "w1" "a1" "active" None]}
    {["r1" := OwnerRun "s1" Completed; "r2" := OwnerRun "s2" Running]} demo_fs.
Definition removes : pystr -> option pystr := fun _ => None.

Example demo_pass :
  (fun p => p_report p) <$> collect_workspace_snapshot_gc quiet removes (Some ["srv"]) 100 false demo_world =
  Ok (GcReport [] ["workspaces/w1/sessions/s1/snapshots/7/" +:+ snapshot_name;
                   "workspaces/w1/sessions/s1/agent-runs/r1/execution-checkpoints/" +:+ hex64 +:+ "/" +:+ snapshot_name]
               ["workspaces/w1/sessions/s1/agent-runs/r1/execution-checkpoints/" +:+ hex64 +:+ "/.centaeris-immutable-abcd_123.tmp";
                "workspaces/w1/sessions/s1/agent-runs/stray"] []).
Proof. vm_compute. reflexivity. Qed.

Lemma dry_run_plans_what_a_pass_deletes_witness :
  exists plan pass,
    collect_workspace_snapshot_gc quiet removes (Some ["srv"]) 100 true demo_world = Ok plan /\
    collect_workspace_snapshot_gc quiet removes (Some ["srv"]) 100 false demo_world = Ok pass /\
    p_world plan = demo_world /\
    p_world pass = set_fs (filter (fun fm => fm.1 ∉ map (key_path ["srv"]) (gr_planned (p_report plan)))) demo_world /\
    forall file, file ∈ map (key_path ["srv"]) (gr_planned (p_report plan)) <-> collectable 100 ["srv"] demo_world file.
Proof. apply dry_run_plans_what_a_pass_deletes; [reflexivity|vm_compute; reflexivity]. Defined.

(** an uploader leaves a temporary file of [s2] before each step *)
Definition uploader (_ : nat) (w : snapshot_world) : snapshot_world :=
  set_fs <[demo_dir "s2" ["snapshots"; "7"; ".centaeris-immutable-00000000.tmp"] := NFile 70]> w.
Definition live_snapshot : path := demo_dir "s2" ["snapshots"; "7"; snapshot_name].
Lemma uploader_keeps n w : kept_file 100 ["srv"] live_snapshot w -> kept_file 100 ["srv"] live_snapshot (uploader n w).
Proof.
  intros [Hs Hn]. split; [by apply lookup_insert_is_Some; right; split; [|done]; apply (bool_decide_eq_false_1 _); vm_compute|].
  intros [(sid & s & rest & Hr & Hf & Hsafe & He & Hp) (mt & Hm & Hle)]. apply Hn. split.
  - exists sid, s, rest. repeat split; try done; [apply Hr..|]. intros front next rest' E Hfr. specialize (Hp _ _ _ E Hfr).
    cbn in Hp. apply lookup_insert_Some in Hp as [[_ ?]|[_ ?]]; done.
  - exists mt. cbn in Hm. apply lookup_insert_Some in Hm as [[E _]|[_ ?]]; [|done]. exfalso. revert E. apply (bool_decide_eq_false_1 _). by vm_compute.
Qed.
Lemma live_snapshot_kept : kept_file 100 ["srv"] live_snapshot demo_world.
Proof.
  split; [eexists; vm_compute; reflexivity|]. intros [(sid & s & rest & (Hs & a & Ha & _ & Hpur) & _ & _ & He & _) _].
  injection He as _ <- _. vm_compute in Hs. injection Hs as <-. vm_compute in Ha. injection Ha as <-. vm_compute in Hpur. destruct Hpur as [|[]]; done.
Qed.
Lemma uncollectable_files_are_kept_witness :
  exists p, collect_workspace_snapshot_gc uploader removes (Some ["srv"]) 100 false demo_world = Ok p /\ kept_file 100 ["srv"] live_snapshot (p_world p).
Proof.
  eexists. split; [reflexivity|].
  eapply (uncollectable_files_are_kept uploader removes 100 false ["srv"] live_snapshot demo_world); [|exact uploader_keeps|exact live_snapshot_kept|reflexivity].
  intros sid n w id H. exact H.
Defined.
