(* ===== verification/Trash.v ===== *)
(** * The trash of a workspace

    [list_trash] of [packages/api/app_core/http/trash.py] and the pages of [http/trash_pagination.py]: the deleted
    agents, sessions, sources and library objects of a user that can still be restored, filtered, in one order over
    four tables and cut into pages with cursors.  The parsing and printing of instants (Django, [datetime]) are
    parameters. *)

From stdpp Require Import base tactics list gmap numbers sorting.
From S2P Require Import Prelude PyStr Table Utf8 Sha256 Platform PyValue Json Schema Access Contract RuntimeReplies Assets Sources Hosted Sessions.

(** ** Python's stable sort *)

Fixpoint sort_insert {A} (lt : A -> A -> bool) (x : A) (l : list A) : list A :=
  match l with
  | [] => [x]
  | y :: l' => if lt y x then y :: sort_insert lt x l' else x :: l
  end.
(** [l.sort()] where [lt] compares the keys *)
Definition py_sort {A} (lt : A -> A -> bool) (l : list A) : list A := foldr (sort_insert lt) [] l.

(** ** Cursors *)

Definition TRASH_PAGE_SIZE : nat := 50.

(** [base64.b64decode(f"{raw}{padding}", altchars=b"-_", validate=True)]: both alphabets are read, the padding is
    complete and at the end *)
Definition padding_of (l : list Z) : Z := (- zlen l) mod 4.
Definition standard_alphabet (c : Z) : Z := if c =? 43 then 45 else if c =? 47 then 95 else c.
Definition b64decode_padded (raw : pystr) : option (list Z) :=
  let l := code_points raw ++ replicate (Z.to_nat (padding_of (code_points raw))) 61 in
  let rest := drop_while (fun c => negb (c =? 61)) l in
  let body := take (length l - length rest) l in
  if forallb (Z.eqb 61) rest && (zlen rest =? padding_of body) && (zlen rest <=? 2)
  then b64_decode (map standard_alphabet body) else None.

Definition read_trash_cursor (q : query) (kind : pystr) (fields allowed : list pystr) : res exn (option value) :=
  require (fields_within allowed q && single_values q) (ValueError "trash_query_invalid");;
  match q_get "cursor" q with
  | None => Ok None
  | Some raw =>
      payload ← from_option_res (ValueError "trash_cursor_invalid")
        (data ← b64decode_padded raw; text ← utf8_decode data; match json_loads text with Ok v => Some v | Err _ => None end);
      require (keys_are ("kind" :: fields) payload && is_str kind (get "kind" payload)) (ValueError "trash_cursor_invalid");;
      Ok (Some payload)
  end.
Definition encode_trash_cursor (payload : list (pystr * value)) : pystr :=
  PyStr (b64_encode (code_points (json_dumps_ascii (VDict payload)))).
Definition trash_page {A} (rows : list A) (kind : pystr) (cursor_fields : A -> list (pystr * value)) : list A * option pystr * bool :=
  let page := take (TRASH_PAGE_SIZE + 1) rows in
  let has_more := bool_decide (TRASH_PAGE_SIZE < length page)%nat in
  let page := take TRASH_PAGE_SIZE page in
  match last page with
  | Some x => if has_more then (page, Some (encode_trash_cursor (("kind", VStr kind) :: cursor_fields x)), true) else (page, None, false)
  | None => (page, None, false)
  end.

(** ** Filters *)

Definition TRASH_KINDS : list pystr := ["agent"; "session"; "source"; "library"].
Definition TRASH_SCOPES : list pystr := ["workspace"; "privateLibrary"].
Definition LOCATION_KINDS : list pystr := ["workspace"; "agent"; "libraryRoot"; "libraryFolder"].
Definition QUERY_FIELDS : list pystr := ["cursor"; "query"; "kind"; "scope"; "locationKind"; "locationId"; "deletedByUserId"].

Record trash_filters := TrashFilters {
  tf_query : pystr; tf_kind : pystr; tf_scope : pystr; tf_location_kind : pystr; tf_location_id : pystr; tf_deleted_by : pystr }.
Definition _query_value (q : query) (name : pystr) : pystr := strip (default "" (q_get name q)).
Definition is_given (q : query) (name : pystr) : bool := bool_decide (is_Some (q_get name q)).

(** [str(int(s)) == s]: the one text of an integer *)
Definition parsed_int (s : pystr) : option Z :=
  let z := match code_points s with 45 :: l => - digits_value l | l => digits_value l end in
  if bool_decide (int_str z = s) && (zlen (digits (Z.abs z)) <=? INT_MAX_STR_DIGITS) then Some z else None.

Definition one_of (names : list pystr) (s : pystr) : bool := is_empty s || bool_decide (s ∈ names).
Definition _read_filters (q : query) : res exn trash_filters :=
  let text := _query_value q "query" in
  let kind := _query_value q "kind" in
  let scope := _query_value q "scope" in
  let location_kind := _query_value q "locationKind" in
  let location_id := _query_value q "locationId" in
  let deleted_by := _query_value q "deletedByUserId" in
  let invalid := ValueError "trash_filter_invalid" in
  require (negb (is_given q "query" && (is_empty text || (200 <? str_len text)))) (ValueError "trash_query_invalid");;
  require (one_of TRASH_KINDS kind) invalid;;
  require (one_of TRASH_SCOPES scope) invalid;;
  require (one_of LOCATION_KINDS location_kind) invalid;;
  require (bool_decide (bool_decide (location_kind ∈ ["agent"; "libraryFolder"]%py) = negb (is_empty location_id))) invalid;;
  require (is_empty deleted_by || bool_decide (is_Some (parsed_int deleted_by))) invalid;;
  Ok (TrashFilters text kind scope location_kind location_id deleted_by).

Definition filters_value (f : trash_filters) : value :=
  VDict [("query", VStr (tf_query f)); ("kind", VStr (tf_kind f)); ("scope", VStr (tf_scope f));
         ("locationKind", VStr (tf_location_kind f)); ("locationId", VStr (tf_location_id f)); ("deletedByUserId", VStr (tf_deleted_by f))].
(** a text that cannot be encoded raises a [ValueError] *)
Definition _filter_hash (f : trash_filters) : res exn pystr :=
  data ← from_option_res UnicodeEncodeError (utf8_encode (json_dumps (sort_keys (filters_value f))));
  Ok (sha256_hex data).

(** ** The four tables *)

(** a deleted row: [en_parent] is the agent of a session or the folder of a library object *)
Record entry := Entry { en_id : pystr; en_title : pystr; en_deleted_at : Z; en_deleted_by : option Z; en_parent : option pystr }.
Record querysets := Querysets { qs_agents : list entry; qs_sessions : list entry; qs_sources : list entry; qs_library : list entry }.

(** [status="deleted"], [purgedAt__isnull=True] and [deletedAt__gt=trash_cutoff()]: the time of deletion *)
Definition in_trash (now : Z) (deleted : bool) (deleted_at purged_at : option Z) : option Z :=
  match deleted_at with
  | Some d => if deleted && bool_decide (purged_at = None) && (trash_cutoff now <? d) then Some d else None
  | None => None
  end.
(** the rows of a table for which [f] gives an entry *)
Definition entries {R} (f : pystr -> R -> option entry) (t : gmap pystr R) : list entry := omap (fun kr => f kr.1 kr.2) (map_to_list t).

Definition agent_entry (user : Z) (wid : pystr) (now : Z) (id : pystr) (f : agent_full) : option entry :=
  let a := af_row f in
  d ← in_trash now (bool_decide (a_status a = Deleted)) (af_deleted_at f) (af_purged_at f);
  if bool_decide (a_workspace a = wid) && bool_decide (a_owner a = user) then Some (Entry id (a_name a) d (af_deleted_by f) None) else None.
Definition agent_is_active (h : hosted) (id : pystr) : bool :=
  match h_agents h !! id with Some f => bool_decide (a_status (af_row f) = Active) | None => false end.
Definition session_entry (h : hosted) (user : Z) (wid : pystr) (now : Z) (id : pystr) (f : session_full) : option entry :=
  let s := sf_row f in
  d ← in_trash now (bool_decide (se_status s = Deleted)) (sf_deleted_at f) (sf_purged_at f);
  if bool_decide (se_workspace s = wid) && bool_decide (se_owner s = user) && agent_is_active h (se_agent s)
  then Some (Entry id (sf_title f) d (sf_deleted_by f) (Some (se_agent s))) else None.
Definition source_entry (controlled : gmap pystr access_level) (wid : pystr) (now : Z) (id : pystr) (s : source_state) : option entry :=
  d ← in_trash now (source_deleted s) (sc_deleted_at s) (sc_purged_at s);
  if bool_decide (sc_workspace s = wid) && bool_decide (controlled !! id = Some AccessControl)
  then Some (Entry id (sc_name s) d (sc_deleted_by s) None) else None.
Definition library_entry (user : Z) (now : Z) (id : pystr) (r : library_row) : option entry :=
  d ← in_trash now (bool_decide (lb_status r = ODeleted)) (lb_deleted_at r) (lb_purged_at r);
  if bool_decide (lb_owner r = user) then Some (Entry id (lb_name r) d (lb_deleted_by r) (lb_parent r)) else None.
Definition trash_querysets (h : hosted) (user : Z) (wid : pystr) (access : gmap pystr access_level) (now : Z) : querysets :=
  Querysets (entries (agent_entry user wid now) (h_agents h)) (entries (session_entry h user wid now) (h_sessions h))
    (entries (source_entry access wid now) (h_sources h)) (entries (library_entry user now) (library (h_store h))).

Section listing.
Context {PL : Platform}.

Definition on_each (p : entry -> bool) (x : querysets) : querysets :=
  let keep := List.filter p in Querysets (keep (qs_agents x)) (keep (qs_sessions x)) (keep (qs_sources x)) (keep (qs_library x)).
(** [x if condition else x.none()] *)
Definition kept_when (condition : bool) (l : list entry) : list entry := if condition then l else [].
Definition by_query (f : trash_filters) (x : querysets) : querysets :=
  if is_empty (tf_query f) then x else on_each (fun e => infixb (pg_upper (tf_query f)) (pg_upper (en_title e))) x.
Definition by_actor (f : trash_filters) (x : querysets) : querysets :=
  if is_empty (tf_deleted_by f) then x
  else on_each (fun e => bool_decide (is_Some (en_deleted_by e)) && bool_decide (en_deleted_by e = parsed_int (tf_deleted_by f))) x.
Definition by_kind (f : trash_filters) (x : querysets) : querysets :=
  let k := tf_kind f in
  if is_empty k then x
  else Querysets (kept_when (bool_decide (k = "agent")) (qs_agents x)) (kept_when (bool_decide (k = "session")) (qs_sessions x))
         (kept_when (bool_decide (k = "source")) (qs_sources x)) (kept_when (bool_decide (k = "library")) (qs_library x)).
Definition by_scope (f : trash_filters) (x : querysets) : querysets :=
  if bool_decide (tf_scope f = "workspace") then Querysets (qs_agents x) (qs_sessions x) (qs_sources x) []
  else if bool_decide (tf_scope f = "privateLibrary") then Querysets [] [] [] (qs_library x)
  else x.
Definition by_location (f : trash_filters) (x : querysets) : querysets :=
  let k := tf_location_kind f in
  if is_empty k then x
  else Querysets (kept_when (bool_decide (k = "workspace")) (qs_agents x))
         (if bool_decide (k = "agent") then List.filter (fun e => bool_decide (en_parent e = Some (tf_location_id f))) (qs_sessions x) else [])
         (kept_when (bool_decide (k = "workspace")) (qs_sources x))
         (if bool_decide (k = "libraryRoot") then List.filter (fun e => bool_decide (en_parent e = None)) (qs_library x)
          else if bool_decide (k = "libraryFolder") then List.filter (fun e => bool_decide (en_parent e = Some (tf_location_id f))) (qs_library x)
          else []).
Definition _filter_querysets (f : trash_filters) (x : querysets) : querysets :=
  by_location f (by_scope f (by_kind f (by_actor f (by_query f x)))).

(** ** Items *)

Record trash_actor := TrashActor { ta_user : pystr; ta_email : pystr }.
Record trash_location := TrashLocation { tl_kind : pystr; tl_id : option pystr; tl_label : pystr; tl_scope : pystr }.
Record trash_item := TrashItem {
  ti_id : pystr; ti_kind : pystr; ti_title : pystr; ti_deleted_at : Z; ti_expires_at : Z; ti_scope : pystr;
  ti_location : trash_location; ti_deleted_by : option trash_actor }.

Definition _actor (h : hosted) (user : option Z) : option trash_actor :=
  u ← user; r ← users (h_db h) !! u;
  Some (TrashActor (int_str u) (if is_empty (u_email r) then u_username r else u_email r)).
Definition _item (h : hosted) (kind scope : pystr) (location : entry -> trash_location) (e : entry) : trash_item :=
  TrashItem (en_id e) kind (en_title e) (en_deleted_at e) (en_deleted_at e + TRASH_RETENTION) scope (location e) (_actor h (en_deleted_by e)).
Definition agent_name (h : hosted) (id : pystr) : pystr := match h_agents h !! id with Some f => a_name (af_row f) | None => "" end.
Definition folder_name (h : hosted) (id : pystr) : pystr := match library (h_store h) !! id with Some r => lb_name r | None => "" end.
Definition workspace_name (h : hosted) (wid : pystr) : pystr := match workspaces (h_db h) !! wid with Some w => w_name w | None => "" end.
(** the label of the root of the library is two Chinese characters *)
Definition library_label : pystr := PyStr [31169; 20154].
Definition workspace_location (h : hosted) (wid : pystr) (_ : entry) : trash_location := TrashLocation "workspace" None (workspace_name h wid) "workspace".
Definition session_location (h : hosted) (e : entry) : trash_location :=
  TrashLocation "agent" (en_parent e) (agent_name h (default "" (en_parent e))) "workspace".
Definition library_location (h : hosted) (e : entry) : trash_location :=
  match en_parent e with
  | Some folder => TrashLocation "libraryFolder" (Some folder) (folder_name h folder) "privateLibrary"
  | None => TrashLocation "libraryRoot" None library_label "privateLibrary"
  end.

(** ** The order and the cursor *)

Record trash_position := Position { po_deleted_at : Z; po_kind : pystr; po_id : pystr }.
Definition newer_first (x y : Z * pystr) : bool := (y.1 <? x.1) || ((x.1 =? y.1) && str_ltb x.2 y.2).
Definition is_after (kind : pystr) (c : trash_position) (e : entry) : bool :=
  (en_deleted_at e <? po_deleted_at c)
  || (if str_ltb (po_kind c) kind then en_deleted_at e =? po_deleted_at c
      else if bool_decide (kind = po_kind c) then (en_deleted_at e =? po_deleted_at c) && str_ltb (po_id c) (en_id e)
      else false).
Definition _after_cursor (kind : pystr) (cursor : option trash_position) (l : list entry) : list entry :=
  let l := py_sort (fun x y => newer_first (en_deleted_at x, en_id x) (en_deleted_at y, en_id y)) l in
  match cursor with None => l | Some c => List.filter (is_after kind c) l end.

Definition kind_items (h : hosted) (kind scope : pystr) (location : entry -> trash_location) (cursor : option trash_position) (l : list entry) : list trash_item :=
  map (_item h kind scope location) (take (TRASH_PAGE_SIZE + 1) (_after_cursor kind cursor l)).
Definition trash_items (h : hosted) (wid : pystr) (cursor : option trash_position) (x : querysets) : list trash_item :=
  let items := kind_items h "agent" "workspace" (workspace_location h wid) cursor (qs_agents x)
            ++ kind_items h "session" "workspace" (session_location h) cursor (qs_sessions x)
            ++ kind_items h "source" "workspace" (workspace_location h wid) cursor (qs_sources x)
            ++ kind_items h "library" "privateLibrary" (library_location h) cursor (qs_library x) in
  let items := py_sort (fun x y => str_ltb (ti_kind x) (ti_kind y) || (bool_decide (ti_kind x = ti_kind y) && str_ltb (ti_id x) (ti_id y))) items in
  py_sort (fun x y => ti_deleted_at y <? ti_deleted_at x) items.

(** ** Filter options *)

#[global] Instance trash_location_eq_dec : EqDecision trash_location.
Proof. solve_decision. Defined.
Record filter_options := FilterOptions { fo_deleted_by : list trash_actor; fo_locations : list trash_location }.
Definition location_lt (x y : trash_location) : bool :=
  let eq (a b : pystr) := bool_decide (a = b) in
  str_ltb (tl_scope x) (tl_scope y) || (eq (tl_scope x) (tl_scope y)
    && (str_ltb (tl_label x) (tl_label y) || (eq (tl_label x) (tl_label y)
        && (str_ltb (tl_kind x) (tl_kind y) || (eq (tl_kind x) (tl_kind y) && str_ltb (default "" (tl_id x)) (default "" (tl_id y))))))).
Definition nonempty {A} (l : list A) : bool := match l with [] => false | _ => true end.
Definition _filter_options (h : hosted) (wid : pystr) (x : querysets) : filter_options :=
  let all := qs_agents x ++ qs_sessions x ++ qs_sources x ++ qs_library x in
  let actors := remove_dups (omap en_deleted_by all) in
  let known := omap (fun u => r ← users (h_db h) !! u; Some (u, r)) actors in
  let sorted := py_sort (fun a b => str_ltb (u_username a.2) (u_username b.2) || (bool_decide (u_username a.2 = u_username b.2) && (a.1 <? b.1))) known in
  let at_root := List.filter (fun e => bool_decide (en_parent e = None)) (qs_library x) in
  let in_folder := List.filter (fun e => bool_decide (is_Some (en_parent e))) (qs_library x) in
  let locations :=
    (if nonempty (qs_agents x) || nonempty (qs_sources x) then [TrashLocation "workspace" None (workspace_name h wid) "workspace"] else [])
    ++ remove_dups (map (session_location h) (qs_sessions x))
    ++ (if nonempty at_root then [TrashLocation "libraryRoot" None library_label "privateLibrary"] else [])
    ++ remove_dups (map (library_location h) in_folder) in
  FilterOptions (omap (fun ur => _actor h (Some ur.1)) sorted) (py_sort location_lt locations).

(** ** The endpoint *)

(** Django's [parse_datetime]: a [ValueError] with its text, no date, a date without a time zone, or an instant *)
Inductive parsed_time := InvalidTime (text : pystr) | NoTime | NaiveTime | Instant (t : Z).
Context (parse_datetime : pystr -> parsed_time) (isoformat : Z -> pystr).

Definition not_hashable (v : value) : option pystr :=
  match v with VList _ => Some "unhashable type: 'list'"%py | VDict _ => Some "unhashable type: 'dict'"%py | _ => None end.
(** the place in a cursor, if it is valid *)
Definition cursor_position (filter_hash : pystr) (cursor : value) : res exn trash_position :=
  let invalid := ValueError "trash_cursor_invalid" in
  text ← from_option_res (ValueError "fromisoformat: argument must be str") (as_str (get "deletedAt" cursor));
  deleted_at ← (match parse_datetime text with
                | InvalidTime e => Err (ValueError e) | NoTime | NaiveTime => Err invalid | Instant t => Ok t end);
  match not_hashable (get "itemKind" cursor) with
  | Some e => Err (ValueError e)
  | None =>
      require (str_in TRASH_KINDS (get "itemKind" cursor)) invalid;;
      kind ← from_option_res invalid (as_str (get "itemKind" cursor));
      id ← from_option_res invalid (as_str (get "id" cursor));
      require (negb (is_empty id)) invalid;;
      require (is_str filter_hash (get "filterHash" cursor)) invalid;;
      Ok (Position deleted_at kind id)
  end.

Inductive trash_response :=
| TrashError (status : Z) (code : pystr)
| TrashPage (items : list trash_item) (options : filter_options) (next_cursor : option pystr) (has_more : bool).

Definition cursor_fields (filter_hash : pystr) (x : trash_item) : list (pystr * value) :=
  [("deletedAt", VStr (isoformat (ti_deleted_at x))); ("itemKind", VStr (ti_kind x)); ("id", VStr (ti_id x)); ("filterHash", VStr filter_hash)].
(** the text of the exceptions that are caught *)
Definition caught_text (e : exn) : option pystr :=
  match e with ValueError m => Some m | UnicodeEncodeError => Some "surrogates not allowed"%py | _ => None end.
(** the [try] block *)
Definition read_request (q : query) : res exn (trash_filters * pystr * option trash_position) :=
  filters ← _read_filters q;
  filter_hash ← _filter_hash filters;
  cursor ← read_trash_cursor q "trash" ["deletedAt"; "itemKind"; "id"; "filterHash"] QUERY_FIELDS;
  match cursor with
  | None => Ok (filters, filter_hash, None)
  | Some v => c ← cursor_position filter_hash v; Ok (filters, filter_hash, Some c)
  end.
Definition list_trash (h : hosted) (user : Z) (wid : pystr) (q : query) (now : Z) : res exn trash_response :=
  membership ← workspace_membership_for (identity h) (Some user) wid WORKSPACE_ROLES;
  access ← source_access_map_for_workspace_member (access_db (source_view h)) (Some user) wid;
  match membership, access with
  | Some _, Some access =>
      match read_request q with
      | Err e => match caught_text e with Some text => Ok (TrashError 400 text) | None => Err e end
      | Ok (filters, filter_hash, cursor) =>
          let all := trash_querysets h user wid access now in
          let options := _filter_options h wid all in
          let items := trash_items h wid cursor (_filter_querysets filters all) in
          let '(page, next_cursor, has_more) := trash_page items "trash" (cursor_fields filter_hash) in
          Ok (TrashPage page options next_cursor has_more)
      end
  | _, _ => Ok (TrashError 404 "workspace_not_found")
  end.
End listing.
