(* ===== verification/TrashProps.v ===== *)
(** * The pages of the trash

    A client that follows the cursors of the trash is shown every selected item exactly once, in one order over the
    four tables, although every page only looks at the first rows of each table. *)

From stdpp Require Import base tactics list gmap numbers sorting.
From S2P Require Import Prelude PyStr Table Utf8 Sha256 Platform PyValue Json Cursor Schema Access Snapshot Contract RuntimeReplies Assets Sources Hosted Sessions Trash.

(** ** Stable sorting *)

Lemma elem_of_bfilter {A} (P : A -> bool) l x : x ∈ List.filter P l <-> x ∈ l /\ P x = true.
Proof. rewrite !list_elem_of_In. apply filter_In. Qed.

Section sorting.
Context {A : Type} `{EqDecision A} (lt : A -> A -> bool).
Definition precedes (x y : A) : Prop := lt x y = true.
Hypothesis lt_trans : forall x y z, lt x y = true -> lt y z = true -> lt x z = true.
Hypothesis lt_irrefl : forall x, lt x x = false.
(** elements of a list that are not ordered are equal *)
Definition total_on (l : list A) : Prop := forall x y, x ∈ l -> y ∈ l -> lt x y = false -> lt y x = false -> x = y.

Lemma sort_insert_perm x l : sort_insert lt x l ≡ₚ x :: l.
Proof. induction l as [|y l IH]; cbn; [done|]. destruct (lt y x); [|done]. rewrite IH. apply Permutation_swap. Qed.
Lemma py_sort_perm l : py_sort lt l ≡ₚ l.
Proof. induction l as [|x l IH]; cbn; [done|]. by rewrite sort_insert_perm, IH. Qed.
Lemma sort_insert_sorted x l : StronglySorted precedes l -> (forall y, y ∈ l -> lt y x = false -> lt x y = true) -> StronglySorted precedes (sort_insert lt x l).
Proof.
  induction l as [|y l IH]; intros Hs Hx; cbn; [by repeat constructor|]. apply StronglySorted_inv in Hs as [Hs Hy].
  destruct (lt y x) eqn:E.
  - constructor; [apply IH; [done|]; intros z Hz; apply Hx; by right|]. rewrite sort_insert_perm. by constructor.
  - assert (lt x y = true) as Hxy by (apply Hx; [by left|done]). constructor; [by constructor|]. constructor; [done|].
    eapply Forall_impl; [exact Hy|]. intros z Hz. by eapply lt_trans.
Qed.
Lemma py_sort_sorted l : NoDup l -> total_on l -> StronglySorted precedes (py_sort lt l).
Proof.
  induction l as [|x l IH]; intros Hn Ht; cbn; [constructor|]. apply NoDup_cons in Hn as [Hx Hn]. apply sort_insert_sorted.
  - apply IH; [done|]. intros y z Hy Hz. apply Ht; by right.
  - intros y Hy E. change (y ∈ py_sort lt l) in Hy. rewrite py_sort_perm in Hy. destruct (lt x y) eqn:E'; [done|]. destruct Hx. rewrite (Ht x y); [done|by left|by right|done|done].
Qed.
Lemma sorted_unique l1 l2 : StronglySorted precedes l1 -> StronglySorted precedes l2 -> l1 ≡ₚ l2 -> l1 = l2.
Proof.
  apply (StronglySorted_unique_strong precedes). intros x y _ _ H1 H2. unfold precedes in *.
  pose proof (lt_trans _ _ _ H1 H2) as E. by rewrite lt_irrefl in E.
Qed.
Lemma filter_sorted (P : A -> bool) l : StronglySorted precedes l -> StronglySorted precedes (List.filter P l).
Proof.
  induction 1 as [|x l Hs IH Hx]; cbn; [constructor|]. destruct (P x); [|done]. constructor; [done|].
  rewrite Forall_forall in *. intros y [Hy _]%elem_of_bfilter. by apply Hx.
Qed.
Lemma take_sorted n l : StronglySorted precedes l -> StronglySorted precedes (take n l).
Proof. intros H. rewrite <- (take_drop n l) in H. by apply StronglySorted_app_1_l in H. Qed.

(** The beginning of a sorted list is the beginning of any sorted part that misses only what has enough
    elements before it. *)
Lemma take_of_part n s l :
  StronglySorted precedes s -> StronglySorted precedes l -> s ⊆ l ->
  (forall y, y ∈ l -> y ∉ s -> (n <= length (List.filter (fun z => lt z y) s))%nat) -> take n s = take n l.
Proof.
  revert n s. induction l as [|x l IH]; intros n s Hs Hl Hsub Hmiss.
  - destruct s as [|y s]; [done|]. by destruct (not_elem_of_nil y); apply Hsub; left.
  - destruct n as [|n]; [done|]. apply StronglySorted_inv in Hl as [Hl Hx]. rewrite Forall_forall in Hx.
    assert (forall y, y ∈ s -> y = x \/ lt x y = true) as Hmin.
    { intros y Hy%Hsub. apply elem_of_cons in Hy as [->|Hy]; [by left|]. right. by apply Hx. }
    assert (x ∈ s) as Hin.
    { apply dec_stable. intros Hn. specialize (Hmiss x ltac:(by left) Hn).
      destruct (List.filter (fun z => lt z x) s) as [|z f] eqn:E; [cbn in Hmiss; lia|].
      assert (z ∈ s /\ lt z x = true) as [Hz Hzx].
      { apply (elem_of_bfilter (fun z => lt z x)). rewrite E. by left. }
      destruct (Hmin z Hz) as [->|Hxz]; [done|]. pose proof (lt_trans _ _ _ Hxz Hzx). by rewrite lt_irrefl in H. }
    destruct s as [|y s]; [by apply not_elem_of_nil in Hin|]. apply StronglySorted_inv in Hs as [Hs Hy]. rewrite Forall_forall in Hy.
    assert (y = x) as ->.
    { apply elem_of_cons in Hin as [->|Hin]; [done|]. destruct (Hmin y ltac:(by left)) as [?|Hxy]; [done|].
      pose proof (lt_trans _ _ _ Hxy (Hy x Hin)) as H. by rewrite lt_irrefl in H. }
    cbn. f_equal. apply IH; [done|done| |].
    + intros z Hz. assert (z ∈ x :: l) as [->|?]%elem_of_cons by (apply Hsub; by right); [|done].
      pose proof (Hy _ Hz) as H. unfold precedes in H. by rewrite lt_irrefl in H.
    + intros z Hz Hn. assert (lt x z = true) as Hxz by by apply Hx. specialize (Hmiss z ltac:(by right)). cbn in Hmiss. rewrite Hxz in Hmiss. cbn in Hmiss.
      apply le_S_n, Hmiss. intros [->|?]%elem_of_cons; [by rewrite lt_irrefl in Hxz|done].
Qed.
End sorting.

Lemma bfilter_app {A} (P : A -> bool) l1 l2 : List.filter P (l1 ++ l2) = List.filter P l1 ++ List.filter P l2.
Proof. induction l1 as [|x l1 IH]; cbn; [done|]. destruct (P x); cbn; by rewrite IH. Qed.
Lemma bfilter_all {A} (P : A -> bool) l : (forall x, x ∈ l -> P x = true) -> List.filter P l = l.
Proof.
  induction l as [|x l IH]; intros H; [done|]. cbn. rewrite (H x) by by left. rewrite IH; [done|]. intros y Hy. apply H. by right.
Qed.
Lemma bfilter_none {A} (P : A -> bool) l : (forall x, x ∈ l -> P x = false) -> List.filter P l = [].
Proof.
  induction l as [|x l IH]; intros H; [done|]. cbn. rewrite (H x) by by left. apply IH. intros y Hy. apply H. by right.
Qed.
Lemma bfilter_perm {A} (P : A -> bool) l l' : l ≡ₚ l' -> List.filter P l ≡ₚ List.filter P l'.
Proof.
  induction 1 as [|x l l' _ IH|x y l|l1 l2 l3 _ IH1 _ IH2]; cbn; [done| | |by rewrite IH1]; repeat case_match; try done; [by constructor|by constructor].
Qed.

(** a second pass over a sorted list, by decreasing [d] *)
Lemma stable_pass {A} (d : A -> Z) (lt1 : A -> A -> bool) l : StronglySorted (precedes lt1) l ->
  StronglySorted (precedes (fun x y => (d y <? d x) || ((d x =? d y) && lt1 x y))) (py_sort (fun x y => d y <? d x) l).
Proof.
  set (lt2 := fun x y => d y <? d x). induction 1 as [|x l Hs IH Hx]; [constructor|]. cbn [py_sort foldr]. fold (py_sort lt2 l).
  assert (forall y, y ∈ py_sort lt2 l -> lt1 x y = true) as Hx'.
  { intros y Hy. rewrite (py_sort_perm lt2) in Hy. rewrite Forall_forall in Hx. by apply Hx. }
  clear Hs Hx. induction IH as [|y s Hs IH Hy]; cbn; [by repeat constructor|]. rewrite Forall_forall in Hy. destruct (lt2 y x) eqn:E.
  - constructor; [apply IH; intros z Hz; apply Hx'; by right|]. rewrite Forall_forall. intros z. rewrite (sort_insert_perm lt2), elem_of_cons.
    intros [->|Hz]; [|by apply Hy]. unfold precedes. unfold lt2 in E. by rewrite E.
  - unfold lt2 in E. constructor; [constructor; [done|by rewrite Forall_forall]|]. rewrite Forall_forall. intros z Hz. specialize (Hx' z Hz). unfold precedes in *.
    rewrite Hx'. apply elem_of_cons in Hz as [->|Hz]; [lia|]. specialize (Hy z Hz). lia.
Qed.

Section merging.
Context {A : Type} `{EqDecision A} (lt : A -> A -> bool).
Hypothesis lt_trans : forall x y z, lt x y = true -> lt y z = true -> lt x z = true.
Hypothesis lt_irrefl : forall x, lt x x = false.

(** The first [n] of several sorted lists are among the first [n] of each. *)
Lemma merge_takes n (parts : list (list A)) s l :
  Forall (StronglySorted (precedes lt)) parts -> StronglySorted (precedes lt) s -> StronglySorted (precedes lt) l ->
  s ≡ₚ concat (map (take n) parts) -> l ≡ₚ concat parts -> take n s = take n l.
Proof.
  intros Hp Hs Hl Es El. apply (take_of_part lt lt_trans lt_irrefl); [done|done| |].
  - intros x. rewrite Es, El, !list_elem_of_In, !in_concat. intros (p & (q & <- & Hq)%in_map_iff & Hx). exists q. split; [done|].
    apply list_elem_of_In. apply list_elem_of_In in Hx. rewrite <- (take_drop n q), elem_of_app. by left.
  - intros y Hy Hn. rewrite El, list_elem_of_In, in_concat in Hy. destruct Hy as (p & Hpin%list_elem_of_In & Hyp%list_elem_of_In).
    apply list_elem_of_split in Hpin as (a & b & ->). rewrite !Forall_app, Forall_cons in Hp. destruct Hp as (_ & Hp & _).
    rewrite map_app, concat_app in Es. cbn in Es.
    assert (y ∈ drop n p) as Hd.
    { rewrite <- (take_drop n p), elem_of_app in Hyp. destruct Hyp as [Hyp|]; [|done]. destruct Hn. rewrite Es, !elem_of_app. auto. }
    rewrite <- (take_drop n p) in Hp. assert (List.filter (fun z => lt z y) (take n p) = take n p) as Hf.
    { apply bfilter_all. intros z Hz. by eapply (StronglySorted_app_1_elem_of (precedes lt)). }
    assert (length (take n p) = n) as Hlen.
    { rewrite length_take. enough (drop n p <> []) by (destruct (decide (n <= length p)%nat); [lia|]; by rewrite drop_ge in * by lia). intros E. rewrite E in Hd. by apply not_elem_of_nil in Hd. }
    rewrite (bfilter_perm _ _ _ Es), !bfilter_app, Hf, !length_app. lia.
Qed.
Lemma filter_after i x l : StronglySorted (precedes lt) l -> l !! i = Some x -> List.filter (lt x) l = drop (S i) l.
Proof.
  intros Hs Hx. rewrite <- (take_drop_middle _ _ _ Hx) in Hs at 1. rewrite <- (take_drop_middle l i x Hx) at 1.
  rewrite bfilter_app. cbn. rewrite lt_irrefl. rewrite (bfilter_none _ (take i l)), (bfilter_all _ (drop (S i) l)); [done| |].
  - intros y Hy. apply StronglySorted_app_1_r in Hs. apply StronglySorted_inv in Hs as [_ Hs]. rewrite Forall_forall in Hs. by apply Hs.
  - intros y Hy. destruct (lt x y) eqn:E; [|done]. assert (lt y x = true) as Hyx by (eapply (StronglySorted_app_1_elem_of (precedes lt)); [exact Hs|done|by left]).
    pose proof (lt_trans _ _ _ E Hyx). by rewrite lt_irrefl in *.
Qed.
End merging.

(** ** The order of the trash *)

#[global] Instance trash_actor_eq_dec : EqDecision trash_actor.
Proof. solve_decision. Defined.
#[global] Instance trash_item_eq_dec : EqDecision trash_item.
Proof. solve_decision. Defined.

Definition key_lt (x y : pystr * pystr) : bool := str_ltb x.1 y.1 || (bool_decide (x.1 = y.1) && str_ltb x.2 y.2).
(** newest first, then by kind and by identity *)
Definition place_lt (x y : Z * (pystr * pystr)) : bool := (y.1 <? x.1) || ((x.1 =? y.1) && key_lt x.2 y.2).
Definition place (x : trash_item) : Z * (pystr * pystr) := (ti_deleted_at x, (ti_kind x, ti_id x)).
Definition place_of (c : trash_position) : Z * (pystr * pystr) := (po_deleted_at c, (po_kind c, po_id c)).
Definition before (x y : trash_item) : bool := place_lt (place x) (place y).

Lemma str_ltb_irrefl s : str_ltb s s = false.
Proof. apply lex_ltb_irrefl. Qed.
Lemma str_ltb_trans s t u : str_ltb s t = true -> str_ltb t u = true -> str_ltb s u = true.
Proof. apply lex_ltb_trans. Qed.
Lemma str_ltb_total s t : str_ltb s t = false -> str_ltb t s = false -> s = t.
Proof. intros H1 H2. apply code_points_inj. by apply lex_ltb_total. Qed.

Lemma key_lt_irrefl x : key_lt x x = false.
Proof. unfold key_lt. rewrite !str_ltb_irrefl, bool_decide_eq_true_2 by done. done. Qed.
Lemma key_lt_trans x y z : key_lt x y = true -> key_lt y z = true -> key_lt x z = true.
Proof.
  unfold key_lt. rewrite !orb_true_iff, !andb_true_iff, !bool_decide_eq_true. destruct x, y, z; cbn.
  intros [H1|[-> H1]] [H2|[-> H2]]; eauto using str_ltb_trans.
Qed.
Lemma key_lt_total x y : key_lt x y = false -> key_lt y x = false -> x = y.
Proof.
  unfold key_lt. rewrite !orb_false_iff, !andb_false_iff, !bool_decide_eq_false. destruct x as [a b], y as [c d]; cbn.
  intros [H1 H2] [H3 H4]. pose proof (str_ltb_total _ _ H1 H3) as ->. destruct H2 as [?|H2]; [done|]. destruct H4 as [?|H4]; [done|].
  by rewrite (str_ltb_total _ _ H2 H4).
Qed.
Lemma place_lt_irrefl x : place_lt x x = false.
Proof. unfold place_lt. rewrite key_lt_irrefl. lia. Qed.
Lemma place_lt_trans x y z : place_lt x y = true -> place_lt y z = true -> place_lt x z = true.
Proof.
  unfold place_lt. rewrite !orb_true_iff, !andb_true_iff, !Z.ltb_lt, !Z.eqb_eq. intros [H1|[E1 H1]] [H2|[E2 H2]]; [left; lia..|].
  right. split; [lia|]. by eapply key_lt_trans.
Qed.
Lemma place_lt_total x y : place_lt x y = false -> place_lt y x = false -> x = y.
Proof.
  unfold place_lt. rewrite !orb_false_iff, !andb_false_iff. destruct x as [a k], y as [b m]; cbn. intros [H1 H2] [H3 H4].
  assert (a = b) as -> by lia. rewrite (key_lt_total k m); [done|destruct H2; [lia|done]|destruct H4; [lia|done]].
Qed.
Lemma before_irrefl x : before x x = false.
Proof. apply place_lt_irrefl. Qed.
Lemma before_trans x y z : before x y = true -> before y z = true -> before x z = true.
Proof. apply place_lt_trans. Qed.

(** no two items with the same kind and identity *)
Definition item_key (x : trash_item) : pystr * pystr := (ti_kind x, ti_id x).
Lemma keys_total lt l :
  (forall x y, lt x y = false -> lt y x = false -> item_key x = item_key y) -> NoDup (map item_key l) -> total_on lt l.
Proof.
  intros Hlt Hn x y Hx Hy H1 H2. specialize (Hlt x y H1 H2). apply list_elem_of_lookup in Hx as [i Hi], Hy as [j Hj].
  assert (i = j) as ->; [|congruence]. eapply NoDup_lookup; [exact Hn|rewrite list_lookup_fmap, Hi; reflexivity|]. rewrite list_lookup_fmap, Hj. cbn. by rewrite Hlt.
Qed.
Lemma NoDup_of_keys l : NoDup (map item_key l) -> NoDup l.
Proof. apply NoDup_fmap_1. Qed.

(** ** One table *)

Section tables.
Context {PL : Platform} (h : hosted) (wid : pystr).

Definition after_item (cursor : option trash_position) (x : trash_item) : bool :=
  match cursor with None => true | Some c => place_lt (place_of c) (place x) end.
Lemma is_after_item kind scope location c e : is_after kind c e = after_item (Some c) (_item h kind scope location e).
Proof.
  unfold is_after, after_item, place_lt, key_lt. cbn. rewrite (Z.eqb_sym (po_deleted_at c)). destruct (str_ltb (po_kind c) kind); cbn; [by rewrite andb_true_r|].
  repeat case_bool_decide; subst; try done; cbn; by rewrite ?andb_false_r.
Qed.

(** everything of one table that follows the cursor *)
Definition table_part (kind scope : pystr) (location : entry -> trash_location) (cursor : option trash_position) (l : list entry) : list trash_item :=
  map (_item h kind scope location) (_after_cursor kind cursor l).
Lemma table_part_perm kind scope location cursor l :
  table_part kind scope location cursor l ≡ₚ List.filter (after_item cursor) (map (_item h kind scope location) l).
Proof.
  unfold table_part, _after_cursor. set (lt := fun x y => newer_first _ _). pose proof (py_sort_perm lt l) as Hp. destruct cursor as [c|]; cbn [after_item].
  - transitivity (map (_item h kind scope location) (List.filter (is_after kind c) l)).
    + by apply Permutation_map, bfilter_perm.
    + clear. induction l as [|e l IH]; [done|]. cbn [List.filter map]. rewrite (is_after_item kind scope location). cbn [after_item]. case_match; cbn [map]; by rewrite IH.
  - rewrite bfilter_all by done. by apply Permutation_map.
Qed.
Lemma table_part_sorted kind scope location cursor l : NoDup (map en_id l) -> StronglySorted (precedes before) (table_part kind scope location cursor l).
Proof.
  intros Hn. unfold table_part, _after_cursor. set (lt := fun x y => newer_first (en_deleted_at x, en_id x) (en_deleted_at y, en_id y)).
  assert (forall x y, lt x y = before (_item h kind scope location x) (_item h kind scope location y)) as Hlt.
  { intros x y. unfold lt, newer_first, before, place_lt, key_lt. cbn. rewrite str_ltb_irrefl, bool_decide_eq_true_2 by done. done. }
  assert (StronglySorted (precedes lt) (py_sort lt l)) as Hs.
  { apply py_sort_sorted; [|by eapply NoDup_fmap_1|].
    - intros x y z. rewrite !Hlt. apply before_trans.
    - intros x y Hx Hy H1 H2. apply list_elem_of_lookup in Hx as [i Hi], Hy as [j Hj]. rewrite Hlt in H1, H2.
      assert (en_id x = en_id y) as E by by injection (place_lt_total _ _ H1 H2).
      assert (i = j) as ->; [|congruence]. eapply NoDup_lookup; [exact Hn|rewrite list_lookup_fmap, Hi; reflexivity|]. rewrite list_lookup_fmap, Hj. cbn. by rewrite E. }
  assert (forall m, StronglySorted (precedes lt) m -> StronglySorted (precedes before) (map (_item h kind scope location) m)) as Hmap.
  { induction 1 as [|x m Hm IH Hx]; [constructor|]. cbn. constructor; [done|]. rewrite Forall_forall in Hx. rewrite Forall_forall. intros y Hy.
    apply list_elem_of_fmap in Hy as (z & -> & Hz). unfold precedes in *. rewrite <- Hlt. by apply Hx. }
  destruct cursor; apply Hmap; [by apply filter_sorted|done].
Qed.

(** ** All tables *)

Definition selected (x : querysets) : list trash_item :=
  map (_item h "agent" "workspace" (workspace_location h wid)) (qs_agents x)
  ++ map (_item h "session" "workspace" (session_location h)) (qs_sessions x)
  ++ map (_item h "source" "workspace" (workspace_location h wid)) (qs_sources x)
  ++ map (_item h "library" "privateLibrary" (library_location h)) (qs_library x).
(** the selected items in the order of the trash *)
Definition listing (x : querysets) : list trash_item := py_sort before (selected x).

Definition ids_unique (x : querysets) : Prop :=
  NoDup (map en_id (qs_agents x)) /\ NoDup (map en_id (qs_sessions x)) /\ NoDup (map en_id (qs_sources x)) /\ NoDup (map en_id (qs_library x)).

Lemma item_keys kind scope location l : map item_key (map (_item h kind scope location) l) = map (pair kind) (map en_id l).
Proof. by rewrite !map_map. Qed.
Lemma kinded_keys (kind : pystr) (l : list pystr) x : x ∈ map (pair kind) l -> x.1 = kind.
Proof. intros (y & -> & _)%list_elem_of_fmap. done. Qed.
Lemma selected_keys x : ids_unique x -> NoDup (map item_key (selected x)).
Proof.
  intros (Ha & Hs & Ho & Hl). unfold selected. rewrite !map_app, !item_keys.
  assert (forall (k : pystr) (l : list pystr), NoDup l -> NoDup (map (pair k) l)) as Hk by (intros k l Hn; by apply (NoDup_fmap_2 (pair k))).
  apply NoDup_app; split; [by apply Hk|]. split; [|apply NoDup_app; split; [by apply Hk|]; split; [|apply NoDup_app; split; [by apply Hk|]; split; [|by apply Hk]]].
  all: intros y H1%kinded_keys; rewrite ?elem_of_app; intros H2; destruct_or? H2; apply kinded_keys in H2; congruence.
Qed.
Lemma listing_sorted x : ids_unique x -> StronglySorted (precedes before) (listing x).
Proof.
  intros Hu%selected_keys. apply py_sort_sorted; [apply before_trans|by apply NoDup_of_keys|]. apply keys_total; [|done].
  intros y z H1 H2. pose proof (place_lt_total _ _ H1 H2) as E. unfold place, item_key in *. congruence.
Qed.

(** what a page looks at *)
Definition parts (cursor : option trash_position) (x : querysets) : list (list trash_item) :=
  [table_part "agent" "workspace" (workspace_location h wid) cursor (qs_agents x);
   table_part "session" "workspace" (session_location h) cursor (qs_sessions x);
   table_part "source" "workspace" (workspace_location h wid) cursor (qs_sources x);
   table_part "library" "privateLibrary" (library_location h) cursor (qs_library x)].
Lemma parts_perm cursor x : concat (parts cursor x) ≡ₚ List.filter (after_item cursor) (selected x).
Proof. unfold parts, selected. cbn. rewrite !bfilter_app, app_nil_r. by rewrite !table_part_perm. Qed.
Lemma trash_items_perm cursor x : trash_items h wid cursor x ≡ₚ concat (map (take (TRASH_PAGE_SIZE + 1)) (parts cursor x)).
Proof. unfold trash_items. rewrite !py_sort_perm. unfold kind_items, parts, table_part. cbn [map concat]. by rewrite <- !firstn_map, app_nil_r. Qed.
Lemma taken_keys cursor x : ids_unique x -> NoDup (map item_key (concat (map (take (TRASH_PAGE_SIZE + 1)) (parts cursor x)))).
Proof.
  intros Hu. assert (NoDup (map item_key (concat (parts cursor x)))) as Hn.
  { rewrite (Permutation_map item_key (parts_perm cursor x)). apply selected_keys in Hu. revert Hu. generalize (selected x) as l. clear. intros l Hl.
    eapply sublist_NoDup; [exact Hl|]. apply fmap_sublist. clear. induction l as [|y l IH]; cbn; [done|]. case_match; [by constructor|by constructor]. }
  eapply sublist_NoDup; [exact Hn|]. apply fmap_sublist. generalize (parts cursor x) as p. clear. induction p as [|y p IH]; cbn; [done|]. apply sublist_app; [apply sublist_take|done].
Qed.
Lemma trash_items_sorted cursor x : ids_unique x -> StronglySorted (precedes before) (trash_items h wid cursor x).
Proof.
  intros Hu. pose proof (taken_keys cursor x Hu) as Hn. rewrite <- (Permutation_map item_key (trash_items_perm cursor x)) in Hn.
  unfold trash_items in *. cbv zeta in *. set (first := fun x y : trash_item => str_ltb _ _ || _) in *. set (items := kind_items _ _ _ _ _ _ ++ _) in *.
  apply (stable_pass ti_deleted_at first). rewrite (Permutation_map item_key (py_sort_perm _ _)) in Hn. rewrite (Permutation_map item_key (py_sort_perm _ _)) in Hn.
  apply py_sort_sorted; [intros y z u; apply (key_lt_trans (item_key y) (item_key z) (item_key u))|by apply NoDup_of_keys|].
  apply keys_total; [|done]. intros y z. apply (key_lt_total (item_key y) (item_key z)).
Qed.
(** Looking at the first rows of each table is enough for a page. *)
Lemma trash_items_take cursor x : ids_unique x ->
  take (TRASH_PAGE_SIZE + 1) (trash_items h wid cursor x) = take (TRASH_PAGE_SIZE + 1) (List.filter (after_item cursor) (listing x)).
Proof.
  intros Hu. apply (merge_takes before before_trans before_irrefl (TRASH_PAGE_SIZE + 1) (parts cursor x)).
  - destruct Hu as (? & ? & ? & ?). repeat (apply List.Forall_cons; [by apply table_part_sorted|]). apply List.Forall_nil.
  - by apply trash_items_sorted.
  - apply filter_sorted. by apply listing_sorted.
  - apply trash_items_perm.
  - rewrite parts_perm. apply bfilter_perm, py_sort_perm.
Qed.
End tables.

(** ** Rows have distinct identities *)

Lemma entries_unique {R} (f : pystr -> R -> option entry) t :
  (forall id r e, f id r = Some e -> en_id e = id) -> NoDup (map en_id (entries f t)).
Proof.
  intros Hf. eapply sublist_NoDup; [apply (NoDup_fst_map_to_list t)|]. unfold entries. generalize (map_to_list t) as l.
  induction l as [|[k r] l IH]; cbn; [done|]. destruct (f k r) as [e|] eqn:E; cbn; [|by apply sublist_cons].
  rewrite (Hf _ _ _ E). by apply sublist_skip.
Qed.
Lemma querysets_unique h user wid access now : ids_unique (trash_querysets h user wid access now).
Proof.
  repeat split; apply entries_unique; intros id r e; unfold agent_entry, session_entry, source_entry, library_entry; cbv zeta;
    intros (d & _ & H)%bind_Some; case_match; by simplify_eq.
Qed.
Lemma bfilter_sublist {A} (P : A -> bool) l : List.filter P l `sublist_of` l.
Proof. induction l as [|x l IH]; cbn; [done|]. case_match; by constructor. Qed.
(** what every table satisfies, and every part of it, holds after filtering *)
Definition each_table (C : list entry -> Prop) (x : querysets) : Prop := C (qs_agents x) /\ C (qs_sessions x) /\ C (qs_sources x) /\ C (qs_library x).
Lemma filtered_each {PL : Platform} (C : list entry -> Prop) f x :
  (forall l l', l `sublist_of` l' -> C l' -> C l) -> each_table C x -> each_table C (_filter_querysets f x).
Proof.
  intros HC H. assert (forall p l, C l -> C (List.filter p l)) as Hf by (intros p l; apply HC, bfilter_sublist).
  assert (forall l, C l -> C []) as Hn by (intros l; apply HC, sublist_nil_l).
  assert (forall b l, C l -> C (kept_when b l)) as Ho by (intros [] l Hl; [done|by eapply Hn]).
  unfold _filter_querysets. assert (each_table C (by_query f x)) as H1 by (unfold by_query; case_match; [done|]; destruct H as (? & ? & ? & ?); repeat split; cbn; auto).
  assert (each_table C (by_actor f (by_query f x))) as H2 by (unfold by_actor; case_match; [done|]; destruct H1 as (? & ? & ? & ?); repeat split; cbn; auto).
  generalize dependent (by_actor f (by_query f x)). clear - Hf Hn Ho. intros x (? & ? & ? & ?). unfold by_location, by_scope, by_kind.
  repeat case_match; repeat split; cbn; eauto.
Qed.
Lemma filtered_unique {PL : Platform} f x : ids_unique x -> ids_unique (_filter_querysets f x).
Proof.
  intros H. apply (filtered_each (fun l => NoDup (map en_id l)) f x); [|exact H]. intros l l' Hl Hn. eapply sublist_NoDup; [exact Hn|]. by apply fmap_sublist.
Qed.

(** ** Cursors are read back *)

Definition plain_text (s : pystr) : Prop := Forall (fun c => 32 <= c <= 126) (code_points s).
#[global] Instance plain_text_dec s : Decision (plain_text s).
Proof. unfold plain_text. apply _. Defined.
Definition text_fields (d : list (pystr * pystr)) : list (pystr * value) := map (fun kv => (kv.1, VStr kv.2)) d.
Lemma dump_str_plain s : plain_text s -> Forall (fun c => 32 <= c <= 126) (dump_str s).
Proof.
  intros H. apply List.Forall_cons; [lia|]. apply Forall_app. split; [|by repeat constructor].
  unfold plain_text in H. induction H as [|c l Hc _ IH]; [constructor|]. cbn [map concat]. apply Forall_app. split; [|done].
  unfold escape_char. repeat case_match; bool_inv; repeat (apply List.Forall_cons; [lia|]); try apply List.Forall_nil; lia.
Qed.
Lemma dump_fields_plain d : Forall (fun kv => plain_text kv.1 /\ plain_text kv.2) d ->
  Forall (fun c => 32 <= c <= 126) (dump (VDict (text_fields d))).
Proof.
  intros H. change (Forall (fun c => 32 <= c <= 126) (123 :: dump_members (text_fields d))). apply List.Forall_cons; [lia|].
  induction H as [|[k v] d [Hk Hv] _ IH]; [by repeat constructor|]. cbn [fst snd] in *. unfold text_fields in *. cbn [map fst snd].
  destruct (map _ d) as [|kv d'] eqn:E.
  - change (Forall (fun c => 32 <= c <= 126) (dump_str k ++ 58 :: dump_str v ++ [125])). rewrite Forall_app, Forall_cons, Forall_app.
    split_and!; [by apply dump_str_plain|lia|lia|by apply dump_str_plain|by repeat constructor].
  - change (Forall (fun c => 32 <= c <= 126) (dump_str k ++ 58 :: dump_str v ++ 44 :: dump_members (kv :: d'))). rewrite Forall_app, Forall_cons, Forall_app, Forall_cons.
    split_and!; [by apply dump_str_plain|lia|lia|by apply dump_str_plain|lia|lia|done].
Qed.
Lemma fields_dumpable d : NoDup (map fst d) -> Forall (fun kv => plain_text kv.1 /\ plain_text kv.2) d -> dumpable (VDict (text_fields d)).
Proof.
  intros Hn H. apply dumpable_dict. split; [unfold text_fields; by rewrite map_map|].
  assert (forall s, plain_text s -> str_ok s) as Hok by (intros s Hs; eapply Forall_impl; [exact Hs|]; cbn; lia).
  clear Hn. induction H as [|kv d [Hk Hv] _ IH]; [constructor|]. apply List.Forall_cons; [|done]. split; by apply Hok.
Qed.
Lemma ascii_dump d : Forall (fun kv => plain_text kv.1 /\ plain_text kv.2) d -> json_dumps_ascii (VDict (text_fields d)) = json_dumps (VDict (text_fields d)).
Proof.
  intros H%dump_fields_plain. unfold json_dumps_ascii, json_dumps. f_equal. cbn [code_points]. revert H. generalize (dump (VDict (text_fields d))) as l.
  induction 1 as [|c l Hc _ IH]; [done|]. cbn [map concat]. rewrite IH. unfold ascii_escape. replace ((32 <=? c) && (c <=? 126)) with true by lia. done.
Qed.

Lemma b64_length_mod l : zlen (b64_encode l) mod 4 <> 1.
Proof.
  induction l as [l IH] using (induction_ltof1 _ (@length Z)). unfold ltof in IH. destruct l as [|a [|b [|c l]]]; try done. cbn [b64_encode].
  rewrite !zlen_cons. specialize (IH l ltac:(cbn; lia)). Z.to_euclidean_division_equations. lia.
Qed.
Lemma b64_decoded l : Forall (fun b => 0 <= b < 256) l -> b64decode_padded (PyStr (b64_encode l)) = Some l.
Proof.
  intros Hl. unfold b64decode_padded. cbn [code_points]. set (e := b64_encode l). set (p := padding_of e).
  pose proof (b64_encode_chars l Hl) as Hc. fold e in Hc. rewrite forallb_forall in Hc.
  assert (forall m, drop_while (fun c => negb (c =? 61)) (e ++ replicate m 61) = replicate m 61) as Hd.
  { intros m. revert Hc. generalize e as x. clear. induction x as [|c x IH]; intros Hc; cbn.
    - by destruct m.
    - specialize (Hc c ltac:(by left)) as Hc1. unfold is_ascii_alnum in Hc1. replace (negb (c =? 61)) with true by lia. apply IH. intros d Hin. apply Hc. by right. }
  cbv zeta. rewrite Hd. rewrite length_app, Nat.add_sub, take_app_length.
  assert (0 <= p <= 2) as Hp by (pose proof (b64_length_mod l); unfold p, padding_of; fold e in H; Z.to_euclidean_division_equations; lia).
  replace (forallb _ _) with true; [|symmetry; apply forallb_forall; intros c Hin%list_elem_of_In%elem_of_replicate_inv; by subst].
  replace (zlen (replicate (Z.to_nat p) 61)) with p by (unfold zlen; rewrite length_replicate; lia).
  fold p. rewrite Z.eqb_refl. replace (p <=? 2) with true by lia. cbn [andb].
  assert (map standard_alphabet e = e) as ->.
  { revert Hc. generalize e as x. clear. induction x as [|c x IH]; intros Hc; [done|]. cbn [map]. rewrite IH by (intros; apply Hc; by right).
    specialize (Hc c ltac:(by left)). unfold is_ascii_alnum in Hc. unfold standard_alphabet. f_equal. repeat case_match; lia. }
  by apply b64_decode_encode.
Qed.

Definition decoded (raw : pystr) : option value :=
  data ← b64decode_padded raw; text ← utf8_decode data; match json_loads text with Ok v => Some v | Err _ => None end.
Lemma cursor_decoded d : NoDup (map fst d) -> Forall (fun kv => plain_text kv.1 /\ plain_text kv.2) d ->
  decoded (encode_trash_cursor (text_fields d)) = Some (VDict (text_fields d)).
Proof.
  intros Hn Hd. unfold decoded, encode_trash_cursor. rewrite (ascii_dump d Hd). pose proof (dump_fields_plain d Hd) as Hp. cbn [json_dumps code_points].
  rewrite b64_decoded by (eapply Forall_impl; [exact Hp|]; cbn; lia). cbn [mbind option_bind].
  rewrite (utf8_decode_encode (PyStr (dump (VDict (text_fields d)))) (dump (VDict (text_fields d)))).
  - cbn [mbind option_bind]. change (PyStr (dump (VDict (text_fields d)))) with (json_dumps (VDict (text_fields d))). by rewrite json_loads_dumps by by apply fields_dumpable.
  - apply utf8_encode_ascii. eapply Forall_impl; [exact Hp|]. cbn. lia.
Qed.

(** ** A request with a cursor *)

Definition with_cursor (q : query) (c : pystr) : query := q ++ [("cursor", c)].
Lemma getlist_app name q q' : getlist name (q ++ q') = getlist name q ++ getlist name q'.
Proof. unfold getlist. by rewrite filter_app, map_app. Qed.
Lemma getlist_cursor name q c : name <> "cursor" -> getlist name (with_cursor q c) = getlist name q.
Proof. intros Hne. unfold with_cursor. rewrite getlist_app. unfold getlist at 2. rewrite filter_cons_False by (cbn; congruence). cbn. apply app_nil_r. Qed.
Lemma no_cursor_getlist q : q_get "cursor" q = None -> getlist "cursor" q = [].
Proof. unfold q_get. by rewrite last_None. Qed.
Lemma getlist_the_cursor q c : q_get "cursor" q = None -> getlist "cursor" (with_cursor q c) = [c].
Proof. intros H%no_cursor_getlist. unfold with_cursor. by rewrite getlist_app, H. Qed.
Lemma filters_with_cursor q c : _read_filters (with_cursor q c) = _read_filters q.
Proof. unfold _read_filters, is_given, _query_value, q_get. by rewrite !getlist_cursor by done. Qed.
Lemma single_with_cursor q c : q_get "cursor" q = None -> single_values q = true -> single_values (with_cursor q c) = true.
Proof.
  intros Hq Hs. unfold single_values in *. rewrite forallb_forall in *. intros [n v] Hin. cbn. apply bool_decide_eq_true.
  destruct (decide (n = "cursor")) as [->|Hne]; [by rewrite getlist_the_cursor|]. rewrite getlist_cursor by done.
  apply in_app_or in Hin as [Hin|[[= <- <-]|[]]]; [|done]. specialize (Hs _ Hin). by apply bool_decide_eq_true in Hs.
Qed.
Lemma fields_with_cursor q c : fields_within QUERY_FIELDS q = true -> fields_within QUERY_FIELDS (with_cursor q c) = true.
Proof. intros H. unfold fields_within, with_cursor in *. by rewrite forallb_app, H. Qed.

Lemma trash_page_take {A} (rows rows' : list A) kind f : take (TRASH_PAGE_SIZE + 1) rows = take (TRASH_PAGE_SIZE + 1) rows' -> trash_page rows kind f = trash_page rows' kind f.
Proof. unfold trash_page. by intros ->. Qed.
Lemma trash_page_more {A} (rows : list A) kind f : (TRASH_PAGE_SIZE < length rows)%nat ->
  exists x, rows !! pred TRASH_PAGE_SIZE = Some x /\
    trash_page rows kind f = (take TRASH_PAGE_SIZE rows, Some (encode_trash_cursor (("kind", VStr kind) :: f x)), true).
Proof.
  intros H. destruct (lookup_lt_is_Some_2 rows (pred TRASH_PAGE_SIZE)) as [x Hx]; [unfold TRASH_PAGE_SIZE in *; lia|]. exists x. split; [done|].
  unfold trash_page. rewrite take_take. replace (TRASH_PAGE_SIZE `min` (TRASH_PAGE_SIZE + 1))%nat with TRASH_PAGE_SIZE by (unfold TRASH_PAGE_SIZE; lia).
  assert (last (take TRASH_PAGE_SIZE rows) = Some x) as ->.
  { rewrite last_lookup, length_take. replace (pred (TRASH_PAGE_SIZE `min` length rows)) with (pred TRASH_PAGE_SIZE) by lia. rewrite lookup_take_lt; [done|unfold TRASH_PAGE_SIZE; lia]. }
  rewrite bool_decide_eq_true_2; [done|]. rewrite length_take. lia.
Qed.
Lemma trash_page_end {A} (rows : list A) kind f : (length rows <= TRASH_PAGE_SIZE)%nat -> trash_page rows kind f = (rows, None, false).
Proof.
  intros H. unfold trash_page. rewrite (take_ge rows (TRASH_PAGE_SIZE + 1)), take_ge by lia. rewrite bool_decide_eq_false_2 by lia. by destruct (last rows).
Qed.

(** ** Following the cursors *)

Section following.
Context {PL : Platform} (parse_datetime : pystr -> parsed_time) (isoformat : Z -> pystr).
Context (h : hosted) (user : Z) (wid : pystr) (now : Z).

(** a client that asks for the next page until there is none *)
Fixpoint follow_trash (fuel : nat) (q : query) (cursor : option pystr) : option (list (list trash_item)) :=
  match fuel with
  | O => None
  | S fuel =>
      match list_trash parse_datetime isoformat h user wid (match cursor with None => q | Some c => with_cursor q c end) now with
      | Ok (TrashPage page _ next _) =>
          match next with None => Some [page] | Some c => pages ← follow_trash fuel q (Some c); Some (page :: pages) end
      | _ => None
      end
  end.

Definition identity_ok (id : pystr) : Prop := plain_text id /\ id <> "".
Definition identities_ok : Prop :=
  map_Forall (fun id _ => identity_ok id) (h_agents h) /\ map_Forall (fun id _ => identity_ok id) (h_sessions h) /\
  map_Forall (fun id _ => identity_ok id) (h_sources h) /\ map_Forall (fun id _ => identity_ok id) (library (h_store h)).

Hypothesis instants_are_read_back : forall t, parse_datetime (isoformat t) = Instant t.
Hypothesis instants_are_plain : forall t, plain_text (isoformat t).
Hypothesis tables_ok : identities_ok.
Context (q : query) (member : pystr * membership_row) (access : gmap pystr access_level) (filters : trash_filters) (filter_hash : pystr).
Hypothesis is_member : workspace_membership_for (identity h) (Some user) wid WORKSPACE_ROLES = Ok (Some member).
Hypothesis has_access : source_access_map_for_workspace_member (access_db (source_view h)) (Some user) wid = Ok (Some access).
Hypothesis no_cursor : q_get "cursor" q = None.
Hypothesis query_ok : fields_within QUERY_FIELDS q = true /\ single_values q = true.
Hypothesis filters_ok : _read_filters q = Ok filters.
Hypothesis hash_ok : _filter_hash filters = Ok filter_hash.

Definition chosen : querysets := _filter_querysets filters (trash_querysets h user wid access now).
Definition sees (q' : query) (rows : list trash_item) : Prop :=
  exists options, list_trash parse_datetime isoformat h user wid q' now =
    (let '(page, next, more) := trash_page rows "trash" (cursor_fields isoformat filter_hash) in Ok (TrashPage page options next more)).

Lemma chosen_unique : ids_unique chosen.
Proof. apply filtered_unique, querysets_unique. Qed.

Lemma sees_after q' cursor : read_request parse_datetime q' = Ok (filters, filter_hash, cursor) ->
  sees q' (List.filter (after_item cursor) (listing h wid chosen)).
Proof.
  intros Hr. unfold sees, list_trash. rewrite is_member. cbn [mbind res_bind]. rewrite has_access. cbn [mbind res_bind]. rewrite Hr. cbv zeta.
  rewrite (trash_page_take _ _ _ _ (trash_items_take h wid cursor chosen chosen_unique)). eexists. by destruct (trash_page _ _ _) as [[page next] more].
Qed.
Lemma sees_first : sees q (listing h wid chosen).
Proof.
  rewrite <- (bfilter_all (after_item None) (listing h wid chosen)) by done. apply sees_after. unfold read_request. rewrite filters_ok. cbn [mbind res_bind].
  rewrite hash_ok. cbn [mbind res_bind]. unfold read_trash_cursor. destruct query_ok as [-> ->]. cbn [andb require mbind res_bind]. by rewrite no_cursor.
Qed.

Lemma chosen_identities : each_table (Forall (fun e => identity_ok (en_id e))) chosen.
Proof.
  apply filtered_each; [intros l l' Hl Hf; rewrite Forall_forall in *; intros e He; apply Hf; by eapply elem_of_sublist|].
  destruct tables_ok as (Ha & Hs & Ho & Hl).
  assert (forall R (f : pystr -> R -> option entry) t, (forall id r e, f id r = Some e -> en_id e = id) -> map_Forall (fun id _ => identity_ok id) t ->
            Forall (fun e => identity_ok (en_id e)) (entries f t)) as He.
  { intros R f t Hf Ht. rewrite Forall_forall. intros e. unfold entries. rewrite list_elem_of_omap. intros ([k r] & Hk%elem_of_map_to_list & E).
    rewrite (Hf _ _ _ E). by apply (Ht _ _ Hk). }
  repeat split; apply He; try done; intros id r e; unfold agent_entry, session_entry, source_entry, library_entry; cbv zeta;
    intros (d & _ & H)%bind_Some; case_match; by simplify_eq.
Qed.
Lemma listed_item x : x ∈ listing h wid chosen -> ti_kind x ∈ TRASH_KINDS /\ identity_ok (ti_id x).
Proof.
  unfold listing. rewrite (py_sort_perm before). unfold selected. rewrite !elem_of_app, !list_elem_of_fmap. destruct chosen_identities as (Ha & Hs & Ho & Hl).
  rewrite Forall_forall in Ha, Hs, Ho, Hl. intros [(e & -> & He)|[(e & -> & He)|[(e & -> & He)|(e & -> & He)]]]; (split; [cbn; by_decide|cbn; auto]).
Qed.

Definition payload_of (x : trash_item) : list (pystr * pystr) :=
  [("kind", "trash"); ("deletedAt", isoformat (ti_deleted_at x)); ("itemKind", ti_kind x); ("id", ti_id x); ("filterHash", filter_hash)]%py.
Lemma hash_plain : plain_text filter_hash.
Proof.
  unfold _filter_hash in hash_ok. apply bind_Ok in hash_ok as (data & _ & [= <-]). destruct (sha256_hex_wf data) as [_ H]. unfold chars_all in H.
  apply forallb_Forall in H. eapply Forall_impl; [exact H|]. intros c. cbn. unfold is_lower_hex. lia.
Qed.
Lemma payload_plain x : ti_kind x ∈ TRASH_KINDS -> plain_text (ti_id x) -> Forall (fun kv => plain_text kv.1 /\ plain_text kv.2) (payload_of x).
Proof.
  intros Hk Hid. assert (forall s, bool_decide (plain_text s) = true -> plain_text s) as Hc by (intros s; apply bool_decide_eq_true_1).
  assert (plain_text (ti_kind x)) as Hkind.
  { assert (Forall plain_text TRASH_KINDS) as H by (repeat (apply List.Forall_cons; [by apply Hc|]); apply List.Forall_nil).
    rewrite Forall_forall in H. by apply H. }
  repeat (apply List.Forall_cons; [split; [by apply Hc|]|]); cbn [snd]; [by apply Hc|apply instants_are_plain|done|done|apply hash_plain|apply List.Forall_nil].
Qed.
Lemma sees_next i x : listing h wid chosen !! i = Some x ->
  sees (with_cursor q (encode_trash_cursor (("kind", VStr "trash") :: cursor_fields isoformat filter_hash x))) (drop (S i) (listing h wid chosen)).
Proof.
  intros Hx. destruct (listed_item x (list_elem_of_lookup_2 _ _ _ Hx)) as [Hkind [Hid Hne]].
  rewrite <- (filter_after before before_trans before_irrefl i x _ (listing_sorted h wid chosen chosen_unique) Hx).
  apply (sees_after _ (Some (Position (ti_deleted_at x) (ti_kind x) (ti_id x)))). unfold read_request. rewrite filters_with_cursor, filters_ok. cbn [mbind res_bind].
  rewrite hash_ok. cbn [mbind res_bind]. unfold read_trash_cursor. destruct query_ok as [Hf Hs]. rewrite fields_with_cursor, single_with_cursor by done.
  cbn [andb require mbind res_bind]. unfold q_get. rewrite getlist_the_cursor by done. cbn [list.last].
  change (("kind", VStr "trash") :: cursor_fields isoformat filter_hash x) with (text_fields (payload_of x)).
  pose proof (cursor_decoded (payload_of x) ltac:(cbn; by_decide) (payload_plain x Hkind Hid)) as Hdec. unfold decoded in Hdec. rewrite Hdec. cbn [from_option_res mbind res_bind].
  set (v := VDict (text_fields (payload_of x))). replace (keys_are _ v && is_str "trash" (get "kind" v)) with true by reflexivity. cbn [require mbind res_bind].
  unfold cursor_position. change (get "deletedAt" v) with (VStr (isoformat (ti_deleted_at x))). change (get "itemKind" v) with (VStr (ti_kind x)).
  change (get "id" v) with (VStr (ti_id x)). change (get "filterHash" v) with (VStr filter_hash). cbn [as_str from_option_res mbind res_bind not_hashable].
  rewrite instants_are_read_back. cbn [mbind res_bind]. replace (str_in TRASH_KINDS (VStr (ti_kind x))) with true; [|symmetry; by apply bool_decide_eq_true].
  cbn [require mbind res_bind]. rewrite (proj2 (is_empty_false _) Hne). unfold is_str. cbn [as_str]. rewrite bool_decide_eq_true_2 by done. done.
Qed.

Lemma follow_rest fuel i cursor : sees (match cursor with None => q | Some c => with_cursor q c end) (drop i (listing h wid chosen)) ->
  (length (drop i (listing h wid chosen)) < fuel)%nat ->
  exists pages, follow_trash fuel q cursor = Some pages /\ concat pages = drop i (listing h wid chosen) /\ Forall (fun p => (length p <= TRASH_PAGE_SIZE)%nat) pages.
Proof.
  revert i cursor. induction fuel as [|fuel IH]; intros i cursor [options Hs] Hlen; [lia|]. cbn [follow_trash]. rewrite Hs.
  set (rest := drop i (listing h wid chosen)) in *. destruct (decide (TRASH_PAGE_SIZE < length rest)%nat) as [Hm|Hm].
  - destruct (trash_page_more rest "trash" (cursor_fields isoformat filter_hash) Hm) as (x & Hx & ->). unfold rest in Hx. rewrite lookup_drop in Hx.
    destruct (IH (S (i + pred TRASH_PAGE_SIZE)) (Some (encode_trash_cursor (("kind", VStr "trash") :: cursor_fields isoformat filter_hash x)))) as (pages & Hp & Hc & Hl).
    + by apply sees_next.
    + unfold rest in *. rewrite !length_drop in *. unfold TRASH_PAGE_SIZE in *. lia.
    + rewrite Hp. cbn [mbind option_bind]. eexists. split; [reflexivity|]. split.
      * cbn [concat]. rewrite Hc. transitivity (take TRASH_PAGE_SIZE rest ++ drop TRASH_PAGE_SIZE rest); [|apply take_drop]. f_equal. unfold rest. rewrite drop_drop. f_equal. unfold TRASH_PAGE_SIZE. lia.
      * constructor; [rewrite length_take; lia|done].
  - rewrite trash_page_end by lia. eexists. split; [reflexivity|]. split; [cbn; apply app_nil_r|]. constructor; [lia|constructor].
Qed.

(** A client that follows the cursors of the trash of a workspace comes to the end after finitely many pages of at
    most fifty items and has been shown every selected item exactly once, newest first and then by kind and identity
    (C19): each page merges the first rows of four tables after the cursor, and misses and repeats nothing.  [chosen]
    are the rows of the four tables that can still be restored and pass the filters; instants must be printed in plain
    text that is read back, and identities must be plain text. *)
Theorem trash_is_listed_completely :
  exists pages, follow_trash (S (length (selected h wid chosen))) q None = Some pages /\
    concat pages ≡ₚ selected h wid chosen /\ StronglySorted (precedes before) (concat pages) /\
    Forall (fun page => (length page <= TRASH_PAGE_SIZE)%nat) pages.
Proof.
  destruct (follow_rest (S (length (selected h wid chosen))) 0 None sees_first) as (pages & Hp & Hc & Hl).
  - rewrite drop_0. unfold listing. rewrite (Permutation_length (py_sort_perm before _)). lia.
  - exists pages. rewrite drop_0 in Hc. rewrite Hc. split; [done|]. split; [apply py_sort_perm|]. split; [apply listing_sorted, chosen_unique|done].
Qed.
End following.

(** ** A concrete trash *)

Section witness.
#[local] Existing Instance ascii_platform.

(** instants are printed as numbers *)
Definition read_int (s : pystr) : Z := match code_points s with 45 :: l => - digits_value l | l => digits_value l end.
Definition read_instant (s : pystr) : parsed_time := if bool_decide (int_str (read_int s) = s) then Instant (read_int s) else NoTime.
Lemma read_int_str z : read_int (int_str z) = z.
Proof.
  unfold read_int, int_str, int_chars. cbn [code_points]. destruct (Z.ltb_spec z 0) as [Hz|Hz].
  - destruct (digits_spec (- z) ltac:(lia)) as (c & ds & -> & _ & Hv & _). lia.
  - destruct (digits_spec z Hz) as (c & ds & -> & Hd & Hv & _). cbn [forallb] in Hd. unfold is_digit in Hd. destruct c as [|p|p]; try lia.
    do 6 (destruct p; try exact Hv). lia.
Qed.
Lemma instants_read z : read_instant (int_str z) = Instant z.
Proof. unfold read_instant. rewrite read_int_str. by rewrite bool_decide_eq_true_2. Qed.
Lemma int_str_plain z : plain_text (int_str z).
Proof.
  assert (forall n, 0 <= n -> Forall (fun c => 32 <= c <= 126) (digits n)) as Hd.
  { intros n Hn. destruct (digits_spec n Hn) as (c & ds & -> & Hd & _). apply forallb_Forall in Hd. eapply Forall_impl; [exact Hd|]. unfold is_digit. cbn. lia. }
  unfold plain_text, int_str, int_chars. cbn [code_points]. destruct (Z.ltb_spec z 0); [apply List.Forall_cons; [lia|]|]; apply Hd; lia.
Qed.

Definition trash_agent (i : Z) : pystr * agent_full :=
  ("agent-" +:+ int_str i, AgentFull (Agent "ws-1" 7 None "helper" "" "" Deleted 0) "" (Some (i / 2)) (Some 7) None).
Definition full_trash : hosted :=
  Hosted (Db {[7 := User "ada" "ada@x" "Ada" "" true]} {["ws-1" := Workspace "team" WorkspaceActive]} {["m-7" := Membership "ws-1" 7 Admin None 0]} ∅ ∅ ∅ ∅ ∅ ∅ ∅ ∅ ∅ ∅ ∅)
    (<["agent-live" := AgentFull (Agent "ws-1" 7 None "main" "" "" Active 0) "" None None None]> (list_to_map (map trash_agent (seqZ 10 60))))
    {["session-1" := SessionFull (Session "ws-1" 7 "agent-live" Deleted) None "old chat" false (Some 20) (Some 7) None (Candidate 0 "" 0 0 0) 0 0]}
    ∅ ∅ ∅ ∅ ∅ ∅ ∅ ∅ ∅
    {["source-1" := SourceState "ws-1" UploadedFile "papers" ODeleted "" (Some 20) (Some 7) None (Some OReady) 7]}
    (Assets.Store {["note-1" := LibraryObject 7 "draft" LNote "" None "" "" None ODeleted "" (Some 20) None None (Some OReady) 0 0 0]} ∅ ∅ ∅ ∅ ∅).
Definition trash_query : query := [("query", " E ")]%py.
Definition trash_member : pystr * membership_row := ("m-7"%py, Membership "ws-1" 7 Admin None 0).
Definition trash_access : gmap pystr access_level := {["source-1"%py := AccessControl]}.
Definition trash_selection : trash_filters := TrashFilters "E" "" "" "" "" "".
Definition trash_hash : pystr := match _filter_hash trash_selection with Ok x => x | Err _ => "" end.

(** the 60 agents and the source, whose names contain the letter, on two pages *)
Example two_trash_pages : map (@length trash_item) <$> follow_trash read_instant int_str full_trash 7 "ws-1" 100 3 trash_query None = Some [50; 11]%nat.
Proof. vm_compute. reflexivity. Qed.

#[local] Instance identity_ok_dec id : Decision (identity_ok id).
Proof. unfold identity_ok. apply _. Defined.
Lemma full_trash_identities : identities_ok full_trash.
Proof. split; [|split; [|split]]; apply (bool_decide_eq_true_1 (map_Forall _ _)); vm_compute; reflexivity. Qed.
End witness.

Lemma trash_is_listed_completely_witness :
  exists pages, follow_trash (PL := ascii_platform) read_instant int_str full_trash 7 "ws-1" 100
      (S (length (selected full_trash "ws-1" (chosen (PL := ascii_platform) full_trash 7 "ws-1" 100 trash_access trash_selection)))) trash_query None = Some pages /\
    concat pages ≡ₚ selected full_trash "ws-1" (chosen (PL := ascii_platform) full_trash 7 "ws-1" 100 trash_access trash_selection) /\
    StronglySorted (precedes before) (concat pages) /\
    Forall (fun page => (length page <= TRASH_PAGE_SIZE)%nat) pages.
Proof.
  apply (trash_is_listed_completely (PL := ascii_platform) read_instant int_str full_trash 7 "ws-1" 100 instants_read int_str_plain full_trash_identities
           trash_query trash_member trash_access trash_selection trash_hash); [vm_compute; reflexivity..|split; vm_compute; reflexivity|vm_compute; reflexivity|vm_compute; reflexivity].
Defined.
